(* ===== verification/_CoqProject ===== *)
-Q . S2P
Prelude.v
BinaryData.v
BinaryIO.v
Hashing.v
Merkle.v
StdMap.v
MapSums.v
DBUtils.v
BlockHeader.v
HeadersDB.v
HeadersDBFormat.v
HeadersDBProps.v
Blockchain.v
BlockchainSpec.v
BlockchainOrganize.v
BlockchainProps.v
BlockchainExamples.v
BlockchainCorrect.v
BlockchainDB.v
BlockchainDBProps.v
ScriptUtils.v
TxLength.v
StoredTxOut.v
ScriptHistory.v
ScriptHistoryProps.v
TxClasses.v
ScriptParser.v
TxEvalState.v
SigHash.v
ScriptParserProps.v
StackItem.v
Recipient.v
Interpreter.v
DerSig.v
Resolver.v
TxFilter.v
TxFilterProps.v
BlockData.v
BlockDataProps.v
Scanner.v
ScannerSpec.v
ScannerProps.v
ScannerThreads.v
ScannerLedger.v
ScannerCorrect.v
ScannerBatch.v
ScannerBalance.v
ScannerTally.v
ScannerChain.v
ScannerExamples.v
TxClassesProps.v
Verifier.v
InterpreterFrame.v
InterpreterDepth.v
SigHashProps.v
InterpreterProps.v
MultisigProps.v
WitnessProps.v
ResolverProps.v
VerifierProps.v
VerifierCorrect.v
VerifierOutcomes.v
Spender.v
SpenderProps.v
Signer.v
SignerState.v
SignerProps.v
SignerCorrect.v
SignerVerified.v
InterpreterControl.v
BlockFile.v
BlockFileParse.v
BlockFileChain.v
BlockFileProps.v
BlockWorkers.v
BlockWorkersInv.v
BlockWorkersProps.v
Bech32.v
Bech32Ecc.v
