(* ===== verification/Prelude.v ===== *)
(** * A verification library for Bitcoin Armory

    Armory is a bitcoin wallet.  Its block database (the C++ under
    cppForSwig/) reads the block files of a bitcoin node, parses blocks and
    transactions, orders the headers into a longest chain, stores them in LMDB
    and recognises the scripts of the wallet's addresses; the JavaScript under
    cppForSwig/bech32/ encodes and checks segregated-witness addresses.  This
    library models that core logic and proves it correct.  All paths below are
    under src/.

    ** How the files follow the code

    The byte layer, on which everything else stands:
    - Prelude (this file): bytes, machine integers at their width ([wrap],
      [is_uint]), integers to bytes and back, the type [result] of computations
      that may throw ([Err e], one [exn] per class of exception) or be
      undefined ([Err UB]: a read outside a buffer, a null pointer, an
      uninitialised member), and the tactics and hint databases of the library.
    - BinaryData: the class [BinaryData] (BinaryData.h, BinaryData.cpp).
    - BinaryIO: [BinaryRefReader], [BinaryReader], [BinaryWriter], [BitPacker],
      [BitUnpacker], var-ints (BinaryData.h, BtcUtils.h).  [Reader] is the
      monad of [BinaryRefReader]; [parses] and [safe] are the two things a
      record format needs of a reader, and [Codec] the interface.
    - Hashing: SHA-256 and RIPEMD-160 (Crypto++) as the operations of a class
      [HashFns] that promises the size of a digest and nothing else.
    - StdMap: [std::map] as the list of its entries in key order, because the
      code's results depend on the order of iteration; MapSums: erasing, the
      contents of a map up to order, and 64-bit sums over them.

    Blocks, transactions and scripts:
    - Merkle: merkle trees and the class [PartialMerkleTree] (BtcUtils.h,
      PartialMerkle.h).
    - TxLength: where the parts of a serialised transaction are (BtcUtils.h).
    - TxClasses: the classes [OutPoint], [TxIn], [TxOut] and [Tx]
      (TxClasses.h, TxClasses.cpp), which keep the bytes of a transaction and
      make its parts on demand; TxClassesProps has the theorems.
    - ScriptUtils: classification of scripts, script addresses (BtcUtils.h,
      BtcUtils.cpp, TxOutScrRef.h).
    - ScriptParser: the opcodes and the class [ScriptParser] with the integers
      of scripts (BtcUtils.h, Script.h, Script.cpp); ScriptParserProps has its
      lemmas.
    - TxEvalState: what the verification of an input records (TxEvalState.h,
      TxEvalState.cpp).
    - SigHash: what a signature signs ([SigHashData] and its children), over
      the interface [TransactionStub] of the transaction (Transactions.h,
      Transactions.cpp); SigHashProps has the theorems, over the abstract
      transactions [Tx] of TxLength.
    - Interpreter: the classes [StackInterpreter] and [StackInterpreter_BCH]
      (Script.h, Script.cpp).  [Script] is the monad of the interpreter and the
      mutable members of the stub; an exception keeps the state it was thrown
      in, because the verifier and OP_IF go on with it.  Crypto++'s keys are
      the interface [CryptoECDSA].  A script is read where it is stored:
      [Buffer] says whose memory that is, and a read of a redeem script that
      has been overwritten, or of the script a finished call has made, is
      [Err UB].  InterpreterFrame says what no script can change,
      InterpreterDepth what fuel and depth decide, InterpreterControl how
      conditionals and redeem scripts run, InterpreterProps, MultisigProps and
      WitnessProps what the scripts of standard outputs do.
    - Verifier: the class [TransactionVerifier] as a [TransactionStub]
      (Transactions.h, Transactions.cpp); VerifierProps, VerifierCorrect and
      VerifierOutcomes have the theorems.

    Signing:
    - StackItem: the items of the stack an input brings (Script.h, Script.cpp).
    - Recipient: the outputs a transaction pays to (ScriptRecipient.h,
      Signer.cpp).
    - DerSig: the DER form of a signature (BtcUtils.cpp, EncryptionUtils.cpp).
    - Resolver: the class [StackResolver], which runs a script backwards to
      find what an input must bring (Script.h, Script.cpp).  Its entries are
      behind [shared_ptr]s that several of them hold, so [sr_heap] is a store
      and a pointer an index into it.  [Resolve] is its monad, over the state
      of what is behind the proxy that signs: the interfaces [SignerProxy] and
      [ResolverFeed] (the wallet).  ResolverProps runs it on the standard
      outputs.
    - Spender: the class [ScriptSpender], one input to be signed, and the
      serialisation of [UTXO] (Signer.h, Signer.cpp, TxClasses.h,
      TxClasses.cpp); SpenderProps has its theorems.
    - Signer: the classes [Signer] and [Signer_BCH] (Signer.h, Signer.cpp),
      which put everything together: the resolver asks the signer for
      signatures while the signer's loop runs, and the signer is a
      [TransactionStub] for the data to sign.  [Sign] is the monad; Crypto++'s
      private-key operation is the interface [BTC_SIGNER], which is given the
      number of the random draw.  SignerState has the theorems on the state
      that signers exchange, SignerProps and SignerCorrect what [sign] does,
      SignerVerified that what it makes is accepted by Verifier.
    - Bech32, Bech32Ecc: the JavaScript address codecs, the reference one and
      the one that locates errors.

    The chain of headers and its database:
    - DBUtils: the keys of blocks, transactions and outputs (DBUtils.h,
      DBUtils.cpp, TxClasses.cpp).
    - BlockHeader: a header and its difficulty as a binary64 number
      (BlockObj.h, BlockObj.cpp, BlockDataMap.cpp, BtcUtils.h).
    - Blockchain: the class [Blockchain] (Blockchain.h, Blockchain.cpp).  Its
      state is a record with the maps of the class and [heap_], the store of
      the headers the [shared_ptr]s of the maps point to: a header changed
      through one map is changed for all.  [Chain] is the state monad.
      BlockchainSpec says what a chain, its sum and an organised state are;
      BlockchainOrganize and BlockchainProps hold the lemmas,
      BlockchainExamples concrete chains, BlockchainCorrect the theorems.
    - HeadersDB: the records of the HEADERS table and the operations of
      [LMDBBlockDatabase] on it (StoredBlockObj.h, StoredBlockObj.cpp,
      lmdb_wrapper.cpp), over the interface [Store] for LMDB.
      HeadersDBFormat and HeadersDBProps hold the theorems.
    - BlockchainDB: the operations of [Blockchain] that write to that database
      (Blockchain.cpp); BlockchainDBProps holds the theorems.

    Reading block files:
    - TxFilter: the templates [TxFilter] (BlockObj.h) and [TxFilterPool]
      (lmdb_wrapper.h) and the TXFILTERS table; TxFilterProps has the theorems.
      A pointer into the database is the list of the bytes behind it.
    - BlockData: the structs [BCTX] and [BlockData] (BlockDataMap.h,
      BlockDataMap.cpp), which parse a transaction and a block;
      BlockDataProps has the theorems, over the abstract transactions [Tx] of
      TxLength and the abstract [Block].
    - BlockFile: [parseBlockFile] and [addBlocksToDB] of [DatabaseBuilder]
      (DatabaseBuilder.cpp), where all of the above meet: bytes of a file to
      blocks, their headers to the [Blockchain], their filters to the
      database.  BlockFileParse has the theorems on the search for blocks,
      BlockFileChain the lemmas on the chain in the middle, BlockFileProps the
      theorems on the whole.
    - BlockWorkers: the threads of [updateBlocksInDB] (DatabaseBuilder.cpp),
      which run [addBlocksToDB] on one chain and one database.  A step of a
      thread ends with its one access to what is shared; [step] lets any
      thread go next.  BlockWorkersInv has the invariant, BlockWorkersProps
      the theorems.

    The histories of addresses:
    - StoredTxOut: the records of the STXO table (StoredBlockObj.h,
      StoredBlockObj.cpp): an output, its place in the chain and its spentness.
    - ScriptHistory: [TxIOPair], an output with the input that spends it
      (txio.h, txio.cpp), and [StoredSubHistory] and [StoredScriptHistory], what
      an address received and spent in one block and its totals
      (StoredBlockObj.h, StoredBlockObj.cpp); ScriptHistoryProps has the
      theorems on the formats, the accounts and the maturity of outputs.
    - Scanner: the class [BlockchainScanner] (BlockchainScanner.h,
      BlockchainScanner.cpp).  Threads read the outputs of a batch of blocks,
      then threads read its inputs against the unspent outputs of all earlier
      blocks ([utxoMap_]), and the sub histories found are merged, written and
      added up.  The threads share a counter from which each takes heights and
      merge under a lock: a schedule is the heights of each thread, the threads
      in the order in which they merge.  ScannerSpec says what a scan should
      find, the ledger in which transactions come one after the other;
      ScannerProps, ScannerThreads, ScannerLedger, ScannerCorrect and
      ScannerBalance hold the lemmas, ScannerBatch, ScannerChain and
      ScannerTally the theorems on a batch, on the batches of a chain and on
      the totals, ScannerExamples a batch of two blocks.

    Methods keep their names; an overload gets a suffix ([addBlock_at]), and a
    method whose name another class has gets its class's initials
    ([bh_unserialize], [hhl_serialize], [brr_get_uint8_t]).  A method that
    changes its object returns the new one; in the monads [Reader], [Chain],
    [Db] and [Node] the state is threaded.  A loop is a [Fixpoint] named after
    its method ([scan_headers], [put_new_loop]).

    ** What the theorems show

    - verification: a transaction whose inputs spend standard outputs (to the
      hash of a key or of a script of several keys; plain, as a witness program
      or as one behind a script hash) is accepted exactly if the hashes match
      and the signatures verify over the data the bitcoin rules name, except
      that a key's signature of less than 65 bytes is not verified at all
      (VerifierCorrect.verify_standard, short_signature_accepted);
      OP_CHECKMULTISIG matches signatures with keys in order; the data of both
      kinds of signature are their reference definitions, which differ from
      the bitcoin rules where an OP_CODESEPARATOR was executed or ends the
      script; the two modes of [verify] accept the same; whatever the scripts
      are, a result does not depend on the depth at which it was found, and the
      outcomes are well formed (VerifierOutcomes.verify_outcomes).  What the
      model shows to be wrong, beside the signatures and separators: a redeem
      script that never ends (InterpreterControl.verify_diverges) or overwrites
      itself (redeem_overwritten), conditionals that drop what follows them
      (conditional_runs), and integers from 128 to 255
      (ScriptParserProps.script_numbers).
    - signing: [sign] resolves every input that pays to the hash of a key,
      plain or as a witness program behind a script hash, with any number of
      them in any order; what it serialises is the transaction with the scripts
      and witnesses of the signatures over the data the bitcoin rules name,
      [verify] accepts it, and the id is the hash without the witnesses
      (SignerVerified.sign_verifies, which joins the resolver, the signature
      data, the DER form and the interpreter).  The state a signer passes on is
      read back (SignerState.signer_state_roundtrip); a signature comes back
      from its DER form (DerSig.der_roundtrip).  What the model shows to be
      wrong: native witness programs are never resolved
      (SignerCorrect.native_program_stuck), a merge loses signatures
      (SpenderProps.merge_partial), and sizes of outputs that are short
      (Recipient.recipient_sizes).
    - organize: whatever headers are added to a well-formed state, [organize]
      ends, and the state is the one its abstract specification names: the top
      has the largest sum of difficulties, and flags, heights, sums, links and
      the table of heights are those of the top's chain
      (BlockchainCorrect.organize_correct, a refinement); what it reports as
      the branch point is right; [forceOrganize] does so from any sums, heights
      and main-branch flags, where unconnected headers are flagged as orphans;
      adding headers keeps the state ready for it; lookups by height, hash and
      transaction key find the block they should.
    - threads: however the threads of [updateBlocksInDB] are interleaved, none
      fails, all return after a fixed number of steps, and then the blocks of
      all files are in the chain, [organize] finds the best of them, and their
      transactions are found through the filters
      (BlockWorkersProps.updateBlocksInDB_correct, by an invariant over the
      reachable states); a thread alone does what [addBlocksToDB] does.
    - block files: [addBlocksToDB] puts every valid block of a file in the
      chain, which stays well-formed and ready for [organize] and the next
      file, and every transaction of a new block is found by its hash through
      the filters in the database; [parseBlockFile] ends on every file and
      stays inside it; a block is accepted exactly when its merkle root is
      right; a transaction's references read back its parts.
    - scanner: a scan ends, and for whatever number of threads, heights taken by
      each and order of the merges, the unspent outputs it keeps are those of
      the ledger (ScannerBatch.scan_batch_ledger for a batch, with its spends
      and its sub histories; ScannerChain.scan_chain_ledger, a refinement, for
      all batches); what is written to SUBSSH, read back and added to the totals
      of an address moves them by the change of its balance, outputs spent in
      their own block included (ScannerTally.scan_moves_totals).
    - histories: [insertTxio] and [eraseTxio] keep the account of a history
      (ScriptHistoryProps.history_account); a mined output of exactly 120
      confirmations is neither spendable nor unconfirmed
      (ScriptHistoryProps.output_maturity).
    - database: what [putBareHeader] and [putNewBareHeaders] write is found
      again under hash and height, each header of a height has its own
      duplicate id up to 128 of them, and the ids in memory are those of the
      main chain after [setDuplicateIDinRAM].
    - formats: var-ints, bit fields, database keys, header records, height
      lists, partial merkle trees, pushes of scripts, bech32 addresses all
      round trip; keys are ordered as the chain is.
    - safety: the guarded reader never leaves its buffer, scripts are
      classified without reading outside them, the address checkers never
      leave their tables.
    - transaction objects: what a [Tx] answers is what the transaction has, its
      hash is the id, and it comes back from the form with the database key
      (TxClassesProps.tx_object_correct, tx_metadata_roundtrip).
    - equivalence with reference definitions: merkle roots, exact templates
      of output scripts, lengths of transactions, the error-locating bech32
      decoder and the plain one, script addresses of a key in its two forms.
    - bounds and errors: what keys truncate, the 129th header of a height, one
      to three stray bytes between blocks (BlockFileParse.w_stray_bytes), a
      null header after [forceAddBlocksInBulk].

    ** Fuel and bounds

    - [split_loop] (scripts) and the counted loops of TxLength consume input:
      their fuel is the size of what is left.  [merkle_outer] and
      [createTree_loop] halve a level: their fuel is the number of leaves.
    - [trace_walk], [mark_main] and [find_main] follow [prevHash_]; their fuel
      is the number of headers.  A well-formed state has a rank that falls
      along [prevHash_], so they cannot run out (the theorems are total); on a
      cycle the code itself would not end.
    - [organizeChain] calls itself once, after a reorganisation, with a forced
      rebuild: [recursion_depth] is 2, and the theorems show that the second
      pass is the last one.
    - [parse_loop] advances by at least four bytes a round: its fuel is the
      size of the file, and the theorems show that it is enough.  Offsets in a
      file are compared as [int32_t] by the search: files under 2 GB.
    - A script is parsed with its size as fuel ([parse_fuel]), which is enough
      for the loop and for its searches whatever the opcodes do
      (InterpreterDepth.parse_fuel_suffices, ScriptParserProps.seek_switch_fuel
      and seek_end_fuel), and the rounds of OP_CHECKMULTISIG are those of the
      keys that are left (InterpreterDepth.match_sig_fuel).  The interpreter
      calls itself for conditionals, redeem scripts and witness programs:
      [depth] bounds that, and beyond it the result is [Err NoFuel], which no
      handler catches.  A result that is found at some depth is the result at
      every greater one (InterpreterDepth.deeper_processScript,
      VerifierOutcomes.verify_settled).  Standard inputs need a depth of three;
      no depth is enough for all scripts, and the code has no bound.
    - A resolver makes another for a redeem script and for a witness program:
      [depth] bounds the nesting, three is enough for what the theorems sign.
      The walk from reference to reference has the size of the store as fuel;
      a longer one has met an entry twice, and the code would not end either.
    - The scanner has no fuel: a schedule lists the heights each thread takes.
      The theorems on it ask for what the formats can hold: heights below
      16776960 (the ones above stand for zero confirmations), fewer than 2^32
      entries in a row and addresses below 2 GB.
    - In the interpreter, the resolver and the signer an exception keeps the
      state it was thrown in, because the code catches it and goes on; in the
      other components it ends a computation without a state, and what the code
      leaves behind is not modelled.

    ** What is not modelled, and why

    Mutexes and atomics: [addBlocksInBulk] and [getNewUniqueID] are single
    steps, as the mutex and the counter make them, and nothing else of
    [Blockchain] runs in several threads; the transactions, cursors and
    batches of LMDB, so that what is written to STXO and SUBSSH is the list of
    its rows in key order; memory exhaustion.  Of the scanner: the choice of the
    size of a batch and the queues between its threads, the loading of the
    unspent outputs at the start ([preloadUtxos]), the transaction hints
    ([processAndCommitTxHints]) and the search for hashes in block files, which
    write tables that are not modelled; of [updateSSH] the
    sum over the rows of one address, and not the moves of the iterator from
    address to address; the second scanner of a supernode.  Of the rest of the
    program: what [DatabaseBuilder] does around [updateBlocksInDB] (loading the
    headers, the transaction hints and spent outputs of a supernode, the repair
    of a damaged database), stored transactions, undo data and hints
    (StoredBlockObj.cpp), the wallets and coin selection (CoinSelection.cpp,
    heuristics on binary64 numbers and random choices) are left out for their
    size; the network code (sockets, P2P, RPC) and the Python client are input
    and output.  Crypto++, LMDB, gtest, the bech32 ports to other languages and
    the Qt interface are not the program's own logic.  Of the signer, the
    [SIGNER_DEBUG] output is left out, and spenders are owned by one signer:
    two signers that hold the same [shared_ptr] to a spender are not modelled. *)

From stdpp Require Export base tactics list numbers option gmap sorting.
From Stdlib Require Export ZArith Lia ZifyNat.
From Stdlib Require Strings.Byte.

#[global] Open Scope Z_scope.

(** ** Bytes: [uint8_t] is the 256-constructor type of the standard library. *)
Abbreviation byte := Corelib.Init.Byte.byte.

Definition b2z (b : byte) : Z := Z.of_N (Stdlib.Strings.Byte.to_N b).

Definition z2b (z : Z) : byte :=
  match Stdlib.Strings.Byte.of_N (Z.to_N (z mod 256)) with
  | Some b => b
  | None => Corelib.Init.Byte.x00
  end.

#[export] Instance byte_eq_dec : EqDecision byte.
Proof. intros a b. destruct (Stdlib.Strings.Byte.byte_eq_dec a b); [left|right]; done. Defined.

#[export] Instance byte_inhabited : Inhabited byte := populate (z2b 0).

Lemma b2z_range b : 0 <= b2z b < 256.
Proof. destruct b; vm_compute; split; congruence. Qed.

Lemma z2b_b2z b : z2b (b2z b) = b.
Proof. destruct b; reflexivity. Qed.

Lemma b2z_inj a b : b2z a = b2z b -> a = b.
Proof. intros H. rewrite <- (z2b_b2z a), <- (z2b_b2z b). by rewrite H. Qed.

Lemma b2z_z2b z : b2z (z2b z) = z mod 256.
Proof.
  unfold z2b, b2z.
  assert (0 <= z mod 256 < 256) as Hr by (apply Z.mod_pos_bound; lia).
  destruct (Stdlib.Strings.Byte.of_N (Z.to_N (z mod 256))) as [b|] eqn:E.
  - apply Stdlib.Strings.Byte.to_of_N in E. rewrite E. rewrite Z2N.id; lia.
  - apply Stdlib.Strings.Byte.of_N_None_iff in E. lia.
Qed.

Lemma b2z_z2b_small z : 0 <= z < 256 -> b2z (z2b z) = z.
Proof. intros. rewrite b2z_z2b. by apply Z.mod_small. Qed.

#[export] Instance byte_countable : Countable byte.
Proof. exact (inj_countable' b2z z2b z2b_b2z). Defined.

(** ** Machine widths *)
Definition two8 : Z := 2 ^ 8.
Definition two16 : Z := 2 ^ 16.
Definition two32 : Z := 2 ^ 32.
Definition two64 : Z := 2 ^ 64.

(** [wrap w z] is the value a [w]-bit unsigned integer holds after [z] is stored in it. *)
Definition wrap (w z : Z) : Z := z mod 2 ^ w.

(** [z] is a value of a [w]-bit unsigned integer. *)
Definition is_uint (w z : Z) : Prop := 0 <= z < 2 ^ w.

#[export] Instance is_uint_dec w z : Decision (is_uint w z).
Proof. unfold is_uint. apply _. Defined.

Lemma wrap_small w z : is_uint w z -> wrap w z = z.
Proof. intros. by apply Z.mod_small. Qed.

Lemma wrap_range w z : 0 <= w -> is_uint w (wrap w z).
Proof. intros. apply Z.mod_pos_bound. by apply Z.pow_pos_nonneg. Qed.

(** [signed w z] reads a [w]-bit pattern as a two's complement integer. *)
Definition signed (w z : Z) : Z :=
  if decide (wrap w z < 2 ^ (w - 1)) then wrap w z else wrap w z - 2 ^ w.

(** ** Integers as byte strings *)
Section byte_strings.
(** [BinaryData::IntToStrLE]: [out[i] = val % 256; val >>= 8]. *)
Fixpoint le_bytes (n : nat) (v : Z) : list byte :=
  match n with
  | O => []
  | S n => z2b (v mod 256) :: le_bytes n (Z.shiftr v 8)
  end.

Fixpoint le_val (l : list byte) : Z :=
  match l with
  | [] => 0
  | b :: l => b2z b + 256 * le_val l
  end.

Lemma length_le_bytes n v : length (le_bytes n v) = n.
Proof. revert v; induction n; intros; simpl; [done|by f_equal]. Qed.

Lemma le_val_range l : 0 <= le_val l < 256 ^ Z.of_nat (length l).
Proof.
  induction l as [|b l IH]; simpl le_val; [by vm_compute|].
  simpl length. rewrite Nat2Z.inj_succ, Z.pow_succ_r by lia.
  pose proof (b2z_range b). lia.
Qed.

Lemma le_val_le_bytes n v : le_val (le_bytes n v) = v mod 256 ^ Z.of_nat n.
Proof.
  revert v; induction n as [|n IH]; intros v; simpl le_bytes; simpl le_val.
  - by rewrite Z.mod_1_r.
  - rewrite IH, b2z_z2b, Z.mod_mod, Z.shiftr_div_pow2 by lia.
    rewrite Nat2Z.inj_succ, Z.pow_succ_r by lia.
    change (2 ^ 8) with 256.
    assert (0 < 256 ^ Z.of_nat n) by (apply Z.pow_pos_nonneg; lia).
    rewrite (Z.rem_mul_r v 256) by (done || lia). lia.
Qed.

Lemma le_bytes_le_val l : le_bytes (length l) (le_val l) = l.
Proof.
  induction l as [|b l IH]; [done|]. simpl.
  pose proof (b2z_range b). f_equal.
  - apply b2z_inj. rewrite b2z_z2b, Z.mod_mod by lia.
    rewrite (Z.mul_comm 256), Z.mod_add by lia. apply Z.mod_small; lia.
  - rewrite Z.shiftr_div_pow2 by lia. change (2 ^ 8) with 256.
    rewrite (Z.mul_comm 256), Z.div_add by lia.
    rewrite (Z.div_small (b2z b)) by lia. exact IH.
Qed.

Lemma le_val_inj l1 l2 : length l1 = length l2 -> le_val l1 = le_val l2 -> l1 = l2.
Proof.
  intros Hl Hv. rewrite <- (le_bytes_le_val l1), <- (le_bytes_le_val l2).
  by rewrite Hl, Hv.
Qed.

Lemma le_val_app l1 l2 :
  le_val (l1 ++ l2) = le_val l1 + 256 ^ Z.of_nat (length l1) * le_val l2.
Proof.
  induction l1 as [|b l IH]; simpl app; simpl le_val; [simpl length; lia|].
  rewrite IH. simpl length. rewrite Nat2Z.inj_succ, Z.pow_succ_r by lia. lia.
Qed.

(** [IntToStrBE] writes [out[(SZ-1)-i] = val % 256], the reverse order. *)
Definition be_bytes (n : nat) (v : Z) : list byte := rev (le_bytes n v).
Definition be_val (l : list byte) : Z := le_val (rev l).

Lemma length_be_bytes n v : length (be_bytes n v) = n.
Proof. unfold be_bytes. by rewrite length_rev, length_le_bytes. Qed.

Lemma be_val_be_bytes n v : be_val (be_bytes n v) = v mod 256 ^ Z.of_nat n.
Proof. unfold be_val, be_bytes. by rewrite rev_involutive, le_val_le_bytes. Qed.

Lemma be_bytes_be_val l : be_bytes (length l) (be_val l) = l.
Proof.
  unfold be_val, be_bytes. rewrite <- (length_rev l), le_bytes_le_val.
  apply rev_involutive.
Qed.

Lemma be_val_range l : 0 <= be_val l < 256 ^ Z.of_nat (length l).
Proof. unfold be_val. rewrite <- (length_rev l). apply le_val_range. Qed.

Lemma be_val_inj l1 l2 : length l1 = length l2 -> be_val l1 = be_val l2 -> l1 = l2.
Proof.
  intros Hl Hv. rewrite <- (be_bytes_be_val l1), <- (be_bytes_be_val l2).
  by rewrite Hl, Hv.
Qed.

Lemma be_val_cons b l :
  be_val (b :: l) = b2z b * 256 ^ Z.of_nat (length l) + be_val l.
Proof.
  unfold be_val. simpl rev. rewrite le_val_app, length_rev. simpl le_val. lia.
Qed.
End byte_strings.

(** ** Results of fallible code *)

(** The exceptions the modelled code throws. [UB] stands for an access the
    language does not define (a raw read out of bounds, a null dereference);
    [NoFuel] for a recursion that has not ended at the depth it was given. *)
Inductive exn : Set :=
  | RuntimeError | RangeError | BlockDeserializing | DERError | DbErrorMsg | LogicError
  | ScriptError | UnsupportedSigHash | UB | NoFuel.

#[export] Instance exn_eq_dec : EqDecision exn.
Proof. solve_decision. Defined.

(** [catch (exception&)] does not catch what is undefined or does not end. *)
Definition is_exception (e : exn) : bool := negb (bool_decide (e = UB) || bool_decide (e = NoFuel)).

Inductive result (A : Type) : Type :=
  | Ok (a : A)
  | Err (e : exn).
Arguments Ok {A} a.
Arguments Err {A} e.

#[export] Instance result_eq_dec `{EqDecision A} : EqDecision (result A).
Proof. solve_decision. Defined.

#[export] Instance result_ret : MRet result := fun A a => Ok a.
#[export] Instance result_bind : MBind result := fun A B f m =>
  match m with Ok a => f a | Err e => Err e end.
#[export] Instance result_fmap : FMap result := fun A B f m =>
  match m with Ok a => Ok (f a) | Err e => Err e end.

Lemma Ok_inj {A} (a b : A) : Ok a = Ok b -> a = b.
Proof. by intros [=]. Qed.

Definition is_Ok {A} (r : result A) : bool := match r with Ok _ => true | Err _ => false end.

(** [throw_if b e k]: [if (b) throw e; k]. *)
Definition throw_if {A} (b : bool) (e : exn) (k : result A) : result A :=
  if b then Err e else k.

Lemma result_bind_Ok {A B} (f : A -> result B) m b :
  (m ≫= f) = Ok b -> exists a, m = Ok a /\ f a = Ok b.
Proof. destruct m; simpl; [eauto|done]. Qed.

(** [guard]s of the code are boolean; these turn them into propositions. *)
Ltac breflect :=
  repeat match goal with
  | H : (_ && _) = true |- _ => apply andb_true_iff in H as [? ?]
  | H : (_ || _) = false |- _ => apply orb_false_iff in H as [? ?]
  | H : negb _ = true |- _ => apply negb_true_iff in H
  | H : negb _ = false |- _ => apply negb_false_iff in H
  | H : (_ <? _) = true |- _ => apply Z.ltb_lt in H
  | H : (_ <? _) = false |- _ => apply Z.ltb_ge in H
  | H : (_ <=? _) = true |- _ => apply Z.leb_le in H
  | H : (_ <=? _) = false |- _ => apply Z.leb_gt in H
  | H : (_ =? _) = true |- _ => apply Z.eqb_eq in H
  | H : (_ =? _) = false |- _ => apply Z.eqb_neq in H
  | H : bool_decide _ = true |- _ => apply bool_decide_eq_true in H
  | H : bool_decide _ = false |- _ => apply bool_decide_eq_false in H
  end.

(** Case analysis on the first [if] or [match] scrutinee of the goal. *)
Ltac bcase :=
  match goal with
  | |- context [if ?b then _ else _] => destruct b eqn:?
  | |- context [match ?x with _ => _ end] => destruct x eqn:?
  end; breflect.

(** Case analysis on the first integer comparison of the goal. *)
Ltac zcase :=
  match goal with
  | |- context [?a <? ?b] => destruct (Z.ltb_spec a b)
  | |- context [?a <=? ?b] => destruct (Z.leb_spec a b)
  | |- context [?a =? ?b] => destruct (Z.eqb_spec a b)
  end; cbv beta iota zeta.

(** [lia] after division and modulo by constants are turned into equations. *)
Ltac dlia := zify; Z.to_euclidean_division_equations; lia.

(** Resolves every integer comparison of the goal that [lia] decides. *)
Ltac zsimp :=
  repeat (first
    [ match goal with |- context [?a <? ?b] =>
        first [rewrite (proj2 (Z.ltb_lt a b)) by lia | rewrite (proj2 (Z.ltb_ge a b)) by lia] end
    | match goal with |- context [?a <=? ?b] =>
        first [rewrite (proj2 (Z.leb_le a b)) by lia | rewrite (proj2 (Z.leb_gt a b)) by lia] end
    | match goal with |- context [?a =? ?b] =>
        first [rewrite (proj2 (Z.eqb_eq a b)) by lia | rewrite (proj2 (Z.eqb_neq a b)) by lia] end ]);
  cbn [negb andb orb]; cbv iota.

(** ** Lists indexed by [Z], as C++ and JavaScript index them *)
Section zlist.
Context {A : Type}.
Implicit Types l : list A.

Definition zlen l : Z := Z.of_nat (length l).

(** [l[i]]; [None] out of range. *)
Definition znth l (i : Z) : option A :=
  if decide (0 <= i) then l !! Z.to_nat i else None.

(** The sub-list of [n] elements from [start]. *)
Definition zslice l (start n : Z) : list A := take (Z.to_nat n) (drop (Z.to_nat start) l).

Lemma znth_nat l i : znth l (Z.of_nat i) = l !! i.
Proof. unfold znth. rewrite decide_True by lia. by rewrite Nat2Z.id. Qed.

Lemma elem_of_rev x l : x ∈ rev l <-> x ∈ l.
Proof. rewrite !list_elem_of_In. symmetry. apply in_rev. Qed.

Lemma rev_lookup l i : (i < length l)%nat -> rev l !! i = l !! (length l - S i)%nat.
Proof. rewrite rev_alt. apply reverse_lookup. Qed.

(** The first element of [l] that is in [l0]. *)
Lemma split_first `{EqDecision A} l l0 : (exists x, x ∈ l /\ x ∈ l0) ->
  exists l1 b lb, l = l1 ++ b :: lb /\ Forall (fun x => x ∉ l0) l1 /\ b ∈ l0.
Proof.
  induction l as [|a l IH]; intros (x & Hx & Hx0); [by apply elem_of_nil in Hx|].
  destruct (decide (a ∈ l0)) as [Ha|Ha]; [by exists [], a, l|].
  destruct IH as (l1 & b & lb & -> & Hl1 & Hb).
  { exists x. apply elem_of_cons in Hx as [->|?]; done. }
  exists (a :: l1), b, lb. repeat split; [|done]. by constructor.
Qed.

Lemma zlen_nonneg l : 0 <= zlen l.
Proof. unfold zlen; lia. Qed.

Lemma zlen_app l1 l2 : zlen (l1 ++ l2) = zlen l1 + zlen l2.
Proof. unfold zlen. rewrite length_app. lia. Qed.

Lemma zlen_cons x l : zlen (x :: l) = 1 + zlen l.
Proof. unfold zlen. simpl length. lia. Qed.

Lemma zlen_nil : zlen [] = 0.
Proof. done. Qed.

Lemma zlen_rev l : zlen (rev l) = zlen l.
Proof. unfold zlen. by rewrite length_rev. Qed.

Lemma znth_app_r pre l i : 0 <= i -> znth (pre ++ l) (zlen pre + i) = znth l i.
Proof.
  intros. unfold znth, zlen. rewrite !decide_True by lia.
  rewrite lookup_app_r by lia. f_equal. lia.
Qed.

Lemma znth_app_l l l' i : i < zlen l -> znth (l ++ l') i = znth l i.
Proof.
  intros. unfold znth, zlen in *. case_decide; [|done].
  apply lookup_app_l. lia.
Qed.

Lemma znth_cons_0 x l : znth (x :: l) 0 = Some x.
Proof. done. Qed.

Lemma znth_cons_pos x l i : 0 < i -> znth (x :: l) i = znth l (i - 1).
Proof.
  intros. unfold znth. rewrite !decide_True by lia.
  replace (Z.to_nat i) with (S (Z.to_nat (i - 1))) by lia. done.
Qed.

Lemma znth_is_Some l i : 0 <= i < zlen l -> is_Some (znth l i).
Proof. intros. unfold znth, zlen in *. rewrite decide_True by lia. apply lookup_lt_is_Some. lia. Qed.

Lemma znth_None l i : zlen l <= i -> znth l i = None.
Proof. intros. unfold znth, zlen in *. case_decide; [|done]. apply lookup_ge_None. lia. Qed.

Lemma znth_Some_range l i x : znth l i = Some x -> 0 <= i < zlen l.
Proof.
  unfold znth, zlen. case_decide; [|done]. intros ?%lookup_lt_Some. lia.
Qed.

Lemma zlen_zslice l s n :
  0 <= s -> 0 <= n -> s + n <= zlen l -> zlen (zslice l s n) = n.
Proof.
  intros. unfold zslice, zlen in *. rewrite length_take, length_drop. lia.
Qed.

Lemma zslice_app pre mid post :
  zslice (pre ++ mid ++ post) (zlen pre) (zlen mid) = mid.
Proof.
  unfold zslice, zlen. rewrite !Nat2Z.id, drop_app_length, take_app_length. done.
Qed.
End zlist.

Create HintDb armory discriminated.
Create Rewrite HintDb zlen.
#[export] Hint Rewrite @zlen_app @zlen_cons @zlen_nil @zlen_rev : zlen.
#[export] Hint Resolve zlen_nonneg b2z_range : armory.

(** Normalises list lengths and calls [lia]. *)
Ltac zlen_lia :=
  autorewrite with zlen in *;
  repeat match goal with
  | |- context [zlen ?l] => lazymatch goal with
      | _ : 0 <= zlen l |- _ => fail
      | _ => pose proof (zlen_nonneg l) end
  | _ : context [zlen ?l] |- _ => lazymatch goal with
      | _ : 0 <= zlen l |- _ => fail
      | _ => pose proof (zlen_nonneg l) end
  end; lia.

Lemma zlen_le_bytes n v : zlen (le_bytes n v) = Z.of_nat n.
Proof. unfold zlen. by rewrite length_le_bytes. Qed.
Lemma zlen_be_bytes n v : zlen (be_bytes n v) = Z.of_nat n.
Proof. unfold zlen. by rewrite length_be_bytes. Qed.
#[export] Hint Rewrite @zlen_le_bytes @zlen_be_bytes : zlen.
