(* ===== verification/BinaryData.v ===== *)
(** * BinaryData: the byte-string class (cppForSwig/BinaryData.h, BinaryData.cpp)

    [BinaryData] owns a [vector<uint8_t>]; here a value of it is the list of
    its bytes.  Methods that read raw memory are given a [result]: an access the
    code does not guard and that leaves the buffer is [Err UB]. *)

From S2P Require Import Prelude.

(** ** Construction and access *)

(** [copyFrom(inData, sz)]: a null or empty source leaves an empty buffer. *)
Definition copyFrom (inData : list byte) (sz : Z) : list byte :=
  if (sz =? 0) then [] else take (Z.to_nat sz) inData.

Definition append (self bd2 : list byte) : list byte :=
  if (zlen bd2 =? 0) then self
  else if (zlen self =? 0) then copyFrom bd2 (zlen bd2)
  else self ++ bd2.

(** [operator[]]: a negative index counts from the end. *)
Definition at_ (self : list byte) (i : Z) : result byte :=
  match (if i <? 0 then znth self (zlen self + i) else znth self i) with
  | Some b => Ok b
  | None => Err UB
  end.

(** [getSliceRef], [getSliceCopy]: an invalid range gives the empty string. *)
Definition getSliceCopy (self : list byte) (start_pos nChar : Z) : list byte :=
  let start_pos := if start_pos <? 0 then zlen self + start_pos else start_pos in
  if zlen self <? wrap 64 start_pos + nChar then []
  else copyFrom (drop (Z.to_nat start_pos) self) nChar.

(** ** Comparison *)

Fixpoint less (self bd2 : list byte) : bool :=
  match self, bd2 with
  | x :: self, y :: bd2 =>
      if decide (x = y) then less self bd2 else b2z x <? b2z y
  | _, _ => zlen self <? zlen bd2
  end.

Fixpoint greater (self bd2 : list byte) : bool :=
  match self, bd2 with
  | x :: self, y :: bd2 =>
      if decide (x = y) then greater self bd2 else b2z y <? b2z x
  | _, _ => zlen bd2 <? zlen self
  end.

(** [memcmp] on equal sizes. *)
Definition equal (self bd2 : list byte) : bool :=
  if negb (zlen self =? zlen bd2) then false else bool_decide (self = bd2).

Definition greater_eq (self bd2 : list byte) : bool := greater self bd2 || equal self bd2.

(** ** Search *)

(** The inner loop of [find]: true when [j] reaches the last index of the
    pattern without a mismatch. *)
Fixpoint find_inner (matchStr data : list byte) : bool :=
  match matchStr, data with
  | [], _ => true
  | _ :: _, [] => false
  | m :: ms, d :: ds => if decide (m = d) then find_inner ms ds else false
  end.

(** The outer loop, [n] iterations from index [i]. *)
Fixpoint find_loop (matchStr self : list byte) (n : nat) (i : Z) : result Z :=
  match n with
  | O => Ok (-1)
  | S n =>
      m0 ← at_ matchStr 0;
      match znth self i with
      | None => Err UB
      | Some d =>
          if negb (bool_decide (m0 = d)) then find_loop matchStr self n (i + 1)
          else if find_inner matchStr (drop (Z.to_nat i) self) then Ok i
          else find_loop matchStr self n (i + 1)
      end
  end.

Definition find (self matchStr : list byte) (startPos : Z) : result Z :=
  if zlen matchStr =? 0 then Ok (signed 32 startPos)
  else
    let last := signed 32 (zlen self) - signed 32 (zlen matchStr) in
    let i := signed 32 startPos in
    find_loop matchStr self (Z.to_nat (last - i + 1)) i.

Definition contains (self matchStr : list byte) (startPos : Z) : result bool :=
  r ← find self matchStr startPos; Ok (negb (r =? -1)).

Fixpoint startsWith_loop (matchStr self : list byte) : bool :=
  match matchStr, self with
  | m :: ms, d :: ds => if decide (m = d) then startsWith_loop ms ds else false
  | _, _ => true
  end.

Definition startsWith (self matchStr : list byte) : bool :=
  if zlen self <? zlen matchStr then false else startsWith_loop matchStr self.

(** [endsWith] compares index [sz-(i+1)] with [getSize()-(i+1)]: from the end. *)
Definition endsWith (self matchStr : list byte) : bool :=
  if zlen self <? zlen matchStr then false
  else startsWith_loop (rev matchStr) (rev self).

(** ** Byte order *)

(** One round of the swap loop: exchanges the bytes at [p] and [q]. *)
Definition swap_at (data : list byte) (p q : nat) : result (list byte) :=
  match data !! p, data !! q with
  | Some d1, Some d2 => Ok (<[q := d1]> (<[p := d2]> data))
  | _, _ => Err UB
  end.

(** [n] rounds from [i]: exchanges [pos1+i] with [pos2-(i+1)]. *)
Fixpoint swap_loop (n i pos1 pos2 : nat) (data : list byte) : result (list byte) :=
  match n with
  | O => Ok data
  | S n =>
      data' ← swap_at data (pos1 + i) (pos2 - (i + 1));
      swap_loop n (S i) pos1 pos2 data'
  end.

Definition swapEndian (data : list byte) (pos1 pos2 : nat) : result (list byte) :=
  if (zlen data =? 0) then Ok data
  else
    let pos2 := if bool_decide (pos2 ≤ pos1)%nat then length data else pos2 in
    let totalBytes := (pos2 - pos1)%nat in
    swap_loop (totalBytes / 2) 0 pos1 pos2 data.

(** [copySwapEndian()] with its default arguments. *)
Definition copySwapEndian (data : list byte) : result (list byte) := swapEndian data 0 0.

(** ** Hexadecimal text; a character is its 8-bit code *)

Definition hexLookupTable : list Z :=
  [48; 49; 50; 51; 52; 53; 54; 55; 56; 57; 97; 98; 99; 100; 101; 102].

Definition hexit (v : Z) : byte := z2b (hexLookupTable !!! Z.to_nat (Z.land v 15)).

Fixpoint toHexStr (self : list byte) : list byte :=
  match self with
  | [] => []
  | b :: self => hexit (Z.shiftr (b2z b) 4) :: hexit (b2z b) :: toHexStr self
  end.

(** [binLookupTable]: digits and both cases of a-f; every other code maps to 0. *)
Definition binLookupTable (c : byte) : Z :=
  let c := b2z c in
  if (48 <=? c) && (c <=? 57) then c - 48
  else if (65 <=? c) && (c <=? 70) then c - 55
  else if (97 <=? c) && (c <=? 102) then c - 87
  else 0.

Fixpoint fromHex_loop (str : list byte) : list byte :=
  match str with
  | c1 :: c2 :: str =>
      z2b (Z.lor (Z.shiftl (binLookupTable c1) 4) (binLookupTable c2)) :: fromHex_loop str
  | _ => []
  end.

Definition createFromHex (str : list byte) : result (list byte) :=
  throw_if (negb (zlen str mod 2 =? 0)) RuntimeError (Ok (fromHex_loop str)).

(** ** Integers *)

Definition IntToStrLE (sz : nat) (val : Z) : list byte := le_bytes sz val.
Definition IntToStrBE (sz : nat) (val : Z) : list byte := be_bytes sz val.

(** [StrToIntLE(BinaryData)]: a size mismatch is logged and reads as 0. *)
Definition StrToIntLE (sz : nat) (binstr : list byte) : Z :=
  if negb (zlen binstr =? Z.of_nat sz) then 0 else le_val binstr.

(** [out |= binstr[i] << (8*((SZ-1)-i))]. *)
Fixpoint strToIntBE_loop (binstr : list byte) (out : Z) : Z :=
  match binstr with
  | [] => out
  | b :: binstr =>
      strToIntBE_loop binstr (Z.lor out (Z.shiftl (b2z b) (8 * zlen binstr)))
  end.

Definition StrToIntBE (sz : nat) (binstr : list byte) : Z :=
  if negb (zlen binstr =? Z.of_nat sz) then 0 else strToIntBE_loop binstr 0.

(** ** Facts about the operations *)

Lemma copyFrom_all l : copyFrom l (zlen l) = l.
Proof.
  unfold copyFrom, zlen. zcase.
  - destruct l; [done|simpl in *; lia].
  - rewrite Nat2Z.id. by rewrite take_ge.
Qed.

Lemma append_app self bd2 : append self bd2 = self ++ bd2.
Proof.
  unfold append. zcase; [|zcase].
  - destruct bd2; [by rewrite app_nil_r|zlen_lia].
  - destruct self; [apply copyFrom_all|zlen_lia].
  - done.
Qed.

Lemma at_nonneg self i : 0 <= i -> at_ self i = match znth self i with Some b => Ok b | None => Err UB end.
Proof. intros. unfold at_. zcase; [lia|done]. Qed.

Lemma at_Ok self i : 0 <= i < zlen self -> exists b, at_ self i = Ok b /\ znth self i = Some b.
Proof.
  intros Hi. destruct (znth_is_Some self i Hi) as [b Hb].
  exists b. rewrite at_nonneg by lia. by rewrite Hb.
Qed.

Lemma getSliceCopy_app pre mid post :
  zlen (pre ++ mid ++ post) < two64 ->
  getSliceCopy (pre ++ mid ++ post) (zlen pre) (zlen mid) = mid.
Proof.
  intros Hl. unfold getSliceCopy, two64 in *.
  destruct (Z.ltb_spec (zlen pre) 0); [zlen_lia|]. cbv iota zeta.
  rewrite wrap_small by (unfold is_uint; zlen_lia).
  zcase; [zlen_lia|].
  unfold zlen at 1. rewrite Nat2Z.id, drop_app_length. unfold copyFrom. zcase.
  - destruct mid; [done|zlen_lia].
  - unfold zlen. by rewrite Nat2Z.id, take_app_length.
Qed.

Lemma equal_spec a b : equal a b = bool_decide (a = b).
Proof.
  unfold equal. zcase; [done|]. simpl. symmetry. apply bool_decide_eq_false.
  by intros ->.
Qed.

Lemma less_irrefl a : less a a = false.
Proof. induction a as [|x a IH]; simpl; [done|]. by rewrite decide_True. Qed.

Lemma less_trans a b c : less a b = true -> less b c = true -> less a c = true.
Proof.
  revert b c. induction a as [|x a IH]; intros [|y b] [|z c]; simpl; try done.
  repeat case_decide; subst; try done; eauto; intros; breflect;
    try (exfalso; congruence); try (apply Z.ltb_lt; lia).
  exfalso; lia.
Qed.

Lemma less_trichotomy a b : less a b = true \/ a = b \/ less b a = true.
Proof.
  revert b. induction a as [|x a IH]; intros [|y b]; simpl; auto.
  destruct (decide (x = y)) as [->|Hne].
  - rewrite decide_True by done. destruct (IH b) as [?|[->|?]]; auto.
  - rewrite decide_False by congruence.
    assert (b2z x <> b2z y) by (intros ?%b2z_inj; done).
    destruct (Z.ltb_spec (b2z x) (b2z y)); auto.
    right; right. apply Z.ltb_lt. lia.
Qed.

Lemma greater_less a b : greater a b = less b a.
Proof.
  revert b. induction a as [|x a IH]; intros [|y b]; simpl; try done.
  repeat case_decide; subst; try done; congruence.
Qed.

(** On strings of one length the order of the class is the numeric order of
    the big-endian integers they spell. *)
Lemma less_be_val a b :
  length a = length b -> less a b = (be_val a <? be_val b).
Proof.
  revert b. induction a as [|x a IH]; intros [|y b] Hl; simpl in Hl; try done.
  injection Hl as Hl. simpl less. rewrite !be_val_cons, <- Hl.
  pose proof (be_val_range a) as Ha. pose proof (be_val_range b) as Hb.
  rewrite <- Hl in Hb. case_decide.
  - subst. rewrite IH by done. repeat zcase; try done; lia.
  - assert (b2z x <> b2z y) by (intros ?%b2z_inj; done).
    repeat zcase; try done; nia.
Qed.

Lemma find_inner_prefix m d : find_inner m d = true <-> exists tl, d = m ++ tl.
Proof.
  revert d. induction m as [|x m IH]; intros d; simpl.
  - split; [intros _; by exists d|done].
  - destruct d as [|y d].
    + split; [done|]. intros [tl ?]; done.
    + case_decide; subst.
      * rewrite IH. split; intros [tl ?]; exists tl; simpl in *; congruence.
      * split; [done|]. intros [tl ?]. simpl in *; congruence.
Qed.

Lemma startsWith_loop_inner m d :
  (length m ≤ length d)%nat -> startsWith_loop m d = find_inner m d.
Proof.
  revert d. induction m as [|x m IH]; intros [|y d] Hl; simpl in *; try done; [lia|].
  case_decide; [apply IH; lia|done].
Qed.

(** ** Properties *)

(** The pattern [m] starts at index [i] of [l]. *)
Definition occurs_at (m l : list byte) (i : Z) : Prop :=
  0 <= i /\ exists tl, drop (Z.to_nat i) l = m ++ tl.

Lemma occurs_at_bound m l i : occurs_at m l i -> m <> [] -> i + zlen m <= zlen l.
Proof.
  intros [Hi [tl Hd]] Hm. apply (f_equal length) in Hd.
  rewrite length_drop, length_app in Hd. unfold zlen.
  assert (0 < length m)%nat by (destruct m; [done|simpl; lia]). lia.
Qed.

(** One index: the head test followed by the inner loop decides [occurs_at]. *)
Lemma occurs_at_step m0 m d l i :
  0 <= i -> znth l i = Some d ->
  occurs_at (m0 :: m) l i <->
  m0 = d /\ find_inner (m0 :: m) (drop (Z.to_nat i) l) = true.
Proof.
  intros Hi Hd. unfold occurs_at. rewrite find_inner_prefix.
  unfold znth in Hd. rewrite decide_True in Hd by lia.
  apply drop_S in Hd. rewrite Hd.
  split; [intros [_ [tl Ht]]|intros [? [tl Ht]]]; split; try lia; eauto.
  by simplify_eq/=.
Qed.

Lemma find_loop_spec m self n i :
  m <> [] -> 0 <= i -> i + Z.of_nat n <= zlen self - zlen m + 1 ->
  exists r, find_loop m self n i = Ok r /\
    ((r = -1 /\ forall k, i <= k < i + Z.of_nat n -> ~ occurs_at m self k) \/
     (i <= r < i + Z.of_nat n /\ occurs_at m self r /\
      forall k, i <= k < r -> ~ occurs_at m self k)).
Proof.
  intros Hm. destruct m as [|m0 m]; [done|]. clear Hm.
  revert i. induction n as [|n IH]; intros i Hi Hb; cbn [find_loop].
  { exists (-1). split; [done|]. left. split; [done|]. lia. }
  change (at_ (m0 :: m) 0) with (Ok m0). cbn [mbind result_bind].
  destruct (znth_is_Some self i) as [d Hd]; [zlen_lia|]. rewrite Hd.
  pose proof (occurs_at_step m0 m d self i Hi Hd) as Hocc.
  destruct (IH (i + 1)) as (r & Hr & Hcase); [lia|lia|].
  assert (~ occurs_at (m0 :: m) self i -> exists r, find_loop (m0 :: m) self n (i + 1) = Ok r /\
    ((r = -1 /\ forall k, i <= k < i + Z.of_nat (S n) -> ~ occurs_at (m0 :: m) self k) \/
     (i <= r < i + Z.of_nat (S n) /\ occurs_at (m0 :: m) self r /\
      forall k, i <= k < r -> ~ occurs_at (m0 :: m) self k))) as Hskip.
  { intros Hno. exists r. split; [done|].
    assert (forall b, (forall k, i + 1 <= k < b -> ~ occurs_at (m0 :: m) self k) ->
      forall k, i <= k < b -> ~ occurs_at (m0 :: m) self k) as Hext.
    { intros b Hc k Hk. destruct (decide (k = i)) as [->|]; [done|apply Hc; lia]. }
    destruct Hcase as [[-> Hc]|(? & ? & Hc)]; [left|right].
    - split; [done|]. apply Hext. intros; apply Hc; lia.
    - split; [lia|]. split; [done|]. by apply Hext. }
  case_bool_decide as Heq; cbn [negb].
  - destruct (find_inner (m0 :: m) (drop (Z.to_nat i) self)) eqn:Ef.
    + exists i. split; [done|]. right. split; [lia|]. split; [by apply Hocc|]. lia.
    + apply Hskip. rewrite Hocc. naive_solver.
  - apply Hskip. rewrite Hocc. naive_solver.
Qed.

Lemma signed32_small z : 0 <= z < 2 ^ 31 -> signed 32 z = z.
Proof.
  intros. unfold signed. rewrite wrap_small by (unfold is_uint; lia).
  change (2 ^ (32 - 1)) with (2 ^ 31). by rewrite decide_True by lia.
Qed.

(** [find] returns the least index at or after [startPos] where the pattern
    occurs, and -1 exactly when there is none; it never reads out of bounds. *)
Lemma find_spec self m startPos :
  m <> [] -> zlen self < 2 ^ 31 -> zlen m < 2 ^ 31 -> 0 <= startPos < 2 ^ 31 ->
  exists r, find self m startPos = Ok r /\
    ((r = -1 /\ forall k, startPos <= k -> ~ occurs_at m self k) \/
     (startPos <= r /\ occurs_at m self r /\
      forall k, startPos <= k < r -> ~ occurs_at m self k)).
Proof.
  intros Hm Hs Hml Hp. unfold find.
  pose proof (zlen_nonneg self). pose proof (zlen_nonneg m).
  destruct (Z.eqb_spec (zlen m) 0); [destruct m; [done|zlen_lia]|].
  rewrite !signed32_small by lia.
  destruct (decide (startPos <= zlen self - zlen m + 1)).
  - destruct (find_loop_spec m self (Z.to_nat (zlen self - zlen m - startPos + 1)) startPos)
      as (r & Hr & Hc); [done|lia|lia|].
    exists r. split; [done|]. destruct Hc as [[-> Hc]|(? & ? & Hc)]; [left|right; naive_solver lia].
    split; [done|]. intros k Hk Hocc.
    pose proof (occurs_at_bound m self k Hocc Hm). apply (Hc k); [lia|done].
  - replace (Z.to_nat (zlen self - zlen m - startPos + 1)) with O by lia.
    exists (-1). split; [done|]. left. split; [done|]. intros k Hk Hocc.
    pose proof (occurs_at_bound m self k Hocc Hm). lia.
Qed.

(** *** Endian swap *)
Section swap.
Context (pos1 pos2 : nat) (orig : list byte).

(** What index [k] holds after [i] rounds. *)
Definition swapped_lookup (i k : nat) : option byte :=
  if decide ((pos1 ≤ k < pos1 + i) \/ (pos2 - i ≤ k < pos2))%nat
  then orig !! (pos1 + pos2 - 1 - k)%nat else orig !! k.

Definition swap_inv (i : nat) (data : list byte) : Prop :=
  length data = length orig /\ forall k, data !! k = swapped_lookup i k.

Lemma swap_inv_0 : swap_inv 0 orig.
Proof. split; [done|]. intros k. unfold swapped_lookup. rewrite decide_False by lia. done. Qed.

Lemma swap_inv_step i data :
  (pos1 + S i ≤ pos2 - S i)%nat -> (pos2 ≤ length orig)%nat -> swap_inv i data ->
  exists data', swap_at data (pos1 + i) (pos2 - (i + 1)) = Ok data' /\ swap_inv (S i) data'.
Proof.
  intros Hi Hp [Hl Hk]. unfold swap_at.
  assert (data !! (pos1 + i)%nat = orig !! (pos1 + i)%nat) as ->
    by (rewrite Hk; unfold swapped_lookup; rewrite decide_False by lia; done).
  assert (data !! (pos2 - (i + 1))%nat = orig !! (pos2 - (i + 1))%nat) as ->
    by (rewrite Hk; unfold swapped_lookup; rewrite decide_False by lia; done).
  destruct (lookup_lt_is_Some_2 orig (pos1 + i)) as [d1 H1]; [lia|].
  destruct (lookup_lt_is_Some_2 orig (pos2 - (i + 1))) as [d2 H2]; [lia|].
  rewrite H1, H2. eexists; split; [done|]. split; [by rewrite !length_insert|].
  intros k. unfold swapped_lookup.
  destruct (decide (k = pos2 - (i + 1))%nat) as [->|].
  { rewrite list_lookup_insert_eq by (rewrite length_insert; lia).
    rewrite decide_True by lia. rewrite <- H1. f_equal. lia. }
  rewrite list_lookup_insert_ne by done.
  destruct (decide (k = pos1 + i)%nat) as [->|].
  { rewrite list_lookup_insert_eq by lia.
    rewrite decide_True by lia. rewrite <- H2. f_equal. lia. }
  rewrite list_lookup_insert_ne, Hk by done. unfold swapped_lookup.
  destruct (decide ((pos1 ≤ k < pos1 + i) \/ (pos2 - i ≤ k < pos2))%nat);
    destruct (decide ((pos1 ≤ k < pos1 + S i) \/ (pos2 - S i ≤ k < pos2))%nat); try done; lia.
Qed.

Lemma swap_loop_inv n i data :
  (pos1 + (i + n) ≤ pos2 - (i + n))%nat -> (pos2 ≤ length orig)%nat -> swap_inv i data ->
  exists data', swap_loop n i pos1 pos2 data = Ok data' /\ swap_inv (i + n) data'.
Proof.
  revert i data. induction n as [|n IH]; intros i data Hb Hp Hinv; simpl.
  - exists data. by rewrite Nat.add_0_r.
  - destruct (swap_inv_step i data) as (data1 & -> & Hinv1); [lia|done|done|]. simpl.
    destruct (IH (S i) data1) as (data2 & -> & Hinv2); [lia|done|done|].
    exists data2. split; [done|]. by replace (i + S n)%nat with (S i + n)%nat by lia.
Qed.
End swap.

(** [swapEndian(pos1, pos2)] reverses exactly the bytes of [pos1, pos2). *)
Lemma swapEndian_lookup data pos1 pos2 :
  (pos1 < pos2 ≤ length data)%nat ->
  exists data', swapEndian data pos1 pos2 = Ok data' /\ length data' = length data /\
    forall k, data' !! k =
      if decide (pos1 ≤ k < pos2)%nat then data !! (pos1 + pos2 - 1 - k)%nat else data !! k.
Proof.
  intros Hp. unfold swapEndian. destruct (Z.eqb_spec (zlen data) 0); [unfold zlen in *; lia|].
  rewrite bool_decide_eq_false_2 by lia. cbv zeta.
  pose proof (Nat.Div0.mul_div_le (pos2 - pos1) 2) as Hdiv.
  destruct (swap_loop_inv pos1 pos2 data ((pos2 - pos1) / 2) 0 data) as (data' & Hs & Hl & Hk);
    [lia|lia|apply swap_inv_0|].
  exists data'. split; [done|]. split; [done|]. intros k. rewrite Hk. unfold swapped_lookup.
  pose proof (Nat.div_mod_eq (pos2 - pos1) 2) as Hmod.
  pose proof (Nat.mod_upper_bound (pos2 - pos1) 2) as Hub.
  destruct (decide (pos1 ≤ k < pos1 + (0 + (pos2 - pos1) / 2) \/
    pos2 - (0 + (pos2 - pos1) / 2) ≤ k < pos2)%nat); destruct (decide (pos1 ≤ k < pos2)%nat);
    try done; try lia.
  f_equal. lia.
Qed.

Lemma rev_lookup_nat (l : list byte) k :
  rev l !! k = if decide (k < length l)%nat then l !! (length l - 1 - k)%nat else None.
Proof.
  rewrite List.rev_alt. change (List.rev_append l []) with (reverse l). case_decide.
  - rewrite reverse_lookup by done. f_equal. lia.
  - apply lookup_ge_None. rewrite length_reverse. lia.
Qed.

Lemma copySwapEndian_rev data : copySwapEndian data = Ok (rev data).
Proof.
  unfold copySwapEndian. destruct (decide (length data = 0)%nat) as [H0|Hpos].
  { by destruct data. }
  replace (swapEndian data 0 0) with (swapEndian data 0 (length data)).
  2:{ unfold swapEndian. destruct (Z.eqb_spec (zlen data) 0); [done|].
      rewrite (bool_decide_eq_true_2 (0 ≤ 0)%nat), (bool_decide_eq_false_2 (_ ≤ 0)%nat) by lia.
      done. }
  destruct (swapEndian_lookup data 0 (length data)) as (data' & -> & Hl & Hk); [lia|].
  f_equal. apply list_eq. intros k. rewrite Hk, rev_lookup_nat.
  destruct (decide (0 ≤ k < length data)%nat); destruct (decide (k < length data)%nat); try lia;
    [f_equal; lia|apply lookup_ge_None; lia].
Qed.

(** *** Hexadecimal round trip *)
Lemma hexit_lookup b :
  z2b (Z.lor (Z.shiftl (binLookupTable (hexit (Z.shiftr (b2z b) 4))) 4)
         (binLookupTable (hexit (b2z b)))) = b.
Proof. destruct b; vm_compute; reflexivity. Qed.

Lemma fromHex_loop_toHexStr self : fromHex_loop (toHexStr self) = self.
Proof.
  induction self as [|b self IH]; [done|]. simpl toHexStr.
  cbn [fromHex_loop]. by rewrite hexit_lookup, IH.
Qed.

Lemma length_toHexStr self : length (toHexStr self) = (2 * length self)%nat.
Proof. induction self as [|b self IH]; simpl; [done|]. rewrite IH. lia. Qed.

Lemma createFromHex_toHexStr self : createFromHex (toHexStr self) = Ok self.
Proof.
  unfold createFromHex, throw_if, zlen. rewrite length_toHexStr.
  replace (Z.of_nat (2 * length self)) with (Z.of_nat (length self) * 2) by lia.
  rewrite Z.mod_mul by lia. simpl. by rewrite fromHex_loop_toHexStr.
Qed.

(** *** Big-endian integers *)
Lemma lor_shift_add a b n :
  0 <= n -> 0 <= a < 2 ^ n -> Z.lor a (Z.shiftl b n) = a + b * 2 ^ n.
Proof.
  intros Hn Ha. rewrite <- Z.shiftl_mul_pow2 by done.
  rewrite <- Z.lxor_lor, <- Z.add_nocarry_lxor; try done.
  all: apply Z.bits_inj'; intros k Hk; rewrite Z.land_spec, Z.bits_0, Z.shiftl_spec by done.
  all: destruct (Z.ltb_spec k n);
    [rewrite (Z.testbit_neg_r b) by lia; apply andb_false_r
    |rewrite <- (Z.mod_small a (2 ^ n)) by done; rewrite Z.mod_pow2_bits_high by lia; done].
Qed.

Lemma pow256_pow2 n : 256 ^ Z.of_nat n = 2 ^ (8 * Z.of_nat n).
Proof. rewrite Z.pow_mul_r by lia. done. Qed.

Lemma strToIntBE_loop_spec l out :
  0 <= out ->
  strToIntBE_loop l (Z.shiftl out (8 * zlen l)) = out * 256 ^ zlen l + be_val l.
Proof.
  revert out. induction l as [|b l IH]; intros out Hout.
  - simpl. unfold be_val. simpl. rewrite Z.shiftl_0_r, zlen_nil. lia.
  - cbn [strToIntBE_loop]. rewrite be_val_cons.
    rewrite Z.lor_comm.
    replace (8 * zlen (b :: l)) with (8 + 8 * zlen l) by zlen_lia.
    pose proof (zlen_nonneg l) as Hl. pose proof (b2z_range b) as Hb.
    rewrite <- Z.shiftl_shiftl by lia. rewrite <- Z.shiftl_lor, (lor_shift_add (b2z b)) by lia.
    rewrite IH by lia. rewrite zlen_cons, Z.pow_add_r by lia.
    change (Z.of_nat (length l)) with (zlen l). change (256 ^ 1) with 256. change (2 ^ 8) with 256. lia.
Qed.

Lemma StrToIntBE_spec sz l : zlen l = Z.of_nat sz -> StrToIntBE sz l = be_val l.
Proof.
  intros H. unfold StrToIntBE. rewrite H, Z.eqb_refl. simpl.
  pose proof (strToIntBE_loop_spec l 0) as Hs. rewrite Z.shiftl_0_l in Hs. rewrite Hs; lia.
Qed.

Lemma StrToIntLE_spec sz l : zlen l = Z.of_nat sz -> StrToIntLE sz l = le_val l.
Proof. intros H. unfold StrToIntLE. by rewrite H, Z.eqb_refl. Qed.
