(* ===== verification/BinaryIO.v ===== *)
(** * BinaryIO: readers, writers and bit fields (cppForSwig/BinaryData.h)

    [BinaryRefReader] (every read guarded by the bytes remaining),
    [BinaryReader] (unguarded), [BinaryWriter], [BitPacker], [BitUnpacker], and
    the variable-length integers of BtcUtils.h.  The interface the record
    formats are built on is the class [Codec] at the end: a writer and a reader
    that undo each other in the middle of any stream. *)

From S2P Require Import Prelude BinaryData.

(** ** BinaryRefReader *)

Inductive ENDIAN := LE | BE.

Record BinaryRefReader := mkBRR {
  bdRef_ : list byte;
  totalSize_ : Z;
  pos_ : Z;
}.

(** A computation that reads from the stream and may throw. *)
Definition Reader (A : Type) : Type := BinaryRefReader -> result (A * BinaryRefReader).

#[export] Instance reader_ret : MRet Reader := fun A a r => Ok (a, r).
#[export] Instance reader_bind : MBind Reader := fun A B f m r =>
  match m r with
  | Ok (a, r') => f a r'
  | Err e => Err e
  end.
Definition rthrow {A} (e : exn) : Reader A := fun _ => Err e.

(** A step that reads nothing. *)
Definition reader_of {A} (x : result A) : Reader A := fun r => a ← x; Ok (a, r).

Definition brr_setNewData (toRead : list byte) : BinaryRefReader :=
  {| bdRef_ := toRead; totalSize_ := zlen toRead; pos_ := 0 |}.

Definition set_pos (r : BinaryRefReader) (p : Z) : BinaryRefReader :=
  {| bdRef_ := bdRef_ r; totalSize_ := totalSize_ r; pos_ := p |}.

Definition brr_getSizeRemaining (r : BinaryRefReader) : Z := wrap 64 (totalSize_ r - pos_ r).
Definition brr_isEndOfStream (r : BinaryRefReader) : bool := totalSize_ r <=? pos_ r.

Definition brr_advance (nBytes : Z) (r : BinaryRefReader) : BinaryRefReader :=
  let p := wrap 64 (pos_ r + nBytes) in
  set_pos r (Z.min p (totalSize_ r)).

Definition brr_rewind (nBytes : Z) (r : BinaryRefReader) : BinaryRefReader :=
  let start := pos_ r in
  let p := wrap 64 (pos_ r - nBytes) in
  set_pos r (if start <? p then 0 else p).

(** The bytes behind [ptr + pos]; leaving the buffer is undefined. *)
Definition raw_read (data : list byte) (pos n : Z) : result (list byte) :=
  if (0 <=? pos) && (pos + n <=? zlen data) then Ok (zslice data pos n) else Err UB.

(** The common body of the [get_*] methods: guard, raw read, move. *)
Definition brr_take (n : Z) : Reader (list byte) := fun r =>
  if brr_getSizeRemaining r <? n then Err RuntimeError
  else
    bs ← raw_read (bdRef_ r) (pos_ r) n;
    Ok (bs, set_pos r (wrap 64 (pos_ r + n))).

Definition int_of (e : ENDIAN) (bs : list byte) : Z :=
  match e with LE => le_val bs | BE => strToIntBE_loop bs 0 end.

Definition brr_get_uint8_t : Reader Z := bs ← brr_take 1; mret (le_val bs).
Definition brr_get_uint16_t (e : ENDIAN) : Reader Z := bs ← brr_take 2; mret (int_of e bs).
Definition brr_get_uint32_t (e : ENDIAN) : Reader Z := bs ← brr_take 4; mret (int_of e bs).
Definition brr_get_int32_t (e : ENDIAN) : Reader Z :=
  bs ← brr_take 4; mret (signed 32 (int_of e bs)).
Definition brr_get_uint64_t (e : ENDIAN) : Reader Z := bs ← brr_take 8; mret (int_of e bs).

(** [get_BinaryData], [get_BinaryDataRef]. *)
Definition brr_get_BinaryData (nBytes : Z) : Reader (list byte) := brr_take nBytes.

(** [fork]: a reader over the remaining bytes. *)
Definition brr_fork (r : BinaryRefReader) : BinaryRefReader :=
  {| bdRef_ := drop (Z.to_nat (pos_ r)) (bdRef_ r);
     totalSize_ := brr_getSizeRemaining r; pos_ := 0 |}.

(** ** Variable-length integers *)

(** [BtcUtils::readVarInt(ptr, remaining, &len)]; [strm] is the memory from
    [ptr] on. *)
Definition readVarInt (strm : list byte) (remaining : Z) : result (Z * Z) :=
  if remaining <? 1 then Err BlockDeserializing
  else
    firstByte ← at_ strm 0;
    let firstByte := b2z firstByte in
    if firstByte <? 0xfd then Ok (firstByte, 1)
    else if firstByte =? 0xfd then
      throw_if (remaining <? 3) BlockDeserializing
        (bs ← raw_read strm 1 2; Ok (le_val bs, 3))
    else if firstByte =? 0xfe then
      throw_if (remaining <? 5) BlockDeserializing
        (bs ← raw_read strm 1 4; Ok (le_val bs, 5))
    else
      throw_if (remaining <? 9) BlockDeserializing
        (bs ← raw_read strm 1 8; Ok (le_val bs, 9)).

(** [BinaryRefReader::get_var_int] *)
Definition brr_get_var_int : Reader Z := fun r =>
  p ← readVarInt (drop (Z.to_nat (pos_ r)) (bdRef_ r)) (brr_getSizeRemaining r);
  Ok (p.1, set_pos r (wrap 64 (pos_ r + p.2))).

(** [BtcUtils::readVarInt(BinaryRefReader&)]: value and length. *)
Definition readVarInt_brr : Reader (Z * Z) := fun r =>
  p ← readVarInt (drop (Z.to_nat (pos_ r)) (bdRef_ r)) (brr_getSizeRemaining r);
  Ok ((p.1, wrap 8 p.2), brr_advance p.2 r).

Definition readVarIntLength (strm : list byte) : result Z :=
  firstByte ← at_ strm 0;
  let firstByte := b2z firstByte in
  Ok (if firstByte <? 0xfd then 1
      else if firstByte =? 0xfd then 3
      else if firstByte =? 0xfe then 5
      else if firstByte =? 0xff then 9
      else wrap 32 (-1)).

Definition calcVarIntSize (regularInteger : Z) : Z :=
  if regularInteger <? 0xfd then 1
  else if regularInteger <=? 0xffff then 3
  else if regularInteger <=? 0xffffffff then 5
  else 9.

(** ** BinaryReader: the same buffer, without the guards *)

Record BinaryReader := mkBR { bdStr_ : list byte; br_pos : Z }.

Definition br_advance (nBytes : Z) (r : BinaryReader) : BinaryReader :=
  {| bdStr_ := bdStr_ r; br_pos := Z.min (wrap 64 (br_pos r + nBytes)) (zlen (bdStr_ r)) |}.

(** [pos_ -= nBytes; pos_ = max(pos_, (size_t)0)] on an unsigned [pos_]. *)
Definition br_rewind (nBytes : Z) (r : BinaryReader) : BinaryReader :=
  {| bdStr_ := bdStr_ r; br_pos := Z.max (wrap 64 (br_pos r - nBytes)) 0 |}.

Definition br_resize (nBytes : Z) (r : BinaryReader) : BinaryReader :=
  {| bdStr_ := take (Z.to_nat nBytes) (bdStr_ r) ++
               replicate (Z.to_nat nBytes - length (bdStr_ r)) (z2b 0);
     br_pos := Z.min nBytes (br_pos r) |}.

Definition br_take (n : Z) (r : BinaryReader) : result (list byte * BinaryReader) :=
  bs ← raw_read (bdStr_ r) (br_pos r) n;
  Ok (bs, {| bdStr_ := bdStr_ r; br_pos := wrap 64 (br_pos r + n) |}).

Definition br_get_uint8_t (r : BinaryReader) : result (Z * BinaryReader) :=
  p ← br_take 1 r; Ok (le_val p.1, p.2).
Definition br_get_uint16_t (e : ENDIAN) (r : BinaryReader) : result (Z * BinaryReader) :=
  p ← br_take 2 r; Ok (int_of e p.1, p.2).
Definition br_get_uint32_t (e : ENDIAN) (r : BinaryReader) : result (Z * BinaryReader) :=
  p ← br_take 4 r; Ok (int_of e p.1, p.2).
Definition br_get_uint64_t (e : ENDIAN) (r : BinaryReader) : result (Z * BinaryReader) :=
  p ← br_take 8 r; Ok (int_of e p.1, p.2).

(** [rotateRemaining]: moves the unread bytes to the front of the buffer. *)
Definition br_rotateRemaining (r : BinaryReader) : BinaryReader :=
  let rem := drop (Z.to_nat (br_pos r)) (bdStr_ r) in
  {| bdStr_ := rem ++ drop (length rem) (bdStr_ r); br_pos := 0 |}.

(** ** BinaryWriter *)

Record BinaryWriter := mkBW { theString_ : list byte }.

Definition bw_new : BinaryWriter := {| theString_ := [] |}.
Definition bw_append (bs : list byte) (w : BinaryWriter) : BinaryWriter :=
  {| theString_ := append (theString_ w) bs |}.

Definition int_to (e : ENDIAN) (n : nat) (v : Z) : list byte :=
  match e with LE => IntToStrLE n v | BE => IntToStrBE n v end.

Definition bw_put_uint8_t (val : Z) (w : BinaryWriter) : BinaryWriter :=
  {| theString_ := theString_ w ++ [z2b val] |}.
Definition bw_put_uint16_t (val : Z) (e : ENDIAN) : BinaryWriter -> BinaryWriter :=
  bw_append (int_to e 2 val).
Definition bw_put_uint32_t (val : Z) (e : ENDIAN) : BinaryWriter -> BinaryWriter :=
  bw_append (int_to e 4 val).
(** A two's complement value: the bytes of its 32-bit pattern. *)
Definition bw_put_int32_t (val : Z) (e : ENDIAN) : BinaryWriter -> BinaryWriter :=
  bw_append (int_to e 4 (wrap 32 val)).
Definition bw_put_uint64_t (val : Z) (e : ENDIAN) : BinaryWriter -> BinaryWriter :=
  bw_append (int_to e 8 val).

(** [put_var_int]: the writer and the returned length. *)
Definition bw_put_var_int (val : Z) (w : BinaryWriter) : BinaryWriter * Z :=
  if val <? 0xfd then (bw_put_uint8_t val w, 1)
  else if val <=? 0xffff then
    (bw_put_uint16_t (wrap 16 val) LE (bw_put_uint8_t 0xfd w), 3)
  else if val <=? 0xffffffff then
    (bw_put_uint32_t (wrap 32 val) LE (bw_put_uint8_t 0xfe w), 5)
  else (bw_put_uint64_t val LE (bw_put_uint8_t 0xff w), 9).

(** [put_BinaryData(str, offset, sz)]; a raw read past [str] is undefined. *)
Definition bw_put_BinaryData_at (str : list byte) (offset sz : Z) (w : BinaryWriter)
    : result BinaryWriter :=
  if offset =? 0 then
    if sz =? 0 then Ok (bw_append str w)
    else bs ← raw_read str 0 sz; Ok (bw_append bs w)
  else
    if sz =? 0 then
      bs ← raw_read str offset (wrap 64 (zlen str - offset)); Ok (bw_append bs w)
    else bs ← raw_read str offset sz; Ok (bw_append bs w).

Definition bw_put_BinaryData (str : list byte) (w : BinaryWriter) : BinaryWriter :=
  bw_append str w.

(** ** BitPacker and BitUnpacker over a [w]-bit integer *)

Record BitPacker := mkBP { bp_intVal : Z; bitsUsed_ : Z }.

Definition bp_new : BitPacker := {| bp_intVal := 0; bitsUsed_ := 0 |}.

(** [mask = (DTYPE)((1ULL<<bitWidth) - 1)] *)
Definition bit_mask (w bitWidth : Z) : Z := wrap w (wrap 64 (Z.shiftl 1 bitWidth - 1)).

(** [putBits(val, bitWidth)] on [DTYPE] of width [w].  Overflowing the field is
    logged only; the shift amount then wraps as a [uint32_t] does. *)
Definition bp_putBits (w val bitWidth : Z) (p : BitPacker) : BitPacker :=
  if (bitsUsed_ p =? 0) && (bitWidth =? w) then
    {| bp_intVal := val; bitsUsed_ := w |}
  else
    let shiftAmt := wrap 32 (w - (bitsUsed_ p + bitWidth)) in
    let mask := bit_mask w bitWidth in
    {| bp_intVal := wrap w (Z.lor (bp_intVal p) (Z.shiftl (Z.land val mask) shiftAmt));
       bitsUsed_ := wrap 32 (bitsUsed_ p + bitWidth) |}.

Definition bp_putBit (w : Z) (val : bool) (p : BitPacker) : BitPacker :=
  bp_putBits w (if val then 1 else 0) 1 p.

Definition bp_getBinaryData (w : Z) (p : BitPacker) : list byte :=
  IntToStrBE (Z.to_nat (w / 8)) (bp_intVal p).

Definition bw_put_BitPacker (w : Z) (bp : BitPacker) : BinaryWriter -> BinaryWriter :=
  bw_put_BinaryData (bp_getBinaryData w bp).

Record BitUnpacker := mkBU { bu_intVal : Z; bitsRead_ : Z }.

Definition bu_setValue (val : Z) : BitUnpacker := {| bu_intVal := val; bitsRead_ := 0 |}.

(** [BitUnpacker(BinaryRefReader&)] *)
Definition bu_read (w : Z) : Reader BitUnpacker :=
  bytes ← brr_get_BinaryData (w / 8);
  mret (bu_setValue (StrToIntBE (Z.to_nat (w / 8)) bytes)).

Definition bu_getBits (w bitWidth : Z) (u : BitUnpacker) : Z * BitUnpacker :=
  if (bitsRead_ u =? 0) && (bitWidth =? w) then
    (bu_intVal u, {| bu_intVal := bu_intVal u; bitsRead_ := bitWidth |})
  else
    let shiftAmt := wrap 32 (w - (bitsRead_ u + bitWidth)) in
    let mask := bit_mask w bitWidth in
    (Z.land (Z.shiftr (bu_intVal u) shiftAmt) mask,
     {| bu_intVal := bu_intVal u; bitsRead_ := wrap 32 (bitsRead_ u + bitWidth) |}).

Definition bu_getBit (w : Z) (u : BitUnpacker) : bool * BitUnpacker :=
  let '(v, u') := bu_getBits w 1 u in (0 <? v, u').

(** ** The stream interface *)

(** A reader that has consumed [pre] and has [post] left. *)
Definition brr_at (pre post : list byte) : BinaryRefReader :=
  {| bdRef_ := pre ++ post; totalSize_ := zlen (pre ++ post); pos_ := zlen pre |}.

Lemma brr_setNewData_at l : brr_setNewData l = brr_at [] l.
Proof. done. Qed.

(** [parses m bs a]: wherever [bs] stands in a stream, [m] consumes exactly
    [bs] and returns [a]. *)
Definition parses {A} (m : Reader A) (bs : list byte) (a : A) : Prop :=
  forall pre post, zlen (pre ++ bs ++ post) < two64 ->
    m (brr_at pre (bs ++ post)) = Ok (a, brr_at (pre ++ bs) post).

(** A reader whose position is inside its buffer. *)
Definition brr_wf (r : BinaryRefReader) : Prop :=
  totalSize_ r = zlen (bdRef_ r) /\ 0 <= pos_ r <= totalSize_ r /\ totalSize_ r < two64.

(** [safe m]: on a well-formed reader [m] never leaves the buffer, keeps the
    reader well formed and never moves backwards. *)
Definition safe {A} (m : Reader A) : Prop :=
  forall r, brr_wf r ->
    match m r with
    | Ok (_, r') => brr_wf r' /\ bdRef_ r' = bdRef_ r /\ pos_ r <= pos_ r'
    | Err e => e <> UB
    end.

Lemma parses_ret {A} (a : A) : parses (mret a) [] a.
Proof. intros pre post _. by rewrite app_nil_r. Qed.

Lemma parses_bind {A B} (m : Reader A) (f : A -> Reader B) bs1 bs2 a b :
  parses m bs1 a -> parses (f a) bs2 b -> parses (m ≫= f) (bs1 ++ bs2) b.
Proof.
  intros H1 H2 pre post Hl. unfold mbind, reader_bind.
  rewrite <- app_assoc, H1 by (rewrite app_assoc; autorewrite with zlen in *; lia).
  rewrite H2 by (autorewrite with zlen in *; lia). by rewrite <- app_assoc.
Qed.

(** The last reader of a sequence, with nothing more to consume after it. *)
Lemma parses_bind_ret {A B} (m : Reader A) (f : A -> Reader B) bs a b :
  parses m bs a -> parses (f a) [] b -> parses (m ≫= f) bs b.
Proof. intros H1 H2. rewrite <- (app_nil_r bs). by eapply parses_bind. Qed.

Lemma reader_of_parses {A} (x : result A) a : x = Ok a -> parses (reader_of x) [] a.
Proof. intros -> pre post _. by rewrite app_nil_r. Qed.

(** A reader of the whole of its buffer. *)
Lemma parses_whole {A} (m : Reader A) bs a : parses m bs a -> zlen bs < two64 ->
  m (brr_setNewData bs) = Ok (a, brr_at bs []).
Proof.
  intros Hm Hl. pose proof (Hm [] []) as P. rewrite app_nil_r in P.
  rewrite brr_setNewData_at. by rewrite P.
Qed.

Lemma safe_ret {A} (a : A) : safe (mret a).
Proof. intros r Hr. simpl. split; [done|]. split; [done|lia]. Qed.

Lemma safe_throw {A} e : e <> UB -> safe (@rthrow A e).
Proof. intros He r Hr. done. Qed.

Lemma safe_bind {A B} (m : Reader A) (f : A -> Reader B) :
  safe m -> (forall a, safe (f a)) -> safe (m ≫= f).
Proof.
  intros Hm Hf r Hr. unfold mbind, reader_bind. specialize (Hm r Hr).
  destruct (m r) as [[a r']|e]; [|done]. destruct Hm as (Hr' & Hb & Hp).
  specialize (Hf a r' Hr'). destruct (f a r') as [[b r'']|e]; [|done].
  destruct Hf as (? & ? & ?). split; [done|]. split; [congruence|lia].
Qed.

#[export] Hint Resolve parses_ret safe_ret safe_bind : armory.

Lemma brr_wf_at pre post : zlen (pre ++ post) < two64 -> brr_wf (brr_at pre post).
Proof. intros. unfold brr_wf, brr_at; simpl. zlen_lia. Qed.

Lemma brr_remaining_at pre post :
  zlen (pre ++ post) < two64 -> brr_getSizeRemaining (brr_at pre post) = zlen post.
Proof.
  intros Hl. unfold brr_getSizeRemaining, brr_at; simpl. rewrite wrap_small; [zlen_lia|].
  unfold is_uint, two64 in *. zlen_lia.
Qed.

Lemma brr_remaining_wf r : brr_wf r -> brr_getSizeRemaining r = totalSize_ r - pos_ r.
Proof.
  intros (? & ? & ?). unfold brr_getSizeRemaining. apply wrap_small.
  unfold is_uint, two64 in *. lia.
Qed.

(** Every well-formed reader is of the form [brr_at]. *)
Lemma brr_wf_split r : brr_wf r ->
  exists pre post, r = brr_at pre post /\ zlen (pre ++ post) < two64.
Proof.
  intros (Ht & Hp & Hs). destruct r as [bd t p]; simpl in *.
  exists (take (Z.to_nat p) bd), (drop (Z.to_nat p) bd). unfold brr_at.
  rewrite take_drop. split; [|by rewrite <- Ht].
  f_equal; [done|]. unfold zlen in *. rewrite length_take. lia.
Qed.

Lemma raw_read_app pre mid post :
  raw_read (pre ++ mid ++ post) (zlen pre) (zlen mid) = Ok mid.
Proof.
  unfold raw_read. destruct (Z.leb_spec 0 (zlen pre)); [|zlen_lia].
  destruct (Z.leb_spec (zlen pre + zlen mid) (zlen (pre ++ mid ++ post))); [|zlen_lia].
  simpl. by rewrite zslice_app.
Qed.

Lemma brr_take_parses bs : parses (brr_take (zlen bs)) bs bs.
Proof.
  intros pre post Hl. unfold brr_take. rewrite brr_remaining_at by done.
  zcase; [zlen_lia|]. unfold brr_at; simpl. rewrite raw_read_app. simpl.
  unfold set_pos; simpl. do 2 f_equal. rewrite <- (zlen_app pre bs), wrap_small, <- app_assoc; [done|].
  unfold is_uint, two64 in *. zlen_lia.
Qed.

Lemma brr_take_parses' n bs : zlen bs = n -> parses (brr_take n) bs bs.
Proof. intros <-. apply brr_take_parses. Qed.

Lemma brr_take_safe n : 0 <= n -> safe (brr_take n).
Proof.
  intros Hn r Hr. unfold brr_take. rewrite brr_remaining_wf by done.
  destruct Hr as (Ht & Hp & Hs). zcase; [done|].
  unfold raw_read. destruct (Z.leb_spec 0 (pos_ r)); [|lia].
  destruct (Z.leb_spec (pos_ r + n) (zlen (bdRef_ r))); [|lia]. simpl.
  unfold brr_wf, set_pos; simpl. rewrite wrap_small.
  - split; [lia|]. split; [done|lia].
  - unfold is_uint, two64 in *; lia.
Qed.
#[export] Hint Resolve brr_take_parses' brr_take_safe : armory.

(** ** Integer fields *)

Lemma int_of_to e n v :
  int_of e (int_to e n v) = v mod 256 ^ Z.of_nat n.
Proof.
  destruct e; simpl; unfold IntToStrLE, IntToStrBE.
  - apply le_val_le_bytes.
  - rewrite <- be_val_be_bytes, <- (StrToIntBE_spec n) by (by rewrite zlen_be_bytes).
    unfold StrToIntBE. by rewrite zlen_be_bytes, Z.eqb_refl.
Qed.

Lemma zlen_int_to e n v : zlen (int_to e n v) = Z.of_nat n.
Proof. destruct e; simpl; unfold IntToStrLE, IntToStrBE; autorewrite with zlen; done. Qed.
#[export] Hint Rewrite zlen_int_to : zlen.

Lemma int_of_to_small e n v w :
  8 * Z.of_nat n = w -> is_uint w v -> int_of e (int_to e n v) = v.
Proof.
  intros <- Hv. rewrite int_of_to, pow256_pow2. by apply Z.mod_small.
Qed.

Lemma take_int_parses e n v w {B} (g : Z -> B) :
  8 * Z.of_nat n = w -> is_uint w v ->
  parses (bs ← brr_take (Z.of_nat n); mret (g (int_of e bs))) (int_to e n v) (g v).
Proof.
  intros Hw Hv. eapply parses_bind_ret; [apply brr_take_parses', zlen_int_to|].
  rewrite (int_of_to_small e n v w) by done. apply parses_ret.
Qed.

Lemma brr_get_uint8_t_parses v : is_uint 8 v -> parses brr_get_uint8_t [z2b v] v.
Proof.
  intros Hv. eapply parses_bind_ret; [by apply (brr_take_parses' 1)|].
  simpl. rewrite Z.add_0_r, b2z_z2b_small by (unfold is_uint in Hv; lia). apply parses_ret.
Qed.
Lemma brr_get_uint8_t_parses' b pre post : zlen (pre ++ b :: post) < two64 ->
  brr_get_uint8_t (brr_at pre (b :: post)) = Ok (b2z b, brr_at (pre ++ [b]) post).
Proof.
  intros Hl. rewrite <- (z2b_b2z b) at 1 3. apply (brr_get_uint8_t_parses (b2z b)); [apply b2z_range|].
  by rewrite z2b_b2z.
Qed.
Lemma brr_get_uint16_t_parses e v :
  is_uint 16 v -> parses (brr_get_uint16_t e) (int_to e 2 v) v.
Proof. apply (take_int_parses e 2 v 16 id); done. Qed.
Lemma brr_get_uint32_t_parses e v :
  is_uint 32 v -> parses (brr_get_uint32_t e) (int_to e 4 v) v.
Proof. apply (take_int_parses e 4 v 32 id); done. Qed.
Lemma brr_get_uint64_t_parses e v :
  is_uint 64 v -> parses (brr_get_uint64_t e) (int_to e 8 v) v.
Proof. apply (take_int_parses e 8 v 64 id); done. Qed.

Lemma signed_wrap v : -2 ^ 31 <= v < 2 ^ 31 -> signed 32 (wrap 32 v) = v.
Proof.
  intros Hv. unfold signed.
  assert (wrap 32 (wrap 32 v) = wrap 32 v) as -> by (unfold wrap; by rewrite Z.mod_mod).
  change (2 ^ (32 - 1)) with 2147483648.
  destruct (decide (0 <= v)).
  - rewrite wrap_small by (unfold is_uint; lia). rewrite decide_True by lia. done.
  - assert (wrap 32 v = v + 2 ^ 32) as ->.
    { unfold wrap. symmetry. apply (Z.mod_unique v (2 ^ 32) (-1)); lia. }
    rewrite decide_False by lia. lia.
Qed.

Lemma brr_get_int32_t_parses e v :
  -2 ^ 31 <= v < 2 ^ 31 -> parses (brr_get_int32_t e) (int_to e 4 (wrap 32 v)) v.
Proof.
  intros Hv. unfold brr_get_int32_t.
  pose proof (take_int_parses e 4 (wrap 32 v) 32 (signed 32)) as H.
  rewrite signed_wrap in H by done. apply H; [done|]. by apply wrap_range.
Qed.

Lemma brr_get_BinaryData_parses n bs : zlen bs = n -> parses (brr_get_BinaryData n) bs bs.
Proof. apply brr_take_parses'. Qed.

Lemma brr_get_uint8_t_safe : safe brr_get_uint8_t.
Proof. apply safe_bind; [by apply brr_take_safe|intros; apply safe_ret]. Qed.
Lemma brr_get_uint16_t_safe e : safe (brr_get_uint16_t e).
Proof. apply safe_bind; [by apply brr_take_safe|intros; apply safe_ret]. Qed.
Lemma brr_get_uint32_t_safe e : safe (brr_get_uint32_t e).
Proof. apply safe_bind; [by apply brr_take_safe|intros; apply safe_ret]. Qed.
Lemma brr_get_uint64_t_safe e : safe (brr_get_uint64_t e).
Proof. apply safe_bind; [by apply brr_take_safe|intros; apply safe_ret]. Qed.
Lemma brr_get_BinaryData_safe n : 0 <= n -> safe (brr_get_BinaryData n).
Proof. apply brr_take_safe. Qed.
#[export] Hint Resolve brr_get_uint8_t_parses brr_get_uint16_t_parses brr_get_uint32_t_parses
  brr_get_uint64_t_parses brr_get_int32_t_parses brr_get_BinaryData_parses
  brr_get_uint8_t_safe brr_get_uint16_t_safe brr_get_uint32_t_safe brr_get_uint64_t_safe
  brr_get_BinaryData_safe : armory.

(** What the writer appends. *)
Lemma bw_append_str bs w : theString_ (bw_append bs w) = theString_ w ++ bs.
Proof. unfold bw_append; simpl. apply append_app. Qed.
Lemma bw_put_uint8_t_str v w : theString_ (bw_put_uint8_t v w) = theString_ w ++ [z2b v].
Proof. done. Qed.
Lemma bw_put_uint16_t_str v e w :
  theString_ (bw_put_uint16_t v e w) = theString_ w ++ int_to e 2 v.
Proof. apply bw_append_str. Qed.
Lemma bw_put_uint32_t_str v e w :
  theString_ (bw_put_uint32_t v e w) = theString_ w ++ int_to e 4 v.
Proof. apply bw_append_str. Qed.
Lemma bw_put_int32_t_str v e w :
  theString_ (bw_put_int32_t v e w) = theString_ w ++ int_to e 4 (wrap 32 v).
Proof. apply bw_append_str. Qed.
Lemma bw_put_uint64_t_str v e w :
  theString_ (bw_put_uint64_t v e w) = theString_ w ++ int_to e 8 v.
Proof. apply bw_append_str. Qed.
Lemma bw_put_BinaryData_str bs w : theString_ (bw_put_BinaryData bs w) = theString_ w ++ bs.
Proof. apply bw_append_str. Qed.
Lemma bw_new_str : theString_ bw_new = [].
Proof. done. Qed.
Create Rewrite HintDb bw.
#[export] Hint Rewrite bw_put_uint8_t_str bw_put_uint16_t_str bw_put_uint32_t_str
  bw_put_int32_t_str bw_put_uint64_t_str bw_put_BinaryData_str bw_append_str bw_new_str : bw.

(** ** Variable-length integers: encoding, decoding, canonical length *)

Definition var_int_bytes (v : Z) : list byte :=
  if v <? 0xfd then [z2b v]
  else if v <=? 0xffff then z2b 0xfd :: int_to LE 2 v
  else if v <=? 0xffffffff then z2b 0xfe :: int_to LE 4 v
  else z2b 0xff :: int_to LE 8 v.

Lemma bw_put_var_int_str v w : is_uint 64 v ->
  theString_ (bw_put_var_int v w).1 = theString_ w ++ var_int_bytes v.
Proof.
  intros Hv. unfold bw_put_var_int, var_int_bytes, is_uint in *. repeat zcase; simpl fst;
    autorewrite with bw; rewrite <- ?app_assoc; try done.
  - rewrite wrap_small by (unfold is_uint; lia). done.
  - rewrite wrap_small by (unfold is_uint; lia). done.
Qed.
#[export] Hint Rewrite bw_put_var_int_str using done : bw.

Lemma bw_put_var_int_len v w : (bw_put_var_int v w).2 = calcVarIntSize v.
Proof. unfold bw_put_var_int, calcVarIntSize. repeat zcase; done. Qed.

Lemma zlen_var_int_bytes v : zlen (var_int_bytes v) = calcVarIntSize v.
Proof.
  unfold var_int_bytes, calcVarIntSize. repeat zcase; autorewrite with zlen; lia.
Qed.
#[export] Hint Rewrite zlen_var_int_bytes : zlen.

Lemma calcVarIntSize_range v : 1 <= calcVarIntSize v <= 9.
Proof. unfold calcVarIntSize. repeat zcase; lia. Qed.

Lemma raw_read_tail b bs tl : raw_read (b :: bs ++ tl) 1 (zlen bs) = Ok bs.
Proof. apply (raw_read_app [b] bs tl). Qed.

Lemma at_cons_0 b l : at_ (b :: l) 0 = Ok b.
Proof. done. Qed.

(** A prefixed integer: the marker byte selects the branch of [readVarInt]. *)
Lemma readVarInt_marker n w m v tl :
  8 * Z.of_nat n = w -> is_uint w v ->
  raw_read (z2b m :: int_to LE n v ++ tl) 1 (Z.of_nat n) = Ok (int_to LE n v) /\
  le_val (int_to LE n v) = v.
Proof.
  intros Hw Hu. split; [|by apply (int_of_to_small LE n v w)].
  rewrite <- (zlen_int_to LE n v). apply raw_read_tail.
Qed.

Lemma readVarInt_bytes v tl :
  is_uint 64 v ->
  readVarInt (var_int_bytes v ++ tl) (zlen (var_int_bytes v ++ tl)) = Ok (v, calcVarIntSize v).
Proof.
  intros Hv. rewrite zlen_app, zlen_var_int_bytes.
  pose proof (zlen_nonneg tl). unfold is_uint in Hv.
  unfold var_int_bytes, calcVarIntSize, readVarInt.
  destruct (Z.ltb_spec v 0xfd); [|destruct (Z.leb_spec v 0xffff); [|destruct (Z.leb_spec v 0xffffffff)]];
    (match goal with |- context [?n + zlen tl <? 1] => destruct (Z.ltb_spec (n + zlen tl) 1) end;
       [lia|]); cbn [app]; rewrite at_cons_0; cbn [mbind result_bind];
    rewrite b2z_z2b_small by lia; unfold throw_if.
  - destruct (Z.ltb_spec v 253); [done|lia].
  - destruct (readVarInt_marker 2 16 253 v tl) as [Hr1 Hr2]; [done|unfold is_uint; lia|].
    zsimp. change 2 with (Z.of_nat 2) at 1. rewrite Hr1. cbn [mbind result_bind]. by rewrite Hr2.
  - destruct (readVarInt_marker 4 32 254 v tl) as [Hr1 Hr2]; [done|unfold is_uint; lia|].
    zsimp. change 4 with (Z.of_nat 4) at 1. rewrite Hr1. cbn [mbind result_bind]. by rewrite Hr2.
  - destruct (readVarInt_marker 8 64 255 v tl) as [Hr1 Hr2]; [done|unfold is_uint; lia|].
    zsimp. change 8 with (Z.of_nat 8) at 1. rewrite Hr1. cbn [mbind result_bind]. by rewrite Hr2.
Qed.

Lemma drop_pre (pre post : list byte) : drop (Z.to_nat (zlen pre)) (pre ++ post) = post.
Proof. unfold zlen. by rewrite Nat2Z.id, drop_app_length. Qed.

Lemma brr_get_var_int_parses v : is_uint 64 v -> parses brr_get_var_int (var_int_bytes v) v.
Proof.
  intros Hv pre post Hl. unfold brr_get_var_int.
  rewrite brr_remaining_at by done. unfold brr_at at 1 2; simpl bdRef_; simpl pos_.
  rewrite drop_pre, readVarInt_bytes by done. simpl. unfold set_pos, brr_at; simpl.
  do 2 f_equal. rewrite <- zlen_var_int_bytes, <- zlen_app, wrap_small, <- app_assoc; [done|].
  pose proof (zlen_nonneg pre). pose proof (zlen_nonneg post).
  pose proof (zlen_nonneg (var_int_bytes v)).
  unfold is_uint, two64 in *. rewrite !zlen_app in *. lia.
Qed.

Lemma raw_read_ok data p n :
  0 <= p -> 0 <= n -> p + n <= zlen data -> exists bs, raw_read data p n = Ok bs /\ zlen bs = n.
Proof.
  intros. unfold raw_read. zsimp. eexists; split; [done|]. apply zlen_zslice; lia.
Qed.

(** With the true number of bytes left, [readVarInt] either throws or reads
    inside the buffer, and it never claims more bytes than there are. *)
Lemma readVarInt_safe strm :
  match readVarInt strm (zlen strm) with
  | Ok (v, len) => is_uint 64 v /\ 1 <= len <= zlen strm
  | Err e => e = BlockDeserializing
  end.
Proof.
  unfold readVarInt. zcase; [done|].
  destruct (at_Ok strm 0) as (b & -> & Hb); [lia|]. simpl. pose proof (b2z_range b).
  assert (forall n, 0 <= n <= 8 -> n + 1 <= zlen strm -> exists bs,
    raw_read strm 1 n = Ok bs /\ is_uint 64 (le_val bs)) as Hr.
  { intros n ? ?. destruct (raw_read_ok strm 1 n) as (bs & -> & Hn); [lia..|].
    exists bs. split; [done|]. pose proof (le_val_range bs) as Hv. unfold zlen in Hn. rewrite Hn in Hv.
    pose proof (Z.pow_le_mono_r 256 n 8). unfold is_uint. change (2 ^ 64) with (256 ^ 8). lia. }
  destruct (b2z b <? 253); [split; [unfold is_uint; lia|lia]|].
  unfold throw_if. destruct (b2z b =? 253); [|destruct (b2z b =? 254)]; (zcase; [done|]);
    [destruct (Hr 2) as (bs & -> & ?)|destruct (Hr 4) as (bs & -> & ?)|destruct (Hr 8) as (bs & -> & ?)];
    try lia; simpl; (split; [done|lia]).
Qed.

Lemma brr_get_var_int_safe : safe brr_get_var_int.
Proof.
  intros r Hr. destruct (brr_wf_split r Hr) as (pre & post & -> & Hl).
  unfold brr_get_var_int. rewrite brr_remaining_at by done.
  unfold brr_at at 1 2; simpl bdRef_; simpl pos_. rewrite drop_pre.
  pose proof (readVarInt_safe post) as Hs.
  destruct (readVarInt post (zlen post)) as [[v len]|e]; simpl; [|by subst].
  destruct Hs as [_ Hlen]. unfold brr_wf, set_pos, brr_at; simpl.
  rewrite wrap_small by (unfold is_uint, two64 in *; zlen_lia).
  split; [split; [done|]; zlen_lia|]. split; [done|lia].
Qed.
#[export] Hint Resolve brr_get_var_int_parses brr_get_var_int_safe : armory.

(** ** Bit fields *)

Lemma bit_mask_ones w bw : 0 <= bw <= w -> w <= 64 -> bit_mask w bw = Z.ones bw.
Proof.
  intros Hb Hw. unfold bit_mask. rewrite Z.shiftl_1_l, Z.ones_equiv, <- Z.sub_1_r.
  assert (0 < 2 ^ bw) by (apply Z.pow_pos_nonneg; lia).
  pose proof (Z.pow_le_mono_r 2 bw w). pose proof (Z.pow_le_mono_r 2 bw 64).
  rewrite (wrap_small 64) by (unfold is_uint; lia).
  rewrite (wrap_small w); [done|unfold is_uint; lia].
Qed.

(** A packer that holds the [u]-bit number [V] at the top of its [w] bits. *)
Definition bp_holds (w u V : Z) (p : BitPacker) : Prop :=
  bitsUsed_ p = u /\ bp_intVal p = V * 2 ^ (w - u) /\ 0 <= V < 2 ^ u.

Lemma bp_putBits_holds w u V p bw val :
  0 <= u -> 0 < bw -> u + bw <= w <= 64 -> 0 <= val < 2 ^ bw ->
  bp_holds w u V p -> bp_holds w (u + bw) (V * 2 ^ bw + val) (bp_putBits w val bw p).
Proof.
  intros Hu Hbw Hw Hval (Hbits & Hint & HV).
  assert (0 < 2 ^ bw) by (apply Z.pow_pos_nonneg; lia).
  assert (0 < 2 ^ u) by (apply Z.pow_pos_nonneg; lia).
  assert (V * 2 ^ bw + val < 2 ^ (u + bw)) as Hub by (rewrite Z.pow_add_r by lia; nia).
  unfold bp_holds, bp_putBits. rewrite Hbits.
  destruct ((u =? 0) && (bw =? w)) eqn:Efull; breflect; simpl.
  - clear Hbits. subst u bw. assert (V = 0) as -> by (change (2 ^ 0) with 1 in *; lia).
    rewrite Z.mul_0_l, !Z.add_0_l, Z.sub_diag. change (2 ^ 0) with 1. lia.
  - clear Efull. rewrite !(wrap_small 32) by (unfold is_uint; lia).
    split; [done|]. split; [|nia].
    rewrite bit_mask_ones by lia. rewrite Z.land_ones, Z.mod_small by lia.
    set (s := w - (u + bw)). assert (0 <= s) by lia.
    assert (0 < 2 ^ s) by (apply Z.pow_pos_nonneg; lia).
    rewrite Hint. replace (w - u) with (s + bw) by lia.
    rewrite Z.lor_comm, Z.shiftl_mul_pow2 by lia.
    rewrite <- (Z.shiftl_mul_pow2 V) by lia. rewrite lor_shift_add.
    + rewrite wrap_small; [rewrite Z.pow_add_r by lia; lia|].
      unfold is_uint. rewrite Z.pow_add_r by lia.
      replace w with (u + bw + s) by lia. rewrite (Z.pow_add_r 2 (u + bw)) by lia. nia.
    + lia.
    + rewrite Z.pow_add_r by lia. nia.
Qed.

(** Packing and unpacking a list of (width, value) fields. *)
Fixpoint pack_fields (w : Z) (fs : list (Z * Z)) (p : BitPacker) : BitPacker :=
  match fs with
  | [] => p
  | (bw, v) :: fs => pack_fields w fs (bp_putBits w v bw p)
  end.

Fixpoint unpack_fields (w : Z) (ws : list Z) (u : BitUnpacker) : list Z :=
  match ws with
  | [] => []
  | bw :: ws => let '(v, u') := bu_getBits w bw u in v :: unpack_fields w ws u'
  end.

Definition fields_width (fs : list (Z * Z)) : Z := foldr (fun f s => f.1 + s) 0 fs.
Definition field_ok (f : Z * Z) : Prop := 0 < f.1 /\ 0 <= f.2 < 2 ^ f.1.

Lemma fields_width_nonneg fs : Forall field_ok fs -> 0 <= fields_width fs.
Proof. induction 1 as [|f fs [? ?] _ IH]; simpl; lia. Qed.

Lemma pack_fields_holds w u V p fs :
  0 <= u -> u + fields_width fs <= w <= 64 -> Forall field_ok fs -> bp_holds w u V p ->
  exists low, 0 <= low < 2 ^ fields_width fs /\
    bp_holds w (u + fields_width fs) (V * 2 ^ fields_width fs + low) (pack_fields w fs p).
Proof.
  intros Hu Hw Hfs. revert u V p Hu Hw. induction Hfs as [|[bw v] fs [Hbw Hv] Hfs IH];
    intros u V p Hu Hw Hp; simpl in *.
  - exists 0. split; [lia|]. by rewrite Z.add_0_r, Z.mul_1_r, Z.add_0_r.
  - pose proof (fields_width_nonneg fs Hfs).
    destruct (IH (u + bw) (V * 2 ^ bw + v) (bp_putBits w v bw p)) as (low & Hlow & Hh);
      [lia|lia|by apply bp_putBits_holds; try lia|].
    assert (0 < 2 ^ fields_width fs) by (apply Z.pow_pos_nonneg; lia).
    exists (v * 2 ^ fields_width fs + low). split.
    + rewrite Z.pow_add_r by lia. nia.
    + rewrite Z.pow_add_r by lia. replace (u + (bw + fields_width fs)) with (u + bw + fields_width fs) by lia.
      replace (V * (2 ^ bw * 2 ^ fields_width fs) + (v * 2 ^ fields_width fs + low))
        with ((V * 2 ^ bw + v) * 2 ^ fields_width fs + low) by lia. done.
Qed.

(** The unpacker has read [u] bits of [N], whose top [u] bits are [V]. *)
Lemma bu_getBits_spec w u bw N n :
  0 <= u -> 0 < bw -> u + bw <= w <= 64 -> 0 <= N < 2 ^ w ->
  bu_intVal n = N -> bitsRead_ n = u ->
  bu_getBits w bw n =
    ((N / 2 ^ (w - (u + bw))) mod 2 ^ bw, {| bu_intVal := N; bitsRead_ := u + bw |}).
Proof.
  intros Hu Hbw Hw HN Hi Hr. unfold bu_getBits. rewrite Hi, Hr.
  destruct ((u =? 0) && (bw =? w)) eqn:Efull; breflect.
  - clear Hi Hr. subst u bw.
    rewrite Z.add_0_l, Z.sub_diag, Z.div_1_r, Z.mod_small by lia. done.
  - rewrite !(wrap_small 32) by (unfold is_uint; lia).
    rewrite bit_mask_ones, Z.land_ones, Z.shiftr_div_pow2 by lia. done.
Qed.

Lemma unpack_pack_from w u V p fs n :
  0 <= u -> u + fields_width fs <= w <= 64 -> Forall field_ok fs -> bp_holds w u V p ->
  bu_intVal n = bp_intVal (pack_fields w fs p) -> bitsRead_ n = u ->
  unpack_fields w (map fst fs) n = map snd fs.
Proof.
  intros Hu Hw Hfs. revert u V p n Hu Hw. induction Hfs as [|[bw v] fs [Hbw Hv] Hfs IH];
    intros u V p n Hu Hw Hp Hi Hr; [done|].
  cbn [map fst snd unpack_fields pack_fields] in *. simpl in Hbw, Hv, Hw.
  pose proof (fields_width_nonneg fs Hfs).
  assert (bp_holds w (u + bw) (V * 2 ^ bw + v) (bp_putBits w v bw p)) as Hp'
    by (apply bp_putBits_holds; try lia; done).
  destruct (pack_fields_holds w (u + bw) (V * 2 ^ bw + v) (bp_putBits w v bw p) fs)
    as (low & Hlow & _ & Hint & HV); [lia|lia|done|done|].
  set (N := bp_intVal (pack_fields w fs (bp_putBits w v bw p))) in *.
  set (fw := fields_width fs) in *. set (s := w - (u + bw + fw)) in *.
  assert (0 < 2 ^ s) by (apply Z.pow_pos_nonneg; lia).
  assert (0 <= N < 2 ^ w) as HN.
  { assert (2 ^ w = 2 ^ (u + bw + fw) * 2 ^ s) as -> by (rewrite <- Z.pow_add_r by lia; f_equal; lia).
    rewrite Hint. nia. }
  rewrite (bu_getBits_spec w u bw N n) by (done || lia). f_equal.
  - rewrite Hint. replace (w - (u + bw)) with (fw + s) by lia.
    rewrite Z.pow_add_r by lia. rewrite Z.div_mul_cancel_r by lia.
    rewrite Z.div_add_l, (Z.div_small low), Z.add_0_r by lia.
    rewrite Z.add_comm, Z.mod_add by lia. apply Z.mod_small; lia.
  - apply (IH (u + bw) (V * 2 ^ bw + v) (bp_putBits w v bw p)); simpl; try done; lia.
Qed.

Lemma bp_new_holds w : bp_holds w 0 0 bp_new.
Proof. unfold bp_holds; simpl. lia. Qed.

(** The integer of packed fields, written big-endian and read back. *)
Lemma bu_read_parses w fs (Hw : w = 8 \/ w = 16 \/ w = 32 \/ w = 64) :
  Forall field_ok fs -> fields_width fs <= w ->
  let p := pack_fields w fs bp_new in
  parses (bu_read w) (bp_getBinaryData w p) (bu_setValue (bp_intVal p)).
Proof.
  intros Hfs Hfit p. pose proof (fields_width_nonneg fs Hfs) as Hn.
  destruct (pack_fields_holds w 0 0 bp_new fs) as (low & Hlow & _ & Hint & HV);
    [lia|lia|done|apply bp_new_holds|].
  fold p in Hint. set (N := bp_intVal p) in *. set (bs := bp_getBinaryData w p).
  assert (zlen bs = w / 8) as Hbs.
  { unfold bs, bp_getBinaryData, IntToStrBE. rewrite zlen_be_bytes.
    destruct Hw as [->|[->|[->| ->]]]; done. }
  eapply parses_bind_ret; [by apply brr_get_BinaryData_parses|].
  enough (StrToIntBE (Z.to_nat (w / 8)) bs = N) as -> by apply parses_ret.
  rewrite StrToIntBE_spec by (rewrite Hbs; destruct Hw as [->|[->|[->| ->]]]; done).
  unfold bs, bp_getBinaryData, IntToStrBE. rewrite be_val_be_bytes, pow256_pow2.
  replace (8 * Z.of_nat (Z.to_nat (w / 8))) with w by (destruct Hw as [->|[->|[->| ->]]]; done).
  fold N. apply Z.mod_small. rewrite Hint.
  set (fw := fields_width fs) in *.
  assert (2 ^ w = 2 ^ fw * 2 ^ (w - fw)) as -> by (rewrite <- Z.pow_add_r by lia; f_equal; lia).
  assert (0 < 2 ^ (w - fw)) by (apply Z.pow_pos_nonneg; lia).
  rewrite Z.mul_0_l, !Z.add_0_l in *. nia.
Qed.

(** ** The interface of a record format *)

(** What the writer of a record promises to its reader: [codec_enc a] is what
    the code appends for [a]; wherever these bytes stand, [codec_dec] takes
    exactly them and gives [a] back; on any other input it stays in bounds. *)
Class Codec (A : Type) := {
  codec_enc : A -> list byte;
  codec_dec : Reader A;
  codec_valid : A -> Prop;
  codec_parses a : codec_valid a -> parses codec_dec (codec_enc a) a;
  codec_safe : safe codec_dec;
}.
#[export] Hint Resolve codec_safe : armory.

Section codec.
Context {A : Type} `{Codec A}.

(** Two encodings that start the same stream are the same record. *)
Lemma codec_prefix_free a b x y :
  codec_valid a -> codec_valid b -> zlen (codec_enc a ++ x) < two64 ->
  codec_enc a ++ x = codec_enc b ++ y -> a = b /\ x = y.
Proof.
  intros Ha Hb Hl Heq.
  pose proof (codec_parses a Ha [] x Hl) as Pa.
  rewrite Heq in Hl. pose proof (codec_parses b Hb [] y Hl) as Pb.
  simpl in Pa, Pb. rewrite Heq, Pb in Pa. injection Pa as -> Ht _.
  split; [done|]. by apply app_inv_head in Heq.
Qed.

Lemma codec_decode_all a :
  codec_valid a -> zlen (codec_enc a) < two64 ->
  exists r, codec_dec (brr_setNewData (codec_enc a)) = Ok (a, r) /\ brr_isEndOfStream r = true.
Proof.
  intros Ha Hl. pose proof (codec_parses a Ha [] []) as P. rewrite app_nil_r in P.
  rewrite brr_setNewData_at. rewrite P by done. eexists; split; [done|].
  unfold brr_isEndOfStream, brr_at; simpl. rewrite app_nil_r. apply Z.leb_refl.
Qed.

(** [n] records one after the other, as the loops over counted lists read them. *)
Fixpoint dec_seq (n : nat) : Reader (list A) :=
  match n with
  | O => mret []
  | S n => x ← codec_dec; xs ← dec_seq n; mret (x :: xs)
  end.

Definition enc_seq (l : list A) : list byte := concat (map codec_enc l).

Lemma dec_seq_parses l : Forall codec_valid l -> parses (dec_seq (length l)) (enc_seq l) l.
Proof.
  unfold enc_seq. induction 1 as [|a l Ha _ IH]; simpl; [apply parses_ret|].
  eapply parses_bind; [by apply codec_parses|]. eapply parses_bind_ret; [done|apply parses_ret].
Qed.

Lemma dec_seq_safe n : safe (dec_seq n).
Proof. induction n; simpl; eauto 6 with armory. Qed.
End codec.

(** A fixed-width byte string and a variable-length integer are codecs. *)
Definition bytes_codec (n : Z) (Hn : 0 <= n) : Codec (list byte).
Proof.
  refine {| codec_enc := id; codec_dec := brr_get_BinaryData n; codec_valid := fun l => zlen l = n |}.
  - intros a Ha. by apply brr_get_BinaryData_parses.
  - by apply brr_get_BinaryData_safe.
Defined.

Definition var_int_codec : Codec Z :=
  {| codec_enc := var_int_bytes; codec_dec := brr_get_var_int; codec_valid := is_uint 64;
     codec_parses := brr_get_var_int_parses; codec_safe := brr_get_var_int_safe |}.

(** ** Properties *)

(** Variable-length integers round trip: after [put_var_int] appends any
    64-bit value to a stream, [get_var_int] reads that value back from the same
    place, consuming exactly the number of bytes [put_var_int] returned, which
    is [calcVarIntSize] of the value and what [readVarIntLength] announces. *)
Theorem var_int_roundtrip w v post (Hv : is_uint 64 v)
  (Hl : zlen (theString_ (bw_put_var_int v w).1 ++ post) < two64) :
  let '(w', n) := bw_put_var_int v w in
  brr_get_var_int (set_pos (brr_setNewData (theString_ w' ++ post)) (zlen (theString_ w)))
    = Ok (v, set_pos (brr_setNewData (theString_ w' ++ post)) (zlen (theString_ w) + n)) /\
  n = calcVarIntSize v /\
  zlen (theString_ w') = zlen (theString_ w) + n /\
  readVarIntLength (drop (Z.to_nat (zlen (theString_ w))) (theString_ w')) = Ok n.
Proof.
  pose proof (bw_put_var_int_len v w) as Hn. pose proof (bw_put_var_int_str v w Hv) as Hs.
  destruct (bw_put_var_int v w) as [w' n]; simpl in *. subst n. rewrite Hs in *.
  pose proof (brr_get_var_int_parses v Hv (theString_ w) post) as P.
  rewrite <- app_assoc in *. split; [|split; [done|split]].
  - unfold set_pos, brr_setNewData; simpl. unfold brr_at in P. rewrite P by done.
    do 2 f_equal. rewrite <- !app_assoc. autorewrite with zlen. done.
  - autorewrite with zlen. done.
  - rewrite drop_pre. unfold var_int_bytes, calcVarIntSize, readVarIntLength, is_uint in *.
    destruct (Z.ltb_spec v 0xfd); [|destruct (Z.leb_spec v 0xffff); [|destruct (Z.leb_spec v 0xffffffff)]];
      rewrite at_cons_0; cbn [mbind result_bind]; rewrite b2z_z2b_small by lia; zsimp; done.
Qed.

Lemma var_int_roundtrip_witness :
  brr_get_var_int (set_pos (brr_setNewData ([z2b 7] ++ var_int_bytes 515 ++ [z2b 9])) 1) =
    Ok (515, set_pos (brr_setNewData ([z2b 7] ++ var_int_bytes 515 ++ [z2b 9])) 4).
Proof.
  assert (is_uint 64 515) as Hv by (unfold is_uint; lia).
  pose proof (var_int_roundtrip {| theString_ := [z2b 7] |} 515 [z2b 9] Hv eq_refl) as [H _].
  exact H.
Defined.

(** Bit fields round trip: fields of positive widths that fit the integer,
    packed by successive [putBits] and written big-endian, are exactly what
    successive [getBits] return after the integer is read back. *)
Theorem bit_fields_roundtrip w fs (Hw : w = 8 \/ w = 16 \/ w = 32 \/ w = 64)
  (Hfs : Forall field_ok fs) (Hfit : fields_width fs <= w) :
  exists u r,
    bu_read w (brr_setNewData (theString_ (bw_put_BitPacker w (pack_fields w fs bp_new) bw_new)))
      = Ok (u, r) /\
    brr_isEndOfStream r = true /\ unpack_fields w (map fst fs) u = map snd fs.
Proof.
  pose proof (fields_width_nonneg fs Hfs) as Hn.
  pose proof (bu_read_parses w fs Hw Hfs Hfit [] []) as P. rewrite app_nil_r in P.
  eexists _, _. split; [|split].
  - unfold bw_put_BitPacker. autorewrite with bw. apply P.
    unfold bp_getBinaryData, IntToStrBE. rewrite app_nil_l, zlen_be_bytes.
    destruct Hw as [->|[->|[->| ->]]]; done.
  - unfold brr_isEndOfStream, brr_at; simpl. rewrite app_nil_r. apply Z.leb_refl.
  - apply (unpack_pack_from w 0 0 bp_new); first [done|lia|apply bp_new_holds].
Qed.

Lemma bit_fields_roundtrip_witness :
  exists u r,
    bu_read 32 (brr_setNewData (theString_
      (bw_put_BitPacker 32 (pack_fields 32 [(16, 9701); (4, 3); (1, 1)] bp_new) bw_new))) = Ok (u, r) /\
    brr_isEndOfStream r = true /\ unpack_fields 32 [16; 4; 1] u = [9701; 3; 1].
Proof.
  apply (bit_fields_roundtrip 32 [(16, 9701); (4, 3); (1, 1)]); [auto| |done].
  repeat constructor; vm_compute; congruence.
Defined.

(** The guarded reader is memory safe: from a well-formed state every
    [get_*] method, [get_BinaryData] and [get_var_int] either throws or reads
    inside the buffer, keeps the reader well formed and never moves it back;
    [advance] and [rewind] keep it well formed for every argument. *)
Theorem BinaryRefReader_safe e n r (Hn : 0 <= n) (Hr : brr_wf r) :
  (safe brr_get_uint8_t /\ safe (brr_get_uint16_t e) /\ safe (brr_get_uint32_t e) /\
   safe (brr_get_uint64_t e) /\ safe (brr_get_BinaryData n) /\ safe brr_get_var_int) /\
  brr_wf (brr_advance n r) /\ brr_wf (brr_rewind n r) /\ brr_wf (brr_fork r).
Proof.
  split; [repeat split; auto with armory|].
  destruct Hr as (Ht & Hp & Hs). unfold brr_wf, brr_advance, brr_rewind, brr_fork, set_pos; simpl.
  pose proof (wrap_range 64 (pos_ r + n) ltac:(lia)) as H1.
  pose proof (wrap_range 64 (pos_ r - n) ltac:(lia)) as H2. unfold is_uint in *.
  split; [lia|]. split; [zcase; lia|].
  rewrite brr_remaining_wf by done. unfold zlen in *. rewrite length_drop. lia.
Qed.

Lemma BinaryRefReader_safe_witness :
  brr_wf (brr_rewind 9 (set_pos (brr_setNewData [z2b 1; z2b 2]) 1)).
Proof.
  assert (brr_wf (set_pos (brr_setNewData [z2b 1; z2b 2]) 1)) as Hr
    by (split; [done|split; [simpl; vm_compute; split; congruence|done]]).
  exact (proj1 (proj2 (proj2 (BinaryRefReader_safe LE 9 _ ltac:(lia) Hr)))).
Defined.

(** [BinaryReader::rewind] clamps an unsigned position with
    [max(pos_, (size_t)0)], which never changes it: rewinding past the start
    leaves the position just under 2^64 instead of 0, and the next read is out
    of bounds. *)
Theorem BinaryReader_rewind_wraps n r (Hn : br_pos r < n < two64) (Hp : 0 <= br_pos r)
  (Hl : zlen (bdStr_ r) <= br_pos r - n + two64) :
  br_pos (br_rewind n r) = br_pos r - n + two64 /\
  br_get_uint8_t (br_rewind n r) = Err UB.
Proof.
  unfold br_get_uint8_t, br_take, br_rewind, raw_read; simpl.
  assert (wrap 64 (br_pos r - n) = br_pos r - n + two64) as ->.
  { unfold wrap, two64 in *. symmetry. apply (Z.mod_unique _ (2 ^ 64) (-1)); lia. }
  rewrite Z.max_l by lia. split; [done|]. zsimp. done.
Qed.

Lemma BinaryReader_rewind_wraps_witness :
  br_get_uint8_t (br_rewind 1 {| bdStr_ := [z2b 1]; br_pos := 0 |}) = Err UB.
Proof.
  apply (BinaryReader_rewind_wraps 1 {| bdStr_ := [z2b 1]; br_pos := 0 |}); simpl;
    vm_compute; repeat split; congruence.
Defined.
