(* ===== verification/Hashing.v ===== *)
(** * Hashing: the digests the code takes from Crypto++

    SHA-256 and RIPEMD-160 come from a third-party library; they are the
    operations of the class [HashFns], which promises the size of a digest and
    nothing else.  [getSha256], [getHash256] and [getHash160] of
    cppForSwig/BtcUtils.h are built on them. *)

From S2P Require Import Prelude.

Class HashFns := {
  sha256 : list byte -> list byte;
  ripemd160 : list byte -> list byte;
  zlen_sha256 l : zlen (sha256 l) = 32;
  zlen_ripemd160 l : zlen (ripemd160 l) = 20;
}.

Section hashing.
Context `{HashFns}.

Definition getSha256 (bd : list byte) : list byte := sha256 bd.

(** Two rounds: the second digests the 32 bytes of the first. *)
Definition getHash256 (strToHash : list byte) : list byte := sha256 (sha256 strToHash).

Definition getHash160 (strToHash : list byte) : list byte := ripemd160 (sha256 strToHash).

Lemma zlen_getHash256 l : zlen (getHash256 l) = 32.
Proof. apply zlen_sha256. Qed.

Lemma zlen_getHash160 l : zlen (getHash160 l) = 20.
Proof. apply zlen_ripemd160. Qed.
End hashing.
#[export] Hint Rewrite @zlen_sha256 @zlen_ripemd160 @zlen_getHash256 @zlen_getHash160 : zlen.

(** [BtcUtils::EmptyHash_]: 32 zero bytes; [BadAddress_]: 20 zero bytes. *)
Definition EmptyHash : list byte := replicate 32 (z2b 0).
Definition BadAddress : list byte := replicate 20 (z2b 0).

(** A concrete digest of the right sizes, for running the model: a polynomial
    of the input bytes. *)
Definition toy_poly (l : list byte) : Z := foldl (fun acc b => acc * 257 + b2z b + 1) 5381 l.
Definition toy_hashes : HashFns :=
  {| sha256 l := le_bytes 32 (toy_poly l);
     ripemd160 l := le_bytes 20 (toy_poly l);
     zlen_sha256 l := zlen_le_bytes 32 (toy_poly l);
     zlen_ripemd160 l := zlen_le_bytes 20 (toy_poly l) |}.
