(* ===== verification/Merkle.v ===== *)
(** * Merkle: bit vectors, merkle trees and partial merkle trees

    [PackBits], [UnpackBits], [calculateMerkleTree] and [calculateMerkleRoot] of
    cppForSwig/BtcUtils.h, and the class [PartialMerkleTree] of
    cppForSwig/PartialMerkle.h. *)

From S2P Require Import Prelude BinaryData BinaryIO Hashing.

(** ** Bit vectors *)

(** [out[i/8] |= (1<<(7-i%8))] for every set bit, from index [i]. *)
Fixpoint PackBits_loop (vectBool : list bool) (i : nat) (out : list byte) : list byte :=
  match vectBool with
  | [] => out
  | b :: vectBool =>
      let out' := if b
        then alter (fun o => z2b (Z.lor (b2z o) (Z.shiftl 1 (7 - Z.of_nat i mod 8)))) (i / 8)%nat out
        else out in
      PackBits_loop vectBool (S i) out'
  end.

Definition PackBits (vectBool : list bool) : list byte :=
  PackBits_loop vectBool 0 (replicate ((length vectBool + 7) / 8) (z2b 0)).

Fixpoint UnpackBits_loop (bits : list byte) (n i : nat) : result (list bool) :=
  match n with
  | O => Ok []
  | S n =>
      b ← at_ bits (Z.of_nat (i / 8)%nat);
      let bit := wrap 8 (Z.land (b2z b) (Z.shiftl 1 (7 - Z.of_nat i mod 8))) in
      rest ← UnpackBits_loop bits n (S i);
      Ok ((0 <? bit) :: rest)
  end.

Definition UnpackBits (bits : list byte) (nBits : Z) : result (list bool) :=
  UnpackBits_loop bits (Z.to_nat nBits) 0.

(** ** The full merkle tree *)
Section merkle.
Context `{HashFns}.

(** [copyTo(ptr, 32)]: 32 bytes are copied whatever the size of the source. *)
Definition copyTo32 (h : list byte) : result (list byte) := raw_read h 0 32.

(** [merkleTree[i]] of a vector of byte strings. *)
Definition tree_at (merkleTree : list (list byte)) (i : nat) : result (list byte) :=
  match merkleTree !! i with Some h => Ok h | None => Err UB end.

Definition tree_set (merkleTree : list (list byte)) (i : nat) (h : list byte)
    : result (list (list byte)) :=
  if bool_decide (i < length merkleTree)%nat then Ok (<[i := h]> merkleTree) else Err UB.

(** The inner loop: [n] nodes of the next level from index [j]. *)
Fixpoint merkle_inner (thisLevelStart nextLevelStart levelSize n j : nat)
    (merkleTree : list (list byte)) : result (list (list byte)) :=
  match n with
  | O => Ok merkleTree
  | S n =>
      h1 ← tree_at merkleTree
             (if bool_decide (j < levelSize / 2)%nat then (thisLevelStart + 2 * j)%nat
              else (nextLevelStart - 1)%nat);
      h2 ← tree_at merkleTree
             (if bool_decide (j < levelSize / 2)%nat then (thisLevelStart + 2 * j + 1)%nat
              else (nextLevelStart - 1)%nat);
      half1 ← copyTo32 h1;
      half2 ← copyTo32 h2;
      tree' ← tree_set merkleTree (nextLevelStart + j) (getHash256 (half1 ++ half2));
      merkle_inner thisLevelStart nextLevelStart levelSize n (S j) tree'
  end.

(** The outer loop; [fuel] bounds the number of levels. *)
Fixpoint merkle_outer (fuel thisLevelStart nextLevelStart levelSize : nat)
    (merkleTree : list (list byte)) : result (list (list byte)) :=
  if bool_decide (levelSize ≤ 1)%nat then Ok (take nextLevelStart merkleTree)
  else
    match fuel with
    | O => Err LogicError
    | S fuel =>
        tree' ← merkle_inner thisLevelStart nextLevelStart levelSize ((levelSize + 1) / 2) 0 merkleTree;
        let levelSize' := ((levelSize + 1) / 2)%nat in
        merkle_outer fuel nextLevelStart (nextLevelStart + levelSize') levelSize' tree'
    end.

Definition calculateMerkleTree (txhashlist : list (list byte)) : result (list (list byte)) :=
  let numTx := length txhashlist in
  merkle_outer numTx 0 numTx numTx (txhashlist ++ replicate (2 * numTx) []).

Definition calculateMerkleRoot (txhashlist : list (list byte)) : result (list byte) :=
  mtree ← calculateMerkleTree txhashlist;
  if bool_decide (length mtree = 0)%nat then Err UB else tree_at mtree (length mtree - 1).

(** ** The partial merkle tree *)

(** [MerkleNode]; the null pointers are [NLeaf] (both null) and the missing
    right child of [NInner].  An inner node always has its left child. *)
Inductive MerkleNode : Type :=
  | NLeaf (nodeHash_ : list byte) (isOnPath_ : bool)
  | NInner (nodeHash_ : list byte) (isOnPath_ : bool)
           (ptrLeft_ : MerkleNode) (ptrRight_ : option MerkleNode).

Definition node_hash (n : MerkleNode) : list byte :=
  match n with NLeaf h _ => h | NInner h _ _ _ => h end.
Definition node_on_path (n : MerkleNode) : bool :=
  match n with NLeaf _ p => p | NInner _ p _ _ => p end.
Definition node_is_leaf (n : MerkleNode) : bool :=
  match n with NLeaf _ _ => true | NInner _ _ _ _ => false end.

(** [recurseCalcHash]: a cached hash is returned; a leaf without one
    dereferences its null left pointer. *)
Fixpoint recurseCalcHash (node : MerkleNode) : result (list byte) :=
  match node with
  | NLeaf h _ => if zlen h =? 0 then Err UB else Ok h
  | NInner h _ l r =>
      if negb (zlen h =? 0) then Ok h
      else
        left ← recurseCalcHash l;
        lhalf ← copyTo32 left;
        rhalf ← match r with
                | Some r => rh ← recurseCalcHash r; copyTo32 rh
                | None => copyTo32 left
                end;
        Ok (getHash256 (lhalf ++ rhalf))
  end.

(** One pass of the [while] loop of [createTreeNodes]: pairs of the lower level
    become nodes of the upper one; [withHashes] says that hashes were given. *)
Fixpoint createLevel (withHashes : bool) (levelLower : list MerkleNode)
    : result (list MerkleNode) :=
  match levelLower with
  | [] => Ok []
  | l :: rest =>
      let '(r, rest') := match rest with
                         | [] => (None, [])
                         | r :: rest' => (Some r, rest')
                         end in
      let onPath := node_on_path l || match r with Some r => node_on_path r | None => false end in
      let blank := NInner [] onPath l r in
      h ← (if withHashes then recurseCalcHash blank else Ok []);
      upper ← match rest with
              | [] => Ok []
              | _ :: rest' => createLevel withHashes rest'
              end;
      Ok (NInner h onPath l r :: upper)
  end.

Fixpoint createTree_loop (fuel : nat) (withHashes : bool) (levelLower : list MerkleNode)
    : result MerkleNode :=
  match levelLower with
  | [] => Err UB
  | [root] => Ok root
  | _ =>
      match fuel with
      | O => Err LogicError
      | S fuel =>
          levelUpper ← createLevel withHashes levelLower;
          createTree_loop fuel withHashes levelUpper
      end
  end.

(** The leaves: [bits[i]] marks the path, [hashes[i]] is copied. *)
Definition createLeaves (bits : list bool) (hashes : list (list byte)) : list MerkleNode :=
  zip_with (fun b h => NLeaf h b) bits hashes.

Definition createTreeNodes (bits : list bool) (hashes : list (list byte)) : result MerkleNode :=
  createTree_loop (length hashes) true (createLeaves bits hashes).

(** [createTreeNodes(nTx)] without bits or hashes: a blank tree. *)
Definition createBlankTree (nTx : nat) : result MerkleNode :=
  createTree_loop nTx false (replicate nTx (NLeaf [] false)).

Definition getMerkleRoot (root : MerkleNode) : result (list byte) :=
  if zlen (node_hash root) =? 0 then recurseCalcHash root else Ok (node_hash root).

(** [recurseSerializeTree]: the bits and hashes in depth-first order. *)
Fixpoint recurseSerializeTree (node : MerkleNode) : list bool * list (list byte) :=
  match node with
  | NLeaf h p => ([p], [h])
  | NInner h p l r =>
      if negb p then ([p], [h])
      else
        let '(lb, lh) := recurseSerializeTree l in
        let '(rb, rh) := match r with
                         | Some r => recurseSerializeTree r
                         | None => ([], [])
                         end in
        (p :: lb ++ rb, lh ++ rh)
  end.

Definition pmt_serialize (numTx_ : Z) (root : MerkleNode) : list byte :=
  let '(vBits, vHash) := recurseSerializeTree root in
  let w := bw_put_uint32_t numTx_ LE bw_new in
  let w := (bw_put_var_int (zlen vHash) w).1 in
  let w := foldl (fun w h => bw_put_BinaryData h w) w vHash in
  let w := (bw_put_var_int (zlen vBits) w).1 in
  theString_ (bw_put_BinaryData (PackBits vBits) w).

(** [recurseUnserializeTree]: pops the front of each list; popping an empty
    list dereferences its end iterator. *)
Fixpoint recurseUnserializeTree (node : MerkleNode) (vBits : list bool) (vHash : list (list byte))
    : result (MerkleNode * list bool * list (list byte)) :=
  match vBits with
  | [] => Err UB
  | p :: vBits =>
      match node with
      | NLeaf _ _ =>
          match vHash with
          | [] => Err UB
          | h :: vHash => Ok (NLeaf h p, vBits, vHash)
          end
      | NInner h0 _ l r =>
          if negb p then
            match vHash with
            | [] => Err UB
            | h :: vHash => Ok (NInner h p l r, vBits, vHash)
            end
          else
            '(l', vBits, vHash) ← recurseUnserializeTree l vBits vHash;
            '(r', vBits, vHash) ←
              match r with
              | Some r => '(r', vBits, vHash) ← recurseUnserializeTree r vBits vHash;
                          Ok (Some r', vBits, vHash)
              | None => Ok (None, vBits, vHash)
              end;
            h ← recurseCalcHash (NInner h0 p l' r');
            Ok (NInner h p l' r', vBits, vHash)
      end
  end.

Fixpoint read_hashes (n : nat) : Reader (list (list byte)) :=
  match n with
  | O => mret []
  | S n => h ← brr_get_BinaryData 32; hs ← read_hashes n; mret (h :: hs)
  end.

(** [unserialize(brr)] of an object that already holds a tree ([root_] not
    null): returns the number of transactions and the new root. *)
Definition pmt_unserialize : Reader (Z * MerkleNode) :=
  numTx ← brr_get_uint32_t LE;
  blank ← reader_of (createBlankTree (Z.to_nat numTx));
  vi ← brr_get_var_int;
  let numHash := wrap 32 vi in
  vHash ← read_hashes (Z.to_nat numHash);
  vi ← brr_get_var_int;
  let numBits := wrap 32 vi in
  vBytes ← brr_get_BinaryData (wrap 32 (numBits + 7) / 8);
  vBits ← reader_of (UnpackBits vBytes numBits);
  res ← reader_of (recurseUnserializeTree blank vBits vHash);
  let '(root, _, _) := res in
  _ ← reader_of (recurseCalcHash root);
  mret (numTx, root).
End merkle.

(** ** Bit vectors: facts *)

(** Bit [k] of a packed byte string, most significant bit of a byte first. *)
Definition bit_at (l : list byte) (k : nat) : bool :=
  match l !! (k / 8)%nat with
  | Some b => Z.testbit (b2z b) (7 - Z.of_nat k mod 8)
  | None => false
  end.

Lemma testbit_set_byte b i j :
  0 <= i < 8 -> 0 <= j < 8 ->
  Z.testbit (b2z (z2b (Z.lor (b2z b) (Z.shiftl 1 i)))) j = (Z.testbit (b2z b) j || (i =? j)).
Proof.
  intros Hi Hj. rewrite b2z_z2b. change 256 with (2 ^ 8).
  rewrite Z.mod_pow2_bits_low by lia. rewrite Z.lor_spec. f_equal.
  rewrite Z.shiftl_spec by lia. change 1 with (2 ^ 0). rewrite Z.pow2_bits_eqb by lia.
  zcase; zcase; try done; lia.
Qed.

Lemma nat_div8_mod8 (i k : nat) :
  (i / 8 = k / 8)%nat -> 7 - Z.of_nat i mod 8 = 7 - Z.of_nat k mod 8 -> i = k.
Proof.
  intros Hd Hm. rewrite (Nat.div_mod_eq i 8), (Nat.div_mod_eq k 8).
  pose proof (Nat2Z.inj_mod i 8). pose proof (Nat2Z.inj_mod k 8). simpl in *. lia.
Qed.

Lemma PackBits_loop_bits bs i out :
  (forall k, (i ≤ k)%nat -> bit_at out k = false) ->
  (i + length bs ≤ 8 * length out)%nat ->
  length (PackBits_loop bs i out) = length out /\
  forall k, bit_at (PackBits_loop bs i out) k =
    if decide (i ≤ k < i + length bs)%nat then bs !!! (k - i)%nat else bit_at out k.
Proof.
  revert i out. induction bs as [|b bs IH]; intros i out Hz Hl; simpl PackBits_loop.
  { split; [done|]. intros k. simpl. rewrite decide_False by lia. done. }
  simpl length in Hl.
  set (set_bit := fun o => z2b (Z.lor (b2z o) (Z.shiftl 1 (7 - Z.of_nat i mod 8)))).
  set (out' := if b then alter set_bit (i / 8)%nat out else out).
  assert (Z.of_nat i mod 8 < 8 /\ 0 <= Z.of_nat i mod 8) as Hi by (pose proof (Z.mod_pos_bound (Z.of_nat i) 8); lia).
  assert (forall k, bit_at out' k = if decide (k = i) then b else bit_at out k) as Hout.
  { intros k. unfold out'. assert (Z.of_nat k mod 8 < 8 /\ 0 <= Z.of_nat k mod 8) by
      (pose proof (Z.mod_pos_bound (Z.of_nat k) 8); lia).
    destruct b; [|case_decide; [subst; by rewrite Hz|done]].
    unfold bit_at. destruct (decide (k / 8 = i / 8)%nat) as [Hk|Hk].
    - assert (is_Some (out !! (i / 8)%nat)) as [o Ho].
      { apply lookup_lt_is_Some. apply Nat.Div0.div_lt_upper_bound. lia. }
      rewrite Hk. rewrite list_lookup_alter_eq, Ho. simpl. unfold set_bit.
      rewrite testbit_set_byte by lia.
      destruct (decide (k = i)) as [->|Hne]; [by rewrite Z.eqb_refl, orb_true_r|].
      destruct (Z.eqb_spec (7 - Z.of_nat i mod 8) (7 - Z.of_nat k mod 8)) as [He|He].
      + exfalso. apply Hne. symmetry. by apply nat_div8_mod8.
      + by rewrite orb_false_r.
    - rewrite list_lookup_alter_ne by (intros E; by rewrite E in Hk).
      rewrite decide_False by (intros ->; done). done. }
  assert (length out' = length out) as Hlo by (unfold out'; destruct b; [apply length_alter|done]).
  destruct (IH (S i) out') as [IHl IHk].
  - intros k Hk. rewrite Hout, decide_False by lia. apply Hz. lia.
  - lia.
  - split; [exact (eq_trans IHl Hlo)|]. intros k. etransitivity; [exact (IHk k)|].
    rewrite Hout. simpl length.
    destruct (decide (k = i)) as [->|].
    + rewrite decide_False by lia. rewrite decide_True by lia. by rewrite Nat.sub_diag.
    + destruct (decide (S i ≤ k < S i + length bs)%nat).
      * rewrite decide_True by lia. by replace (k - i)%nat with (S (k - S i)) by lia.
      * rewrite decide_False by lia. done.
Qed.

Lemma bit_at_zeros n k : bit_at (replicate n (z2b 0)) k = false.
Proof.
  unfold bit_at. destruct (replicate n (z2b 0) !! (k / 8)%nat) as [b|] eqn:E; [|done].
  apply lookup_replicate in E as [-> _]. change (b2z (z2b 0)) with 0. apply Z.bits_0.
Qed.

Lemma PackBits_bits bs k :
  bit_at (PackBits bs) k = if decide (k < length bs)%nat then bs !!! k else false.
Proof.
  unfold PackBits. destruct (PackBits_loop_bits bs 0 (replicate ((length bs + 7) / 8) (z2b 0))) as [_ Hb].
  - intros. apply bit_at_zeros.
  - rewrite length_replicate. pose proof (Nat.div_mod_eq (length bs + 7) 8).
    pose proof (Nat.mod_upper_bound (length bs + 7) 8). lia.
  - rewrite Hb, bit_at_zeros, Nat.sub_0_r. simpl.
    destruct (decide (0 ≤ k < length bs)%nat); destruct (decide (k < length bs)%nat); done || lia.
Qed.

Lemma length_PackBits bs : length (PackBits bs) = ((length bs + 7) / 8)%nat.
Proof.
  unfold PackBits. destruct (PackBits_loop_bits bs 0 (replicate ((length bs + 7) / 8) (z2b 0))) as [-> _].
  - intros. apply bit_at_zeros.
  - rewrite length_replicate. pose proof (Nat.div_mod_eq (length bs + 7) 8).
    pose proof (Nat.mod_upper_bound (length bs + 7) 8). lia.
  - by rewrite length_replicate.
Qed.

Lemma zlen_PackBits bs : zlen (PackBits bs) = (zlen bs + 7) / 8.
Proof. unfold zlen. rewrite length_PackBits, Nat2Z.inj_div, Nat2Z.inj_add. done. Qed.

Lemma UnpackBits_loop_bits bits n i :
  (i + n ≤ 8 * length bits)%nat ->
  UnpackBits_loop bits n i = Ok (map (bit_at bits) (seq i n)).
Proof.
  revert i. induction n as [|n IH]; intros i Hl; [done|]. cbn [UnpackBits_loop seq map].
  assert (is_Some (bits !! (i / 8)%nat)) as [b Hb].
  { apply lookup_lt_is_Some. apply Nat.Div0.div_lt_upper_bound. lia. }
  rewrite at_nonneg by lia. unfold znth at 1. rewrite decide_True by lia. rewrite Nat2Z.id, Hb.
  cbn [mbind result_bind]. rewrite IH by lia. cbn [mbind result_bind]. do 2 f_equal.
  unfold bit_at. rewrite Hb. pose proof (b2z_range b).
  assert (0 <= Z.of_nat i mod 8 < 8) by (apply Z.mod_pos_bound; lia).
  set (s := 7 - Z.of_nat i mod 8).
  assert (Z.land (b2z b) (Z.shiftl 1 s) = if Z.testbit (b2z b) s then 2 ^ s else 0) as ->.
  { apply Z.bits_inj'. intros k Hk. rewrite Z.land_spec, Z.shiftl_1_l, Z.pow2_bits_eqb by lia.
    destruct (Z.eqb_spec s k) as [->|Hne].
    - destruct (Z.testbit (b2z b) k) eqn:E; [by rewrite Z.pow2_bits_true by lia|by rewrite Z.bits_0].
    - rewrite andb_false_r. destruct (Z.testbit (b2z b) s); [by rewrite Z.pow2_bits_false by lia|by rewrite Z.bits_0]. }
  assert (2 ^ s <= 2 ^ 7) by (apply Z.pow_le_mono_r; lia).
  assert (0 < 2 ^ s) by (apply Z.pow_pos_nonneg; lia).
  destruct (Z.testbit (b2z b) s); rewrite wrap_small by (unfold is_uint; lia); zsimp; done.
Qed.

Lemma UnpackBits_PackBits bs tl : UnpackBits (PackBits bs ++ tl) (zlen bs) = Ok bs.
Proof.
  unfold UnpackBits, zlen. rewrite Nat2Z.id, UnpackBits_loop_bits.
  - f_equal. apply list_eq. intros k. rewrite list_lookup_fmap.
    destruct (decide (k < length bs)%nat) as [Hk|Hk].
    + rewrite lookup_seq_lt by done. simpl. destruct (lookup_lt_is_Some_2 bs k Hk) as [b Hb]. rewrite Hb.
      f_equal. transitivity (bit_at (PackBits bs) k).
      * unfold bit_at. rewrite lookup_app_l; [done|]. rewrite length_PackBits.
        pose proof (Nat.div_mod_eq (length bs + 7) 8). pose proof (Nat.mod_upper_bound (length bs + 7) 8).
        apply Nat.Div0.div_lt_upper_bound. lia.
      * rewrite PackBits_bits, decide_True by done. by apply list_lookup_total_correct.
    + rewrite lookup_seq_ge by lia. simpl. symmetry. apply lookup_ge_None. lia.
  - rewrite length_app, length_PackBits. pose proof (Nat.div_mod_eq (length bs + 7) 8).
    pose proof (Nat.mod_upper_bound (length bs + 7) 8). lia.
Qed.

(** ** The merkle tree as a recursion on levels *)
Section merkle_spec.
Context `{HashFns}.

Definition is_hash (h : list byte) : Prop := zlen h = 32.

(** Pairs are hashed together; a last odd node is paired with itself. *)
Fixpoint level_up (l : list (list byte)) : list (list byte) :=
  match l with
  | [] => []
  | [a] => [getHash256 (a ++ a)]
  | a :: b :: l => getHash256 (a ++ b) :: level_up l
  end.

(** All levels of the tree over [l], the leaves first. *)
Fixpoint merkle_levels (fuel : nat) (l : list (list byte)) : list (list byte) :=
  l ++ (if bool_decide (length l ≤ 1)%nat then []
        else match fuel with O => [] | S fuel => merkle_levels fuel (level_up l) end).

Fixpoint merkle_root (fuel : nat) (l : list (list byte)) : list byte :=
  match l with
  | [h] => h
  | _ => match fuel with O => [] | S fuel => merkle_root fuel (level_up l) end
  end.

Lemma level_up_ind (P : list (list byte) -> Prop) :
  P [] -> (forall a, P [a]) -> (forall a b l, P l -> P (a :: b :: l)) -> forall l, P l.
Proof.
  intros H0 H1 H2 l. cut (P l /\ forall a, P (a :: l)); [tauto|].
  induction l as [|b l [IH1 IH2]]; split; auto.
Qed.

Lemma length_level_up l : length (level_up l) = ((length l + 1) / 2)%nat.
Proof.
  induction l as [| |a b l IH] using level_up_ind; [done..|].
  cbn [level_up length]. rewrite IH. dlia.
Qed.

Lemma level_up_hash l : Forall is_hash (level_up l).
Proof.
  induction l as [| |a b l IH] using level_up_ind; cbn [level_up]; repeat constructor;
    try done; unfold is_hash; by autorewrite with zlen.
Qed.

Lemma level_up_lookup l j :
  (j < (length l + 1) / 2)%nat ->
  exists a b, l !! (2 * j)%nat = Some a /\
    l !! (if bool_decide (j < length l / 2)%nat then (2 * j + 1)%nat else (2 * j)%nat) = Some b /\
    level_up l !! j = Some (getHash256 (a ++ b)).
Proof.
  revert j. induction l as [|a|a b l IH] using level_up_ind; intros j Hj.
  - cbn [length] in Hj. dlia.
  - assert (j = 0)%nat as -> by (cbn [length] in Hj; dlia). by exists a, a.
  - destruct j as [|j].
    + exists a, b. rewrite bool_decide_eq_true_2 by (cbn [length]; dlia). done.
    + destruct (IH j) as (x & y & Hx & Hy & Hz); [cbn [length] in Hj; dlia|].
      exists x, y. replace (2 * S j)%nat with (S (S (2 * j))) by lia. cbn [level_up].
      split; [done|]. split; [|done].
      destruct (decide (j < length l / 2)%nat) as [Hd|Hd].
      * rewrite bool_decide_eq_true_2 in Hy by done.
        rewrite bool_decide_eq_true_2 by (cbn [length]; dlia). done.
      * rewrite bool_decide_eq_false_2 in Hy by done.
        rewrite bool_decide_eq_false_2 by (cbn [length]; dlia). done.
Qed.

Lemma copyTo32_hash h : is_hash h -> copyTo32 h = Ok h.
Proof.
  intros Hh. unfold copyTo32. pose proof (raw_read_app [] h []) as Hr.
  rewrite app_nil_r, Hh in Hr. exact Hr.
Qed.

Lemma tree_at_level pre lvl rest i h :
  lvl !! i = Some h -> tree_at (pre ++ lvl ++ rest) (length pre + i) = Ok h.
Proof.
  intros Hi. unfold tree_at. rewrite lookup_app_r by lia.
  replace (length pre + i - length pre)%nat with i by lia.
  rewrite lookup_app_l by (eapply lookup_lt_Some; eauto). by rewrite Hi.
Qed.

Lemma tree_set_next pre x rest h :
  tree_set (pre ++ x :: rest) (length pre) h = Ok (pre ++ h :: rest).
Proof.
  unfold tree_set. rewrite bool_decide_eq_true_2 by (rewrite length_app; simpl; lia).
  f_equal. by rewrite <- (Nat.add_0_r (length pre)), insert_app_r.
Qed.

(** The inner loop writes the next level behind the current one. *)
Lemma merkle_inner_spec pre lvl n j rest :
  Forall is_hash lvl -> (j + n = (length lvl + 1) / 2)%nat -> (n ≤ length rest)%nat ->
  merkle_inner (length pre) (length pre + length lvl) (length lvl) n j
    (pre ++ lvl ++ take j (level_up lvl) ++ rest) =
  Ok (pre ++ lvl ++ level_up lvl ++ drop n rest).
Proof.
  intros Hlvl. revert j rest. induction n as [|n IH]; intros j rest Hj Hr; cbn [merkle_inner].
  { rewrite take_ge by (rewrite length_level_up; lia). done. }
  destruct (level_up_lookup lvl j) as (a & b & Ha & Hb & Hu); [lia|].
  destruct rest as [|x rest]; [simpl in Hr; lia|].
  pose proof (lookup_lt_Some _ _ _ Ha) as Hla.
  assert (forall i h, lvl !! i = Some h -> is_hash h) as Hh
    by (intros; by eapply Forall_lookup_1).
  set (T := pre ++ lvl ++ take j (level_up lvl) ++ x :: rest).
  assert (tree_at T (if bool_decide (j < length lvl / 2)%nat then length pre + 2 * j
            else length pre + length lvl - 1)%nat = Ok a) as ->.
  { unfold T. rewrite <- (tree_at_level pre lvl (take j (level_up lvl) ++ x :: rest) (2 * j) a Ha).
    f_equal. case_bool_decide; dlia. }
  assert (tree_at T (if bool_decide (j < length lvl / 2)%nat then length pre + 2 * j + 1
            else length pre + length lvl - 1)%nat = Ok b) as ->.
  { unfold T. rewrite <- (tree_at_level pre lvl (take j (level_up lvl) ++ x :: rest) _ b Hb).
    f_equal. case_bool_decide; dlia. }
  cbn [mbind result_bind]. rewrite !copyTo32_hash by eauto. cbn [mbind result_bind].
  assert (tree_set T (length pre + length lvl + j) (getHash256 (a ++ b)) =
    Ok (pre ++ lvl ++ take (S j) (level_up lvl) ++ rest)) as ->.
  { unfold T. rewrite (take_S_r _ _ _ Hu). rewrite <- !app_assoc. simpl app.
    pose proof (tree_set_next (pre ++ lvl ++ take j (level_up lvl)) x rest (getHash256 (a ++ b))) as Ht.
    rewrite <- !app_assoc in Ht. rewrite <- Ht. f_equal.
    rewrite !length_app, length_take, length_level_up. lia. }
  cbn [mbind result_bind]. rewrite IH by (simpl in *; lia). done.
Qed.

Lemma merkle_outer_spec fuel pre lvl rest :
  Forall is_hash lvl -> (1 ≤ length lvl ≤ fuel + 1)%nat -> (2 * length lvl ≤ length rest)%nat ->
  merkle_outer fuel (length pre) (length pre + length lvl) (length lvl) (pre ++ lvl ++ rest) =
  Ok (pre ++ merkle_levels fuel lvl).
Proof.
  revert pre lvl rest. induction fuel as [|fuel IH]; intros pre lvl rest Hlvl Hl Hr;
    cbn [merkle_outer merkle_levels]; case_bool_decide; try lia.
  all: try (rewrite app_nil_r, app_assoc, <- length_app, take_app_length; done).
  pose proof (merkle_inner_spec pre lvl ((length lvl + 1) / 2) 0 rest) as Hi.
  rewrite take_0, app_nil_l in Hi. rewrite Hi by (done || dlia). cbn [mbind result_bind].
  rewrite <- length_level_up. rewrite <- (length_app pre lvl). rewrite app_assoc.
  rewrite IH; [by rewrite <- app_assoc|apply level_up_hash| |].
  - rewrite length_level_up. dlia.
  - rewrite length_drop, length_level_up. dlia.
Qed.

Lemma last_app_ne {A} (l1 l2 : list A) : l2 <> [] -> last (l1 ++ l2) = last l2.
Proof.
  intros Hne. destruct (last l2) as [x|] eqn:E; [by apply last_app_Some; left|].
  by apply last_None in E.
Qed.

Lemma merkle_levels_ne fuel l : l <> [] -> merkle_levels fuel l <> [].
Proof. destruct fuel; destruct l; done. Qed.

Lemma merkle_levels_last fuel l :
  (1 ≤ length l ≤ fuel + 1)%nat -> last (merkle_levels fuel l) = Some (merkle_root fuel l).
Proof.
  revert l. induction fuel as [|fuel IH]; intros l Hl.
  { destruct l as [|a [|b l]]; simpl in Hl; try lia. done. }
  destruct l as [|a [|b l]]; simpl in Hl; [lia|done|].
  cbn [merkle_levels merkle_root]. rewrite bool_decide_eq_false_2 by (simpl; lia).
  assert (1 ≤ length (level_up (a :: b :: l)) ≤ fuel + 1)%nat by (rewrite length_level_up; cbn [length]; dlia).
  rewrite last_app_ne by (apply merkle_levels_ne; intros E; rewrite E in *; simpl in *; lia).
  by apply IH.
Qed.

(** The root does not depend on the fuel once there is enough of it. *)
Lemma merkle_root_fuel f1 f2 l :
  (1 ≤ length l ≤ f1 + 1)%nat -> (length l ≤ f2 + 1)%nat -> merkle_root f1 l = merkle_root f2 l.
Proof.
  revert f2 l. induction f1 as [|f1 IH]; intros f2 l H1 H2;
    destruct l as [|a [|b l]]; simpl in H1, H2; try lia; try (by destruct f2).
  destruct f2 as [|f2]; [lia|]. cbn [merkle_root]. apply IH; rewrite length_level_up; cbn [length]; dlia.
Qed.

Lemma merkle_root_hash fuel l :
  Forall is_hash l -> (1 ≤ length l ≤ fuel + 1)%nat -> is_hash (merkle_root fuel l).
Proof.
  revert l. induction fuel as [|fuel IH]; intros l Hh Hl; destruct l as [|a [|b l]];
    simpl in Hl; try lia; try (by inversion Hh).
  cbn [merkle_root]. apply IH; [apply level_up_hash|]. rewrite length_level_up; cbn [length]; dlia.
Qed.

Lemma calculateMerkleTree_levels txs :
  Forall is_hash txs -> txs <> [] ->
  calculateMerkleTree txs = Ok (merkle_levels (length txs) txs).
Proof.
  intros Hh Hne. unfold calculateMerkleTree.
  pose proof (merkle_outer_spec (length txs) [] txs (replicate (2 * length txs) [])) as Ho.
  cbn [app length Nat.add] in Ho. apply Ho; [done| |by rewrite length_replicate].
  destruct txs; [done|]. simpl. lia.
Qed.

Lemma calculateMerkleRoot_spec txs :
  Forall is_hash txs -> txs <> [] ->
  calculateMerkleRoot txs = Ok (merkle_root (length txs) txs).
Proof.
  intros Hh Hne. unfold calculateMerkleRoot. rewrite calculateMerkleTree_levels by done.
  cbn [mbind result_bind]. pose proof (merkle_levels_ne (length txs) txs Hne).
  rewrite bool_decide_eq_false_2 by (by intros ?%nil_length_inv).
  assert (last (merkle_levels (length txs) txs) = Some (merkle_root (length txs) txs)) as Hlast
    by (apply merkle_levels_last; destruct txs; [done|simpl; lia]).
  rewrite last_lookup in Hlast. unfold tree_at.
  by replace (length _ - 1)%nat with (pred (length (merkle_levels (length txs) txs))) by lia;
    rewrite Hlast.
Qed.
End merkle_spec.

(** ** The partial merkle tree: shape, hashes, round trip *)
Section partial_merkle.
Context `{HashFns}.

Lemma MerkleNode_rect' (P : MerkleNode -> Prop) :
  (forall h p, P (NLeaf h p)) ->
  (forall h p l r, P l -> (forall r', r = Some r' -> P r') -> P (NInner h p l r)) ->
  forall n, P n.
Proof.
  intros Hl Hi. fix IH 1. intros [h p|h p l [r|]]; [apply Hl| |].
  - apply Hi; [apply IH|]. intros r' E. injection E as <-. apply IH.
  - apply Hi; [apply IH|]. intros r' E. discriminate E.
Qed.

(** Every node carries a digest; an inner node's digest and path bit are
    computed from its children. *)
Fixpoint node_ok (n : MerkleNode) : Prop :=
  match n with
  | NLeaf h _ => is_hash h
  | NInner h p l r =>
      node_ok l /\ match r with Some r => node_ok r | None => True end /\
      h = getHash256 (node_hash l ++ match r with Some r => node_hash r | None => node_hash l end) /\
      p = (node_on_path l || match r with Some r => node_on_path r | None => false end)
  end.

(** The blank tree of the same shape. *)
Fixpoint blank (n : MerkleNode) : MerkleNode :=
  match n with
  | NLeaf _ _ => NLeaf [] false
  | NInner _ _ l r =>
      NInner [] false (blank l) (match r with Some r => Some (blank r) | None => None end)
  end.

(** What a partial tree keeps: sub-trees off the path are blank but for their
    digest. *)
Fixpoint prune (n : MerkleNode) : MerkleNode :=
  match n with
  | NLeaf h p => NLeaf h p
  | NInner h true l r =>
      NInner h true (prune l) (match r with Some r => Some (prune r) | None => None end)
  | NInner h false l r =>
      NInner h false (blank l) (match r with Some r => Some (blank r) | None => None end)
  end.

(** The leaves on the path, as a reader of the partial tree finds them. *)
Fixpoint path_leaves (n : MerkleNode) : list (list byte) :=
  match n with
  | NLeaf h p => if p then [h] else []
  | NInner _ p l r =>
      if p then path_leaves l ++ match r with Some r => path_leaves r | None => [] end else []
  end.

Fixpoint node_size (n : MerkleNode) : nat :=
  match n with
  | NLeaf _ _ => 1
  | NInner _ _ l r => S (node_size l + match r with Some r => node_size r | None => 0 end)
  end.

Lemma prune_hash n : node_hash (prune n) = node_hash n.
Proof. by destruct n as [|? []]. Qed.
Lemma prune_on_path n : node_on_path (prune n) = node_on_path n.
Proof. by destruct n as [|? []]. Qed.

Lemma node_ok_hash n : node_ok n -> is_hash (node_hash n).
Proof.
  destruct n as [h p|h p l r]; simpl; [done|]. intros (_ & _ & -> & _).
  unfold is_hash. apply zlen_getHash256.
Qed.

Lemma recurseCalcHash_cached n : is_hash (node_hash n) -> recurseCalcHash n = Ok (node_hash n).
Proof. unfold is_hash. intros Hn. destruct n; simpl in *; rewrite Hn; done. Qed.

(** A fresh inner node over two digests. *)
Lemma recurseCalcHash_fresh p l r :
  is_hash (node_hash l) -> match r with Some r => is_hash (node_hash r) | None => True end ->
  recurseCalcHash (NInner [] p l r) =
  Ok (getHash256 (node_hash l ++ match r with Some r => node_hash r | None => node_hash l end)).
Proof.
  intros Hl Hr. cbn [recurseCalcHash]. change (zlen (@nil byte) =? 0) with true. cbn [negb].
  rewrite recurseCalcHash_cached by done. cbn [mbind result_bind].
  rewrite copyTo32_hash by done. cbn [mbind result_bind].
  destruct r as [r|]; [rewrite recurseCalcHash_cached by done; cbn [mbind result_bind];
    rewrite copyTo32_hash by done|]; done.
Qed.

Lemma node_list_ind (P : list MerkleNode -> Prop) :
  P [] -> (forall a, P [a]) -> (forall a b l, P l -> P (a :: b :: l)) -> forall l, P l.
Proof.
  intros H0 H1 H2 l. cut (P l /\ forall a, P (a :: l)); [tauto|].
  induction l as [|b l [IH1 IH2]]; split; auto.
Qed.

Definition level_size (l : list MerkleNode) : nat := foldr (fun n s => (node_size n + s)%nat) 0%nat l.
Definition level_leaves (l : list MerkleNode) : list (list byte) := l ≫= path_leaves.

(** One pass of the construction, with hashes and blank at the same time. *)
Lemma createLevel_spec lo :
  Forall node_ok lo ->
  exists up, createLevel true lo = Ok up /\ Forall node_ok up /\
    map node_hash up = level_up (map node_hash lo) /\
    createLevel false (map blank lo) = Ok (map blank up) /\
    level_size up = (level_size lo + (length lo + 1) / 2)%nat /\
    level_leaves up = level_leaves lo /\
    existsb node_on_path up = existsb node_on_path lo.
Proof.
  induction lo as [|a|a b lo IH] using node_list_ind; intros Hok.
  - by exists [].
  - inversion Hok as [|? ? Ha _]; subst. pose proof (node_ok_hash a Ha).
    exists [NInner (getHash256 (node_hash a ++ node_hash a)) (node_on_path a || false) a None].
    cbn [createLevel]. rewrite recurseCalcHash_fresh by done. cbn [mbind result_bind map].
    split; [done|]. split; [by repeat constructor|]. split; [done|].
    split; [by destruct a|]. split; [cbn; lia|]. unfold level_leaves. cbn.
    rewrite !orb_false_r. split; [|done]. rewrite !app_nil_r. by destruct a as [? []|? []].
  - inversion Hok as [|? ? Ha Hok']; subst. inversion Hok' as [|? ? Hb Hlo]; subst.
    pose proof (node_ok_hash a Ha). pose proof (node_ok_hash b Hb).
    destruct (IH Hlo) as (up & Hup & Hok1 & Hh & Hbl & Hsz & Hlv & Hp).
    exists (NInner (getHash256 (node_hash a ++ node_hash b)) (node_on_path a || node_on_path b) a (Some b) :: up).
    cbn [createLevel]. rewrite recurseCalcHash_fresh by done. cbn [mbind result_bind]. rewrite Hup.
    split; [done|]. split; [by repeat constructor|].
    split; [cbn [map level_up node_hash]; by rewrite Hh|].
    split; [cbn [map createLevel mbind result_bind]; rewrite Hbl; by destruct a, b|].
    split; [|split].
    + cbn [level_size foldr node_size length] in *. fold (level_size up). rewrite Hsz.
      fold (level_size lo). dlia.
    + unfold level_leaves in *. cbn. fold (mbind path_leaves up). rewrite Hlv.
      destruct (node_on_path a) eqn:Ea, (node_on_path b) eqn:Eb; simpl; try by rewrite app_assoc.
      destruct a as [? []|? []], b as [? []|? []]; simpl in Ea, Eb |- *; done.
    + cbn [existsb node_on_path]. rewrite Hp. by rewrite orb_assoc.
Qed.

Lemma createTree_loop_spec fuel lo :
  Forall node_ok lo -> (1 ≤ length lo ≤ fuel + 1)%nat ->
  exists root, createTree_loop fuel true lo = Ok root /\ node_ok root /\
    node_hash root = merkle_root fuel (map node_hash lo) /\
    createTree_loop fuel false (map blank lo) = Ok (blank root) /\
    (node_size root ≤ level_size lo + 2 * length lo)%nat /\
    path_leaves root = level_leaves lo /\
    node_on_path root = existsb node_on_path lo.
Proof.
  revert lo. induction fuel as [|fuel IH]; intros lo Hok Hl;
    (destruct lo as [|a [|b lo]]; [simpl in Hl; lia| |]).
  all: try (cbn [length] in Hl; lia).
  1,2: exists a; inversion Hok; subst; unfold level_leaves; cbn;
    rewrite app_nil_r, orb_false_r; repeat split; try done; lia.
  destruct (createLevel_spec (a :: b :: lo) Hok) as (up & Hup & Hok' & Hh & Hbl & Hsz & Hlv & Hp).
  assert (length up = (length (a :: b :: lo) + 1) / 2)%nat as Hlu.
  { rewrite <- (length_map node_hash), Hh, length_level_up, length_map. done. }
  cbn [length] in *.
  destruct (IH up Hok') as (root & Hr & Hrok & Hrh & Hrb & Hrs & Hrl & Hrp); [dlia|].
  exists root. cbn [createTree_loop map] in *. rewrite Hup, Hbl. cbn [mbind result_bind].
  cbn [merkle_root]. rewrite <- Hh, <- Hlv, <- Hp. repeat split; try done. dlia.
Qed.

Lemma createLeaves_facts bits hashes :
  length bits = length hashes -> Forall is_hash hashes ->
  Forall node_ok (createLeaves bits hashes) /\
  map node_hash (createLeaves bits hashes) = hashes /\
  map blank (createLeaves bits hashes) = replicate (length hashes) (NLeaf [] false) /\
  level_size (createLeaves bits hashes) = length hashes /\
  level_leaves (createLeaves bits hashes) = map snd (filter (fun bh => bh.1 = true) (zip bits hashes)) /\
  existsb node_on_path (createLeaves bits hashes) = existsb id bits.
Proof.
  unfold createLeaves, level_leaves. revert hashes.
  induction bits as [|p bits IH]; intros [|h hashes] Hl Hh; try done.
  inversion Hh; subst. destruct (IH hashes) as (Q1 & Q2 & Q3 & Q4 & Q5 & Q6); [simpl in Hl; lia|done|].
  cbn [zip_with map foldr level_size node_size length] in *. fold (level_size (zip_with (fun b h => NLeaf h b) bits hashes)).
  rewrite Q2, Q3, Q4. repeat split; [by constructor|done..| |].
  - rewrite bind_cons, Q5, filter_cons. destruct p; done.
  - cbn [existsb node_on_path]. by rewrite Q6.
Qed.

Lemma createTreeNodes_spec bits hashes :
  length bits = length hashes -> Forall is_hash hashes -> hashes <> [] ->
  exists root, createTreeNodes bits hashes = Ok root /\ node_ok root /\
    node_hash root = merkle_root (length hashes) hashes /\
    createBlankTree (length hashes) = Ok (blank root) /\
    (node_size root ≤ 3 * length hashes)%nat /\
    path_leaves root = map snd (filter (fun bh => bh.1 = true) (zip bits hashes)) /\
    node_on_path root = existsb id bits.
Proof.
  intros Hl Hh Hne. destruct (createLeaves_facts bits hashes Hl Hh) as (Q1 & Q2 & Q3 & Q4 & Q5 & Q6).
  assert (length (createLeaves bits hashes) = length hashes) as Hlen
    by (rewrite <- Q2 at 2; by rewrite length_map).
  assert (0 < length hashes)%nat by (destruct hashes; [done|simpl; lia]).
  destruct (createTree_loop_spec (length hashes) (createLeaves bits hashes) Q1)
    as (root & Hr & Hok & Hrh & Hrb & Hrs & Hrl & Hrp); [lia|].
  exists root. rewrite Q2 in Hrh. rewrite Q3 in Hrb. repeat split; try done; congruence || lia.
Qed.

(** *** Serialised form *)

(** Reading the bits and hashes of [n] into a blank tree of its shape. *)
Lemma recurseUnserialize_serialize n vb vh :
  node_ok n ->
  recurseUnserializeTree (blank n) ((recurseSerializeTree n).1 ++ vb) ((recurseSerializeTree n).2 ++ vh)
  = Ok (prune n, vb, vh).
Proof.
  revert vb vh. induction n as [h p|h p l r IHl IHr] using MerkleNode_rect'; intros vb vh Hok; [done|].
  cbn [node_ok] in Hok. destruct Hok as (Hl & Hr & Hh & Hp).
  destruct p; [|done]. cbn [blank recurseSerializeTree recurseUnserializeTree negb].
  destruct (recurseSerializeTree l) as [lb lh] eqn:El. cbn [fst snd] in IHl.
  destruct r as [r|].
  - destruct (recurseSerializeTree r) as [rb rh] eqn:Er. cbn [fst snd app]. cbn [recurseUnserializeTree negb].
    rewrite <- !app_assoc, IHl by done. cbn [mbind result_bind].
    specialize (IHr r eq_refl). rewrite Er in IHr. cbn [fst snd] in IHr. rewrite IHr by done.
    cbn [mbind result_bind]. rewrite recurseCalcHash_fresh by (rewrite prune_hash; by apply node_ok_hash).
    rewrite !prune_hash, <- Hh. done.
  - cbn [fst snd app]. cbn [recurseUnserializeTree negb]. rewrite !app_nil_r.
    rewrite IHl by done. cbn [mbind result_bind].
    rewrite recurseCalcHash_fresh by (done || (rewrite prune_hash; by apply node_ok_hash)).
    rewrite !prune_hash, <- Hh. done.
Qed.

Lemma recurseSerialize_facts n :
  node_ok n ->
  Forall is_hash (recurseSerializeTree n).2 /\
  (length (recurseSerializeTree n).1 ≤ node_size n)%nat /\
  (length (recurseSerializeTree n).2 ≤ length (recurseSerializeTree n).1)%nat.
Proof.
  induction n as [h p|h p l r IHl IHr] using MerkleNode_rect'; intros Hok.
  { cbn in *. split; [by repeat constructor|lia]. }
  pose proof (node_ok_hash _ Hok) as Hhash. cbn [node_ok node_hash] in Hok, Hhash.
  destruct Hok as (Hl & Hr & _ & _). cbn [recurseSerializeTree node_size].
  destruct p; cbn [negb]; [|cbn; split; [by repeat constructor|lia]].
  destruct (IHl Hl) as (A1 & A2 & A3). destruct (recurseSerializeTree l) as [lb lh].
  destruct r as [r|].
  - destruct (IHr r eq_refl Hr) as (B1 & B2 & B3). destruct (recurseSerializeTree r) as [rb rh].
    cbn in *. rewrite !length_app. split; [by apply Forall_app|lia].
  - cbn in *. rewrite !app_nil_r. split; [done|lia].
Qed.

Lemma path_leaves_prune n : path_leaves (prune n) = path_leaves n.
Proof.
  induction n as [h p|h p l r IHl IHr] using MerkleNode_rect'; [done|]. destruct p; [|done].
  cbn. rewrite IHl. destruct r as [r|]; [by rewrite (IHr r)|done].
Qed.

Lemma foldl_put_hashes hs w :
  theString_ (foldl (fun w h => bw_put_BinaryData h w) w hs) = theString_ w ++ concat hs.
Proof.
  revert w. induction hs as [|h hs IH]; intros w; simpl; [by rewrite app_nil_r|].
  by rewrite IH, bw_put_BinaryData_str, app_assoc.
Qed.

Lemma pmt_serialize_bytes n root :
  node_ok root -> Z.of_nat (node_size root) < 2 ^ 32 ->
  pmt_serialize n root =
    int_to LE 4 n ++ var_int_bytes (zlen (recurseSerializeTree root).2) ++
    concat (recurseSerializeTree root).2 ++
    var_int_bytes (zlen (recurseSerializeTree root).1) ++ PackBits (recurseSerializeTree root).1.
Proof.
  intros Hok Hs. destruct (recurseSerialize_facts root Hok) as (_ & Hb & Hh).
  unfold pmt_serialize. destruct (recurseSerializeTree root) as [vb vh]. cbn [fst snd] in *.
  rewrite bw_put_BinaryData_str, bw_put_var_int_str, foldl_put_hashes, bw_put_var_int_str, bw_put_uint32_t_str.
  - by rewrite bw_new_str, <- !app_assoc.
  - unfold is_uint, zlen. lia.
  - unfold is_uint, zlen. lia.
Qed.

Lemma read_hashes_parses hs : Forall is_hash hs -> parses (read_hashes (length hs)) (concat hs) hs.
Proof.
  induction 1 as [|h hs Hh Hhs IH]; cbn [read_hashes length concat]; [apply parses_ret|].
  eapply parses_bind; [by apply (brr_get_BinaryData_parses 32 h)|].
  eapply parses_bind_ret; [exact IH|apply parses_ret].
Qed.

Lemma parses_lift {A B} (m : result A) (f : A -> Reader B) bs a b :
  m = Ok a -> parses (f a) bs b -> parses (reader_of m ≫= f) bs b.
Proof. intros -> Hf. exact Hf. Qed.

Lemma pmt_unserialize_parses n root :
  node_ok root -> createBlankTree (Z.to_nat n) = Ok (blank root) -> is_uint 32 n ->
  Z.of_nat (node_size root) < 2 ^ 31 ->
  parses pmt_unserialize (pmt_serialize n root) (n, prune root).
Proof.
  intros Hok Hblank Hn Hs. rewrite pmt_serialize_bytes by (done || lia).
  destruct (recurseSerialize_facts root Hok) as (Hhash & Hb & Hh).
  pose proof (recurseUnserialize_serialize root [] [] Hok) as Hun. rewrite !app_nil_r in Hun.
  destruct (recurseSerializeTree root) as [vb vh]. cbn [fst snd] in *.
  assert (is_uint 64 (zlen vh) /\ is_uint 64 (zlen vb)) as [??] by (unfold is_uint, zlen; lia).
  unfold pmt_unserialize. eapply parses_bind; [by apply brr_get_uint32_t_parses|].
  eapply parses_lift; [exact Hblank|].
  eapply parses_bind; [by apply brr_get_var_int_parses|]. cbv zeta.
  rewrite wrap_small by (unfold is_uint, zlen in *; lia).
  replace (Z.to_nat (zlen vh)) with (length vh) by (unfold zlen; lia).
  eapply parses_bind; [by apply read_hashes_parses|].
  eapply parses_bind; [by apply brr_get_var_int_parses|]. cbv zeta.
  rewrite (wrap_small _ (zlen vb)) by (unfold is_uint, zlen in *; lia).
  rewrite wrap_small by (unfold is_uint, zlen in *; lia).
  eapply parses_bind_ret; [apply brr_get_BinaryData_parses, zlen_PackBits|].
  eapply parses_lift; [rewrite <- (app_nil_r (PackBits vb)); apply UnpackBits_PackBits|].
  eapply parses_lift; [exact Hun|].
  eapply parses_lift; [|apply parses_ret].
  apply recurseCalcHash_cached. rewrite prune_hash. by apply node_ok_hash.
Qed.

(** Any reader of untrusted bytes: a truncated or inconsistent tree is undefined
    behaviour of the C++ (an end iterator is dereferenced). *)
Lemma recurseUnserialize_empty node vHash : recurseUnserializeTree node [] vHash = Err UB.
Proof. by destruct node. Qed.
End partial_merkle.

(** ** Properties *)

(** C35: [calculateMerkleRoot] terminates without leaving its [3 * numTx]-entry work
    vector and returns the root of the recursive pairing of levels, for every
    non-empty list of 32-byte transaction hashes. *)
Theorem calculateMerkleRoot_correct `{HashFns} (txs : list (list byte)) :
  Forall is_hash txs -> txs <> [] ->
  calculateMerkleRoot txs = Ok (merkle_root (length txs) txs) /\
  calculateMerkleTree txs = Ok (merkle_levels (length txs) txs) /\
  is_hash (merkle_root (length txs) txs).
Proof.
  intros Hh Hne. split; [by apply calculateMerkleRoot_spec|].
  split; [by apply calculateMerkleTree_levels|].
  apply merkle_root_hash; [done|]. destruct txs; [done|simpl; lia].
Qed.

(** The partial tree and the full tree agree: [createTreeNodes] over any
    path bits has the root that [calculateMerkleRoot] computes for the block. *)
Theorem PartialMerkleTree_root `{HashFns} (bits : list bool) (hashes : list (list byte)) :
  length bits = length hashes -> Forall is_hash hashes -> hashes <> [] ->
  exists root, createTreeNodes bits hashes = Ok root /\
    getMerkleRoot root = calculateMerkleRoot hashes.
Proof.
  intros Hl Hh Hne. destruct (createTreeNodes_spec bits hashes Hl Hh Hne)
    as (root & Hr & Hok & Hrh & _). exists root. split; [done|].
  rewrite calculateMerkleRoot_spec, <- Hrh by done. unfold getMerkleRoot.
  pose proof (node_ok_hash root Hok) as Hhash. unfold is_hash in Hhash. by rewrite Hhash.
Qed.

(** C36: serialising a partial tree and reading it back gives the number of
    transactions, the same merkle root and exactly the hashes of the marked
    transactions, in order. *)
Theorem PartialMerkleTree_roundtrip `{HashFns} (bits : list bool) (hashes : list (list byte)) :
  length bits = length hashes -> Forall is_hash hashes -> 0 < zlen hashes < 2 ^ 29 ->
  exists root, createTreeNodes bits hashes = Ok root /\
    let bs := pmt_serialize (zlen hashes) root in
    zlen bs < two64 ->
    exists root' r', pmt_unserialize (brr_setNewData bs) = Ok ((zlen hashes, root'), r') /\
      getMerkleRoot root' = calculateMerkleRoot hashes /\
      path_leaves root' = map snd (filter (fun bh => bh.1 = true) (zip bits hashes)).
Proof.
  intros Hl Hh Hn. assert (hashes <> []) as Hne by (destruct hashes; [unfold zlen in Hn; simpl in Hn; lia|done]).
  destruct (createTreeNodes_spec bits hashes Hl Hh Hne) as (root & Hr & Hok & Hrh & Hrb & Hs & Hlv & _).
  exists root. split; [done|]. intros bs Hbs.
  pose proof (pmt_unserialize_parses (zlen hashes) root Hok) as Hp.
  unfold zlen in Hp at 1. rewrite Nat2Z.id in Hp.
  specialize (Hp Hrb ltac:(unfold is_uint; lia) ltac:(unfold zlen in *; lia) [] []).
  cbn [app] in Hp. rewrite app_nil_r in Hp. exists (prune root), (brr_at bs []).
  split; [rewrite brr_setNewData_at; by apply Hp|].
  split; [|by rewrite path_leaves_prune].
  rewrite calculateMerkleRoot_spec, <- Hrh by done. unfold getMerkleRoot. rewrite prune_hash.
  pose proof (node_ok_hash root Hok) as Hhash. unfold is_hash in Hhash. by rewrite Hhash.
Qed.

(** *** Witnesses: a block of three transactions *)

Definition three_hashes : list (list byte) :=
  [replicate 32 (z2b 1); replicate 32 (z2b 2); replicate 32 (z2b 3)].

Lemma three_hashes_ok : Forall is_hash three_hashes.
Proof. repeat constructor. Qed.

Lemma calculateMerkleRoot_correct_witness :
  exists r, @calculateMerkleRoot toy_hashes three_hashes = Ok r /\ is_hash r.
Proof.
  destruct (@calculateMerkleRoot_correct toy_hashes three_hashes three_hashes_ok) as (E1 & _ & E2);
    [discriminate|].
  eexists. split; [exact E1|exact E2].
Defined.

Lemma PartialMerkleTree_root_witness :
  exists root, @createTreeNodes toy_hashes [false; true; false] three_hashes = Ok root /\
    @getMerkleRoot toy_hashes root = @calculateMerkleRoot toy_hashes three_hashes.
Proof.
  apply (@PartialMerkleTree_root toy_hashes [false; true; false] three_hashes);
    [reflexivity|exact three_hashes_ok|discriminate].
Defined.

Lemma PartialMerkleTree_roundtrip_witness :
  exists root, @createTreeNodes toy_hashes [false; true; false] three_hashes = Ok root /\
    exists root' r', @pmt_unserialize toy_hashes (brr_setNewData (pmt_serialize 3 root)) = Ok ((3, root'), r') /\
      path_leaves root' = [replicate 32 (z2b 2)].
Proof.
  destruct (@PartialMerkleTree_roundtrip toy_hashes [false; true; false] three_hashes)
    as (root & E & Hp); [reflexivity|exact three_hashes_ok|vm_compute; split; congruence|].
  exists root. split; [exact E|]. vm_compute in E. injection E as <-.
  destruct Hp as (root' & r' & Hu & _ & Hl); [vm_compute; reflexivity|].
  exists root', r'. split; [exact Hu|exact Hl].
Defined.

(** [UnpackBits] is the inverse of [PackBits], whatever follows the packed
    bytes, and the packed string has [ceil(n/8)] bytes. *)
Theorem PackBits_roundtrip (vectBool : list bool) (tl : list byte) :
  UnpackBits (PackBits vectBool ++ tl) (zlen vectBool) = Ok vectBool /\
  zlen (PackBits vectBool) = (zlen vectBool + 7) / 8.
Proof. split; [apply UnpackBits_PackBits|apply zlen_PackBits]. Qed.
