(* ===== verification/StdMap.v ===== *)
(** * StdMap: [std::map], ordered by the key's [operator<]

    The blockchain iterates over its maps, and which of two equally good
    blocks it picks depends on the order of that iteration, so a map is the
    list of its entries in key order.  [StdLess] is the interface a key type
    offers ([operator<]); [StdLessOrder] states that it is a strict total
    order, which is what [std::map] relies on. *)

From S2P Require Import Prelude BinaryData.

Class StdLess (K : Type) := std_less : K -> K -> bool.

Class StdLessOrder (K : Type) `{StdLess K} : Prop := {
  std_less_irrefl k : std_less k k = false;
  std_less_trans a b c : std_less a b = true -> std_less b c = true -> std_less a c = true;
  std_less_trichotomy a b : std_less a b = true \/ a = b \/ std_less b a = true;
}.

#[export] Instance uint_less : StdLess Z := Z.ltb.
#[export] Instance BinaryData_less : StdLess (list byte) := less.

#[export] Instance uint_less_order : StdLessOrder Z.
Proof.
  split; unfold std_less, uint_less; intros; [apply Z.ltb_irrefl| |].
  - rewrite Z.ltb_lt in *. lia.
  - rewrite !Z.ltb_lt. lia.
Qed.

#[export] Instance BinaryData_less_order : StdLessOrder (list byte).
Proof. split; [apply less_irrefl|apply less_trans|apply less_trichotomy]. Qed.

Definition stdmap (K V : Type) : Type := list (K * V).

Section ops.
Context {K V : Type} `{StdLess K}.
Implicit Types (k : K) (v : V) (m : stdmap K V).

Fixpoint map_find k m : option V :=
  match m with
  | [] => None
  | (k', v) :: m =>
      if std_less k k' then None else if std_less k' k then map_find k m else Some v
  end.

(** [m[k] = v]: inserts or overwrites. *)
Fixpoint map_put k v m : stdmap K V :=
  match m with
  | [] => [(k, v)]
  | (k', v') :: m' =>
      if std_less k k' then (k, v) :: m
      else if std_less k' k then (k', v') :: map_put k v m' else (k, v) :: m'
  end.

(** [m.insert({k, v})]: keeps an entry that is there; the boolean tells. *)
Definition map_insert k v m : stdmap K V * bool :=
  match map_find k m with Some _ => (m, false) | None => (map_put k v m, true) end.

(** [m.erase(k)] *)
Fixpoint map_erase k m : stdmap K V :=
  match m with
  | [] => []
  | (k', v) :: m' =>
      if std_less k k' then m else if std_less k' k then (k', v) :: map_erase k m' else m'
  end.

Definition map_values m : list V := map snd m.
Definition map_keys m : list K := map fst m.

(** Every key is before all keys that follow. *)
Fixpoint map_ordered m : Prop :=
  match m with
  | [] => True
  | (k, _) :: m => Forall (fun e => std_less k e.1 = true) m /\ map_ordered m
  end.
End ops.

Section laws.
Context {K V : Type} `{StdLessOrder K}.
Implicit Types (k : K) (v : V) (m : stdmap K V).

Lemma std_less_asym a b : std_less a b = true -> std_less b a = false.
Proof.
  intros H1. destruct (std_less b a) eqn:E; [|done].
  pose proof (std_less_trans _ _ _ H1 E) as H2. by rewrite std_less_irrefl in H2.
Qed.

Lemma map_put_keys k v m (P : K -> Prop) :
  P k -> Forall (fun e => P e.1) m -> Forall (fun e => P e.1) (map_put k v m).
Proof.
  intros Hk. induction 1 as [|[k' v'] m ? ? IH]; simpl; [by repeat constructor|].
  repeat case_match; repeat constructor; done.
Qed.

Lemma map_put_length k v m : (length (map_put k v m) <= S (length m))%nat.
Proof.
  induction m as [|[k' v'] m IH]; simpl; [done|]. repeat case_match; simpl; lia.
Qed.

Lemma map_erase_In k m e : e ∈ map_erase k m -> e ∈ m.
Proof.
  induction m as [|[k' v] m IH]; [done|]. cbn [map_erase]. destruct (std_less k k'); [done|].
  destruct (std_less k' k); [|by right]. intros [-> |He]%elem_of_cons; [by left|right; by apply IH].
Qed.

Lemma map_put_ordered k v m : map_ordered m -> map_ordered (map_put k v m).
Proof.
  induction m as [|[k' v'] m IH]; simpl; [by repeat constructor|]. intros [Hf Ho].
  destruct (std_less k k') eqn:E1; simpl.
  - repeat split; [|done..]. constructor; [done|].
    eapply Forall_impl; [done|]. simpl. intros e He. by eapply std_less_trans.
  - destruct (std_less k' k) eqn:E2; simpl.
    + split; [|auto]. by apply (map_put_keys _ _ _ (fun x => std_less k' x = true)).
    + destruct (std_less_trichotomy k k') as [?|[->|?]]; [congruence|done|congruence].
Qed.

Lemma map_find_put_eq k v m : map_find k (map_put k v m) = Some v.
Proof.
  induction m as [|[k' v'] m IH]; simpl.
  - by rewrite std_less_irrefl.
  - destruct (std_less k k') eqn:E1; simpl; [by rewrite std_less_irrefl|].
    destruct (std_less k' k) eqn:E2; simpl; [by rewrite E1, E2|].
    by rewrite std_less_irrefl.
Qed.

Lemma map_find_below k m :
  Forall (fun e => std_less k e.1 = true) m -> map_find k m = None.
Proof. destruct 1 as [|[k' v'] m Hk]; simpl in *; [done|by rewrite Hk]. Qed.

Lemma map_find_put_ne k j v m : map_ordered m -> k ≠ j ->
  map_find j (map_put k v m) = map_find j m.
Proof.
  intros Ho Hne. induction m as [|[k' v'] m IH]; simpl.
  - destruct (std_less_trichotomy j k) as [E|[E|E]]; [by rewrite E|done|].
    by rewrite E, (std_less_asym _ _ E).
  - destruct Ho as [Hf Ho].
    destruct (std_less k k') eqn:E1; simpl.
    + destruct (std_less j k) eqn:E3.
      { by rewrite (std_less_trans _ _ _ E3 E1). }
      destruct (std_less k j) eqn:E4; [done|].
      destruct (std_less_trichotomy j k) as [?|[?|?]]; congruence.
    + destruct (std_less k' k) eqn:E2; simpl.
      * destruct (std_less j k'); [done|]. destruct (std_less k' j); [by apply IH|done].
      * destruct (std_less_trichotomy k k') as [?|[->|?]]; [congruence| |congruence].
        destruct (std_less_trichotomy j k') as [E|[E|E]]; [by rewrite E|done|].
        by rewrite E, (std_less_asym _ _ E).
Qed.

Lemma map_find_In k v m : map_ordered m -> map_find k m = Some v <-> (k, v) ∈ m.
Proof.
  intros Ho. induction m as [|[k' v'] m IH]; simpl.
  - split; [done|]. by intros ?%elem_of_nil.
  - destruct Ho as [Hf Ho]. rewrite elem_of_cons. specialize (IH Ho).
    rewrite Forall_forall in Hf.
    destruct (std_less_trichotomy k k') as [E|[->|E]].
    + rewrite E. split; [done|]. intros [[= -> ->]|Hin].
      * by rewrite std_less_irrefl in E.
      * apply Hf in Hin. simpl in Hin. apply std_less_asym in Hin. congruence.
    + rewrite std_less_irrefl. split.
      * intros [= ->]. by left.
      * intros [[= ->]|Hin]; [done|]. apply Hf in Hin. simpl in Hin.
        by rewrite std_less_irrefl in Hin.
    + rewrite E, (std_less_asym _ _ E). rewrite IH. split; [by right|].
      intros [[= -> ->]|?]; [|done]. by rewrite std_less_irrefl in E.
Qed.

Lemma map_find_value k v m : map_ordered m -> map_find k m = Some v -> v ∈ map_values m.
Proof. intros Ho Hk%map_find_In; [|done]. apply (list_elem_of_fmap_2 snd m _ Hk). Qed.

Lemma map_value_find v m : map_ordered m -> v ∈ map_values m -> exists k, map_find k m = Some v.
Proof.
  intros Ho Hv. apply list_elem_of_fmap in Hv as ([k v'] & -> & Hin).
  exists k. by apply map_find_In.
Qed.

Lemma map_keys_find k m : map_ordered m -> k ∈ map_keys m <-> is_Some (map_find k m).
Proof.
  intros Ho. split.
  - intros ([k' v] & -> & Hin)%list_elem_of_fmap. exists v. by apply map_find_In.
  - intros [v Hv%map_find_In]; [|done]. apply (list_elem_of_fmap_2 fst m _ Hv).
Qed.

Lemma map_keys_NoDup m : map_ordered m -> NoDup (map_keys m).
Proof.
  induction m as [|[k v] m IH]; [intros _; constructor|]. intros [Hf Ho]. constructor; [|by apply IH].
  intros ([k' v'] & E & Hin)%list_elem_of_fmap. simpl in E. subst k'. rewrite Forall_forall in Hf. specialize (Hf _ Hin).
  simpl in Hf. by rewrite std_less_irrefl in Hf.
Qed.

(** A map has no more keys than the lists its keys are in. *)
Lemma map_length_le m (l : list K) : map_ordered m -> (forall k, k ∈ map_keys m -> k ∈ l) -> zlen m <= zlen l.
Proof.
  intros Ho Hl. pose proof (submseteq_length _ _ (NoDup_submseteq _ _ (map_keys_NoDup m Ho) Hl)) as Hle.
  unfold map_keys in Hle. rewrite length_map in Hle. unfold zlen. lia.
Qed.

Lemma map_find_put `{EqDecision K} k j v m : map_ordered m ->
  map_find j (map_put k v m) = if decide (j = k) then Some v else map_find j m.
Proof.
  intros Ho. case_decide as E; [subst; by rewrite map_find_put_eq|].
  by apply map_find_put_ne.
Qed.

Lemma map_find_insert k v m : map_ordered m ->
  map_find k (map_insert k v m).1 = Some (default v (map_find k m)).
Proof.
  intros Ho. unfold map_insert. destruct (map_find k m) as [v'|] eqn:E; simpl; [done|].
  by rewrite map_find_put_eq.
Qed.
End laws.

(** [set<uint32_t>]: the elements in order, without duplicates. *)
Definition set_insert (k : Z) (s : stdmap Z ()) : stdmap Z () := map_put k tt s.

Lemma map_keys_sorted {V} (m : stdmap Z V) : map_ordered m -> StronglySorted Z.lt (map_keys m).
Proof.
  induction m as [|[k v] m IH]; [constructor|]. intros [Hf Ho]. cbn [map_keys map fst].
  constructor; [by apply IH|]. apply Forall_fmap. eapply Forall_impl; [exact Hf|].
  intros e He. by apply Z.ltb_lt.
Qed.

(** A new largest key is put at the end. *)
Lemma map_insert_last {V} k (v : V) (m : stdmap Z V) : Forall (fun e => e.1 < k) m ->
  map_insert k v m = (m ++ [(k, v)], true).
Proof.
  intros Hm. unfold map_insert. assert (map_find k m = None /\ map_put k v m = m ++ [(k, v)]) as [-> ->]; [|done].
  induction Hm as [|[j u] m Hj Hm [IH1 IH2]]; [done|]. simpl in Hj. simpl.
  change (std_less k j) with (k <? j). change (std_less j k) with (j <? k).
  replace (k <? j) with false by lia. replace (j <? k) with true by lia.
  by rewrite IH1, IH2.
Qed.
