(* ===== verification/MapSums.v ===== *)
(** * MapSums: erasing from maps, their permutations and sums over them

    What the histories and the scanner need of [std::map] besides StdMap.v: the
    contents of a map as a list up to order, equality of maps with the same
    entries, and sums of 64-bit integers over lists and maps. *)

From S2P Require Import Prelude BinaryData StdMap.

(** [m.insert(l.begin(), l.end())]: what is there is kept. *)
Fixpoint insert_range {K V} `{StdLess K} (l m : stdmap K V) : stdmap K V :=
  match l with [] => m | (k, v) :: l => insert_range l (map_insert k v m).1 end.

(** [m[k] = v] for all entries of [l]. *)
Fixpoint put_range {K V} `{StdLess K} (l m : stdmap K V) : stdmap K V :=
  match l with [] => m | (k, v) :: l => put_range l (map_put k v m) end.

(** The loop that merges maps: an entry whose key is not there is inserted, the
    others are combined with the entry that is there. *)
Fixpoint merge_with {K V} `{StdLess K} (f : V -> V -> V) (l m : stdmap K V) : stdmap K V :=
  match l with
  | [] => m
  | (k, v) :: l =>
      merge_with f l
        (match map_find k m with None => (map_insert k v m).1 | Some v' => map_put k (f v v') m end)
  end.

Section more_laws.
Context {K V : Type} `{StdLessOrder K}.
Implicit Types (k : K) (v : V) (m : stdmap K V).

Lemma map_find_None_in k v m : map_ordered m -> map_find k m = None -> (k, v) ∉ m.
Proof. intros Ho Hn Hin. apply map_find_In in Hin; [|done]. congruence. Qed.

(** Two maps that find the same are the same list. *)
Lemma map_ext m1 m2 : map_ordered m1 -> map_ordered m2 -> (forall k, map_find k m1 = map_find k m2) -> m1 = m2.
Proof.
  revert m2. induction m1 as [|[k1 v1] m1 IH]; intros [|[k2 v2] m2] Ho1 Ho2 Hf; [done|..].
  - specialize (Hf k2). simpl in Hf. by rewrite std_less_irrefl in Hf.
  - specialize (Hf k1). simpl in Hf. by rewrite std_less_irrefl in Hf.
  - destruct Ho1 as [Hl1 Ho1], Ho2 as [Hl2 Ho2].
    assert (k1 = k2) as <-.
    { pose proof (Hf k1) as H1. pose proof (Hf k2) as H2. simpl in H1, H2. rewrite std_less_irrefl in H1, H2.
      destruct (std_less_trichotomy k1 k2) as [E|[E|E]]; [by rewrite E in H1|done|by rewrite E in H2]. }
    pose proof (Hf k1) as H1. simpl in H1. rewrite std_less_irrefl in H1. injection H1 as <-. f_equal.
    apply IH; [done..|]. intros k. specialize (Hf k). simpl in Hf.
    destruct (std_less_trichotomy k k1) as [E|[->|E]].
    + assert (forall m, Forall (fun e => std_less k1 e.1 = true) m -> map_find k m = None) as HN.
      { intros m Hm. apply map_find_below. eapply Forall_impl; [exact Hm|]. intros e. by apply std_less_trans. }
      by rewrite !HN.
    + by rewrite !map_find_below.
    + by rewrite E, (std_less_asym _ _ E) in Hf.
Qed.

(** A new largest key is put at the end. *)
Lemma map_put_last k v m : Forall (fun e => std_less e.1 k = true) m -> map_put k v m = m ++ [(k, v)].
Proof.
  induction 1 as [|[j u] m Hj Hm IH]; [done|]. simpl in *. by rewrite (std_less_asym _ _ Hj), Hj, IH.
Qed.
Lemma map_find_above k m : Forall (fun e => std_less e.1 k = true) m -> map_find k m = None.
Proof. induction 1 as [|[j u] m Hj Hm IH]; [done|]. simpl in *. by rewrite (std_less_asym _ _ Hj), Hj. Qed.
Lemma map_insert_end k v m : Forall (fun e => std_less e.1 k = true) m -> map_insert k v m = (m ++ [(k, v)], true).
Proof. intros Hm. unfold map_insert. by rewrite map_find_above, map_put_last. Qed.

Lemma map_ordered_app m1 m2 : map_ordered (m1 ++ m2) <->
  map_ordered m1 /\ map_ordered m2 /\ Forall (fun e => Forall (fun f => std_less e.1 f.1 = true) m2) m1.
Proof.
  induction m1 as [|[k v] m1 IH]; cbn [app map_ordered].
  - split; [intros Ho; repeat split; try done; constructor|intros (_ & ? & _); done].
  - rewrite Forall_app, Forall_cons, IH. simpl. tauto.
Qed.

(** The entries as they are permuted by putting and erasing. *)
Lemma map_put_new k v m : map_find k m = None -> map_put k v m ≡ₚ (k, v) :: m.
Proof.
  induction m as [|[j u] m IH]; simpl; [done|].
  destruct (std_less k j) eqn:E1; [done|]. destruct (std_less j k) eqn:E2; [|done].
  intros Hn. rewrite (IH Hn). by rewrite Permutation_swap.
Qed.

Lemma map_put_old k v v0 m : map_find k m = Some v0 -> exists m', m ≡ₚ (k, v0) :: m' /\ map_put k v m ≡ₚ (k, v) :: m'.
Proof.
  induction m as [|[j u] m IH]; simpl; [done|].
  destruct (std_less k j) eqn:E1; [done|]. destruct (std_less j k) eqn:E2.
  - intros Hf. destruct (IH Hf) as (m' & H1 & H2). exists ((j, u) :: m').
    split; [rewrite H1|rewrite H2]; by rewrite Permutation_swap.
  - intros [= ->]. exists m. split; [|done].
    destruct (std_less_trichotomy k j) as [?|[->|?]]; [congruence|done|congruence].
Qed.

Lemma map_find_perm k v m : map_find k m = Some v -> m ≡ₚ (k, v) :: map_erase k m.
Proof.
  induction m as [|[j u] m IH]; simpl; [done|].
  destruct (std_less k j) eqn:E1; [done|]. destruct (std_less j k) eqn:E2.
  - intros Hf. rewrite (IH Hf) at 1. by rewrite Permutation_swap.
  - intros [= ->]. destruct (std_less_trichotomy k j) as [?|[->|?]]; [congruence|done|congruence].
Qed.

Lemma map_erase_none k m : map_find k m = None -> map_erase k m = m.
Proof.
  induction m as [|[j u] m IH]; simpl; [done|].
  destruct (std_less k j); [done|]. destruct (std_less j k); [|done]. intros Hf. by rewrite IH.
Qed.

Lemma map_erase_Forall (P : K * V -> Prop) k m : Forall P m -> Forall P (map_erase k m).
Proof. induction 1 as [|[j u] m ? ? IH]; simpl; [done|]. repeat case_match; auto. Qed.

Lemma map_put_Forall (P : K * V -> Prop) k v m : P (k, v) -> Forall P m -> Forall P (map_put k v m).
Proof.
  intros Hk Hm. induction Hm as [|[j u] m Hj Hm' IH]; simpl; [by constructor|]. repeat case_match; repeat constructor; done.
Qed.

Lemma map_erase_ordered k m : map_ordered m -> map_ordered (map_erase k m).
Proof.
  induction m as [|[j u] m IH]; simpl; [done|]. intros [Hf Ho].
  destruct (std_less k j); [done|]. destruct (std_less j k); [|done].
  split; [by apply map_erase_Forall|by apply IH].
Qed.

Lemma map_find_erase_eq k m : map_ordered m -> map_find k (map_erase k m) = None.
Proof.
  induction m as [|[j u] m IH]; simpl; [done|]. intros [Hf Ho].
  destruct (std_less k j) eqn:E1; simpl; [by rewrite E1|].
  destruct (std_less j k) eqn:E2; simpl; [rewrite E1, E2; auto|].
  destruct (std_less_trichotomy k j) as [?|[->|?]]; [congruence| |congruence]. by apply map_find_below.
Qed.

Lemma map_find_erase_ne k i m : map_ordered m -> k ≠ i -> map_find i (map_erase k m) = map_find i m.
Proof.
  induction m as [|[j u] m IH]; intros Ho Hne; cbn [map_erase map_find]; [done|]. destruct Ho as [Hf Ho].
  destruct (std_less k j) eqn:E1; cbn [map_find]; [done|].
  destruct (std_less j k) eqn:E2; cbn [map_find]; [by rewrite IH|].
  assert (k = j) as -> by (destruct (std_less_trichotomy k j) as [?|[?|?]]; congruence).
  destruct (std_less_trichotomy i j) as [E|[->|E]]; [|done|].
  - rewrite E. apply map_find_below. eapply Forall_impl; [exact Hf|]. intros e. by apply std_less_trans.
  - by rewrite E, (std_less_asym _ _ E).
Qed.

Lemma map_insert_sorted k v m : map_ordered m -> map_ordered (map_insert k v m).1.
Proof. unfold map_insert. destruct (map_find k m); [done|]. apply map_put_ordered. Qed.

Lemma map_put_nonempty k v m : map_put k v m <> [].
Proof. destruct m as [|[j w] m]; simpl; [done|]. by repeat case_match. Qed.
Lemma map_insert_nonempty k v m : (map_insert k v m).1 <> [].
Proof.
  unfold map_insert. destruct (map_find k m) eqn:E; [|apply map_put_nonempty]. by destruct m.
Qed.

Lemma map_find_Forall (P : K * V -> Prop) k v m : Forall P m -> map_find k m = Some v -> P (k, v).
Proof.
  induction 1 as [|[j u] m Hj Hm IH]; simpl; [done|].
  destruct (std_less k j) eqn:E1; [done|]. destruct (std_less j k) eqn:E2; [done|]. intros [= <-].
  by assert (k = j) as -> by (destruct (std_less_trichotomy k j) as [?|[?|?]]; congruence).
Qed.

Lemma map_find_fmap {W} (f : V -> W) k m :
  map_find k (map (fun e => (e.1, f e.2)) m) = f <$> map_find k m.
Proof. induction m as [|[j u] m IH]; simpl; [done|]. by repeat case_match. Qed.

Lemma map_ordered_fmap {W} (f : V -> W) m : map_ordered m -> map_ordered (map (fun e => (e.1, f e.2)) m).
Proof.
  induction m as [|[j u] m IH]; simpl; [done|]. intros [Hf Ho]. split; [|by apply IH].
  apply Forall_fmap. exact Hf.
Qed.

(** What is found after a merge. *)
Lemma merge_with_find f l m k : map_ordered l -> map_ordered m ->
  map_ordered (merge_with f l m) /\
  map_find k (merge_with f l m) =
    match map_find k l, map_find k m with
    | None, x => x
    | Some v, None => Some v
    | Some v, Some v' => Some (f v v')
    end.
Proof.
  revert m. induction l as [|[j u] l IH]; intros m Hl Hm; cbn [merge_with map_find]; [done|].
  destruct Hl as [Hf Hl]. set (m' := match map_find j m with None => _ | Some v' => _ end).
  assert (map_ordered m') as Hm'
    by (unfold m'; destruct (map_find j m); [by apply map_put_ordered|by apply map_insert_sorted]).
  destruct (IH m' Hl Hm') as [Ho ->]. split; [done|].
  assert (map_find j m' = Some (match map_find j m with Some v' => f u v' | None => u end)) as Ej.
  { unfold m'. destruct (map_find j m) eqn:E; [apply map_find_put_eq|].
    by rewrite map_find_insert, E. }
  assert (k <> j -> map_find k m' = map_find k m) as Ene.
  { intros Hne. unfold m', map_insert. destruct (map_find j m) eqn:E; rewrite ?E; cbn [fst];
      rewrite map_find_put_ne by auto; done. }
  destruct (std_less_trichotomy k j) as [E|[->|E]].
  - rewrite E. assert (map_find k l = None) as ->.
    { apply map_find_below. eapply Forall_impl; [exact Hf|]. intros e. by apply std_less_trans. }
    apply Ene. intros ->. by rewrite std_less_irrefl in E.
  - rewrite (map_find_below j l Hf), std_less_irrefl, Ej. by destruct (map_find j m).
  - rewrite E, (std_less_asym _ _ E). destruct (map_find k l); rewrite Ene; try done;
      intros ->; by rewrite std_less_irrefl in E.
Qed.

Lemma insert_range_merge l m : map_ordered m -> insert_range l m = merge_with (fun _ v' => v') l m.
Proof.
  revert m. induction l as [|[j u] l IH]; intros m Hm; cbn [insert_range merge_with]; [done|].
  rewrite IH by (by apply map_insert_sorted). f_equal. unfold map_insert.
  destruct (map_find j m) as [v|] eqn:E; cbn [fst]; [|done]. apply map_ext; [done|by apply map_put_ordered|].
  intros k. destruct (std_less_trichotomy k j) as [E'|[->|E']]; [|by rewrite map_find_put_eq|];
    (rewrite map_find_put_ne; [done|done|intros ->; by rewrite std_less_irrefl in E']).
Qed.

Lemma put_range_merge l m : map_ordered m -> put_range l m = merge_with (fun v _ => v) l m.
Proof.
  revert m. induction l as [|[j u] l IH]; intros m Hm; cbn [put_range merge_with]; [done|].
  rewrite IH by (by apply map_put_ordered). f_equal. unfold map_insert. by destruct (map_find j m) eqn:E; rewrite ?E.
Qed.

Lemma insert_range_find l m k : map_ordered l -> map_ordered m ->
  map_ordered (insert_range l m) /\
  map_find k (insert_range l m) = match map_find k m with Some v => Some v | None => map_find k l end.
Proof.
  intros Hl Hm. rewrite insert_range_merge by done. destruct (merge_with_find (fun _ v' => v') l m k Hl Hm) as [? ->].
  split; [done|]. by destruct (map_find k l), (map_find k m).
Qed.

Lemma put_range_find l m k : map_ordered l -> map_ordered m ->
  map_ordered (put_range l m) /\
  map_find k (put_range l m) = match map_find k l with Some v => Some v | None => map_find k m end.
Proof.
  intros Hl Hm. rewrite put_range_merge by done. destruct (merge_with_find (fun v _ => v) l m k Hl Hm) as [? ->].
  split; [done|]. by destruct (map_find k l), (map_find k m).
Qed.

Lemma put_range_nonempty l m : m <> [] -> put_range l m <> [].
Proof.
  revert m. induction l as [|[k v] l IH]; intros m Hm; cbn [put_range]; [done|]. apply IH, map_put_nonempty.
Qed.

Lemma merge_with_Forall f (P : V -> Prop) l m : Forall (fun e => P e.2) l -> Forall (fun e => P e.2) m ->
  (forall v v', P v -> P v' -> P (f v v')) -> Forall (fun e => P e.2) (merge_with f l m).
Proof.
  intros Hl Hm Hf. revert m Hm. induction Hl as [|[k v] l Hv _ IH]; intros m Hm; cbn [merge_with]; [done|].
  apply IH. unfold map_insert. destruct (map_find k m) as [v'|] eqn:E; rewrite ?E; cbn [fst].
  - apply (map_put_Forall (fun e => P e.2)); [|done]. apply Hf; [done|].
    exact (map_find_Forall (fun e => P e.2) _ _ _ Hm E).
  - by apply (map_put_Forall (fun e => P e.2)).
Qed.
End more_laws.

(** ** Sums *)

Definition zsum {A} (f : A -> Z) (l : list A) : Z := foldr (fun x s => f x + s) 0 l.

(** [bal += f(x)] over a list, as a [uint64_t]. *)
Definition sum64 {A} (f : A -> Z) (l : list A) : Z := foldl (fun bal x => wrap 64 (bal + f x)) 0 l.

Section sums.
Context {A : Type}.
Implicit Types (f : A -> Z) (l : list A).

Lemma zsum_app f l1 l2 : zsum f (l1 ++ l2) = zsum f l1 + zsum f l2.
Proof. induction l1; simpl; lia. Qed.

Lemma zsum_perm f l1 l2 : l1 ≡ₚ l2 -> zsum f l1 = zsum f l2.
Proof. induction 1; simpl; lia. Qed.

Lemma zsum_ext f g l : (forall x, x ∈ l -> f x = g x) -> zsum f l = zsum g l.
Proof.
  induction l as [|x l IH]; simpl; [done|]. intros Hfg. rewrite IH by (intros; apply Hfg; by right).
  rewrite Hfg by (by left). done.
Qed.

Lemma zsum_map {B} (g : B -> A) f (l : list B) : zsum f (map g l) = zsum (fun x => f (g x)) l.
Proof. induction l; simpl; lia. Qed.

Lemma zsum_bind {B} (g : B -> list A) f (l : list B) : zsum f (l ≫= g) = zsum (fun x => zsum f (g x)) l.
Proof. induction l as [|x l IH]; [done|]. rewrite bind_cons, zsum_app, IH. done. Qed.

Lemma zsum_const c l : zsum (fun _ => c) l = c * zlen l.
Proof. induction l; simpl; [unfold zlen; simpl; lia|]. rewrite IHl, zlen_cons. lia. Qed.

Lemma zsum_plus f g l : zsum (fun x => f x + g x) l = zsum f l + zsum g l.
Proof. induction l; simpl; lia. Qed.

Lemma wrap_plus w a b : wrap w (wrap w a + b) = wrap w (a + b).
Proof. unfold wrap. destruct (decide (2 ^ w = 0)) as [->|]; [by rewrite !Z.mod_0_r|]. by rewrite Z.add_mod_idemp_l. Qed.
Lemma wrap_minus w a b : wrap w (wrap w a - b) = wrap w (a - b).
Proof. rewrite <- !Z.add_opp_r. apply wrap_plus. Qed.
Lemma wrap_wrap w a : wrap w (wrap w a) = wrap w a.
Proof. pose proof (wrap_plus w a 0) as E. by rewrite !Z.add_0_r in E. Qed.

Lemma sum64_spec f l : sum64 f l = wrap 64 (zsum f l).
Proof.
  unfold sum64. enough (forall b, foldl (fun bal x => wrap 64 (bal + f x)) (wrap 64 b) l = wrap 64 (b + zsum f l)) as E
    by (apply (E 0)).
  induction l as [|x l IH]; intros b; simpl; [by rewrite Z.add_0_r|]. rewrite wrap_plus, IH. f_equal. lia.
Qed.
End sums.
