(* ===== verification/DBUtils.v ===== *)
(** * DBUtils: the database keys of blocks, transactions and outputs

    cppForSwig/DBUtils.h and DBUtils.cpp, and the accessors of [TxRef]
    (cppForSwig/TxClasses.cpp), whose value is such a key.  A key is
    [prefix?, height (3), duplicate id (1), tx index (2)?, output index (2)?],
    big endian, so that the byte order of keys is the order of the chain. *)

From Stdlib Require Import String.
From S2P Require Import Prelude BinaryData BinaryIO StdMap.

Inductive BLKDATA_TYPE := NOT_BLKDATA | BLKDATA_HEADER | BLKDATA_TX | BLKDATA_TXOUT.

Inductive DB_PREFIX :=
  | DB_PREFIX_DBINFO | DB_PREFIX_HEADHASH | DB_PREFIX_HEADHGT | DB_PREFIX_TXDATA
  | DB_PREFIX_TXHINTS | DB_PREFIX_SCRIPT | DB_PREFIX_UNDODATA | DB_PREFIX_TRIENODES
  | DB_PREFIX_COUNT | DB_PREFIX_ZCDATA | DB_PREFIX_POOL | DB_PREFIX_MISSING_HASHES.

#[export] Instance BLKDATA_TYPE_eq_dec : EqDecision BLKDATA_TYPE.
Proof. solve_decision. Defined.

(** The enumerators' values. *)
Definition prefix_val (p : DB_PREFIX) : Z :=
  match p with
  | DB_PREFIX_DBINFO => 0 | DB_PREFIX_HEADHASH => 1 | DB_PREFIX_HEADHGT => 2
  | DB_PREFIX_TXDATA => 3 | DB_PREFIX_TXHINTS => 4 | DB_PREFIX_SCRIPT => 5
  | DB_PREFIX_UNDODATA => 6 | DB_PREFIX_TRIENODES => 7 | DB_PREFIX_COUNT => 8
  | DB_PREFIX_ZCDATA => 9 | DB_PREFIX_POOL => 10 | DB_PREFIX_MISSING_HASHES => 11
  end.

Definition ZeroConfHeader_ : list byte := [z2b 255; z2b 255].

(** ** Height and duplicate id *)

(** [READ_UINT32_BE], [READ_UINT16_BE] read without a test of the size. *)
Definition hgtxToHeight (hgtx : list byte) : result Z :=
  bs ← raw_read hgtx 0 4; Ok (Z.shiftr (be_val bs) 8).
Definition hgtxToDupID (hgtx : list byte) : result Z :=
  bs ← raw_read hgtx 0 4; Ok (Z.land (be_val bs) 127).
Definition heightAndDupToHgtx (hgt dup : Z) : list byte :=
  be_bytes 4 (Z.lor (wrap 32 (Z.shiftl hgt 8)) dup).

(** ** Writing keys *)

Definition getBlkDataKey (height dup : Z) : list byte :=
  theString_ (bw_put_BinaryData (heightAndDupToHgtx height dup)
    (bw_put_uint8_t (prefix_val DB_PREFIX_TXDATA) bw_new)).
Definition getBlkDataKey_tx (height dup txIdx : Z) : list byte :=
  theString_ (bw_put_uint16_t txIdx BE
    (bw_put_BinaryData (heightAndDupToHgtx height dup)
      (bw_put_uint8_t (prefix_val DB_PREFIX_TXDATA) bw_new))).
Definition getBlkDataKey_txout (height dup txIdx txOutIdx : Z) : list byte :=
  theString_ (bw_put_uint16_t txOutIdx BE (bw_put_uint16_t txIdx BE
    (bw_put_BinaryData (heightAndDupToHgtx height dup)
      (bw_put_uint8_t (prefix_val DB_PREFIX_TXDATA) bw_new)))).
Definition getBlkDataKeyNoPrefix (height dup : Z) : list byte := heightAndDupToHgtx height dup.
Definition getBlkDataKeyNoPrefix_tx (height dup txIdx : Z) : list byte :=
  theString_ (bw_put_uint16_t txIdx BE
    (bw_put_BinaryData (heightAndDupToHgtx height dup) bw_new)).
Definition getBlkDataKeyNoPrefix_txout (height dup txIdx txOutIdx : Z) : list byte :=
  theString_ (bw_put_uint16_t txOutIdx BE (bw_put_uint16_t txIdx BE
    (bw_put_BinaryData (heightAndDupToHgtx height dup) bw_new))).

(** ** Reading keys *)

(** What a key says: its type, [height], [dupID], [txIdx] and [txOutIdx].  The
    last two are [None] where the code leaves the caller's variable alone. *)
Record BlkKey := mkBlkKey {
  key_type : BLKDATA_TYPE;
  key_height : Z;
  key_dupID : Z;
  key_txIdx : option Z;
  key_txOutIdx : option Z;
}.

Definition remaining : Reader Z := fun r => Ok (brr_getSizeRemaining r, r).

Definition readBlkDataKeyNoPrefix : Reader BlkKey :=
  hgtx ← brr_get_BinaryData 4;
  height ← reader_of (hgtxToHeight hgtx);
  dupID ← reader_of (hgtxToDupID hgtx);
  n ← remaining;
  if n =? 0 then
    mret (mkBlkKey BLKDATA_HEADER height dupID (Some 0xffff) (Some 0xffff))
  else if n =? 2 then
    txIdx ← brr_get_uint16_t BE;
    mret (mkBlkKey BLKDATA_TX height dupID (Some txIdx) (Some 0xffff))
  else if n =? 4 then
    txIdx ← brr_get_uint16_t BE;
    txOutIdx ← brr_get_uint16_t BE;
    mret (mkBlkKey BLKDATA_TXOUT height dupID (Some txIdx) (Some txOutIdx))
  else mret (mkBlkKey NOT_BLKDATA height dupID None None).

Definition readBlkDataKey : Reader BlkKey :=
  prefix ← brr_get_uint8_t;
  if negb (prefix =? prefix_val DB_PREFIX_TXDATA) then
    mret (mkBlkKey NOT_BLKDATA 0xffffffff 0xff (Some 0xffff) (Some 0xffff))
  else readBlkDataKeyNoPrefix.

(** ** Prefixes *)

Definition getPrefixName (prefixInt : Z) : string :=
  if prefixInt =? prefix_val DB_PREFIX_DBINFO then "DBINFO"
  else if prefixInt =? prefix_val DB_PREFIX_TXDATA then "TXDATA"
  else if prefixInt =? prefix_val DB_PREFIX_SCRIPT then "SCRIPT"
  else if prefixInt =? prefix_val DB_PREFIX_TXHINTS then "TXHINTS"
  else if prefixInt =? prefix_val DB_PREFIX_TRIENODES then "TRIENODES"
  else if prefixInt =? prefix_val DB_PREFIX_HEADHASH then "HEADHASH"
  else if prefixInt =? prefix_val DB_PREFIX_HEADHGT then "HEADHGT"
  else if prefixInt =? prefix_val DB_PREFIX_UNDODATA then "UNDODATA"
  else "<unknown>".

Definition rewind_if (b : bool) : Reader () := fun r =>
  Ok (tt, if b then brr_rewind 1 r else r).

Definition checkPrefixByte (prefix : DB_PREFIX) (rewindWhenDone : bool) : Reader bool :=
  oneByte ← brr_get_uint8_t;
  let out := oneByte =? prefix_val prefix in
  _ ← rewind_if rewindWhenDone;
  mret out.

(** [checkPrefixByteWError] also logs the two names. *)
Definition checkPrefixByteWError : DB_PREFIX -> bool -> Reader bool := checkPrefixByte.

(** ** Keys of the other tables *)

Definition getFilterPoolKey (filenum : Z) : list byte :=
  be_bytes 4 (Z.lor (Z.shiftl (prefix_val DB_PREFIX_POOL) 24) filenum).

(** Stored through a [uint32_t*]: little endian on the machines Armory runs on. *)
Definition getMissingHashesKey (id : Z) : list byte :=
  le_bytes 4 (Z.lor (Z.land id 0x00FFFFFF) (Z.shiftl (prefix_val DB_PREFIX_MISSING_HASHES) 24)).

(** ** [TxRef]: the six-byte key of a transaction *)

Definition TxRef_getBlockHeight (dbKey6B : list byte) : result Z :=
  if (zlen dbKey6B =? 6) && negb (startsWith dbKey6B ZeroConfHeader_) then
    hgtxToHeight (getSliceCopy dbKey6B 0 4)
  else Ok 0xffffffff.

Definition TxRef_getDuplicateID (dbKey6B : list byte) : result Z :=
  if zlen dbKey6B =? 6 then hgtxToDupID (getSliceCopy dbKey6B 0 4) else Ok 0xff.

Definition TxRef_getBlockTxIndex (dbKey6B : list byte) : result Z :=
  if zlen dbKey6B =? 6 then
    if negb (startsWith dbKey6B ZeroConfHeader_) then be_val <$> raw_read dbKey6B 4 2
    else (fun v => wrap 16 v) <$> (be_val <$> raw_read dbKey6B 2 4)
  else Ok 0xffff.

Definition TxRef_getDBKeyOfChild (dbKey6B : list byte) (i : Z) : list byte :=
  append dbKey6B (be_bytes 2 i).

(** ** Lemmas *)

Lemma hgtx_int hgt dup : 0 <= dup < 2 ^ 8 ->
  Z.lor (wrap 32 (Z.shiftl hgt 8)) dup = hgt mod 2 ^ 24 * 256 + dup.
Proof.
  intros Hd. rewrite Z.lor_comm.
  assert (wrap 32 (Z.shiftl hgt 8) = Z.shiftl (hgt mod 2 ^ 24) 8) as ->.
  { rewrite !Z.shiftl_mul_pow2 by lia. unfold wrap.
    change (2 ^ 32) with (2 ^ 24 * 2 ^ 8). rewrite Z.mul_mod_distr_r; lia. }
  rewrite lor_shift_add by lia. lia.
Qed.

Lemma hgtx_be_val hgt dup : 0 <= dup < 2 ^ 8 ->
  be_val (heightAndDupToHgtx hgt dup) = hgt mod 2 ^ 24 * 256 + dup.
Proof.
  intros Hd. unfold heightAndDupToHgtx. rewrite be_val_be_bytes, hgtx_int by done.
  apply Z.mod_small. pose proof (Z.mod_pos_bound hgt (2 ^ 24)). simpl Z.of_nat. lia.
Qed.

Lemma zlen_hgtx hgt dup : zlen (heightAndDupToHgtx hgt dup) = 4.
Proof. apply zlen_be_bytes. Qed.
#[local] Hint Rewrite zlen_hgtx : zlen.

Lemma raw_read_all (l : list byte) n : zlen l = n -> raw_read l 0 n = Ok l.
Proof.
  intros <-. pose proof (raw_read_app [] l []) as H. by rewrite app_nil_r in H.
Qed.

Lemma hgtxToHeight_hgtx hgt dup : 0 <= dup < 2 ^ 8 ->
  hgtxToHeight (heightAndDupToHgtx hgt dup) = Ok (hgt mod 2 ^ 24).
Proof.
  intros Hd. unfold hgtxToHeight. rewrite raw_read_all by apply zlen_hgtx. simpl.
  rewrite hgtx_be_val, Z.shiftr_div_pow2 by lia. f_equal. dlia.
Qed.

Lemma hgtxToDupID_hgtx hgt dup : 0 <= dup < 2 ^ 8 ->
  hgtxToDupID (heightAndDupToHgtx hgt dup) = Ok (dup mod 2 ^ 7).
Proof.
  intros Hd. unfold hgtxToDupID. rewrite raw_read_all by apply zlen_hgtx. simpl.
  rewrite hgtx_be_val by done. change 127 with (Z.ones 7). rewrite Z.land_ones by lia.
  f_equal. dlia.
Qed.

(** A height and a duplicate id that fit into their bits of the key. *)
Definition hgtx_ok (height dup : Z) : Prop := 0 <= height < 2 ^ 24 /\ 0 <= dup < 2 ^ 7.

Lemma bind_parses {A B} (m : Reader A) (f : A -> Reader B) pre bs tl a :
  parses m bs a -> zlen (pre ++ bs ++ tl) < two64 ->
  (m ≫= f) (brr_at pre (bs ++ tl)) = f a (brr_at (pre ++ bs) tl).
Proof. intros Hm Hl. unfold mbind, reader_bind. by rewrite Hm. Qed.

Lemma bind_reader_of {A B} (x : result A) (f : A -> Reader B) a r :
  x = Ok a -> (reader_of x ≫= f) r = f a r.
Proof. by intros ->. Qed.

Lemma readNoPrefix_hgtx pre height dup tail :
  0 <= dup < 2 ^ 8 -> zlen (pre ++ heightAndDupToHgtx height dup ++ tail) < two64 ->
  let h := height mod 2 ^ 24 in
  let d := dup mod 2 ^ 7 in
  let r := brr_at (pre ++ heightAndDupToHgtx height dup) tail in
  readBlkDataKeyNoPrefix (brr_at pre (heightAndDupToHgtx height dup ++ tail)) =
  if zlen tail =? 0 then Ok (mkBlkKey BLKDATA_HEADER h d (Some 0xffff) (Some 0xffff), r)
  else if zlen tail =? 2 then
    '(txIdx, r) ← brr_get_uint16_t BE r; Ok (mkBlkKey BLKDATA_TX h d (Some txIdx) (Some 0xffff), r)
  else if zlen tail =? 4 then
    '(txIdx, r) ← brr_get_uint16_t BE r;
    '(txOutIdx, r) ← brr_get_uint16_t BE r;
    Ok (mkBlkKey BLKDATA_TXOUT h d (Some txIdx) (Some txOutIdx), r)
  else Ok (mkBlkKey NOT_BLKDATA h d None None, r).
Proof.
  intros Hd Hl h d r. unfold readBlkDataKeyNoPrefix.
  erewrite bind_parses; [|apply brr_get_BinaryData_parses, zlen_hgtx|done].
  rewrite (bind_reader_of _ _ _ _ (hgtxToHeight_hgtx height dup Hd)).
  rewrite (bind_reader_of _ _ _ _ (hgtxToDupID_hgtx height dup Hd)). fold h d r.
  unfold remaining, mbind at 1, reader_bind at 1.
  assert (brr_getSizeRemaining r = zlen tail) as ->
    by (unfold r; rewrite brr_remaining_at; [done|by rewrite <- app_assoc]).
  destruct (zlen tail =? 0); [done|]. destruct (zlen tail =? 2).
  { unfold mbind, reader_bind, result_bind. by destruct (brr_get_uint16_t BE r) as [[]|]. }
  destruct (zlen tail =? 4); [|done]. unfold mbind, reader_bind, result_bind.
  destruct (brr_get_uint16_t BE r) as [[i r1]|]; [|done].
  by destruct (brr_get_uint16_t BE r1) as [[]|].
Qed.

(** What a key of the database stands for: a block, one of its transactions,
    or one of its outputs. *)
Inductive DBKey :=
  | KeyHeader (height dup : Z)
  | KeyTx (height dup txIdx : Z)
  | KeyTxOut (height dup txIdx txOutIdx : Z).

Definition key_ok (k : DBKey) : Prop :=
  match k with
  | KeyHeader h d => hgtx_ok h d
  | KeyTx h d i => hgtx_ok h d /\ is_uint 16 i
  | KeyTxOut h d i o => hgtx_ok h d /\ is_uint 16 i /\ is_uint 16 o
  end.

#[export] Instance key_ok_dec k : Decision (key_ok k).
Proof. destruct k; unfold key_ok, hgtx_ok; apply _. Defined.

Definition enc_key (k : DBKey) : list byte :=
  match k with
  | KeyHeader h d => getBlkDataKey h d
  | KeyTx h d i => getBlkDataKey_tx h d i
  | KeyTxOut h d i o => getBlkDataKey_txout h d i o
  end.

Definition enc_key_noprefix (k : DBKey) : list byte :=
  match k with
  | KeyHeader h d => getBlkDataKeyNoPrefix h d
  | KeyTx h d i => getBlkDataKeyNoPrefix_tx h d i
  | KeyTxOut h d i o => getBlkDataKeyNoPrefix_txout h d i o
  end.

Definition key_fields (k : DBKey) : BlkKey :=
  match k with
  | KeyHeader h d => mkBlkKey BLKDATA_HEADER h d (Some 0xffff) (Some 0xffff)
  | KeyTx h d i => mkBlkKey BLKDATA_TX h d (Some i) (Some 0xffff)
  | KeyTxOut h d i o => mkBlkKey BLKDATA_TXOUT h d (Some i) (Some o)
  end.

Lemma enc_key_noprefix_eq k : enc_key_noprefix k =
  match k with
  | KeyHeader h d => heightAndDupToHgtx h d
  | KeyTx h d i => heightAndDupToHgtx h d ++ int_to BE 2 i
  | KeyTxOut h d i o => heightAndDupToHgtx h d ++ int_to BE 2 i ++ int_to BE 2 o
  end.
Proof.
  destruct k; simpl; [done|..];
    unfold getBlkDataKeyNoPrefix_tx, getBlkDataKeyNoPrefix_txout;
    autorewrite with bw; by rewrite <- ?app_assoc.
Qed.

Lemma enc_key_prefix k : enc_key k = z2b 3 :: enc_key_noprefix k.
Proof.
  rewrite enc_key_noprefix_eq. destruct k; simpl;
    unfold getBlkDataKey, getBlkDataKey_tx, getBlkDataKey_txout;
    autorewrite with bw; by rewrite <- ?app_assoc.
Qed.

Lemma zlen_enc_key_noprefix k :
  zlen (enc_key_noprefix k) =
  match k with KeyHeader _ _ => 4 | KeyTx _ _ _ => 6 | KeyTxOut _ _ _ _ => 8 end.
Proof. rewrite enc_key_noprefix_eq. destruct k; autorewrite with zlen; done. Qed.

Ltac key_fits := autorewrite with zlen; unfold two64; change (Z.of_nat 2) with 2; lia.

Lemma get_u16_last pre i : is_uint 16 i -> zlen pre <= 20 ->
  brr_get_uint16_t BE (brr_at pre (int_to BE 2 i)) = Ok (i, brr_at (pre ++ int_to BE 2 i) []).
Proof.
  intros Hi Hp. rewrite <- (app_nil_r (int_to BE 2 i)) at 1.
  by rewrite (brr_get_uint16_t_parses BE i Hi) by key_fits.
Qed.

Lemma readNoPrefix_key pre k : key_ok k -> zlen pre <= 1 ->
  readBlkDataKeyNoPrefix (brr_at pre (enc_key_noprefix k)) =
  Ok (key_fields k, brr_at (pre ++ enc_key_noprefix k) []).
Proof.
  intros Hk Hpre. rewrite enc_key_noprefix_eq.
  destruct k as [h d|h d i|h d i o]; simpl in Hk; unfold hgtx_ok in Hk.
  - pose proof (readNoPrefix_hgtx pre h d []) as H. rewrite app_nil_r in H.
    rewrite H by key_fits. rewrite !Z.mod_small by lia. done.
  - destruct Hk as [Hk Hi]. rewrite readNoPrefix_hgtx by key_fits.
    rewrite !Z.mod_small by lia. rewrite zlen_int_to. change (Z.of_nat 2) with 2. zsimp.
    rewrite get_u16_last by (done || key_fits). cbn. by rewrite <- app_assoc.
  - destruct Hk as (Hk & Hi & Ho). rewrite readNoPrefix_hgtx by key_fits.
    rewrite !Z.mod_small by lia. rewrite zlen_app, !zlen_int_to.
    change (Z.of_nat 2 + Z.of_nat 2) with 4. zsimp.
    rewrite (brr_get_uint16_t_parses BE i Hi) by key_fits. unfold mbind at 1, result_bind at 1.
    rewrite get_u16_last by (done || key_fits). cbn. by rewrite <- !app_assoc.
Qed.

(** Keys are ordered as blocks, transactions and outputs are. *)
Definition key_rank (k : DBKey) : Z * Z * Z * Z :=
  match k with
  | KeyHeader h d => (h, d, 0, 0)
  | KeyTx h d i => (h, d, i, 0)
  | KeyTxOut h d i o => (h, d, i, o)
  end.

Definition rank_less (a b : Z * Z * Z * Z) : bool :=
  let '(h1, d1, i1, o1) := a in
  let '(h2, d2, i2, o2) := b in
  (h1 <? h2) || ((h1 =? h2) && ((d1 <? d2) || ((d1 =? d2) &&
    ((i1 <? i2) || ((i1 =? i2) && (o1 <? o2)))))).

Definition same_kind (a b : DBKey) : bool :=
  match a, b with
  | KeyHeader _ _, KeyHeader _ _ | KeyTx _ _ _, KeyTx _ _ _
  | KeyTxOut _ _ _ _, KeyTxOut _ _ _ _ => true
  | _, _ => false
  end.

Lemma be_val_app a b : be_val (a ++ b) = be_val a * 2 ^ (8 * zlen b) + be_val b.
Proof.
  unfold be_val. rewrite rev_app_distr, le_val_app, length_rev. unfold zlen.
  rewrite Z.pow_mul_r by lia. change (2 ^ 8) with 256. lia.
Qed.

Lemma be_val_int_to i : is_uint 16 i -> be_val (int_to BE 2 i) = i.
Proof. intros H. simpl. rewrite be_val_be_bytes. by apply Z.mod_small. Qed.

Lemma less_cons b x y : less (b :: x) (b :: y) = less x y.
Proof. simpl. by rewrite decide_True. Qed.

(** The fields of a [TxRef] made from a key whose height does not start with
    the bytes that mark a zero-confirmation key. *)
Lemma hgtx_not_zc hgt dup rest : hgtx_ok hgt dup -> hgt < 0xffff00 ->
  startsWith (heightAndDupToHgtx hgt dup ++ rest) ZeroConfHeader_ = false.
Proof.
  intros [Hh Hd] Hz. pose proof (hgtx_be_val hgt dup ltac:(lia)) as E.
  rewrite (Z.mod_small hgt) in E by lia. pose proof (zlen_hgtx hgt dup) as Hl.
  destruct (heightAndDupToHgtx hgt dup) as [|b0 [|b1 [|b2 [|b3 [|]]]]]; try discriminate Hl.
  2:{ autorewrite with zlen in Hl. pose proof (zlen_nonneg l). lia. }
  unfold startsWith, ZeroConfHeader_. cbn [startsWith_loop app].
  case_match; [done|]. case_decide as E0; [|done]. case_decide as E1; [|done]. subst b0 b1.
  exfalso. unfold be_val in E. simpl in E.
  change (b2z (z2b 255)) with 255 in E. pose proof (b2z_range b2). pose proof (b2z_range b3). lia.
Qed.

Lemma TxRef_fields hgt dup txIdx : key_ok (KeyTx hgt dup txIdx) -> hgt < 0xffff00 ->
  let key := getBlkDataKeyNoPrefix_tx hgt dup txIdx in
  zlen key = 6 /\ TxRef_getBlockHeight key = Ok hgt /\ TxRef_getDuplicateID key = Ok dup /\
  TxRef_getBlockTxIndex key = Ok txIdx.
Proof.
  intros Hk Hz key. pose proof (zlen_enc_key_noprefix (KeyTx hgt dup txIdx)) as Hl.
  pose proof (enc_key_noprefix_eq (KeyTx hgt dup txIdx)) as E. 
  change (zlen key = 6) in Hl. change (key = heightAndDupToHgtx hgt dup ++ int_to BE 2 txIdx) in E.
  clearbody key. destruct Hk as [[Hh Hd] Hi]. split; [exact Hl|].
  assert (getSliceCopy key 0 4 = heightAndDupToHgtx hgt dup) as Hs.
  { rewrite E. pose proof (getSliceCopy_app [] (heightAndDupToHgtx hgt dup) (int_to BE 2 txIdx)) as H.
    rewrite zlen_hgtx in H. apply H. autorewrite with zlen. unfold two64. lia. }
  unfold TxRef_getBlockHeight, TxRef_getDuplicateID, TxRef_getBlockTxIndex.
  rewrite Hl, Hs. cbn [Z.eqb Pos.eqb andb]. rewrite E, hgtx_not_zc by done. cbn [negb].
  rewrite hgtxToHeight_hgtx, hgtxToDupID_hgtx, !Z.mod_small by lia.
  split; [done|]. split; [done|].
  pose proof (raw_read_app (heightAndDupToHgtx hgt dup) (int_to BE 2 txIdx) []) as H.
  autorewrite with zlen in H. rewrite app_nil_r in H. change (Z.of_nat 2) with 2 in H. rewrite H.
  simpl fmap. by rewrite be_val_int_to.
Qed.

(** ** Properties *)

(** Reading back the key of a block, a transaction or an output, with or
    without the prefix byte, gives its kind and its indices and consumes the
    whole key. *)
Theorem BlkDataKey_roundtrip k : key_ok k ->
  readBlkDataKey (brr_setNewData (enc_key k)) = Ok (key_fields k, brr_at (enc_key k) []) /\
  readBlkDataKeyNoPrefix (brr_setNewData (enc_key_noprefix k)) =
    Ok (key_fields k, brr_at (enc_key_noprefix k) []).
Proof.
  intros Hk. split.
  - rewrite enc_key_prefix, brr_setNewData_at. unfold readBlkDataKey.
    change (z2b 3 :: enc_key_noprefix k) with ([z2b 3] ++ enc_key_noprefix k).
    pose proof (zlen_enc_key_noprefix k) as Hz.
    rewrite (bind_parses _ _ _ _ _ 3); [|by apply brr_get_uint8_t_parses|].
    + simpl. by rewrite readNoPrefix_key.
    + destruct k; autorewrite with zlen; rewrite Hz; unfold two64; lia.
  - by rewrite brr_setNewData_at, readNoPrefix_key.
Qed.

Lemma BlkDataKey_roundtrip_witness :
  key_ok (KeyTxOut 700000 1 1234 65535) /\
  readBlkDataKeyNoPrefix (brr_setNewData (enc_key_noprefix (KeyTxOut 700000 1 1234 65535))) =
    Ok (key_fields (KeyTxOut 700000 1 1234 65535),
        brr_at (enc_key_noprefix (KeyTxOut 700000 1 1234 65535)) []).
Proof.
  assert (key_ok (KeyTxOut 700000 1 1234 65535)) as H
    by (apply (bool_decide_eq_true_1 _); reflexivity).
  split; [exact H|]. apply (proj2 (BlkDataKey_roundtrip _ H)).
Defined.

(** The byte order of two keys of one kind, which is the order in which
    the database lists them, is the order of height, duplicate id, transaction
    index and output index. *)
Theorem BlkDataKey_order a b : key_ok a -> key_ok b -> same_kind a b = true ->
  less (enc_key a) (enc_key b) = rank_less (key_rank a) (key_rank b).
Proof.
  intros Ha Hb Hs. rewrite !enc_key_prefix, less_cons, less_be_val.
  2:{ apply Nat2Z.inj. change (zlen (enc_key_noprefix a) = zlen (enc_key_noprefix b)).
      rewrite !zlen_enc_key_noprefix. by destruct a, b. }
  rewrite !enc_key_noprefix_eq.
  destruct a, b; try done; simpl in Ha, Hb; unfold hgtx_ok in *; simpl key_rank;
    rewrite ?be_val_app, ?be_val_int_to, !hgtx_be_val by (apply Ha || apply Hb || lia);
    rewrite !(Z.mod_small _ (2 ^ 24)) by lia; autorewrite with zlen; unfold is_uint in *;
    rewrite ?Z.mul_add_distr_l, ?Z.pow_add_r by lia;
    change (2 ^ (8 * Z.of_nat 2)) with 65536; unfold rank_less; lia.
Qed.

Lemma BlkDataKey_order_witness :
  key_ok (KeyTx 255 3 9) /\ key_ok (KeyTx 256 0 1) /\
  less (enc_key (KeyTx 255 3 9)) (enc_key (KeyTx 256 0 1)) =
    rank_less (key_rank (KeyTx 255 3 9)) (key_rank (KeyTx 256 0 1)).
Proof.
  assert (key_ok (KeyTx 255 3 9)) as H1 by (apply (bool_decide_eq_true_1 _); reflexivity).
  assert (key_ok (KeyTx 256 0 1)) as H2 by (apply (bool_decide_eq_true_1 _); reflexivity).
  split; [exact H1|]. split; [exact H2|]. exact (BlkDataKey_order _ _ H1 H2 eq_refl).
Defined.

(** A key keeps 24 bits of the height and the low 7 of the 8 bits of the
    duplicate id; anything above is lost when it is read back. *)
Theorem hgtx_truncates hgt dup : is_uint 32 hgt -> is_uint 8 dup ->
  hgtxToHeight (heightAndDupToHgtx hgt dup) = Ok (hgt mod 2 ^ 24) /\
  hgtxToDupID (heightAndDupToHgtx hgt dup) = Ok (dup mod 2 ^ 7).
Proof. intros Hh Hd. split; [by apply hgtxToHeight_hgtx|by apply hgtxToDupID_hgtx]. Qed.

Lemma hgtx_truncates_witness :
  hgtxToHeight (heightAndDupToHgtx 4294967295 255) = Ok 16777215 /\
  hgtxToDupID (heightAndDupToHgtx 4294967295 255) = Ok 127.
Proof. apply (hgtx_truncates 4294967295 255); split; lia || reflexivity. Defined.
