(* ===== verification/BlockHeader.v ===== *)
(** * BlockHeader: a block's header and its derived fields

    The class [BlockHeader] of cppForSwig/BlockObj.h and BlockObj.cpp,
    [BlockData::createBlockHeader] of BlockDataMap.cpp and the difficulty of
    cppForSwig/BtcUtils.h.  A [double] is a binary64 number of the standard
    library's [SpecFloat], with its rounding: the order in which difficulties
    are added is the order of the code. *)

From S2P Require Import Prelude BinaryData BinaryIO Hashing.
From Stdlib Require Import Floats.SpecFloat.

(** ** [double] *)

Abbreviation double := spec_float.
Definition dbl_of_uint (z : Z) : double := binary_normalize 53 1024 z 0 false.
Definition dadd : double -> double -> double := SFadd 53 1024.
Definition dmul : double -> double -> double := SFmul 53 1024.
Definition ddiv : double -> double -> double := SFdiv 53 1024.
(** [a < b]; false when one of them is not a number. *)
Definition dltb : double -> double -> bool := SFltb.

Definition dbl_0 : double := S754_zero false.
Definition dbl_1 : double := dbl_of_uint 1.
Definition dbl_m1 : double := dbl_of_uint (-1).
(** [numeric_limits<double>::max()] *)
Definition dbl_max : double := S754_finite false 9007199254740991 971.

(** [while (nShift < 29) dDiff *= 256.0], then [while (nShift > 29) dDiff /= 256.0]. *)
Definition convertDiffBitsToDouble (diffBitsBinary : list byte) : result double :=
  bs ← raw_read diffBitsBinary 0 4;
  let diffBits := le_val bs in
  let nShift := Z.land (Z.shiftr diffBits 24) 255 in
  let dDiff := ddiv (dbl_of_uint 65535) (dbl_of_uint (Z.land diffBits 16777215)) in
  let up := Nat.iter (Z.to_nat (29 - nShift)) (fun d => dmul d (dbl_of_uint 256)) dDiff in
  Ok (Nat.iter (Z.to_nat (nShift - 29)) (fun d => ddiv d (dbl_of_uint 256)) up).

(** ** The header *)

Definition HEADER_SIZE : Z := 80.
Definition UINT32_MAX : Z := 4294967295.
Definition UINT16_MAX : Z := 65535.
Definition UINT64_MAX : Z := 2 ^ 64 - 1.
Definition UINT8_MAX : Z := 255.

Record BlockHeader := mkBlockHeader {
  dataCopy_ : list byte;
  isInitialized_ : bool;
  isMainBranch_ : bool;
  isOrphan_ : bool;
  isFinishedCalc_ : bool;
  duplicateID_ : Z;
  blockHeight_ : Z;
  numTx_ : Z;
  numBlockBytes_ : option Z;   (** [None]: not set by the constructor *)
  thisHash_ : list byte;
  difficultyDbl_ : double;
  nextHash_ : list byte;
  difficultySum_ : double;
  blkFileNum_ : Z;
  blkFileOffset_ : Z;
  uniqueID_ : Z;
}.

(** [BlockHeader(void)]: what the initialiser list names, the rest from the
    member initialisers. *)
Definition BlockHeader_default : BlockHeader := {|
  dataCopy_ := []; isInitialized_ := false; isMainBranch_ := false; isOrphan_ := false;
  isFinishedCalc_ := false; duplicateID_ := UINT8_MAX; blockHeight_ := UINT32_MAX;
  numTx_ := UINT32_MAX; numBlockBytes_ := Some UINT32_MAX; thisHash_ := [];
  difficultyDbl_ := dbl_0; nextHash_ := []; difficultySum_ := dbl_0;
  blkFileNum_ := UINT32_MAX; blkFileOffset_ := 2 ^ 64 - 1; uniqueID_ := UINT32_MAX |}.

(** *** Assignments to one field *)
Section setters.
Implicit Types h : BlockHeader.

Definition set_difficultySum (d : double) h := {|
  dataCopy_ := dataCopy_ h; isInitialized_ := isInitialized_ h; isMainBranch_ := isMainBranch_ h;
  isOrphan_ := isOrphan_ h; isFinishedCalc_ := isFinishedCalc_ h; duplicateID_ := duplicateID_ h;
  blockHeight_ := blockHeight_ h; numTx_ := numTx_ h; numBlockBytes_ := numBlockBytes_ h;
  thisHash_ := thisHash_ h; difficultyDbl_ := difficultyDbl_ h; nextHash_ := nextHash_ h;
  difficultySum_ := d; blkFileNum_ := blkFileNum_ h; blkFileOffset_ := blkFileOffset_ h;
  uniqueID_ := uniqueID_ h |}.

Definition set_difficultyDbl (d : double) h := {|
  dataCopy_ := dataCopy_ h; isInitialized_ := isInitialized_ h; isMainBranch_ := isMainBranch_ h;
  isOrphan_ := isOrphan_ h; isFinishedCalc_ := isFinishedCalc_ h; duplicateID_ := duplicateID_ h;
  blockHeight_ := blockHeight_ h; numTx_ := numTx_ h; numBlockBytes_ := numBlockBytes_ h;
  thisHash_ := thisHash_ h; difficultyDbl_ := d; nextHash_ := nextHash_ h;
  difficultySum_ := difficultySum_ h; blkFileNum_ := blkFileNum_ h;
  blkFileOffset_ := blkFileOffset_ h; uniqueID_ := uniqueID_ h |}.

Definition set_blockHeight (z : Z) h := {|
  dataCopy_ := dataCopy_ h; isInitialized_ := isInitialized_ h; isMainBranch_ := isMainBranch_ h;
  isOrphan_ := isOrphan_ h; isFinishedCalc_ := isFinishedCalc_ h; duplicateID_ := duplicateID_ h;
  blockHeight_ := z; numTx_ := numTx_ h; numBlockBytes_ := numBlockBytes_ h;
  thisHash_ := thisHash_ h; difficultyDbl_ := difficultyDbl_ h; nextHash_ := nextHash_ h;
  difficultySum_ := difficultySum_ h; blkFileNum_ := blkFileNum_ h;
  blkFileOffset_ := blkFileOffset_ h; uniqueID_ := uniqueID_ h |}.

Definition set_duplicateID (z : Z) h := {|
  dataCopy_ := dataCopy_ h; isInitialized_ := isInitialized_ h; isMainBranch_ := isMainBranch_ h;
  isOrphan_ := isOrphan_ h; isFinishedCalc_ := isFinishedCalc_ h; duplicateID_ := z;
  blockHeight_ := blockHeight_ h; numTx_ := numTx_ h; numBlockBytes_ := numBlockBytes_ h;
  thisHash_ := thisHash_ h; difficultyDbl_ := difficultyDbl_ h; nextHash_ := nextHash_ h;
  difficultySum_ := difficultySum_ h; blkFileNum_ := blkFileNum_ h;
  blkFileOffset_ := blkFileOffset_ h; uniqueID_ := uniqueID_ h |}.

Definition set_isOrphan (b : bool) h := {|
  dataCopy_ := dataCopy_ h; isInitialized_ := isInitialized_ h; isMainBranch_ := isMainBranch_ h;
  isOrphan_ := b; isFinishedCalc_ := isFinishedCalc_ h; duplicateID_ := duplicateID_ h;
  blockHeight_ := blockHeight_ h; numTx_ := numTx_ h; numBlockBytes_ := numBlockBytes_ h;
  thisHash_ := thisHash_ h; difficultyDbl_ := difficultyDbl_ h; nextHash_ := nextHash_ h;
  difficultySum_ := difficultySum_ h; blkFileNum_ := blkFileNum_ h;
  blkFileOffset_ := blkFileOffset_ h; uniqueID_ := uniqueID_ h |}.

Definition set_isMainBranch (b : bool) h := {|
  dataCopy_ := dataCopy_ h; isInitialized_ := isInitialized_ h; isMainBranch_ := b;
  isOrphan_ := isOrphan_ h; isFinishedCalc_ := isFinishedCalc_ h; duplicateID_ := duplicateID_ h;
  blockHeight_ := blockHeight_ h; numTx_ := numTx_ h; numBlockBytes_ := numBlockBytes_ h;
  thisHash_ := thisHash_ h; difficultyDbl_ := difficultyDbl_ h; nextHash_ := nextHash_ h;
  difficultySum_ := difficultySum_ h; blkFileNum_ := blkFileNum_ h;
  blkFileOffset_ := blkFileOffset_ h; uniqueID_ := uniqueID_ h |}.

Definition set_isFinishedCalc (b : bool) h := {|
  dataCopy_ := dataCopy_ h; isInitialized_ := isInitialized_ h; isMainBranch_ := isMainBranch_ h;
  isOrphan_ := isOrphan_ h; isFinishedCalc_ := b; duplicateID_ := duplicateID_ h;
  blockHeight_ := blockHeight_ h; numTx_ := numTx_ h; numBlockBytes_ := numBlockBytes_ h;
  thisHash_ := thisHash_ h; difficultyDbl_ := difficultyDbl_ h; nextHash_ := nextHash_ h;
  difficultySum_ := difficultySum_ h; blkFileNum_ := blkFileNum_ h;
  blkFileOffset_ := blkFileOffset_ h; uniqueID_ := uniqueID_ h |}.

Definition set_isInitialized (b : bool) h := {|
  dataCopy_ := dataCopy_ h; isInitialized_ := b; isMainBranch_ := isMainBranch_ h;
  isOrphan_ := isOrphan_ h; isFinishedCalc_ := isFinishedCalc_ h; duplicateID_ := duplicateID_ h;
  blockHeight_ := blockHeight_ h; numTx_ := numTx_ h; numBlockBytes_ := numBlockBytes_ h;
  thisHash_ := thisHash_ h; difficultyDbl_ := difficultyDbl_ h; nextHash_ := nextHash_ h;
  difficultySum_ := difficultySum_ h; blkFileNum_ := blkFileNum_ h;
  blkFileOffset_ := blkFileOffset_ h; uniqueID_ := uniqueID_ h |}.

Definition set_nextHash (bs : list byte) h := {|
  dataCopy_ := dataCopy_ h; isInitialized_ := isInitialized_ h; isMainBranch_ := isMainBranch_ h;
  isOrphan_ := isOrphan_ h; isFinishedCalc_ := isFinishedCalc_ h; duplicateID_ := duplicateID_ h;
  blockHeight_ := blockHeight_ h; numTx_ := numTx_ h; numBlockBytes_ := numBlockBytes_ h;
  thisHash_ := thisHash_ h; difficultyDbl_ := difficultyDbl_ h; nextHash_ := bs;
  difficultySum_ := difficultySum_ h; blkFileNum_ := blkFileNum_ h;
  blkFileOffset_ := blkFileOffset_ h; uniqueID_ := uniqueID_ h |}.
End setters.

(** ** Accessors: reads at fixed offsets of [dataCopy_]

    [getPtr] asserts [isInitialized_]; without the 80 bytes the reads fail
    either way. *)
Definition getVersion (h : BlockHeader) : result Z := le_val <$> raw_read (dataCopy_ h) 0 4.
Definition getPrevHash (h : BlockHeader) : result (list byte) := raw_read (dataCopy_ h) 4 32.
Definition bh_getMerkleRoot (h : BlockHeader) : result (list byte) := raw_read (dataCopy_ h) 36 32.
Definition getTimestamp (h : BlockHeader) : result Z := le_val <$> raw_read (dataCopy_ h) 68 4.
Definition getDiffBits (h : BlockHeader) : result (list byte) := raw_read (dataCopy_ h) 72 4.
Definition getNonce (h : BlockHeader) : result Z := le_val <$> raw_read (dataCopy_ h) 76 4.

(** [BlockHeader::unserialize] into a header that is already there. *)
Definition bh_unserialize `{HashFns} (ptr : list byte) (h : BlockHeader) : result BlockHeader :=
  if zlen ptr <? HEADER_SIZE then Err BlockDeserializing
  else
    let data := copyFrom ptr HEADER_SIZE in
    d ← convertDiffBitsToDouble (drop 72 data);
    Ok {| dataCopy_ := data; isInitialized_ := true; isMainBranch_ := false; isOrphan_ := true;
          isFinishedCalc_ := isFinishedCalc_ h; duplicateID_ := duplicateID_ h;
          blockHeight_ := UINT32_MAX; numTx_ := UINT32_MAX; numBlockBytes_ := numBlockBytes_ h;
          thisHash_ := getHash256 data; difficultyDbl_ := d; nextHash_ := [];
          difficultySum_ := dbl_m1; blkFileNum_ := blkFileNum_ h;
          blkFileOffset_ := blkFileOffset_ h; uniqueID_ := uniqueID_ h |}.

(** [BlockData::createBlockHeader] when no header was made yet; the block's
    bytes and the fields of [BlockData] it copies are the arguments. *)
Definition createBlockHeader (data : list byte) (size nTx fileID offset : Z)
    (blockHash : list byte) (uniqueID : Z) : result BlockHeader :=
  hdr ← raw_read data 0 HEADER_SIZE;
  bits ← raw_read data 72 4;
  d ← convertDiffBitsToDouble bits;
  Ok {| dataCopy_ := hdr; isInitialized_ := true; isMainBranch_ := false; isOrphan_ := true;
        isFinishedCalc_ := false; duplicateID_ := UINT8_MAX; blockHeight_ := UINT32_MAX;
        numTx_ := wrap 32 nTx; numBlockBytes_ := Some (wrap 32 size); thisHash_ := blockHash;
        difficultyDbl_ := d; nextHash_ := []; difficultySum_ := dbl_m1; blkFileNum_ := fileID;
        blkFileOffset_ := offset; uniqueID_ := uniqueID |}.

(** ** The order of doubles *)

Definition is_nan (d : double) : bool := match d with S754_nan => true | _ => false end.

(** [Z.compare] and [Pos.compare] as hypotheses for [lia]. *)
Ltac cmp_cases :=
  repeat match goal with
  | H : context [Z.compare ?a ?b] |- _ => destruct (Z.compare_spec a b); subst
  | |- context [Z.compare ?a ?b] => destruct (Z.compare_spec a b); subst
  | H : context [Pos.compare ?a ?b] |- _ => destruct (Pos.compare_spec a b); subst
  | |- context [Pos.compare ?a ?b] => destruct (Pos.compare_spec a b); subst
  end.

Lemma dltb_finite s1 m1 e1 s2 m2 e2 :
  dltb (S754_finite s1 m1 e1) (S754_finite s2 m2 e2) =
  match s1, s2 with
  | true, false => true
  | false, true => false
  | false, false => (e1 <? e2) || ((e1 =? e2) && (Z.pos m1 <? Z.pos m2))
  | true, true => (e2 <? e1) || ((e1 =? e2) && (Z.pos m2 <? Z.pos m1))
  end.
Proof.
  unfold dltb, SFltb, SFcompare. change (Pos.compare_cont Eq m1 m2) with (Pos.compare m1 m2).
  destruct s1, s2; try done; cmp_cases; simpl; zsimp; try done; lia.
Qed.

Lemma dltb_trans a b c : dltb a b = true -> dltb b c = true -> dltb a c = true.
Proof.
  destruct a as [[]|[]| |s1 m1 e1], b as [[]|[]| |s2 m2 e2], c as [[]|[]| |s3 m3 e3]; try done;
    rewrite ?dltb_finite; try (repeat match goal with s : bool |- _ => destruct s end; done).
  destruct s1, s2, s3; try done; lia.
Qed.

Lemma dltb_irrefl a : dltb a a = false.
Proof.
  destruct a as [[]|[]| |s m e]; try done. rewrite dltb_finite. destruct s; lia.
Qed.

(** Numbers are totally preordered: what is not above [m] is below what is. *)
Lemma dltb_below m q p :
  is_nan m = false -> is_nan q = false -> dltb m q = false -> dltb m p = true -> dltb q p = true.
Proof.
  destruct m as [[]|[]| |s1 m1 e1], q as [[]|[]| |s2 m2 e2], p as [[]|[]| |s3 m3 e3]; try done;
    rewrite ?dltb_finite; try (repeat match goal with s : bool |- _ => destruct s end; done).
  destruct s1, s2, s3; try done; lia.
Qed.

Lemma dltb_not_nan a b : dltb a b = true -> is_nan a = false /\ is_nan b = false.
Proof. destruct a, b; done. Qed.

Lemma dltb_asym a b : dltb a b = true -> dltb b a = false.
Proof.
  intros H. destruct (dltb b a) eqn:E; [|done].
  pose proof (dltb_trans _ _ _ H E) as H'. by rewrite dltb_irrefl in H'.
Qed.

(** ** Rounding keeps the sign

    The results of the operations above stay at or above zero, are never not a
    number, and a positive number plus a number at or above zero is positive:
    no sum underflows. *)
Section rounding.

Definition dbl_pos (d : double) : Prop :=
  match d with
  | S754_infinity false => True
  | S754_finite false _ e => -1074 <= e
  | _ => False
  end.

Definition dbl_nonneg (d : double) : Prop := d = dbl_0 \/ dbl_pos d.

Lemma dbl_pos_ltb d : dbl_pos d -> dltb dbl_0 d = true.
Proof. by destruct d as [|[]| |[]]. Qed.

Lemma dbl_nonneg_not_neg d : dbl_nonneg d -> dltb d dbl_0 = false.
Proof. intros [->|H]; [done|]. by destruct d as [|[]| |[]]. Qed.

Lemma dbl_nonneg_not_nan d : dbl_nonneg d -> is_nan d = false.
Proof. intros [->|H]; [done|]. by destruct d as [|[]| |[]]. Qed.

Lemma dbl_nonneg_m1 d : dbl_nonneg d -> dltb dbl_m1 d = true.
Proof. intros [->|H]; [done|]. by destruct d as [|[]| |[]]. Qed.

Lemma shr_1_m mrs : 0 <= shr_m mrs -> shr_m (shr_1 mrs) = shr_m mrs / 2.
Proof.
  destruct mrs as [m r s]. destruct m as [|p|p]; simpl; [done| |lia].
  intros _. destruct p as [p|p|]; simpl; [| |done];
    rewrite ?(Pos2Z.inj_xI p), ?(Pos2Z.inj_xO p); dlia.
Qed.

Lemma iter_shr_m n mrs : 0 <= shr_m mrs ->
  shr_m (iter_pos shr_1 n mrs) = shr_m mrs / 2 ^ Z.pos n /\ 0 <= shr_m (iter_pos shr_1 n mrs).
Proof.
  assert (forall a b c, 0 <= a -> 0 <= b -> 0 <= c -> a / 2 ^ b / 2 ^ c = a / 2 ^ (b + c)) as Hd.
  { intros. rewrite Z.div_div, <- Z.pow_add_r by lia. done. }
  revert mrs. induction n as [n IH|n IH|]; intros mrs Hm; simpl iter_pos.
  - assert (0 <= shr_m (shr_1 mrs)) as H1 by (rewrite shr_1_m by done; dlia).
    destruct (IH _ H1) as [E1 H2]. destruct (IH _ H2) as [E2 H3]. split; [|done].
    rewrite E2, E1, shr_1_m by done.
    change (shr_m mrs / 2) with (shr_m mrs / 2 ^ 1). rewrite !Hd by lia.
    do 2 f_equal. lia.
  - destruct (IH _ Hm) as [E1 H2]. destruct (IH _ H2) as [E2 H3]. split; [|done].
    rewrite E2, E1, !Hd by lia. do 2 f_equal. lia.
  - rewrite shr_1_m by done. change (2 ^ 1) with 2. split; [done|dlia].
Qed.

Lemma digits2_pos_lower m : 2 ^ (Z.pos (digits2_pos m) - 1) <= Z.pos m.
Proof.
  induction m as [m IH|m IH|]; simpl digits2_pos; [| |done];
    replace (Z.pos (Pos.succ (digits2_pos m)) - 1) with (1 + (Z.pos (digits2_pos m) - 1)) by lia;
    rewrite Z.pow_add_r by lia; change (2 ^ 1) with 2; lia.
Qed.

(** The shift of [shr_fexp]: the mantissa stays at or above zero, positive if
    the exponent allows it, and the exponent reaches the smallest one. *)
Lemma shr_fexp_spec m e l : 0 <= m ->
  let '(mrs, e') := shr_fexp 53 1024 m e l in
  0 <= shr_m mrs /\ -1074 <= e' /\ (-1074 <= e -> 0 < m -> 0 < shr_m mrs).
Proof.
  intros Hm. unfold shr_fexp, shr.
  set (n := fexp 53 1024 (Zdigits2 m + e) - e).
  assert (-1074 <= e + n) as Hn by (unfold n, fexp, emin; lia).
  assert (shr_m (shr_record_of_loc m l) = m) as Em by (by destruct l as [|[]]).
  destruct n as [|p|p] eqn:Ep.
  - rewrite Em. lia.
  - destruct (iter_shr_m p (shr_record_of_loc m l)) as [E H0]; [lia|].
    split; [done|]. split; [done|]. intros He Hm'. rewrite E, Em.
    assert (Z.pos p = Zdigits2 m - 53) as Hp by (unfold n, fexp, emin in Ep; lia).
    apply Z.div_str_pos. split; [by apply Z.pow_pos_nonneg|].
    destruct m as [|m|m]; [lia| |lia]. simpl Zdigits2 in Hp.
    transitivity (2 ^ (Z.pos (digits2_pos m) - 1)); [|apply digits2_pos_lower].
    apply Z.pow_le_mono_r; lia.
  - rewrite Em. lia.
Qed.

Lemma round_nearest_even_spec m l : m <= round_nearest_even m l <= m + 1.
Proof. destruct l as [|[]]; simpl; try case_match; lia. Qed.

Lemma binary_round_aux_spec m e l : 0 <= m ->
  dbl_nonneg (binary_round_aux 53 1024 false m e l) /\
  (-1074 <= e -> 0 < m -> dbl_pos (binary_round_aux 53 1024 false m e l)).
Proof.
  intros Hm. unfold binary_round_aux.
  pose proof (shr_fexp_spec m e l Hm) as H1. destruct (shr_fexp 53 1024 m e l) as [mrs e1].
  destruct H1 as (H1 & He1 & Hp1).
  pose proof (round_nearest_even_spec (shr_m mrs) (loc_of_shr_record mrs)) as Hr.
  pose proof (shr_fexp_spec (round_nearest_even (shr_m mrs) (loc_of_shr_record mrs)) e1 loc_Exact)
    as H2.
  destruct (shr_fexp 53 1024 _ e1 loc_Exact) as [mrs2 e2]. destruct H2 as (H2 & He2 & Hp2); [lia|].
  destruct (shr_m mrs2) as [|p|p]; [|destruct (e2 <=? 1024 - 53)|lia].
  - split; [by left|]. lia.
  - split; [right|intros _ _]; exact He2.
  - split; [right|intros _ _]; exact I.
Qed.

Lemma binary_round_pos m e : -1074 <= e -> dbl_pos (binary_round 53 1024 false m e).
Proof.
  intros He. unfold binary_round, shl_align.
  set (f := fexp 53 1024 (Z.pos (digits2_pos m) + e)).
  assert (-1074 <= f) by (unfold f, fexp, emin; lia).
  destruct (f - e) as [|p|p]; apply binary_round_aux_spec; lia.
Qed.

Lemma dadd_pos a b : dbl_pos a -> dbl_nonneg b -> dbl_pos (dadd a b).
Proof.
  intros Ha [->|Hb]; [by destruct a as [|[]| |[]]|].
  destruct a as [|[]| |[] m1 e1], b as [|[]| |[] m2 e2]; try done.
  cbn -[binary_round Z.min] in *. by apply binary_round_pos, Z.min_glb.
Qed.

Lemma dbl_of_uint_nonneg z : 0 <= z -> dbl_nonneg (dbl_of_uint z).
Proof.
  intros. destruct z as [|p|p]; [by left| |lia]. right. by apply binary_round_pos.
Qed.

Lemma dmul_nonneg m e d : dbl_nonneg d -> dbl_nonneg (dmul d (S754_finite false m e)).
Proof.
  intros [->|H]; [by left|]. destruct d as [|[]| |[] m1 e1]; try done; [by right|].
  apply binary_round_aux_spec. lia.
Qed.

Lemma ddiv_core_nonneg m1 e1 m2 e2 :
  dbl_nonneg (ddiv (S754_finite false m1 e1) (S754_finite false m2 e2)).
Proof.
  unfold ddiv, SFdiv. destruct (SFdiv_core_binary _ _ _ _ _ _) as [[q e'] l] eqn:E.
  apply binary_round_aux_spec. revert E. unfold SFdiv_core_binary.
  set (m' := match _ with Zpos _ => _ | Z0 => _ | Zneg _ => _ end).
  assert (0 <= m') as Hm' by (unfold m'; case_match; rewrite ?Z.shiftl_nonneg; lia).
  pose proof (Z.div_pos m' (Z.pos m2) Hm' eq_refl) as Hq. unfold Z.div in Hq.
  destruct (Z.div_eucl m' (Z.pos m2)) as [q' r]. by intros [= <- <- <-].
Qed.

Lemma ddiv_finite_nonneg m e d : dbl_nonneg d -> dbl_nonneg (ddiv (S754_finite false m e) d).
Proof.
  intros [->|H]; [by right|]. destruct d as [|[]| |[] m1 e1]; try done; [by left|].
  apply ddiv_core_nonneg.
Qed.

Lemma ddiv_by_nonneg m e d : dbl_nonneg d -> dbl_nonneg (ddiv d (S754_finite false m e)).
Proof.
  intros [->|H]; [by left|]. destruct d as [|[]| |[] m1 e1]; try done; [by right|].
  apply ddiv_core_nonneg.
Qed.

Lemma iter_nonneg (f : double -> double) n d :
  (forall x, dbl_nonneg x -> dbl_nonneg (f x)) -> dbl_nonneg d -> dbl_nonneg (Nat.iter n f d).
Proof. intros Hf Hd. induction n; simpl; auto. Qed.

Lemma dbl_256 : dbl_of_uint 256 = S754_finite false 4503599627370496 (-44).
Proof. reflexivity. Qed.
Lemma dbl_65535 : dbl_of_uint 65535 = S754_finite false 9007061815787520 (-37).
Proof. reflexivity. Qed.

(** The difficulty a header announces is never negative, whatever its bits. *)
Lemma convertDiffBitsToDouble_nonneg bits d :
  convertDiffBitsToDouble bits = Ok d -> dbl_nonneg d.
Proof.
  unfold convertDiffBitsToDouble. rewrite dbl_256, dbl_65535.
  intros H. apply result_bind_Ok in H as (bs & _ & H). apply Ok_inj in H as <-.
  apply iter_nonneg; [intros x Hx; by apply ddiv_by_nonneg|].
  apply iter_nonneg; [intros x Hx; by apply dmul_nonneg|].
  apply ddiv_finite_nonneg, dbl_of_uint_nonneg, Z.land_nonneg. lia.
Qed.
End rounding.

(** ** Properties *)

(** The bytes of a header by field. *)
Record HeaderBytes := mkHeaderBytes {
  hb_version : list byte;
  hb_prev : list byte;
  hb_root : list byte;
  hb_time : list byte;
  hb_bits : list byte;
  hb_nonce : list byte;
}.

Definition hb_ok (b : HeaderBytes) : Prop :=
  zlen (hb_version b) = 4 /\ zlen (hb_prev b) = 32 /\ zlen (hb_root b) = 32 /\
  zlen (hb_time b) = 4 /\ zlen (hb_bits b) = 4 /\ zlen (hb_nonce b) = 4.

Definition hb_bytes (b : HeaderBytes) : list byte :=
  hb_version b ++ hb_prev b ++ hb_root b ++ hb_time b ++ hb_bits b ++ hb_nonce b.

(** Every accessor gives its field. *)
Definition hb_read (b : HeaderBytes) (h : BlockHeader) : Prop :=
  getVersion h = Ok (le_val (hb_version b)) /\ getPrevHash h = Ok (hb_prev b) /\
  bh_getMerkleRoot h = Ok (hb_root b) /\ getTimestamp h = Ok (le_val (hb_time b)) /\
  getDiffBits h = Ok (hb_bits b) /\ getNonce h = Ok (le_val (hb_nonce b)).

Lemma raw_read_mid pre mid post l p n : l = pre ++ mid ++ post -> p = zlen pre -> n = zlen mid ->
  raw_read l p n = Ok mid.
Proof. intros -> -> ->. apply raw_read_app. Qed.

Ltac read_field pre post :=
  apply (raw_read_mid pre _ post); [by rewrite <- ?app_assoc, ?app_nil_r|autorewrite with zlen; lia|lia].

Lemma zlen_hb_bytes b : hb_ok b -> zlen (hb_bytes b) = HEADER_SIZE.
Proof. intros (? & ? & ? & ? & ? & ?). unfold hb_bytes, HEADER_SIZE. autorewrite with zlen. lia. Qed.

Lemma hb_read_bytes b h : hb_ok b -> dataCopy_ h = hb_bytes b -> hb_read b h.
Proof.
  intros (H1 & H2 & H3 & H4 & H5 & H6) E. destruct b as [v p r t d n]. simpl in *.
  unfold hb_read, getVersion, getPrevHash, bh_getMerkleRoot, getTimestamp, getDiffBits, getNonce.
  rewrite E. unfold hb_bytes. simpl.
  assert (raw_read (v ++ p ++ r ++ t ++ d ++ n) 0 4 = Ok v) as ->
    by read_field (@nil byte) (p ++ r ++ t ++ d ++ n).
  assert (raw_read (v ++ p ++ r ++ t ++ d ++ n) 4 32 = Ok p) as -> by read_field v (r ++ t ++ d ++ n).
  assert (raw_read (v ++ p ++ r ++ t ++ d ++ n) 36 32 = Ok r) as -> by read_field (v ++ p) (t ++ d ++ n).
  assert (raw_read (v ++ p ++ r ++ t ++ d ++ n) 68 4 = Ok t) as -> by read_field (v ++ p ++ r) (d ++ n).
  assert (raw_read (v ++ p ++ r ++ t ++ d ++ n) 72 4 = Ok d) as -> by read_field (v ++ p ++ r ++ t) n.
  assert (raw_read (v ++ p ++ r ++ t ++ d ++ n) 76 4 = Ok n) as ->
    by read_field (v ++ p ++ r ++ t ++ d) (@nil byte).
  done.
Qed.

Lemma convertDiffBitsToDouble_ok bits : zlen bits = 4 ->
  exists d, convertDiffBitsToDouble bits = Ok d /\ dbl_nonneg d.
Proof.
  intros Hl. assert (exists d, convertDiffBitsToDouble bits = Ok d) as (d & E).
  { unfold convertDiffBitsToDouble. rewrite (raw_read_mid [] bits []); [by eexists|..|done];
      [by rewrite app_nil_r|done]. }
  exists d. split; [done|]. by eapply convertDiffBitsToDouble_nonneg.
Qed.

Lemma copyFrom_prefix l rest : 0 < zlen l -> copyFrom (l ++ rest) (zlen l) = l.
Proof.
  intros Hl. unfold copyFrom. zcase; [lia|].
  unfold zlen. by rewrite Nat2Z.id, take_app_length.
Qed.

(** The bits of a header, as [unserialize] reads them. *)
Lemma convertDiffBits_drop b : hb_ok b ->
  convertDiffBitsToDouble (drop 72 (hb_bytes b)) = convertDiffBitsToDouble (hb_bits b).
Proof.
  intros (H1 & H2 & H3 & H4 & H5 & H6).
  assert (drop 72 (hb_bytes b) = hb_bits b ++ hb_nonce b) as ->.
  { unfold hb_bytes. rewrite !app_assoc, <- (app_assoc _ (hb_bits b)).
    apply drop_app_length'. rewrite !length_app. unfold zlen in *. lia. }
  unfold convertDiffBitsToDouble.
  rewrite (raw_read_mid [] (hb_bits b) (hb_nonce b)), (raw_read_mid [] (hb_bits b) []);
    try done; by rewrite app_nil_r.
Qed.

(** The header of a block's bytes, field by field. *)
Lemma createBlockHeader_ok b rest size nTx fileID offset blockHash id : hb_ok b ->
  exists d, dbl_nonneg d /\ convertDiffBitsToDouble (hb_bits b) = Ok d /\
  createBlockHeader (hb_bytes b ++ rest) size nTx fileID offset blockHash id =
  Ok {| dataCopy_ := hb_bytes b; isInitialized_ := true; isMainBranch_ := false; isOrphan_ := true;
        isFinishedCalc_ := false; duplicateID_ := UINT8_MAX; blockHeight_ := UINT32_MAX;
        numTx_ := wrap 32 nTx; numBlockBytes_ := Some (wrap 32 size); thisHash_ := blockHash;
        difficultyDbl_ := d; nextHash_ := []; difficultySum_ := dbl_m1; blkFileNum_ := fileID;
        blkFileOffset_ := offset; uniqueID_ := id |}.
Proof.
  intros Hok. pose proof (zlen_hb_bytes b Hok) as Hz.
  destruct (convertDiffBitsToDouble_ok (hb_bits b)) as (d & Hd & Hnn); [apply Hok|].
  exists d. split; [done|]. split; [done|]. unfold createBlockHeader.
  assert (raw_read (hb_bytes b ++ rest) 0 HEADER_SIZE = Ok (hb_bytes b)) as -> by (apply (raw_read_mid [] _ rest); done). cbn [mbind result_bind].
  assert (raw_read (hb_bytes b ++ rest) 72 4 = Ok (hb_bits b)) as ->.
  { destruct Hok as (? & ? & ? & ? & ? & ?). unfold hb_bytes.
    read_field (hb_version b ++ hb_prev b ++ hb_root b ++ hb_time b) (hb_nonce b ++ rest). }
  cbn [mbind result_bind]. by rewrite Hd.
Qed.

(** A block's bytes, 80 of header and then anything, give a header whose
    accessors return the fields of the bytes, with a difficulty that is
    neither negative nor NaN, and marked as not yet placed: an orphan, off the
    main branch, unfinished and with a negative sum.  Reading the same bytes
    with [unserialize] gives the same header fields and the hash of the 80
    bytes. *)
Theorem createBlockHeader_correct `{HashFns} b rest size nTx fileID offset blockHash id : hb_ok b ->
  exists h h', createBlockHeader (hb_bytes b ++ rest) size nTx fileID offset blockHash id = Ok h /\
    bh_unserialize (hb_bytes b ++ rest) BlockHeader_default = Ok h' /\
    hb_read b h /\ hb_read b h' /\ dbl_nonneg (difficultyDbl_ h) /\
    difficultyDbl_ h' = difficultyDbl_ h /\ dltb (difficultySum_ h) dbl_0 = true /\
    isOrphan_ h = true /\ isFinishedCalc_ h = false /\ isMainBranch_ h = false /\
    thisHash_ h = blockHash /\ thisHash_ h' = getHash256 (hb_bytes b) /\ uniqueID_ h = id.
Proof.
  intros Hok. pose proof (zlen_hb_bytes b Hok) as Hz.
  destruct (createBlockHeader_ok b rest size nTx fileID offset blockHash id Hok) as (d & Hnn & Hd & ->).
  unfold bh_unserialize. replace (zlen (hb_bytes b ++ rest) <? HEADER_SIZE) with false
    by (rewrite zlen_app; pose proof (zlen_nonneg rest); lia).
  rewrite <- Hz, copyFrom_prefix by (rewrite Hz; done). rewrite convertDiffBits_drop, Hd by done.
  eexists _, _. do 2 (split; [reflexivity|]). simpl.
  do 2 (split; [by apply hb_read_bytes|]). done.
Qed.

Definition hb_example : HeaderBytes :=
  mkHeaderBytes (replicate 4 (z2b 0)) (replicate 32 (z2b 1)) (replicate 32 (z2b 2))
    (replicate 4 (z2b 3)) (map z2b [255; 255; 0; 29]) (replicate 4 (z2b 4)).

Lemma createBlockHeader_correct_witness : hb_ok hb_example /\
  exists h h', createBlockHeader (hb_bytes hb_example ++ [z2b 9]) 81 1 0 0 [] 7 = Ok h /\
    @bh_unserialize toy_hashes (hb_bytes hb_example ++ [z2b 9]) BlockHeader_default = Ok h' /\
    hb_read hb_example h /\ hb_read hb_example h' /\ dbl_nonneg (difficultyDbl_ h) /\
    difficultyDbl_ h' = difficultyDbl_ h /\ dltb (difficultySum_ h) dbl_0 = true /\
    isOrphan_ h = true /\ isFinishedCalc_ h = false /\ isMainBranch_ h = false /\
    thisHash_ h = [] /\ thisHash_ h' = @getHash256 toy_hashes (hb_bytes hb_example) /\ uniqueID_ h = 7.
Proof.
  assert (hb_ok hb_example) as Hok by (repeat split).
  split; [exact Hok|]. exact (@createBlockHeader_correct toy_hashes hb_example [z2b 9] 81 1 0 0 [] 7 Hok).
Defined.
