(* ===== verification/HeadersDB.v ===== *)
(** * HeadersDB: the database of the block headers

    The records [StoredDBInfo], [StoredHeader] (without transactions) and
    [StoredHeadHgtList] of cppForSwig/StoredBlockObj.h and StoredBlockObj.cpp
    with their formats, and the operations of [LMDBBlockDatabase]
    (cppForSwig/lmdb_wrapper.cpp) on the HEADERS table: a header is stored
    under its hash, and every height has the list of its headers with their
    duplicate ids.  LMDB itself is the interface [Store]. *)

From S2P Require Import Prelude BinaryData BinaryIO Hashing StdMap DBUtils BlockHeader.

(** ** The store *)

(** What LMDB does for one table: [insert] replaces, [get_NoCopy] finds. *)
Class Store (DB : Type) := {
  db_get : DB -> list byte -> option (list byte);
  db_insert : list byte -> list byte -> DB -> DB;
}.

Class StoreLaws (DB : Type) `{Store DB} :=
  db_get_insert k v d j : db_get (db_insert k v d) j = if decide (j = k) then Some v else db_get d j.

(** ** [StoredDBInfo] *)

Definition ARMORY_DB_VERSION : Z := 0x9502.
Inductive ARMORY_DB_TYPE := ARMORY_DB_BARE | ARMORY_DB_FULL | ARMORY_DB_SUPER.

#[export] Instance ARMORY_DB_TYPE_eq_dec : EqDecision ARMORY_DB_TYPE.
Proof. solve_decision. Defined.

Definition db_type_val (t : ARMORY_DB_TYPE) : Z :=
  match t with ARMORY_DB_BARE => 0 | ARMORY_DB_FULL => 1 | ARMORY_DB_SUPER => 2 end.

(** [armoryType_] is the number the four bits hold: the cast does not test it. *)
Record StoredDBInfo := mkSDBI {
  magic_ : list byte;
  topBlkHgt_ : Z;
  metaHash_ : list byte;
  topScannedBlkHash_ : list byte;
  appliedToHgt_ : Z;
  armoryVer_ : Z;
  armoryType_ : Z;
}.

Definition StoredDBInfo_default : StoredDBInfo :=
  mkSDBI [] 0 EmptyHash [] 0 ARMORY_DB_VERSION (db_type_val ARMORY_DB_FULL).

Definition sdbi_isInitialized (s : StoredDBInfo) : bool := 0 <? zlen (magic_ s).

Definition sdbi_getDBKey (id : Z) : list byte :=
  theString_ (bw_put_uint16_t id BE (bw_put_uint8_t (prefix_val DB_PREFIX_DBINFO) bw_new)).

Definition sdbi_unserialize (s : StoredDBInfo) : Reader StoredDBInfo :=
  n ← remaining;
  if n <? 44 then
    mret (mkSDBI [] UINT32_MAX [] (topScannedBlkHash_ s) (appliedToHgt_ s) (armoryVer_ s) (armoryType_ s))
  else
    magic ← brr_get_BinaryData 4;
    bits ← bu_read 32;
    let '(ver, bits) := bu_getBits 32 16 bits in
    if negb (ver =? ARMORY_DB_VERSION) then rthrow DbErrorMsg
    else
      let '(type, _) := bu_getBits 32 4 bits in
      top ← brr_get_uint32_t LE;
      applied ← brr_get_uint32_t LE;
      meta ← brr_get_BinaryData 32;
      n ← remaining;
      scanned ← (if n =? 32 then brr_get_BinaryData 32 else mret (topScannedBlkHash_ s));
      mret (mkSDBI magic top meta scanned applied ver type).

Definition sdbi_serialize (s : StoredDBInfo) : list byte :=
  let bits := bp_putBits 32 (armoryType_ s) 4 (bp_putBits 32 (armoryVer_ s) 16 bp_new) in
  theString_ (bw_put_BinaryData (topScannedBlkHash_ s)
    (bw_put_BinaryData (if zlen (metaHash_ s) =? 0 then EmptyHash else metaHash_ s)
      (bw_put_uint32_t (appliedToHgt_ s) LE (bw_put_uint32_t (topBlkHgt_ s) LE
        (bw_put_BitPacker 32 bits (bw_put_BinaryData (magic_ s) bw_new)))))).

(** ** [StoredHeader]

    The fields the HEADERS table uses; [None] for members without an
    initialiser. *)
Record StoredHeader := mkSBH {
  sbh_dataCopy : list byte;
  sbh_thisHash : list byte;
  sbh_numTx : Z;
  sbh_numBytes : Z;
  sbh_blockHeight : Z;
  sbh_duplicateID : Z;
  sbh_isMainBranch : bool;
  sbh_fileID : option Z;
  sbh_offset : option Z;
  sbh_uniqueID : Z;
}.

Definition StoredHeader_default : StoredHeader :=
  mkSBH [] [] UINT32_MAX UINT32_MAX UINT32_MAX UINT8_MAX false None None UINT32_MAX.

Definition sbh_isInitialized (s : StoredHeader) : bool := 0 <? zlen (sbh_dataCopy s).

(** A read of a member: not initialised is undefined. *)
Definition member {A} (o : option A) : result A := match o with Some a => Ok a | None => Err UB end.

Definition setKeyData (hgt dupID : Z) (s : StoredHeader) : StoredHeader :=
  mkSBH (sbh_dataCopy s) (sbh_thisHash s) (sbh_numTx s) (sbh_numBytes s) hgt dupID
    (sbh_isMainBranch s) (sbh_fileID s) (sbh_offset s) (sbh_uniqueID s).

Section formats.
Context `{HashFns}.

(** [setHeaderData]: anything but 80 bytes is logged and left out. *)
Definition setHeaderData (header80B : list byte) (s : StoredHeader) : StoredHeader :=
  if negb (zlen header80B =? HEADER_SIZE) then s
  else mkSBH header80B (getHash256 header80B) (sbh_numTx s) (sbh_numBytes s) (sbh_blockHeight s)
         (sbh_duplicateID s) (sbh_isMainBranch s) (sbh_fileID s) (sbh_offset s) (sbh_uniqueID s).

Definition createFromBlockHeader (bh : BlockHeader) (s : StoredHeader) : result StoredHeader :=
  if negb (isInitialized_ bh) then Ok s
  else
    let s := setHeaderData (dataCopy_ bh) s in
    numBytes ← member (numBlockBytes_ bh);
    Ok (mkSBH (sbh_dataCopy s) (sbh_thisHash s) (numTx_ bh) numBytes (blockHeight_ bh) UINT8_MAX
          (isMainBranch_ bh) (Some (wrap 16 (blkFileNum_ bh))) (Some (blkFileOffset_ bh)) (uniqueID_ bh)).

(** [serializeDBValue] for the HEADERS table. *)
Definition sbh_serialize (s : StoredHeader) : result (list byte) :=
  if negb (sbh_isInitialized s) then Ok []
  else
    fileID ← member (sbh_fileID s);
    offset ← member (sbh_offset s);
    Ok (theString_ (bw_put_uint32_t (sbh_uniqueID s) LE (bw_put_uint64_t offset LE
         (bw_put_uint16_t fileID LE (bw_put_uint32_t (sbh_numTx s) LE
         (bw_put_uint32_t (wrap 32 (sbh_numBytes s)) LE
         (bw_put_BinaryData (heightAndDupToHgtx (sbh_blockHeight s) (sbh_duplicateID s))
         (bw_put_BinaryData (sbh_dataCopy s) bw_new)))))))).

Definition brr_getSize : Reader Z := fun r => Ok (totalSize_ r, r).

Definition sbh_unserialize (s : StoredHeader) : Reader StoredHeader :=
  size ← brr_getSize;
  if size <? HEADER_SIZE + 26 then rthrow BlockDeserializing
  else
    data ← brr_get_BinaryData HEADER_SIZE;
    hgtx ← brr_get_BinaryData 4;
    height ← reader_of (hgtxToHeight hgtx);
    dup ← reader_of (hgtxToDupID hgtx);
    numBytes ← brr_get_uint32_t LE;
    numTx ← brr_get_uint32_t LE;
    fileID ← brr_get_uint16_t LE;
    offset ← brr_get_uint64_t LE;
    uniqueID ← brr_get_uint32_t LE;
    mret (mkSBH data (getHash256 data) numTx numBytes height dup (sbh_isMainBranch s)
            (Some fileID) (Some offset) uniqueID).
End formats.

(** ** [StoredHeadHgtList] *)

Record StoredHeadHgtList := mkHHL {
  hhl_height : Z;
  dupAndHashList_ : list (Z * list byte);
  preferredDup_ : Z;
}.

Fixpoint hhl_read_loop (numHeads : nat) (preferred : Z) : Reader (list (Z * list byte) * Z) :=
  match numHeads with
  | O => mret ([], preferred)
  | S n =>
      dup ← brr_get_uint8_t;
      hash ← brr_get_BinaryData 32;
      '(l, preferred) ← hhl_read_loop n (if 0 <? Z.land dup 0x80 then Z.land dup 0x7f else preferred);
      mret ((Z.land dup 0x7f, hash) :: l, preferred)
  end.

Definition hhl_unserialize : Reader (list (Z * list byte) * Z) :=
  numHeads ← brr_get_uint8_t; hhl_read_loop (Z.to_nat numHeads) UINT8_MAX.

(** One entry; [put_uint8_t] takes the low byte. *)
Definition hhl_put (dup : Z) (hash : list byte) (bw : BinaryWriter) : BinaryWriter :=
  bw_put_BinaryData hash (bw_put_uint8_t dup bw).

(** The first entry with the preferred id, marked by its top bit. *)
Fixpoint hhl_put_preferred (preferred : Z) (l : list (Z * list byte)) (bw : BinaryWriter) : BinaryWriter :=
  match l with
  | [] => bw
  | (dup, hash) :: l =>
      if negb (dup =? preferred) then hhl_put_preferred preferred l bw
      else hhl_put (Z.lor dup 0x80) hash bw
  end.

Fixpoint hhl_put_others (preferred : Z) (l : list (Z * list byte)) (bw : BinaryWriter) : BinaryWriter :=
  match l with
  | [] => bw
  | (dup, hash) :: l =>
      hhl_put_others preferred l
        (if dup =? preferred then bw else hhl_put (Z.land dup 0x7f) hash bw)
  end.

Definition hhl_serialize (h : StoredHeadHgtList) : list byte :=
  theString_ (hhl_put_others (preferredDup_ h) (dupAndHashList_ h)
    (hhl_put_preferred (preferredDup_ h) (dupAndHashList_ h)
      (bw_put_uint8_t (zlen (dupAndHashList_ h)) bw_new))).

Definition hhl_getDBKey (h : StoredHeadHgtList) (withPrefix : bool) : list byte :=
  theString_ (bw_put_uint32_t (hhl_height h) BE
    (if withPrefix then bw_put_uint8_t (prefix_val DB_PREFIX_HEADHGT) bw_new else bw_new)).

Definition hhl_unserializeDBKey (key : list byte) (h : StoredHeadHgtList) : Reader StoredHeadHgtList :=
  prefix ← (if zlen key =? 5 then brr_get_uint8_t else mret (prefix_val DB_PREFIX_HEADHGT));
  if negb (prefix =? prefix_val DB_PREFIX_HEADHGT) then mret h
  else height ← brr_get_uint32_t BE; mret (mkHHL height (dupAndHashList_ h) (preferredDup_ h)).

(** [addDupAndHash]: replaces the first entry with that id, or appends. *)
Fixpoint add_dup (dup : Z) (hash : list byte) (l : list (Z * list byte)) : list (Z * list byte) :=
  match l with
  | [] => [(dup, hash)]
  | (d, h) :: l => if d =? dup then (dup, hash) :: l else (d, h) :: add_dup dup hash l
  end.

Definition addDupAndHash (dup : Z) (hash : list byte) (h : StoredHeadHgtList) : StoredHeadHgtList :=
  mkHHL (hhl_height h) (add_dup dup hash (dupAndHashList_ h)) (preferredDup_ h).

Definition setPreferredDupID (newDup : Z) (h : StoredHeadHgtList) : StoredHeadHgtList :=
  mkHHL (hhl_height h) (dupAndHashList_ h) newDup.

(** ** [LMDBBlockDatabase]: the HEADERS table and the ids in memory *)

Record LMDBBlockDatabase (DB : Type) := mkLMDB {
  headers_ : DB;
  validDupByHeight_ : stdmap Z Z;
}.
Arguments mkLMDB {DB} _ _.
Arguments headers_ {DB} _.
Arguments validDupByHeight_ {DB} _.

Section database.
Context {DB : Type} `{Store DB} `{HashFns}.
Implicit Types db : LMDBBlockDatabase DB.

Definition Db (A : Type) : Type := LMDBBlockDatabase DB -> result (A * LMDBBlockDatabase DB).

#[export] Instance db_ret : MRet Db := fun A a db => Ok (a, db).
#[export] Instance db_bind : MBind Db := fun A B f m db =>
  match m db with Ok (a, db) => f a db | Err e => Err e end.

Definition db_throw {A} (e : exn) : Db A := fun _ => Err e.
Definition db_of {A} (r : result A) : Db A := fun db => a ← r; Ok (a, db).

(** A reader run on a value of the table. *)
Definition db_read {A} (m : Reader A) (value : list byte) : Db A := fun db =>
  match m (brr_setNewData value) with Ok (a, _) => Ok (a, db) | Err e => Err e end.

(** [getValueRef]: a missing key gives an empty value. *)
Definition getValueRef (key : list byte) : Db (list byte) := fun db =>
  Ok (default [] (db_get (headers_ db) key), db).
Definition getValueRef_prefix (prefix : DB_PREFIX) (key : list byte) : Db (list byte) :=
  getValueRef (theString_ (bw_put_BinaryData key (bw_put_uint8_t (prefix_val prefix) bw_new))).

Definition putValue (key value : list byte) : Db () := fun db =>
  Ok (tt, mkLMDB (db_insert key value (headers_ db)) (validDupByHeight_ db)).
Definition putValue_prefix (prefix : DB_PREFIX) (key value : list byte) : Db () :=
  putValue (theString_ (bw_put_BinaryData key (bw_put_uint8_t (prefix_val prefix) bw_new))) value.

Definition getValidDupIDForHeight (blockHgt : Z) : Db Z := fun db =>
  Ok (default UINT8_MAX (map_find blockHgt (validDupByHeight_ db)), db).

Definition setValidDupIDForHeight (blockHgt dup : Z) (overwrite : bool) : Db () := fun db =>
  let m := match map_find blockHgt (validDupByHeight_ db) with
           | None => map_put blockHgt UINT8_MAX (validDupByHeight_ db)
           | Some _ => validDupByHeight_ db
           end in
  let dupid := default UINT8_MAX (map_find blockHgt m) in
  Ok (tt, mkLMDB (headers_ db)
            (if negb overwrite && negb (dupid =? UINT8_MAX) then m else map_put blockHgt dup m)).

Definition putStoredDBInfo (sdbi : StoredDBInfo) (id : Z) : Db () :=
  if negb (sdbi_isInitialized sdbi) then db_throw RuntimeError
  else putValue (sdbi_getDBKey id) (sdbi_serialize sdbi).

Definition getStoredDBInfo (id : Z) : Db StoredDBInfo :=
  value ← getValueRef (sdbi_getDBKey id);
  if zlen value =? 0 then db_throw RuntimeError
  else db_read (sdbi_unserialize StoredDBInfo_default) value.

Definition putStoredHeadHgtList (hhl : StoredHeadHgtList) : Db bool :=
  if hhl_height hhl =? UINT32_MAX then mret false
  else _ ← putValue (hhl_getDBKey hhl true) (hhl_serialize hhl); mret true.

(** The list of a height, and whether the table has it. *)
Definition getStoredHeadHgtList (height : Z) : Db (StoredHeadHgtList * bool) :=
  value ← getValueRef_prefix DB_PREFIX_HEADHGT (be_bytes 4 height);
  if 0 <? zlen value then
    '(l, preferred) ← db_read hhl_unserialize value;
    mret (mkHHL height l preferred, true)
  else mret (mkHHL height [] UINT8_MAX, false).

(** The loop over the list: the largest id before the header, as an [int8_t],
    and the header's own id. *)
Fixpoint scan_dups (hash : list byte) (l : list (Z * list byte)) (maxDup : Z) : Z * option Z :=
  match l with
  | [] => (maxDup, None)
  | (dup, h) :: l =>
      let maxDup := Z.max maxDup (signed 8 dup) in
      if bool_decide (hash = h) then (maxDup, Some dup) else scan_dups hash l maxDup
  end.

(** The id of a header in the list of its height, the new list, and whether it
    has to be written. *)
Definition assign_dup (hash : list byte) (isMain updateDupID : bool) (hhl : StoredHeadHgtList)
    : Z * StoredHeadHgtList * bool :=
  match dupAndHashList_ hhl with
  | [] =>
      let hhl := addDupAndHash 0 hash hhl in
      (0, if isMain then setPreferredDupID 0 hhl else hhl, true)
  | l =>
      match scan_dups hash l (-1) with
      | (_, Some dup) =>
          if negb (preferredDup_ hhl =? dup) && isMain && updateDupID
          then (dup, setPreferredDupID dup hhl, true) else (dup, hhl, false)
      | (maxDup, None) =>
          let dup := wrap 8 (maxDup + 1) in
          let hhl := addDupAndHash dup hash hhl in
          (dup, if isMain && updateDupID then setPreferredDupID dup hhl else hhl, true)
      end
  end.

Definition putBareHeader (sbh : StoredHeader) (updateDupID updateSDBI : bool) : Db (Z * StoredHeader) :=
  if negb (sbh_isInitialized sbh) then mret (UINT8_MAX, sbh)
  else if sbh_blockHeight sbh =? UINT32_MAX then db_throw RuntimeError
  else
    sdbiH ← getStoredDBInfo 0;
    let height := sbh_blockHeight sbh in
    '(hhl, _) ← getStoredHeadHgtList height;
    let '(sbhDupID, hhl, needToWriteHHL) :=
      assign_dup (sbh_thisHash sbh) (sbh_isMainBranch sbh) updateDupID hhl in
    let sbh := setKeyData height sbhDupID sbh in
    _ ← (if (needToWriteHHL : bool) then putStoredHeadHgtList hhl else mret true);
    value ← db_of (sbh_serialize sbh);
    _ ← putValue_prefix DB_PREFIX_HEADHASH (sbh_thisHash sbh) value;
    _ ← (if sbh_isMainBranch sbh then
           _ ← setValidDupIDForHeight height sbhDupID updateDupID;
           if updateSDBI then
             sdbiH ← getStoredDBInfo 0;
             if topBlkHgt_ sdbiH <=? height then
               putStoredDBInfo (mkSDBI (magic_ sdbiH) height (metaHash_ sdbiH)
                 (topScannedBlkHash_ sdbiH) (appliedToHgt_ sdbiH) (armoryVer_ sdbiH)
                 (armoryType_ sdbiH)) 0
             else mret tt
           else mret tt
         else mret tt);
    mret (sbhDupID, sbh).

(** [getBareHeader]: [None] where the code returns false; the members the
    format does not hold come from a new [StoredHeader]. *)
Definition getBareHeader_hash (headHash : list byte) : Db (option StoredHeader) :=
  value ← getValueRef_prefix DB_PREFIX_HEADHASH headHash;
  if zlen value =? 0 then mret None
  else sbh ← db_read (sbh_unserialize StoredHeader_default) value; mret (Some sbh).

Fixpoint find_hash (dup : Z) (l : list (Z * list byte)) : option (list byte) :=
  match l with
  | [] => None
  | (d, h) :: l => if dup =? d then Some h else find_hash dup l
  end.

Definition getBareHeader (blockHgt dup : Z) : Db (option StoredHeader) :=
  '(hhl, found) ← getStoredHeadHgtList blockHgt;
  if negb found then mret None
  else match find_hash dup (dupAndHashList_ hhl) with
       | Some hash => getBareHeader_hash hash
       | None => mret None
       end.

Definition getBareHeader_main (blockHgt : Z) : Db (option StoredHeader) :=
  dupID ← getValidDupIDForHeight blockHgt; getBareHeader blockHgt dupID.

(** [markBlockHeaderValid(height, dup)] and [markBlockHeaderValid(headHash)]. *)
Definition markBlockHeaderValid (height dup : Z) : Db bool :=
  '(hhl, _) ← getStoredHeadHgtList height;
  if preferredDup_ hhl =? dup then mret true
  else if existsb (fun e => e.1 =? dup) (dupAndHashList_ hhl) then
    _ ← putStoredHeadHgtList (setPreferredDupID dup hhl);
    _ ← setValidDupIDForHeight height dup true;
    mret true
  else mret false.

Definition markBlockHeaderValid_hash (headHash : list byte) : Db bool :=
  value ← getValueRef_prefix DB_PREFIX_HEADHASH headHash;
  if zlen value =? 0 then mret false
  else
    hgtx ← db_read (_ ← (fun r => Ok (tt, brr_advance HEADER_SIZE r)); brr_get_BinaryData 4) value;
    height ← db_of (hgtxToHeight hgtx);
    dup ← db_of (hgtxToDupID hgtx);
    markBlockHeaderValid height dup.
End database.
