(* ===== verification/HeadersDBFormat.v ===== *)
(** * HeadersDBFormat: the records of the headers database

    The formats of the height lists, of stored headers and of the database
    info round trip, and [assign_dup], which gives a header its duplicate id,
    keeps the ids of a height at 0, 1, 2, ... *)

From S2P Require Import Prelude BinaryData BinaryIO Hashing StdMap DBUtils BlockHeader HeadersDB.

(** ** The format of the height lists *)

Section hhl.
Implicit Types (l : list (Z * list byte)) (p : Z) (e : Z * list byte).

(** The entries as they are written: the preferred one first. *)
Definition hhl_order p l : list (Z * list byte) :=
  filter (fun e => e.1 = p) l ++ filter (fun e => e.1 ≠ p) l.

Definition entry_bytes p e : list byte :=
  z2b (if e.1 =? p then Z.lor e.1 0x80 else Z.land e.1 0x7f) :: e.2.

Definition hhl_bytes p l : list byte :=
  z2b (zlen l) :: concat (map (entry_bytes p) (hhl_order p l)).

(** Ids of one byte, none twice, and hashes of 32 bytes. *)
Record entries_wide l : Prop := {
  ew_range : Forall (fun e => 0 <= e.1 < 256 /\ zlen e.2 = 32) l;
  ew_dups : NoDup (map fst l);
}.

(** The same with ids of seven bits, what the format can hold. *)
Record entries_ok l : Prop := {
  eo_range : Forall (fun e => 0 <= e.1 < 128 /\ zlen e.2 = 32) l;
  eo_dups : NoDup (map fst l);
}.

Lemma entries_ok_wide l : entries_ok l -> entries_wide l.
Proof. intros [Hr Hd]. split; [|done]. eapply Forall_impl; [exact Hr|]. simpl. intros e ?. lia. Qed.

Lemma entries_wide_cons e l : entries_wide (e :: l) ->
  (0 <= e.1 < 256 /\ zlen e.2 = 32) /\ e.1 ∉ map fst l /\ entries_wide l.
Proof.
  intros [Hr Hd]. inversion Hr; subst. apply NoDup_cons in Hd as [? ?]. done.
Qed.

(** The top bit marks an entry: all ids of one byte. *)
Lemma mark_bits d : 0 <= d < 256 ->
  is_uint 8 (Z.lor d 128) /\ is_uint 8 (Z.land d 127) /\
  Z.land (Z.lor d 128) 127 = Z.land d 127 /\ (0 <? Z.land (Z.lor d 128) 128) = true /\
  Z.land (Z.land d 127) 127 = Z.land d 127 /\ (0 <? Z.land (Z.land d 127) 128) = false.
Proof.
  intros Hd.
  assert (forallb (fun n => let d := Z.of_nat n in
    (bool_decide (is_uint 8 (Z.lor d 128)) && (bool_decide (is_uint 8 (Z.land d 127)) &&
    ((Z.land (Z.lor d 128) 127 =? Z.land d 127) && ((0 <? Z.land (Z.lor d 128) 128) &&
    ((Z.land (Z.land d 127) 127 =? Z.land d 127) && negb (0 <? Z.land (Z.land d 127) 128))))))) (seq 0 256)
    = true) as E by (vm_compute; reflexivity).
  rewrite forallb_forall in E. specialize (E (Z.to_nat d)).
  rewrite Z2Nat.id in E by lia.
  rewrite !andb_true_iff, !bool_decide_eq_true, !Z.eqb_eq, negb_true_iff in E.
  apply E. apply in_seq. lia.
Qed.

Lemma land_127 d : 0 <= d < 128 -> Z.land d 127 = d.
Proof. intros. change 127 with (Z.ones 7). rewrite Z.land_ones by lia. by apply Z.mod_small. Qed.

Lemma filter_eq_nil p l : p ∉ map fst l -> filter (fun e => e.1 = p) l = [].
Proof.
  induction l as [|e l IH]; [done|]. simpl. intros [? ?]%not_elem_of_cons.
  rewrite filter_cons_False by done. by apply IH.
Qed.

Lemma hhl_put_str d h bw : theString_ (hhl_put d h bw) = theString_ bw ++ z2b d :: h.
Proof. unfold hhl_put. autorewrite with bw. by rewrite <- app_assoc. Qed.

Lemma hhl_put_preferred_str p l bw : NoDup (map fst l) ->
  theString_ (hhl_put_preferred p l bw) =
  theString_ bw ++ concat (map (entry_bytes p) (filter (fun e => e.1 = p) l)).
Proof.
  revert bw. induction l as [|[d h] l IH]; intros bw Hnd; simpl; [by rewrite app_nil_r|].
  simpl in Hnd. apply NoDup_cons in Hnd as [Hd Hnd].
  destruct (Z.eqb_spec d p) as [->|Hne]; cbn [negb].
  - rewrite filter_cons_True by done. rewrite filter_eq_nil, hhl_put_str by done.
    simpl. unfold entry_bytes. simpl. by rewrite Z.eqb_refl, app_nil_r.
  - rewrite filter_cons_False by done. by apply IH.
Qed.

Lemma hhl_put_others_str p l bw :
  theString_ (hhl_put_others p l bw) =
  theString_ bw ++ concat (map (entry_bytes p) (filter (fun e => e.1 ≠ p) l)).
Proof.
  revert bw. induction l as [|[d h] l IH]; intros bw; simpl; [by rewrite app_nil_r|].
  rewrite IH. destruct (Z.eqb_spec d p) as [->|Hne].
  - by rewrite filter_cons_False by (simpl; lia).
  - rewrite filter_cons_True by done. rewrite hhl_put_str. simpl. unfold entry_bytes at 2. simpl.
    by rewrite (proj2 (Z.eqb_neq d p) Hne), <- app_assoc.
Qed.

Lemma hhl_serialize_bytes h : NoDup (map fst (dupAndHashList_ h)) ->
  hhl_serialize h = hhl_bytes (preferredDup_ h) (dupAndHashList_ h).
Proof.
  intros Hd. unfold hhl_serialize, hhl_bytes, hhl_order.
  rewrite hhl_put_others_str, hhl_put_preferred_str by done. autorewrite with bw.
  rewrite map_app, concat_app. by rewrite <- app_assoc.
Qed.

Lemma preferred_cons p d (l : list Z) q :
  (if decide (p ∈ d :: l) then Z.land p 127 else q) =
  if decide (p ∈ l) then Z.land p 127 else if d =? p then Z.land d 127 else q.
Proof.
  destruct (Z.eqb_spec d p) as [->|Hne].
  - rewrite decide_True by by left. by case_decide.
  - assert (p ∈ d :: l <-> p ∈ l) as E by (rewrite elem_of_cons; naive_solver).
    by apply decide_ext.
Qed.

(** The seven bits of an id the format keeps. *)
Definition low_entry e : Z * list byte := (Z.land e.1 127, e.2).

(** Reading entries of which at most the preferred one is marked. *)
Lemma hhl_read_loop_parses p l : Forall (fun e => 0 <= e.1 < 256 /\ zlen e.2 = 32) l -> forall q,
  parses (hhl_read_loop (length l) q) (concat (map (entry_bytes p) l))
    (map low_entry l, if decide (p ∈ map fst l) then Z.land p 127 else q).
Proof.
  induction 1 as [|[d h] l [Hd Hh] _ IH]; intros q; simpl; [apply parses_ret|].
  simpl in Hd, Hh. set (v := if d =? p then Z.lor d 128 else Z.land d 127).
  assert (is_uint 8 v /\ Z.land v 127 = Z.land d 127 /\ (0 <? Z.land v 128) = (d =? p)) as (Hv & H1 & H2).
  { unfold v. destruct (mark_bits d Hd) as (E1 & E2 & E3 & E4 & E5 & E6).
    destruct (d =? p); rewrite ?E3, ?E4, ?E5, ?E6; done. }
  eapply (parses_bind _ _ [z2b v]); [by apply brr_get_uint8_t_parses|].
  eapply parses_bind; [by apply brr_get_BinaryData_parses|]. rewrite H1, H2.
  eapply parses_bind_ret; [by apply IH|].
  rewrite (preferred_cons p d (map fst l) q). apply parses_ret.
Qed.

Lemma hhl_order_perm p l : hhl_order p l ≡ₚ l.
Proof. unfold hhl_order. apply filter_app_complement. Qed.

Lemma entries_ok_perm l l' : l ≡ₚ l' -> entries_ok l -> entries_ok l'.
Proof.
  intros Hp [Hr Hd]. split; [by rewrite <- Hp|].
  assert (map fst l ≡ₚ map fst l') as <- by (by apply Permutation_map). done.
Qed.

Lemma zlen_hhl_bytes p l : entries_wide l -> zlen (hhl_bytes p l) = 1 + 33 * zlen l.
Proof.
  intros [Hr _]. unfold hhl_bytes. rewrite zlen_cons.
  assert (zlen (hhl_order p l) = zlen l) as <- by (unfold zlen; by rewrite hhl_order_perm).
  rewrite <- (hhl_order_perm p l) in Hr. induction Hr as [|[d h] l' [_ Hh] _ IH]; [done|].
  simpl concat. simpl in Hh. autorewrite with zlen in *. simpl. lia.
Qed.

(** The list read back: the preferred entry is first, and the preferred id is
    forgotten when the list does not have it. *)
Lemma hhl_unserialize_wide p l : entries_wide l -> zlen l < 256 ->
  parses hhl_unserialize (hhl_bytes p l)
    (map low_entry (hhl_order p l), if decide (p ∈ map fst l) then Z.land p 127 else UINT8_MAX).
Proof.
  intros He Hl. unfold hhl_unserialize, hhl_bytes.
  eapply (parses_bind _ _ [z2b (zlen l)]);
    [apply brr_get_uint8_t_parses; unfold is_uint; pose proof (zlen_nonneg l); lia|].
  assert (Z.to_nat (zlen l) = length (hhl_order p l)) as ->
    by (unfold zlen; rewrite Nat2Z.id; symmetry; apply Permutation_length, hhl_order_perm).
  assert ((if decide (p ∈ map fst l) then Z.land p 127 else UINT8_MAX) =
    if decide (p ∈ map fst (hhl_order p l)) then Z.land p 127 else UINT8_MAX) as ->.
  { apply decide_ext. by rewrite (Permutation_map fst (hhl_order_perm p l)). }
  apply hhl_read_loop_parses. rewrite hhl_order_perm. apply He.
Qed.

Lemma low_entry_id l : Forall (fun e => 0 <= e.1 < 128 /\ zlen e.2 = 32) l -> map low_entry l = l.
Proof.
  induction 1 as [|[d h] l [Hd _] _ IH]; [done|]. simpl. unfold low_entry at 1. simpl.
  by rewrite land_127, IH.
Qed.

Lemma hhl_unserialize_parses p l : entries_ok l -> zlen l < 256 ->
  parses hhl_unserialize (hhl_bytes p l)
    (hhl_order p l, if decide (p ∈ map fst l) then p else UINT8_MAX).
Proof.
  intros He Hl. pose proof (hhl_unserialize_wide p l (entries_ok_wide _ He) Hl) as Hp.
  rewrite low_entry_id in Hp by (rewrite hhl_order_perm; apply He).
  case_decide as Hin; [|done]. rewrite land_127 in Hp; [done|].
  apply list_elem_of_fmap in Hin as (e & -> & He'). pose proof (eo_range _ He) as Hr.
  rewrite Forall_forall in Hr. by apply Hr.
Qed.
End hhl.

(** ** The formats of the other records *)

(** What the format of [StoredHeader] can hold. *)
Record sbh_ok (s : StoredHeader) : Prop := {
  so_data : zlen (sbh_dataCopy s) = HEADER_SIZE;
  so_key : hgtx_ok (sbh_blockHeight s) (sbh_duplicateID s);
  so_numTx : is_uint 32 (sbh_numTx s);
  so_numBytes : is_uint 32 (sbh_numBytes s);
  so_file : exists f, sbh_fileID s = Some f /\ is_uint 16 f;
  so_offset : exists o, sbh_offset s = Some o /\ is_uint 64 o;
  so_id : is_uint 32 (sbh_uniqueID s);
}.

Section records.
Context `{HashFns}.

(** The members as they are read back; the format has no main-branch flag. *)
Definition sbh_stored (s : StoredHeader) (isMain : bool) : StoredHeader :=
  mkSBH (sbh_dataCopy s) (getHash256 (sbh_dataCopy s)) (sbh_numTx s) (sbh_numBytes s)
    (sbh_blockHeight s) (sbh_duplicateID s) isMain (sbh_fileID s) (sbh_offset s) (sbh_uniqueID s).

Lemma bind_getSize {A} (f : Z -> Reader A) bs :
  (brr_getSize ≫= f) (brr_setNewData bs) = f (zlen bs) (brr_setNewData bs).
Proof. done. Qed.

Lemma sbh_serialize_bytes s f o : zlen (sbh_dataCopy s) = HEADER_SIZE ->
  sbh_fileID s = Some f -> sbh_offset s = Some o ->
  sbh_serialize s = Ok (sbh_dataCopy s ++ heightAndDupToHgtx (sbh_blockHeight s) (sbh_duplicateID s) ++
    int_to LE 4 (wrap 32 (sbh_numBytes s)) ++ int_to LE 4 (sbh_numTx s) ++ int_to LE 2 f ++
    int_to LE 8 o ++ int_to LE 4 (sbh_uniqueID s)).
Proof.
  intros Hd Ef Eo. unfold sbh_serialize, sbh_isInitialized, member, mbind, result_bind.
  rewrite Hd, Ef, Eo. cbv beta iota. change (0 <? HEADER_SIZE) with true. cbn [negb].
  autorewrite with bw. by rewrite ?app_nil_l, <- ?app_assoc.
Qed.

Lemma sbh_roundtrip s s0 : sbh_ok s -> exists bs, sbh_serialize s = Ok bs /\ zlen bs = HEADER_SIZE + 26 /\
  exists r, sbh_unserialize s0 (brr_setNewData bs) = Ok (sbh_stored s (sbh_isMainBranch s0), r).
Proof.
  intros [Hd [Hh Hdup] Htx Hb (f & Ef & Hf) (o & Eo & Ho) Hid].
  rewrite (sbh_serialize_bytes s f o) by done. rewrite (wrap_small 32) by done.
  eexists. split; [reflexivity|].
  match goal with |- zlen ?l = _ /\ _ => set (bs := l) end.
  assert (zlen bs = HEADER_SIZE + 26) as Hl.
  { unfold bs. autorewrite with zlen. rewrite Hd, zlen_hgtx. done. }
  split; [exact Hl|]. unfold sbh_unserialize.
  rewrite bind_getSize, Hl, Z.ltb_irrefl.
  eexists. apply parses_whole; [|by rewrite Hl]. unfold bs.
  rewrite <- (app_nil_r (int_to LE 4 (sbh_uniqueID s))).
  eapply parses_bind; [by apply brr_get_BinaryData_parses|].
  eapply parses_bind; [by apply brr_get_BinaryData_parses, zlen_hgtx|].
  rewrite <- (app_nil_l (int_to LE 4 (sbh_numBytes s) ++ _)).
  eapply parses_bind; [apply reader_of_parses, hgtxToHeight_hgtx; lia|].
  rewrite <- (app_nil_l (int_to LE 4 (sbh_numBytes s) ++ _)).
  eapply parses_bind; [apply reader_of_parses, hgtxToDupID_hgtx; lia|].
  eapply parses_bind; [by apply brr_get_uint32_t_parses|].
  eapply parses_bind; [by apply brr_get_uint32_t_parses|].
  eapply parses_bind; [by apply brr_get_uint16_t_parses|].
  eapply parses_bind; [by apply brr_get_uint64_t_parses|].
  eapply parses_bind; [by apply brr_get_uint32_t_parses|].
  rewrite !Z.mod_small by lia. rewrite <- Ef, <- Eo. apply parses_ret.
Qed.

(** What the format of [StoredDBInfo] can hold. *)
Record sdbi_ok (s : StoredDBInfo) : Prop := {
  di_magic : zlen (magic_ s) = 4;
  di_top : is_uint 32 (topBlkHgt_ s);
  di_applied : is_uint 32 (appliedToHgt_ s);
  di_meta : zlen (metaHash_ s) = 32;
  di_scanned : topScannedBlkHash_ s = [] \/ zlen (topScannedBlkHash_ s) = 32;
  di_ver : armoryVer_ s = ARMORY_DB_VERSION;
  di_type : 0 <= armoryType_ s < 16;
}.

(** A read of the next field, from the sizes of the fields. *)
Ltac in_buffer Hm Hbl Hmeta := autorewrite with zlen; rewrite ?Hm, ?Hbl, ?Hmeta; unfold two64; lia.

Lemma sdbi_roundtrip s : sdbi_ok s -> 0 < zlen (sdbi_serialize s) /\
  exists r, sdbi_unserialize StoredDBInfo_default (brr_setNewData (sdbi_serialize s)) = Ok (s, r).
Proof.
  intros [Hm Ht Ha Hmeta Hs Hv Hty]. unfold sdbi_serialize, bw_put_BitPacker.
  rewrite Hmeta. change (32 =? 0) with false. cbv iota.
  autorewrite with bw. rewrite ?app_nil_l, <- ?app_assoc.
  set (fs := [(16, armoryVer_ s); (4, armoryType_ s)]).
  assert (Forall field_ok fs) as Hfs.
  { unfold fs. rewrite Hv. repeat constructor; simpl; unfold ARMORY_DB_VERSION; lia. }
  change (bp_putBits 32 (armoryType_ s) 4 (bp_putBits 32 (armoryVer_ s) 16 bp_new)) with
    (pack_fields 32 fs bp_new).
  pose proof (bu_read_parses 32 fs ltac:(auto) Hfs ltac:(done)) as Hbits. cbv zeta in Hbits.
  pose proof (unpack_pack_from 32 0 0 bp_new fs (bu_setValue (bp_intVal (pack_fields 32 fs bp_new)))
    ltac:(lia) ltac:(done) Hfs (bp_new_holds 32) eq_refl eq_refl) as Hun.
  set (bits := bp_getBinaryData 32 _) in *.
  assert (zlen bits = 4) as Hbl by (unfold bits, bp_getBinaryData, IntToStrBE; by rewrite zlen_be_bytes).
  set (tail := topScannedBlkHash_ s).
  assert (zlen tail = 0 \/ zlen tail = 32) as Htail by (unfold tail; destruct Hs as [->|]; auto).
  match goal with |- 0 < zlen ?l /\ _ => set (bs := l) end.
  assert (zlen bs = 48 + zlen tail) as Hl.
  { unfold bs. autorewrite with zlen. rewrite Hm, Hbl, Hmeta. lia. }
  split; [lia|]. unfold sdbi_unserialize. rewrite brr_setNewData_at.
  unfold mbind at 1, reader_bind at 1, remaining at 1.
  rewrite brr_remaining_at by (rewrite app_nil_l; unfold two64; lia). rewrite Hl.
  replace (48 + zlen tail <? 44) with false by lia. unfold bs.
  erewrite bind_parses; [|by apply brr_get_BinaryData_parses|in_buffer Hm Hbl Hmeta].
  erewrite bind_parses; [|exact Hbits|in_buffer Hm Hbl Hmeta].
  unfold fs in Hun. cbn [unpack_fields map fst snd] in Hun. fold fs in Hun.
  destruct (bu_getBits 32 16 _) as [ver u1]. destruct (bu_getBits 32 4 u1) as [type u2].
  injection Hun as -> ->. rewrite Hv, Z.eqb_refl. cbn [negb].
  erewrite bind_parses; [|by apply brr_get_uint32_t_parses|in_buffer Hm Hbl Hmeta].
  erewrite bind_parses; [|by apply brr_get_uint32_t_parses|in_buffer Hm Hbl Hmeta].
  erewrite bind_parses; [|by apply brr_get_BinaryData_parses|in_buffer Hm Hbl Hmeta].
  unfold mbind at 1, reader_bind at 1, remaining.
  rewrite brr_remaining_at by in_buffer Hm Hbl Hmeta. fold tail. destruct Hs as [Hs|Hs].
  - replace (zlen tail =? 32) with false by (unfold tail; by rewrite Hs).
    eexists. unfold mbind, reader_bind, mret, reader_ret. cbv beta iota.
    simpl topScannedBlkHash_ at 1. rewrite <- Hs, <- Hv. by destruct s.
  - replace (zlen tail =? 32) with true by (unfold tail; rewrite Hs; done).
    rewrite <- (app_nil_r tail).
    erewrite bind_parses; [|by apply brr_get_BinaryData_parses|in_buffer Hm Hbl Hmeta].
    eexists. rewrite <- Hv. destruct s; reflexivity.
Qed.
End records.

(** ** Duplicate ids *)

(** The list of a height as [putBareHeader] builds it: the ids are 0, 1, ... in
    some order, and the preferred one is among them or unset. *)
Record list_ok (l : list (Z * list byte)) (p : Z) : Prop := {
  lo_ids : map fst l ≡ₚ seqZ 0 (zlen l);
  lo_hashes : Forall (fun e => zlen e.2 = 32) l;
  lo_size : zlen l <= 128;
  lo_preferred : p = UINT8_MAX \/ 0 <= p < zlen l;
}.

Section ids.
Implicit Types (l : list (Z * list byte)) (p : Z).

Lemma list_ok_ids l p d : list_ok l p -> d ∈ map fst l <-> 0 <= d < zlen l.
Proof. intros H. rewrite (lo_ids _ _ H), elem_of_seqZ. lia. Qed.

Lemma list_ok_entries l p : list_ok l p -> entries_ok l.
Proof.
  intros H. split.
  - pose proof (lo_hashes _ _ H) as Hh. rewrite Forall_forall in Hh |- *. intros e He.
    split; [|by apply Hh]. assert (e.1 ∈ map fst l) as Hi by (by apply list_elem_of_fmap_2).
    apply (list_ok_ids _ _ _ H) in Hi. pose proof (lo_size _ _ H). lia.
  - rewrite (lo_ids _ _ H). apply NoDup_seqZ.
Qed.

Lemma list_ok_perm l l' p : l ≡ₚ l' -> list_ok l p -> list_ok l' p.
Proof.
  intros Hp [H1 H2 H3 H4]. assert (zlen l' = zlen l) as E by (unfold zlen; by rewrite Hp).
  split; rewrite ?E; [|by rewrite <- Hp|done..].
  assert (map fst l ≡ₚ map fst l') as <- by (by apply Permutation_map). done.
Qed.

Lemma list_ok_nil : list_ok [] UINT8_MAX.
Proof. split; [done|done|done|by left]. Qed.

Lemma list_ok_preferred l p d : list_ok l p -> 0 <= d < zlen l -> list_ok l d.
Proof. intros [] Hd. split; try done. by right. Qed.

Lemma list_ok_snoc l p hash : list_ok l p -> zlen l < 128 -> zlen hash = 32 ->
  list_ok (l ++ [(zlen l, hash)]) p.
Proof.
  intros [H1 H2 H3 H4] Hl Hh. pose proof (zlen_nonneg l).
  assert (zlen (l ++ [(zlen l, hash)]) = zlen l + 1) as E by (autorewrite with zlen; lia).
  split; rewrite ?E; [| |lia|destruct H4; [by left|right; lia]].
  - rewrite map_app, H1. simpl. rewrite seqZ_app by lia. apply Permutation_app_head.
    rewrite seqZ_cons by lia. simpl. by rewrite Z.add_0_l.
  - apply Forall_app. split; [done|]. by repeat constructor.
Qed.

Lemma find_hash_elem l p d hash : list_ok l p -> (d, hash) ∈ l -> find_hash d l = Some hash.
Proof.
  intros H%list_ok_entries. pose proof (eo_dups _ H) as Hnd. clear H.
  induction l as [|[d' h'] l IH]; intros Hin; [by apply elem_of_nil in Hin|]. simpl in *.
  apply NoDup_cons in Hnd as [Hn Hnd]. apply elem_of_cons in Hin as [[= -> ->]|Hin].
  - by rewrite Z.eqb_refl.
  - assert (d ∈ map fst l) by (by apply (list_elem_of_fmap_2 fst _ (d, hash))).
    destruct (Z.eqb_spec d d') as [->|]; [done|by apply IH].
Qed.

Lemma add_dup_new d hash l : d ∉ map fst l -> add_dup d hash l = l ++ [(d, hash)].
Proof.
  induction l as [|[d' h'] l IH]; [done|]. simpl. intros [? ?]%not_elem_of_cons.
  rewrite (proj2 (Z.eqb_neq d' d)) by done. by rewrite IH.
Qed.

Lemma signed_8 d : 0 <= d < 128 -> signed 8 d = d.
Proof.
  intros H. unfold signed. rewrite wrap_small by (unfold is_uint; lia).
  by rewrite decide_True by (change (2 ^ (8 - 1)) with 128; lia).
Qed.

(** The scan finds the header, or the largest id. *)
Lemma scan_dups_spec hash l : Forall (fun e => 0 <= e.1 < 128) l -> forall m,
  match scan_dups hash l m with
  | (_, Some d) => (d, hash) ∈ l
  | (x, None) => hash ∉ map snd l /\ (x = m \/ x ∈ map fst l) /\ m <= x /\
      forall d, d ∈ map fst l -> d <= x
  end.
Proof.
  induction 1 as [|[d h] l Hd Hl IH]; intros m; simpl.
  { split; [by apply not_elem_of_nil|]. split; [by left|]. split; [lia|]. by intros ? ?%elem_of_nil. }
  simpl in Hd. rewrite (signed_8 d Hd). case_bool_decide as E; [subst; by left|].
  specialize (IH (Z.max m d)). destruct (scan_dups hash l (Z.max m d)) as [x [d'|]]; [by right|].
  destruct IH as (H1 & H2 & H3 & H4). split; [by apply not_elem_of_cons|]. split.
  - destruct H2 as [->|H2]; [|right; by right].
    destruct (Z.max_spec m d) as [[_ ->]|[_ ->]]; [right; by left|by left].
  - split; [lia|]. intros d' [->|Hin]%elem_of_cons; [lia|by apply H4].
Qed.

Definition listed hash l : Prop := hash ∈ map snd l.
#[export] Instance listed_dec hash l : Decision (listed hash l).
Proof. unfold listed. apply _. Defined.

(** The id [putBareHeader] gives a header. *)
Lemma assign_dup_spec hash isMain upd h l p : list_ok l p -> zlen hash = 32 ->
  (listed hash l \/ zlen l < 128) ->
  exists dup w, let l' := if decide (listed hash l) then l else l ++ [(dup, hash)] in
    let p' := if isMain && (upd || bool_decide (l = [])) then dup else p in
    assign_dup hash isMain upd (mkHHL h l p) = (dup, mkHHL h l' p', w) /\
    list_ok l' p' /\ (dup, hash) ∈ l' /\ (~ listed hash l -> dup = zlen l) /\
    (w = false -> l' = l /\ p' = p /\ l ≠ []).
Proof.
  intros Hok Hh Hroom. unfold assign_dup. simpl dupAndHashList_. simpl preferredDup_.
  destruct l as [|e0 l0] eqn:El.
  { exists 0, true. simpl. rewrite orb_true_r, andb_true_r. split; [by destruct isMain|].
    assert (list_ok [(0, hash)] p) as Ho by (apply (list_ok_snoc [] p hash Hok); done).
    split; [destruct isMain; [by eapply list_ok_preferred|done]|].
    split; [by left|]. by split. }
  rewrite <- El in *. assert (l ≠ []) as Hne by (by rewrite El). clear El e0 l0.
  rewrite (bool_decide_false (l = [])), orb_false_r by done.
  pose proof (eo_range _ (list_ok_entries _ _ Hok)) as Hr.
  assert (Forall (fun e => 0 <= e.1 < 128) l) as Hr' by (eapply Forall_impl; [exact Hr|naive_solver]).
  pose proof (scan_dups_spec hash l Hr' (-1)) as Hscan.
  destruct (scan_dups hash l (-1)) as [x [d|]].
  - assert (listed hash l) as Hli by (apply (list_elem_of_fmap_2 snd l (d, hash) Hscan)).
    assert (0 <= d < zlen l) as Hd.
    { apply (list_ok_ids _ _ _ Hok). apply (list_elem_of_fmap_2 fst l (d, hash) Hscan). }
    destruct (Z.eqb_spec p d) as [->|Hpd]; cbn [negb andb].
    + exists d, false. rewrite decide_True by done. simpl.
      assert ((if isMain && upd then d else d) = d) as -> by (by destruct (isMain && upd)).
      split; [done|]. split; [done|]. split; [done|]. by split.
    + exists d, (isMain && upd). rewrite decide_True by done. simpl.
      destruct (isMain && upd).
      * split; [done|]. split; [by eapply list_ok_preferred|]. split; [done|]. by split.
      * split; [done|]. split; [done|]. split; [done|]. by split.
  - destruct Hscan as (Hn & Hx & Hm & Hmax). destruct Hroom as [?|Hroom]; [done|].
    assert (0 < zlen l) as Hpos by (destruct l; [done|rewrite zlen_cons; pose proof (zlen_nonneg l); lia]).
    assert (x = zlen l - 1) as ->.
    { assert (0 ∈ map fst l) as H0 by (apply (list_ok_ids _ _ _ Hok); lia).
      assert (zlen l - 1 ∈ map fst l) as H1 by (apply (list_ok_ids _ _ _ Hok); lia).
      apply Hmax in H0, H1. destruct Hx as [->|Hx]; [lia|].
      apply (list_ok_ids _ _ _ Hok) in Hx. lia. }
    replace (zlen l - 1 + 1) with (zlen l) by lia. rewrite wrap_small by (unfold is_uint; lia).
    exists (zlen l), true. rewrite decide_False by done. unfold addDupAndHash. simpl.
    assert (zlen l ∉ map fst l) as Hz by (intros Hi%(list_ok_ids _ _ _ Hok); lia).
    rewrite add_dup_new by done. pose proof (list_ok_snoc l p hash Hok Hroom Hh) as Hs.
    destruct (isMain && upd); (split; [done|]).
    + split; [eapply list_ok_preferred; [exact Hs|autorewrite with zlen; lia]|].
      split; [apply elem_of_app; right; by left|]. by split.
    + split; [done|]. split; [apply elem_of_app; right; by left|]. by split.
Qed.
End ids.
