(* ===== verification/HeadersDBProps.v ===== *)
(** * HeadersDBProps: the theorems about the headers database

    [putBareHeader] gives every header of a height its own duplicate id, keeps
    the lists of the other heights, and what it stores is found again by hash
    and by height. *)

From S2P Require Import Prelude BinaryData BinaryIO Hashing StdMap DBUtils BlockHeader HeadersDB.
From S2P Require Import HeadersDBFormat.

(** ** Keys *)

Definition hgt_key (height : Z) : list byte := z2b 2 :: be_bytes 4 height.
Definition hash_key (hash : list byte) : list byte := z2b 1 :: hash.
Definition info_key : list byte := sdbi_getDBKey 0.

Lemma hgt_key_inj h h' : is_uint 32 h -> is_uint 32 h' -> hgt_key h = hgt_key h' -> h = h'.
Proof.
  intros Hh Hh' [= E]. assert (be_val (be_bytes 4 h) = be_val (be_bytes 4 h')) as E'
    by (unfold be_bytes; simpl; congruence).
  rewrite !be_val_be_bytes in E'. change (256 ^ Z.of_nat 4) with (2 ^ 32) in E'.
  rewrite !Z.mod_small in E' by done. done.
Qed.

Lemma hgt_hash_key h hash : hgt_key h ≠ hash_key hash.
Proof. by intros [=]. Qed.
Lemma hgt_info_key h : hgt_key h ≠ info_key.
Proof. by intros [=]. Qed.
Lemma hash_info_key hash : hash_key hash ≠ info_key.
Proof. by intros [=]. Qed.
Lemma hash_key_inj h h' : hash_key h = hash_key h' -> h = h'.
Proof. by intros [=]. Qed.
#[local] Hint Resolve hgt_hash_key hgt_info_key hash_info_key not_eq_sym : core.

Section props.
Context {DB : Type} `{StoreLaws DB} `{HashFns}.
Implicit Types db : LMDBBlockDatabase DB.

Lemma db_bind_ok {A B} (m : Db A) (f : A -> Db B) db a db' :
  m db = Ok (a, db') -> (m ≫= f) db = f a db'.
Proof. intros E. unfold mbind, db_bind. by rewrite E. Qed.

Definition value_at db (key : list byte) : list byte := default [] (db_get (headers_ db) key).

Lemma value_at_put db k v j vd : value_at (mkLMDB (db_insert k v (headers_ db)) vd) j =
  if decide (j = k) then v else value_at db j.
Proof. unfold value_at. simpl. rewrite db_get_insert. by case_decide. Qed.

(** The value of a key of the table, read. *)
Definition read_hgt (height : Z) (value : list byte) : result (StoredHeadHgtList * bool) :=
  if 0 <? zlen value then
    '((l, p), _) ← hhl_unserialize (brr_setNewData value); Ok (mkHHL height l p, true)
  else Ok (mkHHL height [] UINT8_MAX, false).

Lemma getStoredHeadHgtList_eq height db :
  getStoredHeadHgtList height db = a ← read_hgt height (value_at db (hgt_key height)); Ok (a, db).
Proof.
  unfold getStoredHeadHgtList, getValueRef_prefix.
  assert (theString_ (bw_put_BinaryData (be_bytes 4 height)
    (bw_put_uint8_t (prefix_val DB_PREFIX_HEADHGT) bw_new)) = hgt_key height) as -> by done.
  unfold getValueRef, mbind, db_bind, read_hgt, db_read, db_ret, mret, result_bind.
  change (default [] (db_get (headers_ db) (hgt_key height))) with (value_at db (hgt_key height)).
  destruct (0 <? zlen (value_at db (hgt_key height))); [|done].
  by destruct (hhl_unserialize _) as [[[l p] r]|].
Qed.

Definition read_hash (value : list byte) : result (option StoredHeader) :=
  if zlen value =? 0 then Ok None
  else '(s, _) ← sbh_unserialize StoredHeader_default (brr_setNewData value); Ok (Some s).

Lemma getBareHeader_hash_eq hash db :
  getBareHeader_hash hash db = a ← read_hash (value_at db (hash_key hash)); Ok (a, db).
Proof.
  unfold getBareHeader_hash, getValueRef_prefix.
  assert (theString_ (bw_put_BinaryData hash
    (bw_put_uint8_t (prefix_val DB_PREFIX_HEADHASH) bw_new)) = hash_key hash) as ->
    by (autorewrite with bw; done).
  unfold getValueRef, mbind, db_bind, read_hash, db_read, mret, db_ret, result_bind.
  change (default [] (db_get (headers_ db) (hash_key hash))) with (value_at db (hash_key hash)).
  destruct (zlen (value_at db (hash_key hash)) =? 0); [done|].
  by destruct (sbh_unserialize _ _) as [[]|].
Qed.

(** ** The abstract contents of the table *)

(** At [height] the table has the list [l] with preferred id [p]. *)
Definition list_at db (height : Z) (l : list (Z * list byte)) (p : Z) : Prop :=
  list_ok l p /\ getStoredHeadHgtList height db = Ok ((mkHHL height l p, negb (bool_decide (l = []))), db).

(** Under [hash] the table has the header [s]. *)
Definition header_at db (hash : list byte) (s : StoredHeader) : Prop :=
  getBareHeader_hash hash db = Ok (Some s, db).

Definition info_at db (i : StoredDBInfo) : Prop :=
  sdbi_ok i /\ value_at db info_key = sdbi_serialize i.

Lemma list_at_frame db db' height l p : value_at db' (hgt_key height) = value_at db (hgt_key height) ->
  list_at db height l p -> list_at db' height l p.
Proof.
  intros E [Hok Hget]. split; [done|]. rewrite getStoredHeadHgtList_eq in *. rewrite E.
  by destruct (read_hgt _ _) as [a|]; simplify_eq/=.
Qed.

Lemma header_at_frame db db' hash s : value_at db' (hash_key hash) = value_at db (hash_key hash) ->
  header_at db hash s -> header_at db' hash s.
Proof.
  unfold header_at. rewrite !getBareHeader_hash_eq. intros ->.
  by destruct (read_hash _) as [a|]; intros; simplify_eq/=.
Qed.

Lemma list_at_written db height l p : list_ok l p -> l ≠ [] ->
  value_at db (hgt_key height) = hhl_bytes p l -> list_at db height (hhl_order p l) p.
Proof.
  intros Hok Hne Hv. pose proof (list_ok_entries _ _ Hok) as He.
  pose proof (lo_size _ _ Hok) as Hs. pose proof (zlen_hhl_bytes p l (entries_ok_wide _ He)) as Hz.
  pose proof (zlen_nonneg l).
  split; [eapply list_ok_perm; [symmetry; apply hhl_order_perm|done]|].
  rewrite getStoredHeadHgtList_eq, Hv. unfold read_hgt.
  rewrite (proj2 (Z.ltb_lt 0 _)) by lia.
  rewrite (parses_whole _ _ _ (hhl_unserialize_parses p l He ltac:(lia)) ltac:(unfold two64; lia)).
  simpl. rewrite bool_decide_false.
  2:{ intros E. apply Hne. apply Permutation_nil_r. by rewrite <- E, hhl_order_perm. }
  case_decide as Ep; [done|]. destruct (lo_preferred _ _ Hok) as [->|Hp]; [done|].
  destruct Ep. by apply (list_ok_ids _ _ _ Hok).
Qed.

Lemma getStoredDBInfo_ok db i : info_at db i -> getStoredDBInfo 0 db = Ok (i, db).
Proof.
  intros [Hi Hv]. destruct (sdbi_roundtrip i Hi) as (Hl & r & Hr).
  unfold getStoredDBInfo, getValueRef, mbind, db_bind. fold info_key.
  change (default [] (db_get (headers_ db) info_key)) with (value_at db info_key).
  rewrite Hv, (proj2 (Z.eqb_neq _ 0)) by lia. unfold db_read. by rewrite Hr.
Qed.

(** *** The writes *)

Lemma putHeadHgtList_ok db height l p : list_ok l p -> is_uint 32 height -> height ≠ UINT32_MAX ->
  putStoredHeadHgtList (mkHHL height l p) db =
  Ok (true, mkLMDB (db_insert (hgt_key height) (hhl_bytes p l) (headers_ db)) (validDupByHeight_ db)).
Proof.
  intros Hok Hh Hne. unfold putStoredHeadHgtList. cbn [hhl_height].
  rewrite (proj2 (Z.eqb_neq _ _) Hne). unfold mbind, db_bind, putValue, mret, db_ret.
  rewrite hhl_serialize_bytes by (by eapply eo_dups, list_ok_entries). done.
Qed.

(** The write of the list, which is left out when nothing changed. *)
Lemma write_list_ok (w : bool) db height l p l' p' :
  list_at db height l p -> list_ok l' p' -> is_uint 32 height -> height ≠ UINT32_MAX -> l' ≠ [] ->
  (w = false -> l' = l /\ p' = p) -> exists db',
  (if w then putStoredHeadHgtList (mkHHL height l' p') else mret true) db = Ok (true, db') /\
  validDupByHeight_ db' = validDupByHeight_ db /\
  (forall k, k ≠ hgt_key height -> value_at db' k = value_at db k) /\
  exists l'', l'' ≡ₚ l' /\ list_at db' height l'' p'.
Proof.
  intros Hat Hok Hh Hne Hnil Hw. destruct w.
  - rewrite putHeadHgtList_ok by done. eexists. split; [reflexivity|]. split; [done|]. split.
    + intros k Hk. rewrite value_at_put. by rewrite decide_False.
    + exists (hhl_order p' l'). split; [apply hhl_order_perm|]. apply list_at_written; [done..|].
      rewrite value_at_put. by rewrite decide_True.
  - destruct (Hw eq_refl) as [-> ->]. exists db. split; [done|]. split; [done|]. split; [done|].
    by exists l.
Qed.

(** The effect of [setValidDupIDForHeight]. *)
Definition valid_dup (overwrite : bool) (dup : Z) (old : option Z) : Z :=
  match old with
  | Some d => if negb overwrite && negb (d =? UINT8_MAX) then d else dup
  | None => dup
  end.

Lemma setValidDup_ok db h dup ow : map_ordered (validDupByHeight_ db) -> exists m,
  setValidDupIDForHeight h dup ow db = Ok (tt, mkLMDB (headers_ db) m) /\ map_ordered m /\
  forall j, map_find j m = if decide (j = h) then Some (valid_dup ow dup (map_find h (validDupByHeight_ db)))
                           else map_find j (validDupByHeight_ db).
Proof.
  intros Ho. unfold setValidDupIDForHeight. eexists. split; [reflexivity|].
  destruct (map_find h (validDupByHeight_ db)) as [d|] eqn:E; simpl.
  - rewrite E. simpl. destruct (negb ow && negb (d =? UINT8_MAX)) eqn:Eb.
    + split; [done|]. intros j. case_decide; [by subst|done].
    + split; [by apply map_put_ordered|]. intros j. by rewrite map_find_put.
  - rewrite map_find_put_eq. simpl. rewrite andb_false_r.
    split; [by apply map_put_ordered, map_put_ordered|]. intros j.
    rewrite !map_find_put by (try apply map_put_ordered; done). by case_decide.
Qed.

Definition sdbi_set_top (i : StoredDBInfo) (top : Z) : StoredDBInfo :=
  mkSDBI (magic_ i) top (metaHash_ i) (topScannedBlkHash_ i) (appliedToHgt_ i) (armoryVer_ i) (armoryType_ i).

Lemma putStoredDBInfo_ok db i : sdbi_ok i -> putStoredDBInfo i 0 db =
  Ok (tt, mkLMDB (db_insert info_key (sdbi_serialize i) (headers_ db)) (validDupByHeight_ db)).
Proof.
  intros Hi. unfold putStoredDBInfo, sdbi_isInitialized. by rewrite (di_magic _ Hi).
Qed.

(** ** [putBareHeader] *)

(** What can be put: a complete header with a height, under the hash of its bytes. *)
Definition can_put (s : StoredHeader) : Prop :=
  sbh_ok (setKeyData (sbh_blockHeight s) 0 s) /\ sbh_thisHash s = getHash256 (sbh_dataCopy s).

Lemma can_put_key s dup : can_put s -> 0 <= dup < 128 -> sbh_ok (setKeyData (sbh_blockHeight s) dup s).
Proof. intros [[? [? _] ? ? ? ? ?] _] Hd. by split. Qed.

Record put_rel db db' (s : StoredHeader) (l : list (Z * list byte)) (p dup : Z) (upd : bool) : Prop := {
  pr_list : exists l', l' ≡ₚ (if decide (listed (sbh_thisHash s) l) then l else l ++ [(dup, sbh_thisHash s)]) /\
    list_at db' (sbh_blockHeight s) l'
      (if sbh_isMainBranch s && (upd || bool_decide (l = [])) then dup else p) /\
    (dup, sbh_thisHash s) ∈ l';
  pr_new : ~ listed (sbh_thisHash s) l -> dup = zlen l;
  pr_header : header_at db' (sbh_thisHash s) (sbh_stored (setKeyData (sbh_blockHeight s) dup s) false);
  pr_lists h l1 p1 : h ≠ sbh_blockHeight s -> is_uint 32 h -> list_at db h l1 p1 -> list_at db' h l1 p1;
  pr_headers k s1 : k ≠ sbh_thisHash s -> header_at db k s1 -> header_at db' k s1;
  pr_valid h : map_find h (validDupByHeight_ db') =
    if sbh_isMainBranch s && (h =? sbh_blockHeight s)
    then Some (valid_dup upd dup (map_find h (validDupByHeight_ db)))
    else map_find h (validDupByHeight_ db);
  pr_ordered : map_ordered (validDupByHeight_ db');
}.

(** The last step: the ids in memory and the height of the top in the info. *)
Definition put_main (isMain : bool) (height dup : Z) (upd updSDBI : bool) : Db () :=
  if isMain then
    _ ← setValidDupIDForHeight height dup upd;
    if updSDBI then
      sdbiH ← getStoredDBInfo 0;
      if topBlkHgt_ sdbiH <=? height then putStoredDBInfo (sdbi_set_top sdbiH height) 0 else mret tt
    else mret tt
  else mret tt.

Lemma sdbi_set_top_ok i top : sdbi_ok i -> is_uint 32 top -> sdbi_ok (sdbi_set_top i top).
Proof. intros [] ?. by split. Qed.

Lemma put_main_ok db i isMain height dup upd updSDBI : info_at db i -> is_uint 32 height ->
  map_ordered (validDupByHeight_ db) -> exists db',
  put_main isMain height dup upd updSDBI db = Ok (tt, db') /\
  info_at db' (if isMain && updSDBI && (topBlkHgt_ i <=? height) then sdbi_set_top i height else i) /\
  (forall k, k ≠ info_key -> value_at db' k = value_at db k) /\ map_ordered (validDupByHeight_ db') /\
  forall j, map_find j (validDupByHeight_ db') =
    if isMain && (j =? height) then Some (valid_dup upd dup (map_find j (validDupByHeight_ db)))
    else map_find j (validDupByHeight_ db).
Proof.
  intros Hi Hh Ho. unfold put_main. destruct isMain; simpl andb; cbv iota; [|by exists db].
  destruct (setValidDup_ok db height dup upd Ho) as (m & Hset & Hm & Hfind).
  rewrite (db_bind_ok _ _ _ _ _ Hset).
  assert (forall j, map_find j m = if j =? height then
    Some (valid_dup upd dup (map_find j (validDupByHeight_ db))) else map_find j (validDupByHeight_ db)) as Hf.
  { intros j. rewrite Hfind. destruct (Z.eqb_spec j height) as [->|]; [by rewrite decide_True|].
    by rewrite decide_False. }
  assert (info_at (mkLMDB (headers_ db) m) i) as Hi' by done.
  destruct updSDBI; [|by exists (mkLMDB (headers_ db) m)].
  rewrite (db_bind_ok _ _ _ _ _ (getStoredDBInfo_ok _ i Hi')).
  destruct (topBlkHgt_ i <=? height) eqn:Et; [|by exists (mkLMDB (headers_ db) m)].
  pose proof (sdbi_set_top_ok i height (proj1 Hi) Hh) as Hok.
  rewrite putStoredDBInfo_ok by done. eexists. split; [reflexivity|]. split.
  - split; [done|]. rewrite value_at_put. by rewrite decide_True.
  - split; [|done]. intros k Hk. rewrite value_at_put. by rewrite decide_False.
Qed.

Lemma putBareHeader_eq s upd updSDBI db : sbh_isInitialized s = true -> sbh_blockHeight s ≠ UINT32_MAX ->
  putBareHeader s upd updSDBI db =
  (_ ← getStoredDBInfo 0;
   '(hhl, _) ← getStoredHeadHgtList (sbh_blockHeight s);
   let '(dup, hhl, w) := assign_dup (sbh_thisHash s) (sbh_isMainBranch s) upd hhl in
   let s := setKeyData (sbh_blockHeight s) dup s in
   _ ← (if (w : bool) then putStoredHeadHgtList hhl else mret true);
   value ← db_of (sbh_serialize s);
   _ ← putValue_prefix DB_PREFIX_HEADHASH (sbh_thisHash s) value;
   _ ← put_main (sbh_isMainBranch s) (sbh_blockHeight s) dup upd updSDBI;
   mret (dup, s)) db.
Proof. intros Hi Hh. unfold putBareHeader. rewrite Hi, (proj2 (Z.eqb_neq _ _) Hh). done. Qed.

Lemma putValue_hash_ok db hash v : putValue_prefix DB_PREFIX_HEADHASH hash v db =
  Ok (tt, mkLMDB (db_insert (hash_key hash) v (headers_ db)) (validDupByHeight_ db)).
Proof.
  unfold putValue_prefix. assert (theString_ (bw_put_BinaryData hash
    (bw_put_uint8_t (prefix_val DB_PREFIX_HEADHASH) bw_new)) = hash_key hash) as ->
    by (autorewrite with bw; done). done.
Qed.

Lemma header_written db s dup v : sbh_ok (setKeyData (sbh_blockHeight s) dup s) ->
  sbh_serialize (setKeyData (sbh_blockHeight s) dup s) = Ok v ->
  value_at db (hash_key (sbh_thisHash s)) = v ->
  header_at db (sbh_thisHash s) (sbh_stored (setKeyData (sbh_blockHeight s) dup s) false).
Proof.
  intros Hok Hv Hat. destruct (sbh_roundtrip _ StoredHeader_default Hok) as (bs & Hbs & Hl & r & Hr).
  rewrite Hbs in Hv. injection Hv as <-. unfold header_at.
  rewrite getBareHeader_hash_eq, Hat. unfold read_hash. rewrite Hl, Hr. done.
Qed.

Lemma putBareHeader_run s upd updSDBI db i l p : can_put s -> info_at db i ->
  map_ordered (validDupByHeight_ db) -> list_at db (sbh_blockHeight s) l p ->
  (listed (sbh_thisHash s) l \/ zlen l < 128) -> exists dup db',
  putBareHeader s upd updSDBI db = Ok ((dup, setKeyData (sbh_blockHeight s) dup s), db') /\
  0 <= dup < 128 /\ put_rel db db' s l p dup upd /\
  info_at db' (if sbh_isMainBranch s && updSDBI && (topBlkHgt_ i <=? sbh_blockHeight s)
               then sdbi_set_top i (sbh_blockHeight s) else i).
Proof.
  intros Hput Hi Hord Hat Hroom. set (h := sbh_blockHeight s). set (hash := sbh_thisHash s).
  pose proof (so_data _ (proj1 Hput)) as Hdata. simpl in Hdata.
  pose proof (so_key _ (proj1 Hput)) as [Hh _]. simpl in Hh. fold h in Hh.
  assert (is_uint 32 h) as Hu by (unfold is_uint; lia).
  assert (h ≠ UINT32_MAX) as Hne by (unfold UINT32_MAX; lia).
  assert (zlen hash = 32) as Hhash by (unfold hash; rewrite (proj2 Hput); apply zlen_getHash256).
  rewrite putBareHeader_eq by (try done; unfold sbh_isInitialized; by rewrite Hdata).
  fold h hash in Hat, Hroom |- *.
  rewrite (db_bind_ok _ _ _ _ _ (getStoredDBInfo_ok _ i Hi)).
  rewrite (db_bind_ok _ _ _ _ _ (proj2 Hat)).
  destruct (assign_dup_spec hash (sbh_isMainBranch s) upd h l p (proj1 Hat) Hhash Hroom)
    as (dup & w & Hassign & Hok & Hin & Hnew & Hw).
  cbv beta iota. rewrite Hassign. cbv beta iota.
  set (l' := if decide (listed hash l) then l else l ++ [(dup, hash)]) in *.
  set (p' := if sbh_isMainBranch s && (upd || bool_decide (l = [])) then dup else p) in *.
  assert (l' ≠ []) as Hnil by (intros E; rewrite E in Hin; by apply elem_of_nil in Hin).
  destruct (write_list_ok w db h l p l' p' Hat Hok Hu Hne Hnil) as (db1 & Hrun1 & Hv1 & Hf1 & l'' & Hp & Hat1).
  { intros Ew. destruct (Hw Ew) as (? & ? & _). done. }
  rewrite (db_bind_ok _ _ _ _ _ Hrun1).
  assert (0 <= dup < 128) as Hdup.
  { pose proof (eo_range _ (list_ok_entries _ _ Hok)) as Hr. rewrite Forall_forall in Hr.
    apply (Hr _ Hin). }
  pose proof (can_put_key s dup Hput Hdup) as Hsok. fold h in Hsok.
  destruct (sbh_roundtrip _ StoredHeader_default Hsok) as (v & Hser & _).
  assert (db_of (sbh_serialize (setKeyData h dup s)) db1 = Ok (v, db1)) as Hof by (unfold db_of; by rewrite Hser).
  rewrite (db_bind_ok _ _ _ _ _ Hof). change (sbh_thisHash (setKeyData h dup s)) with hash.
  rewrite (db_bind_ok _ _ _ _ _ (putValue_hash_ok db1 hash v)).
  set (db2 := mkLMDB _ _).
  assert (forall k, k ≠ hash_key hash -> value_at db2 k = value_at db1 k) as Hf2.
  { intros k Hk. unfold db2. rewrite value_at_put. by rewrite decide_False. }
  assert (info_at db2 i) as Hi2.
  { split; [apply Hi|]. rewrite Hf2, Hf1 by auto. apply Hi. }
  destruct (put_main_ok db2 i (sbh_isMainBranch s) h dup upd updSDBI Hi2 Hu) as (db3 & Hrun3 & Hi3 & Hf3 & Ho3 & Hv3).
  { simpl. by rewrite Hv1. }
  change (sbh_isMainBranch (setKeyData h dup s)) with (sbh_isMainBranch s).
  change (sbh_blockHeight (setKeyData h dup s)) with h.
  rewrite (db_bind_ok _ _ _ _ _ Hrun3). exists dup, db3.
  split; [done|]. split; [done|]. split; [|done].
  assert (forall k, k ≠ hash_key hash -> k ≠ info_key -> value_at db3 k = value_at db1 k) as Hf
    by (intros k ? ?; by rewrite Hf3, Hf2).
  split.
  - exists l''. split; [done|]. split; [|by rewrite Hp]. eapply list_at_frame; [|exact Hat1]. apply Hf; auto.
  - done.
  - eapply header_written; [done|exact Hser|]. fold hash. rewrite Hf3 by auto.
    unfold db2. rewrite value_at_put. by rewrite decide_True.
  - intros h' l1 p1 Hne' Hu' Hl1. eapply list_at_frame; [|exact Hl1]. rewrite Hf by auto.
    apply Hf1. intros E. apply Hne'. by apply hgt_key_inj.
  - intros k s1 Hk Hs1. eapply header_at_frame; [|exact Hs1]. rewrite Hf by (auto; by intros ?%hash_key_inj).
    apply Hf1; auto.
  - intros j. rewrite Hv3. unfold db2. simpl validDupByHeight_. by rewrite Hv1.
  - done.
Qed.

Lemma getBareHeader_found db h l p dup hash s : list_at db h l p -> (dup, hash) ∈ l ->
  header_at db hash s -> getBareHeader h dup db = Ok (Some s, db).
Proof.
  intros Hat Hin Hs. unfold getBareHeader. rewrite (db_bind_ok _ _ _ _ _ (proj2 Hat)). cbv beta iota.
  rewrite bool_decide_false by (intros ->; by apply elem_of_nil in Hin). cbn [negb dupAndHashList_].
  by rewrite (find_hash_elem _ _ _ _ (proj1 Hat) Hin).
Qed.

(** ** A full height *)

Lemma scan_dups_full hash l p : list_ok l p -> zlen l = 128 -> ~ listed hash l ->
  scan_dups hash l (-1) = (127, None).
Proof.
  intros Hok Hl Hn. pose proof (eo_range _ (list_ok_entries _ _ Hok)) as Hr.
  assert (Forall (fun e => 0 <= e.1 < 128) l) as Hr' by (eapply Forall_impl; [exact Hr|naive_solver]).
  pose proof (scan_dups_spec hash l Hr' (-1)) as Hs. destruct (scan_dups hash l (-1)) as [x [d|]].
  { destruct Hn. apply (list_elem_of_fmap_2 snd l (d, hash) Hs). }
  destruct Hs as (_ & Hx & _ & Hmax). f_equal.
  assert (127 ∈ map fst l) as H127%Hmax by (apply (list_ok_ids _ _ _ Hok); lia).
  destruct Hx as [->|Hx%(list_ok_ids _ _ _ Hok)]; lia.
Qed.

Lemma assign_dup_full hash upd h l p : list_ok l p -> zlen l = 128 -> ~ listed hash l ->
  assign_dup hash false upd (mkHHL h l p) = (128, mkHHL h (l ++ [(128, hash)]) p, true).
Proof.
  intros Hok Hl Hn. unfold assign_dup. cbn [dupAndHashList_].
  destruct l as [|e l0] eqn:El; [done|]. rewrite <- El in *. clear El.
  rewrite (scan_dups_full hash l p Hok Hl Hn). change (wrap 8 (127 + 1)) with 128. cbn [andb].
  unfold addDupAndHash. cbn [hhl_height dupAndHashList_ preferredDup_].
  rewrite add_dup_new; [done|]. intros Hi%(list_ok_ids _ _ _ Hok). lia.
Qed.

Lemma list_full_wide hash l p : list_ok l p -> zlen l = 128 -> zlen hash = 32 ->
  entries_wide (l ++ [(128, hash)]).
Proof.
  intros Hok Hl Hh. pose proof (list_ok_entries _ _ Hok) as He. split.
  - apply Forall_app. split; [apply (entries_ok_wide _ He)|]. repeat constructor; simpl; lia || done.
  - rewrite map_app. apply NoDup_app. split; [apply He|]. split; [|apply NoDup_singleton].
    intros d Hd%(list_ok_ids _ _ _ Hok) ->%list_elem_of_singleton. simpl in Hd. lia.
Qed.

Lemma find_hash_none d l : Forall (fun e : Z * list byte => e.1 ≠ d) l -> find_hash d l = None.
Proof.
  induction 1 as [|[d' h] l Hd _ IH]; [done|]. simpl in *. by rewrite (proj2 (Z.eqb_neq d d')).
Qed.

(** The list of a height with the 129th entry, read back. *)
Lemma read_full db h hash l p : list_ok l p -> zlen l = 128 -> zlen hash = 32 ->
  value_at db (hgt_key h) = hhl_bytes p (l ++ [(128, hash)]) -> exists l',
  getStoredHeadHgtList h db = Ok ((mkHHL h l' p, true), db) /\ (0, hash) ∈ l' /\
  Forall (fun e => e.1 ≠ 128) l'.
Proof.
  intros Hok Hl Hh Hv. pose proof (list_full_wide hash l p Hok Hl Hh) as Hw.
  set (L := l ++ [(128, hash)]) in *.
  assert (zlen L = 129) as HL by (unfold L; autorewrite with zlen; lia).
  pose proof (zlen_hhl_bytes p L Hw) as Hz.
  exists (map low_entry (hhl_order p L)). split; [|split].
  - rewrite getStoredHeadHgtList_eq, Hv. unfold read_hgt. rewrite (proj2 (Z.ltb_lt 0 _)) by lia.
    rewrite (parses_whole _ _ _ (hhl_unserialize_wide p L Hw ltac:(lia)) ltac:(unfold two64; lia)).
    simpl. f_equal. f_equal. f_equal. f_equal. case_decide as Ep.
    + destruct (lo_preferred _ _ Hok) as [->|Hp]; [|apply land_127; lia]. exfalso.
      unfold L in Ep. rewrite map_app in Ep.
      apply elem_of_app in Ep as [Ep%(list_ok_ids _ _ _ Hok)|Ep%list_elem_of_singleton]; [|done].
      unfold UINT8_MAX in Ep. lia.
    + destruct (lo_preferred _ _ Hok) as [->|Hp]; [done|]. destruct Ep. unfold L. rewrite map_app.
      apply elem_of_app. left. by apply (list_ok_ids _ _ _ Hok).
  - apply list_elem_of_fmap. exists (128, hash). split; [done|].
    rewrite hhl_order_perm. apply elem_of_app. right. by left.
  - apply Forall_map. rewrite hhl_order_perm. eapply Forall_impl; [apply (ew_range _ Hw)|].
    intros e [He _]. simpl. change 127 with (Z.ones 7). rewrite Z.land_ones by lia.
    pose proof (Z.mod_pos_bound e.1 (2 ^ 7)). lia.
Qed.
End props.

(** ** Properties *)

(** The list of the headers of a height round trips: for at most 255
    entries with seven-bit ids, none twice, reading back what was written
    consumes all of it and gives the same entries with the preferred one
    first, and the preferred id, or [UINT8_MAX] when no entry has it. *)
Theorem StoredHeadHgtList_roundtrip h : entries_ok (dupAndHashList_ h) -> zlen (dupAndHashList_ h) < 256 ->
  hhl_unserialize (brr_setNewData (hhl_serialize h)) =
    Ok ((hhl_order (preferredDup_ h) (dupAndHashList_ h),
         if decide (preferredDup_ h ∈ map fst (dupAndHashList_ h)) then preferredDup_ h else UINT8_MAX),
        brr_at (hhl_serialize h) []) /\
  hhl_order (preferredDup_ h) (dupAndHashList_ h) ≡ₚ dupAndHashList_ h.
Proof.
  intros He Hl. split; [|apply hhl_order_perm]. rewrite hhl_serialize_bytes by apply He.
  apply parses_whole; [by apply hhl_unserialize_parses|].
  rewrite zlen_hhl_bytes by (by apply entries_ok_wide). unfold two64. lia.
Qed.

(** A stored header round trips through the HEADERS format: everything but
    the main-branch flag, which the format does not hold, and the hash is that
    of the 80 bytes. *)
Theorem StoredHeader_roundtrip `{HashFns} s : sbh_ok s -> exists bs r,
  sbh_serialize s = Ok bs /\ zlen bs = 106 /\
  sbh_unserialize StoredHeader_default (brr_setNewData bs) = Ok (sbh_stored s false, r).
Proof.
  intros Hs. destruct (sbh_roundtrip s StoredHeader_default Hs) as (bs & H1 & H2 & r & H3).
  by exists bs, r.
Qed.

Section put_properties.
Context {DB : Type} `{StoreLaws DB} `{HashFns}.
Implicit Types db : LMDBBlockDatabase DB.

(** C12: [putBareHeader] of a complete header on a height with fewer than 128
    headers succeeds and returns its id: the one it has, or the next free one.
    The header is then found by its hash and by height and id; its height
    lists the old headers with their ids and it, and prefers it when it is on
    the main branch and the caller or an empty list says so; the other
    heights, headers and ids in memory stay. *)
Theorem putBareHeader_correct s upd updSDBI db i l p : can_put s -> info_at db i ->
  map_ordered (validDupByHeight_ db) -> list_at db (sbh_blockHeight s) l p ->
  (listed (sbh_thisHash s) l \/ zlen l < 128) -> exists dup db',
  putBareHeader s upd updSDBI db = Ok ((dup, setKeyData (sbh_blockHeight s) dup s), db') /\
  put_rel db db' s l p dup upd /\
  getBareHeader (sbh_blockHeight s) dup db' =
    Ok (Some (sbh_stored (setKeyData (sbh_blockHeight s) dup s) false), db') /\
  info_at db' (if sbh_isMainBranch s && updSDBI && (topBlkHgt_ i <=? sbh_blockHeight s)
               then sdbi_set_top i (sbh_blockHeight s) else i).
Proof.
  intros Hput Hi Ho Hat Hroom.
  destruct (putBareHeader_run s upd updSDBI db i l p Hput Hi Ho Hat Hroom) as (dup & db' & Hrun & _ & Hr & Hi').
  exists dup, db'. split; [done|]. split; [done|]. split; [|done].
  destruct (pr_list _ _ _ _ _ _ _ Hr) as (l' & _ & Hat' & Hin).
  eapply getBareHeader_found; [exact Hat'|exact Hin|apply Hr].
Qed.

(** The 129th header of a height: [putBareHeader] returns the id 128,
    which the list of the height cannot hold: it is read back as a second
    entry with id 0, and asking for the header by height and id finds none. *)
Theorem putBareHeader_overflow s upd updSDBI db i l p : can_put s -> info_at db i ->
  sbh_isMainBranch s = false -> list_at db (sbh_blockHeight s) l p -> zlen l = 128 ->
  ~ listed (sbh_thisHash s) l -> exists db' l',
  putBareHeader s upd updSDBI db = Ok ((128, setKeyData (sbh_blockHeight s) 128 s), db') /\
  getStoredHeadHgtList (sbh_blockHeight s) db' = Ok ((mkHHL (sbh_blockHeight s) l' p, true), db') /\
  (0, sbh_thisHash s) ∈ l' /\
  getBareHeader (sbh_blockHeight s) 128 db' = Ok (None, db').
Proof.
  intros Hput Hi Hmain Hat Hl Hn. set (h := sbh_blockHeight s) in *. set (hash := sbh_thisHash s) in *.
  pose proof (so_data _ (proj1 Hput)) as Hdata. simpl in Hdata.
  pose proof (so_key _ (proj1 Hput)) as [Hh _]. simpl in Hh. fold h in Hh.
  assert (zlen hash = 32) as Hhash by (unfold hash; rewrite (proj2 Hput); apply zlen_getHash256).
  destruct (so_file _ (proj1 Hput)) as (f & Ef & _). destruct (so_offset _ (proj1 Hput)) as (o & Eo & _).
  rewrite putBareHeader_eq by (unfold sbh_isInitialized; rewrite ?Hdata; done || (fold h; unfold UINT32_MAX; lia)).
  fold h hash. rewrite (db_bind_ok _ _ _ _ _ (getStoredDBInfo_ok _ i Hi)).
  rewrite (db_bind_ok _ _ _ _ _ (proj2 Hat)). cbv beta iota.
  rewrite Hmain, (assign_dup_full hash upd h l p (proj1 Hat) Hl Hn). cbv beta iota.
  set (db1 := mkLMDB (db_insert (hgt_key h) (hhl_bytes p (l ++ [(128, hash)])) (headers_ db)) (validDupByHeight_ db)).
  assert (putStoredHeadHgtList (mkHHL h (l ++ [(128, hash)]) p) db = Ok (true, db1)) as Hrun1.
  { unfold putStoredHeadHgtList. cbn [hhl_height].
    rewrite (proj2 (Z.eqb_neq _ _)) by (unfold UINT32_MAX; lia). unfold mbind, db_bind, putValue.
    rewrite hhl_serialize_bytes by (eapply ew_dups, list_full_wide; [apply Hat|done..]). done. }
  rewrite (db_bind_ok _ _ _ _ _ Hrun1). unfold db_of at 1.
  rewrite (sbh_serialize_bytes (setKeyData h 128 s) f o) by done.
  match goal with |- context [Ok (?v : list byte)] => set (v0 := v) end.
  change (sbh_thisHash (setKeyData h 128 s)) with hash.
  rewrite (db_bind_ok (fun db => a ← Ok v0; Ok (a, db)) _ db1 v0 db1) by done.
  rewrite (db_bind_ok _ _ _ _ _ (putValue_hash_ok db1 hash v0)).
  change (sbh_isMainBranch (setKeyData h 128 s)) with (sbh_isMainBranch s). rewrite Hmain.
  set (db2 := mkLMDB _ _).
  destruct (read_full db2 h hash l p (proj1 Hat) Hl Hhash) as (l' & Hget & Hin & Hno).
  { unfold db2. rewrite value_at_put. rewrite decide_False by auto. unfold db1.
    rewrite value_at_put. by rewrite decide_True. }
  exists db2, l'. split; [done|]. split; [done|]. split; [done|].
  unfold getBareHeader. rewrite (db_bind_ok _ _ _ _ _ Hget). cbn [negb dupAndHashList_].
  by rewrite find_hash_none.
Qed.
End put_properties.

(** ** Witnesses *)

(** A table as a list of assignments, the last one first. *)
Definition AssocDB : Type := list (list byte * list byte).

Fixpoint assoc_get (m : AssocDB) (k : list byte) : option (list byte) :=
  match m with
  | [] => None
  | (j, v) :: m => if decide (k = j) then Some v else assoc_get m k
  end.

#[export] Instance assoc_store : Store AssocDB :=
  {| db_get := assoc_get; db_insert k v m := (k, v) :: m |}.

#[export] Instance assoc_laws : StoreLaws AssocDB.
Proof. by intros k v m j. Qed.

Definition w_info : StoredDBInfo :=
  mkSDBI (map z2b [249; 190; 180; 217]) 0 EmptyHash [] 0 ARMORY_DB_VERSION 1.

Lemma w_info_ok : sdbi_ok w_info.
Proof. split; try done. by left. Qed.

Definition w_sbh : StoredHeader :=
  mkSBH (replicate 80 (z2b 5)) (@getHash256 toy_hashes (replicate 80 (z2b 5))) 7 1000 3 UINT8_MAX true
    (Some 2) (Some 293) 4.

Lemma w_sbh_put : @can_put toy_hashes w_sbh.
Proof.
  split; [|done]. split; unfold hgtx_ok, is_uint; simpl; [done|lia..|exists 2|exists 293|lia]; (split; [done|lia]).
Qed.

(** A table with the info and the lists of some heights. *)
Definition w_table (lists : list (Z * list (Z * list byte))) : LMDBBlockDatabase AssocDB :=
  mkLMDB ((info_key, sdbi_serialize w_info) :: map (fun e => (hgt_key e.1, hhl_bytes UINT8_MAX e.2)) lists) [].

Lemma w_table_info lists : info_at (w_table lists) w_info.
Proof. split; [apply w_info_ok|]. done. Qed.

Definition w_one : list (Z * list byte) := [(0, replicate 32 (z2b 9))].
Definition w_full : list (Z * list byte) := map (fun n => (n, replicate 32 (z2b n))) (seqZ 0 128).

Lemma w_one_at : list_at (w_table [(3, w_one)]) 3 w_one UINT8_MAX.
Proof.
  assert (hhl_order UINT8_MAX w_one = w_one) as <- by (vm_compute; reflexivity).
  apply list_at_written; [|done|done].
  split; [done|by repeat constructor|done|by left].
Qed.

Lemma w_full_at : list_at (w_table [(3, w_full)]) 3 w_full UINT8_MAX.
Proof.
  assert (hhl_order UINT8_MAX w_full = w_full) as <- by (vm_compute; reflexivity).
  apply list_at_written; [|done|done]. split; [|..|by left].
  - assert (map fst w_full = seqZ 0 (zlen w_full)) as -> by (vm_compute; reflexivity). done.
  - unfold w_full. apply Forall_map, Forall_forall. done.
  - done.
Qed.

Lemma StoredHeadHgtList_roundtrip_witness :
  let l := [(0, replicate 32 (z2b 9)); (1, replicate 32 (z2b 8))] in
  hhl_unserialize (brr_setNewData (hhl_serialize (mkHHL 3 l 1))) =
    Ok ((hhl_order 1 l, if decide (1 ∈ map fst l) then 1 else UINT8_MAX),
        brr_at (hhl_serialize (mkHHL 3 l 1)) []) /\ hhl_order 1 l ≡ₚ l.
Proof.
  apply (StoredHeadHgtList_roundtrip (mkHHL 3 [(0, replicate 32 (z2b 9)); (1, replicate 32 (z2b 8))] 1)).
  - split; [by repeat constructor|]. apply (bool_decide_eq_true_1 _). reflexivity.
  - reflexivity.
Defined.

Lemma w_sbh_ok : sbh_ok (setKeyData 3 0 w_sbh).
Proof. apply w_sbh_put. Qed.

Lemma StoredHeader_roundtrip_witness : exists bs r,
  sbh_serialize (setKeyData 3 0 w_sbh) = Ok bs /\ zlen bs = 106 /\
  @sbh_unserialize toy_hashes StoredHeader_default (brr_setNewData bs) =
    Ok (@sbh_stored toy_hashes (setKeyData 3 0 w_sbh) false, r).
Proof. exact (@StoredHeader_roundtrip toy_hashes (setKeyData 3 0 w_sbh) w_sbh_ok). Defined.

Lemma putBareHeader_correct_witness : exists dup db',
  @putBareHeader _ _ w_sbh true true (w_table [(3, w_one)]) = Ok ((dup, setKeyData 3 dup w_sbh), db') /\
  @put_rel _ _ toy_hashes (w_table [(3, w_one)]) db' w_sbh w_one UINT8_MAX dup true /\
  @getBareHeader _ _ toy_hashes 3 dup db' =
    Ok (Some (@sbh_stored toy_hashes (setKeyData 3 dup w_sbh) false), db') /\
  info_at db' (sdbi_set_top w_info 3).
Proof.
  exact (@putBareHeader_correct AssocDB _ _ toy_hashes w_sbh true true (w_table [(3, w_one)]) w_info w_one
    UINT8_MAX w_sbh_put (w_table_info _) I w_one_at (or_intror eq_refl)).
Defined.

Definition w_side : StoredHeader :=
  mkSBH (replicate 80 (z2b 5)) (@getHash256 toy_hashes (replicate 80 (z2b 5))) 7 1000 3 UINT8_MAX false
    (Some 2) (Some 293) 4.

Lemma w_side_put : @can_put toy_hashes w_side.
Proof. split; [|done]. destruct (proj1 w_sbh_put). by split. Qed.

Lemma w_side_new : ~ listed (sbh_thisHash w_side) w_full.
Proof. apply (bool_decide_eq_false_1 _). vm_compute. reflexivity. Qed.

Lemma putBareHeader_overflow_witness : exists db' l',
  @putBareHeader _ _ w_side true true (w_table [(3, w_full)]) = Ok ((128, setKeyData 3 128 w_side), db') /\
  getStoredHeadHgtList 3 db' = Ok ((mkHHL 3 l' UINT8_MAX, true), db') /\
  (0, sbh_thisHash w_side) ∈ l' /\
  @getBareHeader _ _ toy_hashes 3 128 db' = Ok (None, db').
Proof.
  exact (@putBareHeader_overflow AssocDB _ _ toy_hashes w_side true true (w_table [(3, w_full)]) w_info w_full
    UINT8_MAX w_side_put (w_table_info _) eq_refl w_full_at eq_refl w_side_new).
Defined.
