(* ===== verification/Blockchain.v ===== *)
(** * Blockchain: the block headers and the longest chain

    The class [Blockchain] of cppForSwig/Blockchain.h and Blockchain.cpp.
    Headers are shared objects: the maps hold [shared_ptr]s, and a header that
    is reached through one of them is changed for all.  [heap_] is the store
    of the headers, a pointer is [Some] address in it or [None] for null. *)

From S2P Require Import Prelude BinaryData BinaryIO Hashing StdMap DBUtils BlockHeader.

(** ** State *)

Abbreviation Ptr := (option nat).
Abbreviation HashString := (list byte).

Record Blockchain := mkBlockchain {
  heap_ : gmap nat BlockHeader;
  genesisHash_ : HashString;
  headerMap_ : stdmap HashString Ptr;
  newlyParsedBlocks_ : list Ptr;
  headersByHeight_ : list Ptr;
  headersById_ : stdmap Z Ptr;
  topBlockPtr_ : Ptr;
  topBlockId_ : Z;
  topID_ : Z;
}.

Section setters.
Implicit Types bc : Blockchain.

Definition set_heap (x : gmap nat BlockHeader) bc := {|
  heap_ := x; genesisHash_ := genesisHash_ bc; headerMap_ := headerMap_ bc;
  newlyParsedBlocks_ := newlyParsedBlocks_ bc; headersByHeight_ := headersByHeight_ bc;
  headersById_ := headersById_ bc; topBlockPtr_ := topBlockPtr_ bc;
  topBlockId_ := topBlockId_ bc; topID_ := topID_ bc |}.
Definition set_headerMap (x : stdmap HashString Ptr) bc := {|
  heap_ := heap_ bc; genesisHash_ := genesisHash_ bc; headerMap_ := x;
  newlyParsedBlocks_ := newlyParsedBlocks_ bc; headersByHeight_ := headersByHeight_ bc;
  headersById_ := headersById_ bc; topBlockPtr_ := topBlockPtr_ bc;
  topBlockId_ := topBlockId_ bc; topID_ := topID_ bc |}.
Definition set_newlyParsed (x : list Ptr) bc := {|
  heap_ := heap_ bc; genesisHash_ := genesisHash_ bc; headerMap_ := headerMap_ bc;
  newlyParsedBlocks_ := x; headersByHeight_ := headersByHeight_ bc;
  headersById_ := headersById_ bc; topBlockPtr_ := topBlockPtr_ bc;
  topBlockId_ := topBlockId_ bc; topID_ := topID_ bc |}.
Definition set_headersByHeight (x : list Ptr) bc := {|
  heap_ := heap_ bc; genesisHash_ := genesisHash_ bc; headerMap_ := headerMap_ bc;
  newlyParsedBlocks_ := newlyParsedBlocks_ bc; headersByHeight_ := x;
  headersById_ := headersById_ bc; topBlockPtr_ := topBlockPtr_ bc;
  topBlockId_ := topBlockId_ bc; topID_ := topID_ bc |}.
Definition set_headersById (x : stdmap Z Ptr) bc := {|
  heap_ := heap_ bc; genesisHash_ := genesisHash_ bc; headerMap_ := headerMap_ bc;
  newlyParsedBlocks_ := newlyParsedBlocks_ bc; headersByHeight_ := headersByHeight_ bc;
  headersById_ := x; topBlockPtr_ := topBlockPtr_ bc;
  topBlockId_ := topBlockId_ bc; topID_ := topID_ bc |}.
Definition set_topBlockPtr (x : Ptr) bc := {|
  heap_ := heap_ bc; genesisHash_ := genesisHash_ bc; headerMap_ := headerMap_ bc;
  newlyParsedBlocks_ := newlyParsedBlocks_ bc; headersByHeight_ := headersByHeight_ bc;
  headersById_ := headersById_ bc; topBlockPtr_ := x;
  topBlockId_ := topBlockId_ bc; topID_ := topID_ bc |}.
Definition set_topBlockId (x : Z) bc := {|
  heap_ := heap_ bc; genesisHash_ := genesisHash_ bc; headerMap_ := headerMap_ bc;
  newlyParsedBlocks_ := newlyParsedBlocks_ bc; headersByHeight_ := headersByHeight_ bc;
  headersById_ := headersById_ bc; topBlockPtr_ := topBlockPtr_ bc;
  topBlockId_ := x; topID_ := topID_ bc |}.
Definition set_topID (x : Z) bc := {|
  heap_ := heap_ bc; genesisHash_ := genesisHash_ bc; headerMap_ := headerMap_ bc;
  newlyParsedBlocks_ := newlyParsedBlocks_ bc; headersByHeight_ := headersByHeight_ bc;
  headersById_ := headersById_ bc; topBlockPtr_ := topBlockPtr_ bc;
  topBlockId_ := topBlockId_ bc; topID_ := x |}.
End setters.

(** ** Computations on the state: an exception, or a value and the new state *)

Definition Chain (A : Type) : Type := Blockchain -> result (A * Blockchain).

#[export] Instance chain_ret : MRet Chain := fun A a bc => Ok (a, bc).
#[export] Instance chain_bind : MBind Chain := fun A B f m bc =>
  match m bc with Ok (a, bc) => f a bc | Err e => Err e end.

Definition chain_throw {A} (e : exn) : Chain A := fun _ => Err e.
Definition chain_get {A} (f : Blockchain -> A) : Chain A := fun bc => Ok (f bc, bc).
Definition chain_set (f : Blockchain -> Blockchain) : Chain () := fun bc => Ok (tt, f bc).
Definition chain_of {A} (r : result A) : Chain A := fun bc => a ← r; Ok (a, bc).

(** [ptr->]: a null or dangling pointer is undefined behaviour. *)
Definition deref (p : Ptr) : Chain BlockHeader := fun bc =>
  match p ≫= (fun a => heap_ bc !! a) with Some h => Ok (h, bc) | None => Err UB end.

(** [ptr->field = ...]. *)
Definition update (p : Ptr) (f : BlockHeader -> BlockHeader) : Chain () := fun bc =>
  match p with
  | Some a =>
      match heap_ bc !! a with
      | Some h => Ok (tt, set_heap (<[a := f h]> (heap_ bc)) bc)
      | None => Err UB
      end
  | None => Err UB
  end.

Fixpoint chain_for {A} (f : A -> Chain ()) (l : list A) : Chain () :=
  match l with
  | [] => mret tt
  | x :: l => _ ← f x; chain_for f l
  end.

(** [make_shared<BlockHeader>(h)] *)
Definition make_shared (h : BlockHeader) : Chain Ptr := fun bc =>
  let a := fresh (dom (heap_ bc)) in
  Ok (Some a, set_heap (<[a := h]> (heap_ bc)) bc).

(** ** Construction and additions *)

Definition Blockchain_new (genesisHash : HashString) : Blockchain := {|
  heap_ := ∅; genesisHash_ := genesisHash; headerMap_ := []; newlyParsedBlocks_ := [];
  headersByHeight_ := []; headersById_ := []; topBlockPtr_ := None; topBlockId_ := 0;
  topID_ := 0 |}.

Definition clear : Chain () :=
  _ ← chain_set (set_newlyParsed []);
  _ ← chain_set (set_headersByHeight []);
  _ ← chain_set (set_headersById []);
  gen ← chain_get genesisHash_;
  p ← make_shared BlockHeader_default;
  _ ← chain_set (set_headerMap (map_put gen p []));
  _ ← chain_set (set_topBlockPtr p);
  _ ← chain_set (set_topBlockId 0);
  chain_set (set_topID 0).

(** [addBlock(blockhash, header, suppressVerbose)]; the warnings are left out. *)
Definition addBlock (blockhash : HashString) (header : Ptr) : Chain () :=
  _ ← chain_set (fun bc => set_headerMap (map_put blockhash header (headerMap_ bc)) bc);
  h ← deref header;
  chain_set (fun bc =>
    set_headersById (map_insert (uniqueID_ h) header (headersById_ bc)).1 bc).

Definition addBlock_at (blockhash : HashString) (header : Ptr) (height dupId : Z) : Chain () :=
  _ ← addBlock blockhash header;
  _ ← update header (set_blockHeight height);
  _ ← update header (set_duplicateID dupId);
  h ← deref header;
  let bhID := uniqueID_ h in
  chain_set (fun bc => if topID_ bc <? bhID then set_topID bhID bc else bc).

Definition addNewBlock (blockhash : HashString) (header : Ptr) : Chain () :=
  _ ← addBlock blockhash header;
  chain_set (fun bc => set_newlyParsed (newlyParsedBlocks_ bc ++ [header]) bc).

Definition getNewUniqueID : Chain Z := fun bc => Ok (topID_ bc, set_topID (wrap 32 (topID_ bc + 1)) bc).

(** One entry of [addBlocksInBulk]: true when the header was added. *)
Definition addBulk_one (header_pair : HashString * Ptr) : Chain bool :=
  let '(hash, header) := header_pair in
  m ← chain_get headerMap_;
  present ← match map_find hash m with
            | None => mret false
            | Some old => h ← deref old; mret (zlen (dataCopy_ h) =? HEADER_SIZE)
            end;
  if (present : bool) then mret false
  else
    _ ← chain_set (set_headerMap (map_put hash header m));
    h ← deref header;
    _ ← chain_set (fun bc => set_headersById (map_put (uniqueID_ h) header (headersById_ bc)) bc);
    _ ← chain_set (fun bc => set_newlyParsed (newlyParsedBlocks_ bc ++ [header]) bc);
    mret true.

Fixpoint addBulk_loop (bhMap : stdmap HashString Ptr) (returnSet : stdmap Z ()) : Chain (stdmap Z ()) :=
  match bhMap with
  | [] => mret returnSet
  | header_pair :: bhMap =>
      added ← addBulk_one header_pair;
      if (added : bool) then
        h ← deref header_pair.2;
        addBulk_loop bhMap (set_insert (uniqueID_ h) returnSet)
      else addBulk_loop bhMap returnSet
  end.

Definition addBlocksInBulk (bhMap : stdmap HashString Ptr) : Chain (list Z) :=
  s ← addBulk_loop bhMap []; mret (map_keys s).

(** [auto header = headerMap_[hash]; header = headerPair.second]: the map gets
    a null entry when it had none, and the assignment changes a local copy. *)
Definition forceAdd_one (headerPair : HashString * Ptr) : Chain () :=
  let '(hash, header) := headerPair in
  _ ← chain_set (fun bc => set_headerMap (map_insert hash None (headerMap_ bc)).1 bc);
  h ← deref header;
  _ ← chain_set (fun bc => set_headersById (map_put (uniqueID_ h) header (headersById_ bc)) bc);
  chain_set (fun bc => set_newlyParsed (newlyParsedBlocks_ bc ++ [header]) bc).

Definition forceAddBlocksInBulk (bhMap : stdmap HashString Ptr) : Chain () :=
  chain_for forceAdd_one bhMap.

(** ** Lookups *)

Definition top : Chain Ptr := chain_get topBlockPtr_.

Definition getGenesisBlock : Chain Ptr :=
  m ← chain_get headerMap_;
  gen ← chain_get genesisHash_;
  match map_find gen m with Some p => mret p | None => chain_throw RuntimeError end.

Definition getHeaderByHeight (index : Z) : Chain Ptr :=
  l ← chain_get headersByHeight_;
  match znth l index with Some p => mret p | None => chain_throw RangeError end.

(** The [const] overload compares [cbegin() + index] with [cend()] only. *)
Definition getHeaderByHeight_const (index : Z) : Chain Ptr :=
  l ← chain_get headersByHeight_;
  if (index =? zlen l) then chain_throw RangeError
  else match znth l index with Some p => mret p | None => chain_throw UB end.

Definition hasHeaderByHeight (height : Z) : Chain bool :=
  l ← chain_get headersByHeight_; mret (negb (zlen l <=? height)).

Definition getHeaderByHash (blkHash : HashString) : Chain Ptr :=
  m ← chain_get headerMap_;
  match map_find blkHash m with Some p => mret p | None => chain_throw RangeError end.

Definition getHeaderById (id : Z) : Chain Ptr :=
  m ← chain_get headersById_;
  match map_find id m with Some p => mret p | None => chain_throw RangeError end.

Definition hasHeaderWithHash (txHash : HashString) : Chain bool :=
  m ← chain_get headerMap_;
  mret (match map_find txHash m with Some _ => true | None => false end).

(** A [TxRef] is its six-byte key (DBUtils). *)
Definition getHeaderPtrForTxRef (txr : list byte) : Chain Ptr :=
  if negb (0 <? zlen txr) then chain_throw RangeError
  else
    hgt ← chain_of (TxRef_getBlockHeight txr);
    dup ← chain_of (TxRef_getDuplicateID txr);
    bh ← getHeaderByHeight_const hgt;
    h ← deref bh;
    if negb (duplicateID_ h =? dup) then chain_throw RuntimeError else mret bh.

Definition getHeaderPtrForTx (txr : list byte) : Chain Ptr :=
  if negb (0 <? zlen txr) then chain_throw RuntimeError else getHeaderPtrForTxRef txr.

(** ** Difficulty sums: [traceChainDown] *)

(** The walk down: pushes every header whose sum is negative, with its
    difficulty, until it finds one that is not.  [room] is what is left of the
    two vectors of [headerMap_.size()] elements; a store past them is
    undefined.  [None]: the chain ends in a header whose parent is unknown. *)
Fixpoint trace_walk (room : nat) (thisPtr : Ptr) (stack : list (Ptr * double))
    : Chain (option (Ptr * list (Ptr * double))) :=
  h ← deref thisPtr;
  if dltb (difficultySum_ h) dbl_0 then
    match room with
    | O => chain_throw UB
    | S room =>
        prev ← chain_of (getPrevHash h);
        m ← chain_get headerMap_;
        match map_find prev m with
        | Some p => trace_walk room p ((thisPtr, difficultyDbl_ h) :: stack)
        | None => _ ← update thisPtr (set_isOrphan true); mret None
        end
    end
  else mret (Some (thisPtr, stack)).

(** The walk back up, from the header pushed last. *)
Fixpoint trace_unwind (seedDiffSum : double) (blkHeight : Z) (stack : list (Ptr * double)) : Chain () :=
  match stack with
  | [] => mret tt
  | (thisPtr, d) :: stack =>
      let seedDiffSum := dadd seedDiffSum d in
      let blkHeight := wrap 32 (blkHeight + 1) in
      _ ← update thisPtr (fun h => set_isOrphan false (set_blockHeight blkHeight
            (set_difficultySum seedDiffSum (set_difficultyDbl d h))));
      trace_unwind seedDiffSum blkHeight stack
  end.

Definition traceChainDown (bhpStart : Ptr) : Chain double :=
  h ← deref bhpStart;
  if dltb dbl_0 (difficultySum_ h) then mret (difficultySum_ h)
  else
    m ← chain_get headerMap_;
    walked ← trace_walk (length m) bhpStart [];
    match walked with
    | None => mret dbl_max
    | Some (thisPtr, stack) =>
        h ← deref thisPtr;
        _ ← trace_unwind (difficultySum_ h) (blockHeight_ h) stack;
        h ← deref bhpStart;
        mret (difficultySum_ h)
    end.

(** ** Organising: [organizeChain] *)

Definition reset_header (h : BlockHeader) : BlockHeader :=
  set_isMainBranch false (set_nextHash EmptyHash (set_isFinishedCalc false
    (set_blockHeight 0 (set_difficultySum dbl_m1 h)))).

Definition reset_headers : Chain () :=
  m ← chain_get headerMap_;
  _ ← chain_for (fun p => update p reset_header) (map_values m);
  _ ← chain_set (set_topBlockPtr None);
  chain_set (set_topID 0).

Definition genesis_header (h : BlockHeader) : BlockHeader :=
  set_isInitialized true (set_isFinishedCalc true (set_isOrphan false (set_isMainBranch true
    (set_difficultySum dbl_1 (set_difficultyDbl dbl_1 (set_blockHeight 0 h)))))).

(** The header with id [topBlockId_], or else the genesis block. *)
Definition find_prevTop (genBlock : Ptr) : Chain Ptr :=
  ids ← chain_get headersById_;
  id ← chain_get topBlockId_;
  mret (match map_find id ids with Some p => p | None => genBlock end).

(** The loop over all headers: track the maximal difficulty sum. *)
Fixpoint scan_headers (headers : list Ptr) (maxDiffSum : double) : Chain () :=
  match headers with
  | [] => mret tt
  | header :: headers =>
      thisDiffSum ← traceChainDown header;
      h ← deref header;
      if isOrphan_ h then scan_headers headers maxDiffSum
      else if dltb maxDiffSum thisDiffSum then
        _ ← chain_set (set_topBlockPtr header);
        _ ← chain_set (set_topBlockId (uniqueID_ h));
        scan_headers headers thisDiffSum
      else scan_headers headers maxDiffSum
  end.

(** [headersByHeight_[i] = p]; out of range is undefined. *)
Definition put_height (i : Z) (p : Ptr) : Chain () := fun bc =>
  match znth (headersByHeight_ bc) i with
  | Some _ => Ok (tt, set_headersByHeight (<[Z.to_nat i := p]> (headersByHeight_ bc)) bc)
  | None => Err UB
  end.

(** [deque::resize]: new elements are null. *)
Definition resize_heights (n : Z) : Chain () :=
  chain_set (fun bc => set_headersByHeight (take (Z.to_nat n)
    (headersByHeight_ bc ++ replicate (Z.to_nat n - length (headersByHeight_ bc))%nat None)) bc).

(** The walk from the top: every round marks a header that was not marked, so
    there are at most as many rounds as headers ([fuel]).  Returns the header
    it stops at, [prevChainStillValid] and the largest id it has seen. *)
Fixpoint mark_main (fuel : nat) (thisHeaderPtr prevTopBlock : Ptr) (stillValid : bool) (topID : Z)
    : Chain (Ptr * bool * Z) :=
  h ← deref thisHeaderPtr;
  if isFinishedCalc_ h then mret (thisHeaderPtr, stillValid, topID)
  else
    match fuel with
    | O => chain_throw UB
    | S fuel =>
        _ ← update thisHeaderPtr (fun h =>
              set_isOrphan false (set_isMainBranch true (set_isFinishedCalc true h)));
        _ ← put_height (blockHeight_ h) thisHeaderPtr;
        let topID := if topID <? uniqueID_ h then uniqueID_ h else topID in
        prev ← chain_of (getPrevHash h);
        m ← chain_get headerMap_;
        (* [headerMap_[prev]] is a null pointer when the parent is unknown *)
        let parent := default None (map_find prev m) in
        _ ← update parent (set_nextHash (thisHash_ h));
        mark_main fuel parent prevTopBlock (stillValid || bool_decide (parent = prevTopBlock)) topID
    end.

(** From "Set genesis block" to the end of the loop over all headers: sets the
    top and returns the previous one. *)
Definition pick_top : Chain Ptr :=
  genBlock ← getGenesisBlock;
  _ ← update genBlock genesis_header;
  prevTopBlock ← find_prevTop genBlock;
  _ ← chain_set (set_topBlockPtr prevTopBlock);
  prevTop ← deref prevTopBlock;
  m ← chain_get headerMap_;
  _ ← scan_headers (map_values m) (difficultySum_ prevTop);
  mret prevTopBlock.

(** "Walk down the list one more time, set nextHash fields": the header where
    the walk from the top stopped, and [prevChainStillValid]. *)
Definition mark_chain (prevTopBlock : Ptr) (topID : Z) : Chain (Ptr * bool) :=
  topBlock ← top;
  _ ← update topBlock (set_nextHash EmptyHash);
  h ← deref topBlock;
  _ ← resize_heights (wrap 32 (blockHeight_ h + 1));
  n ← chain_get (fun bc => size (heap_ bc));
  '(last, stillValid, topID) ←
    mark_main n topBlock prevTopBlock (bool_decide (topBlock = prevTopBlock)) topID;
  _ ← update last (set_isMainBranch true);
  h ← deref last;
  _ ← put_height (blockHeight_ h) last;
  _ ← chain_set (set_topID (wrap 32 (topID + 1)));
  mret (last, stillValid).

Definition organize_pass : Chain (Ptr * bool) :=
  topID ← chain_get topID_;
  prevTopBlock ← pick_top;
  mark_chain prevTopBlock topID.

(** [organizeChain]: null, or the branch point of a reorganisation.  [depth]
    bounds the recursion: every rebuild after the second would repeat it. *)
Fixpoint organizeChain (depth : nat) (forceRebuild : bool) : Chain Ptr :=
  match depth with
  | O => chain_throw UB
  | S depth =>
      _ ← (if forceRebuild then reset_headers else mret tt);
      '(last, stillValid) ← organize_pass;
      if negb stillValid then _ ← organizeChain depth true; mret last else mret None
  end.

(** [organizeChain_correct] and [forceOrganize_correct] show that 2 is enough. *)
Definition recursion_depth : nat := 2.

Record ReorganizationState := mkReorg {
  prevTopStillValid_ : bool;
  hasNewTop_ : bool;
  prevTop_ : Ptr;
  newTop_ : Ptr;
  reorgBranchPoint_ : Ptr;
}.

Definition organize_ (force : bool) : Chain ReorganizationState :=
  prevTop ← top;
  branch ← organizeChain recursion_depth force;
  newTop ← top;
  mret (mkReorg (bool_decide (branch = None)) (negb (bool_decide (prevTop = newTop)))
          prevTop newTop branch).

Definition organize : Chain ReorganizationState := organize_ false.
Definition forceOrganize : Chain ReorganizationState := organize_ true.

(** [while (!bh->isMainBranch())]; every round goes to a parent, and without a
    cycle of parents there are at most as many as headers. *)
Fixpoint find_main (fuel : nat) (bh : Ptr) : Chain Ptr :=
  h ← deref bh;
  if isMainBranch_ h then mret bh
  else
    match fuel with
    | O => chain_throw UB
    | S fuel =>
        prevHash ← chain_of (getPrevHash h);
        bh ← getHeaderByHash prevHash;
        find_main fuel bh
    end.

Definition findReorgPointFromBlock (blkHash : HashString) : Chain ReorganizationState :=
  bh ← getHeaderByHash blkHash;
  n ← chain_get (fun bc => length (headerMap_ bc));
  found ← find_main n bh;
  newTop ← top;
  mret (if bool_decide (found = bh) then mkReorg true false bh newTop None
        else mkReorg false false bh newTop found).

(** ** Tables derived from the headers *)

Fixpoint mapIDs_loop (l : list (Z * Ptr)) (resultMap : stdmap Z (stdmap Z ())) : Chain (stdmap Z (stdmap Z ())) :=
  match l with
  | [] => mret resultMap
  | (_, p) :: l =>
      h ← deref p;
      let s := default [] (map_find (blkFileNum_ h) resultMap) in
      mapIDs_loop l (map_put (blkFileNum_ h) (set_insert (uniqueID_ h) s) resultMap)
  end.

Definition mapIDsPerBlockFile : Chain (stdmap Z (stdmap Z ())) :=
  ids ← chain_get headersById_; mapIDs_loop ids [].

Fixpoint heightDup_loop (l : list (Z * Ptr)) (hd_map : stdmap Z (Z * Z)) : Chain (stdmap Z (Z * Z)) :=
  match l with
  | [] => mret hd_map
  | (id, p) :: l =>
      h ← deref p;
      heightDup_loop l (map_insert id (blockHeight_ h, duplicateID_ h) hd_map).1
  end.

Definition getHeightAndDupMap : Chain (stdmap Z (Z * Z)) :=
  ids ← chain_get headersById_; heightDup_loop ids [].
