(* ===== verification/BlockchainSpec.v ===== *)
(** * BlockchainSpec: what [Blockchain] promises

    The chain of a block is the list of its ancestors down to the genesis
    block; its difficulty sum is the sum of their difficulties in that order.
    [wf] is what the tables satisfy, [organized] what [organizeChain]
    establishes: the top is a block of maximal sum, and every flag, height and
    link of every header agrees with the chain of the top. *)

From S2P Require Import Prelude BinaryData BinaryIO Hashing StdMap BlockHeader DBUtils Blockchain.

(** ** Chains *)

Section chains.
Implicit Types (bc : Blockchain) (a b g : nat) (l : list nat).

Definition gen_of bc : option nat :=
  default None (map_find (genesisHash_ bc) (headerMap_ bc)).

(** The parent of a header, when it is known. *)
Definition prev_of bc a : option nat :=
  h ← heap_ bc !! a;
  match getPrevHash h with
  | Ok k => default None (map_find k (headerMap_ bc))
  | Err _ => None
  end.

Definition known bc a : Prop := Some a ∈ map_values (headerMap_ bc).

(** The ancestors of a header, itself first; the flag tells whether they end in
    the genesis block or in a header whose parent is unknown. *)
Inductive trail bc : nat -> list nat -> bool -> Prop :=
  | trail_gen a : gen_of bc = Some a -> trail bc a [a] true
  | trail_end a : gen_of bc ≠ Some a -> prev_of bc a = None -> trail bc a [a] false
  | trail_step a b l e : gen_of bc ≠ Some a -> prev_of bc a = Some b -> trail bc b l e ->
      trail bc a (a :: l) e.

Definition chain bc a l : Prop := trail bc a l true.
Definition connected bc a : Prop := exists l, chain bc a l.

(** The difficulty [organizeChain] uses: 1.0 for the genesis block. *)
Definition diff_of bc a : double :=
  if decide (gen_of bc = Some a) then dbl_1
  else match heap_ bc !! a with Some h => difficultyDbl_ h | None => dbl_0 end.

Fixpoint chain_sum bc l : double :=
  match l with
  | [] => dbl_0
  | [a] => dbl_1
  | a :: l => dadd (chain_sum bc l) (diff_of bc a)
  end.

Definition sum_of bc a (s : double) : Prop := exists l, chain bc a l /\ s = chain_sum bc l.

(** ** Well-formed tables

    [rank] orders the hashes: a header's hash is above the hash of its parent.
    That such an order exists is what keeps a chain of hashes free of cycles. *)
Record wf (rank : HashString -> nat) bc : Prop := {
  wf_ordered : map_ordered (headerMap_ bc);
  wf_ids_ordered : map_ordered (headersById_ bc);
  wf_header k p : map_find k (headerMap_ bc) = Some p ->
    exists a h, p = Some a /\ heap_ bc !! a = Some h /\ thisHash_ h = k /\
      (k ≠ genesisHash_ bc -> dbl_nonneg (difficultyDbl_ h) /\
         exists prev, getPrevHash h = Ok prev /\ (rank prev < rank k)%nat);
  wf_genesis : is_Some (map_find (genesisHash_ bc) (headerMap_ bc));
  wf_id a h : known bc a -> heap_ bc !! a = Some h ->
    map_find (uniqueID_ h) (headersById_ bc) = Some (Some a);
  wf_byId id p : map_find id (headersById_ bc) = Some p -> exists a, p = Some a /\ known bc a;
  wf_size : zlen (headerMap_ bc) < 2 ^ 32;
}.

(** ** Difficulty sums, heights and orphans *)

Definition solved bc a (h : BlockHeader) : Prop :=
  exists l, chain bc a l /\ difficultySum_ h = chain_sum bc l /\
    blockHeight_ h = zlen l - 1 /\ isOrphan_ h = false.

Definition unsolved bc a (h : BlockHeader) : Prop :=
  dltb (difficultySum_ h) dbl_0 = true /\ (isOrphan_ h = true \/ connected bc a).

(** Every sum that was computed is right; the others are still negative. *)
Definition sums_ok bc : Prop :=
  forall a h, known bc a -> heap_ bc !! a = Some h -> solved bc a h \/ unsolved bc a h.

(** Nothing is left to compute for [a]. *)
Definition settled bc a : Prop :=
  exists h, heap_ bc !! a = Some h /\
    (solved bc a h \/ (~ connected bc a /\ unsolved bc a h)).

(** ** Main chain *)

Definition marks_ok bc l : Prop :=
  forall a h, known bc a -> heap_ bc !! a = Some h ->
    isFinishedCalc_ h = bool_decide (a ∈ l) /\ isMainBranch_ h = bool_decide (a ∈ l).

(** Each block of the chain links to the one after it. *)
Definition links_ok bc l : Prop :=
  forall i c a hc h, l !! i = Some c -> l !! S i = Some a ->
    heap_ bc !! c = Some hc -> heap_ bc !! a = Some h -> nextHash_ h = thisHash_ hc.

(** The header [organizeChain] takes for the previous top. *)
Definition top_is bc t : Prop :=
  map_find (topBlockId_ bc) (headersById_ bc) = Some (Some t) \/
  (map_find (topBlockId_ bc) (headersById_ bc) = None /\ gen_of bc = Some t).

Record organized_on bc (t : nat) l : Prop := {
  org_top : topBlockPtr_ bc = Some t;
  org_chain : chain bc t l;
  org_max a s : known bc a -> sum_of bc a s -> dltb (chain_sum bc l) s = false;
  org_settled a : known bc a -> settled bc a;
  org_marks : marks_ok bc l;
  org_heights : headersByHeight_ bc = Some <$> rev l;
  org_links : links_ok bc l;
  org_last h : heap_ bc !! t = Some h -> nextHash_ h = EmptyHash;
  org_id : top_is bc t;
}.

(** What [organize] may be called on: the result of an earlier run with new
    headers added, or a fresh blockchain.  The flags and the sum of the genesis
    block do not matter, [organizeChain] sets them.  [l0] is the main chain. *)
Definition ready_header bc l0 a (h : BlockHeader) : Prop :=
  (solved bc a h \/ unsolved bc a h) /\
  isFinishedCalc_ h = bool_decide (a ∈ l0) /\ isMainBranch_ h = bool_decide (a ∈ l0).

Definition main_from bc l0 t : Prop :=
  chain bc t l0 /\
  (gen_of bc = Some t \/
   (links_ok bc l0 /\ top_is bc t /\
    (forall i a, rev l0 !! i = Some a -> headersByHeight_ bc !! i = Some (Some a)))).

Definition main_ready bc l0 : Prop := exists t, main_from bc l0 t.

Record ready bc l0 : Prop := {
  rdy_header a h : known bc a -> heap_ bc !! a = Some h -> gen_of bc ≠ Some a ->
    ready_header bc l0 a h;
  rdy_main : main_ready bc l0;
}.
End chains.

(** ** Facts of the static tables *)

Section static.
Context (rank : HashString -> nat) (bc : Blockchain) (Hwf : wf rank bc).
Implicit Types (a b g : nat) (l : list nat).

Lemma known_find a : known bc a <-> exists k, map_find k (headerMap_ bc) = Some (Some a).
Proof using Hwf.
  split.
  - apply map_value_find, Hwf.
  - intros [k Hk]. by eapply map_find_value; [apply Hwf|].
Qed.

Lemma known_header a : known bc a ->
  exists h, heap_ bc !! a = Some h /\ map_find (thisHash_ h) (headerMap_ bc) = Some (Some a) /\
    (gen_of bc ≠ Some a -> dbl_nonneg (difficultyDbl_ h) /\
       exists prev, getPrevHash h = Ok prev /\ (rank prev < rank (thisHash_ h))%nat).
Proof using Hwf.
  intros [k Hk]%known_find. destruct (wf_header _ _ Hwf _ _ Hk) as (b & h & [= <-] & Hh & <- & Hp).
  exists h. split; [done|]. split; [done|]. intros Hg. apply Hp. intros E. apply Hg.
  unfold gen_of. by rewrite <- E, Hk.
Qed.

Lemma gen_known : exists g, gen_of bc = Some g /\ known bc g.
Proof using Hwf.
  destruct (wf_genesis _ _ Hwf) as [p Hp].
  destruct (wf_header _ _ Hwf _ _ Hp) as (g & h & -> & _).
  exists g. unfold gen_of. rewrite Hp. split; [done|]. apply known_find. eauto.
Qed.

Lemma prev_of_known a b : prev_of bc a = Some b -> known bc b.
Proof using Hwf.
  unfold prev_of. intros H. apply known_find.
  destruct (heap_ bc !! a) as [h|]; simpl in H; [|done].
  destruct (getPrevHash h) as [k|]; [|done]. exists k.
  destruct (map_find k (headerMap_ bc)); simpl in H; by subst.
Qed.

(** The rank of a header is the rank of its hash. *)
Definition hrank a : nat := match heap_ bc !! a with Some h => rank (thisHash_ h) | None => 0%nat end.

Lemma prev_of_rank a b : known bc a -> gen_of bc ≠ Some a -> prev_of bc a = Some b ->
  (hrank b < hrank a)%nat.
Proof using Hwf.
  intros Ha Hg Hp. pose proof (prev_of_known _ _ Hp) as Hb.
  destruct (known_header _ Ha) as (h & Hh & _ & Hr). destruct (Hr Hg) as (_ & k & Hk & Hlt).
  unfold hrank. rewrite Hh. unfold prev_of in Hp. rewrite Hh in Hp. simpl in Hp. rewrite Hk in Hp.
  destruct (map_find k (headerMap_ bc)) as [p|] eqn:E; simpl in Hp; [|done]. subst p.
  destruct (wf_header _ _ Hwf _ _ E) as (b' & hb & [= <-] & Hhb & <- & _). by rewrite Hhb.
Qed.

Lemma trail_exists a : known bc a -> exists l e, trail bc a l e.
Proof using Hwf.
  remember (hrank a) as n eqn:En. revert a En.
  induction (lt_wf n) as [n _ IH]. intros a -> Ha.
  destruct (decide (gen_of bc = Some a)) as [Hg|Hg].
  { exists [a], true. by constructor. }
  destruct (prev_of bc a) as [b|] eqn:Hp.
  - destruct (IH _ (prev_of_rank _ _ Ha Hg Hp) b eq_refl) as (l & e & Hl);
      [by eapply prev_of_known|].
    exists (a :: l), e. by econstructor.
  - exists [a], false. by constructor.
Qed.

Lemma trail_det a l e l' e' : trail bc a l e -> trail bc a l' e' -> l = l' /\ e = e'.
Proof.
  intros H. revert l' e'. induction H as [a Hg|a Hg Hp|a b l e Hg Hp Ht IH];
    intros l' e' H'; inversion H'; subst; try congruence; [done..|].
  match goal with H : prev_of bc a = Some ?b' |- _ => assert (b' = b) as -> by congruence end.
  destruct (IH _ _ ltac:(eassumption)) as [-> ->]. done.
Qed.

Lemma trail_head a l e : trail bc a l e -> exists l', l = a :: l'.
Proof. destruct 1; eauto. Qed.

Lemma trail_known a l e : known bc a -> trail bc a l e -> Forall (known bc) l.
Proof using Hwf.
  intros Ha H. induction H as [| |a b l e Hg Hp Ht IH]; [by repeat constructor..|].
  constructor; [done|]. apply IH. by eapply prev_of_known.
Qed.

Lemma trail_ranks a l e : known bc a -> trail bc a l e -> Forall (fun b => (hrank b <= hrank a)%nat) l.
Proof using Hwf.
  intros Ha H. induction H as [| |a b l e Hg Hp Ht IH]; [by repeat constructor..|].
  constructor; [done|]. pose proof (prev_of_rank _ _ Ha Hg Hp) as Hr.
  eapply Forall_impl; [apply IH; by eapply prev_of_known|]. simpl. lia.
Qed.

Lemma trail_NoDup a l e : known bc a -> trail bc a l e -> NoDup l.
Proof using Hwf.
  intros Ha H. induction H as [a|a|a b l e Hg Hp Ht IH].
  1,2: apply NoDup_singleton.
  pose proof (prev_of_known _ _ Hp) as Hb. apply NoDup_cons. split; [|by apply IH].
  intros Hin. pose proof (trail_ranks _ _ _ Hb Ht) as Hr. rewrite Forall_forall in Hr.
  apply Hr in Hin. pose proof (prev_of_rank _ _ Ha Hg Hp). lia.
Qed.

Lemma trail_length a l e : known bc a -> trail bc a l e -> (length l <= length (headerMap_ bc))%nat.
Proof using Hwf.
  intros Ha H. pose proof (trail_NoDup _ _ _ Ha H) as Hnd.
  pose proof (trail_known _ _ _ Ha H) as Hk.
  rewrite <- (length_fmap Some l), <- (length_map snd (headerMap_ bc)).
  apply submseteq_length, NoDup_submseteq; [by apply NoDup_fmap_2; [apply _|]|].
  intros p (x & -> & Hx)%list_elem_of_fmap. rewrite Forall_forall in Hk. by apply Hk.
Qed.

(** A suffix of a trail is the trail of its first header. *)
Lemma trail_suffix a l e l1 b l2 : trail bc a l e -> l = l1 ++ b :: l2 -> trail bc b (b :: l2) e.
Proof.
  intros H. revert l1. induction H as [a Hg|a Hg Hp|a c l e Hg Hp Ht IH]; intros l1 E.
  - destruct l1 as [|? [|]]; simplify_eq/=. by constructor.
  - destruct l1 as [|? [|]]; simplify_eq/=. by constructor.
  - destruct l1 as [|x l1]; simplify_eq/=; [by econstructor|]. by eapply IH.
Qed.

Lemma chain_sum_pos a l : known bc a -> chain bc a l -> dbl_pos (chain_sum bc l).
Proof using Hwf.
  unfold chain. intros Ha H. remember true as e eqn:Ee.
  induction H as [a Hg|a Hg Hp|a b l e Hg Hp Ht IH]; [done|done|].
  pose proof (prev_of_known _ _ Hp) as Hb.
  destruct (trail_head _ _ _ Ht) as [l' ->]. simpl.
  apply dadd_pos; [by apply IH|]. unfold diff_of. rewrite decide_False by done.
  destruct (known_header _ Ha) as (h & Hh & _ & Hd). rewrite Hh. by apply Hd.
Qed.

Lemma sum_of_det a s s' : sum_of bc a s -> sum_of bc a s' -> s = s'.
Proof. intros (l & Hl & ->) (l' & Hl' & ->). by destruct (trail_det _ _ _ _ _ Hl Hl') as [-> _]. Qed.

Lemma sum_of_facts a s : known bc a -> sum_of bc a s ->
  is_nan s = false /\ dltb dbl_m1 s = true /\ dltb dbl_0 s = true /\ dltb s dbl_0 = false.
Proof using Hwf.
  intros Ha (l & Hl & ->). pose proof (chain_sum_pos _ _ Ha Hl) as Hp.
  assert (dbl_nonneg (chain_sum bc l)) by (by right).
  repeat split; auto using dbl_nonneg_not_nan, dbl_nonneg_m1, dbl_pos_ltb, dbl_nonneg_not_neg.
Qed.

Lemma connected_dec a : known bc a -> connected bc a \/ exists l, trail bc a l false.
Proof using Hwf.
  intros (l & [] & Hl)%trail_exists; [left|right]; by exists l.
Qed.

Lemma trail_false_not_connected a l : trail bc a l false -> ~ connected bc a.
Proof. intros H [l' H']. by destruct (trail_det _ _ _ _ _ H H'). Qed.

Lemma chain_height a l : known bc a -> chain bc a l -> 0 <= zlen l - 1 /\ zlen l < 2 ^ 32.
Proof using Hwf.
  intros Ha H. pose proof (trail_length _ _ _ Ha H). pose proof (wf_size _ _ Hwf).
  destruct (trail_head _ _ _ H) as [l' ->]. unfold zlen in *. simpl length in *. lia.
Qed.
End static.

(** ** Organising does not change the chains

    [same_chain]: the tables are the same and every header keeps its bytes, its
    hash, its id and its difficulty (but for the genesis block's). *)

Definition static_of (bc : Blockchain) (a : nat) (h : BlockHeader) : list byte * list byte * Z * double :=
  (dataCopy_ h, thisHash_ h, uniqueID_ h,
   if decide (gen_of bc = Some a) then dbl_1 else difficultyDbl_ h).

Record same_chain (bc bc' : Blockchain) : Prop := {
  sc_map : headerMap_ bc' = headerMap_ bc;
  sc_gen : genesisHash_ bc' = genesisHash_ bc;
  sc_ids : headersById_ bc' = headersById_ bc;
  sc_new : newlyParsedBlocks_ bc' = newlyParsedBlocks_ bc;
  sc_heap a : static_of bc a <$> heap_ bc' !! a = static_of bc a <$> heap_ bc !! a;
}.

Section same_chain.
Implicit Types (bc : Blockchain) (a b : nat) (l : list nat).

Lemma same_gen bc bc' : same_chain bc bc' -> gen_of bc' = gen_of bc.
Proof. intros []. unfold gen_of. congruence. Qed.

#[export] Instance same_chain_preorder : PreOrder same_chain.
Proof.
  split; [by split|]. intros x y z Hxy Hyz.
  assert (static_of y = static_of x) as E by (unfold static_of; by rewrite (same_gen _ _ Hxy)).
  split; try (destruct Hxy, Hyz; congruence).
Qed.

Context {bc bc' : Blockchain} (Hs : same_chain bc bc').

Lemma same_lookup a h : heap_ bc !! a = Some h ->
  exists h', heap_ bc' !! a = Some h' /\ dataCopy_ h' = dataCopy_ h /\ thisHash_ h' = thisHash_ h /\
    uniqueID_ h' = uniqueID_ h /\ (gen_of bc ≠ Some a -> difficultyDbl_ h' = difficultyDbl_ h).
Proof using Hs.
  intros Hh. pose proof (sc_heap _ _ Hs a) as E. rewrite Hh in E.
  destruct (heap_ bc' !! a) as [h'|]; [|done]. exists h'. simpl in E. unfold static_of in E.
  injection E as E1 E2 E3 E4. repeat split; [done..|]. intros Hg. by rewrite !decide_False in E4.
Qed.

Lemma same_lookup_inv a h' : heap_ bc' !! a = Some h' ->
  exists h, heap_ bc !! a = Some h /\ dataCopy_ h' = dataCopy_ h /\ thisHash_ h' = thisHash_ h /\
    uniqueID_ h' = uniqueID_ h /\ (gen_of bc ≠ Some a -> difficultyDbl_ h' = difficultyDbl_ h).
Proof using Hs.
  intros Hh. pose proof (sc_heap _ _ Hs a) as E. rewrite Hh in E.
  destruct (heap_ bc !! a) as [h|] eqn:E'; [|done].
  destruct (same_lookup a h E') as (h2 & Hh2 & ?). exists h. split; [done|]. by simplify_eq.
Qed.

Lemma same_prev a : prev_of bc' a = prev_of bc a.
Proof using Hs.
  unfold prev_of. rewrite (sc_map _ _ Hs). pose proof (sc_heap _ _ Hs a) as E.
  destruct (heap_ bc' !! a), (heap_ bc !! a); try done; simpl in *.
  unfold getPrevHash. unfold static_of in E. by injection E as -> _ _ _.
Qed.

Lemma same_known a : known bc' a <-> known bc a.
Proof using Hs. unfold known. by rewrite (sc_map _ _ Hs). Qed.

Lemma same_trail a l e : trail bc a l e -> trail bc' a l e.
Proof using Hs.
  induction 1; [apply trail_gen|apply trail_end|eapply trail_step];
    rewrite ?(same_gen _ _ Hs), ?same_prev; eauto.
Qed.

Lemma same_trail_inv a l e : trail bc' a l e -> trail bc a l e.
Proof using Hs.
  induction 1; [apply trail_gen|apply trail_end|eapply trail_step];
    rewrite <- ?(same_gen _ _ Hs), <- ?same_prev; eauto.
Qed.

Lemma same_connected a : connected bc' a <-> connected bc a.
Proof using Hs. split; intros [l Hl]; exists l; [by apply same_trail_inv|by apply same_trail]. Qed.

Lemma same_diff a : diff_of bc' a = diff_of bc a.
Proof using Hs.
  unfold diff_of. rewrite (same_gen _ _ Hs). case_decide; [done|].
  destruct (heap_ bc !! a) as [h|] eqn:E.
  - destruct (same_lookup _ _ E) as (h' & -> & _ & _ & _ & Hd). auto.
  - destruct (heap_ bc' !! a) as [h'|] eqn:E'; [|done].
    destruct (same_lookup_inv _ _ E') as (? & ? & _). congruence.
Qed.

Lemma same_chain_sum l : chain_sum bc' l = chain_sum bc l.
Proof using Hs.
  induction l as [|a [|b l] IH]; [done..|].
  change (dadd (chain_sum bc' (b :: l)) (diff_of bc' a) = dadd (chain_sum bc (b :: l)) (diff_of bc a)).
  by rewrite IH, same_diff.
Qed.

Lemma same_sum_of a s : sum_of bc' a s <-> sum_of bc a s.
Proof using Hs.
  unfold sum_of, chain. split; intros (l & Hl & ->); exists l; rewrite same_chain_sum;
    eauto using same_trail, same_trail_inv.
Qed.

Lemma same_solved a h : solved bc' a h <-> solved bc a h.
Proof using Hs.
  unfold solved, chain. split; intros (l & Hl & -> & -> & ->); exists l; rewrite same_chain_sum;
    eauto using same_trail, same_trail_inv.
Qed.

Lemma same_unsolved a h : unsolved bc' a h <-> unsolved bc a h.
Proof using Hs. unfold unsolved. by rewrite same_connected. Qed.

Lemma same_wf rank : wf rank bc -> wf rank bc'.
Proof using Hs.
  intros Hwf. pose proof Hs as [E1 E2 E3 E4 E5].
  split; rewrite ?E1, ?E2, ?E3; try apply Hwf.
  - intros k p Hk. destruct (wf_header _ _ Hwf _ _ Hk) as (a & h & -> & Hh & Ht & Hp).
    destruct (same_lookup _ _ Hh) as (h' & Hh' & Ed & Et & Eu & Ef).
    exists a, h'. split; [done|]. split; [done|]. split; [congruence|]. intros Hne. destruct (Hp Hne) as [Hd Hr].
    unfold getPrevHash. rewrite Ed, Ef; [done|]. unfold gen_of. intros Hg.
    destruct (map_find (genesisHash_ bc) (headerMap_ bc)) as [p'|] eqn:Eg; simpl in Hg; [|done].
    destruct (wf_header _ _ Hwf _ _ Eg) as (? & ? & ? & ? & ? & _). congruence.
  - intros a h' Ha Hh'. apply same_known in Ha.
    destruct (same_lookup_inv _ _ Hh') as (h & Hh & _ & _ & -> & _). by apply (wf_id _ _ Hwf).
  - intros id p (a & -> & Ha)%(wf_byId _ _ Hwf). exists a. split; [done|]. by apply same_known.
Qed.
End same_chain.

(** ** Difficulty sums: [traceChainDown] *)

(** What a trace changes: sums, heights and orphan flags of unsolved headers. *)
Record trace_rel (bc bc' : Blockchain) : Prop := {
  tr_same : same_chain bc bc';
  tr_top : topBlockPtr_ bc' = topBlockPtr_ bc;
  tr_topId : topBlockId_ bc' = topBlockId_ bc;
  tr_topID : topID_ bc' = topID_ bc;
  tr_heights : headersByHeight_ bc' = headersByHeight_ bc;
  tr_heap a h : heap_ bc !! a = Some h -> exists h', heap_ bc' !! a = Some h' /\
    isFinishedCalc_ h' = isFinishedCalc_ h /\ isMainBranch_ h' = isMainBranch_ h /\
    nextHash_ h' = nextHash_ h /\ (solved bc a h -> h' = h);
}.

#[export] Instance trace_rel_preorder : PreOrder trace_rel.
Proof.
  split; [split; try done; eauto 10|]. intros x y z [] []. split; try congruence.
  - by etrans.
  - intros a h Hh. destruct (tr_heap0 _ _ Hh) as (h1 & Hh1 & ? & ? & ? & Hsol1).
    destruct (tr_heap1 _ _ Hh1) as (h2 & Hh2 & ? & ? & ? & Hsol2). exists h2.
    repeat split; try congruence. intros Hsol. pose proof (Hsol1 Hsol) as ->.
    apply Hsol2. by apply (same_solved tr_same0).
Qed.

Section trace.
Context (rank : HashString -> nat).
Implicit Types (bc : Blockchain) (a b : nat) (l : list nat).

Lemma solved_settled bc a h : heap_ bc !! a = Some h -> solved bc a h -> settled bc a.
Proof. intros Hh Hs. exists h. auto. Qed.

Lemma solved_not_neg bc a h : wf rank bc -> known bc a -> solved bc a h ->
  dltb (difficultySum_ h) dbl_0 = false /\ dltb dbl_0 (difficultySum_ h) = true.
Proof.
  intros Hwf Ha (l & Hl & -> & _).
  by destruct (sum_of_facts rank bc Hwf a (chain_sum bc l) Ha) as (_ & _ & ? & ?); [exists l|].
Qed.

(** One header is written: its new sum, height and orphan flag. *)
Lemma trace_write bc a h d s z o :
  wf rank bc -> sums_ok bc -> known bc a -> heap_ bc !! a = Some h -> unsolved bc a h ->
  d = difficultyDbl_ h ->
  let h' := set_isOrphan o (set_blockHeight z (set_difficultySum s (set_difficultyDbl d h))) in
  let bc' := set_heap (<[a := h']> (heap_ bc)) bc in
  (solved bc a h' \/ unsolved bc a h') ->
  trace_rel bc bc' /\ sums_ok bc'.
Proof.
  intros Hwf Hok Ha Hh Hu -> h' bc' Hnew.
  assert (same_chain bc bc') as Hs.
  { split; try done. intros b. simpl. destruct (decide (a = b)) as [<-|Hne].
    - by rewrite lookup_insert_eq, Hh.
    - by rewrite lookup_insert_ne. }
  split.
  - split; try done. intros b hb Hb. simpl. destruct (decide (a = b)) as [<-|Hne].
    + rewrite lookup_insert_eq. exists h'. simplify_eq. repeat split; try done.
      intros Hsol. destruct (solved_not_neg _ _ _ Hwf Ha Hsol) as [Hn _].
      destruct Hu as [Hu _]. congruence.
    + rewrite lookup_insert_ne by done. eauto 10.
  - intros b hb Hb Hhb. apply (same_known Hs) in Hb. rewrite (same_solved Hs), (same_unsolved Hs).
    simpl in Hhb. destruct (decide (a = b)) as [<-|Hne].
    + rewrite lookup_insert_eq in Hhb. by simplify_eq.
    + rewrite lookup_insert_ne in Hhb by done. by apply Hok.
Qed.

Definition stack_of bc l : list (Ptr * double) := map (fun x => (Some x, diff_of bc x)) l.

Lemma deref_ok bc a h : heap_ bc !! a = Some h -> deref (Some a) bc = Ok (h, bc).
Proof. unfold deref. simpl. by intros ->. Qed.

Lemma update_ok bc a h f : heap_ bc !! a = Some h ->
  update (Some a) f bc = Ok (tt, set_heap (<[a := f h]> (heap_ bc)) bc).
Proof. unfold update. by intros ->. Qed.

Lemma chain_bind_ok {A B} (m : Chain A) (f : A -> Chain B) bc x bc' :
  m bc = Ok (x, bc') -> (m ≫= f) bc = f x bc'.
Proof. unfold mbind, chain_bind. by intros ->. Qed.

Lemma chain_of_ok {A} (r : result A) x bc : r = Ok x -> chain_of r bc = Ok (x, bc).
Proof. by intros ->. Qed.

Lemma chain_get_ok {A} (f : Blockchain -> A) bc : chain_get f bc = Ok (f bc, bc).
Proof. done. Qed.

Lemma chain_set_ok f bc : chain_set f bc = Ok (tt, f bc).
Proof. done. Qed.

(** The parent of a header that is not the genesis block, as the code finds it. *)
Lemma prev_lookup bc a h : wf rank bc -> known bc a -> heap_ bc !! a = Some h ->
  gen_of bc ≠ Some a -> exists k, getPrevHash h = Ok k /\
    map_find k (headerMap_ bc) = Some <$> prev_of bc a.
Proof.
  intros Hwf Ha Hh Hg. destruct (known_header _ _ Hwf _ Ha) as (h' & Hh' & _ & Hp). simplify_eq.
  destruct (Hp Hg) as (_ & k & Hk & _). exists k. split; [done|].
  unfold prev_of. rewrite Hh. simpl. rewrite Hk.
  destruct (map_find k (headerMap_ bc)) as [p|] eqn:E; [|done].
  by destruct (wf_header _ _ Hwf _ _ E) as (b & hb & -> & _).
Qed.

Lemma diff_of_header bc a h : gen_of bc ≠ Some a -> heap_ bc !! a = Some h ->
  diff_of bc a = difficultyDbl_ h.
Proof. intros Hg Hh. unfold diff_of. case_decide; [done|]. by rewrite Hh. Qed.

Definition gen_solved bc : Prop :=
  forall g h, gen_of bc = Some g -> heap_ bc !! g = Some h -> solved bc g h.

Lemma trace_walk_chain bc : wf rank bc -> sums_ok bc -> gen_solved bc ->
  forall l a room stack, known bc a -> chain bc a l -> (length l <= room)%nat ->
  exists l1 b lb hb, l = l1 ++ lb /\ chain bc b lb /\ heap_ bc !! b = Some hb /\ solved bc b hb /\
    Forall (fun x => exists h, heap_ bc !! x = Some h /\ unsolved bc x h) l1 /\
    trace_walk room (Some a) stack bc = Ok (Some (Some b, stack_of bc (rev l1) ++ stack), bc).
Proof.
  intros Hwf Hok Hgen l. induction l as [|x l IH]; intros a room stack Ha Hl Hroom.
  { by destruct (trail_head _ _ _ _ Hl). }
  destruct (trail_head _ _ _ _ Hl) as [l' E]. injection E as <- <-.
  destruct (known_header _ _ Hwf _ Ha) as (h & Hh & _ & _).
  destruct room as [|room]; [simpl in Hroom; lia|].
  cbn [trace_walk]. rewrite (chain_bind_ok _ _ _ _ _ (deref_ok _ _ _ Hh)).
  destruct (Hok _ _ Ha Hh) as [Hs|Hu].
  - exists [], x, (x :: l), h. destruct (solved_not_neg _ _ _ Hwf Ha Hs) as [-> _].
    repeat split; done.
  - pose proof Hu as [-> _].
    assert (gen_of bc ≠ Some x) as Hg.
    { intros Hg. destruct (solved_not_neg _ _ _ Hwf Ha (Hgen _ _ Hg Hh)) as [? _].
      destruct Hu. congruence. }
    destruct (prev_lookup _ _ _ Hwf Ha Hh Hg) as (k & Hk & Hf).
    unfold chain in Hl. inversion Hl as [| |? b ? ? _ Hp Ht]; [by subst|]. subst.
    rewrite Hp in Hf. unfold chain_of. rewrite Hk. simpl.
    unfold mbind, chain_bind. simpl. rewrite Hf. simpl.
    destruct (IH b room ((Some x, difficultyDbl_ h) :: stack)) as (l1 & b' & lb & hb & -> & H);
      [by eapply prev_of_known|done|simpl in Hroom; lia|].
    destruct H as (Hc & Hhb & Hs & Hun & Hw).
    exists (x :: l1), b', lb, hb. repeat split; [done..| |].
    + constructor; eauto.
    + unfold mbind, chain_bind in Hw. rewrite Hw. unfold stack_of. simpl rev.
      rewrite map_app, <- app_assoc. simpl. by rewrite (diff_of_header _ _ _ Hg Hh).
Qed.

(** A chain that ends in an unknown parent: the walk only marks its end. *)
Lemma trace_walk_orphan bc : wf rank bc -> sums_ok bc ->
  forall l a room stack, known bc a -> trail bc a l false -> (length l <= room)%nat ->
  exists bc', trace_walk room (Some a) stack bc = Ok (None, bc') /\ trace_rel bc bc' /\ sums_ok bc'.
Proof.
  intros Hwf Hok l. induction l as [|x l IH]; intros a room stack Ha Hl Hroom.
  { by destruct (trail_head _ _ _ _ Hl). }
  destruct (trail_head _ _ _ _ Hl) as [l' E]. injection E as <- <-.
  destruct (known_header _ _ Hwf _ Ha) as (h & Hh & _ & _).
  destruct room as [|room]; [simpl in Hroom; lia|].
  cbn [trace_walk]. rewrite (chain_bind_ok _ _ _ _ _ (deref_ok _ _ _ Hh)).
  pose proof (trail_false_not_connected _ _ _ Hl) as Hnc.
  destruct (Hok _ _ Ha Hh) as [(l' & Hc & _)|Hu]; [by destruct Hnc; exists l'|].
  pose proof Hu as [-> Ho]. destruct Ho as [Ho|?]; [|done].
  assert (gen_of bc ≠ Some x) as Hg by (intros Hg; inversion Hl; congruence).
  destruct (prev_lookup _ _ _ Hwf Ha Hh Hg) as (k & Hk & Hf).
  rewrite (chain_bind_ok _ _ _ _ _ (chain_of_ok _ _ _ Hk)).
  rewrite (chain_bind_ok _ _ _ _ _ (chain_get_ok _ _)), Hf.
  inversion Hl as [|? _ Hp|? b ? ? _ Hp Ht]; subst; rewrite Hp; cbn [fmap option_fmap option_map].
  - rewrite (chain_bind_ok _ _ _ _ _ (update_ok _ _ _ _ Hh)). eexists. split; [done|].
    assert (set_isOrphan true h = set_isOrphan true (set_blockHeight (blockHeight_ h)
      (set_difficultySum (difficultySum_ h) (set_difficultyDbl (difficultyDbl_ h) h)))) as -> by by destruct h.
    apply trace_write; try done. right. split; [apply Hu|by left].
  - apply IH; [by eapply prev_of_known|done|simpl in Hroom; lia].
Qed.

Lemma trace_unwind_chain rl : forall bc lb a, wf rank bc -> sums_ok bc -> known bc a ->
  chain bc a (rev rl ++ lb) -> lb ≠ [] ->
  Forall (fun x => exists h, heap_ bc !! x = Some h /\ unsolved bc x h) rl ->
  exists bc', trace_unwind (chain_sum bc lb) (zlen lb - 1) (stack_of bc rl) bc = Ok (tt, bc') /\
    trace_rel bc bc' /\ sums_ok bc' /\
    Forall (fun x => exists h, heap_ bc' !! x = Some h /\ solved bc' x h) rl.
Proof.
  induction rl as [|x rl IH]; intros bc lb a Hwf Hok Ha Hc Hlb Hu.
  { exists bc. split; [done|]. split; [reflexivity|]. split; [done|constructor]. }
  simpl rev in Hc. rewrite <- app_assoc in Hc. simpl in Hc.
  pose proof (trail_NoDup _ _ Hwf _ _ _ Ha Hc) as Hnd.
  pose proof (trail_known _ _ Hwf _ _ _ Ha Hc) as Hkn. rewrite Forall_forall in Hkn.
  assert (known bc x) as Hx by (apply Hkn, elem_of_app; right; by left).
  pose proof (trail_suffix _ _ _ _ _ _ _ Hc eq_refl) as Hcx.
  destruct (chain_height _ _ Hwf _ _ Hx Hcx) as [_ Hhgt].
  inversion Hu as [|? ? (h & Hh & Hun) Hu']; subst.
  assert (gen_of bc ≠ Some x) as Hg.
  { intros Hg. inversion Hcx; congruence. }
  pose proof (diff_of_header _ _ _ Hg Hh) as Hd.
  set (h1 := set_isOrphan false (set_blockHeight (wrap 32 (zlen lb - 1 + 1))
    (set_difficultySum (dadd (chain_sum bc lb) (diff_of bc x)) (set_difficultyDbl (diff_of bc x) h)))).
  assert (solved bc x h1) as Hsol1.
  { exists (x :: lb). split; [done|]. split; [by destruct lb|]. split; [|done].
    simpl. rewrite wrap_small by (unfold is_uint; rewrite zlen_cons in Hhgt; zlen_lia). zlen_lia. }
  destruct (trace_write bc x h _ _ _ _ Hwf Hok Hx Hh Hun Hd (or_introl Hsol1)) as [Hr1 Hok1].
  set (bc1 := set_heap _ bc) in *. pose proof (tr_same _ _ Hr1) as Hs1.
  destruct (IH bc1 (x :: lb) a) as (bc2 & Hrun & Hr2 & Hok2 & Hsol); clear IH.
  - by apply (same_wf Hs1).
  - done.
  - by apply (same_known Hs1).
  - by apply (same_trail Hs1).
  - done.
  - rewrite Forall_forall in Hu' |- *. intros y Hy. destruct (Hu' y Hy) as (hy & Hhy & Huy).
    exists hy. rewrite (same_unsolved Hs1). split; [|done]. unfold bc1. simpl.
    rewrite lookup_insert_ne; [done|]. intros <-. rewrite NoDup_app in Hnd.
    destruct Hnd as (_ & Hnd & _). apply (Hnd x); [by apply elem_of_rev|by left].
  - exists bc2. split; [|split; [by etrans|split; [done|]]].
    + cbn [stack_of map trace_unwind]. rewrite (chain_bind_ok _ _ _ _ _ (update_ok _ _ _ _ Hh)).
      fold bc1. rewrite <- Hrun. rewrite (same_chain_sum Hs1). unfold stack_of.
      destruct lb as [|b lb]; [done|].
      replace (zlen (x :: b :: lb) - 1) with (wrap 32 (zlen (b :: lb) - 1 + 1)).
      2:{ rewrite wrap_small; unfold is_uint; zlen_lia. }
      simpl chain_sum. f_equal. apply map_ext. intros y. by rewrite (same_diff Hs1).
    + constructor; [|done].
      destruct (tr_heap _ _ Hr2 x h1 (lookup_insert_eq _ _ _)) as (h2 & Hh2 & _ & _ & _ & E).
      apply (same_solved Hs1) in Hsol1. exists h2. split; [done|].
      rewrite (E Hsol1). by apply (same_solved (tr_same _ _ Hr2)).
Qed.

Lemma solved_sum bc a h l : chain bc a l -> solved bc a h -> difficultySum_ h = chain_sum bc l.
Proof. intros Hl (l' & Hl' & -> & _). by destruct (trail_det _ _ _ _ _ _ Hl Hl') as [-> _]. Qed.

Lemma solved_height bc a h l : chain bc a l -> solved bc a h -> blockHeight_ h = zlen l - 1.
Proof. intros Hl (l' & Hl' & _ & -> & _). by destruct (trail_det _ _ _ _ _ _ Hl Hl') as [-> _]. Qed.

Lemma trace_rel_gen_solved bc bc' : wf rank bc -> trace_rel bc bc' -> gen_solved bc -> gen_solved bc'.
Proof.
  intros Hwf [Hs _ _ _ _ Hheap] Hg g h' Hgen Hh'. rewrite (same_gen _ _ Hs) in Hgen.
  destruct (same_lookup_inv Hs _ _ Hh') as (h & Hh & _).
  destruct (Hheap _ _ Hh) as (h2 & Hh2 & _ & _ & _ & E). simplify_eq.
  rewrite (E (Hg _ _ Hgen Hh)). apply (same_solved Hs). by apply Hg.
Qed.

Lemma traceChainDown_solved bc a h l : wf rank bc -> known bc a -> chain bc a l ->
  heap_ bc !! a = Some h -> solved bc a h -> traceChainDown (Some a) bc = Ok (chain_sum bc l, bc).
Proof.
  intros Hwf Ha Hl Hh Hs. unfold traceChainDown.
  rewrite (chain_bind_ok _ _ _ _ _ (deref_ok _ _ _ Hh)).
  destruct (solved_not_neg _ _ _ Hwf Ha Hs) as [_ ->]. by rewrite (solved_sum _ _ _ _ Hl Hs).
Qed.

(** The sum of a connected header is the sum along its chain, and the header
    keeps it. *)
Lemma traceChainDown_chain bc a l :
  wf rank bc -> sums_ok bc -> gen_solved bc -> known bc a -> chain bc a l ->
  exists bc' h, traceChainDown (Some a) bc = Ok (chain_sum bc l, bc') /\ trace_rel bc bc' /\
    sums_ok bc' /\ heap_ bc' !! a = Some h /\ solved bc' a h.
Proof.
  intros Hwf Hok Hgen Ha Hl. destruct (known_header _ _ Hwf _ Ha) as (h & Hh & _ & _).
  destruct (Hok _ _ Ha Hh) as [Hs|Hu].
  { exists bc, h. split; [by eapply traceChainDown_solved|]. split; [reflexivity|done]. }
  unfold traceChainDown. rewrite (chain_bind_ok _ _ _ _ _ (deref_ok _ _ _ Hh)).
  rewrite (dltb_asym _ _ (proj1 Hu)), (chain_bind_ok _ _ _ _ _ (chain_get_ok _ _)).
  pose proof (trail_length _ _ Hwf _ _ _ Ha Hl) as Hlen.
  destruct (trace_walk_chain bc Hwf Hok Hgen l a _ [] Ha Hl Hlen)
    as (l1 & b & lb & hb & -> & Hcb & Hhb & Hsb & Hun & Hw).
  rewrite (chain_bind_ok _ _ _ _ _ Hw), app_nil_r.
  rewrite (chain_bind_ok _ _ _ _ _ (deref_ok _ _ _ Hhb)).
  rewrite (solved_sum _ _ _ _ Hcb Hsb), (solved_height _ _ _ _ Hcb Hsb).
  destruct (trace_unwind_chain (rev l1) bc lb a Hwf Hok Ha) as (bc' & Hrun & Hr & Hok' & Hsol).
  { by rewrite rev_involutive. }
  { by destruct (trail_head _ _ _ _ Hcb) as [? ->]. }
  { rewrite Forall_forall in Hun |- *. intros x Hx. apply Hun. by apply elem_of_rev. }
  rewrite (chain_bind_ok _ _ _ _ _ Hrun).
  destruct l1 as [|x l1].
  { destruct (trail_head _ _ _ _ Hl) as [? E], (trail_head _ _ _ _ Hcb) as [? E']. simplify_eq/=.
    destruct (solved_not_neg _ _ _ Hwf Ha Hsb). destruct Hu. congruence. }
  destruct (trail_head _ _ _ _ Hl) as [? E]. simpl in E. injection E as -> _.
  rewrite Forall_forall in Hsol. destruct (Hsol a) as (h' & Hh' & Hs'); [apply elem_of_rev; by left|].
  rewrite (chain_bind_ok _ _ _ _ _ (deref_ok _ _ _ Hh')).
  pose proof (same_trail (tr_same _ _ Hr) _ _ _ Hl) as Hl'.
  exists bc', h'. rewrite (solved_sum _ _ _ _ Hl' Hs'), (same_chain_sum (tr_same _ _ Hr)). done.
Qed.

Lemma traceChainDown_orphan bc a l :
  wf rank bc -> sums_ok bc -> known bc a -> trail bc a l false ->
  exists bc' h, traceChainDown (Some a) bc = Ok (dbl_max, bc') /\ trace_rel bc bc' /\
    sums_ok bc' /\ heap_ bc' !! a = Some h /\ isOrphan_ h = true /\
    unsolved bc' a h /\ ~ connected bc' a.
Proof.
  intros Hwf Hok Ha Hl. destruct (known_header _ _ Hwf _ Ha) as (h & Hh & _ & _).
  pose proof (trail_false_not_connected _ _ _ Hl) as Hnc.
  destruct (Hok _ _ Ha Hh) as [(l' & Hc & _)|Hu]; [by destruct Hnc; exists l'|].
  unfold traceChainDown. rewrite (chain_bind_ok _ _ _ _ _ (deref_ok _ _ _ Hh)).
  rewrite (dltb_asym _ _ (proj1 Hu)), (chain_bind_ok _ _ _ _ _ (chain_get_ok _ _)).
  pose proof (trail_length _ _ Hwf _ _ _ Ha Hl) as Hlen.
  destruct (trace_walk_orphan bc Hwf Hok l a _ [] Ha Hl Hlen) as (bc' & Hw & Hr & Hok').
  rewrite (chain_bind_ok _ _ _ _ _ Hw).
  destruct (tr_heap _ _ Hr _ _ Hh) as (h' & Hh' & _).
  apply (same_known (tr_same _ _ Hr)) in Ha.
  rewrite <- (same_connected (tr_same _ _ Hr)) in Hnc.
  destruct (Hok' _ _ Ha Hh') as [(l' & Hc & _)|Hu']; [by destruct Hnc; exists l'|].
  exists bc', h'. split; [done|]. split; [done|]. split; [done|]. split; [done|].
  destruct Hu' as [? [?|?]]; [|done]. split; [done|]. split; [split; auto|done].
Qed.

(** ** The scan for the best header *)

(** What the loop over the headers [hs] picks, starting from the top [t] with
    id [i] and the maximum [m]: the first header of maximal sum, if a sum is
    above [m]. *)
Inductive picked bc (hs : list nat) (m : double) (t : Ptr) (i : Z) : Ptr -> Z -> Prop :=
  | picked_none :
      (forall a s, a ∈ hs -> sum_of bc a s -> dltb m s = false) -> picked bc hs m t i t i
  | picked_some pre a post s h :
      hs = pre ++ a :: post -> sum_of bc a s -> dltb m s = true ->
      (forall b s', b ∈ pre -> sum_of bc b s' -> dltb s' s = true) ->
      (forall b s', b ∈ post -> sum_of bc b s' -> dltb s s' = false) ->
      heap_ bc !! a = Some h ->
      picked bc hs m t i (Some a) (uniqueID_ h).

Lemma same_picked bc bc' hs m t i t' i' :
  same_chain bc bc' -> picked bc' hs m t i t' i' -> picked bc hs m t i t' i'.
Proof.
  intros Hs. destruct 1 as [H|pre a post s h -> Hsum Hm Hpre Hpost Hh].
  - apply picked_none. intros b s Hb Hsum. apply (H b); [done|]. by apply (same_sum_of Hs).
  - destruct (same_lookup_inv Hs _ _ Hh) as (h0 & Hh0 & _ & _ & -> & _).
    eapply picked_some; eauto; [by apply (same_sum_of Hs)|..];
      intros b s' Hb Hb'; [eapply Hpre|eapply Hpost]; eauto; by apply (same_sum_of Hs).
Qed.

(** The relation between the states before and after the scan. *)
Record scan_rel bc bc' : Prop := {
  sr_same : same_chain bc bc';
  sr_topID : topID_ bc' = topID_ bc;
  sr_heights : headersByHeight_ bc' = headersByHeight_ bc;
  sr_heap a h : heap_ bc !! a = Some h -> exists h', heap_ bc' !! a = Some h' /\
    isFinishedCalc_ h' = isFinishedCalc_ h /\ isMainBranch_ h' = isMainBranch_ h /\
    nextHash_ h' = nextHash_ h /\ (solved bc a h -> h' = h);
}.

#[export] Instance scan_rel_preorder : PreOrder scan_rel.
Proof.
  split; [split; try done; eauto 10|]. intros x y z [] []. split; try congruence.
  - by etrans.
  - intros a h Hh. destruct (sr_heap0 _ _ Hh) as (h1 & Hh1 & ? & ? & ? & Hsol1).
    destruct (sr_heap1 _ _ Hh1) as (h2 & Hh2 & ? & ? & ? & Hsol2). exists h2.
    repeat split; try congruence. intros Hsol. pose proof (Hsol1 Hsol) as ->.
    apply Hsol2. by apply (same_solved sr_same0).
Qed.

Lemma trace_scan_rel bc bc' : trace_rel bc bc' -> scan_rel bc bc'.
Proof. intros []. by split. Qed.

Lemma scan_rel_settled bc bc' a : scan_rel bc bc' -> sums_ok bc' -> known bc a ->
  settled bc a -> settled bc' a.
Proof.
  intros [Hs _ _ Hh] Hok Ha (h & Hl & H). destruct (Hh _ _ Hl) as (h' & Hl' & _ & _ & _ & E).
  exists h'. split; [done|]. destruct H as [H|[Hn H]].
  - left. rewrite (E H). by apply (same_solved Hs).
  - rewrite (same_connected Hs). destruct (Hok a h') as [H'|H']; [by apply (same_known Hs)|done| |by right].
    destruct H' as (l & Hc & _). destruct Hn. exists l. by apply (same_trail_inv Hs).
Qed.

(** Setting the top changes no header. *)
Lemma set_top_scan bc p i : scan_rel bc (set_topBlockId i (set_topBlockPtr p bc)).
Proof. split; try done. eauto 10. Qed.

Lemma picked_skip bc hs m t i t' i' x :
  (forall s, sum_of bc x s -> dltb m s = false) -> is_nan m = false ->
  (known bc x) -> wf rank bc ->
  picked bc hs m t i t' i' -> picked bc (x :: hs) m t i t' i'.
Proof.
  intros Hx Hm Hk Hwf. destruct 1 as [H|pre a post s h -> Hsum Hlt Hpre Hpost Hh].
  - apply picked_none. intros a s [->|Ha]%elem_of_cons; [apply Hx|by apply H].
  - eapply (picked_some _ _ _ _ _ (x :: pre)); eauto. intros b s' [->|Hb]%elem_of_cons Hs'; [|eauto].
    apply (dltb_below m); [done| |by apply Hx|done]. by eapply sum_of_facts.
Qed.

Lemma picked_take bc hs m t i t' i' x s h :
  sum_of bc x s -> dltb m s = true -> heap_ bc !! x = Some h ->
  picked bc hs s (Some x) (uniqueID_ h) t' i' -> picked bc (x :: hs) m t i t' i'.
Proof.
  intros Hs Hm Hh. destruct 1 as [H|pre a post sa ha -> Hsum Hlt Hpre Hpost Hha].
  - eapply (picked_some _ _ _ _ _ [] x hs s); eauto. by intros b s' ?%elem_of_nil.
  - eapply (picked_some _ _ _ _ _ (x :: pre) a post sa); eauto.
    + by eapply dltb_trans.
    + intros b s' [->|Hb]%elem_of_cons Hs'; [|by eauto]. by rewrite (sum_of_det _ _ _ _ Hs' Hs).
Qed.

Lemma same_sums_ok bc bc' : same_chain bc bc' -> heap_ bc' = heap_ bc -> sums_ok bc -> sums_ok bc'.
Proof.
  intros Hs Eh Hok a h Ha. rewrite Eh, (same_solved Hs), (same_unsolved Hs). apply Hok.
  by apply (same_known Hs).
Qed.

Lemma same_gen_solved bc bc' : same_chain bc bc' -> heap_ bc' = heap_ bc -> gen_solved bc -> gen_solved bc'.
Proof.
  intros Hs Eh Hg g h. rewrite Eh, (same_gen _ _ Hs), (same_solved Hs). apply Hg.
Qed.

Lemma scan_spec hs : forall bc m, wf rank bc -> sums_ok bc -> gen_solved bc ->
  Forall (known bc) hs -> is_nan m = false ->
  exists bc', scan_headers (Some <$> hs) m bc = Ok (tt, bc') /\ scan_rel bc bc' /\ sums_ok bc' /\
    gen_solved bc' /\ Forall (settled bc') hs /\
    picked bc hs m (topBlockPtr_ bc) (topBlockId_ bc) (topBlockPtr_ bc') (topBlockId_ bc').
Proof.
  induction hs as [|x hs IH]; intros bc m Hwf Hok Hgen Hk Hm.
  { exists bc. split; [done|]. split; [reflexivity|]. split; [done|]. split; [done|].
    split; [constructor|]. apply picked_none. by intros a s ?%elem_of_nil. }
  inversion Hk as [|? ? Hx Hk']; subst. cbn [fmap list_fmap scan_headers].
  destruct (trail_exists _ _ Hwf x Hx) as (l & [] & Hl).
  - destruct (traceChainDown_chain bc x l Hwf Hok Hgen Hx Hl) as (bc1 & h & Hrun & Hr & Hok1 & Hh & Hs).
    rewrite (chain_bind_ok _ _ _ _ _ Hrun), (chain_bind_ok _ _ _ _ _ (deref_ok _ _ _ Hh)).
    pose proof Hs as (_ & _ & _ & _ & ->). pose proof (tr_same _ _ Hr) as Hsame.
    pose proof (same_wf Hsame rank Hwf) as Hwf1.
    pose proof (trace_rel_gen_solved _ _ Hwf Hr Hgen) as Hgen1.
    assert (sum_of bc x (chain_sum bc l)) as Hsum by by exists l.
    assert (Forall (known bc1) hs) as Hk1.
    { eapply Forall_impl; [done|]. intros. by apply (same_known Hsame). }
    assert (forall bc2, scan_rel bc1 bc2 -> sums_ok bc2 -> settled bc2 x) as Hset.
    { intros bc2 Hr2 Hok2. eapply scan_rel_settled; eauto; [by apply (same_known Hsame)|].
      exists h. auto. }
    destruct (dltb m (chain_sum bc l)) eqn:Hlt.
    + set (bc1' := set_topBlockId (uniqueID_ h) (set_topBlockPtr (Some x) bc1)).
      assert (same_chain bc1 bc1') as Hsame' by apply set_top_scan.
      destruct (IH bc1' (chain_sum bc l)) as (bc2 & Hrun2 & Hr2 & Hok2 & Hgen2 & Hset2 & Hp);
        [by apply (same_wf Hsame')|by apply (same_sums_ok bc1)|by apply (same_gen_solved bc1)|done
        |by eapply dltb_not_nan|].
      assert (scan_rel bc1 bc2) as Hr12 by (etrans; [apply set_top_scan|exact Hr2]).
      exists bc2. split; [exact Hrun2|]. split; [by etrans; [apply trace_scan_rel|]|].
      split; [done|]. split; [done|]. split; [by constructor; [apply Hset|]|].
      destruct (same_lookup_inv Hsame _ _ Hh) as (h0 & Hh0 & _ & _ & Hid & _).
      apply (picked_take _ _ _ _ _ _ _ x (chain_sum bc l) h0); try done.
      rewrite <- Hid. apply (same_picked bc bc1'); [by etrans|exact Hp].
    + destruct (IH bc1 m) as (bc2 & Hrun2 & Hr2 & Hok2 & Hgen2 & Hset2 & Hp); [done..|].
      exists bc2. split; [exact Hrun2|]. split; [by etrans; [apply trace_scan_rel|]|].
      split; [done|]. split; [done|]. split; [by constructor; [apply Hset|]|].
      apply picked_skip; try done.
      * intros s Hs'. by rewrite (sum_of_det _ _ _ _ Hs' Hsum).
      * rewrite <- (tr_top _ _ Hr), <- (tr_topId _ _ Hr). by apply (same_picked bc bc1).
  - destruct (traceChainDown_orphan bc x l Hwf Hok Hx Hl)
      as (bc1 & h & Hrun & Hr & Hok1 & Hh & Ho & Hun & Hnc).
    rewrite (chain_bind_ok _ _ _ _ _ Hrun), (chain_bind_ok _ _ _ _ _ (deref_ok _ _ _ Hh)), Ho.
    pose proof (tr_same _ _ Hr) as Hsame.
    destruct (IH bc1 m) as (bc2 & Hrun2 & Hr2 & Hok2 & Hgen2 & Hset2 & Hp); try done.
    { by apply (same_wf Hsame). }
    { by eapply trace_rel_gen_solved. }
    { eapply Forall_impl; [done|]. intros. by apply (same_known Hsame). }
    exists bc2. split; [exact Hrun2|]. split; [by etrans; [apply trace_scan_rel|]|].
    split; [done|]. split; [done|]. split.
    + constructor; [|done]. eapply scan_rel_settled; eauto; [by apply (same_known Hsame)|].
      exists h. auto.
    + apply picked_skip; try done.
      * intros s (l' & Hl' & _). by destruct (trail_det _ _ _ _ _ _ Hl Hl').
      * rewrite <- (tr_top _ _ Hr), <- (tr_topId _ _ Hr). by apply (same_picked bc bc1).
Qed.
End trace.
