(* ===== verification/BlockchainOrganize.v ===== *)
(** * BlockchainOrganize: [organizeChain] finds the best chain

    The walk that marks the main chain, the forced rebuild, the recursion after
    a reorganisation, and the theorems about [organize], [forceOrganize] and
    [findReorgPointFromBlock]. *)

From S2P Require Import Prelude BinaryData BinaryIO Hashing StdMap BlockHeader DBUtils Blockchain.
From S2P Require Import BlockchainSpec.

(** ** Marking headers *)

Definition marked (m : bool) (n : HashString) (h : BlockHeader) : BlockHeader :=
  set_nextHash n (set_isOrphan (isOrphan_ h && negb m) (set_isMainBranch (isMainBranch_ h || m)
    (set_isFinishedCalc (isFinishedCalc_ h || m) h))).

Lemma marked_marked m1 n1 m2 n2 h : marked m2 n2 (marked m1 n1 h) = marked (m1 || m2) n2 h.
Proof.
  destruct h. unfold marked. simpl. by rewrite <- !orb_assoc, negb_orb, andb_assoc.
Qed.

Lemma marked_nothing h : marked false (nextHash_ h) h = h.
Proof.
  destruct h. unfold marked. cbn. by rewrite !orb_false_r, andb_true_r.
Qed.

Section organize.
Context (rank : HashString -> nat).
Implicit Types (bc : Blockchain) (a b : nat) (l : list nat).

(** All tables but the heap and the heights are the same. *)
Record tables_eq bc bc' : Prop := {
  te_map : headerMap_ bc' = headerMap_ bc;
  te_gen : genesisHash_ bc' = genesisHash_ bc;
  te_ids : headersById_ bc' = headersById_ bc;
  te_new : newlyParsedBlocks_ bc' = newlyParsedBlocks_ bc;
  te_top : topBlockPtr_ bc' = topBlockPtr_ bc;
  te_topId : topBlockId_ bc' = topBlockId_ bc;
  te_topID : topID_ bc' = topID_ bc;
}.

#[local] Instance tables_eq_preorder : PreOrder tables_eq.
Proof. split; [by split|]. intros x y z [] []. split; congruence. Qed.

(** The headers of [bc'] are those of [bc], marked where [ms] says so and with
    the next hashes [nx] gives. *)
Definition hmark bc bc' (ms : nat -> bool) (nx : nat -> option HashString) : Prop :=
  forall a, heap_ bc' !! a =
    (fun h => marked (ms a) (default (nextHash_ h) (nx a)) h) <$> heap_ bc !! a.

Lemma hmark_trans bc bc1 bc2 m1 n1 m2 n2 m n :
  hmark bc bc1 m1 n1 -> hmark bc1 bc2 m2 n2 ->
  (forall a, m a = m1 a || m2 a) ->
  (forall a, n a = match n2 a with Some x => Some x | None => n1 a end) ->
  hmark bc bc2 m n.
Proof.
  intros H1 H2 Hm Hn a. rewrite H2, H1, Hm, Hn. destruct (heap_ bc !! a) as [h|]; [|done].
  simpl. rewrite marked_marked. f_equal. f_equal. by destruct (n2 a).
Qed.

Lemma hmark_same bc bc' ms nx : tables_eq bc bc' -> hmark bc bc' ms nx -> same_chain bc bc'.
Proof.
  intros [] Hm. split; try done. intros a. rewrite Hm. by destruct (heap_ bc !! a).
Qed.

(** The hash of the header before [a] in the list. *)
Fixpoint child_hash bc l a : option HashString :=
  match l with
  | c :: ((b :: _) as l') =>
      if decide (a = b) then thisHash_ <$> heap_ bc !! c else child_hash bc l' a
  | _ => None
  end.

Lemma child_hash_cons bc c b l a : child_hash bc (c :: b :: l) a =
  if decide (a = b) then thisHash_ <$> heap_ bc !! c else child_hash bc (b :: l) a.
Proof. done. Qed.

Lemma child_hash_notin bc l a : a ∉ l -> child_hash bc l a = None.
Proof.
  induction l as [|c [|b l] IH]; intros Ha; [done..|].
  rewrite child_hash_cons, decide_False by (intros ->; apply Ha; right; by left).
  apply IH. intros ?. apply Ha. by right.
Qed.

Lemma child_hash_head bc a l : a ∉ l -> child_hash bc (a :: l) a = None.
Proof.
  intros Ha. destruct l as [|b l]; [done|]. rewrite child_hash_cons, decide_False.
  - by apply child_hash_notin.
  - intros ->. apply Ha. by left.
Qed.

Lemma child_hash_same bc bc' l a : same_chain bc bc' -> child_hash bc' l a = child_hash bc l a.
Proof.
  intros Hs. induction l as [|c [|b l] IH]; [done..|].
  rewrite !child_hash_cons, IH. destruct (decide (a = b)); [|done].
  destruct (heap_ bc !! c) as [h|] eqn:E.
  - destruct (same_lookup Hs _ _ E) as (h' & -> & _ & Ht & _). simpl. by rewrite Ht.
  - destruct (heap_ bc' !! c) as [h'|] eqn:E'; [|done].
    destruct (same_lookup_inv Hs _ _ E') as (? & ? & _). congruence.
Qed.

Lemma child_hash_lookup bc l i c a hc : NoDup l -> l !! i = Some c -> l !! S i = Some a ->
  heap_ bc !! c = Some hc -> child_hash bc l a = Some (thisHash_ hc).
Proof.
  revert i. induction l as [|x [|y l] IH]; intros i Hnd Hc Ha Hh; [done|by destruct i|].
  rewrite child_hash_cons. destruct i as [|i].
  - simplify_eq/=. rewrite decide_True by done. by rewrite Hh.
  - rewrite decide_False.
    + inversion Hnd. by eapply (IH i).
    + intros ->. inversion Hnd as [|? ? _ Hnd']. inversion Hnd' as [|? ? Hn _]. apply Hn.
      simpl in Ha. destruct i; simpl in *; by eapply list_elem_of_lookup_2.
Qed.

(** What [mark_main] leaves in [headersByHeight_], for a chain of [n] headers
    that starts with the marked ones. *)
Definition heights_rel bc bc' l1 (n : nat) : Prop :=
  length (headersByHeight_ bc') = length (headersByHeight_ bc) /\
  (forall j x, l1 !! j = Some x -> headersByHeight_ bc' !! (n - 1 - j)%nat = Some (Some x)) /\
  (forall i, (i < n - length l1 \/ n <= i)%nat ->
     headersByHeight_ bc' !! i = headersByHeight_ bc !! i).

Lemma put_height_ok bc i p : (i < length (headersByHeight_ bc))%nat ->
  put_height (Z.of_nat i) p bc =
  Ok (tt, set_headersByHeight (<[i := p]> (headersByHeight_ bc)) bc).
Proof.
  intros Hi. unfold put_height. destruct (znth_is_Some (headersByHeight_ bc) (Z.of_nat i)) as [x ->].
  { unfold zlen. lia. }
  by rewrite Nat2Z.id.
Qed.

(** One round of [mark_main] before it goes to the parent. *)
Definition mark_step bc a h b hb : Blockchain :=
  let bc1 := set_heap (<[a := marked true (nextHash_ h) h]> (heap_ bc)) bc in
  let bc2 := set_headersByHeight
    (<[Z.to_nat (blockHeight_ h) := Some a]> (headersByHeight_ bc)) bc1 in
  set_heap (<[b := set_nextHash (thisHash_ h) hb]> (heap_ bc1)) bc2.

Lemma mark_step_hmark bc a h b hb : a ≠ b -> heap_ bc !! a = Some h -> heap_ bc !! b = Some hb ->
  hmark bc (mark_step bc a h b hb) (fun x => bool_decide (x = a))
    (fun x => if decide (x = b) then Some (thisHash_ h) else None).
Proof.
  intros Hne Ha Hb x. unfold mark_step. simpl. destruct (decide (x = b)) as [->|Hxb].
  - rewrite lookup_insert_eq, Hb. simpl. rewrite bool_decide_false by done.
    destruct hb. unfold marked, set_nextHash. simpl. by rewrite !orb_false_r, andb_true_r.
  - rewrite lookup_insert_ne by done. destruct (decide (x = a)) as [->|Hxa].
    + rewrite lookup_insert_eq, Ha, bool_decide_true by done. done.
    + rewrite lookup_insert_ne by done. rewrite bool_decide_false by done. simpl.
      destruct (heap_ bc !! x); [|done]. simpl. by rewrite marked_nothing.
Qed.

Lemma mark_step_tables bc a h b hb : tables_eq bc (mark_step bc a h b hb).
Proof. by split. Qed.

Lemma mark_main_step fuel bc a h b hb p v topID : wf rank bc -> known bc a ->
  heap_ bc !! a = Some h -> isFinishedCalc_ h = false -> gen_of bc ≠ Some a ->
  prev_of bc a = Some b -> heap_ bc !! b = Some hb -> a ≠ b ->
  0 <= blockHeight_ h < Z.of_nat (length (headersByHeight_ bc)) ->
  mark_main (S fuel) (Some a) p v topID bc =
  mark_main fuel (Some b) p (v || bool_decide (Some b = p))
    (if topID <? uniqueID_ h then uniqueID_ h else topID) (mark_step bc a h b hb).
Proof.
  intros Hwf Ha Hh Hf Hg Hp Hb Hne Hhgt. cbn [mark_main].
  rewrite (chain_bind_ok _ _ _ _ _ (deref_ok _ _ _ Hh)), Hf.
  rewrite (chain_bind_ok _ _ _ _ _ (update_ok _ _ _ _ Hh)).
  assert (set_isOrphan false (set_isMainBranch true (set_isFinishedCalc true h)) =
          marked true (nextHash_ h) h) as ->.
  { destruct h. unfold marked. simpl. by rewrite !orb_true_r, andb_false_r. }
  set (bc1 := set_heap (<[a := marked true (nextHash_ h) h]> (heap_ bc)) bc).
  assert (put_height (blockHeight_ h) (Some a) bc1 = Ok (tt, set_headersByHeight
    (<[Z.to_nat (blockHeight_ h) := Some a]> (headersByHeight_ bc)) bc1)) as Hput.
  { rewrite <- (Z2Nat.id (blockHeight_ h)) at 1 by lia. apply (put_height_ok bc1). simpl. lia. }
  rewrite (chain_bind_ok _ _ _ _ _ Hput).
  destruct (prev_lookup rank bc a h Hwf Ha Hh Hg) as (k & Hk & Hfind).
  rewrite (chain_bind_ok _ _ _ _ _ (chain_of_ok _ _ _ Hk)).
  rewrite (chain_bind_ok _ _ _ _ _ (chain_get_ok _ _)).
  change (headerMap_ (set_headersByHeight _ bc1)) with (headerMap_ bc).
  rewrite Hfind, Hp. cbn [fmap option_fmap option_map from_option id].
  assert (heap_ (set_headersByHeight (<[Z.to_nat (blockHeight_ h) := Some a]> (headersByHeight_ bc)) bc1)
          !! b = Some hb) as Hb1 by (simpl; by rewrite lookup_insert_ne).
  by rewrite (chain_bind_ok _ _ _ _ _ (update_ok _ _ _ _ Hb1)).
Qed.

(** One more header at the top end of the chain. *)
Lemma heights_rel_cons bc bc1 bc2 x l1 l z :
  headersByHeight_ bc1 = <[Z.to_nat z := Some x]> (headersByHeight_ bc) ->
  z = zlen (x :: l) - 1 -> (length l1 <= length l < length (headersByHeight_ bc))%nat ->
  heights_rel bc1 bc2 l1 (length l) -> heights_rel bc bc2 (x :: l1) (length (x :: l)).
Proof.
  intros E1 -> Hlen (H1 & H2 & H3). rewrite zlen_cons in E1.
  replace (Z.to_nat (1 + zlen l - 1)) with (length l) in E1 by (unfold zlen; lia).
  split; [by rewrite H1, E1, length_insert|split].
  - intros [|j] y Hj; simpl in Hj.
    + simplify_eq. rewrite H3 by (simpl; lia). rewrite E1. simpl.
      rewrite Nat.sub_0_r, Nat.sub_0_r. apply list_lookup_insert_eq. lia.
    + rewrite <- (H2 _ _ Hj). f_equal. apply lookup_lt_Some in Hj. simpl. lia.
  - intros i Hi. simpl in Hi. rewrite H3 by lia. rewrite E1.
    apply list_lookup_insert_ne. lia.
Qed.

(** After the step from [x] the rest of the walk has the same premises. *)
Lemma mark_step_unsolved bc bc1 x b' hx l1 : same_chain bc bc1 ->
  hmark bc bc1 (fun y => bool_decide (y = x)) (fun y => if decide (y = b') then Some hx else None) ->
  x ∉ l1 ->
  Forall (fun y => exists h, heap_ bc !! y = Some h /\ isFinishedCalc_ h = false /\ solved bc y h) l1 ->
  Forall (fun y => exists h, heap_ bc1 !! y = Some h /\ isFinishedCalc_ h = false /\ solved bc1 y h) l1.
Proof.
  intros Hs1 Hm1 Hx Hun. rewrite Forall_forall in Hun |- *. intros y Hy.
  destruct (Hun y Hy) as (hy & Hhy & Hfy & Hsy). eexists. rewrite Hm1, Hhy. split; [done|].
  rewrite bool_decide_false by (by intros ->). simpl. rewrite orb_false_r. split; [done|].
  apply (same_solved Hs1). destruct Hsy as (ly & ? & ? & ? & Ho). exists ly. simpl. by rewrite Ho.
Qed.

(** The marks of the step and of the rest of the walk, put together. *)
Lemma mark_step_rest bc bc1 bc2 x h b' l1 b l2 : same_chain bc bc1 -> heap_ bc !! x = Some h ->
  hmark bc bc1 (fun y => bool_decide (y = x))
    (fun y => if decide (y = b') then Some (thisHash_ h) else None) ->
  l1 ++ [b] = b' :: l2 -> b' ∉ l2 ->
  hmark bc1 bc2 (fun y => bool_decide (y ∈ l1)) (child_hash bc1 (l1 ++ [b])) ->
  hmark bc bc2 (fun y => bool_decide (y ∈ x :: l1)) (child_hash bc ((x :: l1) ++ [b])).
Proof.
  intros Hs1 Hh Hm1 El2 Hn Hm2. apply (hmark_trans _ _ _ _ _ _ _ _ _ Hm1 Hm2).
  - intros y. rewrite (bool_decide_ext (y ∈ x :: l1) (y = x \/ y ∈ l1)) by apply elem_of_cons.
    by rewrite bool_decide_or.
  - intros y. simpl app. rewrite El2, child_hash_cons, (child_hash_same _ _ _ _ Hs1), Hh.
    cbn [fmap option_fmap option_map].
    destruct (decide (y = b')) as [->|]; [|by destruct (child_hash bc (b' :: l2) y)].
    by rewrite child_hash_head.
Qed.

Lemma mark_main_spec l1 : forall bc a b lb fuel p v topID,
  wf rank bc -> known bc a -> chain bc a (l1 ++ b :: lb) ->
  Forall (fun x => exists h, heap_ bc !! x = Some h /\ isFinishedCalc_ h = false /\ solved bc x h) l1 ->
  (exists h, heap_ bc !! b = Some h /\ isFinishedCalc_ h = true) ->
  (length l1 <= fuel)%nat -> (length (l1 ++ b :: lb) <= length (headersByHeight_ bc))%nat ->
  exists bc' topID', mark_main fuel (Some a) p (v || bool_decide (Some a = p)) topID bc =
      Ok ((Some b, v || bool_decide (p ∈ Some <$> (l1 ++ [b])), topID'), bc') /\
    tables_eq bc bc' /\ heights_rel bc bc' l1 (length (l1 ++ b :: lb)) /\
    hmark bc bc' (fun x => bool_decide (x ∈ l1)) (child_hash bc (l1 ++ [b])).
Proof.
  induction l1 as [|x l1 IH]; intros bc a b lb fuel p v topID Hwf Ha Hc Hun (hb & Hhb & Hfin) Hfuel Hlen.
  { destruct (trail_head _ _ _ _ Hc) as [? E]. simpl in E. injection E as <- _.
    exists bc, topID. split; [|split; [done|split; [split; [done|split; [by intros j y Hj|done]]|]]].
    - destruct fuel; cbn [mark_main]; rewrite (chain_bind_ok _ _ _ _ _ (deref_ok _ _ _ Hhb)), Hfin;
        rewrite (bool_decide_ext (p ∈ Some <$> [] ++ [b]) (Some b = p))
          by (simpl; rewrite list_elem_of_singleton; by split); done.
    - intros y. rewrite bool_decide_false by (by intros ?%elem_of_nil). simpl.
      destruct (heap_ bc !! y); [|done]. simpl. by rewrite marked_nothing. }
  destruct (trail_head _ _ _ _ Hc) as [? E]. simpl in E. injection E as <- _.
  destruct fuel as [|fuel]; [simpl in Hfuel; lia|].
  inversion Hun as [|? ? (h & Hh & Hnf & Hsol) Hun']; subst.
  pose proof (trail_NoDup _ _ Hwf _ _ _ Ha Hc) as Hnd. simpl in Hnd.
  destruct (chain_height _ _ Hwf _ _ Ha Hc) as [Hh0 _].
  pose proof (solved_height _ _ _ _ Hc Hsol) as Hhgt.
  assert (gen_of bc ≠ Some x) as Hg.
  { intros Hg. simpl in Hc. unfold chain in Hc. inversion Hc; [by destruct l1|congruence]. }
  simpl in Hc. inversion Hc as [? ? E| |? b' ? ? _ Hp Ht]; subst; [by destruct l1|].
  pose proof (prev_of_known _ _ Hwf _ _ Hp) as Hb'.
  destruct (known_header _ _ Hwf _ Hb') as (hb' & Hhb' & _).
  assert (exists l2, l1 ++ [b] = b' :: l2 /\ l1 ++ b :: lb = b' :: l2 ++ lb) as (l2 & El2 & El2').
  { destruct (trail_head _ _ _ _ Ht) as [l' E]. destruct l1 as [|y l1]; simpl in *; simplify_eq.
    - by exists [].
    - exists (l1 ++ [b]). by rewrite <- app_assoc. }
  apply NoDup_cons in Hnd as [Hn Hnd].
  assert (x ≠ b') as Hne by (intros ->; apply Hn; rewrite El2'; by left).
  rewrite (mark_main_step fuel bc x h b' hb') by
    (done || (rewrite Hhgt; unfold zlen in *; simpl length in *; lia)).
  set (bc1 := mark_step bc x h b' hb').
  pose proof (mark_step_tables bc x h b' hb') as Ht1. fold bc1 in Ht1.
  pose proof (mark_step_hmark bc x h b' hb' Hne Hh Hhb') as Hm1. fold bc1 in Hm1.
  pose proof (hmark_same _ _ _ _ Ht1 Hm1) as Hs1.
  destruct (IH bc1 b' b lb fuel p (v || bool_decide (Some x = p))
    (if topID <? uniqueID_ h then uniqueID_ h else topID)) as (bc2 & topID' & Hrun & Ht2 & Hh2 & Hm2).
  - by apply (same_wf Hs1).
  - by apply (same_known Hs1).
  - by apply (same_trail Hs1).
  - apply (mark_step_unsolved bc bc1 x b' (thisHash_ h)); try done. rewrite elem_of_app in Hn. tauto.
  - rewrite Hm1. destruct (decide (b = b')) as [->|]; rewrite Hhb; eexists; (split; [done|]); simpl; by rewrite Hfin.
  - simpl in Hfuel. lia.
  - unfold bc1, mark_step. simpl. rewrite length_insert. simpl in Hlen. lia.
  - exists bc2, topID'. split; [|split; [by etrans|split]].
    + rewrite Hrun. simpl app. rewrite fmap_cons, <- orb_assoc.
      do 4 f_equal. rewrite (bool_decide_ext (p ∈ Some x :: _) (Some x = p \/ p ∈ Some <$> l1 ++ [b]))
        by (rewrite elem_of_cons; naive_solver).
      by rewrite bool_decide_or.
    + apply (heights_rel_cons bc bc1 bc2 x l1 (l1 ++ b :: lb) (blockHeight_ h)); try done.
      split; [rewrite length_app; lia|]. simpl in Hlen. lia.
    + apply (mark_step_rest bc bc1 bc2 x h b' l1 b l2); try done.
      pose proof (trail_NoDup _ _ Hwf _ _ _ Hb' Ht) as Hnd'. rewrite El2' in Hnd'.
      inversion Hnd' as [|? ? Hn' _]. intros ?. apply Hn', elem_of_app. by left.
Qed.

(** ** The start of a pass: the genesis block and the previous top *)

Lemma chain_has_gen bc a l g : chain bc a l -> gen_of bc = Some g -> g ∈ l.
Proof.
  unfold chain. intros H Hg. remember true as e. induction H; [|done|].
  - apply list_elem_of_singleton. congruence.
  - right. auto.
Qed.

Lemma links_ok_same bc bc' l : same_chain bc bc' ->
  (forall a h h', heap_ bc !! a = Some h -> heap_ bc' !! a = Some h' -> nextHash_ h' = nextHash_ h) ->
  links_ok bc l -> links_ok bc' l.
Proof.
  intros Hs Hn Hl i c a hc h Hc Ha Hhc Hh.
  destruct (same_lookup_inv Hs _ _ Hhc) as (hc0 & Hhc0 & _ & -> & _).
  destruct (same_lookup_inv Hs _ _ Hh) as (h0 & Hh0 & _).
  rewrite (Hn _ _ _ Hh0 Hh). exact (Hl i c a _ _ Hc Ha Hhc0 Hh0).
Qed.

Lemma values_known bc : wf rank bc ->
  exists hs, map_values (headerMap_ bc) = Some <$> hs /\ forall a, known bc a <-> a ∈ hs.
Proof.
  intros Hwf. unfold known. set (vs := map_values (headerMap_ bc)).
  assert (forall p, p ∈ vs -> is_Some p) as Hv.
  { intros p (k & Hk)%map_value_find; [|apply Hwf].
    destruct (wf_header _ _ Hwf _ _ Hk) as (a & _ & -> & _). eauto. }
  clearbody vs. clear Hwf. induction vs as [|p vs IH].
  { exists []. split; [done|]. intros a. by rewrite !elem_of_nil. }
  destruct IH as (hs & E & Hhs); [intros q Hq; apply Hv; by right|].
  destruct (Hv p) as [a ->]; [by left|]. exists (a :: hs). split; [by rewrite E|].
  intros b. rewrite !elem_of_cons, Hhs. split; intros [?|?]; auto; left; congruence.
Qed.

Lemma genesis_step bc l0 g hg : wf rank bc -> ready bc l0 -> gen_of bc = Some g ->
  heap_ bc !! g = Some hg ->
  let bc1 := set_heap (<[g := genesis_header hg]> (heap_ bc)) bc in
  same_chain bc bc1 /\ sums_ok bc1 /\ gen_solved bc1 /\ marks_ok bc1 l0 /\ g ∈ l0 /\
  (forall a h h', heap_ bc !! a = Some h -> heap_ bc1 !! a = Some h' -> nextHash_ h' = nextHash_ h).
Proof.
  intros Hwf [Hr (t0 & Hc0 & _)] Hg Hhg bc1.
  pose proof (chain_has_gen _ _ _ _ Hc0 Hg) as Hin.
  assert (same_chain bc bc1) as Hs.
  { split; try done. intros b. simpl. destruct (decide (b = g)) as [->|Hne].
    - rewrite lookup_insert_eq, Hhg. simpl. unfold static_of. by rewrite !decide_True.
    - by rewrite lookup_insert_ne. }
  assert (solved bc1 g (genesis_header hg)) as Hsg.
  { apply (same_solved Hs). exists [g]. split; [by apply trail_gen|done]. }
  assert (forall a h, known bc1 a -> heap_ bc1 !! a = Some h ->
    (a = g /\ h = genesis_header hg) \/ (gen_of bc ≠ Some a /\ known bc a /\ heap_ bc !! a = Some h)) as Hcase.
  { intros a h Ha%(same_known Hs) Hh. simpl in Hh. destruct (decide (a = g)) as [->|Hne].
    - rewrite lookup_insert_eq in Hh. left. by simplify_eq.
    - rewrite lookup_insert_ne in Hh by done. right. split; [congruence|done]. }
  split; [done|]. split; [|split; [|split; [|split; [done|]]]].
  - intros a h Ha Hh. destruct (Hcase a h Ha Hh) as [[-> ->]|(Hng & Hk & Hh')]; [by left|].
    rewrite (same_solved Hs), (same_unsolved Hs). by apply (Hr a h Hk Hh').
  - intros g' h Hg' Hh. rewrite (same_gen _ _ Hs) in Hg'. simplify_eq.
    simpl in Hh. rewrite lookup_insert_eq in Hh. by simplify_eq.
  - intros a h Ha Hh. destruct (Hcase a h Ha Hh) as [[-> ->]|(Hng & Hk & Hh')].
    + by rewrite bool_decide_true.
    + by apply (Hr a h Hk Hh').
  - intros a h h' Hh Hh'. simpl in Hh'. destruct (decide (a = g)) as [->|Hne].
    + rewrite lookup_insert_eq in Hh'. by simplify_eq.
    + rewrite lookup_insert_ne in Hh' by done. by simplify_eq.
Qed.

(** The first header, in the order of the map, of maximal sum. *)
Definition first_max bc (hs : list nat) a : Prop :=
  exists pre post s, hs = pre ++ a :: post /\ sum_of bc a s /\
    (forall b s', b ∈ pre -> sum_of bc b s' -> dltb s' s = true) /\
    (forall b s', b ∈ post -> sum_of bc b s' -> dltb s s' = false).

Definition max_sum bc a : Prop :=
  exists s, sum_of bc a s /\ forall b s', known bc b -> sum_of bc b s' -> dltb s s' = false.

Lemma first_max_max bc hs a : (forall b, known bc b <-> b ∈ hs) -> first_max bc hs a -> max_sum bc a.
Proof.
  intros Hk (pre & post & s & -> & Hs & Hpre & Hpost). exists s. split; [done|].
  intros b s' Hb Hs'. apply Hk in Hb. apply elem_of_app in Hb as [Hb|[->|Hb]%elem_of_cons].
  - by eapply dltb_asym, Hpre.
  - rewrite (sum_of_det _ _ _ _ Hs' Hs). apply dltb_irrefl.
  - by eapply Hpost.
Qed.

Lemma first_max_unique bc hs a b : first_max bc hs a -> first_max bc hs b -> a = b.
Proof.
  intros (pre & post & s & E & Hs & Hpre & Hpost) (pre' & post' & s' & E' & Hs' & Hpre' & Hpost').
  rewrite E in E'. destruct (decide (a = b)) as [|Hne]; [done|exfalso].
  apply app_eq_app in E' as (k & [[-> E']|[-> E']]); destruct k as [|x k]; simplify_eq/=.
  - assert (dltb s' s = true) as H by (eapply Hpre; [apply elem_of_app; right; by left|done]).
    rewrite (Hpost' a s) in H; [done| |done]. apply elem_of_app. right. by left.
  - assert (dltb s s' = true) as H by (eapply Hpre'; [apply elem_of_app; right; by left|done]).
    rewrite (Hpost b s') in H; [done| |done]. apply elem_of_app. right. by left.
Qed.

(** The top the loop ends with has a maximal sum; unless the previous top is
    kept it is the first such header. *)
Lemma picked_max bc hs m p0 i t' i' : wf rank bc -> (forall b, known bc b <-> b ∈ hs) ->
  known bc p0 -> picked bc hs m (Some p0) i t' i' ->
  (sum_of bc p0 m \/ dltb m dbl_0 = true) ->
  exists t, t' = Some t /\ known bc t /\ max_sum bc t /\
    ((t = p0 /\ i' = i /\ sum_of bc p0 m) \/
     (first_max bc hs t /\ exists s h, sum_of bc t s /\ dltb m s = true /\
        heap_ bc !! t = Some h /\ i' = uniqueID_ h)).
Proof.
  intros Hwf Hk Hp0 Hpick Hm. destruct Hpick as [Hnone|pre a post s h Hhs Hs Hlt Hpre Hpost Hh].
  - assert (sum_of bc p0 m) as Hsum.
    { destruct Hm as [Hm|Hm]; [done|exfalso].
      destruct (gen_known _ _ Hwf) as (g & Hg & Hkg).
      assert (sum_of bc g dbl_1) as Hsg by (exists [g]; split; [by apply trail_gen|done]).
      assert (dltb m dbl_1 = true) as H by (by apply (dltb_trans _ dbl_0)).
      rewrite (Hnone g dbl_1) in H; [done|by apply Hk|done]. }
    exists p0. split; [done|]. split; [done|]. split; [|by left].
    exists m. split; [done|]. intros b s' Hb. apply Hnone. by apply Hk.
  - assert (first_max bc hs a) as Hfm by (exists pre, post, s; done).
    exists a. split; [done|]. split; [apply Hk; rewrite Hhs; apply elem_of_app; right; by left|].
    split; [by eapply first_max_max|]. right. split; [done|]. eauto 10.
Qed.

Record picked_state bc bc' l0 g p0 t hs : Prop := {
  ps_gen : gen_of bc = Some g;
  ps_prev : top_is bc p0;
  ps_known0 : known bc p0;
  ps_values : forall a, known bc a <-> a ∈ hs;
  ps_hs : map_values (headerMap_ bc) = Some <$> hs;
  ps_same : same_chain bc bc';
  ps_top : topBlockPtr_ bc' = Some t;
  ps_topis : top_is bc' t;
  ps_known : known bc t;
  ps_max : max_sum bc t;
  ps_first : first_max bc hs t \/ t = p0;
  ps_unsolved : p0 ≠ g -> (forall h, heap_ bc !! p0 = Some h -> dltb (difficultySum_ h) dbl_0 = true) ->
    first_max bc hs t;
  ps_heights : headersByHeight_ bc' = headersByHeight_ bc;
  ps_settled a : known bc a -> settled bc' a;
  ps_marks : marks_ok bc' l0;
  ps_next a h h' : heap_ bc !! a = Some h -> heap_ bc' !! a = Some h' -> nextHash_ h' = nextHash_ h;
}.

Lemma find_prevTop_spec bc g : wf rank bc -> gen_of bc = Some g -> exists p0,
  find_prevTop (Some g) bc = Ok (Some p0, bc) /\ top_is bc p0 /\ known bc p0.
Proof.
  intros Hwf Hg. unfold find_prevTop, top_is.
  rewrite !(chain_bind_ok _ _ _ _ _ (chain_get_ok _ _)).
  destruct (map_find (topBlockId_ bc) (headersById_ bc)) as [p|] eqn:E.
  - destruct (wf_byId _ _ Hwf _ _ E) as (a & -> & Ha). exists a. auto.
  - destruct (gen_known _ _ Hwf) as (g' & Hg' & Hk). simplify_eq. exists g. auto 10.
Qed.

Lemma getGenesisBlock_ok bc g : gen_of bc = Some g -> getGenesisBlock bc = Ok (Some g, bc).
Proof.
  unfold gen_of, getGenesisBlock. intros Hg.
  rewrite !(chain_bind_ok _ _ _ _ _ (chain_get_ok _ _)).
  destruct (map_find (genesisHash_ bc) (headerMap_ bc)); simpl in Hg; by subst.
Qed.

(** The calls of the first stage. *)
Lemma pick_top_steps bc g hg p0 hp hs bc3 :
  let bc1 := set_heap (<[g := genesis_header hg]> (heap_ bc)) bc in
  let bc2 := set_topBlockPtr (Some p0) bc1 in
  gen_of bc = Some g -> heap_ bc !! g = Some hg ->
  find_prevTop (Some g) bc1 = Ok (Some p0, bc1) -> heap_ bc1 !! p0 = Some hp ->
  map_values (headerMap_ bc2) = Some <$> hs ->
  scan_headers (Some <$> hs) (difficultySum_ hp) bc2 = Ok (tt, bc3) ->
  pick_top bc = Ok (Some p0, bc3).
Proof.
  intros bc1 bc2 Hg Hhg Hfp Hhp Hvs Hrun.
  unfold pick_top. rewrite (chain_bind_ok _ _ _ _ _ (getGenesisBlock_ok _ _ Hg)).
  rewrite (chain_bind_ok _ _ _ _ _ (update_ok _ _ _ _ Hhg)). fold bc1.
  rewrite (chain_bind_ok _ _ _ _ _ Hfp).
  rewrite (chain_bind_ok _ _ _ _ _ (chain_set_ok _ _)). fold bc2.
  rewrite (chain_bind_ok _ _ _ _ _ (deref_ok bc2 p0 hp Hhp)).
  rewrite (chain_bind_ok _ _ _ _ _ (chain_get_ok _ _)), Hvs.
  by rewrite (chain_bind_ok _ _ _ _ _ Hrun).
Qed.

(** The state after them. *)
Lemma picked_state_intro bc bc3 l0 g hg p0 hp hs :
  let bc1 := set_heap (<[g := genesis_header hg]> (heap_ bc)) bc in
  let bc2 := set_topBlockPtr (Some p0) bc1 in
  wf rank bc -> gen_of bc = Some g -> same_chain bc bc1 -> marks_ok bc1 l0 ->
  (forall a h h', heap_ bc !! a = Some h -> heap_ bc1 !! a = Some h' -> nextHash_ h' = nextHash_ h) ->
  top_is bc1 p0 -> known bc p0 -> heap_ bc1 !! p0 = Some hp ->
  sum_of bc p0 (difficultySum_ hp) \/ dltb (difficultySum_ hp) dbl_0 = true ->
  map_values (headerMap_ bc) = Some <$> hs -> (forall a, known bc a <-> a ∈ hs) ->
  scan_rel bc2 bc3 -> Forall (settled bc3) hs ->
  picked bc hs (difficultySum_ hp) (Some p0) (topBlockId_ bc)
    (topBlockPtr_ bc3) (topBlockId_ bc3) ->
  exists t, picked_state bc bc3 l0 g p0 t hs.
Proof.
  intros bc1 bc2 Hwf Hg Hs1 Hm1 Hn1 Htop0 Hkp0 Hhp Hm0 Hvs Hhs Hr3 Hset3 Hp3.
  assert (same_chain bc1 bc2) as Hs2 by by split. pose proof (sr_same _ _ Hr3) as Hs3.
  assert (same_chain bc bc3) as Hs by (etrans; [exact Hs1|etrans; [exact Hs2|exact Hs3]]).
  destruct (picked_max bc hs _ p0 _ _ _ Hwf Hhs Hkp0 Hp3 Hm0) as (t & Htop & Hkt & Hmax & Hcase).
  assert (top_is bc p0) as Htop0' by (unfold top_is in *; by rewrite (same_gen _ _ Hs1) in Htop0).
  exists t. split; try done.
  - unfold top_is. rewrite (sc_ids _ _ Hs), (same_gen _ _ Hs).
    destruct Hcase as [(-> & -> & _)|(_ & s & h & _ & _ & Hh & ->)]; [done|].
    left. by apply (wf_id _ _ Hwf).
  - destruct Hcase as [(-> & _)|(? & _)]; [by right|by left].
  - intros Hne Hneg. destruct Hcase as [(_ & _ & Hsum)|(? & _)]; [|done].
    assert (heap_ bc1 !! p0 = heap_ bc !! p0) as E by (simpl; by rewrite lookup_insert_ne).
    rewrite E in Hhp. pose proof (sum_of_facts _ _ Hwf _ _ Hkp0 Hsum) as Hf.
    rewrite (Hneg _ Hhp) in Hf. by destruct Hf as (_ & _ & _ & ?).
  - apply (sr_heights _ _ Hr3).
  - intros a Ha. rewrite Forall_forall in Hset3. apply Hset3. by apply Hhs.
  - intros a h Ha Hh. rewrite (same_known Hs3), (same_known Hs2) in Ha.
    destruct (same_lookup_inv Hs3 _ _ Hh) as (h1 & Hh1 & _).
    destruct (sr_heap _ _ Hr3 _ _ Hh1) as (h' & Hh' & Ef & Em & _). simplify_eq.
    rewrite Ef, Em. by apply Hm1.
  - intros a h h' Hh Hh'. destruct (same_lookup_inv Hs3 _ _ Hh') as (h1 & Hh1 & _).
    destruct (sr_heap _ _ Hr3 _ _ Hh1) as (h2 & Hh2 & _ & _ & E & _). simplify_eq.
    rewrite E. by eapply Hn1.
Qed.

Lemma pick_top_spec bc l0 : wf rank bc -> ready bc l0 -> exists g p0 t hs bc',
  pick_top bc = Ok (Some p0, bc') /\ picked_state bc bc' l0 g p0 t hs.
Proof.
  intros Hwf Hr. destruct (gen_known _ _ Hwf) as (g & Hg & Hkg).
  destruct (known_header _ _ Hwf _ Hkg) as (hg & Hhg & _).
  destruct (genesis_step bc l0 g hg Hwf Hr Hg Hhg) as (Hs1 & Hok1 & Hgs1 & Hm1 & _ & Hn1).
  set (bc1 := set_heap _ bc) in *.
  assert (gen_of bc1 = Some g) as Hg1 by by rewrite (same_gen _ _ Hs1).
  pose proof (same_wf Hs1 rank Hwf) as Hwf1.
  destruct (find_prevTop_spec bc1 g Hwf1 Hg1) as (p0 & Hfp & Htop0 & Hkp0).
  destruct (known_header _ _ Hwf1 _ Hkp0) as (hp & Hhp & _).
  set (bc2 := set_topBlockPtr (Some p0) bc1).
  assert (same_chain bc1 bc2) as Hs2 by by split.
  assert (same_chain bc bc2) as Hs02 by (etrans; [exact Hs1|exact Hs2]).
  destruct (values_known bc2 (same_wf Hs2 rank Hwf1)) as (hs & Hvs & Hhs).
  assert (sum_of bc1 p0 (difficultySum_ hp) \/ dltb (difficultySum_ hp) dbl_0 = true) as Hm.
  { destruct (Hok1 p0 hp Hkp0 Hhp) as [(l & Hl & -> & _)|[H _]]; [left; by exists l|by right]. }
  destruct (scan_spec rank hs bc2 (difficultySum_ hp)) as (bc3 & Hrun & Hr3 & _ & _ & Hset3 & Hp3).
  - by apply (same_wf Hs2).
  - by apply (same_sums_ok bc1).
  - by apply (same_gen_solved bc1).
  - rewrite Forall_forall. intros a. apply Hhs.
  - destruct Hm as [Hm|Hm]; [apply (sum_of_facts rank bc1 Hwf1 p0 _ Hkp0 Hm)|apply (dltb_not_nan _ _ Hm)].
  - destruct (picked_state_intro bc bc3 l0 g hg p0 hp hs) as (t & Hps); try done.
    + by rewrite <- (same_sum_of Hs1).
    + by apply (same_picked bc bc2) in Hp3.
    + exists g, p0, t, hs, bc3. split; [|exact Hps]. by eapply pick_top_steps.
Qed.

(** ** The end of a pass: the main chain *)

Lemma size_heap bc l : NoDup l -> (forall x, x ∈ l -> is_Some (heap_ bc !! x)) ->
  (length l <= size (heap_ bc))%nat.
Proof.
  intros Hnd Hl. rewrite <- size_dom, <- (size_list_to_set (C := gset nat) l Hnd).
  apply subseteq_size. intros x Hx%elem_of_list_to_set. by apply elem_of_dom, Hl.
Qed.

Lemma resize_heights_lookup (hs : list Ptr) n i x : hs !! i = Some x -> (i < n)%nat ->
  take n (hs ++ replicate (n - length hs) None) !! i = Some x.
Proof.
  intros Hi Hn. rewrite lookup_take_lt by done. apply lookup_app_l_Some. exact Hi.
Qed.

Lemma resize_heights_length (hs : list Ptr) n :
  length (take n (hs ++ replicate (n - length hs) None)) = n.
Proof. rewrite length_take, length_app, length_replicate. lia. Qed.

(** The state of the headers and the heights when the walk is done. *)
Record marked_state bc bc' t l l1 b (lb : list nat) : Prop := {
  ms_tables : headerMap_ bc' = headerMap_ bc /\ genesisHash_ bc' = genesisHash_ bc /\
    headersById_ bc' = headersById_ bc /\ newlyParsedBlocks_ bc' = newlyParsedBlocks_ bc /\
    topBlockPtr_ bc' = topBlockPtr_ bc /\ topBlockId_ bc' = topBlockId_ bc;
  ms_hmark : hmark bc bc' (fun x => bool_decide (x ∈ l1))
    (fun x => match child_hash bc (l1 ++ [b]) x with
              | Some n => Some n
              | None => if decide (x = t) then Some EmptyHash else None
              end);
  ms_length : length (headersByHeight_ bc') = length l;
  ms_heights j x : (l1 ++ [b]) !! j = Some x ->
    headersByHeight_ bc' !! (length l - 1 - j)%nat = Some (Some x);
  ms_below i p : (i < length lb)%nat -> headersByHeight_ bc !! i = Some p ->
    headersByHeight_ bc' !! i = Some p;
}.

Lemma update_main_noop bc b h : heap_ bc !! b = Some h -> isMainBranch_ h = true ->
  update (Some b) (set_isMainBranch true) bc = Ok (tt, bc).
Proof.
  intros Hh Hm. rewrite (update_ok _ _ _ _ Hh).
  assert (set_isMainBranch true h = h) as -> by (destruct h; simpl in *; by subst).
  rewrite insert_id by done. by destruct bc.
Qed.

(** When the organising pass has settled every header, those of a chain carry
    its sums and heights. *)
Lemma chain_all_solved bc t l : wf rank bc -> known bc t -> chain bc t l ->
  (forall a, known bc a -> settled bc a) ->
  forall x, x ∈ l -> exists h, heap_ bc !! x = Some h /\ solved bc x h.
Proof.
  intros Hwf Hkt Hc Hset x Hx.
  pose proof (trail_known _ _ Hwf _ _ _ Hkt Hc) as Hk. rewrite Forall_forall in Hk.
  destruct (Hset x (Hk x Hx)) as (h & Hh & [Hs|[Hn _]]); [by exists h|].
  destruct Hn. apply list_elem_of_split in Hx as (la & lc & ->).
  exists (x :: lc). by eapply trail_suffix.
Qed.

(** The state in which the walk starts: the top [t] has no next hash, and the
    table of heights has one entry per block of the chain [l]. *)
Definition mark_start bc t (ht : BlockHeader) (l : list nat) : Blockchain :=
  set_headersByHeight (take (length l) (headersByHeight_ bc ++
    replicate (length l - length (headersByHeight_ bc)) None))
    (set_heap (<[t := set_nextHash EmptyHash ht]> (heap_ bc)) bc).

Lemma mark_start_length bc t ht l :
  length (headersByHeight_ (mark_start bc t ht l)) = length l.
Proof. apply resize_heights_length. Qed.

Lemma mark_start_hmark bc t ht l : heap_ bc !! t = Some ht ->
  hmark bc (mark_start bc t ht l) (fun _ => false)
    (fun x => if decide (x = t) then Some EmptyHash else None).
Proof.
  intros Hht x. simpl. destruct (decide (x = t)) as [->|Hne].
  - rewrite lookup_insert_eq, Hht. simpl. unfold marked, set_nextHash. destruct ht. simpl.
    by rewrite !orb_false_r, andb_true_r.
  - rewrite lookup_insert_ne by done. destruct (heap_ bc !! x); [|done]. simpl.
    by rewrite marked_nothing.
Qed.

Lemma mark_start_same bc t ht l : heap_ bc !! t = Some ht -> same_chain bc (mark_start bc t ht l).
Proof.
  intros Hht. refine (hmark_same _ _ _ _ _ (mark_start_hmark bc t ht l Hht)). by split.
Qed.

(** The walk from that state down to the first block of the old chain. *)
Lemma mark_start_main bc t ht l1 b lb p topID : wf rank bc -> known bc t ->
  chain bc t (l1 ++ b :: lb) -> heap_ bc !! t = Some ht ->
  (forall a, known bc a -> settled bc a) ->
  Forall (fun x => forall h, heap_ bc !! x = Some h -> isFinishedCalc_ h = false) l1 ->
  (forall h, heap_ bc !! b = Some h -> isFinishedCalc_ h = true /\ isMainBranch_ h = true) ->
  let bc3 := mark_start bc t ht (l1 ++ b :: lb) in
  exists bc4 topID', mark_main (size (heap_ bc3)) (Some t) p (bool_decide (Some t = p)) topID bc3 =
      Ok ((Some b, bool_decide (p ∈ Some <$> (l1 ++ [b])), topID'), bc4) /\
    tables_eq bc3 bc4 /\ heights_rel bc3 bc4 l1 (length (l1 ++ b :: lb)) /\
    hmark bc3 bc4 (fun x => bool_decide (x ∈ l1)) (child_hash bc3 (l1 ++ [b])).
Proof.
  intros Hwf Hkt Hc Hht Hset Hun Hb bc3.
  pose proof (chain_all_solved _ _ _ Hwf Hkt Hc Hset) as Hsol.
  pose proof (trail_NoDup _ _ Hwf _ _ _ Hkt Hc) as Hnd.
  pose proof (mark_start_hmark bc t ht (l1 ++ b :: lb) Hht) as Hm3. fold bc3 in Hm3.
  pose proof (mark_start_same bc t ht (l1 ++ b :: lb) Hht : same_chain bc bc3) as Hs3.
  apply (mark_main_spec l1 bc3 t b lb (size (heap_ bc3)) p false topID).
  - by apply (same_wf Hs3).
  - by apply (same_known Hs3).
  - by apply (same_trail Hs3).
  - rewrite Forall_forall in Hun |- *. intros x Hx.
    destruct (Hsol x) as (h & Hh & Hs); [apply elem_of_app; by left|].
    eexists. rewrite Hm3, Hh. split; [done|]. simpl. rewrite orb_false_r.
    split; [exact (Hun x Hx h Hh)|]. apply (same_solved Hs3). destruct Hs as (lx & ? & ? & ? & Ho).
    exists lx. simpl. by rewrite Ho.
  - destruct (Hsol b) as (h & Hh & _); [apply elem_of_app; right; by left|].
    eexists. rewrite Hm3, Hh. split; [done|]. simpl. by rewrite (proj1 (Hb _ Hh)).
  - transitivity (length (l1 ++ b :: lb)); [rewrite length_app; lia|].
    apply size_heap; [done|]. intros x Hx. destruct (Hsol x Hx) as (h & Hh & _).
    rewrite Hm3, Hh. by eexists.
  - by rewrite (mark_start_length bc t ht (l1 ++ b :: lb) : length (headersByHeight_ bc3) = _).
Qed.

(** The calls around the walk. *)
Lemma mark_chain_steps bc t ht l p0 topID b hb v topID' bc4 n :
  topBlockPtr_ bc = Some t -> heap_ bc !! t = Some ht ->
  blockHeight_ ht = zlen l - 1 -> 0 < zlen l < 2 ^ 32 ->
  mark_main (size (heap_ (mark_start bc t ht l))) (Some t) p0 (bool_decide (Some t = p0)) topID
    (mark_start bc t ht l) = Ok ((Some b, v, topID'), bc4) ->
  heap_ bc4 !! b = Some hb -> isMainBranch_ hb = true -> blockHeight_ hb = Z.of_nat n ->
  (n < length (headersByHeight_ bc4))%nat ->
  mark_chain p0 topID bc = Ok ((Some b, v), set_topID (wrap 32 (topID' + 1))
    (set_headersByHeight (<[n := Some b]> (headersByHeight_ bc4)) bc4)).
Proof.
  intros Htop Hht Hgt Hlen Hrun Hhb Hbm Hn Hnl. unfold mark_chain, top.
  rewrite (chain_bind_ok _ _ _ _ _ (chain_get_ok _ _)), Htop.
  rewrite (chain_bind_ok _ _ _ _ _ (update_ok _ _ _ _ Hht)).
  set (bc2 := set_heap _ bc).
  rewrite (chain_bind_ok _ _ _ _ _ (deref_ok bc2 t _ (lookup_insert_eq _ _ _))).
  change (blockHeight_ (set_nextHash EmptyHash ht)) with (blockHeight_ ht). rewrite Hgt.
  replace (wrap 32 (zlen l - 1 + 1)) with (zlen l) by (rewrite wrap_small; unfold is_uint; lia).
  unfold resize_heights. rewrite (chain_bind_ok _ _ _ _ _ (chain_set_ok _ _)).
  change (headersByHeight_ bc2) with (headersByHeight_ bc).
  replace (Z.to_nat (zlen l)) with (length l) by (unfold zlen; lia).
  rewrite (chain_bind_ok _ _ _ _ _ (chain_get_ok _ _)).
  rewrite (chain_bind_ok _ _ _ _ _ Hrun).
  rewrite (chain_bind_ok _ _ _ _ _ (update_main_noop _ _ _ Hhb Hbm)).
  rewrite (chain_bind_ok _ _ _ _ _ (deref_ok _ _ _ Hhb)), Hn.
  rewrite (chain_bind_ok _ _ _ _ _ (put_height_ok bc4 n (Some b) Hnl)).
  by rewrite (chain_bind_ok _ _ _ _ _ (chain_set_ok _ _)).
Qed.

(** The state after them. *)
Lemma mark_end_state bc t ht l1 b lb bc4 topID' : heap_ bc !! t = Some ht ->
  let l := l1 ++ b :: lb in let bc3 := mark_start bc t ht l in
  tables_eq bc3 bc4 -> heights_rel bc3 bc4 l1 (length l) ->
  hmark bc3 bc4 (fun x => bool_decide (x ∈ l1)) (child_hash bc3 (l1 ++ [b])) ->
  marked_state bc (set_topID topID'
    (set_headersByHeight (<[length lb := Some b]> (headersByHeight_ bc4)) bc4)) t l l1 b lb.
Proof.
  intros Hht l bc3 Ht4 (Hh41 & Hh42 & Hh43) Hm4.
  pose proof (mark_start_hmark bc t ht l Hht) as Hm3. fold bc3 in Hm3.
  pose proof (mark_start_same bc t ht l Hht : same_chain bc bc3) as Hs3.
  assert (length l = (length l1 + S (length lb))%nat) as El
    by (unfold l; rewrite length_app; simpl; lia).
  pose proof (mark_start_length bc t ht l : length (headersByHeight_ bc3) = _) as Hl3.
  split.
  - destruct Ht4. repeat split; simpl; done.
  - refine (hmark_trans bc bc3 bc4 _ _ _ _ _ _ Hm3 Hm4 _ _); [done|].
    intros y. by rewrite (child_hash_same _ _ _ _ Hs3).
  - simpl. by rewrite length_insert, Hh41.
  - intros j x Hj. simpl. apply lookup_app_Some in Hj as [Hj|[Hj1 Hj]].
    + pose proof (lookup_lt_Some _ _ _ Hj). rewrite list_lookup_insert_ne by lia. by apply Hh42.
    + assert (j = length l1) as -> by (apply lookup_lt_Some in Hj; simpl in Hj; lia).
      rewrite Nat.sub_diag in Hj. simplify_eq/=.
      replace (length l - 1 - length l1)%nat with (length lb) by lia.
      apply list_lookup_insert_eq. rewrite Hh41, Hl3. lia.
  - intros i p Hi Hp. simpl. rewrite list_lookup_insert_ne by lia. rewrite Hh43.
    + simpl. apply resize_heights_lookup; [done|]. lia.
    + left. lia.
Qed.

Lemma mark_chain_run bc t l l1 b lb p0 topID : wf rank bc -> topBlockPtr_ bc = Some t ->
  known bc t -> chain bc t l -> l = l1 ++ b :: lb ->
  (forall a, known bc a -> settled bc a) ->
  Forall (fun x => forall h, heap_ bc !! x = Some h -> isFinishedCalc_ h = false) l1 ->
  (forall h, heap_ bc !! b = Some h -> isFinishedCalc_ h = true /\ isMainBranch_ h = true) ->
  exists bc', mark_chain (Some p0) topID bc =
      Ok ((Some b, bool_decide (p0 ∈ l1 ++ [b])), bc') /\ marked_state bc bc' t l l1 b lb.
Proof.
  intros Hwf Htop Hkt Hc -> Hset Hun Hb.
  pose proof (chain_all_solved _ _ _ Hwf Hkt Hc Hset) as Hsol.
  destruct (chain_height _ _ Hwf _ _ Hkt Hc) as [Hlen0 Hlen32].
  destruct (Hsol t) as (ht & Hht & Hst); [destruct (trail_head _ _ _ _ Hc) as [? ->]; by left|].
  destruct (Hsol b) as (hb & Hhb & Hsb); [apply elem_of_app; right; by left|].
  pose proof (solved_height _ _ _ _ (trail_suffix _ _ _ _ _ _ _ Hc eq_refl) Hsb) as Hgtb.
  destruct (mark_start_main bc t ht l1 b lb (Some p0) topID)
    as (bc4 & topID' & Hrun & Ht4 & Hh4 & Hm4); try done.
  eexists. split; [|by apply (mark_end_state bc t ht l1 b lb bc4 (wrap 32 (topID' + 1)) Hht Ht4 Hh4 Hm4)].
  rewrite (bool_decide_ext (p0 ∈ l1 ++ [b]) (Some p0 ∈ Some <$> (l1 ++ [b])))
    by by rewrite (list_elem_of_fmap_inj Some).
  assert (exists hb4, heap_ bc4 !! b = Some hb4 /\ isMainBranch_ hb4 = true /\
    blockHeight_ hb4 = Z.of_nat (length lb)) as (hb4 & Hhb4 & Hbm4 & Hgt4).
  { eexists. rewrite Hm4, (mark_start_hmark bc t ht _ Hht), Hhb. split; [done|].
    simpl. rewrite (proj2 (Hb _ Hhb)). split; [done|]. rewrite Hgtb. unfold zlen. simpl. lia. }
  apply (mark_chain_steps bc t ht (l1 ++ b :: lb) _ _ _ hb4); try done.
  - by apply (solved_height _ _ _ _ Hc).
  - lia.
  - destruct Hh4 as (-> & _). rewrite mark_start_length, length_app. simpl. lia.
Qed.

(** ** One pass *)

Record pass_state bc bc' l0 p0 t l l1 b (lb : list nat) : Prop := {
  pa_prev : top_is bc p0;
  pa_known0 : known bc p0;
  pa_same : same_chain bc bc';
  pa_known : known bc t;
  pa_chain : chain bc t l;
  pa_topis : top_is bc' t;
  pa_max : max_sum bc t;
  pa_split : l = l1 ++ b :: lb /\ b ∈ l0 /\ Forall (fun x => x ∉ l0) l1;
  pa_first hs : map_values (headerMap_ bc) = Some <$> hs -> first_max bc hs t \/ t = p0;
  pa_unsolved hs : map_values (headerMap_ bc) = Some <$> hs -> gen_of bc ≠ Some p0 ->
    (forall h, heap_ bc !! p0 = Some h -> dltb (difficultySum_ h) dbl_0 = true) ->
    first_max bc hs t;
  pa_settled a : known bc a -> settled bc' a;
  pa_organized : p0 ∈ l -> organized_on bc' t l;
}.

Lemma settled_same bc bc' a : same_chain bc bc' ->
  (forall h, heap_ bc !! a = Some h -> exists h', heap_ bc' !! a = Some h' /\
     difficultySum_ h' = difficultySum_ h /\ blockHeight_ h' = blockHeight_ h /\
     (isOrphan_ h' = isOrphan_ h \/ (isOrphan_ h' = false /\ connected bc a))) ->
  settled bc a -> settled bc' a.
Proof.
  intros Hs Hf (h & Hh & H). destruct (Hf _ Hh) as (h' & Hh' & Ed & Eh & Eo).
  exists h'. split; [done|]. rewrite (same_connected Hs), (same_solved Hs), (same_unsolved Hs).
  destruct H as [(l & Hl & H1 & H2 & H3)|[Hn [H1 H2]]].
  - left. exists l. rewrite Ed, Eh. repeat split; try done. destruct Eo as [->|[-> _]]; done.
  - right. split; [done|]. destruct Eo as [Eo|[_ ?]]; [|done]. split; [by rewrite Ed|]. by rewrite Eo.
Qed.

Lemma max_sum_same bc bc' a : same_chain bc bc' -> max_sum bc' a <-> max_sum bc a.
Proof.
  intros Hs. split; intros (s & H1 & H2); exists s; (split; [by apply (same_sum_of Hs)|]);
    intros b s' Hb Hs'; (eapply H2; [by apply (same_known Hs)|by apply (same_sum_of Hs)]).
Qed.

(** The lower end of the walk: the blocks below it were on the main chain. *)
Lemma old_chain_suffix bc t0 l0 t l l1 b lb : chain bc t0 l0 -> chain bc t l ->
  l = l1 ++ b :: lb -> b ∈ l0 -> exists la, l0 = la ++ b :: lb.
Proof.
  intros Hc0 Hc El Hb. apply list_elem_of_split in Hb as (la & lc & E). exists la.
  pose proof (trail_suffix _ _ _ _ _ _ _ Hc0 E) as H1.
  pose proof (trail_suffix _ _ _ _ _ _ _ Hc El) as H2.
  destruct (trail_det _ _ _ _ _ _ H1 H2) as [E' _]. by rewrite E, E'.
Qed.

(** When the previous top is on the new chain, the old main chain is its lower
    end. *)
Lemma old_chain_below bc t0 p0 l0 t l l1 b lb : wf rank bc -> known bc t0 ->
  chain bc t0 l0 -> chain bc t l -> l = l1 ++ b :: lb -> b ∈ l0 -> Forall (fun x => x ∉ l0) l1 ->
  gen_of bc = Some t0 \/ t0 = p0 -> p0 ∈ l -> l0 = b :: lb.
Proof.
  intros Hwf Hk0 Hc0 Hc El Hb Hd Hp Hin.
  destruct (old_chain_suffix _ _ _ _ _ _ _ _ Hc0 Hc El Hb) as [[|x la] E]; [done|exfalso].
  pose proof (trail_NoDup _ _ Hwf _ _ _ Hk0 Hc0) as Hnd.
  destruct (trail_head _ _ _ _ Hc0) as [l' E']. rewrite E in E'. injection E' as -> _.
  destruct Hp as [Hg| ->].
  - inversion Hc0; subst; simplify_eq/=; by destruct la.
  - rewrite El in Hin. apply elem_of_app in Hin as [Hin|Hin].
    + rewrite Forall_forall in Hd. apply (Hd _ Hin). rewrite E. by left.
    + rewrite E in Hnd. simpl in Hnd. apply NoDup_cons in Hnd as [Hn _]. apply Hn.
      apply elem_of_app. by right.
Qed.

Section marked.
Context (bc bc' : Blockchain) (t b : nat) (l l1 lb : list nat).
Context (Hwf : wf rank bc) (Hkt : known bc t) (Hc : chain bc t l) (El : l = l1 ++ b :: lb).
Context (Hms : marked_state bc bc' t l l1 b lb).

Lemma marked_same : same_chain bc bc'.
Proof using Hms.
  destruct (ms_tables _ _ _ _ _ _ _ Hms) as (? & ? & ? & ? & _).
  split; try done. intros a. rewrite (ms_hmark _ _ _ _ _ _ _ Hms). by destruct (heap_ bc !! a).
Qed.

Lemma marked_settled a : known bc a -> settled bc a -> settled bc' a.
Proof using Hms Hwf Hkt Hc El.
  intros Ha. apply settled_same; [apply marked_same|]. intros h Hh. eexists.
  rewrite (ms_hmark _ _ _ _ _ _ _ Hms), Hh. split; [done|]. simpl. split; [done|]. split; [done|].
  destruct (decide (a ∈ l1)) as [Hin|Hin].
  - right. rewrite bool_decide_true by done. rewrite andb_false_r. split; [done|].
    apply list_elem_of_split in Hin as (la & lc & E). subst l1.
    exists (a :: lc ++ b :: lb). eapply trail_suffix; [exact Hc|]. rewrite El, <- app_assoc. done.
  - left. rewrite bool_decide_false by done. by rewrite andb_true_r.
Qed.

Lemma marked_marks : marks_ok bc (b :: lb) -> marks_ok bc' l.
Proof using Hms El Hc Hkt Hwf.
  intros Hm a h' Ha Hh'. apply (same_known marked_same) in Ha.
  rewrite (ms_hmark _ _ _ _ _ _ _ Hms) in Hh'. destruct (heap_ bc !! a) as [h|] eqn:Hh; [|done].
  simpl in Hh'. simplify_eq. simpl. destruct (Hm a h Ha Hh) as [-> ->].
  rewrite (bool_decide_ext (a ∈ l1 ++ b :: lb) (a ∈ b :: lb \/ a ∈ l1))
    by (rewrite elem_of_app; naive_solver).
  by rewrite bool_decide_or.
Qed.

Lemma marked_heights :
  (lb = [] \/ forall i a, rev (b :: lb) !! i = Some a -> headersByHeight_ bc !! i = Some (Some a)) ->
  headersByHeight_ bc' = Some <$> rev l.
Proof using Hms El Hc Hkt Hwf.
  intros Hh. apply list_eq. intros i.
  pose proof (ms_length _ _ _ _ _ _ _ Hms) as Hlen.
  destruct (decide (i < length l)%nat) as [Hi|Hi].
  2:{ rewrite !lookup_ge_None_2; [done|rewrite length_fmap, length_rev; lia|lia]. }
  destruct (lookup_lt_is_Some_2 l (length l - S i)%nat ltac:(lia)) as [x Hx].
  rewrite list_lookup_fmap, rev_lookup, Hx by done. simpl.
  assert (length l = (length l1 + S (length lb))%nat) as Hll by (rewrite El, length_app; simpl; lia).
  assert (exists j, j = (length l - S i)%nat) as [j Ej] by eauto. rewrite <- Ej, El in Hx.
  destruct (decide (length lb <= i)%nat) as [Hge|Hlt].
  - pose proof (ms_heights _ _ _ _ _ _ _ Hms j x) as H.
    replace (length l - 1 - j)%nat with i in H by lia. apply H.
    replace (l1 ++ b :: lb) with ((l1 ++ [b]) ++ lb) in Hx by (by rewrite <- app_assoc).
    rewrite lookup_app_l in Hx; [done|]. rewrite length_app. simpl. lia.
  - apply (ms_below _ _ _ _ _ _ _ Hms); [lia|]. destruct Hh as [->|Hh]; [simpl in Hlt; lia|].
    apply Hh. rewrite rev_lookup by (simpl; lia). simpl length.
    rewrite lookup_app_r in Hx by lia. rewrite <- Hx. f_equal. lia.
Qed.

Lemma marked_links : lb = [] \/ links_ok bc (b :: lb) -> links_ok bc' l.
Proof using Hms El Hwf Hkt Hc.
  intros Hl i c a hc h Hic Hia Hhc Hh.
  pose proof (trail_NoDup _ _ Hwf _ _ _ Hkt Hc) as Hnd.
  destruct (same_lookup_inv marked_same _ _ Hhc) as (hc0 & Hhc0 & _ & -> & _).
  rewrite (ms_hmark _ _ _ _ _ _ _ Hms) in Hh. destruct (heap_ bc !! a) as [h0|] eqn:Hh0; [|done].
  simpl in Hh. simplify_eq. simpl.
  replace (l1 ++ b :: lb) with ((l1 ++ [b]) ++ lb) in * by (by rewrite <- app_assoc).
  destruct (decide (S i < length (l1 ++ [b]))%nat) as [Hlt|Hge].
  - rewrite lookup_app_l in Hia, Hic by lia.
    rewrite (child_hash_lookup bc (l1 ++ [b]) i c a hc0); try done. by apply NoDup_app in Hnd as (? & _).
  - assert (a ∉ l1 ++ [b]) as Hn.
    { intros Hin. apply list_elem_of_lookup in Hin as (j & Hj).
      pose proof (lookup_lt_Some _ _ _ Hj).
      assert (j = S i) as ->; [|lia].
      eapply NoDup_lookup; [exact Hnd| |exact Hia]. by rewrite lookup_app_l by lia. }
    rewrite child_hash_notin by done. rewrite decide_False.
    + destruct Hl as [->|Hl].
      { apply lookup_lt_Some in Hia. rewrite app_nil_r in Hia. lia. }
      rewrite <- app_assoc in Hia, Hic. rewrite length_app in Hge. simpl in Hge, Hia, Hic.
      rewrite lookup_app_r in Hia, Hic by lia.
      apply (Hl (i - length l1)%nat c a hc0 h0); try done.
      by replace (S (i - length l1)) with (S i - length l1)%nat by lia.
    + intros ->. destruct (trail_head _ _ _ _ Hc) as [l' E].
      assert (0%nat = S i) as ?; [|done]. eapply NoDup_lookup; [exact Hnd| |exact Hia]. by rewrite E.
Qed.

Lemma marked_organized p0 : topBlockPtr_ bc = Some t -> top_is bc t ->
  (forall a s, known bc a -> sum_of bc a s -> dltb (chain_sum bc l) s = false) ->
  (forall a, known bc a -> settled bc a) -> marks_ok bc (b :: lb) ->
  (lb = [] \/ links_ok bc (b :: lb) /\
     forall i a, rev (b :: lb) !! i = Some a -> headersByHeight_ bc !! i = Some (Some a)) ->
  p0 ∈ l -> organized_on bc' t l.
Proof using Hms El Hwf Hkt Hc.
  intros Htop Htis Hmax Hset Hmarks Hlow Hin. pose proof marked_same as Hs.
  destruct (ms_tables _ _ _ _ _ _ _ Hms) as (E1 & E2 & E3 & _ & E4 & E5).
  split.
  - by rewrite E4.
  - by apply (same_trail Hs).
  - intros a s Ha Hsum. rewrite (same_chain_sum Hs). apply (Hmax a).
    + by apply (same_known Hs).
    + by apply (same_sum_of Hs).
  - intros a Ha%(same_known Hs). apply marked_settled; auto.
  - by apply marked_marks.
  - apply marked_heights. tauto.
  - apply marked_links. tauto.
  - intros h Hh. rewrite (ms_hmark _ _ _ _ _ _ _ Hms) in Hh.
    destruct (heap_ bc !! t) as [h0|]; [|done]. simpl in Hh. simplify_eq. simpl.
    pose proof (trail_NoDup _ _ Hwf _ _ _ Hkt Hc) as Hnd.
    destruct (trail_head _ _ _ _ Hc) as [l' E].
    assert (exists l2, l1 ++ [b] = t :: l2 /\ t ∉ l2) as (l2 & -> & Hn).
    { rewrite E in Hnd. apply NoDup_cons in Hnd as [Hn _].
      destruct l1 as [|x l2]; simpl in E; injection E as -> <-.
      - exists []. split; [done|]. by intros ?%elem_of_nil.
      - exists (l2 ++ [b]). split; [done|]. intros Hx. apply Hn.
        apply elem_of_app in Hx as [?|?%list_elem_of_singleton]; apply elem_of_app; [by left|].
        right. subst. by left. }
    rewrite child_hash_head by done. by rewrite decide_True.
  - unfold top_is. rewrite E3, E5, (same_gen _ _ Hs). exact Htis.
Qed.
End marked.

Lemma top_is_det bc a b : top_is bc a -> top_is bc b -> a = b.
Proof. unfold top_is. intros [Ha|[Ha ?]] [Hb|[Hb ?]]; congruence. Qed.

Lemma gen_chain_below bc g l l1 b lb : gen_of bc = Some g -> chain bc g l -> b ∈ l ->
  chain bc b (b :: lb) -> l = [b] /\ lb = [].
Proof.
  intros Hg Hc Hb Hcb. unfold chain in *. inversion Hc; subst; [|congruence].
  apply list_elem_of_singleton in Hb as ->. inversion Hcb; subst; [done|congruence].
Qed.

(** The previous top is the tip of the old main chain, or that chain is the
    genesis block alone. *)
Lemma old_top bc t0 l0 p0 : wf rank bc -> top_is bc p0 -> main_from bc l0 t0 ->
  known bc t0 /\ (gen_of bc = Some t0 \/ t0 = p0).
Proof.
  intros Hwf Htop (_ & Hmain). split.
  - destruct Hmain as [Hg0|(_ & [Hti|[_ Hg0]] & _)].
    1,3: destruct (gen_known _ _ Hwf) as (g' & ? & ?); by simplify_eq.
    destruct (wf_byId _ _ Hwf _ _ Hti) as (? & ? & ?). by simplify_eq.
  - destruct Hmain as [?|(_ & Hti & _)]; [by left|right]. by eapply top_is_det.
Qed.

(** The walk meets the previous top if and only if it is on the new chain. *)
Lemma prev_top_met bc t0 l0 p0 t l l1 b lb : wf rank bc -> known bc t0 -> chain bc t0 l0 ->
  (gen_of bc = Some t0 \/ t0 = p0) -> chain bc t l -> l = l1 ++ b :: lb ->
  b ∈ l0 -> Forall (fun x => x ∉ l0) l1 -> p0 ∈ l <-> p0 ∈ l1 ++ [b].
Proof.
  intros Hwf Hk0 Hc0 Hp0 Hc El Hb Hd.
  rewrite El, !elem_of_app, elem_of_cons, list_elem_of_singleton.
  split; [|naive_solver]. intros [?|[?|Hin]]; [by left|by right|right].
  assert (p0 ∈ l) as Hin' by (rewrite El, elem_of_app, elem_of_cons; auto).
  pose proof (old_chain_below bc t0 p0 l0 t l l1 b lb Hwf Hk0 Hc0 Hc El Hb Hd Hp0 Hin') as E.
  destruct (trail_head _ _ _ _ Hc0) as [l' E']. rewrite E in E'. injection E' as <- <-.
  destruct Hp0 as [Hg0|Hp0]; [|done].
  inversion Hc0; subst; simplify_eq/=; by apply elem_of_nil in Hin.
Qed.

(** What the walk needs of the marks the headers have when it starts. *)
Lemma marks_split bc t l l0 l1 b lb : wf rank bc -> known bc t -> chain bc t l ->
  l = l1 ++ b :: lb -> marks_ok bc l0 -> b ∈ l0 -> Forall (fun x => x ∉ l0) l1 ->
  Forall (fun x => forall h, heap_ bc !! x = Some h -> isFinishedCalc_ h = false) l1 /\
  (forall h, heap_ bc !! b = Some h -> isFinishedCalc_ h = true /\ isMainBranch_ h = true).
Proof.
  intros Hwf Hkt Hc El Hm Hb Hd.
  pose proof (trail_known _ _ Hwf _ _ _ Hkt Hc) as Hk. rewrite Forall_forall in Hk, Hd.
  split.
  - apply Forall_forall. intros x Hx h Hh. assert (known bc x) as Hkx.
    { apply Hk. rewrite El. apply elem_of_app. by left. }
    rewrite (proj1 (Hm x h Hkx Hh)). apply bool_decide_false. by apply Hd.
  - intros h Hh. assert (known bc b) as Hkb.
    { apply Hk. rewrite El. apply elem_of_app. right. by left. }
    destruct (Hm b h Hkb Hh) as [-> ->]. by rewrite bool_decide_true.
Qed.

(** The two stages of a pass, put together. *)
Section pass.
Context (bc bc1 bc2 : Blockchain) (l0 l l1 lb hs : list nat) (g p0 t0 t b : nat).
Context (Hwf : wf rank bc) (Hps : picked_state bc bc1 l0 g p0 t hs).
Context (Hc : chain bc t l) (El : l = l1 ++ b :: lb).
Context (Hms : marked_state bc1 bc2 t l l1 b lb).

Let Hs1 : same_chain bc bc1 := ps_same _ _ _ _ _ _ _ Hps.
Let Hwf1 : wf rank bc1 := same_wf Hs1 rank Hwf.

Lemma picked_known_top : known bc1 t.
Proof using Hps. apply (same_known Hs1). exact (ps_known _ _ _ _ _ _ _ Hps). Qed.

Lemma picked_chain_top : chain bc1 t l.
Proof using Hps Hc. by apply (same_trail Hs1). Qed.

Lemma picked_settled a : known bc1 a -> settled bc1 a.
Proof using Hps. intros Ha%(same_known Hs1). by apply Hps. Qed.

Lemma pass_organized : main_from bc l0 t0 -> b ∈ l0 -> Forall (fun x => x ∉ l0) l1 ->
  p0 ∈ l -> organized_on bc2 t l.
Proof using All.
  intros Hmain Hb Hd Hin.
  destruct (old_top bc t0 l0 p0 Hwf) as [Hk0 Hp0]; [apply Hps|done|]. destruct Hmain as [Hc0 Hmain].
  pose proof (old_chain_below bc t0 p0 l0 t l l1 b lb Hwf Hk0 Hc0 Hc El Hb Hd Hp0 Hin) as E0.
  destruct (ps_max _ _ _ _ _ _ _ Hps) as (s & (l' & Hl' & ->) & Hmax).
  destruct (trail_det _ _ _ _ _ _ Hc Hl') as [<- _].
  eapply (marked_organized bc1 bc2 t b l l1 lb Hwf1 picked_known_top picked_chain_top El Hms p0);
    try done; try apply Hps.
  - intros a s' Ha Hs'. rewrite (same_chain_sum Hs1). eapply Hmax.
    + by apply (same_known Hs1).
    + by apply (same_sum_of Hs1).
  - apply picked_settled.
  - rewrite <- E0. apply Hps.
  - rewrite <- E0. destruct Hmain as [Hg0|(Hl & _ & Hh)].
    + left. destruct (gen_chain_below bc t0 l0 l1 b lb Hg0 Hc0 Hb) as [_ ->]; [|done].
      exact (trail_suffix _ _ _ _ _ _ _ Hc El).
    + right. split.
      * eapply (links_ok_same bc bc1); [done| |done]. apply Hps.
      * intros i a Hi. rewrite (ps_heights _ _ _ _ _ _ _ Hps). by apply Hh.
Qed.

Lemma pass_state_intro : main_from bc l0 t0 -> b ∈ l0 -> Forall (fun x => x ∉ l0) l1 ->
  pass_state bc bc2 l0 p0 t l l1 b lb.
Proof using All.
  intros Hmain Hb Hd.
  assert (same_chain bc bc2) as Hs2 by (etrans; [exact Hs1|by eapply marked_same]).
  destruct (ms_tables _ _ _ _ _ _ _ Hms) as (_ & _ & E3 & _ & E4 & E5).
  pose proof (ps_known _ _ _ _ _ _ _ Hps).
  split; try done; try (by apply Hps).
  - unfold top_is. rewrite E3, E5, (same_gen _ _ Hs2), <- (same_gen _ _ Hs1). apply Hps.
  - intros hs' E. rewrite (ps_hs _ _ _ _ _ _ _ Hps) in E.
    apply (inj (fmap Some)) in E as <-. apply Hps.
  - intros hs' E Hne Hneg. rewrite (ps_hs _ _ _ _ _ _ _ Hps) in E.
    apply (inj (fmap Some)) in E as <-. pose proof (ps_gen _ _ _ _ _ _ _ Hps). apply Hps; [congruence|done].
  - intros a Ha. eapply (marked_settled bc1); try done;
      [apply picked_known_top|apply picked_chain_top|by apply (same_known Hs1)|by apply Hps].
  - by apply pass_organized.
Qed.
End pass.

Lemma organize_pass_spec bc l0 : wf rank bc -> ready bc l0 ->
  exists p0 t l l1 b lb bc',
    organize_pass bc = Ok ((Some b, bool_decide (p0 ∈ l)), bc') /\
    pass_state bc bc' l0 p0 t l l1 b lb.
Proof.
  intros Hwf Hr. destruct (pick_top_spec bc l0 Hwf Hr) as (g & p0 & t & hs & bc1 & Hrun1 & Hps).
  pose proof (ps_same _ _ _ _ _ _ _ Hps) as Hs1. pose proof (same_wf Hs1 rank Hwf) as Hwf1.
  destruct (ps_max _ _ _ _ _ _ _ Hps) as (s & (l & Hc & ->) & _).
  destruct (rdy_main _ _ Hr) as (t0 & Hmain). pose proof (proj1 Hmain) as Hc0.
  destruct (old_top bc t0 l0 p0 Hwf) as [Hk0 Hp0]; [apply Hps|done|].
  destruct (split_first l l0) as (l1 & b & lb & El & Hd & Hb).
  { exists g. pose proof (ps_gen _ _ _ _ _ _ _ Hps). split; by eapply chain_has_gen. }
  pose proof (picked_known_top _ _ _ _ _ _ _ Hps) as Hkt1.
  pose proof (picked_chain_top _ _ _ _ _ _ _ _ Hps Hc) as Hc1.
  destruct (marks_split bc1 t l l0 l1 b lb) as [Hun Hfin]; try done; [apply Hps|].
  destruct (mark_chain_run bc1 t l l1 b lb p0 (topID_ bc)) as (bc2 & Hrun2 & Hms); try done.
  - apply Hps.
  - intros a. eapply picked_settled, Hps.
  - exists p0, t, l, l1, b, lb, bc2. split.
    + unfold organize_pass. rewrite (chain_bind_ok _ _ _ _ _ (chain_get_ok _ _)).
      rewrite (chain_bind_ok _ _ _ _ _ Hrun1), Hrun2.
      by rewrite (bool_decide_ext (p0 ∈ l) (p0 ∈ l1 ++ [b]))
        by exact (prev_top_met _ _ _ _ _ _ _ _ _ Hwf Hk0 Hc0 Hp0 Hc El Hb Hd).
    + by eapply pass_state_intro.
Qed.

(** ** The forced rebuild *)

Definition orphans_ok bc : Prop := forall a h, known bc a -> heap_ bc !! a = Some h ->
  gen_of bc ≠ Some a -> isOrphan_ h = true \/ connected bc a.

Lemma settled_orphans bc : (forall a, known bc a -> settled bc a) -> orphans_ok bc.
Proof.
  intros Hs a h Ha Hh _. destruct (Hs a Ha) as (h' & Hh' & H). simplify_eq.
  destruct H as [(l & Hl & _)|[_ [_ H]]]; [right; by exists l|done].
Qed.

Lemma ready_orphans bc l0 : ready bc l0 -> orphans_ok bc.
Proof.
  intros [Hr _] a h Ha Hh Hg. destruct (Hr a h Ha Hh Hg) as [[(l & Hl & _)|[_ H]] _]; [|done].
  right. by exists l.
Qed.

Lemma reset_loop hs : forall bc, (forall a, a ∈ hs -> is_Some (heap_ bc !! a)) ->
  exists H, chain_for (fun p => update p reset_header) (Some <$> hs) bc = Ok (tt, set_heap H bc) /\
    forall a, H !! a = (if decide (a ∈ hs) then reset_header else id) <$> heap_ bc !! a.
Proof.
  induction hs as [|x hs IH]; intros bc Hs.
  { exists (heap_ bc). split; [by destruct bc|]. intros a. rewrite decide_False by by intros ?%elem_of_nil.
    by destruct (heap_ bc !! a). }
  destruct (Hs x) as [h Hh]; [by left|].
  destruct (IH (set_heap (<[x := reset_header h]> (heap_ bc)) bc)) as (H & Hrun & HH).
  { intros a Ha. simpl. destruct (decide (a = x)) as [->|Hne]; [rewrite lookup_insert_eq; eauto|].
    rewrite lookup_insert_ne by done. apply Hs. by right. }
  exists H. split.
  - cbn [fmap list_fmap chain_for]. by rewrite (chain_bind_ok _ _ _ _ _ (update_ok _ _ _ _ Hh)).
  - intros a. rewrite HH. simpl. destruct (decide (a = x)) as [->|Hne].
    + rewrite lookup_insert_eq, Hh. rewrite (decide_True (P := x ∈ x :: hs)) by by left.
      simpl. f_equal. by destruct (decide (x ∈ hs)).
    + rewrite lookup_insert_ne by done. f_equal. apply decide_ext. rewrite elem_of_cons. naive_solver.
Qed.

Lemma reset_spec bc : wf rank bc -> orphans_ok bc -> exists g bc',
  reset_headers bc = Ok (tt, bc') /\ gen_of bc = Some g /\ same_chain bc bc' /\
  topBlockId_ bc' = topBlockId_ bc /\ ready bc' [g] /\
  (forall a h, known bc' a -> heap_ bc' !! a = Some h -> dltb (difficultySum_ h) dbl_0 = true).
Proof.
  intros Hwf Ho. destruct (gen_known _ _ Hwf) as (g & Hg & Hkg).
  destruct (values_known bc Hwf) as (hs & Hvs & Hhs).
  destruct (reset_loop hs bc) as (H & Hrun & HH).
  { intros a Ha%Hhs. destruct (known_header _ _ Hwf _ Ha) as (h & Hh & _). eauto. }
  set (bc' := set_topID 0 (set_topBlockPtr None (set_heap H bc))).
  assert (same_chain bc bc') as Hs.
  { split; try done. intros a. simpl. rewrite HH.
    destruct (heap_ bc !! a); [|done]. simpl. by destruct (decide (a ∈ hs)). }
  assert (forall a h', known bc' a -> heap_ bc' !! a = Some h' ->
    known bc a /\ exists h, heap_ bc !! a = Some h /\ h' = reset_header h) as Hinv.
  { intros a h' Ha%(same_known Hs) Hh'. split; [done|]. simpl in Hh'. rewrite HH in Hh'.
    rewrite decide_True in Hh' by by apply Hhs. destruct (heap_ bc !! a) as [h|]; [|done].
    exists h. simpl in Hh'. by simplify_eq. }
  exists g, bc'. split; [|split; [done|split; [done|split; [done|split]]]].
  - unfold reset_headers. rewrite (chain_bind_ok _ _ _ _ _ (chain_get_ok _ _)), Hvs.
    by rewrite (chain_bind_ok _ _ _ _ _ Hrun).
  - assert (gen_of bc' = Some g) as Hg' by by rewrite (same_gen _ _ Hs).
    split.
    + intros a h' Ha Hh' Hne. destruct (Hinv a h' Ha Hh') as (Hka & h & Hh & ->).
      rewrite Hg' in Hne. split; [right; split; [done|]|].
      * rewrite (same_connected Hs). apply (Ho a h Hka Hh). by rewrite Hg.
      * simpl. rewrite bool_decide_false; [done|]. intros ->%list_elem_of_singleton. done.
    + exists g. split; [by apply trail_gen|by left].
  - intros a h' Ha Hh'. by destruct (Hinv a h' Ha Hh') as (_ & h & _ & ->).
Qed.

Lemma first_max_same bc bc' hs a : same_chain bc bc' -> first_max bc' hs a <-> first_max bc hs a.
Proof.
  intros Hs. split; intros (pre & post & s & E & H1 & H2 & H3); exists pre, post, s;
    (split; [done|]; split; [by apply (same_sum_of Hs)|]; split; intros b s' Hb Hs';
     [apply (H2 b)|apply (H3 b)]; try done; by apply (same_sum_of Hs)).
Qed.

Lemma top_is_same bc bc' a : same_chain bc bc' -> topBlockId_ bc' = topBlockId_ bc ->
  top_is bc' a <-> top_is bc a.
Proof. intros Hs E. unfold top_is. by rewrite (sc_ids _ _ Hs), E, (same_gen _ _ Hs). Qed.

(** What one call of [organizeChain] gives: a pass, and nothing more when the
    previous top is on the new chain. *)
Lemma organizeChain_unfold n (force : bool) bc bc1 last valid bc2 :
  (if force then reset_headers else mret tt) bc = Ok (tt, bc1) ->
  organize_pass bc1 = Ok ((last, valid), bc2) ->
  organizeChain (S n) force bc =
  if negb valid then (_ ← organizeChain n true; mret last) bc2 else Ok (None, bc2).
Proof.
  intros H1 H2. cbn [organizeChain]. rewrite (chain_bind_ok _ _ _ _ _ H1), (chain_bind_ok _ _ _ _ _ H2).
  by destruct valid.
Qed.

(** A rebuild whose previous top is the first header of maximal sum keeps it. *)
Lemma forced_stable n bc t0 hs : wf rank bc -> orphans_ok bc -> top_is bc t0 ->
  map_values (headerMap_ bc) = Some <$> hs -> first_max bc hs t0 ->
  exists bc' l, organizeChain (S n) true bc = Ok (None, bc') /\ same_chain bc bc' /\
    organized_on bc' t0 l.
Proof.
  intros Hwf Ho Ht Hvs Hfm. destruct (reset_spec bc Hwf Ho) as (g & bc1 & Hr & Hg & Hs1 & Eid & Hrdy & _).
  pose proof (same_wf Hs1 rank Hwf) as Hwf1.
  destruct (organize_pass_spec bc1 [g] Hwf1 Hrdy) as (p0 & t & l & l1 & b & lb & bc2 & Hp & Hpa).
  assert (p0 = t0) as ->.
  { apply (top_is_det bc); [|done]. apply (top_is_same bc bc1); [done|done|]. apply Hpa. }
  assert (t = t0) as ->.
  { destruct (pa_first _ _ _ _ _ _ _ _ _ Hpa hs) as [H|H]; [by rewrite (sc_map _ _ Hs1)| |done].
    eapply first_max_unique; [|exact Hfm]. by apply (first_max_same bc bc1). }
  destruct (trail_head _ _ _ _ (pa_chain _ _ _ _ _ _ _ _ _ Hpa)) as [l' El].
  assert (t0 ∈ l) as Hin by (rewrite El; by left).
  exists bc2, l. split; [|split].
  - rewrite (organizeChain_unfold n true _ _ _ _ _ Hr Hp). by rewrite bool_decide_true.
  - etrans; [exact Hs1|]. apply Hpa.
  - by apply Hpa.
Qed.

(** A rebuild ends after at most one more: it returns null or the genesis block. *)
Lemma forced_any n bc : wf rank bc -> orphans_ok bc -> exists r bc' t l,
  organizeChain (S (S n)) true bc = Ok (r, bc') /\ same_chain bc bc' /\ organized_on bc' t l /\
  (r = None \/ r = gen_of bc).
Proof.
  intros Hwf Ho. destruct (reset_spec bc Hwf Ho) as (g & bc1 & Hr & Hg & Hs1 & Eid & Hrdy & Hneg).
  pose proof (same_wf Hs1 rank Hwf) as Hwf1.
  destruct (organize_pass_spec bc1 [g] Hwf1 Hrdy) as (p0 & t & l & l1 & b & lb & bc2 & Hp & Hpa).
  pose proof (pa_same _ _ _ _ _ _ _ _ _ Hpa) as Hs2.
  assert (same_chain bc bc2) as Hs by by etrans.
  rewrite (organizeChain_unfold (S n) true _ _ _ _ _ Hr Hp).
  destruct (decide (p0 ∈ l)) as [Hin|Hout].
  { rewrite bool_decide_true by done. exists None, bc2, t, l. split; [done|].
    split; [done|]. split; [by apply Hpa|by left]. }
  rewrite bool_decide_false by done. simpl negb. cbv iota.
  destruct (values_known bc1 Hwf1) as (hs & Hvs & Hhs).
  assert (gen_of bc1 = Some g) as Hg1 by by rewrite (same_gen _ _ Hs1).
  assert (first_max bc1 hs t) as Hfm.
  { apply Hpa; [done| |].
    - rewrite Hg1. intros [= ->]. apply Hout. eapply chain_has_gen; [apply Hpa|done].
    - intros h Hh. apply (Hneg p0); [apply Hpa|done]. }
  destruct (forced_stable n bc2 t hs) as (bc3 & l3 & Hrun & Hs3 & Horg).
  - by apply (same_wf Hs2).
  - apply settled_orphans. intros a Ha%(same_known Hs2). by apply Hpa.
  - apply Hpa.
  - by rewrite (sc_map _ _ Hs2).
  - by apply (first_max_same bc1 bc2).
  - exists (Some b), bc3, t, l3. rewrite (chain_bind_ok _ _ _ _ _ Hrun).
    split; [done|]. split; [by etrans|]. split; [done|]. right. rewrite Hg. f_equal.
    destruct (pa_split _ _ _ _ _ _ _ _ _ Hpa) as (_ & Hb & _). by apply list_elem_of_singleton in Hb.
Qed.
End organize.
