(* ===== verification/BlockchainProps.v ===== *)
(** * BlockchainProps: lemmas about additions, [organize] and the reorg search

    Adding a batch of fresh headers keeps the tables well-formed and ready to
    be organised; [organizeChain] in full, with its second pass; the walk of
    [findReorgPointFromBlock].  The theorems are in BlockchainCorrect. *)

From S2P Require Import Prelude BinaryData BinaryIO Hashing StdMap BlockHeader DBUtils Blockchain.
From S2P Require Import BlockchainSpec BlockchainOrganize.

(** ** Adding headers *)

Section additions.
Context (rank : HashString -> nat).
Implicit Types (bc : Blockchain) (a b : nat) (l : list nat) (k : HashString).

(** A header as [createBlockHeader] leaves it, under an id not in use. *)
Record fresh_header bc k a : Prop := {
  fr_unknown : map_find k (headerMap_ bc) = None;
  fr_ptr : ~ known bc a;
  fr_heap : exists h, heap_ bc !! a = Some h /\ thisHash_ h = k /\ dbl_nonneg (difficultyDbl_ h) /\
    (exists prev, getPrevHash h = Ok prev /\ (rank prev < rank k)%nat) /\
    dltb (difficultySum_ h) dbl_0 = true /\ isOrphan_ h = true /\
    isFinishedCalc_ h = false /\ isMainBranch_ h = false /\
    map_find (uniqueID_ h) (headersById_ bc) = None;
}.

(** The state after a header was added. *)
Definition added bc k a (id : Z) : Blockchain :=
  set_newlyParsed (newlyParsedBlocks_ bc ++ [Some a])
    (set_headersById (map_put id (Some a) (headersById_ bc))
      (set_headerMap (map_put k (Some a) (headerMap_ bc)) bc)).

Lemma addBulk_one_fresh bc k a h : map_find k (headerMap_ bc) = None -> heap_ bc !! a = Some h ->
  addBulk_one (k, Some a) bc = Ok (true, added bc k a (uniqueID_ h)).
Proof.
  intros Hk Hh. unfold addBulk_one. rewrite (chain_bind_ok _ _ _ _ _ (chain_get_ok _ _)), Hk.
  rewrite (chain_bind_ok (mret false) _ bc false bc eq_refl). cbv iota.
  rewrite (chain_bind_ok _ _ _ _ _ (chain_set_ok _ _)).
  rewrite (chain_bind_ok _ _ _ _ _ (deref_ok (set_headerMap _ bc) a h Hh)).
  by rewrite !(chain_bind_ok _ _ _ _ _ (chain_set_ok _ _)).
Qed.

Lemma addBulk_one_present bc k p a h : map_find k (headerMap_ bc) = Some (Some a) ->
  heap_ bc !! a = Some h -> zlen (dataCopy_ h) = HEADER_SIZE ->
  addBulk_one (k, p) bc = Ok (false, bc).
Proof.
  intros Hk Hh Hl. unfold addBulk_one. rewrite (chain_bind_ok _ _ _ _ _ (chain_get_ok _ _)), Hk.
  unfold mbind, chain_bind. rewrite (deref_ok _ _ _ Hh). unfold mret, chain_ret. by rewrite Hl.
Qed.

Section step.
Context (bc : Blockchain) (k : HashString) (a : nat) (h : BlockHeader).
Context (Hwf : wf rank bc) (Hfr : fresh_header bc k a) (Hh : heap_ bc !! a = Some h).
Let bc' := added bc k a (uniqueID_ h).

Lemma added_find j : map_find j (headerMap_ bc') =
  if decide (j = k) then Some (Some a) else map_find j (headerMap_ bc).
Proof using Hwf.
  simpl. case_decide as E; [subst; by apply map_find_put_eq|].
  apply map_find_put_ne; [apply Hwf|done].
Qed.

Lemma added_gen : gen_of bc' = gen_of bc.
Proof using Hwf Hfr.
  unfold gen_of. rewrite added_find. change (genesisHash_ bc') with (genesisHash_ bc).
  case_decide as E; [|done]. destruct (wf_genesis _ _ Hwf) as [p Hp].
  pose proof (fr_unknown _ _ _ Hfr). congruence.
Qed.

Lemma added_prev b c : prev_of bc b = Some c -> prev_of bc' b = Some c.
Proof using Hwf Hfr.
  unfold prev_of. change (heap_ bc') with (heap_ bc).
  destruct (heap_ bc !! b) as [hb|]; [|done]. simpl. destruct (getPrevHash hb) as [j|]; [|done].
  rewrite added_find. case_decide as E; [|done]. subst. by rewrite (fr_unknown _ _ _ Hfr).
Qed.

Lemma added_chain b l : chain bc b l -> chain bc' b l.
Proof using Hwf Hfr.
  unfold chain. intros H. remember true as e. induction H as [b Hg|b Hg Hp|b c l e Hg Hp Ht IH].
  - apply trail_gen. by rewrite added_gen.
  - done.
  - eapply trail_step; [by rewrite added_gen|by apply added_prev|auto].
Qed.

Lemma added_sum l : chain_sum bc' l = chain_sum bc l.
Proof using Hwf Hfr.
  induction l as [|b [|c l] IH]; [done..|].
  change (dadd (chain_sum bc' (c :: l)) (diff_of bc' b) = dadd (chain_sum bc (c :: l)) (diff_of bc b)).
  rewrite IH. unfold diff_of. by rewrite added_gen.
Qed.

Lemma added_known b : known bc' b <-> b = a \/ known bc b.
Proof using Hwf Hfr.
  assert (map_ordered (headerMap_ bc')) as Ho by apply map_put_ordered, Hwf.
  rewrite (known_find rank bc Hwf). unfold known. split.
  - intros (j & Hj)%map_value_find; [|done]. rewrite added_find in Hj.
    case_decide; [left; congruence|right; eauto].
  - intros [->|(j & Hj)].
    + eapply (map_find_value k); [done|]. rewrite added_find. by rewrite decide_True.
    + destruct (decide (j = k)) as [->|Hne].
      * eapply (map_find_value k); [done|]. rewrite added_find, decide_True by done.
        pose proof (fr_unknown _ _ _ Hfr). congruence.
      * eapply (map_find_value j); [done|]. by rewrite added_find, decide_False.
Qed.

Lemma added_solved b hb : solved bc b hb -> solved bc' b hb.
Proof using Hwf Hfr.
  intros (l & Hl & ? & ? & ?). exists l. rewrite added_sum. split; [by apply added_chain|done].
Qed.

Lemma added_ids id : map_find id (headersById_ bc') =
  if decide (id = uniqueID_ h) then Some (Some a) else map_find id (headersById_ bc).
Proof using Hwf.
  simpl. case_decide as E; [subst; by apply map_find_put_eq|].
  apply map_find_put_ne; [apply Hwf|done].
Qed.

(** The fields a fresh header has, for the header at hand. *)
Lemma fresh_fields : thisHash_ h = k /\ dbl_nonneg (difficultyDbl_ h) /\
  (exists prev, getPrevHash h = Ok prev /\ (rank prev < rank k)%nat) /\
  dltb (difficultySum_ h) dbl_0 = true /\ isOrphan_ h = true /\
  isFinishedCalc_ h = false /\ isMainBranch_ h = false /\
  map_find (uniqueID_ h) (headersById_ bc) = None.
Proof using Hfr Hh. destruct (fr_heap _ _ _ Hfr) as (h' & Hh' & H). by simplify_eq. Qed.

Lemma added_wf : zlen (headerMap_ bc) + 1 < 2 ^ 32 -> wf rank bc'.
Proof using Hwf Hfr Hh.
  intros Hsize. destruct fresh_fields as (Ek & Hd & Hprev & _ & _ & _ & _ & Hid).
  split.
  - apply map_put_ordered, Hwf.
  - apply map_put_ordered, Hwf.
  - intros j p. rewrite added_find. case_decide as E.
    + intros [= <-]. exists a, h. subst j. split; [done|]. split; [done|]. split; [done|]. auto.
    + apply (wf_header _ _ Hwf).
  - change (genesisHash_ bc') with (genesisHash_ bc). rewrite added_find.
    case_decide; [eauto|apply Hwf].
  - intros b hb Hb%added_known Hhb. rewrite added_ids. destruct Hb as [->|Hb].
    + change (heap_ bc' !! a) with (heap_ bc !! a) in Hhb. simplify_eq. by rewrite decide_True.
    + pose proof (wf_id _ _ Hwf _ _ Hb Hhb) as E. rewrite decide_False; [done|]. congruence.
  - intros id p. rewrite added_ids. case_decide.
    + intros [= <-]. exists a. split; [done|]. apply added_known. by left.
    + intros (b & -> & Hb)%(wf_byId _ _ Hwf). exists b. split; [done|]. apply added_known. by right.
  - pose proof (map_put_length k (Some a) (headerMap_ bc)). unfold zlen in *. simpl. lia.
Qed.

Lemma added_ready l0 : ready bc l0 -> ready bc' l0.
Proof using Hwf Hfr Hh.
  intros [Hr (t0 & Hc0 & Hmain)].
  destruct fresh_fields as (_ & _ & _ & Hsum & Ho & Hf & Hm & Hid).
  assert (known bc t0) as Hk0.
  { destruct Hmain as [Hg0|(_ & [Hti|[_ Hg0]] & _)].
    1,3: destruct (gen_known _ _ Hwf) as (g' & ? & ?); by simplify_eq.
    destruct (wf_byId _ _ Hwf _ _ Hti) as (? & ? & ?). by simplify_eq. }
  pose proof (trail_known _ _ Hwf _ _ _ Hk0 Hc0) as Hkn. rewrite Forall_forall in Hkn.
  split.
  - intros b hb Hb Hhb Hg. rewrite added_gen in Hg. change (heap_ bc' !! b) with (heap_ bc !! b) in Hhb.
    apply added_known in Hb as [->|Hb].
    + simplify_eq. assert (a ∉ l0) as Hn by (intros Hin; by apply (fr_ptr _ _ _ Hfr), Hkn).
      split; [right; split; [done|by left]|]. rewrite Hf, Hm. by rewrite bool_decide_false.
    + destruct (Hr b hb Hb Hhb Hg) as [[Hs|[H1 H2]] Hfm]; (split; [|done]).
      * left. by apply added_solved.
      * right. split; [done|]. destruct H2 as [H2|[l Hl]]; [by left|right].
        exists l. by apply added_chain.
  - exists t0. split; [by apply added_chain|]. rewrite added_gen.
    destruct Hmain as [Hg0|(Hl & Hti & Hhs)]; [by left|].
    destruct Hti as [Hti|[_ Hg0]]; [right|by left]. split; [done|]. split; [|done].
    left. change (topBlockId_ bc') with (topBlockId_ bc). rewrite added_ids.
    rewrite decide_False; [done|]. congruence.
Qed.
End step.

(** An entry of the map that is given to [addBlocksInBulk]: a fresh header, or
    one whose hash is known already. *)
Definition entry_ok bc (e : HashString * Ptr) : Prop :=
  (exists a, e.2 = Some a /\ fresh_header bc e.1 a) \/
  (exists a h, map_find e.1 (headerMap_ bc) = Some (Some a) /\ heap_ bc !! a = Some h /\
     zlen (dataCopy_ h) = HEADER_SIZE).

(** No two entries share a header or an id. *)
Definition entries_differ bc (e e' : HashString * Ptr) : Prop :=
  e.1 ≠ e'.1 /\ e.2 ≠ e'.2 /\
  forall a b h h', e.2 = Some a -> e'.2 = Some b -> heap_ bc !! a = Some h ->
    heap_ bc !! b = Some h' -> uniqueID_ h ≠ uniqueID_ h'.

Fixpoint batch_ok bc (m : list (HashString * Ptr)) : Prop :=
  match m with
  | [] => True
  | e :: m => entry_ok bc e /\ Forall (entries_differ bc e) m /\ batch_ok bc m
  end.

Lemma entry_ok_added bc k a h e : wf rank bc -> fresh_header bc k a -> heap_ bc !! a = Some h ->
  entries_differ bc (k, Some a) e -> entry_ok bc e -> entry_ok (added bc k a (uniqueID_ h)) e.
Proof.
  intros Hwf Hfr Hh (Hk & Hp & Hid) He.
  destruct He as [(b & Eb & Hf)|(b & hb & Hfind & Hhb & Hlen)].
  - left. exists b. split; [done|]. simpl in Hk, Hp.
    destruct (fr_heap _ _ _ Hf) as (hb & Hhb & H1 & H2 & H3 & H4 & H5 & H6 & H7 & H8).
    split.
    + rewrite added_find by done. rewrite decide_False by done. apply Hf.
    + rewrite added_known by done. intros [->|?]; [by apply Hp|by apply (fr_ptr _ _ _ Hf)].
    + exists hb. repeat (split; [done|]). rewrite added_ids by done.
      rewrite decide_False; [done|]. intros E. by eapply (Hid a b h hb).
  - right. exists b, hb. rewrite added_find by done. rewrite decide_False by done. done.
Qed.

Lemma batch_ok_added bc k a h m : wf rank bc -> fresh_header bc k a -> heap_ bc !! a = Some h ->
  Forall (entries_differ bc (k, Some a)) m -> batch_ok bc m -> batch_ok (added bc k a (uniqueID_ h)) m.
Proof.
  intros Hwf Hfr Hh. induction m as [|e m IH]; [done|]. intros Hd (He & Hd' & Hm).
  inversion Hd; subst. split; [by apply entry_ok_added|]. split; [exact Hd'|by apply IH].
Qed.

(** The entries of a batch whose hash is not in the map. *)
Definition new_entries bc (m : list (HashString * Ptr)) : list (HashString * Ptr) :=
  filter (fun e => map_find e.1 (headerMap_ bc) = None) m.

(** The ids of the headers a batch adds. *)
Definition new_id bc (m : list (HashString * Ptr)) (id : Z) : Prop :=
  exists k a h, (k, Some a) ∈ new_entries bc m /\ heap_ bc !! a = Some h /\ id = uniqueID_ h.

(** The states before and after a batch. *)
Record bulk_rel bc bc' (m : list (HashString * Ptr)) : Prop := {
  br_heap : heap_ bc' = heap_ bc;
  br_new : newlyParsedBlocks_ bc' = newlyParsedBlocks_ bc ++ map snd (new_entries bc m);
  br_find j p : map_find j (headerMap_ bc') = Some p <->
    map_find j (headerMap_ bc) = Some p \/ (map_find j (headerMap_ bc) = None /\ (j, p) ∈ m);
  br_ids id : is_Some (map_find id (headersById_ bc')) ->
    is_Some (map_find id (headersById_ bc)) \/ new_id bc m id;
  br_topID : topID_ bc' = topID_ bc;
}.

Lemma new_entries_added bc k a h m : wf rank bc ->
  Forall (entries_differ bc (k, Some a)) m ->
  new_entries (added bc k a (uniqueID_ h)) m = new_entries bc m.
Proof.
  intros Hwf Hd. unfold new_entries. induction Hd as [|e m (Hk & _) _ IH]; [done|].
  rewrite !filter_cons, IH. simpl in Hk. rewrite added_find by done.
  by rewrite (decide_False (P := e.1 = k)).
Qed.

Lemma new_id_added bc k a h m id : wf rank bc -> fresh_header bc k a -> heap_ bc !! a = Some h ->
  Forall (entries_differ bc (k, Some a)) m ->
  new_id bc ((k, Some a) :: m) id <-> id = uniqueID_ h \/ new_id (added bc k a (uniqueID_ h)) m id.
Proof.
  intros Hwf Hfr Hh Hd. unfold new_id. rewrite (new_entries_added bc k a h m Hwf Hd).
  unfold new_entries. rewrite filter_cons_True by apply (fr_unknown _ _ _ Hfr). split.
  - intros (j & b & hb & [[= -> ->]|Hin]%elem_of_cons & Hb & ->).
    + left. change (heap_ bc !! a = Some hb) in Hb. congruence.
    + right. by exists j, b, hb.
  - intros [->|(j & b & hb & Hin & Hb & ->)].
    + exists k, a, h. split; [by left|done].
    + exists j, b, hb. split; [by right|done].
Qed.

Lemma new_id_present bc k p q m id : map_find k (headerMap_ bc) = Some q ->
  new_id bc ((k, p) :: m) id <-> new_id bc m id.
Proof.
  intros Hk. unfold new_id, new_entries. rewrite filter_cons_False; [done|]. simpl. congruence.
Qed.

Lemma bulk_rel_added bc bc' k a h m : wf rank bc -> fresh_header bc k a -> heap_ bc !! a = Some h ->
  Forall (entries_differ bc (k, Some a)) m -> bulk_rel (added bc k a (uniqueID_ h)) bc' m ->
  bulk_rel bc bc' ((k, Some a) :: m).
Proof.
  intros Hwf Hfr Hh Hd [H1 H2 H3 H4 H5]. split; [| | | |exact H5].
  - by rewrite H1.
  - rewrite H2, (new_entries_added bc k a h m Hwf Hd). unfold new_entries.
    rewrite filter_cons_True by apply (fr_unknown _ _ _ Hfr). simpl. by rewrite <- app_assoc.
  - intros j p. rewrite H3, added_find, elem_of_cons by done. case_decide as E.
    + subst j. rewrite (fr_unknown _ _ _ Hfr). split.
      * intros [[= <-]|[? _]]; [|done]. right. by split; [|left].
      * intros [?|[_ [[= ->]|Hin]]]; [done|by left|].
        rewrite Forall_forall in Hd. by destruct (Hd _ Hin).
    + split; [intros [?|[? ?]]; auto|]. intros [?|[? [?|?]]]; auto. congruence.
  - intros id Hid. rewrite (new_id_added bc k a h m id) by done.
    destruct (H4 id Hid) as [Hid'|?]; [|by right; right]. rewrite added_ids in Hid' by done.
    case_decide; [by right; left|by left].
Qed.

Lemma bulk_rel_present bc bc' k p q m : map_find k (headerMap_ bc) = Some q ->
  bulk_rel bc bc' m -> bulk_rel bc bc' ((k, p) :: m).
Proof.
  intros Hk [H1 H2 H3 H4 H5]. split; [done| | | |exact H5].
  - rewrite H2. unfold new_entries. rewrite filter_cons_False; [done|]. simpl. congruence.
  - intros j p'. rewrite H3, elem_of_cons. split; [naive_solver|].
    intros [?|[? [?|?]]]; auto. congruence.
  - intros id Hid. rewrite (new_id_present bc k p q m id Hk). by apply H4.
Qed.

(** What a run of the loop adds to the set of ids. *)
Definition ids_rel bc m (s s' : stdmap Z ()) : Prop :=
  map_ordered s -> map_ordered s' /\
  forall id, is_Some (map_find id s') <-> is_Some (map_find id s) \/ new_id bc m id.

Lemma ids_rel_added bc k a h m s s' : wf rank bc -> fresh_header bc k a -> heap_ bc !! a = Some h ->
  Forall (entries_differ bc (k, Some a)) m ->
  ids_rel (added bc k a (uniqueID_ h)) m (set_insert (uniqueID_ h) s) s' ->
  ids_rel bc ((k, Some a) :: m) s s'.
Proof.
  intros Hwf Hfr Hh Hd Hs Ho. destruct Hs as [Ho' Hs]; [by apply map_put_ordered|].
  split; [done|]. intros id. rewrite Hs, (new_id_added bc k a h m id) by done.
  unfold set_insert. rewrite map_find_put by done. case_decide as E; [|tauto].
  split; [auto|]. intros _. left. by eexists.
Qed.

Lemma addBulk_loop_spec l0 m : forall bc s, wf rank bc -> ready bc l0 -> batch_ok bc m ->
  zlen (headerMap_ bc) + zlen m < 2 ^ 32 ->
  exists s' bc', addBulk_loop m s bc = Ok (s', bc') /\ wf rank bc' /\ ready bc' l0 /\
    bulk_rel bc bc' m /\ ids_rel bc m s s'.
Proof.
  induction m as [|[k p] m IH]; intros bc s Hwf Hr Hb Hsize.
  { exists s, bc. split; [done|]. split; [done|]. split; [done|]. split.
    - split; [done|simpl; by rewrite app_nil_r| |by left|done]. intros j q. rewrite elem_of_nil. tauto.
    - intros Ho. split; [done|]. intros id. split; [auto|]. intros [?|(? & ? & ? & Hin & _)]; [done|].
      by apply elem_of_nil in Hin. }
  destruct Hb as (He & Hd & Hb). rewrite zlen_cons in Hsize. cbn [addBulk_loop].
  destruct He as [(a & Ea & Hfr)|(a & h & Hfind & Hh & Hlen)]; cbn [fst snd] in *.
  - subst p. destruct (fr_heap _ _ _ Hfr) as (h & Hh & _).
    rewrite (chain_bind_ok _ _ _ _ _ (addBulk_one_fresh _ _ _ _ (fr_unknown _ _ _ Hfr) Hh)). cbv iota.
    rewrite (chain_bind_ok _ _ _ _ _ (deref_ok (added bc k a (uniqueID_ h)) a h Hh)).
    destruct (IH (added bc k a (uniqueID_ h)) (set_insert (uniqueID_ h) s))
      as (s' & bc' & Hrun & Hw & Hrd & Hrel & Hids).
    + apply added_wf; try done. pose proof (zlen_nonneg m). lia.
    + by apply added_ready.
    + by apply batch_ok_added.
    + pose proof (map_put_length k (Some a) (headerMap_ bc)). unfold zlen in *. simpl. lia.
    + exists s', bc'. split; [done|]. split; [done|]. split; [done|].
      split; [by eapply bulk_rel_added|by eapply ids_rel_added].
  - rewrite (chain_bind_ok _ _ _ _ _ (addBulk_one_present bc k p a h Hfind Hh Hlen)). cbv iota.
    destruct (IH bc s Hwf Hr Hb) as (s' & bc' & Hrun & Hw & Hrd & Hrel & Hids); [lia|].
    exists s', bc'. split; [done|]. split; [done|]. split; [done|].
    split; [by eapply bulk_rel_present|]. intros Ho. destruct (Hids Ho) as [Ho' Hi].
    split; [done|]. intros id. by rewrite Hi, (new_id_present bc k p (Some a) m id Hfind).
Qed.
End additions.

(** ** [organize] in full *)

Section runs.
Context (rank : HashString -> nat).
Implicit Types (bc : Blockchain) (a b t : nat) (l : list nat) (k : HashString).

Lemma organized_ready bc t l : organized_on bc t l -> ready bc l.
Proof.
  intros Ho. split.
  - intros a h Ha Hh _. split; [|by apply (org_marks _ _ _ Ho)].
    destruct (org_settled _ _ _ Ho a Ha) as (h' & Hh' & H). simplify_eq. tauto.
  - exists t. split; [apply Ho|right]. split; [apply Ho|]. split; [apply Ho|].
    intros i a Hi. by rewrite (org_heights _ _ _ Ho), list_lookup_fmap, Hi.
Qed.

(** The branch point [organizeChain] returns, for the old main chain [l0] with
    top [p0] and the new one [l]. *)
Definition branch_point l0 l (p0 : nat) (r : Ptr) : Prop :=
  match r with
  | None => p0 ∈ l
  | Some b => p0 ∉ l /\ exists l1 lb, l = l1 ++ b :: lb /\ b ∈ l0 /\ Forall (fun x => x ∉ l0) l1
  end.

Lemma organizeChain_run n bc l0 : wf rank bc -> ready bc l0 -> exists r bc' t l p0,
  organizeChain (S (S n)) false bc = Ok (r, bc') /\ organized_on bc' t l /\ same_chain bc bc' /\
  top_is bc p0 /\ branch_point l0 l p0 r.
Proof.
  intros Hwf Hr.
  destruct (organize_pass_spec rank bc l0 Hwf Hr) as (p0 & t & l & l1 & b & lb & bc2 & Hp & Hpa).
  pose proof (pa_same _ _ _ _ _ _ _ _ _ Hpa) as Hs2. pose proof (same_wf Hs2 rank Hwf) as Hwf2.
  rewrite (organizeChain_unfold (S n) false bc bc _ _ _ eq_refl Hp).
  destruct (decide (p0 ∈ l)) as [Hin|Hout].
  { rewrite bool_decide_true by done. exists None, bc2, t, l, p0.
    split; [done|]. split; [by apply Hpa|]. split; [done|]. split; [apply Hpa|done]. }
  rewrite bool_decide_false by done. simpl negb. cbv iota.
  destruct (values_known rank bc Hwf) as (hs & Hvs & _).
  assert (first_max bc hs t) as Hfm.
  { destruct (pa_first _ _ _ _ _ _ _ _ _ Hpa hs Hvs) as [?|E]; [done|].
    destruct (trail_head _ _ _ _ (pa_chain _ _ _ _ _ _ _ _ _ Hpa)) as [l' El].
    destruct Hout. rewrite El, E. by left. }
  destruct (forced_stable rank n bc2 t hs) as (bc3 & l3 & Hrun & Hs3 & Horg).
  - done.
  - apply settled_orphans. intros a Ha%(same_known Hs2). by apply Hpa.
  - apply Hpa.
  - by rewrite (sc_map _ _ Hs2).
  - by apply (first_max_same bc bc2).
  - assert (same_chain bc bc3) as Hs by by etrans.
    exists (Some b), bc3, t, l3, p0. rewrite (chain_bind_ok _ _ _ _ _ Hrun).
    split; [done|]. split; [done|]. split; [done|]. split; [apply Hpa|].
    pose proof (same_trail_inv Hs _ _ _ (org_chain _ _ _ Horg)) as Hc3.
    destruct (trail_det _ _ _ _ _ _ Hc3 (pa_chain _ _ _ _ _ _ _ _ _ Hpa)) as [-> _].
    split; [done|]. exists l1, lb. apply Hpa.
Qed.

Lemma organize_unfold force bc r bc' :
  organizeChain recursion_depth force bc = Ok (r, bc') ->
  organize_ force bc = Ok (mkReorg (bool_decide (r = None))
    (negb (bool_decide (topBlockPtr_ bc = topBlockPtr_ bc'))) (topBlockPtr_ bc) (topBlockPtr_ bc') r, bc').
Proof.
  intros H. unfold organize_, top. rewrite (chain_bind_ok _ _ _ _ _ (chain_get_ok _ _)).
  by rewrite (chain_bind_ok _ _ _ _ _ H).
Qed.

(** The walk of [findReorgPointFromBlock]. *)
Lemma find_main_spec bc t l l1 : wf rank bc -> organized_on bc t l ->
  forall a b lb fuel, known bc a -> chain bc a (l1 ++ b :: lb) -> Forall (fun x => x ∉ l) l1 -> b ∈ l ->
  (length l1 <= fuel)%nat -> find_main fuel (Some a) bc = Ok (Some b, bc).
Proof.
  intros Hwf Ho. induction l1 as [|x l1 IH]; intros a b lb fuel Ha Hc Hd Hb Hf;
    destruct (trail_head _ _ _ _ Hc) as [l' E]; injection E as <- _;
    destruct (known_header _ _ Hwf _ Ha) as (h & Hh & _).
  - destruct fuel; cbn [find_main]; rewrite (chain_bind_ok _ _ _ _ _ (deref_ok _ _ _ Hh));
      rewrite (proj2 (org_marks _ _ _ Ho _ _ Ha Hh)), bool_decide_true by done; done.
  - inversion Hd as [|? ? Hx Hd']; subst. destruct fuel as [|fuel]; [simpl in Hf; lia|].
    cbn [find_main]. rewrite (chain_bind_ok _ _ _ _ _ (deref_ok _ _ _ Hh)).
    rewrite (proj2 (org_marks _ _ _ Ho _ _ Ha Hh)), bool_decide_false by done.
    assert (gen_of bc ≠ Some x) as Hg.
    { intros Hg. apply Hx. by eapply chain_has_gen; [apply Ho|]. }
    destruct (prev_lookup rank bc x h Hwf Ha Hh Hg) as (k & Hk & Hfind).
    rewrite (chain_bind_ok _ _ _ _ _ (chain_of_ok _ _ _ Hk)).
    unfold chain in Hc. simpl in Hc. inversion Hc as [|? ? ?|? c ? ? _ Hp Ht]; subst; [congruence|].
    unfold getHeaderByHash. rewrite Hp in Hfind.
    assert ((m ← chain_get headerMap_;
      match map_find k m with Some p => mret p | None => chain_throw RangeError end) bc =
      Ok (Some c, bc)) as Hget.
    { rewrite (chain_bind_ok _ _ _ _ _ (chain_get_ok _ _)), Hfind. done. }
    rewrite (chain_bind_ok _ _ _ _ _ Hget).
    apply (IH c b lb); try done; [by eapply prev_of_known|simpl in Hf; lia].
Qed.

(** An unconnected block: the walk ends at a parent that is not in the map. *)
Lemma find_main_orphan bc t l : wf rank bc -> organized_on bc t l ->
  forall la a fuel, known bc a -> trail bc a la false -> (length la <= fuel)%nat ->
  find_main fuel (Some a) bc = Err RangeError.
Proof.
  intros Hwf Ho la. induction la as [|x la IH]; intros a fuel Ha Hc Hf;
    destruct (trail_head _ _ _ _ Hc) as [l' E]; [done|]; injection E as <- _.
  destruct (known_header _ _ Hwf _ Ha) as (h & Hh & _).
  destruct fuel as [|fuel]; [simpl in Hf; lia|].
  assert (x ∉ l) as Hx.
  { intros Hin. apply list_elem_of_split in Hin as (l1 & l2 & El).
    apply (trail_false_not_connected _ _ _ Hc). exists (x :: l2).
    eapply trail_suffix; [apply (org_chain _ _ _ Ho)|exact El]. }
  cbn [find_main]. rewrite (chain_bind_ok _ _ _ _ _ (deref_ok _ _ _ Hh)).
  rewrite (proj2 (org_marks _ _ _ Ho _ _ Ha Hh)), bool_decide_false by done.
  assert (gen_of bc ≠ Some x) as Hg by (intros Hg; inversion Hc; congruence).
  destruct (prev_lookup rank bc x h Hwf Ha Hh Hg) as (k & Hk & Hfind).
  rewrite (chain_bind_ok _ _ _ _ _ (chain_of_ok _ _ _ Hk)).
  unfold getHeaderByHash, mbind, chain_bind, chain_get. rewrite Hfind.
  inversion Hc as [|? ? Hp|? c ? ? _ Hp Ht]; subst; rewrite Hp; cbn [fmap option_fmap option_map]; [done|].
  apply IH; [by eapply prev_of_known|done|simpl in Hf; lia].
Qed.
End runs.
