(* ===== verification/BlockchainExamples.v ===== *)
(** * BlockchainExamples: concrete blockchains

    Boolean checks that a concrete blockchain is well-formed and ready to be
    organised, with their soundness, and the blockchains the theorems of
    BlockchainCorrect are applied to. *)

From S2P Require Import Prelude BinaryData BinaryIO Hashing StdMap BlockHeader DBUtils Blockchain.
From S2P Require Import BlockchainSpec BlockchainOrganize BlockchainProps.

(** ** Deciding well-formedness of a concrete blockchain *)

Section checker.
Context (rank : HashString -> nat).

Fixpoint ordered_b {K V} `{StdLess K} (m : stdmap K V) : bool :=
  match m with
  | [] => true
  | (k, _) :: m => forallb (fun e => std_less k e.1) m && ordered_b m
  end.

Lemma ordered_b_sound {K V} `{StdLess K} (m : stdmap K V) : ordered_b m = true -> map_ordered m.
Proof.
  induction m as [|[k v] m IH]; simpl; [done|]. intros [H1 H2]%andb_true_iff.
  split; [|auto]. rewrite forallb_forall in H1. apply Forall_forall.
  intros e He. apply H1. by apply list_elem_of_In.
Qed.

Definition dbl_nonneg_b (d : double) : bool :=
  match d with
  | SpecFloat.S754_zero false | SpecFloat.S754_infinity false => true
  | SpecFloat.S754_finite false _ e => -1074 <=? e
  | _ => false
  end.

Lemma dbl_nonneg_b_sound d : dbl_nonneg_b d = true -> dbl_nonneg d.
Proof.
  destruct d as [[]|[]| |[] m e]; try done; intros H; [by left|by right|right].
  simpl in H. by apply Z.leb_le.
Qed.

Definition entry_b (bc : Blockchain) (e : HashString * Ptr) : bool :=
  match e.2 ≫= (fun a => heap_ bc !! a) with
  | Some h =>
      bool_decide (thisHash_ h = e.1) &&
      bool_decide (map_find (uniqueID_ h) (headersById_ bc) = Some e.2) &&
      (bool_decide (e.1 = genesisHash_ bc) ||
       (dbl_nonneg_b (difficultyDbl_ h) &&
        match getPrevHash h with Ok prev => bool_decide (rank prev < rank e.1)%nat | Err _ => false end))
  | None => false
  end.

Definition wf_b (bc : Blockchain) : bool :=
  ordered_b (headerMap_ bc) && ordered_b (headersById_ bc) && forallb (entry_b bc) (headerMap_ bc) &&
  bool_decide (is_Some (map_find (genesisHash_ bc) (headerMap_ bc))) &&
  forallb (fun e => bool_decide (e.2 ∈ map_values (headerMap_ bc))) (headersById_ bc) &&
  (zlen (headerMap_ bc) <? 2 ^ 32).

Lemma wf_b_sound bc : wf_b bc = true -> wf rank bc.
Proof.
  unfold wf_b. intros (((((Ho & Hio)%andb_true_iff & He)%andb_true_iff & Hg)%andb_true_iff
    & Hb)%andb_true_iff & Hs)%andb_true_iff.
  apply ordered_b_sound in Ho, Hio. rewrite forallb_forall in He, Hb.
  assert (forall k p, map_find k (headerMap_ bc) = Some p -> exists a h, p = Some a /\
    heap_ bc !! a = Some h /\ thisHash_ h = k /\
    map_find (uniqueID_ h) (headersById_ bc) = Some (Some a) /\
    (k ≠ genesisHash_ bc -> dbl_nonneg (difficultyDbl_ h) /\
       exists prev, getPrevHash h = Ok prev /\ (rank prev < rank k)%nat)) as Hent.
  { intros k p Hk. apply map_find_In in Hk; [|done]. apply list_elem_of_In, He in Hk.
    unfold entry_b in Hk. cbn [fst snd] in Hk. destruct p as [a|]; [|done]. simpl in Hk.
    destruct (heap_ bc !! a) as [h|] eqn:Hh; [|done]. exists a, h.
    apply andb_true_iff in Hk as [[H1 H2]%andb_true_iff H3].
    apply bool_decide_eq_true in H1, H2. repeat (split; [done|]). intros Hne.
    apply orb_true_iff in H3 as [H3%bool_decide_eq_true|[H3 H4]%andb_true_iff]; [done|].
    split; [by apply dbl_nonneg_b_sound|]. destruct (getPrevHash h) as [prev|]; [|done].
    exists prev. split; [done|]. by apply bool_decide_eq_true in H4. }
  split; try done.
  - intros k p Hk. destruct (Hent _ _ Hk) as (a & h & ? & ? & ? & _ & ?). by exists a, h.
  - by apply bool_decide_eq_true in Hg.
  - intros a h (k & Hk)%map_value_find Hh; [|done].
    destruct (Hent _ _ Hk) as (a' & h' & ? & ? & ? & ? & _). by simplify_eq.
  - intros id p Hp. apply map_find_In in Hp; [|done]. apply list_elem_of_In, Hb in Hp.
    apply bool_decide_eq_true in Hp. cbn [snd] in Hp.
    destruct (map_value_find _ _ Ho Hp) as (k & Hk).
    destruct (Hent _ _ Hk) as (a & h & -> & _). by exists a.
  - by apply Z.ltb_lt.
Qed.

(** Every header but the genesis block is as [createBlockHeader] leaves it. *)
Definition new_b (bc : Blockchain) : bool :=
  forallb (fun e : HashString * Ptr => bool_decide (e.2 = gen_of bc ≫= (fun g => Some g)) ||
    match e.2 ≫= (fun a => heap_ bc !! a) with
    | Some h => dltb (difficultySum_ h) dbl_0 && isOrphan_ h &&
        negb (isFinishedCalc_ h) && negb (isMainBranch_ h)
    | None => false
    end) (headerMap_ bc).

Lemma new_b_ready bc g : wf rank bc -> new_b bc = true -> gen_of bc = Some g -> ready bc [g].
Proof.
  intros Hwf Hn Hg. unfold new_b in Hn. rewrite forallb_forall in Hn. split.
  - intros a h Ha Hh Hne. apply (known_find rank bc Hwf) in Ha as (k & Hk).
    apply map_find_In in Hk; [|apply Hwf]. apply list_elem_of_In, Hn in Hk. cbn [snd] in Hk.
    apply orb_true_iff in Hk as [Hk%bool_decide_eq_true|Hk].
    { rewrite Hg in Hk. simpl in Hk. congruence. }
    simpl in Hk. rewrite Hh in Hk. apply andb_true_iff in Hk as [[[H1 H2]%andb_true_iff H3]%andb_true_iff H4].
    apply negb_true_iff in H3, H4. split; [right; split; [done|by left]|].
    rewrite H3, H4, bool_decide_false; [done|]. intros ->%list_elem_of_singleton. done.
  - exists g. split; [by apply trail_gen|by left].
Qed.

(** The chain of a header, by walking down. *)
Fixpoint walk_b (fuel : nat) (bc : Blockchain) (a : nat) : option (list nat) :=
  if decide (gen_of bc = Some a) then Some [a]
  else match fuel, prev_of bc a with
       | S fuel, Some b => cons a <$> walk_b fuel bc b
       | _, _ => None
       end.

Lemma walk_b_sound n bc : forall a l, walk_b n bc a = Some l -> chain bc a l.
Proof.
  induction n as [|n IH]; intros a l; simpl; (case_decide as Hg; [intros [= <-]; by apply trail_gen|]);
    [done|]. destruct (prev_of bc a) as [b|] eqn:Hp; [|done]. simpl.
  intros (l' & E & ->)%fmap_Some. eapply trail_step; [done..|]. by apply IH.
Qed.

#[export] Instance double_eq_dec : EqDecision double.
Proof. solve_decision. Defined.

Definition ready_header_b (bc : Blockchain) (l0 : list nat) (a : nat) (h : BlockHeader) : bool :=
  (match walk_b (length (headerMap_ bc)) bc a with
   | Some l => (bool_decide (difficultySum_ h = chain_sum bc l) &&
       (blockHeight_ h =? zlen l - 1) && negb (isOrphan_ h)) || dltb (difficultySum_ h) dbl_0
   | None => dltb (difficultySum_ h) dbl_0 && isOrphan_ h
   end) &&
  bool_decide (isFinishedCalc_ h = bool_decide (a ∈ l0)) &&
  bool_decide (isMainBranch_ h = bool_decide (a ∈ l0)).

Lemma ready_header_b_sound bc l0 a h : ready_header_b bc l0 a h = true -> ready_header bc l0 a h.
Proof.
  unfold ready_header_b. intros [[H Hf%bool_decide_eq_true]%andb_true_iff Hm%bool_decide_eq_true]%andb_true_iff.
  split; [|done]. destruct (walk_b _ bc a) as [l|] eqn:E.
  - apply walk_b_sound in E. apply orb_true_iff in H as [H|H]; [left|right; split; [done|right; by exists l]].
    apply andb_true_iff in H as [[H1%bool_decide_eq_true H2%Z.eqb_eq]%andb_true_iff H3%negb_true_iff].
    by exists l.
  - apply andb_true_iff in H as [H1 H2]. right. split; [done|by left].
Qed.

Fixpoint links_b (bc : Blockchain) (l : list nat) : bool :=
  match l with
  | c :: (a :: _) as l' =>
      match heap_ bc !! c, heap_ bc !! a with
      | Some hc, Some h => bool_decide (nextHash_ h = thisHash_ hc)
      | _, _ => true
      end && links_b bc l'
  | _ => true
  end.

Lemma links_b_sound bc l : links_b bc l = true -> links_ok bc l.
Proof.
  induction l as [|x [|y l] IH]; simpl; intros H i c a hc h Hc Ha Hhc Hh; [done|by destruct i|].
  apply andb_true_iff in H as [H1 H2]. destruct i as [|i].
  - simpl in Hc, Ha. simplify_eq. rewrite Hhc, Hh in H1. by apply bool_decide_eq_true in H1.
  - by apply (IH H2 i c a hc h).
Qed.

Definition top_b (bc : Blockchain) (t : nat) : bool :=
  match map_find (topBlockId_ bc) (headersById_ bc) with
  | Some p => bool_decide (p = Some t)
  | None => bool_decide (gen_of bc = Some t)
  end.

(** [l0] is the main chain, and [headersByHeight_] holds it. *)
Definition ready_b (bc : Blockchain) (l0 : list nat) : bool :=
  forallb (fun p : Ptr => match p with
    | Some a =>
        bool_decide (gen_of bc = Some a) ||
        match heap_ bc !! a with Some h => ready_header_b bc l0 a h | None => false end
    | None => false
    end) (map_values (headerMap_ bc)) &&
  match l0 with
  | t :: _ => bool_decide (walk_b (length (headerMap_ bc)) bc t = Some l0) && links_b bc l0 &&
      top_b bc t && bool_decide (headersByHeight_ bc = Some <$> rev l0)
  | [] => false
  end.

Lemma ready_b_sound bc l0 : ready_b bc l0 = true -> ready bc l0.
Proof.
  unfold ready_b. intros [H Hm]%andb_true_iff. rewrite forallb_forall in H. split.
  - intros a h Ha%list_elem_of_In%H Hh Hg. apply orb_true_iff in Ha as [?%bool_decide_eq_true|Ha]; [done|].
    rewrite Hh in Ha. by apply ready_header_b_sound.
  - destruct l0 as [|t l0]; [done|].
    apply andb_true_iff in Hm as [[[Hw%bool_decide_eq_true Hl]%andb_true_iff Ht]%andb_true_iff
      Hh%bool_decide_eq_true].
    exists t. split; [by eapply walk_b_sound|right]. split; [by apply links_b_sound|]. split.
    + unfold top_b in Ht. unfold top_is. destruct (map_find _ (headersById_ bc)) as [p|];
        apply bool_decide_eq_true in Ht; [left; by subst|by right].
    + intros i a Hi. by rewrite Hh, list_lookup_fmap, Hi.
Qed.

Definition gen_solved_b (bc : Blockchain) : bool :=
  match gen_of bc ≫= (fun g => heap_ bc !! g) with
  | Some h => bool_decide (difficultySum_ h = dbl_1) && (blockHeight_ h =? 0) && negb (isOrphan_ h)
  | None => false
  end.

Lemma gen_solved_b_sound bc : gen_solved_b bc = true -> gen_solved bc.
Proof.
  unfold gen_solved_b. intros H g h Hg Hh. rewrite Hg in H. simpl in H. rewrite Hh in H.
  apply andb_true_iff in H as [[H1%bool_decide_eq_true H2%Z.eqb_eq]%andb_true_iff H3%negb_true_iff].
  exists [g]. split; [by apply trail_gen|done].
Qed.

Lemma ready_sums bc l0 : ready bc l0 -> gen_solved bc -> sums_ok bc.
Proof.
  intros Hr Hg a h Ha Hh. destruct (decide (gen_of bc = Some a)) as [E|E].
  - left. by apply (Hg a h E).
  - by apply (rdy_header _ _ Hr).
Qed.
End checker.

(** A blockchain built by hand: the genesis block 1, two blocks 2 and 3 on it,
    and a block 9 whose parent 8 is not known.  Hash [n] starts with byte [n]. *)
Definition w_hash (n : Z) : HashString := z2b n :: replicate 31 (z2b 7).
Definition w_rank (k : HashString) : nat := match k with b :: _ => Z.to_nat (b2z b) | [] => 0 end.

Definition w_header (n prev id : Z) : BlockHeader :=
  match createBlockHeader (replicate 4 (z2b 0) ++ w_hash prev ++ replicate 36 (z2b 1) ++
      map z2b [255; 255; 0; 29] ++ replicate 4 (z2b 3)) 100 1 0 0 (w_hash n) id with
  | Ok h => h
  | Err _ => BlockHeader_default
  end.

Definition w_state {A} (m : Chain A) : Blockchain :=
  match m (Blockchain_new (w_hash 1)) with Ok (_, bc) => bc | Err _ => Blockchain_new [] end.

Definition w_setup : Chain () :=
  _ ← clear;
  g ← make_shared (w_header 1 0 0);
  _ ← addNewBlock (w_hash 1) g;
  a ← make_shared (w_header 2 1 1);
  b ← make_shared (w_header 3 1 2);
  o ← make_shared (w_header 9 8 3);
  _ ← addBlocksInBulk [(w_hash 2, a); (w_hash 3, b); (w_hash 9, o)];
  mret tt.

(** The same after [organize], with block 4 on block 3: a reorganisation. *)
Definition w_fork : Chain () :=
  _ ← w_setup;
  _ ← organize;
  c ← make_shared (w_header 4 3 4);
  _ ← addBlocksInBulk [(w_hash 4, c)];
  mret tt.

Lemma w_setup_wf : wf w_rank (w_state w_setup).
Proof. apply wf_b_sound. vm_compute. reflexivity. Qed.

Lemma w_setup_ready : ready (w_state w_setup) [1%nat].
Proof. apply (new_b_ready w_rank); [apply w_setup_wf|vm_compute; reflexivity..]. Qed.

Lemma w_fork_wf : wf w_rank (w_state w_fork).
Proof. apply wf_b_sound. vm_compute. reflexivity. Qed.

Lemma w_fork_ready : ready (w_state w_fork) [2%nat; 1%nat].
Proof. apply ready_b_sound. vm_compute. reflexivity. Qed.

Lemma w_fork_gen : gen_solved (w_state w_fork).
Proof. apply gen_solved_b_sound. vm_compute. reflexivity. Qed.

Lemma w_fork_sums : sums_ok (w_state w_fork).
Proof. apply (ready_sums _ [2%nat; 1%nat]); [apply w_fork_ready|apply w_fork_gen]. Qed.

(** [w_setup] organised: the main chain is 1, 2. *)
Definition w_done : Chain () := _ ← w_setup; _ ← organize; mret tt.

Lemma w_setup_run : w_setup (Blockchain_new (w_hash 1)) = Ok (tt, w_state w_setup).
Proof. vm_compute. reflexivity. Qed.

Lemma w_done_wf : wf w_rank (w_state w_done).
Proof. apply wf_b_sound. vm_compute. reflexivity. Qed.

Lemma w_done_organized : organized_on (w_state w_done) 2 [2%nat; 1%nat].
Proof.
  destruct (organizeChain_run w_rank 0 _ _ w_setup_wf w_setup_ready) as (r & bc' & t & l & p0 & Hrun & Ho & _).
  assert (w_state w_done = bc') as E.
  { unfold w_state, w_done. rewrite (chain_bind_ok _ _ _ _ _ w_setup_run).
    unfold organize. by rewrite (chain_bind_ok _ _ _ _ _ (organize_unfold false _ _ _ Hrun)). }
  rewrite <- E in Ho. clear -Ho.
  assert (t = 2%nat) as ->.
  { pose proof (org_top _ _ _ Ho) as H. assert (topBlockPtr_ (w_state w_done) = Some 2%nat)
      by (vm_compute; reflexivity). congruence. }
  assert (l = [2%nat; 1%nat]) as ->; [|done].
  pose proof (org_heights _ _ _ Ho) as H.
  assert (headersByHeight_ (w_state w_done) = Some <$> [1%nat; 2%nat]) as E by (vm_compute; reflexivity).
  rewrite E in H. apply (list_fmap_eq_inj Some) in H; [|apply _].
  by rewrite <- (rev_involutive l), <- H.
Qed.

(** A header for a batch, not yet in the tables. *)
Definition w_batch : Chain () := _ ← w_done; _ ← make_shared (w_header 4 3 4); mret tt.

Lemma w_batch_wf : wf w_rank (w_state w_batch).
Proof. apply wf_b_sound. vm_compute. reflexivity. Qed.

Lemma w_batch_ready : ready (w_state w_batch) [2%nat; 1%nat].
Proof. apply ready_b_sound. vm_compute. reflexivity. Qed.

Lemma w_batch_fresh : fresh_header w_rank (w_state w_batch) (w_hash 4) 5.
Proof.
  split.
  - vm_compute. reflexivity.
  - unfold known. intros H. apply (bool_decide_eq_true_2 _) in H. vm_compute in H. discriminate H.
  - exists (w_header 4 3 4). split; [vm_compute; reflexivity|]. split; [vm_compute; reflexivity|].
    split; [apply dbl_nonneg_b_sound; vm_compute; reflexivity|]. split.
    { exists (w_hash 3). split; [vm_compute; reflexivity|]. apply (bool_decide_eq_true_1 _).
      vm_compute. reflexivity. }
    repeat (split; [vm_compute; reflexivity|]). vm_compute. reflexivity.
Qed.

Lemma w_batch_ok : batch_ok w_rank (w_state w_batch) [(w_hash 4, Some 5%nat)].
Proof. split; [left; by exists 5%nat; split; [|apply w_batch_fresh]|]. by split. Qed.

(** ** Ties

    Of two blocks with the same sum [organize] keeps the one that was the top;
    a rebuild takes the first in the order of the hashes, and reports a branch
    point. *)
Definition w_tie : Chain (Ptr * ReorganizationState) :=
  _ ← clear;
  g ← make_shared (w_header 1 0 0);
  _ ← addNewBlock (w_hash 1) g;
  b ← make_shared (w_header 3 1 1);
  _ ← addBlocksInBulk [(w_hash 3, b)];
  _ ← organize;
  a ← make_shared (w_header 2 1 2);
  _ ← addBlocksInBulk [(w_hash 2, a)];
  _ ← organize;
  kept ← top;
  st ← forceOrganize;
  mret (kept, st).

Example w_tie_switches : exists bc, w_tie (Blockchain_new (w_hash 1)) =
  Ok ((Some 2%nat, mkReorg false true (Some 2%nat) (Some 3%nat) (Some 1%nat)), bc).
Proof. eexists. vm_compute. reflexivity. Qed.

(** A rebuild sets the next id to the largest one of the main chain plus one:
    here block 3, beside the main chain, has that id already. *)
Definition w_ids : Chain (Z * Ptr) :=
  _ ← w_done; _ ← forceOrganize; id ← getNewUniqueID; p ← getHeaderById id; mret (id, p).

Example w_ids_reused : exists bc, w_ids (Blockchain_new (w_hash 1)) = Ok ((2, Some 3%nat), bc).
Proof. eexists. vm_compute. reflexivity. Qed.
