(* ===== verification/BlockchainCorrect.v ===== *)
(** * BlockchainCorrect: the theorems about the class [Blockchain]

    What [organize], [forceOrganize], [findReorgPointFromBlock],
    [traceChainDown], [addBlocksInBulk], [forceAddBlocksInBulk] and the
    lookups do, on every well-formed blockchain. *)

From S2P Require Import Prelude BinaryData BinaryIO Hashing StdMap BlockHeader DBUtils Blockchain.
From S2P Require Import BlockchainSpec BlockchainOrganize BlockchainProps BlockchainExamples.

(** ** Lemmas *)

Section lemmas.
Context (rank : HashString -> nat).
Implicit Types (bc : Blockchain) (a b t : nat) (l : list nat) (k : HashString).

Lemma organized_known bc t l a : wf rank bc -> organized_on bc t l -> a ∈ l -> known bc a.
Proof.
  intros Hwf Ho Ha. assert (known bc t) as Ht.
  { destruct (org_id _ _ _ Ho) as [H|[_ H]].
    - destruct (wf_byId _ _ Hwf _ _ H) as (? & ? & ?). by simplify_eq.
    - destruct (gen_known _ _ Hwf) as (g & ? & ?). by simplify_eq. }
  pose proof (trail_known _ _ Hwf _ _ _ Ht (org_chain _ _ _ Ho)) as H.
  rewrite Forall_forall in H. by apply H.
Qed.

(** The block at a height of the main chain. *)
Lemma organized_height bc t l i : wf rank bc -> organized_on bc t l -> 0 <= i < zlen l ->
  exists a h, znth (headersByHeight_ bc) i = Some (Some a) /\ a ∈ l /\ heap_ bc !! a = Some h /\
    blockHeight_ h = i /\ isMainBranch_ h = true /\ isOrphan_ h = false.
Proof.
  intros Hwf Ho Hi. destruct (lookup_lt_is_Some_2 (rev l) (Z.to_nat i)) as [a Ha].
  { rewrite length_rev. unfold zlen in Hi. lia. }
  assert (a ∈ l) as Hin by (apply elem_of_rev; by eapply list_elem_of_lookup_2).
  pose proof (organized_known _ _ _ _ Hwf Ho Hin) as Hk.
  destruct (org_settled _ _ _ Ho a Hk) as (h & Hh & Hs). exists a, h.
  rewrite (org_heights _ _ _ Ho). unfold znth. rewrite decide_True by lia.
  rewrite list_lookup_fmap, Ha. split; [done|]. split; [done|]. split; [done|].
  rewrite rev_lookup in Ha by (unfold zlen in Hi; lia).
  pose proof (take_drop_middle l _ a Ha) as E.
  assert (chain bc a (a :: drop (S (length l - S (Z.to_nat i))) l)) as Hc
    by (eapply trail_suffix; [apply (org_chain _ _ _ Ho)|by rewrite E]).
  destruct Hs as [Hs|[[] _]]; [|by eexists].
  rewrite (solved_height _ _ _ _ Hc Hs). destruct Hs as (_ & _ & _ & _ & Horph).
  rewrite (proj2 (org_marks _ _ _ Ho a h Hk Hh)), bool_decide_true by done.
  split; [|done]. rewrite zlen_cons. unfold zlen in *. rewrite length_drop. lia.
Qed.

Lemma zlen_heights bc t l : organized_on bc t l -> zlen (headersByHeight_ bc) = zlen l.
Proof. intros Ho. rewrite (org_heights _ _ _ Ho). unfold zlen. by rewrite length_fmap, length_rev. Qed.

(** A key made from a height and a duplicate id leads to the block there. *)
Lemma getHeaderPtrForTxRef_at bc a h height dup txIdx : heap_ bc !! a = Some h ->
  znth (headersByHeight_ bc) height = Some (Some a) -> key_ok (KeyTx height dup txIdx) -> height < 0xffff00 ->
  getHeaderPtrForTxRef (getBlkDataKeyNoPrefix_tx height dup txIdx) bc =
  if duplicateID_ h =? dup then Ok (Some a, bc) else Err RuntimeError.
Proof.
  intros Hh Hz Hk Hlt. destruct (TxRef_fields _ _ _ Hk Hlt) as (Hl & H1 & H2 & _).
  unfold getHeaderPtrForTxRef. rewrite Hl. cbn [Z.ltb Z.compare negb].
  rewrite (chain_bind_ok _ _ _ _ _ (chain_of_ok _ _ _ H1)).
  rewrite (chain_bind_ok _ _ _ _ _ (chain_of_ok _ _ _ H2)).
  assert (getHeaderByHeight_const height bc = Ok (Some a, bc)) as Hget.
  { unfold getHeaderByHeight_const. rewrite (chain_bind_ok _ _ _ _ _ (chain_get_ok _ _)), Hz.
    apply znth_Some_range in Hz. by replace (height =? zlen (headersByHeight_ bc)) with false by lia. }
  rewrite (chain_bind_ok _ _ _ _ _ Hget), (chain_bind_ok _ _ _ _ _ (deref_ok _ _ _ Hh)).
  by destruct (duplicateID_ h =? dup).
Qed.

Lemma known_hash bc k p : wf rank bc -> map_find k (headerMap_ bc) = Some p ->
  exists a, p = Some a /\ known bc a.
Proof.
  intros Hwf Hk. destruct (wf_header _ _ Hwf _ _ Hk) as (a & h & -> & _).
  exists a. split; [done|]. by eapply map_find_value; [apply Hwf|].
Qed.

Lemma getHeaderByHash_eq k bc : getHeaderByHash k bc =
  match map_find k (headerMap_ bc) with Some p => Ok (p, bc) | None => Err RangeError end.
Proof.
  unfold getHeaderByHash. rewrite (chain_bind_ok _ _ _ _ _ (chain_get_ok _ _)). by destruct (map_find _ _).
Qed.

Lemma getHeaderByHeight_eq i bc : getHeaderByHeight i bc =
  match znth (headersByHeight_ bc) i with Some p => Ok (p, bc) | None => Err RangeError end.
Proof.
  unfold getHeaderByHeight. rewrite (chain_bind_ok _ _ _ _ _ (chain_get_ok _ _)). by destruct (znth _ _).
Qed.

Lemma getHeaderByHeight_const_eq i bc : getHeaderByHeight_const i bc =
  if i =? zlen (headersByHeight_ bc) then Err RangeError
  else match znth (headersByHeight_ bc) i with Some p => Ok (p, bc) | None => Err UB end.
Proof.
  unfold getHeaderByHeight_const. rewrite (chain_bind_ok _ _ _ _ _ (chain_get_ok _ _)).
  destruct (i =? _); [done|]. by destruct (znth _ _).
Qed.

(** A null entry: resetting the headers dereferences it. *)
Lemma reset_null (l : list Ptr) : None ∈ l -> forall bc,
  chain_for (fun p => update p reset_header) l bc = Err UB.
Proof.
  induction l as [|p l IH]; intros Hin bc; [by apply elem_of_nil in Hin|]. simpl.
  unfold mbind, chain_bind, update. destruct p as [a|]; [|done].
  destruct (heap_ bc !! a); [|done]. apply IH. by apply elem_of_cons in Hin as [?|?].
Qed.

Lemma forceOrganize_null bc k : map_ordered (headerMap_ bc) ->
  map_find k (headerMap_ bc) = Some None -> forceOrganize bc = Err UB.
Proof.
  intros Ho Hk. unfold forceOrganize, organize_, top.
  rewrite (chain_bind_ok _ _ _ _ _ (chain_get_ok _ _)). cbn [organizeChain recursion_depth].
  unfold reset_headers. unfold mbind at 1 2 3, chain_bind at 1 2 3, chain_get.
  unfold mbind, chain_bind. rewrite reset_null; [done|]. by eapply map_find_value.
Qed.
End lemmas.

(** ** Properties *)

Section properties.
Context (rank : HashString -> nat).
Implicit Types (bc : Blockchain) (a b t : nat) (l : list nat) (k : HashString).

(** C4: [organize], on a blockchain that is new or was organised before and to
    which any headers were added, ends, and the state is organised: the top
    is a block of maximal difficulty sum among all blocks connected to the
    genesis block, the main-branch flags, [headersByHeight_], the heights, the
    sums and the [nextHash_] links are those of its chain, and blocks without
    a path to the genesis block are orphans.  It reports the old and the new
    top, keeps the tables, and the result can be organised again. *)
Theorem organize_correct bc l0 : wf rank bc -> ready bc l0 -> exists st bc' t l,
  organize bc = Ok (st, bc') /\ organized_on bc' t l /\ same_chain bc bc' /\
  wf rank bc' /\ ready bc' l /\
  prevTop_ st = topBlockPtr_ bc /\ newTop_ st = Some t /\
  hasNewTop_ st = negb (bool_decide (topBlockPtr_ bc = Some t)).
Proof.
  intros Hwf Hr. destruct (organizeChain_run rank 0 bc l0 Hwf Hr)
    as (r & bc' & t & l & p0 & Hrun & Ho & Hs & _ & _).
  pose proof (organize_unfold false bc r bc' Hrun) as E. rewrite (org_top _ _ _ Ho) in E.
  eexists _, bc', t, l. split; [exact E|]. split; [done|]. split; [done|].
  split; [by apply (same_wf Hs)|]. split; [by eapply organized_ready|done].
Qed.

(** C7: the reorganisation report of [organize]: the previous top stays valid
    exactly when it is on the new main chain; otherwise the branch point is
    the highest block of the new main chain that the old main chain [l0]
    holds too. *)
Theorem organize_reorg_point bc l0 : wf rank bc -> ready bc l0 -> exists st bc' t l p0,
  organize bc = Ok (st, bc') /\ organized_on bc' t l /\ top_is bc p0 /\
  prevTopStillValid_ st = bool_decide (p0 ∈ l) /\
  branch_point l0 l p0 (reorgBranchPoint_ st).
Proof.
  intros Hwf Hr. destruct (organizeChain_run rank 0 bc l0 Hwf Hr)
    as (r & bc' & t & l & p0 & Hrun & Ho & Hs & Ht & Hb).
  eexists _, bc', t, l, p0. split; [exact (organize_unfold false bc r bc' Hrun)|].
  split; [done|]. split; [done|]. split; [|done]. simpl. apply bool_decide_ext.
  destruct r as [b|]; simpl in Hb; [|done]. destruct Hb as [Hb _]. by split.
Qed.

(** C8: [forceOrganize] ends and organises the state, after at most one more
    rebuild, whatever its sums, heights and main-branch flags are, if the headers
    that are not connected to the genesis block are flagged as orphans;
    it reports no branch point or the genesis block. *)
Theorem forceOrganize_correct bc : wf rank bc -> orphans_ok bc -> exists st bc' t l,
  forceOrganize bc = Ok (st, bc') /\ organized_on bc' t l /\ same_chain bc bc' /\ wf rank bc' /\
  newTop_ st = Some t /\
  (reorgBranchPoint_ st = None \/ reorgBranchPoint_ st = gen_of bc).
Proof.
  intros Hwf Hr. destruct (forced_any rank 0 bc Hwf Hr) as (r & bc' & t & l & Hrun & Hs & Ho & Hb).
  pose proof (organize_unfold true bc r bc' Hrun) as E. rewrite (org_top _ _ _ Ho) in E.
  eexists _, bc', t, l. split; [exact E|]. split; [done|]. split; [done|].
  by split; [by apply (same_wf Hs)|].
Qed.

(** C16: [traceChainDown] gives a header connected to the genesis block the sum
    of the difficulties along its chain, in the order of the chain, and
    reports [numeric_limits<double>::max()] and marks the end of the chain for
    one that is not; every sum it stores is right, and it changes no more
    than sums, heights and orphan flags. *)
Theorem traceChainDown_correct bc a :
  wf rank bc -> sums_ok bc -> gen_solved bc -> known bc a ->
  exists s bc' h, traceChainDown (Some a) bc = Ok (s, bc') /\ trace_rel bc bc' /\ sums_ok bc' /\
    heap_ bc' !! a = Some h /\
    ((sum_of bc a s /\ solved bc' a h) \/
     (~ connected bc a /\ s = dbl_max /\ isOrphan_ h = true)).
Proof.
  intros Hwf Hok Hgen Ha. destruct (connected_dec _ _ Hwf a Ha) as [[l Hl]|[l Hl]].
  - destruct (traceChainDown_chain rank bc a l Hwf Hok Hgen Ha Hl) as (bc' & h & Hrun & Hr & Ho & Hh & Hs).
    exists (chain_sum bc l), bc', h. split; [done|]. split; [done|]. split; [done|]. split; [done|].
    left. split; [by exists l|done].
  - destruct (traceChainDown_orphan rank bc a l Hwf Hok Ha Hl) as (bc' & h & Hrun & Hr & Ho & Hh & Hor & _).
    exists dbl_max, bc', h. split; [done|]. split; [done|]. split; [done|]. split; [done|].
    right. split; [by eapply trail_false_not_connected|done].
Qed.

(** C13: [addBlocksInBulk] adds exactly the headers whose hash is not in the
    map, reports their ids without repetition, leaves the other headers alone
    and keeps the blockchain well-formed and ready to be organised. *)
Theorem addBlocksInBulk_correct bc l0 m : wf rank bc -> ready bc l0 -> batch_ok rank bc m ->
  zlen (headerMap_ bc) + zlen m < 2 ^ 32 ->
  exists ids bc', addBlocksInBulk m bc = Ok (ids, bc') /\ wf rank bc' /\ ready bc' l0 /\
    bulk_rel bc bc' m /\ (forall id, id ∈ ids <-> new_id bc m id).
Proof.
  intros Hwf Hr Hb Hsize.
  destruct (addBulk_loop_spec rank l0 m bc [] Hwf Hr Hb Hsize) as (s & bc' & Hrun & Hw & Hrd & Hrel & Hids).
  destruct Hids as [Ho Hids]; [done|].
  exists (map_keys s), bc'. unfold addBlocksInBulk. rewrite (chain_bind_ok _ _ _ _ _ Hrun).
  split; [done|]. split; [done|]. split; [done|]. split; [done|].
  intros id. rewrite map_keys_find, Hids by done. split; [|by right].
  intros [[? ?]|?]; [done|done].
Qed.

(** On an organised blockchain [findReorgPointFromBlock] ends: for a block
    connected to the genesis block it gives the first of its ancestors, itself
    included, on the main chain, and null when that is the block itself; for
    an unknown or unconnected block it throws. *)
Theorem findReorgPointFromBlock_correct bc t l k : wf rank bc -> organized_on bc t l ->
  match findReorgPointFromBlock k bc with
  | Ok (st, bc') => bc' = bc /\ newTop_ st = Some t /\ hasNewTop_ st = false /\
      exists a l1 b lb, map_find k (headerMap_ bc) = Some (Some a) /\ prevTop_ st = Some a /\
        chain bc a (l1 ++ b :: lb) /\ Forall (fun x => x ∉ l) l1 /\ b ∈ l /\
        prevTopStillValid_ st = bool_decide (a = b) /\
        reorgBranchPoint_ st = if bool_decide (a = b) then None else Some b
  | Err e => e = RangeError /\
      ~ exists a, map_find k (headerMap_ bc) = Some (Some a) /\ connected bc a
  end.
Proof.
  intros Hwf Ho. unfold findReorgPointFromBlock. unfold mbind at 1, chain_bind at 1.
  rewrite getHeaderByHash_eq. destruct (map_find k (headerMap_ bc)) as [p|] eqn:Hk.
  2:{ split; [done|]. by intros (? & ? & _). }
  destruct (known_hash rank bc k p Hwf Hk) as (a & -> & Ha).
  rewrite (chain_bind_ok _ _ _ _ _ (chain_get_ok _ _)).
  destruct (connected_dec _ _ Hwf a Ha) as [[la Hl]|[la Hl]].
  - pose proof (trail_length _ _ Hwf _ _ _ Ha Hl) as Hlen.
    destruct (split_first la l) as (l1 & b & lb & -> & Hl1 & Hb).
    { destruct (gen_known _ _ Hwf) as (g & Hg & _). exists g.
      split; by eapply chain_has_gen; [eauto using org_chain|]. }
    rewrite length_app in Hlen.
    rewrite (chain_bind_ok _ _ _ _ _
      (find_main_spec rank bc t l l1 Hwf Ho a b lb (length (headerMap_ bc)) Ha Hl Hl1 Hb ltac:(simpl in *; lia))).
    unfold top. rewrite (chain_bind_ok _ _ _ _ _ (chain_get_ok _ _)), (org_top _ _ _ Ho).
    unfold mret, chain_ret. cbv beta iota. split; [done|].
    destruct (decide (a = b)) as [->|Hne].
    + rewrite (bool_decide_true (Some b = Some b)) by done. split; [done|]. split; [done|].
      exists b, l1, b, lb. by rewrite bool_decide_true.
    + rewrite (bool_decide_false (Some b = Some a)) by congruence. split; [done|]. split; [done|].
      exists a, l1, b, lb. by rewrite bool_decide_false.
  - unfold mbind, chain_bind.
    rewrite (find_main_orphan rank bc t l Hwf Ho la a) by eauto using trail_length.
    split; [done|]. intros (a' & [= <-] & Hc). by eapply trail_false_not_connected.
Qed.

(** The lookups by height on an organised blockchain: a height of the main
    chain gives its block there, which has that height and is on the main
    branch; the first height above makes both overloads throw; above that the
    [const] overload reads past the end. *)
Theorem getHeaderByHeight_correct bc t l i : wf rank bc -> organized_on bc t l -> 0 <= i ->
  if i <? zlen l then
    hasHeaderByHeight i bc = Ok (true, bc) /\
    exists a h, getHeaderByHeight i bc = Ok (Some a, bc) /\
      getHeaderByHeight_const i bc = Ok (Some a, bc) /\ a ∈ l /\ heap_ bc !! a = Some h /\
      blockHeight_ h = i /\ isMainBranch_ h = true
  else
    hasHeaderByHeight i bc = Ok (false, bc) /\ getHeaderByHeight i bc = Err RangeError /\
    getHeaderByHeight_const i bc = Err (if i =? zlen l then RangeError else UB).
Proof.
  intros Hwf Ho Hi. rewrite getHeaderByHeight_eq, getHeaderByHeight_const_eq.
  unfold hasHeaderByHeight. rewrite (chain_bind_ok _ _ _ _ _ (chain_get_ok _ _)).
  unfold mret, chain_ret. rewrite (zlen_heights bc t l Ho). destruct (i <? zlen l) eqn:E.
  - destruct (organized_height rank bc t l i Hwf Ho) as (a & h & -> & Hin & Hh & Hb & Hm & _); [lia|].
    split; [by replace (zlen l <=? i) with false by lia|].
    exists a, h. by replace (i =? zlen l) with false by lia.
  - rewrite znth_None by (rewrite (zlen_heights bc t l Ho); lia).
    split; [by replace (zlen l <=? i) with true by lia|]. split; [done|]. by destruct (i =? zlen l).
Qed.

(** The block of a transaction, from its six-byte database key: when the
    key was made for a block of the main chain with its duplicate id, the
    lookup gives that block; with another duplicate id it throws. *)
Theorem getHeaderPtrForTxRef_correct bc t l height dup txIdx :
  wf rank bc -> organized_on bc t l -> key_ok (KeyTx height dup txIdx) ->
  height < zlen l -> height < 0xffff00 ->
  exists a h, a ∈ l /\ heap_ bc !! a = Some h /\ blockHeight_ h = height /\
    getHeaderPtrForTxRef (getBlkDataKeyNoPrefix_tx height dup txIdx) bc =
    if duplicateID_ h =? dup then Ok (Some a, bc) else Err RuntimeError.
Proof.
  intros Hwf Ho Hk Hh Hz. pose proof Hk as [[Hp _] _].
  destruct (organized_height rank bc t l height Hwf Ho) as (a & h & Hi & Hin & Hheap & Hb & _); [lia|].
  exists a, h. do 3 (split; [done|]). by apply getHeaderPtrForTxRef_at.
Qed.

(** [forceAddBlocksInBulk] stores the header of a new hash by its id and
    among the new blocks, but leaves a null pointer under the hash; a rebuild
    with [forceOrganize] then dereferences it. *)
Theorem forceAddBlocksInBulk_null bc k a h : wf rank bc -> map_find k (headerMap_ bc) = None ->
  heap_ bc !! a = Some h -> exists bc',
  forceAddBlocksInBulk [(k, Some a)] bc = Ok (tt, bc') /\
  map_find k (headerMap_ bc') = Some None /\
  map_find (uniqueID_ h) (headersById_ bc') = Some (Some a) /\
  newlyParsedBlocks_ bc' = newlyParsedBlocks_ bc ++ [Some a] /\
  forceOrganize bc' = Err UB.
Proof.
  intros Hwf Hk Hh. eexists. split.
  - unfold forceAddBlocksInBulk, chain_for, forceAdd_one, mbind, chain_bind, chain_set, deref.
    simpl. rewrite Hh. reflexivity.
  - unfold map_insert. simpl. rewrite Hk. simpl.
    assert (map_find k (map_put k None (headerMap_ bc)) = Some None) as E by apply map_find_put_eq.
    split; [done|]. split; [apply map_find_put_eq|]. split; [done|].
    apply (forceOrganize_null _ k); [|done]. apply map_put_ordered, Hwf.
Qed.
End properties.

(** ** Witnesses *)

Lemma organize_correct_witness : exists st bc' t l,
  organize (w_state w_fork) = Ok (st, bc') /\ organized_on bc' t l /\ same_chain (w_state w_fork) bc' /\
  wf w_rank bc' /\ ready bc' l /\
  prevTop_ st = topBlockPtr_ (w_state w_fork) /\ newTop_ st = Some t /\
  hasNewTop_ st = negb (bool_decide (topBlockPtr_ (w_state w_fork) = Some t)).
Proof. exact (organize_correct w_rank (w_state w_fork) _ w_fork_wf w_fork_ready). Defined.

Lemma organize_reorg_point_witness : exists st bc' t l p0,
  organize (w_state w_fork) = Ok (st, bc') /\ organized_on bc' t l /\ top_is (w_state w_fork) p0 /\
  prevTopStillValid_ st = bool_decide (p0 ∈ l) /\
  branch_point [2%nat; 1%nat] l p0 (reorgBranchPoint_ st).
Proof. exact (organize_reorg_point w_rank (w_state w_fork) _ w_fork_wf w_fork_ready). Defined.

Lemma forceOrganize_correct_witness : exists st bc' t l,
  forceOrganize (w_state w_fork) = Ok (st, bc') /\ organized_on bc' t l /\
  same_chain (w_state w_fork) bc' /\ wf w_rank bc' /\ newTop_ st = Some t /\
  (reorgBranchPoint_ st = None \/ reorgBranchPoint_ st = gen_of (w_state w_fork)).
Proof.
  exact (forceOrganize_correct w_rank (w_state w_fork) w_fork_wf (ready_orphans _ _ w_fork_ready)).
Defined.

Lemma traceChainDown_correct_witness : known (w_state w_fork) 5 /\
  exists s bc' h, traceChainDown (Some 5%nat) (w_state w_fork) = Ok (s, bc') /\
    trace_rel (w_state w_fork) bc' /\ sums_ok bc' /\ heap_ bc' !! 5%nat = Some h /\
    ((sum_of (w_state w_fork) 5 s /\ solved bc' 5 h) \/
     (~ connected (w_state w_fork) 5 /\ s = dbl_max /\ isOrphan_ h = true)).
Proof.
  assert (known (w_state w_fork) 5) as Hk by (unfold known; apply (bool_decide_eq_true_1 _); vm_compute; reflexivity).
  split; [exact Hk|].
  exact (traceChainDown_correct w_rank (w_state w_fork) 5 w_fork_wf w_fork_sums w_fork_gen Hk).
Defined.

Lemma addBlocksInBulk_correct_witness : exists ids bc',
  addBlocksInBulk [(w_hash 4, Some 5%nat)] (w_state w_batch) = Ok (ids, bc') /\ wf w_rank bc' /\
  ready bc' [2%nat; 1%nat] /\ bulk_rel (w_state w_batch) bc' [(w_hash 4, Some 5%nat)] /\
  (forall id, id ∈ ids <-> new_id (w_state w_batch) [(w_hash 4, Some 5%nat)] id).
Proof.
  assert (zlen (headerMap_ (w_state w_batch)) + zlen [(w_hash 4, Some 5%nat)] < 2 ^ 32) as Hs
    by (apply Z.ltb_lt; vm_compute; reflexivity).
  exact (addBlocksInBulk_correct w_rank (w_state w_batch) _ _ w_batch_wf w_batch_ready w_batch_ok Hs).
Defined.

(** Block 3 is on a side branch of the main chain 1, 2. *)
Lemma findReorgPointFromBlock_correct_witness :
  match findReorgPointFromBlock (w_hash 3) (w_state w_done) with
  | Ok (st, bc') => bc' = w_state w_done /\ newTop_ st = Some 2%nat /\ hasNewTop_ st = false /\
      exists a l1 b lb, map_find (w_hash 3) (headerMap_ (w_state w_done)) = Some (Some a) /\
        prevTop_ st = Some a /\ chain (w_state w_done) a (l1 ++ b :: lb) /\
        Forall (fun x => x ∉ [2%nat; 1%nat]) l1 /\ b ∈ [2%nat; 1%nat] /\
        prevTopStillValid_ st = bool_decide (a = b) /\
        reorgBranchPoint_ st = if bool_decide (a = b) then None else Some b
  | Err e => e = RangeError /\
      ~ exists a, map_find (w_hash 3) (headerMap_ (w_state w_done)) = Some (Some a) /\
          connected (w_state w_done) a
  end.
Proof.
  exact (findReorgPointFromBlock_correct w_rank (w_state w_done) 2 _ (w_hash 3) w_done_wf w_done_organized).
Defined.

Lemma getHeaderByHeight_correct_witness :
  hasHeaderByHeight 1 (w_state w_done) = Ok (true, w_state w_done) /\
  exists a h, getHeaderByHeight 1 (w_state w_done) = Ok (Some a, w_state w_done) /\
    getHeaderByHeight_const 1 (w_state w_done) = Ok (Some a, w_state w_done) /\ a ∈ [2%nat; 1%nat] /\
    heap_ (w_state w_done) !! a = Some h /\ blockHeight_ h = 1 /\ isMainBranch_ h = true.
Proof.
  exact (getHeaderByHeight_correct w_rank (w_state w_done) 2 _ 1 w_done_wf w_done_organized ltac:(lia)).
Defined.

Lemma getHeaderPtrForTxRef_correct_witness :
  exists a h, a ∈ [2%nat; 1%nat] /\ heap_ (w_state w_done) !! a = Some h /\ blockHeight_ h = 1 /\
    getHeaderPtrForTxRef (getBlkDataKeyNoPrefix_tx 1 0 5) (w_state w_done) =
    if duplicateID_ h =? 0 then Ok (Some a, w_state w_done) else Err RuntimeError.
Proof.
  assert (key_ok (KeyTx 1 0 5)) as Hk by (apply (bool_decide_eq_true_1 _); reflexivity).
  exact (getHeaderPtrForTxRef_correct w_rank (w_state w_done) 2 _ 1 0 5 w_done_wf w_done_organized
    Hk eq_refl eq_refl).
Defined.

Lemma forceAddBlocksInBulk_null_witness : exists bc',
  forceAddBlocksInBulk [(w_hash 4, Some 5%nat)] (w_state w_batch) = Ok (tt, bc') /\
  map_find (w_hash 4) (headerMap_ bc') = Some None /\
  map_find 4 (headersById_ bc') = Some (Some 5%nat) /\
  newlyParsedBlocks_ bc' = newlyParsedBlocks_ (w_state w_batch) ++ [Some 5%nat] /\
  forceOrganize bc' = Err UB.
Proof.
  assert (map_find (w_hash 4) (headerMap_ (w_state w_batch)) = None) as H1 by (vm_compute; reflexivity).
  assert (heap_ (w_state w_batch) !! 5%nat = Some (w_header 4 3 4)) as H2 by (vm_compute; reflexivity).
  assert (uniqueID_ (w_header 4 3 4) = 4) as E by (vm_compute; reflexivity).
  pose proof (forceAddBlocksInBulk_null w_rank (w_state w_batch) _ _ _ w_batch_wf H1 H2) as H.
  rewrite E in H. exact H.
Defined.
