(* ===== verification/BlockchainDB.v ===== *)
(** * BlockchainDB: the headers and their database

    [setDuplicateIDinRAM], [putBareHeaders] and [putNewBareHeaders] of
    cppForSwig/Blockchain.cpp: the operations that act on the header tables
    and on the HEADERS database at once. *)

From S2P Require Import Prelude BinaryData BinaryIO Hashing StdMap DBUtils BlockHeader HeadersDB.
From S2P Require Import Blockchain.

Section operations.
Context {DB : Type} `{Store DB} `{HashFns}.

(** ** Computations on both states *)

Definition Node (A : Type) : Type :=
  Blockchain * LMDBBlockDatabase DB -> result (A * (Blockchain * LMDBBlockDatabase DB)).

#[export] Instance node_ret : MRet Node := fun A a s => Ok (a, s).
#[export] Instance node_bind : MBind Node := fun A B f m s =>
  match m s with Ok (a, s) => f a s | Err e => Err e end.

Definition on_chain {A} (m : Chain A) : Node A := fun '(bc, db) =>
  match m bc with Ok (a, bc) => Ok (a, (bc, db)) | Err e => Err e end.
Definition on_db {A} (m : Db A) : Node A := fun '(bc, db) =>
  match m db with Ok (a, db) => Ok (a, (bc, db)) | Err e => Err e end.

Fixpoint node_for {A} (f : A -> Node ()) (l : list A) : Node () :=
  match l with
  | [] => mret tt
  | x :: l => _ ← f x; node_for f l
  end.

(** ** The operations *)

Definition set_dup_in_RAM (block : Ptr) : Node () :=
  h ← on_chain (deref block);
  if isMainBranch_ h then on_db (setValidDupIDForHeight (blockHeight_ h) (duplicateID_ h) true)
  else mret tt.

Definition setDuplicateIDinRAM : Node () :=
  m ← on_chain (chain_get headerMap_); node_for set_dup_in_RAM (map_values m).

(** One header: [createFromBlockHeader], [putBareHeader], [setDuplicateID]. *)
Definition put_block (updateDupID updateSDBI : bool) (block : Ptr) : Node () :=
  h ← on_chain (deref block);
  sbh ← on_db (db_of (createFromBlockHeader h StoredHeader_default));
  '(dup, _) ← on_db (putBareHeader sbh updateDupID updateSDBI);
  on_chain (update block (set_duplicateID dup)).

Definition putBareHeaders (updateDupID : bool) : Node () :=
  m ← on_chain (chain_get headerMap_); node_for (put_block updateDupID true) (map_values m).

(** The loop of [putNewBareHeaders]: the blocks without a height are kept. *)
Fixpoint put_new_loop (blocks : list Ptr) : Node (list Ptr) :=
  match blocks with
  | [] => mret []
  | block :: blocks =>
      h ← on_chain (deref block);
      if negb (blockHeight_ h =? UINT32_MAX) then
        _ ← put_block true false block; put_new_loop blocks
      else
        unputHeaders ← put_new_loop blocks; mret (block :: unputHeaders)
  end.

Definition putNewBareHeaders : Node () :=
  blocks ← on_chain (chain_get newlyParsedBlocks_);
  if bool_decide (blocks = []) then mret tt
  else
    unputHeaders ← put_new_loop blocks;
    sdbiH ← on_db (getStoredDBInfo 0);
    topBlock ← on_chain top;
    if bool_decide (topBlock = None) then mret tt
    else
      t ← on_chain (deref topBlock);
      _ ← (if topBlkHgt_ sdbiH <=? blockHeight_ t then
             on_db (putStoredDBInfo (mkSDBI (magic_ sdbiH) (blockHeight_ t) (metaHash_ sdbiH)
               (thisHash_ t) (appliedToHgt_ sdbiH) (armoryVer_ sdbiH) (armoryType_ sdbiH)) 0)
           else mret tt);
      on_chain (chain_set (set_newlyParsed unputHeaders)).
End operations.
