(* ===== verification/BlockchainDBProps.v ===== *)
(** * BlockchainDBProps: the theorems about headers and their database

    After [setDuplicateIDinRAM] the ids in memory are those of the main chain,
    and a transaction key made with them leads to its block; after
    [putNewBareHeaders] every new block with a height is in the database under
    the duplicate id its header carries. *)

From S2P Require Import Prelude BinaryData BinaryIO Hashing StdMap DBUtils BlockHeader HeadersDB.
From S2P Require Import HeadersDBFormat HeadersDBProps Blockchain BlockchainSpec BlockchainOrganize.
From S2P Require Import BlockchainProps BlockchainExamples BlockchainCorrect BlockchainDB.

Section lemmas.
Context {DB : Type} `{StoreLaws DB} `{HashFns} (rank : HashString -> nat).
Implicit Types (bc : Blockchain) (db : LMDBBlockDatabase DB) (a b t : nat) (l : list nat).

Lemma node_bind_ok {A B} (m : Node (DB := DB) A) (f : A -> Node (DB := DB) B) s x s' :
  m s = Ok (x, s') -> (m ≫= f) s = f x s'.
Proof. intros E. unfold mbind, node_bind. by rewrite E. Qed.

Lemma on_chain_ok {A} (m : Chain A) bc db x bc' : m bc = Ok (x, bc') ->
  on_chain m (bc, db) = Ok (x, (bc', db)).
Proof. intros E. unfold on_chain. by rewrite E. Qed.

Lemma on_db_ok {A} (m : Db A) bc db x db' : m db = Ok (x, db') ->
  on_db m (bc, db) = Ok (x, (bc, db')).
Proof. intros E. unfold on_db. by rewrite E. Qed.

(** ** Heights of the main chain *)

(** The height of a block of the main chain is its place in [headersByHeight_]. *)
Lemma organized_position bc t l a h : wf rank bc -> organized_on bc t l -> a ∈ l ->
  heap_ bc !! a = Some h -> znth (headersByHeight_ bc) (blockHeight_ h) = Some (Some a).
Proof.
  intros Hwf Ho Hin Hh. apply list_elem_of_lookup in Hin as Hlk. destruct Hlk as [j Hj].
  pose proof (organized_known rank _ _ _ _ Hwf Ho Hin) as Hk.
  pose proof (take_drop_middle l _ a Hj) as E.
  assert (chain bc a (a :: drop (S j) l)) as Hc
    by (eapply trail_suffix; [apply (org_chain _ _ _ Ho)|by rewrite E]).
  destruct (org_settled _ _ _ Ho a Hk) as (h' & Hh' & Hs). simplify_eq.
  destruct Hs as [Hs|[[] _]]; [|by eexists]. rewrite (solved_height _ _ _ _ Hc Hs).
  pose proof (lookup_lt_Some _ _ _ Hj) as Hlt.
  rewrite (org_heights _ _ _ Ho), zlen_cons. unfold zlen, znth. rewrite length_drop.
  rewrite decide_True by lia. rewrite list_lookup_fmap, rev_lookup by lia.
  replace (length l - S (Z.to_nat (1 + Z.of_nat (length l - S j) - 1)))%nat with j by lia. by rewrite Hj.
Qed.

(** A block of the main branch at height [i], with the id [d]. *)
Definition main_at bc (i : Z) a (d : Z) : Prop :=
  exists h, heap_ bc !! a = Some h /\ isMainBranch_ h = true /\ blockHeight_ h = i /\ duplicateID_ h = d.

Lemma main_at_unique bc t l i a b d d' : wf rank bc -> organized_on bc t l -> known bc a -> known bc b ->
  main_at bc i a d -> main_at bc i b d' -> a = b.
Proof.
  intros Hwf Ho Ha Hb (h & Hh & Hm & Hi & _) (h' & Hh' & Hm' & Hi' & _).
  assert (forall x hx, known bc x -> heap_ bc !! x = Some hx -> isMainBranch_ hx = true -> x ∈ l) as Hin.
  { intros x hx Hx Hhx Hmx. destruct (org_marks _ _ _ Ho x hx Hx Hhx) as [_ E].
    rewrite Hmx in E. symmetry in E. by apply bool_decide_eq_true in E. }
  pose proof (organized_position _ _ _ _ _ Hwf Ho (Hin _ _ Ha Hh Hm) Hh) as P1.
  pose proof (organized_position _ _ _ _ _ Hwf Ho (Hin _ _ Hb Hh' Hm') Hh') as P2.
  rewrite Hi in P1. rewrite Hi' in P2. congruence.
Qed.

(** ** [setDuplicateIDinRAM] *)

Lemma set_dup_step bc db a h : heap_ bc !! a = Some h -> map_ordered (validDupByHeight_ db) -> exists db',
  set_dup_in_RAM (Some a) (bc, db) = Ok (tt, (bc, db')) /\ headers_ db' = headers_ db /\
  map_ordered (validDupByHeight_ db') /\
  forall i, map_find i (validDupByHeight_ db') =
    if isMainBranch_ h && (i =? blockHeight_ h) then Some (duplicateID_ h)
    else map_find i (validDupByHeight_ db).
Proof.
  intros Hh Ho. unfold set_dup_in_RAM.
  rewrite (node_bind_ok _ _ _ _ _ (on_chain_ok _ _ _ _ _ (deref_ok _ _ _ Hh))).
  destruct (isMainBranch_ h); [|by exists db].
  destruct (setValidDup_ok db (blockHeight_ h) (duplicateID_ h) true Ho) as (m & Hrun & Hm & Hf).
  exists (mkLMDB (headers_ db) m). split; [by apply on_db_ok|]. split; [done|]. split; [done|].
  intros i. simpl validDupByHeight_. rewrite Hf. simpl andb.
  destruct (Z.eqb_spec i (blockHeight_ h)) as [->|]; [rewrite decide_True by done|by rewrite decide_False].
  unfold valid_dup. by destruct (map_find (blockHeight_ h) (validDupByHeight_ db)).
Qed.

Lemma set_dup_loop bc : (forall i a b d d', known bc a -> known bc b ->
    main_at bc i a d -> main_at bc i b d' -> a = b) ->
  forall l db, (forall a, a ∈ l -> known bc a /\ is_Some (heap_ bc !! a)) ->
  map_ordered (validDupByHeight_ db) -> exists db',
  node_for set_dup_in_RAM (Some <$> l) (bc, db) = Ok (tt, (bc, db')) /\ headers_ db' = headers_ db /\
  (forall i a d, a ∈ l -> main_at bc i a d -> map_find i (validDupByHeight_ db') = Some d) /\
  (forall i, (forall a d, a ∈ l -> ~ main_at bc i a d) ->
     map_find i (validDupByHeight_ db') = map_find i (validDupByHeight_ db)).
Proof.
  intros Huniq. induction l as [|x l IH]; intros db Hl Ho.
  { exists db. split; [done|]. split; [done|]. split; [by intros ? ? ? ?%elem_of_nil|done]. }
  destruct (Hl x) as [Hx [h Hh]]; [by left|]. destruct (set_dup_step bc db x h Hh Ho) as (db1 & Hrun & Hhd & Ho1 & Hf).
  destruct (IH db1) as (db2 & Hrun2 & Hhd2 & Hin & Hout); [intros; apply Hl; by right|done|].
  exists db2. simpl. rewrite (node_bind_ok _ _ _ _ _ Hrun).
  split; [done|]. split; [congruence|]. split.
  - intros i a d [->|Ha]%elem_of_cons Hm; [|by eapply Hin].
    destruct Hm as (h' & Hh' & Hmain & Hi & Hd). simplify_eq.
    destruct (decide (x ∈ l)) as [Hxl|Hxl]; [eapply Hin; [exact Hxl|by exists h]|].
    rewrite Hout; [rewrite Hf, Hmain, Z.eqb_refl; done|].
    intros b d Hb Hmb. assert (b = x) as ->; [|done].
    eapply (Huniq (blockHeight_ h) b x d (duplicateID_ h)); [by apply Hl; right|done|done|by exists h].
  - intros i Hno. rewrite Hout by (intros a d Ha; apply Hno; by right). rewrite Hf.
    destruct (isMainBranch_ h) eqn:Em; [|done]. destruct (Z.eqb_spec i (blockHeight_ h)) as [->|]; [|done].
    exfalso. apply (Hno x (duplicateID_ h)); [by left|]. by exists h.
Qed.

Lemma setDuplicateIDinRAM_run bc db t l : wf rank bc -> organized_on bc t l ->
  map_ordered (validDupByHeight_ db) -> exists db',
  setDuplicateIDinRAM (bc, db) = Ok (tt, (bc, db')) /\ headers_ db' = headers_ db /\
  (forall i a d, known bc a -> main_at bc i a d -> map_find i (validDupByHeight_ db') = Some d) /\
  (forall i, (forall a d, known bc a -> ~ main_at bc i a d) ->
     map_find i (validDupByHeight_ db') = map_find i (validDupByHeight_ db)).
Proof.
  intros Hwf Ho Hord. destruct (values_known rank bc Hwf) as (hs & Hvs & Hhs).
  destruct (set_dup_loop bc) with (l := hs) (db := db) as (db' & Hrun & Hhd & Hin & Hout).
  - intros i a b d d' Ha Hb. by apply (main_at_unique bc t l i a b d d').
  - intros a Ha. apply Hhs in Ha. destruct (known_header _ _ Hwf _ Ha) as (h & Hh & _).
    split; [done|by exists h].
  - done.
  - exists db'. unfold setDuplicateIDinRAM.
    rewrite (node_bind_ok _ _ _ _ _ (on_chain_ok _ _ _ _ _ (chain_get_ok _ _))), Hvs.
    split; [done|]. split; [done|]. split.
    + intros i a d Ha. apply Hin. by apply Hhs.
    + intros i Hno. apply Hout. intros a d Ha. apply Hno. by apply Hhs.
Qed.
End lemmas.

(** ** Putting headers *)

(** A header of a block with a height the keys can hold. *)
Record storable `{HashFns} (h : BlockHeader) : Prop := {
  st_init : isInitialized_ h = true;
  st_data : zlen (dataCopy_ h) = HEADER_SIZE;
  st_height : 0 <= blockHeight_ h < 2 ^ 24;
  st_numTx : is_uint 32 (numTx_ h);
  st_numBytes : exists n, numBlockBytes_ h = Some n /\ is_uint 32 n;
  st_offset : is_uint 64 (blkFileOffset_ h);
  st_id : is_uint 32 (uniqueID_ h);
  st_hash : thisHash_ h = getHash256 (dataCopy_ h);
}.

(** What [createFromBlockHeader] makes of it. *)
Definition sbh_of `{HashFns} (h : BlockHeader) : StoredHeader :=
  mkSBH (dataCopy_ h) (getHash256 (dataCopy_ h)) (numTx_ h) (default 0 (numBlockBytes_ h))
    (blockHeight_ h) UINT8_MAX (isMainBranch_ h) (Some (wrap 16 (blkFileNum_ h)))
    (Some (blkFileOffset_ h)) (uniqueID_ h).

(** The database holds the header [h] under the id [dup]. *)
Definition stored_in `{Store DB} `{HashFns} (db : LMDBBlockDatabase DB) (h : BlockHeader) (dup : Z) : Prop :=
  header_at db (thisHash_ h) (sbh_stored (setKeyData (blockHeight_ h) dup (sbh_of h)) false) /\
  exists l p, list_at db (blockHeight_ h) l p /\ (dup, thisHash_ h) ∈ l.

(** How many of the headers [l] have a height. *)
Definition has_height bc (height : Z) (a : nat) : bool :=
  match heap_ bc !! a with Some h => blockHeight_ h =? height | None => false end.
Definition need bc (l : list nat) (height : Z) : Z := zlen (List.filter (has_height bc height) l).

(** A database that has the info and, at every height, room for the headers [l]. *)
Record room `{Store DB} bc (db : LMDBBlockDatabase DB) (l : list nat) (i : StoredDBInfo) : Prop := {
  rm_info : info_at db i;
  rm_ordered : map_ordered (validDupByHeight_ db);
  rm_lists height : 0 <= height < 2 ^ 24 ->
    exists l0 p, list_at db height l0 p /\ zlen l0 + need bc l height <= 128;
}.

Section put.
Context {DB : Type} `{StoreLaws DB} `{HashFns}.
Implicit Types (bc : Blockchain) (db : LMDBBlockDatabase DB) (a b t : nat) (h : BlockHeader).

Lemma createFromBlockHeader_ok h : storable h -> createFromBlockHeader h StoredHeader_default = Ok (sbh_of h).
Proof.
  intros [Hi Hd Hh Ht (n & En & Hn) Ho Hid Hhash]. unfold createFromBlockHeader, setHeaderData, member.
  rewrite Hi, Hd, En. change (HEADER_SIZE =? HEADER_SIZE) with true. unfold sbh_of. by rewrite En.
Qed.

Lemma storable_put h : storable h -> can_put (sbh_of h).
Proof.
  intros [Hi Hd Hh Ht (n & En & Hn) Ho Hid Hhash]. split; [|done].
  split; simpl; try done.
  - by rewrite En.
  - eexists. split; [done|]. by apply wrap_range.
  - by eexists.
Qed.

Lemma list_at_det db height l0 p l1 p1 : list_at db height l0 p -> list_at db height l1 p1 -> l0 = l1.
Proof. intros [_ E1] [_ E2]. rewrite E1 in E2. by simplify_eq. Qed.

(** A put keeps what is stored of other headers. *)
Lemma stored_in_put db db' h l0 p dup upd h1 dup1 : storable h ->
  put_rel db db' (sbh_of h) l0 p dup upd -> list_at db (blockHeight_ h) l0 p ->
  thisHash_ h1 ≠ thisHash_ h -> is_uint 32 (blockHeight_ h1) -> stored_in db h1 dup1 -> stored_in db' h1 dup1.
Proof.
  intros Hst Hr Hat Hne Hu [Hhd (l1 & p1 & Hat1 & Hin)].
  split; [apply (pr_headers _ _ _ _ _ _ _ Hr); [|done]; simpl; by rewrite <- (st_hash _ Hst)|].
  destruct (decide (blockHeight_ h1 = blockHeight_ h)) as [E|E].
  - rewrite E in *. pose proof (list_at_det _ _ _ _ _ _ Hat1 Hat) as ->.
    destruct (pr_list _ _ _ _ _ _ _ Hr) as (l' & Hp & Hat' & _). exists l'. eexists.
    split; [exact Hat'|]. rewrite Hp. case_decide; [done|]. apply elem_of_app. by left.
  - exists l1, p1. split; [|done]. by apply (pr_lists _ _ _ _ _ _ _ Hr).
Qed.

Lemma stored_in_new db db' h l0 p dup upd : storable h ->
  put_rel db db' (sbh_of h) l0 p dup upd -> stored_in db' h dup.
Proof.
  intros Hst Hr. unfold stored_in. rewrite (st_hash _ Hst). split; [apply Hr|].
  destruct (pr_list _ _ _ _ _ _ _ Hr) as (l' & _ & Hat & Hin). eauto.
Qed.

Lemma need_cons bc a l height : need bc (a :: l) height = (if has_height bc height a then 1 else 0) + need bc l height.
Proof. unfold need. simpl. destruct (has_height bc height a); [by rewrite zlen_cons|done]. Qed.

Lemma room_put bc db db' a h l i l0 p dup : room bc db (a :: l) i -> heap_ bc !! a = Some h -> storable h ->
  list_at db (blockHeight_ h) l0 p -> put_rel db db' (sbh_of h) l0 p dup true -> info_at db' i ->
  room bc db' l i.
Proof.
  intros [Hi Ho Hl] Hh Hst Hat Hr Hi'. split; [done|apply Hr|]. intros height Hu.
  destruct (Hl height Hu) as (l1 & p1 & Hat1 & Hsize). rewrite need_cons in Hsize. unfold has_height in Hsize.
  rewrite Hh in Hsize. destruct (Z.eqb_spec (blockHeight_ h) height) as [E|E].
  - subst height. pose proof (list_at_det _ _ _ _ _ _ Hat1 Hat) as ->.
    destruct (pr_list _ _ _ _ _ _ _ Hr) as (l' & Hp & Hat' & _). exists l'. eexists.
    split; [exact Hat'|]. assert (zlen l' <= zlen l0 + 1); [|lia].
    unfold zlen. rewrite Hp. case_decide; [lia|]. rewrite length_app. simpl. lia.
  - exists l1, p1. split; [|lia]. apply (pr_lists _ _ _ _ _ _ _ Hr); [done| |done].
    unfold is_uint. lia.
Qed.

(** One block. *)
Lemma put_block_ok bc db a h l i : room bc db (a :: l) i -> heap_ bc !! a = Some h -> storable h ->
  exists dup db' l0 p, put_block true false (Some a) (bc, db) =
    Ok (tt, (set_heap (<[a := set_duplicateID dup h]> (heap_ bc)) bc, db')) /\
  list_at db (blockHeight_ h) l0 p /\ put_rel db db' (sbh_of h) l0 p dup true /\ room bc db' l i.
Proof.
  intros Hroom Hh Hst. destruct (rm_lists _ _ _ _ Hroom (blockHeight_ h) (st_height _ Hst)) as (l0 & p & Hat & Hsize).
  assert (zlen l0 < 128) as Hl0.
  { rewrite need_cons in Hsize. unfold has_height in Hsize. rewrite Hh, Z.eqb_refl in Hsize.
    unfold need in Hsize. pose proof (zlen_nonneg (List.filter (has_height bc (blockHeight_ h)) l)). lia. }
  destruct (putBareHeader_run (sbh_of h) true false db i l0 p (storable_put _ Hst) (rm_info _ _ _ _ Hroom)
    (rm_ordered _ _ _ _ Hroom) Hat (or_intror Hl0)) as (dup & db' & Hrun & _ & Hr & Hi').
  rewrite andb_false_r in Hi'. exists dup, db', l0, p. split.
  - unfold put_block. rewrite (node_bind_ok _ _ _ _ _ (on_chain_ok _ _ _ _ _ (deref_ok _ _ _ Hh))).
    assert (db_of (createFromBlockHeader h StoredHeader_default) db = Ok (sbh_of h, db)) as Hc
      by (unfold db_of; by rewrite createFromBlockHeader_ok).
    rewrite (node_bind_ok _ _ _ _ _ (on_db_ok _ _ _ _ _ Hc)).
    rewrite (node_bind_ok _ _ _ _ _ (on_db_ok _ _ _ _ _ Hrun)). cbv beta iota.
    apply on_chain_ok. by apply update_ok.
  - split; [done|]. split; [done|]. by eapply room_put.
Qed.

Lemma need_le bc (l : list nat) height : need bc l height <= zlen l.
Proof.
  unfold need, zlen. induction l as [|a l IH]; [done|]. simpl. destruct (has_height bc height a); simpl; lia.
Qed.

Lemma filter_height_same bc bc' (l : list nat) height : (forall x, x ∈ l -> heap_ bc' !! x = heap_ bc !! x) ->
  List.filter (has_height bc' height) l = List.filter (has_height bc height) l.
Proof.
  intros E. induction l as [|x l IH]; [done|]. simpl.
  assert (has_height bc' height x = has_height bc height x) as ->
    by (unfold has_height; by rewrite (E x) by by left).
  by rewrite IH by (intros; apply E; by right).
Qed.

Lemma need_same bc bc' (l : list nat) height : (forall x, x ∈ l -> heap_ bc' !! x = heap_ bc !! x) ->
  need bc' l height = need bc l height.
Proof. intros E. unfold need. by rewrite (filter_height_same bc bc'). Qed.

Lemma room_same bc bc' db (l : list nat) i : (forall x, x ∈ l -> heap_ bc' !! x = heap_ bc !! x) ->
  room bc db l i -> room bc' db l i.
Proof.
  intros E [Hi Ho Hl]. split; [done|done|]. intros height Hu. destruct (Hl height Hu) as (l0 & p & ? & ?).
  exists l0, p. by rewrite (need_same bc bc').
Qed.

Lemma room_tail bc db a (l : list nat) i : room bc db (a :: l) i -> room bc db l i.
Proof.
  intros [Hi Ho Hl]. split; [done|done|]. intros height Hu. destruct (Hl height Hu) as (l0 & p & ? & Hs).
  exists l0, p. split; [done|]. rewrite need_cons in Hs. case_match; lia.
Qed.

(** What the loop may be run on. *)
Record new_blocks bc (l : list nat) : Prop := {
  nb_ptrs : NoDup l;
  nb_hashes a b ha hb : a ∈ l -> b ∈ l -> a ≠ b -> heap_ bc !! a = Some ha -> heap_ bc !! b = Some hb ->
    thisHash_ ha ≠ thisHash_ hb;
  nb_headers a : a ∈ l -> exists h, heap_ bc !! a = Some h /\ (blockHeight_ h = UINT32_MAX \/ storable h);
}.

Lemma new_blocks_tail bc bc' a (l : list nat) : (forall x, x ∈ l -> heap_ bc' !! x = heap_ bc !! x) ->
  new_blocks bc (a :: l) -> new_blocks bc' l.
Proof.
  intros E [N1 N2 N3]. apply NoDup_cons in N1 as [_ N1]. split; [done| |].
  - intros x y hx hy Hx Hy. rewrite (E x Hx), (E y Hy). apply N2; by right.
  - intros x Hx. rewrite (E x Hx). apply N3. by right.
Qed.

(** What the loop does. *)
Record new_put bc db bc' db' (l : list nat) : Prop := {
  np_tables : bc' = set_heap (heap_ bc') bc;
  np_others x : x ∉ l -> heap_ bc' !! x = heap_ bc !! x;
  np_put a h : a ∈ l -> heap_ bc !! a = Some h -> blockHeight_ h ≠ UINT32_MAX ->
    exists dup, heap_ bc' !! a = Some (set_duplicateID dup h) /\ stored_in db' h dup;
  np_kept a h : a ∈ l -> heap_ bc !! a = Some h -> blockHeight_ h = UINT32_MAX -> heap_ bc' !! a = Some h;
  np_stored h dup : is_uint 32 (blockHeight_ h) ->
    (forall a ha, a ∈ l -> heap_ bc !! a = Some ha -> thisHash_ ha ≠ thisHash_ h) ->
    stored_in db h dup -> stored_in db' h dup;
}.

Lemma new_put_skip bc db bc' db' a (l : list nat) : a ∉ l ->
  (forall h, heap_ bc !! a = Some h -> blockHeight_ h = UINT32_MAX) ->
  new_put bc db bc' db' l -> new_put bc db bc' db' (a :: l).
Proof.
  intros Ha Hmax [N1 N2 N3 N4 N5]. split; [done| | | |].
  - intros x [? ?]%not_elem_of_cons. by apply N2.
  - intros x h [->|Hx]%elem_of_cons Hh Hne; [by destruct Hne; apply Hmax|by apply N3].
  - intros x h [->|Hx]%elem_of_cons Hh Hm; [by rewrite N2|by eapply N4].
  - intros h dup Hu Hno. apply N5; [done|]. intros x hx Hx. apply Hno. by right.
Qed.

Lemma new_put_step bc db db1 bc' db' a h l0 p dup (l : list nat) :
  new_blocks bc (a :: l) -> heap_ bc !! a = Some h -> storable h -> list_at db (blockHeight_ h) l0 p ->
  put_rel db db1 (sbh_of h) l0 p dup true ->
  new_put (set_heap (<[a := set_duplicateID dup h]> (heap_ bc)) bc) db1 bc' db' l ->
  new_put bc db bc' db' (a :: l).
Proof.
  intros Hnb Hh Hst Hat Hr Hnp. pose proof (nb_ptrs _ _ Hnb) as [Ha Hnd]%NoDup_cons.
  set (bc1 := set_heap _ bc) in *.
  assert (forall x, x ≠ a -> heap_ bc1 !! x = heap_ bc !! x) as E by (intros x Hx; by apply lookup_insert_ne).
  assert (heap_ bc1 !! a = Some (set_duplicateID dup h)) as Ea by apply lookup_insert_eq.
  assert (is_uint 32 (blockHeight_ h)) as Hu by (pose proof (st_height _ Hst); unfold is_uint; lia).
  assert (blockHeight_ h ≠ UINT32_MAX) as Hmax by (pose proof (st_height _ Hst); unfold UINT32_MAX; lia).
  assert (forall b hb, b ∈ l -> heap_ bc1 !! b = Some hb -> b ≠ a /\ heap_ bc !! b = Some hb) as El.
  { intros b hb Hb Hhb. assert (b ≠ a) by by intros ->. by rewrite E in Hhb. }
  split.
  - rewrite (np_tables _ _ _ _ _ Hnp). done.
  - intros x [? ?]%not_elem_of_cons. rewrite (np_others _ _ _ _ _ Hnp) by done. by apply E.
  - intros x hx Hx Hhx Hne. apply elem_of_cons in Hx as [->|Hx].
    + simplify_eq. exists dup. rewrite (np_others _ _ _ _ _ Hnp) by done. split; [done|].
      apply (np_stored _ _ _ _ _ Hnp); [done| |by eapply stored_in_new].
      intros b hb Hb Hhb. destruct (El b hb Hb Hhb) as [? Hhb'].
      by eapply (nb_hashes _ _ Hnb b a); [right|left|..].
    + apply (np_put _ _ _ _ _ Hnp); [done| |done]. rewrite E; [done|]. by intros ->.
  - intros x hx Hx Hhx Hm. apply elem_of_cons in Hx as [->|Hx]; [by simplify_eq|].
    eapply (np_kept _ _ _ _ _ Hnp); [done| |done]. rewrite E; [done|]. by intros ->.
  - intros h1 dup1 Hu1 Hno Hs1. apply (np_stored _ _ _ _ _ Hnp); [done| |].
    + intros b hb Hb Hhb. destruct (El b hb Hb Hhb) as [? Hhb']. apply (Hno b); [by right|done].
    + eapply stored_in_put; [exact Hst|exact Hr|exact Hat| |done|exact Hs1].
      intros E1. by apply (Hno a h); [left|done|].
Qed.

Lemma put_new_loop_ok i (l : list nat) : forall bc db, new_blocks bc l -> room bc db l i -> exists bc' db',
  put_new_loop (Some <$> l) (bc, db) =
    Ok (Some <$> List.filter (has_height bc UINT32_MAX) l, (bc', db')) /\
  new_put bc db bc' db' l /\ info_at db' i.
Proof.
  induction l as [|a l IH]; intros bc db Hnb Hroom.
  { exists bc, db. split; [done|]. split; [|apply Hroom]. split; try done; try by intros ? ? ?%elem_of_nil.
    by destruct bc. }
  pose proof (nb_ptrs _ _ Hnb) as [Ha Hnd]%NoDup_cons.
  destruct (nb_headers _ _ Hnb a) as (h & Hh & Hcase); [by left|]. simpl put_new_loop.
  rewrite (node_bind_ok _ _ _ _ _ (on_chain_ok _ _ _ _ _ (deref_ok _ _ _ Hh))).
  simpl List.filter. unfold has_height at 1. rewrite Hh.
  destruct (Z.eqb_spec (blockHeight_ h) UINT32_MAX) as [Em|Em]; cbn [negb].
  - destruct (IH bc db) as (bc' & db' & Hrun & Hnp & Hi).
    { by apply (new_blocks_tail bc bc a). }
    { by eapply room_tail. }
    exists bc', db'. rewrite (node_bind_ok _ _ _ _ _ Hrun). split; [done|]. split; [|done].
    apply new_put_skip; [done| |done]. intros h' Hh'. by simplify_eq.
  - destruct Hcase as [?|Hst]; [done|].
    destruct (put_block_ok bc db a h l i Hroom Hh Hst) as (dup & db1 & l0 & p & Hrun1 & Hat & Hr & Hroom1).
    rewrite (node_bind_ok _ _ _ _ _ Hrun1). set (bc1 := set_heap _ bc) in *.
    assert (forall x, x ∈ l -> heap_ bc1 !! x = heap_ bc !! x) as E.
    { intros x Hx. apply lookup_insert_ne. by intros ->. }
    destruct (IH bc1 db1) as (bc' & db' & Hrun & Hnp & Hi).
    { by apply (new_blocks_tail bc bc1 a). }
    { by apply (room_same bc). }
    exists bc', db'. split.
    + etrans; [exact Hrun|]. by rewrite (filter_height_same bc bc1).
    + split; [|done]. by eapply new_put_step.
Qed.
End put.

(** The last write of [putNewBareHeaders]: the top block in the info. *)
Section top_info.
Context {DB : Type} `{StoreLaws DB} `{HashFns}.

Lemma stored_in_info (db : LMDBBlockDatabase DB) v vd h dup : stored_in db h dup ->
  stored_in (mkLMDB (db_insert info_key v (headers_ db)) vd) h dup.
Proof.
  intros [Hh (l & p & Hat & Hin)]. split.
  - eapply header_at_frame; [|exact Hh]. rewrite value_at_put. by rewrite decide_False.
  - exists l, p. split; [|done]. eapply list_at_frame; [|exact Hat].
    rewrite value_at_put. by rewrite decide_False.
Qed.

Lemma put_top_ok (db : LMDBBlockDatabase DB) i ht : info_at db i -> storable ht ->
  let i' := mkSDBI (magic_ i) (blockHeight_ ht) (metaHash_ i) (thisHash_ ht) (appliedToHgt_ i)
              (armoryVer_ i) (armoryType_ i) in
  exists db', (forall bc, (if topBlkHgt_ i <=? blockHeight_ ht then on_db (putStoredDBInfo i' 0)
                           else mret tt) (bc, db) = Ok (tt, (bc, db'))) /\
    info_at db' (if topBlkHgt_ i <=? blockHeight_ ht then i' else i) /\
    forall h dup, stored_in db h dup -> stored_in db' h dup.
Proof.
  intros Hi Hst i'. destruct (topBlkHgt_ i <=? blockHeight_ ht); [|by exists db].
  assert (sdbi_ok i') as Hok.
  { destruct Hi as [[] _]. split; try done; simpl.
    - pose proof (st_height _ Hst). unfold is_uint. lia.
    - right. rewrite (st_hash _ Hst). apply zlen_getHash256. }
  eexists. split; [intros bc; apply on_db_ok; by apply putStoredDBInfo_ok|]. split.
  - split; [done|]. rewrite value_at_put. by rewrite decide_True.
  - intros h dup. apply stored_in_info.
Qed.
End top_info.

(** ** Properties *)

Section properties.
Context {DB : Type} `{StoreLaws DB} `{HashFns}.
Implicit Types (bc : Blockchain) (db : LMDBBlockDatabase DB).

(** After [setDuplicateIDinRAM] on an organised blockchain the database
    answers, for every height of the main chain, the duplicate id of the block
    there, and the key of a transaction made with that answer leads to that
    block; above the chain the answers stay, and nothing is written. *)
Theorem setDuplicateIDinRAM_correct rank bc db t l : wf rank bc -> organized_on bc t l ->
  map_ordered (validDupByHeight_ db) -> exists db',
  setDuplicateIDinRAM (bc, db) = Ok (tt, (bc, db')) /\ headers_ db' = headers_ db /\
  forall i, 0 <= i ->
    if i <? zlen l then exists a h, a ∈ l /\ heap_ bc !! a = Some h /\ blockHeight_ h = i /\
      getValidDupIDForHeight i db' = Ok (duplicateID_ h, db') /\
      forall txIdx, key_ok (KeyTx i (duplicateID_ h) txIdx) -> i < 0xffff00 ->
        getHeaderPtrForTxRef (getBlkDataKeyNoPrefix_tx i (duplicateID_ h) txIdx) bc = Ok (Some a, bc)
    else map_find i (validDupByHeight_ db') = map_find i (validDupByHeight_ db).
Proof.
  intros Hwf Ho Hord. destruct (setDuplicateIDinRAM_run rank bc db t l Hwf Ho Hord) as (db' & Hrun & Hhd & Hin & Hout).
  exists db'. split; [done|]. split; [done|]. intros i Hi. destruct (Z.ltb_spec i (zlen l)).
  - destruct (organized_height rank bc t l i Hwf Ho) as (a & h & Hz & Ha & Hh & Hb & Hm & _); [lia|].
    exists a, h. do 3 (split; [done|]). split.
    + unfold getValidDupIDForHeight. rewrite (Hin i a (duplicateID_ h)); [done| |by exists h].
      by eapply organized_known.
    + intros txIdx Hk Hlt. rewrite (getHeaderPtrForTxRef_at bc a h) by done. by rewrite Z.eqb_refl.
  - apply Hout. intros a d Ha (h & Hh & Hm & Hb & _).
    destruct (org_marks _ _ _ Ho a h Ha Hh) as [_ E]. rewrite Hm in E. symmetry in E.
    apply bool_decide_eq_true in E. pose proof (organized_position rank _ _ _ _ _ Hwf Ho E Hh) as Hz.
    apply znth_Some_range in Hz. rewrite (zlen_heights _ _ _ Ho) in Hz. lia.
Qed.

(** C19: [putNewBareHeaders], when the database has room for the new blocks:
    every new block that has a height is stored under a duplicate id of its
    height, its header carries that id, and it is found by hash and by height
    and id; the blocks without a height stay in the list of new blocks; the
    database info gets the top block when it is not below the old one. *)
Theorem putNewBareHeaders_correct bc db l t ht i : newlyParsedBlocks_ bc = Some <$> l -> l ≠ [] ->
  new_blocks bc l -> room bc db l i -> topBlockPtr_ bc = Some t -> heap_ bc !! t = Some ht -> storable ht ->
  exists bc' db', putNewBareHeaders (bc, db) = Ok (tt, (bc', db')) /\
    newlyParsedBlocks_ bc' = Some <$> List.filter (has_height bc UINT32_MAX) l /\
    (forall a h, a ∈ l -> heap_ bc !! a = Some h -> blockHeight_ h ≠ UINT32_MAX -> exists dup,
      heap_ bc' !! a = Some (set_duplicateID dup h) /\
      getBareHeader_hash (thisHash_ h) db' =
        Ok (Some (sbh_stored (setKeyData (blockHeight_ h) dup (sbh_of h)) false), db') /\
      getBareHeader (blockHeight_ h) dup db' =
        Ok (Some (sbh_stored (setKeyData (blockHeight_ h) dup (sbh_of h)) false), db')) /\
    getStoredDBInfo 0 db' = Ok (if topBlkHgt_ i <=? blockHeight_ ht
      then mkSDBI (magic_ i) (blockHeight_ ht) (metaHash_ i) (thisHash_ ht) (appliedToHgt_ i)
             (armoryVer_ i) (armoryType_ i) else i, db').
Proof.
  intros Hnew Hne Hnb Hroom Ht Hht Hst. unfold putNewBareHeaders.
  rewrite (node_bind_ok _ _ _ _ _ (on_chain_ok _ _ _ _ _ (chain_get_ok _ _))), Hnew.
  rewrite bool_decide_false by (by intros ?%fmap_nil_inv).
  destruct (put_new_loop_ok i l bc db Hnb Hroom) as (bc1 & db1 & Hrun & Hnp & Hi).
  rewrite (node_bind_ok _ _ _ _ _ Hrun).
  rewrite (node_bind_ok _ _ _ _ _ (on_db_ok _ _ _ _ _ (getStoredDBInfo_ok _ _ Hi))).
  assert (topBlockPtr_ bc1 = Some t) as Ht1 by (by rewrite (np_tables _ _ _ _ _ Hnp)).
  unfold top. rewrite (node_bind_ok _ _ _ _ _ (on_chain_ok _ _ _ _ _ (chain_get_ok _ _))), Ht1.
  rewrite bool_decide_false by done.
  assert (exists ht1, heap_ bc1 !! t = Some ht1 /\ blockHeight_ ht1 = blockHeight_ ht /\ thisHash_ ht1 = thisHash_ ht)
    as (ht1 & Hht1 & Eh & Ehash).
  { destruct (decide (t ∈ l)) as [Hin|Hin]; [|exists ht; by rewrite (np_others _ _ _ _ _ Hnp)].
    assert (blockHeight_ ht ≠ UINT32_MAX) as Hmax by (pose proof (st_height _ Hst); unfold UINT32_MAX; lia).
    destruct (np_put _ _ _ _ _ Hnp t ht Hin Hht Hmax) as (dup & E & _). eauto. }
  rewrite (node_bind_ok _ _ _ _ _ (on_chain_ok _ _ _ _ _ (deref_ok _ _ _ Hht1))), Eh, Ehash.
  set (i' := if topBlkHgt_ i <=? blockHeight_ ht then mkSDBI (magic_ i) (blockHeight_ ht) (metaHash_ i)
    (thisHash_ ht) (appliedToHgt_ i) (armoryVer_ i) (armoryType_ i) else i).
  destruct (put_top_ok db1 i ht Hi Hst) as (db2 & Hput & Hi2 & Hkeep). fold i' in Hi2.
  assert (forall s, (_ ← (if topBlkHgt_ i <=? blockHeight_ ht then on_db (putStoredDBInfo (mkSDBI (magic_ i)
    (blockHeight_ ht) (metaHash_ i) (thisHash_ ht) (appliedToHgt_ i) (armoryVer_ i) (armoryType_ i)) 0) else mret tt);
    on_chain (chain_set (set_newlyParsed s))) (bc1, db1) = Ok (tt, (set_newlyParsed s bc1, db2))) as Hlast.
  { intros s. rewrite (node_bind_ok _ _ _ _ _ (Hput bc1)). done. }
  rewrite Hlast. eexists _, db2. split; [reflexivity|]. split; [done|].
  split; [|by apply getStoredDBInfo_ok].
  intros a h Ha Hh Hmax. destruct (np_put _ _ _ _ _ Hnp a h Ha Hh Hmax) as (dup & E & Hs).
  exists dup. split; [done|]. apply Hkeep in Hs as [Hs (l1 & p1 & Hat & Hin)].
  split; [exact Hs|]. by eapply getBareHeader_found.
Qed.
End properties.

(** ** Witnesses *)

Lemma setDuplicateIDinRAM_correct_witness : exists db',
  setDuplicateIDinRAM (w_state w_done, w_table []) = Ok (tt, (w_state w_done, db')) /\
  headers_ db' = headers_ (w_table []) /\
  forall i, 0 <= i ->
    if i <? zlen [2%nat; 1%nat] then exists a h, a ∈ [2%nat; 1%nat] /\
      heap_ (w_state w_done) !! a = Some h /\ blockHeight_ h = i /\
      getValidDupIDForHeight i db' = Ok (duplicateID_ h, db') /\
      forall txIdx, key_ok (KeyTx i (duplicateID_ h) txIdx) -> i < 0xffff00 ->
        getHeaderPtrForTxRef (getBlkDataKeyNoPrefix_tx i (duplicateID_ h) txIdx) (w_state w_done) =
          Ok (Some a, w_state w_done)
    else map_find i (validDupByHeight_ db') = map_find i (validDupByHeight_ (w_table [])).
Proof.
  exact (setDuplicateIDinRAM_correct w_rank (w_state w_done) (w_table []) 2 _ w_done_wf w_done_organized I).
Defined.

(** A genesis block and a block on it, under the hashes of their bytes. *)
Section hashed.
#[local] Instance w_hashes : HashFns := toy_hashes.

Definition x_bytes (prev : list byte) (n : Z) : list byte :=
  replicate 4 (z2b 0) ++ prev ++ replicate 36 (z2b n) ++ map z2b [255; 255; 0; 29] ++ replicate 4 (z2b 3).

Definition x_genesis : list byte := x_bytes EmptyHash 1.
Definition x_next : list byte := x_bytes (getHash256 x_genesis) 2.

Definition x_header (data : list byte) (id : Z) : BlockHeader :=
  match createBlockHeader data 285 1 0 8 (getHash256 data) id with
  | Ok h => h
  | Err _ => BlockHeader_default
  end.

Definition x_setup : Chain () :=
  g ← make_shared (x_header x_genesis 0);
  b ← make_shared (x_header x_next 1);
  _ ← addNewBlock (getHash256 x_genesis) g;
  _ ← addBlocksInBulk [(getHash256 x_next, b)];
  _ ← organize;
  mret tt.

Definition x_state : Blockchain :=
  match x_setup (Blockchain_new (getHash256 x_genesis)) with Ok (_, bc) => bc | Err _ => Blockchain_new [] end.

Definition storable_b (h : BlockHeader) : bool :=
  isInitialized_ h && (zlen (dataCopy_ h) =? HEADER_SIZE) && bool_decide (0 <= blockHeight_ h < 2 ^ 24) &&
  bool_decide (is_uint 32 (numTx_ h)) &&
  match numBlockBytes_ h with Some n => bool_decide (is_uint 32 n) | None => false end &&
  bool_decide (is_uint 64 (blkFileOffset_ h)) && bool_decide (is_uint 32 (uniqueID_ h)) &&
  bool_decide (thisHash_ h = getHash256 (dataCopy_ h)).

Lemma storable_b_sound h : storable_b h = true -> storable h.
Proof.
  unfold storable_b. rewrite !andb_true_iff, !bool_decide_eq_true, Z.eqb_eq.
  intros [[[[[[[H1 H2] H3] H4] H5] H6] H7] H8]. split; try done.
  destruct (numBlockBytes_ h) as [n|]; [|done]. exists n. by apply bool_decide_eq_true in H5.
Qed.

Definition x_at (a : nat) : BlockHeader := default BlockHeader_default (heap_ x_state !! a).

Lemma x_cases a : a ∈ [0%nat; 1%nat] -> a = 0%nat \/ a = 1%nat.
Proof. rewrite !elem_of_cons, elem_of_nil. tauto. Qed.

Lemma x_heap a : a ∈ [0%nat; 1%nat] -> heap_ x_state !! a = Some (x_at a) /\ storable (x_at a).
Proof.
  intros Ha. split.
  - destruct (x_cases a Ha) as [->| ->]; vm_compute; reflexivity.
  - apply storable_b_sound.
    destruct (x_cases a Ha) as [->| ->]; vm_compute; reflexivity.
Qed.

Lemma x_new_blocks : new_blocks x_state [0%nat; 1%nat].
Proof.
  assert (thisHash_ (x_at 0) ≠ thisHash_ (x_at 1)) as Hne
    by (apply (bool_decide_eq_false_1 _); vm_compute; reflexivity).
  split.
  - apply (bool_decide_eq_true_1 _). reflexivity.
  - intros a b ha hb Ha Hb Hab. rewrite (proj1 (x_heap a Ha)), (proj1 (x_heap b Hb)).
    intros E1%(inj Some) E2%(inj Some). subst ha hb.
    destruct (x_cases a Ha) as [->| ->], (x_cases b Hb) as [->| ->].
    + by destruct Hab.
    + exact Hne.
    + exact (not_eq_sym Hne).
    + by destruct Hab.
  - intros a Ha. exists (x_at a). split; [by apply x_heap|right; by apply x_heap].
Qed.

Lemma x_room : room x_state (w_table []) [0%nat; 1%nat] w_info.
Proof.
  split; [apply w_table_info|done|]. intros height _. exists [], UINT8_MAX. split.
  - split; [apply list_ok_nil|]. by rewrite getStoredHeadHgtList_eq.
  - pose proof (need_le x_state [0%nat; 1%nat] height) as Hle.
    change (zlen [0%nat; 1%nat]) with 2 in Hle. rewrite zlen_nil. lia.
Qed.

Lemma putNewBareHeaders_correct_witness : exists bc' db',
  putNewBareHeaders (x_state, w_table []) = Ok (tt, (bc', db')) /\
  newlyParsedBlocks_ bc' = Some <$> List.filter (has_height x_state UINT32_MAX) [0%nat; 1%nat] /\
  (forall a h, a ∈ [0%nat; 1%nat] -> heap_ x_state !! a = Some h -> blockHeight_ h ≠ UINT32_MAX -> exists dup,
    heap_ bc' !! a = Some (set_duplicateID dup h) /\
    getBareHeader_hash (thisHash_ h) db' =
      Ok (Some (sbh_stored (setKeyData (blockHeight_ h) dup (sbh_of h)) false), db') /\
    getBareHeader (blockHeight_ h) dup db' =
      Ok (Some (sbh_stored (setKeyData (blockHeight_ h) dup (sbh_of h)) false), db')) /\
  getStoredDBInfo 0 db' = Ok (if topBlkHgt_ w_info <=? blockHeight_ (x_at 1)
    then mkSDBI (magic_ w_info) (blockHeight_ (x_at 1)) (metaHash_ w_info) (thisHash_ (x_at 1))
           (appliedToHgt_ w_info) (armoryVer_ w_info) (armoryType_ w_info) else w_info, db').
Proof.
  assert (1%nat ∈ [0%nat; 1%nat]) as Hin by (right; left).
  assert (newlyParsedBlocks_ x_state = Some <$> [0%nat; 1%nat]) as Hnew by (vm_compute; reflexivity).
  assert (topBlockPtr_ x_state = Some 1%nat) as Htop by (vm_compute; reflexivity).
  exact (putNewBareHeaders_correct x_state (w_table []) [0%nat; 1%nat] 1 (x_at 1) w_info Hnew ltac:(done)
    x_new_blocks x_room Htop (proj1 (x_heap 1 Hin)) (proj2 (x_heap 1 Hin))).
Defined.

(** ** Orphans at height 0

    A rebuild sets the height of every header to 0; an orphan keeps it, and
    [putNewBareHeaders] then writes it into the list of the genesis block's
    height.  Here block 9, whose parent is unknown. *)
Definition w_orphan : Node (DB := AssocDB) (list (Z * list byte)) :=
  _ ← on_chain w_setup;
  _ ← on_chain forceOrganize;
  _ ← putNewBareHeaders;
  '(hhl, _) ← on_db (getStoredHeadHgtList 0);
  mret (dupAndHashList_ hhl).

Example w_orphan_at_0 : exists l s, w_orphan (Blockchain_new (w_hash 1), w_table []) = Ok (l, s) /\
  map fst l = [0; 1].
Proof. eexists _, _. vm_compute. done. Qed.
End hashed.
