(* ===== verification/ScriptUtils.v ===== *)
(** * ScriptUtils: output and input scripts, script addresses

    The script functions of cppForSwig/BtcUtils.h and BtcUtils.cpp:
    classification of outputs and inputs, multisig scripts, push-only scripts,
    script addresses and their reference form (cppForSwig/TxOutScrRef.h). *)

From S2P Require Import Prelude BinaryData BinaryIO Hashing.

(** ** Types and constants *)

Inductive TXOUT_SCRIPT_TYPE : Set :=
  | TXOUT_SCRIPT_STDHASH160 | TXOUT_SCRIPT_STDPUBKEY65 | TXOUT_SCRIPT_STDPUBKEY33
  | TXOUT_SCRIPT_MULTISIG | TXOUT_SCRIPT_P2SH | TXOUT_SCRIPT_NONSTANDARD
  | TXOUT_SCRIPT_P2WPKH | TXOUT_SCRIPT_P2WSH | TXOUT_SCRIPT_OPRETURN.

#[export] Instance txout_type_dec : EqDecision TXOUT_SCRIPT_TYPE.
Proof. solve_decision. Defined.

Inductive TXIN_SCRIPT_TYPE : Set :=
  | TXIN_SCRIPT_STDUNCOMPR | TXIN_SCRIPT_STDCOMPR | TXIN_SCRIPT_COINBASE
  | TXIN_SCRIPT_SPENDPUBKEY | TXIN_SCRIPT_SPENDMULTI | TXIN_SCRIPT_SPENDP2SH
  | TXIN_SCRIPT_NONSTANDARD | TXIN_SCRIPT_WITNESS
  | TXIN_SCRIPT_P2WPKH_P2SH | TXIN_SCRIPT_P2WSH_P2SH.

#[export] Instance txin_type_dec : EqDecision TXIN_SCRIPT_TYPE.
Proof. solve_decision. Defined.

Definition SCRIPT_PREFIX_P2WPKH : Z := 0x90.
Definition SCRIPT_PREFIX_P2WSH : Z := 0x95.
Definition SCRIPT_PREFIX_MULTISIG : Z := 0xfe.
Definition SCRIPT_PREFIX_NONSTD : Z := 0xff.
Definition SCRIPT_PREFIX_OPRETURN : Z := 0x6a.

Definition OP_PUSHDATA1 : Z := 76.
Definition OP_PUSHDATA2 : Z := 77.
Definition OP_PUSHDATA4 : Z := 78.

(** The two address version bytes of [BlockDataManagerConfig]. *)
Record Config := mkConfig { pubkeyHashPrefix_ : Z; scriptHashPrefix_ : Z }.

(** [s[i] == v], and the short-circuit conjunction of such tests. *)
Definition byte_is (s : list byte) (i v : Z) : result bool := b ← at_ s i; Ok (b2z b =? v).

Declare Scope guard_scope.
Delimit Scope guard_scope with guard.
Notation "a '&&&' b" := (x ← a; if (x : bool) then b else Ok false)
  (at level 40, left associativity) : guard_scope.
Notation "a '|||' b" := (x ← a; if (x : bool) then Ok true else b)
  (at level 50, left associativity) : guard_scope.
Open Scope guard_scope.

(** [if (c) return t; else rest]. *)
Definition rif {A} (c : result bool) (t rest : result A) : result A :=
  b ← c; if (b : bool) then t else rest.

Section scripts.
Context `{HashFns}.

(** ** Multisig scripts *)

(** The key loop: the keys read before an early return. *)
Fixpoint read_pubkeys (n : nat) : Reader (bool * list (list byte)) :=
  match n with
  | O => mret (true, [])
  | S n =>
      nextSz ← brr_get_uint8_t;
      if negb (nextSz =? 0x41) && negb (nextSz =? 0x21) then mret (false, [])
      else
        pk ← brr_take nextSz;
        '(ok, rest) ← read_pubkeys n;
        mret (ok, pk :: rest)
  end.

(** The returned [M], and [pkList] (entries not read stay empty). *)
Definition getMultisigPubKeyList (script : list byte) : result (Z * list (list byte)) :=
  last ← at_ script (-1);
  if negb (b2z last =? 0xae) then Ok (0, [])
  else
    M ← at_ script 0;
    N ← at_ script (-2);
    let M := b2z M in let N := b2z N in
    if (M <? 81) || (96 <? M) || (N <? 81) || (96 <? N) then Ok (0, [])
    else
      let M := wrap 8 (M - 80) in let N := wrap 8 (N - 80) in
      '(res, _) ← read_pubkeys (Z.to_nat N) (brr_advance 1 (brr_setNewData script));
      let '(ok, pks) := (res : bool * list (list byte)) in
      Ok (if ok then M else 0, pks ++ replicate (Z.to_nat N - length pks) []).

Definition getMultisigAddrList (script : list byte) : result (Z * list (list byte)) :=
  '(M, pkList) ← getMultisigPubKeyList script;
  if M =? 0 then Ok (0, []) else Ok (M, map getHash160 pkList).

(** [sort] with [operator<]. *)
Definition bd_le (a b : list byte) : Prop := less b a = false.
#[export] Instance bd_le_dec a b : Decision (bd_le a b).
Proof. unfold bd_le. apply _. Defined.

Definition getMultisigUniqueKey (script : list byte) : result (list byte) :=
  '(M, a160List) ← getMultisigAddrList script;
  if M =? 0 then Ok []
  else
    let bw := bw_put_uint8_t (zlen a160List) (bw_put_uint8_t M bw_new) in
    Ok (theString_ (foldl (fun w a => bw_put_BinaryData a w) bw (merge_sort bd_le a160List))).

Definition isMultisigScript (script : list byte) : result bool :=
  key ← getMultisigUniqueKey script; Ok (0 <? zlen key).

Definition getMultisigAddr160InfoStr (script : list byte) : result (list byte) :=
  '(M, outVect) ← getMultisigAddrList script;
  let bw := bw_put_uint8_t (zlen outVect) (bw_put_uint8_t M bw_new) in
  Ok (theString_ (foldl (fun w a => bw_put_BinaryData a w) bw outVect)).

Definition getMultisigPubKeyInfoStr (script : list byte) : result (list byte) :=
  '(M, outVect) ← getMultisigPubKeyList script;
  let bw := bw_put_uint8_t (zlen outVect) (bw_put_uint8_t M bw_new) in
  Ok (theString_ (foldl (fun w a => bw_put_BinaryData a w) bw outVect)).

(** ** Output scripts *)

Definition getTxOutScriptType (s : list byte) : result TXOUT_SCRIPT_TYPE :=
  let sz := zlen s in
  rif (Ok ((0 <? sz) && (sz <? 81)) &&& byte_is s 0 0x6a) (Ok TXOUT_SCRIPT_OPRETURN)
  (if sz <? 21 then Ok TXOUT_SCRIPT_NONSTANDARD else
  rif (Ok (sz =? 22) &&& byte_is s 0 0x00 &&& byte_is s 1 0x14) (Ok TXOUT_SCRIPT_P2WPKH)
  (rif (Ok (sz =? 34) &&& byte_is s 0 0x00 &&& byte_is s 1 0x20) (Ok TXOUT_SCRIPT_P2WSH)
  (rif (Ok (sz =? 25) &&& byte_is s 0 0x76 &&& byte_is s 1 0xa9 &&& byte_is s 2 0x14 &&&
        byte_is s (-2) 0x88 &&& byte_is s (-1) 0xac) (Ok TXOUT_SCRIPT_STDHASH160)
  (rif (Ok (sz =? 67) &&& byte_is s 0 0x41 &&& byte_is s 1 0x04 &&& byte_is s (-1) 0xac)
        (Ok TXOUT_SCRIPT_STDPUBKEY65)
  (rif (Ok (sz =? 35) &&& byte_is s 0 0x21 &&& (byte_is s 1 0x02 ||| byte_is s 1 0x03) &&&
        byte_is s (-1) 0xac) (Ok TXOUT_SCRIPT_STDPUBKEY33)
  (rif (Ok (sz =? 23) &&& byte_is s 0 0xa9 &&& byte_is s 1 0x14 &&& byte_is s (-1) 0x87)
        (Ok TXOUT_SCRIPT_P2SH)
  (rif (byte_is s (-1) 0xae &&& isMultisigScript s) (Ok TXOUT_SCRIPT_MULTISIG)
  (Ok TXOUT_SCRIPT_NONSTANDARD)))))))).

(** The argument [type] defaults to non-standard, which asks for a new look. *)
Definition look_up_type (script : list byte) (type : TXOUT_SCRIPT_TYPE) : result TXOUT_SCRIPT_TYPE :=
  if bool_decide (type = TXOUT_SCRIPT_NONSTANDARD) then getTxOutScriptType script else Ok type.

Definition getTxOutRecipientAddr (script : list byte) (type : TXOUT_SCRIPT_TYPE) : result (list byte) :=
  type ← look_up_type script type;
  Ok match type with
     | TXOUT_SCRIPT_STDHASH160 => getSliceCopy script 3 20
     | TXOUT_SCRIPT_STDPUBKEY65 => getHash160 (getSliceCopy script 1 65)
     | TXOUT_SCRIPT_STDPUBKEY33 => getHash160 (getSliceCopy script 1 33)
     | TXOUT_SCRIPT_P2SH => getSliceCopy script 2 20
     | TXOUT_SCRIPT_P2WSH => getSliceCopy script 2 32
     | TXOUT_SCRIPT_P2WPKH => getSliceCopy script 2 20
     | _ => BadAddress
     end.

(** [bw.put_uint8_t(prefix); bw.put_BinaryData(payload); return bw.getData()]. *)
Definition prefixed (prefix : Z) (payload : list byte) : list byte :=
  theString_ (bw_put_BinaryData payload (bw_put_uint8_t prefix bw_new)).

Definition getTxOutScrAddr (cfg : Config) (script : list byte) (type : TXOUT_SCRIPT_TYPE)
    : result (list byte) :=
  type ← look_up_type script type;
  match type with
  | TXOUT_SCRIPT_STDHASH160 => Ok (prefixed (pubkeyHashPrefix_ cfg) (getSliceCopy script 3 20))
  | TXOUT_SCRIPT_P2WPKH => Ok (prefixed SCRIPT_PREFIX_P2WPKH (getSliceCopy script 2 20))
  | TXOUT_SCRIPT_P2WSH => Ok (prefixed SCRIPT_PREFIX_P2WSH (getSliceCopy script 2 32))
  | TXOUT_SCRIPT_STDPUBKEY65 =>
      Ok (prefixed (pubkeyHashPrefix_ cfg) (getHash160 (getSliceCopy script 1 65)))
  | TXOUT_SCRIPT_STDPUBKEY33 =>
      Ok (prefixed (pubkeyHashPrefix_ cfg) (getHash160 (getSliceCopy script 1 33)))
  | TXOUT_SCRIPT_P2SH => Ok (prefixed (scriptHashPrefix_ cfg) (getSliceCopy script 2 20))
  | TXOUT_SCRIPT_NONSTANDARD => Ok (prefixed SCRIPT_PREFIX_NONSTD (getHash160 script))
  | TXOUT_SCRIPT_MULTISIG =>
      key ← getMultisigUniqueKey script; Ok (prefixed SCRIPT_PREFIX_MULTISIG key)
  | TXOUT_SCRIPT_OPRETURN =>
      let msg_pos := if 77 <? zlen script then 3 else if 1 <? zlen script then 2 else 1 in
      Ok (prefixed SCRIPT_PREFIX_NONSTD (getSliceCopy script msg_pos (zlen script - msg_pos)))
  end.

(** [TxOutScriptRef]: the prefix and the referenced bytes. *)
Record TxOutScriptRef := mkScrRef { type_ : Z; scriptRef_ : list byte }.

Definition getScrAddr (r : TxOutScriptRef) : list byte :=
  theString_ (bw_put_BinaryData (scriptRef_ r) (bw_put_uint8_t (type_ r) bw_new)).

Definition scrref_setRef (bd : list byte) : result TxOutScriptRef :=
  b ← at_ bd 0; Ok {| type_ := b2z b; scriptRef_ := getSliceCopy bd 1 (zlen bd - 1) |}.

Definition scrref_eq (a b : TxOutScriptRef) : bool :=
  if negb (type_ a =? type_ b) then false else equal (scriptRef_ a) (scriptRef_ b).

Definition scrref_lt (a b : TxOutScriptRef) : bool :=
  if type_ a =? type_ b then less (scriptRef_ a) (scriptRef_ b) else type_ a <? type_ b.

Definition getTxOutScrAddrNoCopy (cfg : Config) (script : list byte) : result TxOutScriptRef :=
  type ← getTxOutScriptType script;
  match type with
  | TXOUT_SCRIPT_STDHASH160 => Ok (mkScrRef (pubkeyHashPrefix_ cfg) (getSliceCopy script 3 20))
  | TXOUT_SCRIPT_P2WPKH => Ok (mkScrRef SCRIPT_PREFIX_P2WPKH (getSliceCopy script 2 20))
  | TXOUT_SCRIPT_P2WSH => Ok (mkScrRef SCRIPT_PREFIX_P2WSH (getSliceCopy script 2 32))
  | TXOUT_SCRIPT_STDPUBKEY65 =>
      Ok (mkScrRef (pubkeyHashPrefix_ cfg) (getHash160 (getSliceCopy script 1 65)))
  | TXOUT_SCRIPT_STDPUBKEY33 =>
      Ok (mkScrRef (pubkeyHashPrefix_ cfg) (getHash160 (getSliceCopy script 1 33)))
  | TXOUT_SCRIPT_P2SH => Ok (mkScrRef (scriptHashPrefix_ cfg) (getSliceCopy script 2 20))
  | TXOUT_SCRIPT_NONSTANDARD => Ok (mkScrRef SCRIPT_PREFIX_NONSTD (getHash160 script))
  | TXOUT_SCRIPT_MULTISIG =>
      key ← getMultisigUniqueKey script; Ok (mkScrRef SCRIPT_PREFIX_MULTISIG key)
  | TXOUT_SCRIPT_OPRETURN =>
      let size := zlen script in
      let pos := 1 + (if 77 <? size then 2 else 0) + (if 1 <? size then 1 else 0) in
      Ok (mkScrRef SCRIPT_PREFIX_OPRETURN (getSliceCopy script pos (size - pos)))
  end.

(** ** Push-only scripts *)

(** [brr.rewind(1); brr.get_BinaryDataRef(1)]: the opcode itself is pushed. *)
Definition take_opcode : Reader (list byte) := fun r => brr_take 1 (brr_rewind 1 r).

(** One round of the loop: [None] is the return of an empty vector. *)
Definition split_step : Reader (option (list byte)) :=
  nextOp ← brr_get_uint8_t;
  if nextOp =? 0 then bs ← take_opcode; mret (Some bs)
  else if nextOp <? 76 then bs ← brr_take nextOp; mret (Some bs)
  else if nextOp =? 76 then nb ← brr_get_uint8_t; bs ← brr_take nb; mret (Some bs)
  else if nextOp =? 77 then nb ← brr_get_uint16_t LE; bs ← brr_take nb; mret (Some bs)
  else if nextOp =? 78 then
    nb ← brr_get_uint32_t LE; bs ← brr_take (wrap 16 nb); mret (Some bs)
  else if (78 <? nextOp) && (nextOp <? 97) && negb (nextOp =? 80) then
    bs ← take_opcode; mret (Some bs)
  else mret None.

(** Every round consumes a byte, so [fuel] is the size of the script. *)
Fixpoint split_loop (fuel : nat) (r : BinaryRefReader) : result (option (list (list byte))) :=
  if brr_getSizeRemaining r =? 0 then Ok (Some [])
  else
    match fuel with
    | O => Err LogicError
    | S fuel =>
        '(op, r) ← split_step r;
        match op with
        | None => Ok None
        | Some bs =>
            rest ← split_loop fuel r;
            Ok match rest with Some l => Some (bs :: l) | None => None end
        end
    end.

Definition splitPushOnlyScriptRefs (script : list byte) : result (list (list byte)) :=
  ops ← split_loop (length script) (brr_setNewData script); Ok (default [] ops).

Definition splitPushOnlyScript (script : list byte) : result (list (list byte)) :=
  refs ← splitPushOnlyScriptRefs script; Ok (map (fun r => copyFrom r (zlen r)) refs).

Definition getLastPushDataInScript (script : list byte) : result (list byte) :=
  refs ← splitPushOnlyScriptRefs script; Ok (default [] (last refs)).

Definition getPushDataHeader (data : list byte) : result (list byte) :=
  let sz := zlen data in
  if sz <=? 75 then Ok (theString_ (bw_put_uint8_t (wrap 8 sz) bw_new))
  else if sz <? 2 ^ 8 - 1 then
    Ok (theString_ (bw_put_uint8_t (wrap 8 sz) (bw_put_uint8_t OP_PUSHDATA1 bw_new)))
  else if sz <? 2 ^ 16 - 1 then
    Ok (theString_ (bw_put_uint16_t (wrap 16 sz) LE (bw_put_uint8_t OP_PUSHDATA2 bw_new)))
  else if sz <? 2 ^ 32 - 1 then
    Ok (theString_ (bw_put_uint32_t (wrap 32 sz) LE (bw_put_uint8_t OP_PUSHDATA4 bw_new)))
  else Err RuntimeError.

(** ** Input scripts *)

Definition getTxInScriptType (script prevTxHash : list byte) : result TXIN_SCRIPT_TYPE :=
  if equal prevTxHash EmptyHash then Ok TXIN_SCRIPT_COINBASE
  else if zlen script =? 0 then Ok TXIN_SCRIPT_WITNESS
  else
  rif (Ok (zlen script =? 23) &&& byte_is script 1 0x00 &&& byte_is script 2 0x14)
    (Ok TXIN_SCRIPT_P2WPKH_P2SH)
  (rif (Ok (zlen script =? 35) &&& byte_is script 1 0x00 &&& byte_is script 2 0x20)
    (Ok TXIN_SCRIPT_P2WSH_P2SH)
  (lastPush ← getLastPushDataInScript script;
   ty ← getTxOutScriptType lastPush;
   if negb (bool_decide (ty = TXOUT_SCRIPT_NONSTANDARD)) then Ok TXIN_SCRIPT_SPENDP2SH
   else
     (* the [if(script[0]==0x00)] block: [Some] is a return from it *)
     early ← (z ← byte_is script 0 0x00;
              if (z : bool) then
                splitScr ← splitPushOnlyScriptRefs script;
                if bool_decide (splitScr = []) then Ok (Some TXIN_SCRIPT_NONSTANDARD)
                else
                  m ← byte_is script 2 0x30 &&& byte_is script 4 0x02;
                  Ok (if (m : bool) then Some TXIN_SCRIPT_SPENDMULTI else None)
              else Ok None);
     match early with
     | Some t => Ok t
     | None =>
         sig ← byte_is script 1 0x30 &&& byte_is script 3 0x02;
         if negb (sig : bool) then Ok TXIN_SCRIPT_NONSTANDARD
         else
           b2 ← at_ script 2;
           let sigSize := b2z b2 + 4 in
           if zlen script =? sigSize then Ok TXIN_SCRIPT_SPENDPUBKEY
           else if zlen script =? sigSize + 66 then Ok TXIN_SCRIPT_STDUNCOMPR
           else if zlen script =? sigSize + 34 then Ok TXIN_SCRIPT_STDCOMPR
           else Ok TXIN_SCRIPT_NONSTANDARD
     end)).

Definition getTxInAddrFromType (script : list byte) (type : TXIN_SCRIPT_TYPE) : result (list byte) :=
  match type with
  | TXIN_SCRIPT_STDUNCOMPR =>
      if zlen script <? 65 then Err BlockDeserializing
      else Ok (getHash160 (getSliceCopy script (-65) 65))
  | TXIN_SCRIPT_STDCOMPR =>
      if zlen script <? 33 then Err BlockDeserializing
      else Ok (getHash160 (getSliceCopy script (-33) 33))
  | TXIN_SCRIPT_SPENDP2SH =>
      pushVect ← splitPushOnlyScriptRefs script;
      match last pushVect with
      | Some p => Ok (getHash160 p)
      | None => Err UB
      end
  | _ => Ok BadAddress
  end.

Definition getTxInAddr (script prevTxHash : list byte) (type : TXIN_SCRIPT_TYPE) : result (list byte) :=
  type ← (if bool_decide (type = TXIN_SCRIPT_NONSTANDARD) then getTxInScriptType script prevTxHash
          else Ok type);
  getTxInAddrFromType script type.
End scripts.

(** ** Facts about guards and bytes *)

Lemma and_true (a b : result bool) : a &&& b = Ok true <-> a = Ok true /\ b = Ok true.
Proof. destruct a as [[]|]; simpl; naive_solver. Qed.

Lemma or_true (a b : result bool) :
  a ||| b = Ok true <-> a = Ok true \/ (a = Ok false /\ b = Ok true).
Proof. destruct a as [[]|]; simpl; naive_solver. Qed.

Lemma rif_Ok {A} (c : result bool) (t r : result A) x :
  rif c t r = Ok x -> (c = Ok true /\ t = Ok x) \/ (c = Ok false /\ r = Ok x).
Proof. destruct c as [[]|]; simpl; naive_solver. Qed.

Lemma byte_is_true s i v : 0 <= v < 256 -> byte_is s i v = Ok true <-> at_ s i = Ok (z2b v).
Proof.
  intros Hv. unfold byte_is. destruct (at_ s i) as [b|e]; simpl; [|done]. split.
  - intros [= Hb]. breflect. do 2 f_equal. by rewrite <- Hb, z2b_b2z.
  - intros [= ->]. by rewrite b2z_z2b_small, Z.eqb_refl.
Qed.

Lemma byte_is_at s i v b : at_ s i = Ok b -> byte_is s i v = Ok (b2z b =? v).
Proof. unfold byte_is. by intros ->. Qed.

Lemma at_back l x r : at_ (l ++ x :: r) (- (1 + zlen r)) = Ok x.
Proof.
  unfold at_. pose proof (zlen_nonneg r). zcase; [|lia].
  replace (zlen (l ++ x :: r) + - (1 + zlen r)) with (zlen l + 0) by (rewrite zlen_app, zlen_cons; lia).
  by rewrite znth_app_r by lia.
Qed.

Lemma at_last l x : at_ (l ++ [x]) (-1) = Ok x.
Proof. exact (at_back l x []). Qed.
Lemma at_last2 l x y : at_ (l ++ [x; y]) (-2) = Ok x.
Proof. exact (at_back l x [y]). Qed.

Lemma at_Some s i b : at_ s i = Ok b -> 0 <= i -> znth s i = Some b.
Proof.
  intros Ha Hi. rewrite at_nonneg in Ha by done. destruct (znth s i); [by injection Ha as ->|done].
Qed.

(** The whole string from its first bytes. *)
Lemma znth_0_cons (s : list byte) b : znth s 0 = Some b -> exists t, s = b :: t.
Proof. destruct s; [done|]. intros [= ->]. by eexists. Qed.

Lemma at_last_app s b : at_ s (-1) = Ok b -> exists t, s = t ++ [b].
Proof.
  destruct s as [|x s] using rev_ind; [done|]. rewrite at_last. intros [= ->]. by eexists.
Qed.

Lemma zlen_length (l : list byte) n : 0 <= n -> zlen l = n <-> length l = Z.to_nat n.
Proof. unfold zlen. lia. Qed.

(** ** The standard output scripts *)

Definition p2pkh_script (h : list byte) : list byte := [z2b 0x76; z2b 0xa9; z2b 0x14] ++ h ++ [z2b 0x88; z2b 0xac].
Definition p2sh_script (h : list byte) : list byte := [z2b 0xa9; z2b 0x14] ++ h ++ [z2b 0x87].
Definition p2wpkh_script (h : list byte) : list byte := [z2b 0x00; z2b 0x14] ++ h.
Definition p2wsh_script (h : list byte) : list byte := [z2b 0x00; z2b 0x20] ++ h.
Definition p2pk65_script (pk : list byte) : list byte := [z2b 0x41] ++ pk ++ [z2b 0xac].
Definition p2pk33_script (pk : list byte) : list byte := [z2b 0x21] ++ pk ++ [z2b 0xac].

(** A public key: its first byte says whether it is compressed. *)
Definition full_key (pk : list byte) : Prop := zlen pk = 65 /\ znth pk 0 = Some (z2b 0x04).
Definition compr_key (pk : list byte) : Prop :=
  zlen pk = 33 /\ (znth pk 0 = Some (z2b 0x02) \/ znth pk 0 = Some (z2b 0x03)).

Section standard.
Context `{HashFns}.

(** What each branch of the classification tests. *)
Lemma getTxOutScriptType_inv s t : getTxOutScriptType s = Ok t ->
  match t with
  | TXOUT_SCRIPT_OPRETURN => 0 < zlen s < 81 /\ znth s 0 = Some (z2b 0x6a)
  | TXOUT_SCRIPT_P2WPKH => zlen s = 22 /\ znth s 0 = Some (z2b 0x00) /\ znth s 1 = Some (z2b 0x14)
  | TXOUT_SCRIPT_P2WSH => zlen s = 34 /\ znth s 0 = Some (z2b 0x00) /\ znth s 1 = Some (z2b 0x20)
  | TXOUT_SCRIPT_STDHASH160 => zlen s = 25 /\ znth s 0 = Some (z2b 0x76) /\ znth s 1 = Some (z2b 0xa9) /\
      znth s 2 = Some (z2b 0x14) /\ at_ s (-2) = Ok (z2b 0x88) /\ at_ s (-1) = Ok (z2b 0xac)
  | TXOUT_SCRIPT_STDPUBKEY65 => zlen s = 67 /\ znth s 0 = Some (z2b 0x41) /\
      znth s 1 = Some (z2b 0x04) /\ at_ s (-1) = Ok (z2b 0xac)
  | TXOUT_SCRIPT_STDPUBKEY33 => zlen s = 35 /\ znth s 0 = Some (z2b 0x21) /\
      (znth s 1 = Some (z2b 0x02) \/ znth s 1 = Some (z2b 0x03)) /\ at_ s (-1) = Ok (z2b 0xac)
  | TXOUT_SCRIPT_P2SH => zlen s = 23 /\ znth s 0 = Some (z2b 0xa9) /\ znth s 1 = Some (z2b 0x14) /\
      at_ s (-1) = Ok (z2b 0x87)
  | TXOUT_SCRIPT_MULTISIG => isMultisigScript s = Ok true
  | TXOUT_SCRIPT_NONSTANDARD => zlen s < 21 \/ 21 <= zlen s
  end.
Proof.
  assert (forall i v, 0 <= i -> 0 <= v < 256 -> byte_is s i v = Ok true -> znth s i = Some (z2b v)) as Hz.
  { intros i v Hi Hv Hb. apply byte_is_true in Hb; [|done]. by apply at_Some. }
  unfold getTxOutScriptType. intros Ht.
  apply rif_Ok in Ht as [[Hc [= <-]]|[_ Ht]].
  { apply and_true in Hc as [[= Hc] Hb]. breflect. split; [lia|]. by apply Hz. }
  destruct (zlen s <? 21) eqn:E21; breflect; [injection Ht as <-; by left|].
  repeat (apply rif_Ok in Ht as [[Hc [= <-]]|[_ Ht]];
    [rewrite ?and_true, ?or_true in Hc; breflect; repeat match goal with H : _ /\ _ |- _ => destruct H end;
     repeat match goal with H : Ok (_ =? _) = Ok true |- _ => injection H as H; breflect end;
     repeat split; try done; try (apply Hz; done || lia); try (by apply byte_is_true)|]).
  - destruct H2 as [H2|[_ H2]]; [left|right]; by apply Hz.
  - injection Ht as <-. by right.
Qed.

(** The converse, branch by branch. *)
Ltac run_type := intros; unfold getTxOutScriptType, byte_is;
  repeat match goal with E : zlen ?s = _ |- context [zlen ?s] => rewrite E end;
  repeat match goal with E : at_ ?s ?i = _ |- context [at_ ?s ?i] => rewrite E end;
  reflexivity.

Lemma type_p2pkh s : zlen s = 25 -> at_ s 0 = Ok (z2b 0x76) -> at_ s 1 = Ok (z2b 0xa9) ->
  at_ s 2 = Ok (z2b 0x14) -> at_ s (-2) = Ok (z2b 0x88) -> at_ s (-1) = Ok (z2b 0xac) ->
  getTxOutScriptType s = Ok TXOUT_SCRIPT_STDHASH160.
Proof. run_type. Qed.

Lemma type_p2sh s : zlen s = 23 -> at_ s 0 = Ok (z2b 0xa9) -> at_ s 1 = Ok (z2b 0x14) ->
  at_ s (-1) = Ok (z2b 0x87) -> getTxOutScriptType s = Ok TXOUT_SCRIPT_P2SH.
Proof. run_type. Qed.

Lemma type_p2wpkh s : zlen s = 22 -> at_ s 0 = Ok (z2b 0x00) -> at_ s 1 = Ok (z2b 0x14) ->
  getTxOutScriptType s = Ok TXOUT_SCRIPT_P2WPKH.
Proof. run_type. Qed.

Lemma type_p2wsh s : zlen s = 34 -> at_ s 0 = Ok (z2b 0x00) -> at_ s 1 = Ok (z2b 0x20) ->
  getTxOutScriptType s = Ok TXOUT_SCRIPT_P2WSH.
Proof. run_type. Qed.

Lemma type_pk65 s : zlen s = 67 -> at_ s 0 = Ok (z2b 0x41) -> at_ s 1 = Ok (z2b 0x04) ->
  at_ s (-1) = Ok (z2b 0xac) -> getTxOutScriptType s = Ok TXOUT_SCRIPT_STDPUBKEY65.
Proof. run_type. Qed.

Lemma type_pk33 s : zlen s = 35 -> at_ s 0 = Ok (z2b 0x21) ->
  at_ s 1 = Ok (z2b 0x02) \/ at_ s 1 = Ok (z2b 0x03) ->
  at_ s (-1) = Ok (z2b 0xac) -> getTxOutScriptType s = Ok TXOUT_SCRIPT_STDPUBKEY33.
Proof. intros Hl H0 [H1|H1] H2; run_type. Qed.

Lemma zlen_1_inv (l : list byte) : zlen l = 1 -> exists a, l = [a].
Proof. intros Hl. apply zlen_length in Hl; [|lia]. destruct l as [|a [|]]; try done. by exists a. Qed.

(** Cutting a script at its template. *)
Lemma cut_p2pkh s : zlen s = 25 -> znth s 0 = Some (z2b 0x76) -> znth s 1 = Some (z2b 0xa9) ->
  znth s 2 = Some (z2b 0x14) -> at_ s (-2) = Ok (z2b 0x88) -> at_ s (-1) = Ok (z2b 0xac) ->
  exists h, zlen h = 20 /\ s = p2pkh_script h.
Proof.
  intros Hl H0 H1 H2 Hm2 Hm1. apply at_last_app in Hm1 as [s1 ->].
  assert (exists s2, s1 = s2 ++ [z2b 0x88]) as [s2 ->].
  { destruct s1 as [|x s1] using rev_ind; [zlen_lia|]. exists s1. rewrite <- app_assoc in Hm2. cbn [app] in Hm2.
    rewrite at_last2 in Hm2. by injection Hm2 as ->. }
  rewrite <- app_assoc in *. cbn [app] in *. autorewrite with zlen in Hl.
  destruct s2 as [|a [|b [|c h]]]; autorewrite with zlen in Hl; try lia.
  injection H0 as ->. injection H1 as ->. injection H2 as ->. exists h. split; [lia|done].
Qed.

Lemma cut_p2sh s : zlen s = 23 -> znth s 0 = Some (z2b 0xa9) -> znth s 1 = Some (z2b 0x14) ->
  at_ s (-1) = Ok (z2b 0x87) -> exists h, zlen h = 20 /\ s = p2sh_script h.
Proof.
  intros Hl H0 H1 Hm1. apply at_last_app in Hm1 as [s1 ->]. autorewrite with zlen in Hl.
  destruct s1 as [|a [|b h]]; autorewrite with zlen in Hl; try lia.
  injection H0 as ->. injection H1 as ->. exists h. split; [lia|done].
Qed.

Lemma cut_two (s : list byte) n x y : zlen s = 2 + n -> 0 <= n -> znth s 0 = Some x -> znth s 1 = Some y ->
  exists h, zlen h = n /\ s = x :: y :: h.
Proof.
  intros Hl Hn H0 H1. destruct s as [|a [|b h]]; autorewrite with zlen in Hl; try lia.
  injection H0 as ->. injection H1 as ->. exists h. split; [lia|done].
Qed.

Lemma cut_key (s : list byte) n k : zlen s = n + 2 -> 0 < n -> znth s 0 = Some k -> at_ s (-1) = Ok (z2b 0xac) ->
  exists pk, zlen pk = n /\ s = k :: pk ++ [z2b 0xac] /\ znth pk 0 = znth s 1.
Proof.
  intros Hl Hn H0 Hm1. apply at_last_app in Hm1 as [s1 ->]. autorewrite with zlen in Hl.
  destruct s1 as [|a pk]; autorewrite with zlen in Hl; [lia|].
  injection H0 as ->. exists pk. split; [lia|]. split; [done|].
  destruct pk as [|c pk]; [rewrite zlen_nil in Hl; lia|done].
Qed.

(** The script each standard type stands for. *)
Definition template_of (t : TXOUT_SCRIPT_TYPE) (s : list byte) : Prop :=
  match t with
  | TXOUT_SCRIPT_STDHASH160 => exists h, zlen h = 20 /\ s = p2pkh_script h
  | TXOUT_SCRIPT_P2SH => exists h, zlen h = 20 /\ s = p2sh_script h
  | TXOUT_SCRIPT_P2WPKH => exists h, zlen h = 20 /\ s = p2wpkh_script h
  | TXOUT_SCRIPT_P2WSH => exists h, zlen h = 32 /\ s = p2wsh_script h
  | TXOUT_SCRIPT_STDPUBKEY65 => exists pk, full_key pk /\ s = p2pk65_script pk
  | TXOUT_SCRIPT_STDPUBKEY33 => exists pk, compr_key pk /\ s = p2pk33_script pk
  | TXOUT_SCRIPT_OPRETURN => exists data, zlen data < 80 /\ s = z2b 0x6a :: data
  | _ => False
  end.

Definition has_template (t : TXOUT_SCRIPT_TYPE) : bool :=
  match t with TXOUT_SCRIPT_MULTISIG | TXOUT_SCRIPT_NONSTANDARD => false | _ => true end.

Lemma type_of_template t s : template_of t s -> getTxOutScriptType s = Ok t.
Proof.
  destruct t; cbn [template_of]; try done.
  - intros (h & Hl & ->). unfold p2pkh_script. apply type_p2pkh; try reflexivity.
    + autorewrite with zlen. lia.
    + rewrite app_assoc. apply at_last2.
    + rewrite app_assoc. change [z2b 0x88; z2b 0xac] with ([z2b 0x88] ++ [z2b 0xac]). rewrite app_assoc. apply at_last.
  - intros (pk & [Hl Hk] & ->). unfold p2pk65_script. destruct pk as [|k pk]; [done|]. injection Hk as ->.
    apply type_pk65; try reflexivity; [autorewrite with zlen in *; lia|rewrite app_assoc; apply at_last].
  - intros (pk & [Hl Hk] & ->). unfold p2pk33_script. destruct pk as [|k pk]; [by destruct Hk|].
    apply type_pk33; try reflexivity; [autorewrite with zlen in *; lia| |rewrite app_assoc; apply at_last].
    destruct Hk as [[= ->]|[= ->]]; [by left|by right].
  - intros (h & Hl & ->). unfold p2sh_script.
    apply type_p2sh; try reflexivity; [autorewrite with zlen; lia|rewrite app_assoc; apply at_last].
  - intros (h & Hl & ->). apply type_p2wpkh; try reflexivity. unfold p2wpkh_script. autorewrite with zlen. lia.
  - intros (h & Hl & ->). apply type_p2wsh; try reflexivity. unfold p2wsh_script. autorewrite with zlen. lia.
  - intros (data & Hl & ->). unfold getTxOutScriptType. rewrite zlen_cons. pose proof (zlen_nonneg data).
    assert ((0 <? 1 + zlen data) && (1 + zlen data <? 81) = true) as -> by (zsimp; done). reflexivity.
Qed.

Lemma template_of_type t s : getTxOutScriptType s = Ok t -> has_template t = true -> template_of t s.
Proof.
  intros Ht%getTxOutScriptType_inv Hh. destruct t; try done; cbn [template_of].
  - destruct Ht as (? & ? & ? & ? & ? & ?). by apply cut_p2pkh.
  - destruct Ht as (Hl & H0 & H1 & Hm). destruct (cut_key s 65 _ Hl ltac:(lia) H0 Hm) as (pk & Hp & -> & Hk).
    exists pk. split; [split; [done|by rewrite Hk]|done].
  - destruct Ht as (Hl & H0 & H1 & Hm). destruct (cut_key s 33 _ Hl ltac:(lia) H0 Hm) as (pk & Hp & -> & Hk).
    exists pk. split; [split; [done|by rewrite Hk]|done].
  - destruct Ht as (? & ? & ? & ?). by apply cut_p2sh.
  - destruct Ht as (Hl & H0 & H1). destruct (cut_two s 20 _ _ Hl ltac:(lia) H0 H1) as (h & ? & ->). by exists h.
  - destruct Ht as (Hl & H0 & H1). destruct (cut_two s 32 _ _ Hl ltac:(lia) H0 H1) as (h & ? & ->). by exists h.
  - destruct Ht as (Hl & H0). apply znth_0_cons in H0 as [data ->]. exists data. rewrite zlen_cons in Hl. split; [lia|done].
Qed.
End standard.

(** ** Multisig scripts *)

Lemma brr_advance_at pre a post :
  zlen (pre ++ a ++ post) < two64 ->
  brr_advance (zlen a) (brr_at pre (a ++ post)) = brr_at (pre ++ a) post.
Proof.
  intros Hl. unfold brr_advance, brr_at, set_pos; cbn [bdRef_ totalSize_ pos_]. unfold two64 in Hl.
  rewrite wrap_small by (unfold is_uint; zlen_lia). rewrite Z.min_l by zlen_lia.
  rewrite <- !app_assoc. f_equal. by rewrite zlen_app.
Qed.

Definition push_key (k : list byte) : list byte := z2b (zlen k) :: k.
Definition key_size_ok (k : list byte) : Prop := zlen k = 33 \/ zlen k = 65.

(** [M <key>...<key> N OP_CHECKMULTISIG]. *)
Definition multisig_script (M : Z) (keys : list (list byte)) : list byte :=
  [z2b (80 + M)] ++ concat (map push_key keys) ++ [z2b (80 + zlen keys); z2b 0xae].

Lemma read_pubkeys_parses keys :
  Forall key_size_ok keys -> parses (read_pubkeys (length keys)) (concat (map push_key keys)) (true, keys).
Proof.
  induction 1 as [|k keys Hk _ IH]; cbn [read_pubkeys length map concat]; [apply parses_ret|].
  unfold push_key at 1. cbn [app]. change (z2b (zlen k) :: ?x) with ([z2b (zlen k)] ++ x).
  eapply parses_bind; [apply brr_get_uint8_t_parses; unfold is_uint; destruct Hk; lia|].
  replace (negb (zlen k =? 65) && negb (zlen k =? 33)) with false
    by (symmetry; destruct Hk as [-> | ->]; done).
  eapply parses_bind; [apply brr_take_parses|]. cbv beta.
  eapply parses_bind_ret; [exact IH|]. apply parses_ret.
Qed.

Lemma wrap_M m : 1 <= m <= 16 -> b2z (z2b (80 + m)) = 80 + m /\ wrap 8 (80 + m - 80) = m.
Proof.
  intros Hm. rewrite b2z_z2b_small by lia. split; [done|]. rewrite wrap_small by (unfold is_uint; lia). lia.
Qed.

Section multisig.
Context `{HashFns}.

(** A script that is taken for a multisig script: what stands behind the keys is
    not looked at, but the last byte and the one before it. *)
Definition multisig_of (M : Z) (keys : list (list byte)) (s : list byte) : Prop :=
  (exists rest, s = [z2b (80 + M)] ++ concat (map push_key keys) ++ rest) /\
  at_ s (-2) = Ok (z2b (80 + zlen keys)) /\ at_ s (-1) = Ok (z2b 0xae).

Record multisig_sizes (M : Z) (keys : list (list byte)) : Prop := {
  mz_M : 1 <= M <= 16;
  mz_N : 1 <= zlen keys <= 16;
  mz_keys : Forall key_size_ok keys;
}.

Lemma multisig_script_of M keys : multisig_of M keys (multisig_script M keys).
Proof.
  unfold multisig_script. split; [by eexists|]. rewrite app_assoc. split; [apply at_last2|].
  change [?x; z2b 0xae] with ([x] ++ [z2b 0xae]). rewrite app_assoc. apply at_last.
Qed.

Lemma getMultisigPubKeyList_of M keys s : multisig_sizes M keys -> multisig_of M keys s -> zlen s < two64 ->
  getMultisigPubKeyList s = Ok (M, keys).
Proof.
  intros [HM HN Hk] ([rest Es] & E2 & E1) Hl. unfold getMultisigPubKeyList. rewrite E1, E2.
  assert (at_ s 0 = Ok (z2b (80 + M))) as -> by by rewrite Es.
  cbn [mbind result_bind]. change (b2z (z2b 0xae) =? 0xae) with true. cbn [negb].
  destruct (wrap_M M HM) as [-> ->]. destruct (wrap_M (zlen keys) HN) as [-> ->].
  replace ((80 + M <? 81) || (96 <? 80 + M) || (80 + zlen keys <? 81) || (96 <? 80 + zlen keys)) with false
    by (symmetry; rewrite !orb_false_iff, !Z.ltb_ge; lia).
  replace (Z.to_nat (zlen keys)) with (length keys) by (unfold zlen; lia).
  rewrite brr_setNewData_at. rewrite Es in *.
  change 1 with (zlen [z2b (80 + M)]) at 1. rewrite brr_advance_at by done.
  rewrite (read_pubkeys_parses keys Hk ([] ++ [z2b (80 + M)])) by done.
  cbn [mbind result_bind]. by rewrite Nat.sub_diag, app_nil_r.
Qed.

Lemma getMultisigPubKeyList_spec M keys :
  1 <= M <= 16 -> 1 <= zlen keys <= 16 -> Forall key_size_ok keys ->
  zlen (multisig_script M keys) < two64 ->
  getMultisigPubKeyList (multisig_script M keys) = Ok (M, keys).
Proof. intros ? ? ? ?. apply getMultisigPubKeyList_of; [done|apply multisig_script_of|done]. Qed.

Lemma zlen_foldl_put l w :
  zlen (theString_ (foldl (fun w a => bw_put_BinaryData a w) w l)) = zlen (theString_ w) + zlen (concat l).
Proof.
  revert w. induction l as [|a l IH]; intros w; cbn [foldl concat]; [rewrite zlen_nil; lia|].
  rewrite IH, bw_put_BinaryData_str. autorewrite with zlen. lia.
Qed.

Lemma getMultisigUniqueKey_of M keys s : multisig_sizes M keys -> multisig_of M keys s -> zlen s < two64 ->
  exists key, getMultisigUniqueKey s = Ok key /\ 2 <= zlen key /\
    key = theString_ (foldl (fun w a => bw_put_BinaryData a w)
      (bw_put_uint8_t (zlen keys) (bw_put_uint8_t M bw_new)) (merge_sort bd_le (map getHash160 keys))).
Proof.
  intros Hz Hs Hl. unfold getMultisigUniqueKey, getMultisigAddrList.
  rewrite (getMultisigPubKeyList_of M keys) by done. destruct Hz as [HM HN Hk]. cbn [mbind result_bind].
  destruct (Z.eqb_spec M 0); [lia|]. cbn [mbind result_bind]. destruct (Z.eqb_spec M 0); [lia|].
  eexists. split; [done|]. assert (zlen (map getHash160 keys) = zlen keys) as -> by (unfold zlen; by rewrite length_map).
  split; [|done]. rewrite zlen_foldl_put. rewrite !bw_put_uint8_t_str. autorewrite with zlen.
  pose proof (zlen_nonneg (concat (merge_sort bd_le (map getHash160 keys)))).
  change (zlen (theString_ bw_new)) with 0. lia.
Qed.

Lemma getMultisigUniqueKey_spec M keys :
  1 <= M <= 16 -> 1 <= zlen keys <= 16 -> Forall key_size_ok keys ->
  zlen (multisig_script M keys) < two64 ->
  exists key, getMultisigUniqueKey (multisig_script M keys) = Ok key /\ 2 <= zlen key /\
    key = theString_ (foldl (fun w a => bw_put_BinaryData a w)
      (bw_put_uint8_t (zlen keys) (bw_put_uint8_t M bw_new)) (merge_sort bd_le (map getHash160 keys))).
Proof. intros ? ? ? ?. apply getMultisigUniqueKey_of; [done|apply multisig_script_of|done]. Qed.

Lemma type_multisig_of M keys s : multisig_sizes M keys -> multisig_of M keys s -> zlen s < two64 ->
  getTxOutScriptType s = Ok TXOUT_SCRIPT_MULTISIG.
Proof.
  intros Hz Hs Hl. destruct (getMultisigUniqueKey_of M keys s Hz Hs Hl) as (key & Hkey & Hk2 & _).
  assert (isMultisigScript s = Ok true) as Hmulti.
  { unfold isMultisigScript. rewrite Hkey. cbn [mbind result_bind]. f_equal. apply Z.ltb_lt. lia. }
  destruct Hz as [HM HN Hk], Hs as ([rest Es] & _ & Hlast).
  assert (21 <= zlen s) as Hsz.
  { rewrite Es. destruct keys as [|k keys]; [rewrite zlen_nil in HN; lia|].
    inversion Hk as [|? ? Hk1 _]; subst. cbn [map concat]. unfold push_key at 1. autorewrite with zlen.
    pose proof (zlen_nonneg (concat (map push_key keys))). pose proof (zlen_nonneg rest). destruct Hk1; lia. }
  assert (forall v, 80 + M <> v -> byte_is s 0 v = Ok false) as H0.
  { intros v Hv. assert (at_ s 0 = Ok (z2b (80 + M))) as E by by rewrite Es. rewrite (byte_is_at _ _ _ _ E).
    destruct (wrap_M M HM) as [-> _]. f_equal. by apply Z.eqb_neq. }
  unfold getTxOutScriptType. rewrite !H0, !(byte_is_at _ _ _ _ Hlast), Hmulti by lia.
  rewrite (proj2 (Z.ltb_ge (zlen s) 21)) by lia.
  destruct ((0 <? zlen s) && (zlen s <? 81)), (zlen s =? 22), (zlen s =? 34), (zlen s =? 25), (zlen s =? 67),
    (zlen s =? 35), (zlen s =? 23); reflexivity.
Qed.

Lemma type_multisig M keys :
  1 <= M <= 16 -> 1 <= zlen keys <= 16 -> Forall key_size_ok keys ->
  zlen (multisig_script M keys) < two64 ->
  getTxOutScriptType (multisig_script M keys) = Ok TXOUT_SCRIPT_MULTISIG.
Proof. intros ? ? ? ?. eapply type_multisig_of; [|apply multisig_script_of|done]. done. Qed.

(** The keys that were read stand in the stream. *)
Lemma brr_take_at n pre post x r : 0 <= n -> zlen (pre ++ post) < two64 -> brr_take n (brr_at pre post) = Ok (x, r) ->
  zlen x = n /\ exists rest, post = x ++ rest /\ r = brr_at (pre ++ x) rest.
Proof.
  intros Hn Hl E. assert (n <= zlen post) as Hle.
  { destruct (Z.le_gt_cases n (zlen post)); [done|]. unfold brr_take in E. rewrite brr_remaining_at in E by done.
    rewrite (proj2 (Z.ltb_lt _ _)) in E by lia. done. }
  set (y := take (Z.to_nat n) post). assert (zlen y = n) as Hy.
  { unfold y, zlen in *. rewrite length_take. lia. }
  rewrite <- (take_drop (Z.to_nat n) post) in E, Hl |- *. fold y in E, Hl |- *.
  rewrite (brr_take_parses' n y Hy pre) in E by done. injection E as <- <-. split; [done|]. by eexists.
Qed.

Lemma read_pubkeys_inv n : forall pre post pks r, zlen (pre ++ post) < two64 ->
  read_pubkeys n (brr_at pre post) = Ok ((true, pks), r) ->
  length pks = n /\ Forall key_size_ok pks /\ exists rest, post = concat (map push_key pks) ++ rest.
Proof.
  induction n as [|n IH]; intros pre post pks r Hl E; cbn [read_pubkeys] in E.
  { injection E as <- _. split; [done|]. split; [constructor|by exists post]. }
  unfold mbind at 1, reader_bind at 1 in E. destruct (brr_get_uint8_t (brr_at pre post)) as [[sz r1]|e] eqn:E1; [|done].
  unfold brr_get_uint8_t in E1. unfold mbind, reader_bind in E1.
  destruct (brr_take 1 (brr_at pre post)) as [[b r1']|e] eqn:Eb; [|done]. injection E1 as <- ->.
  apply brr_take_at in Eb as (Hb & post1 & -> & ->); [|done|done]. apply zlen_1_inv in Hb as [b0 ->].
  change (le_val [b0]) with (b2z b0 + 256 * 0) in E. rewrite Z.mul_0_r, Z.add_0_r in E.
  destruct (negb (b2z b0 =? 65) && negb (b2z b0 =? 33)) eqn:Ek; [done|].
  unfold mbind at 1, reader_bind at 1 in E. rewrite app_assoc in Hl.
  destruct (brr_take (b2z b0) (brr_at (pre ++ [b0]) post1)) as [[pk r2]|e] eqn:Ep; [|done].
  apply andb_false_iff in Ek. rewrite !negb_false_iff, !Z.eqb_eq in Ek.
  apply brr_take_at in Ep as (Hp & post2 & -> & ->); [|lia|done].
  unfold mbind, reader_bind in E. destruct (read_pubkeys n _) as [[[ok ks] r3]|e] eqn:Er; [|done].
  injection E as -> <- _. rewrite app_assoc in Hl. apply IH in Er as (Hn & Hks & rest & ->); [|done].
  split; [simpl; by f_equal|]. split; [constructor; [unfold key_size_ok; lia|done]|].
  exists rest. cbn [map concat]. change (push_key pk) with (z2b (zlen pk) :: pk). rewrite Hp, z2b_b2z. by rewrite <- app_assoc.
Qed.

Lemma isMultisigScript_inv s : zlen s < two64 -> isMultisigScript s = Ok true ->
  exists M keys, multisig_sizes M keys /\ multisig_of M keys s.
Proof.
  intros Hl. unfold isMultisigScript, getMultisigUniqueKey, getMultisigAddrList.
  destruct (getMultisigPubKeyList s) as [[M pks]|e] eqn:E; [|done]. cbn [mbind result_bind].
  destruct (Z.eqb_spec M 0) as [->|HM]; [done|]. intros _. unfold getMultisigPubKeyList in E.
  destruct (at_ s (-1)) as [bl|] eqn:E1; [|done]. cbn [mbind result_bind] in E.
  destruct (Z.eqb_spec (b2z bl) 0xae) as [Hbl|]; cbn [negb] in E; [|congruence].
  destruct (at_ s 0) as [bM|] eqn:E0; [|done]. cbn [mbind result_bind] in E.
  destruct (at_ s (-2)) as [bN|] eqn:E2; [|done]. cbn [mbind result_bind] in E. cbv zeta in E.
  destruct (_ || _) eqn:Er; [congruence|]. rewrite !orb_false_iff, !Z.ltb_ge in Er. destruct Er as [[[? ?] ?] ?].
  apply at_Some in E0; [|done]. apply znth_0_cons in E0 as [s' ->].
  rewrite !wrap_small in E by (unfold is_uint; lia).
  rewrite brr_setNewData_at in E. change 1 with (zlen [bM]) in E at 1. change (bM :: s') with ([bM] ++ s') in E.
  rewrite (brr_advance_at [] [bM] s' Hl) in E.
  destruct (read_pubkeys _ _) as [[[[] ks] r]|e] eqn:Ek; cbn [mbind result_bind] in E; [|congruence|done].
  apply read_pubkeys_inv in Ek as (Hn & Hks & rest & ->); [|exact Hl].
  assert (zlen ks = b2z bN - 80) as Hz by (unfold zlen; lia).
  exists (b2z bM - 80), ks. split; [split; [lia|lia|done]|]. split; [|split].
  - exists rest. replace (80 + (b2z bM - 80)) with (b2z bM) by lia. by rewrite z2b_b2z.
  - rewrite E2, Hz. replace (80 + (b2z bN - 80)) with (b2z bN) by lia. by rewrite z2b_b2z.
  - rewrite E1, <- Hbl. by rewrite z2b_b2z.
Qed.

(** The order of [operator<] on byte strings is a total order. *)
#[global] Instance bd_le_total : Total bd_le.
Proof.
  intros a b. unfold bd_le. destruct (less_trichotomy a b) as [Hab|[->|Hab]].
  - left. destruct (less b a) eqn:E; [|done]. pose proof (less_trans _ _ _ Hab E) as Hx. by rewrite less_irrefl in Hx.
  - left. apply less_irrefl.
  - right. destruct (less a b) eqn:E; [|done]. pose proof (less_trans _ _ _ Hab E) as Hx. by rewrite less_irrefl in Hx.
Qed.

#[global] Instance bd_le_antisym : AntiSymm (=) bd_le.
Proof. intros a b Ha Hb. unfold bd_le in *. destruct (less_trichotomy a b) as [E|[E|E]]; congruence. Qed.

#[global] Instance bd_le_trans : Transitive bd_le.
Proof.
  intros a b c Hab Hbc. unfold bd_le in *. destruct (less c a) eqn:E; [|done].
  destruct (less_trichotomy a b) as [Hx|[->|Hx]]; [|congruence..].
  pose proof (less_trans _ _ _ E Hx). congruence.
Qed.

Lemma sort_permutation l1 l2 : Permutation l1 l2 -> merge_sort bd_le l1 = merge_sort bd_le l2.
Proof.
  intros Hp. apply (StronglySorted_unique bd_le); [apply (StronglySorted_merge_sort bd_le)..|].
  by rewrite !merge_sort_Permutation.
Qed.
End multisig.

(** ** No access outside the script *)

Definition noUB {A} (r : result A) : Prop := r <> Err UB.

Lemma noUB_Ok {A} (a : A) : noUB (Ok a).
Proof. done. Qed.
Lemma noUB_bind {A B} (m : result A) (f : A -> result B) :
  noUB m -> (forall a, m = Ok a -> noUB (f a)) -> noUB (m ≫= f).
Proof. unfold noUB. destruct m; simpl; naive_solver. Qed.
Lemma noUB_and (a b : result bool) : noUB a -> (a = Ok true -> noUB b) -> noUB (a &&& b).
Proof. intros Ha Hb. apply noUB_bind; [done|]. intros [] E; [by apply Hb|done]. Qed.
Lemma noUB_or (a b : result bool) : noUB a -> noUB b -> noUB (a ||| b).
Proof. intros Ha Hb. apply noUB_bind; [done|]. by intros [] E. Qed.
Lemma noUB_rif {A} (c : result bool) (t r : result A) :
  noUB c -> noUB t -> noUB r -> noUB (rif c t r).
Proof. intros Hc Ht Hr. apply noUB_bind; [done|]. by intros [] E. Qed.

Lemma at_in_range s i : - zlen s <= i < zlen s -> exists b, at_ s i = Ok b.
Proof.
  intros Hi. unfold at_. zcase.
  - destruct (znth_is_Some s (zlen s + i)) as [b ->]; [lia|by eexists].
  - destruct (znth_is_Some s i) as [b ->]; [lia|by eexists].
Qed.
Lemma byte_is_in_range s i v : - zlen s <= i < zlen s -> exists b, byte_is s i v = Ok b.
Proof. intros [b Hb]%at_in_range. rewrite (byte_is_at _ _ _ _ Hb). by eexists. Qed.
Lemma noUB_at s i : - zlen s <= i < zlen s -> noUB (at_ s i).
Proof. by intros [b ->]%at_in_range. Qed.
Lemma noUB_byte_is s i v : - zlen s <= i < zlen s -> noUB (byte_is s i v).
Proof. intros Hi. apply noUB_bind; [by apply noUB_at|done]. Qed.

Lemma read_pubkeys_safe n : safe (read_pubkeys n).
Proof.
  induction n as [|n IH]; cbn [read_pubkeys]; [apply safe_ret|].
  apply safe_bind; [apply brr_get_uint8_t_safe|]. intros sz.
  destruct (negb (sz =? 65) && negb (sz =? 33)) eqn:E; [apply safe_ret|].
  apply safe_bind.
  - apply brr_take_safe. apply andb_false_iff in E as [E|E]; breflect; lia.
  - intros pk. apply safe_bind; [exact IH|]. intros [ok rest]. apply safe_ret.
Qed.

Lemma getMultisigPubKeyList_noUB s :
  2 <= zlen s < two64 -> noUB (getMultisigPubKeyList s).
Proof.
  intros Hs. unfold getMultisigPubKeyList. apply noUB_bind; [apply noUB_at; lia|]. intros last _.
  destruct (negb _); [done|]. apply noUB_bind; [apply noUB_at; lia|]. intros M _.
  apply noUB_bind; [apply noUB_at; lia|]. intros N _. cbv zeta. destruct (_ || _); [done|].
  apply noUB_bind.
  2: { intros [[ok pks] r] _. cbv iota. done. }
  destruct s as [|b s]; [rewrite zlen_nil in Hs; lia|].
  change (brr_setNewData (b :: s)) with (brr_at [] ([b] ++ s)). change 1 with (zlen [b]) at 1.
  rewrite brr_advance_at by (simpl; lia).
  pose proof (read_pubkeys_safe (Z.to_nat (wrap 8 (b2z N - 80))) (brr_at ([] ++ [b]) s)) as Hsafe.
  destruct (read_pubkeys _ _) as [[? ?]|e]; [done|].
  assert (e <> UB) by (apply Hsafe, brr_wf_at; simpl; lia). unfold noUB. congruence.
Qed.

Section safe_type.
Context `{HashFns}.

Lemma isMultisigScript_noUB s : 2 <= zlen s < two64 -> noUB (isMultisigScript s).
Proof.
  intros Hs. unfold isMultisigScript, getMultisigUniqueKey, getMultisigAddrList.
  apply noUB_bind; [|done]. apply noUB_bind.
  - apply noUB_bind; [by apply getMultisigPubKeyList_noUB|]. intros [M pks] _. by destruct (M =? 0).
  - intros [M l] _. by destruct (M =? 0).
Qed.

Lemma getTxOutScriptType_noUB s : zlen s < two64 -> noUB (getTxOutScriptType s).
Proof.
  intros Hs. pose proof (zlen_nonneg s). unfold getTxOutScriptType.
  apply noUB_rif; [|done|].
  { apply noUB_and; [done|]. intros [= Hsz]. breflect. apply noUB_byte_is. lia. }
  destruct (zlen s <? 21) eqn:E21; breflect; [done|].
  assert (forall i v, -2 <= i <= 2 -> noUB (byte_is s i v)) as Hb by (intros; apply noUB_byte_is; lia).
  repeat apply noUB_rif; try done; repeat (apply noUB_and; [|intros _]); try done; try (apply Hb; lia).
  all: first [apply isMultisigScript_noUB; lia | apply noUB_or; apply Hb; lia].
Qed.

(** Only the multisig test can throw. *)
Lemma getTxOutScriptType_Err s e : zlen s < two64 -> getTxOutScriptType s = Err e ->
  isMultisigScript s = Err e /\ at_ s (-1) = Ok (z2b 0xae).
Proof.
  intros Hs. pose proof (zlen_nonneg s).
  assert (forall i v, - zlen s <= i < zlen s -> exists b, byte_is s i v = Ok b) as Hb.
  { intros. by apply byte_is_in_range. }
  destruct (Z.ltb_spec (zlen s) 21) as [H21|H21]; intros Ht.
  { exfalso. revert Ht. unfold getTxOutScriptType. rewrite (proj2 (Z.ltb_lt (zlen s) 21)) by lia.
    destruct ((0 <? zlen s) && (zlen s <? 81)) eqn:E81; breflect; [|done].
    destruct (Hb 0 0x6a ltac:(lia)) as [[] E]; rewrite E; done. }
  assert (forall i v, -2 <= i <= 2 -> exists b, byte_is s i v = Ok b) as Hb2 by (intros; apply Hb; lia).
  assert (forall (a b : result bool), (exists x, a = Ok x) -> (exists x, b = Ok x) -> exists x, a &&& b = Ok x) as Hand.
  { intros a b [x ->] [y ->]. destruct x; by eexists. }
  assert (forall (a b : result bool), (exists x, a = Ok x) -> (exists x, b = Ok x) -> exists x, a ||| b = Ok x) as Hor.
  { intros a b [x ->] [y ->]. destruct x; by eexists. }
  assert (forall A (c : result bool) (t : A) r, (exists x, c = Ok x) -> rif c (Ok t) r = Err e -> r = Err e) as Hrif.
  { intros A c t r [[] ->]; [done|done]. }
  unfold getTxOutScriptType in Ht. rewrite (proj2 (Z.ltb_ge (zlen s) 21)) in Ht by lia.
  do 7 (apply Hrif in Ht;
    [|repeat (apply Hand; [first [by eexists | apply Hb2; lia | idtac]|]);
      first [by eexists | apply Hb2; lia | apply Hor; apply Hb2; lia | idtac]]).
  destruct (Hb2 (-1) 0xae ltac:(lia)) as [[] E]; rewrite E in Ht; [|done].
  cbn [mbind result_bind] in Ht. apply byte_is_true in E; [|lia]. split; [|done].
  destruct (isMultisigScript s) as [[]|]; try done; unfold rif in Ht; cbn [mbind result_bind] in Ht; congruence.
Qed.
End safe_type.

(** ** Push-only scripts *)

Lemma take_opcode_at pre b post :
  zlen (pre ++ [b] ++ post) < two64 ->
  take_opcode (brr_at (pre ++ [b]) post) = Ok ([b], brr_at (pre ++ [b]) post).
Proof.
  intros Hl. unfold take_opcode.
  assert (brr_rewind 1 (brr_at (pre ++ [b]) post) = brr_at pre ([b] ++ post)) as ->.
  { unfold brr_rewind, brr_at, set_pos; cbn [bdRef_ totalSize_ pos_]. rewrite <- !app_assoc. f_equal.
    unfold two64 in Hl. rewrite wrap_small by (unfold is_uint; zlen_lia).
    zcase; zlen_lia. }
  change 1 with (zlen [b]). by apply brr_take_parses.
Qed.

(** The header, by size. *)
Lemma getPushDataHeader_bytes d : zlen d < 2 ^ 32 - 1 ->
  getPushDataHeader d = Ok
    (if zlen d <=? 75 then [z2b (zlen d)]
     else if zlen d <? 2 ^ 8 - 1 then [z2b OP_PUSHDATA1] ++ [z2b (zlen d)]
     else if zlen d <? 2 ^ 16 - 1 then [z2b OP_PUSHDATA2] ++ int_to LE 2 (zlen d)
     else [z2b OP_PUSHDATA4] ++ int_to LE 4 (zlen d)).
Proof.
  intros Hd. pose proof (zlen_nonneg d). unfold getPushDataHeader. cbv zeta.
  repeat zcase; try lia; rewrite wrap_small by (unfold is_uint; lia);
    rewrite ?bw_put_uint32_t_str, ?bw_put_uint16_t_str, ?bw_put_uint8_t_str; done.
Qed.

(** The header [getPushDataHeader] writes makes the loop take the data, for
    every size but 0 and those that need four bytes. *)
Lemma split_step_parses d hdr :
  0 < zlen d < 2 ^ 16 - 1 -> getPushDataHeader d = Ok hdr -> parses split_step (hdr ++ d) (Some d).
Proof.
  intros Hd. rewrite getPushDataHeader_bytes by lia. intros Hh. apply (f_equal (fun r => match r with Ok h => h | Err _ => [] end)) in Hh.
  rewrite <- Hh. clear Hh. unfold split_step.
  destruct (Z.leb_spec (zlen d) 75) as [H75|H75]; [|destruct (Z.ltb_spec (zlen d) (2 ^ 8 - 1)) as [H8|H8];
    [|destruct (Z.ltb_spec (zlen d) (2 ^ 16 - 1)) as [H16|H16]; [|lia]]]; rewrite <- ?app_assoc.
  - eapply parses_bind; [apply brr_get_uint8_t_parses; unfold is_uint; lia|].
    zsimp. eapply parses_bind_ret; [apply brr_take_parses|apply parses_ret].
  - eapply parses_bind; [apply brr_get_uint8_t_parses; unfold is_uint, OP_PUSHDATA1; lia|].
    unfold OP_PUSHDATA1. zsimp. eapply parses_bind; [apply brr_get_uint8_t_parses; unfold is_uint; lia|].
    eapply parses_bind_ret; [apply brr_take_parses|apply parses_ret].
  - eapply parses_bind; [apply brr_get_uint8_t_parses; unfold is_uint, OP_PUSHDATA2; lia|].
    unfold OP_PUSHDATA2. zsimp. eapply parses_bind; [apply brr_get_uint16_t_parses; unfold is_uint; lia|].
    eapply parses_bind_ret; [apply brr_take_parses|apply parses_ret].
Qed.

(** A script that pushes the elements of [ds]. *)
Fixpoint push_script (ds : list (list byte)) : result (list byte) :=
  match ds with
  | [] => Ok []
  | d :: ds => hdr ← getPushDataHeader d; rest ← push_script ds; Ok ((hdr ++ d) ++ rest)
  end.

Definition pushable (d : list byte) : Prop := 0 < zlen d < 2 ^ 16 - 1.

Lemma getPushDataHeader_Ok d : zlen d < 2 ^ 32 - 1 ->
  exists hdr, getPushDataHeader d = Ok hdr /\ 1 <= zlen hdr <= 5.
Proof.
  intros Hd. rewrite getPushDataHeader_bytes by done. eexists. split; [done|].
  repeat zcase; autorewrite with zlen; rewrite ?zlen_int_to; lia.
Qed.

Lemma split_loop_spec ds pre bs fuel :
  Forall pushable ds -> push_script ds = Ok bs -> zlen (pre ++ bs) < two64 -> (length bs ≤ fuel)%nat ->
  split_loop fuel (brr_at pre bs) = Ok (Some ds).
Proof.
  intros Hds. revert pre bs fuel. induction Hds as [|d ds Hd Hds IH]; intros pre bs fuel Hbs Hl Hf; cbn [push_script] in Hbs.
  { injection Hbs as <-. destruct fuel; cbn [split_loop];
      rewrite brr_remaining_at by (rewrite app_nil_r in *; done); done. }
  destruct (getPushDataHeader d) as [hdr|] eqn:Eh; [|done]. cbn [mbind result_bind] in Hbs.
  destruct (push_script ds) as [rest|] eqn:Er; [|done]. injection Hbs as <-.
  pose proof (split_step_parses d hdr Hd Eh pre rest Hl) as Hstep.
  assert (1 <= zlen (hdr ++ d)) as Hpos by (rewrite zlen_app; unfold pushable in Hd; pose proof (zlen_nonneg hdr); lia).
  destruct fuel as [|fuel]; [rewrite length_app in Hf; unfold zlen in Hpos; lia|].
  cbn [split_loop]. rewrite brr_remaining_at by done.
  destruct (Z.eqb_spec (zlen ((hdr ++ d) ++ rest)) 0); [zlen_lia|].
  rewrite Hstep. cbn [mbind result_bind]. rewrite (IH (pre ++ hdr ++ d) rest fuel eq_refl).
  - done.
  - by rewrite <- app_assoc.
  - rewrite length_app in Hf. unfold zlen in Hpos. lia.
Qed.

(** A single push whose length takes four bytes loses its upper half. *)
Lemma split_step_pushdata4 d :
  2 ^ 16 - 1 <= zlen d < 2 ^ 32 - 1 ->
  exists hdr, getPushDataHeader d = Ok hdr /\
    forall tl, zlen (hdr ++ d ++ tl) < two64 ->
      exists r, split_step (brr_setNewData (hdr ++ d ++ tl)) =
        Ok (Some (take (Z.to_nat (zlen d mod 2 ^ 16)) d), r).
Proof.
  intros Hd. rewrite getPushDataHeader_bytes by lia. rewrite (proj2 (Z.leb_gt (zlen d) 75)) by lia.
  rewrite (proj2 (Z.ltb_ge (zlen d) (2 ^ 8 - 1))), (proj2 (Z.ltb_ge (zlen d) (2 ^ 16 - 1))) by lia.
  eexists. split; [done|]. intros tl Hl. set (n := Z.to_nat (zlen d mod 2 ^ 16)).
  assert (0 <= zlen d mod 2 ^ 16 < 2 ^ 16) as Hmod by (by apply Z.mod_pos_bound).
  assert (zlen (take n d) = zlen d mod 2 ^ 16) as Htake.
  { unfold zlen. rewrite length_take. assert (zlen d mod 2 ^ 16 <= zlen d) by (apply Z.mod_le; lia).
    unfold n, zlen in *. lia. }
  assert (parses split_step ([z2b OP_PUSHDATA4] ++ int_to LE 4 (zlen d) ++ take n d) (Some (take n d))) as Hp.
  { unfold split_step. eapply parses_bind; [apply brr_get_uint8_t_parses; unfold is_uint, OP_PUSHDATA4; lia|].
    unfold OP_PUSHDATA4. zsimp. eapply parses_bind; [apply brr_get_uint32_t_parses; unfold is_uint; lia|].
    unfold wrap. eapply parses_bind_ret; [apply brr_take_parses'; exact Htake|apply parses_ret]. }
  specialize (Hp [] (drop n d ++ tl)). rewrite brr_setNewData_at.
  replace (([z2b OP_PUSHDATA4] ++ int_to LE 4 (zlen d)) ++ d ++ tl)
    with (([z2b OP_PUSHDATA4] ++ int_to LE 4 (zlen d) ++ take n d) ++ drop n d ++ tl).
  2: { rewrite <- !app_assoc. do 2 f_equal. by rewrite app_assoc, take_drop. }
  eexists. apply Hp. rewrite <- !app_assoc in *. rewrite (app_assoc (take n d)), take_drop. exact Hl.
Qed.

Section inputs.
Context `{HashFns}.

(** A string that starts with neither OP_RETURN nor a multisig [M] and has the
    size of a public key is no output script. *)
Lemma type_of_key pk : full_key pk \/ compr_key pk -> getTxOutScriptType pk = Ok TXOUT_SCRIPT_NONSTANDARD.
Proof.
  intros Hk. assert (exists k tl, pk = k :: tl /\ b2z k < 5 /\ (zlen pk = 65 \/ zlen pk = 33)) as (k & tl & Hpk & Hk5 & Hl).
  { destruct Hk as [[Hl Hk]|[Hl Hk]].
    - apply znth_0_cons in Hk as [tl ->]. exists (z2b 4), tl. split; [done|]. split; [done|by left].
    - destruct Hk as [Hk|Hk]; apply znth_0_cons in Hk as [tl ->]; eexists _, tl; (split; [done|]; split; [done|by right]). }
  assert (forall v, 5 <= v -> byte_is pk 0 v = Ok false) as Hb0.
  { intros v Hv. subst pk. unfold byte_is. change (at_ (k :: tl) 0) with (Ok k). cbn [mbind result_bind].
    f_equal. apply Z.eqb_neq. lia. }
  assert (isMultisigScript pk = Ok false) as Hmulti.
  { unfold isMultisigScript, getMultisigUniqueKey, getMultisigAddrList, getMultisigPubKeyList.
    destruct (at_in_range pk (-1)) as [last ->]; [lia|].
    cbn [mbind result_bind]. destruct (negb _); [done|]. subst pk. change (at_ (k :: tl) 0) with (Ok k).
    cbn [mbind result_bind]. destruct (at_in_range (k :: tl) (-2)) as [n ->]; [lia|].
    cbn [mbind result_bind]. cbv zeta. rewrite (proj2 (Z.ltb_lt (b2z k) 81)) by lia. done. }
  destruct (byte_is_in_range pk (-1) 0xae) as [bl Hbl]; [lia|].
  unfold getTxOutScriptType. rewrite Hbl, Hmulti. rewrite !(Hb0 0x6a) by lia.
  destruct Hl as [-> | ->]; by destruct bl.
Qed.

(** The input script that spends a hash160 output: the signature, then the key.
    The signature is DER with a hash-type byte. *)
Definition std_sig (sig : list byte) : Prop :=
  9 <= zlen sig <= 75 /\ znth sig 0 = Some (z2b 0x30) /\ znth sig 1 = Some (z2b (zlen sig - 3)) /\
  znth sig 2 = Some (z2b 0x02).

Definition spend_script (sig pk : list byte) : list byte :=
  ([z2b (zlen sig)] ++ sig) ++ [z2b (zlen pk)] ++ pk.

Lemma spend_script_push sig pk : std_sig sig -> full_key pk \/ compr_key pk ->
  splitPushOnlyScriptRefs (spend_script sig pk) = Ok [sig; pk].
Proof.
  intros (Hs & _) Hk. assert (33 <= zlen pk <= 65) as Hl by (destruct Hk as [[]|[]]; lia).
  unfold splitPushOnlyScriptRefs. rewrite brr_setNewData_at.
  rewrite (split_loop_spec [sig; pk] [] (spend_script sig pk)); [done| | | |done].
  - repeat constructor; lia.
  - cbn [push_script]. rewrite !getPushDataHeader_bytes by lia.
    rewrite (proj2 (Z.leb_le (zlen sig) 75)), (proj2 (Z.leb_le (zlen pk) 75)) by lia.
    cbn [mbind result_bind]. by rewrite app_nil_r.
  - unfold spend_script. cbn [app]. autorewrite with zlen. unfold two64. lia.
Qed.

Lemma zlen_spend sig pk : zlen (spend_script sig pk) = zlen sig + zlen pk + 2.
Proof. unfold spend_script. autorewrite with zlen. lia. Qed.

Lemma getTxInScriptType_spend sig pk prevTxHash :
  std_sig sig -> full_key pk \/ compr_key pk -> prevTxHash <> EmptyHash ->
  getTxInScriptType (spend_script sig pk) prevTxHash =
    Ok (if zlen pk =? 65 then TXIN_SCRIPT_STDUNCOMPR else TXIN_SCRIPT_STDCOMPR).
Proof.
  intros Hs Hk Hp. pose proof Hs as (Hl & H0 & H1 & H2).
  assert (zlen pk = 65 \/ zlen pk = 33) as Hlk by (destruct Hk as [[]|[]]; auto).
  unfold getTxInScriptType. rewrite equal_spec, bool_decide_eq_false_2 by done.
  unfold getLastPushDataInScript. rewrite spend_script_push by done. cbn [mbind result_bind last default from_option].
  rewrite type_of_key by done. rewrite zlen_spend. cbn [mbind result_bind]. rewrite bool_decide_eq_true_2 by done.
  destruct sig as [|s0 [|s1 [|s2 sig]]]; autorewrite with zlen in *; try lia.
  injection H0 as ->. injection H1 as ->. injection H2 as ->.
  set (n := 1 + (1 + (1 + zlen sig))) in *.
  unfold spend_script, byte_is. autorewrite with zlen. fold n. cbn [app].
  change (at_ (?a :: ?b :: ?c :: ?l) 0) with (Ok a). change (at_ (?a :: ?b :: ?c :: ?l) 1) with (Ok b).
  change (at_ (?a :: ?b :: ?c :: ?l) 2) with (Ok c). change (at_ (?a :: ?b :: ?c :: ?d :: ?l) 3) with (Ok d).
  cbn [mbind result_bind]. rewrite !b2z_z2b_small by lia.
  destruct (Z.eqb_spec (n + zlen pk + 2) 0); [lia|]. destruct (Z.eqb_spec (n + zlen pk + 2) 23); [lia|].
  destruct (Z.eqb_spec (n + zlen pk + 2) 35); [lia|]. destruct (Z.eqb_spec n 0); [lia|].
  unfold rif. cbn [mbind result_bind negb Z.eqb]. cbv iota beta.
  destruct (Z.eqb_spec (n + zlen pk + 2) (n - 3 + 4)); [lia|].
  destruct (Z.eqb_spec (n + zlen pk + 2) (n - 3 + 4 + 66)), (Z.eqb_spec (zlen pk) 65); try lia; [done|].
  destruct (Z.eqb_spec (n + zlen pk + 2) (n - 3 + 4 + 34)); [done|lia].
Qed.

Lemma getSliceCopy_suffix pre suf : 0 < zlen suf -> zlen (pre ++ suf) < two64 ->
  getSliceCopy (pre ++ suf) (- zlen suf) (zlen suf) = suf.
Proof.
  intros Hs Hl. pose proof (getSliceCopy_app pre suf []) as Hg. rewrite !app_nil_r in Hg.
  specialize (Hg Hl). pose proof (zlen_nonneg pre). revert Hg. unfold getSliceCopy.
  rewrite (proj2 (Z.ltb_lt (- zlen suf) 0)), (proj2 (Z.ltb_ge (zlen pre) 0)) by lia. cbv zeta iota.
  by replace (zlen (pre ++ suf) + - zlen suf) with (zlen pre) by (rewrite zlen_app; lia).
Qed.
End inputs.

(** ** Properties *)

(** What a script of each type is: the templates of the standard types, an
    OP_RETURN in front of less than 80 bytes, and the scripts that are taken for
    multisig scripts. *)
Definition is_of_type (t : TXOUT_SCRIPT_TYPE) (s : list byte) : Prop :=
  match t with
  | TXOUT_SCRIPT_MULTISIG => exists M keys, multisig_sizes M keys /\ multisig_of M keys s
  | TXOUT_SCRIPT_NONSTANDARD => False
  | t => template_of t s
  end.

(** C33: the classification of standard outputs is exact.  A script is given one
    of the types P2PKH, P2PK, P2SH, P2WPKH and P2WSH if and only if it is byte for
    byte that type's template; OP_RETURN if and only if it starts with that
    opcode and has at most 80 bytes; and multisig if and only if it is a number
    from 1 to 16, as many pushes of 33 or 65 bytes as the number before its last
    byte tells, also from 1 to 16, and anything up to the OP_CHECKMULTISIG that
    ends it (the first number may be larger than the second). *)
Theorem getTxOutScriptType_exact `{HashFns} (s : list byte) (t : TXOUT_SCRIPT_TYPE) :
  zlen s < two64 -> t <> TXOUT_SCRIPT_NONSTANDARD -> getTxOutScriptType s = Ok t <-> is_of_type t s.
Proof.
  intros Hl Ht. split.
  - intros Hs. destruct t; try done; try by apply template_of_type.
    apply isMultisigScript_inv; [done|]. by apply (getTxOutScriptType_inv s TXOUT_SCRIPT_MULTISIG).
  - destruct t; try done; try apply type_of_template. intros (M & keys & Hz & Hm). by eapply type_multisig_of.
Qed.

(** Classification never reads outside the script; it can only throw, and
    only on a script that ends in OP_CHECKMULTISIG. *)
Theorem getTxOutScriptType_safe `{HashFns} (s : list byte) :
  zlen s < two64 ->
  match getTxOutScriptType s with
  | Ok _ => True
  | Err e => e <> UB /\ at_ s (-1) = Ok (z2b 0xae) /\ isMultisigScript s = Err e
  end.
Proof.
  intros Hs. pose proof (getTxOutScriptType_noUB s Hs) as Hn.
  destruct (getTxOutScriptType s) as [|e] eqn:E; [done|].
  destruct (getTxOutScriptType_Err s e Hs E). repeat split; [|done..]. by intros ->.
Qed.

(** A multisig script of full or compressed keys gives back [M] and its
    keys, is classified as such, and its unique key does not depend on the
    order of the keys. *)
Theorem multisig_canonical `{HashFns} (M : Z) (keys keys' : list (list byte)) :
  1 <= M <= 16 -> 1 <= zlen keys <= 16 -> Forall key_size_ok keys -> Permutation keys keys' ->
  zlen (multisig_script M keys) < two64 -> zlen (multisig_script M keys') < two64 ->
  getMultisigPubKeyList (multisig_script M keys) = Ok (M, keys) /\
  getTxOutScriptType (multisig_script M keys) = Ok TXOUT_SCRIPT_MULTISIG /\
  getMultisigUniqueKey (multisig_script M keys) = getMultisigUniqueKey (multisig_script M keys').
Proof.
  intros HM HN Hk Hp Hl Hl'. split; [by apply getMultisigPubKeyList_spec|].
  split; [by apply type_multisig|].
  assert (Forall key_size_ok keys') as Hk' by (by rewrite <- Hp).
  assert (zlen keys' = zlen keys) as Hlen by (unfold zlen; by rewrite Hp).
  destruct (getMultisigUniqueKey_spec M keys) as (k1 & -> & _ & ->); [done..|].
  destruct (getMultisigUniqueKey_spec M keys') as (k2 & -> & _ & ->); [done|lia|done..|].
  rewrite Hlen. do 3 f_equal. by apply sort_permutation, Permutation_map.
Qed.

(** A bare-key output has the script address of the hash160 output of the
    same key, and the recipient address of both is the hash of the key. *)
Theorem getTxOutScrAddr_same_key `{HashFns} (cfg : Config) (pk : list byte) :
  full_key pk \/ compr_key pk ->
  let bare := if zlen pk =? 65 then p2pk65_script pk else p2pk33_script pk in
  getTxOutScrAddr cfg bare TXOUT_SCRIPT_NONSTANDARD =
    getTxOutScrAddr cfg (p2pkh_script (getHash160 pk)) TXOUT_SCRIPT_NONSTANDARD /\
  getTxOutRecipientAddr bare TXOUT_SCRIPT_NONSTANDARD = Ok (getHash160 pk) /\
  getTxOutRecipientAddr (p2pkh_script (getHash160 pk)) TXOUT_SCRIPT_NONSTANDARD = Ok (getHash160 pk).
Proof.
  intros Hk bare.
  assert (getTxOutScriptType (p2pkh_script (getHash160 pk)) = Ok TXOUT_SCRIPT_STDHASH160) as Hh
    by (apply type_of_template; exists (getHash160 pk); split; [apply zlen_getHash160|done]).
  assert (getSliceCopy (p2pkh_script (getHash160 pk)) 3 20 = getHash160 pk) as Hs1.
  { unfold p2pkh_script. rewrite <- (zlen_getHash160 pk) at 2.
    apply (getSliceCopy_app [z2b 0x76; z2b 0xa9; z2b 0x14]). autorewrite with zlen. unfold two64. lia. }
  assert (exists t, getTxOutScriptType bare = Ok t /\
    ((t = TXOUT_SCRIPT_STDPUBKEY65 /\ getSliceCopy bare 1 65 = pk) \/
     (t = TXOUT_SCRIPT_STDPUBKEY33 /\ getSliceCopy bare 1 33 = pk))) as (t & Ht & Hb).
  { destruct Hk as [Hk|Hk]; pose proof (proj1 Hk) as Hl; unfold bare; rewrite Hl; cbn [Z.eqb].
    - exists TXOUT_SCRIPT_STDPUBKEY65. split; [apply type_of_template; by exists pk|]. left. split; [done|].
      unfold p2pk65_script. change 1 with (zlen [z2b 0x41]). rewrite <- Hl.
      apply getSliceCopy_app. autorewrite with zlen. unfold two64. lia.
    - exists TXOUT_SCRIPT_STDPUBKEY33. split; [apply type_of_template; by exists pk|]. right. split; [done|].
      unfold p2pk33_script. change 1 with (zlen [z2b 0x21]). rewrite <- Hl.
      apply getSliceCopy_app. autorewrite with zlen. unfold two64. lia. }
  unfold getTxOutScrAddr, getTxOutRecipientAddr, look_up_type. rewrite !bool_decide_eq_true_2 by done.
  rewrite Hh, Ht. cbn [mbind result_bind]. rewrite Hs1. by destruct Hb as [[-> ->]|[-> ->]].
Qed.

(** The reference form of a script address is the copied form, for every
    script but OP_RETURN ones, where the two always differ. *)
Theorem getTxOutScrAddrNoCopy_agrees `{HashFns} (cfg : Config) (s : list byte) :
  if bool_decide (getTxOutScriptType s = Ok TXOUT_SCRIPT_OPRETURN) then
    exists a r, getTxOutScrAddr cfg s TXOUT_SCRIPT_NONSTANDARD = Ok a /\
      getTxOutScrAddrNoCopy cfg s = Ok r /\ getScrAddr r <> a
  else (getScrAddr <$> getTxOutScrAddrNoCopy cfg s) = getTxOutScrAddr cfg s TXOUT_SCRIPT_NONSTANDARD.
Proof.
  unfold getTxOutScrAddr, getTxOutScrAddrNoCopy, look_up_type. rewrite (bool_decide_eq_true_2 (TXOUT_SCRIPT_NONSTANDARD = _)) by done.
  destruct (getTxOutScriptType s) as [t|e]; [|by rewrite bool_decide_eq_false_2].
  destruct t; try (rewrite bool_decide_eq_false_2 by done; try done).
  - cbn [mbind result_bind]. by destruct (getMultisigUniqueKey s).
  - rewrite bool_decide_eq_true_2 by done. eexists _, _. split; [done|]. split; [done|].
    unfold getScrAddr, prefixed. rewrite !bw_put_BinaryData_str, !bw_put_uint8_t_str.
    intros E. apply (f_equal head) in E. by vm_compute in E.
Qed.

(** [splitPushOnlyScriptRefs] gives back what [getPushDataHeader] framed, for
    any list of pushes of 1 to 65534 bytes. *)
Theorem push_script_roundtrip (ds : list (list byte)) (script : list byte) :
  Forall pushable ds -> push_script ds = Ok script -> zlen script < two64 ->
  splitPushOnlyScriptRefs script = Ok ds.
Proof.
  intros Hd Hs Hl. unfold splitPushOnlyScriptRefs. rewrite brr_setNewData_at.
  by rewrite (split_loop_spec ds [] script).
Qed.

(** From 65535 bytes on the round trip fails: the four-byte length is read
    into 16 bits and only that many bytes of the data are taken. *)
Theorem push_script_truncates (d : list byte) :
  2 ^ 16 <= zlen d < 2 ^ 32 - 1 ->
  exists hdr, getPushDataHeader d = Ok hdr /\
    forall tl, zlen (hdr ++ d ++ tl) < two64 -> exists got r,
      split_step (brr_setNewData (hdr ++ d ++ tl)) = Ok (Some got, r) /\
      zlen got = zlen d mod 2 ^ 16 /\ got <> d.
Proof.
  intros Hd. destruct (split_step_pushdata4 d) as (hdr & Hh & Hs); [lia|]. exists hdr. split; [done|].
  intros tl Hl. destruct (Hs tl Hl) as [r Hr]. exists (take (Z.to_nat (zlen d mod 2 ^ 16)) d), r. split; [done|].
  assert (0 <= zlen d mod 2 ^ 16 < 2 ^ 16) by (by apply Z.mod_pos_bound).
  assert (zlen (take (Z.to_nat (zlen d mod 2 ^ 16)) d) = zlen d mod 2 ^ 16) as Ht
    by (unfold zlen in *; rewrite length_take; lia).
  split; [exact Ht|]. intros E. rewrite E in Ht. lia.
Qed.

(** An input that spends a hash160 output with a DER signature and a public
    key is classified by the size of the key, and its address is the one the
    spent output pays to. *)
Theorem getTxInAddr_of_spend `{HashFns} (sig pk prevTxHash : list byte) :
  std_sig sig -> full_key pk \/ compr_key pk -> prevTxHash <> EmptyHash ->
  getTxInScriptType (spend_script sig pk) prevTxHash =
    Ok (if zlen pk =? 65 then TXIN_SCRIPT_STDUNCOMPR else TXIN_SCRIPT_STDCOMPR) /\
  getTxInAddr (spend_script sig pk) prevTxHash TXIN_SCRIPT_NONSTANDARD =
    getTxOutRecipientAddr (p2pkh_script (getHash160 pk)) TXOUT_SCRIPT_NONSTANDARD.
Proof.
  intros Hs Hk Hp. pose proof (getTxInScriptType_spend sig pk prevTxHash Hs Hk Hp) as Ht. split; [done|].
  unfold getTxInAddr. rewrite bool_decide_eq_true_2 by done. rewrite Ht. cbn [mbind result_bind].
  assert (zlen (spend_script sig pk) = zlen sig + zlen pk + 2) as Hz by apply zlen_spend.
  destruct Hs as (Hl & _). assert (zlen pk = 65 \/ zlen pk = 33) as Hlk by (destruct Hk as [[]|[]]; auto).
  assert (getSliceCopy (spend_script sig pk) (- zlen pk) (zlen pk) = pk) as Hg.
  { unfold spend_script. rewrite app_assoc. apply getSliceCopy_suffix; [lia|].
    rewrite <- app_assoc. fold (spend_script sig pk). rewrite Hz. unfold two64. lia. }
  unfold getTxOutRecipientAddr, look_up_type. rewrite bool_decide_eq_true_2 by done.
  rewrite (type_of_template TXOUT_SCRIPT_STDHASH160) by (exists (getHash160 pk); split; [apply zlen_getHash160|done]).
  cbn [mbind result_bind].
  assert (getSliceCopy (p2pkh_script (getHash160 pk)) 3 20 = getHash160 pk) as ->.
  { unfold p2pkh_script. rewrite <- (zlen_getHash160 pk) at 2.
    apply (getSliceCopy_app [z2b 0x76; z2b 0xa9; z2b 0x14]). autorewrite with zlen. unfold two64. lia. }
  destruct Hlk as [E|E]; rewrite E in *; cbn [Z.eqb Pos.eqb getTxInAddrFromType]; rewrite Hz.
  - destruct (Z.ltb_spec (zlen sig + 65 + 2) 65); [lia|]. change (- (65)) with (-65) in Hg. by rewrite Hg.
  - destruct (Z.ltb_spec (zlen sig + 33 + 2) 33); [lia|]. change (- (33)) with (-33) in Hg. by rewrite Hg.
Qed.

(** Findings of the model, each at a concrete script. *)

(** A one-byte input script is read past its end. *)
Lemma getTxInScriptType_reads_past_end `{HashFns} :
  getTxInScriptType [z2b 0x51] [] = Err UB.
Proof. reflexivity. Qed.

(** A script that looks like a multisig script but ends within a key makes the
    classification throw instead of answering non-standard. *)
Lemma getTxOutScriptType_throws `{HashFns} :
  getTxOutScriptType ([z2b 0x51; z2b 0x21] ++ replicate 21 (z2b 0) ++ [z2b 0x51; z2b 0xae]) = Err RuntimeError.
Proof. reflexivity. Qed.

(** *** Witnesses *)

Definition some_hash : list byte := replicate 20 (z2b 7).
Definition some_key : list byte := z2b 2 :: replicate 32 (z2b 7).
Definition other_key : list byte := z2b 3 :: replicate 32 (z2b 9).
Definition some_sig : list byte := map z2b [0x30; 6; 2; 1; 1; 2; 1; 1; 1].
Definition main_net : Config := mkConfig 0 5.

Lemma some_key_compr : compr_key some_key.
Proof. split; [reflexivity|left; reflexivity]. Qed.

(** A multisig script that asks for two signatures of one key, with a byte behind
    the key. *)
Lemma getTxOutScriptType_exact_witness :
  let s := [z2b 0x52; z2b 33] ++ replicate 33 (z2b 2) ++ [z2b 7; z2b 0x51; z2b 0xae] in
  @getTxOutScriptType toy_hashes s = Ok TXOUT_SCRIPT_MULTISIG.
Proof.
  intros s. apply (@getTxOutScriptType_exact toy_hashes s); [vm_compute; reflexivity|discriminate|].
  exists 2, [replicate 33 (z2b 2)]. split.
  - split; [split; vm_compute; discriminate|split; vm_compute; discriminate|]. constructor; [left; reflexivity|constructor].
  - split; [exists [z2b 7; z2b 0x51; z2b 0xae]; reflexivity|]. split; reflexivity.
Defined.

Lemma getTxOutScriptType_safe_witness :
  match @getTxOutScriptType toy_hashes [z2b 0x51; z2b 0xae] with
  | Ok _ => True
  | Err e => e <> UB /\ at_ [z2b 0x51; z2b 0xae] (-1) = Ok (z2b 0xae) /\
      @isMultisigScript toy_hashes [z2b 0x51; z2b 0xae] = Err e
  end.
Proof. apply (@getTxOutScriptType_safe toy_hashes [z2b 0x51; z2b 0xae]). reflexivity. Defined.

Lemma multisig_canonical_witness :
  @getMultisigPubKeyList (multisig_script 1 [some_key; other_key]) = Ok (1, [some_key; other_key]) /\
  @getMultisigUniqueKey toy_hashes (multisig_script 1 [some_key; other_key]) =
  @getMultisigUniqueKey toy_hashes (multisig_script 1 [other_key; some_key]).
Proof.
  destruct (@multisig_canonical toy_hashes 1 [some_key; other_key] [other_key; some_key]) as (E1 & _ & E2).
  - lia.
  - vm_compute. split; discriminate.
  - repeat constructor; left; reflexivity.
  - apply perm_swap.
  - reflexivity.
  - reflexivity.
  - split; [exact E1|exact E2].
Defined.

Lemma getTxOutScrAddr_same_key_witness :
  @getTxOutScrAddr toy_hashes main_net (p2pk33_script some_key) TXOUT_SCRIPT_NONSTANDARD =
  @getTxOutScrAddr toy_hashes main_net (p2pkh_script (@getHash160 toy_hashes some_key)) TXOUT_SCRIPT_NONSTANDARD.
Proof.
  apply (@getTxOutScrAddr_same_key toy_hashes main_net some_key (or_intror some_key_compr)).
Defined.

Lemma push_script_roundtrip_witness :
  splitPushOnlyScriptRefs ([z2b 1; z2b 5] ++ [z2b 2; z2b 8; z2b 9]) = Ok [[z2b 5]; [z2b 8; z2b 9]].
Proof.
  apply (push_script_roundtrip [[z2b 5]; [z2b 8; z2b 9]]).
  - repeat constructor.
  - reflexivity.
  - reflexivity.
Defined.

Lemma zlen_replicate {A} n (x : A) : zlen (replicate n x) = Z.of_nat n.
Proof. unfold zlen. by rewrite length_replicate. Qed.

Definition long_data : list byte := replicate (Z.to_nat (2 ^ 16)) (z2b 1).

Lemma zlen_long_data : zlen long_data = 2 ^ 16.
Proof. unfold long_data. rewrite zlen_replicate, Z2Nat.id; [reflexivity|discriminate]. Qed.

#[local] Opaque long_data.

Lemma push_script_truncates_witness :
  exists hdr got r, getPushDataHeader long_data = Ok hdr /\
    split_step (brr_setNewData (hdr ++ long_data ++ [])) = Ok (Some got, r) /\ got <> long_data.
Proof.
  destruct (push_script_truncates long_data) as (hdr & Eh & Ht).
  - rewrite zlen_long_data. split; [discriminate|reflexivity].
  - destruct (getPushDataHeader_Ok long_data) as (h & Eh' & Hh); [rewrite zlen_long_data; reflexivity|].
    rewrite Eh in Eh'. injection Eh' as <-.
    destruct (Ht []) as (got & r & E & _ & Hne).
    + rewrite !zlen_app, zlen_nil, zlen_long_data. unfold two64. lia.
    + exists hdr, got, r. split; [exact Eh|]. split; [exact E|exact Hne].
Defined.

Lemma std_sig_some : std_sig some_sig.
Proof. split; [vm_compute; split; discriminate|]. repeat split; reflexivity. Qed.

Lemma getTxInAddr_of_spend_witness :
  @getTxInScriptType toy_hashes (spend_script some_sig some_key) some_hash = Ok TXIN_SCRIPT_STDCOMPR /\
  @getTxInAddr toy_hashes (spend_script some_sig some_key) some_hash TXIN_SCRIPT_NONSTANDARD =
  @getTxOutRecipientAddr toy_hashes (p2pkh_script (@getHash160 toy_hashes some_key)) TXOUT_SCRIPT_NONSTANDARD.
Proof.
  apply (@getTxInAddr_of_spend toy_hashes some_sig some_key some_hash);
    [exact std_sig_some|right; exact some_key_compr|discriminate].
Defined.
