(* ===== verification/TxLength.v ===== *)
(** * TxLength: the extent of a serialised transaction

    [TxInCalcLength], [TxOutCalcLength], [TxWitnessCalcLength], [TxCalcLength]
    and [StoredTxCalcLength] of cppForSwig/BtcUtils.h: how many bytes a
    transaction takes and where its inputs, outputs and witnesses start.  The
    lengths of single items are [uint32_t] sums and wrap. *)

From S2P Require Import Prelude BinaryData BinaryIO.

(** ** Single items, from the bytes behind [ptr] *)

Definition TxInCalcLength (ptr : list byte) : result Z :=
  if zlen ptr <? 37 then Err BlockDeserializing
  else
    '(v, viLen) ← readVarInt (drop 36 ptr) (zlen ptr - 36);
    let scrLen := wrap 32 v in
    Ok (wrap 32 (36 + viLen + scrLen + 4)).

Definition TxOutCalcLength (ptr : list byte) : result Z :=
  if zlen ptr <? 9 then Err BlockDeserializing
  else
    '(v, viLen) ← readVarInt (drop 8 ptr) (zlen ptr - 8);
    let scrLen := wrap 32 v in
    Ok (wrap 32 (8 + viLen + scrLen)).

(** The loop over the items of a witness stack. *)
Fixpoint witness_loop (n : nat) (ptr : list byte) (witLen : Z) : result Z :=
  match n with
  | O => Ok witLen
  | S n =>
      if zlen ptr - witLen <? 1 then Err BlockDeserializing
      else
        '(v, viLen) ← readVarInt (drop (Z.to_nat witLen) ptr) (zlen ptr - witLen);
        let witLen := wrap 32 (witLen + wrap 32 v) in
        let witLen := wrap 32 (witLen + viLen) in
        if zlen ptr <? witLen then Err BlockDeserializing
        else witness_loop n ptr witLen
  end.

Definition TxWitnessCalcLength (ptr : list byte) : result Z :=
  if zlen ptr <? 1 then Err BlockDeserializing
  else
    '(v, viStackLen) ← readVarInt ptr (zlen ptr);
    let stackLen := wrap 32 v in
    witness_loop (Z.to_nat stackLen) ptr (wrap 32 viStackLen).

(** ** The whole transaction *)

(** [brr.getCurrPtr()] with [brr.getSizeRemaining()], and [brr.getPosition()]. *)
Definition curr_ptr (r : BinaryRefReader) : list byte := drop (Z.to_nat (pos_ r)) (bdRef_ r).
Definition get_position : Reader Z := fun r => Ok (pos_ r, r).
Definition skip (n : Z) : Reader () := fun r => Ok (tt, brr_advance n r).

(** [*marker == 0x0100], read without a test of the size. *)
Definition read_marker : Reader bool := fun r =>
  bs ← raw_read (bdRef_ r) (pos_ r) 2; Ok (le_val bs =? 0x0100, r).

(** [offsets->resize(n + 1)]: with [n] of 2^32-1 the vector is empty and the
    first store into it is undefined. *)
Definition offsets_fit (n : Z) : Reader () := fun r =>
  if (wrap 32 (n + 1) =? 0) then Err UB else Ok (tt, r).

(** [n] times: note the position, leap over one item; then note the end. *)
Fixpoint leap_items (calc : list byte -> result Z) (n : nat) : Reader (list Z) :=
  match n with
  | O => p ← get_position; mret [p]
  | S n =>
      p ← get_position;
      len ← (fun r => len ← calc (curr_ptr r); Ok (len, r));
      _ ← skip len;
      rest ← leap_items calc n;
      mret (p :: rest)
  end.

(** The offset vectors a caller asked for. *)
Record TxOffsets := mkOffsets {
  offsetsIn : list Z;
  offsetsOut : list Z;
  offsetsWitness : list Z;
}.

Definition read_outputs (fragged : bool) (nOut : Z) : Reader (list Z) :=
  if fragged then p ← get_position; mret (replicate (Z.to_nat (wrap 32 (nOut + 1))) p)
  else _ ← offsets_fit nOut; leap_items TxOutCalcLength (Z.to_nat nOut).

Definition read_witnesses (usesWitness : bool) (nIn : Z) : Reader (list Z) :=
  if usesWitness then _ ← offsets_fit nIn; leap_items TxWitnessCalcLength (Z.to_nat nIn)
  else p ← get_position; mret [p].

Definition calc_body (fragged : bool) : Reader (Z * TxOffsets) :=
  _ ← skip 4;
  usesWitness ← read_marker;
  _ ← skip (if (usesWitness : bool) then 2 else 0);
  vi ← brr_get_var_int;
  let nIn := wrap 32 vi in
  _ ← offsets_fit nIn;
  oIn ← leap_items TxInCalcLength (Z.to_nat nIn);
  vi ← brr_get_var_int;
  let nOut := wrap 32 vi in
  oOut ← read_outputs fragged nOut;
  oWit ← read_witnesses usesWitness nIn;
  _ ← skip 4;
  p ← get_position;
  mret (p, mkOffsets oIn oOut oWit).

(** The overload that only fills [offsetsIn]; it knows no witness marker. *)
Definition TxInCalcLength_offsets (ptr : list byte) : result (list Z) :=
  let brr := brr_setNewData ptr in
  if brr_getSizeRemaining brr <? 4 then Err BlockDeserializing
  else
    '(oIn, _) ← (_ ← skip 4;
                 vi ← brr_get_var_int;
                 let nIn := wrap 32 vi in
                 _ ← offsets_fit nIn;
                 leap_items TxInCalcLength (Z.to_nat nIn)) brr;
    Ok oIn.

Definition TxCalcLength (ptr : list byte) : result (Z * TxOffsets) :=
  let brr := brr_setNewData ptr in
  if brr_getSizeRemaining brr <? 4 then Err BlockDeserializing
  else '(res, _) ← calc_body false brr; Ok res.

Definition StoredTxCalcLength (ptr : list byte) (fragged : bool) : result (Z * TxOffsets) :=
  '(res, _) ← calc_body fragged (brr_setNewData ptr); Ok res.

(** ** Transactions as data *)

Record TxIn := mkTxIn { txin_outpoint : list byte; txin_script : list byte; txin_sequence : list byte }.
Record TxOut := mkTxOut { txout_value : list byte; txout_script : list byte }.
Record Tx := mkTx {
  tx_version : list byte;
  tx_ins : list TxIn;
  tx_outs : list TxOut;
  tx_witnesses : option (list (list (list byte)));  (** one stack per input *)
  tx_locktime : list byte;
}.

Definition var_bytes (bs : list byte) : list byte := var_int_bytes (zlen bs) ++ bs.
Definition enc_txin (i : TxIn) : list byte := txin_outpoint i ++ var_bytes (txin_script i) ++ txin_sequence i.
Definition enc_txout (o : TxOut) : list byte := txout_value o ++ var_bytes (txout_script o).
Definition enc_stack (w : list (list byte)) : list byte :=
  var_int_bytes (zlen w) ++ concat (map var_bytes w).

Definition enc_tx (tx : Tx) : list byte :=
  tx_version tx ++ (if tx_witnesses tx then [z2b 0; z2b 1] else []) ++
  (var_int_bytes (zlen (tx_ins tx)) ++ concat (map enc_txin (tx_ins tx))) ++
  (var_int_bytes (zlen (tx_outs tx)) ++ concat (map enc_txout (tx_outs tx))) ++
  concat (map enc_stack (default [] (tx_witnesses tx))) ++ tx_locktime tx.

Definition txin_ok (i : TxIn) : Prop :=
  zlen (txin_outpoint i) = 36 /\ zlen (txin_sequence i) = 4 /\ zlen (txin_script i) < 2 ^ 31.
Definition txout_ok (o : TxOut) : Prop := zlen (txout_value o) = 8 /\ zlen (txout_script o) < 2 ^ 31.

Record tx_ok (tx : Tx) : Prop := {
  ok_version : zlen (tx_version tx) = 4;
  ok_locktime : zlen (tx_locktime tx) = 4;
  ok_nin : 1 <= zlen (tx_ins tx);
  ok_ins : Forall txin_ok (tx_ins tx);
  ok_outs : Forall txout_ok (tx_outs tx);
  ok_wits : match tx_witnesses tx with Some ws => zlen ws = zlen (tx_ins tx) | None => True end;
  ok_size : zlen (enc_tx tx) < 2 ^ 32 - 1;
}.

(** The positions of consecutive items from [p], and the end. *)
Fixpoint offsets (p : Z) (items : list (list byte)) : list Z :=
  match items with
  | [] => [p]
  | x :: items => p :: offsets (p + zlen x) items
  end.

(** ** Readers whose result depends on where they start *)

(** [m] at position [p] consumes exactly [bs] and returns [a]. *)
Definition parses_from {A} (p : Z) (m : Reader A) (bs : list byte) (a : A) : Prop :=
  forall pre post, zlen pre = p -> zlen (pre ++ bs ++ post) < two64 ->
    m (brr_at pre (bs ++ post)) = Ok (a, brr_at (pre ++ bs) post).

Lemma parses_from_any {A} p (m : Reader A) bs a : parses m bs a -> parses_from p m bs a.
Proof. intros Hm pre post _ Hl. by apply Hm. Qed.

Lemma parses_from_bind {A B} p (m : Reader A) (k : A -> Reader B) b1 b2 a b :
  parses_from p m b1 a -> parses_from (p + zlen b1) (k a) b2 b -> parses_from p (m ≫= k) (b1 ++ b2) b.
Proof.
  intros H1 H2 pre post Hp Hl. unfold mbind, reader_bind.
  rewrite <- app_assoc, H1 by (try done; rewrite app_assoc; autorewrite with zlen in *; lia).
  rewrite H2 by (autorewrite with zlen in *; lia). by rewrite <- app_assoc.
Qed.

(** A step that consumes nothing. *)
Lemma parses_from_bind_0 {A B} p (m : Reader A) (k : A -> Reader B) bs a b :
  parses_from p m [] a -> parses_from p (k a) bs b -> parses_from p (m ≫= k) bs b.
Proof.
  intros H1 H2. change bs with ([] ++ bs). eapply parses_from_bind; [exact H1|].
  by rewrite zlen_nil, Z.add_0_r.
Qed.

Lemma get_position_from p : parses_from p get_position [] p.
Proof.
  intros pre post Hp _. cbn [app]. rewrite app_nil_r. unfold get_position. cbn. by rewrite Hp.
Qed.

Lemma ret_from {A} p (a : A) : parses_from p (mret a) [] a.
Proof. apply parses_from_any, parses_ret. Qed.

Lemma skip_from p n bs : zlen bs = n -> parses_from p (skip n) bs tt.
Proof.
  intros <- pre post _ Hl. unfold skip. do 2 f_equal.
  unfold brr_advance, brr_at, set_pos; cbn [bdRef_ totalSize_ pos_]. unfold two64 in Hl.
  rewrite wrap_small by (unfold is_uint; zlen_lia). rewrite Z.min_l by zlen_lia.
  rewrite <- !app_assoc. f_equal. by rewrite zlen_app.
Qed.

Lemma curr_ptr_at pre post : curr_ptr (brr_at pre post) = post.
Proof. apply drop_pre. Qed.

Lemma offsets_fit_from p n : 0 <= n < 2 ^ 32 - 1 -> parses_from p (offsets_fit n) [] tt.
Proof.
  intros Hn pre post _ _. unfold offsets_fit. rewrite wrap_small by (unfold is_uint; lia).
  destruct (Z.eqb_spec (n + 1) 0); [lia|]. by rewrite app_nil_r.
Qed.

Lemma leap_items_from calc items p :
  Forall (fun x => forall tl, zlen (x ++ tl) < two64 -> calc (x ++ tl) = Ok (zlen x)) items ->
  parses_from p (leap_items calc (length items)) (concat items) (offsets p items).
Proof.
  intros Hi. revert p. induction Hi as [|x items Hx _ IH]; intros p; cbn [leap_items length concat offsets].
  - eapply parses_from_bind_0; [apply get_position_from|apply ret_from].
  - eapply parses_from_bind_0; [apply get_position_from|]. intros pre post Hp Hl.
    unfold mbind at 1, reader_bind at 1. rewrite curr_ptr_at. rewrite <- app_assoc.
    rewrite Hx by (autorewrite with zlen in *; pose proof (zlen_nonneg pre); lia). cbn [mbind result_bind].
    rewrite app_assoc. revert pre post Hp Hl.
    change (parses_from p (_ ← skip (zlen x); rest ← leap_items calc (length items); mret (p :: rest))
      (x ++ concat items) (p :: offsets (p + zlen x) items)).
    eapply parses_from_bind; [by apply skip_from|]. rewrite <- (app_nil_r (concat items)).
    eapply parses_from_bind; [apply IH|apply ret_from].
Qed.

(** ** Single items *)

Lemma var_bytes_len bs : zlen (var_bytes bs) = calcVarIntSize (zlen bs) + zlen bs.
Proof. unfold var_bytes. by autorewrite with zlen. Qed.

Lemma readVarInt_var_bytes bs tl : is_uint 64 (zlen bs) ->
  readVarInt (var_bytes bs ++ tl) (zlen (var_bytes bs ++ tl)) = Ok (zlen bs, calcVarIntSize (zlen bs)).
Proof. intros Hb. unfold var_bytes. rewrite <- app_assoc. by apply readVarInt_bytes. Qed.

Lemma drop_exact (a b : list byte) n : zlen a = Z.of_nat n -> drop n (a ++ b) = b.
Proof. unfold zlen. intros Hn. replace n with (length a) by lia. apply drop_app_length. Qed.

Lemma TxInCalcLength_spec i tl : txin_ok i -> TxInCalcLength (enc_txin i ++ tl) = Ok (zlen (enc_txin i)).
Proof.
  intros (Ho & Hs & Hl). unfold TxInCalcLength, enc_txin. rewrite <- !app_assoc.
  pose proof (calcVarIntSize_range (zlen (txin_script i))). pose proof (zlen_nonneg (txin_script i)).
  pose proof (zlen_nonneg tl). rewrite zlen_app, Ho.
  assert (1 <= zlen (var_bytes (txin_script i) ++ txin_sequence i ++ tl)) by (autorewrite with zlen; rewrite var_bytes_len; lia).
  destruct (Z.ltb_spec (36 + zlen (var_bytes (txin_script i) ++ txin_sequence i ++ tl)) 37); [lia|].
  rewrite (drop_exact _ _ 36) by done.
  replace (36 + zlen (var_bytes (txin_script i) ++ txin_sequence i ++ tl) - 36)
    with (zlen (var_bytes (txin_script i) ++ txin_sequence i ++ tl)) by lia.
  rewrite readVarInt_var_bytes by (unfold is_uint; lia). cbn [mbind result_bind].
  rewrite (wrap_small 32 (zlen (txin_script i))) by (unfold is_uint; lia).
  rewrite wrap_small by (unfold is_uint; lia). f_equal. autorewrite with zlen. rewrite var_bytes_len. lia.
Qed.

Lemma TxOutCalcLength_spec o tl : txout_ok o -> TxOutCalcLength (enc_txout o ++ tl) = Ok (zlen (enc_txout o)).
Proof.
  intros (Hv & Hl). unfold TxOutCalcLength, enc_txout. rewrite <- !app_assoc.
  pose proof (calcVarIntSize_range (zlen (txout_script o))). pose proof (zlen_nonneg (txout_script o)).
  pose proof (zlen_nonneg tl). rewrite zlen_app, Hv.
  assert (1 <= zlen (var_bytes (txout_script o) ++ tl)) by (autorewrite with zlen; rewrite var_bytes_len; lia).
  destruct (Z.ltb_spec (8 + zlen (var_bytes (txout_script o) ++ tl)) 9); [lia|].
  rewrite (drop_exact _ _ 8) by done.
  replace (8 + zlen (var_bytes (txout_script o) ++ tl) - 8) with (zlen (var_bytes (txout_script o) ++ tl)) by lia.
  rewrite readVarInt_var_bytes by (unfold is_uint; lia). cbn [mbind result_bind].
  rewrite (wrap_small 32 (zlen (txout_script o))) by (unfold is_uint; lia).
  rewrite wrap_small by (unfold is_uint; lia). f_equal. autorewrite with zlen. rewrite var_bytes_len. lia.
Qed.

Lemma witness_loop_spec items pre tl :
  zlen (pre ++ concat (map var_bytes items)) < 2 ^ 32 ->
  witness_loop (length items) (pre ++ concat (map var_bytes items) ++ tl) (zlen pre) =
  Ok (zlen (pre ++ concat (map var_bytes items))).
Proof.
  revert pre. induction items as [|x items IH]; intros pre Hl; cbn [length map concat witness_loop] in *.
  { by rewrite app_nil_r. }
  pose proof (calcVarIntSize_range (zlen x)). pose proof (zlen_nonneg x). pose proof (zlen_nonneg pre).
  pose proof (zlen_nonneg tl). pose proof (zlen_nonneg (concat (map var_bytes items))).
  assert (zlen pre + calcVarIntSize (zlen x) + zlen x + zlen (concat (map var_bytes items)) < 2 ^ 32) as Hb
    by (autorewrite with zlen in Hl; rewrite var_bytes_len in Hl; lia).
  rewrite <- !app_assoc.
  assert (zlen (pre ++ var_bytes x ++ concat (map var_bytes items) ++ tl) - zlen pre =
    zlen (var_bytes x ++ concat (map var_bytes items) ++ tl)) as -> by (rewrite (zlen_app pre); lia).
  assert (1 <= zlen (var_bytes x ++ concat (map var_bytes items) ++ tl)) by (autorewrite with zlen; rewrite var_bytes_len; lia).
  destruct (Z.ltb_spec (zlen (var_bytes x ++ concat (map var_bytes items) ++ tl)) 1); [lia|].
  rewrite drop_pre, readVarInt_var_bytes by (unfold is_uint; lia). cbn [mbind result_bind].
  rewrite (wrap_small 32 (zlen x)) by (unfold is_uint; lia).
  rewrite (wrap_small 32 (zlen pre + zlen x)), (wrap_small 32) by (unfold is_uint; lia).
  assert (zlen pre + zlen x + calcVarIntSize (zlen x) = zlen (pre ++ var_bytes x)) as ->
    by (rewrite zlen_app, var_bytes_len; lia).
  destruct (Z.ltb_spec (zlen (pre ++ var_bytes x ++ concat (map var_bytes items) ++ tl)) (zlen (pre ++ var_bytes x)));
    [autorewrite with zlen in *; lia|].
  rewrite (app_assoc pre), IH by (rewrite <- app_assoc; exact Hl). by rewrite <- app_assoc.
Qed.

Lemma TxWitnessCalcLength_spec w tl : zlen (enc_stack w) < 2 ^ 32 ->
  TxWitnessCalcLength (enc_stack w ++ tl) = Ok (zlen (enc_stack w)).
Proof.
  intros Hl. unfold TxWitnessCalcLength, enc_stack in *. rewrite <- !app_assoc.
  pose proof (calcVarIntSize_range (zlen w)). pose proof (zlen_nonneg w). pose proof (zlen_nonneg tl).
  assert (zlen w <= zlen (concat (map var_bytes w))) as Hw.
  { clear. induction w as [|x w IH]; cbn [map concat]; [done|]. autorewrite with zlen. rewrite var_bytes_len.
    pose proof (calcVarIntSize_range (zlen x)). pose proof (zlen_nonneg x). lia. }
  autorewrite with zlen in Hl.
  destruct (Z.ltb_spec (zlen (var_int_bytes (zlen w) ++ concat (map var_bytes w) ++ tl)) 1);
    [autorewrite with zlen in *; lia|].
  rewrite readVarInt_bytes by (unfold is_uint; lia). cbn [mbind result_bind].
  rewrite (wrap_small 32 (zlen w)), (wrap_small 32 (calcVarIntSize _)) by (unfold is_uint; lia).
  replace (Z.to_nat (zlen w)) with (length w) by (unfold zlen; lia).
  rewrite <- zlen_var_int_bytes. rewrite witness_loop_spec; [done|]. autorewrite with zlen. lia.
Qed.

(** ** The whole transaction *)

Lemma read_marker_at pre x y tl :
  read_marker (brr_at pre (x :: y :: tl)) = Ok (le_val [x; y] =? 0x0100, brr_at pre (x :: y :: tl)).
Proof.
  unfold read_marker. change (bdRef_ (brr_at pre (x :: y :: tl))) with (pre ++ [x; y] ++ tl).
  change (pos_ (brr_at pre (x :: y :: tl))) with (zlen pre). change 2 with (zlen [x; y]).
  by rewrite raw_read_app.
Qed.

(** A count of at least one input is not mistaken for the marker. *)
Lemma read_marker_count pre n tl : 1 <= n < 2 ^ 32 -> 1 <= zlen tl ->
  read_marker (brr_at pre (var_int_bytes n ++ tl)) = Ok (false, brr_at pre (var_int_bytes n ++ tl)).
Proof.
  intros Hn Htl.
  assert (exists x y l, var_int_bytes n ++ tl = x :: y :: l /\ b2z x <> 0) as (x & y & l & -> & Hx).
  { destruct tl as [|t tl]; [rewrite zlen_nil in Htl; lia|].
    unfold var_int_bytes. repeat zcase; try lia; cbn [app];
      (eexists _, _, _; split; [reflexivity|]); rewrite b2z_z2b_small; lia. }
  rewrite read_marker_at. do 2 f_equal. apply Z.eqb_neq. cbn [le_val].
  pose proof (b2z_range x). pose proof (b2z_range y). lia.
Qed.

(** The first offset of each list in an encoded transaction. *)
Definition ins_start (tx : Tx) : Z :=
  4 + (if tx_witnesses tx then 2 else 0) + calcVarIntSize (zlen (tx_ins tx)).
Definition outs_start (tx : Tx) : Z :=
  ins_start tx + zlen (concat (map enc_txin (tx_ins tx))) + calcVarIntSize (zlen (tx_outs tx)).
Definition wits_start (tx : Tx) : Z :=
  outs_start tx + zlen (concat (map enc_txout (tx_outs tx))).

Definition tx_offsets (tx : Tx) : TxOffsets :=
  mkOffsets (offsets (ins_start tx) (map enc_txin (tx_ins tx)))
            (offsets (outs_start tx) (map enc_txout (tx_outs tx)))
            (offsets (wits_start tx) (map enc_stack (default [] (tx_witnesses tx)))).

Lemma zlen_concat_ge {A} (enc : A -> list byte) l :
  (forall a, 1 <= zlen (enc a)) -> zlen l <= zlen (concat (map enc l)).
Proof.
  intros He. induction l as [|a l IH]; cbn [map concat]; [done|]. autorewrite with zlen.
  pose proof (He a). lia.
Qed.

Lemma enc_item_pos :
  (forall i, 1 <= zlen (enc_txin i)) /\ (forall o, 1 <= zlen (enc_txout o)) /\ (forall w, 1 <= zlen (enc_stack w)).
Proof.
  split; [|split].
  - intros i. pose proof (calcVarIntSize_range (zlen (txin_script i))). unfold enc_txin.
    rewrite !zlen_app, var_bytes_len. zlen_lia.
  - intros o. pose proof (calcVarIntSize_range (zlen (txout_script o))). unfold enc_txout.
    rewrite !zlen_app, var_bytes_len. zlen_lia.
  - intros w. pose proof (calcVarIntSize_range (zlen w)). unfold enc_stack. zlen_lia.
Qed.

Lemma Forall_map_calc {A} (enc : A -> list byte) (ok : A -> Prop) calc l :
  Forall ok l -> (forall a tl, ok a -> calc (enc a ++ tl) = Ok (zlen (enc a))) ->
  Forall (fun x => forall tl, zlen (x ++ tl) < two64 -> calc (x ++ tl) = Ok (zlen x)) (map enc l).
Proof. intros Hl Hc. apply Forall_fmap. eapply Forall_impl; [exact Hl|]. intros a Ha tl _. by apply Hc. Qed.

Section whole.
Context (tx : Tx) (Hok : tx_ok tx).

Lemma tx_counts :
  zlen (tx_ins tx) < 2 ^ 32 - 1 /\ zlen (tx_outs tx) < 2 ^ 32 - 1 /\
  Forall (fun w => zlen (enc_stack w) < 2 ^ 32) (default [] (tx_witnesses tx)).
Proof.
  pose proof (ok_size tx Hok) as Hs. unfold enc_tx in Hs. rewrite !zlen_app in Hs.
  destruct enc_item_pos as (Hi & Ho & _).
  pose proof (zlen_concat_ge enc_txin (tx_ins tx) Hi). pose proof (zlen_concat_ge enc_txout (tx_outs tx) Ho).
  pose proof (zlen_nonneg (tx_version tx)). pose proof (zlen_nonneg (tx_locktime tx)).
  pose proof (zlen_nonneg (tx_ins tx)). pose proof (zlen_nonneg (tx_outs tx)).
  pose proof (zlen_nonneg (if tx_witnesses tx then [z2b 0; z2b 1] else [])).
  pose proof (zlen_nonneg (var_int_bytes (zlen (tx_ins tx)))).
  pose proof (zlen_nonneg (var_int_bytes (zlen (tx_outs tx)))).
  pose proof (zlen_nonneg (concat (map enc_stack (default [] (tx_witnesses tx))))).
  split; [lia|]. split; [lia|].
  assert (zlen (concat (map enc_stack (default [] (tx_witnesses tx)))) < 2 ^ 32) as Hw by lia.
  clear -Hw. induction (default [] (tx_witnesses tx)) as [|w ws IH]; [constructor|].
  cbn [map concat] in Hw. rewrite zlen_app in Hw. pose proof (zlen_nonneg (enc_stack w)).
  pose proof (zlen_nonneg (concat (map enc_stack ws))). constructor; [lia|]. apply IH. lia.
Qed.

(** From the input count on. *)
Lemma calc_tail_from (segwit : bool) p :
  segwit = (if tx_witnesses tx then true else false) -> p = 4 + (if segwit then 2 else 0) ->
  parses_from p
    (vi ← brr_get_var_int;
     let nIn := wrap 32 vi in
     _ ← offsets_fit nIn;
     oIn ← leap_items TxInCalcLength (Z.to_nat nIn);
     vi ← brr_get_var_int;
     let nOut := wrap 32 vi in
     oOut ← read_outputs false nOut;
     oWit ← read_witnesses segwit nIn;
     _ ← skip 4;
     p ← get_position;
     mret (p, mkOffsets oIn oOut oWit))
    ((var_int_bytes (zlen (tx_ins tx)) ++ concat (map enc_txin (tx_ins tx))) ++
     (var_int_bytes (zlen (tx_outs tx)) ++ concat (map enc_txout (tx_outs tx))) ++
     concat (map enc_stack (default [] (tx_witnesses tx))) ++ tx_locktime tx)
    (zlen (enc_tx tx), tx_offsets tx).
Proof.
  intros Hsw Hp. destruct tx_counts as (Hni & Hno & Hw).
  pose proof (zlen_nonneg (tx_ins tx)). pose proof (zlen_nonneg (tx_outs tx)).
  rewrite <- app_assoc. eapply parses_from_bind;
    [apply parses_from_any, brr_get_var_int_parses; unfold is_uint; lia|].
  cbv zeta. rewrite wrap_small by (unfold is_uint; lia).
  eapply parses_from_bind_0; [apply offsets_fit_from; lia|].
  replace (Z.to_nat (zlen (tx_ins tx))) with (length (map enc_txin (tx_ins tx))) by (rewrite length_map; unfold zlen; lia).
  eapply parses_from_bind.
  { apply leap_items_from. apply (Forall_map_calc enc_txin txin_ok); [apply (ok_ins tx Hok)|apply TxInCalcLength_spec]. }
  rewrite <- app_assoc. eapply parses_from_bind;
    [apply parses_from_any, brr_get_var_int_parses; unfold is_uint; lia|].
  cbv zeta. rewrite wrap_small by (unfold is_uint; lia). unfold read_outputs.
  eapply parses_from_bind.
  { eapply parses_from_bind_0; [apply offsets_fit_from; lia|].
    replace (Z.to_nat (zlen (tx_outs tx))) with (length (map enc_txout (tx_outs tx))) by (rewrite length_map; unfold zlen; lia).
    apply leap_items_from. apply (Forall_map_calc enc_txout txout_ok); [apply (ok_outs tx Hok)|apply TxOutCalcLength_spec]. }
  eapply (parses_from_bind _ _ _ _ _ (offsets (wits_start tx) (map enc_stack (default [] (tx_witnesses tx))))).
  { rewrite !zlen_var_int_bytes.
    match goal with |- parses_from ?q _ _ _ => assert (q = wits_start tx) as -> end.
    { unfold wits_start, outs_start, ins_start. subst p segwit. destruct (tx_witnesses tx); lia. }
    pose proof (ok_wits tx Hok) as Hws. unfold read_witnesses. subst segwit.
    destruct (tx_witnesses tx) as [ws|]; cbn [default from_option map concat] in *.
    - eapply parses_from_bind_0; [apply offsets_fit_from; lia|]. rewrite <- Hws.
      replace (Z.to_nat (zlen ws)) with (length (map enc_stack ws)) by (rewrite length_map; unfold zlen; lia).
      apply leap_items_from. by apply (Forall_map_calc enc_stack (fun w => zlen (enc_stack w) < 2 ^ 32));
        [|intros; apply TxWitnessCalcLength_spec].
    - eapply parses_from_bind_0; [apply get_position_from|apply ret_from]. }
  rewrite <- (app_nil_r (tx_locktime tx)).
  eapply parses_from_bind; [apply skip_from, (ok_locktime tx Hok)|].
  eapply parses_from_bind_0; [apply get_position_from|].
  match goal with |- parses_from _ (mret (?q, ?o)) _ (?q', ?o') => assert (q = q') as ->; [|assert (o = o') as ->] end.
  - unfold enc_tx. autorewrite with zlen. rewrite (ok_version tx Hok). subst p segwit.
    destruct (tx_witnesses tx); autorewrite with zlen; lia.
  - unfold tx_offsets. rewrite !zlen_var_int_bytes. unfold outs_start, ins_start. subst p segwit.
    f_equal; f_equal; destruct (tx_witnesses tx); lia.
  - apply ret_from.
Qed.

Lemma calc_body_spec post : zlen (enc_tx tx ++ post) < two64 ->
  calc_body false (brr_at [] (enc_tx tx ++ post)) =
    Ok ((zlen (enc_tx tx), tx_offsets tx), brr_at (enc_tx tx) post).
Proof.
  intros Hl. pose proof (ok_version tx Hok) as Hv. pose proof (ok_nin tx Hok) as Hn.
  destruct tx_counts as (Hni & _). set (segwit := if tx_witnesses tx then true else false).
  pose proof (calc_tail_from segwit (4 + (if segwit then 2 else 0)) eq_refl eq_refl) as Htail.
  assert (1 <= zlen (concat (map enc_txin (tx_ins tx)))) as Hins.
  { destruct enc_item_pos as (Hi & _). pose proof (zlen_concat_ge enc_txin (tx_ins tx) Hi). lia. }
  assert (enc_tx tx = tx_version tx ++ (if tx_witnesses tx then [z2b 0; z2b 1] else []) ++
    ((var_int_bytes (zlen (tx_ins tx)) ++ concat (map enc_txin (tx_ins tx))) ++
     (var_int_bytes (zlen (tx_outs tx)) ++ concat (map enc_txout (tx_outs tx))) ++
     concat (map enc_stack (default [] (tx_witnesses tx))) ++ tx_locktime tx)) as Htx by done.
  set (rest := (var_int_bytes (zlen (tx_ins tx)) ++ concat (map enc_txin (tx_ins tx))) ++ _) in *.
  set (mk := if tx_witnesses tx then [z2b 0; z2b 1] else []) in *.
  assert (read_marker (brr_at (tx_version tx) (mk ++ rest ++ post)) =
    Ok (segwit, brr_at (tx_version tx) (mk ++ rest ++ post))) as Hmark.
  { unfold mk, segwit. destruct (tx_witnesses tx); [exact (read_marker_at _ _ _ _)|]. cbn [app]. unfold rest.
    rewrite <- !app_assoc. apply read_marker_count; [lia|]. rewrite zlen_app.
    match goal with |- _ <= _ + zlen ?l => pose proof (zlen_nonneg l) end. lia. }
  assert (zlen mk = if segwit then 2 else 0) as Hmk by (unfold mk, segwit; by destruct (tx_witnesses tx)).
  rewrite Htx in *. clearbody rest mk segwit. clear Htx. rewrite <- !app_assoc in *.
  unfold calc_body. unfold mbind at 1, reader_bind at 1.
  rewrite (skip_from 0 4 (tx_version tx) Hv [] (mk ++ rest ++ post)) by done.
  unfold mbind at 1, reader_bind at 1. cbn [app]. rewrite Hmark.
  unfold mbind at 1, reader_bind at 1.
  rewrite (skip_from 4 _ mk Hmk (tx_version tx) (rest ++ post)) by done.
  assert (zlen (tx_version tx ++ mk) = 4 + (if segwit then 2 else 0)) as Hp by (rewrite zlen_app; lia).
  refine (eq_trans (Htail (tx_version tx ++ mk) post Hp _) _); [by rewrite <- app_assoc|].
  by rewrite <- !app_assoc.
Qed.
End whole.

(** ** Properties *)

(** On a serialised transaction, with or without witnesses, followed by
    anything, [TxCalcLength] returns its exact size and the exact start and end
    of every input, output and witness stack. *)
Theorem TxCalcLength_correct (tx : Tx) (tl : list byte) :
  tx_ok tx -> zlen (enc_tx tx ++ tl) < two64 ->
  TxCalcLength (enc_tx tx ++ tl) = Ok (zlen (enc_tx tx), tx_offsets tx) /\
  StoredTxCalcLength (enc_tx tx ++ tl) false = Ok (zlen (enc_tx tx), tx_offsets tx).
Proof.
  intros Hok Hl. pose proof (calc_body_spec tx Hok tl Hl) as Hb.
  unfold TxCalcLength, StoredTxCalcLength. rewrite brr_setNewData_at, Hb. split; [|done].
  rewrite brr_remaining_at by done. destruct (Z.ltb_spec (zlen (enc_tx tx ++ tl)) 4) as [H4|_]; [|done].
  exfalso. unfold enc_tx in H4. rewrite !zlen_app, (ok_version tx Hok) in H4.
  repeat match goal with _ : context [zlen ?l] |- _ => lazymatch goal with
    | _ : 0 <= zlen l |- _ => fail | _ => pose proof (zlen_nonneg l) end end. lia.
Qed.

(** The length of an input whose script length is announced as [2^32 - 45] to
    [2^32 - 1] wraps around: fewer than 45 bytes are reported. *)
Theorem TxInCalcLength_wraps (outpoint tl : list byte) (n : Z) :
  zlen outpoint = 36 -> 2 ^ 32 - 45 <= n < 2 ^ 32 ->
  TxInCalcLength (outpoint ++ var_int_bytes n ++ tl) = Ok (n + 45 - 2 ^ 32) /\ n + 45 - 2 ^ 32 < 45.
Proof.
  intros Ho Hn. unfold TxInCalcLength. pose proof (zlen_nonneg tl).
  assert (calcVarIntSize n = 5) as H5 by (unfold calcVarIntSize; repeat zcase; lia).
  rewrite !zlen_app, zlen_var_int_bytes, Ho, H5.
  destruct (Z.ltb_spec (36 + (5 + zlen tl)) 37); [lia|]. rewrite (drop_exact _ _ 36) by done.
  replace (36 + (5 + zlen tl) - 36) with (zlen (var_int_bytes n ++ tl)) by (rewrite zlen_app, zlen_var_int_bytes; lia).
  rewrite readVarInt_bytes by (unfold is_uint; lia). cbn [mbind result_bind]. rewrite H5.
  rewrite (wrap_small 32 n) by (unfold is_uint; lia). split; [|lia]. f_equal. unfold wrap.
  symmetry. apply (Z.mod_unique _ _ 1); lia.
Qed.

(** A buffer of four bytes passes the size test and is read past its end. *)
Lemma TxCalcLength_reads_past_end (v : list byte) : zlen v = 4 -> TxCalcLength v = Err UB.
Proof.
  intros Hv. unfold TxCalcLength. rewrite brr_setNewData_at, brr_remaining_at by (cbn [app]; unfold two64; lia).
  destruct (Z.ltb_spec (zlen v) 4); [lia|]. unfold calc_body. unfold mbind at 2, reader_bind at 1.
  pose proof (skip_from 0 4 v Hv [] [] eq_refl) as Hs. rewrite app_nil_r in Hs.
  rewrite Hs by (cbn [app]; rewrite ?app_nil_r; unfold two64; lia). cbn [app].
  unfold mbind at 2, reader_bind at 1. unfold read_marker, brr_at, raw_read; cbn [bdRef_ pos_].
  rewrite app_nil_r, Hv. done.
Qed.

(** *** Witnesses *)

Definition some_txin : TxIn := mkTxIn (replicate 36 (z2b 1)) [z2b 0x51] (replicate 4 (z2b 255)).
Definition some_txout : TxOut := mkTxOut (replicate 8 (z2b 2)) [z2b 0x51; z2b 0x52].
Definition some_tx : Tx :=
  mkTx (replicate 4 (z2b 1)) [some_txin] [some_txout; some_txout] (Some [[[z2b 7]; []]]) (replicate 4 (z2b 0)).

Lemma some_tx_ok : tx_ok some_tx.
Proof.
  constructor; [vm_compute; reflexivity|vm_compute; reflexivity|vm_compute; discriminate| | |
    vm_compute; reflexivity|vm_compute; reflexivity].
  - constructor; [|constructor]. repeat split; vm_compute; reflexivity.
  - repeat (constructor; [repeat split; vm_compute; reflexivity|]). constructor.
Qed.

Lemma TxCalcLength_correct_witness :
  TxCalcLength (enc_tx some_tx ++ [z2b 9]) =
  Ok (80, mkOffsets [7; 49] [50; 61; 72] [72; 76]).
Proof.
  destruct (TxCalcLength_correct some_tx [z2b 9]) as [E _]; [exact some_tx_ok|vm_compute; reflexivity|].
  rewrite E. vm_compute. reflexivity.
Defined.

Lemma TxInCalcLength_wraps_witness :
  TxInCalcLength (replicate 36 (z2b 1) ++ var_int_bytes (2 ^ 32 - 1) ++ []) = Ok 44.
Proof.
  apply (TxInCalcLength_wraps (replicate 36 (z2b 1)) [] (2 ^ 32 - 1));
    [reflexivity|split; [discriminate|reflexivity]].
Defined.
