(* ===== verification/StoredTxOut.v ===== *)
(** * StoredTxOut: the outputs of the STXO table

    [StoredTxOut] of cppForSwig/StoredBlockObj.h and StoredBlockObj.cpp: an
    output with the place of its transaction in the chain, whether it is spent
    and by which input, its key and its format in the database. *)

From S2P Require Import Prelude BinaryData BinaryIO Hashing StdMap DBUtils.
From S2P Require Import BlockHeader HeadersDB ScriptUtils TxLength.


Inductive TXOUT_SPENTNESS := TXOUT_UNSPENT | TXOUT_SPENT | TXOUT_SPENTUNK.

#[export] Instance TXOUT_SPENTNESS_eq_dec : EqDecision TXOUT_SPENTNESS.
Proof. solve_decision. Defined.

Definition spentness_val (s : TXOUT_SPENTNESS) : Z :=
  match s with TXOUT_UNSPENT => 0 | TXOUT_SPENT => 1 | TXOUT_SPENTUNK => 2 end.

(** [spentness_] holds the number that was read: the cast does not test it.
    [isCoinbase_] is a [bool]; the caches [scrAddr_] and [hgtX_] are the values
    that are in them, empty where nothing was computed. *)
Record StoredTxOut := mkStxo {
  stxo_txVersion : Z;
  stxo_dataCopy : list byte;
  stxo_blockHeight : Z;
  stxo_duplicateID : Z;
  stxo_txIndex : Z;
  stxo_txOutIndex : Z;
  stxo_parentHash : list byte;
  stxo_spentness : Z;
  stxo_isCoinbase : bool;
  stxo_spentByTxInKey : list byte;
  stxo_hgtX : list byte;
  stxo_scrAddr : list byte;
  stxo_unserArmVer : Z;
  stxo_parentTxOutCount : Z;
  stxo_spenderHash : list byte;
}.

Definition StoredTxOut_new : StoredTxOut :=
  mkStxo UINT32_MAX [] UINT32_MAX UINT8_MAX UINT16_MAX UINT16_MAX [] (spentness_val TXOUT_SPENTUNK)
    false [] [] [] 0 0 [].

Definition stxo_isInitialized (s : StoredTxOut) : bool := 0 <? zlen (stxo_dataCopy s).

(** The members the functions below assign. *)
Definition set_stxo_data (data : list byte) (s : StoredTxOut) : StoredTxOut :=
  mkStxo (stxo_txVersion s) data (stxo_blockHeight s) (stxo_duplicateID s) (stxo_txIndex s)
    (stxo_txOutIndex s) (stxo_parentHash s) (stxo_spentness s) (stxo_isCoinbase s)
    (stxo_spentByTxInKey s) (stxo_hgtX s) (stxo_scrAddr s) (stxo_unserArmVer s)
    (stxo_parentTxOutCount s) (stxo_spenderHash s).
Definition set_stxo_place (height dup txIndex txOutIndex : Z) (s : StoredTxOut) : StoredTxOut :=
  mkStxo (stxo_txVersion s) (stxo_dataCopy s) height dup txIndex txOutIndex (stxo_parentHash s)
    (stxo_spentness s) (stxo_isCoinbase s) (stxo_spentByTxInKey s) (stxo_hgtX s) (stxo_scrAddr s)
    (stxo_unserArmVer s) (stxo_parentTxOutCount s) (stxo_spenderHash s).
Definition set_stxo_spent (spentness : Z) (key : list byte) (s : StoredTxOut) : StoredTxOut :=
  mkStxo (stxo_txVersion s) (stxo_dataCopy s) (stxo_blockHeight s) (stxo_duplicateID s)
    (stxo_txIndex s) (stxo_txOutIndex s) (stxo_parentHash s) spentness (stxo_isCoinbase s) key
    (stxo_hgtX s) (stxo_scrAddr s) (stxo_unserArmVer s) (stxo_parentTxOutCount s) (stxo_spenderHash s).
Definition set_stxo_spender (hash : list byte) (count : Z) (s : StoredTxOut) : StoredTxOut :=
  mkStxo (stxo_txVersion s) (stxo_dataCopy s) (stxo_blockHeight s) (stxo_duplicateID s)
    (stxo_txIndex s) (stxo_txOutIndex s) (stxo_parentHash s) (stxo_spentness s) (stxo_isCoinbase s)
    (stxo_spentByTxInKey s) (stxo_hgtX s) (stxo_scrAddr s) (stxo_unserArmVer s) count hash.
Definition set_stxo_parent (hash : list byte) (s : StoredTxOut) : StoredTxOut :=
  mkStxo (stxo_txVersion s) (stxo_dataCopy s) (stxo_blockHeight s) (stxo_duplicateID s)
    (stxo_txIndex s) (stxo_txOutIndex s) hash (stxo_spentness s) (stxo_isCoinbase s)
    (stxo_spentByTxInKey s) (stxo_hgtX s) (stxo_scrAddr s) (stxo_unserArmVer s)
    (stxo_parentTxOutCount s) (stxo_spenderHash s).
Definition set_stxo_flags (armVer txVersion spentness : Z) (isCoinbase : bool) (s : StoredTxOut) : StoredTxOut :=
  mkStxo txVersion (stxo_dataCopy s) (stxo_blockHeight s) (stxo_duplicateID s) (stxo_txIndex s)
    (stxo_txOutIndex s) (stxo_parentHash s) spentness isCoinbase (stxo_spentByTxInKey s) (stxo_hgtX s)
    (stxo_scrAddr s) armVer (stxo_parentTxOutCount s) (stxo_spenderHash s).
Definition set_stxo_scrAddr (addr : list byte) (s : StoredTxOut) : StoredTxOut :=
  mkStxo (stxo_txVersion s) (stxo_dataCopy s) (stxo_blockHeight s) (stxo_duplicateID s)
    (stxo_txIndex s) (stxo_txOutIndex s) (stxo_parentHash s) (stxo_spentness s) (stxo_isCoinbase s)
    (stxo_spentByTxInKey s) (stxo_hgtX s) addr (stxo_unserArmVer s) (stxo_parentTxOutCount s)
    (stxo_spenderHash s).
Definition set_stxo_hgtX (hgtX : list byte) (s : StoredTxOut) : StoredTxOut :=
  mkStxo (stxo_txVersion s) (stxo_dataCopy s) (stxo_blockHeight s) (stxo_duplicateID s)
    (stxo_txIndex s) (stxo_txOutIndex s) (stxo_parentHash s) (stxo_spentness s) (stxo_isCoinbase s)
    (stxo_spentByTxInKey s) hgtX (stxo_scrAddr s) (stxo_unserArmVer s) (stxo_parentTxOutCount s)
    (stxo_spenderHash s).

(** ** Keys *)

(** Empty while any index is still at its initial value. *)
Definition stxo_getDBKey (withPrefix : bool) (s : StoredTxOut) : list byte :=
  if (stxo_blockHeight s =? UINT32_MAX) || (stxo_duplicateID s =? UINT8_MAX)
     || (stxo_txIndex s =? UINT16_MAX) || (stxo_txOutIndex s =? UINT16_MAX) then []
  else if withPrefix then
    getBlkDataKey_txout (stxo_blockHeight s) (stxo_duplicateID s) (stxo_txIndex s) (stxo_txOutIndex s)
  else
    getBlkDataKeyNoPrefix_txout (stxo_blockHeight s) (stxo_duplicateID s) (stxo_txIndex s)
      (stxo_txOutIndex s).

Definition stxo_getDBKeyOfParentTx (withPrefix : bool) (s : StoredTxOut) : list byte :=
  getSliceCopy (stxo_getDBKey withPrefix s) 0 (if withPrefix then 7 else 6).

(** [getHgtX] fills the cache. *)
Definition stxo_getHgtX (s : StoredTxOut) : list byte * StoredTxOut :=
  if negb (zlen (stxo_hgtX s) =? 0) then (stxo_hgtX s, s)
  else let h := getSliceCopy (stxo_getDBKey false s) 0 4 in (h, set_stxo_hgtX h s).

Definition stxo_matchesDBKey (dbkey : list byte) (s : StoredTxOut) : bool :=
  if zlen dbkey =? 8 then equal (stxo_getDBKey false s) dbkey
  else if zlen dbkey =? 9 then equal (stxo_getDBKey true s) dbkey
  else false.

(** The indices that the key holds; where the key is of another kind, the
    members [readBlkDataKey] leaves alone keep their values. *)
Definition stxo_unserializeDBKey (key : list byte) (s : StoredTxOut) : result StoredTxOut :=
  let read (m : Reader BlkKey) :=
    '(k, _) ← m (brr_setNewData key);
    Ok (set_stxo_place (key_height k) (key_dupID k) (default (stxo_txIndex s) (key_txIdx k))
          (default (stxo_txOutIndex s) (key_txOutIdx k)) s) in
  if zlen key =? 8 then read readBlkDataKeyNoPrefix
  else if zlen key =? 9 then read readBlkDataKey
  else Ok s.

(** ** The output itself *)

(** The overload for a mutable object tests the size. *)
Definition stxo_getValue (s : StoredTxOut) : Z :=
  if 8 <=? zlen (stxo_dataCopy s) then le_val (take 8 (stxo_dataCopy s)) else UINT64_MAX.

Definition stxo_getValue_const (s : StoredTxOut) : result Z :=
  if negb (stxo_isInitialized s) then Ok UINT64_MAX
  else bs ← raw_read (stxo_dataCopy s) 0 8; Ok (le_val bs).

Definition stxo_getScriptRef (s : StoredTxOut) : result (list byte) :=
  '(script, _) ← (_ ← skip 8; n ← brr_get_var_int; brr_get_BinaryData (wrap 32 n))
                   (brr_setNewData (stxo_dataCopy s));
  Ok script.

Section stored_txout.
Context `{HashFns}.

(** [getScrAddress] fills the cache. *)
Definition stxo_getScrAddress (cfg : Config) (s : StoredTxOut) : result (list byte * StoredTxOut) :=
  if 0 <? zlen (stxo_scrAddr s) then Ok (stxo_scrAddr s, s)
  else
    script ← stxo_getScriptRef s;
    addr ← getTxOutScrAddr cfg script TXOUT_SCRIPT_NONSTANDARD;
    Ok (addr, set_stxo_scrAddr addr s).
End stored_txout.

(** [unserialize] logs and returns when the output is not complete. *)
Definition stxo_unserialize (s : StoredTxOut) : Reader StoredTxOut := fun r =>
  if brr_getSizeRemaining r <? 8 then Ok (s, r)
  else
    numBytes ← TxOutCalcLength (curr_ptr r);
    if brr_getSizeRemaining r <? numBytes then Ok (s, r)
    else '(data, r) ← brr_get_BinaryData numBytes r; Ok (set_stxo_data data s, r).

(** ** Database values *)

Definition stxo_bits (dbType : ARMORY_DB_TYPE) (txVersion spentness : Z) (isCoinbase : bool) : BitPacker :=
  bp_putBits 16 (db_type_val dbType) 2
    (bp_putBit 16 isCoinbase
      (bp_putBits 16 (wrap 16 spentness) 2
        (bp_putBits 16 (wrap 16 txVersion) 2
          (bp_putBits 16 (wrap 16 ARMORY_DB_VERSION) 4 bp_new)))).

(** [forceSaveSpentness] makes no difference: the switch it guards changes
    nothing. *)
Definition stxo_serializeDBValue (dbType : ARMORY_DB_TYPE) (forceSaveSpentness : bool) (s : StoredTxOut)
    (bw : BinaryWriter) : BinaryWriter :=
  let bw := bw_put_BitPacker 16
              (stxo_bits dbType (stxo_txVersion s) (stxo_spentness s) (stxo_isCoinbase s)) bw in
  let bw := bw_put_BinaryData (stxo_dataCopy s) bw in
  let bw := if stxo_spentness s =? spentness_val TXOUT_SPENT
            then bw_put_BinaryData (stxo_spentByTxInKey s) bw else bw in
  if negb (bool_decide (dbType = ARMORY_DB_SUPER)) then bw
  else bw_put_uint16_t (stxo_txOutIndex s) LE (bw_put_BinaryData (stxo_parentHash s) bw).

(** The key of the input that spends it, and what supernode mode adds. *)
Definition stxo_read_key (s : StoredTxOut) : Reader StoredTxOut :=
  n ← remaining;
  if (stxo_spentness s =? spentness_val TXOUT_SPENT) && (8 <=? n) then
    key ← brr_get_BinaryData 8; mret (set_stxo_spent (stxo_spentness s) key s)
  else mret s.

Definition stxo_read_super (dbType : Z) (s : StoredTxOut) : Reader StoredTxOut :=
  if negb (dbType =? db_type_val ARMORY_DB_SUPER) then mret s
  else
    hash ← brr_get_BinaryData 32;
    i ← brr_get_uint16_t LE;
    mret (set_stxo_place (stxo_blockHeight s) (stxo_duplicateID s) (stxo_txIndex s) i
            (set_stxo_parent hash s)).

Definition stxo_unserializeDBValue (s : StoredTxOut) : Reader StoredTxOut :=
  bits ← bu_read 16;
  let '(armVer, bits) := bu_getBits 16 4 bits in
  let '(txVersion, bits) := bu_getBits 16 2 bits in
  let '(spentness, bits) := bu_getBits 16 2 bits in
  let '(isCoinbase, bits) := bu_getBit 16 bits in
  let '(dbType, bits) := bu_getBits 16 2 bits in
  s ← stxo_unserialize (set_stxo_flags armVer txVersion spentness isCoinbase s);
  s ← stxo_read_key s;
  stxo_read_super dbType s.

(** ** Bit fields, with values that are cut to their widths *)

Lemma bp_putBits_mask w val bw p : 0 <= bw < w -> w <= 64 -> bp_putBits w (wrap bw val) bw p = bp_putBits w val bw p.
Proof.
  intros Hb Hw. unfold bp_putBits. rewrite (proj2 (Z.eqb_neq bw w)) by lia. rewrite !andb_false_r. cbv zeta.
  rewrite bit_mask_ones, !Z.land_ones by lia. unfold wrap at 2. by rewrite Z.mod_mod by (apply Z.pow_nonzero; lia).
Qed.

Definition bit_bytes (w : Z) (fs : list (Z * Z)) : list byte := bp_getBinaryData w (pack_fields w fs bp_new).

Lemma zlen_bit_bytes w fs : w = 8 \/ w = 16 \/ w = 32 \/ w = 64 -> zlen (bit_bytes w fs) = w / 8.
Proof.
  intros Hw. unfold bit_bytes, bp_getBinaryData, IntToStrBE. rewrite zlen_be_bytes.
  destruct Hw as [->|[->|[->| ->]]]; done.
Qed.

(** What an unpacker that reads packed fields gets. *)
Lemma bit_bytes_read w fs : w = 8 \/ w = 16 \/ w = 32 \/ w = 64 -> Forall field_ok fs -> fields_width fs <= w ->
  exists u, parses (bu_read w) (bit_bytes w fs) u /\ unpack_fields w (map fst fs) u = map snd fs.
Proof.
  intros Hw Hfs Hfit. exists (bu_setValue (bp_intVal (pack_fields w fs bp_new))). split.
  - by apply bu_read_parses.
  - pose proof (fields_width_nonneg fs Hfs).
    apply (unpack_pack_from w 0 0 bp_new); first [done|lia|apply bp_new_holds].
Qed.

Lemma wrap_field bw v : 0 < bw -> field_ok (bw, wrap bw v).
Proof. intros H. split; [done|]. apply (wrap_range bw v). lia. Qed.

Lemma bit_field (b : bool) : field_ok (1, if b then 1 else 0).
Proof. split; simpl; [lia|]. destruct b; lia. Qed.
#[export] Hint Resolve wrap_field bit_field : armory.

(** ** What the table holds of an output *)

(** The record that reading the value into [s0] gives: of [s] the number of
    the format, two bits of the version, the spentness, the coinbase flag, the
    output and, where it is spent, the input; in supernode mode also the hash
    and the index. *)
Definition with_spender (s r : StoredTxOut) : StoredTxOut :=
  if stxo_spentness s =? spentness_val TXOUT_SPENT then set_stxo_spent (stxo_spentness s) (stxo_spentByTxInKey s) r
  else r.
Definition with_super (dbType : ARMORY_DB_TYPE) (s r : StoredTxOut) : StoredTxOut :=
  if bool_decide (dbType = ARMORY_DB_SUPER)
  then set_stxo_place (stxo_blockHeight r) (stxo_duplicateID r) (stxo_txIndex r) (stxo_txOutIndex s)
         (set_stxo_parent (stxo_parentHash s) r)
  else r.
Definition stxo_read_back (dbType : ARMORY_DB_TYPE) (s s0 : StoredTxOut) : StoredTxOut :=
  with_super dbType s (with_spender s (set_stxo_data (stxo_dataCopy s)
    (set_stxo_flags 2 (wrap 2 (stxo_txVersion s)) (stxo_spentness s) (stxo_isCoinbase s) s0))).

(** An output that can be stored: a complete output, a known spentness, the key
    of the input where it is spent. *)
Record stxo_ok (dbType : ARMORY_DB_TYPE) (s : StoredTxOut) : Prop := {
  so_data : exists o, txout_ok o /\ stxo_dataCopy s = enc_txout o;
  so_spentness : stxo_spentness s = spentness_val TXOUT_UNSPENT \/
    stxo_spentness s = spentness_val TXOUT_SPENT \/ stxo_spentness s = spentness_val TXOUT_SPENTUNK;
  so_key : stxo_spentness s = spentness_val TXOUT_SPENT -> zlen (stxo_spentByTxInKey s) = 8;
  so_super : dbType = ARMORY_DB_SUPER -> zlen (stxo_parentHash s) = 32 /\ is_uint 16 (stxo_txOutIndex s);
}.

Definition stxo_value (dbType : ARMORY_DB_TYPE) (force : bool) (s : StoredTxOut) : list byte :=
  theString_ (stxo_serializeDBValue dbType force s bw_new).

Lemma stxo_bits_fields dbType v sp cb : stxo_bits dbType v sp cb =
  pack_fields 16 [(4, 2); (2, wrap 2 v); (2, wrap 2 sp); (1, if cb then 1 else 0); (2, db_type_val dbType)] bp_new.
Proof.
  unfold stxo_bits, bp_putBit. cbn [pack_fields]. rewrite !(bp_putBits_mask 16) by lia.
  rewrite <- (bp_putBits_mask 16 (wrap 16 sp)), <- (bp_putBits_mask 16 (wrap 16 v)),
    <- (bp_putBits_mask 16 (wrap 16 ARMORY_DB_VERSION)) by lia.
  assert (forall x n, 0 <= n <= 16 -> wrap n (wrap 16 x) = wrap n x) as E.
  { intros x n Hn. unfold wrap. apply Z.mod_mod_divide. exists (2 ^ (16 - n)).
    rewrite <- Z.pow_add_r by lia. f_equal. lia. }
  rewrite !E by lia. change (wrap 4 ARMORY_DB_VERSION) with 2.
  rewrite (bp_putBits_mask 16 sp), (bp_putBits_mask 16 v) by lia. reflexivity.
Qed.

Lemma stxo_value_bytes dbType force s : stxo_value dbType force s =
  bit_bytes 16 [(4, 2); (2, wrap 2 (stxo_txVersion s)); (2, wrap 2 (stxo_spentness s));
                (1, if stxo_isCoinbase s then 1 else 0); (2, db_type_val dbType)] ++
  stxo_dataCopy s ++
  (if stxo_spentness s =? spentness_val TXOUT_SPENT then stxo_spentByTxInKey s else []) ++
  (if bool_decide (dbType = ARMORY_DB_SUPER) then stxo_parentHash s ++ int_to LE 2 (stxo_txOutIndex s) else []).
Proof.
  unfold stxo_value, stxo_serializeDBValue, bw_put_BitPacker. rewrite stxo_bits_fields.
  destruct (stxo_spentness s =? _), (bool_decide (dbType = ARMORY_DB_SUPER)); cbn [negb]; autorewrite with bw;
    unfold bit_bytes; by rewrite ?app_nil_l, ?app_nil_r, <- ?app_assoc.
Qed.

Lemma stxo_unserialize_parses o s0 : txout_ok o ->
  parses (stxo_unserialize s0) (enc_txout o) (set_stxo_data (enc_txout o) s0).
Proof.
  intros Ho pre post Hl. unfold stxo_unserialize. rewrite brr_remaining_at by done. rewrite curr_ptr_at.
  rewrite (TxOutCalcLength_spec o post Ho). pose proof (zlen_nonneg post).
  assert (8 <= zlen (enc_txout o)) as H8.
  { destruct Ho as [Hv _]. unfold enc_txout. rewrite zlen_app, Hv. pose proof (zlen_nonneg (var_bytes (txout_script o))). lia. }
  rewrite zlen_app. rewrite (proj2 (Z.ltb_ge _ _)) by lia. cbn [mbind result_bind].
  rewrite (proj2 (Z.ltb_ge _ _)) by lia. by rewrite (brr_get_BinaryData_parses _ (enc_txout o) eq_refl) by done.
Qed.

Lemma remaining_parses {B} (k : Z -> Reader B) pre post : zlen (pre ++ post) < two64 ->
  (remaining ≫= k) (brr_at pre post) = k (zlen post) (brr_at pre post).
Proof. intros Hl. unfold mbind, reader_bind, remaining. by rewrite brr_remaining_at. Qed.

Lemma stxo_read_key_parses s r : stxo_spentness r = stxo_spentness s ->
  (stxo_spentness s = spentness_val TXOUT_SPENT -> zlen (stxo_spentByTxInKey s) = 8) ->
  parses (stxo_read_key r) (if stxo_spentness s =? spentness_val TXOUT_SPENT then stxo_spentByTxInKey s else [])
    (with_spender s r).
Proof.
  intros Hr Hk pre post Hl. unfold stxo_read_key, with_spender.
  rewrite remaining_parses by done. rewrite Hr. pose proof (zlen_nonneg post).
  destruct (Z.eqb_spec (stxo_spentness s) (spentness_val TXOUT_SPENT)) as [Es|_]; cbn [andb];
    [|by apply (parses_ret r)].
  specialize (Hk Es). rewrite zlen_app, Hk, (proj2 (Z.leb_le 8 _)) by lia.
  by rewrite (bind_parses _ _ _ _ _ _ (brr_get_BinaryData_parses 8 _ Hk)).
Qed.

Lemma stxo_read_super_parses dbType s r :
  (dbType = ARMORY_DB_SUPER -> zlen (stxo_parentHash s) = 32 /\ is_uint 16 (stxo_txOutIndex s)) ->
  parses (stxo_read_super (db_type_val dbType) r)
    (if bool_decide (dbType = ARMORY_DB_SUPER) then stxo_parentHash s ++ int_to LE 2 (stxo_txOutIndex s) else [])
    (with_super dbType s r).
Proof.
  intros Hsup. unfold stxo_read_super, with_super. case_bool_decide as Et.
  - destruct (Hsup Et) as [Hh Hi]. rewrite Et. cbn [negb db_type_val Z.eqb Pos.eqb].
    eapply parses_bind; [by apply brr_get_BinaryData_parses|].
    eapply parses_bind_ret; [by apply brr_get_uint16_t_parses|apply parses_ret].
  - destruct dbType; [apply parses_ret..|done].
Qed.

(** The value of an output is read back from its place in a stream. *)
Theorem stxo_roundtrip dbType force s s0 (Hs : stxo_ok dbType s) :
  parses (stxo_unserializeDBValue s0) (stxo_value dbType force s) (stxo_read_back dbType s s0).
Proof.
  destruct Hs as [(o & Ho & Hd) Hsp Hk Hsup]. rewrite stxo_value_bytes.
  match goal with |- parses _ (bit_bytes 16 ?f ++ _) _ => set (fs := f) end.
  assert (Forall field_ok fs) as Hfs.
  { unfold fs. repeat constructor; cbn [fst snd]; try lia;
      try (apply (wrap_range 2); lia); try (destruct (stxo_isCoinbase s); lia); destruct dbType; simpl; lia. }
  destruct (bit_bytes_read 16 fs ltac:(auto) Hfs ltac:(done)) as (u & Hu & Hun).
  eapply parses_bind; [exact Hu|]. unfold fs in Hun. cbn [unpack_fields map fst snd] in Hun. clearbody fs.
  unfold bu_getBit. destruct (bu_getBits 16 4 u) as [f1 u1], (bu_getBits 16 2 u1) as [f2 u2] eqn:E2.
  destruct (bu_getBits 16 2 u2) as [f3 u3], (bu_getBits 16 1 u3) as [f4 u4], (bu_getBits 16 2 u4) as [f5 u5].
  injection Hun as -> -> -> -> ->.
  assert (wrap 2 (stxo_spentness s) = stxo_spentness s) as -> by (destruct Hsp as [->|[->| ->]]; done).
  assert ((0 <? (if stxo_isCoinbase s then 1 else 0)) = stxo_isCoinbase s) as -> by (by destruct (stxo_isCoinbase s)).
  rewrite Hd. eapply parses_bind; [by apply stxo_unserialize_parses|].
  eapply parses_bind; [by apply (stxo_read_key_parses s)|]. unfold stxo_read_back. rewrite Hd.
  by apply stxo_read_super_parses.
Qed.

Definition stxo_example : StoredTxOut :=
  set_stxo_spent (spentness_val TXOUT_SPENT) (replicate 8 (z2b 7))
    (set_stxo_data (enc_txout some_txout) StoredTxOut_new).

Lemma stxo_roundtrip_witness :
  parses (stxo_unserializeDBValue StoredTxOut_new) (stxo_value ARMORY_DB_BARE true stxo_example)
    (stxo_read_back ARMORY_DB_BARE stxo_example StoredTxOut_new).
Proof.
  apply (stxo_roundtrip ARMORY_DB_BARE true stxo_example StoredTxOut_new). constructor; [|by right; left|done|done].
  exists some_txout. done.
Defined.
