(* ===== verification/ScriptHistory.v ===== *)
(** * ScriptHistory: the histories of addresses in the database

    [TxIOPair] (cppForSwig/txio.h, txio.cpp), an output with the input that
    spends it, and [StoredSubHistory], [StoredScriptHistory]
    (cppForSwig/StoredBlockObj.h, StoredBlockObj.cpp), the outputs and spends of
    an address in one block and its totals, with their database formats. *)

From S2P Require Import Prelude BinaryData BinaryIO Hashing StdMap MapSums DBUtils.
From S2P Require Import BlockHeader HeadersDB ScriptUtils TxLength StoredTxOut.

(** ** [TxIOPair]

    A [TxRef] is its key.  Left out are [flagged] and the function that gives
    the address: neither is read here, and a copy does not take them over. *)

Record TxIOPair := mkTxIO {
  amount_ : Z;
  txRefOfOutput_ : list byte;
  indexOfOutput_ : Z;
  txRefOfInput_ : list byte;
  indexOfInput_ : Z;
  txHashOfOutput_ : list byte;
  txHashOfInput_ : list byte;
  isTxOutFromSelf_ : bool;
  isFromCoinbase_ : bool;
  isMultisig_ : bool;
  txio_isRBF_ : bool;
  isZCChained_ : bool;
  txtime_ : Z;
  isUTXO_ : bool;
}.

Definition TxIOPair_amount (amount : Z) : TxIOPair :=
  mkTxIO amount [] 0 [] 0 [] [] false false false false false 0 false.
Definition TxIOPair_new : TxIOPair := TxIOPair_amount 0.

Definition hasTxOut (t : TxIOPair) : bool := 0 <? zlen (txRefOfOutput_ t).
Definition hasTxIn (t : TxIOPair) : bool := 0 <? zlen (txRefOfInput_ t).
Definition hasTxOutZC (t : TxIOPair) : bool := startsWith (txRefOfOutput_ t) [z2b 255; z2b 255].
Definition hasTxInZC (t : TxIOPair) : bool := startsWith (txRefOfInput_ t) [z2b 255; z2b 255].
Definition hasValue (t : TxIOPair) : bool := negb (amount_ t =? 0).
Definition isSourceUnknown (t : TxIOPair) : bool := negb (hasTxOut t) && hasTxIn t.

(** The setters. *)
Definition setValue (v : Z) (t : TxIOPair) : TxIOPair :=
  mkTxIO v (txRefOfOutput_ t) (indexOfOutput_ t) (txRefOfInput_ t) (indexOfInput_ t) (txHashOfOutput_ t)
    (txHashOfInput_ t) (isTxOutFromSelf_ t) (isFromCoinbase_ t) (isMultisig_ t) (txio_isRBF_ t)
    (isZCChained_ t) (txtime_ t) (isUTXO_ t).
Definition setTxOut_ref (txref : list byte) (index : Z) (t : TxIOPair) : TxIOPair :=
  mkTxIO (amount_ t) txref index (txRefOfInput_ t) (indexOfInput_ t) (txHashOfOutput_ t)
    (txHashOfInput_ t) (isTxOutFromSelf_ t) (isFromCoinbase_ t) (isMultisig_ t) (txio_isRBF_ t)
    (isZCChained_ t) (txtime_ t) (isUTXO_ t).
Definition setTxIn_ref (txref : list byte) (index : Z) (t : TxIOPair) : TxIOPair :=
  mkTxIO (amount_ t) (txRefOfOutput_ t) (indexOfOutput_ t) txref index (txHashOfOutput_ t)
    (txHashOfInput_ t) (isTxOutFromSelf_ t) (isFromCoinbase_ t) (isMultisig_ t) (txio_isRBF_ t)
    (isZCChained_ t) (txtime_ t) (isUTXO_ t).
Definition setTxOutFromSelf (b : bool) (t : TxIOPair) : TxIOPair :=
  mkTxIO (amount_ t) (txRefOfOutput_ t) (indexOfOutput_ t) (txRefOfInput_ t) (indexOfInput_ t)
    (txHashOfOutput_ t) (txHashOfInput_ t) b (isFromCoinbase_ t) (isMultisig_ t) (txio_isRBF_ t)
    (isZCChained_ t) (txtime_ t) (isUTXO_ t).
Definition setFromCoinbase (b : bool) (t : TxIOPair) : TxIOPair :=
  mkTxIO (amount_ t) (txRefOfOutput_ t) (indexOfOutput_ t) (txRefOfInput_ t) (indexOfInput_ t)
    (txHashOfOutput_ t) (txHashOfInput_ t) (isTxOutFromSelf_ t) b (isMultisig_ t) (txio_isRBF_ t)
    (isZCChained_ t) (txtime_ t) (isUTXO_ t).
Definition setMultisig (b : bool) (t : TxIOPair) : TxIOPair :=
  mkTxIO (amount_ t) (txRefOfOutput_ t) (indexOfOutput_ t) (txRefOfInput_ t) (indexOfInput_ t)
    (txHashOfOutput_ t) (txHashOfInput_ t) (isTxOutFromSelf_ t) (isFromCoinbase_ t) b (txio_isRBF_ t)
    (isZCChained_ t) (txtime_ t) (isUTXO_ t).
Definition setUTXO (b : bool) (t : TxIOPair) : TxIOPair :=
  mkTxIO (amount_ t) (txRefOfOutput_ t) (indexOfOutput_ t) (txRefOfInput_ t) (indexOfInput_ t)
    (txHashOfOutput_ t) (txHashOfInput_ t) (isTxOutFromSelf_ t) (isFromCoinbase_ t) (isMultisig_ t)
    (txio_isRBF_ t) (isZCChained_ t) (txtime_ t) b.

(** The key's six bytes and its index; another size resets. *)
Definition split_key8 (dbKey8B : list byte) : list byte * Z :=
  (take 6 dbKey8B, be_val (drop 6 dbKey8B)).
Definition setTxOut (dbKey8B : list byte) (t : TxIOPair) : TxIOPair :=
  if zlen dbKey8B =? 8 then setTxOut_ref (split_key8 dbKey8B).1 (split_key8 dbKey8B).2 t
  else setTxOut_ref [] 0 t.
Definition setTxIn (dbKey8B : list byte) (t : TxIOPair) : TxIOPair :=
  if zlen dbKey8B =? 8 then setTxIn_ref (split_key8 dbKey8B).1 (split_key8 dbKey8B).2 t
  else setTxIn_ref [] 0 t.

Definition TxIOPair_key (txOutKey8B : list byte) (val : Z) : TxIOPair := setTxOut txOutKey8B (TxIOPair_amount val).

(** The index is passed as a [uint16_t]. *)
Definition getDBKeyOfOutput (t : TxIOPair) : list byte :=
  TxRef_getDBKeyOfChild (txRefOfOutput_ t) (wrap 16 (indexOfOutput_ t)).
Definition getDBKeyOfInput (t : TxIOPair) : list byte :=
  TxRef_getDBKeyOfChild (txRefOfInput_ t) (wrap 16 (indexOfInput_ t)).

Definition txio_less (a b : TxIOPair) : bool := less (getDBKeyOfOutput a) (getDBKeyOfOutput b).
Definition txio_equal (a b : TxIOPair) : bool := equal (getDBKeyOfOutput a) (getDBKeyOfOutput b).
Definition txio_ge_key (t : TxIOPair) (dbKey : list byte) : bool :=
  greater_eq (txRefOfOutput_ t) dbKey || greater_eq (txRefOfInput_ t) dbKey.

(** ** Whether a transaction is on the main branch

    [validDup] is [LMDBBlockDatabase]'s table of duplicate ids by height. *)

Definition COINBASE_MATURITY : Z := 120.
Definition MIN_CONFIRMATIONS : Z := 6.

Section main_branch.
Variable validDup : stdmap Z Z.

Definition valid_dup_at (height : Z) : Z := default UINT8_MAX (map_find height validDup).

(** [DBTxRef::isMainBranch] *)
Definition isMainBranch (dbKey6B : list byte) : result bool :=
  if negb (zlen dbKey6B =? 6) then Ok false
  else
    height ← TxRef_getBlockHeight dbKey6B;
    dup ← TxRef_getDuplicateID dbKey6B;
    Ok (dup =? valid_dup_at height).

Definition hasTxOutInMain (t : TxIOPair) : result bool :=
  if hasTxOutZC t then Ok false else if negb (hasTxOut t) then Ok false else isMainBranch (txRefOfOutput_ t).
Definition hasTxInInMain (t : TxIOPair) : result bool :=
  if hasTxInZC t then Ok false else if negb (hasTxIn t) then Ok false else isMainBranch (txRefOfInput_ t).

Definition reassessValidity (t : TxIOPair) : result (bool * bool) :=
  o ← hasTxOutInMain t; i ← hasTxInInMain t; Ok (o, i).

Definition isSpent (t : TxIOPair) : result bool :=
  if hasTxInZC t then Ok true else hasTxInInMain t.

Definition isUnspent (t : TxIOPair) : result bool :=
  here ← (if hasTxOutZC t then Ok true else hasTxOutInMain t);
  if negb here then Ok false else negb <$> isSpent t.

(** [currBlk - getBlockHeight() + 1] as a [uint32_t] *)
Definition nConf (t : TxIOPair) (currBlk : Z) : result Z :=
  height ← TxRef_getBlockHeight (txRefOfOutput_ t); Ok (wrap 32 (currBlk - height + 1)).

Definition isSpendable (t : TxIOPair) (currBlk : Z) : result bool :=
  spent ← (if hasTxInZC t then Ok true else hasTxInInMain t);
  if spent : bool then Ok false
  else
    here ← hasTxOutInMain t;
    if here : bool then
      n ← nConf t currBlk;
      if isFromCoinbase_ t && (n <=? COINBASE_MATURITY) then Ok false else Ok true
    else Ok false.

Definition isMineButUnconfirmed (t : TxIOPair) (currBlk : Z) : result bool :=
  spent ← (if hasTxInZC t then Ok true else if hasTxIn t then isMainBranch (txRefOfInput_ t) else Ok false);
  if spent : bool then Ok false
  else if hasTxOutZC t then Ok true
  else
    here ← hasTxOutInMain t;
    if here : bool then
      n ← nConf t currBlk;
      if isFromCoinbase_ t then Ok (n <? COINBASE_MATURITY) else Ok (n <? MIN_CONFIRMATIONS)
    else Ok false.
End main_branch.

(** ** [StoredSubHistory] *)

Record StoredSubHistory := mkSub {
  sub_uniqueKey : list byte;
  sub_hgtX : list byte;
  txioMap_ : stdmap (list byte) TxIOPair;
  sub_height : Z;
  sub_dupID : Z;
  txioCount_ : Z;
}.

Definition StoredSubHistory_new : StoredSubHistory := mkSub [] [] [] 0 0 0.
Definition sub_isInitialized (s : StoredSubHistory) : bool := 0 <? zlen (sub_uniqueKey s).

Definition set_txioMap (m : stdmap (list byte) TxIOPair) (s : StoredSubHistory) : StoredSubHistory :=
  mkSub (sub_uniqueKey s) (sub_hgtX s) m (sub_height s) (sub_dupID s) (txioCount_ s).
Definition set_txioCount (n : Z) (s : StoredSubHistory) : StoredSubHistory :=
  mkSub (sub_uniqueKey s) (sub_hgtX s) (txioMap_ s) (sub_height s) (sub_dupID s) n.
Definition set_sub_uniqueKey (k : list byte) (s : StoredSubHistory) : StoredSubHistory :=
  mkSub k (sub_hgtX s) (txioMap_ s) (sub_height s) (sub_dupID s) (txioCount_ s).
Definition set_sub_key (k hgtX : list byte) (s : StoredSubHistory) : StoredSubHistory :=
  mkSub k hgtX (txioMap_ s) (sub_height s) (sub_dupID s) (txioCount_ s).

(** The key of a sub history is that of the history with height and id. *)
Definition sub_getDBKey (withPrefix : bool) (s : StoredSubHistory) : list byte :=
  theString_ (bw_put_BinaryData (sub_hgtX s) (bw_put_BinaryData (sub_uniqueKey s)
    (if withPrefix then bw_put_uint8_t (prefix_val DB_PREFIX_SCRIPT) bw_new else bw_new))).

Definition sub_unserializeDBKey (key : list byte) (withPrefix : bool) (s : StoredSubHistory)
    : result StoredSubHistory :=
  '(s, _) ← (_ ← (if withPrefix then checkPrefixByte DB_PREFIX_SCRIPT false else mret true);
             uniqueKey ← brr_get_BinaryData (wrap 32 (zlen key - (if withPrefix then 1 else 0) - 4));
             hgtX ← brr_get_BinaryData 4;
             hgt ← reader_of (raw_read hgtX 0 3);
             dup ← reader_of (raw_read hgtX 3 1);
             mret (mkSub uniqueKey hgtX (txioMap_ s) (be_val hgt) (be_val dup) (txioCount_ s)))
            (brr_setNewData key);
  Ok s.

Definition sub_getScriptType (s : StoredSubHistory) : result Z :=
  if zlen (sub_uniqueKey s) =? 0 then Ok SCRIPT_PREFIX_NONSTD
  else b ← at_ (sub_uniqueKey s) 0; Ok (b2z b).

(** One entry of the value: five flags, the amount, and the keys: of an unspent
    output only the last four bytes of its key, of a spend the output's whole
    key and the last four bytes of the input's. *)
Definition txio_bits (t : TxIOPair) (spent : bool) : BitPacker :=
  bp_putBit 8 (isUTXO_ t) (bp_putBit 8 (isMultisig_ t) (bp_putBit 8 spent
    (bp_putBit 8 (isFromCoinbase_ t) (bp_putBit 8 (isTxOutFromSelf_ t) bp_new)))).

Definition put_txio (validDup : stdmap Z Z) (t : TxIOPair) (bw : BinaryWriter) : result BinaryWriter :=
  isSpent ← hasTxInInMain validDup t;
  if isSpent && negb (hasTxIn t) then Ok bw
  else
    let key8B := if isSpent : bool then getDBKeyOfInput t else getDBKeyOfOutput t in
    flag ← hasTxInInMain validDup t;
    let bw := bw_put_uint64_t (amount_ t) LE (bw_put_BitPacker 8 (txio_bits t flag) bw) in
    if negb isSpent then Ok (bw_put_BinaryData (getSliceCopy key8B 4 4) bw)
    else Ok (bw_put_BinaryData (getSliceCopy key8B 4 4) (bw_put_BinaryData (getDBKeyOfOutput t) bw)).

Fixpoint put_txios (validDup : stdmap Z Z) (m : stdmap (list byte) TxIOPair) (bw : BinaryWriter)
    : result BinaryWriter :=
  match m with
  | [] => Ok bw
  | (_, t) :: m => bw ← put_txio validDup t bw; put_txios validDup m bw
  end.

Definition sub_serializeDBValue (validDup : stdmap Z Z) (s : StoredSubHistory) (bw : BinaryWriter)
    : result BinaryWriter :=
  put_txios validDup (txioMap_ s) (bw_put_var_int (zlen (txioMap_ s)) bw).1.

Definition get_txio (hgtX : list byte) : Reader TxIOPair :=
  bits ← bu_read 8;
  let '(isFromSelf, bits) := bu_getBit 8 bits in
  let '(isCoinbase, bits) := bu_getBit 8 bits in
  let '(isSpent, bits) := bu_getBit 8 bits in
  let '(isMulti, bits) := bu_getBit 8 bits in
  let '(isUTXO, bits) := bu_getBit 8 bits in
  txoValue ← brr_get_uint64_t LE;
  let txio := setUTXO isUTXO (setValue txoValue TxIOPair_new) in
  txio ← (if negb isSpent then
            last4 ← brr_get_BinaryData 4; mret (setTxOut (hgtX ++ last4) txio)
          else
            out8 ← brr_get_BinaryData 8;
            last4 ← brr_get_BinaryData 4;
            mret (setTxIn (hgtX ++ last4) (setTxOut out8 txio)));
  mret (setMultisig isMulti (setFromCoinbase isCoinbase (setTxOutFromSelf isFromSelf txio))).

Fixpoint get_txios (n : nat) (hgtX : list byte) (m : stdmap (list byte) TxIOPair)
    : Reader (stdmap (list byte) TxIOPair) :=
  match n with
  | O => mret m
  | S n =>
      txio ← get_txio hgtX;
      get_txios n hgtX (map_insert (getDBKeyOfOutput txio) txio m).1
  end.

(** Without a key nothing is read, and the history is no longer initialised. *)
Definition sub_unserializeDBValue (s : StoredSubHistory) : Reader StoredSubHistory :=
  if negb (zlen (sub_hgtX s) =? 4) then mret (set_sub_uniqueKey [] s)
  else
    vi ← brr_get_var_int;
    let n := wrap 32 vi in
    m ← get_txios (Z.to_nat n) (sub_hgtX s) (txioMap_ s);
    mret (set_txioMap m (set_txioCount n s)).

Definition sub_getSummary (s : StoredSubHistory) : Reader StoredSubHistory :=
  if negb (zlen (sub_hgtX s) =? 4) then mret (set_sub_uniqueKey [] s)
  else vi ← brr_get_var_int; mret (set_txioCount (wrap 32 vi) s).

(** Sums as [uint64_t]s. *)
Definition received_of (withMultisig : bool) (t : TxIOPair) : Z :=
  if isUTXO_ t && (negb (isMultisig_ t) || withMultisig) then amount_ t
  else if hasTxIn t then amount_ t else 0.
Definition balance_of (withMultisig : bool) (t : TxIOPair) : Z :=
  if negb (hasTxIn t) then if negb (isMultisig_ t) || withMultisig then amount_ t else 0 else 0.

Definition getSubHistoryReceived (withMultisig : bool) (s : StoredSubHistory) : Z :=
  sum64 (received_of withMultisig) (map_values (txioMap_ s)).
Definition getSubHistoryBalance (withMultisig : bool) (s : StoredSubHistory) : Z :=
  sum64 (balance_of withMultisig) (map_values (txioMap_ s)).

(** [markTxOutUnspent]; the second result is the new [additionalSize], with
    [sizeofTxio] bytes of a [TxIOPair]. *)
Definition markTxOutUnspent (sizeofTxio : Z) (txOutKey8B : list byte) (additionalSize value : Z)
    (isCoinbase isMultisigRef : bool) (s : StoredSubHistory) : StoredSubHistory * Z :=
  let txio := default TxIOPair_new (map_find txOutKey8B (txioMap_ s)) in
  if negb (hasTxOut txio) then
    (set_txioMap (map_put txOutKey8B
       (setUTXO true (setMultisig isMultisigRef (setFromCoinbase isCoinbase
          (setValue value (setTxOut txOutKey8B txio))))) (txioMap_ s)) s,
     wrap 64 (additionalSize + sizeofTxio + 8))
  else
    (set_txioMap (map_put txOutKey8B (setUTXO true (setTxIn_ref [] UINT32_MAX txio)) (txioMap_ s)) s,
     additionalSize).

(** ** [StoredScriptHistory] *)

Record StoredScriptHistory := mkSsh {
  ssh_uniqueKey : list byte;
  ssh_version : Z;
  scanHeight_ : Z;
  tallyHeight_ : Z;
  totalTxioCount_ : Z;
  totalUnspent_ : Z;
  subsshSummary_ : stdmap Z Z;
  subHistMap_ : stdmap (list byte) StoredSubHistory;
}.

Definition StoredScriptHistory_new : StoredScriptHistory := mkSsh [] UINT32_MAX (-1) (-1) 0 0 [] [].
Definition ssh_isInitialized (s : StoredScriptHistory) : bool := 0 <? zlen (ssh_uniqueKey s).

(** [clear] leaves what the constructor makes. *)
Definition ssh_clear (_ : StoredScriptHistory) : StoredScriptHistory := StoredScriptHistory_new.

Definition set_ssh_key (k : list byte) (s : StoredScriptHistory) : StoredScriptHistory :=
  mkSsh k (ssh_version s) (scanHeight_ s) (tallyHeight_ s) (totalTxioCount_ s) (totalUnspent_ s)
    (subsshSummary_ s) (subHistMap_ s).
Definition set_heights (scan tally : Z) (s : StoredScriptHistory) : StoredScriptHistory :=
  mkSsh (ssh_uniqueKey s) (ssh_version s) scan tally (totalTxioCount_ s) (totalUnspent_ s)
    (subsshSummary_ s) (subHistMap_ s).
Definition set_totals (count unspent : Z) (s : StoredScriptHistory) : StoredScriptHistory :=
  mkSsh (ssh_uniqueKey s) (ssh_version s) (scanHeight_ s) (tallyHeight_ s) count unspent
    (subsshSummary_ s) (subHistMap_ s).
Definition set_summary (m : stdmap Z Z) (s : StoredScriptHistory) : StoredScriptHistory :=
  mkSsh (ssh_uniqueKey s) (ssh_version s) (scanHeight_ s) (tallyHeight_ s) (totalTxioCount_ s)
    (totalUnspent_ s) m (subHistMap_ s).
Definition set_subHistMap (m : stdmap (list byte) StoredSubHistory) (s : StoredScriptHistory)
    : StoredScriptHistory :=
  mkSsh (ssh_uniqueKey s) (ssh_version s) (scanHeight_ s) (tallyHeight_ s) (totalTxioCount_ s)
    (totalUnspent_ s) (subsshSummary_ s) m.

Definition ssh_getDBKey (withPrefix : bool) (s : StoredScriptHistory) : list byte :=
  theString_ (bw_put_BinaryData (ssh_uniqueKey s)
    (if withPrefix then bw_put_uint8_t (prefix_val DB_PREFIX_SCRIPT) bw_new else bw_new)).
Definition ssh_unserializeDBKey (key : list byte) (withPrefix : bool) (s : StoredScriptHistory)
    : StoredScriptHistory :=
  set_ssh_key (if withPrefix then getSliceCopy key 1 (zlen key - 1) else key) s.
Definition ssh_getScriptType (s : StoredScriptHistory) : result Z :=
  if zlen (ssh_uniqueKey s) =? 0 then Ok SCRIPT_PREFIX_NONSTD
  else b ← at_ (ssh_uniqueKey s) 0; Ok (b2z b).

Definition SCRIPT_UTXO_VECTOR : Z := 0.

Fixpoint put_summary (m : stdmap Z Z) (bw : BinaryWriter) : BinaryWriter :=
  match m with
  | [] => bw
  | (height, sum) :: m => put_summary m (bw_put_var_int sum (bw_put_var_int height bw).1).1
  end.

Definition ssh_serializeDBValue (dbType : ARMORY_DB_TYPE) (s : StoredScriptHistory) (bw : BinaryWriter)
    : BinaryWriter :=
  let bw := bw_put_BitPacker 16
              (bp_putBits 16 SCRIPT_UTXO_VECTOR 2 (bp_putBits 16 (db_type_val dbType) 4 bp_new)) bw in
  let bw := if negb (bool_decide (dbType = ARMORY_DB_SUPER))
            then bw_put_int32_t (tallyHeight_ s) LE (bw_put_int32_t (scanHeight_ s) LE bw) else bw in
  let bw := bw_put_uint64_t (totalUnspent_ s) LE (bw_put_var_int (totalTxioCount_ s) bw).1 in
  put_summary (subsshSummary_ s) (bw_put_uint32_t (zlen (subsshSummary_ s)) LE bw).

Fixpoint get_summary (n : nat) (m : stdmap Z Z) : Reader (stdmap Z Z) :=
  match n with
  | O => mret m
  | S n =>
      height ← brr_get_var_int;
      sum ← brr_get_var_int;
      get_summary n (map_put (wrap 32 height) (wrap 32 sum) m)
  end.

(** An empty history keeps [totalUnspent_] as it was: the return comes first. *)
Definition ssh_unserializeDBValue (s : StoredScriptHistory) : Reader StoredScriptHistory :=
  bits ← bu_read 16;
  let '(dbType, _) := bu_getBits 16 4 bits in
  s ← (if negb (dbType =? db_type_val ARMORY_DB_SUPER) then
         scan ← brr_get_int32_t LE; tally ← brr_get_int32_t LE; mret (set_heights scan tally s)
       else mret s);
  count ← brr_get_var_int;
  let s := set_totals count (totalUnspent_ s) (set_summary [] (set_subHistMap [] s)) in
  if count =? 0 then mret s
  else
    unspent ← brr_get_uint64_t LE;
    sumSize ← brr_get_uint32_t LE;
    m ← get_summary (Z.to_nat sumSize) [];
    mret (set_summary m (set_totals count unspent s)).

(** ** Operations on the loaded history *)

Definition count_of (t : TxIOPair) : Z :=
  if isUTXO_ t then 1 else if hasTxIn t then 2 else 0.

Definition all_txios (m : stdmap (list byte) StoredSubHistory) : list TxIOPair :=
  m ≫= (fun e => map_values (txioMap_ e.2)).

Definition haveFullHistoryLoaded (s : StoredScriptHistory) : bool :=
  if negb (ssh_isInitialized s) then false
  else sum64 count_of (all_txios (subHistMap_ s)) =? totalTxioCount_ s.

Definition getScriptReceived (withMultisig : bool) (s : StoredScriptHistory) : Z :=
  if negb (haveFullHistoryLoaded s) then UINT64_MAX
  else sum64 (getSubHistoryReceived withMultisig) (map_values (subHistMap_ s)).

Definition getScriptBalance (withMultisig : bool) (s : StoredScriptHistory) : Z :=
  if negb withMultisig then totalUnspent_ s
  else if negb (haveFullHistoryLoaded s) then UINT64_MAX
  else sum64 (getSubHistoryBalance withMultisig) (map_values (subHistMap_ s)).

(** [getFullTxioMap]: with multisig the insertions keep what is there, without
    it the assignments overwrite. *)
Fixpoint put_single_sig (l m : stdmap (list byte) TxIOPair) : stdmap (list byte) TxIOPair :=
  match l with
  | [] => m
  | (k, t) :: l => put_single_sig l (if isMultisig_ t then m else map_put k t m)
  end.
Fixpoint fill_txios (withMultisig : bool) (subs : list StoredSubHistory) (m : stdmap (list byte) TxIOPair)
    : stdmap (list byte) TxIOPair :=
  match subs with
  | [] => m
  | s :: subs =>
      fill_txios withMultisig subs
        (if withMultisig then insert_range (txioMap_ s) m else put_single_sig (txioMap_ s) m)
  end.
Definition getFullTxioMap (withMultisig : bool) (mapToFill : stdmap (list byte) TxIOPair)
    (s : StoredScriptHistory) : option (stdmap (list byte) TxIOPair) :=
  if negb (haveFullHistoryLoaded s) then None
  else Some (fill_txios withMultisig (map_values (subHistMap_ s)) mapToFill).

(** [subHistMap_[hgtX]]: an entry that is missing is made. *)
Definition sub_entry (hgtX : list byte) (s : StoredScriptHistory) : StoredSubHistory :=
  default StoredSubHistory_new (map_find hgtX (subHistMap_ s)).
Definition put_sub (hgtX : list byte) (e : StoredSubHistory) (s : StoredScriptHistory) : StoredScriptHistory :=
  set_subHistMap (map_put hgtX e (subHistMap_ s)) s.

Definition mergeSubHistory (subssh : StoredSubHistory) (s : StoredScriptHistory) : StoredScriptHistory :=
  let e := sub_entry (sub_hgtX subssh) s in
  put_sub (sub_hgtX subssh)
    (if negb (sub_isInitialized e) then subssh
     else set_txioMap (insert_range (txioMap_ subssh) (txioMap_ e)) e) s.

Definition insertTxio (txio : TxIOPair) (s : StoredScriptHistory) : StoredScriptHistory :=
  let key := getDBKeyOfOutput txio in
  let hgtX := getSliceCopy key 0 4 in
  let e := sub_entry hgtX s in
  let e := if negb (sub_isInitialized e) then set_sub_key (ssh_uniqueKey s) hgtX e else e in
  let '(m, wasInserted) := map_insert key txio (txioMap_ e) in
  let s := put_sub hgtX (set_txioMap m e) s in
  if wasInserted : bool then
    set_totals (wrap 64 (totalTxioCount_ s + 1))
      (if negb (hasTxIn txio) && negb (isMultisig_ txio) then wrap 64 (totalUnspent_ s + amount_ txio)
       else totalUnspent_ s) s
  else s.

Definition eraseTxio (txio : TxIOPair) (s : StoredScriptHistory) : StoredScriptHistory :=
  let key := getDBKeyOfOutput txio in
  let hgtX := getSliceCopy key 0 4 in
  let e := sub_entry hgtX s in
  let wasRemoved := bool_decide (map_find key (txioMap_ e) ≠ None) in
  let s := put_sub hgtX (set_txioMap (map_erase key (txioMap_ e)) e) s in
  if wasRemoved then
    set_totals (wrap 64 (totalTxioCount_ s - 1))
      (if negb (hasTxIn txio) && negb (isMultisig_ txio) then wrap 64 (totalUnspent_ s - amount_ txio)
       else totalUnspent_ s) s
  else s.
