(* ===== verification/ScriptHistoryProps.v ===== *)
(** * ScriptHistoryProps: the formats and the accounts of the histories

    What is read back of a stored sub history and of a stored history, the
    account a history keeps while entries are inserted and erased, and when an
    output counts as spendable or as unconfirmed. *)

From S2P Require Import Prelude BinaryData BinaryIO Hashing StdMap MapSums DBUtils.
From S2P Require Import BlockHeader HeadersDB ScriptUtils TxLength StoredTxOut ScriptHistory.

(** ** Keys and branches *)

Lemma isMainBranch_total vd key : exists b, isMainBranch vd key = Ok b.
Proof.
  unfold isMainBranch, TxRef_getBlockHeight, TxRef_getDuplicateID.
  destruct (Z.eqb_spec (zlen key) 6) as [Hl|]; cbn [negb andb]; [|by eexists].
  assert (exists bs, raw_read (getSliceCopy key 0 4) 0 4 = Ok bs) as [bs Hr].
  { eexists.
    pose proof (getSliceCopy_app [] (take 4 key) (drop 4 key)) as E.
    assert (zlen (take 4 key) = 4) as H4 by (unfold zlen in *; rewrite length_take; lia).
    rewrite zlen_nil, H4, app_nil_l, take_drop in E. rewrite E by (rewrite Hl; done).
    by apply raw_read_all. }
  unfold hgtxToHeight, hgtxToDupID. rewrite Hr. cbn [mbind result_bind].
  destruct (negb (startsWith key ZeroConfHeader_)); cbn [mbind result_bind]; by eexists.
Qed.

Lemma hasTxInInMain_total vd t : exists b, hasTxInInMain vd t = Ok b.
Proof.
  unfold hasTxInInMain. destruct (hasTxInZC t); [by eexists|]. destruct (negb (hasTxIn t)); [by eexists|].
  apply isMainBranch_total.
Qed.

(** Whether an entry is stored as a spend. *)
Definition spent_in_main (vd : stdmap Z Z) (t : TxIOPair) : bool :=
  match hasTxInInMain vd t with Ok b => b | Err _ => false end.

Lemma spent_in_main_ok vd t : hasTxInInMain vd t = Ok (spent_in_main vd t).
Proof. unfold spent_in_main. by destruct (hasTxInInMain_total vd t) as [b ->]. Qed.

Lemma spent_hasTxIn vd t : spent_in_main vd t = true -> hasTxIn t = true.
Proof. unfold spent_in_main, hasTxInInMain. by destruct (hasTxInZC t), (hasTxIn t). Qed.

(** A reference of a transaction in a block and an index. *)
Definition ref_ok (ref : list byte) (i : Z) : Prop := zlen ref = 6 /\ is_uint 16 i.

Lemma child_key ref i : ref_ok ref i ->
  TxRef_getDBKeyOfChild ref (wrap 16 i) = ref ++ be_bytes 2 i /\ zlen (ref ++ be_bytes 2 i) = 8.
Proof.
  intros [Hr Hi]. unfold TxRef_getDBKeyOfChild. rewrite append_app, wrap_small by done.
  split; [done|]. rewrite zlen_app, zlen_be_bytes, Hr. done.
Qed.

Lemma split_key8_app ref i : ref_ok ref i -> split_key8 (ref ++ be_bytes 2 i) = (ref, i).
Proof.
  intros [Hr Hi]. unfold split_key8. f_equal.
  - apply take_app_length'. unfold zlen in Hr. lia.
  - rewrite drop_app_length' by (unfold zlen in Hr; lia). rewrite be_val_be_bytes. by apply Z.mod_small.
Qed.

Lemma setTxOut_key ref i t : ref_ok ref i -> setTxOut (ref ++ be_bytes 2 i) t = setTxOut_ref ref i t.
Proof.
  intros Hr. unfold setTxOut. by rewrite (proj2 (child_key _ _ Hr)), split_key8_app.
Qed.
Lemma setTxIn_key ref i t : ref_ok ref i -> setTxIn (ref ++ be_bytes 2 i) t = setTxIn_ref ref i t.
Proof.
  intros Hr. unfold setTxIn. by rewrite (proj2 (child_key _ _ Hr)), split_key8_app.
Qed.

Lemma key_last4 ref i : ref_ok ref i ->
  getSliceCopy (ref ++ be_bytes 2 i) 4 4 = drop 4 (ref ++ be_bytes 2 i) /\ zlen (drop 4 (ref ++ be_bytes 2 i)) = 4.
Proof.
  intros Hr. pose proof (proj2 (child_key _ _ Hr)) as Hl. set (k := ref ++ be_bytes 2 i) in *.
  assert (zlen (drop 4 k) = 4) as H4 by (unfold zlen in *; rewrite length_drop; lia). split; [|done].
  pose proof (getSliceCopy_app (take 4 k) (drop 4 k) []) as E. rewrite app_nil_r, take_drop, H4 in E.
  assert (zlen (take 4 k) = 4) as E4 by (unfold zlen in *; rewrite length_take; lia). rewrite E4 in E.
  apply E. rewrite Hl. done.
Qed.

(** ** Entries of a sub history *)

(** What is read back of an entry: of a spend on the main branch both sides, of
    any other entry the output only. *)
Definition txio_stored (vd : stdmap Z Z) (t : TxIOPair) : TxIOPair :=
  let spent := spent_in_main vd t in
  mkTxIO (amount_ t) (txRefOfOutput_ t) (indexOfOutput_ t) (if spent then txRefOfInput_ t else [])
    (if spent then indexOfInput_ t else 0) [] [] (isTxOutFromSelf_ t) (isFromCoinbase_ t) (isMultisig_ t)
    false false 0 (isUTXO_ t).

(** An entry of the sub history of [hgtX]: in the block of its input if it is a
    spend, else in that of its output. *)
Record txio_ok (vd : stdmap Z Z) (hgtX : list byte) (t : TxIOPair) : Prop := {
  to_amount : is_uint 64 (amount_ t);
  to_output : ref_ok (txRefOfOutput_ t) (indexOfOutput_ t);
  to_input : spent_in_main vd t = true -> ref_ok (txRefOfInput_ t) (indexOfInput_ t);
  to_block : take 4 (if spent_in_main vd t then txRefOfInput_ t else txRefOfOutput_ t) = hgtX;
}.

Definition txio_bytes (vd : stdmap Z Z) (t : TxIOPair) : list byte :=
  let spent := spent_in_main vd t in
  bit_bytes 8 [(1, if isTxOutFromSelf_ t then 1 else 0); (1, if isFromCoinbase_ t then 1 else 0);
               (1, if spent then 1 else 0); (1, if isMultisig_ t then 1 else 0);
               (1, if isUTXO_ t then 1 else 0)] ++
  int_to LE 8 (amount_ t) ++
  (if spent then (txRefOfOutput_ t ++ be_bytes 2 (indexOfOutput_ t)) ++
                 drop 4 (txRefOfInput_ t ++ be_bytes 2 (indexOfInput_ t))
   else drop 4 (txRefOfOutput_ t ++ be_bytes 2 (indexOfOutput_ t))).

Lemma put_txio_bytes vd hgtX t bw : txio_ok vd hgtX t -> exists bw',
  put_txio vd t bw = Ok bw' /\ theString_ bw' = theString_ bw ++ txio_bytes vd t.
Proof.
  intros [Ha Ho Hi Hb]. unfold put_txio, txio_bytes. rewrite spent_in_main_ok. cbn [mbind result_bind].
  destruct (spent_in_main vd t) eqn:Es; cbn [andb negb].
  - rewrite (spent_hasTxIn _ _ Es). cbn [negb]. eexists. split; [reflexivity|].
    unfold getDBKeyOfOutput, getDBKeyOfInput. specialize (Hi eq_refl).
    rewrite (proj1 (child_key _ _ Ho)), (proj1 (child_key _ _ Hi)), (proj1 (key_last4 _ _ Hi)).
    unfold bw_put_BitPacker, txio_bits. autorewrite with bw. rewrite <- !app_assoc. reflexivity.
  - eexists. split; [reflexivity|]. unfold getDBKeyOfOutput.
    rewrite (proj1 (child_key _ _ Ho)), (proj1 (key_last4 _ _ Ho)).
    unfold bw_put_BitPacker, txio_bits. autorewrite with bw. rewrite <- !app_assoc. reflexivity.
Qed.

Lemma flag_read (b : bool) : (0 <? (if b then 1 else 0)) = b.
Proof. by destruct b. Qed.

Lemma hgtX_join ref i hgtX : zlen ref = 6 -> take 4 ref = hgtX -> hgtX ++ drop 4 (ref ++ be_bytes 2 i) = ref ++ be_bytes 2 i.
Proof.
  intros Hr <-. rewrite <- (take_drop 4 (ref ++ be_bytes 2 i)) at 2. f_equal.
  rewrite take_app_le; [done|]. unfold zlen in Hr. lia.
Qed.

Lemma get_txio_parses vd hgtX t : txio_ok vd hgtX t -> parses (get_txio hgtX) (txio_bytes vd t) (txio_stored vd t).
Proof.
  intros [Ha Ho Hi Hb]. unfold txio_bytes.
  match goal with |- parses _ (bit_bytes 8 ?f ++ _) _ => set (fs := f) end.
  assert (Forall field_ok fs) as Hfs by (unfold fs; repeat constructor; simpl; try lia; repeat case_match; lia).
  destruct (bit_bytes_read 8 fs ltac:(auto) Hfs ltac:(done)) as (u & Hu & Hun).
  eapply parses_bind; [exact Hu|]. unfold fs in Hun. cbn [unpack_fields map fst snd] in Hun. clearbody fs.
  unfold bu_getBit. destruct (bu_getBits 8 1 u) as [f1 u1], (bu_getBits 8 1 u1) as [f2 u2] eqn:E2,
    (bu_getBits 8 1 u2) as [f3 u3] eqn:E3, (bu_getBits 8 1 u3) as [f4 u4] eqn:E4.
  destruct (bu_getBits 8 1 u4) as [f5 u5]. injection Hun as -> -> -> -> ->. rewrite !flag_read.
  eapply parses_bind; [by apply brr_get_uint64_t_parses|]. unfold txio_stored.
  destruct (spent_in_main vd t); cbn [negb].
  - specialize (Hi eq_refl). eapply parses_bind_ret.
    + eapply parses_bind; [apply brr_get_BinaryData_parses, (proj2 (child_key _ _ Ho))|].
      eapply parses_bind_ret; [apply brr_get_BinaryData_parses, (proj2 (key_last4 _ _ Hi))|].
      rewrite hgtX_join by (done || apply Hi). rewrite setTxOut_key, setTxIn_key by done. apply parses_ret.
    + apply parses_ret.
  - eapply parses_bind_ret.
    + eapply parses_bind_ret; [apply brr_get_BinaryData_parses, (proj2 (key_last4 _ _ Ho))|].
      rewrite hgtX_join by (done || apply Ho). rewrite setTxOut_key by done. apply parses_ret.
    + apply parses_ret.
Qed.

(** ** Sub histories *)

(** The entries stand under the keys of their outputs. *)
Record sub_ok (vd : stdmap Z Z) (s : StoredSubHistory) : Prop := {
  sk_hgtX : zlen (sub_hgtX s) = 4;
  sk_ordered : map_ordered (txioMap_ s);
  sk_size : zlen (txioMap_ s) < 2 ^ 32;
  sk_entries : Forall (fun e => e.1 = getDBKeyOfOutput e.2 /\ txio_ok vd (sub_hgtX s) e.2) (txioMap_ s);
}.

Definition stored_map (vd : stdmap Z Z) (m : stdmap (list byte) TxIOPair) : stdmap (list byte) TxIOPair :=
  map (fun e => (e.1, txio_stored vd e.2)) m.

Definition sub_bytes (vd : stdmap Z Z) (s : StoredSubHistory) : list byte :=
  var_int_bytes (zlen (txioMap_ s)) ++ concat (map (fun e => txio_bytes vd e.2) (txioMap_ s)).

Lemma put_txios_bytes vd hgtX m bw : Forall (fun e => txio_ok vd hgtX e.2) m -> exists bw',
  put_txios vd m bw = Ok bw' /\ theString_ bw' = theString_ bw ++ concat (map (fun e => txio_bytes vd e.2) m).
Proof.
  intros Hm. revert bw. induction Hm as [|[k t] m Ht _ IH]; intros bw; cbn [put_txios map concat].
  - exists bw. by rewrite app_nil_r.
  - destruct (put_txio_bytes vd hgtX t bw Ht) as (bw1 & -> & E1). cbn [mbind result_bind].
    destruct (IH bw1) as (bw2 & -> & E2). exists bw2. split; [done|]. by rewrite E2, E1, <- app_assoc.
Qed.

Lemma sub_entries_ok vd s : sub_ok vd s -> Forall (fun e => txio_ok vd (sub_hgtX s) e.2) (txioMap_ s).
Proof. intros [_ _ _ He]. eapply Forall_impl; [exact He|]. by intros e []. Qed.

Lemma sub_serialize_bytes vd s bw : sub_ok vd s -> exists bw',
  sub_serializeDBValue vd s bw = Ok bw' /\ theString_ bw' = theString_ bw ++ sub_bytes vd s.
Proof.
  intros Hs. unfold sub_serializeDBValue, sub_bytes.
  destruct (put_txios_bytes vd _ _ (bw_put_var_int (zlen (txioMap_ s)) bw).1 (sub_entries_ok vd s Hs)) as (bw' & -> & E).
  exists bw'. split; [done|]. rewrite E, bw_put_var_int_str; [by rewrite <- app_assoc|].
  pose proof (sk_size _ _ Hs). pose proof (zlen_nonneg (txioMap_ s)). unfold is_uint. lia.
Qed.

Lemma get_txios_parses vd hgtX m acc :
  map_ordered (acc ++ m) ->
  Forall (fun e => e.1 = getDBKeyOfOutput e.2 /\ txio_ok vd hgtX e.2) m ->
  parses (get_txios (length m) hgtX acc) (concat (map (fun e => txio_bytes vd e.2) m)) (acc ++ stored_map vd m).
Proof.
  intros Ho Hm. revert acc Ho. induction Hm as [|[k t] m [Hk Ht] _ IH]; intros acc Ho; cbn [length get_txios map concat].
  - rewrite app_nil_r. apply parses_ret.
  - cbn [fst snd] in *. eapply parses_bind; [by apply get_txio_parses|].
    assert (getDBKeyOfOutput (txio_stored vd t) = k) as -> by (by rewrite Hk).
    assert (Forall (fun e => std_less e.1 k = true) acc) as Hlast.
    { apply map_ordered_app in Ho as (_ & _ & Hx). eapply Forall_impl; [exact Hx|]. intros e He.
      by apply Forall_inv in He. }
    rewrite (map_insert_end _ _ _ Hlast). cbn [fst].
    replace (acc ++ stored_map vd ((k, t) :: m)) with ((acc ++ [(k, txio_stored vd t)]) ++ stored_map vd m)
      by (by rewrite <- app_assoc).
    apply IH. apply map_ordered_app in Ho as (Ho1 & [Hf Ho2] & Hx).
    apply map_ordered_app. rewrite map_ordered_app. repeat split; try done.
    + eapply Forall_impl; [exact Hlast|]. intros e He. by repeat constructor.
    + apply Forall_app. split.
      * eapply Forall_impl; [exact Hx|]. intros e He. by apply Forall_inv_tail in He.
      * by repeat constructor.
Qed.

(** The entries of a stored sub history, read into a record with its key. *)
Lemma sub_read_parses vd s0 s : sub_ok vd s -> sub_hgtX s0 = sub_hgtX s -> txioMap_ s0 = [] ->
  parses (sub_unserializeDBValue s0) (sub_bytes vd s)
    (set_txioMap (stored_map vd (txioMap_ s)) (set_txioCount (zlen (txioMap_ s)) s0)).
Proof.
  intros Hs Hk H0. pose proof (sk_size _ _ Hs). pose proof (zlen_nonneg (txioMap_ s)).
  assert (is_uint 64 (zlen (txioMap_ s))) as H64 by (unfold is_uint; lia).
  unfold sub_unserializeDBValue. rewrite Hk, (sk_hgtX _ _ Hs). change (negb (4 =? 4)) with false. cbv iota.
  eapply parses_bind; [by apply brr_get_var_int_parses|]. rewrite wrap_small by (unfold is_uint; lia).
  eapply parses_bind_ret; [|apply parses_ret]. rewrite H0. unfold zlen. rewrite Nat2Z.id.
  apply (get_txios_parses vd _ _ []); [apply (sk_ordered _ _ Hs)|apply (sk_entries _ _ Hs)].
Qed.

(** A sub history that is stored and read into a new record with its key has
    the same outputs and spends; of the entries that are no spend on the main
    branch only the output is left. *)
Theorem subssh_roundtrip vd s0 s (Hs : sub_ok vd s) (Hk : sub_hgtX s0 = sub_hgtX s) (H0 : txioMap_ s0 = []) :
  exists bw, sub_serializeDBValue vd s bw_new = Ok bw /\
  parses (sub_unserializeDBValue s0) (theString_ bw)
    (set_txioMap (stored_map vd (txioMap_ s)) (set_txioCount (zlen (txioMap_ s)) s0)) /\
  (zlen (theString_ bw) < two64 -> exists r,
    sub_getSummary s0 (brr_setNewData (theString_ bw)) = Ok (set_txioCount (zlen (txioMap_ s)) s0, r)).
Proof.
  destruct (sub_serialize_bytes vd s bw_new Hs) as (bw & -> & E). exists bw. split; [done|]. rewrite E, bw_new_str, app_nil_l.
  pose proof (sk_size _ _ Hs). pose proof (zlen_nonneg (txioMap_ s)).
  assert (is_uint 64 (zlen (txioMap_ s))) as H64 by (unfold is_uint; lia).
  unfold sub_getSummary. rewrite Hk, (sk_hgtX _ _ Hs). change (negb (4 =? 4)) with false. cbv iota.
  split; [by apply sub_read_parses|].
  intros Hl. exists (brr_at (var_int_bytes (zlen (txioMap_ s))) (concat (map (fun e => txio_bytes vd e.2) (txioMap_ s)))).
  rewrite brr_setNewData_at. unfold sub_bytes in *. unfold mbind, reader_bind, mret, reader_ret.
  rewrite (brr_get_var_int_parses _ H64) by done. by rewrite wrap_small by (unfold is_uint; lia).
Qed.

(** ** Histories *)

(** What the format of a history can hold. *)
Record ssh_ok (s : StoredScriptHistory) : Prop := {
  hk_heights : -2 ^ 31 <= scanHeight_ s < 2 ^ 31 /\ -2 ^ 31 <= tallyHeight_ s < 2 ^ 31;
  hk_totals : is_uint 64 (totalTxioCount_ s) /\ is_uint 64 (totalUnspent_ s);
  hk_summary : map_ordered (subsshSummary_ s);
  hk_size : zlen (subsshSummary_ s) < 2 ^ 32;
  hk_entries : Forall (fun e => is_uint 32 e.1 /\ is_uint 32 e.2) (subsshSummary_ s);
}.

Definition summary_bytes (m : stdmap Z Z) : list byte := concat (map (fun e => var_int_bytes e.1 ++ var_int_bytes e.2) m).

Definition ssh_heights_bytes (dbType : ARMORY_DB_TYPE) (s : StoredScriptHistory) : list byte :=
  if bool_decide (dbType = ARMORY_DB_SUPER) then []
  else int_to LE 4 (wrap 32 (scanHeight_ s)) ++ int_to LE 4 (wrap 32 (tallyHeight_ s)).

Definition ssh_value (dbType : ARMORY_DB_TYPE) (s : StoredScriptHistory) : list byte :=
  theString_ (ssh_serializeDBValue dbType s bw_new).

Lemma uint32_64 v : is_uint 32 v -> is_uint 64 v.
Proof. unfold is_uint. lia. Qed.

Lemma put_summary_bytes m bw : Forall (fun e => is_uint 32 e.1 /\ is_uint 32 e.2) m ->
  theString_ (put_summary m bw) = theString_ bw ++ summary_bytes m.
Proof.
  intros Hm. revert bw. induction Hm as [|[h c] m [Hh Hc] _ IH]; intros bw; cbn [put_summary]; [by rewrite app_nil_r|].
  rewrite IH, !bw_put_var_int_str by (apply uint32_64; done). unfold summary_bytes. cbn [map concat fst snd].
  by rewrite <- !app_assoc.
Qed.

Lemma ssh_value_bytes dbType s : ssh_ok s -> ssh_value dbType s =
  bit_bytes 16 [(4, db_type_val dbType); (2, 0)] ++ ssh_heights_bytes dbType s ++
  var_int_bytes (totalTxioCount_ s) ++ int_to LE 8 (totalUnspent_ s) ++
  int_to LE 4 (zlen (subsshSummary_ s)) ++ summary_bytes (subsshSummary_ s).
Proof.
  intros [_ [Hc _] _ _ He]. unfold ssh_value, ssh_serializeDBValue, ssh_heights_bytes, bw_put_BitPacker.
  rewrite put_summary_bytes by done. case_bool_decide; cbn [negb]; autorewrite with bw;
    by rewrite ?app_nil_l, <- ?app_assoc.
Qed.

Lemma get_summary_parses m acc : map_ordered (acc ++ m) -> Forall (fun e => is_uint 32 e.1 /\ is_uint 32 e.2) m ->
  parses (get_summary (length m) acc) (summary_bytes m) (acc ++ m).
Proof.
  intros Ho Hm. revert acc Ho. induction Hm as [|[h c] m [Hh Hc] _ IH]; intros acc Ho; cbn [length get_summary].
  - rewrite app_nil_r. apply parses_ret.
  - unfold summary_bytes. cbn [map concat fst snd] in *. rewrite <- app_assoc.
    eapply parses_bind; [by apply brr_get_var_int_parses, uint32_64|].
    eapply parses_bind; [by apply brr_get_var_int_parses, uint32_64|]. rewrite !wrap_small by done.
    replace (acc ++ (h, c) :: m) with ((acc ++ [(h, c)]) ++ m) in * by (by rewrite <- app_assoc).
    rewrite map_put_last; [by apply IH|]. apply map_ordered_app in Ho as (Ho & _ & _).
    apply map_ordered_app in Ho as (_ & _ & Hx). eapply Forall_impl; [exact Hx|]. intros e He. by apply Forall_inv in He.
Qed.

Definition read_heights (dbType : ARMORY_DB_TYPE) (s s0 : StoredScriptHistory) : StoredScriptHistory :=
  if bool_decide (dbType = ARMORY_DB_SUPER) then s0 else set_heights (scanHeight_ s) (tallyHeight_ s) s0.

(** A stored history comes back: the heights (not in supernode mode), the
    totals and the summary of its blocks; the key, the version and an unspent
    total of an empty history stay those of the record it is read into. *)
Theorem ssh_roundtrip dbType s s0 (Hs : ssh_ok s) :
  let s1 := read_heights dbType s s0 in
  if totalTxioCount_ s =? 0 then
    exists tl, parses (ssh_unserializeDBValue s0)
      (bit_bytes 16 [(4, db_type_val dbType); (2, 0)] ++ ssh_heights_bytes dbType s ++ var_int_bytes 0)
      (set_totals 0 (totalUnspent_ s0) (set_summary [] (set_subHistMap [] s1))) /\
    ssh_value dbType s = (bit_bytes 16 [(4, db_type_val dbType); (2, 0)] ++ ssh_heights_bytes dbType s ++ var_int_bytes 0) ++ tl
  else
    parses (ssh_unserializeDBValue s0) (ssh_value dbType s)
      (set_summary (subsshSummary_ s) (set_totals (totalTxioCount_ s) (totalUnspent_ s) (set_subHistMap [] s1))).
Proof.
  pose proof Hs as [[Hsc Hta] [Hc Hu] Ho Hz He]. intros s1. rewrite (ssh_value_bytes dbType s Hs).
  set (fs := [(4, db_type_val dbType); (2, 0)]).
  assert (Forall field_ok fs) as Hfs by (unfold fs; repeat constructor; simpl; try lia; destruct dbType; simpl; lia).
  destruct (bit_bytes_read 16 fs ltac:(auto) Hfs ltac:(done)) as (u & Hb & Hun).
  unfold fs in Hun. cbn [unpack_fields map fst snd] in Hun.
  assert (forall tl res, (forall s2, s2 = s1 -> parses (
      count ← brr_get_var_int;
      let s := set_totals count (totalUnspent_ s2) (set_summary [] (set_subHistMap [] s2)) in
      if count =? 0 then mret s
      else unspent ← brr_get_uint64_t LE; sumSize ← brr_get_uint32_t LE;
           m ← get_summary (Z.to_nat sumSize) []; mret (set_summary m (set_totals count unspent s))) tl res) ->
    parses (ssh_unserializeDBValue s0) (bit_bytes 16 fs ++ ssh_heights_bytes dbType s ++ tl) res) as Hpre.
  { intros tl res Htl. eapply parses_bind; [exact Hb|]. destruct (bu_getBits 16 4 u) as [f1 u1], (bu_getBits 16 2 u1).
    injection Hun as -> _. eapply parses_bind; [|by apply Htl]. unfold s1, read_heights, ssh_heights_bytes.
    destruct dbType; cbn [db_type_val Z.eqb Pos.eqb negb]; try apply parses_ret;
      (eapply parses_bind; [by apply brr_get_int32_t_parses|]; eapply parses_bind_ret; [by apply brr_get_int32_t_parses|apply parses_ret]). }
  assert (totalUnspent_ s1 = totalUnspent_ s0) as E1 by (unfold s1, read_heights; by case_bool_decide).
  destruct (Z.eqb_spec (totalTxioCount_ s) 0) as [Ec|Ec].
  - rewrite Ec. eexists. split; [|by rewrite <- !app_assoc].
    apply Hpre. intros s2 ->. eapply parses_bind_ret; [by apply brr_get_var_int_parses|]. cbn [Z.eqb].
    rewrite E1. apply parses_ret.
  - apply Hpre. intros s2 ->. eapply parses_bind; [by apply brr_get_var_int_parses|].
    cbv zeta. rewrite (proj2 (Z.eqb_neq _ _) Ec).
    eapply parses_bind; [by apply brr_get_uint64_t_parses|]. pose proof (zlen_nonneg (subsshSummary_ s)).
    eapply parses_bind; [apply brr_get_uint32_t_parses; unfold is_uint; lia|].
    eapply parses_bind_ret; [unfold zlen; rewrite Nat2Z.id; by apply (get_summary_parses _ [])|apply parses_ret].
Qed.

(** ** The account of a loaded history *)

Record ssh_account (s : StoredScriptHistory) : Prop := {
  ac_ordered : map_ordered (subHistMap_ s);
  ac_subs : Forall (fun e => map_ordered (txioMap_ e.2) /\
              Forall (fun f => f.1 = getDBKeyOfOutput f.2 /\ getSliceCopy f.1 0 4 = e.1) (txioMap_ e.2)) (subHistMap_ s);
  ac_count : totalTxioCount_ s = wrap 64 (zlen (all_txios (subHistMap_ s)));
  ac_unspent : totalUnspent_ s = wrap 64 (zsum (balance_of false) (all_txios (subHistMap_ s)));
}.

(** The entry of an output. *)
Definition find_txio (key : list byte) (s : StoredScriptHistory) : option TxIOPair :=
  map_find key (txioMap_ (sub_entry (getSliceCopy key 0 4) s)).

Lemma all_txios_put h e m : map_ordered m -> exists rest,
  all_txios m ≡ₚ map_values (txioMap_ (default StoredSubHistory_new (map_find h m))) ++ rest /\
  all_txios (map_put h e m) ≡ₚ map_values (txioMap_ e) ++ rest.
Proof.
  intros Ho. unfold all_txios. destruct (map_find h m) as [e0|] eqn:E; cbn [default].
  - destruct (map_put_old h e e0 m E) as (m' & E1 & E2). exists (m' ≫= (fun e => map_values (txioMap_ e.2))).
    rewrite E1 at 1. rewrite E2. by rewrite !bind_cons.
  - exists (m ≫= (fun e => map_values (txioMap_ e.2))). rewrite (map_put_new h e m E) at 1. by rewrite bind_cons.
Qed.

Lemma sub_entry_ok s h : ssh_account s -> map_ordered (txioMap_ (sub_entry h s)) /\
  Forall (fun f => f.1 = getDBKeyOfOutput f.2 /\ getSliceCopy f.1 0 4 = h) (txioMap_ (sub_entry h s)).
Proof.
  intros [Ho Hs _ _]. unfold sub_entry. destruct (map_find h (subHistMap_ s)) as [e|] eqn:E; cbn [default]; [|done].
  pose proof (map_find_Forall _ _ _ _ Hs E) as H. apply H.
Qed.

Lemma values_perm {V} (m1 m2 : stdmap (list byte) V) : m1 ≡ₚ m2 -> map_values m1 ≡ₚ map_values m2.
Proof. unfold map_values. by intros ->. Qed.

(** A sub history put back with other entries. *)
Lemma put_sub_account s h m e : ssh_account s -> txioMap_ e = m -> map_ordered m ->
  Forall (fun f => f.1 = getDBKeyOfOutput f.2 /\ getSliceCopy f.1 0 4 = h) m ->
  let s' := put_sub h e s in
  map_ordered (subHistMap_ s') /\
  Forall (fun e => map_ordered (txioMap_ e.2) /\
    Forall (fun f => f.1 = getDBKeyOfOutput f.2 /\ getSliceCopy f.1 0 4 = e.1) (txioMap_ e.2)) (subHistMap_ s') /\
  exists rest, all_txios (subHistMap_ s) ≡ₚ map_values (txioMap_ (sub_entry h s)) ++ rest /\
    all_txios (subHistMap_ s') ≡ₚ map_values m ++ rest.
Proof.
  intros [Ho Hs _ _] He Hm Hf s'. subst m. split; [by apply map_put_ordered|]. split; [by apply map_put_Forall|].
  by apply all_txios_put.
Qed.

(** A sub history of the same size and balance leaves the account as it is. *)
Lemma same_account s s' : ssh_account s -> map_ordered (subHistMap_ s') ->
  Forall (fun e => map_ordered (txioMap_ e.2) /\
    Forall (fun f => f.1 = getDBKeyOfOutput f.2 /\ getSliceCopy f.1 0 4 = e.1) (txioMap_ e.2)) (subHistMap_ s') ->
  totalTxioCount_ s' = totalTxioCount_ s -> totalUnspent_ s' = totalUnspent_ s ->
  all_txios (subHistMap_ s') ≡ₚ all_txios (subHistMap_ s) -> ssh_account s'.
Proof.
  intros Hs H1 H2 Ec Eu P. constructor; [done..| |].
  - rewrite Ec, (ac_count _ Hs). unfold zlen. by rewrite P.
  - rewrite Eu, (ac_unspent _ Hs). by rewrite (zsum_perm _ _ _ P).
Qed.

Lemma insertTxio_account s t : ssh_account s ->
  ssh_account (insertTxio t s) /\
  all_txios (subHistMap_ (insertTxio t s)) ≡ₚ
    (match find_txio (getDBKeyOfOutput t) s with Some _ => [] | None => [t] end) ++ all_txios (subHistMap_ s).
Proof.
  set (key := getDBKeyOfOutput t). set (h := getSliceCopy key 0 4). intros Hs.
  destruct (sub_entry_ok s h Hs) as [Hm Hf]. unfold find_txio. fold h.
  set (m := txioMap_ (sub_entry h s)) in *.
  assert (forall b : bool, txioMap_ (if b then set_sub_key (ssh_uniqueKey s) h (sub_entry h s) else sub_entry h s) = m)
    as Eb by (by intros []).
  unfold insertTxio. fold key. fold h. cbv zeta. rewrite Eb. unfold map_insert.
  set (e := if negb (sub_isInitialized (sub_entry h s)) then _ else _).
  destruct (map_find key m) as [t'|] eqn:E.
  - destruct (put_sub_account s h m (set_txioMap m e) Hs eq_refl Hm Hf) as (H1 & H2 & rest & P1 & P2).
    fold m in P1. rewrite <- P1 in P2. split; [|by rewrite P2]. by apply (same_account s).
  - destruct (put_sub_account s h (map_put key t m) (set_txioMap (map_put key t m) e) Hs eq_refl) as (H1 & H2 & rest & P1 & P2).
    { by apply map_put_ordered. }
    { by apply map_put_Forall. }
    pose proof (values_perm _ _ (map_put_new key t m E)) as Pv.
    fold m in P1. rewrite Pv in P2. change (map_values ((key, t) :: m)) with (t :: map_values m) in P2.
    cbn [app] in P2. rewrite <- P1 in P2. split; [|exact P2].
    constructor; [done..| |]; cbn [totalTxioCount_ totalUnspent_ set_totals put_sub set_subHistMap subHistMap_] in *.
    + rewrite (ac_count _ Hs), wrap_plus. f_equal. unfold zlen. rewrite P2. cbn [length]. lia.
    + rewrite (zsum_perm _ _ _ P2). cbn [zsum foldr]. fold (zsum (balance_of false) (all_txios (subHistMap_ s))).
      unfold balance_of at 1. rewrite orb_false_r. rewrite (ac_unspent _ Hs).
      destruct (hasTxIn t), (isMultisig_ t); cbn [negb andb]; rewrite ?wrap_plus; f_equal; lia.
Qed.

Lemma eraseTxio_account s t : ssh_account s ->
  (forall t', find_txio (getDBKeyOfOutput t) s = Some t' -> balance_of false t' = balance_of false t) ->
  ssh_account (eraseTxio t s) /\
  all_txios (subHistMap_ s) ≡ₚ
    (match find_txio (getDBKeyOfOutput t) s with Some t' => [t'] | None => [] end) ++
    all_txios (subHistMap_ (eraseTxio t s)).
Proof.
  set (key := getDBKeyOfOutput t). set (h := getSliceCopy key 0 4). intros Hs.
  destruct (sub_entry_ok s h Hs) as [Hm Hf]. unfold find_txio. fold h.
  set (m := txioMap_ (sub_entry h s)) in *. intros Ht.
  unfold eraseTxio. fold key. fold h. cbv zeta. fold m.
  destruct (put_sub_account s h (map_erase key m) (set_txioMap (map_erase key m) (sub_entry h s)) Hs eq_refl)
    as (H1 & H2 & rest & P1 & P2).
  { by apply map_erase_ordered. }
  { by apply map_erase_Forall. }
  fold m in P1. destruct (map_find key m) as [t'|] eqn:E.
  - rewrite bool_decide_eq_true_2 by done. pose proof (values_perm _ _ (map_find_perm key t' m E)) as Pv.
    rewrite Pv in P1. change (map_values ((key, t') :: map_erase key m)) with (t' :: map_values (map_erase key m)) in P1.
    cbn [app] in P1. rewrite <- P2 in P1. split; [|exact P1].
    constructor; [done..| |]; cbn [totalTxioCount_ totalUnspent_ set_totals put_sub set_subHistMap subHistMap_] in *.
    + rewrite (ac_count _ Hs), wrap_minus. f_equal. unfold zlen. rewrite P1. cbn [length]. lia.
    + rewrite (ac_unspent _ Hs), (zsum_perm _ _ _ P1). cbn [zsum foldr]. rewrite (Ht t' eq_refl).
      match goal with |- context [foldr ?f 0 ?l] => set (z := foldr f 0 l) end.
      change (zsum (balance_of false) (all_txios (map_put h (set_txioMap (map_erase key m) (sub_entry h s)) (subHistMap_ s)))) with z.
      unfold balance_of. rewrite orb_false_r. clearbody z.
      destruct (hasTxIn t), (isMultisig_ t); cbn [negb andb]; rewrite ?wrap_minus; f_equal; lia.
  - rewrite bool_decide_eq_false_2 by (intros H; by apply H). rewrite map_erase_none in * by done.
    rewrite <- P1 in P2. cbn [app]. split; [|by rewrite P2]. by apply (same_account s).
Qed.

(** C25: inserting and erasing keep the totals of a history: the count is that of
    its entries and the unspent total the sum of the amounts of those that have
    no input and are no multisig references, as 64-bit integers.  An insertion
    adds the entry unless its output is there; what is erased is found by its
    output, and the account needs that the entry given has the amount and the
    flags of the entry that is there. *)
Theorem history_account s t (Hs : ssh_account s) :
  (ssh_account (insertTxio t s) /\
   all_txios (subHistMap_ (insertTxio t s)) ≡ₚ
     (match find_txio (getDBKeyOfOutput t) s with Some _ => [] | None => [t] end) ++ all_txios (subHistMap_ s)) /\
  ((forall t', find_txio (getDBKeyOfOutput t) s = Some t' -> balance_of false t' = balance_of false t) ->
   ssh_account (eraseTxio t s) /\
   all_txios (subHistMap_ s) ≡ₚ
     (match find_txio (getDBKeyOfOutput t) s with Some t' => [t'] | None => [] end) ++
     all_txios (subHistMap_ (eraseTxio t s))).
Proof. split; [by apply insertTxio_account|by apply eraseTxio_account]. Qed.

Definition txio_example : TxIOPair := TxIOPair_key (map z2b [0; 0; 9; 0; 0; 1; 0; 0]) 5000.

Lemma history_account_witness :
  totalUnspent_ (insertTxio txio_example StoredScriptHistory_new) = 5000 /\
  ssh_account (eraseTxio txio_example (insertTxio txio_example StoredScriptHistory_new)).
Proof.
  assert (ssh_account StoredScriptHistory_new) as H0 by (constructor; done).
  destruct (history_account _ txio_example H0) as [[H1 _] _]. split; [reflexivity|].
  apply (history_account _ txio_example H1). intros t'. vm_compute. by intros [= <-].
Defined.

(** C27: an output on the main branch that nothing spends: a mined one is spendable
    from the 121st confirmation on but unconfirmed only up to the 119th, so with
    120 it is in neither balance; any other is spendable at once, and also
    unconfirmed below six. *)
Theorem output_maturity vd t blk n (Hout : hasTxOutInMain vd t = Ok true) (Hin : hasTxIn t = false)
  (Hn : nConf t blk = Ok n) :
  isSpendable vd t blk = Ok (negb (isFromCoinbase_ t) || (COINBASE_MATURITY <? n)) /\
  isMineButUnconfirmed vd t blk = Ok (n <? if isFromCoinbase_ t then COINBASE_MATURITY else MIN_CONFIRMATIONS).
Proof.
  assert (hasTxInZC t = false) as Hzi.
  { unfold hasTxIn, hasTxInZC in *. destruct (txRefOfInput_ t); [done|]. rewrite zlen_cons in Hin.
    pose proof (zlen_nonneg l). lia. }
  assert (hasTxOutZC t = false) as Hzo by (unfold hasTxOutInMain in Hout; by destruct (hasTxOutZC t)).
  unfold isSpendable, isMineButUnconfirmed, hasTxInInMain. rewrite Hzi, Hin, Hzo. cbn [negb mbind result_bind].
  rewrite Hout. cbn [mbind result_bind]. rewrite Hn. cbn [mbind result_bind].
  destruct (isFromCoinbase_ t); cbn [negb andb orb]; [|done]. split; [|done].
  rewrite Z.ltb_antisym. by destruct (n <=? COINBASE_MATURITY).
Qed.

Lemma output_maturity_witness :
  let t := setFromCoinbase true txio_example in
  isSpendable [(9, 0)] t 128 = Ok false /\ isMineButUnconfirmed [(9, 0)] t 128 = Ok false.
Proof.
  set (t := setFromCoinbase true txio_example).
  exact (output_maturity [(9, 0)] t 128 120 eq_refl eq_refl eq_refl).
Defined.

Definition spend_example : TxIOPair := setTxIn (map z2b [0; 0; 9; 0; 0; 2; 0; 1]) txio_example.
Definition sub_example : StoredSubHistory :=
  mkSub (map z2b [0; 1; 2]) (map z2b [0; 0; 9; 0]) [(getDBKeyOfOutput spend_example, spend_example)] 9 0 0.

Lemma subssh_roundtrip_witness : exists bw, sub_serializeDBValue [(9, 0)] sub_example bw_new = Ok bw /\
  parses (sub_unserializeDBValue (set_txioMap [] sub_example)) (theString_ bw) (set_txioCount 1 sub_example).
Proof.
  assert (sub_ok [(9, 0)] sub_example) as Hs.
  { constructor; [done|by repeat constructor|done|]. constructor; [|constructor]. split; [done|].
    constructor; [done|done|done|done]. }
  destruct (subssh_roundtrip [(9, 0)] (set_txioMap [] sub_example) sub_example Hs eq_refl eq_refl) as (bw & E & P & _).
  exists bw. split; [exact E|exact P].
Defined.

Definition ssh_example : StoredScriptHistory := mkSsh (map z2b [0; 1; 2]) 0 9 8 2 5000 [(9, 2)] [].

Lemma ssh_roundtrip_witness :
  parses (ssh_unserializeDBValue StoredScriptHistory_new) (ssh_value ARMORY_DB_FULL ssh_example)
    (set_ssh_key [] (mkSsh [] UINT32_MAX 9 8 2 5000 [(9, 2)] [])).
Proof.
  assert (ssh_ok ssh_example) as Hs by (constructor; [done|done|by repeat constructor|done|by repeat constructor]).
  exact (ssh_roundtrip ARMORY_DB_FULL ssh_example StoredScriptHistory_new Hs).
Defined.
