(* ===== verification/TxClasses.v ===== *)
(** * TxClasses: transactions as objects

    The classes [OutPoint], [TxIn], [TxOut] and [Tx] of cppForSwig/TxClasses.h
    and TxClasses.cpp: a [Tx] keeps a copy of the serialised transaction and
    where its parts start, and makes its inputs and outputs on demand; an input
    or output keeps a copy of its bytes, the offset and the type of its script.
    [TxRef] is in DBUtils; a [TxRef] member is here its database key.  The
    records of TxLength are the abstract transactions these objects stand for.
    Tests by [assert] are not part of a release build. *)

From S2P Require Import Prelude BinaryData BinaryIO Hashing DBUtils TxLength ScriptUtils.

(** ** [OutPoint] *)

Record OutPoint := mkOutPoint { outpoint_txHash : list byte; outpoint_txOutIndex : Z }.

Definition OutPoint_new : OutPoint := mkOutPoint (replicate 32 (z2b 0)) 0xffffffff.
Definition outpoint_isCoinbase (o : OutPoint) : bool := equal (outpoint_txHash o) EmptyHash.

Definition outpoint_less (o o' : OutPoint) : bool :=
  if equal (outpoint_txHash o) (outpoint_txHash o') then outpoint_txOutIndex o <? outpoint_txOutIndex o' else less (outpoint_txHash o) (outpoint_txHash o').
Definition outpoint_equal (o o' : OutPoint) : bool :=
  equal (outpoint_txHash o) (outpoint_txHash o') && (outpoint_txOutIndex o =? outpoint_txOutIndex o').

Definition outpoint_put (o : OutPoint) (w : BinaryWriter) : BinaryWriter :=
  bw_put_uint32_t (outpoint_txOutIndex o) LE (bw_put_BinaryData (outpoint_txHash o) w).
Definition outpoint_serialize (o : OutPoint) : list byte := theString_ (outpoint_put o bw_new).

(** 32 bytes pass the test of the size, 36 are read. *)
Definition outpoint_unserialize (data : list byte) : result OutPoint :=
  if zlen data <? 32 then Err BlockDeserializing
  else
    hash ← raw_read data 0 32;
    index ← raw_read data 32 4;
    Ok (mkOutPoint hash (le_val index)).

Definition outpoint_read : Reader OutPoint := fun brr =>
  if brr_getSizeRemaining brr <? 32 then Err BlockDeserializing
  else (hash ← brr_get_BinaryData 32; index ← brr_get_uint32_t LE; mret (mkOutPoint hash index)) brr.

Section objects.
Context `{HashFns}.

(** ** [TxIn] *)

Record TxInObj := mkTxInObj {
  ti_dataCopy : list byte;
  ti_parentHash : list byte;
  ti_parentHeight : Z;
  ti_index : Z;
  ti_scriptType : TXIN_SCRIPT_TYPE;
  ti_scriptOffset : Z;
  ti_parentTx : list byte;
}.

(** [index_] has no initial value: nothing reads it before it is set. *)
Definition TxInObj_new : TxInObj := mkTxInObj [] [] 0xffffffff 0xffffffff TXIN_SCRIPT_NONSTANDARD 0 [].

Definition ti_setParentHash (h : list byte) (o : TxInObj) : TxInObj :=
  mkTxInObj (ti_dataCopy o) h (ti_parentHeight o) (ti_index o) (ti_scriptType o) (ti_scriptOffset o) (ti_parentTx o).
Definition ti_setParentHeight (hgt : Z) (o : TxInObj) : TxInObj :=
  mkTxInObj (ti_dataCopy o) (ti_parentHash o) hgt (ti_index o) (ti_scriptType o) (ti_scriptOffset o) (ti_parentTx o).

Definition ti_isStandard (o : TxInObj) : bool := negb (bool_decide (ti_scriptType o = TXIN_SCRIPT_NONSTANDARD)).
Definition ti_isCoinbase (o : TxInObj) : bool := bool_decide (ti_scriptType o = TXIN_SCRIPT_COINBASE).
Definition ti_getOutPoint (o : TxInObj) : result OutPoint := outpoint_unserialize (ti_dataCopy o).
Definition ti_getScriptSize (o : TxInObj) : Z := wrap 64 (zlen (ti_dataCopy o) - wrap 32 (ti_scriptOffset o + 4)).

(** [getScript] and [getScriptRef]: the length that the bytes announce, from
    the offset that was kept; nothing holds it inside the copy. *)
Definition input_script (data : list byte) (offset : Z) : result (list byte) :=
  '(len, _) ← readVarInt (drop 36 data) (wrap 64 (zlen data - 36));
  raw_read data offset (wrap 32 len).
Definition ti_getScript (o : TxInObj) : result (list byte) := input_script (ti_dataCopy o) (ti_scriptOffset o).

Definition ti_getSequence (o : TxInObj) : result Z :=
  le_val <$> raw_read (ti_dataCopy o) (zlen (ti_dataCopy o) - 4) 4.

Definition ti_getParentHeight (o : TxInObj) : result Z :=
  if zlen (ti_parentTx o) =? 0 then Ok (ti_parentHeight o) else TxRef_getBlockHeight (ti_parentTx o).

(** [ptr] is a buffer of [size] bytes; [size] is a [uint32_t] here. *)
Definition ti_unserialize_checked (ptr : list byte) (nbytes : Z) (parent : list byte) (idx : Z) (o : TxInObj) : result TxInObj :=
  let ptr := take (Z.to_nat (wrap 32 (zlen ptr))) ptr in
  numBytes ← (if nbytes =? 0 then TxInCalcLength ptr else Ok nbytes);
  if zlen ptr <? numBytes then Err BlockDeserializing
  else
    let data := take (Z.to_nat numBytes) ptr in
    if wrap 64 (zlen data - 36) <? 1 then Err BlockDeserializing
    else
      viLen ← readVarIntLength (drop 36 data);
      let offset := 36 + viLen in
      if zlen data <? 32 then Err BlockDeserializing
      else
        script ← input_script data offset;
        prev ← raw_read data 0 32;
        type ← getTxInScriptType script prev;
        Ok (if zlen parent =? 0 then mkTxInObj data [] 0xffffffff idx type offset parent
            else mkTxInObj data (ti_parentHash o) (ti_parentHeight o) idx type offset parent).

(** [unserialize] of a reader. *)
Definition ti_unserialize (nbytes : Z) (parent : list byte) (idx : Z) (o : TxInObj) : Reader TxInObj := fun brr =>
  o ← ti_unserialize_checked (curr_ptr brr) nbytes parent idx o;
  Ok (o, brr_advance (zlen (ti_dataCopy o)) brr).

(** The answer, and the address that is written. *)
Definition ti_senderAddr (o : TxInObj) (addrTarget : list byte) : result (bool * list byte) :=
  if bool_decide (ti_scriptType o = TXIN_SCRIPT_NONSTANDARD) || bool_decide (ti_scriptType o = TXIN_SCRIPT_COINBASE) then
    Ok (false, BadAddress)
  else
    match (script ← ti_getScript o; getTxInAddrFromType script (ti_scriptType o)) with
    | Ok addr => Ok (true, addr)
    | Err BlockDeserializing => Ok (false, addrTarget)
    | Err e => Err e
    end.
Definition ti_getSenderScrAddrIfAvail (o : TxInObj) : result (list byte) := snd <$> ti_senderAddr o (replicate 20 (z2b 0)).

(** ** [TxOut] *)

(** [parentHeight_] has no initial value. *)
Record TxOutObj := mkTxOutObj {
  to_dataCopy : list byte;
  to_parentHash : list byte;
  to_parentHeight : option Z;
  to_uniqueScrAddr : list byte;
  to_scriptType : TXOUT_SCRIPT_TYPE;
  to_scriptOffset : Z;
  to_index : Z;
  to_parentTx : list byte;
}.

Definition to_setParentHash (h : list byte) (o : TxOutObj) : TxOutObj :=
  mkTxOutObj (to_dataCopy o) h (to_parentHeight o) (to_uniqueScrAddr o) (to_scriptType o) (to_scriptOffset o) (to_index o) (to_parentTx o).
Definition to_setParentHeight (hgt : Z) (o : TxOutObj) : TxOutObj :=
  mkTxOutObj (to_dataCopy o) (to_parentHash o) (Some hgt) (to_uniqueScrAddr o) (to_scriptType o) (to_scriptOffset o) (to_index o)
    (to_parentTx o).

Definition to_getValue (o : TxOutObj) : result Z := le_val <$> raw_read (to_dataCopy o) 0 8.

(** [getScriptSize] of a copy of this size. *)
Definition output_script_size (size offset : Z) : Z := wrap 32 (wrap 32 size - offset).
Definition to_getScriptSize (o : TxOutObj) : Z := output_script_size (zlen (to_dataCopy o)) (to_scriptOffset o).
Definition to_getScript (o : TxOutObj) : result (list byte) := raw_read (to_dataCopy o) (to_scriptOffset o) (to_getScriptSize o).

Definition to_getParentHeight (o : TxOutObj) : result Z :=
  if zlen (to_parentTx o) =? 0 then match to_parentHeight o with Some hgt => Ok hgt | None => Err UB end
  else TxRef_getBlockHeight (to_parentTx o).
Definition to_getParentIndex (o : TxOutObj) : result Z :=
  if zlen (to_parentTx o) =? 0 then Ok 0xffffffff else TxRef_getBlockTxIndex (to_parentTx o).

(** The type, offset and index of the script have no initial value either:
    nothing reads them before they are set. *)
Definition TxOutObj_new : TxOutObj := mkTxOutObj [] [] None [] TXOUT_SCRIPT_NONSTANDARD 0 0 [].

Context (cfg : Config).

Definition to_unserialize_checked (ptr : list byte) (nbytes : Z) (parent : list byte) (idx : Z) (o : TxOutObj) : result TxOutObj :=
  let ptr := take (Z.to_nat (wrap 32 (zlen ptr))) ptr in
  numBytes ← (if nbytes =? 0 then TxOutCalcLength ptr else Ok nbytes);
  if zlen ptr <? numBytes then Err BlockDeserializing
  else
    let data := take (Z.to_nat numBytes) ptr in
    viLen ← readVarIntLength (drop 8 data);
    let offset := 8 + viLen in
    let size := output_script_size (zlen data) offset in
    if zlen ptr <? wrap 64 (zlen data - offset - size) then Err BlockDeserializing
    else
      script ← raw_read data offset size;
      type ← getTxOutScriptType script;
      addr ← getTxOutScrAddr cfg script TXOUT_SCRIPT_NONSTANDARD;
      Ok (if zlen parent =? 0 then mkTxOutObj data [] (Some 0xffffffff) addr type offset idx parent
          else mkTxOutObj data (to_parentHash o) (to_parentHeight o) addr type offset idx parent).

Definition to_unserialize (nbytes : Z) (parent : list byte) (idx : Z) (o : TxOutObj) : Reader TxOutObj := fun brr =>
  o ← to_unserialize_checked (curr_ptr brr) nbytes parent idx o;
  Ok (o, brr_advance (zlen (to_dataCopy o)) brr).

(** ** [Tx] *)

(** [version_], [lockTime_] and [txTime_] have no initial value. *)
Record TxObj := mkTxObj {
  t_dataCopy : list byte;
  t_isInitialized : bool;
  t_usesWitness : bool;
  t_version : option Z;
  t_lockTime : option Z;
  t_thisHash : list byte;
  t_offsets : TxOffsets;
  t_txRefObj : list byte;
  t_txTime : option Z;
  t_isRBF : bool;
  t_isChainedZc : bool;
}.

Definition TxObj_new : TxObj := mkTxObj [] false false None None [] (mkOffsets [] [] []) [] None false false.

Definition set_thisHash (h : list byte) (t : TxObj) : TxObj :=
  mkTxObj (t_dataCopy t) (t_isInitialized t) (t_usesWitness t) (t_version t) (t_lockTime t) h (t_offsets t) (t_txRefObj t)
    (t_txTime t) (t_isRBF t) (t_isChainedZc t).
Definition t_setTxRef (ref : list byte) (t : TxObj) : TxObj :=
  mkTxObj (t_dataCopy t) (t_isInitialized t) (t_usesWitness t) (t_version t) (t_lockTime t) (t_thisHash t) (t_offsets t) ref
    (t_txTime t) (t_isRBF t) (t_isChainedZc t).
Definition t_setTxTime (time : Z) (t : TxObj) : TxObj :=
  mkTxObj (t_dataCopy t) (t_isInitialized t) (t_usesWitness t) (t_version t) (t_lockTime t) (t_thisHash t) (t_offsets t) (t_txRefObj t)
    (Some time) (t_isRBF t) (t_isChainedZc t).
Definition t_setRBF (b : bool) (t : TxObj) : TxObj :=
  mkTxObj (t_dataCopy t) (t_isInitialized t) (t_usesWitness t) (t_version t) (t_lockTime t) (t_thisHash t) (t_offsets t) (t_txRefObj t)
    (t_txTime t) b (t_isChainedZc t).
Definition t_setChainedZC (b : bool) (t : TxObj) : TxObj :=
  mkTxObj (t_dataCopy t) (t_isInitialized t) (t_usesWitness t) (t_version t) (t_lockTime t) (t_thisHash t) (t_offsets t) (t_txRefObj t)
    (t_txTime t) (t_isRBF t) b.

(** [thisHash_] stays what it was. *)
Definition t_unserialize (data : list byte) (t : TxObj) : result TxObj :=
  let size := zlen data in
  '(n, offs) ← TxCalcLength data;
  let nBytes := wrap 32 n in
  if size <? nBytes then Err BlockDeserializing
  else if size <? 8 then Err BlockDeserializing
  else
    marker ← raw_read data 4 2;
    version ← raw_read data 0 4;
    match last (offsetsWitness offs) with
    | None => Err UB
    | Some lockTimeOffset =>
        if wrap 64 (size - lockTimeOffset) <? 4 then Err BlockDeserializing
        else
          lockTime ← raw_read data lockTimeOffset 4;
          Ok (mkTxObj (take (Z.to_nat nBytes) data) true (le_val marker =? 0x0100) (Some (le_val version)) (Some (le_val lockTime))
            (t_thisHash t) offs (t_txRefObj t) (t_txTime t) (t_isRBF t) (t_isChainedZc t))
    end.

Definition t_unserialize_brr (t : TxObj) : Reader TxObj := fun brr =>
  t ← t_unserialize (curr_ptr brr) t;
  Ok (t, brr_advance (zlen (t_dataCopy t)) brr).

Definition t_getVersion (t : TxObj) : result Z := le_val <$> raw_read (t_dataCopy t) 0 4.
Definition t_getLockTime (t : TxObj) : result Z := match t_lockTime t with Some v => Ok v | None => Err UB end.
Definition t_getNumTxIn (t : TxObj) : Z := wrap 64 (zlen (offsetsIn (t_offsets t)) - 1).
Definition t_getNumTxOut (t : TxObj) : Z := wrap 64 (zlen (offsetsOut (t_offsets t)) - 1).

(** [offsets[i]] *)
Definition offset_at (offs : list Z) (i : Z) : result Z := match znth offs i with Some o => Ok o | None => Err UB end.

Definition t_isCoinbase (t : TxObj) : result bool :=
  if negb (t_isInitialized t) then Err RuntimeError
  else
    off ← offset_at (offsetsIn (t_offsets t)) 0;
    hash ← raw_read (t_dataCopy t) off 32;
    Ok (equal hash EmptyHash).

(** Marker and flag are taken for granted. *)
Definition serializeNoWitness (t : TxObj) : result (list byte) :=
  if negb (t_isInitialized t) then Err RuntimeError
  else
    match t_version t, t_lockTime t, last (offsetsOut (t_offsets t)) with
    | Some version, Some lockTime, Some outsEnd =>
        txBody ← raw_read (t_dataCopy t) 6 (wrap 64 (outsEnd - 6));
        Ok (append (append (le_bytes 4 version) txBody) (le_bytes 4 lockTime))
    | _, _, _ => Err UB
    end.

(** [thisHash_] is a mutable member that keeps the result. *)
Definition t_getThisHash (t : TxObj) : result (list byte * TxObj) :=
  if zlen (t_thisHash t) =? 0 then
    data ← (if t_usesWitness t then serializeNoWitness t else Ok (t_dataCopy t));
    let hash := getHash256 data in Ok (hash, set_thisHash hash t)
  else Ok (t_thisHash t, t).

(** The bytes from an offset on, and the distance to the next one. *)
Definition part_at (offs : list Z) (i : Z) (t : TxObj) : result (list byte * Z) :=
  next ← offset_at offs (i + 1);
  off ← offset_at offs i;
  Ok (drop (Z.to_nat off) (t_dataCopy t), wrap 32 (next - off)).

Definition getTxInCopy (i : Z) (t : TxObj) : result (TxInObj * TxObj) :=
  '(ptr, size) ← part_at (offsetsIn (t_offsets t)) i t;
  out ← ti_unserialize_checked ptr size (t_txRefObj t) i TxInObj_new;
  if zlen (t_txRefObj t) =? 0 then Ok (out, t)
  else
    '(hash, t) ← t_getThisHash t;
    height ← TxRef_getBlockHeight (t_txRefObj t);
    Ok (ti_setParentHeight height (ti_setParentHash hash out), t).

(** The index is an [int], which the test takes for an unsigned number. *)
Definition getTxOutCopy (i : Z) (t : TxObj) : result (TxOutObj * TxObj) :=
  let offs := offsetsOut (t_offsets t) in
  if wrap 64 (zlen offs - 1) <=? wrap 64 i then Err RangeError
  else
    '(ptr, size) ← part_at offs i t;
    out ← to_unserialize_checked ptr size (t_txRefObj t) i TxOutObj_new;
    '(hash, t) ← t_getThisHash t;
    let out := to_setParentHash hash out in
    if zlen (t_txRefObj t) =? 0 then Ok (out, t)
    else height ← TxRef_getBlockHeight (t_txRefObj t); Ok (to_setParentHeight height out, t).

(** [for (i = 0; i < getNumTxOut(); i++)], with [n] rounds left. *)
Fixpoint sum_outputs (n : nat) (i sumVal : Z) (t : TxObj) : result (Z * TxObj) :=
  match n with
  | O => Ok (sumVal, t)
  | S n =>
      '(out, t) ← getTxOutCopy i t;
      value ← to_getValue out;
      sum_outputs n (i + 1) (wrap 64 (sumVal + value)) t
  end.
Definition getSumOfOutputs (t : TxObj) : result (Z * TxObj) := sum_outputs (Z.to_nat (t_getNumTxOut t)) 0 0 t.

Definition getScrAddrForTxOut (txOutIndex : Z) (t : TxObj) : result (list byte * TxObj) :=
  '(txout, t) ← getTxOutCopy (signed 32 txOutIndex) t;
  script ← to_getScript txout;
  addr ← getTxOutScrAddr cfg script TXOUT_SCRIPT_NONSTANDARD;
  Ok (addr, t).

(** The sequence of each input is the end of its bytes; [rest] are the offsets
    that are left. *)
Fixpoint replaceable (data : list byte) (rest : list Z) : result bool :=
  match rest with
  | [] => Ok false
  | next :: rest =>
      sequence ← raw_read data (wrap 32 (next - 4)) 4;
      if le_val sequence <? 0xffffffff - 1 then Ok true else replaceable data rest
  end.
Definition isRBF (t : TxObj) : result bool :=
  if t_isRBF t then Ok true
  else match offsetsIn (t_offsets t) with
       | [] => Err UB
       | _ :: rest => replaceable (t_dataCopy t) rest
       end.

(** [operator==] compares the hashes that were computed, if any. *)
Definition t_equal (t t' : TxObj) : bool :=
  if t_isInitialized t && t_isInitialized t' then equal (t_thisHash t) (t_thisHash t') else false.

(** ** With the key of the database *)

Definition serializeWithMetaData (t : TxObj) : list byte :=
  if negb (zlen (t_txRefObj t) =? 6) then []
  else
    let bitpack := bp_putBit 8 (t_isChainedZc t) (bp_putBit 8 (t_isRBF t) bp_new) in
    theString_ (bw_put_BinaryData (t_dataCopy t) (bw_put_BinaryData (t_txRefObj t) (bw_put_BitPacker 8 bitpack bw_new))).

(** A transaction of fewer than seven bytes, or that cannot be parsed, leaves
    the object uninitialised; what else a failed parse leaves in it is not
    modelled. *)
Definition not_initialized (t : TxObj) : TxObj :=
  mkTxObj (t_dataCopy t) false (t_usesWitness t) (t_version t) (t_lockTime t) (t_thisHash t) (t_offsets t) (t_txRefObj t)
    (t_txTime t) (t_isRBF t) (t_isChainedZc t).

Definition read_metadata (t : TxObj) : Reader TxObj :=
  bitunpack ← bu_read 8;
  let '(isRBF, bitunpack) := bu_getBit 8 bitunpack in
  let '(isChained, _) := bu_getBit 8 bitunpack in
  key ← brr_get_BinaryData 6;
  mret (t_setTxRef key (t_setChainedZC isChained (t_setRBF isRBF t))).

Definition unserializeWithMetaData (rawTx : list byte) (t : TxObj) : result TxObj :=
  let t := not_initialized t in
  if zlen rawTx <? 7 then Ok t
  else
    '(t, brr) ← read_metadata t (brr_setNewData rawTx);
    match t_unserialize_brr t brr with
    | Ok (t, _) => Ok t
    | Err e => if is_exception e then Ok t else Err e
    end.
End objects.
