(* ===== verification/ScriptParser.v ===== *)
(** * ScriptParser: opcodes and script numbers

    The enumeration [OPCODETYPE] (cppForSwig/BtcUtils.h), the struct [OpCode]
    and the class [ScriptParser] (cppForSwig/Script.h, Script.cpp), which
    [StackInterpreter] and [StackResolver] derive from: cutting a script into
    opcodes, searching the end of a conditional, and the integers of scripts. *)

From S2P Require Import Prelude BinaryData BinaryIO TxLength.

(** ** Opcodes *)

(** The opcodes from 97 on; those below push data and are handled by value. *)
Inductive OPCODETYPE : Set :=
  | OP_NOP | OP_VER | OP_IF | OP_NOTIF | OP_VERIF | OP_VERNOTIF | OP_ELSE | OP_ENDIF | OP_VERIFY | OP_RETURN
  | OP_TOALTSTACK | OP_FROMALTSTACK | OP_2DROP | OP_2DUP | OP_3DUP | OP_2OVER | OP_2ROT | OP_2SWAP
  | OP_IFDUP | OP_DEPTH | OP_DROP | OP_DUP | OP_NIP | OP_OVER | OP_PICK | OP_ROLL | OP_ROT | OP_SWAP | OP_TUCK
  | OP_CAT | OP_SUBSTR | OP_LEFT | OP_RIGHT | OP_SIZE
  | OP_INVERT | OP_AND | OP_OR | OP_XOR | OP_EQUAL | OP_EQUALVERIFY | OP_RESERVED1 | OP_RESERVED2
  | OP_1ADD | OP_1SUB | OP_2MUL | OP_2DIV | OP_NEGATE | OP_ABS | OP_NOT | OP_0NOTEQUAL
  | OP_ADD | OP_SUB | OP_MUL | OP_DIV | OP_MOD | OP_LSHIFT | OP_RSHIFT
  | OP_BOOLAND | OP_BOOLOR | OP_NUMEQUAL | OP_NUMEQUALVERIFY | OP_NUMNOTEQUAL
  | OP_LESSTHAN | OP_GREATERTHAN | OP_LESSTHANOREQUAL | OP_GREATERTHANOREQUAL | OP_MIN | OP_MAX | OP_WITHIN
  | OP_RIPEMD160 | OP_SHA1 | OP_SHA256 | OP_HASH160 | OP_HASH256 | OP_CODESEPARATOR
  | OP_CHECKSIG | OP_CHECKSIGVERIFY | OP_CHECKMULTISIG | OP_CHECKMULTISIGVERIFY
  | OP_NOP1 | OP_NOP2 | OP_NOP3 | OP_NOP4 | OP_NOP5 | OP_NOP6 | OP_NOP7 | OP_NOP8 | OP_NOP9 | OP_NOP10.

#[export] Instance OPCODETYPE_eq_dec : EqDecision OPCODETYPE.
Proof. solve_decision. Defined.

(** The enumerators in the order of the source, the first has the value 97. *)
Definition opcodes : list OPCODETYPE :=
  [OP_NOP; OP_VER; OP_IF; OP_NOTIF; OP_VERIF; OP_VERNOTIF; OP_ELSE; OP_ENDIF; OP_VERIFY; OP_RETURN;
   OP_TOALTSTACK; OP_FROMALTSTACK; OP_2DROP; OP_2DUP; OP_3DUP; OP_2OVER; OP_2ROT; OP_2SWAP;
   OP_IFDUP; OP_DEPTH; OP_DROP; OP_DUP; OP_NIP; OP_OVER; OP_PICK; OP_ROLL; OP_ROT; OP_SWAP; OP_TUCK;
   OP_CAT; OP_SUBSTR; OP_LEFT; OP_RIGHT; OP_SIZE;
   OP_INVERT; OP_AND; OP_OR; OP_XOR; OP_EQUAL; OP_EQUALVERIFY; OP_RESERVED1; OP_RESERVED2;
   OP_1ADD; OP_1SUB; OP_2MUL; OP_2DIV; OP_NEGATE; OP_ABS; OP_NOT; OP_0NOTEQUAL;
   OP_ADD; OP_SUB; OP_MUL; OP_DIV; OP_MOD; OP_LSHIFT; OP_RSHIFT;
   OP_BOOLAND; OP_BOOLOR; OP_NUMEQUAL; OP_NUMEQUALVERIFY; OP_NUMNOTEQUAL;
   OP_LESSTHAN; OP_GREATERTHAN; OP_LESSTHANOREQUAL; OP_GREATERTHANOREQUAL; OP_MIN; OP_MAX; OP_WITHIN;
   OP_RIPEMD160; OP_SHA1; OP_SHA256; OP_HASH160; OP_HASH256; OP_CODESEPARATOR;
   OP_CHECKSIG; OP_CHECKSIGVERIFY; OP_CHECKMULTISIG; OP_CHECKMULTISIGVERIFY;
   OP_NOP1; OP_NOP2; OP_NOP3; OP_NOP4; OP_NOP5; OP_NOP6; OP_NOP7; OP_NOP8; OP_NOP9; OP_NOP10].

Definition opcode_at (value : Z) : option OPCODETYPE := znth opcodes (value - 97).

Definition is_op (value : Z) (op : OPCODETYPE) : bool := bool_decide (opcode_at value = Some op).

Record OpCode := mkOpCode { oc_offset : Z; oc_opcode : Z; oc_dataRef : list byte }.

(** [dataRef_.getSize()] bytes behind a push; an [OP_IF] takes all that is left. *)
Definition getNextOpcode : Reader OpCode :=
  offset ← get_position;
  opcode ← brr_get_uint8_t;
  if (opcode <=? 75) && (0 <? opcode) then
    dataRef ← brr_get_BinaryData opcode; mret (mkOpCode offset opcode dataRef)
  else
    let with_data (len : Z) : Reader OpCode :=
      dataRef ← brr_get_BinaryData len; mret (mkOpCode offset opcode dataRef) in
    if opcode =? 76 then len ← brr_get_uint8_t; with_data len
    else if opcode =? 77 then len ← brr_get_uint16_t LE; with_data len
    else if opcode =? 78 then len ← brr_get_uint32_t LE; with_data len
    else if is_op opcode OP_IF || is_op opcode OP_NOTIF then
      fun brr => with_data (wrap 32 (brr_getSizeRemaining brr)) brr
    else mret (mkOpCode offset opcode []).

(** Every opcode takes a byte at least: this many rounds reach the end. *)
Definition parse_fuel (brr : BinaryRefReader) : nat := S (length (bdRef_ brr)).

(** [seekToOpCode]: where the opcode is, or the end of the stream. *)
Fixpoint seekToOpCode_loop (fuel : nat) (opcode : Z) (brr : BinaryRefReader) : result (Z * BinaryRefReader) :=
  match fuel with
  | O => Err NoFuel
  | S fuel =>
      if 0 <? brr_getSizeRemaining brr then
        '(oc, brr) ← getNextOpcode brr;
        if oc_opcode oc =? opcode then Ok (wrap 64 (pos_ brr - 1 - zlen (oc_dataRef oc)), brr)
        else seekToOpCode_loop fuel opcode brr
      else Ok (pos_ brr, brr)
  end.

Definition seekToOpCode (brr : BinaryRefReader) (opcode : Z) : result (Z * BinaryRefReader) :=
  seekToOpCode_loop (parse_fuel brr) opcode brr.

(** ** Conditionals

    A search that throws [ScriptException] leaves the reader at the end of its
    stream, where the caller that catches it goes on: the reader is returned
    with the outcome. *)

Definition Seek : Type := BinaryRefReader * result ().

Fixpoint seekToNextIfSwitch_loop (fuel : nat) (depth : Z) (brr : BinaryRefReader) : Seek :=
  match fuel with
  | O => (brr, Err NoFuel)
  | S fuel =>
      if 0 <? brr_getSizeRemaining brr then
        match getNextOpcode brr with
        | Err e => (brr, Err e)
        | Ok (data, brr) =>
            let back := (brr_rewind (1 + zlen (oc_dataRef data)) brr, Ok tt) in
            if is_op (oc_opcode data) OP_IF || is_op (oc_opcode data) OP_NOTIF then
              seekToNextIfSwitch_loop fuel (depth + 1) brr
            else if is_op (oc_opcode data) OP_ENDIF then
              if 0 <? depth then seekToNextIfSwitch_loop fuel (depth - 1) brr
              else back
            else if is_op (oc_opcode data) OP_ELSE then
              if 0 <? depth then seekToNextIfSwitch_loop fuel depth brr else back
            else seekToNextIfSwitch_loop fuel depth brr
        end
      else (brr, Err ScriptError)
  end.

Definition seekToNextIfSwitch (brr : BinaryRefReader) : Seek :=
  seekToNextIfSwitch_loop (parse_fuel brr) 0 brr.

Fixpoint seekToEndIf_loop (fuel : nat) (brr : BinaryRefReader) : Seek :=
  match fuel with
  | O => (brr, Err NoFuel)
  | S fuel =>
      if 0 <? brr_getSizeRemaining brr then
        match seekToNextIfSwitch brr with
        | (brr, Err e) => (brr, Err e)
        | (brr, Ok _) =>
            match brr_get_uint8_t brr with
            | Err e => (brr, Err e)
            | Ok (opcode, brr) =>
                if is_op opcode OP_ENDIF then (brr, Ok tt) else seekToEndIf_loop fuel brr
            end
        end
      else (brr, Err ScriptError)
  end.

Definition seekToEndIf (brr : BinaryRefReader) : Seek := seekToEndIf_loop (parse_fuel brr) brr.

(** ** Script numbers *)

Definition notZero (data : list byte) : bool := existsb (fun b => negb (b2z b =? 0)) data.

(** Sign and magnitude, least significant byte first. *)
Definition rawBinaryToInt (bd : list byte) : result Z :=
  let len := zlen bd in
  if len =? 0 then Ok 0
  else if 4 <? len then Err ScriptError
  else
    let val := le_val bd in
    let sign := Z.shiftl 0x80 (8 * (len - 1)) in
    Ok (if negb (Z.land val sign =? 0) then - Z.ldiff val sign else val).

(** [intptr[i]] for the bytes of [absval]. *)
Definition int_byte (absval i : Z) : Z := Z.land (Z.shiftr absval (8 * i)) 0xff.

(** The loop from byte [i] down: it does not look at byte 0. *)
Fixpoint msb_offset (absval : Z) (i : nat) : Z :=
  match i with
  | O => 0
  | S j =>
      let byteval := int_byte absval (Z.of_nat i) in
      if 0 <? byteval then
        if negb (Z.land byteval 0x80 =? 0) then Z.of_nat i + 1 else Z.of_nat i
      else msb_offset absval j
  end.

(** [abs] of the least [int64_t] is undefined. *)
Definition intToRawBinary (val : Z) : result (list byte) :=
  if val =? 0 then Ok []
  else if val <=? - 2 ^ 63 then Err UB
  else
    let absval := Z.abs val in
    let off := msb_offset absval 7 in
    if 7 <? off then Err ScriptError
    else
      let absval := if val <? 0 then Z.lor absval (Z.shiftl 0x80 (8 * off)) else absval in
      Ok (le_bytes (Z.to_nat (off + 1)) absval).
