(* ===== verification/TxEvalState.v ===== *)
(** * TxEvalState: the outcome of verifying a transaction

    [TxInEvalState] and [TxEvalState] of cppForSwig/TxEvalState.h and
    TxEvalState.cpp: which keys of an input have signed, and whether all inputs
    are valid. *)

From S2P Require Import Prelude BinaryData StdMap.

Inductive PubKeyType := Type_Compressed | Type_Uncompressed | Type_Mixed | Type_Unkonwn.

#[export] Instance PubKeyType_eq_dec : EqDecision PubKeyType.
Proof. solve_decision. Defined.

Record TxInEvalState := mkTxInEvalState {
  validStack_ : bool;
  n_ : Z;
  m_ : Z;
  pubKeyState_ : stdmap (list byte) bool;
  keyType_ : PubKeyType;
}.

Definition TxInEvalState_new : TxInEvalState := mkTxInEvalState false 0 0 [] Type_Unkonwn.

Definition set_validStack (b : bool) (s : TxInEvalState) : TxInEvalState :=
  mkTxInEvalState b (n_ s) (m_ s) (pubKeyState_ s) (keyType_ s).
Definition set_n_m (n m : Z) (s : TxInEvalState) : TxInEvalState :=
  mkTxInEvalState (validStack_ s) n m (pubKeyState_ s) (keyType_ s).
Definition set_pubKeyState (keys : stdmap (list byte) bool) (s : TxInEvalState) : TxInEvalState :=
  mkTxInEvalState (validStack_ s) (n_ s) (m_ s) keys (keyType_ s).
Definition set_keyType (t : PubKeyType) (s : TxInEvalState) : TxInEvalState :=
  mkTxInEvalState (validStack_ s) (n_ s) (m_ s) (pubKeyState_ s) t.

(** The keys that have signed. *)
Definition getSigCount (s : TxInEvalState) : Z :=
  foldl (fun count (state : list byte * bool) => if state.2 then wrap 32 (count + 1) else count) 0 (pubKeyState_ s).

Definition txin_isValid (s : TxInEvalState) : bool :=
  if negb (validStack_ s) then false else m_ s <=? getSigCount s.

(** [getType] remembers its answer. *)
Definition getType (s : TxInEvalState) : PubKeyType * TxInEvalState :=
  if negb (bool_decide (keyType_ s = Type_Unkonwn)) then (keyType_ s, s)
  else
    let isUncompressed := existsb (fun key => zlen key.1 =? 65) (pubKeyState_ s) in
    let isCompressed := existsb (fun key => zlen key.1 =? 33) (pubKeyState_ s) in
    let t := if isCompressed && isUncompressed then Type_Mixed
             else if isCompressed then Type_Compressed
             else if isUncompressed then Type_Uncompressed else Type_Unkonwn in
    (t, set_keyType t s).

Section compress.
Variables (CompressPoint UncompressPoint : list byte -> list byte).

Definition key_state (key : list byte) (s : TxInEvalState) : bool :=
  match map_find key (pubKeyState_ s) with None => false | Some b => b end.

(** The key in its other form, for a state whose keys have one form. *)
Definition modified_key (t : PubKeyType) (pubkey : list byte) : list byte :=
  match t with
  | Type_Compressed => CompressPoint pubkey
  | Type_Uncompressed => UncompressPoint pubkey
  | _ => []
  end.

Definition isSignedForPubKey (pubkey : list byte) (s : TxInEvalState) : result (bool * TxInEvalState) :=
  if bool_decide (pubKeyState_ s = []) then Ok (false, s)
  else
    let '(type, s) := getType s in
    if bool_decide (type = Type_Unkonwn) then Err RuntimeError
    else if ((zlen pubkey =? 65) && bool_decide (type = Type_Uncompressed)) ||
            ((zlen pubkey =? 33) && bool_decide (type = Type_Compressed)) then
      Ok (key_state pubkey s, s)
    else if negb (bool_decide (type = Type_Mixed)) then
      Ok (key_state (modified_key type pubkey) s, s)
    else
      match map_find pubkey (pubKeyState_ s) with
      | Some b => Ok (b, s)
      | None => Ok (key_state (modified_key type pubkey) s, s)
      end.
End compress.

(** ** The whole transaction *)

Record TxEvalState := mkTxEvalState { evalMap_ : stdmap Z TxInEvalState }.

Definition getEvalMapSize (t : TxEvalState) : Z := zlen (evalMap_ t).
Definition eval_reset (t : TxEvalState) : TxEvalState := mkTxEvalState [].
Definition updateState (id : Z) (state : TxInEvalState) (t : TxEvalState) : TxEvalState :=
  mkTxEvalState (map_insert id state (evalMap_ t)).1.
Definition tx_isValid (t : TxEvalState) : bool := forallb (fun state => txin_isValid state.2) (evalMap_ t).
Definition getSignedStateForInput (i : Z) (t : TxEvalState) : result TxInEvalState :=
  match map_find i (evalMap_ t) with None => Err RangeError | Some s => Ok s end.
