(* ===== verification/SigHash.v ===== *)
(** * SigHash: the data a signature signs (cppForSwig/Transactions.h, Transactions.cpp)

    The interface [TransactionStub] of a transaction that is being verified or
    signed, and the classes [SigHashDataLegacy], [SigHashDataSegWit] and
    [SigHashData_BCH], which serialise what a signature covers.  Only
    SIGHASH_ALL is supported.

    The objects of the segregated-witness class keep the digests they compute
    first; they are shared through pointers, so they live in a store,
    [StubState], together with the map of code separators that the stub keeps
    as a mutable member. *)

From S2P Require Import Prelude BinaryData BinaryIO Hashing StdMap ScriptParser.

(** ** The stub *)

Record TxInData := mkTxInData { outputHash_ : list byte; outputIndex_ : Z; sequence_ : Z }.

(** What a transaction tells; the methods throw for indexes it does not have. *)
Class TransactionStub := {
  getSerializedOutputScripts : result (list byte);
  getTxInsData : result (list TxInData);
  getWitnessData : Z -> result (list byte);
  getVersion : Z;
  getTxOutCount : Z;
  getLockTime : Z;
  serializeAllOutpoints : result (list byte);
  serializeAllSequences : result (list byte);
  getOutpoint : Z -> result (list byte);
  getOutpointValue : Z -> result Z;
  getTxInSequence : Z -> result Z;
}.

(** An object of [SigHashDataSegWit]; [getSigHashAll_4Bytes] is the virtual
    method that tells it from [SigHashData_BCH]. *)
Record SigHashDataSegWit := mkSegWit {
  getSigHashAll_4Bytes : Z;
  initialized_ : bool;
  hashPrevouts_ : list byte;
  hashSequence_ : list byte;
  hashOutputs_ : list byte;
}.

Definition SegWit_new (fourBytes : Z) : SigHashDataSegWit := mkSegWit fourBytes false [] [] [].

(** A pointer to a [SigHashData]: the legacy class has no state. *)
Inductive SigHashData := SigHashDataLegacy | SegWitAt (id : nat).

#[export] Instance SigHashData_eq_dec : EqDecision SigHashData.
Proof. solve_decision. Defined.

(** What the interpreters of one transaction share and change. *)
Record StubState := mkStubState {
  lastCodeSeparatorMap_ : stdmap Z Z;
  segwit_objs : list SigHashDataSegWit;
}.

Definition StubState_new : StubState := mkStubState [] [].

Definition setLastOpCodeSeparator (index offset : Z) (s : StubState) : StubState :=
  mkStubState (map_put index offset (lastCodeSeparatorMap_ s)) (segwit_objs s).

Definition getLastCodeSeparatorOffset (index : Z) (s : StubState) : Z :=
  match map_find index (lastCodeSeparatorMap_ s) with
  | None => 0
  | Some offset => wrap 32 offset
  end.

(** [make_shared]: the new object's place. *)
Definition new_segwit (fourBytes : Z) (s : StubState) : nat * StubState :=
  (length (segwit_objs s), mkStubState (lastCodeSeparatorMap_ s) (segwit_objs s ++ [SegWit_new fourBytes])).

Section sighash.
Context `{HashFns} `{TransactionStub}.

(** ** The original serialisation *)

(** [tokenize]: the pieces between the separators. *)
Fixpoint tokenize_loop (fuel : nat) (data : list byte) (token start : Z) (brr : BinaryRefReader)
    : result (list (list byte)) :=
  match fuel with
  | O => Err NoFuel
  | S fuel =>
      if 0 <? brr_getSizeRemaining brr then
        '(offset, brr) ← seekToOpCode brr token;
        bdr ← raw_read data start (wrap 64 (offset - start));
        tokens ← tokenize_loop fuel data token (pos_ brr) brr;
        Ok (bdr :: tokens)
      else Ok []
  end.

Definition tokenize (data : list byte) (token : Z) : result (list (list byte)) :=
  let brr := brr_setNewData data in tokenize_loop (parse_fuel brr) data token 0 brr.

(** The script from the last separator on.  The sum of the two arguments of
    [getSliceRef] is the size of the script, so its test never fails: a
    separator noted at an offset the script does not have leads outside it. *)
Definition script_code (subScript : list byte) (inputIndex : Z) (s : StubState) : result (list byte) :=
  let lastCSoffset := getLastCodeSeparatorOffset inputIndex s in
  raw_read subScript lastCSoffset (wrap 64 (zlen subScript - lastCSoffset)).

(** The loop over the inputs: every script but that of [inputIndex] is empty. *)
Fixpoint put_txins (txins : list TxInData) (i inputIndex : Z) (subscript : list byte) (w : BinaryWriter)
    : BinaryWriter :=
  match txins with
  | [] => w
  | txin :: txins =>
      let w := bw_put_BinaryData (outputHash_ txin) w in
      let w := bw_put_uint32_t (outputIndex_ txin) LE w in
      let w :=
        if negb (inputIndex =? i) then
          bw_put_uint32_t (sequence_ txin) LE (bw_put_var_int 0 w).1
        else
          let w := (bw_put_var_int (zlen subscript) w).1 in
          bw_put_uint32_t (sequence_ txin) LE (bw_put_BinaryData subscript w) in
      put_txins txins (i + 1) inputIndex subscript w
  end.

Definition OP_CODESEPARATOR_value : Z := 171.

Definition legacy_getDataForSigHashAll (subScript : list byte) (inputIndex : Z) (s : StubState)
    : result (list byte) :=
  presubscript ← script_code subScript inputIndex s;
  tokens ← tokenize presubscript OP_CODESEPARATOR_value;
  let subscript := if zlen tokens =? 1 then presubscript else foldl append [] tokens in
  serializedOutputs ← getSerializedOutputScripts;
  txinsData ← getTxInsData;
  let strippedTxins := put_txins txinsData 0 inputIndex subscript bw_new in
  let w := bw_put_uint32_t getVersion LE bw_new in
  let w := (bw_put_var_int (zlen txinsData) w).1 in
  let w := bw_put_BinaryData (theString_ strippedTxins) w in
  let w := (bw_put_var_int getTxOutCount w).1 in
  let w := bw_put_BinaryData serializedOutputs w in
  let w := bw_put_uint32_t getLockTime LE w in
  Ok (theString_ (bw_put_uint32_t 1 LE w)).

(** ** The segregated-witness serialisation *)

Definition computePreState (o : SigHashDataSegWit) : result SigHashDataSegWit :=
  if initialized_ o then Ok o
  else
    allOutpoints ← serializeAllOutpoints;
    allSequences ← serializeAllSequences;
    allOutputs ← getSerializedOutputScripts;
    Ok (mkSegWit (getSigHashAll_4Bytes o) true (getHash256 allOutpoints) (getHash256 allSequences)
          (getHash256 allOutputs)).

Definition segwit_getDataForSigHashAll (subScript : list byte) (inputIndex : Z) (s : StubState)
    (o : SigHashDataSegWit) : result (list byte * SigHashDataSegWit) :=
  subscript ← script_code subScript inputIndex s;
  o ← computePreState o;
  outpoint ← getOutpoint inputIndex;
  value ← getOutpointValue inputIndex;
  sequence ← getTxInSequence inputIndex;
  let w := bw_put_uint32_t getVersion LE bw_new in
  let w := bw_put_BinaryData (hashPrevouts_ o) w in
  let w := bw_put_BinaryData (hashSequence_ o) w in
  let w := bw_put_BinaryData outpoint w in
  let w := (bw_put_var_int (wrap 64 (zlen subScript - getLastCodeSeparatorOffset inputIndex s)) w).1 in
  let w := bw_put_BinaryData subscript w in
  let w := bw_put_uint64_t value LE w in
  let w := bw_put_uint32_t sequence LE w in
  let w := bw_put_BinaryData (hashOutputs_ o) w in
  let w := bw_put_uint32_t getLockTime LE w in
  Ok (theString_ (bw_put_uint32_t (getSigHashAll_4Bytes o) LE w), o).

Definition SIGHASH_ALL : Z := 1.

(** [getDataForSigHash] through a pointer: the object behind it may change. *)
Definition getDataForSigHash (shd : SigHashData) (hashType : Z) (subScript : list byte) (inputIndex : Z)
    (s : StubState) : result (list byte * StubState) :=
  if negb (hashType =? SIGHASH_ALL) then Err UnsupportedSigHash
  else
    match shd with
    | SigHashDataLegacy =>
        data ← legacy_getDataForSigHashAll subScript inputIndex s; Ok (data, s)
    | SegWitAt id =>
        match segwit_objs s !! id with
        | None => Err UB
        | Some o =>
            '(data, o) ← segwit_getDataForSigHashAll subScript inputIndex s o;
            Ok (data, mkStubState (lastCodeSeparatorMap_ s) (<[id := o]> (segwit_objs s)))
        end
    end.
End sighash.
