(* ===== verification/ScriptParserProps.v ===== *)
(** * ScriptParserProps: what the parser of scripts guarantees

    The integers of scripts, with the range in which they are misread; the
    cutting of a script into the items it was built from; the end of the
    searches. *)

From S2P Require Import Prelude BinaryData BinaryIO TxLength ScriptParser.

(** ** Script numbers *)

Lemma land_bit a k : 0 <= k -> negb (Z.land a (2 ^ k) =? 0) = Z.testbit a k.
Proof.
  intros Hk. destruct (Z.testbit a k) eqn:E.
  - apply negb_true_iff, Z.eqb_neq. intros H0. assert (Z.testbit (Z.land a (2 ^ k)) k = true) as H.
    { rewrite Z.land_spec, E. by apply Z.pow2_bits_true. }
    rewrite H0, Z.bits_0 in H. done.
  - apply negb_false_iff, Z.eqb_eq, Z.bits_inj'. intros n Hn. rewrite Z.land_spec, Z.bits_0.
    rewrite Z.pow2_bits_eqb by done. destruct (Z.eqb_spec k n) as [->|]; [by rewrite E|apply andb_false_r].
Qed.

Lemma testbit_high a k : 0 <= k -> 0 <= a < 2 ^ (k + 1) -> Z.testbit a k = (2 ^ k <=? a).
Proof.
  intros Hk Ha. rewrite Z.pow_add_r in Ha by lia. change (2 ^ 1) with 2 in Ha.
  assert (0 < 2 ^ k) by (apply Z.pow_pos_nonneg; lia).
  destruct (Z.leb_spec (2 ^ k) a).
  - apply (Z.testbit_true _ _ Hk). replace a with ((a - 2 ^ k) + 1 * 2 ^ k) by lia.
    rewrite Z.div_add, Z.div_small by lia. done.
  - apply (Z.testbit_false _ _ Hk). by rewrite Z.div_small by lia.
Qed.

Lemma lor_high a k : 0 <= k -> 0 <= a < 2 ^ k -> Z.lor a (2 ^ k) = a + 2 ^ k.
Proof.
  intros Hk Ha. rewrite <- (Z.shiftl_1_l k) at 1. rewrite lor_shift_add by lia. lia.
Qed.

Lemma ldiff_high a k : 0 <= k -> 0 <= a < 2 ^ k -> Z.ldiff (a + 2 ^ k) (2 ^ k) = a.
Proof.
  intros Hk Ha. rewrite <- lor_high by lia. apply Z.bits_inj'. intros n Hn.
  rewrite Z.ldiff_spec, Z.lor_spec, Z.pow2_bits_eqb by done.
  destruct (Z.eqb_spec k n) as [->|]; [|by rewrite orb_false_r, andb_true_r].
  rewrite orb_true_r. simpl. symmetry. rewrite testbit_high; [apply Z.leb_gt; lia|lia|].
  rewrite Z.pow_add_r by lia. change (2 ^ 1) with 2. lia.
Qed.

Lemma msb_offset_spec a (i : nat) : 0 <= a < 256 ^ (Z.of_nat i + 1) ->
  let off := msb_offset a i in
  (a < 256 /\ off = 0) \/
  (256 <= a /\ 1 <= off <= Z.of_nat i + 1 /\ 128 * 256 ^ (off - 1) <= a < 128 * 256 ^ off).
Proof.
  induction i as [|i IH]; intros Ha off.
  - left. change (256 ^ (Z.of_nat 0 + 1)) with 256 in Ha. subst off. simpl. lia.
  - subst off. cbn [msb_offset]. unfold int_byte.
    set (k := Z.of_nat (S i)) in *. set (p := 256 ^ k).
    assert (256 ^ (k + 1) = 256 * p) as Ep by (unfold p; rewrite Z.pow_add_r by lia; lia).
    assert (0 < p) by (apply Z.pow_pos_nonneg; lia).
    assert (256 <= p) as Hp256 by (unfold p; apply (Z.pow_le_mono_r 256 1 k); lia).
    assert (p = 256 * 256 ^ (k - 1)) as Ep1.
    { unfold p. replace k with (1 + (k - 1)) at 1 by lia. rewrite Z.pow_add_r by lia. done. }
    change 0xff with (Z.ones 8). rewrite Z.land_ones, Z.shiftr_div_pow2 by lia.
    replace (2 ^ (8 * k)) with p by (unfold p; change 256 with (2 ^ 8); rewrite <- Z.pow_mul_r by lia; done).
    assert (a / p < 256) by (apply Z.div_lt_upper_bound; lia).
    assert (0 <= a / p) by (apply Z.div_pos; lia).
    change (2 ^ 8) with 256. rewrite Z.mod_small by lia.
    destruct (Z.ltb_spec 0 (a / p)) as [Hb|Hb].
    + assert (p <= a) by (destruct (Z.lt_ge_cases a p); [rewrite Z.div_small in Hb; lia|lia]).
      right. split; [lia|]. change 0x80 with (2 ^ 7). rewrite land_bit by lia.
      rewrite testbit_high by (try lia; change (2 ^ (7 + 1)) with 256; lia). change (2 ^ 7) with 128.
      destruct (Z.leb_spec 128 (a / p)) as [H128|H128].
      * rewrite Z.add_simpl_r, Ep. assert (p * 128 <= a) by (etrans; [|apply (Z.mul_div_le a p)]; nia). fold p. lia.
      * fold p. assert (a < p * 128); [|lia]. pose proof (Z.mul_succ_div_gt a p). nia.
    + assert (a < p) by (pose proof (Z.mul_succ_div_gt a p); nia).
      destruct IH as [[? ?]|(? & ? & ?)].
      { replace (Z.of_nat i + 1) with k by lia. fold p. lia. }
      * by left.
      * right. lia.
Qed.

(** What a number becomes that is written and read back: sign and low bits are
    confused where byte 0 alone holds a magnitude of eight bits. *)
Definition read_back (v : Z) : Z := if (128 <=? Z.abs v) && (Z.abs v <? 256) then 128 - Z.abs v else v.

Lemma rawBinary_bytes n m : 1 <= Z.of_nat n <= 4 -> 0 <= m < 256 ^ Z.of_nat n ->
  rawBinaryToInt (le_bytes n m) =
  Ok (if 2 ^ (8 * Z.of_nat n - 1) <=? m then - (m - 2 ^ (8 * Z.of_nat n - 1)) else m).
Proof.
  intros Hn Hm. unfold rawBinaryToInt. rewrite zlen_le_bytes, le_val_le_bytes, Z.mod_small by lia.
  zsimp. set (k := 8 * Z.of_nat n - 1).
  replace (Z.shiftl 128 (8 * (Z.of_nat n - 1))) with (2 ^ k).
  2:{ rewrite Z.shiftl_mul_pow2 by lia. change 128 with (2 ^ 7). rewrite <- Z.pow_add_r by lia. f_equal. lia. }
  assert (256 ^ Z.of_nat n = 2 ^ (k + 1)) as E.
  { change 256 with (2 ^ 8). rewrite <- Z.pow_mul_r by lia. f_equal. lia. }
  rewrite E in Hm. rewrite land_bit, testbit_high by lia. destruct (Z.leb_spec (2 ^ k) m); [|done].
  rewrite Z.pow_add_r in Hm by lia. change (2 ^ 1) with 2 in Hm.
  replace m with ((m - 2 ^ k) + 2 ^ k) at 1 by lia. rewrite ldiff_high by lia. done.
Qed.

Lemma int_bytes_value v : - 2 ^ 63 < v < 2 ^ 63 -> v ≠ 0 -> exists (n : nat) m,
  intToRawBinary v = Ok (le_bytes n m) /\ 1 <= Z.of_nat n <= 8 /\ 0 <= m < 256 ^ Z.of_nat n /\
  ((Z.abs v < 256 /\ n = 1%nat /\ m = (if v <? 0 then Z.lor (Z.abs v) 128 else Z.abs v)) \/
   (256 <= Z.abs v /\ 2 <= Z.of_nat n /\ 128 * 256 ^ (Z.of_nat n - 2) <= Z.abs v < 2 ^ (8 * Z.of_nat n - 1) /\
    m = (if v <? 0 then Z.abs v + 2 ^ (8 * Z.of_nat n - 1) else Z.abs v))).
Proof.
  intros Hv H0. unfold intToRawBinary. zsimp.
  pose proof (msb_offset_spec (Z.abs v) 7) as Hs. cbv zeta in Hs.
  change (256 ^ (Z.of_nat 7 + 1)) with (2 ^ 64) in Hs. specialize (Hs ltac:(lia)).
  set (off := msb_offset (Z.abs v) 7) in *. exists (Z.to_nat (off + 1)).
  destruct Hs as [[Ha Eo]|(Ha & Ho & Hr)].
  - rewrite Eo. zsimp. change (Z.to_nat (0 + 1)) with 1%nat. change (Z.shiftl 128 (8 * 0)) with 128.
    eexists. split; [reflexivity|]. split; [lia|]. split; [|left; done]. change (256 ^ Z.of_nat 1) with 256.
    destruct (v <? 0); [|lia]. split; [apply Z.lor_nonneg; lia|].
    apply (Z.log2_lt_cancel _ 256). rewrite Z.log2_lor by lia. change (Z.log2 256) with 8.
    apply Z.max_lub_lt; [|by vm_compute]. apply Z.log2_lt_pow2; [lia|]. change (2 ^ 8) with 256. lia.
  - assert (off <= 7) as Ho7.
    { destruct (Z.le_gt_cases off 7); [done|]. assert (256 ^ 7 <= 256 ^ (off - 1)) by (apply Z.pow_le_mono_r; lia).
      change (256 ^ 7) with (2 ^ 56) in *. lia. }
    zsimp. rewrite !Z2Nat.id by lia.
    assert (2 ^ (8 * (off + 1) - 1) = 128 * 256 ^ off) as E.
    { change 128 with (2 ^ 7). change 256 with (2 ^ 8). rewrite <- Z.pow_mul_r, <- Z.pow_add_r by lia. f_equal. lia. }
    rewrite E. replace (Z.shiftl 128 (8 * off)) with (2 ^ (8 * (off + 1) - 1))
      by (rewrite Z.shiftl_mul_pow2 by lia; change 128 with (2 ^ 7); rewrite <- Z.pow_add_r by lia; f_equal; lia).
    assert (256 ^ (off + 1) = 256 * 256 ^ off) as Ep by (rewrite Z.pow_add_r by lia; lia).
    replace (off + 1 - 2) with (off - 1) by lia.
    assert (0 < 256 ^ off) by (apply Z.pow_pos_nonneg; lia).
    eexists. split; [reflexivity|]. split; [lia|]. rewrite Ep. split; [|right].
    + destruct (v <? 0); [rewrite lor_high by lia|]; lia.
    + repeat split; try lia. destruct (v <? 0); [|done]. rewrite lor_high by lia. lia.
Qed.

(** ** Scripts built from items *)

(** A push of data, with the header [getPushDataHeader] writes, or an opcode
    without data. *)
Inductive item := IPush (d : list byte) | IOp (v : Z).

Definition push_header (d : list byte) : list byte :=
  if zlen d <=? 75 then [z2b (zlen d)]
  else if zlen d <? 2 ^ 8 - 1 then z2b 76 :: [z2b (zlen d)]
  else z2b 77 :: int_to LE 2 (zlen d).

Definition push_value (d : list byte) : Z :=
  if zlen d <=? 75 then zlen d else if zlen d <? 2 ^ 8 - 1 then 76 else 77.

Definition enc_item (it : item) : list byte :=
  match it with IPush d => push_header d ++ d | IOp v => [z2b v] end.

Definition item_ok (it : item) : Prop :=
  match it with
  | IPush d => 0 < zlen d < 2 ^ 16 - 1
  | IOp v => (v = 0 \/ 79 <= v < 256) /\ v ≠ 99 /\ v ≠ 100
  end.

Definition op_of (p : Z) (it : item) : OpCode :=
  match it with IPush d => mkOpCode p (push_value d) d | IOp v => mkOpCode p v [] end.

Definition enc_items (its : list item) : list byte := concat (map enc_item its).

Fixpoint ops_of (p : Z) (its : list item) : list OpCode :=
  match its with
  | [] => []
  | it :: its => op_of p it :: ops_of (p + zlen (enc_item it)) its
  end.

Lemma opcodes_NoDup : NoDup opcodes.
Proof. apply (bool_decide_unpack _). vm_compute. exact I. Qed.

(** The values of the enumerators are distinct. *)
Lemma is_op_eqb op k v : opcode_at k = Some op -> is_op v op = (v =? k).
Proof.
  unfold is_op, opcode_at, znth. intros Hk. case_decide; [|done].
  destruct (Z.eqb_spec v k) as [->|Hne].
  - rewrite decide_True by done. by apply bool_decide_eq_true.
  - apply bool_decide_eq_false. intros Hv. case_decide; [|done].
    pose proof (NoDup_lookup _ _ _ _ opcodes_NoDup Hk Hv). lia.
Qed.

Lemma is_IF v : is_op v OP_IF = (v =? 99). Proof. by apply is_op_eqb. Qed.
Lemma is_NOTIF v : is_op v OP_NOTIF = (v =? 100). Proof. by apply is_op_eqb. Qed.
Lemma is_ELSE v : is_op v OP_ELSE = (v =? 103). Proof. by apply is_op_eqb. Qed.
Lemma is_ENDIF v : is_op v OP_ENDIF = (v =? 104). Proof. by apply is_op_eqb. Qed.

Lemma getNextOpcode_item p it : item_ok it -> parses_from p getNextOpcode (enc_item it) (op_of p it).
Proof.
  intros Hok. unfold getNextOpcode. eapply parses_from_bind_0; [apply get_position_from|].
  apply parses_from_any. destruct it as [d|v]; simpl enc_item; simpl op_of; simpl item_ok in Hok.
  - unfold push_header, push_value. destruct (Z.leb_spec (zlen d) 75);
      [|destruct (Z.ltb_spec (zlen d) (2 ^ 8 - 1))]; rewrite <- ?app_comm_cons.
    + eapply (parses_bind _ _ [_]); [apply brr_get_uint8_t_parses; unfold is_uint; lia|]. zsimp.
      eapply parses_bind_ret; [by apply brr_get_BinaryData_parses|apply parses_ret].
    + eapply (parses_bind _ _ [_]); [apply brr_get_uint8_t_parses; unfold is_uint; lia|]. zsimp.
      eapply (parses_bind _ _ [_]); [apply brr_get_uint8_t_parses; unfold is_uint; lia|].
      eapply parses_bind_ret; [by apply brr_get_BinaryData_parses|apply parses_ret].
    + eapply (parses_bind _ _ [_]); [apply brr_get_uint8_t_parses; unfold is_uint; lia|]. zsimp.
      eapply parses_bind; [apply brr_get_uint16_t_parses; unfold is_uint; lia|].
      eapply parses_bind_ret; [by apply brr_get_BinaryData_parses|apply parses_ret].
  - destruct Hok as (Hv & H99 & H100). rewrite <- (app_nil_r [z2b v]).
    eapply parses_bind; [apply brr_get_uint8_t_parses; unfold is_uint; lia|].
    rewrite is_IF, is_NOTIF. destruct Hv as [->|Hv]; zsimp; apply parses_ret.
Qed.

Lemma script_item_pos it : item_ok it -> 1 <= zlen (enc_item it).
Proof.
  destruct it as [d|v]; simpl; [|done]. intros Hd. rewrite zlen_app. pose proof (zlen_nonneg (push_header d)). lia.
Qed.

Lemma items_length its : Forall item_ok its -> (length its <= length (enc_items its))%nat.
Proof.
  induction 1 as [|it its Hit _ IH]; [done|]. unfold enc_items in *. cbn [map concat length].
  rewrite length_app. pose proof (script_item_pos it Hit). unfold zlen in *. lia.
Qed.

(** ** The end of the searches *)

Lemma safe_bind_when {A B} (P : A -> Prop) (m : Reader A) (f : A -> Reader B) :
  safe m -> (forall r a r', m r = Ok (a, r') -> P a) -> (forall a, P a -> safe (f a)) -> safe (m ≫= f).
Proof.
  intros Hm HP Hf r Hr. unfold mbind, reader_bind. specialize (Hm r Hr).
  destruct (m r) as [[a r']|e] eqn:E; [|done]. destruct Hm as (Hr' & Hb & Hp).
  specialize (Hf a (HP _ _ _ E) r' Hr'). destruct (f a r') as [[b r'']|e]; [|done].
  destruct Hf as (? & ? & ?). split; [done|]. split; [congruence|lia].
Qed.

Lemma take_le_nonneg n r a r' : (bs ← brr_take n; mret (le_val bs)) r = Ok (a, r') -> 0 <= a.
Proof.
  unfold mbind, reader_bind. destruct (brr_take n r) as [[bs r1]|e]; [|done].
  intros [=<- _]. pose proof (le_val_range bs). lia.
Qed.

Lemma safe_self {A} (f : BinaryRefReader -> Reader A) : (forall x, safe (f x)) -> safe (fun r => f r r).
Proof. intros Hf r Hr. by apply Hf. Qed.

(** What follows the first byte of an opcode. *)
Lemma getNextOpcode_split : exists k, (forall offset opcode, safe (k offset opcode)) /\
  getNextOpcode = (offset ← get_position; opcode ← brr_get_uint8_t; k offset opcode).
Proof.
  refine (ex_intro _ _ (conj _ eq_refl)). intros offset opcode. cbv beta.
  assert (forall len, 0 <= len -> safe (dataRef ← brr_get_BinaryData len; mret (mkOpCode offset opcode dataRef))) as Hd
    by (intros; eauto with armory).
  bcase; [breflect; apply Hd; lia|].
  bcase; [apply (safe_bind_when (fun len => 0 <= len)); [eauto with armory|intros ??? E; by apply take_le_nonneg in E|done]|].
  bcase; [apply (safe_bind_when (fun len => 0 <= len)); [eauto with armory|intros ??? E; by apply take_le_nonneg in E|done]|].
  bcase; [apply (safe_bind_when (fun len => 0 <= len)); [eauto with armory|intros ??? E; by apply take_le_nonneg in E|done]|].
  bcase; [|apply safe_ret].
  apply (safe_self (fun brr => dataRef ← brr_get_BinaryData (wrap 32 (brr_getSizeRemaining brr));
    mret (mkOpCode offset opcode dataRef))). intros x. apply Hd. by apply wrap_range.
Qed.

Lemma getNextOpcode_safe : safe getNextOpcode.
Proof.
  destruct getNextOpcode_split as (k & Hk & ->). apply safe_bind; [|eauto with armory].
  intros r Hr. unfold get_position. split; [done|]. split; [done|lia].
Qed.

(** An opcode that is read takes at least a byte. *)
Lemma getNextOpcode_advances r oc r' : brr_wf r -> getNextOpcode r = Ok (oc, r') ->
  brr_wf r' /\ bdRef_ r' = bdRef_ r /\ pos_ r < pos_ r'.
Proof.
  intros Hr E. destruct getNextOpcode_split as (k & Hk & Eg). rewrite Eg in E.
  unfold mbind, reader_bind, get_position in E.
  destruct (brr_wf_split r Hr) as (pre & [|b post] & -> & Hl).
  { unfold brr_get_uint8_t, mbind, reader_bind, brr_take in E. rewrite brr_remaining_at in E by done. done. }
  pose proof (b2z_range b) as Hb. rewrite (brr_get_uint8_t_parses' b) in E by done.
  pose proof (Hk (zlen pre) (b2z b) (brr_at (pre ++ [b]) post)) as Hs.
  assert (zlen ((pre ++ [b]) ++ post) < two64) as Hl' by by rewrite <- app_assoc.
  specialize (Hs (brr_wf_at _ _ Hl')). simpl pos_ in E. rewrite E in Hs. destruct Hs as (? & Hbd & Hp).
  split; [done|]. simpl in *. rewrite <- app_assoc in Hbd. split; [done|]. zlen_lia.
Qed.

(** The bytes left bound the rounds of the loops. *)
Definition left (r : BinaryRefReader) : Z := totalSize_ r - pos_ r.

Lemma parse_fuel_enough r : brr_wf r -> left r < Z.of_nat (parse_fuel r).
Proof. intros (Ht & Hp & _). unfold left, parse_fuel. rewrite Ht. unfold zlen. lia. Qed.

Lemma left_remaining r : brr_wf r -> brr_getSizeRemaining r = left r.
Proof. intros. by apply brr_remaining_wf. Qed.

Lemma getNextOpcode_left r oc r' : brr_wf r -> getNextOpcode r = Ok (oc, r') -> brr_wf r' /\ 0 <= left r' < left r.
Proof.
  intros Hr E. destruct (getNextOpcode_advances r oc r' Hr E) as (Hr' & Hb & Hp). split; [done|].
  unfold left. destruct Hr as (Ht & ? & ?), Hr' as (Ht' & ? & ?). rewrite Ht, Ht', Hb. rewrite Hb in Ht'. lia.
Qed.

(** An opcode that ends a block: OP_ELSE or OP_ENDIF. *)
Definition is_switch (sw : Z) : Prop := sw = 103 \/ sw = 104.

Lemma getNextOpcode_byte pre v post : is_switch v -> zlen (pre ++ [z2b v] ++ post) < two64 ->
  getNextOpcode (brr_at pre ([z2b v] ++ post)) = Ok (mkOpCode (zlen pre) v [], brr_at (pre ++ [z2b v]) post).
Proof.
  intros Hv Hl. assert (item_ok (IOp v)) as Hok by (destruct Hv; subst; cbn; lia).
  by apply (getNextOpcode_item (zlen pre) (IOp v) Hok pre post eq_refl).
Qed.

Lemma rewind_at pre b post : zlen (pre ++ [b] ++ post) < two64 -> brr_rewind 1 (brr_at (pre ++ [b]) post) = brr_at pre ([b] ++ post).
Proof.
  intros Hl. unfold brr_rewind, brr_at, set_pos. cbn [bdRef_ totalSize_ pos_]. rewrite !zlen_app in Hl.
  rewrite (zlen_app pre [b]). change (zlen [b]) with 1 in *. pose proof (zlen_nonneg pre). pose proof (zlen_nonneg post).
  rewrite Z.add_simpl_r, wrap_small by (unfold is_uint, two64 in *; lia). zsimp. by rewrite <- app_assoc.
Qed.

(** *** The fuel of the searches

    Whatever the bytes are, a search does at most one round for each byte that is
    left, so that [parse_fuel] is enough: with more of it, it does the same. *)

Lemma left_nonneg r : brr_wf r -> 0 <= left r.
Proof. intros (_ & ? & _). unfold left. lia. Qed.

Lemma seek_switch_fuel fuel : forall fuel' depth r, brr_wf r -> left r < Z.of_nat fuel -> left r < Z.of_nat fuel' ->
  seekToNextIfSwitch_loop fuel depth r = seekToNextIfSwitch_loop fuel' depth r.
Proof.
  induction fuel as [|fuel IH]; intros [|fuel'] depth r Hr Hl Hl'; try (pose proof (left_nonneg r Hr); lia).
  cbn [seekToNextIfSwitch_loop].
  case_match; [|done]. destruct (getNextOpcode r) as [[oc r']|e] eqn:E; [|done].
  apply getNextOpcode_left in E as [Hr' Hl2]; [|done].
  repeat case_match; try done; apply IH; done || lia.
Qed.

Lemma getNextOpcode_opcode pre b post oc r' : zlen (pre ++ b :: post) < two64 ->
  getNextOpcode (brr_at pre (b :: post)) = Ok (oc, r') -> oc_opcode oc = b2z b.
Proof.
  intros Hl. unfold getNextOpcode, get_position. unfold mbind, reader_bind. rewrite (brr_get_uint8_t_parses' b) by done.
  repeat case_match; unfold mret, reader_ret; intros; simplify_eq; done.
Qed.

Lemma getNextOpcode_back r oc r' : brr_wf r -> getNextOpcode r = Ok (oc, r') ->
  is_op (oc_opcode oc) OP_ENDIF = true \/ is_op (oc_opcode oc) OP_ELSE = true -> brr_rewind (1 + zlen (oc_dataRef oc)) r' = r.
Proof.
  intros Hr E Hs. rewrite is_ENDIF, is_ELSE, !Z.eqb_eq in Hs. destruct (brr_wf_split r Hr) as (pre & [|b post] & -> & Hl).
  { unfold getNextOpcode, get_position, brr_get_uint8_t, mbind, reader_bind, brr_take in E. rewrite brr_remaining_at in E by done. done. }
  pose proof (getNextOpcode_opcode pre b post oc r' Hl E) as Eb. rewrite Eb in Hs.
  change (b :: post) with ([b] ++ post) in *. rewrite <- (z2b_b2z b) in E, Hl |- *.
  rewrite getNextOpcode_byte in E; [|unfold is_switch; lia|done]. injection E as <- <-. change (1 + zlen []) with 1. by apply rewind_at.
Qed.

(** Where a search succeeds it is at a switch further on. *)
Lemma seek_switch_ahead fuel : forall depth r r', brr_wf r -> seekToNextIfSwitch_loop fuel depth r = (r', Ok tt) ->
  brr_wf r' /\ left r' <= left r.
Proof.
  induction fuel as [|fuel IH]; intros depth r r' Hr; cbn [seekToNextIfSwitch_loop]; [done|].
  case_match; [|done]. destruct (getNextOpcode r) as [[oc r1]|e] eqn:E; [|done].
  pose proof (getNextOpcode_left r oc r1 Hr E) as [Hr1 Hl1]. pose proof (getNextOpcode_back r oc r1 Hr E) as Hb.
  destruct (is_op (oc_opcode oc) OP_IF || is_op (oc_opcode oc) OP_NOTIF).
  { intros Es. apply IH in Es as [? ?]; [|done]. split; [done|lia]. }
  destruct (is_op (oc_opcode oc) OP_ENDIF); [|destruct (is_op (oc_opcode oc) OP_ELSE)].
  - destruct (0 <? depth); intros Es; [apply IH in Es as [? ?]; [split; [done|lia]|done]|].
    rewrite Hb in Es by by left. injection Es as <-. split; [done|lia].
  - destruct (0 <? depth); intros Es; [apply IH in Es as [? ?]; [split; [done|lia]|done]|].
    rewrite Hb in Es by by right. injection Es as <-. split; [done|lia].
  - intros Es. apply IH in Es as [? ?]; [|done]. split; [done|lia].
Qed.

Lemma brr_get_uint8_t_left r v r' : brr_wf r -> brr_get_uint8_t r = Ok (v, r') -> brr_wf r' /\ left r' = left r - 1.
Proof.
  intros Hr E. destruct (brr_wf_split r Hr) as (pre & [|b post] & -> & Hl).
  { unfold brr_get_uint8_t, mbind, reader_bind, brr_take in E. rewrite brr_remaining_at in E by done. done. }
  rewrite (brr_get_uint8_t_parses' b) in E by done. injection E as _ <-.
  split; [apply brr_wf_at; by rewrite <- app_assoc|]. unfold left, brr_at. cbn [totalSize_ pos_]. rewrite !zlen_app, !zlen_cons. change (zlen []) with 0. lia.
Qed.

Lemma seek_end_fuel fuel : forall fuel' r, brr_wf r -> left r < Z.of_nat fuel -> left r < Z.of_nat fuel' ->
  seekToEndIf_loop fuel r = seekToEndIf_loop fuel' r.
Proof.
  induction fuel as [|fuel IH]; intros [|fuel'] r Hr Hl Hl'; try (pose proof (left_nonneg r Hr); lia).
  cbn [seekToEndIf_loop].
  case_match; [|done]. destruct (seekToNextIfSwitch r) as [r1 [[]|e]] eqn:Es; [|done].
  unfold seekToNextIfSwitch in Es. apply seek_switch_ahead in Es as [Hr1 Hl1]; [|done].
  destruct (brr_get_uint8_t r1) as [[v r2]|e] eqn:E; [|done]. apply brr_get_uint8_t_left in E as [Hr2 Hl2]; [|done].
  case_match; [done|]. apply IH; [done|lia|lia].
Qed.

(** ** Properties *)

(** C32: the integers of scripts: every 64-bit integer but the least can be
    written; written and read back, one whose magnitude is below 2^31 is itself,
    except that magnitudes from 128 to 255 come back as 128 minus the magnitude,
    the sign bit being taken from the value; those from 2^31 on are rejected. *)
Theorem script_numbers v : - 2 ^ 63 < v < 2 ^ 63 -> exists bd, intToRawBinary v = Ok bd /\
  rawBinaryToInt bd = if Z.abs v <? 2 ^ 31 then Ok (read_back v) else Err ScriptError.
Proof.
  intros Hv. destruct (decide (v = 0)) as [->|H0]; [by exists []|].
  destruct (int_bytes_value v Hv H0) as (n & m & E & Hn & Hm & Hc). exists (le_bytes n m). split; [done|].
  unfold read_back. destruct Hc as [(Ha & -> & ->)|(Ha & Hn2 & Hr & ->)].
  - zsimp. rewrite rawBinary_bytes by done. change (8 * Z.of_nat 1 - 1) with 7. change (2 ^ 7) with 128.
    destruct (Z.leb_spec 128 (Z.abs v)) as [H|H]; zsimp.
    + destruct (Z.ltb_spec v 0); [|zsimp; f_equal; lia].
      assert (Z.lor (Z.abs v) 128 = Z.abs v) as ->; [|zsimp; f_equal; lia].
      replace (Z.abs v) with (2 ^ 7 + (Z.abs v - 128)) at 1 by lia.
      rewrite Z.add_comm. rewrite <- (lor_high _ 7) by (change (2 ^ 7) with 128; lia). change (2 ^ 7) with 128.
      rewrite <- Z.lor_assoc, Z.lor_diag. change 128 with (2 ^ 7) at 2. rewrite lor_high; change (2 ^ 7) with 128; lia.
    + destruct (Z.ltb_spec v 0); [|zsimp; f_equal; lia].
      change 128 with (2 ^ 7). rewrite lor_high by (change (2 ^ 7) with 128; lia). change (2 ^ 7) with 128.
      zsimp. f_equal. lia.
  - replace (Z.abs v <? 256) with false by lia. rewrite andb_false_r.
    destruct (Z.ltb_spec (Z.abs v) (2 ^ 31)) as [H31|H31].
    + assert (Z.of_nat n <= 4).
      { destruct (Z.le_gt_cases (Z.of_nat n) 4); [done|].
        assert (256 ^ 3 <= 256 ^ (Z.of_nat n - 2)) by (apply Z.pow_le_mono_r; lia).
        change (256 ^ 3) with (2 ^ 24) in *. lia. }
      rewrite rawBinary_bytes by lia. destruct (Z.ltb_spec v 0); zsimp; f_equal; lia.
    + assert (5 <= Z.of_nat n).
      { destruct (Z.le_gt_cases 5 (Z.of_nat n)); [done|].
        assert (2 ^ (8 * Z.of_nat n - 1) <= 2 ^ 31) by (apply Z.pow_le_mono_r; lia). lia. }
      unfold rawBinaryToInt. rewrite zlen_le_bytes. by zsimp.
Qed.

Lemma script_numbers_witness : exists bd, intToRawBinary 200 = Ok bd /\ rawBinaryToInt bd = Ok (-72).
Proof. destruct (script_numbers 200 ltac:(lia)) as (bd & H1 & H2). exists bd. split; [exact H1|exact H2]. Defined.
