(* ===== verification/StackItem.v ===== *)
(** * StackItem: the items of a resolved stack

    The struct [StackItem] of cppForSwig/Script.h and its children, with their
    binary form (Script.cpp), in which the signers of a transaction exchange
    what they have so far.  Items are behind [shared_ptr]s; only
    [StackItem_MultiSig] changes after it is made, in [merge]. *)

From S2P Require Import Prelude BinaryData BinaryIO StdMap TxLength ScriptParser ScriptParserProps.

Inductive StackItem :=
  | StackItem_PushData (id : Z) (data : list byte)
  | StackItem_Sig (id : Z) (data : list byte)
  | StackItem_MultiSig (id m : Z) (sigs : stdmap Z (list byte))
  | StackItem_OpCode (id opcode : Z)
  | StackItem_SerializedScript (id : Z) (data : list byte).

#[export] Instance StackItem_eq_dec : EqDecision StackItem.
Proof. solve_decision. Defined.

Definition getId (item : StackItem) : Z :=
  match item with
  | StackItem_PushData id _ | StackItem_Sig id _ | StackItem_MultiSig id _ _ | StackItem_OpCode id _
  | StackItem_SerializedScript id _ => id
  end.

Definition setSig (id : Z) (sig : list byte) (sigs : stdmap Z (list byte)) : stdmap Z (list byte) :=
  (map_insert id sig sigs).1.

(** [isSame]: the same class and the same content, whatever the ids. *)
Definition isSame (item obj : StackItem) : bool :=
  match item, obj with
  | StackItem_PushData _ d, StackItem_PushData _ d' => equal d d'
  | StackItem_Sig _ d, StackItem_Sig _ d' => equal d d'
  | StackItem_MultiSig _ m sigs, StackItem_MultiSig _ m' sigs' => (m =? m') && bool_decide (sigs = sigs')
  | StackItem_OpCode _ o, StackItem_OpCode _ o' => o =? o'
  | StackItem_SerializedScript _ d, StackItem_SerializedScript _ d' => equal d d'
  | _, _ => false
  end.

(** [sigs_.insert(begin, end)]: the entries that are there stay. *)
Definition map_insert_all {V} (m m' : stdmap Z V) : stdmap Z V :=
  foldl (fun m e => (map_insert e.1 e.2 m).1) m m'.

(** [StackItem_MultiSig::merge] on an item of its class. *)
Definition si_merge (item obj : StackItem) : result StackItem :=
  match item with
  | StackItem_MultiSig id m sigs =>
      match obj with
      | StackItem_MultiSig _ m' sigs' =>
          if negb (m =? m') then Err ScriptError else Ok (StackItem_MultiSig id m (map_insert_all sigs sigs'))
      | _ => Err ScriptError
      end
  | _ => Err UB
  end.

Definition si_isValid (item : StackItem) : bool :=
  match item with StackItem_MultiSig _ m sigs => zlen sigs =? m | _ => true end.

(** ** The binary form *)

Definition STACKITEM_OPCODE_PREFIX : Z := 0x10.
Definition STACKITEM_PUSHDATA_PREFIX : Z := 0x11.
Definition STACKITEM_SERSCRIPT_PREFIX : Z := 0x12.
Definition STACKITEM_SIG_PREFIX : Z := 0x13.
Definition STACKITEM_MULTISIG_PREFIX : Z := 0x14.

Definition put_data (data : list byte) (w : BinaryWriter) : BinaryWriter :=
  bw_put_BinaryData data (bw_put_var_int (zlen data) w).1.

Fixpoint put_sigs (sigs : stdmap Z (list byte)) (w : BinaryWriter) : BinaryWriter :=
  match sigs with
  | [] => w
  | (pos, sig) :: sigs => put_sigs sigs (put_data sig (bw_put_uint16_t (wrap 16 pos) LE w))
  end.

Definition si_serialize (item : StackItem) : list byte :=
  let start prefix := bw_put_uint8_t prefix (bw_put_uint32_t (getId item) LE bw_new) in
  theString_
    match item with
    | StackItem_PushData _ data => put_data data (start STACKITEM_PUSHDATA_PREFIX)
    | StackItem_Sig _ data => put_data data (start STACKITEM_SIG_PREFIX)
    | StackItem_MultiSig _ m sigs =>
        put_sigs sigs (bw_put_var_int (zlen sigs) (bw_put_uint16_t (wrap 16 m) LE (start STACKITEM_MULTISIG_PREFIX))).1
    | StackItem_OpCode _ opcode => bw_put_uint8_t opcode (start STACKITEM_OPCODE_PREFIX)
    | StackItem_SerializedScript _ data => put_data data (start STACKITEM_SERSCRIPT_PREFIX)
    end.

Definition get_data : Reader (list byte) := len ← brr_get_var_int; brr_get_BinaryData (wrap 32 len).

(** [for (i = 0; i < count; i++)]: a round reads at least three bytes or
    throws, so the size of the buffer is enough fuel for any count. *)
Fixpoint read_sigs (fuel : nat) (count : Z) (sigs : stdmap Z (list byte)) : Reader (stdmap Z (list byte)) :=
  match fuel with
  | O => rthrow NoFuel
  | S fuel =>
      if 0 <? count then
        pos ← brr_get_uint16_t LE;
        data ← get_data;
        read_sigs fuel (count - 1) (setSig pos data sigs)
      else mret sigs
  end.

Definition get_sigs (count : Z) : Reader (stdmap Z (list byte)) := fun brr => read_sigs (parse_fuel brr) count [] brr.

Definition si_read : Reader StackItem :=
  id ← brr_get_uint32_t LE;
  prefix ← brr_get_uint8_t;
  if prefix =? STACKITEM_PUSHDATA_PREFIX then data ← get_data; mret (StackItem_PushData id data)
  else if prefix =? STACKITEM_SIG_PREFIX then data ← get_data; mret (StackItem_Sig id data)
  else if prefix =? STACKITEM_MULTISIG_PREFIX then
    m ← brr_get_uint16_t LE;
    count ← brr_get_var_int;
    sigs ← get_sigs count;
    mret (StackItem_MultiSig id m sigs)
  else if prefix =? STACKITEM_OPCODE_PREFIX then opcode ← brr_get_uint8_t; mret (StackItem_OpCode id opcode)
  else if prefix =? STACKITEM_SERSCRIPT_PREFIX then data ← get_data; mret (StackItem_SerializedScript id data)
  else rthrow RuntimeError.

Definition si_deserialize (dataRef : list byte) : result StackItem :=
  '(item, _) ← si_read (brr_setNewData dataRef); Ok item.

(** ** Reading back *)

Definition data_ok (d : list byte) : Prop := zlen d < 2 ^ 32.
Definition sig_entry_ok (e : Z * list byte) : Prop := is_uint 16 e.1 /\ data_ok e.2.

(** The fields fit; the sizes of the entries are those of [var_bytes]. *)
Definition si_ok (item : StackItem) : Prop :=
  is_uint 32 (getId item) /\
  match item with
  | StackItem_PushData _ d | StackItem_Sig _ d | StackItem_SerializedScript _ d => data_ok d
  | StackItem_MultiSig _ m sigs => is_uint 16 m /\ map_ordered sigs /\ Forall sig_entry_ok sigs
  | StackItem_OpCode _ opcode => is_uint 8 opcode
  end.

Definition sig_bytes (e : Z * list byte) : list byte := int_to LE 2 e.1 ++ var_bytes e.2.

Definition si_bytes (item : StackItem) : list byte :=
  int_to LE 4 (getId item) ++
  match item with
  | StackItem_PushData _ d => z2b STACKITEM_PUSHDATA_PREFIX :: var_bytes d
  | StackItem_Sig _ d => z2b STACKITEM_SIG_PREFIX :: var_bytes d
  | StackItem_MultiSig _ m sigs =>
      z2b STACKITEM_MULTISIG_PREFIX :: int_to LE 2 m ++ var_int_bytes (zlen sigs) ++ concat (map sig_bytes sigs)
  | StackItem_OpCode _ o => [z2b STACKITEM_OPCODE_PREFIX; z2b o]
  | StackItem_SerializedScript _ d => z2b STACKITEM_SERSCRIPT_PREFIX :: var_bytes d
  end.

Lemma put_data_str d w : data_ok d -> theString_ (put_data d w) = theString_ w ++ var_bytes d.
Proof.
  intros Hd. pose proof (zlen_nonneg d). unfold put_data, data_ok in *. rewrite bw_put_BinaryData_str, bw_put_var_int_str by (unfold is_uint; lia).
  by rewrite <- app_assoc.
Qed.

Lemma put_sigs_str sigs : forall w, Forall sig_entry_ok sigs -> theString_ (put_sigs sigs w) = theString_ w ++ concat (map sig_bytes sigs).
Proof.
  induction sigs as [|[k d] sigs IH]; intros w Hs; [by rewrite app_nil_r|]. apply Forall_cons in Hs as [[Hk Hd] Hs].
  cbn [put_sigs]. rewrite IH by done. rewrite put_data_str by done. rewrite bw_put_uint16_t_str.
  cbn [map concat]. unfold sig_bytes at 2. cbn [fst snd] in *. rewrite (wrap_small 16) by done. by rewrite <- !app_assoc.
Qed.

(** There are at most 2^16 signatures. *)
Lemma sigs_count sigs : map_ordered sigs -> Forall sig_entry_ok sigs -> is_uint 64 (zlen sigs).
Proof.
  intros Ho Hs. pose proof (zlen_nonneg sigs). assert (zlen sigs <= zlen (seqZ 0 (2 ^ 16))) as Hle.
  { apply map_length_le; [done|]. intros k Hk. apply elem_of_seqZ. unfold map_keys in Hk.
    apply list_elem_of_fmap in Hk as (e & -> & He). rewrite Forall_forall in Hs. destruct (Hs e He) as [Hk _].
    unfold is_uint in Hk. lia. }
  unfold zlen in Hle at 2. rewrite length_seqZ in Hle. unfold is_uint. lia.
Qed.

Lemma si_serialize_bytes item : si_ok item -> si_serialize item = si_bytes item.
Proof.
  intros [Hid Hok]. unfold si_serialize, si_bytes in *.
  destruct item as [id d|id d|id m sigs|id o|id d]; cbn [getId] in *; rewrite ?put_data_str by done;
    try (autorewrite with bw; by rewrite <- ?app_assoc).
  destruct Hok as (Hm & Ho & Hs). rewrite put_sigs_str by done. rewrite bw_put_var_int_str by by apply sigs_count.
  autorewrite with bw. rewrite (wrap_small 16) by done. by rewrite <- ?app_assoc.
Qed.

Lemma get_data_parses d : data_ok d -> parses get_data (var_bytes d) d.
Proof.
  intros Hd. pose proof (zlen_nonneg d). unfold data_ok in Hd. eapply parses_bind; [apply brr_get_var_int_parses; unfold is_uint; lia|].
  rewrite wrap_small by (unfold is_uint; lia). by apply brr_get_BinaryData_parses.
Qed.

Lemma sig_bytes_pos e : (1 <= length (sig_bytes e))%nat.
Proof. unfold sig_bytes. rewrite length_app. pose proof (zlen_int_to LE 2 e.1). unfold zlen in *. lia. Qed.

(** Keys that follow the ones that are there are put at the end. *)
Lemma read_sigs_parses sigs : forall fuel m, Forall sig_entry_ok sigs -> map_ordered (m ++ sigs) -> (length sigs < fuel)%nat ->
  parses (read_sigs fuel (zlen sigs) m) (concat (map sig_bytes sigs)) (m ++ sigs).
Proof.
  induction sigs as [|[k d] sigs IH]; intros fuel m Hs Ho Hf; (destruct fuel as [|fuel]; [simpl in Hf; lia|]); cbn [read_sigs].
  - rewrite app_nil_r. apply parses_ret.
  - apply Forall_cons in Hs as [[Hk Hd] Hs]. cbn [fst snd] in *. rewrite zlen_cons. pose proof (zlen_nonneg sigs).
    replace (0 <? 1 + zlen sigs) with true by lia. cbn [map concat]. unfold sig_bytes at 1. cbn [fst snd]. rewrite <- app_assoc.
    eapply parses_bind; [by apply brr_get_uint16_t_parses|]. eapply parses_bind; [by apply get_data_parses|].
    unfold setSig. rewrite map_insert_last.
    + cbn [fst]. replace (1 + zlen sigs - 1) with (zlen sigs) by lia. rewrite (cons_middle (k, d) m sigs), app_assoc in Ho |- *.
      apply IH; [done|done|simpl in Hf; lia].
    + clear -Ho. induction m as [|[j x] m IH]; [constructor|]. destruct Ho as [Hj Ho]. constructor; [|by apply IH].
      rewrite Forall_forall in Hj. specialize (Hj (k, d) ltac:(apply elem_of_app; right; left)).
      unfold std_less, uint_less in Hj. cbn in *. lia.
Qed.

Lemma read_sigs_whole sigs : Forall sig_entry_ok sigs -> map_ordered sigs ->
  parses (get_sigs (zlen sigs)) (concat (map sig_bytes sigs)) sigs.
Proof.
  intros Hs Ho pre post Hl. unfold get_sigs. apply (read_sigs_parses sigs _ []); try done.
  unfold parse_fuel, brr_at. cbn [bdRef_]. rewrite !length_app.
  assert (length sigs <= length (concat (map sig_bytes sigs)))%nat; [|lia]. clear.
  induction sigs as [|e sigs IH]; [done|]. cbn [map concat length]. rewrite length_app. pose proof (sig_bytes_pos e). lia.
Qed.

Lemma si_read_parses item : si_ok item -> parses si_read (si_bytes item) item.
Proof.
  intros [Hid Hok]. unfold si_read, si_bytes. eapply parses_bind; [by apply brr_get_uint32_t_parses|].
  destruct item as [id d|id d|id m sigs|id o|id d]; cbn [getId] in *;
    (eapply (parses_bind _ _ [_]); [apply brr_get_uint8_t_parses; done|]); zsimp;
    try (eapply parses_bind_ret; [by apply get_data_parses|apply parses_ret]).
  - destruct Hok as (Hm & Ho & Hs). eapply parses_bind; [by apply brr_get_uint16_t_parses|].
    eapply parses_bind; [by apply brr_get_var_int_parses, sigs_count|].
    eapply parses_bind_ret; [by apply read_sigs_whole|apply parses_ret].
  - eapply parses_bind_ret; [by apply brr_get_uint8_t_parses|apply parses_ret].
Qed.
