(* ===== verification/Recipient.v ===== *)
(** * Recipient: the outputs of a transaction that is being signed

    The class [ScriptRecipient] of cppForSwig/ScriptRecipient.h and its
    children; [ScriptRecipient::deserialize] is in Signer.cpp.  A recipient
    keeps the bytes it was first asked for. *)

From S2P Require Import Prelude BinaryData BinaryIO TxLength ScriptParser.

Inductive RecipientKind :=
  | Recipient_P2PKH (h160 : list byte)
  | Recipient_P2WPKH (h160 : list byte)
  | Recipient_P2SH (h160 : list byte)
  | Recipient_P2WSH (h256 : list byte)
  | Recipient_OPRETURN (message : list byte)
  | Recipient_Universal (binScript : list byte)
  | Recipient_Bech32 (binScript : list byte).

#[export] Instance RecipientKind_eq_dec : EqDecision RecipientKind.
Proof. solve_decision. Defined.

(** [rc_script] is [script_], empty until [serialize]. *)
Record ScriptRecipient := mkRecipient { rc_kind : RecipientKind; rc_value : Z; rc_script : list byte }.

(** The constructors. *)
Definition recipient_new (kind : RecipientKind) (value : Z) : result ScriptRecipient :=
  match kind with
  | Recipient_P2PKH h | Recipient_P2WPKH h | Recipient_P2SH h =>
      if negb (zlen h =? 20) then Err RuntimeError else Ok (mkRecipient kind value [])
  | Recipient_P2WSH h => if negb (zlen h =? 32) then Err RuntimeError else Ok (mkRecipient kind value [])
  | Recipient_OPRETURN m => if 80 <? zlen m then Err RuntimeError else Ok (mkRecipient kind 0 [])
  | Recipient_Universal _ => Ok (mkRecipient kind value [])
  | Recipient_Bech32 s =>
      if negb (zlen s =? 20) && negb (zlen s =? 32) then Err RuntimeError else Ok (mkRecipient kind value [])
  end.

Definition put_bytes (vals : list Z) (w : BinaryWriter) : BinaryWriter := foldl (fun w v => bw_put_uint8_t v w) w vals.

Definition opreturn_message (m : list byte) : list byte :=
  let size := zlen m in
  let w := if 75 <? size then put_bytes [76; wrap 8 size] bw_new
           else if 0 <? size then put_bytes [wrap 8 size] bw_new else bw_new in
  theString_ (if 0 <? size then bw_put_BinaryData m w else w).

(** [serialize] of each class. *)
Definition recipient_serialize (kind : RecipientKind) (value : Z) : list byte :=
  let start := bw_put_uint64_t value LE bw_new in
  theString_
    match kind with
    | Recipient_P2PKH h => put_bytes [136; 172] (bw_put_BinaryData h (put_bytes [25; 118; 169; 20] start))
    | Recipient_P2WPKH h => bw_put_BinaryData h (put_bytes [22; 0; 20] start)
    | Recipient_P2SH h => put_bytes [135] (bw_put_BinaryData h (put_bytes [23; 169; 20] start))
    | Recipient_P2WSH h => bw_put_BinaryData h (put_bytes [34; 0; 32] start)
    | Recipient_OPRETURN m =>
        let msg := opreturn_message m in
        bw_put_BinaryData msg (put_bytes [wrap 8 (zlen msg + 1); 106] (bw_put_uint64_t 0 LE bw_new))
    | Recipient_Universal s => bw_put_BinaryData s (bw_put_var_int (zlen s) start).1
    | Recipient_Bech32 s =>
        bw_put_BinaryData s (put_bytes [0; wrap 8 (zlen s)] (bw_put_var_int (wrap 64 (zlen s + 2)) start).1)
    end.

Definition recipient_getSerializedScript (r : ScriptRecipient) : list byte * ScriptRecipient :=
  let script := if zlen (rc_script r) =? 0 then recipient_serialize (rc_kind r) (rc_value r) else rc_script r in
  (script, mkRecipient (rc_kind r) (rc_value r) script).

Definition recipient_setValue (val : Z) (r : ScriptRecipient) : ScriptRecipient :=
  mkRecipient (rc_kind r) val (rc_script r).

(** The sizes that the classes declare. *)
Definition recipient_getSize (kind : RecipientKind) : Z :=
  match kind with
  | Recipient_P2PKH _ => 34
  | Recipient_P2WPKH _ => 31
  | Recipient_P2SH _ => 32
  | Recipient_P2WSH _ => 43
  | Recipient_OPRETURN m =>
      let size := zlen m in
      (if 75 <? size then size + 2 else if 0 <? size then size + 1 else size) + 9
  | Recipient_Universal s => 8 + zlen s + (if 0xfd <=? zlen s then 3 else 1)
  | Recipient_Bech32 s => 9 + zlen s
  end.

(** [deserialize]: the script is recognised by its first three bytes, of which
    the first is its size. *)
Definition recipient_deserialize (dataPtr : list byte) : result ScriptRecipient :=
  '(value, brr) ← brr_get_uint64_t LE (brr_setNewData dataPtr);
  '(script, _) ← brr_get_BinaryData (wrap 32 (brr_getSizeRemaining brr)) brr;
  '(byte0, brr) ← brr_get_uint8_t (brr_setNewData script);
  '(byte1, brr) ← brr_get_uint8_t brr;
  '(byte2, brr) ← brr_get_uint8_t brr;
  if (byte0 =? 25) && (byte1 =? 118) && (byte2 =? 169) then
    '(byte3, brr) ← brr_get_uint8_t brr;
    if byte3 =? 20 then '(hash160, _) ← brr_get_BinaryData 20 brr; recipient_new (Recipient_P2PKH hash160) value
    else Err RuntimeError
  else if (byte0 =? 22) && (byte1 =? 0) && (byte2 =? 20) then
    '(hash160, _) ← brr_get_BinaryData 20 brr; recipient_new (Recipient_P2WPKH hash160) value
  else if (byte0 =? 23) && (byte1 =? 169) && (byte2 =? 20) then
    '(hash160, _) ← brr_get_BinaryData 20 brr; recipient_new (Recipient_P2SH hash160) value
  else if (byte0 =? 34) && (byte1 =? 0) && (byte2 =? 32) then
    '(hash256, _) ← brr_get_BinaryData 32 brr; recipient_new (Recipient_P2WSH hash256) value
  else if (byte0 =? wrap 64 (zlen script - 1)) && (byte1 =? 106) then
    '(byte2, brr) ← (if byte2 =? 76 then brr_get_uint8_t brr else Ok (byte2, brr));
    '(opReturnMessage, _) ← brr_get_BinaryData byte2 brr;
    recipient_new (Recipient_OPRETURN opReturnMessage) 0
  else Err RuntimeError.

(** ** The bytes of an output *)

(** The script behind its size. *)
Definition recipient_script (kind : RecipientKind) : list byte :=
  match kind with
  | Recipient_P2PKH h => map z2b [118; 169; 20] ++ h ++ map z2b [136; 172]
  | Recipient_P2WPKH h => map z2b [0; 20] ++ h
  | Recipient_P2SH h => map z2b [169; 20] ++ h ++ map z2b [135]
  | Recipient_P2WSH h => map z2b [0; 32] ++ h
  | Recipient_OPRETURN m => map z2b [106] ++ opreturn_message m
  | Recipient_Universal s => s
  | Recipient_Bech32 s => map z2b [0; zlen s] ++ s
  end.

(** What the constructors let through, and sizes that fit. *)
Definition recipient_ok (r : ScriptRecipient) : Prop :=
  is_uint 64 (rc_value r) /\ rc_script r = [] /\ recipient_new (rc_kind r) (rc_value r) = Ok r /\
  match rc_kind r with Recipient_Universal s => zlen s < 2 ^ 32 | _ => True end.

Lemma put_bytes_str vals : forall w, theString_ (put_bytes vals w) = theString_ w ++ map z2b vals.
Proof.
  induction vals as [|v vals IH]; intros w; [by rewrite app_nil_r|]. unfold put_bytes in *. cbn [foldl map].
  rewrite IH, bw_put_uint8_t_str, <- app_assoc. done.
Qed.

Lemma opreturn_message_bytes m : zlen m <= 80 -> opreturn_message m =
  (if 75 <? zlen m then map z2b [76; zlen m] else if 0 <? zlen m then map z2b [zlen m] else []) ++ m.
Proof.
  intros Hm. pose proof (zlen_nonneg m). unfold opreturn_message. rewrite wrap_small by (unfold is_uint; lia).
  destruct (Z.ltb_spec 75 (zlen m)); [|destruct (Z.ltb_spec 0 (zlen m))].
  - rewrite (proj2 (Z.ltb_lt 0 _)) by lia. by rewrite bw_put_BinaryData_str, put_bytes_str.
  - by rewrite bw_put_BinaryData_str, put_bytes_str.
  - destruct m; [done|]. rewrite zlen_cons in *. pose proof (zlen_nonneg m). lia.
Qed.

(** What the tests of the constructors say. *)
Lemma recipient_kind_ok r : recipient_ok r ->
  match rc_kind r with
  | Recipient_P2PKH h | Recipient_P2WPKH h | Recipient_P2SH h => zlen h = 20
  | Recipient_P2WSH h => zlen h = 32
  | Recipient_OPRETURN m => zlen m <= 80 /\ rc_value r = 0
  | Recipient_Universal s => zlen s < 2 ^ 32
  | Recipient_Bech32 s => zlen s = 20 \/ zlen s = 32
  end.
Proof.
  destruct r as [kind value script]. intros (_ & _ & Hn & Hu). cbn [rc_kind rc_value] in *. unfold recipient_new in Hn.
  destruct kind as [h|h|h|h|m|s|s]; try done;
    try (destruct (Z.eqb_spec (zlen h) 20); [done|by cbn in Hn]);
    try (destruct (Z.eqb_spec (zlen h) 32); [done|by cbn in Hn]).
  - destruct (Z.ltb_spec 80 (zlen m)); [done|]. injection Hn as <- _. split; [lia|done].
  - destruct (Z.eqb_spec (zlen s) 20); [by left|]. destruct (Z.eqb_spec (zlen s) 32); [by right|by cbn in Hn].
Qed.

Lemma var_int_small v : 0 <= v < 0xfd -> var_int_bytes v = [z2b v].
Proof. intros Hv. unfold var_int_bytes. by rewrite (proj2 (Z.ltb_lt _ _)) by lia. Qed.

Lemma recipient_bytes r : recipient_ok r ->
  recipient_serialize (rc_kind r) (rc_value r) = int_to LE 8 (rc_value r) ++ var_bytes (recipient_script (rc_kind r)).
Proof.
  intros Hr. pose proof (recipient_kind_ok r Hr) as Hk. destruct Hr as (Hv & _). destruct r as [kind value script].
  cbn [rc_kind rc_value] in *. unfold var_bytes, recipient_script, recipient_serialize.
  destruct kind as [h|h|h|h|m|s|s].
  - rewrite put_bytes_str, bw_put_BinaryData_str, put_bytes_str, bw_put_uint64_t_str, !zlen_app, Hk, var_int_small by done.
    cbn [theString_ bw_new app map]. by rewrite <- !app_assoc.
  - rewrite bw_put_BinaryData_str, put_bytes_str, bw_put_uint64_t_str, !zlen_app, Hk, var_int_small by done.
    cbn [theString_ bw_new app map]. by rewrite <- !app_assoc.
  - rewrite put_bytes_str, bw_put_BinaryData_str, put_bytes_str, bw_put_uint64_t_str, !zlen_app, Hk, var_int_small by done.
    cbn [theString_ bw_new app map]. by rewrite <- !app_assoc.
  - rewrite bw_put_BinaryData_str, put_bytes_str, bw_put_uint64_t_str, !zlen_app, Hk, var_int_small by done.
    cbn [theString_ bw_new app map]. by rewrite <- !app_assoc.
  - destruct Hk as [Hm ->]. rewrite bw_put_BinaryData_str, put_bytes_str, bw_put_uint64_t_str, zlen_app.
    change (zlen (map z2b [106])) with 1. pose proof (zlen_nonneg (opreturn_message m)).
    assert (zlen (opreturn_message m) <= 82) as Hz.
    { rewrite opreturn_message_bytes, zlen_app by done. destruct (75 <? zlen m); [change (zlen (map z2b [76; zlen m])) with 2; lia|].
      destruct (0 <? zlen m); [change (zlen (map z2b [zlen m])) with 1|change (zlen (@nil byte)) with 0]; lia. }
    rewrite var_int_small, wrap_small by (unfold is_uint; lia). cbn [theString_ bw_new app map].
    by rewrite <- app_assoc, (Z.add_comm _ 1).
  - pose proof (zlen_nonneg s). rewrite bw_put_BinaryData_str, bw_put_var_int_str, bw_put_uint64_t_str by (unfold is_uint; lia).
    cbn [theString_ bw_new app]. by rewrite <- app_assoc.
  - rewrite bw_put_BinaryData_str, put_bytes_str, wrap_small by (unfold is_uint; lia).
    rewrite bw_put_var_int_str, bw_put_uint64_t_str by (unfold is_uint; lia). rewrite zlen_app, (wrap_small 8) by (unfold is_uint; lia).
    change (zlen (map z2b [0; zlen s])) with 2. rewrite (Z.add_comm 2). cbn [theString_ bw_new app]. by rewrite <- !app_assoc.
Qed.

(** The size of an output that the coin selection reckons with is the size
    it has, except that of an OP_RETURN output is one byte short, that of a
    bech32 recipient two, and that of a script of 64 kB or more two. *)
Theorem recipient_sizes r : recipient_ok r ->
  zlen (recipient_getSerializedScript r).1 = recipient_getSize (rc_kind r) +
    match rc_kind r with
    | Recipient_OPRETURN _ => 1
    | Recipient_Bech32 _ => 2
    | Recipient_Universal s => if 0x10000 <=? zlen s then 2 else 0
    | _ => 0
    end.
Proof.
  intros Hr. pose proof (recipient_kind_ok r Hr) as Hk. pose proof (recipient_bytes r Hr) as E.
  unfold recipient_getSerializedScript. destruct Hr as (_ & -> & _). change (zlen [] =? 0) with true. cbn [fst].
  rewrite E. unfold var_bytes. rewrite !zlen_app, zlen_int_to, zlen_var_int_bytes. clear E.
  assert (forall v, 0 <= v < 0xfd -> calcVarIntSize v = 1) as Hc.
  { intros v Hv. unfold calcVarIntSize. by rewrite (proj2 (Z.ltb_lt _ _)) by lia. }
  destruct (rc_kind r) as [h|h|h|h|m|s|s]; cbn [recipient_script recipient_getSize]; rewrite ?zlen_app, ?Hk; try done.

  - destruct Hk as [Hm _]. rewrite opreturn_message_bytes, zlen_app by done. pose proof (zlen_nonneg m).
    change (zlen (map z2b [106])) with 1.
    destruct (75 <? zlen m); [change (zlen (map z2b [76; zlen m])) with 2|destruct (0 <? zlen m);
      [change (zlen (map z2b [zlen m])) with 1|change (zlen (@nil byte)) with 0]]; rewrite Hc by lia; lia.
  - pose proof (zlen_nonneg s). unfold calcVarIntSize. repeat zcase; lia.
  - change (zlen (map z2b [0; zlen s])) with 2. rewrite Hc by lia. lia.
Qed.

(** ** Reading an output *)

Definition recipient_read (kind : RecipientKind) : RecipientKind :=
  match kind with
  | Recipient_Bech32 s => if zlen s =? 20 then Recipient_P2WPKH s else Recipient_P2WSH s
  | _ => kind
  end.

Lemma recipient_split value script : is_uint 64 value -> zlen script < 2 ^ 32 - 8 ->
  exists brr, brr_get_uint64_t LE (brr_setNewData (int_to LE 8 value ++ script)) = Ok (value, brr) /\
    brr_get_BinaryData (wrap 32 (brr_getSizeRemaining brr)) brr = Ok (script, brr_at (int_to LE 8 value ++ script) []).
Proof.
  intros Hv Hs. pose proof (zlen_nonneg script).
  assert (zlen (int_to LE 8 value ++ script) < two64) as Hl by (rewrite zlen_app, zlen_int_to; unfold two64; lia).
  eexists. split; [rewrite brr_setNewData_at; by apply (brr_get_uint64_t_parses LE value Hv [])|]. cbn [app].
  rewrite brr_remaining_at, wrap_small by (done || unfold is_uint; lia).
  rewrite <- (app_nil_r script) at 2. apply (brr_get_BinaryData_parses _ script eq_refl (int_to LE 8 value) []). by rewrite app_nil_r.
Qed.

(** The script of an output behind its size. *)
Lemma recipient_deserialize_script value b0 b1 b2 rest : is_uint 64 value -> zlen rest < 2 ^ 31 ->
  recipient_deserialize (int_to LE 8 value ++ b0 :: b1 :: b2 :: rest) =
    (let brr := brr_at [b0; b1; b2] rest in
     if (b2z b0 =? 25) && (b2z b1 =? 118) && (b2z b2 =? 169) then
       '(byte3, brr) ← brr_get_uint8_t brr;
       if byte3 =? 20 then '(hash160, _) ← brr_get_BinaryData 20 brr; recipient_new (Recipient_P2PKH hash160) value
       else Err RuntimeError
     else if (b2z b0 =? 22) && (b2z b1 =? 0) && (b2z b2 =? 20) then
       '(hash160, _) ← brr_get_BinaryData 20 brr; recipient_new (Recipient_P2WPKH hash160) value
     else if (b2z b0 =? 23) && (b2z b1 =? 169) && (b2z b2 =? 20) then
       '(hash160, _) ← brr_get_BinaryData 20 brr; recipient_new (Recipient_P2SH hash160) value
     else if (b2z b0 =? 34) && (b2z b1 =? 0) && (b2z b2 =? 32) then
       '(hash256, _) ← brr_get_BinaryData 32 brr; recipient_new (Recipient_P2WSH hash256) value
     else if (b2z b0 =? zlen rest + 2) && (b2z b1 =? 106) then
       '(byte2, brr) ← (if b2z b2 =? 76 then brr_get_uint8_t brr else Ok (b2z b2, brr));
       '(opReturnMessage, _) ← brr_get_BinaryData byte2 brr;
       recipient_new (Recipient_OPRETURN opReturnMessage) 0
     else Err RuntimeError).
Proof.
  intros Hv Hs. pose proof (zlen_nonneg rest).
  destruct (recipient_split value (b0 :: b1 :: b2 :: rest) Hv) as (brr & E1 & E2); [rewrite !zlen_cons; lia|].
  unfold recipient_deserialize. rewrite E1. cbn [mbind result_bind]. rewrite E2. cbn [mbind result_bind]. clear E1 E2.
  assert (zlen (b0 :: b1 :: b2 :: rest) < two64) as Hl by (rewrite !zlen_cons; unfold two64; lia). rewrite brr_setNewData_at.
  rewrite (brr_get_uint8_t_parses' b0 [] _ Hl). cbn [mbind result_bind app].
  rewrite (brr_get_uint8_t_parses' b1 [b0] _ Hl). cbn [mbind result_bind app].
  rewrite (brr_get_uint8_t_parses' b2 [b0; b1] _ Hl). cbn [mbind result_bind app].
  rewrite wrap_small by (rewrite !zlen_cons; unfold is_uint; lia).
  by replace (zlen (b0 :: b1 :: b2 :: rest) - 1) with (zlen rest + 2) by (rewrite !zlen_cons; lia).
Qed.

(** The rest of a buffer. *)
Lemma brr_get_rest h pre n : zlen h = n -> zlen (pre ++ h) < two64 -> brr_get_BinaryData n (brr_at pre h) = Ok (h, brr_at (pre ++ h) []).
Proof.
  intros <- Hl. pose proof (brr_get_BinaryData_parses _ h eq_refl pre []) as P. rewrite app_nil_r in P. by apply P.
Qed.

(** The witness programs. *)
Lemma recipient_program_P2WPKH value h : is_uint 64 value -> zlen h = 20 ->
  recipient_deserialize (int_to LE 8 value ++ var_int_bytes (zlen (map z2b [0; 20] ++ h)) ++ map z2b [0; 20] ++ h) =
  Ok (mkRecipient (Recipient_P2WPKH h) value []).
Proof.
  intros Hv Hk. rewrite zlen_app, Hk, var_int_small by done. cbn [map app].
  rewrite recipient_deserialize_script by (done || rewrite Hk; done). cbv zeta.
  change (b2z (z2b 0) =? 118) with false. change (b2z (z2b _) =? 22) with true.
  change (b2z (z2b 0) =? 0) with true. change (b2z (z2b 20) =? 20) with true. rewrite !andb_false_r. cbn [andb].
  rewrite (brr_get_rest h [_; _; _] _ Hk) by (rewrite zlen_app, Hk; done).
  cbn [mbind result_bind]. unfold recipient_new. by rewrite Hk.
Qed.

Lemma recipient_program_P2WSH value h : is_uint 64 value -> zlen h = 32 ->
  recipient_deserialize (int_to LE 8 value ++ var_int_bytes (zlen (map z2b [0; 32] ++ h)) ++ map z2b [0; 32] ++ h) =
  Ok (mkRecipient (Recipient_P2WSH h) value []).
Proof.
  intros Hv Hk. rewrite zlen_app, Hk, var_int_small by done. cbn [map app].
  rewrite recipient_deserialize_script by (done || rewrite Hk; done). cbv zeta.
  change (b2z (z2b 0) =? 118) with false. change (b2z (z2b _) =? 34) with true. change (b2z (z2b 32) =? 20) with false.
  change (b2z (z2b 0) =? 0) with true. change (b2z (z2b 32) =? 32) with true. rewrite !andb_false_r. cbn [andb].
  rewrite (brr_get_rest h [_; _; _] _ Hk) by (rewrite zlen_app, Hk; done).
  cbn [mbind result_bind]. unfold recipient_new. by rewrite Hk.
Qed.

(** A message of an OP_RETURN output. *)
#[local] Ltac zl := cbn [map]; rewrite ?zlen_app, ?zlen_cons; change (zlen (@nil byte)) with 0; unfold two64; lia.

Lemma recipient_message m : 0 < zlen m <= 80 ->
  forall script, script = map z2b [106] ++ opreturn_message m ->
  recipient_deserialize (int_to LE 8 0 ++ var_int_bytes (zlen script) ++ script) = Ok (mkRecipient (Recipient_OPRETURN m) 0 []).
Proof.
  intros Hm script ->. rewrite opreturn_message_bytes, (proj2 (Z.ltb_lt 0 _)) by lia.
  assert (recipient_new (Recipient_OPRETURN m) 0 = Ok (mkRecipient (Recipient_OPRETURN m) 0 [])) as Hn.
  { unfold recipient_new. by rewrite (proj2 (Z.ltb_ge 80 (zlen m))) by lia. }
  destruct (Z.ltb_spec 75 (zlen m)).
  - rewrite !zlen_app, var_int_small by zl. cbn [map app].
    rewrite recipient_deserialize_script by (done || rewrite zlen_cons; lia). cbv zeta.
    change (b2z (z2b 106) =? 118) with false. change (b2z (z2b 106) =? 0) with false. change (b2z (z2b 106) =? 169) with false.
    change (b2z (z2b 106) =? 106) with true. rewrite !andb_false_r, !zlen_cons, b2z_z2b_small by zl. cbn [andb].
    rewrite (proj2 (Z.eqb_eq _ _)) by zl. cbn [andb]. change (b2z (z2b 76) =? 76) with true. cbv iota.
    rewrite (brr_get_uint8_t_parses' (z2b (zlen m)) [_; _; _]) by zl.
    cbn [mbind result_bind app]. rewrite b2z_z2b_small by lia.
    rewrite (brr_get_rest m [_; _; _; _]) by (done || zl).
    by cbn [mbind result_bind].
  - rewrite !zlen_app, var_int_small by zl. cbn [map app].
    rewrite recipient_deserialize_script by (done || lia). cbv zeta.
    change (b2z (z2b 106) =? 118) with false. change (b2z (z2b 106) =? 0) with false. change (b2z (z2b 106) =? 169) with false.
    change (b2z (z2b 106) =? 106) with true. rewrite !andb_false_r, !b2z_z2b_small by zl. cbn [andb].
    rewrite (proj2 (Z.eqb_eq _ _)) by zl. cbn [andb]. rewrite (proj2 (Z.eqb_neq (zlen m) 76)) by lia. cbv iota.
    cbn [mbind result_bind]. rewrite (brr_get_rest m [_; _; _]) by (done || zl).
    by cbn [mbind result_bind].
Qed.

(** An output is read back from its bytes with its script and its value: a
    bech32 recipient as the one of its witness program; but an OP_RETURN output
    without a message is rejected, as its script has only two bytes. *)
Lemma recipient_read_back r : recipient_ok r -> (forall s, rc_kind r ≠ Recipient_Universal s) ->
  recipient_deserialize (recipient_getSerializedScript r).1 =
  if bool_decide (rc_kind r = Recipient_OPRETURN []) then Err RuntimeError
  else Ok (mkRecipient (recipient_read (rc_kind r)) (rc_value r) []).
Proof.
  intros Hr Hu. pose proof (recipient_kind_ok r Hr) as Hk. pose proof (recipient_bytes r Hr) as E.
  unfold recipient_getSerializedScript. pose proof Hr as (Hv & -> & _). change (zlen [] =? 0) with true. cbn [fst].
  rewrite E. clear E.
  destruct (rc_kind r) as [h|h|h|h|m|s|s] eqn:Ek; cbn [recipient_script recipient_read]; unfold var_bytes.
  - rewrite bool_decide_false, !zlen_app, Hk, var_int_small by done. cbn [map app zlen length].
    rewrite recipient_deserialize_script by (done || rewrite zlen_cons, zlen_app, Hk; done). cbv zeta.
    change (b2z (z2b _) =? 25) with true. change (b2z (z2b 118) =? 118) with true. change (b2z (z2b 169) =? 169) with true. cbn [andb].
    rewrite (brr_get_uint8_t_parses' (z2b 20) [_; _; _]) by (rewrite !zlen_app, !zlen_cons, zlen_app, Hk; done).
    cbn [mbind result_bind app]. change (b2z (z2b 20) =? 20) with true. cbv iota.
    rewrite (brr_get_BinaryData_parses 20 h Hk [_; _; _; _]) by (rewrite !zlen_app, Hk; done). cbn [mbind result_bind].
    unfold recipient_new. by rewrite Hk.
  - by rewrite bool_decide_false, recipient_program_P2WPKH.
  - rewrite bool_decide_false, !zlen_app, Hk, var_int_small by done. cbn [map app zlen length].
    rewrite recipient_deserialize_script by (done || rewrite zlen_app, Hk; done). cbv zeta.
    change (b2z (z2b 169) =? 118) with false. change (b2z (z2b _) =? 23) with true. change (b2z (z2b _) =? 22) with false.
    change (b2z (z2b 169) =? 169) with true. change (b2z (z2b 20) =? 20) with true. rewrite !andb_false_r. cbn [andb].
    rewrite (brr_get_BinaryData_parses 20 h Hk [_; _; _]) by (rewrite !zlen_app, Hk; done). cbn [mbind result_bind].
    unfold recipient_new. by rewrite Hk.
  - by rewrite bool_decide_false, recipient_program_P2WSH.
  - destruct Hk as [Hm ->]. destruct m as [|c m'] eqn:Em.
    + by rewrite bool_decide_true.
    + rewrite bool_decide_false by done. rewrite <- Em in Hm |- *.
      apply recipient_message; [rewrite Em, zlen_cons in *; pose proof (zlen_nonneg m'); lia|done].
  - by destruct (Hu s).
  - rewrite bool_decide_false by done. destruct Hk as [Hk|Hk]; rewrite Hk.
    + by apply recipient_program_P2WPKH.
    + by apply recipient_program_P2WSH.
Qed.

Lemma recipient_sizes_witness :
  zlen (recipient_getSerializedScript (mkRecipient (Recipient_OPRETURN [z2b 1]) 0 [])).1 = recipient_getSize (Recipient_OPRETURN [z2b 1]) + 1.
Proof. apply (recipient_sizes (mkRecipient (Recipient_OPRETURN [z2b 1]) 0 [])). by repeat split. Defined.
