(* ===== verification/Interpreter.v ===== *)
(** * Interpreter: the script interpreter

    The class [StackInterpreter] of cppForSwig/Script.h and Script.cpp, with
    [StackInterpreter_BCH], and [extractRSFromDERSig], [getP2WPKHScript] and
    [getP2WSHScript] of BtcUtils.h.

    [Script] is the monad of its methods: an exception keeps the state it was
    thrown in, because [op_if] catches [ScriptException] and goes on, and
    because a verifier reads the state of an interpreter that has thrown.

    A script is parsed where it is stored, and [outputScriptRef_] refers to it
    there: [Buffer] tells what memory that is, and reading it after the program
    has overwritten or freed it is [Err UB].

    The elliptic-curve operations are Crypto++'s: the class [CryptoECDSA]. *)

From S2P Require Import Prelude BinaryData BinaryIO Hashing StdMap ScriptParser SigHash TxEvalState.

(** A key as the library holds it after [DecodePoint] and [Initialize], the one
    an object has before, the library's test of a key and of a signature over
    a digest. *)
Class CryptoECDSA := {
  PubKey : Type;
  default_PubKey : PubKey;
  DecodePoint : list byte -> PubKey;
  Validate : PubKey -> bool;
  VerifyMessage : PubKey -> list byte -> list byte -> bool;
}.

Definition SCRIPT_VERIFY_CHECKLOCKTIMEVERIFY : Z := 0x1.
Definition SCRIPT_VERIFY_CHECKSEQUENCEVERIFY : Z := 0x2.
Definition SCRIPT_VERIFY_P2SH : Z := 0x4.
Definition SCRIPT_VERIFY_P2SH_SHA256 : Z := 0x8.
Definition SCRIPT_VERIFY_SEGWIT : Z := 0x10.

Definition has_flag (flags flag : Z) : bool := negb (Z.land flags flag =? 0).

(** ** State *)

(** [outputScriptRef_] and the reader of a script refer to memory that something
    else owns: the transaction and the outputs it spends, which outlast the run,
    the value of [p2shScript_] after its [n]th assignment, or the script a
    witness program makes, which its call frees. *)
Inductive Buffer := Lasting | P2sh (n : nat) | Local | Freed.

#[export] Instance Buffer_eq_dec : EqDecision Buffer.
Proof. solve_decision. Defined.

(** The back of a stack is the head of the list.  [outputBuf_] is what
    [outputScriptRef_] refers to, [p2shCount_] counts the assignments of
    [p2shScript_].  [SHD_SW_] and
    [sigHashDataObject_] are pointers, [None] when null; [is_BCH] tells the
    class of the object. *)
Record StackInterpreter := mkStackInterpreter {
  stack_ : list (list byte);
  altstack_ : list (list byte);
  onlyPushDataInInput_ : bool;
  inputIndex_ : Z;
  isValid_ : bool;
  opcount_ : Z;
  flags_ : Z;
  outputScriptRef_ : list byte;
  p2shScript_ : list byte;
  SHD_SW_ : option SigHashData;
  txInEvalState_ : TxInEvalState;
  sigHashDataObject_ : option SigHashData;
  is_BCH : bool;
  outputBuf_ : Buffer;
  p2shCount_ : nat;
}.

Definition set_stack v s := mkStackInterpreter v (altstack_ s) (onlyPushDataInInput_ s) (inputIndex_ s)
  (isValid_ s) (opcount_ s) (flags_ s) (outputScriptRef_ s) (p2shScript_ s) (SHD_SW_ s) (txInEvalState_ s)
  (sigHashDataObject_ s) (is_BCH s) (outputBuf_ s) (p2shCount_ s).
Definition set_altstack v s := mkStackInterpreter (stack_ s) v (onlyPushDataInInput_ s) (inputIndex_ s)
  (isValid_ s) (opcount_ s) (flags_ s) (outputScriptRef_ s) (p2shScript_ s) (SHD_SW_ s) (txInEvalState_ s)
  (sigHashDataObject_ s) (is_BCH s) (outputBuf_ s) (p2shCount_ s).
Definition set_onlyPushData v s := mkStackInterpreter (stack_ s) (altstack_ s) v (inputIndex_ s)
  (isValid_ s) (opcount_ s) (flags_ s) (outputScriptRef_ s) (p2shScript_ s) (SHD_SW_ s) (txInEvalState_ s)
  (sigHashDataObject_ s) (is_BCH s) (outputBuf_ s) (p2shCount_ s).
Definition set_isValid v s := mkStackInterpreter (stack_ s) (altstack_ s) (onlyPushDataInInput_ s) (inputIndex_ s)
  v (opcount_ s) (flags_ s) (outputScriptRef_ s) (p2shScript_ s) (SHD_SW_ s) (txInEvalState_ s)
  (sigHashDataObject_ s) (is_BCH s) (outputBuf_ s) (p2shCount_ s).
Definition set_opcount v s := mkStackInterpreter (stack_ s) (altstack_ s) (onlyPushDataInInput_ s) (inputIndex_ s)
  (isValid_ s) v (flags_ s) (outputScriptRef_ s) (p2shScript_ s) (SHD_SW_ s) (txInEvalState_ s)
  (sigHashDataObject_ s) (is_BCH s) (outputBuf_ s) (p2shCount_ s).
Definition setFlags v s := mkStackInterpreter (stack_ s) (altstack_ s) (onlyPushDataInInput_ s) (inputIndex_ s)
  (isValid_ s) (opcount_ s) v (outputScriptRef_ s) (p2shScript_ s) (SHD_SW_ s) (txInEvalState_ s)
  (sigHashDataObject_ s) (is_BCH s) (outputBuf_ s) (p2shCount_ s).
Definition set_outputScript v s := mkStackInterpreter (stack_ s) (altstack_ s) (onlyPushDataInInput_ s) (inputIndex_ s)
  (isValid_ s) (opcount_ s) (flags_ s) v (p2shScript_ s) (SHD_SW_ s) (txInEvalState_ s)
  (sigHashDataObject_ s) (is_BCH s) (outputBuf_ s) (p2shCount_ s).
Definition set_p2shScript v s := mkStackInterpreter (stack_ s) (altstack_ s) (onlyPushDataInInput_ s) (inputIndex_ s)
  (isValid_ s) (opcount_ s) (flags_ s) (outputScriptRef_ s) v (SHD_SW_ s) (txInEvalState_ s)
  (sigHashDataObject_ s) (is_BCH s) (outputBuf_ s) (S (p2shCount_ s)).
Definition setSegWitSigHashDataObject v s := mkStackInterpreter (stack_ s) (altstack_ s) (onlyPushDataInInput_ s)
  (inputIndex_ s) (isValid_ s) (opcount_ s) (flags_ s) (outputScriptRef_ s) (p2shScript_ s) v (txInEvalState_ s)
  (sigHashDataObject_ s) (is_BCH s) (outputBuf_ s) (p2shCount_ s).
Definition set_evalState v s := mkStackInterpreter (stack_ s) (altstack_ s) (onlyPushDataInInput_ s) (inputIndex_ s)
  (isValid_ s) (opcount_ s) (flags_ s) (outputScriptRef_ s) (p2shScript_ s) (SHD_SW_ s) v
  (sigHashDataObject_ s) (is_BCH s) (outputBuf_ s) (p2shCount_ s).
Definition set_sigHashObject v s := mkStackInterpreter (stack_ s) (altstack_ s) (onlyPushDataInInput_ s) (inputIndex_ s)
  (isValid_ s) (opcount_ s) (flags_ s) (outputScriptRef_ s) (p2shScript_ s) (SHD_SW_ s) (txInEvalState_ s)
  v (is_BCH s) (outputBuf_ s) (p2shCount_ s).
Definition set_outputBuf v s := mkStackInterpreter (stack_ s) (altstack_ s) (onlyPushDataInInput_ s) (inputIndex_ s)
  (isValid_ s) (opcount_ s) (flags_ s) (outputScriptRef_ s) (p2shScript_ s) (SHD_SW_ s) (txInEvalState_ s)
  (sigHashDataObject_ s) (is_BCH s) v (p2shCount_ s).

(** Whether the bytes are still there.  What C++ reads of a vector that was
    assigned is its new bytes or freed memory: the model does not tell which. *)
Definition alive (buf : Buffer) (s : StackInterpreter) : bool :=
  match buf with
  | Lasting | Local => true
  | P2sh n => (n =? p2shCount_ s)%nat
  | Freed => false
  end.

(** The constructor with a stub and an index does not set [flags_]: [garbage]
    is what the memory holds.  The derived class allocates its own object. *)
Definition StackInterpreter_new (garbage inputId : Z) : StackInterpreter :=
  mkStackInterpreter [] [] true inputId false 0 garbage [] [] None TxInEvalState_new None false Lasting 0.

Definition StackInterpreter_BCH_new (garbage inputId : Z) (own : nat) : StackInterpreter :=
  mkStackInterpreter [] [] true inputId false 0 garbage [] [] None TxInEvalState_new (Some (SegWitAt own)) true Lasting 0.

(** ** The monad *)

Definition Vm : Type := StackInterpreter * StubState.
Definition Script (A : Type) : Type := Vm -> Vm * result A.

#[export] Instance script_ret : MRet Script := fun A a vm => (vm, Ok a).
#[export] Instance script_bind : MBind Script := fun A B f m vm =>
  match m vm with
  | (vm, Ok a) => f a vm
  | (vm, Err e) => (vm, Err e)
  end.

Definition throw {A} (e : exn) : Script A := fun vm => (vm, Err e).
Definition lift {A} (r : result A) : Script A := fun vm => (vm, r).
Definition get {A} (f : StackInterpreter -> A) : Script A := fun vm => (vm, Ok (f vm.1)).
Definition modify (f : StackInterpreter -> StackInterpreter) : Script () := fun vm => ((f vm.1, vm.2), Ok tt).
(** What the reader [brr] of [buf] gives, where a byte is left to read. *)
Definition read_from {A} (buf : Buffer) (brr : BinaryRefReader) (r : result A) : Script A := fun vm =>
  if negb (brr_getSizeRemaining brr =? 0) && negb (alive buf vm.1) then (vm, Err UB) else (vm, r).
Definition modify_eval (f : TxInEvalState -> TxInEvalState) : Script () :=
  modify (fun s => set_evalState (f (txInEvalState_ s)) s).

(** ** Operations on the stack *)

Definition push_back (data : list byte) : Script () := modify (fun s => set_stack (data :: stack_ s) s).

Definition pop_back : Script (list byte) :=
  stack ← get stack_;
  match stack with
  | [] => throw ScriptError
  | data :: stack => _ ← modify (set_stack stack); mret data
  end.

Definition stack_back : Script (list byte) :=
  stack ← get stack_;
  match stack with [] => throw ScriptError | data :: _ => mret data end.

(** [stack_.pop_back()] of the vector itself: undefined when it is empty. *)
Definition vector_pop_back : Script () :=
  stack ← get stack_;
  match stack with [] => throw UB | _ :: stack => modify (set_stack stack) end.

(** [throw_unless n]: the operations that test the size of the stack first. *)
Definition need (n : nat) : Script () :=
  stack ← get stack_;
  if bool_decide (length stack < n)%nat then throw ScriptError else mret tt.

Definition push_int (v : Z) : Script () := bd ← lift (intToRawBinary v); push_back bd.
Definition pop_int : Script Z := bd ← pop_back; lift (rawBinaryToInt bd).
(** [bd.append(state)]: one byte, also for false. *)
Definition push_bool (state : bool) : Script () := push_back [z2b (if state then 1 else 0)].

Definition op_0 : Script () := push_back [].
Definition op_true : Script () := push_back [z2b 1].
Definition op_1negate : Script () := push_int (-1).
Definition op_depth : Script () := stack ← get stack_; push_int (zlen stack).
Definition op_dup : Script () := data ← stack_back; push_back data.
Definition op_nip : Script () := data1 ← pop_back; _ ← pop_back; push_back data1.

(** The element [i] from the back, where the operation has tested the size. *)
Definition peek (i : nat) : Script (list byte) :=
  stack ← get stack_;
  match stack !! i with Some data => mret data | None => throw UB end.

Definition op_over : Script () := _ ← need 2; data ← peek 1; push_back data.
Definition op_2dup : Script () :=
  _ ← need 2; i0 ← peek 1; i1 ← peek 0; _ ← push_back i0; push_back i1.
Definition op_3dup : Script () :=
  _ ← need 3; i0 ← peek 2; i1 ← peek 1; i2 ← peek 0; _ ← push_back i0; _ ← push_back i1; push_back i2.
Definition op_2over : Script () :=
  _ ← need 4; i0 ← peek 3; i1 ← peek 2; _ ← push_back i0; push_back i1.
Definition op_toaltstack : Script () := a ← pop_back; modify (fun s => set_altstack (a :: altstack_ s) s).
Definition op_fromaltstack : Script () :=
  altstack ← get altstack_;
  match altstack with
  | [] => throw ScriptError
  | a :: altstack => _ ← push_back a; modify (set_altstack altstack)
  end.
Definition op_ifdup : Script () := data ← stack_back; if notZero data then push_back data else mret tt.

(** The index is compared as an unsigned 64-bit integer. *)
Definition op_pick : Script () :=
  aI ← pop_int;
  stack ← get stack_;
  if zlen stack <=? wrap 64 aI then throw ScriptError
  else data ← peek (Z.to_nat aI); push_back data.

Fixpoint pop_many (n : nat) : Script (list (list byte)) :=
  match n with
  | O => mret []
  | S n => data ← pop_back; rest ← pop_many n; mret (data :: rest)
  end.
(** Puts them back, the last popped first. *)
Fixpoint push_many (l : list (list byte)) : Script () :=
  match l with
  | [] => mret tt
  | data :: l => _ ← push_back data; push_many l
  end.
Definition op_roll : Script () :=
  rollindex ← pop_int;
  stack ← get stack_;
  if zlen stack <=? wrap 64 rollindex then throw ScriptError
  else
    dataVec ← pop_many (Z.to_nat rollindex);
    rolldata ← pop_back;
    _ ← push_many (rev dataVec);
    push_back rolldata.

Definition op_rot : Script () :=
  c ← pop_back; b ← pop_back; a ← pop_back; _ ← push_back b; _ ← push_back c; push_back a.
Definition op_swap : Script () :=
  data1 ← pop_back; data2 ← pop_back; _ ← push_back data1; push_back data2.
Definition op_tuck : Script () :=
  b ← pop_back; a ← pop_back; _ ← push_back b; _ ← push_back a; push_back b.
Definition op_size : Script () := data ← stack_back; push_int (zlen data).
Definition op_equal : Script () := data1 ← pop_back; data2 ← pop_back; push_bool (equal data1 data2).

(** ** Arithmetic *)

Definition op_unary (f : Z -> Z) : Script () := aI ← pop_int; push_int (f aI).
Definition op_1add : Script () := op_unary (fun aI => aI + 1).
Definition op_1sub : Script () := op_unary (fun aI => aI - 1).
Definition op_negate : Script () := op_unary (fun aI => - aI).
Definition op_abs : Script () := op_unary Z.abs.
Definition op_not : Script () := op_unary (fun aI => if negb (aI =? 0) then 0 else 1).
Definition op_0notequal : Script () := op_unary (fun aI => if negb (aI =? 0) then 1 else aI).

(** Both operands are popped before either is read as a number. *)
Definition pop_two : Script (Z * Z) :=
  b ← pop_back; a ← pop_back;
  aI ← lift (rawBinaryToInt a); bI ← lift (rawBinaryToInt b); mret (aI, bI).
Definition op_compare (f : Z -> Z -> bool) : Script () := '(aI, bI) ← pop_two; push_bool (f aI bI).
Definition op_binary (f : Z -> Z -> Z) : Script () := '(aI, bI) ← pop_two; push_int (f aI bI).

Definition op_numequal : Script () := op_compare Z.eqb.
Definition op_numnotequal : Script () := op_compare (fun aI bI => negb (aI =? bI)).
Definition op_lessthan : Script () := op_compare Z.ltb.
Definition op_lessthanorequal : Script () := op_compare Z.leb.
Definition op_greaterthan : Script () := op_compare Z.gtb.
Definition op_greaterthanorequal : Script () := op_compare Z.geb.
Definition op_booland : Script () := op_compare (fun aI bI => negb (aI =? 0) && negb (bI =? 0)).
Definition op_boolor : Script () := op_compare (fun aI bI => negb (aI =? 0) || negb (bI =? 0)).
Definition op_min : Script () := op_binary Z.min.
Definition op_max : Script () := op_binary Z.max.
Definition op_add : Script () := op_binary Z.add.
Definition op_sub : Script () := op_binary Z.sub.
Definition op_within : Script () :=
  top ← pop_back; bot ← pop_back; x ← pop_back;
  xI ← lift (rawBinaryToInt x); topI ← lift (rawBinaryToInt top); botI ← lift (rawBinaryToInt bot);
  push_bool ((botI <=? xI) && (xI <? topI)).

Definition op_verify : Script () :=
  data ← pop_back;
  _ ← modify (set_isValid (notZero data));
  if negb (notZero data) then throw ScriptError else mret tt.

(** ** Signatures *)

Definition forceTo32Bytes (data : list byte) (output : BinaryWriter) : BinaryWriter :=
  let len := zlen data in
  if 32 <? len then bw_put_BinaryData (getSliceCopy data (len - 32) 32) output
  else bw_put_BinaryData data
         (foldl (fun w _ => bw_put_uint8_t 0 w) output (replicate (Z.to_nat (32 - len)) ())).

(** R and S of a signature in DER form, 32 bytes each; the length behind the
    first code byte is not used. *)
Definition extractRSFromDERSig (bdr : list byte) : result (list byte) :=
  '(codeByte, brr) ← brr_get_uint8_t (brr_setNewData bdr);
  if negb (codeByte =? 0x30) then Err DERError
  else
    '(_, brr) ← brr_get_uint8_t brr;
    '(codeByte, brr) ← brr_get_uint8_t brr;
    '(len, brr) ← brr_get_uint8_t brr;
    if negb (codeByte =? 0x02) then Err DERError
    else
      '(rRef, brr) ← brr_get_BinaryData len brr;
      let output := forceTo32Bytes rRef bw_new in
      '(codeByte, brr) ← brr_get_uint8_t brr;
      '(len, brr) ← brr_get_uint8_t brr;
      if negb (codeByte =? 0x02) then Err DERError
      else
        '(sRef, _) ← brr_get_BinaryData len brr;
        Ok (theString_ (forceTo32Bytes sRef output)).

(** [getSigHashSingleByte], of the class and of [StackInterpreter_BCH]. *)
Definition getSigHashSingleByte (bch : bool) (sighashbyte : Z) : result Z :=
  if bch then
    if Z.land sighashbyte 0x40 =? 0 then Err ScriptError else Ok (Z.land sighashbyte 0xBF)
  else Ok sighashbyte.

Section interpreter.
Context `{HashFns} `{CryptoECDSA} `{TransactionStub}.

Definition VerifyData (binMessage sig : list byte) (cppPubKey : PubKey) : bool :=
  VerifyMessage cppPubKey (getSha256 binMessage) sig.

Definition op_ripemd160 : Script () := data ← pop_back; push_back (ripemd160 data).
Definition op_sha256 : Script () := data ← pop_back; push_back (getSha256 data).
Definition op_hash160 : Script () := data ← pop_back; push_back (getHash160 data).
Definition op_hash256 : Script () := data ← pop_back; push_back (getHash256 data).

(** The object that serialises what is signed; a legacy one if there is none. *)
Definition need_sigHashObject : Script SigHashData :=
  o ← get sigHashDataObject_;
  match o with
  | Some shd => mret shd
  | None => _ ← modify (set_sigHashObject (Some SigHashDataLegacy)); mret SigHashDataLegacy
  end.

(** The data read [outputScriptRef_] if the hash type is supported. *)
Definition sighash_data (shd : SigHashData) (hashType : Z) : Script (list byte) := fun vm =>
  if (hashType =? SIGHASH_ALL) && negb (alive (outputBuf_ vm.1) vm.1) then (vm, Err UB)
  else match getDataForSigHash shd hashType (outputScriptRef_ vm.1) (inputIndex_ vm.1) vm.2 with
  | Ok (data, stub) => ((vm.1, stub), Ok data)
  | Err e => (vm, Err e)
  end.

Definition op_checksig : Script () :=
  _ ← need 2;
  pubkey ← pop_back;
  sigScript ← pop_back;
  if zlen sigScript <? 65 then push_int 0
  else
    _ ← modify_eval (set_n_m 1 1);
    '(sig, brrSig) ← lift (brr_get_BinaryData (wrap 32 (zlen sigScript - 1)) (brr_setNewData sigScript));
    '(sighashbyte, _) ← lift (brr_get_uint8_t brrSig);
    bch ← get is_BCH;
    hashType ← lift (getSigHashSingleByte bch sighashbyte);
    shd ← need_sigHashObject;
    sighashdata ← sighash_data shd hashType;
    rs ← lift (extractRSFromDERSig sig);
    let result := VerifyData sighashdata rs (DecodePoint pubkey) in
    _ ← push_int (if result then 1 else 0);
    if result then
      modify_eval (fun e => set_pubKeyState (map_insert pubkey true (pubKeyState_ e)).1 e)
    else mret tt.

(** The loop that pops the keys: those the library accepts are kept. *)
Fixpoint pop_pubkeys (n : nat) (i : Z) (pubkeys : stdmap Z (PubKey * list byte))
    : Script (stdmap Z (PubKey * list byte)) :=
  match n with
  | O => mret pubkeys
  | S n =>
      pubkey ← pop_back;
      let cppPubKey := DecodePoint pubkey in
      if Validate cppPubKey then
        _ ← modify_eval (fun e => set_pubKeyState (map_insert pubkey false (pubKeyState_ e)).1 e);
        pop_pubkeys n (i + 1) (map_insert i (cppPubKey, pubkey) pubkeys).1
      else pop_pubkeys n (i + 1) pubkeys
  end.

(** The loop that pops the signatures up to an empty item; [sigVec] has the
    last one first, the order in which they are checked. *)
Fixpoint pop_sigs (n : nat) (sigVec : list (list byte * Z)) : Script (list (list byte * Z)) :=
  match n with
  | O => mret sigVec
  | S n =>
      sig ← pop_back;
      if zlen sig =? 0 then mret sigVec
      else
        bch ← get is_BCH;
        b ← lift (at_ sig (zlen sig - 1));
        hashType ← lift (getSigHashSingleByte bch (b2z b));
        pop_sigs n ((getSliceCopy sig 0 (zlen sig - 1), hashType) :: sigVec)
  end.

(** [dataToHash[hashType]], filled on first use. *)
Definition hash_data_for (shd : SigHashData) (hashType : Z) (dataToHash : stdmap Z (list byte))
    : Script (list byte * stdmap Z (list byte)) :=
  let cached := default [] (map_find hashType dataToHash) in
  if zlen cached =? 0 then
    hashdata ← sighash_data shd hashType; mret (hashdata, map_put hashType hashdata dataToHash)
  else mret (cached, dataToHash).

(** [while (pubkeys.size() > 0)]: from the key at [index] down, until one
    verifies the signature.  A key that is not there is the default one. *)
Fixpoint match_sig (fuel : nat) (hashdata rs : list byte) (pubkeys : stdmap Z (PubKey * list byte))
    (index : Z) : Script (bool * stdmap Z (PubKey * list byte) * Z) :=
  match fuel with
  | O => throw NoFuel
  | S fuel =>
      if bool_decide (pubkeys = []) then mret (false, pubkeys, index)
      else
        let pubkey := default (default_PubKey, []) (map_find (wrap 32 index) pubkeys) in
        let pubkeys := map_erase (wrap 32 index) pubkeys in
        if VerifyData hashdata rs pubkey.1 then
          _ ← modify_eval (fun e => set_pubKeyState (map_put pubkey.2 true (pubKeyState_ e)) e);
          mret (true, pubkeys, index - 1)
        else match_sig fuel hashdata rs pubkeys (index - 1)
  end.

Fixpoint check_sigs (shd : SigHashData) (sigVec : list (list byte * Z)) (dataToHash : stdmap Z (list byte))
    (pubkeys : stdmap Z (PubKey * list byte)) (index validSigCount : Z) : Script Z :=
  match sigVec with
  | [] => mret validSigCount
  | (sig, hashType) :: sigVec =>
      '(hashdata, dataToHash) ← hash_data_for shd hashType dataToHash;
      rs ← lift (extractRSFromDERSig sig);
      '(found, pubkeys, index) ← match_sig (S (Z.to_nat (index + 1))) hashdata rs pubkeys index;
      check_sigs shd sigVec dataToHash pubkeys index
        (if (found : bool) then wrap 32 (validSigCount + 1) else validSigCount)
  end.

Definition op_checkmultisig : Script () :=
  _ ← need 3;
  nI ← pop_int;
  if (nI <? 0) || (20 <? nI) then throw ScriptError
  else
    pubkeys ← pop_pubkeys (Z.to_nat nI) 0 [];
    mI ← pop_int;
    if (mI <? 0) || (nI <? mI) then throw ScriptError
    else
      _ ← modify_eval (set_n_m nI mI);
      stack ← get stack_;
      sigVec ← pop_sigs (length stack) [];
      shd ← need_sigHashObject;
      validSigCount ← check_sigs shd sigVec [] pubkeys (nI - 1) 0;
      if mI <=? validSigCount then op_true else op_0.

(** ** Witness programs *)

Definition getP2WPKHScript (scriptHash : list byte) : result (list byte) :=
  if negb (zlen scriptHash =? 20) then Err RuntimeError
  else
    let w := bw_put_uint8_t 20 (bw_put_uint8_t 169 (bw_put_uint8_t 118 bw_new)) in
    Ok (theString_ (bw_put_uint8_t 172 (bw_put_uint8_t 136 (bw_put_BinaryData scriptHash w)))).

Definition getP2WSHScript (scriptHash : list byte) : result (list byte) :=
  if negb (zlen scriptHash =? 32) then Err RuntimeError
  else
    let w := bw_put_uint8_t 32 (bw_put_uint8_t 168 bw_new) in
    Ok (theString_ (bw_put_uint8_t 135 (bw_put_BinaryData scriptHash w))).

(** The items of a witness, onto the stack. *)
Fixpoint push_items (n : nat) (brr : BinaryRefReader) : Script BinaryRefReader :=
  match n with
  | O => mret brr
  | S n =>
      '(len, brr) ← lift (brr_get_var_int brr);
      '(data, brr) ← lift (brr_get_BinaryData (wrap 32 len) brr);
      _ ← push_back data;
      push_items n brr
  end.

(** *** Mutual recursion

    [processScript], [processOpCode], [op_if] and [processSW] call each other.
    Those that [processScript] calls take it as the argument [rec];
    [processScript] itself recurses on the depth of these calls. *)
Section rec.
Variable rec : Buffer -> BinaryRefReader -> bool -> Script ().

(** A call that ends takes its own script with it, also when it throws. *)
Definition free_local (s : StackInterpreter) : StackInterpreter :=
  if bool_decide (outputBuf_ s = Local) then set_outputBuf Freed s else s.
Definition with_local (m : Script ()) : Script () := fun vm =>
  match m vm with (vm, r) => ((free_local vm.1, vm.2), r) end.

Definition process_p2wpkh (scriptHash : list byte) : Script () :=
  index ← get inputIndex_;
  witnessData ← lift (getWitnessData index);
  '(itemCount, brr) ← lift (brr_get_uint8_t (brr_setNewData witnessData));
  if negb (itemCount =? 2) then throw ScriptError
  else
    brr ← push_items (Z.to_nat itemCount) brr;
    if negb (brr_getSizeRemaining brr =? 0) then throw ScriptError
    else
      swScript ← lift (getP2WPKHScript scriptHash);
      with_local (rec Local (brr_setNewData swScript) true).

Definition process_p2wsh (scriptHash : list byte) : Script () :=
  index ← get inputIndex_;
  witnessData ← lift (getWitnessData index);
  '(itemCount, brr) ← lift (brr_get_uint8_t (brr_setNewData witnessData));
  brr ← push_items (Z.to_nat itemCount) brr;
  if negb (brr_getSizeRemaining brr =? 0) then throw ScriptError
  else
    _ ← modify (fun s => setFlags (Z.lor (flags_ s) SCRIPT_VERIFY_P2SH_SHA256) s);
    swScript ← lift (getP2WSHScript scriptHash);
    with_local (rec Local (brr_setNewData swScript) true).

Definition processSW (outputScript : list byte) : Script () :=
  flags ← get flags_;
  if has_flag flags SCRIPT_VERIFY_SEGWIT then
    _ ← modify (fun s => set_sigHashObject (SHD_SW_ s) s);
    '(versionByte, brr) ← lift (brr_get_uint8_t (brr_setNewData outputScript));
    if versionByte =? 0 then
      '(scriptSize, brr) ← lift (brr_get_uint8_t brr);
      '(scriptHash, brr) ← lift (brr_get_BinaryData scriptSize brr);
      if 0 <? brr_getSizeRemaining brr then throw ScriptError
      else if scriptSize =? 20 then process_p2wpkh scriptHash
      else if scriptSize =? 32 then process_p2wsh scriptHash
      else throw ScriptError
    else throw ScriptError
  else throw ScriptError.

(** [buf] is the memory of the script that runs. *)
Section script.
Variable buf : Buffer.

(** The block up to the next switch, and the reader at that switch. *)
Definition if_block (brr : BinaryRefReader) : result (list byte * BinaryRefReader) :=
  match seekToNextIfSwitch (brr_fork brr) with
  | (_, Err e) => Err e
  | (innerBlock, Ok _) => brr_get_BinaryData (wrap 32 (pos_ innerBlock)) brr
  end.

(** The handler of [op_if]: the reader is at the switch the first block ended
    with, or where a failed search has left it. *)
Definition op_if_else (brr : BinaryRefReader) (isOutputScript : bool) : Script () :=
  '(opcode, brr) ← read_from buf brr (brr_get_uint8_t brr);
  if is_op opcode OP_ENDIF then mret tt
  else if negb (is_op opcode OP_ELSE) then throw ScriptError
  else
    '(thisIfBlock, brr) ← lift (if_block brr);
    _ ← rec buf (brr_setNewData thisIfBlock) isOutputScript;
    read_from buf brr (seekToEndIf brr).2.

(** The body of the [try]: the handler covers it all, so an exception of the
    first branch runs the second one. *)
Definition op_if_try (block : Script ()) (brr : BinaryRefReader) (isOutputScript : bool) : Script () := fun vm =>
  match block vm with
  | (vm, Err e) => if bool_decide (e = ScriptError) then op_if_else brr isOutputScript vm else (vm, Err e)
  | (vm, Ok _) =>
      match read_from buf brr (seekToEndIf brr).2 vm with
      | (vm, Err e) =>
          if bool_decide (e = ScriptError) then op_if_else (seekToEndIf brr).1 isOutputScript vm else (vm, Err e)
      | (vm, Ok _) => (vm, Ok tt)
      end
  end.

Definition op_if (brr : BinaryRefReader) (isOutputScript : bool) : Script () :=
  '(thisIfBlock, brr) ← lift (if_block brr);
  op_if_try (_ ← op_verify; _ ← modify (set_isValid false); rec buf (brr_setNewData thisIfBlock) isOutputScript)
    brr isOutputScript.

(** [OP_EQUAL]: a push-only input may have been for a script hash. *)
Definition op_equal_p2sh : Script () :=
  _ ← op_equal;
  onlyPush ← get onlyPushDataInInput_;
  p2shScript ← get p2shScript_;
  if onlyPush && negb (zlen p2shScript =? 0) then
    _ ← op_verify;
    valid ← get isValid_;
    if negb valid then mret tt
    else
      flags ← get flags_;
      version ← lift (at_ p2shScript 0);
      if has_flag flags SCRIPT_VERIFY_SEGWIT && ((zlen p2shScript =? 22) || (zlen p2shScript =? 34)) &&
         (b2z version <=? 16) then processSW p2shScript
      else count ← get p2shCount_; rec (P2sh count) (brr_setNewData p2shScript) true
  else mret tt.

(** [OP_SHA256], [OP_HASH160]: as the first opcode of a script they may start
    a script hash. *)
Definition save_p2sh (flag : Z) : Script () :=
  flags ← get flags_;
  opcount ← get opcount_;
  onlyPush ← get onlyPushDataInInput_;
  if has_flag flags flag && ((opcount =? 1) && onlyPush) then
    data ← stack_back; modify (set_p2shScript data)
  else mret tt.

Definition op_codeseparator (offset : Z) : Script () := fun vm =>
  let s := set_opcount 0 vm.1 in
  ((s, if negb (zlen (outputScriptRef_ s) =? 0) then setLastOpCodeSeparator (inputIndex_ s) offset vm.2 else vm.2),
   Ok tt).

(** The switch of [processOpCode]. *)
Definition process_switch (oc : OpCode) : Script () :=
  match opcode_at (oc_opcode oc) with
  | Some OP_NOP => mret tt
  | Some OP_IF => op_if (brr_setNewData (oc_dataRef oc)) false
  | Some OP_NOTIF => _ ← op_not; op_if (brr_setNewData (oc_dataRef oc)) false
  | Some OP_ELSE => throw ScriptError
  | Some OP_ENDIF => throw ScriptError
  | Some OP_VERIFY => op_verify
  | Some OP_TOALTSTACK => op_toaltstack
  | Some OP_FROMALTSTACK => op_fromaltstack
  | Some OP_IFDUP => op_ifdup
  | Some OP_2DROP => _ ← vector_pop_back; vector_pop_back
  | Some OP_2DUP => op_2dup
  | Some OP_3DUP => op_3dup
  | Some OP_2OVER => op_2over
  | Some OP_DEPTH => op_depth
  | Some OP_DROP => vector_pop_back
  | Some OP_DUP => op_dup
  | Some OP_NIP => op_nip
  | Some OP_OVER => op_over
  | Some OP_PICK => op_pick
  | Some OP_ROLL => op_roll
  | Some OP_ROT => op_rot
  | Some OP_SWAP => op_swap
  | Some OP_TUCK => op_tuck
  | Some OP_SIZE => op_size
  | Some OP_EQUAL => op_equal_p2sh
  | Some OP_EQUALVERIFY => _ ← op_equal; op_verify
  | Some OP_1ADD => op_1add
  | Some OP_1SUB => op_1sub
  | Some OP_NEGATE => op_negate
  | Some OP_ABS => op_abs
  | Some OP_NOT => op_not
  | Some OP_0NOTEQUAL => op_0notequal
  | Some OP_ADD => op_add
  | Some OP_SUB => op_sub
  | Some OP_BOOLAND => op_booland
  | Some OP_BOOLOR => op_boolor
  | Some OP_NUMEQUAL => op_numequal
  | Some OP_NUMEQUALVERIFY => _ ← op_numequal; op_verify
  | Some OP_NUMNOTEQUAL => op_numnotequal
  | Some OP_LESSTHAN => op_lessthan
  | Some OP_GREATERTHAN => op_greaterthan
  | Some OP_LESSTHANOREQUAL => op_lessthanorequal
  | Some OP_GREATERTHANOREQUAL => op_greaterthanorequal
  | Some OP_MIN => op_min
  | Some OP_MAX => op_max
  | Some OP_WITHIN => op_within
  | Some OP_RIPEMD160 => op_ripemd160
  | Some OP_SHA256 => _ ← save_p2sh SCRIPT_VERIFY_P2SH_SHA256; op_sha256
  | Some OP_HASH160 => _ ← save_p2sh SCRIPT_VERIFY_P2SH; op_hash160
  | Some OP_HASH256 => op_hash256
  | Some OP_CODESEPARATOR => op_codeseparator (oc_offset oc)
  | Some OP_CHECKSIG => op_checksig
  | Some OP_CHECKSIGVERIFY => _ ← op_checksig; op_verify
  | Some OP_CHECKMULTISIG => op_checkmultisig
  | Some OP_CHECKMULTISIGVERIFY => _ ← op_checkmultisig; op_verify
  | Some OP_NOP1 => mret tt
  | Some OP_NOP2 =>
      flags ← get flags_;
      if negb (has_flag flags SCRIPT_VERIFY_CHECKLOCKTIMEVERIFY) then mret tt else throw ScriptError
  | Some OP_NOP3 =>
      flags ← get flags_;
      if negb (has_flag flags SCRIPT_VERIFY_CHECKSEQUENCEVERIFY) then mret tt else throw ScriptError
  | Some (OP_NOP4 | OP_NOP5 | OP_NOP6 | OP_NOP7 | OP_NOP8 | OP_NOP9 | OP_NOP10) => mret tt
  | _ => throw RuntimeError
  end.

Definition processOpCode (oc : OpCode) : Script () :=
  _ ← modify (fun s => set_opcount (wrap 32 (opcount_ s + 1)) s);
  if oc_opcode oc =? 0 then op_0
  else if oc_opcode oc <=? 75 then push_back (oc_dataRef oc)
  else if oc_opcode oc <? 79 then push_back (oc_dataRef oc)
  else if oc_opcode oc =? 79 then op_1negate
  else if (oc_opcode oc <=? 96) && (81 <=? oc_opcode oc) then push_int (oc_opcode oc - 80)
  else
    _ ← modify (fun s => if zlen (outputScriptRef_ s) =? 0 then set_onlyPushData false s else s);
    process_switch oc.

Fixpoint parseScript_loop (fuel : nat) (brr : BinaryRefReader) : Script () :=
  match fuel with
  | O => throw NoFuel
  | S fuel =>
      if negb (brr_getSizeRemaining brr =? 0) then
        '(oc, brr) ← read_from buf brr (getNextOpcode brr);
        _ ← processOpCode oc;
        parseScript_loop fuel brr
      else mret tt
  end.

Definition parseScript (brr : BinaryRefReader) : Script () := parseScript_loop (parse_fuel brr) brr.
End script.
End rec.

Fixpoint processScript (depth : nat) (buf : Buffer) (brr : BinaryRefReader) (isOutputScript : bool) : Script () :=
  match depth with
  | O => throw NoFuel
  | S depth =>
      _ ← modify (fun s => if isOutputScript then set_outputBuf buf (set_outputScript (bdRef_ brr) s) else s);
      _ ← modify (fun s => set_isValid false (set_opcount 0 s));
      parseScript (processScript depth) buf brr
  end.

Definition checkState : Script () :=
  valid ← get isValid_;
  _ ← (if negb valid then op_verify else mret tt);
  modify_eval (set_validStack true).
End interpreter.
