(* ===== verification/DerSig.v ===== *)
(** * DerSig: signatures in DER form

    [BtcUtils::rsToDerSig] (cppForSwig/BtcUtils.cpp) and
    [CryptoECDSA::computeLowS] (EncryptionUtils.cpp), which write the two
    numbers of a signature, and what [extractRSFromDERSig] reads from it. *)

From S2P Require Import Prelude BinaryData BinaryIO Interpreter.

Definition SECP256K1_ORDER : Z := 0xfffffffffffffffffffffffffffffffebaaedce6af48a03bbfd25e8cd0364141.

(** [Integer::ByteCount] *)
Definition ByteCount (v : Z) : nat := if v =? 0 then 0%nat else S (Z.to_nat (Z.log2 (Z.abs v) / 8)).

(** The magnitude is written, as [Integer::Encode] does. *)
Definition computeLowS (s : list byte) : list byte :=
  let halfOrder := Z.shiftr SECP256K1_ORDER 1 in
  let sInteger := be_val s in
  let sInteger := if halfOrder <? sInteger then SECP256K1_ORDER - sInteger else sInteger in
  be_bytes (ByteCount sInteger) (Z.abs sInteger).

(** The loop that counts the leading zeros. *)
Fixpoint trim_zeros (r : list byte) : Z :=
  match r with
  | [] => 0
  | b :: r => if negb (b2z b =? 0) then 0 else 1 + trim_zeros r
  end.

(** [0] before a number whose first byte, [b], has the sign bit. *)
Definition put_number (b : byte) (n : list byte) : BinaryWriter :=
  bw_put_BinaryData n (if 0x7f <? b2z b then bw_put_uint8_t 0 bw_new else bw_new).

(** [*r_trim.getPtr()] of an R of zeros is the byte behind it. *)
Definition rsToDerSig (bdr : list byte) : result (list byte) :=
  if negb (zlen bdr =? 64) then Err RuntimeError
  else
    let r_bdr := getSliceCopy bdr 0 32 in
    let s_bdr := getSliceCopy bdr 32 32 in
    let trim := trim_zeros r_bdr in
    r0 ← at_ bdr trim;
    let bwR := theString_ (put_number r0 (getSliceCopy bdr trim (32 - trim))) in
    let lowS := computeLowS s_bdr in
    s0 ← at_ lowS 0;
    let bwS := theString_ (put_number s0 lowS) in
    let bw := bw_put_uint8_t 0x30 bw_new in
    let bw := bw_put_uint8_t (wrap 8 (4 + zlen bwR + zlen bwS)) bw in
    let bw := bw_put_uint8_t 0x02 bw in
    let bw := bw_put_uint8_t (wrap 8 (zlen bwR)) bw in
    let bw := bw_put_BinaryData bwR bw in
    let bw := bw_put_uint8_t 0x02 bw in
    let bw := bw_put_uint8_t (wrap 8 (zlen bwS)) bw in
    Ok (theString_ (bw_put_BinaryData bwS bw)).

(** ** Reading back *)

(** The smaller of the two values of S. *)
Definition low_s (s : Z) : Z := if Z.shiftr SECP256K1_ORDER 1 <? s then Z.abs (SECP256K1_ORDER - s) else s.

Definition low_rs (rs : list byte) : list byte := take 32 rs ++ be_bytes 32 (low_s (be_val (drop 32 rs))).

Lemma force_pad d w : zlen d <= 32 -> theString_ (forceTo32Bytes d w) = theString_ w ++ replicate (32 - length d) (z2b 0) ++ d.
Proof.
  intros Hd. unfold forceTo32Bytes. rewrite (proj2 (Z.ltb_ge _ _)) by done. rewrite bw_put_BinaryData_str, app_assoc. f_equal.
  replace (Z.to_nat (32 - zlen d)) with (32 - length d)%nat by (unfold zlen; lia).
  generalize (32 - length d)%nat as n. intros n. revert w. induction n as [|n IH]; intros w; cbn [replicate foldl]; [by rewrite app_nil_r|].
  rewrite IH, bw_put_uint8_t_str, <- app_assoc. done.
Qed.

(** A number of up to 32 bytes, with or without a zero before it. *)
Lemma force_number b n w : zlen n <= 32 ->
  theString_ (forceTo32Bytes (theString_ (put_number b n)) w) = theString_ w ++ replicate (32 - length n) (z2b 0) ++ n.
Proof.
  intros Hn. unfold put_number. rewrite bw_put_BinaryData_str. destruct (_ <? _); [|by apply force_pad].
  change (theString_ (bw_put_uint8_t 0 bw_new)) with [z2b 0]. destruct (decide (zlen n = 32)) as [E|E].
  - unfold forceTo32Bytes. rewrite zlen_app, E. change (32 <? zlen [z2b 0] + 32) with true. cbv iota. rewrite bw_put_BinaryData_str.
    f_equal. pose proof (getSliceCopy_app [z2b 0] n []) as H. rewrite app_nil_r in H.
    change (zlen [z2b 0] + 32 - 32) with (zlen [z2b 0]). rewrite <- E at 1. rewrite H.
    + unfold zlen in E. by replace (32 - length n)%nat with 0%nat by lia.
    + rewrite zlen_app, E. done.
  - rewrite force_pad by (rewrite zlen_app; change (zlen [z2b 0]) with 1; lia). f_equal. unfold zlen in *.
    rewrite length_app. cbn [length]. replace (32 - length n)%nat with (S (32 - (1 + length n)))%nat by lia.
    cbn [replicate]. change (z2b 0 :: replicate ?k (z2b 0)) with (replicate (S k) (z2b 0)). rewrite replicate_S_end, <- app_assoc. done.
Qed.

Lemma be_bytes_pad n v : 0 <= v < 256 ^ Z.of_nat n -> (n <= 32)%nat -> be_bytes 32 v = replicate (32 - n) (z2b 0) ++ be_bytes n v.
Proof.
  intros Hv Hn. apply be_val_inj; [rewrite length_app, length_replicate, !length_be_bytes; lia|].
  assert (forall l k, be_val (replicate k (z2b 0) ++ l) = be_val l) as Hz.
  { intros l k. induction k as [|k IH]; [done|]. cbn [replicate app]. rewrite be_val_cons, IH. by rewrite b2z_z2b_small. }
  rewrite Hz, !be_val_be_bytes, !Z.mod_small; [done|done|]. split; [lia|].
  apply Z.lt_le_trans with (256 ^ Z.of_nat n); [lia|]. apply Z.pow_le_mono_r; lia.
Qed.

Lemma ByteCount_bound v : 0 <= v -> v < 256 ^ Z.of_nat (ByteCount v).
Proof.
  intros Hv. unfold ByteCount. destruct (Z.eqb_spec v 0) as [->|Hne]; [done|]. rewrite Z.abs_eq by done.
  rewrite Nat2Z.inj_succ, Z2Nat.id by (apply Z.div_pos; [apply Z.log2_nonneg|lia]).
  change 256 with (2 ^ 8). rewrite <- Z.pow_mul_r by (try lia; pose proof (Z.div_pos (Z.log2 v) 8 (Z.log2_nonneg v) ltac:(lia)); lia).
  apply Z.log2_lt_pow2; [lia|]. pose proof (Z.mul_succ_div_gt (Z.log2 v) 8 ltac:(lia)). lia.
Qed.

Lemma ByteCount_le v n : 0 <= v < 256 ^ Z.of_nat n -> (ByteCount v <= n)%nat.
Proof.
  intros Hv. unfold ByteCount. destruct (Z.eqb_spec v 0) as [->|Hne]; [lia|]. rewrite Z.abs_eq by lia.
  assert (Z.log2 v < 8 * Z.of_nat n) as Hl.
  { apply Z.log2_lt_pow2; [lia|]. rewrite Z.pow_mul_r by lia. exact (proj2 Hv). }
  assert (Z.log2 v / 8 < Z.of_nat n) by (apply Z.div_lt_upper_bound; lia).
  pose proof (Z.div_pos (Z.log2 v) 8 (Z.log2_nonneg v) ltac:(lia)). lia.
Qed.

Lemma computeLowS_low s : zlen s = 32 -> exists n, computeLowS s = be_bytes n (low_s (be_val s)) /\ (n <= 32)%nat /\
  0 <= low_s (be_val s) < 256 ^ Z.of_nat n /\ (low_s (be_val s) ≠ 0 <-> (0 < n)%nat).
Proof.
  intros Hs. pose proof (be_val_range s) as Hr. replace (length s) with 32%nat in Hr by (unfold zlen in Hs; lia).
  unfold computeLowS, low_s. set (x := be_val s) in *.
  assert (SECP256K1_ORDER < 256 ^ Z.of_nat 32) as Ho by (vm_compute; reflexivity).
  assert (0 <= SECP256K1_ORDER) by (vm_compute; discriminate).
  assert (forall v, v ≠ 0 <-> (0 < ByteCount v)%nat) as Hc.
  { intros v. unfold ByteCount. destruct (Z.eqb_spec v 0); lia. }
  assert (forall v, ByteCount v = ByteCount (Z.abs v)) as Ha.
  { intros v. unfold ByteCount. rewrite Z.abs_involutive. destruct (Z.eqb_spec v 0) as [->|]; [done|].
    by rewrite (proj2 (Z.eqb_neq _ _)) by lia. }
  destruct (_ <? _).
  - exists (ByteCount (SECP256K1_ORDER - x)). rewrite Ha. split; [done|]. split; [apply ByteCount_le; lia|].
    split; [split; [lia|apply ByteCount_bound; lia]|]. apply Hc.
  - exists (ByteCount x). split; [by rewrite Z.abs_eq by lia|]. split; [apply ByteCount_le; lia|].
    split; [split; [lia|apply ByteCount_bound; lia]|]. apply Hc.
Qed.

Lemma trim_zeros_spec r : 0 <= trim_zeros r <= zlen r /\ r = replicate (Z.to_nat (trim_zeros r)) (z2b 0) ++ drop (Z.to_nat (trim_zeros r)) r.
Proof.
  induction r as [|b r [Hr IH]]; [done|]. cbn [trim_zeros]. rewrite zlen_cons. destruct (Z.eqb_spec (b2z b) 0) as [E|E]; cbn [negb].
  - split; [lia|]. replace (Z.to_nat (1 + trim_zeros r)) with (S (Z.to_nat (trim_zeros r))) by lia. cbn [replicate app drop].
    f_equal; [|done]. apply b2z_inj. by rewrite E, b2z_z2b_small.
  - split; [|done]. pose proof (zlen_nonneg r). lia.
Qed.

Definition der_bytes (R S : list byte) : list byte :=
  [z2b 0x30; z2b (4 + zlen R + zlen S); z2b 0x02; z2b (zlen R)] ++ R ++ [z2b 0x02; z2b (zlen S)] ++ S.

Lemma extract_der R S : zlen R < 64 -> zlen S < 64 ->
  extractRSFromDERSig (der_bytes R S) = Ok (theString_ (forceTo32Bytes S (forceTo32Bytes R bw_new))).
Proof.
  intros HR HS. pose proof (zlen_nonneg R). pose proof (zlen_nonneg S).
  assert (zlen (der_bytes R S) < two64) as Hl.
  { unfold der_bytes. rewrite !zlen_app. change (zlen [_; _; _; _]) with 4. change (zlen [_; _]) with 2. unfold two64. lia. }
  unfold extractRSFromDERSig. rewrite brr_setNewData_at. unfold der_bytes in *. rewrite <- !app_comm_cons in *. cbn [app] in *.
  set (l4 := z2b (4 + zlen R + zlen S)) in *.
  rewrite (brr_get_uint8_t_parses' (z2b 48) [] _ Hl). cbn [mbind result_bind app]. change (b2z (z2b 48)) with 48. zsimp.
  rewrite (brr_get_uint8_t_parses' l4 [_] _ Hl). cbn [mbind result_bind app].
  rewrite (brr_get_uint8_t_parses' (z2b 2) [_; _] _ Hl). cbn [mbind result_bind app].
  rewrite (brr_get_uint8_t_parses' (z2b (zlen R)) [_; _; _] _ Hl). cbn [mbind result_bind app].
  change (b2z (z2b 2)) with 2. zsimp. rewrite b2z_z2b_small by lia.
  rewrite (brr_get_BinaryData_parses _ R eq_refl [_; _; _; _] _ Hl). cbn [mbind result_bind app].
  set (pre := z2b 48 :: _ :: _ :: _ :: R).
  change (zlen (pre ++ z2b 2 :: z2b (zlen S) :: S) < two64) in Hl.
  rewrite (brr_get_uint8_t_parses' _ pre _ Hl). cbn [mbind result_bind].
  rewrite (brr_get_uint8_t_parses' _ (pre ++ [z2b 2]) S) by by rewrite <- app_assoc.
  cbn [mbind result_bind]. change (b2z (z2b 2)) with 2. zsimp. rewrite b2z_z2b_small by lia.
  pose proof (brr_get_BinaryData_parses _ S eq_refl ((pre ++ [z2b 2]) ++ [z2b (zlen S)]) []) as E. rewrite app_nil_r in E.
  rewrite E by by rewrite <- !app_assoc. done.
Qed.

Lemma put_number_len b n : zlen n <= zlen (theString_ (put_number b n)) <= zlen n + 1.
Proof.
  unfold put_number. rewrite bw_put_BinaryData_str, zlen_app. pose proof (zlen_nonneg n).
  destruct (_ <? _); [change (zlen (theString_ (bw_put_uint8_t 0 bw_new))) with 1|change (zlen (theString_ bw_new)) with 0]; lia.
Qed.

Lemma der_form rs : zlen rs = 64 ->
  if low_s (be_val (drop 32 rs)) =? 0 then rsToDerSig rs = Err UB
  else exists der, rsToDerSig rs = Ok der /\ extractRSFromDERSig der = Ok (low_rs rs) /\ 7 <= zlen der <= 72.
Proof.
  intros Hrs. unfold rsToDerSig. rewrite Hrs. change (negb (64 =? 64)) with false. cbv iota.
  assert (exists r s, rs = r ++ s /\ zlen r = 32 /\ zlen s = 32) as (r & s & -> & Hr & Hs).
  { exists (take 32 rs), (drop 32 rs). rewrite take_drop. split; [done|]. unfold zlen in *. rewrite length_take, length_drop. lia. }
  assert (getSliceCopy (r ++ s) 0 32 = r) as ->.
  { pose proof (getSliceCopy_app [] r s ltac:(cbn [app]; by rewrite Hrs)) as E. by rewrite Hr in E. }
  assert (getSliceCopy (r ++ s) 32 32 = s) as ->.
  { pose proof (getSliceCopy_app r s [] ltac:(rewrite app_nil_r; by rewrite Hrs)) as E. by rewrite app_nil_r, Hr, Hs in E. }
  destruct (trim_zeros_spec r) as [Ht Er]. set (t := trim_zeros r) in *.
  destruct (at_Ok (r ++ s) t ltac:(lia)) as (r0 & -> & _). cbn [mbind result_bind].
  assert (getSliceCopy (r ++ s) t (32 - t) = drop (Z.to_nat t) r) as ->.
  { set (z := replicate (Z.to_nat t) (z2b 0)) in *. set (d := drop (Z.to_nat t) r) in *.
    assert (zlen z = t) as Hz by (unfold z, zlen; rewrite length_replicate; lia).
    assert (zlen d = 32 - t) as Hd by (rewrite Er, zlen_app in Hr; lia).
    pose proof (getSliceCopy_app z d s) as E. rewrite Hz, Hd, app_assoc, <- Er in E. apply E. by rewrite Hrs. }
  assert (drop 32 (r ++ s) = s) as Ed by (rewrite drop_app_length'; [done|unfold zlen in Hr; lia]).
  assert (take 32 (r ++ s) = r) as Et by (rewrite take_app_length'; [done|unfold zlen in Hr; lia]).
  unfold low_rs. rewrite Ed, Et. destruct (computeLowS_low s Hs) as (n & -> & Hn & Hlow & Hpos).
  assert (zlen (drop (Z.to_nat t) r) <= 32) as Hd by (unfold zlen in *; rewrite length_drop; lia).
  destruct (Z.eqb_spec (low_s (be_val s)) 0) as [E|E].
  - destruct n as [|n]; [done|]. exfalso. apply (proj2 Hpos); [lia|done].
  - destruct (at_Ok (be_bytes n (low_s (be_val s))) 0) as (s0 & -> & _); [rewrite zlen_be_bytes; pose proof (proj1 Hpos E); lia|].
    cbn [mbind result_bind]. pose proof (put_number_len r0 (drop (Z.to_nat t) r)) as HR.
    pose proof (put_number_len s0 (be_bytes n (low_s (be_val s)))) as HS. rewrite zlen_be_bytes in HS.
    pose proof (extract_der (theString_ (put_number r0 (drop (Z.to_nat t) r))) (theString_ (put_number s0 (be_bytes n (low_s (be_val s)))))
      ltac:(lia) ltac:(lia)) as Hx.
    rewrite !force_number in Hx by (rewrite ?zlen_be_bytes; lia). cbn [theString_ bw_new app] in Hx.
    set (R := theString_ (put_number r0 _)) in *. set (S0 := theString_ (put_number s0 _)) in *.
    rewrite !wrap_small by (unfold is_uint; pose proof (zlen_nonneg R); pose proof (zlen_nonneg S0); lia).
    exists (der_bytes R S0). split; [|split].
    + autorewrite with bw. unfold der_bytes. by rewrite <- !app_assoc.
    + rewrite Hx. f_equal. f_equal.
      * rewrite length_drop. replace (32 - (length r - Z.to_nat t))%nat with (Z.to_nat t) by (unfold zlen in *; lia). by symmetry.
      * rewrite length_be_bytes. by rewrite <- be_bytes_pad.
    + unfold der_bytes. rewrite !zlen_app. change (zlen [_; _; _; _]) with 4. change (zlen [_; _]) with 2.
      pose proof (zlen_nonneg (drop (Z.to_nat t) r)). pose proof (proj1 Hpos E). lia.
Qed.

(** C31: the two numbers of a signature, 32 bytes each, come back from its DER
    form, S in its smaller value; the form has from 7 to 72 bytes.  An S that
    is zero or the order itself has no form: its first byte is read from
    nowhere. *)
Theorem der_roundtrip rs : zlen rs = 64 ->
  if low_s (be_val (drop 32 rs)) =? 0 then rsToDerSig rs = Err UB
  else exists der, rsToDerSig rs = Ok der /\ extractRSFromDERSig der = Ok (low_rs rs) /\ 7 <= zlen der <= 72.
Proof. apply der_form. Qed.

Lemma der_roundtrip_witness : exists der, rsToDerSig (replicate 32 (z2b 0) ++ replicate 32 (z2b 255)) = Ok der /\
  extractRSFromDERSig der = Ok (low_rs (replicate 32 (z2b 0) ++ replicate 32 (z2b 255))).
Proof.
  pose proof (der_roundtrip (replicate 32 (z2b 0) ++ replicate 32 (z2b 255)) eq_refl) as Hd.
  assert (low_s (be_val (drop 32 (replicate 32 (z2b 0) ++ replicate 32 (z2b 255)))) =? 0 = false) as Hz by (vm_compute; reflexivity).
  rewrite Hz in Hd. destruct Hd as (der & E1 & E2 & _). by exists der.
Defined.
