(* ===== verification/Resolver.v ===== *)
(** * Resolver: what an input needs to spend an output

    The class [StackResolver] of cppForSwig/Script.h and Script.cpp.  It runs
    the script of an output backwards: an opcode that finds the stack empty
    makes an entry for what the input must bring, the opcodes are noted on the
    entries they would consume, and each entry is then resolved: from the feed
    that knows preimages, by the proxy that signs, or from another entry.
    Entries are behind [shared_ptr]s that several of them hold, so there is a
    store, and a pointer is an index into it. *)

From S2P Require Import Prelude BinaryData BinaryIO StdMap TxLength ScriptParser StackItem Interpreter.

(** The feed of a wallet ([ResolverFeed]) and the proxy that signs for an input
    ([SignerProxy]), with [P] the state of what is behind it. *)
Class ResolverFeed := {
  getByVal : list byte -> result (list byte);
  getPrivKeyForPubkey : list byte -> result (list byte);
}.
Class SignerProxy (P : Type) := proxy_sign : list byte -> list byte -> bool -> P -> P * result (list byte).

(** ** Entries *)

(** An opcode; [roc_ext] has the members of an [ExtendedOpCode]. *)
Record ResOpCode := mkResOpCode { roc_op : OpCode; roc_ext : option (Z * list nat) }.

Inductive StackValue :=
  | StackValue_Static (value_ : list byte)
  | StackValue_Reference (valueReference_ : nat) (value_ : list byte)
  | StackValue_FromFeed (requestString_ value_ : list byte)
  | StackValue_Sig (pubkeyRef_ : nat) (sig_ : list byte)
  | StackValue_Multisig (pubkeyVec_ : list (list byte)) (m_ : Z) (sig_ : stdmap Z (list byte)).

Record ReversedStackEntry := mkEntry {
  static_ : bool;
  staticData_ : list byte;
  parent_ : option nat;
  opcodes_ : list ResOpCode;
  resolvedValue_ : option StackValue;
}.

Definition RSE_new : ReversedStackEntry := mkEntry false [] None [] None.
Definition RSE_data (data : list byte) : ReversedStackEntry := mkEntry true data None [] None.
Definition RSE_dup (parent : nat) : ReversedStackEntry := mkEntry true [] (Some parent) [] None.
Definition add_opcode (oc : ResOpCode) (e : ReversedStackEntry) : ReversedStackEntry :=
  mkEntry (static_ e) (staticData_ e) (parent_ e) (opcodes_ e ++ [oc]) (resolvedValue_ e).
Definition set_resolved (v : StackValue) (e : ReversedStackEntry) : ReversedStackEntry :=
  mkEntry (static_ e) (staticData_ e) (parent_ e) (opcodes_ e) (Some v).

(** ** Results *)

(** [ResolvedStackLegacy]; [ResolvedStackWitness] when there is a witness. *)
Record ResolvedStack := mkResolvedStack {
  rs_isValid : bool;
  rs_isP2SH : bool;
  rs_stack : list StackItem;
  rs_witnessStack : option (list StackItem);
}.

Definition ResolvedStackLegacy_new : ResolvedStack := mkResolvedStack false false [] None.
Definition ResolvedStackWitness_new (stackptr : option ResolvedStack) : ResolvedStack :=
  mkResolvedStack false false (match stackptr with None => [] | Some s => rs_stack s end) (Some []).
Definition stackSize (s : ResolvedStack) : Z := zlen (default (rs_stack s) (rs_witnessStack s)).
Definition setWitnessStack (stack : list StackItem) (s : ResolvedStack) : ResolvedStack :=
  mkResolvedStack (rs_isValid s) (rs_isP2SH s) (rs_stack s) (Some stack).

(** The resolver: [sr_heap] is the store of the entries; the back of the stack
    is the head of its list. *)
Record StackResolver := mkResolver {
  sr_heap : list ReversedStackEntry;
  sr_stack : list nat;
  sr_flags : Z;
  resolvedStack_ : option ResolvedStack;
  opCodeCount_ : Z;
  opHash_ : bool;
  isP2SH_ : bool;
  isSW_ : bool;
  sr_script : list byte;
}.

Definition StackResolver_new (script : list byte) (flags : Z) (isSW : bool) : StackResolver :=
  mkResolver [] [] flags None 0 false false isSW script.

Definition set_heap v s := mkResolver v (sr_stack s) (sr_flags s) (resolvedStack_ s) (opCodeCount_ s) (opHash_ s)
  (isP2SH_ s) (isSW_ s) (sr_script s).
Definition set_entries v s := mkResolver (sr_heap s) v (sr_flags s) (resolvedStack_ s) (opCodeCount_ s) (opHash_ s)
  (isP2SH_ s) (isSW_ s) (sr_script s).
Definition set_resolvedStack v s := mkResolver (sr_heap s) (sr_stack s) (sr_flags s) v (opCodeCount_ s) (opHash_ s)
  (isP2SH_ s) (isSW_ s) (sr_script s).
Definition set_opCodeCount v s := mkResolver (sr_heap s) (sr_stack s) (sr_flags s) (resolvedStack_ s) v (opHash_ s)
  (isP2SH_ s) (isSW_ s) (sr_script s).
Definition set_opHash v s := mkResolver (sr_heap s) (sr_stack s) (sr_flags s) (resolvedStack_ s) (opCodeCount_ s) v
  (isP2SH_ s) (isSW_ s) (sr_script s).
Definition set_isP2SH v s := mkResolver (sr_heap s) (sr_stack s) (sr_flags s) (resolvedStack_ s) (opCodeCount_ s) (opHash_ s)
  v (isSW_ s) (sr_script s).

(** ** The monad: the resolver and what is behind the proxy *)

Definition Resolve (P A : Type) : Type := StackResolver * P -> (StackResolver * P) * result A.

#[export] Instance resolve_ret P : MRet (Resolve P) := fun A a st => (st, Ok a).
#[export] Instance resolve_bind P : MBind (Resolve P) := fun A B f m st =>
  match m st with
  | (st, Ok a) => f a st
  | (st, Err e) => (st, Err e)
  end.

Definition res_throw {P A} (e : exn) : Resolve P A := fun st => (st, Err e).
Definition res_lift {P A} (r : result A) : Resolve P A := fun st => (st, r).
Definition res_get {P A} (f : StackResolver -> A) : Resolve P A := fun st => (st, Ok (f st.1)).
Definition res_modify {P} (f : StackResolver -> StackResolver) : Resolve P () := fun st => ((f st.1, st.2), Ok tt).

(** [catch (exception&)], [catch (runtime_error&)]: the classes that the code
    throws are all of these. *)
Definition res_catch {P} (m : Resolve P ()) : Resolve P () := fun st =>
  match m st with
  | (st, Err e) => if is_exception e then (st, Ok tt) else (st, Err e)
  | r => r
  end.

Section resolver.
Context {P : Type} `{SignerProxy P} `{ResolverFeed}.

(** ** The store *)

Definition res_new (e : ReversedStackEntry) : Resolve P nat :=
  heap ← res_get sr_heap; _ ← res_modify (set_heap (heap ++ [e])); mret (length heap).
Definition res_deref (p : nat) : Resolve P ReversedStackEntry :=
  heap ← res_get sr_heap; match heap !! p with None => res_throw UB | Some e => mret e end.
Definition res_update (p : nat) (f : ReversedStackEntry -> ReversedStackEntry) : Resolve P () :=
  e ← res_deref p; heap ← res_get sr_heap; res_modify (set_heap (<[p := f e]> heap)).

(** ** The run of the script *)

Definition res_push (p : nat) : Resolve P () := stack ← res_get sr_stack; res_modify (set_entries (p :: stack)).

(** [pop_back], [getTopStackEntryPtr]: an empty stack gives a new entry. *)
Definition res_pop_back : Resolve P nat :=
  stack ← res_get sr_stack;
  match stack with
  | p :: stack => _ ← res_modify (set_entries stack); mret p
  | [] => res_new RSE_new
  end.
Definition getTopStackEntryPtr : Resolve P nat :=
  stack ← res_get sr_stack;
  match stack with
  | p :: _ => mret p
  | [] => p ← res_new RSE_new; _ ← res_push p; mret p
  end.

(** [ReversedStackEntry::push_opcode]: to the parent, if there is one; true
    only if the entry itself has got the opcode. *)
Fixpoint push_opcode (fuel : nat) (p : nat) (oc : ResOpCode) : Resolve P bool :=
  match fuel with
  | O => res_throw NoFuel
  | S fuel =>
      e ← res_deref p;
      if static_ e && bool_decide (parent_ e = None) then mret false
      else
        match parent_ e with
        | Some parent => _ ← push_opcode fuel parent oc; mret false
        | None => _ ← res_update p (add_opcode oc); mret true
        end
  end.

(** The entries behind one another are at most those in the store. *)
Definition res_push_opcode (p : nat) (oc : ResOpCode) : Resolve P bool :=
  heap ← res_get sr_heap; push_opcode (S (length heap)) p oc.

Definition pushdata (data : list byte) : Resolve P () := p ← res_new (RSE_data data); res_push p.
Definition res_push_int (i : Z) : Resolve P () := valBD ← res_lift (intToRawBinary i); pushdata valBD.

Definition res_op_dup : Resolve P () := p ← getTopStackEntryPtr; d ← res_new (RSE_dup p); res_push d.

Definition push_op_code (oc : OpCode) : Resolve P () :=
  p ← res_new RSE_new; _ ← res_push_opcode p (mkResOpCode oc None); res_push p.

Definition op_1item (oc : OpCode) : Resolve P () :=
  item1 ← getTopStackEntryPtr; _ ← res_push_opcode item1 (mkResOpCode oc None); res_push_int 1.
Definition op_1item_verify (oc : OpCode) : Resolve P () := _ ← op_1item oc; _ ← res_pop_back; mret tt.

(** Links an item to another, unless it is its copy. *)
Definition link_item (oc : OpCode) (index : Z) (item other : nat) : Resolve P () :=
  e ← res_deref item;
  if bool_decide (parent_ e = Some other) then mret tt
  else
    pushed ← res_push_opcode item (mkResOpCode oc (Some (index, [other])));
    if (pushed : bool) then res_push item else mret tt.

Definition op_2items (oc : OpCode) : Resolve P () :=
  item2 ← res_pop_back;
  item1 ← res_pop_back;
  _ ← link_item oc 1 item1 item2;
  _ ← link_item oc 2 item2 item1;
  res_push_int 1.
Definition op_2items_verify (oc : OpCode) : Resolve P () := _ ← op_2items oc; _ ← res_pop_back; mret tt.

Definition res_switch (oc : OpCode) : Resolve P () :=
  let v := oc_opcode oc in
  if v =? 0 then pushdata []
  else if (v =? 76) || (v =? 77) || (v =? 78) then pushdata (oc_dataRef oc)
  else
    match opcode_at v with
    | Some OP_DUP => res_op_dup
    | Some OP_HASH160 | Some OP_SHA256 => _ ← res_modify (set_opHash true); op_1item_verify oc
    | Some OP_RIPEMD160 | Some OP_HASH256 => op_1item_verify oc
    | Some OP_EQUAL =>
        n ← res_get opCodeCount_;
        opHash ← res_get opHash_;
        _ ← (if (n =? 2) && opHash then res_modify (set_isP2SH true) else mret tt);
        op_2items oc
    | Some OP_CHECKSIG => op_2items oc
    | Some OP_EQUALVERIFY | Some OP_CHECKSIGVERIFY => op_2items_verify oc
    | Some OP_CHECKMULTISIG | Some OP_CHECKMULTISIGVERIFY => push_op_code oc
    | _ => res_throw ScriptError
    end.

Definition res_processOpCode (oc : OpCode) : Resolve P () :=
  let v := oc_opcode oc in
  if (1 <=? v) && (v <=? 75) then pushdata (oc_dataRef oc)
  else if (81 <=? v) && (v <=? 96) then res_push_int (v - 80)
  else
    n ← res_get opCodeCount_;
    _ ← res_modify (set_opCodeCount (wrap 32 (n + 1)));
    res_switch oc.

Fixpoint res_script_loop (fuel : nat) (brr : BinaryRefReader) : Resolve P () :=
  match fuel with
  | O => res_throw NoFuel
  | S fuel =>
      if negb (brr_getSizeRemaining brr =? 0) then
        '(oc, brr) ← res_lift (getNextOpcode brr);
        _ ← res_processOpCode oc;
        res_script_loop fuel brr
      else mret tt
  end.

Definition res_processScript (brr : BinaryRefReader) : Resolve P () := res_script_loop (parse_fuel brr) brr.

(** ** Resolution *)

(** The loop of [resolveReferenceValue]: a chain that is longer than the store
    runs in a cycle. *)
Fixpoint reference_value (fuel : nat) (inPtr currentPtr : nat) : Resolve P (list byte) :=
  match fuel with
  | O => res_throw NoFuel
  | S fuel =>
      let next p := if bool_decide (p = inPtr) then res_throw ScriptError else reference_value fuel inPtr p in
      e ← res_deref currentPtr;
      match parent_ e with
      | Some parent => next parent
      | None =>
          if static_ e then mret (staticData_ e)
          else
            match resolvedValue_ e with
            | None => res_throw UB
            | Some (StackValue_Static value) => mret value
            | Some (StackValue_FromFeed _ value) => mret value
            | Some (StackValue_Reference r _) => next r
            | Some _ => res_throw ScriptError
            end
      end
  end.

Definition resolveReferenceValue (inPtr : nat) : Resolve P (list byte) :=
  heap ← res_get sr_heap; reference_value (S (length heap)) inPtr inPtr.

(** The only item an opcode refers to. *)
Definition reference_of (oc : ResOpCode) : Resolve P nat :=
  match roc_ext oc with
  | None => res_throw UB
  | Some (_, [r]) => mret r
  | Some _ => res_throw ScriptError
  end.

Definition resolve_equal (p : nat) (oc : ResOpCode) : Resolve P () :=
  r ← reference_of oc;
  item ← res_deref p;
  ref ← res_deref r;
  match resolvedValue_ item with
  | None =>
      res_update p (set_resolved
        (if static_ ref then StackValue_Static (staticData_ ref) else StackValue_Reference r []))
  | Some (StackValue_Reference _ value) => res_update p (set_resolved (StackValue_Reference r value))
  | Some (StackValue_FromFeed _ value) =>
      if static_ ref then res_update p (set_resolved (StackValue_FromFeed (staticData_ ref) value))
      else res_throw ScriptError
  | Some _ => res_throw ScriptError
  end.

Definition resolve_hash (p : nat) : Resolve P () :=
  item ← res_deref p;
  res_update p (set_resolved
    match resolvedValue_ item with
    | Some (StackValue_Static value) => StackValue_FromFeed value []
    | _ => StackValue_FromFeed [] []
    end).

Definition resolve_checksig (p : nat) (oc : ResOpCode) : Resolve P () :=
  match roc_ext oc with
  | None => res_throw UB
  | Some (itemIndex, _) =>
      if itemIndex =? 2 then mret tt
      else r ← reference_of oc; res_update p (set_resolved (StackValue_Sig r []))
  end.

(** [getStackItem]: the next item below, which must be static. *)
Definition next_static (iter : list nat) : Resolve P (list byte * list nat) :=
  match iter with
  | [] => res_throw ScriptError
  | p :: iter =>
      item ← res_deref p;
      if negb (static_ item) then res_throw ScriptError else mret (staticData_ item, iter)
  end.

Fixpoint static_keys (n : nat) (iter : list nat) : Resolve P (list (list byte) * list nat) :=
  match n with
  | O => mret ([], iter)
  | S n =>
      '(pubkey, iter) ← next_static iter;
      '(pubKeyVec, iter) ← static_keys n iter;
      mret (pubkey :: pubKeyVec, iter)
  end.

Definition resolve_multisig (p : nat) (iter : list nat) : Resolve P (list nat) :=
  '(n_item, iter) ← next_static iter;
  n_item_val ← res_lift (rawBinaryToInt n_item);
  '(pubKeyVec, iter) ← static_keys (Z.to_nat n_item_val) iter;
  '(m_sig, iter) ← next_static iter;
  m_sig_val ← res_lift (rawBinaryToInt m_sig);
  if n_item_val <? m_sig_val then res_throw ScriptError
  else
    _ ← res_update p (set_resolved (StackValue_Multisig pubKeyVec (wrap 32 m_sig_val) []));
    mret iter.

(** Reverting the opcodes an item went through; those of OP_CHECKMULTISIG take
    items from the iterator. *)
Fixpoint resolve_opcodes (p : nat) (ocs : list ResOpCode) (iter : list nat) : Resolve P (list nat) :=
  match ocs with
  | [] => mret iter
  | oc :: ocs =>
      iter ←
        match opcode_at (oc_opcode (roc_op oc)) with
        | Some OP_EQUAL | Some OP_EQUALVERIFY => _ ← resolve_equal p oc; mret iter
        | Some OP_HASH160 | Some OP_HASH256 | Some OP_RIPEMD160 | Some OP_SHA256 => _ ← resolve_hash p; mret iter
        | Some OP_CHECKSIG | Some OP_CHECKSIGVERIFY => _ ← resolve_checksig p oc; mret iter
        | Some OP_CHECKMULTISIG | Some OP_CHECKMULTISIGVERIFY => resolve_multisig p iter
        | _ => res_throw ScriptError
        end;
      resolve_opcodes p ocs iter
  end.

(** [proxy_->sign]: it may change what is behind the proxy and throw. *)
Definition res_sign (pubkey : list byte) : Resolve P (list byte) := fun st =>
  let '(proxy, r) := proxy_sign (sr_script st.1) pubkey (isSW_ st.1) st.2 in ((st.1, proxy), r).

(** The loop over the keys, in the order of the script: a key that cannot sign
    is left out. *)
Fixpoint sign_keys (keys : list (list byte)) (m keyCount sigCount : Z) (sigs : stdmap Z (list byte))
    : Resolve P (stdmap Z (list byte)) := fun st =>
  match keys with
  | [] => (st, Ok sigs)
  | pubkey :: keys =>
      let keyCount := wrap 32 (keyCount + 1) in
      match res_sign pubkey st with
      | (st, Ok sig) =>
          let sigs := (map_insert keyCount sig sigs).1 in
          let sigCount := wrap 32 (sigCount + 1) in
          if m <=? sigCount then (st, Ok sigs) else sign_keys keys m keyCount sigCount sigs st
      | (st, Err e) => if is_exception e then sign_keys keys m keyCount sigCount sigs st else (st, Err e)
      end
  end.

(** The resolver of another script, with what is behind the same proxy. *)
Variable rec : StackResolver -> P -> P * result ResolvedStack.

Definition res_nested (resolver : StackResolver) : Resolve P ResolvedStack := fun st =>
  let '(proxy, r) := rec resolver st.2 in ((st.1, proxy), r).

(** Fulfilling the resolution of an item. *)
Definition fulfill (p : nat) : Resolve P () :=
  item ← res_deref p;
  match resolvedValue_ item with
  | None => res_throw UB
  | Some (StackValue_Static _) => mret tt
  | Some (StackValue_FromFeed request _) =>
      value ← res_lift (getByVal request);
      _ ← res_update p (set_resolved (StackValue_FromFeed request value));
      isP2SH ← res_get isP2SH_;
      if (isP2SH : bool) then
        flags ← res_get sr_flags;
        isSW ← res_get isSW_;
        stackptr ← res_nested (StackResolver_new value flags isSW);
        res_modify (set_resolvedStack (Some stackptr))
      else mret tt
  | Some (StackValue_Sig r _) =>
      pubkey ← resolveReferenceValue r;
      sig ← res_sign pubkey;
      res_update p (set_resolved (StackValue_Sig r sig))
  | Some (StackValue_Multisig keys m _) =>
      sigs ← sign_keys (rev keys) m 0 0 [];
      res_update p (set_resolved (StackValue_Multisig keys m sigs))
  | Some (StackValue_Reference r _) =>
      value ← resolveReferenceValue r;
      res_update p (set_resolved (StackValue_Reference r value))
  end.

(** The loop over the stack from its back, which counts the static items. *)
Fixpoint resolve_loop (fuel : nat) (iter : list nat) (static_count : Z) : Resolve P Z :=
  match fuel with
  | O => res_throw NoFuel
  | S fuel =>
      match iter with
      | [] => mret static_count
      | p :: iter =>
          item ← res_deref p;
          if static_ item then resolve_loop fuel iter (static_count + 1)
          else
            iter ← resolve_opcodes p (opcodes_ item) iter;
            _ ← fulfill p;
            resolve_loop fuel iter static_count
      end
  end.

(** A witness program: the two items of the stack are its version and hash. *)
Definition resolve_program (version hash : nat) : Resolve P () :=
  first ← res_deref version;
  header ← res_lift (rawBinaryToInt (staticData_ first));
  if header =? 0 then
    second ← res_deref hash;
    swScript ←
      (if zlen (staticData_ second) =? 20 then res_lift (getP2WPKHScript (staticData_ second))
       else if zlen (staticData_ second) =? 32 then
         swScript ← res_lift (getP2WSHScript (staticData_ second));
         _ ← res_modify (set_isP2SH true);
         mret swScript
       else res_throw ScriptError);
    flags ← res_get sr_flags;
    resolved ← res_get resolvedStack_;
    res_catch
      (let newResolvedStack := ResolvedStackWitness_new resolved in
       _ ← res_modify (set_resolvedStack (Some newResolvedStack));
       stackptr ← res_nested (StackResolver_new swScript flags true);
       res_modify (set_resolvedStack (Some (setWitnessStack (rs_stack stackptr) newResolvedStack))))
  else mret tt.

Definition resolveStack : Resolve P () :=
  stack ← res_get sr_stack;
  static_count ← resolve_loop (S (length stack)) stack 0;
  flags ← res_get sr_flags;
  if has_flag flags SCRIPT_VERIFY_SEGWIT && (static_count =? 2) then
    match stack with
    | [hash; version] => resolve_program version hash
    | _ => mret tt
    end
  else mret tt.

(** The items of the result, from the front of the stack; [count] is the next
    id, [valid] whether no signature is missing. *)
Fixpoint collect (stack : list nat) (count : Z) (valid : bool) : Resolve P (list StackItem * bool) :=
  match stack with
  | [] => mret ([], valid)
  | p :: stack =>
      item ← res_deref p;
      if static_ item then collect stack count valid
      else
        let one item := '(items, valid) ← collect stack (wrap 32 (count + 1)) valid; mret (item :: items, valid) in
        match resolvedValue_ item with
        | None => res_throw UB
        | Some (StackValue_Static value) | Some (StackValue_FromFeed _ value) | Some (StackValue_Reference _ value) =>
            one (StackItem_PushData count value)
        | Some (StackValue_Sig _ sig) => one (StackItem_Sig count sig)
        | Some (StackValue_Multisig _ m sigs) =>
            let sigId := wrap 32 (count + 1) in
            '(items, valid) ← collect stack (wrap 32 (sigId + 1)) (if zlen sigs <? m then false else valid);
            mret (StackItem_OpCode count 0 :: StackItem_MultiSig sigId m sigs :: items, valid)
        end
  end.

Definition build_stack : Resolve P ResolvedStack :=
  _ ← (script ← res_get sr_script; res_processScript (brr_setNewData script));
  _ ← resolveStack;
  resolved ← res_get resolvedStack_;
  stack ← res_get sr_stack;
  '(items, isValid) ← collect (rev stack) (match resolved with None => 0 | Some s => stackSize s end) true;
  isP2SH ← res_get isP2SH_;
  let s := default ResolvedStackLegacy_new resolved in
  let s := mkResolvedStack isValid isP2SH (rs_stack s ++ items) (rs_witnessStack s) in
  _ ← res_modify (set_resolvedStack (Some s));
  mret s.
End resolver.

(** [getResolvedStack], which may call itself [depth] times; a valid result is
    kept. *)
Fixpoint getResolvedStack `{SignerProxy P} `{ResolverFeed} (depth : nat) (resolver : StackResolver) (proxy : P)
    : P * result ResolvedStack :=
  match depth with
  | O => (proxy, Err NoFuel)
  | S depth =>
      match resolvedStack_ resolver with
      | Some s =>
          if rs_isValid s then (proxy, Ok s)
          else let '((_, proxy), r) := build_stack (getResolvedStack depth) (resolver, proxy) in (proxy, r)
      | None => let '((_, proxy), r) := build_stack (getResolvedStack depth) (resolver, proxy) in (proxy, r)
      end
  end.
