(* ===== verification/TxFilter.v ===== *)
(** * TxFilter: filters that find transactions by the head of their hash

    The template [TxFilter] of cppForSwig/BlockObj.h and [TxFilterPool] of
    cppForSwig/lmdb_wrapper.h at [TxFilterType = uint32_t], and the database
    operations on pools.  A filter holds the first four bytes of the hash of
    every transaction of a block; a pool holds the filters of a block file.
    Both are searched either as objects or in place, in the bytes of the
    database. *)

From S2P Require Import Prelude BinaryData BinaryIO Hashing StdMap DBUtils BlockHeader HeadersDB.

(** ** [TxFilter<uint32_t>] *)

Definition SIZE_MAX : Z := two64 - 1.

Record TxFilter := mkTxFilter {
  filterVector_ : list Z;
  filterPtr_ : option (list byte);   (** the memory the pointer leads to *)
  blockKey_ : Z;
  tf_len : Z;
  isValid_ : bool;
}.

Definition TxFilter_default : TxFilter := mkTxFilter [] None UINT32_MAX SIZE_MAX false.
Definition TxFilter_new (blockkey len : Z) : TxFilter := mkTxFilter [] None blockkey len true.

(** A read through a [uint32_t*]. *)
Definition u32_at (ptr : list byte) (p : Z) : result Z := le_val <$> raw_read ptr p 4.

Definition checkPtrLen (ptr : list byte) : result bool :=
  size ← u32_at ptr 0;
  if size <? 12 then Err RuntimeError
  else
    len ← u32_at ptr 8;
    if negb (len * 4 + 12 =? size) then Err RuntimeError else Ok true.

(** [TxFilter(ptr)]: the members are initialised in the order of their
    declaration, the check is the last. *)
Definition TxFilter_ptr (ptr : list byte) : result TxFilter :=
  blockKey ← u32_at ptr 4;
  len ← u32_at ptr 8;
  valid ← checkPtrLen ptr;
  Ok (mkTxFilter [] (Some ptr) blockKey len valid).

(** [update(hash)] and [update(hashVec)] *)
Definition tf_update_one (hash : list byte) (f : TxFilter) : result TxFilter :=
  if negb (zlen hash =? 32) then Err RangeError
  else
    head ← u32_at hash 0;
    Ok (mkTxFilter (filterVector_ f ++ [head]) (filterPtr_ f) (blockKey_ f) (tf_len f) (isValid_ f)).

Fixpoint tf_update_loop (hashVec : list (list byte)) (f : TxFilter) : result TxFilter :=
  match hashVec with
  | [] => Ok f
  | hash :: hashVec => f ← tf_update_one hash f; tf_update_loop hashVec f
  end.

Definition tf_update (hashVec : list (list byte)) (f : TxFilter) : result TxFilter :=
  if negb (isValid_ f) then Err RuntimeError else tf_update_loop hashVec f.

(** The two loops of [compare(key)], over the vector and over the pointer. *)
Fixpoint tf_compare_vec (key : Z) (v : list Z) (i : Z) (resultSet : stdmap Z ()) : stdmap Z () :=
  match v with
  | [] => resultSet
  | x :: v => tf_compare_vec key v (i + 1) (if x =? key then set_insert i resultSet else resultSet)
  end.

Fixpoint tf_compare_ptr (key : Z) (ptr : list byte) (n : nat) (i : Z) (resultSet : stdmap Z ())
    : result (stdmap Z ()) :=
  match n with
  | O => Ok resultSet
  | S n =>
      x ← u32_at ptr (12 + 4 * i);
      tf_compare_ptr key ptr n (i + 1) (if x =? key then set_insert i resultSet else resultSet)
  end.

Definition tf_compare_key (key : Z) (f : TxFilter) : result (stdmap Z ()) :=
  match filterVector_ f, filterPtr_ f with
  | _ :: _, _ => Ok (tf_compare_vec key (filterVector_ f) 0 [])
  | [], Some ptr => tf_compare_ptr key ptr (Z.to_nat (tf_len f)) 0 []
  | [], None => Err RuntimeError
  end.

Definition tf_compare (hash : list byte) (f : TxFilter) : result (stdmap Z ()) :=
  key ← u32_at hash 0; tf_compare_key key f.

Definition tf_serialize (f : TxFilter) (bw : BinaryWriter) : result BinaryWriter :=
  if blockKey_ f =? UINT32_MAX then Err RuntimeError
  else
    let n := zlen (filterVector_ f) in
    Ok (bw_put_BinaryData (concat (map (le_bytes 4) (filterVector_ f)))
         (bw_put_uint32_t (wrap 32 n) LE (bw_put_uint32_t (blockKey_ f) LE
           (bw_put_uint32_t (wrap 32 (12 + n * 4)) LE bw)))).

(** [memcpy] of [n] elements. *)
Fixpoint read_u32s (ptr : list byte) (n : nat) (p : Z) : result (list Z) :=
  match n with
  | O => Ok []
  | S n => x ← u32_at ptr p; l ← read_u32s ptr n (p + 4); Ok (x :: l)
  end.

Definition tf_deserialize (ptr : list byte) (f : TxFilter) : result TxFilter :=
  size ← u32_at ptr 0;
  blockKey ← u32_at ptr 4;
  len ← u32_at ptr 8;
  if negb (size =? len * 4 + 12) then Err RuntimeError
  else
    v ← read_u32s ptr (Z.to_nat len) 12;
    Ok (mkTxFilter v (filterPtr_ f) blockKey len true).

(** ** [TxFilterPool<uint32_t>]

    [set<TxFilter>] is ordered by [operator<], which puts higher blocks first;
    a filter of a block that is there is not inserted. *)

Definition tf_less (a b : TxFilter) : bool := blockKey_ b <? blockKey_ a.

Fixpoint filter_insert (f : TxFilter) (s : list TxFilter) : list TxFilter :=
  match s with
  | [] => [f]
  | g :: s' =>
      if tf_less f g then f :: s else if tf_less g f then g :: filter_insert f s' else s
  end.

Fixpoint filter_find (f : TxFilter) (s : list TxFilter) : option TxFilter :=
  match s with
  | [] => None
  | g :: s' => if tf_less f g then None else if tf_less g f then filter_find f s' else Some g
  end.

Record TxFilterPool := mkPool {
  pool_ : list TxFilter;
  poolPtr_ : option (list byte);
  pool_len : Z;
}.

Definition pool_default : TxFilterPool := mkPool [] None SIZE_MAX.
Definition pool_of_set (pool : list TxFilter) : TxFilterPool := mkPool pool None (zlen pool).
Definition pool_of_ptr (ptr : list byte) (len : Z) : TxFilterPool := mkPool [] (Some ptr) len.

Definition pool_update (hashSet : list TxFilter) (p : TxFilterPool) : TxFilterPool :=
  let s := foldl (fun s f => filter_insert f s) (pool_ p) hashSet in
  mkPool s (poolPtr_ p) (zlen s).

Definition pool_isValid (p : TxFilterPool) : bool := negb (pool_len p =? SIZE_MAX).

(** One filter's part of the result of [compare]. *)
Definition add_result (blockKey : Z) (resultSet : stdmap Z ()) (m : stdmap Z (stdmap Z ()))
    : stdmap Z (stdmap Z ()) :=
  match resultSet with [] => m | _ :: _ => (map_insert blockKey resultSet m).1 end.

Fixpoint pool_compare_set (hash : list byte) (s : list TxFilter) (m : stdmap Z (stdmap Z ()))
    : result (stdmap Z (stdmap Z ())) :=
  match s with
  | [] => Ok m
  | f :: s => r ← tf_compare hash f; pool_compare_set hash s (add_result (blockKey_ f) r m)
  end.

Fixpoint pool_compare_ptr (hash ptr : list byte) (len : Z) (n : nat) (pos : Z)
    (m : stdmap Z (stdmap Z ())) : result (stdmap Z (stdmap Z ())) :=
  match n with
  | O => Ok m
  | S n =>
      if len <=? pos then Err RuntimeError
      else
        f ← TxFilter_ptr (drop (Z.to_nat pos) ptr);
        r ← tf_compare hash f;
        filterSize ← u32_at ptr pos;
        pool_compare_ptr hash ptr len n (pos + filterSize) (add_result (blockKey_ f) r m)
  end.

Definition pool_compare (hash : list byte) (p : TxFilterPool) : result (stdmap Z (stdmap Z ())) :=
  if negb (zlen hash =? 32) then Err RuntimeError
  else if negb (pool_isValid p) then Err RuntimeError
  else
    match pool_ p, poolPtr_ p with
    | _ :: _, _ => pool_compare_set hash (pool_ p) []
    | [], Some ptr =>
        size ← u32_at ptr 0; pool_compare_ptr hash ptr (pool_len p) (Z.to_nat size) 4 []
    | [], None => Err RuntimeError
    end.

Fixpoint pool_ptr_loop (ptr : list byte) (len : Z) (n : nat) (pos : Z) : result (list TxFilter) :=
  match n with
  | O => Ok []
  | S n =>
      if len <=? pos then Err RuntimeError
      else
        f ← TxFilter_ptr (drop (Z.to_nat pos) ptr);
        filterSize ← u32_at ptr pos;
        l ← pool_ptr_loop ptr len n (pos + filterSize);
        Ok (f :: l)
  end.

Definition getFilterPoolPtr (p : TxFilterPool) : result (list TxFilter) :=
  match poolPtr_ p with
  | None => Err RuntimeError
  | Some ptr => size ← u32_at ptr 0; pool_ptr_loop ptr (pool_len p) (Z.to_nat size) 4
  end.

Fixpoint pool_serialize_loop (s : list TxFilter) (bw : BinaryWriter) : result BinaryWriter :=
  match s with
  | [] => Ok bw
  | f :: s => bw ← tf_serialize f bw; pool_serialize_loop s bw
  end.

Definition pool_serialize (p : TxFilterPool) (bw : BinaryWriter) : result BinaryWriter :=
  pool_serialize_loop (pool_ p) (bw_put_uint32_t (wrap 32 (pool_len p)) LE bw).

(** [deserialize] is called under a [catch]: the pool as it is left, and the
    outcome. *)
Fixpoint pool_deser_loop (ptr : list byte) (len : Z) (n : nat) (offset : Z) (s : list TxFilter)
    : list TxFilter * result () :=
  match n with
  | O => (s, Ok tt)
  | S n =>
      if len <=? offset then (s, Err RuntimeError)
      else
        match u32_at ptr offset, tf_deserialize (drop (Z.to_nat offset) ptr) TxFilter_default with
        | Ok filtersize, Ok f => pool_deser_loop ptr len n (offset + filtersize) (filter_insert f s)
        | Ok _, Err e => (s, Err e)
        | Err e, _ => (s, Err e)
        end
  end.

Definition pool_deserialize (ptr : list byte) (len : Z) (p : TxFilterPool) : TxFilterPool * result () :=
  if len <? 4 then (p, Err RuntimeError)
  else
    match u32_at ptr 0 with
    | Err e => (p, Err e)
    | Ok n =>
        if n =? 0 then (mkPool (pool_ p) (poolPtr_ p) n, Err RuntimeError)
        else
          let '(s, r) := pool_deser_loop ptr len (Z.to_nat n) 4 (pool_ p) in
          (mkPool s (poolPtr_ p) n, r)
    end.

Definition getFilterById (id : Z) (p : TxFilterPool) : result TxFilter :=
  match filter_find (TxFilter_new id 0) (pool_ p) with
  | None => Err RuntimeError
  | Some f => Ok f
  end.

(** ** The TXFILTERS table of [LMDBBlockDatabase] *)

Section database.
Context {DB : Type} `{Store DB}.

(** What [deserialize] throws is caught, the pool is used as it is. *)
Definition getFilterPoolForFileNum (fileNum : Z) (db : DB) : result TxFilterPool :=
  let val := default [] (db_get db (getFilterPoolKey fileNum)) in
  match pool_deserialize val (zlen val) pool_default with
  | (_, Err UB) => Err UB
  | (pool, _) => Ok pool
  end.

Definition getFilterPoolRefForFileNum (fileNum : Z) (db : DB) : result TxFilterPool :=
  let val := default [] (db_get db (getFilterPoolKey fileNum)) in
  if zlen val =? 0 then Err RuntimeError else Ok (pool_of_ptr val (zlen val)).

Definition putFilterPoolForFileNum (fileNum : Z) (pool : TxFilterPool) (db : DB) : result DB :=
  if negb (pool_isValid pool) then Err RuntimeError
  else
    bw ← pool_serialize pool bw_new;
    Ok (db_insert (getFilterPoolKey fileNum) (theString_ bw) db).
End database.
