(* ===== verification/TxFilterProps.v ===== *)
(** * TxFilterProps: the theorems about transaction filters

    A pool that is stored and read back is the same pool; searching it as an
    object or in place gives the same result, and that result is exactly the
    blocks and positions of the transactions whose hash starts with the same
    four bytes: no transaction is missed. *)

From S2P Require Import Prelude BinaryData BinaryIO Hashing StdMap DBUtils BlockHeader HeadersDB TxFilter.
From S2P Require Import HeadersDBProps.

(** ** The format *)

Definition u32_bytes (v : list Z) : list byte := concat (map (le_bytes 4) v).

Definition tf_bytes (f : TxFilter) : list byte :=
  le_bytes 4 (12 + zlen (filterVector_ f) * 4) ++ le_bytes 4 (blockKey_ f) ++
  le_bytes 4 (zlen (filterVector_ f)) ++ u32_bytes (filterVector_ f).

Definition pool_bytes (s : list TxFilter) : list byte :=
  le_bytes 4 (zlen s) ++ concat (map tf_bytes s).

(** A filter as [computeTxFilter] makes it, for at least one transaction. *)
Record filter_ok (f : TxFilter) : Prop := {
  fo_vector : Forall (is_uint 32) (filterVector_ f);
  fo_nonempty : filterVector_ f ≠ [];
  fo_size : zlen (filterVector_ f) < 2 ^ 29;
  fo_key : 0 <= blockKey_ f < UINT32_MAX;
  fo_ptr : filterPtr_ f = None;
  fo_len : tf_len f = zlen (filterVector_ f);
  fo_valid : isValid_ f = true;
}.

(** A set of filters: higher blocks first, no block twice. *)
Fixpoint filters_ordered (s : list TxFilter) : Prop :=
  match s with
  | [] => True
  | f :: s => Forall (fun g => blockKey_ g < blockKey_ f) s /\ filters_ordered s
  end.

Record pool_ok (s : list TxFilter) : Prop := {
  po_filters : Forall filter_ok s;
  po_ordered : filters_ordered s;
  po_nonempty : s ≠ [];
  po_size : zlen (pool_bytes s) < SIZE_MAX;
  po_count : zlen s < 2 ^ 32;
}.

Lemma zlen_u32_bytes v : zlen (u32_bytes v) = 4 * zlen v.
Proof. unfold u32_bytes. induction v; [done|]. cbn [map concat]. autorewrite with zlen. lia. Qed.

Lemma zlen_tf_bytes f : zlen (tf_bytes f) = 12 + 4 * zlen (filterVector_ f).
Proof. unfold tf_bytes. autorewrite with zlen. rewrite zlen_u32_bytes. lia. Qed.

Lemma u32_at_mid l p v pre post : l = pre ++ le_bytes 4 v ++ post -> p = zlen pre -> is_uint 32 v ->
  u32_at l p = Ok v.
Proof.
  intros Hl Hp Hv. unfold u32_at. rewrite (raw_read_mid pre (le_bytes 4 v) post) by (done || by autorewrite with zlen).
  cbn [fmap result_fmap]. rewrite le_val_le_bytes. change (256 ^ Z.of_nat 4) with (2 ^ 32). by rewrite Z.mod_small.
Qed.

(** The three numbers at the head of a filter. *)
Lemma tf_head f rest : filter_ok f ->
  u32_at (tf_bytes f ++ rest) 0 = Ok (12 + zlen (filterVector_ f) * 4) /\
  u32_at (tf_bytes f ++ rest) 4 = Ok (blockKey_ f) /\
  u32_at (tf_bytes f ++ rest) 8 = Ok (zlen (filterVector_ f)).
Proof.
  intros [_ _ Hs Hk _ _ _]. pose proof (zlen_nonneg (filterVector_ f)). unfold UINT32_MAX in Hk.
  unfold tf_bytes. rewrite <- !app_assoc. split; [|split].
  - apply (u32_at_mid _ _ _ [] _ eq_refl); [done|unfold is_uint; lia].
  - eapply (u32_at_mid _ _ _ (le_bytes 4 _)); [reflexivity|by autorewrite with zlen|unfold is_uint; lia].
  - eapply (u32_at_mid _ _ _ (le_bytes 4 _ ++ le_bytes 4 _)); [by rewrite <- app_assoc|
      by autorewrite with zlen|unfold is_uint; lia].
Qed.

Lemma read_u32s_app v pre post : Forall (is_uint 32) v ->
  read_u32s (pre ++ u32_bytes v ++ post) (length v) (zlen pre) = Ok v.
Proof.
  intros Hv. revert pre. induction Hv as [|x v Hx Hv IH]; intros pre; [done|].
  cbn [length read_u32s]. unfold u32_bytes. cbn [map concat].
  rewrite (u32_at_mid _ _ x pre (concat (map (le_bytes 4) v) ++ post)) by (done || by rewrite <- app_assoc).
  cbn [mbind result_bind]. specialize (IH (pre ++ le_bytes 4 x)).
  autorewrite with zlen in IH. change (Z.of_nat 4) with 4 in IH.
  rewrite <- !app_assoc in *. unfold u32_bytes in IH. by rewrite IH.
Qed.

(** ** Searching one filter *)

(** The positions of a key in a filter. *)
Definition positions (key : Z) (v : list Z) : stdmap Z () := tf_compare_vec key v 0 [].

Lemma set_insert_spec i s : map_ordered s -> map_ordered (set_insert i s) /\
  forall j, j ∈ map_keys (set_insert i s) <-> j = i \/ j ∈ map_keys s.
Proof.
  intros Ho. unfold set_insert. pose proof (map_put_ordered i tt s Ho) as Ho'. split; [done|].
  intros j. rewrite !map_keys_find, map_find_put by done. case_decide; [|tauto].
  split; [by left|by eexists].
Qed.

Lemma tf_compare_vec_spec key v i s : map_ordered s -> map_ordered (tf_compare_vec key v i s) /\
  forall j, j ∈ map_keys (tf_compare_vec key v i s) <->
    j ∈ map_keys s \/ i <= j /\ znth v (j - i) = Some key.
Proof.
  revert i s. induction v as [|x v IH]; intros i s Ho; cbn [tf_compare_vec].
  { split; [done|]. intros j. split; [by left|]. intros [|[? H']]; [done|].
    by rewrite znth_None in H' by (unfold zlen; simpl; lia). }
  destruct (set_insert_spec i s Ho) as [Hso Hsk].
  destruct (IH (i + 1) (if x =? key then set_insert i s else s)) as [Ho' Hk]; [by case_match|].
  split; [done|]. intros j. rewrite Hk. destruct (decide (j = i)) as [->|Hne].
  - rewrite Z.sub_diag, znth_cons_0. destruct (Z.eqb_spec x key) as [->|Hx].
    + rewrite Hsk. split; [intros _; right; split; [lia|done]|intros _; left; by left].
    + split; intros [?|[? ?]]; [by left|lia|by left|congruence].
  - assert (j ∈ map_keys (if x =? key then set_insert i s else s) <-> j ∈ map_keys s) as ->.
    { case_match; [|done]. rewrite Hsk. naive_solver. }
    destruct (decide (i <= j)).
    + rewrite (znth_cons_pos x) by lia. replace (j - i - 1) with (j - (i + 1)) by lia. naive_solver lia.
    + naive_solver lia.
Qed.

Lemma positions_spec key v : map_ordered (positions key v) /\
  forall j, j ∈ map_keys (positions key v) <-> znth v j = Some key.
Proof.
  destruct (tf_compare_vec_spec key v 0 [] I) as [Ho Hk]. split; [done|]. intros j. unfold positions.
  rewrite Hk, Z.sub_0_r. cbn [map_keys map]. rewrite elem_of_nil. split; [by intros [?|[_ ?]]|].
  intros Hj. right. split; [|done]. apply znth_Some_range in Hj. lia.
Qed.

Lemma tf_compare_ptr_spec key v pre post i s : Forall (is_uint 32) v -> zlen pre = 12 + 4 * i ->
  tf_compare_ptr key (pre ++ u32_bytes v ++ post) (length v) i s = Ok (tf_compare_vec key v i s).
Proof.
  intros Hv. revert pre i s. induction Hv as [|x v Hx Hv IH]; intros pre i s Hp; [done|].
  cbn [length tf_compare_ptr tf_compare_vec]. unfold u32_bytes. cbn [map concat].
  rewrite (u32_at_mid _ _ x pre (concat (map (le_bytes 4) v) ++ post)) by (done || by rewrite <- app_assoc).
  cbn [mbind result_bind]. rewrite <- IH with (pre := pre ++ le_bytes 4 x).
  - unfold u32_bytes. by rewrite <- !app_assoc.
  - autorewrite with zlen. lia.
Qed.

(** What a search looks for. *)
Definition hash_head (hash : list byte) : Z := le_val (take 4 hash).

Lemma u32_at_head hash : 4 <= zlen hash -> u32_at hash 0 = Ok (hash_head hash).
Proof.
  intros Hl. unfold u32_at, hash_head. rewrite (raw_read_mid [] (take 4 hash) (drop 4 hash)); [done| |done|].
  - by rewrite app_nil_l, take_drop.
  - unfold zlen in *. rewrite length_take. lia.
Qed.

Lemma hash_head_range hash : is_uint 32 (hash_head hash).
Proof.
  unfold hash_head, is_uint. pose proof (le_val_range (take 4 hash)) as [H0 H1]. split; [done|].
  eapply Z.lt_le_trans; [exact H1|]. change (2 ^ 32) with (256 ^ Z.of_nat 4). apply Z.pow_le_mono_r; [lia|].
  rewrite length_take. lia.
Qed.

Lemma tf_compare_ok hash f : filter_ok f -> 4 <= zlen hash ->
  tf_compare hash f = Ok (positions (hash_head hash) (filterVector_ f)).
Proof.
  intros Hf Hh. unfold tf_compare. rewrite u32_at_head by done. cbn [mbind result_bind].
  unfold tf_compare_key. pose proof (fo_nonempty _ Hf). by destruct (filterVector_ f).
Qed.

Lemma TxFilter_ptr_ok f rest : filter_ok f ->
  TxFilter_ptr (tf_bytes f ++ rest) =
  Ok (mkTxFilter [] (Some (tf_bytes f ++ rest)) (blockKey_ f) (zlen (filterVector_ f)) true).
Proof.
  intros Hf. destruct (tf_head f rest Hf) as (H1 & H2 & H3).
  unfold TxFilter_ptr, checkPtrLen. rewrite H1, H2, H3. cbn [mbind result_bind].
  pose proof (zlen_nonneg (filterVector_ f)).
  replace (12 + zlen (filterVector_ f) * 4 <? 12) with false by lia.
  replace (zlen (filterVector_ f) * 4 + 12 =? 12 + zlen (filterVector_ f) * 4) with true by lia. done.
Qed.

(** A filter searched in place. *)
Lemma tf_compare_ptr_ok hash f rest p : filter_ok f -> 4 <= zlen hash -> 
  tf_compare hash (mkTxFilter [] (Some (tf_bytes f ++ rest)) p (zlen (filterVector_ f)) true) =
  Ok (positions (hash_head hash) (filterVector_ f)).
Proof.
  intros Hf Hh. unfold tf_compare. rewrite u32_at_head by done. cbn [mbind result_bind].
  unfold tf_compare_key. cbn [filterVector_ filterPtr_ tf_len]. unfold tf_bytes.
  rewrite (app_assoc (le_bytes 4 (blockKey_ f))), (app_assoc (le_bytes 4 (12 + _))), <- app_assoc.
  replace (Z.to_nat (zlen (filterVector_ f))) with (length (filterVector_ f)) by (unfold zlen; lia).
  apply tf_compare_ptr_spec; [apply Hf|by autorewrite with zlen].
Qed.

Lemma tf_serialize_ok f bw : filter_ok f -> exists bw', tf_serialize f bw = Ok bw' /\
  theString_ bw' = theString_ bw ++ tf_bytes f.
Proof.
  intros [_ _ Hs Hk _ _ _]. pose proof (zlen_nonneg (filterVector_ f)).
  unfold tf_serialize. replace (blockKey_ f =? UINT32_MAX) with false by lia.
  eexists. split; [done|]. autorewrite with bw. rewrite !wrap_small by (unfold is_uint; lia).
  unfold tf_bytes. by rewrite <- !app_assoc.
Qed.

Lemma tf_deserialize_ok f rest : filter_ok f -> tf_deserialize (tf_bytes f ++ rest) TxFilter_default = Ok f.
Proof.
  intros Hf. destruct (tf_head f rest Hf) as (H1 & H2 & H3).
  unfold tf_deserialize. rewrite H1, H2, H3. cbn [mbind result_bind].
  replace (12 + zlen (filterVector_ f) * 4 =? zlen (filterVector_ f) * 4 + 12) with true by lia. cbn [negb].
  assert (read_u32s (tf_bytes f ++ rest) (Z.to_nat (zlen (filterVector_ f))) 12 = Ok (filterVector_ f)) as ->.
  { replace (Z.to_nat (zlen (filterVector_ f))) with (length (filterVector_ f)) by (unfold zlen; lia).
    pose proof (read_u32s_app (filterVector_ f) (le_bytes 4 (12 + zlen (filterVector_ f) * 4) ++
      le_bytes 4 (blockKey_ f) ++ le_bytes 4 (zlen (filterVector_ f))) rest (fo_vector _ Hf)) as E.
    rewrite <- !app_assoc in E. unfold tf_bytes. rewrite <- !app_assoc. etrans; [|exact E].
    by autorewrite with zlen. }
  cbn [mbind result_bind filterPtr_ TxFilter_default].
  destruct Hf as [_ _ _ _ E1 E2 E3], f; simpl in *; by subst.
Qed.

(** ** Pools *)

Lemma pool_serialize_loop_ok s bw : Forall filter_ok s -> exists bw',
  pool_serialize_loop s bw = Ok bw' /\ theString_ bw' = theString_ bw ++ concat (map tf_bytes s).
Proof.
  intros Hs. revert bw. induction Hs as [|f s Hf Hs IH]; intros bw; cbn [pool_serialize_loop map concat].
  { exists bw. by rewrite app_nil_r. }
  destruct (tf_serialize_ok f bw Hf) as (bw1 & -> & E1). cbn [mbind result_bind].
  destruct (IH bw1) as (bw2 & E & E2). exists bw2. split; [exact E|].
  by rewrite E2, E1, <- app_assoc.
Qed.

Lemma filter_insert_last f s : Forall (fun g => blockKey_ f < blockKey_ g) s ->
  filter_insert f s = s ++ [f].
Proof.
  induction 1 as [|g s Hg Hs IH]; [done|]. cbn [filter_insert app]. unfold tf_less.
  replace (blockKey_ g <? blockKey_ f) with false by lia. replace (blockKey_ f <? blockKey_ g) with true by lia.
  by rewrite IH.
Qed.

(** The size of a filter, read in the middle of a pool, and where the next one starts. *)
Lemma filter_size_at f pre rest : filter_ok f ->
  u32_at (pre ++ tf_bytes f ++ rest) (zlen pre) = Ok (zlen (tf_bytes f)).
Proof.
  intros Hf. pose proof (fo_size _ Hf). pose proof (zlen_nonneg (filterVector_ f)).
  rewrite zlen_tf_bytes. unfold tf_bytes. rewrite <- !app_assoc.
  eapply u32_at_mid; [|done|unfold is_uint; lia]. do 3 f_equal. lia.
Qed.

Lemma drop_zlen {A} (pre post : list A) : drop (Z.to_nat (zlen pre)) (pre ++ post) = post.
Proof. unfold zlen. by rewrite Nat2Z.id, drop_app_length. Qed.

(** The loops over the bytes of a pool, from a filter on. *)
Lemma pool_deser_loop_ok s pre acc : Forall filter_ok s -> filters_ordered s ->
  Forall (fun g => Forall (fun f => blockKey_ f < blockKey_ g) s) acc ->
  pool_deser_loop (pre ++ concat (map tf_bytes s)) (zlen (pre ++ concat (map tf_bytes s))) (length s)
    (zlen pre) acc = (acc ++ s, Ok tt).
Proof.
  intros Hs. revert pre acc. induction Hs as [|f s Hf Hs IH]; intros pre acc Ho Ha.
  { cbn [length pool_deser_loop]. by rewrite app_nil_r. }
  cbn [length pool_deser_loop map concat]. pose proof (zlen_tf_bytes f) as Hz.
  pose proof (zlen_nonneg (filterVector_ f)). pose proof (zlen_nonneg (concat (map tf_bytes s))).
  replace (zlen (pre ++ tf_bytes f ++ concat (map tf_bytes s)) <=? zlen pre) with false
    by (autorewrite with zlen; lia).
  rewrite filter_size_at, drop_zlen, tf_deserialize_ok by done. destruct Ho as [Hlow Ho].
  rewrite filter_insert_last.
  2:{ eapply Forall_impl; [exact Ha|]. intros g Hg. by inversion Hg. }
  assert (zlen pre + zlen (tf_bytes f) = zlen (pre ++ tf_bytes f)) as -> by by rewrite zlen_app.
  rewrite (app_assoc pre), IH; [by rewrite <- app_assoc|done|].
  apply Forall_app. split; [|by repeat constructor].
  eapply Forall_impl; [exact Ha|]. intros g Hg. by inversion Hg.
Qed.

(** The result of a search: what each filter adds, from the highest block on. *)
Definition search (key : Z) (s : list TxFilter) (m : stdmap Z (stdmap Z ())) : stdmap Z (stdmap Z ()) :=
  foldl (fun m f => add_result (blockKey_ f) (positions key (filterVector_ f)) m) m s.

Lemma pool_compare_set_ok hash s m : Forall filter_ok s -> 4 <= zlen hash ->
  pool_compare_set hash s m = Ok (search (hash_head hash) s m).
Proof.
  intros Hs Hh. revert m. induction Hs as [|f s Hf Hs IH]; intros m; [done|].
  cbn [pool_compare_set]. rewrite tf_compare_ok by done. cbn [mbind result_bind]. by rewrite IH.
Qed.

Lemma pool_compare_ptr_ok hash s pre m : Forall filter_ok s -> 4 <= zlen hash ->
  pool_compare_ptr hash (pre ++ concat (map tf_bytes s)) (zlen (pre ++ concat (map tf_bytes s)))
    (length s) (zlen pre) m = Ok (search (hash_head hash) s m).
Proof.
  intros Hs Hh. revert pre m. induction Hs as [|f s Hf Hs IH]; intros pre m; [done|].
  cbn [length pool_compare_ptr map concat]. pose proof (zlen_tf_bytes f) as Hz.
  pose proof (zlen_nonneg (filterVector_ f)). pose proof (zlen_nonneg (concat (map tf_bytes s))).
  replace (zlen (pre ++ tf_bytes f ++ concat (map tf_bytes s)) <=? zlen pre) with false
    by (autorewrite with zlen; lia).
  rewrite drop_zlen, TxFilter_ptr_ok by done. cbn [mbind result_bind].
  rewrite tf_compare_ptr_ok, filter_size_at by done. cbn [mbind result_bind blockKey_].
  assert (zlen pre + zlen (tf_bytes f) = zlen (pre ++ tf_bytes f)) as -> by by rewrite zlen_app.
  by rewrite (app_assoc pre), IH.
Qed.

Lemma add_result_spec k r m : map_ordered m -> map_find k m = None ->
  map_ordered (add_result k r m) /\
  forall j, map_find j (add_result k r m) =
    if decide (j = k) then (if bool_decide (r = []) then None else Some r) else map_find j m.
Proof.
  intros Ho Hk. unfold add_result, map_insert. rewrite Hk. destruct r as [|x r].
  - split; [done|]. intros j. case_decide; [by subst|done].
  - cbn [fst]. split; [by apply map_put_ordered|]. intros j.
    rewrite map_find_put, bool_decide_false by done. done.
Qed.

(** The result has, for every block of the pool, its positions when there are any. *)
Lemma search_spec key s m : filters_ordered s -> map_ordered m ->
  Forall (fun f => map_find (blockKey_ f) m = None) s ->
  map_ordered (search key s m) /\
  forall k r, map_find k (search key s m) = Some r <-> map_find k m = Some r \/
    exists f, f ∈ s /\ blockKey_ f = k /\ positions key (filterVector_ f) = r /\ r ≠ [].
Proof.
  revert m. induction s as [|f s IH]; intros m Hs Ho Hm.
  { split; [done|]. intros k r. split; [by left|]. intros [?|(f & ?%elem_of_nil & _)]; done. }
  destruct Hs as [Hlow Hs]. inversion Hm as [|?? Hf Hm']; subst.
  destruct (add_result_spec (blockKey_ f) (positions key (filterVector_ f)) m Ho Hf) as [Ho' Hfind].
  destruct (IH (add_result (blockKey_ f) (positions key (filterVector_ f)) m) Hs Ho') as [Hr Hk].
  { rewrite Forall_forall in *. intros g Hg. rewrite Hfind. specialize (Hlow g Hg). simpl in Hlow.
    rewrite decide_False by lia. by apply Hm'. }
  split; [exact Hr|]. intros k r. unfold search in *. cbn [foldl]. rewrite Hk, Hfind.
  setoid_rewrite elem_of_cons. case_decide as E; [subst k|].
  - case_bool_decide as En; split.
    + intros [?|(g & ? & ?)]; [done|]. right. exists g. naive_solver.
    + intros [?|(g & [->|Hg] & Eg & Er & Hne)]; [congruence|congruence|]. right. by exists g.
    + intros [[= <-]|(g & ? & ?)]; right; [exists f; naive_solver|exists g; naive_solver].
    + intros [?|(g & [->|Hg] & Eg & Er & Hne)]; [congruence|left; by rewrite Er|].
      rewrite Forall_forall in Hlow. specialize (Hlow g Hg). simpl in Hlow. lia.
  - naive_solver.
Qed.

Lemma pool_valid s p : zlen s < 2 ^ 32 -> pool_isValid (mkPool s p (zlen s)) = true.
Proof. intros. unfold pool_isValid, SIZE_MAX, two64. cbn [pool_len]. by replace (_ =? _) with false by lia. Qed.

Lemma pool_count s : zlen s < 2 ^ 32 -> u32_at (pool_bytes s) 0 = Ok (zlen s).
Proof.
  intros Hs. pose proof (zlen_nonneg s).
  apply (u32_at_mid _ _ _ [] (concat (map tf_bytes s))); [done|done|unfold is_uint; lia].
Qed.

(** *** Pools in the database *)

Section database.
Context {DB : Type} `{StoreLaws DB}.

Lemma put_pool fileNum s p (db : DB) : Forall filter_ok s -> zlen s < 2 ^ 32 ->
  putFilterPoolForFileNum fileNum (mkPool s p (zlen s)) db =
  Ok (db_insert (getFilterPoolKey fileNum) (pool_bytes s) db).
Proof.
  intros Hs Hc. unfold putFilterPoolForFileNum, pool_serialize.
  rewrite pool_valid by done. cbn [negb pool_ pool_len].
  destruct (pool_serialize_loop_ok s (bw_put_uint32_t (wrap 32 (zlen s)) LE bw_new) Hs) as (bw & -> & E).
  cbn [mbind result_bind]. pose proof (zlen_nonneg s). rewrite E. autorewrite with bw.
  by rewrite wrap_small by (unfold is_uint; lia).
Qed.

Lemma pool_bytes_4 s : 4 <= zlen (pool_bytes s).
Proof. unfold pool_bytes. autorewrite with zlen. pose proof (zlen_nonneg (concat (map tf_bytes s))). lia. Qed.

Lemma get_pool fileNum s (db : DB) : pool_ok s -> db_get db (getFilterPoolKey fileNum) = Some (pool_bytes s) ->
  getFilterPoolForFileNum fileNum db = Ok (pool_of_set s).
Proof.
  intros [Hs Ho Hne Hz Hc] E. unfold getFilterPoolForFileNum. rewrite E. cbn [default from_option id].
  unfold pool_deserialize. pose proof (pool_bytes_4 s) as H4.
  replace (zlen (pool_bytes s) <? 4) with false by lia. rewrite pool_count by done.
  assert (1 <= zlen s) as Hpos by (destruct s; [done|autorewrite with zlen; pose proof (zlen_nonneg s); lia]).
  replace (zlen s =? 0) with false by lia.
  pose proof (pool_deser_loop_ok s (le_bytes 4 (zlen s)) [] Hs Ho ltac:(constructor)) as Hl.
  autorewrite with zlen in Hl. unfold pool_bytes. autorewrite with zlen.
  replace (Z.to_nat (zlen s)) with (length s) by (unfold zlen; lia).
  change (Z.of_nat 4) with 4 in *. cbn [pool_default pool_ poolPtr_]. by rewrite Hl.
Qed.

Lemma get_pool_ref fileNum s (db : DB) : db_get db (getFilterPoolKey fileNum) = Some (pool_bytes s) ->
  getFilterPoolRefForFileNum fileNum db = Ok (pool_of_ptr (pool_bytes s) (zlen (pool_bytes s))).
Proof.
  intros E. unfold getFilterPoolRefForFileNum. rewrite E. cbn [default from_option id].
  pose proof (pool_bytes_4 s). by replace (zlen (pool_bytes s) =? 0) with false by lia.
Qed.
End database.

(** *** Searching a pool *)

Lemma pool_compare_in_place s hash : pool_ok s -> zlen hash = 32 ->
  pool_compare hash (pool_of_ptr (pool_bytes s) (zlen (pool_bytes s))) = Ok (search (hash_head hash) s []).
Proof.
  intros [Hs Ho Hne Hz Hc] Hh. pose proof (zlen_nonneg s).
  unfold pool_compare, pool_of_ptr. rewrite Hh. unfold pool_isValid, SIZE_MAX. cbn [pool_len pool_ poolPtr_].
  unfold SIZE_MAX in Hz. replace (zlen (pool_bytes s) =? two64 - 1) with false by lia.
  rewrite pool_count by done. cbn [mbind result_bind].
  replace (Z.to_nat (zlen s)) with (length s) by (unfold zlen; lia).
  apply (pool_compare_ptr_ok hash s (le_bytes 4 (zlen s))); [done|lia].
Qed.

(** The transactions [search] finds. *)
Lemma search_found key s k i : filters_ordered s ->
  (exists r, map_find k (search key s []) = Some r /\ i ∈ map_keys r) <->
  exists f, f ∈ s /\ blockKey_ f = k /\ znth (filterVector_ f) i = Some key.
Proof.
  intros Ho. destruct (search_spec key s [] Ho I) as [_ Hk]; [by apply Forall_true|].
  setoid_rewrite Hk. split.
  - intros (r & [?|(f & Hf & Ek & Er & _)] & Hi); [done|]. exists f. subst r.
    by apply positions_spec in Hi.
  - intros (f & Hf & Ek & Hi%positions_spec). exists (positions key (filterVector_ f)).
    split; [|done]. right. exists f. repeat split; try done. intros E. rewrite E in Hi.
    by apply elem_of_nil in Hi.
Qed.

(** ** Properties *)

Section properties.
Context {DB : Type} `{StoreLaws DB}.

(** A pool put in the database is found again: as an object it is the same
    set of filters, and the reference to it is its bytes. *)
Theorem TxFilterPool_roundtrip (fileNum : Z) (s : list TxFilter) (db : DB) : pool_ok s ->
  exists db', putFilterPoolForFileNum fileNum (pool_of_set s) db = Ok db' /\
    getFilterPoolForFileNum fileNum db' = Ok (pool_of_set s) /\
    getFilterPoolRefForFileNum fileNum db' = Ok (pool_of_ptr (pool_bytes s) (zlen (pool_bytes s))).
Proof.
  intros Hs. eexists. split; [apply put_pool; apply Hs|].
  split; [apply get_pool; [done|]|apply get_pool_ref]; by rewrite db_get_insert, decide_True.
Qed.

(** C17: searching a pool as an object and in place, in the bytes of the
    database, gives the same result: the blocks and positions whose hash has
    the first four bytes of the given one, all of them and no others. *)
Theorem TxFilterPool_compare_correct (s : list TxFilter) (hash : list byte) : pool_ok s -> zlen hash = 32 ->
  exists m, pool_compare hash (pool_of_set s) = Ok m /\
    pool_compare hash (pool_of_ptr (pool_bytes s) (zlen (pool_bytes s))) = Ok m /\
    forall k i, (exists r, map_find k m = Some r /\ i ∈ map_keys r) <->
      exists f, f ∈ s /\ blockKey_ f = k /\ znth (filterVector_ f) i = Some (hash_head hash).
Proof.
  intros Hs Hh. exists (search (hash_head hash) s []).
  split; [|split; [by apply pool_compare_in_place|intros; apply search_found, Hs]].
  destruct Hs as [Hs Ho Hne Hz Hc]. unfold pool_compare, pool_of_set.
  rewrite Hh, pool_valid by done. cbn [Z.eqb negb pool_ poolPtr_].
  rewrite pool_compare_set_ok by (done || lia). by destruct s.
Qed.
End properties.

(** *** Witnesses: a pool of two filters *)

Definition w_filter (id : Z) (v : list Z) : TxFilter := mkTxFilter v None id (zlen v) true.
Definition w_pool : list TxFilter := [w_filter 9 [7; 1; 7]; w_filter 4 [1]].

Lemma w_pool_ok : pool_ok w_pool.
Proof.
  assert (forall id v, 0 <= id < 10 -> forallb (fun x => (0 <=? x) && (x <? 10)) v = true -> v ≠ [] -> zlen v < 5 ->
    filter_ok (w_filter id v)) as Hf.
  { intros id v Hid Hv Hne Hl. rewrite forallb_forall in Hv. split; cbn; try done.
    - apply Forall_forall. intros x Hx%list_elem_of_In%Hv. unfold is_uint. lia.
    - lia.
    - unfold UINT32_MAX. lia. }
  split; [|split; [repeat constructor|done]|done|vm_compute; reflexivity|vm_compute; reflexivity].
  constructor; [apply Hf; done|]. constructor; [apply Hf; done|constructor].
Qed.

Lemma TxFilterPool_roundtrip_witness : exists db',
  putFilterPoolForFileNum 3 (pool_of_set w_pool) ([] : AssocDB) = Ok db' /\
  getFilterPoolForFileNum 3 db' = Ok (pool_of_set w_pool) /\
  getFilterPoolRefForFileNum 3 db' = Ok (pool_of_ptr (pool_bytes w_pool) (zlen (pool_bytes w_pool))).
Proof. exact (TxFilterPool_roundtrip 3 w_pool ([] : AssocDB) w_pool_ok). Defined.

(** A hash that begins with the bytes 7, 0, 0, 0. *)
Lemma TxFilterPool_compare_correct_witness : exists m,
  pool_compare (le_bytes 32 7) (pool_of_set w_pool) = Ok m /\
  pool_compare (le_bytes 32 7) (pool_of_ptr (pool_bytes w_pool) (zlen (pool_bytes w_pool))) = Ok m /\
  exists r, map_find 9 m = Some r /\ 2 ∈ map_keys r.
Proof.
  destruct (TxFilterPool_compare_correct w_pool (le_bytes 32 7) w_pool_ok (zlen_le_bytes 32 7))
    as (m & H1 & H2 & Hm).
  exists m. do 2 (split; [assumption|]). apply Hm. exists (w_filter 9 [7; 1; 7]).
  split; [left|]. split; reflexivity.
Defined.
