(* ===== verification/BlockData.v ===== *)
(** * BlockData: transactions and blocks in the bytes of a block file

    [BCTX] and [BlockData] of cppForSwig/BlockDataMap.h and BlockDataMap.cpp:
    where the parts of a transaction are, its hash, and a block read from its
    bytes with the check of its merkle root.  A pointer is the memory it leads
    to, which may go on behind the block: a read behind the end of that memory
    is undefined. *)

From S2P Require Import Prelude BinaryData BinaryIO Hashing StdMap Merkle DBUtils BlockHeader.
From S2P Require Import TxLength TxFilter Blockchain.

Section block_data.
Context `{HashFns}.

(** ** [BCTX] *)

Record BCTX := mkBCTX {
  bctx_data : list byte;
  bctx_size : Z;
  version_ : Z;
  lockTime_ : Z;
  usesWitness_ : bool;
  txins_ : list (Z * Z);
  txouts_ : list (Z * Z);
  witnesses_ : list (Z * Z);
  txHash_ : list byte;
  isCoinbase_ : bool;
}.

Definition set_txHash (hash : list byte) (tx : BCTX) : BCTX :=
  mkBCTX (bctx_data tx) (bctx_size tx) (version_ tx) (lockTime_ tx) (usesWitness_ tx) (txins_ tx)
    (txouts_ tx) (witnesses_ tx) hash (isCoinbase_ tx).

(** The bytes that are hashed: without marker, flag and witnesses. *)
Definition hashed_data (tx : BCTX) : result (list byte) :=
  if usesWitness_ tx then
    version ← raw_read (bctx_data tx) 0 4;
    '(off, sz) ← (match last (txouts_ tx) with Some o => Ok o | None => Err UB end);
    let witnessOffset := wrap 64 (off + sz) in
    txinout ← raw_read (bctx_data tx) 6 (wrap 64 (witnessOffset - 6));
    locktime ← raw_read (bctx_data tx) (wrap 64 (bctx_size tx - 4)) 4;
    Ok (append (append (append [] version) txinout) locktime)
  else raw_read (bctx_data tx) 0 (bctx_size tx).

(** [getHash] computes [txHash_] once; [moveHash] leaves it empty. *)
Definition bctx_getHash (tx : BCTX) : result BCTX :=
  if zlen (txHash_ tx) =? 0 then d ← hashed_data tx; Ok (set_txHash (getHash256 d) tx)
  else Ok tx.

Definition bctx_moveHash (tx : BCTX) : result (list byte * BCTX) :=
  tx ← bctx_getHash tx; Ok (txHash_ tx, set_txHash [] tx).

(** References to an input and an output: offset and size. *)
Definition getTxInRef (inputId : Z) (tx : BCTX) : result (Z * Z) :=
  match znth (txins_ tx) inputId with Some r => Ok r | None => Err RangeError end.
Definition getTxOutRef (outputId : Z) (tx : BCTX) : result (Z * Z) :=
  match znth (txouts_ tx) outputId with Some r => Ok r | None => Err RangeError end.

(** Offsets to pairs of offset and size. *)
Fixpoint off_sizes (offsets : list Z) : list (Z * Z) :=
  match offsets with
  | a :: (b :: _) as tail => (a, wrap 64 (b - a)) :: off_sizes tail
  | _ => []
  end.

(** [parse(data, len, id)]. *)
Definition bctx_parse (data : list byte) (len id : Z) : result BCTX :=
  '(txlen, offs) ← TxCalcLength (take (Z.to_nat len) data);
  version ← u32_at data 0;
  marker ← raw_read data 4 2;
  let usesWitness := le_val marker =? 0x0100 in
  lockTime ← (match last (offsetsWitness offs) with Some o => u32_at data o | None => Err UB end);
  let tx := mkBCTX data txlen version lockTime usesWitness (off_sizes (offsetsIn offs))
              (off_sizes (offsetsOut offs))
              (if usesWitness then off_sizes (offsetsWitness offs) else []) [] false in
  isCoinbase ←
    (if negb (id =? UINT32_MAX) then Ok (id =? 0)
     else if zlen (txins_ tx) =? 1 then
       '(off, sz) ← getTxInRef 0 tx;
       txin ← raw_read data off sz;
       Ok (equal (getSliceCopy txin 0 32) EmptyHash)
     else Ok false);
  Ok (mkBCTX (bctx_data tx) (bctx_size tx) (version_ tx) (lockTime_ tx) (usesWitness_ tx) (txins_ tx)
        (txouts_ tx) (witnesses_ tx) (txHash_ tx) isCoinbase).

(** ** [BlockData] *)

Record BlockData := mkBlockData {
  headerPtr_ : option BlockHeader;
  bd_data : option (list byte);
  bd_size : Z;
  txns_ : list BCTX;
  fileID_ : Z;
  offset_ : Z;
  blockHash_ : list byte;
  txFilter_ : TxFilter;
  bd_uniqueID : Z;
}.

Definition BlockData_new : BlockData :=
  mkBlockData None None SIZE_MAX [] UINT32_MAX SIZE_MAX [] TxFilter_default UINT32_MAX.

Definition bd_isInitialized (bd : BlockData) : bool := bool_decide (bd_data bd ≠ None).

Definition setFileID (fileid : Z) (bd : BlockData) : BlockData :=
  mkBlockData (headerPtr_ bd) (bd_data bd) (bd_size bd) (txns_ bd) fileid (offset_ bd) (blockHash_ bd)
    (txFilter_ bd) (bd_uniqueID bd).
Definition setOffset (offset : Z) (bd : BlockData) : BlockData :=
  mkBlockData (headerPtr_ bd) (bd_data bd) (bd_size bd) (txns_ bd) (fileID_ bd) offset (blockHash_ bd)
    (txFilter_ bd) (bd_uniqueID bd).

Definition computeTxFilter (uniqueID : Z) (allHashes : list (list byte)) : result TxFilter :=
  tf_update allHashes (TxFilter_new uniqueID (zlen allHashes)).

(** The loop over the transactions, [brr] on the bytes behind the header. *)
Fixpoint deser_txs (n : nat) (data : list byte) (brr : BinaryRefReader) : result (list BCTX) :=
  match n with
  | O => Ok []
  | S n =>
      tx ← bctx_parse (drop (Z.to_nat (HEADER_SIZE + pos_ brr)) data) (brr_getSizeRemaining brr) UINT32_MAX;
      txns ← deser_txs n data (brr_advance (bctx_size tx) brr);
      Ok (tx :: txns)
  end.

(** The loop that collects the hashes. *)
Fixpoint hash_txs (keepHashes : bool) (txns : list BCTX) : result (list (list byte) * list BCTX) :=
  match txns with
  | [] => Ok ([], [])
  | txn :: txns =>
      '(hash, txn) ← (if keepHashes then txn ← bctx_getHash txn; Ok (txHash_ txn, txn)
                      else bctx_moveHash txn);
      '(hashes, txns) ← hash_txs keepHashes txns;
      Ok (hash :: hashes, txn :: txns)
  end.

(** [deserialize]; [data] has at least [size] bytes.  Before the call of
    [getID] nothing outside the block changes. *)
Definition deserialize (data : list byte) (size : Z) (blockHeader : option BlockHeader)
    (getID : list byte -> Chain Z) (checkMerkle keepHashes : bool) (bd : BlockData) : Chain BlockData :=
  if size <? HEADER_SIZE then chain_throw BlockDeserializing
  else
    bh ← chain_of (bh_unserialize (take (Z.to_nat HEADER_SIZE) data) BlockHeader_default);
    let brr := brr_setNewData (take (Z.to_nat (size - HEADER_SIZE)) (drop (Z.to_nat HEADER_SIZE) data)) in
    '(vi, brr) ← chain_of (brr_get_var_int brr);
    let numTx := wrap 32 vi in
    _ ← (match blockHeader with
         | None => mret tt
         | Some h =>
             if negb (equal (thisHash_ bh) (thisHash_ h)) then chain_throw BlockDeserializing
             else if negb (numTx =? numTx_ h) then chain_throw BlockDeserializing
             else mret tt
         end);
    txns ← chain_of (deser_txs (Z.to_nat numTx) data brr);
    let txns := txns_ bd ++ txns in
    if negb checkMerkle then
      mret (mkBlockData blockHeader (Some data) size txns (fileID_ bd) (offset_ bd) (thisHash_ bh)
              (txFilter_ bd) (bd_uniqueID bd))
    else
      '(allhashes, txns) ← chain_of (hash_txs keepHashes txns);
      merkleroot ← chain_of (calculateMerkleRoot allhashes);
      root ← chain_of (bh_getMerkleRoot bh);
      if negb (equal merkleroot root) then chain_throw BlockDeserializing
      else
        id ← getID (thisHash_ bh);
        filter ← chain_of (computeTxFilter id allhashes);
        mret (mkBlockData blockHeader (Some data) size txns (fileID_ bd) (offset_ bd) (thisHash_ bh)
                filter id).

(** [createBlockHeader]: the header the block was read with, or a new one. *)
Definition bd_createBlockHeader (bd : BlockData) : result BlockHeader :=
  match headerPtr_ bd with
  | Some h => Ok h
  | None =>
      match bd_data bd with
      | None => Err UB
      | Some data =>
          createBlockHeader data (bd_size bd) (zlen (txns_ bd)) (fileID_ bd) (offset_ bd) (blockHash_ bd)
            (bd_uniqueID bd)
      end
  end.
End block_data.
