(* ===== verification/BlockDataProps.v ===== *)
(** * BlockDataProps: the theorems about parsing transactions and blocks

    [BCTX::parse] of a serialised transaction refers to its inputs, outputs and
    witnesses and hashes to its id, which does not depend on witnesses;
    [BlockData::deserialize] accepts a serialised block exactly when its merkle
    root is the one of its transactions' ids. *)

From S2P Require Import Prelude BinaryData BinaryIO Hashing StdMap Merkle DBUtils BlockHeader.
From S2P Require Import TxLength TxFilter TxFilterProps Blockchain BlockData.

(** ** References into a buffer *)

Lemma offsets_cons p x items : offsets p (x :: items) = p :: offsets (p + zlen x) items.
Proof. done. Qed.

Lemma offsets_last p items : last (offsets p items) = Some (p + zlen (concat items)).
Proof.
  revert p. induction items as [|x items IH]; intros p; cbn [concat]; [by rewrite zlen_nil, Z.add_0_r|].
  rewrite offsets_cons, zlen_app, Z.add_assoc, <- IH. by destruct items.
Qed.

Lemma off_sizes_offsets p x items : 0 <= p -> p + zlen x < two64 ->
  off_sizes (offsets p (x :: items)) = (p, zlen x) :: off_sizes (offsets (p + zlen x) items).
Proof.
  intros Hp Hl. pose proof (zlen_nonneg x). rewrite offsets_cons.
  assert (exists b l, offsets (p + zlen x) items = (p + zlen x) :: l /\ b = p + zlen x) as (? & l & -> & _)
    by (destruct items; by eexists _, _).
  cbn [off_sizes]. do 2 f_equal. rewrite wrap_small by (unfold is_uint, two64 in *; lia). lia.
Qed.

Lemma off_sizes_length p items : length (off_sizes (offsets p items)) = length items.
Proof.
  revert p. induction items as [|x items IH]; intros p; [done|]. rewrite offsets_cons.
  specialize (IH (p + zlen x)). destruct items; cbn [offsets off_sizes length] in *; [done|]. lia.
Qed.

(** Reference [i] reads item [i]. *)
Lemma off_sizes_items pre items post i x : zlen (pre ++ concat items ++ post) < two64 ->
  items !! i = Some x -> exists o, off_sizes (offsets (zlen pre) items) !! i = Some (o, zlen x) /\
    raw_read (pre ++ concat items ++ post) o (zlen x) = Ok x.
Proof.
  revert pre i. induction items as [|y items IH]; intros pre i Hl Hi; [done|].
  assert (zlen pre + zlen y < two64) as Hy.
  { cbn [concat] in Hl. rewrite !zlen_app in Hl. pose proof (zlen_nonneg (concat items)).
    pose proof (zlen_nonneg post). lia. }
  rewrite off_sizes_offsets by (done || apply zlen_nonneg).
  destruct i as [|i]; cbn [lookup list_lookup concat] in *.
  - injection Hi as ->. exists (zlen pre). split; [done|]. rewrite <- !app_assoc. apply raw_read_app.
  - rewrite <- zlen_app. rewrite <- app_assoc, app_assoc in *. by apply IH.
Qed.

Lemma off_sizes_last p items : 0 <= p -> p + zlen (concat items) < two64 -> items ≠ [] ->
  exists o s, last (off_sizes (offsets p items)) = Some (o, s) /\ o + s = p + zlen (concat items).
Proof.
  revert p. induction items as [|x items IH]; intros p Hp Hl Hne; [done|].
  cbn [concat] in *. rewrite zlen_app in *. pose proof (zlen_nonneg x). pose proof (zlen_nonneg (concat items)).
  rewrite off_sizes_offsets by lia. destruct items as [|y items].
  - exists p, (zlen x). cbn. rewrite zlen_nil. split; [done|lia].
  - destruct (IH (p + zlen x)) as (o & s & E & Es); [lia|lia|done|]. exists o, s. split; [|lia].
    rewrite <- E. destruct (off_sizes (offsets (p + zlen x) (y :: items))) eqn:En; [|done].
    pose proof (off_sizes_length (p + zlen x) (y :: items)) as El. by rewrite En in El.
Qed.

(** ** The parts of an encoded transaction *)

(** Without marker, flag and witnesses: what the transaction id hashes. *)
Definition strip_witness (tx : Tx) : Tx := mkTx (tx_version tx) (tx_ins tx) (tx_outs tx) None (tx_locktime tx).
Definition txid `{HashFns} (tx : Tx) : list byte := getHash256 (enc_tx (strip_witness tx)).

Definition segwit (tx : Tx) : bool := if tx_witnesses tx then true else false.

(** Counts, inputs and outputs. *)
Definition enc_inouts (tx : Tx) : list byte :=
  (var_int_bytes (zlen (tx_ins tx)) ++ concat (map enc_txin (tx_ins tx))) ++
  (var_int_bytes (zlen (tx_outs tx)) ++ concat (map enc_txout (tx_outs tx))).
Definition enc_marker (tx : Tx) : list byte := if tx_witnesses tx then [z2b 0; z2b 1] else [].
Definition enc_wits (tx : Tx) : list byte := concat (map enc_stack (default [] (tx_witnesses tx))).

Lemma enc_tx_parts tx : enc_tx tx = tx_version tx ++ enc_marker tx ++ enc_inouts tx ++ enc_wits tx ++ tx_locktime tx.
Proof. unfold enc_tx, enc_inouts, enc_marker, enc_wits. by rewrite <- !app_assoc. Qed.

Lemma enc_strip_parts tx : enc_tx (strip_witness tx) = tx_version tx ++ enc_inouts tx ++ tx_locktime tx.
Proof. rewrite enc_tx_parts. done. Qed.

Section tx_parts.
Context (tx : Tx) (Hok : tx_ok tx).

Lemma ins_start_parts : ins_start tx = zlen (tx_version tx ++ enc_marker tx ++ var_int_bytes (zlen (tx_ins tx))).
Proof.
  unfold ins_start, enc_marker. rewrite !zlen_app, (ok_version tx Hok), zlen_var_int_bytes.
  destruct (tx_witnesses tx); autorewrite with zlen; lia.
Qed.

Lemma outs_start_parts : outs_start tx = zlen (tx_version tx ++ enc_marker tx ++
  (var_int_bytes (zlen (tx_ins tx)) ++ concat (map enc_txin (tx_ins tx))) ++ var_int_bytes (zlen (tx_outs tx))).
Proof.
  unfold outs_start. rewrite ins_start_parts. autorewrite with zlen. lia.
Qed.

Lemma wits_start_parts : wits_start tx = zlen (tx_version tx ++ enc_marker tx ++ enc_inouts tx).
Proof. unfold wits_start, enc_inouts. rewrite outs_start_parts. autorewrite with zlen. lia. Qed.

Lemma raw_version tl : raw_read (enc_tx tx ++ tl) 0 4 = Ok (tx_version tx).
Proof.
  rewrite enc_tx_parts, <- app_assoc. eapply (raw_read_mid []); [reflexivity|done|by rewrite (ok_version tx Hok)].
Qed.

Lemma raw_locktime tl : raw_read (enc_tx tx ++ tl) (zlen (enc_tx tx) - 4) 4 = Ok (tx_locktime tx).
Proof.
  rewrite enc_tx_parts. pose proof (ok_locktime tx Hok) as Hl.
  apply (raw_read_mid (tx_version tx ++ enc_marker tx ++ enc_inouts tx ++ enc_wits tx) _ tl); [|
    autorewrite with zlen; lia|done].
  by rewrite <- !app_assoc.
Qed.

Lemma raw_marker tl : exists m, raw_read (enc_tx tx ++ tl) 4 2 = Ok m /\ (le_val m =? 0x0100) = segwit tx.
Proof.
  pose proof (ok_version tx Hok) as Hv. pose proof (ok_nin tx Hok) as Hn.
  destruct (tx_counts tx Hok) as (Hni & _).
  assert (exists r, read_marker (brr_at (tx_version tx) (enc_marker tx ++ enc_inouts tx ++ enc_wits tx ++
    tx_locktime tx ++ tl)) = Ok (segwit tx, r)) as (r & Hr).
  { unfold enc_marker, segwit. destruct (tx_witnesses tx); [by eexists; apply read_marker_at|].
    cbn [app]. unfold enc_inouts. rewrite <- !app_assoc. eexists. apply read_marker_count; [lia|].
    destruct enc_item_pos as (Hi & _). pose proof (zlen_concat_ge enc_txin (tx_ins tx) Hi).
    rewrite zlen_app. match goal with |- _ <= _ + zlen ?l => pose proof (zlen_nonneg l) end. lia. }
  unfold read_marker, brr_at in Hr. cbn [bdRef_ pos_] in Hr. rewrite Hv in Hr.
  rewrite enc_tx_parts, <- !app_assoc.
  destruct (raw_read _ 4 2) as [m|]; [|done]. exists m. split; [done|].
  cbn [mbind result_bind] in Hr. by injection Hr.
Qed.
End tx_parts.

(** ** [bctx_parse] *)

Section parse.
Context `{HashFns}.

(** A transaction with a single input that spends nothing. *)
Definition coinbase (tx : Tx) : bool :=
  match tx_ins tx with [i] => bool_decide (take 32 (txin_outpoint i) = EmptyHash) | _ => false end.

Definition bctx_of (tx : Tx) (tl : list byte) : BCTX :=
  mkBCTX (enc_tx tx ++ tl) (zlen (enc_tx tx)) (le_val (tx_version tx)) (le_val (tx_locktime tx)) (segwit tx)
    (off_sizes (offsets (ins_start tx) (map enc_txin (tx_ins tx))))
    (off_sizes (offsets (outs_start tx) (map enc_txout (tx_outs tx))))
    (if segwit tx then off_sizes (offsets (wits_start tx) (map enc_stack (default [] (tx_witnesses tx)))) else [])
    [] (coinbase tx).

Lemma TxCalcLength_at tx tl : tx_ok tx -> zlen (enc_tx tx ++ tl) < two64 ->
  TxCalcLength (enc_tx tx ++ tl) = Ok (zlen (enc_tx tx), tx_offsets tx).
Proof.
  intros Hok Hl. pose proof (calc_body_spec tx Hok tl Hl) as Hb.
  unfold TxCalcLength. rewrite brr_setNewData_at, brr_remaining_at by done.
  replace (zlen (enc_tx tx ++ tl) <? 4) with false; [by rewrite Hb|].
  symmetry. apply Z.ltb_ge. rewrite enc_tx_parts, !zlen_app, (ok_version tx Hok).
  pose proof (zlen_nonneg (enc_marker tx)). pose proof (zlen_nonneg (enc_inouts tx)).
  pose proof (zlen_nonneg (enc_wits tx)). pose proof (zlen_nonneg (tx_locktime tx)).
  pose proof (zlen_nonneg tl). lia.
Qed.

(** The inputs, outputs and witnesses where the references point. *)
Lemma ins_split tx tl : enc_tx tx ++ tl =
  (tx_version tx ++ enc_marker tx ++ var_int_bytes (zlen (tx_ins tx))) ++ concat (map enc_txin (tx_ins tx)) ++
  (var_int_bytes (zlen (tx_outs tx)) ++ concat (map enc_txout (tx_outs tx)) ++ enc_wits tx ++ tx_locktime tx ++ tl).
Proof. rewrite enc_tx_parts. unfold enc_inouts. by rewrite <- !app_assoc. Qed.

Lemma outs_split tx tl : enc_tx tx ++ tl =
  (tx_version tx ++ enc_marker tx ++ (var_int_bytes (zlen (tx_ins tx)) ++ concat (map enc_txin (tx_ins tx))) ++
   var_int_bytes (zlen (tx_outs tx))) ++ concat (map enc_txout (tx_outs tx)) ++
  (enc_wits tx ++ tx_locktime tx ++ tl).
Proof. rewrite enc_tx_parts. unfold enc_inouts. by rewrite <- !app_assoc. Qed.

Lemma wits_split tx tl : enc_tx tx ++ tl =
  (tx_version tx ++ enc_marker tx ++ enc_inouts tx) ++ concat (map enc_stack (default [] (tx_witnesses tx))) ++
  (tx_locktime tx ++ tl).
Proof. rewrite enc_tx_parts. unfold enc_wits. by rewrite <- !app_assoc. Qed.

Lemma item_at {A} (enc : A -> list byte) (l : list A) pre post data p i x :
  data = pre ++ concat (map enc l) ++ post -> p = zlen pre -> zlen data < two64 -> l !! i = Some x ->
  exists o, off_sizes (offsets p (map enc l)) !! i = Some (o, zlen (enc x)) /\
    raw_read data o (zlen (enc x)) = Ok (enc x).
Proof.
  intros -> -> Hl Hi. apply off_sizes_items; [done|]. by rewrite list_lookup_fmap, Hi.
Qed.

Lemma coinbase_test tx tl : tx_ok tx -> zlen (enc_tx tx ++ tl) < two64 ->
  (if zlen (txins_ (bctx_of tx tl)) =? 1 then
     '(off, sz) ← getTxInRef 0 (bctx_of tx tl);
     txin ← raw_read (enc_tx tx ++ tl) off sz;
     Ok (equal (getSliceCopy txin 0 32) EmptyHash)
   else Ok false) = Ok (coinbase tx).
Proof.
  intros Hok Hl. unfold getTxInRef, coinbase, bctx_of. cbn [txins_].
  assert (zlen (off_sizes (offsets (ins_start tx) (map enc_txin (tx_ins tx)))) = zlen (tx_ins tx)) as ->
    by (unfold zlen; by rewrite off_sizes_length, length_map).
  pose proof (item_at enc_txin (tx_ins tx) _ _ _ _ 0 (default (mkTxIn [] [] []) (head (tx_ins tx))) (ins_split tx tl)
    (ins_start_parts tx Hok) Hl) as Hit.
  pose proof (ok_ins tx Hok) as Hins. destruct (tx_ins tx) as [|i [|i' l]]; [done| |].
  2:{ zcase; [|done]. rewrite !zlen_cons in *. pose proof (zlen_nonneg l). lia. }
  rewrite zlen_cons, zlen_nil. cbn [Z.add Z.eqb Pos.eqb]. destruct (Hit eq_refl) as (o & Ho & Hr).
  change (znth ?l 0) with (l !! 0%nat). rewrite Ho. cbn [mbind result_bind head default from_option id] in *. rewrite Hr.
  inversion Hins as [|?? (Hop & _) _]; subst. cbn [mbind result_bind]. f_equal.
  pose proof (zlen_nonneg (var_bytes (txin_script i) ++ txin_sequence i)) as Hrest.
  assert (getSliceCopy (enc_txin i) 0 32 = take 32 (txin_outpoint i)) as ->.
  { unfold getSliceCopy, copyFrom, enc_txin. rewrite zlen_app, Hop. cbn -[zlen take drop Z.ltb Z.add].
    replace (36 + _ <? wrap 64 0 + 32) with false by (change (wrap 64 0) with 0; lia).
    change (Z.to_nat 0) with 0%nat. rewrite drop_0, take_app_le; [done|]. unfold zlen in Hop. lia. }
  unfold equal. assert (zlen (take 32 (txin_outpoint i)) = 32) as ->.
  { unfold zlen in *. rewrite length_take. lia. }
  change (zlen EmptyHash) with 32. done.
Qed.

Lemma bctx_parse_ok tx tl len : tx_ok tx -> zlen (enc_tx tx ++ tl) < two64 -> zlen (enc_tx tx) <= len ->
  bctx_parse (enc_tx tx ++ tl) len UINT32_MAX = Ok (bctx_of tx tl).
Proof.
  intros Hok Hl Hlen. unfold bctx_parse.
  assert (take (Z.to_nat len) (enc_tx tx ++ tl) = enc_tx tx ++ take (Z.to_nat len - length (enc_tx tx)) tl) as ->.
  { rewrite take_app. f_equal. apply take_ge. unfold zlen in Hlen. lia. }
  rewrite TxCalcLength_at; [|done|].
  2:{ rewrite zlen_app in *. unfold zlen in *. rewrite length_take. lia. }
  cbn [mbind result_bind]. destruct (raw_marker tx Hok tl) as (m & Hm & Ebit).
  unfold u32_at. rewrite raw_version by done. cbn [fmap result_fmap mbind result_bind].
  rewrite Hm. cbn [mbind result_bind]. rewrite Ebit. cbn [offsetsWitness offsetsIn offsetsOut tx_offsets].
  rewrite offsets_last.
  assert (wits_start tx + zlen (concat (map enc_stack (default [] (tx_witnesses tx)))) = zlen (enc_tx tx) - 4) as ->.
  { rewrite (wits_start_parts tx Hok), enc_tx_parts. fold (enc_wits tx). pose proof (ok_locktime tx Hok).
    autorewrite with zlen. lia. }
  rewrite raw_locktime by done. cbn [fmap result_fmap mbind result_bind].
  change (negb (UINT32_MAX =? UINT32_MAX)) with false. cbv iota.
  pose proof (coinbase_test tx tl Hok Hl) as Hc. unfold bctx_of in Hc. cbn [txins_] in Hc.
  unfold getTxInRef in *. cbn [txins_] in *. rewrite Hc. done.
Qed.

(** The hash of a transaction that has an output. *)
Lemma hashed_data_ok tx tl : tx_ok tx -> zlen (enc_tx tx ++ tl) < two64 -> tx_outs tx ≠ [] ->
  hashed_data (bctx_of tx tl) = Ok (enc_tx (strip_witness tx)).
Proof.
  intros Hok Hl Ho. pose proof (ok_size tx Hok) as Hs. pose proof (ok_version tx Hok) as Hv.
  unfold hashed_data, bctx_of. cbn [usesWitness_ bctx_data bctx_size txouts_].
  unfold segwit. destruct (tx_witnesses tx) as [ws|] eqn:Ew.
  - rewrite raw_version by done. cbn [mbind result_bind].
    assert (outs_start tx + zlen (concat (map enc_txout (tx_outs tx))) = wits_start tx) as Ewit by done.
    assert (wits_start tx = 6 + zlen (enc_inouts tx)) as E6.
    { rewrite (wits_start_parts tx Hok), !zlen_app, Hv. unfold enc_marker. rewrite Ew. change (zlen [z2b 0; z2b 1]) with 2. lia. }
    assert (6 + zlen (enc_inouts tx) + zlen (enc_wits tx) + 4 = zlen (enc_tx tx)) as Etot.
    { rewrite enc_tx_parts, !zlen_app, Hv, (ok_locktime tx Hok). unfold enc_marker. rewrite Ew. change (zlen [z2b 0; z2b 1]) with 2. lia. }
    pose proof (zlen_nonneg (enc_inouts tx)). pose proof (zlen_nonneg (enc_wits tx)).
    pose proof (zlen_nonneg tl). rewrite zlen_app in Hl.
    destruct (off_sizes_last (outs_start tx) (map enc_txout (tx_outs tx))) as (o & s & -> & Es).
    { rewrite (outs_start_parts tx Hok). apply zlen_nonneg. }
    { rewrite Ewit. lia. }
    { by destruct (tx_outs tx). }
    cbn [mbind result_bind]. rewrite Es, Ewit, E6.
    rewrite (wrap_small 64 (6 + _)), (wrap_small 64 (_ - 6)), (wrap_small 64 (_ - 4)) by (unfold is_uint, two64 in *; lia).
    replace (6 + zlen (enc_inouts tx) - 6) with (zlen (enc_inouts tx)) by lia.
    assert (raw_read (enc_tx tx ++ tl) 6 (zlen (enc_inouts tx)) = Ok (enc_inouts tx)) as ->.
    { apply (raw_read_mid (tx_version tx ++ enc_marker tx) _ (enc_wits tx ++ tx_locktime tx ++ tl)); [| |done].
      - rewrite enc_tx_parts. by rewrite <- !app_assoc.
      - rewrite zlen_app, Hv. unfold enc_marker. by rewrite Ew. }
    cbn [mbind result_bind]. rewrite raw_locktime by done. cbn [mbind result_bind].
    rewrite !append_app, enc_strip_parts. by rewrite <- app_assoc.
  - assert (strip_witness tx = tx) as -> by (unfold strip_witness; destruct tx; simpl in *; by subst).
    by apply (raw_read_mid [] _ tl).
Qed.

Lemma bctx_getHash_ok tx tl : tx_ok tx -> zlen (enc_tx tx ++ tl) < two64 -> tx_outs tx ≠ [] ->
  bctx_getHash (bctx_of tx tl) = Ok (set_txHash (txid tx) (bctx_of tx tl)).
Proof.
  intros Hok Hl Ho. unfold bctx_getHash. cbn [txHash_ bctx_of]. rewrite zlen_nil. cbn [Z.eqb].
  change (mkBCTX _ _ _ _ _ _ _ _ _ _) with (bctx_of tx tl). rewrite hashed_data_ok by done. done.
Qed.
End parse.

(** ** [deserialize] *)

Section blocks.
Context `{HashFns}.

Record Block := mkBlock { blk_header : HeaderBytes; blk_txs : list Tx }.

Definition enc_txs (txs : list Tx) : list byte := concat (map enc_tx txs).
Definition enc_block (b : Block) : list byte :=
  hb_bytes (blk_header b) ++ var_int_bytes (zlen (blk_txs b)) ++ enc_txs (blk_txs b).

Definition block_tx_ok (tx : Tx) : Prop := tx_ok tx /\ tx_outs tx ≠ [].

Record block_ok (b : Block) : Prop := {
  bo_header : hb_ok (blk_header b);
  bo_txs : Forall block_tx_ok (blk_txs b);
  bo_nonempty : blk_txs b ≠ [];
  bo_size : zlen (enc_block b) < 2 ^ 32;
}.

Definition block_hash (b : Block) : list byte := getHash256 (hb_bytes (blk_header b)).
Definition txids (b : Block) : list (list byte) := map txid (blk_txs b).

(** The header's merkle root is the one of the transactions. *)
Definition root_matches (b : Block) : bool :=
  bool_decide (merkle_root (length (blk_txs b)) (txids b) = hb_root (blk_header b)).

(** The parsed transactions; each one's memory goes on with the next. *)
Fixpoint bctxs (txs : list Tx) (tl : list byte) : list BCTX :=
  match txs with
  | [] => []
  | tx :: txs => bctx_of tx (enc_txs txs ++ tl) :: bctxs txs tl
  end.

Definition hashed (keepHashes : bool) (tx : Tx) (t : BCTX) : BCTX :=
  if keepHashes then set_txHash (txid tx) t else t.

Lemma zlen_txid tx : zlen (txid tx) = 32.
Proof. unfold txid. by autorewrite with zlen. Qed.

Lemma txids_hashes txs : Forall is_hash (map txid txs).
Proof. apply Forall_fmap, Forall_true. intros tx. apply zlen_txid. Qed.

Lemma enc_tx_pos tx : tx_ok tx -> 4 <= zlen (enc_tx tx).
Proof.
  intros Hok. rewrite enc_tx_parts, zlen_app, (ok_version tx Hok).
  match goal with |- _ <= _ + zlen ?l => pose proof (zlen_nonneg l) end. lia.
Qed.

Lemma block_txs_size b : block_ok b -> 4 * zlen (blk_txs b) <= zlen (enc_block b).
Proof.
  intros [_ Ht Hne Hs]. assert (4 * zlen (blk_txs b) <= zlen (enc_txs (blk_txs b))) as Hle.
  { unfold enc_txs. clear -Ht. induction Ht as [|tx txs [Hok _] Ht IH]; [done|]. cbn [map concat].
    pose proof (enc_tx_pos tx Hok). autorewrite with zlen. lia. }
  unfold enc_block. rewrite !zlen_app. pose proof (zlen_nonneg (hb_bytes (blk_header b))).
  pose proof (zlen_nonneg (var_int_bytes (zlen (blk_txs b)))). lia.
Qed.

Lemma block_count b : block_ok b -> 1 <= zlen (blk_txs b) < 2 ^ 32.
Proof.
  intros Hb. pose proof (block_txs_size b Hb). pose proof (bo_size _ Hb).
  split; [|lia]. pose proof (bo_nonempty _ Hb).
  destruct (blk_txs b); [done|rewrite zlen_cons; pose proof (zlen_nonneg l); lia].
Qed.

Lemma enc_block_pos b : block_ok b -> 0 < zlen (enc_block b).
Proof. intros Hb. pose proof (block_txs_size b Hb). pose proof (block_count b Hb). lia. Qed.

Lemma deser_txs_ok hdr txs pre extra tl : zlen hdr = HEADER_SIZE -> Forall block_tx_ok txs ->
  zlen (pre ++ enc_txs txs ++ extra ++ tl) < two64 ->
  deser_txs (length txs) (hdr ++ pre ++ enc_txs txs ++ extra ++ tl) (brr_at pre (enc_txs txs ++ extra)) =
  Ok (bctxs txs (extra ++ tl)).
Proof.
  intros Hh Ht. revert pre. induction Ht as [|tx txs [Hok Ho] Ht IH]; intros pre Hl; [done|].
  cbn [length deser_txs bctxs]. unfold enc_txs in *. cbn [map concat] in *. fold (enc_txs txs) in *.
  rewrite <- !app_assoc in *.
  assert (drop (Z.to_nat (HEADER_SIZE + pos_ (brr_at pre (enc_tx tx ++ enc_txs txs ++ extra))))
    (hdr ++ pre ++ enc_tx tx ++ enc_txs txs ++ extra ++ tl) = enc_tx tx ++ enc_txs txs ++ extra ++ tl) as ->.
  { rewrite (app_assoc hdr pre). apply drop_app_length'. rewrite length_app. cbn [pos_ brr_at]. unfold zlen in *. lia. }
  rewrite brr_remaining_at by (rewrite !zlen_app in *; pose proof (zlen_nonneg tl); lia).
  rewrite bctx_parse_ok; [|done| |].
  2:{ rewrite !zlen_app in *. pose proof (zlen_nonneg pre). lia. }
  2:{ rewrite !zlen_app. pose proof (zlen_nonneg (enc_txs txs)). pose proof (zlen_nonneg extra). lia. }
  cbn [mbind result_bind bctx_size bctx_of].
  pose proof (skip_from (zlen pre) (zlen (enc_tx tx)) (enc_tx tx) eq_refl pre (enc_txs txs ++ extra) eq_refl) as Hs.
  specialize (Hs ltac:(rewrite !zlen_app in *; pose proof (zlen_nonneg tl); lia)).
  apply Ok_inj, (f_equal snd) in Hs. cbn [snd] in Hs. rewrite Hs.
  rewrite (app_assoc pre (enc_tx tx) (enc_txs txs ++ extra ++ tl)).
  unfold enc_txs in *. rewrite IH by (by rewrite <- app_assoc). done.
Qed.

Lemma hash_txs_ok keep txs tl : Forall block_tx_ok txs -> zlen (enc_txs txs ++ tl) < two64 ->
  hash_txs keep (bctxs txs tl) = Ok (map txid txs, zip_with (hashed keep) txs (bctxs txs tl)).
Proof.
  intros Ht. induction Ht as [|tx txs [Hok Ho] Ht IH]; intros Hl; [done|].
  cbn [hash_txs bctxs map zip_with]. unfold enc_txs in Hl. cbn [map concat] in Hl. fold (enc_txs txs) in Hl.
  rewrite <- app_assoc in Hl. unfold bctx_moveHash.
  assert (hash_txs keep (bctxs txs tl) = Ok (map txid txs, zip_with (hashed keep) txs (bctxs txs tl))) as IH'.
  { apply IH. rewrite zlen_app in Hl. pose proof (zlen_nonneg (enc_tx tx)). lia. }
  rewrite bctx_getHash_ok by done. destruct keep; cbn [mbind result_bind]; by rewrite IH'.
Qed.

(** The filter of a block. *)
Definition filter_of (id : Z) (hashes : list (list byte)) : TxFilter :=
  mkTxFilter (map hash_head hashes) None id (zlen hashes) true.

Lemma tf_update_loop_ok hashes f : Forall is_hash hashes ->
  tf_update_loop hashes f = Ok (mkTxFilter (filterVector_ f ++ map hash_head hashes) (filterPtr_ f)
    (blockKey_ f) (tf_len f) (isValid_ f)).
Proof.
  intros Hh. revert f. induction Hh as [|h hashes Hh Hs IH]; intros f; cbn [tf_update_loop map].
  { rewrite app_nil_r. by destruct f. }
  unfold tf_update_one. unfold is_hash in Hh. rewrite Hh, u32_at_head by lia. cbn [negb Z.eqb Pos.eqb mbind result_bind].
  rewrite IH. cbn [filterVector_ filterPtr_ blockKey_ tf_len isValid_]. by rewrite <- app_assoc.
Qed.

Lemma computeTxFilter_ok id hashes : Forall is_hash hashes ->
  computeTxFilter id hashes = Ok (filter_of id hashes).
Proof. intros Hh. unfold computeTxFilter, tf_update. cbn [isValid_ TxFilter_new negb]. by rewrite tf_update_loop_ok. Qed.

(** The header a block is expected to have, when there is one. *)
Definition header_matches (b : Block) (blockHeader : option BlockHeader) : bool :=
  match blockHeader with
  | None => true
  | Some h => equal (block_hash b) (thisHash_ h) && (zlen (blk_txs b) =? numTx_ h)
  end.

(** The block as [deserialize] leaves it. *)
Definition bd_of (b : Block) (oh : option BlockHeader) (extra tl : list byte) (keepHashes : bool) (id : Z) : BlockData :=
  mkBlockData oh (Some (enc_block b ++ extra ++ tl)) (zlen (enc_block b ++ extra))
    (zip_with (hashed keepHashes) (blk_txs b) (bctxs (blk_txs b) (extra ++ tl))) UINT32_MAX SIZE_MAX
    (block_hash b) (filter_of id (txids b)) id.

Lemma header_read b rest : block_ok b -> exists bh,
  bh_unserialize (take (Z.to_nat HEADER_SIZE) (hb_bytes (blk_header b) ++ rest)) BlockHeader_default = Ok bh /\
  thisHash_ bh = block_hash b /\ hb_read (blk_header b) bh.
Proof.
  intros [Hh _ _ _]. pose proof (zlen_hb_bytes _ Hh) as Hz.
  rewrite <- Hz. unfold zlen at 1. rewrite Nat2Z.id, take_app_length.
  destruct (convertDiffBitsToDouble_ok (hb_bits (blk_header b))) as (d & Hd & _); [apply Hh|].
  unfold bh_unserialize. rewrite Hz. change (HEADER_SIZE <? HEADER_SIZE) with false. cbv iota.
  pose proof (copyFrom_prefix (hb_bytes (blk_header b)) []) as Hc. rewrite app_nil_r, Hz in Hc.
  rewrite Hc by done. rewrite convertDiffBits_drop, Hd by done. cbn [mbind result_bind].
  eexists. split; [reflexivity|]. split; [done|]. by apply hb_read_bytes.
Qed.

Lemma chain_of_run {A B} (r : result A) a (f : A -> Chain B) bc : r = Ok a -> (chain_of r ≫= f) bc = f a bc.
Proof. by intros ->. Qed.

Lemma chain_check_ok {B} (m : Chain ()) (ok : bool) (f : () -> Chain B) bc :
  m bc = (if ok then Ok (tt, bc) else Err BlockDeserializing) ->
  (m ≫= f) bc = if ok then f tt bc else Err BlockDeserializing.
Proof. intros E. unfold mbind, chain_bind. rewrite E. by destruct ok. Qed.

Lemma deserialize_run b oh extra tl getID keep bc : block_ok b -> zlen (enc_block b ++ extra ++ tl) < two64 ->
  deserialize (enc_block b ++ extra ++ tl) (zlen (enc_block b ++ extra)) oh getID true keep BlockData_new bc =
  if header_matches b oh && root_matches b then '(id, bc) ← getID (block_hash b) bc; Ok (bd_of b oh extra tl keep id, bc)
  else Err BlockDeserializing.
Proof.
  intros Hb Hl. pose proof (bo_header _ Hb) as Hh. pose proof (zlen_hb_bytes _ Hh) as Hz.
  pose proof (block_count b Hb) as Hn. set (hdr := hb_bytes (blk_header b)) in *.
  set (vi := var_int_bytes (zlen (blk_txs b))). set (body := enc_txs (blk_txs b)).
  assert (enc_block b = hdr ++ vi ++ body) as Eb by done.
  pose proof (zlen_nonneg hdr). pose proof (zlen_nonneg vi). pose proof (zlen_nonneg body). pose proof (zlen_nonneg extra). pose proof (zlen_nonneg tl).
  unfold deserialize. replace (zlen (enc_block b ++ extra) <? HEADER_SIZE) with false
    by (rewrite Eb, !zlen_app, Hz; lia).
  destruct (header_read b (vi ++ body ++ extra ++ tl) Hb) as (bh & Hbh & Hhash & Hread). fold hdr in Hbh.
  rewrite Eb in Hl |- *. rewrite <- !app_assoc in *.
  rewrite (chain_of_run _ _ _ _ Hbh).
  assert (take (Z.to_nat (zlen (hdr ++ vi ++ body ++ extra) - HEADER_SIZE))
    (drop (Z.to_nat HEADER_SIZE) (hdr ++ vi ++ body ++ extra ++ tl)) = vi ++ body ++ extra) as ->.
  { rewrite <- Hz at 2. rewrite drop_zlen, zlen_app, Hz.
    replace (HEADER_SIZE + zlen (vi ++ body ++ extra) - HEADER_SIZE) with (zlen (vi ++ body ++ extra)) by lia.
    rewrite !app_assoc. unfold zlen. by rewrite Nat2Z.id, take_app_length. }
  assert (zlen (vi ++ body ++ extra) < two64) as Hrest by (rewrite !zlen_app in *; unfold HEADER_SIZE in Hz; lia).
  rewrite brr_setNewData_at.
  pose proof (brr_get_var_int_parses (zlen (blk_txs b)) ltac:(unfold is_uint; lia) [] (body ++ extra)) as Hvi.
  fold vi in Hvi. specialize (Hvi Hrest).
  rewrite (chain_of_run _ _ _ _ Hvi). cbv beta iota zeta. rewrite wrap_small by (unfold is_uint; lia).
  replace (Z.to_nat (zlen (blk_txs b))) with (length (blk_txs b)) by (unfold zlen; lia).
  rewrite Hhash, (chain_check_ok (match oh with
    | None => mret tt
    | Some h => if negb (equal (block_hash b) (thisHash_ h)) then chain_throw BlockDeserializing
                else if negb (zlen (blk_txs b) =? numTx_ h) then chain_throw BlockDeserializing else mret tt
    end) (header_matches b oh)).
  2:{ unfold header_matches. destruct oh as [h|]; [|done]. destruct (equal _ _); [|done].
      by destruct (zlen (blk_txs b) =? numTx_ h). }
  destruct (header_matches b oh); [|done]. cbn [andb].
  rewrite (chain_of_run _ (bctxs (blk_txs b) (extra ++ tl))).
  2:{ apply deser_txs_ok; [done|apply Hb|]. cbn [app]. fold body. rewrite !zlen_app in *. lia. }
  cbn [negb txns_ BlockData_new app].
  rewrite (chain_of_run _ (txids b, zip_with (hashed keep) (blk_txs b) (bctxs (blk_txs b) (extra ++ tl)))).
  2:{ apply hash_txs_ok; [apply Hb|]. fold body. rewrite !zlen_app in *. lia. }
  cbv beta iota. unfold root_matches.
  rewrite (chain_of_run _ (merkle_root (length (blk_txs b)) (txids b))).
  2:{ rewrite calculateMerkleRoot_spec; [by unfold txids; rewrite length_map|apply txids_hashes|].
      intros E%fmap_nil_inv. by apply (bo_nonempty _ Hb). }
  rewrite (chain_of_run _ (hb_root (blk_header b))) by apply Hread.
  pose proof (merkle_root_hash (length (blk_txs b)) (txids b) (txids_hashes _)) as Hm.
  assert (length (txids b) = length (blk_txs b)) as Elen by apply length_map. unfold is_hash in Hm.
  unfold equal. rewrite Hm by (unfold zlen in Hn; lia). destruct Hh as (_ & _ & -> & _). cbn [negb Z.eqb Pos.eqb].
  case_bool_decide; cbn [negb]; [|done].
  unfold mbind at 1, chain_bind at 1, mbind, result_bind.
  destruct (getID (block_hash b) bc) as [[id bc']|]; [|done].
  unfold chain_bind, chain_of, mbind, result_bind. rewrite computeTxFilter_ok by apply txids_hashes.
  unfold bd_of. rewrite Eb. by rewrite <- !app_assoc.
Qed.

(** ** Properties *)

(** [BCTX::parse] of a serialised transaction with an output, followed by
    anything: version, lock time and the witness flag are its own, every
    reference reads back its input, output or witness stack, an index past the
    inputs is a range error, the coinbase flag is set for a single input that
    spends nothing, and the hash is the transaction id, which leaves the
    witnesses out. *)
Theorem bctx_parse_correct tx tl len : tx_ok tx -> tx_outs tx ≠ [] -> zlen (enc_tx tx ++ tl) < two64 ->
  zlen (enc_tx tx) <= len -> exists t, bctx_parse (enc_tx tx ++ tl) len UINT32_MAX = Ok t /\
  bctx_size t = zlen (enc_tx tx) /\ version_ t = le_val (tx_version tx) /\
  lockTime_ t = le_val (tx_locktime tx) /\ usesWitness_ t = segwit tx /\ isCoinbase_ t = coinbase tx /\
  (forall i x, tx_ins tx !! i = Some x -> exists o, getTxInRef (Z.of_nat i) t = Ok (o, zlen (enc_txin x)) /\
    raw_read (bctx_data t) o (zlen (enc_txin x)) = Ok (enc_txin x)) /\
  (forall i x, tx_outs tx !! i = Some x -> exists o, getTxOutRef (Z.of_nat i) t = Ok (o, zlen (enc_txout x)) /\
    raw_read (bctx_data t) o (zlen (enc_txout x)) = Ok (enc_txout x)) /\
  (forall ws i w, tx_witnesses tx = Some ws -> ws !! i = Some w -> exists o,
    witnesses_ t !! i = Some (o, zlen (enc_stack w)) /\
    raw_read (bctx_data t) o (zlen (enc_stack w)) = Ok (enc_stack w)) /\
  (forall i, zlen (tx_ins tx) <= i -> getTxInRef i t = Err RangeError) /\
  bctx_getHash t = Ok (set_txHash (txid tx) t).
Proof.
  intros Hok Ho Hl Hlen. exists (bctx_of tx tl). split; [by apply bctx_parse_ok|].
  do 5 (split; [done|]). split; [|split; [|split; [|split]]]; [| | | |by apply bctx_getHash_ok].
  - intros i x Hi. destruct (item_at enc_txin _ _ _ _ _ i x (ins_split tx tl) (ins_start_parts tx Hok) Hl Hi)
      as (o & E & Er). exists o. split; [|done]. unfold getTxInRef. rewrite znth_nat. cbn [txins_ bctx_of]. by rewrite E.
  - intros i x Hi. destruct (item_at enc_txout _ _ _ _ _ i x (outs_split tx tl) (outs_start_parts tx Hok) Hl Hi)
      as (o & E & Er). exists o. split; [|done]. unfold getTxOutRef. rewrite znth_nat. cbn [txouts_ bctx_of]. by rewrite E.
  - intros ws i w Hw Hi. pose proof (wits_split tx tl) as Hsplit. cbn [witnesses_ bctx_of]. unfold segwit.
    rewrite Hw in *. destruct (item_at enc_stack _ _ _ _ _ i w Hsplit (wits_start_parts tx Hok) Hl Hi)
      as (o & E & Er). by exists o.
  - intros i Hi. unfold getTxInRef. rewrite znth_None; [done|]. cbn [txins_ bctx_of].
    unfold zlen in *. by rewrite off_sizes_length, length_map.
Qed.

(** C14: [BlockData::deserialize] of a serialised block, with the check of the
    merkle root: it throws when the root is not the one of the transaction ids
    or the block is not the expected one, and otherwise asks for an id and
    gives the parsed transactions, the hash of the header and a filter in which
    every transaction of the block is found at its place. *)
Theorem deserialize_correct b oh extra tl getID keep bc : block_ok b ->
  zlen (enc_block b ++ extra ++ tl) < two64 ->
  let run := deserialize (enc_block b ++ extra ++ tl) (zlen (enc_block b ++ extra)) oh getID true keep BlockData_new bc in
  (header_matches b oh && root_matches b = false -> run = Err BlockDeserializing) /\
  (header_matches b oh && root_matches b = true -> forall id bc', getID (block_hash b) bc = Ok (id, bc') ->
    exists bd, run = Ok (bd, bc') /\ headerPtr_ bd = oh /\ blockHash_ bd = block_hash b /\ bd_uniqueID bd = id /\
      blockKey_ (txFilter_ bd) = id /\
      txns_ bd = zip_with (hashed keep) (blk_txs b) (bctxs (blk_txs b) (extra ++ tl)) /\
      forall i tx, blk_txs b !! i = Some tx -> exists s,
        tf_compare (txid tx) (txFilter_ bd) = Ok s /\ Z.of_nat i ∈ map_keys s).
Proof.
  intros Hb Hl run. subst run. rewrite deserialize_run by done. split; intros ->; [done|].
  intros id bc' E. rewrite E. cbn [mbind result_bind]. eexists. split; [reflexivity|].
  do 5 (split; [done|]). intros i tx Hi. exists (positions (hash_head (txid tx)) (map hash_head (txids b))).
  split.
  - unfold tf_compare. rewrite u32_at_head by (rewrite zlen_txid; lia). cbn [mbind result_bind].
    unfold tf_compare_key. cbn [filterVector_ filter_of txFilter_ bd_of].
    destruct (blk_txs b) as [|tx0 txs] eqn:Et; [done|]. unfold txids. by rewrite Et.
  - apply positions_spec. rewrite znth_nat. unfold txids. by rewrite !list_lookup_fmap, Hi.
Qed.
End blocks.

(** *** Witnesses: a block of two transactions *)

Lemma bctx_parse_correct_witness : exists t,
  @bctx_parse (enc_tx some_tx ++ [z2b 9]) 81 UINT32_MAX = Ok t /\ bctx_size t = 80 /\
  isCoinbase_ t = false /\ getTxInRef 1 t = Err RangeError /\
  @bctx_getHash toy_hashes t = Ok (set_txHash (@txid toy_hashes some_tx) t).
Proof.
  assert (zlen (enc_tx some_tx) = 80) as Hz by (vm_compute; reflexivity).
  destruct (@bctx_parse_correct toy_hashes some_tx [z2b 9] 81 some_tx_ok ltac:(discriminate)
    ltac:(rewrite zlen_app, Hz; reflexivity) ltac:(rewrite Hz; discriminate))
    as (t & Ht & Hs & _ & _ & _ & Hc & _ & _ & _ & Hr & Hh).
  exists t. rewrite Hz in Hs. do 2 (split; [assumption|]). split; [rewrite Hc; reflexivity|].
  split; [|exact Hh]. apply Hr. discriminate.
Defined.

Definition some_tx2 : Tx :=
  mkTx (replicate 4 (z2b 2)) [some_txin] [some_txout] None (replicate 4 (z2b 0)).

Lemma some_tx2_ok : tx_ok some_tx2.
Proof.
  constructor; [vm_compute; reflexivity|vm_compute; reflexivity|vm_compute; discriminate| | |
    exact I|vm_compute; reflexivity].
  - constructor; [|constructor]. repeat split; vm_compute; reflexivity.
  - repeat (constructor; [repeat split; vm_compute; reflexivity|]). constructor.
Qed.

(** A block of the two transactions, whose merkle root is [root]. *)
Definition block_with (root : list byte) : Block :=
  mkBlock (mkHeaderBytes (replicate 4 (z2b 0)) (replicate 32 (z2b 1)) root (replicate 4 (z2b 3))
             (map z2b [255; 255; 0; 29]) (replicate 4 (z2b 4))) [some_tx; some_tx2].

Definition some_root : list byte :=
  @merkle_root toy_hashes 2 [@txid toy_hashes some_tx; @txid toy_hashes some_tx2].
Definition some_block : Block := block_with some_root.

Lemma block_with_ok root : zlen root = 32 -> block_ok (block_with root).
Proof.
  intros Hr. assert (hb_ok (blk_header (block_with root))) as Hh by (repeat split; done).
  split; [done| |done|].
  - constructor; [split; [exact some_tx_ok|done]|]. constructor; [split; [exact some_tx2_ok|done]|constructor].
  - unfold enc_block. rewrite zlen_app, (zlen_hb_bytes _ Hh). reflexivity.
Qed.

Lemma some_block_ok : block_ok some_block.
Proof. apply block_with_ok. vm_compute. reflexivity. Qed.

Lemma deserialize_correct_witness :
  (exists bd bc', @deserialize toy_hashes (enc_block some_block ++ [] ++ []) (zlen (enc_block some_block ++ [])) None
    (fun _ => getNewUniqueID) true true BlockData_new (Blockchain_new []) = Ok (bd, bc') /\
    (exists s, tf_compare (@txid toy_hashes some_tx2) (txFilter_ bd) = Ok s /\ 1 ∈ map_keys s)) /\
  @deserialize toy_hashes (enc_block (block_with EmptyHash) ++ [] ++ []) (zlen (enc_block (block_with EmptyHash) ++ []))
    None (fun _ => getNewUniqueID) true true BlockData_new (Blockchain_new []) = Err BlockDeserializing.
Proof.
  assert (forall b, block_ok b -> zlen (enc_block b ++ [] ++ []) < two64) as Hz.
  { intros b Hb. pose proof (bo_size _ Hb). rewrite !app_nil_r. unfold two64. lia. }
  split.
  - destruct (@deserialize_correct toy_hashes some_block None [] [] (fun _ => getNewUniqueID) true
      (Blockchain_new []) some_block_ok (Hz _ some_block_ok)) as [_ Hrun].
    destruct (Hrun ltac:(vm_compute; reflexivity) 0 (set_topID 1 (Blockchain_new [])) eq_refl)
      as (bd & E & _ & _ & _ & _ & _ & Hf).
    exists bd, (set_topID 1 (Blockchain_new [])). split; [exact E|]. exact (Hf 1%nat some_tx2 eq_refl).
  - assert (block_ok (block_with EmptyHash)) as Hb by (by apply block_with_ok).
    destruct (@deserialize_correct toy_hashes (block_with EmptyHash) None [] [] (fun _ => getNewUniqueID) true
      (Blockchain_new []) Hb (Hz _ Hb)) as [Hrun _].
    apply Hrun. vm_compute. reflexivity.
Defined.
