(* ===== verification/Scanner.v ===== *)
(** * Scanner: the scan of the blocks for the outputs of registered addresses

    [BlockchainScanner] of cppForSwig/BlockchainScanner.h and
    BlockchainScanner.cpp: batches of blocks are read by several threads, first
    for the outputs that pay to registered addresses, then, with the unspent
    outputs of all earlier blocks, for the inputs that spend them; the outputs
    and the sub histories of the addresses are written to the STXO and SUBSSH
    tables.  The threads of a batch share a counter, from which each takes the
    heights it reads, and merge what they found under a lock: a schedule gives
    the heights of each thread, the threads in the order in which they merge. *)

From S2P Require Import Prelude BinaryData BinaryIO Hashing StdMap MapSums DBUtils BlockHeader HeadersDB.
From S2P Require Import ScriptUtils TxLength Blockchain BlockData StoredTxOut ScriptHistory.

#[export] Instance scrref_less : StdLess TxOutScriptRef := scrref_lt.

(** ** Maps of maps *)

Abbreviation utxo_map := (stdmap (list byte) (stdmap Z StoredTxOut)).
Abbreviation ssh_map := (stdmap (list byte) (stdmap (list byte) StoredSubHistory)).

Definition utxo_find (hash : list byte) (i : Z) (u : utxo_map) : option StoredTxOut :=
  map_find hash u ≫= map_find i.

(** [u[hash].insert({i, s})] *)
Definition utxo_insert (hash : list byte) (i : Z) (s : StoredTxOut) (u : utxo_map) : utxo_map :=
  map_put hash (map_insert i s (default [] (map_find hash u))).1 u.

(** [m[addr][hgtx]], which makes what is missing. *)
Definition ssh_entry (addr hgtx : list byte) (m : ssh_map) : StoredSubHistory :=
  default StoredSubHistory_new (map_find hgtx (default [] (map_find addr m))).
Definition ssh_put (addr hgtx : list byte) (e : StoredSubHistory) (m : ssh_map) : ssh_map :=
  map_put addr (map_put hgtx e (default [] (map_find addr m))) m.

(** ** [ParserBatch] *)

Record ParserBatch := mkBatch {
  fileMaps_ : stdmap Z (list byte);
  pb_start : Z;
  pb_end : Z;
  blockMap_ : stdmap Z BlockData;
  outputMap_ : utxo_map;
  sshMap_ : ssh_map;
  spentOutputs_ : list StoredTxOut;
  scriptRefMap_ : stdmap TxOutScriptRef Z;
}.

Definition ParserBatch_new (start end_ : Z) (fileMaps : stdmap Z (list byte))
    (scriptRefMap : stdmap TxOutScriptRef Z) : result ParserBatch :=
  if end_ <? start then Err RuntimeError
  else Ok (mkBatch fileMaps start end_ [] [] [] [] scriptRefMap).

Section scanner.
Context `{HashFns}.
Variable cfg : Config.

(** [getBlockData] *)
Definition getBlockData (batch : ParserBatch) (height : Z) : Chain BlockData :=
  p ← getHeaderByHeight height;
  blockheader ← deref p;
  match map_find (blkFileNum_ blockheader) (fileMaps_ batch) with
  | None => chain_throw RuntimeError
  | Some filemap =>
      size ← chain_of (member (numBlockBytes_ blockheader));
      deserialize (drop (Z.to_nat (blkFileOffset_ blockheader)) filemap) size (Some blockheader)
        (fun _ => mret (uniqueID_ blockheader)) false false BlockData_new
  end.

(** ** Outputs *)

(** The script of an output, from the bytes of the output. *)
Definition output_script (txout : list byte) : result (list byte) :=
  '(script, _) ← (_ ← skip 8; n ← brr_get_var_int; brr_get_BinaryData (wrap 32 n)) (brr_setNewData txout);
  Ok script.

(** [getHash]; that the object keeps the hash changes no later result. *)
Definition bctx_hash (txn : BCTX) : result (list byte) := tx ← bctx_getHash txn; Ok (txHash_ tx).

(** The record of output [y] of transaction [i]. *)
Definition new_stxo (header : BlockHeader) (i y : Z) (txn : BCTX) (data hash addr : list byte) : StoredTxOut :=
  mkStxo UINT32_MAX data (blockHeight_ header) (duplicateID_ header) (wrap 16 i) (wrap 16 y) hash
    (spentness_val TXOUT_UNSPENT) (isCoinbase_ txn) [] [] addr 0 (wrap 32 (zlen (txouts_ txn))) [].

(** An output of ours is added to the maps of the thread. *)
Definition add_output (header : BlockHeader) (i y : Z) (hash : list byte) (stxo : StoredTxOut)
    (maps : utxo_map * ssh_map) : utxo_map * ssh_map :=
  let addr := stxo_scrAddr stxo in
  let hgtx := heightAndDupToHgtx (blockHeight_ header) (duplicateID_ header) in
  let txioKey := getBlkDataKeyNoPrefix_txout (blockHeight_ header) (duplicateID_ header) i y in
  let subssh := ssh_entry addr hgtx maps.2 in
  let txio := setFromCoinbase (stxo_isCoinbase stxo)
                (setTxOut txioKey (setValue (stxo_getValue stxo) TxIOPair_new)) in
  (utxo_insert hash y stxo maps.1,
   ssh_put addr hgtx (set_txioMap (map_insert txioKey txio (txioMap_ subssh)).1 subssh) maps.2).

(** One output: it is read, and skipped when its address is not registered or
    was scanned up to this height before. *)
Definition scan_output (batch : ParserBatch) (header : BlockHeader) (i y : Z) (txn : BCTX) (txout : Z * Z)
    : result (option (list byte * StoredTxOut)) :=
  data ← raw_read (bctx_data txn) txout.1 txout.2;
  script ← output_script data;
  scrRef ← getTxOutScrAddrNoCopy cfg script;
  match map_find scrRef (scriptRefMap_ batch) with
  | None => Ok None
  | Some scanned =>
      if signed 32 (blockHeight_ header) <=? scanned then Ok None
      else
        hash ← bctx_hash txn;
        Ok (Some (hash, new_stxo header i y txn data hash (getScrAddr scrRef)))
  end.

Fixpoint scan_outputs (batch : ParserBatch) (header : BlockHeader) (i y : Z) (txn : BCTX)
    (txouts : list (Z * Z)) (maps : utxo_map * ssh_map) : result (utxo_map * ssh_map) :=
  match txouts with
  | [] => Ok maps
  | txout :: txouts =>
      found ← scan_output batch header i y txn txout;
      scan_outputs batch header i (y + 1) txn txouts
        (match found with
         | Some (hash, stxo) => add_output header i y hash stxo maps
         | None => maps
         end)
  end.

Fixpoint scan_txs_outputs (batch : ParserBatch) (header : BlockHeader) (i : Z) (txns : list BCTX)
    (maps : utxo_map * ssh_map) : result (utxo_map * ssh_map) :=
  match txns with
  | [] => Ok maps
  | txn :: txns =>
      maps ← scan_outputs batch header i 0 txn (txouts_ txn) maps;
      scan_txs_outputs batch header (i + 1) txns maps
  end.

Definition block_header (bd : BlockData) : result BlockHeader :=
  match headerPtr_ bd with Some h => Ok h | None => Err UB end.

Definition OutputMaps : Type := stdmap Z BlockData * (utxo_map * ssh_map).

(** The loop of a thread over the heights it takes.  [None]: a block was not
    there and the thread returned, with nothing merged. *)
Fixpoint outputs_loop (batch : ParserBatch) (heights : list Z) (st : OutputMaps) : Chain (option OutputMaps) :=
  match heights with
  | [] => mret (Some st)
  | h :: heights =>
      blockdata ← getBlockData batch h;
      if negb (bd_isInitialized blockdata) then mret None
      else
        header ← chain_of (block_header blockdata);
        maps ← chain_of (scan_txs_outputs batch header 0 (txns_ blockdata) st.2);
        outputs_loop batch heights ((map_insert h blockdata st.1).1, maps)
  end.

Definition set_maps (blocks : stdmap Z BlockData) (outputs : utxo_map) (sshs : ssh_map) (batch : ParserBatch)
    : ParserBatch :=
  mkBatch (fileMaps_ batch) (pb_start batch) (pb_end batch) blocks outputs sshs (spentOutputs_ batch)
    (scriptRefMap_ batch).

(** A sub history of a height that is there is kept: no other thread has it. *)
Definition merge_output_ssh : ssh_map -> ssh_map -> ssh_map := merge_with insert_range.

Definition processOutputsThread (batch : ParserBatch) (heights : list Z) : Chain ParserBatch :=
  res ← outputs_loop batch heights ([], ([], []));
  mret (match res with
        | None => batch
        | Some (blocks, (outputs, sshs)) =>
            set_maps (insert_range blocks (blockMap_ batch)) (insert_range outputs (outputMap_ batch))
              (merge_output_ssh sshs (sshMap_ batch)) batch
        end).

Fixpoint run_outputs (schedule : list (list Z)) (batch : ParserBatch) : Chain ParserBatch :=
  match schedule with
  | [] => mret batch
  | heights :: schedule => batch ← processOutputsThread batch heights; run_outputs schedule batch
  end.

(** ** Inputs *)

(** The outputs of the batch join the unspent ones. *)
Definition merge_utxos : utxo_map -> utxo_map -> utxo_map := merge_with insert_range.

(** The unspent output that an input refers to. *)
Definition find_spent (utxoMap : utxo_map) (txn : BCTX) (txin : Z * Z) : result (option StoredTxOut) :=
  outHash ← raw_read (bctx_data txn) txin.1 32;
  match map_find outHash utxoMap with
  | None => Ok None
  | Some outs => id ← raw_read (bctx_data txn) (txin.1 + 32) 4; Ok (map_find (le_val id) outs)
  end.

Definition add_spend (hgtx txinkey addr : list byte) (stxo : StoredTxOut) (maps : ssh_map * list StoredTxOut)
    : ssh_map * list StoredTxOut :=
  let txoutkey := stxo_getDBKey false stxo in
  let subssh := ssh_entry addr hgtx maps.1 in
  let txio := setValue (stxo_getValue stxo) (setTxIn txinkey (setTxOut txoutkey TxIOPair_new)) in
  (ssh_put addr hgtx (set_txioMap (map_put txoutkey txio (txioMap_ subssh)) subssh) maps.1,
   maps.2 ++ [stxo]).

Definition scan_input (utxoMap : utxo_map) (header : BlockHeader) (i y : Z) (txn : BCTX) (txin : Z * Z)
    (maps : ssh_map * list StoredTxOut) : result (ssh_map * list StoredTxOut) :=
  found ← find_spent utxoMap txn txin;
  match found with
  | None => Ok maps
  | Some stxo =>
      let hgtx := getBlkDataKeyNoPrefix (blockHeight_ header) (duplicateID_ header) in
      let txinkey := getBlkDataKeyNoPrefix_txout (blockHeight_ header) (duplicateID_ header) i y in
      hash ← bctx_hash txn;
      let stxo := set_stxo_spender hash (wrap 32 (zlen (txouts_ txn)))
                    (set_stxo_spent (spentness_val TXOUT_SPENT) txinkey stxo) in
      '(addr, stxo) ← stxo_getScrAddress cfg stxo;
      Ok (add_spend hgtx txinkey addr stxo maps)
  end.

Fixpoint scan_inputs (utxoMap : utxo_map) (header : BlockHeader) (i y : Z) (txn : BCTX) (txins : list (Z * Z))
    (maps : ssh_map * list StoredTxOut) : result (ssh_map * list StoredTxOut) :=
  match txins with
  | [] => Ok maps
  | txin :: txins =>
      maps ← scan_input utxoMap header i y txn txin maps;
      scan_inputs utxoMap header i (y + 1) txn txins maps
  end.

Fixpoint scan_txs_inputs (utxoMap : utxo_map) (header : BlockHeader) (i : Z) (txns : list BCTX)
    (maps : ssh_map * list StoredTxOut) : result (ssh_map * list StoredTxOut) :=
  match txns with
  | [] => Ok maps
  | txn :: txns =>
      maps ← scan_inputs utxoMap header i 0 txn (txins_ txn) maps;
      scan_txs_inputs utxoMap header (i + 1) txns maps
  end.

Fixpoint inputs_loop (batch : ParserBatch) (utxoMap : utxo_map) (heights : list Z)
    (maps : ssh_map * list StoredTxOut) : result (ssh_map * list StoredTxOut) :=
  match heights with
  | [] => Ok maps
  | h :: heights =>
      match map_find h (blockMap_ batch) with
      | None => Err RuntimeError
      | Some blockdata =>
          header ← block_header blockdata;
          maps ← scan_txs_inputs utxoMap header 0 (txns_ blockdata) maps;
          inputs_loop batch utxoMap heights maps
      end
  end.

(** The entries of a thread's sub history overwrite those of the batch. *)
Definition merge_txios (e e' : StoredSubHistory) : StoredSubHistory :=
  set_txioMap (put_range (txioMap_ e) (txioMap_ e')) e'.
Definition merge_input_ssh : ssh_map -> ssh_map -> ssh_map := merge_with (merge_with merge_txios).

Definition set_spends (sshs : ssh_map) (spent : list StoredTxOut) (batch : ParserBatch) : ParserBatch :=
  mkBatch (fileMaps_ batch) (pb_start batch) (pb_end batch) (blockMap_ batch) (outputMap_ batch) sshs spent
    (scriptRefMap_ batch).

Definition processInputsThread (utxoMap : utxo_map) (batch : ParserBatch) (heights : list Z) : result ParserBatch :=
  '(sshs, spent) ← inputs_loop batch utxoMap heights ([], []);
  Ok (set_spends (merge_input_ssh sshs (sshMap_ batch)) (spentOutputs_ batch ++ spent) batch).

Fixpoint run_inputs (utxoMap : utxo_map) (schedule : list (list Z)) (batch : ParserBatch) : result ParserBatch :=
  match schedule with
  | [] => Ok batch
  | heights :: schedule => batch ← processInputsThread utxoMap batch heights; run_inputs utxoMap schedule batch
  end.

(** The spent outputs leave the unspent ones; a missing one is logged. *)
Definition purge_one (u : utxo_map) (spent_txout : StoredTxOut) : utxo_map :=
  match map_find (stxo_parentHash spent_txout) u with
  | None => u
  | Some outs =>
      match map_find (stxo_txOutIndex spent_txout) outs with
      | None => u
      | Some _ =>
          let outs := map_erase (stxo_txOutIndex spent_txout) outs in
          if zlen outs =? 0 then map_erase (stxo_parentHash spent_txout) u
          else map_put (stxo_parentHash spent_txout) outs u
      end
  end.

(** The three steps of a batch up to the commit: outputs, inputs with the
    merged map, and the purge.  The result is the batch and [utxoMap_]. *)
Definition processBatch (outSchedule inSchedule : list (list Z)) (utxoMap : utxo_map) (batch : ParserBatch)
    : Chain (ParserBatch * utxo_map) :=
  batch ← run_outputs outSchedule batch;
  let utxoMap := merge_utxos (outputMap_ batch) utxoMap in
  batch ← chain_of (run_inputs utxoMap inSchedule batch);
  mret (batch, foldl purge_one utxoMap (spentOutputs_ batch)).

(** A batch with the heights its threads take. *)
Record ScheduledBatch := mkScheduled {
  sb_outputs : list (list Z); sb_inputs : list (list Z); sb_batch : ParserBatch }.

(** The batches of a scan.  The outputs of a batch are read while the inputs of
    the one before are, and use nothing that those change. *)
Fixpoint processBatches (batches : list ScheduledBatch) (utxoMap : utxo_map) : Chain (list ParserBatch * utxo_map) :=
  match batches with
  | [] => mret ([], utxoMap)
  | b :: batches =>
      '(batch, utxoMap) ← processBatch (sb_outputs b) (sb_inputs b) utxoMap (sb_batch b);
      '(done, utxoMap) ← processBatches batches utxoMap;
      mret (batch :: done, utxoMap)
  end.

(** ** Commit *)

Definition subssh_key (addr hgtx : list byte) : list byte :=
  theString_ (bw_put_BinaryData hgtx (bw_put_BinaryData addr
    (bw_put_uint8_t (prefix_val DB_PREFIX_SCRIPT) bw_new))).

Fixpoint serialize_subs (validDup : stdmap Z Z) (addr : list byte) (subs : stdmap (list byte) StoredSubHistory)
    (m : stdmap (list byte) BinaryWriter) : result (stdmap (list byte) BinaryWriter) :=
  match subs with
  | [] => Ok m
  | (hgtx, e) :: subs =>
      let key := subssh_key addr hgtx in
      bw ← sub_serializeDBValue validDup e (default bw_new (map_find key m));
      serialize_subs validDup addr subs (map_put key bw m)
  end.

Fixpoint serialize_sshs (validDup : stdmap Z Z) (sshs : ssh_map) (m : stdmap (list byte) BinaryWriter)
    : result (stdmap (list byte) BinaryWriter) :=
  match sshs with
  | [] => Ok m
  | (addr, subs) :: sshs => m ← serialize_subs validDup addr subs m; serialize_sshs validDup sshs m
  end.

(** The outputs of the batch, then the spent ones, which replace them. *)
Definition serialize_utxo (m : stdmap (list byte) BinaryWriter) (s : StoredTxOut) : stdmap (list byte) BinaryWriter :=
  let key := stxo_getDBKey true s in
  map_put key (stxo_serializeDBValue ARMORY_DB_BARE true s (default bw_new (map_find key m))) m.
Definition serialize_spent (m : stdmap (list byte) BinaryWriter) (s : StoredTxOut) : stdmap (list byte) BinaryWriter :=
  map_put (stxo_getDBKey true s) (stxo_serializeDBValue ARMORY_DB_BARE true s bw_new) m.

Definition all_outputs (u : utxo_map) : list StoredTxOut := u ≫= (fun e => map_values e.2).

Definition serialize_stxos (batch : ParserBatch) : stdmap (list byte) BinaryWriter :=
  foldl serialize_spent (foldl serialize_utxo [] (all_outputs (outputMap_ batch))) (spentOutputs_ batch).
End scanner.

(** [putValue] of every entry of a map. *)
Definition put_all {DB} `{Store DB} (m : stdmap (list byte) BinaryWriter) (db : DB) : DB :=
  foldl (fun db e => db_insert e.1 (theString_ e.2) db) db m.

(** What [writeBlockData] does with a batch: nothing if it has no block, and
    else the new STXO and SUBSSH tables, and the top block's height and hash,
    which go into the record of the SUBSSH table. *)
Definition writeBlockData {DB} `{Store DB} (validDup : stdmap Z Z) (batch : ParserBatch) (stxoDB subsshDB : DB)
    : result (option (DB * DB * (Z * list byte))) :=
  match last (blockMap_ batch) with
  | None => Ok None
  | Some (_, topBlock) =>
      match headerPtr_ topBlock with
      | None => Err RuntimeError
      | Some topheader =>
          subs ← serialize_sshs validDup (sshMap_ batch) [];
          Ok (Some (put_all (serialize_stxos batch) stxoDB, put_all subs subsshDB,
                    (blockHeight_ topheader, thisHash_ topheader)))
      end
  end.

(** ** The totals

    [updateSSH] reads the sub histories of an address that were not tallied
    before.  An output that is spent in its own block counts for nothing. *)

Definition tally_txio (total : Z) (txio : TxIOPair) : Z :=
  if negb (isMultisig_ txio) then
    if hasTxIn txio then
      if startsWith (getDBKeyOfOutput txio) (take 4 (getDBKeyOfInput txio)) then total
      else wrap 64 (total - amount_ txio)
    else wrap 64 (total + amount_ txio)
  else total.

Definition tally_sub (ssh : StoredScriptHistory) (subssh : StoredSubHistory) : StoredScriptHistory :=
  set_summary (map_put (sub_height subssh) (txioCount_ subssh) (subsshSummary_ ssh))
    (set_totals (wrap 64 (totalTxioCount_ ssh + txioCount_ subssh))
       (foldl tally_txio (totalUnspent_ ssh) (map_values (txioMap_ subssh))) ssh).

(** The address of a key of the table. *)
Definition subssh_addr (key : list byte) : list byte := getSliceCopy key 1 (zlen key - 5).

(** One entry of the table: a block that is not on the main branch is left
    out. *)
Definition tally_entry (validDup : stdmap Z Z) (ssh : StoredScriptHistory) (e : list byte * list byte)
    : result StoredScriptHistory :=
  subssh ← sub_unserializeDBKey e.1 true StoredSubHistory_new;
  if negb (valid_dup_at validDup (sub_height subssh) =? sub_dupID subssh) then Ok ssh
  else
    '(subssh, _) ← sub_unserializeDBValue subssh (brr_setNewData e.2);
    Ok (tally_sub ssh subssh).

Fixpoint tally_entries (validDup : stdmap Z Z) (ssh : StoredScriptHistory) (l : list (list byte * list byte))
    : result StoredScriptHistory :=
  match l with
  | [] => Ok ssh
  | e :: l => ssh ← tally_entry validDup ssh e; tally_entries validDup ssh l
  end.
