(* ===== verification/ScannerSpec.v ===== *)
(** * ScannerSpec: what a scan should find

    The outputs and inputs of the blocks as data, and the ledger: the unspent
    outputs of registered addresses, changed by the transactions one after the
    other in the order of the chain.  The scanner reads all outputs of a batch
    before its inputs, in several threads; ScannerBatch.v and ScannerChain.v
    show that it ends with the ledger all the same. *)

From S2P Require Import Prelude BinaryData BinaryIO Hashing StdMap MapSums DBUtils BlockHeader HeadersDB.
From S2P Require Import ScriptUtils TxLength Blockchain BlockData StoredTxOut ScriptHistory Scanner.

(** ** Transactions as the scanner sees them *)

(** Output [oe_y] of transaction [oe_i], of a registered address. *)
Record OutEv := mkOutEv { oe_header : BlockHeader; oe_i : Z; oe_y : Z; oe_stxo : StoredTxOut }.

(** Input [ie_y] of transaction [ie_i], the output it names, and the hash and
    the number of outputs of its transaction. *)
Record InEv := mkInEv {
  ie_header : BlockHeader; ie_i : Z; ie_y : Z;
  ie_hash : list byte; ie_idx : Z;
  ie_spender : list byte; ie_count : Z;
}.

Record TxView := mkTxView { tv_ins : list InEv; tv_outs : list OutEv }.

Section reading.
Context `{HashFns}.
Variable cfg : Config.

Fixpoint read_outputs_of (batch : ParserBatch) (header : BlockHeader) (i y : Z) (txn : BCTX)
    (txouts : list (Z * Z)) : result (list OutEv) :=
  match txouts with
  | [] => Ok []
  | txout :: txouts =>
      found ← scan_output cfg batch header i y txn txout;
      evs ← read_outputs_of batch header i (y + 1) txn txouts;
      Ok (match found with Some (_, stxo) => mkOutEv header i y stxo :: evs | None => evs end)
  end.

Fixpoint read_inputs_of (header : BlockHeader) (i y : Z) (txn : BCTX) (txins : list (Z * Z)) : result (list InEv) :=
  match txins with
  | [] => Ok []
  | txin :: txins =>
      outHash ← raw_read (bctx_data txn) txin.1 32;
      id ← raw_read (bctx_data txn) (txin.1 + 32) 4;
      hash ← bctx_hash txn;
      evs ← read_inputs_of header i (y + 1) txn txins;
      Ok (mkInEv header i y outHash (le_val id) hash (wrap 32 (zlen (txouts_ txn))) :: evs)
  end.

Fixpoint read_txs (batch : ParserBatch) (header : BlockHeader) (i : Z) (txns : list BCTX) : result (list TxView) :=
  match txns with
  | [] => Ok []
  | txn :: txns =>
      outs ← read_outputs_of batch header i 0 txn (txouts_ txn);
      ins ← read_inputs_of header i 0 txn (txins_ txn);
      tvs ← read_txs batch header (i + 1) txns;
      Ok (mkTxView ins outs :: tvs)
  end.

(** ** The effect of an event on the maps of a thread *)

Definition oe_hash (ev : OutEv) : list byte := stxo_parentHash (oe_stxo ev).
Definition header_hgtx (h : BlockHeader) : list byte := heightAndDupToHgtx (blockHeight_ h) (duplicateID_ h).
Definition oe_hgtx (ev : OutEv) : list byte := header_hgtx (oe_header ev).
Definition oe_addr (ev : OutEv) : list byte := stxo_scrAddr (oe_stxo ev).
Definition oe_key (ev : OutEv) : list byte :=
  getBlkDataKeyNoPrefix_txout (blockHeight_ (oe_header ev)) (duplicateID_ (oe_header ev)) (oe_i ev) (oe_y ev).
Definition oe_txio (ev : OutEv) : TxIOPair :=
  setFromCoinbase (stxo_isCoinbase (oe_stxo ev))
    (setTxOut (oe_key ev) (setValue (stxo_getValue (oe_stxo ev)) TxIOPair_new)).

Definition add_out_ev (maps : utxo_map * ssh_map) (ev : OutEv) : utxo_map * ssh_map :=
  add_output (oe_header ev) (oe_i ev) (oe_y ev) (oe_hash ev) (oe_stxo ev) maps.

(** A spend: the address and the output, marked as spent by the input. *)
Record Spend := mkSpend { sp_ev : InEv; sp_addr : list byte; sp_stxo : StoredTxOut }.

Definition ie_hgtx (ev : InEv) : list byte := header_hgtx (ie_header ev).
Definition ie_key (ev : InEv) : list byte :=
  getBlkDataKeyNoPrefix_txout (blockHeight_ (ie_header ev)) (duplicateID_ (ie_header ev)) (ie_i ev) (ie_y ev).
Definition sp_key (sp : Spend) : list byte := stxo_getDBKey false (sp_stxo sp).
Definition sp_txio (sp : Spend) : TxIOPair :=
  setValue (stxo_getValue (sp_stxo sp)) (setTxIn (ie_key (sp_ev sp)) (setTxOut (sp_key sp) TxIOPair_new)).

Definition add_spend_ev (maps : ssh_map * list StoredTxOut) (sp : Spend) : ssh_map * list StoredTxOut :=
  add_spend (ie_hgtx (sp_ev sp)) (ie_key (sp_ev sp)) (sp_addr sp) (sp_stxo sp) maps.

(** The output that is recorded as spent. *)
Definition spent_by (ev : InEv) (s : StoredTxOut) : StoredTxOut :=
  set_stxo_spender (ie_spender ev) (ie_count ev)
    (set_stxo_spent (spentness_val TXOUT_SPENT) (ie_key ev) s).

(** The address of an output, computed or from its record. *)
Definition stxo_addr (s : StoredTxOut) : result (list byte) := fst <$> stxo_getScrAddress cfg s.

Fixpoint spends_of (u : utxo_map) (ins : list InEv) : result (list Spend) :=
  match ins with
  | [] => Ok []
  | ev :: ins =>
      match utxo_find (ie_hash ev) (ie_idx ev) u with
      | None => spends_of u ins
      | Some s =>
          '(addr, s) ← stxo_getScrAddress cfg (spent_by ev s);
          sps ← spends_of u ins;
          Ok (mkSpend ev addr s :: sps)
      end
  end.

(** ** The ledger *)

Definition Ledger : Type := list byte -> Z -> option StoredTxOut.
Definition spend_outpoint (h : list byte) (i : Z) (L : Ledger) : Ledger :=
  fun h' i' => if decide (h' = h /\ i' = i) then None else L h' i'.
Definition create_output (h : list byte) (i : Z) (s : StoredTxOut) (L : Ledger) : Ledger :=
  fun h' i' => if decide (h' = h /\ i' = i) then Some s else L h' i'.

(** A transaction spends what its inputs name and creates its outputs. *)
Definition ledger_tx (L : Ledger) (tv : TxView) : Ledger :=
  foldl (fun L ev => create_output (oe_hash ev) (oe_y ev) (oe_stxo ev) L)
    (foldl (fun L ev => spend_outpoint (ie_hash ev) (ie_idx ev) L) L (tv_ins tv)) (tv_outs tv).
Definition ledger (L : Ledger) (tvs : list TxView) : Ledger := foldl ledger_tx L tvs.

(** A valid chain: what an input names is unspent if it is an output of ours at
    all, now or later, and outputs are new.  [known] tells the outputs that are
    created at any time. *)
Fixpoint valid_ins (known : list byte -> Z -> Prop) (L : Ledger) (ins : list InEv) : Prop :=
  match ins with
  | [] => True
  | ev :: ins =>
      (known (ie_hash ev) (ie_idx ev) -> L (ie_hash ev) (ie_idx ev) <> None) /\
      valid_ins known (spend_outpoint (ie_hash ev) (ie_idx ev) L) ins
  end.
Fixpoint valid_txs (known : list byte -> Z -> Prop) (L : Ledger) (tvs : list TxView) : Prop :=
  match tvs with
  | [] => True
  | tv :: tvs => valid_ins known L (tv_ins tv) /\ valid_txs known (ledger_tx L tv) tvs
  end.

Definition tvs_outs (tvs : list TxView) : list OutEv := tvs ≫= tv_outs.
Definition tvs_ins (tvs : list TxView) : list InEv := tvs ≫= tv_ins.

Definition created (L : Ledger) (tvs : list TxView) (h : list byte) (i : Z) : Prop :=
  L h i <> None \/ exists ev, ev ∈ tvs_outs tvs /\ oe_hash ev = h /\ oe_y ev = i.

Record ledger_valid (L : Ledger) (tvs : list TxView) : Prop := {
  lv_ins : valid_txs (created L tvs) L tvs;
  lv_new : forall ev, ev ∈ tvs_outs tvs -> L (oe_hash ev) (oe_y ev) = None;
  lv_once : NoDup (map (fun ev => (oe_hash ev, oe_y ev)) (tvs_outs tvs));
}.
End reading.
