(* ===== verification/ScannerProps.v ===== *)
(** * ScannerProps: the maps of the scanner

    What is found in the maps of the unspent outputs and of the sub histories
    after the steps of the scan, and that the threads of a batch, whatever
    heights each takes and in whatever order they merge, find exactly the
    outputs and the spends of the blocks. *)

From S2P Require Import Prelude BinaryData BinaryIO Hashing StdMap MapSums DBUtils BlockHeader HeadersDB.
From S2P Require Import ScriptUtils TxLength Blockchain BlockData StoredTxOut ScriptHistory ScriptHistoryProps.
From S2P Require Import Scanner ScannerSpec.

(** ** Finding in maps of maps *)

Definition utxo_wf (u : utxo_map) : Prop := map_ordered u /\ Forall (fun e => map_ordered e.2) u.
Definition sub_wf (e : StoredSubHistory) : Prop := map_ordered (txioMap_ e) /\ txioMap_ e <> [].
Definition subs_wf (m : stdmap (list byte) StoredSubHistory) : Prop :=
  map_ordered m /\ Forall (fun e => sub_wf e.2) m.
Definition ssh_wf (m : ssh_map) : Prop := map_ordered m /\ Forall (fun e => subs_wf e.2) m.

Definition ssh_find (a h k : list byte) (m : ssh_map) : option TxIOPair := map_find k (txioMap_ (ssh_entry a h m)).
Definition ssh_has (a h : list byte) (m : ssh_map) : Prop := is_Some (map_find h (default [] (map_find a m))).

Lemma utxo_wf_inner h u : utxo_wf u -> map_ordered (default [] (map_find h u)).
Proof.
  intros [Ho Hf]. destruct (map_find h u) as [outs|] eqn:E; [|done].
  exact (map_find_Forall _ _ _ _ Hf E).
Qed.

Lemma utxo_insert_wf h i s u : utxo_wf u -> utxo_wf (utxo_insert h i s u).
Proof.
  intros Hu. pose proof (utxo_wf_inner h u Hu) as Hi. destruct Hu as [Ho Hf]. split; [by apply map_put_ordered|].
  apply map_put_Forall; [|done]. by apply map_insert_sorted.
Qed.

Lemma utxo_find_default h i u : utxo_find h i u = map_find i (default [] (map_find h u)).
Proof. unfold utxo_find. by destruct (map_find h u). Qed.

Lemma utxo_find_insert h i s u h' i' : utxo_wf u ->
  utxo_find h' i' (utxo_insert h i s u) =
    if decide (h' = h /\ i' = i) then Some (default s (utxo_find h i u)) else utxo_find h' i' u.
Proof.
  intros Hu. pose proof (utxo_wf_inner h u Hu) as Hi. destruct Hu as [Ho Hf]. rewrite !utxo_find_default.
  unfold utxo_insert. rewrite map_find_put by done.
  destruct (decide (h' = h)) as [->|Hne]; [|by rewrite decide_False by tauto]. cbn [default id].
  destruct (decide (i' = i)) as [->|Hni]; [rewrite decide_True by done; by apply map_find_insert|].
  rewrite decide_False by tauto. unfold map_insert.
  destruct (map_find i (default [] (map_find h u))); cbn [fst]; [done|rewrite map_find_put_ne by auto; done].
Qed.

Lemma ssh_wf_subs a m : ssh_wf m -> subs_wf (default [] (map_find a m)).
Proof.
  intros [Ho Hf]. destruct (map_find a m) as [subs|] eqn:E; [|done]. exact (map_find_Forall _ _ _ _ Hf E).
Qed.

Lemma subs_entry_ordered h m : subs_wf m -> map_ordered (txioMap_ (default StoredSubHistory_new (map_find h m))).
Proof.
  intros [Ho Hf]. destruct (map_find h m) as [e|] eqn:E; [|done].
  exact (proj1 (map_find_Forall (fun e => sub_wf e.2) _ _ _ Hf E)).
Qed.

Lemma ssh_entry_ordered a h m : ssh_wf m -> map_ordered (txioMap_ (ssh_entry a h m)).
Proof. intros Hm. by apply subs_entry_ordered, ssh_wf_subs. Qed.

Lemma ssh_put_wf a h e m : ssh_wf m -> sub_wf e -> ssh_wf (ssh_put a h e m).
Proof.
  intros Hm He. destruct (ssh_wf_subs a m Hm) as [H1 H2]. destruct Hm as [Ho Hf].
  split; [by apply map_put_ordered|]. apply map_put_Forall; [|done]. split; [by apply map_put_ordered|].
  by apply (map_put_Forall (fun e => sub_wf e.2)).
Qed.

Lemma ssh_entry_put a h e m a' h' : ssh_wf m ->
  ssh_entry a' h' (ssh_put a h e m) = if decide (a' = a /\ h' = h) then e else ssh_entry a' h' m.
Proof.
  intros Hm. destruct (ssh_wf_subs a m Hm) as [H1 _]. destruct Hm as [Ho _]. unfold ssh_entry, ssh_put.
  rewrite map_find_put by done. destruct (decide (a' = a)) as [->|Ha]; [|by rewrite decide_False by tauto].
  cbn [default id]. rewrite map_find_put by done. destruct (decide (h' = h)) as [->|Hh].
  - by rewrite decide_True.
  - by rewrite decide_False by tauto.
Qed.

Lemma ssh_has_put a h e m a' h' : ssh_wf m ->
  ssh_has a' h' (ssh_put a h e m) <-> (a' = a /\ h' = h) \/ ssh_has a' h' m.
Proof.
  intros Hm. destruct (ssh_wf_subs a m Hm) as [H1 _]. destruct Hm as [Ho _]. unfold ssh_has, ssh_put.
  rewrite map_find_put by done. destruct (decide (a' = a)) as [->|Ha]; [|tauto].
  cbn [default id]. rewrite map_find_put by done. destruct (decide (h' = h)) as [->|Hh]; [|tauto].
  split; [by left|]. by eexists.
Qed.

(** ** Merging *)

Lemma merge_utxos_spec l m : utxo_wf l -> utxo_wf m -> utxo_wf (merge_utxos l m) /\
  forall h i, utxo_find h i (merge_utxos l m) =
    match utxo_find h i m with Some s => Some s | None => utxo_find h i l end.
Proof.
  intros [Hl1 Hl2] [Hm1 Hm2]. unfold merge_utxos. split.
  - split; [by apply (merge_with_find insert_range l m [])|].
    apply merge_with_Forall; [done|done|]. intros v v' Hv Hv'. by apply (insert_range_find v v' 0).
  - intros h i. unfold utxo_find. destruct (merge_with_find insert_range l m h Hl1 Hm1) as [_ ->].
    destruct (map_find h l) as [v|] eqn:El, (map_find h m) as [v'|] eqn:Em; cbn [mbind option_bind]; try done;
      [|by destruct (map_find i v')].
    pose proof (map_find_Forall _ _ _ _ Hl2 El) as Hv. pose proof (map_find_Forall _ _ _ _ Hm2 Em) as Hv'.
    apply (proj2 (insert_range_find v v' i Hv Hv')).
Qed.

(** Sub histories that no thread before had. *)
Lemma merge_output_ssh_spec l m : ssh_wf l -> ssh_wf m -> (forall a h, ssh_has a h l -> ~ ssh_has a h m) ->
  ssh_wf (merge_output_ssh l m) /\
  (forall a h k, ssh_find a h k (merge_output_ssh l m) =
     match ssh_find a h k m with Some t => Some t | None => ssh_find a h k l end) /\
  (forall a h, ssh_has a h (merge_output_ssh l m) <-> ssh_has a h l \/ ssh_has a h m).
Proof.
  intros Hl Hm Hd. pose proof Hl as [Hl1 Hl2]. pose proof Hm as [Hm1 Hm2]. unfold merge_output_ssh.
  assert (forall a h, map_find h (default [] (map_find a (merge_with insert_range l m))) =
    match map_find h (default [] (map_find a m)) with Some e => Some e | None => map_find h (default [] (map_find a l)) end) as E.
  { intros a h. destruct (merge_with_find insert_range l m a Hl1 Hm1) as [_ ->].
    destruct (map_find a l) as [v|] eqn:El, (map_find a m) as [v'|] eqn:Em; cbn [default id map_find]; try done;
      [|by destruct (map_find h v')].
    apply insert_range_find; [apply (map_find_Forall _ _ _ _ Hl2 El)|apply (map_find_Forall _ _ _ _ Hm2 Em)]. }
  split; [split|split].
  - by apply (merge_with_find insert_range l m []).
  - apply merge_with_Forall; [done|done|]. intros v v' [Hv1 Hv2] [Hv1' Hv2'].
    rewrite insert_range_merge by done. split; [by apply (merge_with_find _ v v' [])|].
    by apply (merge_with_Forall _ sub_wf).
  - intros a h k. unfold ssh_find, ssh_entry. rewrite E.
    destruct (map_find h (default [] (map_find a m))) as [e|] eqn:Em; cbn [default id]; [|done].
    destruct (map_find h (default [] (map_find a l))) as [e'|] eqn:El; [|by destruct (map_find k (txioMap_ e))].
    exfalso. by apply (Hd a h); eexists.
  - intros a h. unfold ssh_has. rewrite E. destruct (map_find h (default [] (map_find a m))) as [e|] eqn:Em.
    + split; [intros _; right; by eexists|intros _; by eexists].
    + split; [by left|]. intros [H|[? [=]]]. done.
Qed.

Lemma merge_txios_spec l m : subs_wf l -> subs_wf m ->
  subs_wf (merge_with merge_txios l m) /\
  forall h k, map_find k (txioMap_ (default StoredSubHistory_new (map_find h (merge_with merge_txios l m)))) =
    match map_find k (txioMap_ (default StoredSubHistory_new (map_find h l))) with
    | Some t => Some t
    | None => map_find k (txioMap_ (default StoredSubHistory_new (map_find h m)))
    end.
Proof.
  intros Hl Hm. pose proof Hl as [Hl1 Hl2]. pose proof Hm as [Hm1 Hm2]. split; [split|].
  - by apply (merge_with_find _ l m []).
  - apply (merge_with_Forall _ sub_wf); [done|done|]. intros e e' [He _] [He' Hn'].
    split; [by apply (put_range_find (txioMap_ e) (txioMap_ e') [])|by apply put_range_nonempty].
  - intros h k. destruct (merge_with_find merge_txios l m h Hl1 Hm1) as [_ ->].
    pose proof (subs_entry_ordered h l Hl) as He. pose proof (subs_entry_ordered h m Hm) as He'.
    destruct (map_find h l) as [e|], (map_find h m) as [e'|]; cbn [default id] in *; try done.
    + by apply put_range_find.
    + by destruct (map_find k (txioMap_ e)).
Qed.

Lemma merge_input_ssh_spec l m : ssh_wf l -> ssh_wf m ->
  ssh_wf (merge_input_ssh l m) /\
  forall a h k, ssh_find a h k (merge_input_ssh l m) =
    match ssh_find a h k l with Some t => Some t | None => ssh_find a h k m end.
Proof.
  intros Hl Hm. pose proof Hl as [Hl1 Hl2]. pose proof Hm as [Hm1 Hm2]. unfold merge_input_ssh. split; [split|].
  - by apply (merge_with_find _ l m []).
  - apply merge_with_Forall; [done|done|]. intros v v' Hv Hv'. by apply merge_txios_spec.
  - intros a h k. unfold ssh_find, ssh_entry.
    destruct (merge_with_find (merge_with merge_txios) l m a Hl1 Hm1) as [_ ->].
    pose proof (ssh_wf_subs a l Hl) as He. pose proof (ssh_wf_subs a m Hm) as He'.
    destruct (map_find a l) as [v|], (map_find a m) as [v'|]; cbn [default id map_find] in *; try done.
    + by apply merge_txios_spec.
    + by destruct (map_find k (txioMap_ (default StoredSubHistory_new (map_find h v)))).
Qed.

(** ** The maps that hold given events *)

(** Where the entry of an output and of a spend is, and what it is. *)
Definition oe_entry (ev : OutEv) : list byte * list byte * list byte * TxIOPair :=
  (oe_addr ev, oe_hgtx ev, oe_key ev, oe_txio ev).
Definition oe_utxo (ev : OutEv) : list byte * Z * StoredTxOut := (oe_hash ev, oe_y ev, oe_stxo ev).
Definition oe_point (ev : OutEv) : list byte * Z := (oe_hash ev, oe_y ev).
Definition sp_entry (sp : Spend) : list byte * list byte * list byte * TxIOPair :=
  (sp_addr sp, ie_hgtx (sp_ev sp), sp_key sp, sp_txio sp).

Record out_state (evs : list OutEv) (maps : utxo_map * ssh_map) : Prop := {
  os_utxo_wf : utxo_wf maps.1;
  os_ssh_wf : ssh_wf maps.2;
  os_utxo h i s : utxo_find h i maps.1 = Some s <-> (h, i, s) ∈ map oe_utxo evs;
  os_ssh a h k t : ssh_find a h k maps.2 = Some t <-> (a, h, k, t) ∈ map oe_entry evs;
  os_has a h : ssh_has a h maps.2 -> exists ev, ev ∈ evs /\ oe_addr ev = a /\ oe_hgtx ev = h;
  os_hash h : is_Some (map_find h maps.1) -> exists ev, ev ∈ evs /\ oe_hash ev = h;
}.

(** Outputs are told apart by their keys and by their outpoints. *)
Record outs_distinct (evs : list OutEv) : Prop := {
  od_keys : NoDup (map oe_key evs);
  od_points : NoDup (map oe_point evs);
}.

Lemma outs_distinct_perm e1 e2 : e1 ≡ₚ e2 -> outs_distinct e1 -> outs_distinct e2.
Proof. intros P [H1 H2]. split; [by rewrite <- P|by rewrite <- P]. Qed.

Lemma outs_distinct_app e1 e2 : outs_distinct (e1 ++ e2) -> outs_distinct e1 /\ outs_distinct e2.
Proof.
  intros [H1 H2]. rewrite map_app in H1, H2. apply NoDup_app in H1 as (? & ? & ?), H2 as (? & ? & ?).
  by split; constructor.
Qed.

Lemma out_state_perm e1 e2 maps : e1 ≡ₚ e2 -> out_state e1 maps -> out_state e2 maps.
Proof.
  intros P [H1 H2 H3 H4 H5 H6]. constructor; [done|done|..].
  - intros h i s. by rewrite H3, P.
  - intros a h k t. by rewrite H4, P.
  - intros a h Ha. destruct (H5 a h Ha) as (ev & Hin & E). exists ev. by rewrite <- P.
  - intros h Hh. destruct (H6 h Hh) as (ev & Hin & E). exists ev. by rewrite <- P.
Qed.

Lemma elem_of_oe_utxo h i s evs : (h, i, s) ∈ map oe_utxo evs <->
  exists ev, ev ∈ evs /\ oe_hash ev = h /\ oe_y ev = i /\ oe_stxo ev = s.
Proof.
  rewrite list_elem_of_fmap. unfold oe_utxo. split.
  - intros (ev & E & Hin). rewrite !pair_eq in E. destruct E as [[-> ->] ->]. by exists ev.
  - intros (ev & Hin & <- & <- & <-). by exists ev.
Qed.

Lemma elem_of_oe_entry a h k t evs : (a, h, k, t) ∈ map oe_entry evs <->
  exists ev, ev ∈ evs /\ oe_addr ev = a /\ oe_hgtx ev = h /\ oe_key ev = k /\ oe_txio ev = t.
Proof.
  rewrite list_elem_of_fmap. unfold oe_entry. split.
  - intros (ev & E & Hin). rewrite !pair_eq in E. destruct E as [[[-> ->] ->] ->]. by exists ev.
  - intros (ev & Hin & <- & <- & <- & <-). by exists ev.
Qed.

Lemma ssh_find_put a h e m a' h' k : ssh_wf m ->
  ssh_find a' h' k (ssh_put a h e m) = if decide (a' = a /\ h' = h) then map_find k (txioMap_ e) else ssh_find a' h' k m.
Proof. intros Hm. unfold ssh_find. rewrite ssh_entry_put by done. by case_decide. Qed.

Lemma elem_of_map_snoc {A B} (f : A -> B) l x y : y ∈ map f (l ++ [x]) <-> y ∈ map f l \/ y = f x.
Proof. rewrite map_app, elem_of_app. cbn [map]. by rewrite list_elem_of_singleton. Qed.

Lemma utxo_insert_hash h i s u h' : utxo_wf u ->
  is_Some (map_find h' (utxo_insert h i s u)) <-> h' = h \/ is_Some (map_find h' u).
Proof.
  intros [Ho _]. unfold utxo_insert. rewrite map_find_put by done. case_decide as E; [|tauto].
  split; [by left|]. intros _. by eexists.
Qed.

Lemma not_in_last {A B} (f : A -> B) l x : NoDup (map f (l ++ [x])) -> forall y, y ∈ l -> f y <> f x.
Proof.
  rewrite map_app. intros (_ & Hn & _)%NoDup_app y Hy E. apply (Hn (f y)); [by apply list_elem_of_fmap_2|].
  rewrite E. by left.
Qed.

Lemma add_out_state evs maps ev : outs_distinct (evs ++ [ev]) -> out_state evs maps ->
  out_state (evs ++ [ev]) (add_out_ev maps ev).
Proof.
  intros [Hk Hp] [Hu Hs H3 H4 H5 H6].
  pose proof (not_in_last _ _ _ Hk) as Hk'. pose proof (not_in_last _ _ _ Hp) as Hp'.
  assert (utxo_find (oe_hash ev) (oe_y ev) maps.1 = None) as Hnu.
  { destruct (utxo_find _ _ maps.1) as [s|] eqn:E; [|done]. apply H3, elem_of_oe_utxo in E as (ev' & Hin & E1 & E2 & _).
    destruct (Hp' ev' Hin). unfold oe_point. by rewrite E1, E2. }
  assert (forall a h, ssh_find a h (oe_key ev) maps.2 = None) as Hns.
  { intros a h. destruct (ssh_find a h _ maps.2) as [t|] eqn:E; [|done].
    apply H4, elem_of_oe_entry in E as (ev' & Hin & _ & _ & E & _). by destruct (Hk' ev' Hin). }
  pose proof (ssh_entry_ordered (oe_addr ev) (oe_hgtx ev) maps.2 Hs) as He.
  unfold add_out_ev, add_output. fold (header_hgtx (oe_header ev)). fold (oe_hgtx ev). fold (oe_key ev). fold (oe_addr ev).
  fold (oe_txio ev). cbv zeta. constructor; cbn [fst snd].
  - by apply utxo_insert_wf.
  - apply ssh_put_wf; [done|]. split; [by apply map_insert_sorted|apply map_insert_nonempty].
  - intros h i s. rewrite utxo_find_insert, elem_of_map_snoc, Hnu by done. cbn [default id].
    unfold oe_utxo at 2. rewrite !pair_eq. case_decide as Ed; [|rewrite H3; tauto].
    destruct Ed as [-> ->]. split; [intros [= <-]; by right|]. intros [Hin|[_ ->]]; [|done].
    apply H3 in Hin. congruence.
  - intros a h k t. rewrite ssh_find_put, elem_of_map_snoc by done. cbn [txioMap_ set_txioMap].
    unfold oe_entry at 2. rewrite !pair_eq. case_decide as Ed; [|rewrite H4; tauto].
    destruct Ed as [-> ->]. unfold map_insert.
    assert (map_find (oe_key ev) (txioMap_ (ssh_entry (oe_addr ev) (oe_hgtx ev) maps.2)) = None) as -> by apply Hns.
    cbn [fst]. destruct (decide (k = oe_key ev)) as [->|Hne].
    + rewrite map_find_put_eq. split; [intros [= <-]; by right|]. intros [Hin|[_ ->]]; [|done].
      apply H4 in Hin. by rewrite Hns in Hin.
    + rewrite map_find_put_ne by auto. fold (ssh_find (oe_addr ev) (oe_hgtx ev) k maps.2). rewrite H4. tauto.
  - intros a h. rewrite ssh_has_put by done. intros [[-> ->]|Hh].
    + exists ev. split; [|done]. rewrite elem_of_app. right. by left.
    + destruct (H5 a h Hh) as (ev' & Hin & E). exists ev'. split; [|done]. rewrite elem_of_app. by left.
  - intros h. rewrite utxo_insert_hash by done. intros [->|Hh].
    + exists ev. split; [|done]. rewrite elem_of_app. right. by left.
    + destruct (H6 h Hh) as (ev' & Hin & E). exists ev'. split; [|done]. rewrite elem_of_app. by left.
Qed.

Lemma out_state_new : out_state [] ([], []).
Proof.
  constructor; try done.
  - intros h i s. split; [done|by intros ?%elem_of_nil].
  - intros a h k t. split; [done|by intros ?%elem_of_nil].
  - by intros a h [].
  - by intros h [].
Qed.

Lemma add_outs_state evs evs' maps : outs_distinct (evs ++ evs') -> out_state evs maps ->
  out_state (evs ++ evs') (foldl add_out_ev maps evs').
Proof.
  revert evs maps. induction evs' as [|ev evs' IH]; intros evs maps Hd Hs; cbn [foldl]; [by rewrite app_nil_r|].
  rewrite (cons_middle ev), app_assoc in Hd |- *. apply IH; [done|].
  apply add_out_state; [|done]. by apply outs_distinct_app in Hd as [? _].
Qed.

(** Two threads that read different blocks. *)
Lemma merge_out_state e1 e2 u m lu lm : out_state e1 (u, m) -> out_state e2 (lu, lm) ->
  (forall x y, x ∈ e1 -> y ∈ e2 -> oe_hgtx x <> oe_hgtx y /\ oe_hash x <> oe_hash y) ->
  out_state (e1 ++ e2) (insert_range lu u, merge_output_ssh lm m).
Proof.
  intros [Hu Hs H3 H4 H5 H6] [Hu' Hs' H3' H4' H5' H6'] Hx. cbn [fst snd] in *.
  pose proof Hu as [Ho Hf]. pose proof Hu' as [Ho' Hf'].
  assert (forall h, is_Some (map_find h u) -> map_find h lu = None) as Hdu.
  { intros h (x & Hin & <-)%H6. destruct (map_find (oe_hash x) lu) eqn:E; [|done].
    destruct (H6' (oe_hash x)) as (y & Hiny & Ey); [by rewrite E|]. destruct (Hx x y Hin Hiny) as [_ []]. done. }
  assert (forall a h, ssh_has a h lm -> ~ ssh_has a h m) as Hds.
  { intros a h (y & Hiny & _ & Ey)%H5' (x & Hin & _ & E)%H5. destruct (Hx x y Hin Hiny) as [[] _]. congruence. }
  destruct (merge_output_ssh_spec lm m Hs' Hs Hds) as (Hw & Hfind & Hhas).
  assert (forall h, map_find h (insert_range lu u) = match map_find h u with Some v => Some v | None => map_find h lu end) as Er
    by (intros h; by apply insert_range_find).
  constructor; cbn [fst snd]; [split|done|..].
  - by apply (insert_range_find lu u []).
  - rewrite insert_range_merge by done. by apply (merge_with_Forall _ (fun v => map_ordered v)).
  - intros h i s. rewrite map_app, elem_of_app, <- H3, <- H3'. unfold utxo_find. rewrite Er.
    destruct (map_find h u) as [outs|] eqn:E; [|by split; [right|intros [|]]].
    rewrite (Hdu h) by (by rewrite E). split; [by left|by intros [|]].
  - intros a h k t. rewrite Hfind, map_app, elem_of_app, <- H4, <- H4'.
    destruct (ssh_find a h k m) as [t'|] eqn:E; [|by split; [right|intros [|]]].
    assert (ssh_find a h k lm = None) as ->; [|by split; [left|intros [|]]].
    apply H4, elem_of_oe_entry in E as (x & Hin & <- & <- & _).
    destruct (ssh_find (oe_addr x) (oe_hgtx x) k lm) as [t2|] eqn:E2; [|done].
    apply H4', elem_of_oe_entry in E2 as (y & Hiny & _ & Ey & _). by destruct (Hx x y Hin Hiny) as [[] _].
  - intros a h. rewrite Hhas. intros [Hh|Hh]; [apply H5' in Hh|apply H5 in Hh]; destruct Hh as (ev & Hin & E);
      exists ev; rewrite elem_of_app; tauto.
  - intros h. rewrite Er. destruct (map_find h u) eqn:E.
    + intros _. destruct (H6 h) as (ev & Hin & Eh); [by rewrite E|]. exists ev. rewrite elem_of_app. tauto.
    + intros (ev & Hin & Eh)%H6'. exists ev. rewrite elem_of_app. tauto.
Qed.

(** ** Spends *)

Definition sp_place (sp : Spend) : list byte * list byte * list byte := (sp_addr sp, ie_hgtx (sp_ev sp), sp_key sp).

Record spend_state (sps : list Spend) (maps : ssh_map * list StoredTxOut) : Prop := {
  ss_wf : ssh_wf maps.1;
  ss_find a h k t : ssh_find a h k maps.1 = Some t <-> (a, h, k, t) ∈ map sp_entry sps;
  ss_list : maps.2 = map sp_stxo sps;
}.

Lemma elem_of_sp_entry a h k t sps : (a, h, k, t) ∈ map sp_entry sps <->
  exists sp, sp ∈ sps /\ sp_place sp = (a, h, k) /\ sp_txio sp = t.
Proof.
  rewrite list_elem_of_fmap. unfold sp_entry, sp_place. split.
  - intros (sp & E & Hin). rewrite !pair_eq in E. destruct E as [[[-> ->] ->] ->]. by exists sp.
  - intros (sp & Hin & E & <-). rewrite !pair_eq in E. destruct E as [[<- <-] <-]. by exists sp.
Qed.

Lemma spend_state_new : spend_state [] ([], []).
Proof. constructor; try done. intros a h k t. split; [done|by intros ?%elem_of_nil]. Qed.

Lemma add_spend_state sps maps sp : NoDup (map sp_key (sps ++ [sp])) -> spend_state sps maps ->
  spend_state (sps ++ [sp]) (add_spend_ev maps sp).
Proof.
  intros Hk [Hs H3 Hl]. pose proof (not_in_last _ _ _ Hk) as Hk'.
  pose proof (ssh_entry_ordered (sp_addr sp) (ie_hgtx (sp_ev sp)) maps.1 Hs) as He.
  unfold add_spend_ev, add_spend. fold (sp_key sp). fold (sp_txio sp). cbv zeta. constructor; cbn [fst snd].
  - apply ssh_put_wf; [done|]. split; [by apply map_put_ordered|apply map_put_nonempty].
  - intros a h k t. rewrite ssh_find_put, elem_of_map_snoc by done. cbn [txioMap_ set_txioMap].
    unfold sp_entry at 2. rewrite !pair_eq. case_decide as Ed; [|rewrite H3; tauto]. destruct Ed as [-> ->].
    destruct (decide (k = sp_key sp)) as [->|Hne].
    + rewrite map_find_put_eq. split; [intros [= <-]; by right|]. intros [Hin|[_ ->]]; [|done].
      apply elem_of_sp_entry in Hin as (sp' & Hin & E & _). unfold sp_place in E. rewrite !pair_eq in E.
      destruct E as [_ E]. by destruct (Hk' sp' Hin).
    + rewrite map_find_put_ne by auto. fold (ssh_find (sp_addr sp) (ie_hgtx (sp_ev sp)) k maps.1). rewrite H3. tauto.
  - by rewrite Hl, map_app.
Qed.

Lemma add_spends_state sps sps' maps : NoDup (map sp_key (sps ++ sps')) -> spend_state sps maps ->
  spend_state (sps ++ sps') (foldl add_spend_ev maps sps').
Proof.
  revert sps maps. induction sps' as [|sp sps' IH]; intros sps maps Hd Hs; cbn [foldl]; [by rewrite app_nil_r|].
  rewrite (cons_middle sp), app_assoc in Hd |- *. apply IH; [done|].
  apply add_spend_state; [|done]. rewrite map_app in Hd. by apply NoDup_app in Hd as [? _].
Qed.

(** The sub histories of a batch: a spend is there, and an output unless a spend
    has taken its place. *)
Record batch_state (outs : list OutEv) (sps : list Spend) (sshs : ssh_map) (spent : list StoredTxOut) : Prop := {
  bt_wf : ssh_wf sshs;
  bt_find a h k t : ssh_find a h k sshs = Some t <->
    ((a, h, k, t) ∈ map sp_entry sps) \/ (((a, h, k) ∉ map sp_place sps) /\ (a, h, k, t) ∈ map oe_entry outs);
  bt_spent : spent ≡ₚ map sp_stxo sps;
}.

Lemma merge_batch_state outs sps sps' m spent l spent' : batch_state outs sps m spent ->
  spend_state sps' (l, spent') -> NoDup (map sp_key (sps ++ sps')) ->
  batch_state outs (sps ++ sps') (merge_input_ssh l m) (spent ++ spent').
Proof.
  intros [Hw Hf Hp] [Hw' Hf' Hl] Hk. cbn [fst snd] in *.
  destruct (merge_input_ssh_spec l m Hw' Hw) as [Hwm Hfm]. constructor; [done| |].
  - intros a h k t. rewrite Hfm, !map_app, !elem_of_app.
    destruct (ssh_find a h k l) as [t'|] eqn:E.
    + apply Hf' in E as Ein. pose proof Ein as (sp & Hin & Epl & Et)%elem_of_sp_entry. split.
      * intros [= ->]. by left; right.
      * intros [[H1|H1]|[H1 _]].
        -- apply elem_of_sp_entry in H1 as (sp1 & Hin1 & Epl1 & _). exfalso. rewrite map_app in Hk.
           apply NoDup_app in Hk as (_ & Hk & _). apply (Hk (sp_key sp1)); [by apply list_elem_of_fmap_2|].
           assert (sp_key sp1 = sp_key sp) as ->; [|by apply list_elem_of_fmap_2].
           assert (sp_place sp1 = sp_place sp) as Ep by congruence. unfold sp_place in Ep. rewrite !pair_eq in Ep. apply Ep.
        -- apply Hf' in H1. congruence.
        -- exfalso. apply H1. right. rewrite <- Epl. by apply list_elem_of_fmap_2.
    + rewrite Hf. split.
      * intros [H1|[H1 H2]]; [by left; left|]. right. split; [|done]. intros [H3|H3]; [done|].
        apply list_elem_of_fmap in H3 as (sp & Epl & Hin).
        assert (ssh_find a h k l = Some (sp_txio sp)) as E2 by (apply Hf', elem_of_sp_entry; by exists sp). congruence.
      * intros [[H1|H1]|[H1 H2]]; [by left| |right; split; [tauto|done]]. apply Hf' in H1. congruence.
  - by rewrite Hl, map_app, Hp.
Qed.

Lemma batch_state_perm outs sps sps' m spent : sps ≡ₚ sps' -> batch_state outs sps m spent -> batch_state outs sps' m spent.
Proof. intros P [Hw Hf Hp]. constructor; [done| |by rewrite Hp, P]. intros a h k t. by rewrite Hf, P. Qed.

(** ** From the bytes to the events *)

Section threads.
Context `{HashFns}.
Variable cfg : Config.

(** What the record of an output says. *)
Record out_ev_ok (ev : OutEv) : Prop := {
  ev_place : stxo_blockHeight (oe_stxo ev) = blockHeight_ (oe_header ev) /\
    stxo_duplicateID (oe_stxo ev) = duplicateID_ (oe_header ev) /\
    stxo_txIndex (oe_stxo ev) = wrap 16 (oe_i ev) /\ stxo_txOutIndex (oe_stxo ev) = wrap 16 (oe_y ev);
  ev_addr : 0 < zlen (oe_addr ev);
  ev_unspent : stxo_spentness (oe_stxo ev) = spentness_val TXOUT_UNSPENT;
}.

Lemma scan_output_found batch header i y txn txout hash stxo :
  scan_output cfg batch header i y txn txout = Ok (Some (hash, stxo)) ->
  stxo_parentHash stxo = hash /\ out_ev_ok (mkOutEv header i y stxo).
Proof.
  unfold scan_output. intros (data & _ & E)%result_bind_Ok.
  apply result_bind_Ok in E as (script & _ & E). apply result_bind_Ok in E as (ref & _ & E).
  destruct (map_find ref (scriptRefMap_ batch)) as [scanned|]; [|done]. destruct (_ <=? scanned); [done|].
  apply result_bind_Ok in E as (h & _ & E). injection E as <- <-. split; [done|]. constructor; [done| |done].
  unfold oe_addr. cbn [oe_stxo new_stxo stxo_scrAddr]. unfold getScrAddr. autorewrite with bw.
  autorewrite with zlen. pose proof (zlen_nonneg (scriptRef_ ref)). lia.
Qed.

Lemma scan_outputs_read batch header i y txn txouts evs maps :
  read_outputs_of cfg batch header i y txn txouts = Ok evs ->
  scan_outputs cfg batch header i y txn txouts maps = Ok (foldl add_out_ev maps evs).
Proof.
  revert y evs maps. induction txouts as [|txout txouts IH]; intros y evs maps; cbn [read_outputs_of scan_outputs].
  - by intros [= <-].
  - intros (found & Ef & E)%result_bind_Ok. apply result_bind_Ok in E as (evs' & Er & [= <-]).
    rewrite Ef. cbn [mbind result_bind]. rewrite (IH _ _ _ Er). destruct found as [[hash stxo]|]; [|done].
    destruct (scan_output_found _ _ _ _ _ _ _ _ Ef) as [Eh _]. cbn [foldl]. unfold add_out_ev, oe_hash. cbn [oe_stxo].
    by rewrite Eh.
Qed.

Lemma read_outputs_ok batch header i y txn txouts evs : read_outputs_of cfg batch header i y txn txouts = Ok evs ->
  Forall (fun ev => out_ev_ok ev /\ oe_header ev = header /\ oe_i ev = i /\ y <= oe_y ev < y + zlen txouts) evs.
Proof.
  revert y evs. induction txouts as [|txout txouts IH]; intros y evs; cbn [read_outputs_of].
  - by intros [= <-].
  - intros (found & Ef & E)%result_bind_Ok. apply result_bind_Ok in E as (evs' & Er & [= <-]).
    rewrite zlen_cons. pose proof (zlen_nonneg txouts).
    assert (Forall (fun ev => out_ev_ok ev /\ oe_header ev = header /\ oe_i ev = i /\ y <= oe_y ev < y + (1 + zlen txouts)) evs').
    { eapply Forall_impl; [exact (IH _ _ Er)|]. intros ev (? & ? & ? & ?). split_and!; try done; lia. }
    destruct found as [[hash stxo]|]; [|done]. constructor; [|done].
    destruct (scan_output_found _ _ _ _ _ _ _ _ Ef). cbn [oe_header oe_i oe_y]. split_and!; try done; lia.
Qed.

Lemma spends_of_app u ins1 ins2 : spends_of cfg u (ins1 ++ ins2) =
  (sps1 ← spends_of cfg u ins1; sps2 ← spends_of cfg u ins2; Ok (sps1 ++ sps2)).
Proof.
  induction ins1 as [|ev ins1 IH]; cbn [spends_of app]; [by destruct (spends_of cfg u ins2)|].
  destruct (utxo_find (ie_hash ev) (ie_idx ev) u) as [s|]; [|exact IH].
  destruct (stxo_getScrAddress cfg (spent_by ev s)) as [[addr s']|]; cbn [mbind result_bind]; [|done]. rewrite IH.
  destruct (spends_of cfg u ins1); cbn [mbind result_bind]; [|done]. by destruct (spends_of cfg u ins2).
Qed.

Lemma scan_inputs_read u header i y txn txins evs sps maps :
  read_inputs_of header i y txn txins = Ok evs -> spends_of cfg u evs = Ok sps ->
  scan_inputs cfg u header i y txn txins maps = Ok (foldl add_spend_ev maps sps).
Proof.
  revert y evs sps maps. induction txins as [|txin txins IH]; intros y evs sps maps; cbn [read_inputs_of scan_inputs].
  - intros [= <-] [= <-]. done.
  - intros (outHash & E1 & E)%result_bind_Ok. apply result_bind_Ok in E as (id & E2 & E).
    apply result_bind_Ok in E as (hash & E3 & E). apply result_bind_Ok in E as (evs' & Er & [= <-]).
    cbn [spends_of ie_hash ie_idx]. intros Hsp. unfold scan_input, find_spent. rewrite E1. cbn [mbind result_bind].
    unfold utxo_find in Hsp. destruct (map_find outHash u) as [outs|]; cbn [mbind option_bind result_bind] in *; [|by eapply IH].
    rewrite E2. cbn [mbind result_bind]. destruct (map_find (le_val id) outs) as [s|]; [|by eapply IH].
    rewrite E3. cbn [mbind result_bind]. apply result_bind_Ok in Hsp as ([addr s'] & Ea & Hsp).
    apply result_bind_Ok in Hsp as (sps' & Es & [= <-]). unfold spent_by in Ea. cbn [ie_spender ie_count] in Ea.
    unfold ie_key in Ea. cbn [ie_header ie_i ie_y] in Ea. rewrite Ea. cbn [mbind result_bind].
    rewrite (IH _ _ _ _ Er Es). done.
Qed.

Lemma read_txs_scan batch header i txns tvs maps : read_txs cfg batch header i txns = Ok tvs ->
  scan_txs_outputs cfg batch header i txns maps = Ok (foldl add_out_ev maps (tvs_outs tvs)).
Proof.
  revert i tvs maps. induction txns as [|txn txns IH]; intros i tvs maps; cbn [read_txs scan_txs_outputs].
  - by intros [= <-].
  - intros (outs & Eo & E)%result_bind_Ok. apply result_bind_Ok in E as (ins & Ei & E).
    apply result_bind_Ok in E as (tvs' & Er & [= <-]). rewrite (scan_outputs_read _ _ _ _ _ _ _ _ Eo). cbn [mbind result_bind].
    rewrite (IH _ _ _ Er). unfold tvs_outs. by rewrite bind_cons, foldl_app.
Qed.

Lemma read_txs_spends batch u header i txns tvs sps maps : read_txs cfg batch header i txns = Ok tvs ->
  spends_of cfg u (tvs_ins tvs) = Ok sps ->
  scan_txs_inputs cfg u header i txns maps = Ok (foldl add_spend_ev maps sps).
Proof.
  revert i tvs sps maps. induction txns as [|txn txns IH]; intros i tvs sps maps; cbn [read_txs scan_txs_inputs].
  - intros [= <-] [= <-]. done.
  - intros (outs & Eo & E)%result_bind_Ok. apply result_bind_Ok in E as (ins & Ei & E).
    apply result_bind_Ok in E as (tvs' & Er & [= <-]). unfold tvs_ins. rewrite bind_cons, spends_of_app. cbn [tv_ins].
    intros (sps1 & E1 & E2)%result_bind_Ok. apply result_bind_Ok in E2 as (sps2 & E2 & [= <-]).
    rewrite (scan_inputs_read _ _ _ _ _ _ _ _ _ Ei E1). cbn [mbind result_bind].
    by rewrite (IH _ _ _ _ Er E2), foldl_app.
Qed.
End threads.
