(* ===== verification/ScannerThreads.v ===== *)
(** * ScannerThreads: the threads of a batch

    Whatever heights the threads take and in whatever order they merge, a batch
    ends with the outputs and the spends of its blocks. *)

From S2P Require Import Prelude BinaryData BinaryIO Hashing StdMap MapSums DBUtils BlockHeader HeadersDB.
From S2P Require Import ScriptUtils TxLength Blockchain BlockData StoredTxOut ScriptHistory ScriptHistoryProps.
From S2P Require Import Scanner ScannerSpec ScannerProps.

(** A block of the batch and its transactions as the scanner sees them. *)
Record BlockView := mkView { vw_block : BlockData; vw_header : BlockHeader; vw_txs : list TxView }.

Definition vw_outs (v : BlockView) : list OutEv := tvs_outs (vw_txs v).
Definition vw_ins (v : BlockView) : list InEv := tvs_ins (vw_txs v).

Lemma hgtx_inj h d h' d' : hgtx_ok h d -> hgtx_ok h' d' ->
  heightAndDupToHgtx h d = heightAndDupToHgtx h' d' -> h = h' /\ d = d'.
Proof.
  intros [Hh Hd] [Hh' Hd'] E. pose proof (hgtx_be_val h d ltac:(lia)) as E1. pose proof (hgtx_be_val h' d' ltac:(lia)) as E2.
  rewrite E, E2 in E1. rewrite !Z.mod_small in E1 by lia. lia.
Qed.

Section threads.
Context `{HashFns}.
Variable cfg : Config.
Variable bc : Blockchain.
Variable view : Z -> BlockView.

(** The block at a height can be read, and is on the chain at that height. *)
Record view_ok (batch : ParserBatch) (h : Z) : Prop := {
  vo_load : getBlockData batch h bc = Ok (vw_block (view h), bc);
  vo_init : bd_isInitialized (vw_block (view h)) = true;
  vo_header : headerPtr_ (vw_block (view h)) = Some (vw_header (view h));
  vo_height : blockHeight_ (vw_header (view h)) = h /\ hgtx_ok h (duplicateID_ (vw_header (view h)));
  vo_read : read_txs cfg batch (vw_header (view h)) 0 (txns_ (vw_block (view h))) = Ok (vw_txs (view h));
}.

Definition outs_of (hs : list Z) : list OutEv := hs ≫= (fun h => vw_outs (view h)).
Definition ins_of (hs : list Z) : list InEv := hs ≫= (fun h => vw_ins (view h)).

Lemma outs_of_app hs1 hs2 : outs_of (hs1 ++ hs2) = outs_of hs1 ++ outs_of hs2.
Proof. apply bind_app. Qed.

Lemma outs_of_perm hs1 hs2 : hs1 ≡ₚ hs2 -> outs_of hs1 ≡ₚ outs_of hs2.
Proof. unfold outs_of. by intros ->. Qed.

Lemma read_txs_events batch header i txns tvs : read_txs cfg batch header i txns = Ok tvs ->
  Forall (fun ev => out_ev_ok ev /\ oe_header ev = header) (tvs_outs tvs) /\
  Forall (fun ev => ie_header ev = header) (tvs_ins tvs).
Proof.
  revert i tvs. induction txns as [|txn txns IH]; intros i tvs; cbn [read_txs]; [by intros [= <-]|].
  intros (outs & Eo & E)%result_bind_Ok. apply result_bind_Ok in E as (ins & Ei & E).
  apply result_bind_Ok in E as (tvs' & Er & [= <-]). destruct (IH _ _ Er) as [H1 H2].
  unfold tvs_outs, tvs_ins. rewrite !bind_cons, !Forall_app. cbn [tv_outs tv_ins]. split; split; try done.
  - eapply Forall_impl; [exact (read_outputs_ok _ _ _ _ _ _ _ _ Eo)|]. by intros ev (? & ? & _).
  - clear -Ei. revert Ei. generalize 0 as y. revert ins. induction (txins_ txn) as [|txin txins IH]; intros ins y; cbn [read_inputs_of].
    + by intros [= <-].
    + intros (? & _ & E)%result_bind_Ok. apply result_bind_Ok in E as (? & _ & E).
      apply result_bind_Ok in E as (? & _ & E). apply result_bind_Ok in E as (evs & Er & [= <-]).
      constructor; [done|]. by eapply IH.
Qed.

Lemma outs_of_in batch hs ev : Forall (view_ok batch) hs -> ev ∈ outs_of hs ->
  exists h, h ∈ hs /\ oe_header ev = vw_header (view h) /\ out_ev_ok ev.
Proof.
  intros Hv. unfold outs_of. intros (h & Hin & Hh)%list_elem_of_bind. exists h. split; [done|].
  rewrite Forall_forall in Hv. destruct (read_txs_events _ _ _ _ _ (vo_read _ _ (Hv h Hh))) as [Ho _].
  rewrite Forall_forall in Ho. by destruct (Ho ev Hin).
Qed.

(** The blocks that were read. *)
Definition blocks_state (hs : list Z) (m : stdmap Z BlockData) : Prop :=
  map_ordered m /\ forall h b, map_find h m = Some b <-> h ∈ hs /\ vw_block (view h) = b.

Lemma blocks_state_new : blocks_state [] [].
Proof. split; [done|]. intros h b. split; [done|]. by intros [?%elem_of_nil _]. Qed.

Lemma blocks_state_put hs m h : h ∉ hs -> blocks_state hs m ->
  blocks_state (hs ++ [h]) (map_insert h (vw_block (view h)) m).1.
Proof.
  intros Hh [Ho Hf]. split; [by apply map_insert_sorted|]. intros j b. rewrite elem_of_app, list_elem_of_singleton.
  unfold map_insert. destruct (map_find h m) as [b'|] eqn:E; cbn [fst].
  { apply Hf in E as [E _]. done. }
  rewrite map_find_put by done. case_decide as Ej; [subst j|rewrite Hf; tauto].
  split; [intros [= <-]; tauto|]. by intros [_ <-].
Qed.

Lemma blocks_state_merge hs1 hs2 m1 m2 : blocks_state hs1 m1 -> blocks_state hs2 m2 ->
  blocks_state (hs1 ++ hs2) (insert_range m2 m1).
Proof.
  intros [Ho1 Hf1] [Ho2 Hf2]. split; [by apply (insert_range_find m2 m1 0)|]. intros h b.
  rewrite (proj2 (insert_range_find m2 m1 h Ho2 Ho1)), elem_of_app.
  destruct (map_find h m1) as [b'|] eqn:E; [|rewrite Hf2; split; [tauto|]].
  - apply Hf1 in E as [E <-]. split; [intros [= <-]; tauto|by intros [_ <-]].
  - intros [[Hh|Hh] Hb]; [|done]. assert (map_find h m1 = Some b) by (by apply Hf1). congruence.
Qed.

Lemma outputs_loop_run batch hs0 hs blocks maps : Forall (view_ok batch) hs -> NoDup (hs0 ++ hs) ->
  blocks_state hs0 blocks ->
  exists blocks', outputs_loop cfg batch hs (blocks, maps) bc = Ok (Some (blocks', foldl add_out_ev maps (outs_of hs)), bc) /\
    blocks_state (hs0 ++ hs) blocks'.
Proof.
  revert hs0 blocks maps. induction hs as [|h hs IH]; intros hs0 blocks maps Hv Hn Hb; cbn [outputs_loop].
  - exists blocks. rewrite app_nil_r. by split.
  - apply Forall_cons in Hv as [Hvh Hv]. unfold mbind at 1, chain_bind at 1. rewrite (vo_load _ _ Hvh), (vo_init _ _ Hvh).
    cbn [negb]. unfold mbind at 1, chain_bind at 1, chain_of at 1, block_header. rewrite (vo_header _ _ Hvh).
    cbn [mbind result_bind]. unfold mbind at 1, chain_bind at 1, chain_of at 1. cbn [fst snd].
    rewrite (read_txs_scan _ _ _ _ _ _ _ (vo_read _ _ Hvh)). cbn [mbind result_bind].
    rewrite (cons_middle h), app_assoc in Hn. unfold outs_of. rewrite bind_cons, foldl_app.
    destruct (IH (hs0 ++ [h]) (map_insert h (vw_block (view h)) blocks).1 (foldl add_out_ev maps (tvs_outs (vw_txs (view h)))))
      as (blocks' & E & Hb'); [done|done| |].
    + apply blocks_state_put; [|done]. apply NoDup_app in Hn as (Hn & _ & _). apply NoDup_app in Hn as (_ & Hn & _).
      intros Hh. apply (Hn h Hh). by left.
    + exists blocks'. rewrite <- app_assoc in Hb'. split; [exact E|exact Hb'].
Qed.

(** A batch that holds the outputs of the blocks [hs]. *)
Record outputs_done (batch0 : ParserBatch) (hs : list Z) (batch : ParserBatch) : Prop := {
  dn_same : fileMaps_ batch = fileMaps_ batch0 /\ scriptRefMap_ batch = scriptRefMap_ batch0 /\
    spentOutputs_ batch = spentOutputs_ batch0 /\ pb_start batch = pb_start batch0 /\ pb_end batch = pb_end batch0;
  dn_blocks : blocks_state hs (blockMap_ batch);
  dn_maps : out_state (outs_of hs) (outputMap_ batch, sshMap_ batch);
}.

Lemma view_ok_same b1 b2 h : fileMaps_ b1 = fileMaps_ b2 -> scriptRefMap_ b1 = scriptRefMap_ b2 -> view_ok b1 h -> view_ok b2 h.
Proof.
  intros Ef Es [H1 H2 H3 H4 H5]. constructor; [|done..|].
  - rewrite <- H1. unfold getBlockData. by rewrite Ef.
  - rewrite <- H5. generalize 0 as i. clear -Es. induction (txns_ (vw_block (view h))) as [|txn txns IH]; intros i; cbn [read_txs]; [done|].
    rewrite IH. f_equal. generalize 0 as y. induction (txouts_ txn) as [|o os IHo]; intros y; cbn [read_outputs_of]; [done|].
    rewrite IHo. unfold scan_output. by rewrite Es.
Qed.

(** Events of different blocks differ in their sub histories, and in their
    hashes when a hash is that of one transaction. *)
Definition hashes_per_block (evs : list OutEv) : Prop :=
  forall x y, x ∈ evs -> y ∈ evs -> oe_hash x = oe_hash y -> oe_header x = oe_header y.

Lemma blocks_differ batch hs1 hs2 x y : Forall (view_ok batch) (hs1 ++ hs2) -> NoDup (hs1 ++ hs2) ->
  hashes_per_block (outs_of (hs1 ++ hs2)) -> x ∈ outs_of hs1 -> y ∈ outs_of hs2 ->
  oe_hgtx x <> oe_hgtx y /\ oe_hash x <> oe_hash y.
Proof.
  intros [Hv1 Hv2]%Forall_app (_ & Hn & _)%NoDup_app Hh Hx Hy.
  destruct (outs_of_in _ _ _ Hv1 Hx) as (h1 & Hin1 & E1 & _). destruct (outs_of_in _ _ _ Hv2 Hy) as (h2 & Hin2 & E2 & _).
  assert (h1 <> h2) as Hne by (intros ->; by apply (Hn h2)).
  rewrite Forall_forall in Hv1, Hv2.
  destruct (vo_height _ _ (Hv1 h1 Hin1)) as [Eh1 Ok1], (vo_height _ _ (Hv2 h2 Hin2)) as [Eh2 Ok2]. split.
  - unfold oe_hgtx, header_hgtx. rewrite E1, E2, Eh1, Eh2. intros E. apply hgtx_inj in E as [E _]; done.
  - intros E. apply Hne. rewrite <- Eh1, <- Eh2. f_equal. rewrite <- E1, <- E2. apply Hh; [..|done];
      rewrite outs_of_app, elem_of_app; tauto.
Qed.

Lemma thread_outputs batch0 hs0 hs batch : outputs_done batch0 hs0 batch ->
  Forall (view_ok batch0) (hs0 ++ hs) -> NoDup (hs0 ++ hs) -> outs_distinct (outs_of (hs0 ++ hs)) ->
  hashes_per_block (outs_of (hs0 ++ hs)) ->
  exists batch', processOutputsThread cfg batch hs bc = Ok (batch', bc) /\ outputs_done batch0 (hs0 ++ hs) batch'.
Proof.
  intros [(Hf & Hs & Hr) Hb Hm] Hv Hn Hd Hh. unfold processOutputsThread.
  assert (Forall (view_ok batch) hs) as Hv'.
  { apply Forall_app in Hv as [_ Hv]. eapply Forall_impl; [exact Hv|]. intros h. by apply view_ok_same. }
  pose proof Hn as (_ & _ & Hn2)%NoDup_app.
  destruct (outputs_loop_run batch [] hs [] ([], []) Hv' Hn2) as (blocks & E & Hb'); [exact blocks_state_new|].
  cbn [app] in Hb'. unfold mbind, chain_bind. setoid_rewrite E. rewrite outs_of_app in Hd.
  pose proof (outs_distinct_app _ _ Hd) as [_ Hd2].
  pose proof (add_outs_state [] (outs_of hs) ([], []) Hd2 out_state_new) as Ho. cbn [app] in Ho.
  destruct (foldl add_out_ev ([], []) (outs_of hs)) as [lu lm]. eexists. split; [reflexivity|].
  constructor; [done| |]; cbn [set_maps blockMap_ outputMap_ sshMap_].
  - by apply blocks_state_merge.
  - rewrite outs_of_app. apply merge_out_state; [done|done|]. intros x y. by apply (blocks_differ batch0).
Qed.

Lemma threads_outputs batch0 schedule hs0 batch : outputs_done batch0 hs0 batch ->
  Forall (view_ok batch0) (hs0 ++ concat schedule) -> NoDup (hs0 ++ concat schedule) ->
  outs_distinct (outs_of (hs0 ++ concat schedule)) -> hashes_per_block (outs_of (hs0 ++ concat schedule)) ->
  exists batch', run_outputs cfg schedule batch bc = Ok (batch', bc) /\ outputs_done batch0 (hs0 ++ concat schedule) batch'.
Proof.
  revert hs0 batch. induction schedule as [|hs schedule IH]; intros hs0 batch Hdone Hv Hn Hd Hh; cbn [run_outputs concat] in *.
  - exists batch. by rewrite app_nil_r.
  - rewrite app_assoc in Hv, Hn, Hd, Hh |- *. destruct (thread_outputs batch0 hs0 hs batch Hdone) as (b1 & E & H1).
    + by apply Forall_app in Hv as [? _].
    + by apply NoDup_app in Hn as [? _].
    + rewrite outs_of_app in Hd. by apply outs_distinct_app in Hd as [? _].
    + intros x y Hx Hy. apply Hh; rewrite outs_of_app, elem_of_app; by left.
    + unfold mbind, chain_bind. rewrite E. by apply IH.
Qed.

(** The inputs, with the unspent outputs [u]. *)
Lemma inputs_loop_run batch u hs sps maps : Forall (view_ok batch) hs ->
  (forall h, h ∈ hs -> map_find h (blockMap_ batch) = Some (vw_block (view h))) ->
  spends_of cfg u (ins_of hs) = Ok sps ->
  inputs_loop cfg batch u hs maps = Ok (foldl add_spend_ev maps sps).
Proof.
  revert sps maps. induction hs as [|h hs IH]; intros sps maps Hv Hb Hsp; cbn [inputs_loop].
  - by injection Hsp as <-.
  - apply Forall_cons in Hv as [Hvh Hv]. rewrite Hb by (by left). unfold block_header. rewrite (vo_header _ _ Hvh).
    cbn [mbind result_bind]. unfold ins_of in Hsp. rewrite bind_cons, spends_of_app in Hsp.
    apply result_bind_Ok in Hsp as (sps1 & E1 & Hsp). apply result_bind_Ok in Hsp as (sps2 & E2 & [= <-]).
    rewrite (read_txs_spends _ _ _ _ _ _ _ _ _ (vo_read _ _ Hvh) E1). cbn [mbind result_bind].
    rewrite foldl_app. apply IH; [done| |done]. intros j Hj. apply Hb. by right.
Qed.

(** A batch that also holds spends. *)
Record inputs_done (batch0 : ParserBatch) (outs : list OutEv) (sps : list Spend) (batch : ParserBatch) : Prop := {
  in_same : fileMaps_ batch = fileMaps_ batch0 /\ scriptRefMap_ batch = scriptRefMap_ batch0 /\
    blockMap_ batch = blockMap_ batch0 /\ outputMap_ batch = outputMap_ batch0;
  in_state : batch_state outs sps (sshMap_ batch) (spentOutputs_ batch);
}.

Lemma threads_inputs batch0 outs u schedule sps0 sps batch : inputs_done batch0 outs sps0 batch ->
  Forall (view_ok batch0) (concat schedule) ->
  (forall h, h ∈ concat schedule -> map_find h (blockMap_ batch0) = Some (vw_block (view h))) ->
  spends_of cfg u (ins_of (concat schedule)) = Ok sps -> NoDup (map sp_key (sps0 ++ sps)) ->
  exists batch', run_inputs cfg u schedule batch = Ok batch' /\ inputs_done batch0 outs (sps0 ++ sps) batch'.
Proof.
  revert sps0 sps batch. induction schedule as [|hs schedule IH]; intros sps0 sps batch Hdone Hv Hb Hsp Hn;
    cbn [run_inputs concat] in *.
  - injection Hsp as <-. exists batch. by rewrite app_nil_r.
  - unfold ins_of in Hsp. rewrite bind_app, spends_of_app in Hsp.
    apply result_bind_Ok in Hsp as (sps1 & E1 & Hsp). apply result_bind_Ok in Hsp as (sps2 & E2 & [= <-]).
    apply Forall_app in Hv as [Hv1 Hv2]. pose proof Hdone as [(Hf & Hs & Hbl & Hout) Hst].
    unfold processInputsThread. rewrite (inputs_loop_run batch u hs sps1); [|..|done].
    2:{ eapply Forall_impl; [exact Hv1|]. intros h. by apply view_ok_same. }
    2:{ intros h Hh. rewrite Hbl. apply Hb. rewrite elem_of_app. by left. }
    cbn [mbind result_bind]. rewrite app_assoc in Hn |- *.
    assert (NoDup (map sp_key (sps0 ++ sps1))) as Hn1 by (rewrite map_app in Hn; by apply NoDup_app in Hn as [? _]).
    assert (NoDup (map sp_key sps1)) as Hn2 by (rewrite map_app in Hn1; by apply NoDup_app in Hn1 as (_ & _ & ?)).
    pose proof (add_spends_state [] sps1 ([], []) Hn2 spend_state_new) as Ha. cbn [app] in Ha.
    destruct (foldl add_spend_ev ([], []) sps1) as [l spent]. cbn [mbind result_bind]. apply IH; [|done| |done|done].
    + constructor; [done|]. cbn [set_spends sshMap_ spentOutputs_]. by apply merge_batch_state.
    + intros h Hh. apply Hb. rewrite elem_of_app. by right.
Qed.
End threads.
