(* ===== verification/ScannerLedger.v ===== *)
(** * ScannerLedger: a scanned batch has done what the ledger does

    The unspent outputs after a batch are those of the ledger, in which the
    transactions come one after the other. *)

From S2P Require Import Prelude BinaryData BinaryIO Hashing StdMap MapSums DBUtils BlockHeader HeadersDB.
From S2P Require Import ScriptUtils TxLength Blockchain BlockData StoredTxOut ScriptHistory ScriptHistoryProps.
From S2P Require Import Scanner ScannerSpec ScannerProps ScannerThreads.

(** ** The ledger as a sequence of steps *)

Definition point : Type := list byte * Z.
Inductive LEv := LIn (p : point) | LOut (p : point) (s : StoredTxOut).

Definition lstep (L : Ledger) (e : LEv) : Ledger :=
  match e with LIn p => spend_outpoint p.1 p.2 L | LOut p s => create_output p.1 p.2 s L end.

Definition ie_point (ev : InEv) : point := (ie_hash ev, ie_idx ev).
Definition tx_steps (tv : TxView) : list LEv :=
  map (fun ev => LIn (ie_point ev)) (tv_ins tv) ++ map (fun ev => LOut (oe_point ev) (oe_stxo ev)) (tv_outs tv).

Fixpoint valid_steps (known : point -> Prop) (L : Ledger) (es : list LEv) : Prop :=
  match es with
  | [] => True
  | LIn p :: es => (known p -> L p.1 p.2 <> None) /\ valid_steps known (spend_outpoint p.1 p.2 L) es
  | LOut p s :: es => valid_steps known (create_output p.1 p.2 s L) es
  end.

Definition in_points (es : list LEv) : list point := es ≫= (fun e => match e with LIn p => [p] | _ => [] end).
Definition out_triples (es : list LEv) : list (point * StoredTxOut) :=
  es ≫= (fun e => match e with LOut p s => [(p, s)] | _ => [] end).

Lemma foldl_map {A B C} (f : C -> B -> C) (g : A -> B) l (c : C) : foldl (fun c x => f c (g x)) c l = foldl f c (map g l).
Proof. revert c. induction l as [|x l IH]; intros c; cbn [foldl map]; [done|apply IH]. Qed.

Lemma ledger_tx_steps L tv : ledger_tx L tv = foldl lstep L (tx_steps tv).
Proof. unfold ledger_tx, tx_steps. by rewrite foldl_app, <- !foldl_map. Qed.

Lemma ledger_steps L tvs : ledger L tvs = foldl lstep L (tvs ≫= tx_steps).
Proof.
  revert L. induction tvs as [|tv tvs IH]; intros L; [done|].
  rewrite bind_cons, foldl_app, <- ledger_tx_steps. apply IH.
Qed.

Lemma valid_steps_app known L es1 es2 :
  valid_steps known L (es1 ++ es2) <-> valid_steps known L es1 /\ valid_steps known (foldl lstep L es1) es2.
Proof.
  revert L. induction es1 as [|[p|p s] es1 IH]; intros L; cbn [app valid_steps foldl lstep]; [tauto| |apply IH].
  rewrite IH. tauto.
Qed.

Lemma valid_txs_steps (known : list byte -> Z -> Prop) (K : point -> Prop) L tvs :
  (forall p, K p -> known p.1 p.2) -> valid_txs known L tvs -> valid_steps K L (tvs ≫= tx_steps).
Proof.
  intros HK. revert L. induction tvs as [|tv tvs IH]; intros L; cbn [valid_txs]; [done|]. intros [Hi Ht].
  rewrite bind_cons, valid_steps_app, <- ledger_tx_steps. split; [|by apply IH]. unfold tx_steps.
  rewrite valid_steps_app. split.
  - clear -Hi HK. revert L Hi. induction (tv_ins tv) as [|ev ins IH]; intros L; cbn [valid_ins map valid_steps]; [done|].
    intros [H1 H2]. split; [|by apply IH]. intros Hk. by apply H1, (HK (ie_point ev)).
  - generalize (foldl lstep L (map (fun ev => LIn (ie_point ev)) (tv_ins tv))). clear.
    induction (tv_outs tv) as [|ev outs IH]; intros L; cbn [map valid_steps]; [done|apply IH].
Qed.

Lemma in_points_cons e es : in_points (e :: es) = (match e with LIn p => [p] | _ => [] end) ++ in_points es.
Proof. done. Qed.
Lemma out_triples_cons e es : out_triples (e :: es) = (match e with LOut p s => [(p, s)] | _ => [] end) ++ out_triples es.
Proof. done. Qed.

Section steps.
Variable K : point -> Prop.

(** An output that is spent is not spent again. *)
Lemma spent_once L es p : valid_steps K L es -> K p -> L p.1 p.2 = None -> p ∉ map fst (out_triples es) -> p ∉ in_points es.
Proof.
  intros Hv Hk. revert L Hv. induction es as [|[q|q s] es IH]; intros L Hv Hl Ho; [apply not_elem_of_nil|..].
  - destruct Hv as [Hq Hv]. rewrite in_points_cons. intros [->%list_elem_of_singleton|Hin]%elem_of_app; [by apply Hq|].
    revert Hin. apply (IH _ Hv); [|done]. unfold spend_outpoint. by case_decide.
  - rewrite in_points_cons. rewrite out_triples_cons in Ho. cbn [app map fst] in *.
    apply not_elem_of_cons in Ho as [Hne Ho]. apply (IH _ Hv); [|done].
    unfold create_output. rewrite decide_False; [done|]. intros [E1 E2]. apply Hne. destruct p, q. cbn in *. by f_equal.
Qed.

(** What is unspent at the end: what was there or was created, and is no input. *)
Lemma steps_final L es : valid_steps K L es -> NoDup (map fst (out_triples es)) ->
  (forall p s, (p, s) ∈ out_triples es -> K p /\ L p.1 p.2 = None) -> (forall p, L p.1 p.2 <> None -> K p) ->
  forall p s, foldl lstep L es p.1 p.2 = Some s <->
    (p ∉ in_points es) /\ (L p.1 p.2 = Some s \/ (p, s) ∈ out_triples es).
Proof.
  revert L. induction es as [|[q|q s0] es IH]; intros L Hv Hn Ho HL p s; cbn [foldl lstep valid_steps] in *.
  - split; [|by intros [_ [?|?%elem_of_nil]]]. intros ->. split; [apply not_elem_of_nil|by left].
  - destruct Hv as [Hq Hv]. rewrite out_triples_cons in *. cbn [app] in *.
    assert (forall p, p <> q -> spend_outpoint q.1 q.2 L p.1 p.2 = L p.1 p.2) as Ene.
    { intros p' Hp'. unfold spend_outpoint. rewrite decide_False; [done|]. intros [E1 E2]. apply Hp'. destruct p', q. cbn in *. by f_equal. }
    assert (spend_outpoint q.1 q.2 L q.1 q.2 = None) as Eq by (unfold spend_outpoint; by rewrite decide_True).
    rewrite (IH _ Hv Hn); [| |].
    + rewrite in_points_cons. cbn [app]. rewrite not_elem_of_cons. destruct (decide (p = q)) as [->|Hne]; [|rewrite Ene by done; tauto].
      rewrite Eq. split; [|tauto]. intros [_ [?|Hin]]; [done|]. exfalso. destruct (Ho _ _ Hin) as [Hk Hnone]. by apply Hq.
    + intros p' s' Hin. destruct (Ho _ _ Hin) as [Hk Hnone]. split; [done|]. unfold spend_outpoint. by case_decide.
    + intros p'. unfold spend_outpoint. case_decide; [done|apply HL].
  - rewrite out_triples_cons in *. cbn [app map fst] in *. apply NoDup_cons in Hn as [Hnq Hn].
    assert (forall p, p <> q -> create_output q.1 q.2 s0 L p.1 p.2 = L p.1 p.2) as Ene.
    { intros p' Hp'. unfold create_output. rewrite decide_False; [done|]. intros [E1 E2]. apply Hp'. destruct p', q. cbn in *. by f_equal. }
    assert (create_output q.1 q.2 s0 L q.1 q.2 = Some s0) as Eq by (unfold create_output; by rewrite decide_True).
    destruct (Ho q s0 ltac:(by left)) as [Hkq Hlq].
    assert (forall p' s', (p', s') ∈ out_triples es -> p' <> q) as Hpq.
    { intros p' s' Hin ->. apply Hnq. exact (list_elem_of_fmap_2 fst _ _ Hin). }
    rewrite (IH _ Hv Hn); [| |].
    + rewrite in_points_cons, elem_of_cons. cbn [app]. destruct (decide (p = q)) as [->|Hne].
      * rewrite Eq, Hlq. split.
        -- intros [Hp [[= ->]|Hin]]; [tauto|]. by destruct (Hpq _ _ Hin).
        -- intros [Hp [?|[[= ->]|Hin]]]; [done|tauto|tauto].
      * rewrite Ene by done. split; [tauto|]. intros [Hp [?|[[= -> ->]|Hin]]]; tauto.
    + intros p' s' Hin. rewrite Ene by (by apply (Hpq p' s')). apply (Ho p' s'). by right.
    + intros p'. destruct (decide (p' = q)) as [->|Hne]; [done|]. rewrite Ene by done. apply HL.
Qed.

(** Inputs that name outputs of ours name different ones. *)
Lemma ins_distinct L es : valid_steps K L es -> NoDup (map fst (out_triples es)) ->
  (forall p s, (p, s) ∈ out_triples es -> K p /\ L p.1 p.2 = None) ->
  forall l1 p l2, in_points es = l1 ++ p :: l2 -> K p -> p ∉ l2.
Proof.
  revert L. induction es as [|[q|q s0] es IH]; intros L Hv Hn Ho l1 p l2 E Hk.
  - by destruct l1.
  - destruct Hv as [Hq Hv]. rewrite in_points_cons in E. rewrite out_triples_cons in *. cbn [app] in *.
    assert (forall p s, (p, s) ∈ out_triples es -> K p /\ spend_outpoint q.1 q.2 L p.1 p.2 = None) as Ho'.
    { intros p' s' Hin. destruct (Ho _ _ Hin) as [? Hnone]. split; [done|]. unfold spend_outpoint. by case_decide. }
    destruct l1 as [|q' l1]; injection E as -> E; [subst l2|by eapply (IH _ Hv Hn Ho')].
    apply (spent_once (spend_outpoint p.1 p.2 L)); [done|done| |].
    + unfold spend_outpoint. by rewrite decide_True.
    + intros ([p' s'] & -> & Hin)%list_elem_of_fmap. cbn [fst] in *. destruct (Ho _ _ Hin) as [_ Hnone].
      by apply Hq.
  - rewrite in_points_cons in E. rewrite out_triples_cons in *. cbn [app map fst valid_steps] in *.
    apply NoDup_cons in Hn as [Hnq Hn]. eapply (IH _ Hv Hn); [|done|done].
    intros p' s' Hin. destruct (Ho p' s' ltac:(by right)) as [? Hnone]. split; [done|].
    unfold create_output. rewrite decide_False; [done|]. intros [E1 E2]. apply Hnq.
    assert (q = p') as -> by (destruct q, p'; cbn in *; by f_equal). exact (list_elem_of_fmap_2 fst _ _ Hin).
Qed.
End steps.

(** The steps of transactions name their events. *)
Lemma in_points_tvs tvs : in_points (tvs ≫= tx_steps) = map ie_point (tvs_ins tvs).
Proof.
  unfold in_points, tvs_ins. induction tvs as [|tv tvs IH]; [done|]. rewrite !bind_cons, bind_app, map_app, IH. f_equal.
  unfold tx_steps. rewrite bind_app. clear IH.
  assert (forall l, map (fun ev => LOut (oe_point ev) (oe_stxo ev)) l ≫= (fun e => match e with LIn p => [p] | _ => [] end) = []) as ->
    by (intros l; induction l; [done|by rewrite map_cons, bind_cons]).
  rewrite app_nil_r. induction (tv_ins tv) as [|ev l IH]; [done|]. rewrite !map_cons, bind_cons, IH. done.
Qed.

Lemma out_triples_tvs tvs : out_triples (tvs ≫= tx_steps) = map (fun ev => (oe_point ev, oe_stxo ev)) (tvs_outs tvs).
Proof.
  unfold out_triples, tvs_outs. induction tvs as [|tv tvs IH]; [done|]. rewrite !bind_cons, bind_app, map_app, IH. f_equal.
  unfold tx_steps. rewrite bind_app. clear IH.
  assert (forall l, map (fun ev => LIn (ie_point ev)) l ≫= (fun e => match e with LOut p s => [(p, s)] | _ => [] end) = []) as ->
    by (intros l; induction l; [done|by rewrite map_cons, bind_cons]).
  cbn [app]. induction (tv_outs tv) as [|ev l IH]; [done|]. rewrite !map_cons, bind_cons, IH. done.
Qed.

(** The ledger at the end, and the inputs that matter, for a valid chain. *)
Lemma ledger_final L tvs : ledger_valid L tvs ->
  (forall h i s, ledger L tvs h i = Some s <->
     ((h, i) ∉ map ie_point (tvs_ins tvs)) /\ (L h i = Some s \/ (h, i, s) ∈ map oe_utxo (tvs_outs tvs))) /\
  (forall l1 ev l2, tvs_ins tvs = l1 ++ ev :: l2 -> created L tvs (ie_hash ev) (ie_idx ev) -> ie_point ev ∉ map ie_point l2).
Proof.
  intros [Hv Hnew Honce]. set (K := fun p : point => created L tvs p.1 p.2). set (es := tvs ≫= tx_steps).
  assert (valid_steps K L es) as Hs by (by apply (valid_txs_steps (created L tvs) K)).
  assert (map fst (out_triples es) = map oe_point (tvs_outs tvs)) as Ep.
  { unfold es. rewrite out_triples_tvs, map_map. done. }
  assert (NoDup (map fst (out_triples es))) as Hn by (by rewrite Ep).
  assert (forall p s, (p, s) ∈ out_triples es -> K p /\ L p.1 p.2 = None) as Ho.
  { unfold es. rewrite out_triples_tvs. intros p s (ev & E & Hin)%list_elem_of_fmap. rewrite pair_eq in E. destruct E as [-> ->].
    split; [|by apply Hnew]. right. by exists ev. }
  split.
  - intros h i s. rewrite ledger_steps. fold es.
    rewrite (steps_final K L es Hs Hn Ho ltac:(intros p Hp; by left) (h, i) s). unfold es. rewrite in_points_tvs, out_triples_tvs.
    cbn [fst snd]. split; intros [H1 [H2|H2]]; (split; [exact H1|]); [by left|right|by left|right].
    + apply list_elem_of_fmap in H2 as (ev & E & Hin). rewrite pair_eq in E. destruct E as [E ->].
      apply elem_of_oe_utxo. exists ev. unfold oe_point in E. rewrite pair_eq in E. destruct E as [-> ->]. done.
    + apply elem_of_oe_utxo in H2 as (ev & Hin & <- & <- & <-). by apply (list_elem_of_fmap_2 (fun ev => (oe_point ev, oe_stxo ev))).
  - intros l1 ev l2 E Hk Hin. refine (ins_distinct K L es Hs Hn Ho (map ie_point l1) (ie_point ev) (map ie_point l2) _ Hk Hin).
    unfold es. by rewrite in_points_tvs, E, map_app.
Qed.
