(* ===== verification/ScannerCorrect.v ===== *)
(** * ScannerCorrect: the outputs and inputs of a batch

    What the blocks of a batch hold is found in one place each: the keys of its
    outputs are different, an output has the key of its place, and a hash names
    one transaction, so that the ledger has one owner for each output. *)

From S2P Require Import Prelude BinaryData BinaryIO Hashing StdMap MapSums DBUtils BlockHeader HeadersDB.
From S2P Require Import ScriptUtils TxLength Blockchain BlockData StoredTxOut ScriptHistory ScriptHistoryProps.
From S2P Require Import Scanner ScannerSpec ScannerProps ScannerThreads ScannerLedger.

(** ** Keys *)

Lemma txout_key_inj h d i o h' d' i' o' : key_ok (KeyTxOut h d i o) -> key_ok (KeyTxOut h' d' i' o') ->
  getBlkDataKeyNoPrefix_txout h d i o = getBlkDataKeyNoPrefix_txout h' d' i' o' -> (h, d, i, o) = (h', d', i', o').
Proof.
  intros H1 H2 E. pose proof (readNoPrefix_key [] _ H1 ltac:(done)) as R1. pose proof (readNoPrefix_key [] _ H2 ltac:(done)) as R2.
  change (enc_key_noprefix (KeyTxOut h d i o)) with (getBlkDataKeyNoPrefix_txout h d i o) in R1.
  change (enc_key_noprefix (KeyTxOut h' d' i' o')) with (getBlkDataKeyNoPrefix_txout h' d' i' o') in R2.
  rewrite E, R2 in R1. injection R1 as -> -> -> ->. done.
Qed.

(** An output that stands at a place of the chain. *)
Record stxo_placed (s : StoredTxOut) : Prop := {
  sp_hgtx : hgtx_ok (stxo_blockHeight s) (stxo_duplicateID s);
  sp_index : 0 <= stxo_txIndex s < 65535 /\ 0 <= stxo_txOutIndex s < 65535;
}.

Definition stxo_hgtx (s : StoredTxOut) : list byte := heightAndDupToHgtx (stxo_blockHeight s) (stxo_duplicateID s).

Lemma placed_key s : stxo_placed s -> stxo_getDBKey false s =
  getBlkDataKeyNoPrefix_txout (stxo_blockHeight s) (stxo_duplicateID s) (stxo_txIndex s) (stxo_txOutIndex s) /\
  key_ok (KeyTxOut (stxo_blockHeight s) (stxo_duplicateID s) (stxo_txIndex s) (stxo_txOutIndex s)).
Proof.
  intros [[Hh Hd] [Hi Ho]]. split; [|split; [by split|]; unfold is_uint; lia].
  unfold stxo_getDBKey, UINT32_MAX, UINT8_MAX, UINT16_MAX.
  rewrite !(proj2 (Z.eqb_neq _ _)) by lia. done.
Qed.

(** The key starts with the height and the id of the block. *)
Lemma txout_key_hgtx h d i o : getBlkDataKeyNoPrefix_txout h d i o = heightAndDupToHgtx h d ++ int_to BE 2 i ++ int_to BE 2 o.
Proof. exact (enc_key_noprefix_eq (KeyTxOut h d i o)). Qed.

Lemma NoDup_map_via {A B C} (f : A -> B) (g : A -> C) l : NoDup (map g l) ->
  (forall x y, x ∈ l -> y ∈ l -> f x = f y -> g x = g y) -> NoDup (map f l).
Proof.
  induction l as [|x l IH]; intros Hn Hfg; cbn [map] in *; [constructor|]. apply NoDup_cons in Hn as [Hx Hn].
  constructor; [|apply IH; [done|intros; apply Hfg; [by right..|done]]].
  intros (y & E & Hy)%list_elem_of_fmap. apply Hx. rewrite (Hfg x y); [|by left|by right|done]. by apply list_elem_of_fmap_2.
Qed.

Lemma NoDup_map_eq {A B} (f : A -> B) l x y : NoDup (map f l) -> x ∈ l -> y ∈ l -> f x = f y -> x = y.
Proof.
  induction l as [|z l IH]; [by intros _ ?%elem_of_nil|]. cbn [map]. intros [Hz Hn]%NoDup_cons Hx Hy E.
  apply elem_of_cons in Hx as [->|Hx], Hy as [->|Hy]; [done| | |by apply IH]; destruct Hz.
  - rewrite E. by apply list_elem_of_fmap_2.
  - rewrite <- E. by apply list_elem_of_fmap_2.
Qed.

Section batch.
Context `{HashFns}.
Variable cfg : Config.
Variable bc : Blockchain.
Variable view : Z -> BlockView.

(** ** Events of the blocks *)

Lemma read_outputs_index batch header i y txn txouts evs : read_outputs_of cfg batch header i y txn txouts = Ok evs ->
  NoDup (map oe_y evs).
Proof.
  revert y evs. induction txouts as [|txout txouts IH]; intros y evs; cbn [read_outputs_of].
  - intros [= <-]. constructor.
  - intros (found & Ef & E)%result_bind_Ok. apply result_bind_Ok in E as (evs' & Er & [= <-]).
    destruct found as [[hash stxo]|]; [|by eapply IH]. cbn [map oe_y]. constructor; [|by eapply IH].
    intros (ev & E & Hin)%list_elem_of_fmap. pose proof (read_outputs_ok _ _ _ _ _ _ _ _ Er) as Hf.
    rewrite Forall_forall in Hf. destruct (Hf ev Hin) as (_ & _ & _ & ?). lia.
Qed.

Lemma read_txs_index batch header i txns tvs : read_txs cfg batch header i txns = Ok tvs ->
  NoDup (map (fun ev => (oe_i ev, oe_y ev)) (tvs_outs tvs)) /\
  Forall (fun ev => i <= oe_i ev /\ 0 <= oe_y ev) (tvs_outs tvs).
Proof.
  revert i tvs. induction txns as [|txn txns IH]; intros i tvs; cbn [read_txs].
  - intros [= <-]. split; [constructor|done].
  - intros (outs & Eo & E)%result_bind_Ok. apply result_bind_Ok in E as (ins & Ei & E).
    apply result_bind_Ok in E as (tvs' & Er & [= <-]). destruct (IH _ _ Er) as [Hn Hf].
    pose proof (read_outputs_index _ _ _ _ _ _ _ Eo) as Hny. pose proof (read_outputs_ok _ _ _ _ _ _ _ _ Eo) as Ho.
    unfold tvs_outs in *. rewrite bind_cons, map_app. cbn [tv_outs]. rewrite Forall_forall in Ho; rewrite Forall_forall in Hf. split.
    + apply NoDup_app. split; [|split; [|done]].
      * apply (NoDup_map_via _ oe_y); [done|]. intros x y _ _ E. cbn beta in E; rewrite pair_eq in E; tauto.
      * intros p (x & -> & Hx)%list_elem_of_fmap (y & E & Hy)%list_elem_of_fmap. cbn beta in E; rewrite pair_eq in E.
        destruct (Ho x Hx) as (_ & _ & ? & _), (Hf y Hy). lia.
    + apply Forall_app. split; apply Forall_forall; intros x Hx.
      * destruct (Ho x Hx) as (_ & _ & ? & ?). lia.
      * destruct (Hf x Hx). lia.
Qed.

(** The transactions of the blocks in chain order. *)
Definition txs_of (hs : list Z) : list TxView := hs ≫= (fun h => vw_txs (view h)).

Lemma outs_txs hs : tvs_outs (txs_of hs) = outs_of view hs.
Proof. unfold tvs_outs, txs_of, outs_of. induction hs as [|h hs IH]; [done|]. by rewrite !bind_cons, bind_app, IH. Qed.
Lemma ins_txs hs : tvs_ins (txs_of hs) = ins_of view hs.
Proof. unfold tvs_ins, txs_of, ins_of. induction hs as [|h hs IH]; [done|]. by rewrite !bind_cons, bind_app, IH. Qed.

(** Unspent outputs of the blocks before. *)
Record utxo_ok (u : utxo_map) : Prop := {
  uo_wf : utxo_wf u;
  uo_self h i s : utxo_find h i u = Some s ->
    stxo_parentHash s = h /\ stxo_txOutIndex s = i /\ stxo_placed s /\ exists a, stxo_addr cfg s = Ok a;
  uo_keys h i s h' i' s' : utxo_find h i u = Some s -> utxo_find h' i' u = Some s' ->
    stxo_getDBKey false s = stxo_getDBKey false s' -> h = h' /\ i = i';
}.

(** A batch of blocks that extends the chain behind the outputs [u]. *)
Record batch_ok (batch : ParserBatch) (u : utxo_map) (hs : list Z) : Prop := {
  bk_views : Forall (view_ok cfg bc view batch) hs;
  bk_heights : NoDup hs;
  bk_ledger : ledger_valid (fun h i => utxo_find h i u) (txs_of hs);
  bk_hashes : hashes_per_block (outs_of view hs);
  bk_index : Forall (fun ev => oe_i ev < 65535 /\ oe_y ev < 65535) (outs_of view hs);
  bk_older h i s : utxo_find h i u = Some s -> forall j, j ∈ hs -> stxo_hgtx s <> header_hgtx (vw_header (view j));
  bk_empty : blockMap_ batch = [] /\ outputMap_ batch = [] /\ sshMap_ batch = [] /\ spentOutputs_ batch = [];
}.

Section ok.
Variables (batch : ParserBatch) (u : utxo_map) (hs : list Z).
Hypothesis Hu : utxo_ok u.
Hypothesis Hb : batch_ok batch u hs.

(** An output of the batch: its place, its key, its block. *)
Lemma out_placed ev : ev ∈ outs_of view hs ->
  stxo_placed (oe_stxo ev) /\ stxo_getDBKey false (oe_stxo ev) = oe_key ev /\ stxo_txOutIndex (oe_stxo ev) = oe_y ev /\
  stxo_hgtx (oe_stxo ev) = oe_hgtx ev /\ stxo_addr cfg (oe_stxo ev) = Ok (oe_addr ev) /\
  exists h, h ∈ hs /\ oe_header ev = vw_header (view h) /\ h = blockHeight_ (oe_header ev).
Proof.
  intros Hin. pose proof (bk_views _ _ _ Hb) as Hv. destruct (outs_of_in _ _ _ _ _ _ Hv Hin) as (h & Hh & Eh & [(P1 & P2 & P3 & P4) Ha _]).
  pose proof (bk_index _ _ _ Hb) as Hi. rewrite Forall_forall in Hi; rewrite Forall_forall in Hv. destruct (Hi ev Hin) as [Hi1 Hi2].
  destruct (vo_height _ _ _ _ _ (Hv h Hh)) as [E1 Hok].
  assert (0 <= oe_i ev /\ 0 <= oe_y ev) as [H0 H1].
  { unfold outs_of in Hin. apply list_elem_of_bind in Hin as (h' & Hin & Hh').
    destruct (read_txs_index _ _ _ _ _ (vo_read _ _ _ _ _ (Hv h' Hh'))) as [_ Hf]. rewrite Forall_forall in Hf. by apply Hf. }
  rewrite wrap_small in P3, P4 by (unfold is_uint; lia).
  assert (stxo_placed (oe_stxo ev)) as Hp by (constructor; rewrite ?P1, ?P2, ?P3, ?P4, ?Eh, ?E1; done).
  split; [done|]. destruct (placed_key _ Hp) as [-> _]. unfold oe_key, oe_hgtx, header_hgtx, stxo_hgtx. rewrite P1, P2, P3, P4.
  split_and!; try done.
  - unfold stxo_addr, stxo_getScrAddress. fold (oe_addr ev). by rewrite (proj2 (Z.ltb_lt _ _) Ha).
  - exists h. by rewrite Eh, E1.
Qed.

Lemma batch_outs_distinct : outs_distinct (outs_of view hs).
Proof.
  pose proof (lv_once _ _ (bk_ledger _ _ _ Hb)) as Ho. rewrite outs_txs in Ho. split; [|exact Ho].
  apply (NoDup_map_via _ (fun ev => (blockHeight_ (oe_header ev), (oe_i ev, oe_y ev)))).
  - pose proof (bk_views _ _ _ Hb) as Hv. pose proof (bk_heights _ _ _ Hb) as Hn. clear Hb Hu Ho. unfold outs_of.
    induction hs as [|h hs' IH]; [constructor|]. rewrite bind_cons, map_app. apply Forall_cons in Hv as [Hvh Hv].
    apply NoDup_cons in Hn as [Hh Hn]. apply NoDup_app.
    destruct (read_txs_events _ _ _ _ _ _ (vo_read _ _ _ _ _ Hvh)) as [He _]. rewrite Forall_forall in He.
    split; [|split; [|by apply IH]].
    + apply (NoDup_map_via _ (fun ev => (oe_i ev, oe_y ev))); [|intros x y _ _ E; cbn beta in E; rewrite pair_eq in E; tauto].
      apply (read_txs_index _ _ _ _ _ (vo_read _ _ _ _ _ Hvh)).
    + intros p (x & -> & Hx)%list_elem_of_fmap (y & E & Hy)%list_elem_of_fmap. cbn beta in E; rewrite pair_eq in E. destruct E as [E _].
      destruct (outs_of_in _ _ _ _ _ _ Hv Hy) as (h' & Hh' & Ey & _). destruct (He x Hx) as [_ Ex].
      rewrite Forall_forall in Hv. rewrite Ex, Ey, (proj1 (vo_height _ _ _ _ _ Hvh)), (proj1 (vo_height _ _ _ _ _ (Hv h' Hh'))) in E.
      by subst h'.
  - intros x y Hx Hy E. destruct (out_placed x Hx) as (Px & Kx & Ix & _ & _ & hx & _ & _ & Ehx).
    destruct (out_placed y Hy) as (Py & Ky & Iy & _ & _ & hy & _ & _ & Ehy).
    destruct (placed_key _ Px) as [E1 O1], (placed_key _ Py) as [E2 O2]. rewrite <- Kx, <- Ky, E1, E2 in E.
    apply txout_key_inj in E; [|done|done]. rewrite !pair_eq in E. destruct E as [[[E3 _] E4] E5].
    pose proof (bk_views _ _ _ Hb) as Hv. destruct (outs_of_in _ _ _ _ _ _ Hv Hx) as (_ & _ & _ & [(P1 & _ & P3 & _) _ _]).
    destruct (outs_of_in _ _ _ _ _ _ Hv Hy) as (_ & _ & _ & [(Q1 & _ & Q3 & _) _ _]).
    pose proof (sp_index _ Px) as [_ ?]. pose proof (bk_index _ _ _ Hb) as Hi. rewrite Forall_forall in Hi.
    rewrite !pair_eq. rewrite <- P1, <- Q1, <- Ix, <- Iy, E3, E5. split; [done|]. split; [|done].
    assert (forall z, z ∈ outs_of view hs -> 0 <= oe_i z) as Hpos.
    { intros z Hz. rewrite Forall_forall in Hv. unfold outs_of in Hz. apply list_elem_of_bind in Hz as (h' & Hz & Hh').
      destruct (read_txs_index _ _ _ _ _ (vo_read _ _ _ _ _ (Hv h' Hh'))) as [_ Hf]. rewrite Forall_forall in Hf. by apply Hf. }
    rewrite P3, Q3 in E4. destruct (Hi x Hx), (Hi y Hy). pose proof (Hpos x Hx). pose proof (Hpos y Hy).
    rewrite !wrap_small in E4 by (unfold is_uint; lia). done.
Qed.
End ok.
End batch.
