(* ===== verification/ScannerBatch.v ===== *)
(** * ScannerBatch: a scanned batch of blocks

    After a batch the unspent outputs are those of the ledger, and the sub
    histories hold the outputs and the spends of each address block by block,
    whatever the threads did. *)

From S2P Require Import Prelude BinaryData BinaryIO Hashing StdMap MapSums DBUtils BlockHeader HeadersDB.
From S2P Require Import ScriptUtils TxLength Blockchain BlockData StoredTxOut ScriptHistory ScriptHistoryProps.
From S2P Require Import Scanner ScannerSpec ScannerProps ScannerThreads ScannerLedger ScannerCorrect.

(** ** The purge *)

Definition stxo_point (s : StoredTxOut) : point := (stxo_parentHash s, stxo_txOutIndex s).

Lemma purge_one_find u s : utxo_wf u -> utxo_wf (purge_one u s) /\
  forall h i, utxo_find h i (purge_one u s) =
    if decide (h = stxo_parentHash s /\ i = stxo_txOutIndex s) then None else utxo_find h i u.
Proof.
  intros Hu. pose proof Hu as [Ho Hf]. unfold purge_one.
  assert (utxo_find (stxo_parentHash s) (stxo_txOutIndex s) u = None -> forall h i,
    utxo_find h i u = if decide (h = stxo_parentHash s /\ i = stxo_txOutIndex s) then None else utxo_find h i u) as Hsame.
  { intros E h i. case_decide as Ed; [|done]. by destruct Ed as [-> ->]. }
  unfold utxo_find in *. destruct (map_find (stxo_parentHash s) u) as [outs|] eqn:E; cbn [mbind option_bind] in Hsame;
    [|split; [done|by apply Hsame]].
  destruct (map_find (stxo_txOutIndex s) outs) as [s'|] eqn:E'; [|split; [done|by apply Hsame]].
  pose proof (map_find_Forall _ _ _ _ Hf E) as Hin. cbn beta in Hin. cbn [snd] in Hin.
  assert (forall i, map_find i (map_erase (stxo_txOutIndex s) outs) =
    if decide (i = stxo_txOutIndex s) then None else map_find i outs) as Ei.
  { intros i. case_decide as Ed; [subst; by apply map_find_erase_eq|by apply map_find_erase_ne; auto]. }
  destruct (Z.eqb_spec (zlen (map_erase (stxo_txOutIndex s) outs)) 0) as [Ez|Ez]; (split; [split|]).
  - by apply map_erase_ordered.
  - by apply map_erase_Forall.
  - intros h i. destruct (decide (h = stxo_parentHash s)) as [->|Hne].
    + rewrite map_find_erase_eq, E by done. cbn [mbind option_bind].
      pose proof (Ei i) as Hi. destruct (map_erase (stxo_txOutIndex s) outs) as [|e rest]; [|rewrite zlen_cons in Ez; pose proof (zlen_nonneg rest); lia].
      cbn [map_find] in Hi. rewrite Hi. repeat case_decide; naive_solver.
    + rewrite map_find_erase_ne by auto. by rewrite decide_False by tauto.
  - by apply map_put_ordered.
  - apply map_put_Forall; [|done]. by apply map_erase_ordered.
  - intros h i. rewrite map_find_put by done. destruct (decide (h = stxo_parentHash s)) as [->|Hne].
    + cbn [mbind option_bind]. rewrite Ei, E. cbn [mbind option_bind]. destruct (decide (i = stxo_txOutIndex s)) as [->|Hi]; [by rewrite decide_True|by rewrite decide_False by tauto].
    + by rewrite decide_False by tauto.
Qed.

Lemma purge_find u l : utxo_wf u -> utxo_wf (foldl purge_one u l) /\
  forall h i, utxo_find h i (foldl purge_one u l) = if decide ((h, i) ∈ map stxo_point l) then None else utxo_find h i u.
Proof.
  revert u. induction l as [|s l IH]; intros u Hu; cbn [foldl map]; [split; [done|]; intros h i; by rewrite decide_False by apply not_elem_of_nil|].
  destruct (purge_one_find u s Hu) as [Hw Hp]. destruct (IH _ Hw) as [Hw' Hp']. split; [done|]. intros h i. rewrite Hp', Hp.
  destruct (decide ((h, i) ∈ stxo_point s :: map stxo_point l)) as [Hin|Hin]; rewrite elem_of_cons in Hin; unfold stxo_point at 1 in Hin;
    rewrite pair_eq in Hin; repeat case_decide; tauto.
Qed.

(** ** Spends *)

(** An output that a transaction can spend: there before, or of the blocks. *)
Definition created_as (L : Ledger) (tvs : list TxView) (h : list byte) (i : Z) (s : StoredTxOut) : Prop :=
  L h i = Some s \/ (h, i, s) ∈ map oe_utxo (tvs_outs tvs).

Section spends.
Context `{HashFns}.
Variable cfg : Config.

(** Whose address is asked for does not depend on who spends it. *)
Lemma getScrAddress_spent ev s a : stxo_addr cfg s = Ok a -> exists s',
  stxo_getScrAddress cfg (spent_by ev s) = Ok (a, s') /\ stxo_point s' = stxo_point s /\
  stxo_getDBKey false s' = stxo_getDBKey false s /\ stxo_getValue s' = stxo_getValue s /\
  stxo_spentness s' = spentness_val TXOUT_SPENT /\ stxo_spentByTxInKey s' = ie_key ev.
Proof.
  unfold stxo_addr, stxo_getScrAddress. change (stxo_scrAddr (spent_by ev s)) with (stxo_scrAddr s).
  change (stxo_getScriptRef (spent_by ev s)) with (stxo_getScriptRef s). destruct (0 <? zlen (stxo_scrAddr s)).
  - intros [= <-]. by eexists.
  - destruct (stxo_getScriptRef s) as [script|]; cbn [mbind result_bind]; [|done].
    destruct (getTxOutScrAddr cfg script TXOUT_SCRIPT_NONSTANDARD) as [addr|]; [|done]. intros [= <-]. by eexists.
Qed.

Record spends_ok (u : utxo_map) (ins : list InEv) (sps : list Spend) : Prop := {
  so_in sp : sp ∈ sps -> sp_ev sp ∈ ins /\ exists s, utxo_find (ie_hash (sp_ev sp)) (ie_idx (sp_ev sp)) u = Some s /\
    stxo_addr cfg s = Ok (sp_addr sp) /\ stxo_getScrAddress cfg (spent_by (sp_ev sp) s) = Ok (sp_addr sp, sp_stxo sp);
  so_all ev : ev ∈ ins -> is_Some (utxo_find (ie_hash ev) (ie_idx ev) u) -> exists sp, sp ∈ sps /\ sp_ev sp = ev;
}.

Lemma spends_of_ok u ins : (forall h i s, utxo_find h i u = Some s -> exists a, stxo_addr cfg s = Ok a) ->
  exists sps, spends_of cfg u ins = Ok sps /\ spends_ok u ins sps /\
    map sp_ev sps = filter (fun ev => is_Some (utxo_find (ie_hash ev) (ie_idx ev) u)) ins.
Proof.
  intros Ha. induction ins as [|ev ins (sps & E & [H1 H2] & H3)]; cbn [spends_of].
  - exists []. split; [done|]. split; [|done]. split; [by intros sp ?%elem_of_nil|by intros sp ?%elem_of_nil].
  - rewrite filter_cons. destruct (utxo_find (ie_hash ev) (ie_idx ev) u) as [s|] eqn:Eu.
    + destruct (Ha _ _ _ Eu) as [a Eadr]. destruct (getScrAddress_spent ev s a Eadr) as (s' & Es & _). rewrite Es, E.
      cbn [mbind result_bind]. exists (mkSpend ev a s' :: sps). split; [done|]. rewrite decide_True by done.
      split; [|by cbn [map sp_ev]; rewrite H3]. constructor.
      * intros sp [->|Hin]%elem_of_cons; [|destruct (H1 sp Hin); split; [by right|done]]. split; [by left|]. by exists s.
      * intros ev' [->|Hin]%elem_of_cons Hs; [exists (mkSpend ev a s'); split; [by left|done]|].
        destruct (H2 ev' Hin Hs) as (sp & ? & ?). exists sp. split; [by right|done].
    + exists sps. split; [done|]. rewrite decide_False by (by intros []). split; [|done]. constructor.
      * intros sp Hin. destruct (H1 sp Hin). split; [by right|done].
      * intros ev' [->|Hin]%elem_of_cons Hs; [by rewrite Eu in Hs; destruct Hs|by apply H2].
Qed.

Lemma spends_of_perm u ins1 ins2 sps1 : ins1 ≡ₚ ins2 -> spends_of cfg u ins1 = Ok sps1 ->
  exists sps2, spends_of cfg u ins2 = Ok sps2 /\ sps1 ≡ₚ sps2.
Proof.
  assert (forall ev ins, spends_of cfg u (ev :: ins) = (a ← spends_of cfg u [ev]; b ← spends_of cfg u ins; Ok (a ++ b))) as Hc
    by (intros ev ins; exact (spends_of_app cfg u [ev] ins)).
  intros P. revert sps1. induction P as [|ev l1 l2 P IH|e1 e2 l|l1 l2 l3 P1 IH1 P2 IH2]; intros sps1 E.
  - by exists sps1.
  - rewrite Hc in E |- *. apply result_bind_Ok in E as (a & -> & E). apply result_bind_Ok in E as (b & Eb & [= <-]).
    destruct (IH b Eb) as (c & Ec & Pc). rewrite Ec. cbn [mbind result_bind]. exists (a ++ c). split; [done|]. by rewrite Pc.
  - rewrite Hc, (Hc e1 l) in E. rewrite (Hc e1), (Hc e2 l). apply result_bind_Ok in E as (a & -> & E).
    apply result_bind_Ok in E as (b & E & [= <-]). apply result_bind_Ok in E as (c & -> & E).
    apply result_bind_Ok in E as (d & -> & [= <-]). cbn [mbind result_bind]. exists (c ++ a ++ d). split; [done|].
    by rewrite !app_assoc, (Permutation_app_comm a c).
  - destruct (IH1 _ E) as (s2 & E2 & Q2). destruct (IH2 _ E2) as (s3 & E3 & Q3). exists s3. split; [done|]. by rewrite Q2.
Qed.
End spends.

(** ** The batch *)

Section batch.
Context `{HashFns}.
Variable cfg : Config.
Variable bc : Blockchain.
Variable view : Z -> BlockView.
Variables (batch : ParserBatch) (u : utxo_map) (hs : list Z).
Hypothesis Hu : utxo_ok cfg u.
Hypothesis Hb : batch_ok cfg bc view batch u hs.

(** The unspent outputs before the inputs are read: those of before, and those
    of the batch. *)
Record merged (U : utxo_map) : Prop := {
  mg_wf : utxo_wf U;
  mg_find h i s : utxo_find h i U = Some s <-> utxo_find h i u = Some s \/ (h, i, s) ∈ map oe_utxo (outs_of view hs);
}.

Lemma out_is_new ev : ev ∈ outs_of view hs -> utxo_find (oe_hash ev) (oe_y ev) u = None.
Proof. intros Hin. apply (lv_new _ _ (bk_ledger _ _ _ _ _ _ Hb)). by rewrite outs_txs. Qed.

Lemma merge_merged outs sshs : out_state (outs_of view hs) (outs, sshs) -> merged (merge_utxos outs u).
Proof.
  intros Hm. destruct (merge_utxos_spec outs u (os_utxo_wf _ _ Hm) (uo_wf _ _ Hu)) as [Hw Hf]. constructor; [done|].
  intros h i s. rewrite Hf, <- (os_utxo _ _ Hm). cbn [fst]. destruct (utxo_find h i u) as [s'|] eqn:E; [|split; [by right|by intros [|]]].
  split; [by left|]. intros [?|Hin]; [done|]. exfalso. apply (os_utxo _ _ Hm), elem_of_oe_utxo in Hin as (ev & Hin & <- & <- & _).
  by rewrite (out_is_new ev Hin) in E.
Qed.

Section with_merged.
Variable U : utxo_map.
Hypothesis HU : merged U.

(** Every unspent output is at its place and has an address. *)
Lemma merged_ok h i s : utxo_find h i U = Some s ->
  stxo_point s = (h, i) /\ stxo_placed s /\ exists a, stxo_addr cfg s = Ok a.
Proof.
  intros [Hs|(ev & Hin & <- & <- & <-)%elem_of_oe_utxo]%(mg_find _ HU).
  - destruct (uo_self _ _ Hu _ _ _ Hs) as (<- & <- & Hp & Ha). done.
  - destruct (out_placed _ _ _ _ _ _ Hb ev Hin) as (Hp & _ & Hi & _ & Ha & _). split; [|split; [done|by eexists]].
    unfold stxo_point, oe_hash. by rewrite Hi.
Qed.

Lemma placed_hgtx s s' : stxo_placed s -> stxo_placed s' -> stxo_getDBKey false s = stxo_getDBKey false s' -> stxo_hgtx s = stxo_hgtx s'.
Proof.
  intros Hp Hp' E. destruct (placed_key _ Hp) as [E1 O1], (placed_key _ Hp') as [E2 O2]. rewrite E1, E2 in E.
  apply txout_key_inj in E; [|done|done]. rewrite !pair_eq in E. destruct E as [[[E3 E4] _] _]. unfold stxo_hgtx. by rewrite E3, E4.
Qed.

(** Two unspent outputs with the same key are one. *)
Lemma merged_keys h i s h' i' s' : utxo_find h i U = Some s -> utxo_find h' i' U = Some s' ->
  stxo_getDBKey false s = stxo_getDBKey false s' -> (h, i) = (h', i').
Proof.
  intros Hs Hs' E. destruct (merged_ok _ _ _ Hs) as (P1 & Hp1 & _), (merged_ok _ _ _ Hs') as (P2 & Hp2 & _).
  pose proof (placed_hgtx _ _ Hp1 Hp2 E) as Eh.
  assert (forall ev h i s, ev ∈ outs_of view hs -> utxo_find h i u = Some s -> stxo_hgtx s <> stxo_hgtx (oe_stxo ev)) as Hold.
  { intros ev h0 i0 s0 Hin Hs0. destruct (out_placed _ _ _ _ _ _ Hb ev Hin) as (_ & _ & _ & -> & _ & j & Hj & Ej & _).
    unfold oe_hgtx. rewrite Ej. by apply (bk_older _ _ _ _ _ _ Hb h0 i0). }
  apply (mg_find _ HU) in Hs as [Hs|(ev & Hin & <- & <- & <-)%elem_of_oe_utxo];
    apply (mg_find _ HU) in Hs' as [Hs'|(ev' & Hin' & <- & <- & <-)%elem_of_oe_utxo].
  - destruct (uo_keys _ _ Hu _ _ _ _ _ _ Hs Hs' E) as [-> ->]. done.
  - by destruct (Hold ev' h i s Hin' Hs).
  - by destruct (Hold ev h' i' s' Hin Hs').
  - rewrite <- P1, <- P2. f_equal. f_equal.
    destruct (out_placed _ _ _ _ _ _ Hb ev Hin) as (_ & K1 & _), (out_placed _ _ _ _ _ _ Hb ev' Hin') as (_ & K2 & _).
    rewrite K1, K2 in E. apply (NoDup_map_eq _ _ _ _ (od_keys _ (batch_outs_distinct _ _ _ _ _ _ Hb))); done.
Qed.

Lemma merged_created h i : is_Some (utxo_find h i U) <-> created (fun h i => utxo_find h i u) (txs_of view hs) h i.
Proof.
  unfold created. rewrite outs_txs. split.
  - intros [s [Hs|(ev & Hin & E1 & E2 & _)%elem_of_oe_utxo]%(mg_find _ HU)]; [left; by rewrite Hs|right; by exists ev].
  - intros [Hs|(ev & Hin & <- & <-)].
    + destruct (utxo_find h i u) as [s|] eqn:E; [|done]. exists s. apply (mg_find _ HU). by left.
    + exists (oe_stxo ev). apply (mg_find _ HU). right. apply elem_of_oe_utxo. by exists ev.
Qed.

Lemma merged_addr h i s : utxo_find h i U = Some s -> exists a, stxo_addr cfg s = Ok a.
Proof. intros Hs. by destruct (merged_ok h i s Hs) as (_ & _ & ?). Qed.

(** The outputs of the spends are those that the inputs name. *)
Lemma spend_found ins sps sp : spends_ok cfg U ins sps -> sp ∈ sps -> exists s,
  utxo_find (ie_hash (sp_ev sp)) (ie_idx (sp_ev sp)) U = Some s /\ stxo_point (sp_stxo sp) = ie_point (sp_ev sp) /\
  sp_key sp = stxo_getDBKey false s.
Proof.
  intros [Hin _] Hsp. destruct (Hin sp Hsp) as (_ & s & Hs & Ha & Hg). exists s. split; [done|].
  destruct (getScrAddress_spent cfg (sp_ev sp) s _ Ha) as (s' & Hg' & Hp & Hk & _). rewrite Hg' in Hg. injection Hg as ->.
  destruct (merged_ok _ _ _ Hs) as (Hp' & _). unfold ie_point, sp_key. by rewrite Hp, Hk.
Qed.

Lemma NoDup_map_filter {A B} (f : A -> B) (P : A -> Prop) `{forall x, Decision (P x)} l :
  (forall l1 x l2, l = l1 ++ x :: l2 -> P x -> f x ∉ map f l2) -> NoDup (map f (filter P l)).
Proof.
  induction l as [|x l IH]; intros Hl; [constructor|]. rewrite filter_cons. case_decide as E.
  - cbn [map]. constructor; [|apply IH; intros l1 y l2 ->; by apply (Hl (x :: l1))].
    intros (y & Ey & [_ Hy]%list_elem_of_filter)%list_elem_of_fmap. apply (Hl [] x l eq_refl E). rewrite Ey. by apply list_elem_of_fmap_2.
  - apply IH. intros l1 y l2 ->. by apply (Hl (x :: l1)).
Qed.

Lemma spends_keys sps : spends_of cfg U (ins_of view hs) = Ok sps -> NoDup (map sp_key sps).
Proof.
  intros E. destruct (spends_of_ok cfg U (ins_of view hs) merged_addr) as (sps' & E' & Hok & Hev). rewrite E in E'.
  injection E' as <-. apply (NoDup_map_via _ (fun sp => ie_point (sp_ev sp))).
  - rewrite <- (map_map sp_ev ie_point), Hev. apply NoDup_map_filter. intros l1 ev l2 El Hs.
    apply (proj2 (ledger_final _ _ (bk_ledger _ _ _ _ _ _ Hb)) l1); [by rewrite ins_txs|]. by apply merged_created.
  - intros x y Hx Hy Ek. destruct (spend_found _ _ _ Hok Hx) as (s & Hs & _ & Kx), (spend_found _ _ _ Hok Hy) as (s' & Hs' & _ & Ky).
    apply (merged_keys _ _ _ _ _ _ Hs Hs'). by rewrite <- Kx, <- Ky.
Qed.

(** The purge leaves what the ledger leaves. *)
Lemma purge_ledger sps spent : spends_of cfg U (ins_of view hs) = Ok sps -> spent ≡ₚ map sp_stxo sps ->
  utxo_ok cfg (foldl purge_one U spent) /\
  forall h i, utxo_find h i (foldl purge_one U spent) = ledger (fun h i => utxo_find h i u) (txs_of view hs) h i.
Proof.
  intros E P. destruct (spends_of_ok cfg U (ins_of view hs) merged_addr) as (sps' & E' & Hok & _). rewrite E in E'.
  injection E' as <-. destruct (purge_find U spent (mg_wf _ HU)) as [Hw Hf].
  assert (forall h i s, utxo_find h i (foldl purge_one U spent) = Some s -> utxo_find h i U = Some s) as Hsub
    by (intros h i s; rewrite Hf; by case_decide).
  split; [constructor; [done| |]|].
  - intros h i s Hs%Hsub. destruct (merged_ok _ _ _ Hs) as (Hp & ? & ?). injection Hp as <- <-. done.
  - intros h i s h' i' s' Hs%Hsub Hs'%Hsub Ek. pose proof (merged_keys _ _ _ _ _ _ Hs Hs' Ek) as Ep. by injection Ep.
  - intros h i. apply option_eq. intros s. rewrite Hf, (proj1 (ledger_final _ _ (bk_ledger _ _ _ _ _ _ Hb))), outs_txs, ins_txs, <- (mg_find _ HU).
    assert (is_Some (utxo_find h i U) -> (h, i) ∈ map stxo_point spent <-> (h, i) ∈ map ie_point (ins_of view hs)) as Hiff.
    { intros Hs. rewrite P, map_map. split; intros (x & Ex & Hx)%list_elem_of_fmap.
      - destruct (spend_found _ _ _ Hok Hx) as (_ & _ & Epx & _). rewrite Ex, Epx. apply list_elem_of_fmap_2.
        by destruct (so_in _ _ _ _ Hok x Hx).
      - unfold ie_point in Ex. rewrite pair_eq in Ex. destruct Ex as [-> ->].
        destruct (so_all _ _ _ _ Hok x Hx Hs) as (sp & Hsp & <-). apply list_elem_of_fmap. exists sp. split; [|done].
        by destruct (spend_found _ _ _ Hok Hsp) as (_ & _ & -> & _). }
    case_decide as Ed; (split; [intros Hs|intros [H1 H2]]); try done.
    + destruct H1. apply Hiff; [by eexists|done].
    + split; [|done]. intros H1. apply Ed, Hiff; [by eexists|done].
Qed.
End with_merged.

(** The spends of the blocks, in the order of the chain. *)
Record chain_spends (L : Ledger) (tvs : list TxView) (sps : list Spend) : Prop := {
  cs_in sp : sp ∈ sps -> sp_ev sp ∈ tvs_ins tvs /\ exists s, created_as L tvs (ie_hash (sp_ev sp)) (ie_idx (sp_ev sp)) s /\
    stxo_getScrAddress cfg (spent_by (sp_ev sp) s) = Ok (sp_addr sp, sp_stxo sp);
  cs_all ev : ev ∈ tvs_ins tvs -> created L tvs (ie_hash ev) (ie_idx ev) -> exists sp, sp ∈ sps /\ sp_ev sp = ev;
  cs_once : NoDup (map sp_key sps);
}.

Lemma merged_spends U sps : merged U -> spends_of cfg U (ins_of view hs) = Ok sps ->
  chain_spends (fun h i => utxo_find h i u) (txs_of view hs) sps.
Proof.
  intros HU E. destruct (spends_of_ok cfg U (ins_of view hs) (merged_addr U HU)) as (sps' & E' & Hok & _). rewrite E in E'.
  injection E' as <-. constructor; [| |by apply (spends_keys U)].
  - intros sp Hsp. destruct (so_in _ _ _ _ Hok sp Hsp) as (Hin & s & Hs & _ & Hg). rewrite ins_txs. split; [done|].
    exists s. split; [|done]. unfold created_as. rewrite outs_txs. by apply (mg_find _ HU).
  - rewrite ins_txs. intros ev Hin Hc. apply (so_all _ _ _ _ Hok); [done|]. by apply (merged_created U).
Qed.

Lemma views_perm (b : ParserBatch) l : l ≡ₚ hs -> fileMaps_ b = fileMaps_ batch -> scriptRefMap_ b = scriptRefMap_ batch ->
  Forall (view_ok cfg bc view b) l.
Proof.
  intros P Ef Es. rewrite P. eapply Forall_impl; [exact (bk_views _ _ _ _ _ _ Hb)|]. intros h. by apply view_ok_same.
Qed.

(** What a batch leaves: the batch, the unspent outputs and its spends. *)
Record scanned (batch' : ParserBatch) (u' : utxo_map) (sps : list Spend) : Prop := {
  sc_ok : utxo_ok cfg u';
  sc_ledger h i : utxo_find h i u' = ledger (fun h i => utxo_find h i u) (txs_of view hs) h i;
  sc_outs : utxo_wf (outputMap_ batch') /\
    forall h i s, utxo_find h i (outputMap_ batch') = Some s <-> (h, i, s) ∈ map oe_utxo (outs_of view hs);
  sc_spends : chain_spends (fun h i => utxo_find h i u) (txs_of view hs) sps;
  sc_state : batch_state (outs_of view hs) sps (sshMap_ batch') (spentOutputs_ batch');
  sc_blocks : blocks_state view hs (blockMap_ batch');
}.

(** The first step, for any heights of the threads. *)
Lemma outputs_step outSchedule : concat outSchedule ≡ₚ hs -> exists b1, run_outputs cfg outSchedule batch bc = Ok (b1, bc) /\
  fileMaps_ b1 = fileMaps_ batch /\ scriptRefMap_ b1 = scriptRefMap_ batch /\ spentOutputs_ b1 = [] /\
  blocks_state view hs (blockMap_ b1) /\ out_state (outs_of view hs) (outputMap_ b1, sshMap_ b1).
Proof.
  intros P. destruct (bk_empty _ _ _ _ _ _ Hb) as (E1 & E2 & E3 & E4). pose proof (outs_of_perm view _ _ P) as Po.
  destruct (threads_outputs cfg bc view batch outSchedule [] batch) as (b1 & Er & [(F1 & F2 & F3 & _) F4 F5]); cbn [app].
  - constructor; [done|rewrite E1; exact (blocks_state_new view)|rewrite E2, E3; exact out_state_new].
  - by apply views_perm.
  - rewrite P. apply Hb.
  - eapply outs_distinct_perm; [symmetry; exact Po|]. by apply batch_outs_distinct with cfg bc batch u.
  - intros x y. rewrite Po. apply Hb.
  - exists b1. cbn [app] in *. rewrite E4 in F3. do 4 (split; [done|]). split.
    + destruct F4 as [Ho Hf]. split; [done|]. intros h b. by rewrite Hf, P.
    + by eapply out_state_perm.
Qed.

(** The second step, with the merged outputs [U]. *)
Lemma inputs_step U b1 inSchedule : merged U -> concat inSchedule ≡ₚ hs ->
  fileMaps_ b1 = fileMaps_ batch -> scriptRefMap_ b1 = scriptRefMap_ batch -> spentOutputs_ b1 = [] ->
  blocks_state view hs (blockMap_ b1) -> out_state (outs_of view hs) (outputMap_ b1, sshMap_ b1) ->
  exists b2 sps, run_inputs cfg U inSchedule b1 = Ok b2 /\ spends_of cfg U (ins_of view hs) = Ok sps /\
    outputMap_ b2 = outputMap_ b1 /\ blockMap_ b2 = blockMap_ b1 /\
    batch_state (outs_of view hs) sps (sshMap_ b2) (spentOutputs_ b2).
Proof.
  intros HU P Ef Es E0 [_ Hbl] [Hw1 Hw2 H3 H4 H5 H6].
  destruct (spends_of_ok cfg U (ins_of view hs) (merged_addr U HU)) as (sps & E & _).
  assert (ins_of view hs ≡ₚ ins_of view (concat inSchedule)) as Pi by (unfold ins_of; by rewrite P).
  destruct (spends_of_perm cfg U _ _ _ Pi E) as (sps' & E' & Ps).
  destruct (threads_inputs cfg bc view b1 (outs_of view hs) U inSchedule [] sps' b1) as (b2 & Er & [(_ & _ & F1 & F2) F3]).
  - constructor; [done|]. constructor; [done| |by rewrite E0]. intros a h k t. cbn [snd] in H4. rewrite H4.
    split; [intros Hin; right; split; [apply not_elem_of_nil|done]|by intros [?%elem_of_nil|[_ ?]]].
  - by apply views_perm.
  - intros h. rewrite P. intros Hh. by apply Hbl.
  - done.
  - cbn [app]. rewrite <- Ps. by apply (spends_keys U).
  - exists b2, sps. do 4 (split; [done|]). cbn [app] in F3. eapply batch_state_perm; [symmetry; exact Ps|done].
Qed.

Lemma batch_scanned outSchedule inSchedule : concat outSchedule ≡ₚ hs -> concat inSchedule ≡ₚ hs ->
  exists batch' u' sps, processBatch cfg outSchedule inSchedule u batch bc = Ok ((batch', u'), bc) /\ scanned batch' u' sps.
Proof.
  intros Po Pi. destruct (outputs_step outSchedule Po) as (b1 & E1 & Ef & Es & E0 & Hbl & Hm).
  pose proof (merge_merged _ _ Hm) as HU.
  destruct (inputs_step _ b1 inSchedule HU Pi Ef Es E0 Hbl Hm) as (b2 & sps & E2 & E & Eo & Eb & Hst).
  destruct (purge_ledger _ HU sps (spentOutputs_ b2) E (bt_spent _ _ _ _ Hst)) as [Hok Hl].
  exists b2, (foldl purge_one (merge_utxos (outputMap_ b1) u) (spentOutputs_ b2)), sps. split.
  - unfold processBatch, mbind, chain_bind. rewrite E1. unfold chain_of. rewrite E2. done.
  - constructor; [done|done| |by apply (merged_spends _ _ HU)|done|by rewrite Eb].
    rewrite Eo. split; [apply Hm|]. intros h i s. apply (os_utxo _ _ Hm).
Qed.

(** C11: a batch of blocks, read by any number of threads, each of which takes
    any of the heights for the outputs and any for the inputs: the scan returns;
    the unspent outputs are those of the ledger in which the transactions of
    the blocks come one after the other, though all outputs are read before any
    input; the spends are those of the inputs that name an output of ours,
    each output once; the sub history of an address and a block holds what the
    address received in the block and what it spent there. *)
Theorem scan_batch_ledger outSchedule inSchedule : concat outSchedule ≡ₚ hs -> concat inSchedule ≡ₚ hs ->
  exists batch' u' sps, processBatch cfg outSchedule inSchedule u batch bc = Ok ((batch', u'), bc) /\ scanned batch' u' sps.
Proof. apply batch_scanned. Qed.
End batch.
