(* ===== verification/ScannerBalance.v ===== *)
(** * ScannerBalance: balances across a scan

    The totals of an address move by what its unspent outputs change: what
    [updateSSH] adds up from the sub histories of a batch is the balance after
    the batch less the balance before it. *)

From S2P Require Import Prelude BinaryData BinaryIO Hashing StdMap MapSums DBUtils BlockHeader HeadersDB.
From S2P Require Import ScriptUtils TxLength Blockchain BlockData StoredTxOut ScriptHistory ScriptHistoryProps.
From S2P Require Import Scanner ScannerSpec ScannerProps ScannerThreads ScannerLedger ScannerCorrect ScannerBatch.

(** ** Nested maps as lists *)

Section flat.
Context {K1 K2 V W : Type} `{StdLessOrder K1, StdLessOrder K2}.
Variable f : W -> stdmap K2 V.

Definition flat (m : stdmap K1 W) : list (K1 * K2 * V) := m ≫= (fun e => map (fun x => (e.1, x.1, x.2)) (f e.2)).

Lemma elem_of_flat m k1 k2 v : map_ordered m -> Forall (fun e => map_ordered (f e.2)) m ->
  (k1, k2, v) ∈ flat m <-> exists w, map_find k1 m = Some w /\ map_find k2 (f w) = Some v.
Proof.
  intros Ho Hf. unfold flat. rewrite list_elem_of_bind. rewrite Forall_forall in Hf. split.
  - intros ([j w] & ([j2 v2] & E & Hin)%list_elem_of_fmap & Hm). cbn [fst snd] in *. rewrite !pair_eq in E.
    destruct E as [[-> ->] ->]. exists w. split; [by apply map_find_In|]. apply map_find_In; [by apply (Hf (j, w))|done].
  - intros (w & Hw & Hv). apply map_find_In in Hw; [|done]. exists (k1, w). split; [|done].
    apply map_find_In in Hv; [|by apply (Hf (k1, w))]. cbn [fst snd].
    exact (list_elem_of_fmap_2 (fun x : K2 * V => (k1, x.1, x.2)) _ _ Hv).
Qed.

Lemma NoDup_flat m : map_ordered m -> Forall (fun e => map_ordered (f e.2)) m -> NoDup (flat m).
Proof.
  induction m as [|[k w] m IH]; [constructor|]. intros Hko [Hw Hf]%Forall_cons. pose proof Hko as [Hk Ho].
  unfold flat. rewrite bind_cons. apply NoDup_app. cbn [fst snd]. split; [|split; [|by apply IH]].
  - apply (NoDup_map_via _ fst).
    + by apply map_keys_NoDup.
    + intros [k2 v] [k2' v'] _ _ E. rewrite !pair_eq in E. cbn in *. tauto.
  - intros p (x & -> & Hx)%list_elem_of_fmap ([j w'] & (y & E & _)%list_elem_of_fmap & Hm)%list_elem_of_bind.
    cbn [fst snd] in E. rewrite !pair_eq in E. destruct E as [[-> _] _]. rewrite Forall_forall in Hk.
    specialize (Hk (j, w') Hm). cbn [fst] in Hk. by rewrite std_less_irrefl in Hk.
Qed.
End flat.

Lemma zsum_filter {A} (f : A -> Z) (P : A -> Prop) `{forall x, Decision (P x)} l :
  zsum f l = zsum f (filter P l) + zsum f (filter (fun x => ~ P x) l).
Proof.
  induction l as [|x l IH]; [done|]. rewrite !filter_cons. unfold zsum in *. cbn [foldr]. rewrite IH.
  destruct (decide (P x)), (decide (~ P x)); try tauto; cbn [foldr]; lia.
Qed.

Lemma zsum_if {A} (P : A -> Prop) `{forall x, Decision (P x)} (f : A -> Z) l :
  zsum (fun x => if decide (P x) then f x else 0) l = zsum f (filter P l).
Proof.
  induction l as [|x l IH]; [done|]. rewrite filter_cons. unfold zsum in *. cbn [foldr]. rewrite IH. by case_decide.
Qed.

Lemma NoDup_filter_map {A B} (f : A -> B) (P : A -> Prop) `{forall x, Decision (P x)} l :
  NoDup (map f l) -> NoDup (map f (filter P l)).
Proof.
  induction l as [|x l IH]; [done|]. cbn [map]. intros [Hx Hn]%NoDup_cons. rewrite filter_cons. case_decide; [|by apply IH].
  cbn [map]. constructor; [|by apply IH]. intros (y & E & [_ Hy]%list_elem_of_filter)%list_elem_of_fmap.
  apply Hx. rewrite E. by apply list_elem_of_fmap_2.
Qed.

(** Sums over lists that hold the same under two readings. *)
Lemma zsum_match {A B C} (key : A -> C) (key' : B -> C) (f : A -> Z) (f' : B -> Z) l l' :
  NoDup (map key l) -> NoDup (map key' l') ->
  (forall x, x ∈ l -> exists y, y ∈ l' /\ key x = key' y /\ f x = f' y) ->
  (forall y, y ∈ l' -> exists x, x ∈ l /\ key x = key' y) ->
  zsum f l = zsum f' l'.
Proof.
  intros Hn Hn' H1 H2. assert (map (fun x => (key x, f x)) l ≡ₚ map (fun y => (key' y, f' y)) l') as P.
  { apply NoDup_Permutation.
    - apply (NoDup_map_via _ key); [done|]. intros x y _ _ E. rewrite pair_eq in E. tauto.
    - apply (NoDup_map_via _ key'); [done|]. intros x y _ _ E. rewrite pair_eq in E. tauto.
    - intros [c z]. rewrite !list_elem_of_fmap. split; intros (x & E & Hx); rewrite pair_eq in E; destruct E as [-> ->].
      + destruct (H1 x Hx) as (y & Hy & E1 & E2). exists y. split; [by rewrite E1, E2|done].
      + destruct (H2 x Hx) as (y & Hy & E1). destruct (H1 y Hy) as (x' & Hx' & E2 & E3).
        assert (x' = x) as -> by (apply (NoDup_map_eq key' l'); [done..|congruence]).
        exists y. split; [by rewrite E1, E3|done]. }
  rewrite <- (zsum_map (fun x => (key x, f x)) snd), <- (zsum_map (fun y => (key' y, f' y)) snd). by rewrite (zsum_perm _ _ _ P).
Qed.

(** ** Balances *)

Definition triples (u : utxo_map) : list (list byte * Z * StoredTxOut) := flat id u.

Lemma triples_outputs u : map snd (triples u) = all_outputs u.
Proof.
  unfold triples, flat, all_outputs. induction u as [|[h outs] u IH]; [done|].
  rewrite !bind_cons, map_app, IH, map_map. done.
Qed.

Section balance.
Context `{HashFns}.
Variable cfg : Config.

Definition pays_to (a : list byte) (s : StoredTxOut) : bool :=
  match stxo_addr cfg s with Ok b => bool_decide (b = a) | Err _ => false end.

(** The value of the unspent outputs of an address. *)
Definition balance (a : list byte) (u : utxo_map) : Z :=
  zsum stxo_getValue (filter (fun s => pays_to a s = true) (all_outputs u)).

Definition paid (a : list byte) (s : StoredTxOut) : Z := if decide (pays_to a s = true) then stxo_getValue s else 0.

Lemma paid_addr a b s : stxo_addr cfg s = Ok b -> paid a s = if decide (b = a) then stxo_getValue s else 0.
Proof. intros Hs. unfold paid, pays_to. rewrite Hs. destruct (decide (b = a)); [by rewrite bool_decide_true|by rewrite bool_decide_false]. Qed.

Lemma balance_triples a u : balance a u = zsum (fun t => paid a t.2) (triples u).
Proof. unfold balance, paid. by rewrite <- zsum_if, <- triples_outputs, zsum_map. Qed.

Variable bc : Blockchain.
Variable view : Z -> BlockView.
Variables (batch : ParserBatch) (u : utxo_map) (hs : list Z).
Hypothesis Hu : utxo_ok cfg u.
Hypothesis Hb : batch_ok cfg bc view batch u hs.

Section with_merged.
Variable U : utxo_map.
Hypothesis HU : merged view u hs U.
Variable sps : list Spend.
Hypothesis Hsps : spends_of cfg U (ins_of view hs) = Ok sps.

Lemma elem_of_triples m h i s : utxo_wf m -> (h, i, s) ∈ triples m <-> utxo_find h i m = Some s.
Proof.
  intros [Ho Hf]. unfold triples, utxo_find. rewrite elem_of_flat by done. split.
  - intros (w & -> & Hs). exact Hs.
  - destruct (map_find h m) as [w|]; [|done]. intros Hs. by exists w.
Qed.
Lemma NoDup_triples m : utxo_wf m -> NoDup (triples m).
Proof. intros [Ho Hf]. by apply NoDup_flat. Qed.

Lemma NoDup_triples_points m : utxo_wf m -> NoDup (map fst (triples m)).
Proof.
  intros Hm. apply (NoDup_map_via _ id); [rewrite map_id; by apply NoDup_triples|].
  intros [[h i] s] [[h' i'] s'] Hx%elem_of_triples Hy%elem_of_triples E; [|done..]. cbn [fst] in E.
  injection E as -> ->. unfold id. by rewrite Hx in Hy; injection Hy as ->.
Qed.

Lemma merged_triples : triples U ≡ₚ triples u ++ map oe_utxo (outs_of view hs).
Proof.
  apply NoDup_Permutation.
  - apply NoDup_triples, HU.
  - apply NoDup_app. split; [apply NoDup_triples, Hu|]. split.
    + intros [[h i] s] Hs%elem_of_triples (ev & Hin & <- & <- & _)%elem_of_oe_utxo; [|apply Hu].
      by rewrite (out_is_new cfg bc view batch u hs Hb ev Hin) in Hs.
    + apply (NoDup_map_via _ oe_point); [apply (od_points _ (batch_outs_distinct _ _ _ _ _ _ Hb))|].
      intros x y _ _ E. unfold oe_utxo in E. rewrite pair_eq in E. apply E.
  - intros [[h i] s]. rewrite elem_of_app, !elem_of_triples by (apply HU || apply Hu). apply (mg_find _ _ _ _ HU).
Qed.

(** A spend and the output it takes. *)
Lemma spend_value sp : sp ∈ sps -> exists s, utxo_find (ie_hash (sp_ev sp)) (ie_idx (sp_ev sp)) U = Some s /\
  stxo_addr cfg s = Ok (sp_addr sp) /\ stxo_getValue (sp_stxo sp) = stxo_getValue s /\
  sp_key sp = stxo_getDBKey false s /\ stxo_placed s /\ stxo_point s = ie_point (sp_ev sp) /\
  stxo_point (sp_stxo sp) = ie_point (sp_ev sp) /\ sp_ev sp ∈ ins_of view hs.
Proof.
  intros Hsp. destruct (spends_of_ok cfg U (ins_of view hs) (merged_addr cfg bc view batch u hs Hu Hb U HU)) as (sps' & E & Hok & _).
  rewrite Hsps in E. injection E as <-. destruct (so_in _ _ _ _ Hok sp Hsp) as (Hin & s & Hs & Ha & Hg).
  destruct (getScrAddress_spent cfg (sp_ev sp) s _ Ha) as (s' & Hg' & Hp & Hk & Hv & _). rewrite Hg' in Hg. injection Hg as ->.
  destruct (merged_ok cfg bc view batch u hs Hu Hb U HU _ _ _ Hs) as (Hp' & Hpl & _).
  exists s. unfold sp_key. rewrite Hp, Hk, Hv. done.
Qed.

Lemma spends_points : NoDup (map (fun sp => ie_point (sp_ev sp)) sps).
Proof.
  apply (NoDup_map_via _ sp_key); [by apply (spends_keys cfg bc view batch u hs Hu Hb U HU)|]. intros x y Hx Hy E.
  destruct (spend_value x Hx) as (s & Hs & _ & _ & -> & _), (spend_value y Hy) as (s' & Hs' & _ & _ & -> & _).
  cbn beta in E. unfold ie_point in E. injection E as E1 E2. rewrite E1, E2, Hs' in Hs. by injection Hs as ->.
Qed.

(** The purge takes the spent outputs off the balance. *)
Lemma purge_balance a spent : spent ≡ₚ map sp_stxo sps ->
  balance a U = balance a (foldl purge_one U spent) + zsum (fun sp => if decide (sp_addr sp = a) then stxo_getValue (sp_stxo sp) else 0) sps.
Proof.
  intros P. destruct (purge_find U spent (mg_wf _ _ _ _ HU)) as [Hw Hf]. rewrite !balance_triples.
  set (Q := fun t : list byte * Z * StoredTxOut => t.1 ∈ map stxo_point spent).
  assert (forall t, t ∈ triples U -> exists h i s, t = (h, i, s) /\ utxo_find h i U = Some s) as Ht.
  { intros [[h i] s] Hs%elem_of_triples; [|apply HU]. by exists h, i, s. }
  rewrite (zsum_filter _ Q), Z.add_comm. f_equal.
  - apply zsum_perm, NoDup_Permutation; [apply NoDup_filter, NoDup_triples, HU|by apply NoDup_triples|].
    intros [[h i] s]. rewrite list_elem_of_filter, !elem_of_triples by (done || apply HU). unfold Q. cbn [fst]. rewrite Hf.
    case_decide; split; [by intros [] | done | by intros [] | done].
  - apply (zsum_match fst (fun sp => ie_point (sp_ev sp))).
    + apply NoDup_filter_map, NoDup_triples_points, HU.
    + exact spends_points.
    + intros t [Hq Hin]%list_elem_of_filter. destruct (Ht t Hin) as (h & i & s & -> & Hs). unfold Q in Hq. cbn [fst snd] in *.
      rewrite P, map_map in Hq. apply list_elem_of_fmap in Hq as (sp & E & Hsp). exists sp. split; [done|].
      destruct (spend_value sp Hsp) as (s' & Hs' & Ha & Hv & _ & _ & _ & Hp & _). rewrite Hp in E. split; [done|].
      unfold ie_point in E. injection E as E1 E2. rewrite <- E1, <- E2, Hs in Hs'. injection Hs' as <-.
      rewrite Hv. by apply paid_addr.
    + intros sp Hsp. destruct (spend_value sp Hsp) as (s & Hs & _ & _ & _ & _ & Hp & Hp' & _).
      exists (ie_hash (sp_ev sp), ie_idx (sp_ev sp), s). split; [|done]. apply list_elem_of_filter.
      split; [|by apply elem_of_triples; [apply HU|]]. unfold Q. cbn [fst]. rewrite P, map_map. apply list_elem_of_fmap.
      exists sp. by rewrite Hp'.
Qed.

Lemma balance_moves a spent : spent ≡ₚ map sp_stxo sps ->
  balance a (foldl purge_one U spent) = balance a u + zsum (fun ev => paid a (oe_stxo ev)) (outs_of view hs) -
    zsum (fun sp => if decide (sp_addr sp = a) then stxo_getValue (sp_stxo sp) else 0) sps.
Proof.
  intros P. pose proof (purge_balance a spent P) as E. rewrite balance_triples, (zsum_perm _ _ _ merged_triples), zsum_app in E.
  rewrite zsum_map, <- balance_triples in E. cbn [snd oe_utxo] in E. lia.
Qed.
End with_merged.
End balance.
