(* ===== verification/ScannerTally.v ===== *)
(** * ScannerTally: from the tables to the totals

    The sub histories of a batch are written, read back and added to the totals
    of their address, which move by what the unspent outputs of the address
    change. *)

From S2P Require Import Prelude BinaryData BinaryIO Hashing StdMap MapSums DBUtils BlockHeader HeadersDB.
From S2P Require Import ScriptUtils TxLength Blockchain BlockData StoredTxOut ScriptHistory ScriptHistoryProps.
From S2P Require Import Scanner ScannerSpec ScannerProps ScannerThreads ScannerLedger ScannerCorrect ScannerBatch ScannerBalance.

(** ** Keys of eight bytes *)

Lemma key8_split k : zlen k = 8 -> ref_ok (take 6 k) (be_val (drop 6 k)) /\ take 6 k ++ be_bytes 2 (be_val (drop 6 k)) = k.
Proof.
  intros Hk. assert (length (drop 6 k) = 2%nat) as Hd by (unfold zlen in Hk; rewrite length_drop; lia). split.
  - split; [unfold zlen in *; rewrite length_take; lia|]. pose proof (be_val_range (drop 6 k)) as Hr. rewrite Hd in Hr. exact Hr.
  - pose proof (be_bytes_be_val (drop 6 k)) as E. rewrite Hd in E. by rewrite E, take_drop.
Qed.

Lemma setTxOut_key8 k t : zlen k = 8 -> setTxOut k t = setTxOut_ref (take 6 k) (be_val (drop 6 k)) t.
Proof. intros Hk. unfold setTxOut. by rewrite Hk. Qed.
Lemma setTxIn_key8 k t : zlen k = 8 -> setTxIn k t = setTxIn_ref (take 6 k) (be_val (drop 6 k)) t.
Proof. intros Hk. unfold setTxIn. by rewrite Hk. Qed.

Lemma child_key8 k : zlen k = 8 -> TxRef_getDBKeyOfChild (take 6 k) (wrap 16 (be_val (drop 6 k))) = k.
Proof. intros Hk. destruct (key8_split k Hk) as [Hr E]. rewrite (proj1 (child_key _ _ Hr)). exact E. Qed.

Lemma txout_key8 h d i o : zlen (getBlkDataKeyNoPrefix_txout h d i o) = 8 /\
  take 4 (getBlkDataKeyNoPrefix_txout h d i o) = heightAndDupToHgtx h d /\
  take 6 (getBlkDataKeyNoPrefix_txout h d i o) = heightAndDupToHgtx h d ++ int_to BE 2 i.
Proof.
  pose proof (zlen_hgtx h d) as Hl. split; [exact (zlen_enc_key_noprefix (KeyTxOut h d i o))|].
  rewrite txout_key_hgtx. split; [apply take_app_length'; unfold zlen in Hl; lia|].
  rewrite app_assoc. apply take_app_length'. unfold zlen in Hl. rewrite length_app.
  assert (length (int_to BE 2 i) = 2%nat) as ->; [apply length_be_bytes|]. lia.
Qed.

Lemma startsWith_loop_eq m l r : length m = length l -> startsWith_loop m (l ++ r) = bool_decide (l = m).
Proof.
  revert l. induction m as [|x m IH]; intros [|y l] Hl; simpl in *; try done.
  case_decide as E; [subst y; rewrite IH by lia; apply bool_decide_ext; naive_solver|].
  symmetry. apply bool_decide_false. congruence.
Qed.

Lemma startsWith_eq m l r : zlen m = zlen l -> startsWith (l ++ r) m = bool_decide (l = m).
Proof.
  intros Hl. unfold startsWith. pose proof (zlen_nonneg r). rewrite zlen_app, (proj2 (Z.ltb_ge _ _)) by lia.
  apply startsWith_loop_eq. unfold zlen in Hl. lia.
Qed.

Lemma stxo_value_uint s : is_uint 64 (stxo_getValue s).
Proof.
  unfold stxo_getValue. destruct (8 <=? zlen (stxo_dataCopy s)); [|unfold UINT64_MAX, is_uint; lia].
  pose proof (le_val_range (take 8 (stxo_dataCopy s))) as Hr. unfold is_uint. split; [lia|].
  assert (256 ^ Z.of_nat (length (take 8 (stxo_dataCopy s))) <= 256 ^ 8); [|change (2 ^ 64) with (256 ^ 8); lia].
  apply Z.pow_le_mono_r; [lia|]. rewrite length_take. lia.
Qed.

(** ** What an entry adds to the totals *)

Definition tally_delta (t : TxIOPair) : Z :=
  if isMultisig_ t then 0
  else if hasTxIn t then
    if startsWith (getDBKeyOfOutput t) (take 4 (getDBKeyOfInput t)) then 0 else - amount_ t
  else amount_ t.

Lemma tally_sum l total : is_uint 64 total -> foldl tally_txio total l = wrap 64 (total + zsum tally_delta l).
Proof.
  revert total. induction l as [|t l IH]; intros total Ht; cbn [foldl].
  - unfold zsum. cbn [foldr]. rewrite Z.add_0_r. symmetry. by apply wrap_small.
  - change (zsum tally_delta (t :: l)) with (tally_delta t + zsum tally_delta l).
    assert (tally_txio total t = wrap 64 (total + tally_delta t)) as ->.
    { unfold tally_txio, tally_delta. destruct (isMultisig_ t); cbn [negb]; [by rewrite Z.add_0_r, wrap_small|].
      destruct (hasTxIn t); [|done]. destruct (startsWith _ _); [by rewrite Z.add_0_r, wrap_small|]. f_equal. }
    rewrite IH by (by apply wrap_range). rewrite wrap_plus. f_equal. lia.
Qed.

(** An entry is read back with the same effect if its spend is on the main branch. *)
Lemma stored_delta vd t : spent_in_main vd t = hasTxIn t -> tally_delta (txio_stored vd t) = tally_delta t /\
  getDBKeyOfOutput (txio_stored vd t) = getDBKeyOfOutput t.
Proof.
  intros E. unfold tally_delta, txio_stored, hasTxIn at 1, getDBKeyOfOutput, getDBKeyOfInput.
  cbn [isMultisig_ txRefOfInput_ amount_ txRefOfOutput_ indexOfOutput_ indexOfInput_]. rewrite E.
  destruct (hasTxIn t) eqn:Eh; [|done]. unfold hasTxIn in Eh. by rewrite Eh.
Qed.

(** ** The entries of a batch *)

Lemma oe_key8 ev : zlen (oe_key ev) = 8 /\ take 4 (oe_key ev) = oe_hgtx ev.
Proof. destruct (txout_key8 (blockHeight_ (oe_header ev)) (duplicateID_ (oe_header ev)) (oe_i ev) (oe_y ev)) as (? & ? & _). done. Qed.
Lemma ie_key8 ev : zlen (ie_key ev) = 8 /\ take 4 (ie_key ev) = ie_hgtx ev.
Proof. destruct (txout_key8 (blockHeight_ (ie_header ev)) (duplicateID_ (ie_header ev)) (ie_i ev) (ie_y ev)) as (? & ? & _). done. Qed.

Lemma take_take4 (k : list byte) : take 4 (take 6 k) = take 4 k.
Proof. by rewrite take_take. Qed.

Lemma oe_txio_eq ev : oe_txio ev = setFromCoinbase (stxo_isCoinbase (oe_stxo ev))
  (setTxOut_ref (take 6 (oe_key ev)) (be_val (drop 6 (oe_key ev))) (setValue (stxo_getValue (oe_stxo ev)) TxIOPair_new)).
Proof. unfold oe_txio. by rewrite setTxOut_key8 by apply oe_key8. Qed.

Lemma oe_txio_facts vd ev : hasTxIn (oe_txio ev) = false /\ getDBKeyOfOutput (oe_txio ev) = oe_key ev /\
  tally_delta (oe_txio ev) = stxo_getValue (oe_stxo ev) /\ txio_ok vd (oe_hgtx ev) (oe_txio ev).
Proof.
  rewrite oe_txio_eq. destruct (oe_key8 ev) as [Hk Ht]. destruct (key8_split _ Hk) as [Hr _].
  split; [done|]. split; [by apply child_key8|]. split; [done|]. constructor; cbn.
  - apply stxo_value_uint.
  - exact Hr.
  - done.
  - change (take 4 (take 6 (oe_key ev)) = oe_hgtx ev). by rewrite take_take4.
Qed.

(** Spends of outputs that stand at a place, in blocks of the main branch. *)
Definition same_block (sp : Spend) : bool := bool_decide (take 4 (sp_key sp) = ie_hgtx (sp_ev sp)).

Lemma sp_txio_eq sp : zlen (sp_key sp) = 8 -> sp_txio sp = setValue (stxo_getValue (sp_stxo sp))
  (setTxIn_ref (take 6 (ie_key (sp_ev sp))) (be_val (drop 6 (ie_key (sp_ev sp))))
    (setTxOut_ref (take 6 (sp_key sp)) (be_val (drop 6 (sp_key sp))) TxIOPair_new)).
Proof. intros Hk. unfold sp_txio. by rewrite setTxOut_key8, setTxIn_key8 by (done || apply ie_key8). Qed.

Lemma spent_main vd ev : hgtx_ok (blockHeight_ (ie_header ev)) (duplicateID_ (ie_header ev)) ->
  blockHeight_ (ie_header ev) < 0xffff00 ->
  map_find (blockHeight_ (ie_header ev)) vd = Some (duplicateID_ (ie_header ev)) ->
  forall t, txRefOfInput_ t = take 6 (ie_key ev) -> spent_in_main vd t = true /\ hasTxIn t = true.
Proof.
  intros Hok Hz Hvd t Et. pose proof (txout_key8 (blockHeight_ (ie_header ev)) (duplicateID_ (ie_header ev)) (ie_i ev) (ie_y ev)) as (_ & _ & E6).
  fold (ie_key ev) in E6. rewrite <- Et in E6. set (i := wrap 16 (ie_i ev)).
  assert (int_to BE 2 (ie_i ev) = int_to BE 2 i) as Ei.
  { apply be_val_inj; [by rewrite !length_be_bytes|]. rewrite !be_val_be_bytes. unfold i, wrap. by rewrite Z.mod_mod. }
  rewrite Ei in E6. assert (key_ok (KeyTx (blockHeight_ (ie_header ev)) (duplicateID_ (ie_header ev)) i)) as Hk by (split; [done|by apply wrap_range]).
  destruct (TxRef_fields _ _ _ Hk Hz) as (F1 & F2 & F3 & _).
  pose proof (enc_key_noprefix_eq (KeyTx (blockHeight_ (ie_header ev)) (duplicateID_ (ie_header ev)) i)) as Ek. cbn [enc_key_noprefix] in Ek.
  rewrite Ek, <- E6 in F1, F2, F3.
  assert (hasTxIn t = true) as Hi by (unfold hasTxIn; by rewrite F1). split; [|done].
  unfold spent_in_main, hasTxInInMain, hasTxInZC. rewrite Hi. rewrite E6 at 1. 
  rewrite (hgtx_not_zc _ _ _ Hok Hz). cbn [negb]. unfold isMainBranch. rewrite F1, F2, F3. cbn [Z.eqb Pos.eqb negb mbind result_bind].
  unfold valid_dup_at. rewrite Hvd. cbn [default id]. apply Z.eqb_refl.
Qed.

Lemma sp_txio_facts vd sp : zlen (sp_key sp) = 8 ->
  hgtx_ok (blockHeight_ (ie_header (sp_ev sp))) (duplicateID_ (ie_header (sp_ev sp))) ->
  blockHeight_ (ie_header (sp_ev sp)) < 0xffff00 ->
  map_find (blockHeight_ (ie_header (sp_ev sp))) vd = Some (duplicateID_ (ie_header (sp_ev sp))) ->
  hasTxIn (sp_txio sp) = true /\ spent_in_main vd (sp_txio sp) = true /\ getDBKeyOfOutput (sp_txio sp) = sp_key sp /\
  tally_delta (sp_txio sp) = (if same_block sp then 0 else - stxo_getValue (sp_stxo sp)) /\
  txio_ok vd (ie_hgtx (sp_ev sp)) (sp_txio sp).
Proof.
  intros Hk Hok Hz Hvd. destruct (ie_key8 (sp_ev sp)) as [Hki Hti].
  destruct (spent_main vd (sp_ev sp) Hok Hz Hvd (sp_txio sp)) as [Hs Hi]; [by rewrite sp_txio_eq|].
  assert (getDBKeyOfOutput (sp_txio sp) = sp_key sp) as Eo by (rewrite sp_txio_eq by done; by apply child_key8).
  assert (getDBKeyOfInput (sp_txio sp) = ie_key (sp_ev sp)) as Ein by (rewrite sp_txio_eq by done; by apply child_key8).
  split; [done|]. split; [done|]. split; [done|]. split.
  - unfold tally_delta. rewrite Hi, Eo, Ein, Hti. assert (isMultisig_ (sp_txio sp) = false) as -> by (by rewrite sp_txio_eq).
    assert (amount_ (sp_txio sp) = stxo_getValue (sp_stxo sp)) as -> by (by rewrite sp_txio_eq).
    rewrite <- (take_drop 4 (sp_key sp)) at 1. rewrite startsWith_eq; [done|]. rewrite <- Hti. unfold zlen in *. rewrite !length_take. lia.
  - rewrite sp_txio_eq in Hs |- * by done. constructor; [apply stxo_value_uint|apply (key8_split _ Hk)|intros _; apply (key8_split _ Hki)|].
    rewrite Hs. change (take 4 (take 6 (ie_key (sp_ev sp))) = ie_hgtx (sp_ev sp)). by rewrite take_take4.
Qed.

(** ** Keys and records of the table *)

Lemma subssh_key_eq a h : subssh_key a h = z2b (prefix_val DB_PREFIX_SCRIPT) :: a ++ h.
Proof. unfold subssh_key. autorewrite with bw. by rewrite <- app_assoc. Qed.

Lemma subssh_key_addr a h : zlen a < 2 ^ 31 -> zlen h = 4 -> subssh_addr (subssh_key a h) = a.
Proof.
  intros Ha Hh. rewrite subssh_key_eq. unfold subssh_addr. pose proof (zlen_nonneg a).
  pose proof (getSliceCopy_app [z2b (prefix_val DB_PREFIX_SCRIPT)] a h) as E. cbn [app] in E.
  replace (zlen (z2b (prefix_val DB_PREFIX_SCRIPT) :: a ++ h) - 5) with (zlen a) by (rewrite zlen_cons, zlen_app, Hh; lia).
  change (zlen [z2b (prefix_val DB_PREFIX_SCRIPT)]) with 1 in E. apply E. rewrite zlen_cons, zlen_app, Hh. unfold two64. lia.
Qed.

Lemma subssh_key_inj a h a' h' : zlen a < 2 ^ 31 -> zlen a' < 2 ^ 31 -> zlen h = 4 -> zlen h' = 4 ->
  subssh_key a h = subssh_key a' h' -> a = a' /\ h = h'.
Proof.
  intros Ha Ha' Hh Hh' E. assert (a = a') as <- by (by rewrite <- (subssh_key_addr a h), E, subssh_key_addr).
  split; [done|]. rewrite !subssh_key_eq in E. injection E as E. by apply app_inv_head in E.
Qed.

Lemma checkPrefixByte_parses p : parses (checkPrefixByte p false) [z2b (prefix_val p)] true.
Proof.
  intros pre post Hl. unfold checkPrefixByte, mbind, reader_bind. cbn [app] in *. rewrite brr_get_uint8_t_parses' by done.
  unfold rewind_if, mret, reader_ret. do 2 f_equal. destruct p; reflexivity.
Qed.

(** The key of a block of the chain. *)
Lemma subssh_key_read a height dup s : zlen a < 2 ^ 31 -> hgtx_ok height dup ->
  sub_unserializeDBKey (subssh_key a (heightAndDupToHgtx height dup)) true s =
    Ok (mkSub a (heightAndDupToHgtx height dup) (txioMap_ s) height dup (txioCount_ s)).
Proof.
  intros Ha [Hh Hd]. pose proof (zlen_hgtx height dup) as Hl. pose proof (zlen_nonneg a).
  set (hgtx := heightAndDupToHgtx height dup) in *. unfold sub_unserializeDBKey.
  assert (parses (_ ← checkPrefixByte DB_PREFIX_SCRIPT false;
             uniqueKey ← brr_get_BinaryData (wrap 32 (zlen (subssh_key a hgtx) - 1 - 4));
             hgtX ← brr_get_BinaryData 4; hgt ← reader_of (raw_read hgtX 0 3); dup ← reader_of (raw_read hgtX 3 1);
             mret (mkSub uniqueKey hgtX (txioMap_ s) (be_val hgt) (be_val dup) (txioCount_ s))) ([z2b (prefix_val DB_PREFIX_SCRIPT)] ++ a ++ hgtx)
             (mkSub a hgtx (txioMap_ s) height dup (txioCount_ s))) as Hp.
  { eapply parses_bind; [apply checkPrefixByte_parses|].
    replace (wrap 32 (zlen (subssh_key a hgtx) - 1 - 4)) with (zlen a)
      by (rewrite subssh_key_eq, zlen_cons, zlen_app, Hl; symmetry; replace (1 + (zlen a + 4) - 1 - 4) with (zlen a) by lia;
          apply wrap_small; unfold is_uint; lia).
    eapply parses_bind; [by apply brr_get_BinaryData_parses|]. eapply parses_bind_ret; [by apply brr_get_BinaryData_parses|].
    pose proof (hgtx_be_val height dup ltac:(lia)) as E. fold hgtx in E. rewrite Z.mod_small in E by lia.
    clearbody hgtx. destruct hgtx as [|b0 [|b1 [|b2 [|b3 [|b4 l]]]]]; try discriminate Hl.
    2:{ rewrite !zlen_cons in Hl. pose proof (zlen_nonneg l). lia. }
    pose proof (raw_read_app [] [b0; b1; b2] [b3]) as R1. pose proof (raw_read_app [b0; b1; b2] [b3] []) as R2.
    cbn [app] in R1, R2. change (zlen [b0; b1; b2]) with 3 in *. change (zlen [b3]) with 1 in R2. change (zlen []) with 0 in R1.
    rewrite R1, R2. pose proof (b2z_range b3). pose proof (b2z_range b2). pose proof (b2z_range b1).
    assert (be_val [b0; b1; b2] = height /\ be_val [b3] = dup) as [<- <-] by (unfold be_val in *; simpl in *; lia).
    intros pre post _. by rewrite app_nil_r. }
  rewrite brr_setNewData_at. specialize (Hp [] []). rewrite app_nil_r in Hp. cbn [app] in Hp.
  rewrite <- subssh_key_eq in Hp. rewrite Hp; [done|]. rewrite subssh_key_eq, zlen_cons, zlen_app, Hl. unfold two64. lia.
Qed.

Lemma sub_bytes_size vd s : sub_ok vd s -> zlen (sub_bytes vd s) < two64.
Proof.
  intros [_ _ Hz He]. unfold sub_bytes. rewrite zlen_app.
  assert (zlen (var_int_bytes (zlen (txioMap_ s))) <= 9) as Hv by (unfold var_int_bytes; repeat case_match; autorewrite with zlen; lia).
  assert (zlen (concat (map (fun e => txio_bytes vd e.2) (txioMap_ s))) <= 21 * zlen (txioMap_ s)); [|unfold two64; lia].
  clear Hz Hv. induction He as [|[k t] m [_ Ht] _ IH]; [done|]. cbn [map concat]. rewrite zlen_app, zlen_cons. cbn [snd] in *.
  assert (zlen (txio_bytes vd t) <= 21); [|lia]. unfold txio_bytes. rewrite !zlen_app, zlen_bit_bytes by auto.
  destruct Ht as [_ Ho Hi _]. change (zlen (int_to LE 8 (amount_ t))) with 8.
  destruct (spent_in_main vd t); rewrite ?zlen_app, ?(proj2 (key_last4 _ _ Ho)), ?(proj2 (key_last4 _ _ (Hi eq_refl))), ?zlen_be_bytes, ?(proj1 Ho); cbn; lia.
Qed.

(** A sub history that is written, and what is read back. *)
Lemma subssh_roundtrip_bytes vd s0 s : sub_ok vd s -> sub_hgtX s0 = sub_hgtX s -> txioMap_ s0 = [] ->
  exists bw r, sub_serializeDBValue vd s bw_new = Ok bw /\ theString_ bw = sub_bytes vd s /\
    sub_unserializeDBValue s0 (brr_setNewData (theString_ bw)) =
      Ok (set_txioMap (stored_map vd (txioMap_ s)) (set_txioCount (zlen (txioMap_ s)) s0), r).
Proof.
  intros Hs Hk H0. destruct (sub_serialize_bytes vd s bw_new Hs) as (bw & E & Eb). rewrite bw_new_str, app_nil_l in Eb.
  exists bw. eexists. split; [done|]. split; [done|]. rewrite Eb, brr_setNewData_at.
  pose proof (sub_read_parses vd s0 s Hs Hk H0 [] []) as Hp. rewrite app_nil_r in Hp. cbn [app] in Hp.
  apply Hp. by apply sub_bytes_size.
Qed.

(** ** The sum of the entries of an address *)

Section batch.
Context `{HashFns}.
Variable cfg : Config.
Variable bc : Blockchain.
Variable view : Z -> BlockView.
Variables (batch : ParserBatch) (u : utxo_map) (hs : list Z).
Hypothesis Hu : utxo_ok cfg u.
Hypothesis Hb : batch_ok cfg bc view batch u hs.

Variables (U : utxo_map) (sps : list Spend) (sshs : ssh_map) (spent : list StoredTxOut).
Hypothesis HU : merged view u hs U.
Hypothesis Hsps : spends_of cfg U (ins_of view hs) = Ok sps.
Hypothesis Hst : batch_state (outs_of view hs) sps sshs spent.

Definition subs_of (a : list byte) : stdmap (list byte) StoredSubHistory := default [] (map_find a sshs).

Definition sp_item (sp : Spend) : list byte * list byte * TxIOPair := (ie_hgtx (sp_ev sp), sp_key sp, sp_txio sp).
Definition oe_item (ev : OutEv) : list byte * list byte * TxIOPair := (oe_hgtx ev, oe_key ev, oe_txio ev).
Definition oe_place (ev : OutEv) : list byte * list byte * list byte := (oe_addr ev, oe_hgtx ev, oe_key ev).

(** The spends of an address, and its outputs that are still there. *)
Definition spends_at (a : list byte) : list Spend := filter (fun sp => sp_addr sp = a) sps.
Definition outs_at (a : list byte) : list OutEv := filter (fun ev => oe_addr ev = a) (outs_of view hs).
Definition kept_at (a : list byte) : list OutEv := filter (fun ev => ~ (oe_place ev ∈ map sp_place sps)) (outs_at a).
Definition gone_at (a : list byte) : list OutEv := filter (fun ev => oe_place ev ∈ map sp_place sps) (outs_at a).

Lemma outs_at_in a ev : ev ∈ outs_at a <-> oe_addr ev = a /\ ev ∈ outs_of view hs.
Proof. unfold outs_at. by rewrite list_elem_of_filter. Qed.
Lemma spends_at_in a sp : sp ∈ spends_at a <-> sp_addr sp = a /\ sp ∈ sps.
Proof. unfold spends_at. by rewrite list_elem_of_filter. Qed.

Lemma spends_key_NoDup : NoDup (map sp_key sps).
Proof. exact (spends_keys cfg bc view batch u hs Hu Hb U HU sps Hsps). Qed.
Lemma outs_key_NoDup : NoDup (map oe_key (outs_of view hs)).
Proof. apply (od_keys _ (batch_outs_distinct _ _ _ _ _ _ Hb)). Qed.

Lemma subs_of_wf a : subs_wf (subs_of a).
Proof. apply ssh_wf_subs, (bt_wf _ _ _ _ Hst). Qed.

Lemma subs_of_find a h k t : (h, k, t) ∈ flat txioMap_ (subs_of a) <-> ssh_find a h k sshs = Some t.
Proof.
  destruct (subs_of_wf a) as [Ho Hf]. rewrite elem_of_flat; [|done|eapply Forall_impl; [exact Hf|by intros e []]].
  unfold ssh_find, ssh_entry. fold (subs_of a). destruct (map_find h (subs_of a)) as [e|]; cbn [default id].
  - split; [by intros (w & [= <-] & E)|]. intros E. by exists e.
  - split; [by intros (w & [=] & _)|done].
Qed.

Lemma subs_items a : flat txioMap_ (subs_of a) ≡ₚ map sp_item (spends_at a) ++ map oe_item (kept_at a).
Proof.
  destruct (subs_of_wf a) as [Ho Hf]. pose proof (NoDup_filter_map sp_key (fun sp => sp_addr sp = a) _ spends_key_NoDup) as H1.
  pose proof (NoDup_filter_map oe_key (fun ev => oe_addr ev = a) _ outs_key_NoDup) as H2.
  apply NoDup_Permutation.
  - apply NoDup_flat; [done|]. eapply Forall_impl; [exact Hf|by intros e []].
  - apply NoDup_app. split; [|split].
    + apply (NoDup_map_via _ sp_key); [done|]. intros x y _ _ E. unfold sp_item in E. rewrite !pair_eq in E. tauto.
    + intros it (sp & -> & Hsp%spends_at_in)%list_elem_of_fmap (ev & E & [Hk Hev%outs_at_in]%list_elem_of_filter)%list_elem_of_fmap.
      apply Hk. unfold sp_item, oe_item in E. rewrite !pair_eq in E. destruct E as [[E1 E2] _].
      assert (oe_place ev = sp_place sp) as ->; [|apply list_elem_of_fmap_2; tauto].
      unfold oe_place, sp_place. rewrite E1, E2. f_equal. f_equal. destruct Hsp, Hev. congruence.
    + apply (NoDup_map_via _ oe_key); [by apply (NoDup_filter_map oe_key)|]. intros x y _ _ E. unfold oe_item in E. rewrite !pair_eq in E. tauto.
  - intros [[h k] t]. rewrite subs_of_find, (bt_find _ _ _ _ Hst), elem_of_app. split.
    + intros [(sp & Hsp & Ep & <-)%elem_of_sp_entry|[Hn (ev & Hev & <- & <- & <- & <-)%elem_of_oe_entry]].
      * left. apply list_elem_of_fmap. exists sp. unfold sp_place in Ep. rewrite !pair_eq in Ep. destruct Ep as [[E1 <-] <-]. split; [done|]. by apply spends_at_in.
      * right. apply (list_elem_of_fmap_2 oe_item). apply list_elem_of_filter. split; [exact Hn|by apply outs_at_in].
    + intros [(sp & E & [Ea Hsp]%spends_at_in)%list_elem_of_fmap|(ev & E & [Hn [Ea Hev]%outs_at_in]%list_elem_of_filter)%list_elem_of_fmap].
      * left. apply elem_of_sp_entry. exists sp. split; [done|]. unfold sp_item in E. rewrite !pair_eq in E. destruct E as [[-> ->] ->].
        split; [|done]. unfold sp_place. by rewrite Ea.
      * right. unfold oe_item in E. rewrite !pair_eq in E. destruct E as [[-> ->] ->]. subst a. split; [exact Hn|].
        apply elem_of_oe_entry. by exists ev.
Qed.

(** ** Outputs that are spent in their own block *)

Lemma ins_header ev : ev ∈ ins_of view hs -> exists h, h ∈ hs /\ ie_header ev = vw_header (view h) /\
  blockHeight_ (ie_header ev) = h /\ hgtx_ok (blockHeight_ (ie_header ev)) (duplicateID_ (ie_header ev)).
Proof.
  unfold ins_of. intros (h & Hin & Hh)%list_elem_of_bind. exists h. split; [done|].
  pose proof (bk_views _ _ _ _ _ _ Hb) as Hv. rewrite Forall_forall in Hv. specialize (Hv h Hh).
  destruct (read_txs_events _ _ _ _ _ _ (vo_read _ _ _ _ _ Hv)) as [_ Hi]. rewrite Forall_forall in Hi. rewrite (Hi ev Hin).
  destruct (vo_height _ _ _ _ _ Hv) as [-> Hok]. done.
Qed.

Lemma spend_key8 sp : sp ∈ sps -> zlen (sp_key sp) = 8 /\ exists s,
  utxo_find (ie_hash (sp_ev sp)) (ie_idx (sp_ev sp)) U = Some s /\ stxo_getDBKey false s = sp_key sp /\
  take 4 (sp_key sp) = stxo_hgtx s /\ stxo_addr cfg s = Ok (sp_addr sp) /\ stxo_getValue (sp_stxo sp) = stxo_getValue s.
Proof.
  intros Hsp. destruct (spend_value cfg bc view batch u hs Hu Hb U HU sps Hsps sp Hsp) as (s & Hs & Ha & Hv & Ek & Hp & _).
  destruct (placed_key s Hp) as [E _]. rewrite Ek, E.
  destruct (txout_key8 (stxo_blockHeight s) (stxo_duplicateID s) (stxo_txIndex s) (stxo_txOutIndex s)) as (H8 & H4 & _).
  split; [done|]. exists s. rewrite E, H4. done.
Qed.

Lemma gone_same_block a : zsum (fun sp => stxo_getValue (sp_stxo sp)) (filter (fun sp => same_block sp = true) (spends_at a)) =
  zsum (fun ev => stxo_getValue (oe_stxo ev)) (gone_at a).
Proof.
  apply (zsum_match sp_key oe_key).
  - apply NoDup_filter_map, NoDup_filter_map, spends_key_NoDup.
  - apply NoDup_filter_map, NoDup_filter_map, outs_key_NoDup.
  - intros sp [Hsame [Ea Hsp]%spends_at_in]%list_elem_of_filter. destruct (spend_key8 sp Hsp) as (_ & s & Hs & Ek & E4 & Haddr & Ev).
    unfold same_block in Hsame. apply bool_decide_eq_true in Hsame. rewrite E4 in Hsame.
    destruct (spend_value cfg bc view batch u hs Hu Hb U HU sps Hsps sp Hsp) as (_ & _ & _ & _ & _ & _ & _ & _ & Hin).
    destruct (ins_header _ Hin) as (h & Hh & Eh & _ & _).
    pose proof Hs as Hs'. apply (mg_find _ _ _ _ HU) in Hs' as [Hs'|(ev & Hev & _ & _ & Es)%elem_of_oe_utxo].
    { exfalso. apply (bk_older _ _ _ _ _ _ Hb _ _ _ Hs' h Hh). rewrite Hsame. unfold ie_hgtx. by rewrite Eh. }
    destruct (out_placed _ _ _ _ _ _ Hb ev Hev) as (_ & Ek' & _ & Eg & Ea' & _). rewrite Es in Ek', Eg, Ea'.
    assert (oe_addr ev = a) as Eaddr by congruence.
    exists ev. split; [|split; [congruence|by rewrite Ev, Es]]. apply list_elem_of_filter. split; [|by apply outs_at_in].
    assert (oe_place ev = sp_place sp) as ->; [|by apply list_elem_of_fmap_2]. unfold oe_place, sp_place. congruence.
  - intros ev [Hpl [Ea Hev]%outs_at_in]%list_elem_of_filter. apply list_elem_of_fmap in Hpl as (sp & E & Hsp).
    unfold oe_place, sp_place in E. rewrite !pair_eq in E. destruct E as [[E1 E2] E3]. exists sp. split; [|done].
    apply list_elem_of_filter. split; [|apply spends_at_in; split; congruence]. unfold same_block. apply bool_decide_eq_true.
    rewrite <- E3, <- E2. apply oe_key8.
Qed.

(** What the entries of an address add up to. *)
Variable vd : stdmap Z Z.

(** The main branch is that of the blocks, below the heights that mark
    unconfirmed transactions; there are fewer than 2^32 outputs and spends and
    addresses of a sensible size. *)
Record main_branch : Prop := {
  mb_dup h : h ∈ hs -> map_find h vd = Some (duplicateID_ (vw_header (view h)));
  mb_height h : h ∈ hs -> h < 0xffff00;
  mb_size : zlen (outs_of view hs) + zlen (ins_of view hs) < 2 ^ 32;
  mb_addr h i s a : utxo_find h i u = Some s \/ (h, i, s) ∈ map oe_utxo (outs_of view hs) -> stxo_addr cfg s = Ok a -> zlen a < 2 ^ 31;
}.
Hypothesis Hmb : main_branch.

Lemma spend_facts sp : sp ∈ sps -> hasTxIn (sp_txio sp) = true /\ spent_in_main vd (sp_txio sp) = true /\
  getDBKeyOfOutput (sp_txio sp) = sp_key sp /\
  tally_delta (sp_txio sp) = (if same_block sp then 0 else - stxo_getValue (sp_stxo sp)) /\
  txio_ok vd (ie_hgtx (sp_ev sp)) (sp_txio sp).
Proof.
  intros Hsp. destruct (spend_key8 sp Hsp) as (H8 & _).
  destruct (spend_value cfg bc view batch u hs Hu Hb U HU sps Hsps sp Hsp) as (_ & _ & _ & _ & _ & _ & _ & _ & Hin).
  destruct (ins_header _ Hin) as (h & Hh & Eh & Eh' & Hok). apply sp_txio_facts; [done|done| |].
  - rewrite Eh'. by apply mb_height.
  - rewrite Eh', Eh. by apply mb_dup.
Qed.

Lemma items_delta a : zsum (fun it => tally_delta it.2) (flat txioMap_ (subs_of a)) =
  zsum (fun ev => paid cfg a (oe_stxo ev)) (outs_of view hs) -
  zsum (fun sp => if decide (sp_addr sp = a) then stxo_getValue (sp_stxo sp) else 0) sps.
Proof.
  rewrite (zsum_perm _ _ _ (subs_items a)), zsum_app, !zsum_map. cbn [snd sp_item oe_item].
  rewrite (zsum_ext (fun sp => tally_delta (sp_txio sp)) (fun sp => if decide (same_block sp = true) then 0 else - stxo_getValue (sp_stxo sp)) (spends_at a)).
  2:{ intros sp [_ Hsp]%spends_at_in. destruct (spend_facts sp Hsp) as (_ & _ & _ & -> & _). by destruct (same_block sp). }
  rewrite (zsum_ext (fun ev => tally_delta (oe_txio ev)) (fun ev => stxo_getValue (oe_stxo ev)) (kept_at a)).
  2:{ intros ev _. apply (oe_txio_facts vd ev). }
  rewrite (zsum_if (fun sp => sp_addr sp = a)). fold (spends_at a).
  rewrite (zsum_ext (fun ev => paid cfg a (oe_stxo ev)) (fun ev => if decide (oe_addr ev = a) then stxo_getValue (oe_stxo ev) else 0) (outs_of view hs)).
  2:{ intros ev Hev. destruct (out_placed _ _ _ _ _ _ Hb ev Hev) as (_ & _ & _ & _ & Ea & _). by apply paid_addr. }
  rewrite (zsum_if (fun ev => oe_addr ev = a)). fold (outs_at a).
  rewrite (zsum_filter _ (fun ev => oe_place ev ∈ map sp_place sps) (outs_at a)). fold (kept_at a) (gone_at a).
  rewrite <- gone_same_block.
  assert (forall l, zsum (fun sp => if decide (same_block sp = true) then 0 else - stxo_getValue (sp_stxo sp)) l =
    zsum (fun sp => stxo_getValue (sp_stxo sp)) (filter (fun sp => same_block sp = true) l) - zsum (fun sp => stxo_getValue (sp_stxo sp)) l) as ->; [|lia].
  intros l. induction l as [|sp l IH]; [done|]. rewrite filter_cons. unfold zsum in *. cbn [foldr]. rewrite IH.
  case_decide; cbn [foldr]; lia.
Qed.

(** ** Writing and reading a sub history *)

Lemma sps_size : zlen sps <= zlen (ins_of view hs).
Proof.
  destruct (spends_of_ok cfg U (ins_of view hs) (merged_addr cfg bc view batch u hs Hu Hb U HU)) as (sps' & E & _ & Hev).
  rewrite Hsps in E. injection E as <-. apply (f_equal length) in Hev. rewrite length_map in Hev.
  pose proof (length_filter (fun ev => is_Some (utxo_find (ie_hash ev) (ie_idx ev) U)) (ins_of view hs)). unfold zlen. lia.
Qed.

(** What an entry is. *)
Lemma item_cases a h k t : ssh_find a h k sshs = Some t ->
  k = getDBKeyOfOutput t /\ txio_ok vd h t /\ spent_in_main vd t = hasTxIn t /\
  k ∈ map oe_key (outs_of view hs) ++ map sp_key sps /\ zlen a < 2 ^ 31 /\
  exists j, j ∈ hs /\ h = header_hgtx (vw_header (view j)).
Proof.
  intros Ht. apply (bt_find _ _ _ _ Hst) in Ht as [(sp & Hsp & Ep & <-)%elem_of_sp_entry|[_ (ev & Hev & <- & <- & <- & <-)%elem_of_oe_entry]].
  - unfold sp_place in Ep. rewrite !pair_eq in Ep. destruct Ep as [[<- <-] <-].
    destruct (spend_facts sp Hsp) as (Hi & Hs & Ek & _ & Hok). destruct (spend_key8 sp Hsp) as (_ & s & Hs' & _ & _ & Ha & _).
    destruct (spend_value cfg bc view batch u hs Hu Hb U HU sps Hsps sp Hsp) as (_ & _ & _ & _ & _ & _ & _ & _ & Hin).
    destruct (ins_header _ Hin) as (j & Hj & Ej & _). split_and!; try done.
    + apply elem_of_app. right. by apply list_elem_of_fmap_2.
    + apply (mg_find _ _ _ _ HU) in Hs'. by apply (mb_addr Hmb _ _ _ _ Hs').
    + exists j. split; [done|]. unfold ie_hgtx. by rewrite Ej.
  - destruct (oe_txio_facts vd ev) as (Hi & Ek & _ & Hok). destruct (out_placed _ _ _ _ _ _ Hb ev Hev) as (_ & _ & _ & _ & Ha & j & Hj & Ej & _).
    split_and!; try done.
    + apply elem_of_app. left. by apply list_elem_of_fmap_2.
    + eapply (mb_addr Hmb); [right; by apply (list_elem_of_fmap_2 oe_utxo)|exact Ha].
    + exists j. split; [done|]. unfold oe_hgtx. by rewrite Ej.
Qed.

Lemma sub_entry_facts a h e : map_find h (subs_of a) = Some e -> sub_ok vd (set_sub_key a h e) /\ zlen a < 2 ^ 31 /\
  (exists j, j ∈ hs /\ h = header_hgtx (vw_header (view j))) /\
  Forall (fun x => spent_in_main vd x.2 = hasTxIn x.2) (txioMap_ e).
Proof.
  intros He. destruct (subs_of_wf a) as [Ho Hf]. pose proof (map_find_Forall (fun e => sub_wf e.2) _ _ _ Hf He) as [Hoe Hne]. cbn [snd] in *.
  assert (forall k t, (k, t) ∈ txioMap_ e -> ssh_find a h k sshs = Some t) as Hin.
  { intros k t Hkt%map_find_In; [|done]. unfold ssh_find, ssh_entry. fold (subs_of a). by rewrite He. }
  destruct (txioMap_ e) as [|[k0 t0] m0] eqn:Em; [done|]. rewrite <- Em in *. clear Hne.
  destruct (item_cases a h k0 t0 (Hin k0 t0 ltac:(rewrite Em; by left))) as (_ & _ & _ & _ & Ha & j & Hj & Eh).
  split; [|split; [done|split; [by exists j|]]].
  - constructor; cbn [sub_hgtX txioMap_ set_sub_key].
    + rewrite Eh. unfold header_hgtx. apply zlen_hgtx.
    + done.
    + pose proof (map_length_le (txioMap_ e) (map oe_key (outs_of view hs) ++ map sp_key sps) Hoe) as Hle.
      pose proof (mb_size Hmb). pose proof sps_size. enough (zlen (txioMap_ e) <= zlen (outs_of view hs) + zlen sps) by lia.
      unfold zlen in *. rewrite length_app, !length_map in Hle. etransitivity; [apply Hle|lia].
      intros k ([k' t] & -> & Hkt)%list_elem_of_fmap. by destruct (item_cases a h k' t (Hin k' t Hkt)) as (_ & _ & _ & ? & _).
    + apply Forall_forall. intros [k t] Hkt. by destruct (item_cases a h k t (Hin k t Hkt)) as (? & ? & _).
  - apply Forall_forall. intros [k t] Hkt. by destruct (item_cases a h k t (Hin k t Hkt)) as (_ & _ & ? & _).
Qed.

Definition entry_delta (x : list byte * StoredSubHistory) : Z := zsum tally_delta (map_values (txioMap_ x.2)).

(** A written sub history is read and added to the totals. *)
Lemma entry_tally a h e ssh : map_find h (subs_of a) = Some e -> is_uint 64 (totalUnspent_ ssh) ->
  exists bw ssh', sub_serializeDBValue vd e bw_new = Ok bw /\
    tally_entry vd ssh (subssh_key a h, theString_ bw) = Ok ssh' /\
    totalUnspent_ ssh' = wrap 64 (totalUnspent_ ssh + entry_delta (h, e)) /\
    totalTxioCount_ ssh' = wrap 64 (totalTxioCount_ ssh + zlen (txioMap_ e)).
Proof.
  intros He Hssh. destruct (sub_entry_facts a h e He) as (Hok & Ha & (j & Hj & Eh) & Hsp).
  pose proof (bk_views _ _ _ _ _ _ Hb) as Hv. rewrite Forall_forall in Hv. destruct (vo_height _ _ _ _ _ (Hv j Hj)) as [Ej Hh].
  set (s0 := mkSub a h [] j (duplicateID_ (vw_header (view j))) 0).
  destruct (subssh_roundtrip_bytes vd s0 (set_sub_key a h e) Hok eq_refl eq_refl) as (bw & r & E & _ & Hread). exists bw.
  eexists. split; [exact E|]. split; [|split].
  - unfold tally_entry. cbn [fst snd]. unfold header_hgtx in Eh. rewrite Ej in Eh. rewrite Eh at 1.
    rewrite subssh_key_read by done. cbn [mbind result_bind sub_height sub_dupID txioMap_ txioCount_ StoredSubHistory_new].
    unfold valid_dup_at. rewrite (mb_dup Hmb _ Hj). cbn [default id]. rewrite Z.eqb_refl. cbn [negb]. rewrite <- Eh.
    change (mkSub a h [] j (duplicateID_ (vw_header (view j))) 0) with s0. rewrite Hread. cbn [mbind result_bind]. reflexivity.
  - cbn [tally_sub totalUnspent_ set_summary set_totals txioMap_ set_txioMap]. rewrite tally_sum by done. do 2 f_equal.
    unfold entry_delta, stored_map, map_values. cbn [snd set_sub_key txioMap_]. rewrite map_map, !zsum_map. apply zsum_ext.
    intros [k t] Hkt. cbn [fst snd]. rewrite Forall_forall in Hsp. by apply stored_delta, (Hsp (k, t)).
  - done.
Qed.

(** The entries of an address, in any order. *)
Definition entry_row (a : list byte) (x : list byte * StoredSubHistory) : list byte * list byte :=
  (subssh_key a x.1, match sub_serializeDBValue vd x.2 bw_new with Ok bw => theString_ bw | Err _ => [] end).

Lemma entries_tally a l ssh : Forall (fun x => map_find x.1 (subs_of a) = Some x.2) l -> is_uint 64 (totalUnspent_ ssh) ->
  is_uint 64 (totalTxioCount_ ssh) -> exists ssh', tally_entries vd ssh (map (entry_row a) l) = Ok ssh' /\
    totalUnspent_ ssh' = wrap 64 (totalUnspent_ ssh + zsum entry_delta l) /\
    totalTxioCount_ ssh' = wrap 64 (totalTxioCount_ ssh + zsum (fun x => zlen (txioMap_ x.2)) l).
Proof.
  intros Hl. revert ssh. induction Hl as [|[h e] l Hx _ IH]; intros ssh Hu1 Hu2; cbn [map tally_entries].
  - exists ssh. unfold zsum. cbn [foldr]. rewrite !Z.add_0_r, !wrap_small by done. done.
  - cbn [fst snd] in Hx. destruct (entry_tally a h e ssh Hx Hu1) as (bw & ssh1 & Ebw & E1 & E2 & E3).
    assert (entry_row a (h, e) = (subssh_key a h, theString_ bw)) as -> by (unfold entry_row; cbn [fst snd]; by rewrite Ebw).
    rewrite E1. cbn [mbind result_bind].
    destruct (IH ssh1) as (ssh' & E & F1 & F2); [rewrite E2; by apply wrap_range|rewrite E3; by apply wrap_range|].
    exists ssh'. split; [done|]. rewrite F1, F2, E2, E3, !wrap_plus.
    change (zsum entry_delta ((h, e) :: l)) with (entry_delta (h, e) + zsum entry_delta l).
    change (zsum (fun x => zlen (txioMap_ x.2)) ((h, e) :: l)) with (zlen (txioMap_ e) + zsum (fun x : list byte * StoredSubHistory => zlen (txioMap_ x.2)) l).
    split; f_equal; lia.
Qed.

(** ** The table that is written *)

Definition rows (m : stdmap (list byte) BinaryWriter) : list (list byte * list byte) := map (fun e => (e.1, theString_ e.2)) m.

Lemma rows_keys m : map fst (rows m) = map_keys m.
Proof. unfold rows, map_keys. by rewrite map_map. Qed.

Lemma fresh_key k (m : stdmap (list byte) BinaryWriter) : map_ordered m -> k ∉ map_keys m -> map_find k m = None.
Proof.
  intros Ho Hk. destruct (map_find k m) as [v|] eqn:E; [|done]. apply map_find_In in E; [|done]. destruct Hk.
  exact (list_elem_of_fmap_2 fst _ _ E).
Qed.

Definition written (x : StoredSubHistory) : Prop := exists bw, sub_serializeDBValue vd x bw_new = Ok bw.

Lemma serialize_subs_rows a subs m : Forall (fun x => written x.2) subs -> map_ordered m ->
  NoDup (map (fun x => subssh_key a x.1) subs ++ map_keys m) ->
  exists m', serialize_subs vd a subs m = Ok m' /\ map_ordered m' /\ rows m' ≡ₚ map (entry_row a) subs ++ rows m.
Proof.
  intros Hs. revert m. induction Hs as [|[h e] subs [bw Ebw] _ IH]; intros m Ho Hn; cbn [serialize_subs map app] in *; [by exists m|].
  cbn [fst snd] in *. apply NoDup_cons in Hn as [Hk Hn]. rewrite not_elem_of_app in Hk. destruct Hk as [Hk1 Hk2].
  pose proof (fresh_key _ _ Ho Hk2) as Hf. rewrite Hf. cbn [default id]. rewrite Ebw. cbn [mbind result_bind].
  pose proof (map_put_new (subssh_key a h) bw m Hf) as P.
  destruct (IH (map_put (subssh_key a h) bw m)) as (m' & E & Ho' & P'); [by apply map_put_ordered| |].
  - unfold map_keys in *. rewrite P. cbn [map fst]. rewrite <- Permutation_middle. apply NoDup_cons. split; [|done].
    rewrite not_elem_of_app. done.
  - exists m'. split; [done|]. split; [done|]. rewrite P'. unfold rows at 1. rewrite P. cbn [map fst snd].
    rewrite <- Permutation_middle. unfold entry_row at 2. cbn [fst snd]. by rewrite Ebw.
Qed.

Definition flat_row (t : list byte * list byte * StoredSubHistory) : list byte * list byte := entry_row t.1.1 (t.1.2, t.2).

Lemma flat_cons_rows a subs l : map flat_row (flat id ((a, subs) :: l)) = map (entry_row a) subs ++ map flat_row (flat id l).
Proof.
  unfold flat. rewrite bind_cons, map_app, map_map. by f_equal.
Qed.

Lemma serialize_sshs_rows l m : Forall (fun x => Forall (fun y => written y.2) x.2) l -> map_ordered m ->
  NoDup (map fst (map flat_row (flat id l)) ++ map_keys m) ->
  exists m', serialize_sshs vd l m = Ok m' /\ rows m' ≡ₚ map flat_row (flat id l) ++ rows m.
Proof.
  intros Hs. revert m. induction Hs as [|[a subs] l Hx _ IH]; intros m Ho Hn; cbn [serialize_sshs]; [by exists m|].
  cbn [fst snd] in *. rewrite flat_cons_rows, map_app, <- app_assoc in Hn.
  assert (map fst (map (entry_row a) subs) = map (fun x => subssh_key a x.1) subs) as Ek by (by rewrite map_map).
  rewrite Ek in Hn. destruct (serialize_subs_rows a subs m Hx Ho) as (m1 & -> & Ho1 & P1).
  - rewrite Permutation_app_swap_app in Hn. by apply NoDup_app in Hn as (_ & _ & ?).
  - cbn [mbind result_bind]. destruct (IH m1 Ho1) as (m' & E & P).
    + rewrite <- rows_keys, P1, map_app, Ek, rows_keys. by rewrite Permutation_app_swap_app.
    + exists m'. split; [done|]. rewrite P, P1, flat_cons_rows. rewrite <- app_assoc. apply Permutation_app_swap_app.
Qed.

Lemma sshs_entry a subs h e : (a, subs) ∈ sshs -> (h, e) ∈ subs -> map_find h (subs_of a) = Some e.
Proof.
  pose proof (bt_wf _ _ _ _ Hst) as [Ho Hf]. intros Ha He. rewrite Forall_forall in Hf. destruct (Hf _ Ha) as [Hos _].
  apply map_find_In in Ha; [|done]. apply map_find_In in He; [|done]. unfold subs_of. by rewrite Ha.
Qed.

Lemma entry_sizes a subs h e : (a, subs) ∈ sshs -> (h, e) ∈ subs -> zlen a < 2 ^ 31 /\ zlen h = 4 /\ written e.
Proof.
  intros Ha He. destruct (sub_entry_facts a h e (sshs_entry a subs h e Ha He)) as (Hok & Hz & (j & _ & Eh) & _).
  split; [done|]. split; [rewrite Eh; unfold header_hgtx; apply zlen_hgtx|].
  destruct (sub_serialize_bytes vd _ bw_new Hok) as (bw & E & _). by exists bw.
Qed.

(** The rows of an address are its sub histories. *)
Lemma rows_of_address a (l : ssh_map) : map_ordered l ->
  (forall b subs h e, (b, subs) ∈ l -> (h, e) ∈ subs -> zlen b < 2 ^ 31 /\ zlen h = 4) ->
  filter (fun r => subssh_addr r.1 = a) (map flat_row (flat id l)) = map (entry_row a) (default [] (map_find a l)).
Proof.
  induction l as [|[b subs] l IH]; [done|]. intros [Hb' Ho] Hz. rewrite flat_cons_rows, filter_app, IH by (done || (intros; eapply Hz; [by right|done])).
  assert (forall l', (forall h e, (h, e) ∈ l' -> zlen b < 2 ^ 31 /\ zlen h = 4) ->
    filter (fun r => subssh_addr r.1 = a) (map (entry_row b) l') = if decide (b = a) then map (entry_row b) l' else []) as ->.
  { induction l' as [|[h e] l' IH']; intros Hz'; [by case_decide|]. cbn [map]. rewrite filter_cons, IH' by (intros; eapply Hz'; by right).
    destruct (Hz' h e ltac:(by left)). cbn [entry_row fst]. rewrite subssh_key_addr by done. by repeat case_decide. }
  2:{ intros h e He. eapply Hz; [by left|done]. }
  assert (map_find a l = None \/ std_less b a = true) as Hor.
  { destruct (std_less_trichotomy b a) as [?|[->|Hlt]]; [by right|left; by apply map_find_below|left].
    apply map_find_below. eapply Forall_impl; [exact Hb'|]. intros e. by apply std_less_trans. }
  case_decide as E; [subst b|cbn [app]].
  - destruct Hor as [->|Hlt]; [|by rewrite std_less_irrefl in Hlt]. cbn [default id map]. rewrite app_nil_r. cbn [map_find].
    by rewrite std_less_irrefl.
  - cbn [map_find]. destruct (std_less_trichotomy b a) as [Hlt|[?|Hlt]]; [|done|].
    + by rewrite (std_less_asym _ _ Hlt), Hlt.
    + rewrite Hlt. destruct Hor as [->|Hlt']; [done|]. rewrite (std_less_asym _ _ Hlt) in Hlt'. done.
Qed.

(** The batch is written; its rows of an address, in any order, are added up. *)
Lemma sshs_tally a ssh : is_uint 64 (totalUnspent_ ssh) -> is_uint 64 (totalTxioCount_ ssh) ->
  exists m ssh', serialize_sshs vd sshs [] = Ok m /\
    tally_entries vd ssh (filter (fun r => subssh_addr r.1 = a) (rows m)) = Ok ssh' /\
    totalUnspent_ ssh' = wrap 64 (totalUnspent_ ssh + zsum (fun it => tally_delta it.2) (flat txioMap_ (subs_of a))) /\
    totalTxioCount_ ssh' = wrap 64 (totalTxioCount_ ssh + zlen (flat txioMap_ (subs_of a))).
Proof.
  intros Hu1 Hu2. pose proof (bt_wf _ _ _ _ Hst) as [Ho Hf].
  destruct (serialize_sshs_rows sshs []) as (m & E & P); [|done| |].
  - apply Forall_forall. intros [b subs] Hbs. apply Forall_forall. intros [h e] He. by apply (entry_sizes b subs h e).
  - unfold map_keys. cbn [map]. rewrite app_nil_r, map_map. apply (NoDup_map_via _ id).
    + rewrite map_id. apply NoDup_flat; [done|]. eapply Forall_impl; [exact Hf|by intros x []].
    + assert (forall b h e, (b, h, e) ∈ flat id sshs -> exists subs, (b, subs) ∈ sshs /\ (h, e) ∈ subs) as Hin.
      { intros b h e (x & (y & Ey & Hy)%list_elem_of_fmap & Hx)%list_elem_of_bind. rewrite !pair_eq in Ey. destruct Ey as [[-> ->] ->].
        exists x.2. split; [by destruct x|by destruct y]. }
      intros [[b h] e] [[b' h'] e'] Hx Hy Ek. cbn in Ek. destruct (Hin _ _ _ Hx) as (subs & H1 & H2), (Hin _ _ _ Hy) as (subs' & H1' & H2').
      destruct (entry_sizes b subs h e H1 H2) as (? & ? & _), (entry_sizes b' subs' h' e' H1' H2') as (? & ? & _).
      apply subssh_key_inj in Ek as [<- <-]; [|done..]. unfold id. f_equal.
      pose proof (sshs_entry _ _ _ _ H1 H2). pose proof (sshs_entry _ _ _ _ H1' H2'). congruence.
  - exists m. rewrite app_nil_r in P.
    assert (filter (fun r => subssh_addr r.1 = a) (rows m) ≡ₚ map (entry_row a) (subs_of a)) as Pa.
    { rewrite P. unfold subs_of. rewrite <- rows_of_address; [done|done|]. intros b subs h e H1 H2.
      destruct (entry_sizes b subs h e H1 H2) as (? & ? & _). done. }
    apply Permutation_map_inv in Pa as (l & -> & Pl).
    destruct (entries_tally a l ssh) as (ssh' & Et & F1 & F2); [|done|done|].
    { rewrite <- Pl. apply Forall_forall. intros [h e] He. apply map_find_In; [apply subs_of_wf|done]. }
    exists ssh'. split; [done|]. split; [done|]. rewrite F1, F2, <- !(zsum_perm _ _ _ Pl). unfold flat. rewrite zsum_bind. split; do 2 f_equal.
    + apply zsum_ext. intros [h e] _. unfold entry_delta, map_values. cbn [snd]. by rewrite !zsum_map.
    + clear. induction (subs_of a) as [|[h e] l IH]; [done|]. rewrite bind_cons, zlen_app. unfold zsum in *. cbn [foldr]. rewrite IH.
      cbn [snd fst]. unfold zlen. by rewrite length_map.
Qed.
End batch.

(** C5: the account of an address across a scan, from the tables: the batch is
    scanned, whatever the threads do, its sub histories are written to the
    SUBSSH table, and the rows of the address are read back and added to the
    totals it had: its unspent total moves by exactly the change of the value of
    its unspent outputs, outputs that are spent in their own block included,
    and the arithmetic wraps at 64 bits. *)
Theorem scan_moves_totals `{HashFns} cfg bc view batch u hs vd outSchedule inSchedule a ssh
    (Hu : utxo_ok cfg u) (Hb : batch_ok cfg bc view batch u hs) (Hmb : main_branch cfg view u hs vd)
    (Hout : concat outSchedule ≡ₚ hs) (Hin : concat inSchedule ≡ₚ hs)
    (Hunspent : is_uint 64 (totalUnspent_ ssh)) (Hcount : is_uint 64 (totalTxioCount_ ssh)) :
  exists batch' u' m ssh',
    processBatch cfg outSchedule inSchedule u batch bc = Ok ((batch', u'), bc) /\
    serialize_sshs vd (sshMap_ batch') [] = Ok m /\
    tally_entries vd ssh (filter (fun r => subssh_addr r.1 = a) (rows m)) = Ok ssh' /\
    totalUnspent_ ssh' = wrap 64 (totalUnspent_ ssh + (balance cfg a u' - balance cfg a u)).
Proof.
  destruct (outputs_step cfg bc view batch u hs Hb outSchedule Hout) as (b1 & E1 & Ef & Es & E0 & Hbl & Hm).
  pose proof (merge_merged cfg bc view batch u hs Hu Hb _ _ Hm) as HU.
  destruct (inputs_step cfg bc view batch u hs Hu Hb _ b1 inSchedule HU Hin Ef Es E0 Hbl Hm) as (b2 & sps & E2 & E & Eo & Eb & Hst).
  destruct (sshs_tally cfg bc view batch u hs Hu Hb _ sps (sshMap_ b2) _ HU E Hst vd Hmb a ssh Hunspent Hcount) as (m & ssh' & Em & Et & Eu & _).
  exists b2, (foldl purge_one (merge_utxos (outputMap_ b1) u) (spentOutputs_ b2)), m, ssh'. split; [|split; [done|split; [done|]]].
  - unfold processBatch, mbind, chain_bind. rewrite E1. unfold chain_of. rewrite E2. done.
  - rewrite Eu, (items_delta cfg bc view batch u hs Hu Hb _ sps (sshMap_ b2) _ HU E Hst vd Hmb a).
    rewrite (balance_moves cfg bc view batch u hs Hu Hb _ HU sps E a _ (bt_spent _ _ _ _ Hst)). f_equal. lia.
Qed.
