(* ===== verification/ScannerChain.v ===== *)
(** * ScannerChain: a scan of the chain, batch after batch

    The batches of a scan that are valid together: after the last one the
    unspent outputs are those of the ledger of all their blocks. *)

From S2P Require Import Prelude BinaryData BinaryIO Hashing StdMap MapSums DBUtils BlockHeader HeadersDB.
From S2P Require Import ScriptUtils TxLength Blockchain BlockData StoredTxOut ScriptHistory ScriptHistoryProps.
From S2P Require Import Scanner ScannerSpec ScannerProps ScannerThreads ScannerLedger ScannerCorrect ScannerBatch.

(** ** Ledgers in two parts *)

Definition same_ledger (L L' : Ledger) : Prop := forall h i, L h i = L' h i.

Lemma ledger_app L tvs1 tvs2 : ledger L (tvs1 ++ tvs2) = ledger (ledger L tvs1) tvs2.
Proof. apply foldl_app. Qed.

Lemma spend_outpoint_same h i L L' : same_ledger L L' -> same_ledger (spend_outpoint h i L) (spend_outpoint h i L').
Proof. intros E h' i'. unfold spend_outpoint. by case_decide. Qed.
Lemma create_output_same h i s L L' : same_ledger L L' -> same_ledger (create_output h i s L) (create_output h i s L').
Proof. intros E h' i'. unfold create_output. by case_decide. Qed.

Lemma ledger_tx_same tv L L' : same_ledger L L' -> same_ledger (ledger_tx L tv) (ledger_tx L' tv).
Proof.
  intros E. unfold ledger_tx.
  assert (same_ledger (foldl (fun L ev => spend_outpoint (ie_hash ev) (ie_idx ev) L) L (tv_ins tv))
    (foldl (fun L ev => spend_outpoint (ie_hash ev) (ie_idx ev) L) L' (tv_ins tv))) as E1.
  { revert L L' E. induction (tv_ins tv) as [|ev ins IH]; intros L L' E; [done|]. by apply IH, spend_outpoint_same. }
  revert E1. generalize (foldl (fun L ev => spend_outpoint (ie_hash ev) (ie_idx ev) L) L (tv_ins tv)) as M.
  generalize (foldl (fun L ev => spend_outpoint (ie_hash ev) (ie_idx ev) L) L' (tv_ins tv)) as M'.
  induction (tv_outs tv) as [|ev outs IH]; intros M' M E1; [done|]. by apply IH, create_output_same.
Qed.

Lemma ledger_same tvs L L' : same_ledger L L' -> same_ledger (ledger L tvs) (ledger L' tvs).
Proof. revert L L'. induction tvs as [|tv tvs IH]; intros L L' E; [done|]. by apply IH, ledger_tx_same. Qed.

(** Validity of fewer inputs that matter, and of an equal ledger. *)
Lemma valid_txs_mono (K K' : list byte -> Z -> Prop) tvs L L' : same_ledger L L' -> (forall h i, K' h i -> K h i) ->
  valid_txs K L tvs -> valid_txs K' L' tvs.
Proof.
  intros E HK. revert L L' E. induction tvs as [|tv tvs IH]; intros L L' E; [done|]. intros [Hi Ht]. split.
  - clear Ht. revert L L' E Hi. induction (tv_ins tv) as [|ev ins IHi]; intros L L' E; [done|]. intros [H1 H2]. split.
    + intros Hk. rewrite <- E. by apply H1, HK.
    + by eapply IHi; [apply spend_outpoint_same|].
  - by eapply IH; [apply ledger_tx_same|].
Qed.

Lemma valid_txs_app K L tvs1 tvs2 : valid_txs K L (tvs1 ++ tvs2) <-> valid_txs K L tvs1 /\ valid_txs K (ledger L tvs1) tvs2.
Proof.
  revert L. induction tvs1 as [|tv tvs1 IH]; intros L; cbn [app valid_txs]; [tauto|]. rewrite IH.
  change (ledger L (tv :: tvs1)) with (ledger (ledger_tx L tv) tvs1). tauto.
Qed.

Lemma ledger_valid_app L L' tvs1 tvs2 : ledger_valid L (tvs1 ++ tvs2) -> same_ledger L' (ledger L tvs1) ->
  ledger_valid L tvs1 /\ ledger_valid L' tvs2.
Proof.
  intros [Hv Hn Ho] E. apply valid_txs_app in Hv as [Hv1 Hv2]. unfold tvs_outs in *. rewrite bind_app in Hn, Ho.
  rewrite map_app in Ho. apply NoDup_app in Ho as (Ho1 & Hx & Ho2).
  assert (ledger_valid L tvs1) as H1.
  { constructor; [| |done].
    - eapply valid_txs_mono; [by intros h i| |exact Hv1]. intros h i [Hk|(ev & Hin & Ek)]; [by left|].
      right. exists ev. split; [|done]. unfold tvs_outs. rewrite bind_app, elem_of_app. by left.
    - intros ev Hin. apply Hn. rewrite elem_of_app. by left. }
  split; [done|]. pose proof (proj1 (ledger_final L tvs1 H1)) as Hf. constructor; [| |done].
  - eapply valid_txs_mono; [intros h i; symmetry; apply E| |exact Hv2]. unfold created, tvs_outs. intros h i [Hk|(ev & Hin & Ek)].
    + rewrite E in Hk. destruct (ledger L tvs1 h i) as [s|] eqn:Es; [|done].
      apply Hf in Es as [_ [Es|(ev & Hin & E1 & E2 & _)%elem_of_oe_utxo]]; [left; by rewrite Es|].
      right. exists ev. rewrite bind_app, elem_of_app. split; [by left|done].
    + right. exists ev. rewrite bind_app, elem_of_app. split; [by right|done].
  - intros ev Hin. rewrite E. destruct (ledger L tvs1 (oe_hash ev) (oe_y ev)) as [s|] eqn:Es; [|done]. exfalso.
    apply Hf in Es as [_ [Es|(ev' & Hin' & E1 & E2 & _)%elem_of_oe_utxo]].
    + rewrite Hn in Es; [done|]. rewrite elem_of_app. by right.
    + apply (Hx (oe_hash ev, oe_y ev)); [|exact (list_elem_of_fmap_2 (fun ev => (oe_hash ev, oe_y ev)) _ _ Hin)].
      rewrite <- E1, <- E2. exact (list_elem_of_fmap_2 (fun ev => (oe_hash ev, oe_y ev)) _ _ Hin').
Qed.

(** ** Batch after batch *)

Section chain.
Context `{HashFns}.
Variable cfg : Config.
Variable bc : Blockchain.
Variable view : Z -> BlockView.

(** A batch as it is made, whose threads share the heights [hs]. *)
Record batch_new (b : ScheduledBatch) (hs : list Z) : Prop := {
  bn_outputs : concat (sb_outputs b) ≡ₚ hs;
  bn_inputs : concat (sb_inputs b) ≡ₚ hs;
  bn_views : Forall (view_ok cfg bc view (sb_batch b)) hs;
  bn_empty : blockMap_ (sb_batch b) = [] /\ outputMap_ (sb_batch b) = [] /\ sshMap_ (sb_batch b) = [] /\
    spentOutputs_ (sb_batch b) = [];
}.

(** Batches of different blocks that extend the chain behind [u]. *)
Record chain_ok (bs : list ScheduledBatch) (hss : list (list Z)) (u : utxo_map) : Prop := {
  ck_batches : Forall2 batch_new bs hss;
  ck_heights : NoDup (concat hss);
  ck_ledger : ledger_valid (fun h i => utxo_find h i u) (txs_of view (concat hss));
  ck_hashes : hashes_per_block (outs_of view (concat hss));
  ck_index : Forall (fun ev => oe_i ev < 65535 /\ oe_y ev < 65535) (outs_of view (concat hss));
  ck_older h i s : utxo_find h i u = Some s -> forall j, j ∈ concat hss -> stxo_hgtx s <> header_hgtx (vw_header (view j));
}.

Lemma txs_of_app hs1 hs2 : txs_of view (hs1 ++ hs2) = txs_of view hs1 ++ txs_of view hs2.
Proof. apply bind_app. Qed.

Lemma step_height bs hss j : Forall2 batch_new bs hss -> j ∈ concat hss ->
  blockHeight_ (vw_header (view j)) = j /\ hgtx_ok j (duplicateID_ (vw_header (view j))).
Proof.
  induction 1 as [|b hs bs hss Hb _ IH]; cbn [concat]; [by intros ?%elem_of_nil|]. intros [Hj|Hj]%elem_of_app; [|by apply IH].
  pose proof (bn_views _ _ Hb) as Hv. rewrite Forall_forall in Hv. apply (vo_height _ _ _ _ _ (Hv j Hj)).
Qed.

Lemma chain_first b bs hs hss u : chain_ok (b :: bs) (hs :: hss) u -> batch_ok cfg bc view (sb_batch b) u hs.
Proof.
  intros [Hbs Hn Hl Hh Hi Ho]. apply Forall2_cons in Hbs as [Hb _]. cbn [concat] in *. rewrite txs_of_app in Hl.
  rewrite outs_of_app in Hh, Hi. constructor; try apply Hb.
  - by apply NoDup_app in Hn as [? _].
  - by apply (ledger_valid_app _ _ _ _ Hl (fun _ _ => eq_refl)).
  - intros x y Hx Hy. apply Hh; rewrite elem_of_app; by left.
  - by apply Forall_app in Hi as [? _].
  - intros h i s Hs j Hj. apply (Ho h i s Hs). rewrite elem_of_app. by left.
Qed.

Lemma chain_rest b bs hs hss u batch' u' sps : chain_ok (b :: bs) (hs :: hss) u -> scanned cfg view u hs batch' u' sps ->
  chain_ok bs hss u'.
Proof.
  intros Hc Hs. pose proof (chain_first _ _ _ _ _ Hc) as Hb1. destruct Hc as [Hbs Hn Hl Hh Hi Ho]. apply Forall2_cons in Hbs as [Hb Hbs].
  cbn [concat] in *. rewrite txs_of_app in Hl. rewrite outs_of_app in Hh, Hi. apply NoDup_app in Hn as (Hn1 & Hx & Hn2).
  destruct (ledger_valid_app _ (fun h i => utxo_find h i u') _ _ Hl (sc_ledger _ _ _ _ _ _ _ Hs)) as [Hl1 Hl2].
  constructor; [done|done|done| | |].
  - intros x y Hx' Hy. apply Hh; rewrite elem_of_app; by right.
  - by apply Forall_app in Hi as [_ ?].
  - intros h i s Hfind j Hj. rewrite (sc_ledger _ _ _ _ _ _ _ Hs) in Hfind. apply (proj1 (ledger_final _ _ Hl1)) in Hfind as [_ [Hu|Hin]].
    { apply (Ho h i s Hu). rewrite elem_of_app. by right. }
    rewrite outs_txs in Hin. apply elem_of_oe_utxo in Hin as (ev & Hev & _ & _ & <-).
    destruct (out_placed _ _ _ _ _ _ Hb1 ev Hev) as (_ & _ & _ & -> & _ & j1 & Hj1 & Ej1 & _).
    pose proof (bn_views _ _ Hb) as Hv. rewrite Forall_forall in Hv. destruct (vo_height _ _ _ _ _ (Hv j1 Hj1)) as [E1 O1].
    destruct (step_height _ _ j Hbs Hj) as [E2 O2]. unfold oe_hgtx, header_hgtx. rewrite Ej1, E1, E2. intros E.
    destruct (hgtx_inj _ _ _ _ O1 O2 E) as [-> _]. by apply (Hx j).
Qed.

(** C2: a whole scan: batches of blocks one after the other, the threads of each
    sharing its heights in any way.  The scan returns, and the unspent outputs
    are those of the ledger of all the blocks. *)
Theorem scan_chain_ledger bs hss u (Hu : utxo_ok cfg u) (Hc : chain_ok bs hss u) :
  exists done u', processBatches cfg bs u bc = Ok ((done, u'), bc) /\ length done = length bs /\ utxo_ok cfg u' /\
    forall h i, utxo_find h i u' = ledger (fun h i => utxo_find h i u) (txs_of view (concat hss)) h i.
Proof.
  revert hss u Hu Hc. induction bs as [|b bs IH]; intros hss u Hu Hc; cbn [processBatches].
  - pose proof (ck_batches _ _ _ Hc) as E. apply Forall2_nil_inv_l in E as ->. by exists [], u.
  - pose proof (ck_batches _ _ _ Hc) as E. destruct hss as [|hs hss]; [by apply Forall2_nil_inv_r in E|].
    apply Forall2_cons in E as [Hb _].
    destruct (batch_scanned cfg bc view (sb_batch b) u hs Hu (chain_first _ _ _ _ _ Hc) (sb_outputs b) (sb_inputs b)
      (bn_outputs _ _ Hb) (bn_inputs _ _ Hb)) as (batch' & u1 & sps & E1 & Hs).
    destruct (IH hss u1 (sc_ok _ _ _ _ _ _ _ Hs) (chain_rest _ _ _ _ _ _ _ _ Hc Hs)) as (done & u' & E2 & El & Hok & Hl).
    exists (batch' :: done), u'. unfold mbind, chain_bind. rewrite E1, E2. split; [done|]. split; [cbn; lia|]. split; [done|].
    intros h i. cbn [concat]. rewrite txs_of_app, ledger_app, Hl. apply ledger_same. intros h' i'. apply (sc_ledger _ _ _ _ _ _ _ Hs).
Qed.
End chain.
