(* ===== verification/ScannerExamples.v ===== *)
(** * ScannerExamples: a batch of two blocks

    A registered address with one unspent output, and two blocks: it receives a
    coinbase, spends the old output, spends an output in the block that made
    it, and spends the coinbase. *)

From S2P Require Import Prelude BinaryData BinaryIO Hashing StdMap MapSums DBUtils BlockHeader HeadersDB.
From S2P Require Import ScriptUtils TxLength Blockchain BlockData BlockDataProps StoredTxOut ScriptHistory ScriptHistoryProps.
From S2P Require Import Scanner ScannerSpec ScannerProps ScannerThreads ScannerLedger ScannerCorrect ScannerBatch ScannerBalance ScannerTally ScannerChain.

#[local] Instance sx_hashes : HashFns := toy_hashes.

(** ** Valid ledgers by computation *)

Definition createdb (L : Ledger) (tvs : list TxView) (h : list byte) (i : Z) : bool :=
  bool_decide (is_Some (L h i)) || bool_decide ((h, i) ∈ map oe_point (tvs_outs tvs)).

Fixpoint valid_insb (known : list byte -> Z -> bool) (L : Ledger) (ins : list InEv) : bool :=
  match ins with
  | [] => true
  | ev :: ins =>
      implb (known (ie_hash ev) (ie_idx ev)) (bool_decide (is_Some (L (ie_hash ev) (ie_idx ev)))) &&
      valid_insb known (spend_outpoint (ie_hash ev) (ie_idx ev) L) ins
  end.
Fixpoint valid_txsb (known : list byte -> Z -> bool) (L : Ledger) (tvs : list TxView) : bool :=
  match tvs with
  | [] => true
  | tv :: tvs => valid_insb known L (tv_ins tv) && valid_txsb known (ledger_tx L tv) tvs
  end.

Lemma createdb_spec L tvs h i : created L tvs h i -> createdb L tvs h i = true.
Proof.
  unfold createdb. intros [Hs|(ev & Hin & <- & <-)]; apply orb_true_iff.
  - left. apply bool_decide_eq_true. by apply not_eq_None_Some.
  - right. apply bool_decide_eq_true. by apply (list_elem_of_fmap_2 oe_point).
Qed.

Lemma valid_txsb_spec (known : list byte -> Z -> Prop) knownb L tvs : (forall h i, known h i -> knownb h i = true) ->
  valid_txsb knownb L tvs = true -> valid_txs known L tvs.
Proof.
  intros Hk. revert L. induction tvs as [|tv tvs IH]; intros L; cbn [valid_txsb valid_txs]; [done|].
  intros [Hi Ht]%andb_true_iff. split; [|by apply IH]. revert Hi. generalize L as L0.
  induction (tv_ins tv) as [|ev ins IHi]; intros L0; cbn [valid_insb valid_ins]; [done|].
  intros [H1 H2]%andb_true_iff. split; [|by apply IHi]. intros Hkn. rewrite (Hk _ _ Hkn) in H1. cbn [implb] in H1.
  apply bool_decide_eq_true in H1. by apply not_eq_None_Some.
Qed.

Lemma forallb_in {A} (p : A -> bool) l x : forallb p l = true -> x ∈ l -> p x = true.
Proof. intros Hl Hx. rewrite forallb_forall in Hl. by apply Hl, list_elem_of_In. Qed.

Lemma ledger_validb L tvs : valid_txsb (createdb L tvs) L tvs = true ->
  forallb (fun ev => bool_decide (L (oe_hash ev) (oe_y ev) = None)) (tvs_outs tvs) = true ->
  bool_decide (NoDup (map oe_point (tvs_outs tvs))) = true -> ledger_valid L tvs.
Proof.
  intros H1 H2 H3. constructor.
  - eapply valid_txsb_spec; [|exact H1]. apply createdb_spec.
  - intros ev Hin. eapply bool_decide_eq_true, (forallb_in _ _ _ H2 Hin).
  - by apply bool_decide_eq_true in H3.
Qed.

(** ** The blocks *)

Definition sx_cfg : Config := mkConfig 0 5.
Definition sx_ref : TxOutScriptRef := mkScrRef 0 (replicate 20 (z2b 65)).
Definition sx_p2pkh (b : Z) : list byte := map z2b [0x76; 0xa9; 20] ++ replicate 20 (z2b b) ++ map z2b [0x88; 0xac].
Definition sx_out (b v : Z) : TxOut := mkTxOut (le_bytes 8 v) (sx_p2pkh b).
Definition sx_in (hash : list byte) (i : Z) : TxIn := mkTxIn (hash ++ le_bytes 4 i) [] (replicate 4 (z2b 255)).
Definition sx_tx (n : Z) (ins : list TxIn) (outs : list TxOut) : Tx := mkTx (le_bytes 4 n) ins outs None (replicate 4 (z2b 0)).

Definition sx_old : list byte := replicate 32 (z2b 9).
Definition sx_t1 : Tx := sx_tx 1 [sx_in EmptyHash UINT32_MAX] [sx_out 65 50; sx_out 66 7].
Definition sx_t2 : Tx := sx_tx 2 [sx_in sx_old 0] [sx_out 65 20].
Definition sx_t3 : Tx := sx_tx 3 [sx_in (txid sx_t2) 0] [sx_out 65 19].
Definition sx_t4 : Tx := sx_tx 4 [sx_in EmptyHash UINT32_MAX] [sx_out 66 50].
Definition sx_t5 : Tx := sx_tx 5 [sx_in (txid sx_t1) 0] [sx_out 66 49; sx_out 65 1].

Definition sx_block (n : Z) (txs : list Tx) : Block :=
  mkBlock (mkHeaderBytes (le_bytes 4 n) (replicate 32 (z2b 1)) EmptyHash (replicate 4 (z2b 3))
             (map z2b [255; 255; 0; 29]) (replicate 4 (z2b 4))) txs.
Definition sx_b1 : Block := sx_block 1 [sx_t1; sx_t2; sx_t3].
Definition sx_b2 : Block := sx_block 2 [sx_t4; sx_t5].

Definition sx_header (height offset : Z) (b : Block) : BlockHeader :=
  mkBlockHeader [] true true false true 0 height (zlen (blk_txs b)) (Some (zlen (enc_block b))) (block_hash b) dbl_0 [] dbl_0
    0 offset height.
Definition sx_h1 : BlockHeader := sx_header 1 0 sx_b1.
Definition sx_h2 : BlockHeader := sx_header 2 (zlen (enc_block sx_b1)) sx_b2.

Definition sx_chain : Blockchain :=
  mkBlockchain (<[1%nat := sx_h1]> (<[2%nat := sx_h2]> ∅)) [] [] [] [None; Some 1%nat; Some 2%nat] [] None 0 0.
Definition sx_batch : ParserBatch :=
  mkBatch [(0, enc_block sx_b1 ++ enc_block sx_b2)] 1 2 [] [] [] [] [(sx_ref, 0)].

Definition sx_view (h : Z) : BlockView :=
  let header := if h =? 1 then sx_h1 else sx_h2 in
  let block := match getBlockData sx_batch h sx_chain with Ok (b, _) => b | Err _ => BlockData_new end in
  mkView block header (match read_txs sx_cfg sx_batch header 0 (txns_ block) with Ok l => l | Err _ => [] end).

(** The output of the address before the blocks. *)
Definition sx_stxo : StoredTxOut :=
  mkStxo UINT32_MAX (enc_txout (sx_out 65 30)) 0 0 1 0 sx_old (spentness_val TXOUT_UNSPENT) false [] [] (getScrAddr sx_ref) 0 1 [].
Definition sx_utxos : utxo_map := [(sx_old, [(0, sx_stxo)])].
Definition sx_heights : list Z := [1; 2].

Example sx_views : length (outs_of sx_view sx_heights) = 4%nat /\ length (ins_of sx_view sx_heights) = 5%nat.
Proof. vm_compute. split; reflexivity. Qed.

Lemma sx_view_ok h : h = 1 \/ h = 2 -> view_ok sx_cfg sx_chain sx_view sx_batch h.
Proof.
  intros [-> | ->]; constructor; try (vm_compute; reflexivity); (split; [vm_compute; reflexivity|]);
    vm_compute; repeat split; discriminate.
Qed.

Lemma sx_utxos_find h i s : utxo_find h i sx_utxos = Some s -> (h, i, s) = (sx_old, 0, sx_stxo).
Proof.
  intros Hs. assert ((h, i, s) ∈ triples sx_utxos) as Hin.
  { apply elem_of_triples; [|done]. by repeat split; repeat constructor. }
  by apply list_elem_of_singleton in Hin.
Qed.

Lemma sx_utxo_ok : utxo_ok sx_cfg sx_utxos.
Proof.
  constructor.
  - by repeat split; repeat constructor.
  - intros h i s [= -> -> ->]%sx_utxos_find. split; [done|]. split; [done|]. split; [by repeat split|].
    exists (getScrAddr sx_ref). vm_compute. reflexivity.
  - intros h i s h' i' s' [= -> -> ->]%sx_utxos_find [= -> -> ->]%sx_utxos_find _. done.
Qed.

Lemma sx_ledger : ledger_valid (fun h i => utxo_find h i sx_utxos) (txs_of sx_view sx_heights).
Proof. apply ledger_validb; vm_compute; reflexivity. Qed.

Lemma sx_outs ev : ev ∈ outs_of sx_view sx_heights -> ev ∈ vw_outs (sx_view 1) \/ ev ∈ vw_outs (sx_view 2).
Proof.
  unfold outs_of. intros (h & Hin & Hh)%list_elem_of_bind.
  apply elem_of_cons in Hh as [->|Hh]; [by left|apply list_elem_of_singleton in Hh as ->; by right].
Qed.

Lemma sx_batch_ok : batch_ok sx_cfg sx_chain sx_view sx_batch sx_utxos sx_heights.
Proof.
  constructor.
  - unfold sx_heights. do 2 (apply Forall_cons; split; [apply sx_view_ok; tauto|]). apply Forall_nil; exact I.
  - apply (bool_decide_unpack _). vm_compute. exact I.
  - exact sx_ledger.
  - intros x y Hx Hy E.
    assert (forallb (fun x => forallb (fun y => negb (bool_decide (oe_hash x = oe_hash y))) (vw_outs (sx_view 2))) (vw_outs (sx_view 1)) = true)
      as Hd by (vm_compute; reflexivity).
    assert (forall x y, x ∈ vw_outs (sx_view 1) -> y ∈ vw_outs (sx_view 2) -> oe_hash x <> oe_hash y) as Hne.
    { intros x' y' Hx' Hy' E'. pose proof (forallb_in _ _ _ Hd Hx') as Hd1. cbv beta in Hd1.
      pose proof (forallb_in _ _ _ Hd1 Hy') as Hd2. cbv beta in Hd2. rewrite (bool_decide_eq_true_2 _ E') in Hd2. discriminate Hd2. }
    assert (forall h z, h = 1 \/ h = 2 -> z ∈ vw_outs (sx_view h) -> oe_header z = vw_header (sx_view h)) as Hh.
    { intros h z Hhh Hz. destruct (read_txs_events _ _ _ _ _ _ (vo_read _ _ _ _ _ (sx_view_ok h Hhh))) as [Hf _].
      rewrite Forall_forall in Hf. by apply Hf. }
    apply sx_outs in Hx, Hy.
    destruct Hx as [Hx|Hx], Hy as [Hy|Hy].
    + exact (eq_trans (Hh 1 x (or_introl eq_refl) Hx) (eq_sym (Hh 1 y (or_introl eq_refl) Hy))).
    + destruct (Hne x y Hx Hy E).
    + destruct (Hne y x Hy Hx (eq_sym E)).
    + exact (eq_trans (Hh 2 x (or_intror eq_refl) Hx) (eq_sym (Hh 2 y (or_intror eq_refl) Hy))).
  - apply Forall_forall. intros ev Hin. assert (forallb (fun ev => (oe_i ev <? 65535) && (oe_y ev <? 65535)) (outs_of sx_view sx_heights) = true)
      as Hf by (vm_compute; reflexivity). pose proof (forallb_in _ _ _ Hf Hin) as Hev. cbv beta in Hev.
    apply andb_true_iff in Hev as [H1 H2]. split; [exact (proj1 (Z.ltb_lt _ _) H1)|exact (proj1 (Z.ltb_lt _ _) H2)].
  - intros h i s [= -> -> ->]%sx_utxos_find j Hj. apply elem_of_cons in Hj as [->|Hj]; [|apply list_elem_of_singleton in Hj as ->];
      vm_compute; discriminate.
  - done.
Qed.

(** ** The scan *)

Definition sx_dups : stdmap Z Z := [(1, 0); (2, 0)].
Definition sx_addr : list byte := getScrAddr sx_ref.
Definition sx_ssh : StoredScriptHistory := set_totals 1 30 (set_ssh_key sx_addr StoredScriptHistory_new).

Lemma sx_main_branch : main_branch sx_cfg sx_view sx_utxos sx_heights sx_dups.
Proof.
  constructor.
  - intros h Hh. apply elem_of_cons in Hh as [->|Hh]; [|apply list_elem_of_singleton in Hh as ->]; vm_compute; reflexivity.
  - intros h Hh. apply elem_of_cons in Hh as [->|Hh]; [|apply list_elem_of_singleton in Hh as ->]; reflexivity.
  - vm_compute. reflexivity.
  - intros h i s a [[= -> -> ->]%sx_utxos_find|(ev & Hin & <- & <- & <-)%elem_of_oe_utxo] Ha.
    + assert (stxo_addr sx_cfg sx_stxo = Ok sx_addr) as E by (vm_compute; reflexivity). rewrite E in Ha. injection Ha as <-. reflexivity.
    + destruct (out_placed _ _ _ _ _ _ sx_batch_ok ev Hin) as (_ & _ & _ & _ & E & _). rewrite E in Ha. injection Ha as <-.
      assert (forallb (fun ev => zlen (oe_addr ev) <? 2 ^ 31) (outs_of sx_view sx_heights) = true) as Hf by (vm_compute; reflexivity).
      exact (proj1 (Z.ltb_lt _ _) (forallb_in _ _ _ Hf Hin)).
Qed.

(** Three threads read the outputs, two the inputs. *)
Lemma scan_batch_ledger_witness : exists batch' u' sps,
  processBatch sx_cfg [[2]; []; [1]] [[1]; [2]] sx_utxos sx_batch sx_chain = Ok ((batch', u'), sx_chain) /\
  utxo_find sx_old 0 u' = None /\ is_Some (utxo_find (txid sx_t3) 0 u') /\ utxo_find (txid sx_t1) 0 u' = None /\
  scanned sx_cfg sx_view sx_utxos sx_heights batch' u' sps.
Proof.
  destruct (scan_batch_ledger sx_cfg sx_chain sx_view sx_batch sx_utxos sx_heights sx_utxo_ok sx_batch_ok [[2]; []; [1]] [[1]; [2]])
    as (batch' & u' & sps & E & Hs); [apply Permutation_swap|reflexivity|].
  exists batch', u', sps. split; [exact E|]. rewrite !(sc_ledger _ _ _ _ _ _ _ Hs). split; [vm_compute; reflexivity|].
  split; [vm_compute; eexists; reflexivity|]. split; [vm_compute; reflexivity|exact Hs].
Defined.

(** The account of 30 goes to 20: 50, 20, 19 and 1 are received, 30, 20 and 50
    spent; the 20 in the block in which it is received. *)
Definition sx_tally : result (Z * Z) :=
  '((b, u), _) ← processBatch sx_cfg [[2]; []; [1]] [[1]; [2]] sx_utxos sx_batch sx_chain;
  m ← serialize_sshs sx_dups (sshMap_ b) [];
  ssh ← tally_entries sx_dups sx_ssh (filter (fun r => subssh_addr r.1 = sx_addr) (rows m));
  Ok (totalUnspent_ ssh, balance sx_cfg sx_addr u).

Lemma scan_moves_totals_witness : sx_tally = Ok (20, 20) /\ balance sx_cfg sx_addr sx_utxos = 30 /\
  exists batch' u' m ssh',
    processBatch sx_cfg [[2]; []; [1]] [[1]; [2]] sx_utxos sx_batch sx_chain = Ok ((batch', u'), sx_chain) /\
    serialize_sshs sx_dups (sshMap_ batch') [] = Ok m /\
    tally_entries sx_dups sx_ssh (filter (fun r => subssh_addr r.1 = sx_addr) (rows m)) = Ok ssh' /\
    totalUnspent_ ssh' = wrap 64 (30 + (balance sx_cfg sx_addr u' - balance sx_cfg sx_addr sx_utxos)).
Proof.
  split; [vm_compute; reflexivity|]. split; [vm_compute; reflexivity|].
  apply (scan_moves_totals sx_cfg sx_chain sx_view sx_batch sx_utxos sx_heights sx_dups [[2]; []; [1]] [[1]; [2]] sx_addr sx_ssh
    sx_utxo_ok sx_batch_ok sx_main_branch); [apply Permutation_swap|reflexivity|split; reflexivity || discriminate..].
Defined.

(** *** In two batches *)

Definition sx_one (n : Z) : ParserBatch := mkBatch (fileMaps_ sx_batch) n n [] [] [] [] (scriptRefMap_ sx_batch).
Definition sx_batches : list ScheduledBatch := [mkScheduled [[1]; []] [[]; [1]] (sx_one 1); mkScheduled [[2]] [[2]] (sx_one 2)].

Lemma sx_chain_ok : chain_ok sx_cfg sx_chain sx_view sx_batches [[1]; [2]] sx_utxos.
Proof.
  assert (forall n, n = 1 \/ n = 2 -> Forall (view_ok sx_cfg sx_chain sx_view (sx_one n)) [n]) as Hv.
  { intros n Hn. apply Forall_singleton. apply (view_ok_same _ _ _ sx_batch); [done|done|]. by apply sx_view_ok. }
  constructor.
  - apply Forall2_cons; split; [constructor; [done|done|by apply Hv; left|done]|].
    apply Forall2_cons; split; [constructor; [done|done|by apply Hv; right|done]|]. by apply Forall2_nil.
  - exact (bk_heights _ _ _ _ _ _ sx_batch_ok).
  - exact sx_ledger.
  - exact (bk_hashes _ _ _ _ _ _ sx_batch_ok).
  - exact (bk_index _ _ _ _ _ _ sx_batch_ok).
  - exact (bk_older _ _ _ _ _ _ sx_batch_ok).
Qed.

Lemma scan_chain_ledger_witness : exists done u',
  processBatches sx_cfg sx_batches sx_utxos sx_chain = Ok ((done, u'), sx_chain) /\ length done = 2%nat /\
  utxo_find sx_old 0 u' = None /\ utxo_find (txid sx_t1) 0 u' = None /\ is_Some (utxo_find (txid sx_t5) 1 u').
Proof.
  destruct (scan_chain_ledger sx_cfg sx_chain sx_view sx_batches [[1]; [2]] sx_utxos sx_utxo_ok sx_chain_ok)
    as (done & u' & E & El & _ & Hl).
  exists done, u'. split; [exact E|]. split; [exact El|]. rewrite !Hl. split; [vm_compute; reflexivity|].
  split; [vm_compute; reflexivity|]. vm_compute. eexists; reflexivity.
Defined.
