(* ===== verification/TxClassesProps.v ===== *)
(** * TxClassesProps: the theorems about transactions as objects

    A [Tx] that was read from a serialised transaction keeps exactly its bytes;
    its accessors, its inputs and its outputs give back the parts, its hash is
    the transaction's id, and it comes back from the bytes that hold it with
    its key. *)

From S2P Require Import Prelude BinaryData BinaryIO Hashing StdMap DBUtils BlockHeader TxLength ScriptUtils.
From S2P Require Import TxFilter BlockData BlockDataProps TxClasses.

Section props.
Context `{HashFns} (cfg : Config).

(** The object of a transaction, with the other members of [t]. *)
Definition tx_object (tx : Tx) (t : TxObj) : TxObj :=
  mkTxObj (enc_tx tx) true (segwit tx) (Some (le_val (tx_version tx))) (Some (le_val (tx_locktime tx))) (t_thisHash t)
    (tx_offsets tx) (t_txRefObj t) (t_txTime t) (t_isRBF t) (t_isChainedZc t).

(** ** Reading *)

Lemma enc_tx_size tx : tx_ok tx ->
  zlen (enc_tx tx) = wits_start tx + zlen (enc_wits tx) + 4 /\
  wits_start tx = 4 + zlen (enc_marker tx) + zlen (enc_inouts tx) /\ 10 <= zlen (enc_tx tx).
Proof.
  intros Hok. pose proof (ok_version tx Hok) as Hv. pose proof (ok_locktime tx Hok) as Hlt.
  rewrite (wits_start_parts tx Hok), enc_tx_parts, !zlen_app, Hv, Hlt. unfold enc_inouts. rewrite !zlen_app, !zlen_var_int_bytes.
  pose proof (calcVarIntSize_range (zlen (tx_ins tx))). pose proof (calcVarIntSize_range (zlen (tx_outs tx))).
  pose proof (zlen_nonneg (concat (map enc_txin (tx_ins tx)))). pose proof (zlen_nonneg (concat (map enc_txout (tx_outs tx)))).
  pose proof (zlen_nonneg (enc_marker tx)). pose proof (zlen_nonneg (enc_wits tx)). lia.
Qed.

Lemma t_unserialize_ok tx tl t : tx_ok tx -> zlen (enc_tx tx ++ tl) < two64 ->
  t_unserialize (enc_tx tx ++ tl) t = Ok (tx_object tx t).
Proof.
  intros Hok Hl. destruct (enc_tx_size tx Hok) as (Hz & Hw & Hmin). pose proof (ok_size tx Hok) as Hs. pose proof (zlen_nonneg tl).
  unfold t_unserialize. rewrite TxCalcLength_at by done. cbn [mbind result_bind]. rewrite wrap_small by (unfold is_uint; lia).
  rewrite (proj2 (Z.ltb_ge _ (zlen (enc_tx tx)))), (proj2 (Z.ltb_ge _ 8)) by (rewrite zlen_app; lia).
  destruct (raw_marker tx Hok tl) as (m & -> & Ebit). cbn [mbind result_bind]. rewrite raw_version by done. cbn [mbind result_bind].
  cbn [offsetsWitness tx_offsets]. rewrite offsets_last. fold (enc_wits tx).
  replace (wits_start tx + zlen (enc_wits tx)) with (zlen (enc_tx tx) - 4) by lia.
  replace (zlen (enc_tx tx ++ tl) - (zlen (enc_tx tx) - 4)) with (zlen tl + 4) by (rewrite zlen_app; lia).
  rewrite wrap_small by (unfold is_uint, two64 in *; rewrite zlen_app in *; lia). rewrite (proj2 (Z.ltb_ge _ 4)) by lia.
  rewrite raw_locktime by done. cbn [mbind result_bind]. rewrite Ebit, take_app_le, take_ge by (unfold zlen; lia). done.
Qed.

(** A reader goes on behind the transaction. *)
Lemma t_unserialize_parses tx t : tx_ok tx -> parses (t_unserialize_brr t) (enc_tx tx) (tx_object tx t).
Proof.
  intros Hok pre post Hl. unfold t_unserialize_brr. rewrite curr_ptr_at. rewrite !zlen_app in Hl. pose proof (zlen_nonneg pre).
  rewrite t_unserialize_ok by (rewrite ?zlen_app; (done || lia)). cbn [mbind result_bind t_dataCopy tx_object]. do 2 f_equal.
  apply brr_advance_at. rewrite !zlen_app. lia.
Qed.

(** ** The hash *)

Lemma serializeNoWitness_ok tx t : tx_ok tx -> segwit tx = true ->
  serializeNoWitness (tx_object tx t) = Ok (enc_tx (strip_witness tx)).
Proof.
  intros Hok Hsw. destruct (enc_tx_size tx Hok) as (Hz & Hw & _). pose proof (ok_size tx Hok) as Hs.
  pose proof (ok_version tx Hok) as Hv. pose proof (ok_locktime tx Hok) as Hlt.
  unfold serializeNoWitness. cbn [t_isInitialized negb t_version t_lockTime t_offsets tx_object offsetsOut tx_offsets].
  rewrite offsets_last. change (outs_start tx + zlen (concat (map enc_txout (tx_outs tx)))) with (wits_start tx).
  unfold segwit in Hsw. assert (enc_marker tx = [z2b 0; z2b 1]) as Emk by (unfold enc_marker; by destruct (tx_witnesses tx)).
  rewrite Emk in Hw. change (zlen [z2b 0; z2b 1]) with 2 in Hw. pose proof (zlen_nonneg (enc_wits tx)). pose proof (zlen_nonneg (enc_inouts tx)).
  rewrite wrap_small by (unfold is_uint; lia). cbn [t_dataCopy tx_object].
  rewrite (raw_read_mid (tx_version tx ++ enc_marker tx) (enc_inouts tx) (enc_wits tx ++ tx_locktime tx)).
  - cbn [mbind result_bind]. rewrite !append_app, enc_strip_parts. f_equal.
    rewrite <- (le_bytes_le_val (tx_version tx)) at 2. rewrite <- (le_bytes_le_val (tx_locktime tx)) at 2.
    rewrite <- app_assoc. by replace (length (tx_version tx)) with 4%nat by (unfold zlen in Hv; lia);
      replace (length (tx_locktime tx)) with 4%nat by (unfold zlen in Hlt; lia).
  - rewrite enc_tx_parts. by rewrite <- !app_assoc.
  - rewrite zlen_app, Hv, Emk. done.
  - lia.
Qed.

Lemma t_getThisHash_ok tx t : tx_ok tx -> t_thisHash t = [] ->
  t_getThisHash (tx_object tx t) = Ok (txid tx, set_thisHash (txid tx) (tx_object tx t)).
Proof.
  intros Hok Ht. unfold t_getThisHash. cbn [t_thisHash t_usesWitness t_dataCopy tx_object]. rewrite Ht. change (zlen [] =? 0) with true. cbv iota.
  destruct (segwit tx) eqn:Hsw; [by rewrite serializeNoWitness_ok|]. cbn [mbind result_bind]. unfold txid.
  assert (strip_witness tx = tx) as -> by (unfold strip_witness, segwit in *; destruct tx as [? ? ? [|] ?]; done). done.
Qed.

(** The hash that was computed is kept, also when another transaction is read. *)
Lemma t_getThisHash_kept t : zlen (t_thisHash t) <> 0 -> t_getThisHash t = Ok (t_thisHash t, t).
Proof. intros Ht. unfold t_getThisHash. by rewrite (proj2 (Z.eqb_neq _ _) Ht). Qed.

(** ** Inputs and outputs *)

Lemma offset_at_item p items i : (i <= length items)%nat ->
  offset_at (offsets p items) (Z.of_nat i) = Ok (p + zlen (concat (take i items))).
Proof.
  unfold offset_at. rewrite znth_nat. revert p i.
  induction items as [|x items IH]; intros p [|i] Hi; cbn [length offsets lookup list_lookup take concat] in *; try lia;
    rewrite ?zlen_nil, ?Z.add_0_r; try done.
  rewrite (IH _ i) by lia. by rewrite zlen_app, Z.add_assoc.
Qed.

Lemma zlen_offsets p items : zlen (offsets p items) = zlen items + 1.
Proof. revert p. induction items as [|x items IH]; intros p; cbn [offsets]; [done|]. rewrite !zlen_cons, IH. lia. Qed.

(** The number of inputs or outputs that the offsets tell. *)
Lemma object_count {A} p (enc : A -> list byte) l : zlen l < two64 -> wrap 64 (zlen (offsets p (map enc l)) - 1) = zlen l.
Proof.
  intros Hl. rewrite zlen_offsets. replace (zlen (map enc l)) with (zlen l) by (unfold zlen; by rewrite length_map).
  pose proof (zlen_nonneg l). rewrite Z.add_simpl_r. apply wrap_small. unfold is_uint, two64 in *. lia.
Qed.

Lemma part_at_item {A} (enc : A -> list byte) l i x pre post p t : t_dataCopy t = pre ++ concat (map enc l) ++ post ->
  p = zlen pre -> zlen (t_dataCopy t) < two32 -> l !! i = Some x ->
  exists rest, part_at (offsets p (map enc l)) (Z.of_nat i) t = Ok (enc x ++ rest, zlen (enc x)) /\ zlen (enc x ++ rest) < two32.
Proof.
  intros Hd -> Hl Hi. pose proof (lookup_lt_Some _ _ _ Hi) as Hlt. apply list_elem_of_split_length in Hi as (l1 & l2 & -> & ->).
  rewrite length_app in Hlt. cbn [length] in Hlt. rewrite map_app, concat_app in *. cbn [map concat] in *.
  exists (concat (map enc l2) ++ post). unfold part_at. replace (Z.of_nat (length l1) + 1) with (Z.of_nat (S (length l1))) by lia.
  rewrite !offset_at_item by (rewrite length_app; cbn [length]; rewrite !length_map; lia). cbn [mbind result_bind].
  assert (take (length l1) (map enc l1 ++ enc x :: map enc l2) = map enc l1) as -> by (apply take_app_length'; by rewrite length_map).
  assert (take (S (length l1)) (map enc l1 ++ enc x :: map enc l2) = map enc l1 ++ [enc x]) as ->.
  { rewrite (cons_middle (enc x)), app_assoc. apply take_app_length'. rewrite length_app, length_map. cbn [length]. lia. }
  rewrite concat_app, !zlen_app. cbn [concat]. rewrite app_nil_r.
  rewrite Hd in *. rewrite !zlen_app in Hl. pose proof (zlen_nonneg pre). pose proof (zlen_nonneg (concat (map enc l1))). pose proof (zlen_nonneg (enc x)).
  pose proof (zlen_nonneg (concat (map enc l2))). pose proof (zlen_nonneg post). split; [|lia]. do 2 f_equal.
  - rewrite <- zlen_app, <- !app_assoc, (app_assoc pre). apply drop_pre.
  - rewrite wrap_small; unfold is_uint, two32 in *; lia.
Qed.

Definition txin_object (x : TxIn) (type : TXIN_SCRIPT_TYPE) (i : Z) : TxInObj :=
  mkTxInObj (enc_txin x) [] 0xffffffff i type (36 + calcVarIntSize (zlen (txin_script x))) [].

Lemma readVarIntLength_var_bytes bs tl : is_uint 64 (zlen bs) -> readVarIntLength (var_bytes bs ++ tl) = Ok (calcVarIntSize (zlen bs)).
Proof.
  intros Hb. unfold is_uint in Hb. unfold readVarIntLength, var_bytes, var_int_bytes, calcVarIntSize.
  destruct (Z.ltb_spec (zlen bs) 0xfd); [|destruct (Z.leb_spec (zlen bs) 0xffff); [|destruct (Z.leb_spec (zlen bs) 0xffffffff)]];
    cbn [app]; rewrite at_cons_0; cbn [mbind result_bind]; rewrite b2z_z2b_small by lia; zsimp; try done.
Qed.

Lemma txin_varint x : txin_ok x -> drop 36 (enc_txin x) = var_bytes (txin_script x) ++ txin_sequence x.
Proof. intros (Ho & _). by apply drop_exact. Qed.

Lemma input_script_ok x : txin_ok x ->
  input_script (enc_txin x) (36 + calcVarIntSize (zlen (txin_script x))) = Ok (txin_script x).
Proof.
  intros Hx. pose proof Hx as (Ho & Hq & Hs). pose proof (zlen_nonneg (txin_script x)). pose proof (calcVarIntSize_range (zlen (txin_script x))).
  unfold input_script. rewrite txin_varint by done. unfold enc_txin. rewrite zlen_app, Ho.
  replace (36 + zlen (var_bytes (txin_script x) ++ txin_sequence x) - 36) with (zlen (var_bytes (txin_script x) ++ txin_sequence x)) by lia.
  rewrite wrap_small by (unfold is_uint; rewrite zlen_app, var_bytes_len, Hq; lia).
  rewrite readVarInt_var_bytes by (unfold is_uint; lia). cbn [mbind result_bind]. rewrite (wrap_small 32) by (unfold is_uint; lia).
  apply (raw_read_mid (txin_outpoint x ++ var_int_bytes (zlen (txin_script x))) _ (txin_sequence x)); [|
    by rewrite zlen_app, zlen_var_int_bytes, Ho|done].
  unfold var_bytes. by rewrite <- !app_assoc.
Qed.

Lemma ti_unserialize_ok x rest i : txin_ok x -> zlen (enc_txin x ++ rest) < two32 ->
  ti_unserialize_checked (enc_txin x ++ rest) (zlen (enc_txin x)) [] i TxInObj_new =
  (type ← getTxInScriptType (txin_script x) (take 32 (txin_outpoint x)); Ok (txin_object x type i)).
Proof.
  intros Hx Hl. pose proof Hx as (Ho & Hq & Hs). pose proof (zlen_nonneg (txin_script x)).
  pose proof (zlen_nonneg rest). pose proof (calcVarIntSize_range (zlen (txin_script x))).
  assert (zlen (enc_txin x) = 40 + calcVarIntSize (zlen (txin_script x)) + zlen (txin_script x)) as Hz
    by (unfold enc_txin; rewrite !zlen_app, var_bytes_len, Ho, Hq; lia).
  unfold ti_unserialize_checked. pose proof (zlen_nonneg (enc_txin x ++ rest)).
  rewrite (wrap_small 32) by (unfold is_uint, two32 in *; lia). rewrite (take_ge (enc_txin x ++ rest)) by (unfold zlen; lia).
  rewrite (proj2 (Z.eqb_neq (zlen (enc_txin x)) 0)) by lia. cbn [mbind result_bind].
  rewrite (proj2 (Z.ltb_ge _ (zlen (enc_txin x)))) by (rewrite zlen_app; lia).
  rewrite take_app_le, take_ge by (unfold zlen; lia). rewrite wrap_small by (unfold is_uint; lia).
  rewrite (proj2 (Z.ltb_ge _ 1)), (proj2 (Z.ltb_ge _ 32)) by lia.
  rewrite txin_varint by done. rewrite readVarIntLength_var_bytes by (unfold is_uint; lia).
  cbn [mbind result_bind]. rewrite input_script_ok by done. cbn [mbind result_bind].
  rewrite (raw_read_mid [] (take 32 (txin_outpoint x)) (drop 32 (txin_outpoint x) ++ var_bytes (txin_script x) ++ txin_sequence x)).
  - reflexivity.
  - rewrite app_nil_l, (app_assoc (take 32 _)), take_drop. done.
  - done.
  - unfold zlen in *. rewrite length_take. lia.
Qed.

(** What is made of an input: it throws where the type of its script does. *)
Lemma getTxInCopy_ok tx t i x : tx_ok tx -> t_txRefObj t = [] -> tx_ins tx !! i = Some x ->
  getTxInCopy (Z.of_nat i) (tx_object tx t) =
  (type ← getTxInScriptType (txin_script x) (take 32 (txin_outpoint x)); Ok (txin_object x type (Z.of_nat i), tx_object tx t)).
Proof.
  intros Hok Ht Hi. unfold getTxInCopy. cbn [t_offsets t_txRefObj tx_object offsetsIn tx_offsets]. rewrite Ht.
  pose proof (ok_size tx Hok) as Hs. pose proof (ins_split tx []) as Hd. rewrite app_nil_r in Hd.
  destruct (part_at_item enc_txin (tx_ins tx) i x _ _ (ins_start tx) (tx_object tx t) Hd (ins_start_parts tx Hok)) as (rest & -> & Hr);
    [cbn [t_dataCopy tx_object]; unfold two32; lia|done|]. cbn [mbind result_bind].
  rewrite ti_unserialize_ok; [|by apply (Forall_lookup_1 _ _ _ _ (ok_ins tx Hok) Hi)|done].
  by destruct (getTxInScriptType _ _).
Qed.

Lemma txin_object_parts x type i : txin_ok x ->
  ti_getScript (txin_object x type i) = Ok (txin_script x) /\ ti_getScriptSize (txin_object x type i) = zlen (txin_script x) /\
  ti_getOutPoint (txin_object x type i) = Ok (mkOutPoint (take 32 (txin_outpoint x)) (le_val (drop 32 (txin_outpoint x)))) /\
  ti_getSequence (txin_object x type i) = Ok (le_val (txin_sequence x)).
Proof.
  intros Hx. pose proof Hx as (Ho & Hq & Hs). pose proof (zlen_nonneg (txin_script x)). pose proof (calcVarIntSize_range (zlen (txin_script x))).
  assert (zlen (enc_txin x) = 40 + calcVarIntSize (zlen (txin_script x)) + zlen (txin_script x)) as Hz
    by (unfold enc_txin; rewrite !zlen_app, var_bytes_len, Ho, Hq; lia).
  split; [by apply input_script_ok|]. split; [|split].
  - unfold ti_getScriptSize. cbn [ti_dataCopy ti_scriptOffset txin_object]. rewrite (wrap_small 32) by (unfold is_uint; lia).
    rewrite wrap_small by (unfold is_uint; lia). lia.
  - unfold ti_getOutPoint, outpoint_unserialize. cbn [ti_dataCopy txin_object]. rewrite (proj2 (Z.ltb_ge _ _)) by lia.
    assert (enc_txin x = take 32 (txin_outpoint x) ++ drop 32 (txin_outpoint x) ++ var_bytes (txin_script x) ++ txin_sequence x) as E
      by (unfold enc_txin; by rewrite (app_assoc (take 32 _)), take_drop).
    assert (zlen (take 32 (txin_outpoint x)) = 32 /\ zlen (drop 32 (txin_outpoint x)) = 4) as [E1 E2]
      by (unfold zlen in *; rewrite length_take, length_drop; lia).
    rewrite (raw_read_mid [] (take 32 (txin_outpoint x)) (drop 32 (txin_outpoint x) ++ var_bytes (txin_script x) ++ txin_sequence x) _ 0)
      by first [exact E | reflexivity | by rewrite E1].
    cbn [mbind result_bind].
    by rewrite (raw_read_mid (take 32 (txin_outpoint x)) (drop 32 (txin_outpoint x)) (var_bytes (txin_script x) ++ txin_sequence x))
      by first [exact E | by rewrite E1 | by rewrite E2].
  - unfold ti_getSequence. cbn [ti_dataCopy txin_object].
    rewrite (raw_read_mid (txin_outpoint x ++ var_bytes (txin_script x)) (txin_sequence x) []); [done| | |done].
    + unfold enc_txin. by rewrite app_nil_r, <- app_assoc.
    + rewrite Hz, zlen_app, var_bytes_len, Ho. lia.
Qed.

Definition txout_object (tx : Tx) (x : TxOut) (type : TXOUT_SCRIPT_TYPE) (addr : list byte) (i : Z) : TxOutObj :=
  mkTxOutObj (enc_txout x) (txid tx) (Some 0xffffffff) addr type (8 + calcVarIntSize (zlen (txout_script x))) i [].

Lemma output_size x : txout_ok x ->
  zlen (enc_txout x) = 8 + calcVarIntSize (zlen (txout_script x)) + zlen (txout_script x) /\
  output_script_size (zlen (enc_txout x)) (8 + calcVarIntSize (zlen (txout_script x))) = zlen (txout_script x).
Proof.
  intros [Hv Hs]. pose proof (zlen_nonneg (txout_script x)). pose proof (calcVarIntSize_range (zlen (txout_script x))).
  assert (zlen (enc_txout x) = 8 + calcVarIntSize (zlen (txout_script x)) + zlen (txout_script x)) as Hz
    by (unfold enc_txout; rewrite !zlen_app, var_bytes_len, Hv; lia).
  split; [done|]. unfold output_script_size. rewrite Hz, !wrap_small; unfold is_uint; rewrite ?wrap_small; unfold is_uint; lia.
Qed.

Lemma txout_script_read x : txout_ok x ->
  raw_read (enc_txout x) (8 + calcVarIntSize (zlen (txout_script x))) (zlen (txout_script x)) = Ok (txout_script x).
Proof.
  intros [Hv Hs]. apply (raw_read_mid (txout_value x ++ var_int_bytes (zlen (txout_script x))) _ []); [|
    by rewrite zlen_app, zlen_var_int_bytes, Hv|done].
  unfold enc_txout, var_bytes. by rewrite app_nil_r, <- app_assoc.
Qed.

(** The classification of an output script and its address. *)
Definition output_address (script : list byte) : result (TXOUT_SCRIPT_TYPE * list byte) :=
  type ← getTxOutScriptType script; addr ← getTxOutScrAddr cfg script TXOUT_SCRIPT_NONSTANDARD; Ok (type, addr).

Lemma to_unserialize_ok x rest i : txout_ok x -> zlen (enc_txout x ++ rest) < two32 ->
  to_unserialize_checked cfg (enc_txout x ++ rest) (zlen (enc_txout x)) [] i TxOutObj_new =
  ('(type, addr) ← output_address (txout_script x);
   Ok (mkTxOutObj (enc_txout x) [] (Some 0xffffffff) addr type (8 + calcVarIntSize (zlen (txout_script x))) i [])).
Proof.
  intros Hx Hl. pose proof (output_size x Hx) as [Hz Hsz]. pose proof (zlen_nonneg (txout_script x)). pose proof (zlen_nonneg rest).
  pose proof (calcVarIntSize_range (zlen (txout_script x))). pose proof Hx as [Hv Hs].
  unfold to_unserialize_checked. pose proof (zlen_nonneg (enc_txout x ++ rest)).
  rewrite (wrap_small 32) by (unfold is_uint, two32 in *; lia). rewrite (take_ge (enc_txout x ++ rest)) by (unfold zlen; lia).
  rewrite (proj2 (Z.eqb_neq (zlen (enc_txout x)) 0)) by lia. cbn [mbind result_bind].
  rewrite (proj2 (Z.ltb_ge _ (zlen (enc_txout x)))) by (rewrite zlen_app; lia).
  rewrite take_app_le, take_ge by (unfold zlen; lia).
  assert (drop 8 (enc_txout x) = var_bytes (txout_script x) ++ []) as -> by (rewrite app_nil_r; by apply drop_exact).
  rewrite readVarIntLength_var_bytes by (unfold is_uint; lia). cbn [mbind result_bind]. rewrite Hsz.
  replace (zlen (enc_txout x) - _ - _) with 0 by lia. rewrite wrap_small, (proj2 (Z.ltb_ge _ 0)) by (unfold is_uint; lia).
  rewrite txout_script_read by done. unfold output_address. cbn [mbind result_bind].
  destruct (getTxOutScriptType _); [|done]. cbn [mbind result_bind]. by destruct (getTxOutScrAddr _ _ _).
Qed.

(** The hash of the transaction, computed or kept. *)
Definition hash_known (tx : Tx) (t : TxObj) : Prop := t_thisHash t = [] \/ t_thisHash t = txid tx.

Lemma t_getThisHash_known tx t : tx_ok tx -> hash_known tx t ->
  t_getThisHash (tx_object tx t) = Ok (txid tx, tx_object tx (set_thisHash (txid tx) t)).
Proof.
  intros Hok [Ht|Ht]; [by rewrite t_getThisHash_ok|]. unfold tx_object at 1. rewrite t_getThisHash_kept; cbn [t_thisHash]; rewrite Ht.
  - done.
  - rewrite zlen_txid. done.
Qed.

Lemma getTxOutCopy_ok tx t i x : tx_ok tx -> t_txRefObj t = [] -> hash_known tx t -> tx_outs tx !! i = Some x ->
  getTxOutCopy cfg (Z.of_nat i) (tx_object tx t) =
  ('(type, addr) ← output_address (txout_script x);
   Ok (txout_object tx x type addr (Z.of_nat i), tx_object tx (set_thisHash (txid tx) t))).
Proof.
  intros Hok Ht Hh Hi. unfold getTxOutCopy. cbn [t_offsets tx_object offsetsOut tx_offsets].
  pose proof (ok_size tx Hok) as Hs. pose proof (outs_split tx []) as Hd. rewrite app_nil_r in Hd. pose proof (lookup_lt_Some _ _ _ Hi) as Hlt.
  destruct (tx_counts tx Hok) as (_ & Hno & _).
  rewrite object_count by (unfold two64; lia). rewrite wrap_small by (unfold is_uint, zlen in *; lia). rewrite (proj2 (Z.leb_gt _ _)) by (unfold zlen; lia).
  destruct (part_at_item enc_txout (tx_outs tx) i x _ _ (outs_start tx) (tx_object tx t) Hd (outs_start_parts tx Hok)) as (rest & E & Hr);
    [cbn [t_dataCopy tx_object]; unfold two32; lia|done|]. rewrite E. cbn [mbind result_bind]. change (t_txRefObj (tx_object tx t)) with (t_txRefObj t). rewrite Ht.
  rewrite to_unserialize_ok; [|by apply (Forall_lookup_1 _ _ _ _ (ok_outs tx Hok) Hi)|done].
  destruct (output_address _) as [[type addr]|]; [|done]. cbn [mbind result_bind].
  rewrite t_getThisHash_known by done. cbn [mbind result_bind].
  change (t_txRefObj (tx_object tx (set_thisHash (txid tx) t))) with (t_txRefObj t). by rewrite Ht.
Qed.

Lemma txout_object_parts tx x type addr i : txout_ok x ->
  to_getScript (txout_object tx x type addr i) = Ok (txout_script x) /\
  to_getScriptSize (txout_object tx x type addr i) = zlen (txout_script x) /\
  to_getValue (txout_object tx x type addr i) = Ok (le_val (txout_value x)).
Proof.
  intros Hx. pose proof Hx as [Hv Hs]. destruct (output_size x Hx) as [_ Hsz].
  assert (to_getScriptSize (txout_object tx x type addr i) = zlen (txout_script x)) as E by exact Hsz.
  split; [|split; [done|]].
  - unfold to_getScript. rewrite E. by apply txout_script_read.
  - unfold to_getValue. cbn [to_dataCopy txout_object]. unfold enc_txout.
    by rewrite (raw_read_mid [] (txout_value x) (var_bytes (txout_script x))).
Qed.

(** ** All inputs, all outputs *)

Definition total_value (l : list TxOut) : Z := foldr (fun x s => le_val (txout_value x) + s) 0 l.

(** What the first script throws that cannot be classified. *)
Fixpoint unclassified (l : list TxOut) : option exn :=
  match l with
  | [] => None
  | x :: l => match output_address (txout_script x) with Err e => Some e | Ok _ => unclassified l end
  end.

Lemma sum_outputs_ok tx l i acc t : tx_ok tx -> t_txRefObj t = [] -> hash_known tx t -> drop i (tx_outs tx) = l ->
  let sum := sum_outputs cfg (length l) (Z.of_nat i) (wrap 64 acc) (tx_object tx t) in
  match unclassified l with
  | Some e => sum = Err e
  | None => exists t', sum = Ok (wrap 64 (acc + total_value l), tx_object tx t')
  end.
Proof.
  intros Hok. revert i acc t. induction l as [|x l IH]; intros i acc t Ht Hh Hd.
  - exists t. cbn [length sum_outputs total_value foldr]. by rewrite Z.add_0_r.
  - assert (tx_outs tx !! i = Some x) as Hi by (rewrite <- (Nat.add_0_r i), <- lookup_drop; by rewrite Hd).
    cbn [length sum_outputs unclassified]. rewrite (getTxOutCopy_ok tx t i x) by done.
    destruct (output_address (txout_script x)) as [[type addr]|e]; [|done]. cbn [mbind result_bind].
    destruct (txout_object_parts tx x type addr (Z.of_nat i)) as (_ & _ & ->); [by apply (Forall_lookup_1 _ _ _ _ (ok_outs tx Hok) Hi)|].
    cbn [mbind result_bind]. replace (Z.of_nat i + 1) with (Z.of_nat (S i)) by lia.
    replace (wrap 64 (wrap 64 acc + le_val (txout_value x))) with (wrap 64 (acc + le_val (txout_value x)))
      by (unfold wrap; by rewrite Zplus_mod_idemp_l).
    unfold total_value. cbn [foldr]. fold (total_value l). rewrite Z.add_assoc.
    apply IH; [done|by right|]. apply drop_S with (x := x) in Hi as E. rewrite Hd in E. by injection E.
Qed.

Definition replaceable_input (x : TxIn) : bool := le_val (txin_sequence x) <? 0xfffffffe.

Lemma replaceable_ok l pre post : Forall txin_ok l -> zlen (pre ++ concat (map enc_txin l) ++ post) < two32 ->
  replaceable (pre ++ concat (map enc_txin l) ++ post) (tail (offsets (zlen pre) (map enc_txin l))) = Ok (existsb replaceable_input l).
Proof.
  revert pre. induction l as [|x l IH]; intros pre Hl Hz; [done|]. apply Forall_cons in Hl as [Hx Hl]. pose proof Hx as (Ho & Hq & Hs).
  cbn [map concat] in *. rewrite offsets_cons. cbn [tail]. rewrite <- (app_assoc (enc_txin x)) in *. rewrite (app_assoc pre) in *. rewrite <- zlen_app.
  assert (offsets (zlen (pre ++ enc_txin x)) (map enc_txin l) =
    zlen (pre ++ enc_txin x) :: tail (offsets (zlen (pre ++ enc_txin x)) (map enc_txin l))) as -> by by destruct l.
  cbn [replaceable existsb]. specialize (IH (pre ++ enc_txin x) Hl Hz).
  rewrite zlen_app in Hz. pose proof (zlen_nonneg (concat (map enc_txin l) ++ post)). pose proof (zlen_nonneg pre).
  pose proof (zlen_nonneg (var_bytes (txin_script x))).
  assert (zlen (pre ++ enc_txin x) = zlen pre + 36 + zlen (var_bytes (txin_script x)) + 4) as Ez
    by (unfold enc_txin; rewrite !zlen_app, Ho, Hq; lia).
  rewrite wrap_small by (unfold is_uint, two32 in *; lia).
  rewrite (raw_read_mid (pre ++ txin_outpoint x ++ var_bytes (txin_script x)) (txin_sequence x) (concat (map enc_txin l) ++ post)).
  - cbn [mbind result_bind]. unfold replaceable_input at 1. change (0xffffffff - 1) with 0xfffffffe. by destruct (_ <? _).
  - unfold enc_txin. by rewrite <- !app_assoc.
  - rewrite Ez, !zlen_app, Ho. lia.
  - done.
Qed.

Lemma isRBF_ok tx t : tx_ok tx -> t_isRBF t = false -> isRBF (tx_object tx t) = Ok (existsb replaceable_input (tx_ins tx)).
Proof.
  intros Hok Ht. unfold isRBF. cbn [t_isRBF t_offsets t_dataCopy tx_object offsetsIn tx_offsets]. rewrite Ht.
  pose proof (ok_size tx Hok) as Hs. pose proof (ins_split tx []) as Hd. rewrite app_nil_r in Hd.
  assert (offsets (ins_start tx) (map enc_txin (tx_ins tx)) =
    ins_start tx :: tail (offsets (ins_start tx) (map enc_txin (tx_ins tx)))) as -> by by destruct (tx_ins tx).
  rewrite (ins_start_parts tx Hok), Hd. apply replaceable_ok; [apply Hok|]. rewrite <- Hd. unfold two32. lia.
Qed.

Lemma t_isCoinbase_ok tx t x l : tx_ok tx -> tx_ins tx = x :: l ->
  t_isCoinbase (tx_object tx t) = Ok (equal (take 32 (txin_outpoint x)) EmptyHash).
Proof.
  intros Hok Hi. unfold t_isCoinbase. cbn [t_isInitialized t_offsets t_dataCopy tx_object offsetsIn tx_offsets negb].
  pose proof (ins_split tx []) as Hd. rewrite app_nil_r in Hd.
  assert (txin_ok x) as (Ho & _) by (pose proof (ok_ins tx Hok) as Hf; rewrite Hi in Hf; by inversion Hf).
  assert (offset_at (offsets (ins_start tx) (map enc_txin (tx_ins tx))) 0 = Ok (ins_start tx)) as -> by by rewrite Hi.
  cbn [mbind result_bind]. rewrite (raw_read_mid (tx_version tx ++ enc_marker tx ++ var_int_bytes (zlen (tx_ins tx))) (take 32 (txin_outpoint x))
    (drop 32 (txin_outpoint x) ++ var_bytes (txin_script x) ++ txin_sequence x ++ concat (map enc_txin l) ++
     var_int_bytes (zlen (tx_outs tx)) ++ concat (map enc_txout (tx_outs tx)) ++ enc_wits tx ++ tx_locktime tx)).
  - done.
  - rewrite Hd, app_nil_r, Hi. cbn [map concat]. unfold enc_txin at 1. by rewrite (app_assoc (take 32 _)), take_drop, <- !app_assoc.
  - by apply ins_start_parts.
  - unfold zlen in *. rewrite length_take. lia.
Qed.

(** ** With the key of the database *)

Definition metadata_byte (isRBF isChained : bool) : list byte := [z2b ((if isRBF then 128 else 0) + (if isChained then 64 else 0))].

Definition with_metadata (key : list byte) (isRBF isChained : bool) (t : TxObj) : TxObj :=
  t_setTxRef key (t_setChainedZC isChained (t_setRBF isRBF t)).

Lemma read_metadata_parses key isRBF isChained t : zlen key = 6 ->
  parses (read_metadata t) (metadata_byte isRBF isChained ++ key) (with_metadata key isRBF isChained t).
Proof.
  intros Hk. unfold read_metadata. eapply parses_bind.
  - eapply parses_bind_ret; [by apply (brr_get_BinaryData_parses 1)|apply parses_ret].
  - change (Z.to_nat (8 / 8)) with 1%nat. assert (bu_getBit 8 (bu_setValue (StrToIntBE 1 (metadata_byte isRBF isChained))) =
      (isRBF, {| bu_intVal := StrToIntBE 1 (metadata_byte isRBF isChained); bitsRead_ := 1 |})) as -> by by destruct isRBF, isChained; vm_compute.
    assert (exists u, bu_getBit 8 ({| bu_intVal := StrToIntBE 1 (metadata_byte isRBF isChained); bitsRead_ := 1 |}) = (isChained, u)) as [u ->]
      by (destruct isRBF, isChained; eexists; vm_compute; reflexivity).
    eapply parses_bind_ret; [by apply brr_get_BinaryData_parses|apply parses_ret].
Qed.

Lemma serializeWithMetaData_ok t : zlen (t_txRefObj t) = 6 ->
  serializeWithMetaData t = metadata_byte (t_isRBF t) (t_isChainedZc t) ++ t_txRefObj t ++ t_dataCopy t.
Proof.
  intros Hk. unfold serializeWithMetaData. rewrite Hk. cbn [Z.eqb Pos.eqb negb]. rewrite !bw_put_BinaryData_str, <- app_assoc. f_equal.
  destruct (t_isRBF t), (t_isChainedZc t); vm_compute; reflexivity.
Qed.

(** What the server sends of a transaction, the client reads. *)
Theorem tx_metadata_roundtrip tx t t' : tx_ok tx -> zlen (t_txRefObj t) = 6 ->
  unserializeWithMetaData (serializeWithMetaData (tx_object tx t)) t' =
  Ok (tx_object tx (with_metadata (t_txRefObj t) (t_isRBF t) (t_isChainedZc t) t')).
Proof.
  intros Hok Hk. rewrite serializeWithMetaData_ok by done. cbn [t_isRBF t_isChainedZc t_txRefObj t_dataCopy tx_object].
  pose proof (ok_size tx Hok) as Hs. pose proof (zlen_nonneg (enc_tx tx)).
  set (b := metadata_byte (t_isRBF t) (t_isChainedZc t)). assert (zlen b = 1) as Hb by done.
  unfold unserializeWithMetaData. rewrite (proj2 (Z.ltb_ge _ 7)) by (rewrite !zlen_app; lia). rewrite brr_setNewData_at.
  pose proof (read_metadata_parses (t_txRefObj t) (t_isRBF t) (t_isChainedZc t) (not_initialized t') Hk [] (enc_tx tx)) as P.
  fold b in P. rewrite <- app_assoc in P. cbn [app] in P. rewrite P by (rewrite !zlen_app; unfold two64; lia). cbn [mbind result_bind].
  pose proof (t_unserialize_parses tx (with_metadata (t_txRefObj t) (t_isRBF t) (t_isChainedZc t) (not_initialized t')) Hok (b ++ t_txRefObj t) []) as Q.
  rewrite app_nil_r in Q. rewrite Q by (rewrite !zlen_app; unfold two64; lia). done.
Qed.

(** ** Properties *)

(** C34: reading a serialised transaction gives an object with exactly its
    bytes, whose accessors return the fields of the transaction and whose hash
    is its id.  Its inputs and outputs, made on demand, give back outpoint,
    script, sequence and value with the type of the script, or throw what the
    classification of that script throws.  The sum of the outputs is that of
    their values in 64 bits if every output script can be classified, and
    otherwise throws what the first one throws that cannot. *)
Theorem tx_object_correct tx tl : tx_ok tx -> zlen (enc_tx tx ++ tl) < two64 ->
  exists t, t_unserialize (enc_tx tx ++ tl) TxObj_new = Ok t /\ t_dataCopy t = enc_tx tx /\
  t_getVersion t = Ok (le_val (tx_version tx)) /\ t_getLockTime t = Ok (le_val (tx_locktime tx)) /\
  t_getNumTxIn t = zlen (tx_ins tx) /\ t_getNumTxOut t = zlen (tx_outs tx) /\
  isRBF t = Ok (existsb replaceable_input (tx_ins tx)) /\ (exists t', t_getThisHash t = Ok (txid tx, t')) /\
  (forall i x, tx_ins tx !! i = Some x ->
    match getTxInScriptType (txin_script x) (take 32 (txin_outpoint x)) with
    | Err e => getTxInCopy (Z.of_nat i) t = Err e
    | Ok type => exists o, getTxInCopy (Z.of_nat i) t = Ok (o, t) /\ ti_scriptType o = type /\ ti_getScript o = Ok (txin_script x) /\
        ti_getOutPoint o = Ok (mkOutPoint (take 32 (txin_outpoint x)) (le_val (drop 32 (txin_outpoint x)))) /\
        ti_getSequence o = Ok (le_val (txin_sequence x))
    end) /\
  (forall i x, tx_outs tx !! i = Some x ->
    match output_address (txout_script x) with
    | Err e => getTxOutCopy cfg (Z.of_nat i) t = Err e
    | Ok (type, addr) => exists o t', getTxOutCopy cfg (Z.of_nat i) t = Ok (o, t') /\ to_scriptType o = type /\
        to_uniqueScrAddr o = addr /\ to_getScript o = Ok (txout_script x) /\ to_getValue o = Ok (le_val (txout_value x)) /\
        to_parentHash o = txid tx
    end) /\
  match unclassified (tx_outs tx) with
  | Some e => getSumOfOutputs cfg t = Err e
  | None => exists t', getSumOfOutputs cfg t = Ok (wrap 64 (total_value (tx_outs tx)), t')
  end.
Proof.
  intros Hok Hl. exists (tx_object tx TxObj_new). destruct (tx_counts tx Hok) as (Hni & Hno & _).
  assert (t_getNumTxOut (tx_object tx TxObj_new) = zlen (tx_outs tx)) as En.
  { apply object_count. unfold two64. lia. }
  repeat match goal with |- _ /\ _ => split end.
  - by apply t_unserialize_ok.
  - done.
  - unfold t_getVersion. cbn [t_dataCopy tx_object]. pose proof (raw_version tx Hok []) as E. rewrite app_nil_r in E. by rewrite E.
  - done.
  - apply object_count. unfold two64. lia.
  - done.
  - by apply isRBF_ok.
  - eexists. by apply t_getThisHash_ok.
  - intros i x Hi. rewrite (getTxInCopy_ok tx TxObj_new i x) by done. destruct (getTxInScriptType _ _) as [type|]; [|done].
    eexists. split; [done|]. split; [done|].
    destruct (txin_object_parts x type (Z.of_nat i)) as (? & _ & ?); [|done]. by apply (Forall_lookup_1 _ _ _ _ (ok_ins tx Hok) Hi).
  - intros i x Hi. rewrite (getTxOutCopy_ok tx TxObj_new i x) by (done || by left). destruct (output_address _) as [[type addr]|]; [|done].
    eexists _, _. split; [done|]. split; [done|]. split; [done|].
    destruct (txout_object_parts tx x type addr (Z.of_nat i)) as (? & _ & ?); [|done]. by apply (Forall_lookup_1 _ _ _ _ (ok_outs tx Hok) Hi).
  - pose proof (sum_outputs_ok tx (tx_outs tx) 0 0 TxObj_new Hok eq_refl ltac:(by left) eq_refl) as E. cbv zeta in E.
    unfold getSumOfOutputs. rewrite En. unfold zlen. rewrite Nat2Z.id.
    destruct (unclassified (tx_outs tx)); [exact E|]. destruct E as [t' E]. by exists (tx_object tx t').
Qed.
End props.

(** *** Witnesses *)

(** A transaction that spends a witness program and pays to one. *)
Definition paying_tx : Tx :=
  mkTx (map z2b [2; 0; 0; 0]) [mkTxIn (replicate 32 (z2b 1) ++ map z2b [3; 0; 0; 0]) [] (map z2b [0xfd; 0xff; 0xff; 0xff])]
    [mkTxOut (map z2b [0x10; 0x27; 0; 0; 0; 0; 0; 0]) (p2wpkh_script some_hash)] (Some [[[z2b 7]]]) (replicate 4 (z2b 0)).

Lemma paying_tx_ok : tx_ok paying_tx.
Proof.
  constructor; [vm_compute; reflexivity|vm_compute; reflexivity|vm_compute; discriminate| | |vm_compute; reflexivity|vm_compute; reflexivity];
    (constructor; [repeat split; vm_compute; reflexivity|constructor]).
Qed.

Lemma tx_object_correct_witness : exists t, @t_unserialize (enc_tx paying_tx) TxObj_new = Ok t /\ isRBF t = Ok true /\
  (exists t', @getSumOfOutputs toy_hashes main_net t = Ok (10000, t')) /\
  (exists o, @getTxInCopy toy_hashes 0 t = Ok (o, t) /\ ti_scriptType o = TXIN_SCRIPT_WITNESS /\
     ti_getOutPoint o = Ok (mkOutPoint (replicate 32 (z2b 1)) 3)) /\
  (exists o t', @getTxOutCopy toy_hashes main_net 0 t = Ok (o, t') /\ to_scriptType o = TXOUT_SCRIPT_P2WPKH /\
     to_uniqueScrAddr o = z2b 0x90 :: some_hash).
Proof.
  destruct (@tx_object_correct toy_hashes main_net paying_tx [] paying_tx_ok) as
    (t & E & _ & _ & _ & _ & _ & Hr & _ & Hi & Ho & Hs); [vm_compute; reflexivity|].
  rewrite app_nil_r in E. exists t. split; [exact E|]. split; [rewrite Hr; vm_compute; reflexivity|]. split; [|split].
  - change (@unclassified toy_hashes main_net (tx_outs paying_tx)) with (@None exn) in Hs. destruct Hs as [t' Hs]. exists t'. exact Hs.
  - destruct (Hi 0%nat _ eq_refl) as (o & E1 & E2 & _ & E3 & _). exists o. split; [exact E1|]. split; [exact E2|exact E3].
  - destruct (Ho 0%nat _ eq_refl) as (o & t' & E1 & E2 & E3 & _). exists o, t'. split; [exact E1|]. split; [exact E2|exact E3].
Defined.
