(* ===== verification/Verifier.v ===== *)
(** * Verifier: verifying the signatures of a transaction

    The class [TransactionVerifier] (with [TransactionVerifier_BCH]) of
    cppForSwig/Transactions.h and Transactions.cpp: a parsed transaction and
    the outputs it spends, as a [TransactionStub] for the interpreter; and the
    struct [UTXO] of TxClasses.h. *)

From S2P Require Import Prelude BinaryData BinaryIO Hashing StdMap DBUtils BlockHeader TxLength TxFilter BlockData.
From S2P Require Import ScriptParser SigHash TxEvalState Interpreter.

Record UTXO := mkUTXO {
  utxo_txHash : list byte;
  txOutIndex_ : Z;
  txHeight_ : Z;
  txIndex_ : Z;
  value_ : Z;
  script_ : list byte;
  isMultisigRef_ : bool;
  preferredSequence_ : Z;
  isInputSW_ : bool;
  txinRedeemSizeBytes_ : Z;
  witnessDataSizeBytes_ : Z;
}.

Definition utxoMap : Type := stdmap (list byte) (stdmap Z UTXO).

(** The constant members, and the class of the object. *)
Record TransactionVerifier := mkVerifier {
  theTx_ : BCTX;
  utxos_ : utxoMap;
  tv_flags : Z;
  tv_BCH : bool;
}.

(** The mutable members: the stub's part, the pointer to the object the
    segregated-witness inputs share, and the outcome. *)
Record VerifierState := mkVerifierState {
  vs_stub : StubState;
  vs_sigHashDataObject : option nat;
  txEvalState_ : TxEvalState;
}.

Definition VerifierState_new : VerifierState := mkVerifierState StubState_new None (mkTxEvalState []).

Definition find_utxo (utxos : utxoMap) (txHash : list byte) (outputId : Z) : option UTXO :=
  match map_find txHash utxos with None => None | Some idMap => map_find outputId idMap end.

Section verifier.
Context `{HashFns} `{CryptoECDSA}.
Variable tv : TransactionVerifier.

(** ** The stub *)

(** The bytes of an input: [getTxInRef]. *)
Definition txin_bytes (inputId : Z) : result (list byte) :=
  '(off, sz) ← getTxInRef inputId (theTx_ tv); raw_read (bctx_data (theTx_ tv)) off sz.

Definition tv_getSerializedOutputScripts : result (list byte) :=
  match head (txouts_ (theTx_ tv)), last (txouts_ (theTx_ tv)) with
  | Some (firstTxOutOffset, _), Some (lastOff, lastSize) =>
      raw_read (bctx_data (theTx_ tv)) firstTxOutOffset (wrap 64 (wrap 64 (lastOff + lastSize) - firstTxOutOffset))
  | _, _ => Err UB
  end.

Fixpoint txins_data (n : nat) (i : Z) : result (list TxInData) :=
  match n with
  | O => Ok []
  | S n =>
      txinref ← txin_bytes i;
      outputIndex ← u32_at txinref 32;
      sequence ← u32_at txinref (wrap 64 (zlen txinref - 4));
      rest ← txins_data n (i + 1);
      Ok (mkTxInData (getSliceCopy txinref 0 32) outputIndex sequence :: rest)
  end.

Definition tv_getTxInsData : result (list TxInData) := txins_data (length (txins_ (theTx_ tv))) 0.

Definition tv_getWitnessData (inputId : Z) : result (list byte) :=
  match znth (witnesses_ (theTx_ tv)) inputId with
  | None => Err RuntimeError
  | Some (off, sz) => raw_read (bctx_data (theTx_ tv)) off sz
  end.

(** [txins_[inputID]] behind a test that lets the size itself pass. *)
Definition txin_at (e : exn) (inputID : Z) : result (Z * Z) :=
  if zlen (txins_ (theTx_ tv)) <? inputID then Err e
  else match znth (txins_ (theTx_ tv)) inputID with None => Err UB | Some inputOnS => Ok inputOnS end.

Definition tv_getOutpoint (inputID : Z) : result (list byte) :=
  '(off, _) ← txin_at RuntimeError inputID; raw_read (bctx_data (theTx_ tv)) off 36.

Fixpoint put_outpoints (n : nat) (i : Z) (w : BinaryWriter) : result BinaryWriter :=
  match n with
  | O => Ok w
  | S n => outpoint ← tv_getOutpoint i; put_outpoints n (i + 1) (bw_put_BinaryData outpoint w)
  end.

Definition tv_serializeAllOutpoints : result (list byte) :=
  w ← put_outpoints (length (txins_ (theTx_ tv))) 0 bw_new; Ok (theString_ w).

(** The last four bytes of an input. *)
Definition sequence_bytes (inputOnS : Z * Z) : result (list byte) :=
  raw_read (bctx_data (theTx_ tv)) (wrap 64 (inputOnS.1 + inputOnS.2 - 4)) 4.

Fixpoint put_sequences (txins : list (Z * Z)) (w : BinaryWriter) : result BinaryWriter :=
  match txins with
  | [] => Ok w
  | txinOnS :: txins => bdr ← sequence_bytes txinOnS; put_sequences txins (bw_put_BinaryData bdr w)
  end.

Definition tv_serializeAllSequences : result (list byte) :=
  w ← put_sequences (txins_ (theTx_ tv)) bw_new; Ok (theString_ w).

Definition tv_getOutpointValue (inputID : Z) : result Z :=
  outpoint ← tv_getOutpoint inputID;
  outputIndex ← u32_at outpoint 32;
  match find_utxo (utxos_ tv) (getSliceCopy outpoint 0 32) outputIndex with
  | None => Err RuntimeError
  | Some utxo => Ok (value_ utxo)
  end.

Definition tv_getTxInSequence (inputID : Z) : result Z :=
  inputOnS ← txin_at ScriptError inputID; bs ← sequence_bytes inputOnS; Ok (le_val bs).

#[local] Instance verifier_stub : TransactionStub := {|
  getSerializedOutputScripts := tv_getSerializedOutputScripts;
  getTxInsData := tv_getTxInsData;
  getWitnessData := tv_getWitnessData;
  getVersion := version_ (theTx_ tv);
  getTxOutCount := zlen (txouts_ (theTx_ tv));
  getLockTime := lockTime_ (theTx_ tv);
  serializeAllOutpoints := tv_serializeAllOutpoints;
  serializeAllSequences := tv_serializeAllSequences;
  getOutpoint := tv_getOutpoint;
  getOutpointValue := tv_getOutpointValue;
  getTxInSequence := tv_getTxInSequence;
|}.

(** ** Verification *)

(** What the memory of the interpreter of an input holds in [flags_] before,
    and the depth the interpreter may recurse to. *)
Variable garbage : Z -> Z.
Variable depth : nat.

(** A new interpreter, whose flags get those of the verifier added. *)
Definition getStackInterpreter (inputid : Z) (stub : StubState) : StackInterpreter * StubState :=
  let '(sstack, stub) :=
    if tv_BCH tv then
      let '(own, stub) := new_segwit 0x41 stub in (StackInterpreter_BCH_new (garbage inputid) inputid own, stub)
    else (StackInterpreter_new (garbage inputid) inputid, stub) in
  (setFlags (Z.lor (flags_ sstack) (tv_flags tv)) sstack, stub).

(** The script of an input: its outpoint and script are read with guards. *)
Definition input_parts (input : list byte) : result (list byte * Z * list byte) :=
  '(txHashRef, brr) ← brr_get_BinaryData 32 (brr_setNewData input);
  '(outputId, brr) ← brr_get_uint32_t LE brr;
  '(scriptSize, brr) ← brr_get_var_int brr;
  '(inputScript, _) ← brr_get_BinaryData (wrap 32 scriptSize) brr;
  Ok (txHashRef, outputId, inputScript).

(** The runs of the interpreter in [checkSig]. *)
Definition run_scripts (inputScript outputScript : list byte) : Script () :=
  _ ← (if has_flag (tv_flags tv) SCRIPT_VERIFY_SEGWIT && (zlen inputScript =? 0) then
         processSW (processScript depth) outputScript
       else
         _ ← processScript depth Lasting (brr_setNewData inputScript) false;
         processScript depth Lasting (brr_setNewData outputScript) true);
  checkState.

(** The object the segregated-witness inputs of the transaction share. *)
Definition share_sigHash (s : StackInterpreter) (v : VerifierState) : StackInterpreter * VerifierState :=
  if usesWitness_ (theTx_ tv) then
    let '(id, v) :=
      match vs_sigHashDataObject v with
      | Some id => (id, v)
      | None =>
          let '(id, stub) := new_segwit 1 (vs_stub v) in
          (id, mkVerifierState stub (Some id) (txEvalState_ v))
      end in
    (setSegWitSigHashDataObject (Some (SegWitAt id)) s, v)
  else (s, v).

(** [checkSig] on a given interpreter: that interpreter and the members of the
    verifier afterwards, with the outcome. *)
Definition checkSig (inputId : Z) (sstack : StackInterpreter) (v : VerifierState)
    : StackInterpreter * VerifierState * result TxInEvalState :=
  match
    input ← txin_bytes inputId;
    if zlen input <? 41 then Err ScriptError else input_parts input
  with
  | Err e => (sstack, v, Err e)
  | Ok (txHashRef, outputId, inputScript) =>
      match find_utxo (utxos_ tv) txHashRef outputId with
      | None => (sstack, v, Ok TxInEvalState_new)
      | Some utxo =>
          let '(sstack, v) := share_sigHash sstack v in
          let '((sstack, stub), r) := run_scripts inputScript (script_ utxo) (sstack, vs_stub v) in
          (sstack, mkVerifierState stub (vs_sigHashDataObject v) (txEvalState_ v),
           _ ← r; Ok (txInEvalState_ sstack))
      end
  end.

Definition with_stub (v : VerifierState) (stub : StubState) : VerifierState :=
  mkVerifierState stub (vs_sigHashDataObject v) (txEvalState_ v).
Definition record_state (i : Z) (state : TxInEvalState) (v : VerifierState) : VerifierState :=
  mkVerifierState (vs_stub v) (vs_sigHashDataObject v) (updateState i state (txEvalState_ v)).

(** The loop of [checkSigs]: an input that throws has the state it got to. *)
Fixpoint checkSigs_loop (n : nat) (i : Z) (v : VerifierState) : result VerifierState :=
  match n with
  | O => Ok v
  | S n =>
      let '(stack_ptr, stub) := getStackInterpreter i (vs_stub v) in
      let '(stack_ptr, v, r) := checkSig i stack_ptr (with_stub v stub) in
      match r with
      | Err e =>
          if is_exception e then checkSigs_loop n (i + 1) (record_state i (txInEvalState_ stack_ptr) v) else Err e
      | Ok _ => checkSigs_loop n (i + 1) (record_state i (txInEvalState_ stack_ptr) v)
      end
  end.

(** The loop of [checkSigs_NoCatch]. *)
Fixpoint checkSigs_NoCatch_loop (n : nat) (i : Z) (v : VerifierState) : result VerifierState :=
  match n with
  | O => Ok v
  | S n =>
      let '(stack_ptr, stub) := getStackInterpreter i (vs_stub v) in
      let '(_, v, r) := checkSig i stack_ptr (with_stub v stub) in
      state ← r;
      checkSigs_NoCatch_loop n (i + 1) (record_state i state v)
  end.

Definition reset_state (v : VerifierState) : VerifierState :=
  mkVerifierState (vs_stub v) (vs_sigHashDataObject v) (eval_reset (txEvalState_ v)).

Definition checkSigs (v : VerifierState) : result VerifierState :=
  checkSigs_loop (length (txins_ (theTx_ tv))) 0 (reset_state v).
Definition checkSigs_NoCatch (v : VerifierState) : result VerifierState :=
  checkSigs_NoCatch_loop (length (txins_ (theTx_ tv))) 0 (reset_state v).

Definition checkOutputs : Z := 0.

Definition verify (noCatch : bool) (v : VerifierState) : result (bool * VerifierState) :=
  if checkOutputs =? UINT64_MAX then Ok (false, v)
  else
    v ← (if noCatch then checkSigs_NoCatch v else checkSigs v);
    Ok (tx_isValid (txEvalState_ v), v).

Definition evaluateState (v : VerifierState) : result TxEvalState :=
  '(_, v) ← verify false v; Ok (txEvalState_ v).
End verifier.
