(* ===== verification/InterpreterFrame.v ===== *)
(** * InterpreterFrame: what no script can change

    Every operation of the interpreter, whatever it returns or throws, relates
    the state before to the state after by any preorder that its elementary
    assignments respect.  Only [checkState] declares a stack valid, so an input
    whose verification throws is never valid. *)

From S2P Require Import Prelude BinaryData BinaryIO Hashing StdMap ScriptParser SigHash TxEvalState Interpreter.

(** [m] relates the state it starts in to the one it ends in. *)
Definition keeps {A} (R : Vm -> Vm -> Prop) (m : Script A) : Prop := forall vm, R vm (m vm).1.

Create HintDb keeps discriminated.

Section keeps.
Context (R : Vm -> Vm -> Prop) `{!PreOrder R}.

Lemma keeps_ret {A} (a : A) : keeps R (mret a).
Proof. intros vm. reflexivity. Qed.

Lemma keeps_bind {A B} (m : Script A) (f : A -> Script B) :
  keeps R m -> (forall a, keeps R (f a)) -> keeps R (m ≫= f).
Proof.
  intros Hm Hf vm. unfold mbind, script_bind. specialize (Hm vm). destruct (m vm) as [vm' [a|e]]; [|exact Hm].
  etrans; [exact Hm|apply Hf].
Qed.

Lemma keeps_throw {A} e : keeps R (throw (A:=A) e).
Proof. intros vm. reflexivity. Qed.

Lemma keeps_lift {A} (r : result A) : keeps R (lift r).
Proof. intros vm. reflexivity. Qed.

Lemma keeps_get {A} (f : StackInterpreter -> A) : keeps R (get f).
Proof. intros vm. reflexivity. Qed.

Lemma keeps_read_from {A} buf brr (r : result A) : keeps R (read_from buf brr r).
Proof. intros vm. unfold read_from. by destruct (_ && _). Qed.
End keeps.

(** What the elementary assignments must respect; [pubKeyState_], [n_] and [m_]
    are the only parts of the outcome that the opcodes write, and the last two
    are written with what OP_CHECKMULTISIG has tested. *)
Class QuietFrame (R : Vm -> Vm -> Prop) : Prop := {
  frame_preorder :: PreOrder R;
  frame_stack l s st : R (s, st) (set_stack l s, st);
  frame_altstack l s st : R (s, st) (set_altstack l s, st);
  frame_onlyPush b s st : R (s, st) (set_onlyPushData b s, st);
  frame_isValid b s st : R (s, st) (set_isValid b s, st);
  frame_opcount c s st : R (s, st) (set_opcount c s, st);
  frame_flags f s st : R (s, st) (setFlags f s, st);
  frame_output d s st : R (s, st) (set_outputScript d s, st);
  frame_outputBuf b s st : R (s, st) (set_outputBuf b s, st);
  frame_sigHash o s st : R (s, st) (set_sigHashObject o s, st);
  frame_n_m n m s st : 0 <= m <= n -> n <= 20 -> R (s, st) (set_evalState (set_n_m n m (txInEvalState_ s)) s, st);
  frame_keys key b s st : R (s, st)
    (set_evalState (set_pubKeyState (map_put key b (pubKeyState_ (txInEvalState_ s))) (txInEvalState_ s)) s, st);
  frame_separator i o s st : R (s, st) (s, setLastOpCodeSeparator i o st);
  frame_segwit l s st : R (s, st) (s, mkStubState (lastCodeSeparatorMap_ st) l);
}.

(** The script behind a script hash is saved by few opcodes. *)
Class Frame (R : Vm -> Vm -> Prop) : Prop := {
  frame_quiet :: QuietFrame R;
  frame_p2sh d s st : R (s, st) (set_p2shScript d s, st);
}.

Lemma frame_insert R `{!QuietFrame R} key b s st : R (s, st)
  (set_evalState (set_pubKeyState (map_insert key b (pubKeyState_ (txInEvalState_ s))).1 (txInEvalState_ s)) s, st).
Proof.
  unfold map_insert. destruct (map_find _ _); [|apply frame_keys]. destruct s as [? ? ? ? ? ? ? ? ? ? [] ? ? ? ?]. reflexivity.
Qed.

Lemma keeps_modify R f : (forall s st, R (s, st) (f s, st)) -> keeps R (modify f).
Proof. intros Hf [s st]. apply Hf. Qed.

(** One step of a proof that an operation keeps [R]. *)
Ltac keep :=
  repeat first
    [ done
    | solve [auto with keeps nocore]
    | apply (keeps_ret _) | apply (keeps_throw _) | apply (keeps_lift _) | apply (keeps_get _) | apply (keeps_read_from _)
    | apply frame_stack | apply frame_altstack | apply frame_onlyPush | apply frame_isValid | apply frame_opcount
    | apply frame_flags | apply frame_output | apply frame_outputBuf | apply frame_p2sh | apply frame_sigHash | apply frame_n_m; lia | apply frame_keys | apply frame_insert
    | apply (keeps_bind _); [|intros ?]
    | apply keeps_modify; intros ? ?; cbn beta
    | progress cbv zeta
    | case_match ].

Section frame.
Context `{HashFns} `{CryptoECDSA} `{TransactionStub}.
Context (R : Vm -> Vm -> Prop) `{!QuietFrame R}.

Lemma frame_refl vm : R vm vm.
Proof. reflexivity. Qed.

Lemma keeps_pop_back : keeps R pop_back. Proof. unfold pop_back. keep. Qed.
Lemma keeps_push_back d : keeps R (push_back d). Proof. unfold push_back. keep. Qed.
Lemma keeps_stack_back : keeps R stack_back. Proof. unfold stack_back. keep. Qed.
Lemma keeps_vector_pop_back : keeps R vector_pop_back. Proof. unfold vector_pop_back. keep. Qed.
Lemma keeps_need n : keeps R (need n). Proof. unfold need. keep. Qed.
Lemma keeps_peek i : keeps R (peek i). Proof. unfold peek. keep. Qed.
Hint Resolve keeps_pop_back keeps_push_back keeps_stack_back keeps_vector_pop_back keeps_need keeps_peek : keeps.
Lemma keeps_push_int v : keeps R (push_int v). Proof. unfold push_int. keep. Qed.
Lemma keeps_pop_int : keeps R pop_int. Proof. unfold pop_int. keep. Qed.
Lemma keeps_push_bool b : keeps R (push_bool b). Proof. unfold push_bool. keep. Qed.
Hint Resolve keeps_push_int keeps_pop_int keeps_push_bool : keeps.
Lemma keeps_pop_many n : keeps R (pop_many n). Proof. induction n; simpl; keep. Qed.
Lemma keeps_push_many l : keeps R (push_many l). Proof. induction l; simpl; keep. Qed.
Hint Resolve keeps_pop_many keeps_push_many : keeps.
Lemma keeps_pop_two : keeps R pop_two. Proof. unfold pop_two. keep. Qed.
Hint Resolve keeps_pop_two : keeps.
Lemma keeps_unary f : keeps R (op_unary f). Proof. unfold op_unary. keep. Qed.
Lemma keeps_compare f : keeps R (op_compare f). Proof. unfold op_compare. keep. Qed.
Lemma keeps_binary f : keeps R (op_binary f). Proof. unfold op_binary. keep. Qed.
Hint Resolve keeps_unary keeps_compare keeps_binary : keeps.
Lemma keeps_verify : keeps R op_verify. Proof. unfold op_verify. keep. Qed.
Lemma keeps_equal : keeps R op_equal. Proof. unfold op_equal. keep. Qed.
Hint Resolve keeps_verify keeps_equal : keeps.

(** ** Signatures *)

Lemma keeps_modify_eval f : (forall s st, R (s, st) (set_evalState (f (txInEvalState_ s)) s, st)) -> keeps R (modify_eval f).
Proof. intros Hf. apply keeps_modify. exact Hf. Qed.

Lemma keeps_sighash_data shd ht : keeps R (sighash_data shd ht).
Proof.
  intros [s st]. unfold sighash_data. cbn [fst snd]. destruct (_ && _); [reflexivity|]. unfold getDataForSigHash.
  destruct (negb _); [reflexivity|]. destruct shd as [|id].
  - destruct (legacy_getDataForSigHashAll _ _ _); reflexivity.
  - destruct (segwit_objs st !! id) as [o|]; [|reflexivity].
    destruct (segwit_getDataForSigHashAll _ _ _ _) as [[data o']|e]; [|reflexivity]. apply frame_segwit.
Qed.

Lemma keeps_need_sigHashObject : keeps R need_sigHashObject. Proof. unfold need_sigHashObject. keep. Qed.
Hint Resolve keeps_sighash_data keeps_need_sigHashObject : keeps.

Lemma keeps_checksig : keeps R op_checksig.
Proof. unfold op_checksig, modify_eval. keep. Qed.

Lemma keeps_pop_pubkeys n i keys : keeps R (pop_pubkeys n i keys).
Proof. revert i keys. induction n; intros; simpl; unfold modify_eval; keep. Qed.

Lemma keeps_pop_sigs n sigs : keeps R (pop_sigs n sigs).
Proof. revert sigs. induction n; intros; simpl; keep. Qed.

Lemma keeps_hash_data_for shd ht m : keeps R (hash_data_for shd ht m).
Proof. unfold hash_data_for. keep. Qed.

Lemma keeps_match_sig fuel hashdata rs keys i : keeps R (match_sig fuel hashdata rs keys i).
Proof. revert keys i. induction fuel; intros; simpl; unfold modify_eval; keep. Qed.
Hint Resolve keeps_pop_pubkeys keeps_pop_sigs keeps_hash_data_for keeps_match_sig : keeps.

Lemma keeps_check_sigs shd sigs m keys i c : keeps R (check_sigs shd sigs m keys i c).
Proof. revert m keys i c. induction sigs as [|[sig ht] sigs IH]; intros; cbn [check_sigs]; keep. Qed.
Hint Resolve keeps_checksig keeps_check_sigs : keeps.

Lemma keeps_checkmultisig : keeps R op_checkmultisig.
Proof. unfold op_checkmultisig, modify_eval, op_true, op_0. keep. Qed.
Hint Resolve keeps_checkmultisig : keeps.
Lemma keeps_push_items n brr : keeps R (push_items n brr).
Proof. revert brr. induction n; intros; simpl; keep. Qed.
Hint Resolve keeps_push_items : keeps.

Lemma keeps_codeseparator offset : keeps R (op_codeseparator offset).
Proof.
  intros [s st]. unfold op_codeseparator. cbn [fst snd]. etrans; [apply (frame_opcount 0)|].
  case_match; [apply frame_separator|reflexivity].
Qed.
Hint Resolve keeps_codeseparator : keeps.

(** ** Opcodes *)

(** The opcodes that neither run a script nor save one. *)
Definition quiet_op (op : OPCODETYPE) : bool :=
  match op with OP_IF | OP_NOTIF | OP_EQUAL | OP_SHA256 | OP_HASH160 => false | _ => true end.
Definition quiet_code (v : Z) : bool := match opcode_at v with Some op => quiet_op op | None => true end.

Lemma keeps_quiet_switch rec buf oc : quiet_code (oc_opcode oc) = true -> keeps R (process_switch rec buf oc).
Proof.
  unfold process_switch, quiet_code. destruct (opcode_at (oc_opcode oc)) as [[]|]; try done; intros _;
    unfold op_not, op_toaltstack, op_fromaltstack, op_ifdup, op_2dup, op_3dup, op_2over, op_depth, op_dup, op_nip, op_over,
      op_pick, op_roll, op_rot, op_swap, op_tuck, op_size, op_within, op_ripemd160, op_hash256; keep.
Qed.

Lemma keeps_opcode_of rec buf oc : keeps R (process_switch rec buf oc) -> keeps R (processOpCode rec buf oc).
Proof. intros Hs. unfold processOpCode, op_0, op_1negate. keep. Qed.
End frame.

(** ** Scripts *)

Section scripts.
Context `{HashFns} `{CryptoECDSA} `{TransactionStub}.
Context (R : Vm -> Vm -> Prop) `{!Frame R}.
Hint Resolve keeps_pop_back keeps_push_back keeps_stack_back keeps_verify keeps_equal keeps_pop_int keeps_push_int keeps_push_items : keeps.
Hint Extern 0 (QuietFrame _) => exact frame_quiet : keeps.

Section rec.
Variable rec : Buffer -> BinaryRefReader -> bool -> Script ().
Hypothesis Hrec : forall buf brr out, keeps R (rec buf brr out).
Hint Resolve Hrec : keeps.

Lemma keeps_with_local m : keeps R m -> keeps R (with_local m).
Proof.
  intros Hm vm. unfold with_local. specialize (Hm vm). destruct (m vm) as [[s st] r]. etrans; [exact Hm|].
  cbn [fst snd]. unfold free_local. case_bool_decide; [apply frame_outputBuf|reflexivity].
Qed.
Hint Resolve keeps_with_local : keeps.

Lemma keeps_processSW script : keeps R (processSW rec script).
Proof. unfold processSW, process_p2wpkh, process_p2wsh. keep. Qed.

Lemma keeps_if_else buf brr out : keeps R (op_if_else rec buf brr out).
Proof. unfold op_if_else. keep. Qed.

Lemma keeps_if_try buf block brr out : keeps R block -> keeps R (op_if_try rec buf block brr out).
Proof.
  intros Hb vm. unfold op_if_try. specialize (Hb vm). destruct (block vm) as [vm' [[]|e]]; cbn [fst] in *.
  - unfold read_from. destruct (_ && _); cbn [bool_decide]; [done|]. destruct (seekToEndIf brr).2; [done|].
    case_bool_decide; [|done]. etrans; [exact Hb|apply keeps_if_else].
  - case_bool_decide; [|done]. etrans; [exact Hb|apply keeps_if_else].
Qed.

Lemma keeps_if buf brr out : keeps R (op_if rec buf brr out).
Proof.
  unfold op_if. apply (keeps_bind _); [keep|intros [b r]]. apply keeps_if_try. keep.
Qed.
Hint Resolve keeps_processSW keeps_if : keeps.

Lemma keeps_equal_p2sh : keeps R (op_equal_p2sh rec).
Proof. unfold op_equal_p2sh. keep. Qed.

Lemma keeps_save_p2sh flag : keeps R (save_p2sh flag).
Proof. unfold save_p2sh. keep. Qed.
Hint Resolve keeps_equal_p2sh keeps_save_p2sh : keeps.

Lemma keeps_switch buf oc : keeps R (process_switch rec buf oc).
Proof.
  destruct (quiet_code (oc_opcode oc)) eqn:Eq; [by apply (keeps_quiet_switch _)|].
  unfold process_switch, quiet_code in *. destruct (opcode_at (oc_opcode oc)) as [[]|]; try done;
    unfold op_not, op_unary, op_sha256, op_hash160; keep.
Qed.
Hint Resolve keeps_switch keeps_opcode_of : keeps.

Lemma keeps_parse buf brr : keeps R (parseScript rec buf brr).
Proof. unfold parseScript. generalize (parse_fuel brr) as fuel. intros fuel. revert brr. induction fuel; intros; simpl; keep. Qed.
End rec.

Lemma keeps_processScript depth buf brr out : keeps R (processScript depth buf brr out).
Proof.
  revert buf brr out. induction depth as [|depth IH]; intros buf brr out; cbn [processScript]; keep.
  - etrans; [apply (frame_output (bdRef_ brr))|apply frame_outputBuf].
  - etrans; [apply (frame_opcount 0)|apply frame_isValid].
  - by apply keeps_parse.
Qed.
End scripts.
