(* ===== verification/InterpreterDepth.v ===== *)
(** * InterpreterDepth: what fuel and depth decide

    The loops have fuel for a round per byte or per key, which is enough whatever
    happens in a round.  The interpreter also calls itself, and [processScript]
    counts the calls that are open.  A run that does not get to the bound is the
    run of the program: a greater bound changes nothing.  So what is proved of a
    run at some bound holds at every bound, and a run that ends at none is one
    that the program never ends. *)

From S2P Require Import Prelude BinaryData BinaryIO Hashing StdMap ScriptParser ScriptParserProps SigHash TxEvalState Interpreter InterpreterFrame.

(** [m'] may recurse deeper than [m]: it does the same, unless [m] has come to
    its bound. *)
Definition deeper {A} (m m' : Script A) : Prop := forall vm, (m vm).2 = Err NoFuel \/ m' vm = m vm.

Lemma deeper_refl {A} (m : Script A) : deeper m m.
Proof. by right. Qed.

Lemma deeper_bind {A B} (m m' : Script A) (f f' : A -> Script B) :
  deeper m m' -> (forall a, deeper (f a) (f' a)) -> deeper (m ≫= f) (m' ≫= f').
Proof.
  intros Hm Hf vm. unfold mbind, script_bind. destruct (Hm vm) as [E|E].
  - left. destruct (m vm) as [vm' r]. cbn in E. by subst r.
  - rewrite E. destruct (m vm) as [vm' [a|e]]; [apply Hf|by right].
Qed.

Create HintDb deeper discriminated.

(** ** The fuel of the loop over a script *)

Section fuel.
Context `{HashFns} `{CryptoECDSA} `{TransactionStub}.
Variables (rec : Buffer -> BinaryRefReader -> bool -> Script ()) (buf : Buffer).

Lemma parse_loop_fuel fuel : forall fuel' brr vm, brr_wf brr -> left brr < Z.of_nat fuel -> left brr < Z.of_nat fuel' ->
  parseScript_loop rec buf fuel brr vm = parseScript_loop rec buf fuel' brr vm.
Proof.
  induction fuel as [|fuel IH]; intros [|fuel'] brr vm Hr Hl Hl'; try (pose proof (left_nonneg brr Hr); lia).
  cbn [parseScript_loop]. case_match; [|done]. unfold mbind, script_bind, read_from. destruct (_ && negb (alive buf vm.1)); [done|].
  destruct (getNextOpcode brr) as [[oc brr']|e] eqn:E; [|done]. apply getNextOpcode_left in E as [Hr' Hl2]; [|done].
  destruct (processOpCode rec buf oc vm) as [vm' [[]|e]]; [|done]. apply IH; [done|lia|lia].
Qed.

(** Whatever the opcodes do, a script of less than 2^64 bytes does not run out
    of [parse_fuel]: more of it changes nothing. *)
Lemma parse_fuel_suffices script fuel vm : zlen script < two64 -> (length script < fuel)%nat ->
  parseScript_loop rec buf fuel (brr_setNewData script) vm = parseScript rec buf (brr_setNewData script) vm.
Proof.
  intros Hl Hf. assert (brr_wf (brr_setNewData script)) as Hr by by apply (brr_wf_at []).
  apply parse_loop_fuel; [done| |by apply parse_fuel_enough]. unfold left, brr_setNewData, zlen. cbn [totalSize_ pos_]. lia.
Qed.
End fuel.

(** *** The keys left for a signature *)

Definition keys_up_to {V} (index : Z) (m : stdmap Z V) : Prop := map_ordered m /\ Forall (fun e => 0 <= e.1 <= index) m.

Lemma erase_last {V} index (m : stdmap Z V) : keys_up_to index m -> keys_up_to (index - 1) (map_erase index m).
Proof.
  intros [Ho Hb]. unfold keys_up_to. induction m as [|[k v] m IH]; [by split|]. destruct Ho as [Hk Ho].
  apply Forall_cons in Hb as [Hkb Hb]. cbn [fst] in Hkb. cbn [map_erase]. unfold std_less, uint_less in *.
  rewrite (proj2 (Z.ltb_ge index k)) by lia. destruct (Z.ltb_spec k index).
  - destruct (IH Ho Hb) as [IHo IHb]. split; [split; [|done]|constructor; [simpl; lia|done]].
    apply Forall_forall. intros e He. apply (proj1 (Forall_forall _ m) Hk). by eapply map_erase_In.
  - split; [done|]. apply Forall_forall. intros e He. pose proof (proj1 (Forall_forall _ _) Hk e He) as H1.
    pose proof (proj1 (Forall_forall _ _) Hb e He) as H2. cbv beta in H1, H2. rewrite Z.ltb_lt in H1. lia.
Qed.

(** A round of the inner loop of OP_CHECKMULTISIG takes the key at [index], so
    that the rounds it is given are enough. *)
Lemma match_sig_fuel `{HashFns} `{CryptoECDSA} hashdata rs fuel : forall fuel' pubkeys index vm, keys_up_to index pubkeys ->
  -1 <= index < 2 ^ 32 -> (Z.to_nat (index + 1) < fuel)%nat -> (Z.to_nat (index + 1) < fuel')%nat ->
  match_sig fuel hashdata rs pubkeys index vm = match_sig fuel' hashdata rs pubkeys index vm.
Proof.
  induction fuel as [|fuel IH]; intros [|fuel'] pubkeys index vm Hk Hi Hf Hf'; try lia.
  cbn [match_sig]. case_bool_decide as Hn; [done|]. destruct (decide (index = -1)) as [->|].
  { destruct Hk as [_ Hk]. destruct pubkeys as [|e m]; [done|]. apply Forall_cons in Hk as [Hk _]. lia. }
  rewrite wrap_small by (unfold is_uint; lia). case_match; [done|]. apply IH; [by apply erase_last|lia|lia|lia].
Qed.

(** ** The depth of the calls *)

Section depth.
Context `{HashFns} `{CryptoECDSA} `{TransactionStub}.

(** One step of a proof that two operations differ in their calls only. *)
Ltac deepen :=
  repeat first
    [ solve [auto with deeper nocore] | apply deeper_refl
    | apply deeper_bind; [|intros ?]
    | progress cbv zeta
    | case_match ].

Section rec.
Variables rec rec' : Buffer -> BinaryRefReader -> bool -> Script ().
Hypothesis Hrec : forall buf brr out, deeper (rec buf brr out) (rec' buf brr out).
Hint Resolve Hrec : deeper.

Lemma deeper_local m m' : deeper m m' -> deeper (with_local m) (with_local m').
Proof.
  intros Hm vm. unfold with_local. destruct (Hm vm) as [E|E]; [left|right; by rewrite E].
  destruct (m vm) as [vm' r]. exact E.
Qed.
Hint Resolve deeper_local : deeper.

Lemma deeper_processSW script : deeper (processSW rec script) (processSW rec' script).
Proof.
  unfold processSW, process_p2wpkh, process_p2wsh. deepen.
Qed.
Hint Resolve deeper_processSW : deeper.

Lemma deeper_if_else buf brr out : deeper (op_if_else rec buf brr out) (op_if_else rec' buf brr out).
Proof. unfold op_if_else. deepen. Qed.

Lemma deeper_if_try buf block block' brr out : deeper block block' ->
  deeper (op_if_try rec buf block brr out) (op_if_try rec' buf block' brr out).
Proof.
  intros Hb vm. unfold op_if_try. destruct (Hb vm) as [E|E].
  - left. destruct (block vm) as [vm' r]. cbn in E. by subst r.
  - rewrite E. destruct (block vm) as [vm' [[]|e]].
    + destruct (read_from _ _ _ vm') as [vm2 [[]|e2]]; [by right|]. case_bool_decide; [apply deeper_if_else|by right].
    + case_bool_decide; [apply deeper_if_else|by right].
Qed.

Lemma deeper_if buf brr out : deeper (op_if rec buf brr out) (op_if rec' buf brr out).
Proof. unfold op_if. deepen. apply deeper_if_try. deepen. Qed.
Hint Resolve deeper_if : deeper.

Lemma deeper_equal_p2sh : deeper (op_equal_p2sh rec) (op_equal_p2sh rec').
Proof. unfold op_equal_p2sh. deepen. Qed.
Hint Resolve deeper_equal_p2sh : deeper.

Lemma deeper_switch buf oc : deeper (process_switch rec buf oc) (process_switch rec' buf oc).
Proof. unfold process_switch. destruct (opcode_at _) as [[]|]; try apply deeper_refl; deepen. Qed.

Lemma deeper_opcode buf oc : deeper (processOpCode rec buf oc) (processOpCode rec' buf oc).
Proof.
  unfold processOpCode. apply deeper_bind; [apply deeper_refl|intros _]. repeat (case_match; [apply deeper_refl|]).
  apply deeper_bind; [apply deeper_refl|intros _]. apply deeper_switch.
Qed.

Lemma deeper_parse buf brr : deeper (parseScript rec buf brr) (parseScript rec' buf brr).
Proof.
  unfold parseScript. generalize (parse_fuel brr) as fuel. intros fuel. revert brr.
  induction fuel as [|fuel IH]; intros brr; cbn [parseScript_loop]; [apply deeper_refl|]. case_match; [|apply deeper_refl].
  apply deeper_bind; [apply deeper_refl|intros [oc brr']]. apply deeper_bind; [apply deeper_opcode|intros _; apply IH].
Qed.
End rec.

Lemma deeper_processScript depth depth' : (depth <= depth')%nat -> forall buf brr out,
  deeper (processScript depth buf brr out) (processScript depth' buf brr out).
Proof.
  intros Hle. revert depth' Hle.
  induction depth as [|depth IH]; intros depth' Hle buf brr out; [by left|]. destruct depth' as [|depth']; [lia|].
  cbn [processScript]. do 2 (apply deeper_bind; [apply deeper_refl|intros _]). apply deeper_parse. intros. apply IH. lia.
Qed.
End depth.
