(* ===== verification/SigHashProps.v ===== *)
(** * SigHashProps: what a signature signs

    The stub of a parsed transaction tells the transaction's parts; the data
    for SIGHASH_ALL are the transaction with the scripts of its inputs replaced,
    or the preimage of BIP143 for segregated-witness inputs. *)

From S2P Require Import Prelude BinaryData BinaryIO Hashing StdMap DBUtils BlockHeader TxLength TxFilter TxFilterProps.
From S2P Require Import BlockData BlockDataProps ScriptParser ScriptParserProps SigHash TxEvalState Interpreter Verifier.

(** ** Separators *)

Definition is_sep (it : item) : bool := match it with IPush _ => false | IOp v => v =? OP_CODESEPARATOR_value end.

Fixpoint before_sep (its : list item) : list item :=
  match its with [] => [] | it :: its => if is_sep it then [] else it :: before_sep its end.
Fixpoint after_sep (its : list item) : list item :=
  match its with [] => [] | it :: its => if is_sep it then its else after_sep its end.
Definition sep_bytes (its : list item) : list byte := if existsb is_sep its then [z2b 171] else [].

(** The stretches between separators; a separator at the end ends the last one. *)
Fixpoint pieces (its : list item) : list (list item) :=
  match its with
  | [] => []
  | it :: its =>
      if is_sep it then [] :: pieces its
      else match pieces its with [] => [[it]] | p :: ps => (it :: p) :: ps end
  end.

(** The script that is signed: separators go, unless there is a single piece. *)
Definition signed_code (its : list item) : list item :=
  if bool_decide (length (pieces its) = 1%nat) then its else concat (pieces its).

Lemma pieces_step its : its ≠ [] -> pieces its = before_sep its :: pieces (after_sep its).
Proof.
  induction its as [|it its IH]; [done|]. intros _. cbn [pieces before_sep after_sep].
  destruct (is_sep it) eqn:E; [done|]. destruct its as [|it' its]; [done|]. by rewrite IH.
Qed.

Lemma pieces_no_sep its : existsb is_sep its = false -> concat (pieces its) = its /\ signed_code its = its.
Proof.
  intros Hs. assert (pieces its = match its with [] => [] | _ => [its] end) as E.
  { induction its as [|it its IH]; [done|]. cbn [existsb] in Hs. apply orb_false_iff in Hs as [Hi Hs].
    cbn [pieces]. rewrite Hi, (IH Hs). by destruct its. }
  unfold signed_code. rewrite E. destruct its as [|it its]; [done|]. simpl. by rewrite app_nil_r.
Qed.

Lemma concat_pieces its : concat (pieces its) = filter (fun it => is_sep it = false) its.
Proof.
  induction its as [|it its IH]; [done|]. cbn [pieces]. rewrite filter_cons. destruct (is_sep it) eqn:E; cbn [concat].
  - case_decide; [done|]. by rewrite IH.
  - case_decide; [|done]. rewrite <- IH. by destruct (pieces its).
Qed.

Lemma enc_items_cons it its : enc_items (it :: its) = enc_item it ++ enc_items its.
Proof. done. Qed.

Lemma enc_items_app a b : enc_items (a ++ b) = enc_items a ++ enc_items b.
Proof. unfold enc_items. by rewrite map_app, concat_app. Qed.

Lemma split_sep its : enc_items its = enc_items (before_sep its) ++ sep_bytes its ++ enc_items (after_sep its).
Proof.
  induction its as [|it its IH]; [done|]. unfold sep_bytes in *. cbn [before_sep after_sep existsb].
  destruct (is_sep it) eqn:E; cbn [orb].
  - destruct it as [d|v]; [done|]. apply Z.eqb_eq in E. by subst v.
  - rewrite !enc_items_cons, IH. by rewrite <- app_assoc.
Qed.

Lemma op_of_sep p it : item_ok it -> (oc_opcode (op_of p it) =? OP_CODESEPARATOR_value) = is_sep it.
Proof.
  destruct it as [d|v]; [|done]. intros Hd. simpl. unfold push_value, OP_CODESEPARATOR_value. simpl in Hd.
  repeat zcase; try done; lia.
Qed.

Lemma seek_items its : forall pre fuel, Forall item_ok its -> zlen (pre ++ enc_items its) < two64 ->
  (length its < fuel)%nat ->
  seekToOpCode_loop fuel OP_CODESEPARATOR_value (brr_at pre (enc_items its)) =
  Ok (zlen (pre ++ enc_items (before_sep its)),
      brr_at (pre ++ enc_items (before_sep its) ++ sep_bytes its) (enc_items (after_sep its))).
Proof.
  induction its as [|it its IH]; intros pre fuel Hok Hl Hf; (destruct fuel as [|fuel]; [simpl in Hf; lia|]);
    cbn [seekToOpCode_loop].
  - rewrite brr_remaining_at by done. cbn. by rewrite !app_nil_r.
  - inversion Hok as [|? ? Hit Hits]; subst. rewrite enc_items_cons in *. pose proof (script_item_pos it Hit).
    rewrite brr_remaining_at by done. pose proof (zlen_nonneg (enc_items its)). rewrite (zlen_app (enc_item it)). zsimp.
    rewrite (getNextOpcode_item (zlen pre) it Hit pre _ eq_refl) by done. cbn [mbind result_bind].
    rewrite op_of_sep by done. unfold sep_bytes in *. cbn [before_sep after_sep existsb].
    destruct (is_sep it) eqn:E; cbn [orb].
    + destruct it as [d|v]; [done|]. apply Z.eqb_eq in E. subst v. cbn [pos_ brr_at op_of oc_dataRef].
      change (enc_items []) with (@nil byte). cbn [app]. rewrite app_nil_r, zlen_app, zlen_nil.
      change (enc_item (IOp OP_CODESEPARATOR_value)) with [z2b 171] in *. change (zlen [z2b 171]) with 1 in *.
      rewrite wrap_small; [do 3 f_equal; lia|].
      rewrite !zlen_app in Hl. change (zlen [z2b 171]) with 1 in Hl. pose proof (zlen_nonneg pre). unfold is_uint, two64 in *. lia.
    + rewrite IH; [|done|by rewrite <- app_assoc|simpl in Hf; lia]. rewrite !enc_items_cons. by rewrite <- !app_assoc.
Qed.

Lemma before_sep_length its : (length (after_sep its) <= length its)%nat.
Proof. induction its as [|it its IH]; [done|]. simpl. destruct (is_sep it); simpl; lia. Qed.

Lemma after_sep_ok its : Forall item_ok its -> Forall item_ok (after_sep its).
Proof. induction 1 as [|it its Hi Hs IH]; [done|]. simpl. by destruct (is_sep it). Qed.

Lemma after_sep_shorter its : its ≠ [] -> (length (after_sep its) < length its)%nat.
Proof.
  destruct its as [|it its]; [done|]. intros _. simpl. destruct (is_sep it); [lia|].
  pose proof (before_sep_length its). lia.
Qed.

Lemma tokenize_items data its : forall pre fuel, Forall item_ok its -> data = pre ++ enc_items its -> zlen data < two64 ->
  (length its < fuel)%nat ->
  tokenize_loop fuel data OP_CODESEPARATOR_value (zlen pre) (brr_at pre (enc_items its)) =
  Ok (map enc_items (pieces its)).
Proof.
  induction its as [its IH] using (induction_ltof1 _ (@length item)). unfold ltof in IH.
  intros pre fuel Hok -> Hl Hf. destruct fuel as [|fuel]; [lia|]. cbn [tokenize_loop]. rewrite brr_remaining_at by done.
  destruct (decide (its = [])) as [->|Hne]; [done|]. rewrite pieces_step by done.
  assert (0 < zlen (enc_items its)) as Hpos.
  { pose proof (items_length its Hok). destruct its; [done|]. unfold zlen. simpl length in *. lia. }
  zsimp. unfold seekToOpCode, parse_fuel.
  rewrite seek_items; [|done|done|].
  2:{ pose proof (items_length its Hok). cbn [bdRef_ brr_at]. rewrite length_app. lia. }
  cbn [mbind result_bind]. rewrite wrap_small.
  2:{ rewrite (split_sep its), !zlen_app in *. unfold is_uint, two64 in *.
      pose proof (zlen_nonneg (enc_items (before_sep its))). pose proof (zlen_nonneg pre).
      pose proof (zlen_nonneg (sep_bytes its)). pose proof (zlen_nonneg (enc_items (after_sep its))). lia. }
  rewrite (raw_read_mid pre (enc_items (before_sep its)) (sep_bytes its ++ enc_items (after_sep its)));
    [|by rewrite (split_sep its) at 1|done|rewrite zlen_app; lia].
  cbn [mbind result_bind pos_ brr_at]. rewrite (split_sep its), app_assoc, app_assoc, <- (app_assoc pre) in *.
  pose proof (after_sep_shorter its Hne). rewrite IH; [done|done|by apply after_sep_ok|done|done|lia].
Qed.

Lemma sep_in_pieces its : zlen (map enc_items (pieces its)) =? 1 = bool_decide (length (pieces its) = 1%nat).
Proof.
  unfold zlen. rewrite length_map. case_bool_decide; [by subst; lia|lia].
Qed.

Lemma foldl_append_concat l : forall acc, foldl append acc l = acc ++ concat l.
Proof.
  induction l as [|x l IH]; intros acc; cbn [foldl concat]; [by rewrite app_nil_r|].
  by rewrite IH, append_app, <- app_assoc.
Qed.

Lemma enc_items_concat l : concat (map enc_items l) = enc_items (concat l).
Proof. induction l as [|its l IH]; [done|]. cbn [map concat]. by rewrite IH, enc_items_app. Qed.

Lemma zlen_signed_code its : zlen (enc_items (signed_code its)) <= zlen (enc_items its).
Proof.
  unfold signed_code. case_bool_decide as E; [lia|]. clear E. rewrite concat_pieces.
  induction its as [|it its IH]; [done|]. rewrite filter_cons, (enc_items_cons it its), (zlen_app (enc_item it)).
  pose proof (zlen_nonneg (enc_item it)).
  case_decide; [rewrite enc_items_cons, (zlen_app (enc_item it))|]; lia.
Qed.

(** The script after the code separators are taken out. *)
Lemma signed_script its : Forall item_ok its -> zlen (enc_items its) < two64 ->
  (tokens ← tokenize (enc_items its) OP_CODESEPARATOR_value;
   Ok (if zlen tokens =? 1 then enc_items its else foldl append [] tokens)) = Ok (enc_items (signed_code its)).
Proof.
  intros Hok Hl. unfold tokenize. rewrite brr_setNewData_at.
  rewrite (tokenize_items (enc_items its) its []); [|done|done|done|].
  2:{ pose proof (items_length its Hok). unfold parse_fuel. cbn [bdRef_ brr_at app]. lia. }
  cbn [mbind result_bind]. rewrite sep_in_pieces, foldl_append_concat, enc_items_concat. unfold signed_code.
  by case_bool_decide.
Qed.

(** ** Reads inside a read *)

Lemma int_to_le_val l n : zlen l = Z.of_nat n -> int_to LE n (le_val l) = l.
Proof. intros Hn. unfold int_to, IntToStrLE. replace n with (length l) by (unfold zlen in Hn; lia). apply le_bytes_le_val. Qed.


Lemma raw_read_inv data o n x : raw_read data o n = Ok x -> 0 <= n ->
  exists pre post, data = pre ++ x ++ post /\ zlen pre = o /\ zlen x = n.
Proof.
  unfold raw_read. destruct (Z.leb_spec 0 o); [|done]. destruct (Z.leb_spec (o + n) (zlen data)); [|done].
  cbn [andb]. intros [=<-] Hn. exists (take (Z.to_nat o) data), (drop (Z.to_nat n) (drop (Z.to_nat o) data)).
  unfold zslice. rewrite !take_drop. split; [done|]. unfold zlen in *. rewrite !length_take, length_drop. lia.
Qed.

Lemma raw_read_inside data o pre mid post : raw_read data o (zlen (pre ++ mid ++ post)) = Ok (pre ++ mid ++ post) ->
  raw_read data (o + zlen pre) (zlen mid) = Ok mid.
Proof.
  intros (pr & po & -> & <- & _)%raw_read_inv; [|apply zlen_nonneg].
  eapply (raw_read_mid (pr ++ pre) mid (post ++ po)); [by rewrite <- !app_assoc|by rewrite zlen_app|done].
Qed.

(** The parts of an input. *)
Definition outpoint_hash (i : TxIn) : list byte := take 32 (txin_outpoint i).
Definition outpoint_index (i : TxIn) : Z := le_val (drop 32 (txin_outpoint i)).

Section txin.
Context (i : TxIn) (Hi : txin_ok i).

Lemma outpoint_split : txin_outpoint i = outpoint_hash i ++ drop 32 (txin_outpoint i) /\
  zlen (outpoint_hash i) = 32 /\ zlen (drop 32 (txin_outpoint i)) = 4.
Proof using Hi.
  destruct Hi as (Ho & _). unfold outpoint_hash. rewrite take_drop. split; [done|].
  unfold zlen in *. rewrite length_take, length_drop. lia.
Qed.

Lemma zlen_enc_txin : zlen (enc_txin i) = 36 + zlen (var_bytes (txin_script i)) + 4.
Proof using Hi. destruct Hi as (Ho & Hs & _). unfold enc_txin. rewrite !zlen_app. lia. Qed.

Lemma txin_hash_read tail : zlen tail < 2 ^ 63 -> getSliceCopy (txin_outpoint i ++ tail) 0 32 = outpoint_hash i.
Proof using Hi.
  intros Ht. destruct outpoint_split as (E & Hh & Hd). rewrite E, <- app_assoc.
  pose proof (getSliceCopy_app [] (outpoint_hash i) (drop 32 (txin_outpoint i) ++ tail)) as Hg.
  rewrite Hh in Hg. apply Hg. cbn [app]. rewrite !zlen_app. unfold two64. lia.
Qed.

Lemma txin_index_read tail : u32_at (txin_outpoint i ++ tail) 32 = Ok (outpoint_index i).
Proof using Hi.
  destruct outpoint_split as (E & Hh & Hd). unfold u32_at, outpoint_index. rewrite E at 1. rewrite <- app_assoc.
  by rewrite (raw_read_mid (outpoint_hash i) (drop 32 (txin_outpoint i)) tail).
Qed.

Lemma txin_sequence_read : u32_at (enc_txin i) (zlen (enc_txin i) - 4) = Ok (le_val (txin_sequence i)).
Proof using Hi.
  pose proof zlen_enc_txin as E. destruct Hi as (Ho & Hs & _). unfold u32_at.
  rewrite (raw_read_mid (txin_outpoint i ++ var_bytes (txin_script i)) (txin_sequence i) []); [done| | |done].
  - unfold enc_txin. by rewrite app_nil_r, <- app_assoc.
  - rewrite E, zlen_app. lia.
Qed.
End txin.

(** ** What a stub tells of a transaction *)

Definition txin_data (i : TxIn) : TxInData := mkTxInData (outpoint_hash i) (outpoint_index i) (le_val (txin_sequence i)).

(** The bytes of the parts of a transaction, and what the digests cover. *)
Definition all_outpoints (tx : Tx) : list byte := concat (map txin_outpoint (tx_ins tx)).
Definition all_sequences (tx : Tx) : list byte := concat (map txin_sequence (tx_ins tx)).
Definition all_outputs (tx : Tx) : list byte := concat (map enc_txout (tx_outs tx)).

(** A stub of the transaction [tx], whose inputs spend these values: what the
    verifier promises of the transaction it has parsed, and the signer of the
    one it is making. *)
Class StubOf `{TransactionStub} (tx : Tx) (values : nat -> option Z) : Prop := {
  so_outputs : tx_outs tx ≠ [] -> getSerializedOutputScripts = Ok (all_outputs tx);
  so_ins : getTxInsData = Ok (map txin_data (tx_ins tx));
  so_count : getTxOutCount = zlen (tx_outs tx);
  so_version : getVersion = le_val (tx_version tx);
  so_locktime : getLockTime = le_val (tx_locktime tx);
  so_outpoints : serializeAllOutpoints = Ok (all_outpoints tx);
  so_sequences : serializeAllSequences = Ok (all_sequences tx);
  so_outpoint n i : tx_ins tx !! n = Some i -> getOutpoint (Z.of_nat n) = Ok (txin_outpoint i);
  so_value n v : values n = Some v -> getOutpointValue (Z.of_nat n) = Ok v;
  so_sequence n i : tx_ins tx !! n = Some i -> getTxInSequence (Z.of_nat n) = Ok (le_val (txin_sequence i));
}.

Section described.
Context `{HashFns}.
Variables (tx : Tx) (values : nat -> option Z).
Hypothesis (Hok : tx_ok tx).

Lemma ins_ok n i : tx_ins tx !! n = Some i -> txin_ok i.
Proof using Hok. intros Hi. pose proof (ok_ins tx Hok) as Ha. by apply (Forall_lookup_1 _ _ _ _ Ha Hi). Qed.

Lemma tx_counts_64 : is_uint 64 (zlen (tx_ins tx)) /\ is_uint 64 (zlen (tx_outs tx)).
Proof using Hok. destruct (tx_counts tx Hok) as (? & ? & _). unfold is_uint. pose proof (zlen_nonneg (tx_ins tx)). pose proof (zlen_nonneg (tx_outs tx)). lia. Qed.

Lemma script_code_ok pre code n st : getLastCodeSeparatorOffset n st = zlen pre -> zlen (pre ++ code) < two64 ->
  script_code (pre ++ code) n st = Ok code /\ wrap 64 (zlen (pre ++ code) - getLastCodeSeparatorOffset n st) = zlen code.
Proof.
  intros Hc Hs. unfold script_code. rewrite Hc, zlen_app in *. pose proof (zlen_nonneg pre). pose proof (zlen_nonneg code).
  replace (zlen pre + zlen code - zlen pre) with (zlen code) by lia.
  rewrite wrap_small by (unfold is_uint, two64 in *; lia). split; [|done].
  by apply (raw_read_mid pre code []); rewrite ?app_nil_r.
Qed.

(** An input as it is signed: all scripts are empty but that of the input that
    is signed. *)
Definition signing_in (n k : nat) (script : list byte) (i : TxIn) : TxIn :=
  mkTxIn (txin_outpoint i) (if bool_decide (k = n) then script else []) (txin_sequence i).
Fixpoint signing_ins (n k : nat) (script : list byte) (l : list TxIn) : list TxIn :=
  match l with [] => [] | i :: l => signing_in n k script i :: signing_ins n (S k) script l end.
Definition signing_tx (n : nat) (script : list byte) : Tx :=
  mkTx (tx_version tx) (signing_ins n 0 script (tx_ins tx)) (tx_outs tx) None (tx_locktime tx).

Lemma put_txins_str n script : zlen script < 2 ^ 63 -> forall l k w, Forall txin_ok l ->
  theString_ (put_txins (map txin_data l) (Z.of_nat k) (Z.of_nat n) script w) =
  theString_ w ++ concat (map enc_txin (signing_ins n k script l)).
Proof.
  intros Hs. pose proof (zlen_nonneg script). induction l as [|i l IH]; intros k w Hli; cbn [map put_txins signing_ins concat].
  { by rewrite app_nil_r. }
  inversion Hli as [|? ? Hi Hli']; subst. replace (Z.of_nat k + 1) with (Z.of_nat (S k)) by lia. rewrite IH by done.
  rewrite app_assoc. f_equal. destruct (outpoint_split i Hi) as (E & Hh & Hd). destruct Hi as (Ho & Hq & _).
  unfold signing_in, enc_txin. cbn [txin_outpoint txin_script txin_sequence txin_data outputHash_ outputIndex_ sequence_].
  destruct (Z.eqb_spec (Z.of_nat n) (Z.of_nat k)) as [En|En]; cbn [negb].
  - rewrite bool_decide_true by lia. autorewrite with bw.
    rewrite bw_put_var_int_str by (unfold is_uint; lia). autorewrite with bw.
    rewrite (int_to_le_val (txin_sequence i)), (int_to_le_val (drop 32 (txin_outpoint i))) by done.
    unfold var_bytes. rewrite E at 2. by rewrite <- !app_assoc.
  - rewrite bool_decide_false by lia. autorewrite with bw.
    rewrite (int_to_le_val (txin_sequence i)), (int_to_le_val (drop 32 (txin_outpoint i))) by done.
    unfold var_bytes. rewrite E at 2. by rewrite <- !app_assoc.
Qed.

Lemma signing_ins_length n k script l : length (signing_ins n k script l) = length l.
Proof. revert k. induction l as [|i l IH]; intros k; [done|]. simpl. by rewrite IH. Qed.

(** The object when it has computed the digests. *)
Definition pre_state (four : Z) : SigHashDataSegWit :=
  mkSegWit four true (getHash256 (all_outpoints tx)) (getHash256 (all_sequences tx)) (getHash256 (all_outputs tx)).

Definition bip143 (i : TxIn) (code : list byte) (value four : Z) : list byte :=
  tx_version tx ++ getHash256 (all_outpoints tx) ++ getHash256 (all_sequences tx) ++ txin_outpoint i ++ var_bytes code ++
  int_to LE 8 value ++ txin_sequence i ++ getHash256 (all_outputs tx) ++ tx_locktime tx ++ int_to LE 4 four.

(** *** The data, from what the stub tells *)

Context `{!TransactionStub} {Hstub : StubOf tx values}.

Lemma legacy_data_of pre code n st : tx_outs tx ≠ [] -> Forall item_ok code -> zlen (pre ++ enc_items code) < 2 ^ 63 ->
  getLastCodeSeparatorOffset (Z.of_nat n) st = zlen pre ->
  legacy_getDataForSigHashAll (pre ++ enc_items code) (Z.of_nat n) st =
  Ok (enc_tx (signing_tx n (enc_items (signed_code code))) ++ int_to LE 4 1).
Proof using Hok Hstub.
  intros Ho Hc Hs Hcs. unfold legacy_getDataForSigHashAll.
  destruct (script_code_ok pre (enc_items code) (Z.of_nat n) st) as [-> _]; [done|unfold two64; lia|].
  cbn [mbind result_bind]. pose proof (signed_script code Hc) as Hsig. rewrite zlen_app in Hs. pose proof (zlen_nonneg pre).
  specialize (Hsig ltac:(unfold two64; lia)).
  destruct (tokenize (enc_items code) OP_CODESEPARATOR_value) as [tokens|]; [|done]. cbn [mbind result_bind] in *.
  injection Hsig as Hsig. rewrite Hsig. cbn [mbind result_bind].
  rewrite (so_outputs Ho). cbn [mbind result_bind]. rewrite so_ins. cbn [mbind result_bind].
  destruct tx_counts_64 as [Hni Hno].
  pose proof (zlen_signed_code code) as Hle.
  f_equal. autorewrite with bw. change 0 with (Z.of_nat 0) at 1. rewrite put_txins_str by (lia || apply (ok_ins tx Hok)).
  rewrite so_version, so_locktime, so_count.
  replace (zlen (map txin_data (tx_ins tx))) with (zlen (tx_ins tx)) by (unfold zlen; by rewrite length_map). autorewrite with bw.
  rewrite (int_to_le_val (tx_version tx)), (int_to_le_val (tx_locktime tx)) by apply Hok.
  rewrite enc_tx_parts. unfold enc_inouts, enc_marker, enc_wits, signing_tx.
  cbn [tx_version tx_ins tx_outs tx_witnesses tx_locktime default map concat app].
  assert (zlen (signing_ins n 0 (enc_items (signed_code code)) (tx_ins tx)) = zlen (tx_ins tx)) as ->
    by (unfold zlen; by rewrite signing_ins_length).
  by rewrite <- !app_assoc.
Qed.
Lemma computePreState_of four o : tx_outs tx ≠ [] -> o = SegWit_new four \/ o = pre_state four ->
  computePreState o = Ok (pre_state four).
Proof using Hstub.
  intros Hout [->| ->]; [|done]. unfold computePreState. cbn [initialized_ SegWit_new].
  rewrite so_outpoints, so_sequences. cbn [mbind result_bind]. by rewrite (so_outputs Hout).
Qed.

Lemma segwit_data_of pre code n i v st four o : tx_outs tx ≠ [] -> tx_ins tx !! n = Some i -> values n = Some v ->
  zlen (pre ++ code) < two64 -> getLastCodeSeparatorOffset (Z.of_nat n) st = zlen pre ->
  o = SegWit_new four \/ o = pre_state four ->
  segwit_getDataForSigHashAll (pre ++ code) (Z.of_nat n) st o = Ok (bip143 i code v four, pre_state four).
Proof using Hok Hstub.
  intros Hout Hi Hv Hs Hcs Ho. unfold segwit_getDataForSigHashAll. pose proof (ins_ok n i Hi) as Hin.
  destruct (script_code_ok pre code (Z.of_nat n) st) as [-> ->]; [done..|]. cbn [mbind result_bind].
  rewrite (computePreState_of four) by done. cbn [mbind result_bind].
  rewrite (so_outpoint n i Hi). cbn [mbind result_bind]. rewrite (so_value n v Hv). cbn [mbind result_bind].
  rewrite (so_sequence n i Hi). cbn [mbind result_bind].
  rewrite zlen_app in Hs. pose proof (zlen_nonneg pre). pose proof (zlen_nonneg code).
  f_equal. f_equal. autorewrite with bw. rewrite bw_put_var_int_str by (unfold is_uint, two64 in *; lia).
  autorewrite with bw. rewrite so_version, so_locktime. destruct Hin as (_ & Hq & _).
  rewrite (int_to_le_val (tx_version tx)), (int_to_le_val (tx_locktime tx)), (int_to_le_val (txin_sequence i)) by (done || apply Hok).
  unfold bip143, var_bytes, pre_state. cbn [hashPrevouts_ hashSequence_ hashOutputs_ getSigHashAll_4Bytes app].
  by rewrite <- !app_assoc.
Qed.
End described.

(** ** The stub of a parsed transaction *)

Section stub.
Context `{HashFns}.
Variables (tx : Tx) (tl : list byte) (utxos : utxoMap) (flags : Z) (bch : bool).
Hypotheses (Hok : tx_ok tx) (Hl : zlen (enc_tx tx ++ tl) < two64).

Let tv : TransactionVerifier := mkVerifier (bctx_of tx tl) utxos flags bch.
#[local] Instance tx_stub : TransactionStub := verifier_stub tv.

Lemma txin_bytes_ok n i : tx_ins tx !! n = Some i -> txin_bytes tv (Z.of_nat n) = Ok (enc_txin i).
Proof using Hok Hl.
  intros Hi. destruct (item_at enc_txin (tx_ins tx) _ _ _ _ n i (ins_split tx tl) (ins_start_parts tx Hok) Hl Hi)
    as (o & Ho & Hr).
  unfold txin_bytes, getTxInRef. cbn [theTx_ txins_ bctx_of tv bctx_data].
  unfold znth. rewrite decide_True by lia. rewrite Nat2Z.id, Ho. cbn [mbind result_bind]. exact Hr.
Qed.
Lemma enc_txin_size n i : tx_ins tx !! n = Some i -> zlen (enc_txin i) < 2 ^ 32.
Proof using Hok.
  intros Hi. pose proof (ok_size tx Hok). pose proof (zlen_nonneg (enc_wits tx)).
  assert (zlen (enc_txin i) <= zlen (enc_tx tx)); [|lia].
  apply list_elem_of_split_length in Hi as (a & b & Ei & _).
  rewrite enc_tx_parts. unfold enc_inouts. rewrite Ei, map_app, concat_app. cbn [map concat].
  rewrite !zlen_app. repeat match goal with |- context [zlen ?l] => pose proof (zlen_nonneg l); generalize dependent (zlen l); intros end.
  lia.
Qed.

Lemma txins_data_ok l n : drop n (tx_ins tx) = l -> txins_data tv (length l) (Z.of_nat n) = Ok (map txin_data l).
Proof using Hok Hl.
  revert n. induction l as [|i l IH]; intros n Hd; [done|]. cbn [length txins_data].
  assert (tx_ins tx !! n = Some i) as Hi by (rewrite <- (Nat.add_0_r n), <- lookup_drop, Hd; done).
  pose proof (ins_ok tx Hok n i Hi) as Hin. pose proof (enc_txin_size n i Hi) as Hsz. pose proof (zlen_enc_txin i Hin) as Ez.
  rewrite (txin_bytes_ok n i Hi). cbn [mbind result_bind].
  pose proof (zlen_nonneg (var_bytes (txin_script i))).
  rewrite wrap_small by (unfold is_uint; lia). rewrite txin_sequence_read by done.
  rewrite (txin_index_read i Hin (var_bytes (txin_script i) ++ txin_sequence i) : u32_at (enc_txin i) 32 = _).
  cbn [mbind result_bind].
  replace (Z.of_nat n + 1) with (Z.of_nat (S n)) by lia.
  rewrite IH by (by rewrite (drop_S _ i) in Hd by done; injection Hd).
  cbn [mbind result_bind map]. do 2 f_equal. unfold txin_data, enc_txin. f_equal.
  apply txin_hash_read; [done|]. destruct Hin as (Ho & _). unfold enc_txin in Hsz. rewrite zlen_app in Hsz. lia.
Qed.

Lemma getTxInsData_ok : tv_getTxInsData tv = Ok (map txin_data (tx_ins tx)).
Proof using Hok Hl.
  unfold tv_getTxInsData. cbn [theTx_ tv bctx_of txins_]. rewrite off_sizes_length, length_map.
  by apply (txins_data_ok _ 0).
Qed.

Lemma getSerializedOutputScripts_ok : tx_outs tx ≠ [] ->
  tv_getSerializedOutputScripts tv = Ok (all_outputs tx).
Proof using Hok Hl.
  intros Ho. unfold tv_getSerializedOutputScripts, all_outputs. cbn [theTx_ tv bctx_of txouts_ bctx_data].
  pose proof (outs_split tx tl) as Es. pose proof (outs_start_parts tx Hok) as Eo. set (outs := concat (map enc_txout _)) in *.
  assert (0 <= outs_start tx /\ outs_start tx + zlen outs < two64) as [H0 H1].
  { rewrite Es in Hl. rewrite (zlen_app _ (outs ++ _)), (zlen_app outs), <- Eo in Hl.
    match goal with H : _ + (_ + zlen ?l) < _ |- _ => pose proof (zlen_nonneg l) end. rewrite Eo at 1.
    split; [apply zlen_nonneg|lia]. }
  destruct (off_sizes_last (outs_start tx) (map enc_txout (tx_outs tx))) as (o & s & -> & E); [done..|by destruct (tx_outs tx)|].
  destruct (tx_outs tx) as [|x l] eqn:Ex; [done|]. cbn [map]. unfold outs in *. cbn [map concat] in *.
  pose proof (zlen_nonneg (concat (map enc_txout l))) as Hn. rewrite zlen_app in H1, E.
  rewrite off_sizes_offsets by lia. cbn [head]. rewrite E.
  rewrite !wrap_small by (rewrite ?wrap_small; unfold is_uint, two64 in *; pose proof (zlen_nonneg (enc_txout x)); lia).
  eapply raw_read_mid; [exact Es|exact Eo|rewrite zlen_app; lia].
Qed.
Lemma zlen_txouts : getTxOutCount = zlen (tx_outs tx).
Proof. change getTxOutCount with (zlen (txouts_ (bctx_of tx tl))). unfold zlen. cbn. by rewrite off_sizes_length, length_map. Qed.

(** *** The form for segregated witnesses *)

Lemma getOutpoint_ok n i : tx_ins tx !! n = Some i -> tv_getOutpoint tv (Z.of_nat n) = Ok (txin_outpoint i).
Proof using Hok Hl.
  intros Hi. destruct (item_at enc_txin (tx_ins tx) _ _ _ _ n i (ins_split tx tl) (ins_start_parts tx Hok) Hl Hi)
    as (o & Ho & Hr).
  pose proof (lookup_lt_Some _ _ _ Hi). destruct (ins_ok tx Hok n i Hi) as (Hop & _).
  unfold tv_getOutpoint, txin_at. cbn [theTx_ txins_ bctx_of tv bctx_data].
  unfold zlen at 1. rewrite off_sizes_length, length_map. zsimp.
  unfold znth. rewrite decide_True by lia. rewrite Nat2Z.id, Ho. cbn [mbind result_bind].
  pose proof (raw_read_inside (enc_tx tx ++ tl) o [] (txin_outpoint i) (var_bytes (txin_script i) ++ txin_sequence i) Hr) as E.
  rewrite zlen_nil, Z.add_0_r, Hop in E. exact E.
Qed.

Lemma sequence_bytes_ok n i os : tx_ins tx !! n = Some i ->
  off_sizes (offsets (ins_start tx) (map enc_txin (tx_ins tx))) !! n = Some os ->
  sequence_bytes tv os = Ok (txin_sequence i).
Proof using Hok Hl.
  intros Hi Hos. destruct (item_at enc_txin (tx_ins tx) _ _ _ _ n i (ins_split tx tl) (ins_start_parts tx Hok) Hl Hi)
    as (o & Ho & Hr).
  rewrite Ho in Hos. injection Hos as <-. pose proof (ins_ok tx Hok n i Hi) as Hin. pose proof (zlen_enc_txin i Hin) as Ez.
  pose proof (raw_read_inv _ _ _ _ Hr (zlen_nonneg _)) as (pre & post & Ed & Ep & _).
  destruct Hin as (Hop & Hq & _). pose proof (zlen_nonneg (var_bytes (txin_script i))).
  unfold sequence_bytes. cbn [theTx_ bctx_of tv bctx_data fst snd].
  pose proof Hl as Hl'. rewrite Ed, !zlen_app in Hl'. pose proof (zlen_nonneg post). pose proof (zlen_nonneg pre).
  rewrite wrap_small by (unfold is_uint, two64 in *; lia).
  pose proof (raw_read_inside (enc_tx tx ++ tl) o (txin_outpoint i ++ var_bytes (txin_script i)) (txin_sequence i) []) as E.
  rewrite app_nil_r, <- app_assoc in E. specialize (E Hr). rewrite Hq, zlen_app in E.
  replace (o + zlen (enc_txin i) - 4) with (o + (zlen (txin_outpoint i) + zlen (var_bytes (txin_script i)))) by lia.
  exact E.
Qed.

Lemma getTxInSequence_ok n i : tx_ins tx !! n = Some i ->
  tv_getTxInSequence tv (Z.of_nat n) = Ok (le_val (txin_sequence i)).
Proof using Hok Hl.
  intros Hi. destruct (item_at enc_txin (tx_ins tx) _ _ _ _ n i (ins_split tx tl) (ins_start_parts tx Hok) Hl Hi)
    as (o & Ho & Hr).
  pose proof (lookup_lt_Some _ _ _ Hi). unfold tv_getTxInSequence, txin_at. cbn [theTx_ txins_ bctx_of tv].
  unfold zlen at 1. rewrite off_sizes_length, length_map. zsimp.
  unfold znth. rewrite decide_True by lia. rewrite Nat2Z.id, Ho. cbn [mbind result_bind].
  by rewrite (sequence_bytes_ok n i).
Qed.

Lemma put_outpoints_ok l n w : drop n (tx_ins tx) = l -> exists w',
  put_outpoints tv (length l) (Z.of_nat n) w = Ok w' /\ theString_ w' = theString_ w ++ concat (map txin_outpoint l).
Proof using Hok Hl.
  revert n w. induction l as [|i l IH]; intros n w Hd; [exists w; by rewrite app_nil_r|]. cbn [length put_outpoints].
  assert (tx_ins tx !! n = Some i) as Hi by (rewrite <- (Nat.add_0_r n), <- lookup_drop, Hd; done).
  rewrite (getOutpoint_ok n i Hi). cbn [mbind result_bind]. replace (Z.of_nat n + 1) with (Z.of_nat (S n)) by lia.
  destruct (IH (S n) (bw_put_BinaryData (txin_outpoint i) w)) as (w' & -> & E).
  { rewrite (drop_S _ i) in Hd by done. by injection Hd. }
  exists w'. split; [done|]. rewrite E. autorewrite with bw. by rewrite <- app_assoc.
Qed.

Lemma put_sequences_ok l n w : drop n (tx_ins tx) = l -> exists w',
  put_sequences tv (drop n (off_sizes (offsets (ins_start tx) (map enc_txin (tx_ins tx))))) w = Ok w' /\
  theString_ w' = theString_ w ++ concat (map txin_sequence l).
Proof using Hok Hl.
  revert n w. induction l as [|i l IH]; intros n w Hd.
  { exists w. rewrite drop_ge; [by rewrite app_nil_r|]. rewrite off_sizes_length, length_map.
    apply (f_equal length) in Hd. rewrite length_drop in Hd. simpl in Hd. lia. }
  assert (tx_ins tx !! n = Some i) as Hi by (rewrite <- (Nat.add_0_r n), <- lookup_drop, Hd; done).
  destruct (item_at enc_txin (tx_ins tx) _ _ _ _ n i (ins_split tx tl) (ins_start_parts tx Hok) Hl Hi) as (o & Ho & _).
  rewrite (drop_S _ _ _ Ho). cbn [put_sequences]. rewrite (sequence_bytes_ok n i _ Hi Ho). cbn [mbind result_bind].
  destruct (IH (S n) (bw_put_BinaryData (txin_sequence i) w)) as (w' & -> & E).
  { rewrite (drop_S _ i) in Hd by done. by injection Hd. }
  exists w'. split; [done|]. rewrite E. autorewrite with bw. by rewrite <- app_assoc.
Qed.

Lemma getWitnessData_ok n w : (default [] (tx_witnesses tx)) !! n = Some w ->
  tv_getWitnessData tv (Z.of_nat n) = Ok (enc_stack w).
Proof using Hok Hl.
  intros Hw. destruct (item_at enc_stack _ _ _ _ _ n w (wits_split tx tl) (wits_start_parts tx Hok) Hl Hw) as (o & Ho & Hr).
  unfold tv_getWitnessData. cbn [theTx_ tv bctx_of witnesses_ bctx_data].
  assert (segwit tx = true) as -> by (unfold segwit; by destruct (tx_witnesses tx)).
  unfold znth. rewrite decide_True by lia. by rewrite Nat2Z.id, Ho.
Qed.
(** The values of the outputs that are spent. *)
Definition spent_value (n : nat) : option Z :=
  i ← tx_ins tx !! n; u ← find_utxo utxos (outpoint_hash i) (outpoint_index i); Some (value_ u).

#[export] Instance verifier_StubOf : StubOf tx spent_value.
Proof using Hok Hl.
  split.
  - exact getSerializedOutputScripts_ok.
  - exact getTxInsData_ok.
  - exact zlen_txouts.
  - done.
  - done.
  - destruct (put_outpoints_ok (tx_ins tx) 0 bw_new eq_refl) as (w & E & S).
    change serializeAllOutpoints with (tv_serializeAllOutpoints tv). unfold tv_serializeAllOutpoints.
    cbn [theTx_ tv bctx_of txins_]. rewrite off_sizes_length, length_map. change 0 with (Z.of_nat 0). rewrite E.
    cbn [mbind result_bind]. by rewrite S.
  - destruct (put_sequences_ok (tx_ins tx) 0 bw_new eq_refl) as (w & E & S).
    change serializeAllSequences with (tv_serializeAllSequences tv). unfold tv_serializeAllSequences.
    cbn [theTx_ tv bctx_of txins_]. rewrite drop_0 in E. rewrite E. cbn [mbind result_bind]. by rewrite S.
  - exact getOutpoint_ok.
  - intros n v Hv. unfold spent_value in Hv. destruct (tx_ins tx !! n) as [i|] eqn:Hi; [|done].
    pose proof (ins_ok tx Hok n i Hi) as Hin.
    change (getOutpointValue (Z.of_nat n)) with (tv_getOutpointValue tv (Z.of_nat n)). unfold tv_getOutpointValue.
    rewrite (getOutpoint_ok n i Hi). cbn [mbind result_bind].
    pose proof (txin_index_read i Hin []) as E1. pose proof (txin_hash_read i Hin [] eq_refl) as E2.
    rewrite app_nil_r in E1, E2. rewrite E1. cbn [mbind result_bind utxos_ tv]. rewrite E2.
    cbn [mbind option_bind] in Hv. destruct (find_utxo _ _ _) as [u|]; [|done]. by injection Hv as <-.
  - exact getTxInSequence_ok.
Qed.

Lemma legacy_data pre code n st : tx_outs tx ≠ [] -> Forall item_ok code -> zlen (pre ++ enc_items code) < 2 ^ 63 ->
  getLastCodeSeparatorOffset (Z.of_nat n) st = zlen pre ->
  legacy_getDataForSigHashAll (pre ++ enc_items code) (Z.of_nat n) st =
  Ok (enc_tx (signing_tx tx n (enc_items (signed_code code))) ++ int_to LE 4 1).
Proof using Hok Hl. by apply (legacy_data_of tx spent_value Hok). Qed.

Lemma computePreState_ok four o : tx_outs tx ≠ [] -> o = SegWit_new four \/ o = pre_state tx four ->
  computePreState o = Ok (pre_state tx four).
Proof using Hok Hl. by apply (computePreState_of tx spent_value). Qed.

Lemma segwit_data pre code n i u st four o : tx_outs tx ≠ [] -> tx_ins tx !! n = Some i ->
  find_utxo utxos (outpoint_hash i) (outpoint_index i) = Some u ->
  zlen (pre ++ code) < two64 -> getLastCodeSeparatorOffset (Z.of_nat n) st = zlen pre ->
  o = SegWit_new four \/ o = pre_state tx four ->
  segwit_getDataForSigHashAll (pre ++ code) (Z.of_nat n) st o = Ok (bip143 tx i code (value_ u) four, pre_state tx four).
Proof using Hok Hl.
  intros Hout Hi Hu Hs Hcs Ho. apply (segwit_data_of tx spent_value Hok); try done.
  unfold spent_value. rewrite Hi. cbn. by rewrite Hu.
Qed.
End stub.

(** ** Properties *)

Section properties.
Context `{HashFns}.

(** The stub of what [bctx_parse] finds in the bytes of a transaction. *)
Definition parsed_stub (data : list byte) (utxos : utxoMap) (flags : Z) (bch : bool) : result TransactionStub :=
  t ← bctx_parse data (zlen data) UINT32_MAX; Ok (verifier_stub (mkVerifier t utxos flags bch)).

Lemma parsed_stub_ok tx tl utxos flags bch : tx_ok tx -> zlen (enc_tx tx ++ tl) < two64 ->
  parsed_stub (enc_tx tx ++ tl) utxos flags bch = Ok (tx_stub tx tl utxos flags bch).
Proof.
  intros Hok Hl. unfold parsed_stub. rewrite bctx_parse_ok; [done|done|done|]. rewrite zlen_app. pose proof (zlen_nonneg tl). lia.
Qed.

(** C22: what a signature of the original kind signs, for a transaction that
    was parsed from its bytes: the transaction without witnesses whose inputs
    have empty scripts, but the one that is signed, which has the script from
    the last executed separator on; then the hash type, 1, and no other is
    supported.  The script from there on is made of pushes and of opcodes that
    are no conditionals.  The separators in it are left out, except where they
    cut it into a single piece ([signed_code]): a script whose only separator is
    its last opcode is signed with it. *)
Theorem legacy_preimage tx tl utxos flags bch pre code n st : tx_ok tx -> tx_outs tx ≠ [] ->
  zlen (enc_tx tx ++ tl) < two64 -> Forall item_ok code -> zlen (pre ++ enc_items code) < 2 ^ 63 ->
  getLastCodeSeparatorOffset (Z.of_nat n) st = zlen pre ->
  exists stub, parsed_stub (enc_tx tx ++ tl) utxos flags bch = Ok stub /\ forall hashType,
    getDataForSigHash SigHashDataLegacy hashType (pre ++ enc_items code) (Z.of_nat n) st =
    if hashType =? SIGHASH_ALL then
      Ok (enc_tx (signing_tx tx n (enc_items (signed_code code))) ++ int_to LE 4 1, st)
    else Err UnsupportedSigHash.
Proof.
  intros Hok Ho Hl Hc Hs Hsep. eexists. split; [by apply parsed_stub_ok|]. intros hashType. unfold getDataForSigHash.
  destruct (hashType =? SIGHASH_ALL); cbn [negb]; [|done].
  pose proof (legacy_data tx tl utxos flags bch Hok Hl pre code n st Ho Hc Hs Hsep) as E. by rewrite E.
Qed.

(** C20: what a signature of a segregated-witness input signs, for a transaction
    that was parsed from its bytes: with hash type 1, and no other is supported,
    the fields that BIP143 lists, with as script code the script from the last
    executed separator on, that separator included, and with 1 as the last four
    bytes for bitcoin and 0x41 for the fork.  Where no separator was executed
    the script code is the whole script, and the preimage is that of BIP143,
    which would leave the separator out.  The object keeps the digests and gives
    the same for the next input. *)
Theorem bip143_preimage tx tl utxos flags bch pre code n i u st id four o : tx_ok tx -> tx_outs tx ≠ [] ->
  zlen (enc_tx tx ++ tl) < two64 -> tx_ins tx !! n = Some i ->
  find_utxo utxos (outpoint_hash i) (outpoint_index i) = Some u -> zlen (pre ++ code) < two64 ->
  getLastCodeSeparatorOffset (Z.of_nat n) st = zlen pre ->
  segwit_objs st !! id = Some o -> o = SegWit_new four \/ o = pre_state tx four ->
  exists stub, parsed_stub (enc_tx tx ++ tl) utxos flags bch = Ok stub /\ forall hashType,
    getDataForSigHash (SegWitAt id) hashType (pre ++ code) (Z.of_nat n) st =
    if hashType =? SIGHASH_ALL then
      Ok (bip143 tx i code (value_ u) four,
          mkStubState (lastCodeSeparatorMap_ st) (<[id := pre_state tx four]> (segwit_objs st)))
    else Err UnsupportedSigHash.
Proof.
  intros Hok Ho Hl Hi Hu Hs Hsep Hid Hobj. eexists. split; [by apply parsed_stub_ok|]. intros hashType. unfold getDataForSigHash.
  destruct (hashType =? SIGHASH_ALL); cbn [negb]; [|done]. rewrite Hid.
  pose proof (segwit_data tx tl utxos flags bch Hok Hl pre code n i u st four o Ho Hi Hu Hs Hsep Hobj) as E. by rewrite E.
Qed.
End properties.

Definition w_tx : Tx :=
  mkTx (int_to LE 4 1) [mkTxIn (replicate 32 (z2b 9) ++ int_to LE 4 3) [z2b 1] (replicate 4 (z2b 255)); some_txin]
    [some_txout] None (int_to LE 4 0).

Lemma w_tx_ok : tx_ok w_tx.
Proof.
  constructor; [vm_compute; reflexivity|vm_compute; reflexivity|vm_compute; discriminate| | |exact I|vm_compute; reflexivity];
    repeat (constructor; [repeat split; vm_compute; reflexivity|]); constructor.
Qed.

Lemma legacy_preimage_witness : exists stub, parsed_stub (enc_tx w_tx ++ []) [] 0 false = Ok stub /\
  @getDataForSigHash toy_hashes stub SigHashDataLegacy 1 ([z2b 118] ++ enc_items [IOp 171; IOp 135; IOp 171; IOp 172]) 1
    (setLastOpCodeSeparator 1 1 StubState_new) =
  Ok (enc_tx (signing_tx w_tx 1 (map z2b [135; 172])) ++ int_to LE 4 1, setLastOpCodeSeparator 1 1 StubState_new).
Proof.
  destruct (@legacy_preimage toy_hashes w_tx [] [] 0 false [z2b 118] [IOp 171; IOp 135; IOp 171; IOp 172] 1
    (setLastOpCodeSeparator 1 1 StubState_new) w_tx_ok ltac:(discriminate) ltac:(vm_compute; reflexivity)) as (stub & E & Hd).
  - repeat constructor; cbn; lia.
  - vm_compute. reflexivity.
  - vm_compute. reflexivity.
  - exists stub. split; [exact E|]. etrans; [exact (Hd 1)|]. vm_compute. reflexivity.
Defined.

Lemma bip143_preimage_witness : exists stub,
  let utxos := [(replicate 32 (z2b 9), [(3, mkUTXO [] 0 0 0 5000 [] false 0 false 0 0)])] in
  parsed_stub (enc_tx w_tx ++ []) utxos 0 false = Ok stub /\
  exists st, @getDataForSigHash toy_hashes stub (SegWitAt 0) 1 [z2b 118] 0 (new_segwit 1 StubState_new).2 =
  Ok (@bip143 toy_hashes w_tx (mkTxIn (replicate 32 (z2b 9) ++ int_to LE 4 3) [z2b 1] (replicate 4 (z2b 255)))
        [z2b 118] 5000 1, st).
Proof.
  destruct (@bip143_preimage toy_hashes w_tx [] [(replicate 32 (z2b 9), [(3, mkUTXO [] 0 0 0 5000 [] false 0 false 0 0)])] 0 false
    [] [z2b 118] 0 (mkTxIn (replicate 32 (z2b 9) ++ int_to LE 4 3) [z2b 1] (replicate 4 (z2b 255)))
    (mkUTXO [] 0 0 0 5000 [] false 0 false 0 0) (new_segwit 1 StubState_new).2 0 1 (SegWit_new 1)
    w_tx_ok ltac:(discriminate) ltac:(vm_compute; reflexivity)) as (stub & E & Hd).
  - reflexivity.
  - vm_compute. reflexivity.
  - vm_compute. reflexivity.
  - vm_compute. reflexivity.
  - reflexivity.
  - left. reflexivity.
  - exists stub. cbv zeta. split; [exact E|]. eexists. exact (Hd 1).
Defined.
