(* ===== verification/InterpreterProps.v ===== *)
(** * InterpreterProps: running scripts

    Lemmas that run a script opcode by opcode, and the theorems on what
    standard scripts do, on conditionals, and on the recursion of the
    interpreter. *)

From S2P Require Import Prelude BinaryData BinaryIO Hashing StdMap TxLength ScriptParser ScriptParserProps.
From S2P Require Import SigHash TxEvalState Interpreter InterpreterFrame ScriptUtils.

(** ** The monad *)

Lemma script_bind_ok {A B} (m : Script A) (f : A -> Script B) vm vm' a :
  m vm = (vm', Ok a) -> (m ≫= f) vm = f a vm'.
Proof. unfold mbind, script_bind. by intros ->. Qed.

Lemma script_bind_err {A B} (m : Script A) (f : A -> Script B) vm vm' e :
  m vm = (vm', Err e) -> (m ≫= f) vm = (vm', Err e).
Proof. unfold mbind, script_bind. by intros ->. Qed.

Lemma lift_bind_ok {A B} (r : result A) (f : A -> Script B) vm a : r = Ok a -> (lift r ≫= f) vm = f a vm.
Proof. intros ->. done. Qed.

Lemma lift_bind_err {A B} (r : result A) (f : A -> Script B) vm e : r = Err e -> (lift r ≫= f) vm = (vm, Err e).
Proof. intros ->. done. Qed.

Lemma get_bind {A B} (g : StackInterpreter -> A) (f : A -> Script B) vm : (get g ≫= f) vm = f (g vm.1) vm.
Proof. done. Qed.

Lemma get_bind_bind {A B C} (g : StackInterpreter -> A) (f : A -> Script B) (k : B -> Script C) vm :
  ((x ← get g; f x) ≫= k) vm = (f (g vm.1) ≫= k) vm.
Proof. done. Qed.

Lemma modify_bind {B} g (f : () -> Script B) vm : (modify g ≫= f) vm = f tt (g vm.1, vm.2).
Proof. done. Qed.

Lemma pop_back_ok {B} (f : list byte -> Script B) s st d l : stack_ s = d :: l ->
  (pop_back ≫= f) (s, st) = f d (set_stack l s, st).
Proof. intros E. unfold mbind, script_bind, pop_back. unfold mbind, script_bind, get. simpl. by rewrite E. Qed.

Lemma read_bind_ok {A B} buf brr (r : result A) (f : A -> Script B) vm a : alive buf vm.1 = true -> r = Ok a ->
  (read_from buf brr r ≫= f) vm = f a vm.
Proof. intros Ha ->. unfold mbind, script_bind, read_from. rewrite Ha. by rewrite andb_false_r. Qed.

(** Steps of the monad whose outcome is known. *)
Ltac sstep :=
  first
    [ rewrite get_bind | rewrite modify_bind
    | erewrite pop_back_ok by reflexivity
    | erewrite lift_bind_ok by (reflexivity || eassumption)
    | erewrite script_bind_ok by (reflexivity || eassumption) ];
  cbn [fst snd].

(** The number of saved scripts. *)
Definition same_count (vm vm' : Vm) : Prop := p2shCount_ vm'.1 = p2shCount_ vm.1.

#[export] Instance same_count_frame : QuietFrame same_count.
Proof. split; unfold same_count; try done. split; [intros ?; done|]. by intros a b c -> ->. Qed.

Lemma int_bytes_small n : 1 <= n <= 20 -> intToRawBinary n = Ok [z2b n].
Proof.
  intros Hn. assert (forallb (fun n => bool_decide (intToRawBinary (Z.of_nat n) = Ok [z2b (Z.of_nat n)])) (seq 1 20) = true)
    as Hall by (vm_compute; reflexivity).
  rewrite forallb_forall in Hall. specialize (Hall (Z.to_nat n)). rewrite Z2Nat.id in Hall by lia.
  apply bool_decide_eq_true in Hall; [done|]. apply in_seq. lia.
Qed.

Section run.
Context `{HashFns} `{CryptoECDSA} `{TransactionStub}.
Variable rec : Buffer -> BinaryRefReader -> bool -> Script ().
Variable buf : Buffer.

(** ** Opcode by opcode *)

Fixpoint run_ops (ocs : list OpCode) : Script () :=
  match ocs with
  | [] => mret tt
  | oc :: ocs => _ ← processOpCode rec buf oc; run_ops ocs
  end.

(** The memory of a script is there while it runs: it outlasts the run, or only
    the last opcode may save a script. *)
Definition lasting : bool := match buf with Lasting | Local => true | _ => false end.
Definition quiet_item (it : item) : Prop := match it with IPush _ => True | IOp v => quiet_code v = true end.
Definition readable (its : list item) (s : StackInterpreter) : Prop :=
  its = [] \/ lasting = true \/ alive buf s = true /\ Forall quiet_item (removelast its).

Lemma readable_alive it its s : readable (it :: its) s -> alive buf s = true.
Proof. unfold readable, lasting. intros [?|[Hl|[Ha _]]]; [done|by destruct buf|done]. Qed.

Lemma readable_next it its p vm : item_ok it -> readable (it :: its) vm.1 ->
  readable its (processOpCode rec buf (op_of p it) vm).1.1.
Proof.
  intros Hok [?|[Hl|[Ha Hq]]]; [done|by right; left|]. destruct its as [|it' its]; [by left|].
  right. right. cbn [removelast] in Hq. apply Forall_cons in Hq as [Hq Hqs]. split; [|done].
  assert (quiet_code (oc_opcode (op_of p it)) = true) as Hc.
  { destruct it as [d|v]; [|exact Hq]. unfold quiet_code, opcode_at. simpl in Hok.
    assert (0 < push_value d < 79) by (unfold push_value; repeat zcase; lia).
    cbn [oc_opcode op_of]. destruct (znth opcodes _) eqn:E; [|done]. apply znth_Some_range in E. lia. }
  pose proof (keeps_opcode_of same_count rec buf _ (keeps_quiet_switch same_count rec buf _ Hc) vm) as Hk.
  unfold same_count in Hk. unfold alive in *. by rewrite Hk.
Qed.

Lemma parse_items its : forall pre fuel vm, Forall item_ok its -> zlen (pre ++ enc_items its) < two64 ->
  (length its < fuel)%nat -> readable its vm.1 ->
  parseScript_loop rec buf fuel (brr_at pre (enc_items its)) vm = run_ops (ops_of (zlen pre) its) vm.
Proof.
  induction its as [|it its IH]; intros pre fuel vm Hok Hl Hf Hr; (destruct fuel as [|fuel]; [simpl in Hf; lia|]).
  - cbn [parseScript_loop]. rewrite brr_remaining_at by done. done.
  - inversion Hok as [|? ? Hit Hits]; subst. cbn [parseScript_loop].
    unfold enc_items in *. cbn [map concat] in *. fold (enc_items its) in *.
    pose proof (script_item_pos it Hit). rewrite brr_remaining_at by done.
    replace (zlen (enc_item it ++ enc_items its) =? 0) with false by (rewrite zlen_app; zlen_lia).
    cbn [negb]. erewrite read_bind_ok; [|by eapply readable_alive|by apply (getNextOpcode_item (zlen pre) it Hit pre _ eq_refl)]. cbv beta iota. cbn [ops_of run_ops].
    pose proof (readable_next it its (zlen pre) vm Hit Hr) as Hn.
    unfold mbind, script_bind. destruct (processOpCode rec buf (op_of (zlen pre) it) vm) as [vm' [[]|e]]; [|done].
    rewrite <- zlen_app. apply IH; [done|by rewrite <- app_assoc|simpl in Hf; lia|done].
Qed.

Lemma parse_script its vm : Forall item_ok its -> zlen (enc_items its) < two64 -> readable its vm.1 ->
  parseScript rec buf (brr_setNewData (enc_items its)) vm = run_ops (ops_of 0 its) vm.
Proof.
  intros Hok Hl Hr. unfold parseScript. rewrite brr_setNewData_at. apply parse_items; try done.
  pose proof (items_length its Hok). unfold parse_fuel. simpl. lia.
Qed.

Definition count (s : StackInterpreter) : StackInterpreter := set_opcount (wrap 32 (opcount_ s + 1)) s.
(** Before an opcode that is no push. *)
Definition enter_op (s : StackInterpreter) : StackInterpreter :=
  let s := count s in if zlen (outputScriptRef_ s) =? 0 then set_onlyPushData false s else s.

Lemma process_push p d s st : item_ok (IPush d) ->
  processOpCode rec buf (mkOpCode p (push_value d) d) (s, st) = ((set_stack (d :: stack_ s) (count s), st), Ok tt).
Proof.
  intros Hd. simpl in Hd. unfold processOpCode. rewrite modify_bind. cbn [oc_opcode oc_dataRef fst snd].
  assert (0 < push_value d < 79) by (unfold push_value; repeat zcase; lia).
  destruct (Z.leb_spec (push_value d) 75); zsimp; done.
Qed.

Lemma process_op p v op d s st : opcode_at v = Some op ->
  processOpCode rec buf (mkOpCode p v d) (s, st) = process_switch rec buf (mkOpCode p v d) (enter_op s, st).
Proof.
  intros Hop. assert (97 <= v) as Hv.
  { unfold opcode_at in Hop. apply znth_Some_range in Hop. lia. }
  unfold processOpCode. rewrite modify_bind. cbn [oc_opcode oc_dataRef fst snd]. zsimp.
  rewrite modify_bind. done.
Qed.

Lemma process_0 p d s st : processOpCode rec buf (mkOpCode p 0 d) (s, st) = ((set_stack ([] :: stack_ s) (count s), st), Ok tt).
Proof. done. Qed.

Lemma process_num p n d s st : 1 <= n <= 16 ->
  processOpCode rec buf (mkOpCode p (80 + n) d) (s, st) = ((set_stack ([z2b n] :: stack_ s) (count s), st), Ok tt).
Proof.
  intros Hn. unfold processOpCode. rewrite modify_bind. cbn [oc_opcode oc_dataRef fst snd]. zsimp.
  replace (80 + n - 80) with n by lia. unfold push_int. erewrite lift_bind_ok by (apply int_bytes_small; lia). done.
Qed.
End run.

(** The bytes of a script of items. *)
Lemma p2pkh_items h : zlen h = 20 -> p2pkh_script h = enc_items [IOp 118; IOp 169; IPush h; IOp 136; IOp 172].
Proof. intros Hh. unfold enc_items, p2pkh_script. simpl. unfold push_header. rewrite Hh. by rewrite <- app_assoc. Qed.

Lemma p2sh_items h : zlen h = 20 -> p2sh_script h = enc_items [IOp 169; IPush h; IOp 135].
Proof. intros Hh. unfold enc_items, p2sh_script. simpl. unfold push_header. rewrite Hh. by rewrite <- app_assoc. Qed.

(** ** Signatures *)

Section signatures.
Context `{HashFns} `{CryptoECDSA} `{TransactionStub}.

(** What a signature check computes: the hash type is the last byte, the rest
    is in DER form. *)
Definition check_signature (shd : SigHashData) (bch : bool) (script : list byte) (index : Z)
    (body : list byte) (b : byte) (pubkey : list byte) (st : StubState) : result (bool * StubState) :=
  hashType ← getSigHashSingleByte bch (b2z b);
  '(data, st) ← getDataForSigHash shd hashType script index st;
  rs ← extractRSFromDERSig body;
  Ok (VerifyData data rs (DecodePoint pubkey), st).

Definition signing_object (s : StackInterpreter) : SigHashData := default SigHashDataLegacy (sigHashDataObject_ s).

Definition checksig_eval (r : bool) (pubkey : list byte) (e : TxInEvalState) : TxInEvalState :=
  let e := set_n_m 1 1 e in
  if r then set_pubKeyState (map_insert pubkey true (pubKeyState_ e)).1 e else e.

(** The interpreter after a signature that was checked. *)
Definition after_checksig (r : bool) (pubkey : list byte) (l : list (list byte)) (s : StackInterpreter) : StackInterpreter :=
  set_stack ((if r then [z2b 1] else []) :: l)
    (set_sigHashObject (Some (signing_object s)) (set_evalState (checksig_eval r pubkey (txInEvalState_ s)) s)).

Lemma sig_split body b : zlen (body ++ [b]) < two64 ->
  brr_get_BinaryData (zlen (body ++ [b]) - 1) (brr_setNewData (body ++ [b])) = Ok (body, brr_at body [b]) /\
  brr_get_uint8_t (brr_at body [b]) = Ok (b2z b, brr_at (body ++ [b]) []).
Proof.
  intros Hl. split; [|by apply brr_get_uint8_t_parses'].
  rewrite zlen_app. change (zlen [b]) with 1. rewrite Z.add_simpl_r, brr_setNewData_at.
  by apply (brr_get_BinaryData_parses (zlen body) body eq_refl [] [b]).
Qed.

Lemma op_checksig_short s st pk sig l : stack_ s = pk :: sig :: l -> zlen sig < 65 ->
  op_checksig (s, st) = ((set_stack ([] :: l) s, st), Ok tt).
Proof.
  intros Es Hs. unfold op_checksig, need. unfold mbind at 1, script_bind at 1. rewrite get_bind. cbn [fst]. rewrite Es.
  rewrite bool_decide_false by (simpl; lia). cbn [mret script_ret].
  rewrite (pop_back_ok _ _ _ _ _ Es). rewrite (pop_back_ok _ _ _ sig l) by done. zsimp. done.
Qed.

Lemma need_sigHashObject_ok {B} (f : SigHashData -> Script B) s st :
  (need_sigHashObject ≫= f) (s, st) =
  f (signing_object s) (set_sigHashObject (Some (signing_object s)) s, st).
Proof.
  unfold need_sigHashObject, signing_object. unfold mbind at 1, script_bind at 1. rewrite get_bind. cbn [fst].
  destruct (sigHashDataObject_ s) as [o|] eqn:E; [|done]. destruct s; simpl in *. by subst.
Qed.

(** What a run may do to the stub: an object computes its digests. *)
Definition obj_evolves (o o' : SigHashDataSegWit) : Prop := o' = o \/ computePreState o = Ok o'.
Definition stub_evolves (st st' : StubState) : Prop :=
  lastCodeSeparatorMap_ st' = lastCodeSeparatorMap_ st /\ Forall2 obj_evolves (segwit_objs st) (segwit_objs st').

Lemma stub_evolves_refl st : stub_evolves st st.
Proof. split; [done|]. induction (segwit_objs st); constructor; [by left|done]. Qed.
#[local] Hint Resolve stub_evolves_refl : core.

Lemma getDataForSigHash_evolves shd ht script index st data st' :
  getDataForSigHash shd ht script index st = Ok (data, st') -> stub_evolves st st'.
Proof.
  unfold getDataForSigHash. destruct (negb _); [done|]. destruct shd as [|id].
  - destruct (legacy_getDataForSigHashAll _ _ _); [|done]. by intros [=_ <-].
  - destruct (segwit_objs st !! id) as [o|] eqn:Eo; [|done].
    destruct (segwit_getDataForSigHashAll _ _ _ _) as [[d o']|] eqn:E; [|done].
    intros [=_ <-]. split; [done|]. cbn [segwit_objs]. apply Forall2_same_length_lookup_2; [by rewrite length_insert|].
    intros i x y Hx Hy. apply list_lookup_insert_Some in Hy as [(-> & -> & _)|[_ Hy]]; [|left; congruence].
    right. rewrite Eo in Hx. injection Hx as <-. unfold segwit_getDataForSigHashAll in E.
    destruct (script_code _ _ _); [|done]. cbn [mbind result_bind] in E. destruct (computePreState o) as [o1|]; [|done].
    cbn [mbind result_bind] in E.
    destruct (getOutpoint index); [|done]. cbn [mbind result_bind] in E. destruct (getOutpointValue index); [|done].
    cbn [mbind result_bind] in E. destruct (getTxInSequence index); [|done]. cbn [mbind result_bind] in E. by injection E as _ ->.
Qed.

(** A run that throws. *)
Definition throws (run : Vm * result ()) (st : StubState) (e : exn) : Prop :=
  exists s' st', run = ((s', st'), Err e) /\ stub_evolves st st'.

Lemma throws_intro s' st' st e : stub_evolves st st' -> throws ((s', st'), Err e) st e.
Proof. intros E. by exists s', st'. Qed.

(** A run that throws, or tells whether the input is valid. *)
Definition yields (run : Vm * result ()) (st : StubState) (v : result bool) : Prop :=
  exists s' st' r, run = ((s', st'), r) /\ stub_evolves st st' /\ (_ ← r; Ok (txin_isValid (txInEvalState_ s'))) = v.

Lemma yields_err s' st' st e : stub_evolves st st' -> yields ((s', st'), Err e) st (Err e).
Proof. intros E. by exists s', st', (Err e). Qed.

Lemma yields_ok s' st' st b : stub_evolves st st' -> txin_isValid (txInEvalState_ s') = b -> yields ((s', st'), Ok tt) st (Ok b).
Proof. intros E Eb. exists s', st', (Ok tt). cbn. by rewrite Eb. Qed.

Lemma yields_throws (m : Script ()) f vm st e : throws (m vm) st e -> yields ((_ ← m; f) vm) st (Err e).
Proof. intros (s' & st' & E & Es). rewrite (script_bind_err _ _ _ _ _ E). by apply yields_err. Qed.

Lemma op_checksig_run s st pk body b l : stack_ s = pk :: (body ++ [b]) :: l ->
  65 <= zlen (body ++ [b]) < 2 ^ 32 -> alive (outputBuf_ s) s = true ->
  match check_signature (signing_object s) (is_BCH s) (outputScriptRef_ s) (inputIndex_ s) body b pk st with
  | Err e => throws (op_checksig (s, st)) st e
  | Ok (r, st') => op_checksig (s, st) = ((after_checksig r pk l s, st'), Ok tt)
  end.
Proof.
  intros Es Hs Ha. destruct (sig_split body b) as [E1 E2]; [unfold two64; lia|].
  remember (op_checksig (s, st)) as run eqn:Er. unfold op_checksig, need in Er. unfold mbind at 1, script_bind at 1 in Er.
  rewrite get_bind in Er. cbn [fst] in Er. rewrite Es, bool_decide_false in Er by (simpl; lia). cbn [mret script_ret] in Er.
  rewrite (pop_back_ok _ _ _ _ _ Es), (pop_back_ok _ _ _ (body ++ [b]) l) in Er by done.
  rewrite (proj2 (Z.ltb_ge _ _)) in Er by lia. unfold modify_eval in Er. rewrite modify_bind in Er. cbn [fst snd] in Er.
  rewrite wrap_small in Er by (unfold is_uint; lia).
  rewrite (lift_bind_ok _ _ _ _ E1), (lift_bind_ok _ _ _ _ E2), get_bind in Er. cbn [fst] in Er. unfold check_signature.
  change (is_BCH (set_evalState _ _)) with (is_BCH s) in Er.
  destruct (getSigHashSingleByte (is_BCH s) (b2z b)) as [ht|e]; [|subst; by apply throws_intro]. cbn [mbind result_bind].
  erewrite lift_bind_ok, need_sigHashObject_ok in Er by done.
  unfold sighash_data in Er. unfold mbind at 1, script_bind at 1 in Er. cbn [fst snd] in Er.
  change (alive (outputBuf_ _) _) with (alive (outputBuf_ s) s) in Er. rewrite Ha, andb_false_r in Er.
  change (getDataForSigHash _ _ _ _ _) with (getDataForSigHash (signing_object s) ht (outputScriptRef_ s) (inputIndex_ s) st) in Er.
  destruct (getDataForSigHash _ _ _ _ _) as [[data st']|e] eqn:Ed; [|subst; by apply throws_intro]. cbn [mbind result_bind].
  apply getDataForSigHash_evolves in Ed. destruct (extractRSFromDERSig body) as [rs|e]; [|subst; by apply throws_intro].
  erewrite lift_bind_ok in Er by done. cbn [mbind result_bind].
  destruct (VerifyData data rs (DecodePoint pk)); done.
Qed.
End signatures.
#[export] Hint Resolve stub_evolves_refl : core.

(** ** Pay to public-key hash *)

Lemma enter_op_output s : 0 < zlen (outputScriptRef_ s) -> enter_op s = count s.
Proof. intros Hs. unfold enter_op. change (outputScriptRef_ (count s)) with (outputScriptRef_ s). by zsimp. Qed.

Section p2pkh.
Context `{HashFns} `{CryptoECDSA} `{TransactionStub}.
Variable rec : Buffer -> BinaryRefReader -> bool -> Script ().
Variable buf : Buffer.

Lemma process_DUP p s st d l : stack_ s = d :: l ->
  processOpCode rec buf (op_of p (IOp 118)) (s, st) = ((set_stack (d :: d :: l) (enter_op s), st), Ok tt).
Proof.
  intros Es. unfold op_of. rewrite (process_op rec buf p 118 OP_DUP) by done.
  assert (stack_ (enter_op s) = d :: l) as E by (unfold enter_op; by destruct (_ =? _)).
  unfold process_switch. cbn [oc_opcode]. change (opcode_at 118) with (Some OP_DUP). cbv iota.
  unfold op_dup, stack_back. unfold mbind at 1, script_bind at 1. rewrite get_bind. cbn [fst]. rewrite E.
  unfold mret, script_ret, push_back, modify. cbn [fst snd]. by rewrite E.
Qed.

Lemma process_HASH160 p s st d l : stack_ s = d :: l -> opcount_ s ≠ 0 -> is_uint 16 (opcount_ s) ->
  processOpCode rec buf (op_of p (IOp 169)) (s, st) = ((set_stack (getHash160 d :: l) (enter_op s), st), Ok tt).
Proof.
  intros Es Hc Hu. unfold op_of. rewrite (process_op rec buf p 169 OP_HASH160) by done.
  assert (stack_ (enter_op s) = d :: l) as E by (unfold enter_op; by destruct (_ =? _)).
  assert (opcount_ (enter_op s) = opcount_ s + 1) as Ec.
  { unfold is_uint in Hu. transitivity (wrap 32 (opcount_ s + 1)); [unfold enter_op; by destruct (_ =? _)|].
    apply wrap_small. unfold is_uint. lia. }
  unfold process_switch. cbn [oc_opcode]. change (opcode_at 169) with (Some OP_HASH160). cbv iota.
  unfold save_p2sh. unfold mbind at 1, script_bind at 1. rewrite !get_bind. cbn [fst]. rewrite Ec. zsimp.
  rewrite andb_false_r. cbn [mret script_ret]. unfold op_hash160. by rewrite (pop_back_ok _ _ _ _ _ E).
Qed.
Lemma stack_enter_op s : stack_ (enter_op s) = stack_ s.
Proof. unfold enter_op. by destruct (_ =? _). Qed.

Lemma op_equal_run s st a b l : stack_ s = a :: b :: l ->
  op_equal (s, st) = ((set_stack ([z2b (if equal a b then 1 else 0)] :: l) s, st), Ok tt).
Proof. intros Es. unfold op_equal. rewrite (pop_back_ok _ _ _ _ _ Es). by rewrite (pop_back_ok _ _ _ b l). Qed.

Lemma op_verify_run s st d l : stack_ s = d :: l ->
  op_verify (s, st) = ((set_isValid (notZero d) (set_stack l s), st), if notZero d then Ok tt else Err ScriptError).
Proof.
  intros Es. unfold op_verify. rewrite (pop_back_ok _ _ _ _ _ Es), modify_bind. cbn [fst snd].
  by destruct (notZero d).
Qed.

Lemma notZero_bool (b : bool) : notZero [z2b (if b then 1 else 0)] = b.
Proof. by destruct b; vm_compute. Qed.

Lemma process_EQUALVERIFY p s st a b l : stack_ s = a :: b :: l ->
  processOpCode rec buf (op_of p (IOp 136)) (s, st) =
  ((set_isValid (equal a b) (set_stack l (enter_op s)), st), if equal a b then Ok tt else Err ScriptError).
Proof.
  intros Es. unfold op_of. rewrite (process_op rec buf p 136 OP_EQUALVERIFY) by done. rewrite <- stack_enter_op in Es.
  unfold process_switch. cbn [oc_opcode]. change (opcode_at 136) with (Some OP_EQUALVERIFY). cbv iota.
  rewrite (script_bind_ok _ _ _ _ _ (op_equal_run _ _ _ _ _ Es)). erewrite op_verify_run by done.
  by rewrite notZero_bool.
Qed.

Lemma process_CHECKSIG p vm : processOpCode rec buf (mkOpCode p 172 []) vm = op_checksig (enter_op vm.1, vm.2).
Proof. destruct vm as [s st]. by rewrite (process_op rec buf p 172 OP_CHECKSIG). Qed.

(** The interpreter where a script for a key's hash comes to its OP_CHECKSIG. *)
Definition at_checksig (stack : list (list byte)) (s : StackInterpreter) : StackInterpreter :=
  set_isValid true (set_opcount 5 (set_stack stack s)).

Lemma run_hash_check h pk l s st : zlen h = 20 -> opcount_ s = 0 -> 0 < zlen (outputScriptRef_ s) -> stack_ s = pk :: l ->
  exists s', run_ops rec buf (ops_of 0 [IOp 118; IOp 169; IPush h; IOp 136; IOp 172]) (s, st) =
    if equal h (getHash160 pk) then op_checksig (at_checksig (pk :: l) s, st) else ((s', st), Err ScriptError).
Proof.
  intros Hh Hc Ho Es. destruct s as [stk alt op idx v cnt fl out p2sh sw ev so bch ob pc]. cbn in Hc, Ho, Es. subst stk cnt.
  cbn [ops_of run_ops].
  erewrite script_bind_ok by by apply process_DUP. rewrite enter_op_output by done.
  erewrite script_bind_ok by by apply process_HASH160. rewrite enter_op_output by done.
  erewrite script_bind_ok by (apply (process_push rec buf _ h); simpl; lia).
  unfold mbind at 1, script_bind at 1. erewrite process_EQUALVERIFY by done. rewrite enter_op_output by done.
  destruct (equal h (getHash160 pk)) eqn:E; [|by eexists].
  exists (StackInterpreter_new 0 0). unfold mbind, script_bind. unfold op_of. rewrite process_CHECKSIG. cbn [fst snd]. rewrite enter_op_output by done.
  unfold at_checksig, count. cbn. destruct (op_checksig _) as [vm [[]|e]]; done.
Qed.
End p2pkh.

(** ** Whole scripts *)

Section scripts.
Context `{HashFns} `{CryptoECDSA} `{TransactionStub}.

(** Where [processScript] starts. *)
Definition start_script (buf : Buffer) (out : bool) (script : list byte) (s : StackInterpreter) : StackInterpreter :=
  set_isValid false (set_opcount 0 (if out then set_outputBuf buf (set_outputScript script s) else s)).

Lemma readable_start buf out script its s : readable buf its s -> readable buf its (start_script buf out script s).
Proof. unfold readable. assert (alive buf (start_script buf out script s) = alive buf s) as -> by by destruct out. done. Qed.

Lemma processScript_items d buf its out s st : Forall item_ok its -> zlen (enc_items its) < two64 -> readable buf its s ->
  processScript (S d) buf (brr_setNewData (enc_items its)) out (s, st) =
  run_ops (processScript d) buf (ops_of 0 its) (start_script buf out (enc_items its) s, st).
Proof.
  intros Hok Hl Hr. cbn [processScript]. rewrite !modify_bind. cbn [fst snd].
  rewrite parse_script by (done || by apply (readable_start buf out)). by destruct out.
Qed.

Lemma readable_lasting buf its s : lasting buf = true -> readable buf its s.
Proof. by right; left. Qed.
#[local] Hint Resolve readable_lasting : core.

(** Items that only put data on the stack. *)
Definition data_of (it : item) : option (list byte) :=
  match it with
  | IPush d => Some d
  | IOp v => if v =? 0 then Some [] else if (81 <=? v) && (v <=? 96) then Some [z2b (v - 80)] else None
  end.

Lemma run_data rec buf its ds : Forall2 (fun it d => item_ok it /\ data_of it = Some d) its ds -> forall p s st,
  exists c, run_ops rec buf (ops_of p its) (s, st) = ((set_opcount c (set_stack (rev ds ++ stack_ s) s), st), Ok tt).
Proof.
  induction 1 as [|it d its ds [Hok Hd] _ IH]; intros p s st.
  - exists (opcount_ s). by destruct s.
  - cbn [ops_of run_ops]. destruct (IH (p + zlen (enc_item it)) (set_stack (d :: stack_ s) (count s)) st) as [c Ec].
    exists c. cbn [rev]. rewrite <- app_assoc.
    assert (processOpCode rec buf (op_of p it) (s, st) = ((set_stack (d :: stack_ s) (count s), st), Ok tt)) as Ei;
      [|by rewrite (script_bind_ok _ _ _ _ _ Ei)].
    destruct it as [d'|v]; cbn [data_of op_of] in *.
    + injection Hd as ->. by apply process_push.
    + destruct (Z.eqb_spec v 0) as [->|]; [injection Hd as <-; apply process_0|].
      destruct (Z.leb_spec 81 v); [|done]. destruct (Z.leb_spec v 96); [|done]. injection Hd as <-.
      pose proof (process_num rec buf p (v - 80) [] s st ltac:(lia)) as E. by replace (80 + (v - 80)) with v in E by lia.
Qed.

Lemma run_ops_app rec buf a : forall b p vm, run_ops rec buf (ops_of p (a ++ b)) vm =
  (_ ← run_ops rec buf (ops_of p a); run_ops rec buf (ops_of (p + zlen (enc_items a)) b)) vm.
Proof.
  induction a as [|it a IH]; intros b p vm.
  - cbn [app ops_of run_ops]. change (enc_items []) with (@nil byte). by rewrite zlen_nil, Z.add_0_r.
  - cbn [app ops_of run_ops]. unfold mbind, script_bind in *. destruct (processOpCode rec buf (op_of p it) vm) as [vm' [[]|e]]; [|done].
    rewrite IH. unfold enc_items. cbn [map concat]. by rewrite zlen_app, Z.add_assoc.
Qed.

Lemma check_state_valid s st : isValid_ s = true ->
  checkState (s, st) = ((set_evalState (set_validStack true (txInEvalState_ s)) s, st), Ok tt).
Proof. intros E. unfold checkState. rewrite get_bind. cbn [fst]. rewrite E. done. Qed.

(** *** Pay to public-key hash: what decides *)

Definition p2pkh_sig (data sig pk : list byte) : result bool :=
  match last sig with
  | None => Err ScriptError
  | Some b =>
      if negb (b2z b =? SIGHASH_ALL) then Err UnsupportedSigHash
      else rs ← extractRSFromDERSig (take (length sig - 1) sig); Ok (VerifyData data rs (DecodePoint pk))
  end.

(** A signature of less than 65 bytes is not looked at: then the input counts
    as valid, as no signature is required of it. *)
Definition p2pkh_verdict (data h sig pk : list byte) : result bool :=
  if negb (equal h (getHash160 pk)) then Err ScriptError
  else if zlen sig <? 65 then Ok true
  else p2pkh_sig data sig pk.

(** The script of an input and the one it spends, one after the other. *)
Definition run_both (d : nat) (inputScript outputScript : list byte) : Script () :=
  _ ← (_ ← processScript d Lasting (brr_setNewData inputScript) false; processScript d Lasting (brr_setNewData outputScript) true);
  checkState.

Lemma p2pkh_ok h : zlen h = 20 -> Forall item_ok [IOp 118; IOp 169; IPush h; IOp 136; IOp 172].
Proof. intros Hh. repeat constructor; cbn; lia. Qed.

Lemma run_both_after d i o vm vm1 : processScript d Lasting (brr_setNewData i) false vm = (vm1, Ok tt) ->
  run_both d i o vm = (_ ← processScript d Lasting (brr_setNewData o) true; checkState) vm1.
Proof. intros E1. unfold run_both. unfold mbind, script_bind. by rewrite E1. Qed.

Lemma zlen_item_le it : item_ok it -> zlen (enc_item it) < 2 ^ 17.
Proof.
  destruct it as [d|v]; [|done]. simpl. intros Hd. rewrite zlen_app.
  assert (zlen (push_header d) <= 3); [|lia]. unfold push_header. repeat zcase; simpl; done.
Qed.

Lemma zlen_items_le its : Forall item_ok its -> zlen (enc_items its) <= 2 ^ 17 * zlen its.
Proof.
  induction 1 as [|it its Hit _ IH]; [done|]. unfold enc_items in *. cbn [map concat]. rewrite zlen_app, zlen_cons.
  pose proof (zlen_item_le it Hit). lia.
Qed.

Lemma zlen_two_items a b : item_ok a -> item_ok b -> zlen (enc_items [a; b]) < two64.
Proof.
  intros Ha%zlen_item_le Hb%zlen_item_le. unfold enc_items. cbn [map concat]. rewrite app_nil_r, zlen_app. unfold two64. lia.
Qed.

(** At the OP_CHECKSIG of a script for a key's hash. *)
Lemma checksig_verdict sig pk data s st st' :
  let s2 := at_checksig [pk; sig] s in
  is_BCH s = false -> alive (outputBuf_ s) s = true -> txInEvalState_ s = TxInEvalState_new -> zlen sig < 2 ^ 32 ->
  getDataForSigHash (signing_object s) SIGHASH_ALL (outputScriptRef_ s) (inputIndex_ s) st = Ok (data, st') ->
  yields ((_ ← op_checksig; checkState) (s2, st)) st (if zlen sig <? 65 then Ok true else p2pkh_sig data sig pk).
Proof.
  intros s2 Eb Ha Ee Hs Hdata. destruct (Z.ltb_spec (zlen sig) 65) as [Hsig|Hsig].
  { erewrite script_bind_ok by by apply (op_checksig_short s2 st pk sig []). rewrite check_state_valid by done.
    apply yields_ok; [done|]. cbn. by rewrite Ee. }
  destruct (exists_last (l:=sig)) as (body & b & ->); [intros ->; by rewrite zlen_nil in Hsig|].
  unfold p2pkh_sig. rewrite last_snoc, length_app, Nat.add_sub, take_app_length.
  pose proof (op_checksig_run s2 st pk body b [] eq_refl ltac:(lia) Ha) as Hr.
  unfold check_signature in Hr. change (signing_object s2) with (signing_object s) in Hr.
  change (is_BCH s2) with (is_BCH s) in Hr. change (outputScriptRef_ s2) with (outputScriptRef_ s) in Hr.
  change (inputIndex_ s2) with (inputIndex_ s) in Hr. rewrite Eb in Hr. cbn [getSigHashSingleByte mbind result_bind] in Hr.
  destruct (Z.eqb_spec (b2z b) SIGHASH_ALL) as [Eh|Eh]; cbn [negb].
  - rewrite Eh, Hdata in Hr. cbn [mbind result_bind] in *.
    destruct (extractRSFromDERSig body) as [rs|e]; cbn [mbind result_bind] in *.
    + erewrite script_bind_ok by exact Hr. rewrite check_state_valid by done.
      apply yields_ok; [by eapply getDataForSigHash_evolves|]. cbn. rewrite Ee. by destruct (VerifyData data rs (DecodePoint pk)).
    + by apply yields_throws.
  - unfold getDataForSigHash in Hr. rewrite (proj2 (Z.eqb_neq _ _) Eh) in Hr. cbn [negb mbind result_bind] in Hr.
    by apply yields_throws.
Qed.

(** The script for a key's hash on a stack with the signature and the key. *)
Lemma hash_script_verdict d buf sig pk h data s st st' : lasting buf = true -> stack_ s = [pk; sig] -> is_BCH s = false ->
  txInEvalState_ s = TxInEvalState_new -> zlen h = 20 -> zlen sig < 2 ^ 32 ->
  getDataForSigHash (signing_object s) SIGHASH_ALL (p2pkh_script h) (inputIndex_ s) st = Ok (data, st') ->
  yields ((_ ← processScript (S d) buf (brr_setNewData (p2pkh_script h)) true; checkState) (s, st)) st (p2pkh_verdict data h sig pk).
Proof.
  intros Hb Es Eb Ee Hh Hsig Hdata. unfold p2pkh_verdict.
  pose proof (p2pkh_ok h Hh) as Hitems. assert (zlen (p2pkh_script h) = 25) as Hsz by (unfold p2pkh_script; by rewrite !zlen_app, Hh).
  rewrite p2pkh_items in Hdata, Hsz |- * by done. set (its := [IOp 118; IOp 169; IPush h; IOp 136; IOp 172]) in *.
  pose proof (processScript_items d buf its true s st Hitems ltac:(unfold two64; lia) ltac:(auto)) as E2.
  destruct (run_hash_check (processScript d) buf h pk [sig] (start_script buf true (enc_items its) s) st) as [s' E3]; [done|done| |done|].
  { cbn [start_script set_isValid set_opcount set_outputBuf set_outputScript outputScriptRef_]. lia. }
  fold its in E3. rewrite E3 in E2. destruct (equal h (getHash160 pk)); cbn [negb].
  2:{ rewrite (script_bind_err _ _ _ _ _ E2). by apply yields_err. }
  pose proof (checksig_verdict sig pk data (start_script buf true (enc_items its) s) st st' Eb ltac:(by destruct buf) Ee Hsig Hdata) as Hv.
  unfold mbind, script_bind in *. by rewrite E2.
Qed.

Lemma run_p2pkh d sig pk h data s st st' : stack_ s = [] -> is_BCH s = false -> txInEvalState_ s = TxInEvalState_new ->
  zlen h = 20 -> Forall item_ok [IPush sig; IPush pk] ->
  getDataForSigHash (signing_object s) SIGHASH_ALL (p2pkh_script h) (inputIndex_ s) st = Ok (data, st') ->
  yields (run_both (S d) (enc_items [IPush sig; IPush pk]) (p2pkh_script h) (s, st)) st (p2pkh_verdict data h sig pk).
Proof.
  intros Es Eb Ee Hh Hpush Hdata. pose proof Hpush as Hpush'. apply Forall_cons in Hpush as [Hp1 Hp2]. apply Forall_cons in Hp2 as [Hp2 _].
  destruct (run_data (processScript d) Lasting [IPush sig; IPush pk] [sig; pk]) with (p := 0)
    (s := start_script Lasting false (enc_items [IPush sig; IPush pk]) s) (st := st) as [c E1].
  { by repeat apply Forall2_cons_2; [| |constructor]. }
  rewrite <- processScript_items in E1 by (exact Hpush' || (by apply zlen_two_items) || auto).
  rewrite (run_both_after _ _ _ _ _ E1). apply hash_script_verdict with (st' := st'); try done.
  - cbn. by rewrite Es.
  - simpl in Hp1. lia.
Qed.

(** ** Pay to script hash *)

(** Of the two kinds of script hash: the opcode, the flag that enables it, the
    hash and its size. *)
Definition sh_code (sha : bool) : Z := if sha then 168 else 169.
Definition sh_flag (sha : bool) : Z := if sha then SCRIPT_VERIFY_P2SH_SHA256 else SCRIPT_VERIFY_P2SH.
Definition sh_hash (sha : bool) (redeem : list byte) : list byte := if sha then getSha256 redeem else getHash160 redeem.
Definition sh_items (sha : bool) (h : list byte) : list item := [IOp (sh_code sha); IPush h; IOp 135].

(** The interpreter where the redeem script starts. *)
Definition at_redeem (redeem : list byte) (l : list (list byte)) (s : StackInterpreter) : StackInterpreter :=
  set_isValid true (set_opcount 3 (set_p2shScript redeem (set_stack l s))).

(** Scripts that [op_equal_p2sh] takes for witness programs. *)
Definition is_program (flags : Z) (redeem : list byte) : bool :=
  has_flag flags SCRIPT_VERIFY_SEGWIT && ((zlen redeem =? 22) || (zlen redeem =? 34)) &&
  (match redeem with b :: _ => b2z b <=? 16 | [] => false end).

Definition run_redeem_script (rec : Buffer -> BinaryRefReader -> bool -> Script ()) (flags : Z) (redeem : list byte) : Script () :=
  if is_program flags redeem then processSW rec redeem
  else count ← get p2shCount_; rec (P2sh count) (brr_setNewData redeem) true.

Lemma process_save_hash rec buf sha p s st redeem l : stack_ s = redeem :: l -> opcount_ s = 0 ->
  has_flag (flags_ s) (sh_flag sha) = true -> onlyPushDataInInput_ s = true -> 0 < zlen (outputScriptRef_ s) ->
  processOpCode rec buf (op_of p (IOp (sh_code sha))) (s, st) =
  ((set_stack (sh_hash sha redeem :: l) (set_p2shScript redeem (set_opcount 1 s)), st), Ok tt).
Proof.
  intros Es Hc Hf Hp Ho. unfold op_of.
  destruct s as [stk alt op idx v cnt fl out p2sh sw ev so bch ob pc]. cbn in Es, Hc, Hf, Hp, Ho. subst stk cnt op.
  destruct sha; cbn [sh_code sh_flag sh_hash] in *.
  - rewrite (process_op rec buf p 168 OP_SHA256) by done. rewrite enter_op_output by done.
    unfold process_switch. cbn [oc_opcode]. change (opcode_at 168) with (Some OP_SHA256). cbv iota.
    unfold save_p2sh. unfold mbind at 1, script_bind at 1. rewrite !get_bind. cbn [fst count set_opcount flags_ opcount_ onlyPushDataInInput_].
    rewrite Hf. done.
  - rewrite (process_op rec buf p 169 OP_HASH160) by done. rewrite enter_op_output by done.
    unfold process_switch. cbn [oc_opcode]. change (opcode_at 169) with (Some OP_HASH160). cbv iota.
    unfold save_p2sh. unfold mbind at 1, script_bind at 1. rewrite !get_bind. cbn [fst count set_opcount flags_ opcount_ onlyPushDataInInput_].
    rewrite Hf. done.
Qed.

Lemma run_p2sh rec buf sha h redeem l s st : 0 < zlen h < 2 ^ 16 - 1 -> opcount_ s = 0 -> 0 < zlen (outputScriptRef_ s) ->
  stack_ s = redeem :: l -> has_flag (flags_ s) (sh_flag sha) = true -> onlyPushDataInInput_ s = true -> 0 < zlen redeem ->
  exists s', run_ops rec buf (ops_of 0 (sh_items sha h)) (s, st) =
    if equal h (sh_hash sha redeem) then run_redeem_script rec (flags_ s) redeem (at_redeem redeem l s, st)
    else ((s', st), Err ScriptError).
Proof.
  intros Hh Hc Ho Es Hf Hp Hr. unfold sh_items. cbn [ops_of run_ops].
  erewrite script_bind_ok by by apply process_save_hash.
  erewrite script_bind_ok by by apply (process_push rec buf _ h).
  unfold mbind at 1, script_bind at 1. unfold op_of. rewrite (process_op rec buf _ 135 OP_EQUAL) by done.
  rewrite enter_op_output by done.
  unfold process_switch. cbn [oc_opcode]. change (opcode_at 135) with (Some OP_EQUAL). cbv iota. unfold op_equal_p2sh.
  erewrite script_bind_ok by by eapply op_equal_run. rewrite !get_bind. cbn [fst].
  destruct s as [stk alt op idx v cnt fl out p2sh sw ev so bch ob pc]. cbn in Hc, Ho, Es, Hf, Hp. subst stk cnt op.
  cbn [onlyPushDataInInput_ p2shScript_ set_stack count set_opcount set_p2shScript andb]. zsimp.
  unfold mbind at 1, script_bind at 1. erewrite op_verify_run by done. rewrite notZero_bool.
  destruct (equal h (sh_hash sha redeem)); [|by eexists]. exists (StackInterpreter_new 0 0).
  rewrite get_bind. cbn [fst isValid_ set_isValid negb]. rewrite get_bind. cbn [fst flags_ set_isValid set_stack].
  destruct redeem as [|b redeem]; [done|]. erewrite lift_bind_ok by done.
  unfold run_redeem_script. cbn [flags_ count set_stack set_p2shScript set_opcount]. fold (is_program fl (b :: redeem)).
  change (has_flag fl SCRIPT_VERIFY_SEGWIT && _ && _) with (is_program fl (b :: redeem)).
  unfold at_redeem. cbn. destruct (is_program fl (b :: redeem)).
  - destruct (processSW rec _ _) as [vm [[]|e]]; done.
  - rewrite !get_bind. cbn. destruct (rec _ _ true _) as [vm [[]|e]]; done.
Qed.

Lemma sh_items_ok sha h : 0 < zlen h < 2 ^ 16 - 1 -> Forall item_ok (sh_items sha h).
Proof. intros Hh. repeat constructor; destruct sha; cbn; lia. Qed.

(** A script for a script hash, on a stack with the redeem script. *)
Lemma script_hash_verdict d buf sha h redeem l s st v : lasting buf = true -> 0 < zlen h < 2 ^ 10 -> stack_ s = redeem :: l ->
  has_flag (flags_ s) (sh_flag sha) = true -> onlyPushDataInInput_ s = true -> 0 < zlen redeem ->
  yields ((_ ← run_redeem_script (processScript d) (flags_ s) redeem; checkState)
    (at_redeem redeem l (start_script buf true (enc_items (sh_items sha h)) s), st)) st v ->
  yields ((_ ← processScript (S d) buf (brr_setNewData (enc_items (sh_items sha h))) true; checkState) (s, st)) st
    (if equal h (sh_hash sha redeem) then v else Err ScriptError).
Proof.
  intros Hb Hh Es Hf Hp Hr Hv.
  assert (Forall item_ok (sh_items sha h)) as Hok by (apply sh_items_ok; lia).
  pose proof (zlen_items_le _ Hok) as Hle. change (zlen (sh_items sha h)) with 3 in Hle.
  pose proof (processScript_items d buf _ true s st Hok ltac:(unfold two64; lia) ltac:(auto)) as E2.
  destruct (run_p2sh (processScript d) buf sha h redeem l (start_script buf true (enc_items (sh_items sha h)) s) st) as [s' E3];
    try done; [lia|].
  rewrite E3 in E2. unfold mbind, script_bind in *. rewrite E2. destruct (equal h (sh_hash sha redeem)); [exact Hv|].
  by apply yields_err.
Qed.
End scripts.

(** A concrete curve for running the model: a key verifies the signature whose
    64 bytes are a polynomial of the key and the digest. *)
Definition toy_rs (pk digest : list byte) : list byte := le_bytes 64 (toy_poly (pk ++ digest)).
Definition toy_crypto : CryptoECDSA :=
  {| PubKey := list byte; default_PubKey := []; DecodePoint := id; Validate pk := zlen pk =? 33;
     VerifyMessage pk digest rs := equal rs (toy_rs pk digest) |}.
(** A signature in DER form. *)
Definition toy_sign (pk data : list byte) : list byte :=
  let rs := toy_rs pk (@sha256 toy_hashes data) in
  map z2b [0x30; 68; 2; 32] ++ take 32 rs ++ map z2b [2; 32] ++ drop 32 rs.
