(* ===== verification/MultisigProps.v ===== *)
(** * MultisigProps: OP_CHECKMULTISIG

    [op_checkmultisig] succeeds exactly if the first [m] signatures can be
    matched, in order, with keys that verify them; and the outcome it records
    counts the keys that have signed. *)

From S2P Require Import Prelude BinaryData BinaryIO Hashing StdMap TxLength ScriptParser ScriptParserProps SigHash TxEvalState.
From S2P Require Import Interpreter InterpreterFrame InterpreterProps ScriptUtils.

(** ** Matching signatures with keys *)

Section matching.
Variable V : list byte -> list byte -> bool.

(** The first key that verifies, and the keys behind it. *)
Fixpoint find_key (rs : list byte) (keys : list (list byte)) : option (list byte * list (list byte)) :=
  match keys with
  | [] => None
  | k :: keys => if V rs k then Some (k, keys) else find_key rs keys
  end.

(** The keys that have signed: a signature without a key uses up all keys. *)
Fixpoint matched (sigs keys : list (list byte)) : list (list byte) :=
  match sigs with
  | [] => []
  | rs :: sigs => match find_key rs keys with None => [] | Some (k, keys) => k :: matched sigs keys end
  end.

(** The first [m] signatures belong to some of the keys, in their order. *)
Definition signed_by (m : nat) (sigs keys : list (list byte)) : Prop :=
  exists ks, ks `sublist_of` keys /\ length ks = m /\ Forall2 (fun rs k => V rs k = true) (take m sigs) ks.

Lemma find_key_spec rs keys k rest : find_key rs keys = Some (k, rest) -> exists pre, keys = pre ++ k :: rest /\ V rs k = true.
Proof.
  induction keys as [|k' keys IH]; [done|]. cbn [find_key]. destruct (V rs k') eqn:E.
  - intros [=<- <-]. by exists [].
  - intros (pre & -> & Hk)%IH. by exists (k' :: pre).
Qed.

Lemma matched_sublist sigs : forall keys, matched sigs keys `sublist_of` keys.
Proof.
  induction sigs as [|rs sigs IH]; intros keys; cbn [matched]; [apply sublist_nil_l|].
  destruct (find_key rs keys) as [[k rest]|] eqn:E; [|apply sublist_nil_l].
  apply find_key_spec in E as (pre & -> & _). apply sublist_inserts_l, sublist_skip, IH.
Qed.

Lemma matched_length sigs keys : (length (matched sigs keys) <= length sigs)%nat.
Proof.
  revert keys. induction sigs as [|rs sigs IH]; intros keys; cbn [matched]; [done|].
  destruct (find_key rs keys) as [[k rest]|]; simpl; [|lia]. specialize (IH rest). lia.
Qed.

Lemma matched_signs sigs : forall keys m, (m <= length (matched sigs keys))%nat -> signed_by m sigs keys.
Proof.
  induction sigs as [|rs sigs IH]; intros keys m Hm; cbn [matched] in Hm.
  { replace m with 0%nat by (simpl in Hm; lia). exists []. split; [apply sublist_nil_l|]. by repeat constructor. }
  destruct m as [|m]; [exists []; split; [apply sublist_nil_l|by repeat constructor]|].
  destruct (find_key rs keys) as [[k rest]|] eqn:E; [|simpl in Hm; lia]. apply find_key_spec in E as (pre & -> & Hk).
  destruct (IH rest m) as (ks & Hs & Hl & Hf); [simpl in Hm; lia|]. exists (k :: ks). cbn [take length].
  split; [by apply sublist_inserts_l, sublist_skip|]. split; [lia|]. by constructor.
Qed.

(** Taking the first key that fits is never worse. *)
Lemma signs_matched sigs : forall keys m, signed_by m sigs keys -> (m <= length (matched sigs keys))%nat.
Proof.
  induction sigs as [|rs sigs IH]; intros keys m (ks & Hs & Hl & Hf).
  { rewrite take_nil in Hf. inversion Hf; subst. simpl in *. lia. }
  destruct m as [|m]; [lia|]. cbn [take] in Hf. inversion Hf as [|? k ? ks' Hk Hf']; subst ks. cbn [length] in Hl.
  assert (exists pre k0 rest, find_key rs keys = Some (k0, rest) /\ keys = pre ++ k0 :: rest /\ ks' `sublist_of` rest)
    as (pre & k0 & rest & E & Ek & Hs').
  { clear -Hs Hk. induction keys as [|k1 keys IH]; [inversion Hs|]. cbn [find_key].
    destruct (V rs k1) eqn:E.
    - exists [], k1, keys. split; [done|]. split; [done|]. inversion Hs; subst; [done|].
      etrans; [|eassumption]. by apply sublist_cons.
    - inversion Hs as [| ? ? ? Hs1 | ? ? ? Hs1]; subst; [congruence|].
      destruct (IH Hs1) as (pre & k0 & rest & -> & -> & Hr). by exists (k1 :: pre), k0, rest. }
  cbn [matched]. rewrite E. simpl. specialize (IH rest m). assert (m <= length (matched sigs rest))%nat; [|lia].
  apply IH. exists ks'. split; [done|]. split; [lia|done].
Qed.

Lemma matched_spec sigs keys m : (m <= length (matched sigs keys))%nat <-> signed_by m sigs keys.
Proof. split; [apply matched_signs|apply signs_matched]. Qed.
End matching.

(** ** The keys that have signed *)

(** How many keys of a state have signed. *)
Definition signed_count (m : list (list byte * bool)) : Z := zlen (filter (fun k => k.2 = true) m).

Lemma signed_count_cons k b m : signed_count ((k, b) :: m) = (if b : bool then 1 else 0) + signed_count m.
Proof.
  unfold signed_count. rewrite filter_cons. destruct b; [rewrite decide_True by done; by rewrite zlen_cons; lia|].
  by rewrite decide_False by done.
Qed.

Lemma getSigCount_filter e : zlen (pubKeyState_ e) < 2 ^ 32 ->
  getSigCount e = signed_count (pubKeyState_ e).
Proof.
  intros Hl. unfold getSigCount.
  assert (forall l c, 0 <= c -> c + zlen l < 2 ^ 32 ->
    foldl (fun count (state : list byte * bool) => if state.2 then wrap 32 (count + 1) else count) c l =
    c + signed_count l) as Hf; [|apply Hf; lia].
  induction l as [|[k b] l IH]; intros c Hc Hcl; cbn [foldl snd]; [unfold signed_count; rewrite filter_nil, zlen_nil; lia|]. rewrite zlen_cons in Hcl.
  pose proof (zlen_nonneg l). rewrite signed_count_cons. destruct b.
  - rewrite wrap_small by (unfold is_uint; lia). rewrite IH by lia. lia.
  - rewrite IH by lia. lia.
Qed.

Lemma filter_map_put k (m : stdmap (list byte) bool) : map_find k m = Some false ->
  signed_count (map_put k true m) = signed_count m + 1 /\
  zlen (map_put k true m) = zlen m.
Proof.
  induction m as [|[k' b] m IH]; [done|]. cbn [map_find map_put]. destruct (std_less k k'); [done|].
  destruct (std_less k' k).
  - intros Hk. destruct (IH Hk) as [E1 E2]. rewrite !signed_count_cons, !zlen_cons. lia.
  - intros [=->]. rewrite !signed_count_cons, !zlen_cons. lia.
Qed.

(** Marking distinct keys of a state in which none has signed. *)
Definition mark_keys (ks : list (list byte)) (m : stdmap (list byte) bool) : stdmap (list byte) bool :=
  foldl (fun m k => map_put k true m) m ks.

Lemma mark_keys_count ks : forall m, map_ordered m -> NoDup ks -> (forall k, k ∈ ks -> map_find k m = Some false) ->
  signed_count (mark_keys ks m) = signed_count m + zlen ks /\
  zlen (mark_keys ks m) = zlen m.
Proof.
  induction ks as [|k ks IH]; intros m Ho Hnd Hk; cbn [mark_keys foldl]; [rewrite zlen_nil; lia|].
  apply NoDup_cons in Hnd as [Hk' Hnd]. destruct (filter_map_put k m) as [E1 E2]; [by apply Hk; left|].
  fold (mark_keys ks (map_put k true m)). destruct (IH (map_put k true m)) as [E3 E4]; [by apply map_put_ordered|done| |].
  - intros k2 Hk2. rewrite map_find_put_ne; [by apply Hk; right|done|]. intros ->. done.
  - rewrite E3, E4, zlen_cons. lia.
Qed.

(** The keys of the script, none of which has signed. *)
Definition add_keys (ks : list (list byte)) (m : stdmap (list byte) bool) : stdmap (list byte) bool :=
  foldl (fun m k => (map_insert k false m).1) m ks.

Lemma map_insert_length {K V} `{StdLess K} (k : K) (v : V) m : zlen (map_insert k v m).1 <= zlen m + 1.
Proof.
  unfold map_insert. destruct (map_find k m); cbn [fst]; [lia|]. pose proof (map_put_length k v m). unfold zlen. lia.
Qed.

Lemma add_keys_spec ks : forall m, map_ordered m -> (forall k b, map_find k m = Some b -> b = false) ->
  map_ordered (add_keys ks m) /\ (forall k b, map_find k (add_keys ks m) = Some b -> b = false) /\
  (forall k, k ∈ ks \/ is_Some (map_find k m) -> map_find k (add_keys ks m) = Some false) /\
  zlen (add_keys ks m) <= zlen m + zlen ks.
Proof.
  induction ks as [|k ks IH]; intros m Ho Hf; cbn [add_keys foldl].
  { split; [done|]. split; [done|]. split; [|rewrite zlen_nil; lia]. intros k [Hk|[b Hk]]; [by apply elem_of_nil in Hk|].
    rewrite Hk. f_equal. by eapply Hf. }
  fold (add_keys ks (map_insert k false m).1). set (m' := (map_insert k false m).1).
  assert (map_ordered m') as Ho'.
  { unfold m', map_insert. destruct (map_find k m); [done|]. by apply map_put_ordered. }
  assert (forall k2, map_find k2 m' = if decide (k2 = k) then Some (default false (map_find k m)) else map_find k2 m) as Hm'.
  { intros k2. unfold m', map_insert. destruct (map_find k m) eqn:E; cbn [fst default].
    - case_decide; [by subst|done].
    - rewrite map_find_put by done. by case_decide. }
  destruct (IH m' Ho') as (H1 & H2 & H3 & H4).
  { intros k2 b. rewrite Hm'. case_decide; [|apply Hf]. destruct (map_find k m) eqn:E; intros [=<-]; [by eapply Hf|done]. }
  split; [done|]. split; [done|]. split.
  - intros k2 Hk2. apply H3. destruct (decide (k2 ∈ ks)); [by left|]. right. rewrite Hm'. case_decide; [done|].
    destruct Hk2 as [Hk2|Hk2]; [|done]. apply elem_of_cons in Hk2 as [|]; done.
  - rewrite zlen_cons. pose proof (map_insert_length k false m). fold m' in H. lia.
Qed.

Lemma all_unsigned (m : stdmap (list byte) bool) : map_ordered m -> (forall k b, map_find k m = Some b -> b = false) ->
  signed_count m = 0.
Proof.
  intros Ho Hf. unfold signed_count. destruct (filter _ _) as [|[k b] l] eqn:E; [done|].
  assert ((k, b) ∈ filter (fun k => k.2 = true) (m : list (list byte * bool))) as Hin by (rewrite E; left).
  apply list_elem_of_filter in Hin as [Hb Hin]. simpl in Hb. subst b. apply map_find_In in Hin; [|done]. by apply Hf in Hin.
Qed.

(** ** The map of keys by position *)

Lemma map_put_end {V} (i : Z) (v : V) m : Forall (fun e => e.1 < i) m -> map_put i v m = m ++ [(i, v)] /\ map_find i m = None.
Proof.
  induction 1 as [|[j w] m Hj _ [IH1 IH2]]; [done|]. cbn [map_put map_find fst] in *. unfold std_less, uint_less in *. zsimp.
  by rewrite IH1.
Qed.

Lemma map_last {V} (i : Z) (v : V) m : Forall (fun e => e.1 < i) m ->
  map_find i (m ++ [(i, v)]) = Some v /\ map_erase i (m ++ [(i, v)]) = m.
Proof.
  induction 1 as [|[j w] m Hj _ [IH1 IH2]]; cbn [app map_find map_erase fst] in *; unfold std_less, uint_less in *.
  - by rewrite Z.ltb_irrefl.
  - zsimp. by rewrite IH2.
Qed.

Section multisig.
Context `{HashFns} `{CryptoECDSA} `{TransactionStub}.

Fixpoint keymap (i : Z) (keys : list (list byte)) : stdmap Z (PubKey * list byte) :=
  match keys with [] => [] | k :: keys => (i, (DecodePoint k, k)) :: keymap (i + 1) keys end.

Lemma keymap_bound i keys : Forall (fun e => e.1 < i + zlen keys) (keymap i keys).
Proof.
  revert i. induction keys as [|k keys IH]; intros i; cbn [keymap]; [constructor|]. rewrite zlen_cons.
  pose proof (zlen_nonneg keys). constructor; [simpl; lia|]. eapply Forall_impl; [apply IH|]. simpl. lia.
Qed.

Lemma keymap_snoc i keys k : keymap i (keys ++ [k]) = keymap i keys ++ [(i + zlen keys, (DecodePoint k, k))].
Proof.
  revert i. induction keys as [|k' keys IH]; intros i; cbn [keymap app]; [by rewrite zlen_nil, Z.add_0_r|].
  rewrite IH, zlen_cons. do 4 f_equal. lia.
Qed.

(** The state when keys are popped, and when some have signed. *)
Definition on_keys (f : stdmap (list byte) bool -> stdmap (list byte) bool) (s : StackInterpreter) : StackInterpreter :=
  set_evalState (set_pubKeyState (f (pubKeyState_ (txInEvalState_ s))) (txInEvalState_ s)) s.

Lemma on_keys_id s : on_keys id s = s.
Proof. by destruct s as [? ? ? ? ? ? ? ? ? ? [] ? ?]. Qed.

Lemma pop_pubkeys_run keys : forall i pre l s st, zlen pre = i -> stack_ s = keys ++ l ->
  Forall (fun k => Validate (DecodePoint k) = true) keys ->
  pop_pubkeys (length keys) i (keymap 0 pre) (s, st) =
  ((on_keys (add_keys keys) (set_stack l s), st), Ok (keymap 0 (pre ++ keys))).
Proof.
  induction keys as [|k keys IH]; intros i pre l s st Hi Es Hv; cbn [length pop_pubkeys].
  { rewrite app_nil_r. cbn [app] in Es. subst l. unfold add_keys. cbn [foldl].
    change (on_keys (fun m => m)) with (on_keys id). rewrite on_keys_id. by destruct s. }
  inversion Hv as [|? ? Hk Hv']; subst. rewrite (pop_back_ok _ _ _ _ _ Es). rewrite Hk.
  unfold modify_eval. rewrite modify_bind. cbn [fst snd].
  pose proof (keymap_bound 0 pre) as Hb. rewrite Z.add_0_l in Hb. destruct (map_put_end _ (DecodePoint k, k) _ Hb) as [E1 E2].
  pose proof (keymap_snoc 0 pre k) as E3. rewrite Z.add_0_l in E3.
  assert ((map_insert (zlen pre) (DecodePoint k, k) (keymap 0 pre)).1 = keymap 0 (pre ++ [k])) as ->
    by (unfold map_insert; by rewrite E2, E3).
  rewrite (IH _ (pre ++ [k]) l) by (done || by rewrite zlen_app). by rewrite <- app_assoc.
Qed.

(** What is checked of a signature over [data]. *)
Definition verifies (data rs k : list byte) : bool := VerifyData data rs (DecodePoint k).

Lemma match_sig_run data rs keys : forall fuel s st, (length keys < fuel)%nat -> zlen keys < 2 ^ 31 ->
  match_sig fuel data rs (keymap 0 (rev keys)) (zlen keys - 1) (s, st) =
  match find_key (verifies data) rs keys with
  | None => ((s, st), Ok (false, [], -1))
  | Some (k, rest) => ((on_keys (map_put k true) s, st), Ok (true, keymap 0 (rev rest), zlen rest - 1))
  end.
Proof.
  induction keys as [|k keys IH]; intros fuel s st Hf Hl; (destruct fuel as [|fuel]; [simpl in Hf; lia|]); cbn [match_sig].
  { done. }
  cbn [rev find_key]. rewrite zlen_cons in *. pose proof (zlen_nonneg keys).
  rewrite keymap_snoc. pose proof (keymap_bound 0 (rev keys)) as Hb. rewrite zlen_rev in *.
  rewrite Z.add_0_l in *. replace (1 + zlen keys - 1) with (zlen keys) by lia.
  rewrite wrap_small by (unfold is_uint; lia).
  destruct (map_last (zlen keys) (DecodePoint k, k) _ Hb) as [-> ->]. rewrite bool_decide_false by (by destruct (keymap 0 (rev keys))).
  cbn [default from_option id fst snd]. unfold verifies at 1. destruct (VerifyData data rs (DecodePoint k)); [done|].
  by apply IH; [simpl in Hf; lia|lia].
Qed.
Lemma matched_nil V sigs : matched V sigs [] = [].
Proof. by destruct sigs. Qed.

Lemma on_keys_on_keys f g s : on_keys f (on_keys g s) = on_keys (fun m => f (g m)) s.
Proof. done. Qed.

Definition der_sigs : list (list byte) -> list (list byte) -> Prop :=
  Forall2 (fun body rs => extractRSFromDERSig body = Ok rs).
Definition with_type (bodies : list (list byte)) : list (list byte * Z) := map (fun b => (b, SIGHASH_ALL)) bodies.

Lemma check_sigs_cached shd data bodies rss : 0 < zlen data -> der_sigs bodies rss -> forall keys c s st,
  zlen keys < 2 ^ 31 -> 0 <= c -> c + zlen bodies < 2 ^ 32 ->
  check_sigs shd (with_type bodies) [(SIGHASH_ALL, data)] (keymap 0 (rev keys)) (zlen keys - 1) c (s, st) =
  ((on_keys (mark_keys (matched (verifies data) rss keys)) s, st),
   Ok (c + zlen (matched (verifies data) rss keys))).
Proof.
  intros Hd. induction 1 as [|body rs bodies rss Hb _ IH]; intros keys c s st Hk Hc Hcl.
  { cbn [with_type map check_sigs matched]. rewrite zlen_nil, Z.add_0_r.
    unfold mark_keys. cbn [foldl]. change (on_keys (fun m => m)) with (on_keys id). by rewrite on_keys_id. }
  cbn [with_type map check_sigs]. fold (with_type bodies). unfold hash_data_for.
  change (map_find SIGHASH_ALL [(SIGHASH_ALL, data)]) with (Some data). cbn [default from_option id].
  rewrite (proj2 (Z.eqb_neq _ _)) by lia. erewrite script_bind_ok by reflexivity. cbv beta iota.
  rewrite (lift_bind_ok _ _ _ _ Hb). pose proof (match_sig_run data rs keys (S (Z.to_nat (zlen keys - 1 + 1))) s st) as Hm.
  rewrite zlen_cons in Hcl. pose proof (zlen_nonneg bodies). specialize (Hm ltac:(unfold zlen; lia) Hk). cbn [matched].
  destruct (find_key (verifies data) rs keys) as [[k rest]|] eqn:E.
  - erewrite script_bind_ok by exact Hm. cbv beta iota. rewrite wrap_small by (unfold is_uint; lia).
    apply find_key_spec in E as (pre & -> & _). rewrite zlen_app, zlen_cons in Hk. pose proof (zlen_nonneg pre).
    rewrite IH by lia. rewrite on_keys_on_keys. rewrite zlen_cons. do 2 f_equal. lia.
  - erewrite script_bind_ok by exact Hm. cbv beta iota.
    pose proof (IH [] c s st ltac:(done) Hc ltac:(lia)) as E'. rewrite matched_nil in E'. exact E'.
Qed.

Lemma check_sigs_run shd data bodies rss keys s st st' : 0 < zlen data -> der_sigs bodies rss ->
  zlen keys < 2 ^ 31 -> zlen bodies < 2 ^ 32 -> alive (outputBuf_ s) s = true ->
  getDataForSigHash shd SIGHASH_ALL (outputScriptRef_ s) (inputIndex_ s) st = Ok (data, st') ->
  check_sigs shd (with_type bodies) [] (keymap 0 (rev keys)) (zlen keys - 1) 0 (s, st) =
  ((on_keys (mark_keys (matched (verifies data) rss keys)) s, if bodies then st else st'),
   Ok (zlen (matched (verifies data) rss keys))).
Proof.
  intros Hd Hs Hk Hb Ha Hdata. destruct Hs as [|body rs bodies rss Hbody Hs].
  { by pose proof (check_sigs_cached shd data [] [] Hd ltac:(constructor) keys 0 s st Hk ltac:(lia) Hb). }
  pose proof (check_sigs_cached shd data (body :: bodies) (rs :: rss) Hd ltac:(by constructor) keys 0 s st' Hk ltac:(lia) Hb) as E.
  rewrite Z.add_0_l in E. rewrite <- E. cbn [with_type map check_sigs]. unfold hash_data_for.
  change (map_find SIGHASH_ALL [(SIGHASH_ALL, data)]) with (Some data). cbn [map_find default from_option id].
  rewrite (proj2 (Z.eqb_neq (zlen data) _)) by lia. change (zlen [] =? 0) with true. cbv iota.
  assert (sighash_data shd SIGHASH_ALL (s, st) = ((s, st'), Ok data)) as Ed.
  { unfold sighash_data. cbn [fst snd]. by rewrite Ha, Hdata. }
  erewrite script_bind_ok; [|erewrite script_bind_ok by exact Ed; reflexivity]. cbv beta iota.
  symmetry. erewrite script_bind_ok by reflexivity. done.
Qed.

Lemma sighash_data_ok shd s st st' data : sighash_data shd SIGHASH_ALL (s, st) = ((s, st'), Ok data) ->
  alive (outputBuf_ s) s = true /\
  getDataForSigHash shd SIGHASH_ALL (outputScriptRef_ s) (inputIndex_ s) st = Ok (data, st').
Proof.
  unfold sighash_data. cbn [fst snd]. destruct (alive _ _); [|done]. rewrite andb_false_r.
  destruct (getDataForSigHash _ _ _ _ _) as [[? ?]|]; [|done]. by intros [= -> ->].
Qed.

Lemma pop_sigs_run bodies : forall n acc l s st, is_BCH s = false ->
  stack_ s = rev (map (fun b => b ++ [z2b 1]) bodies) ++ [] :: l -> (length bodies < n)%nat ->
  Forall (fun b => zlen b < 2 ^ 32) bodies ->
  pop_sigs n acc (s, st) = ((set_stack l s, st), Ok (with_type bodies ++ acc)).
Proof.
  induction bodies as [|b bodies IH] using rev_ind; intros n acc l s st Hb Es Hn Hl;
    (destruct n as [|n]; [lia|]); cbn [pop_sigs].
  { cbn [map rev app] in Es. by rewrite (pop_back_ok _ _ _ _ _ Es). }
  rewrite map_app, rev_app_distr in Es. cbn [map rev app] in Es. rewrite (pop_back_ok _ _ _ _ _ Es).
  apply Forall_app in Hl as [Hl Hl1]. apply Forall_cons in Hl1 as [Hl1 _]. pose proof (zlen_nonneg b).
  rewrite zlen_app. change (zlen [z2b 1]) with 1. zsimp. rewrite get_bind. cbn [fst].
  change (is_BCH (set_stack _ s)) with (is_BCH s). rewrite Hb, Z.add_simpl_r.
  assert (at_ (b ++ [z2b 1]) (zlen b) = Ok (z2b 1)) as Ea.
  { rewrite at_nonneg by lia. unfold znth. rewrite decide_True by lia. unfold zlen. rewrite Nat2Z.id.
    by rewrite lookup_app_r, Nat.sub_diag by lia. }
  rewrite (lift_bind_ok _ _ _ _ Ea). cbn [getSigHashSingleByte]. erewrite lift_bind_ok by reflexivity.
  assert (getSliceCopy (b ++ [z2b 1]) 0 (zlen b) = b) as ->.
  { apply (getSliceCopy_app [] b [z2b 1]). cbn [app]. rewrite zlen_app. unfold two64. change (zlen [z2b 1]) with 1. lia. }
  rewrite (IH n _ l) by (done || rewrite length_app in Hn; simpl in Hn; lia).
  unfold with_type. rewrite map_app. cbn [map app]. by rewrite <- app_assoc.
Qed.
(** *** The whole operation *)

(** The stack where the operation starts: [n], the keys, [m], the signatures
    of hash type 1, an empty item. *)
Definition multisig_stack (nb mb : list byte) (keys bodies l : list (list byte)) : list (list byte) :=
  nb :: rev keys ++ mb :: rev (map (fun b => b ++ [z2b 1]) bodies) ++ [] :: l.

(** The interpreter afterwards, when [ks] have signed. *)
Definition after_multisig (m : Z) (keys ks l : list (list byte)) (s : StackInterpreter) : StackInterpreter :=
  let s1 := on_keys (add_keys (rev keys)) s in
  set_stack ((if m <=? zlen ks then [z2b 1] else []) :: l)
    (on_keys (mark_keys ks)
      (set_sigHashObject (Some (signing_object s)) (set_evalState (set_n_m (zlen keys) m (txInEvalState_ s1)) s1))).

Record multisig_ok (m : Z) (nb mb : list byte) (keys bodies rss : list (list byte)) : Prop := {
  mo_n : rawBinaryToInt nb = Ok (zlen keys);
  mo_max : zlen keys <= 20;
  mo_m : rawBinaryToInt mb = Ok m;
  mo_le : 0 <= m <= zlen keys;
  mo_valid : Forall (fun k => Validate (DecodePoint k) = true) keys;
  mo_der : der_sigs bodies rss;
  mo_size : Forall (fun b => zlen b < 2 ^ 32) bodies;
  mo_count : zlen bodies < 2 ^ 31;
}.

Lemma pop_int_ok {B} (f : Z -> Script B) s st d l v : stack_ s = d :: l -> rawBinaryToInt d = Ok v ->
  (pop_int ≫= f) (s, st) = f v (set_stack l s, st).
Proof.
  intros Es Ev. unfold pop_int. unfold mbind at 1, script_bind at 1. rewrite (pop_back_ok _ _ _ _ _ Es).
  unfold lift. by rewrite Ev.
Qed.

Lemma op_checkmultisig_run m nb mb keys bodies rss l data s st st' : multisig_ok m nb mb keys bodies rss ->
  stack_ s = multisig_stack nb mb keys bodies l -> is_BCH s = false -> alive (outputBuf_ s) s = true ->
  getDataForSigHash (signing_object s) SIGHASH_ALL (outputScriptRef_ s) (inputIndex_ s) st = Ok (data, st') -> 0 < zlen data ->
  op_checkmultisig (s, st) =
  ((after_multisig m keys (matched (verifies data) rss keys) l s, if bodies then st else st'), Ok tt).
Proof.
  intros [Hn Hmax Hm Hle Hv Hder Hsz Hcnt] Es Hb Ha Hdata Hd. unfold op_checkmultisig, multisig_stack in *. pose proof (zlen_nonneg keys).
  unfold need. unfold mbind at 1, script_bind at 1. rewrite get_bind. cbn [fst]. rewrite Es.
  rewrite bool_decide_false by (cbn [length]; rewrite length_app; cbn [length]; rewrite length_app; cbn [length]; lia).
  cbn [mret script_ret]. rewrite (pop_int_ok _ _ _ _ _ _ Es Hn). zsimp.
  pose proof (pop_pubkeys_run (rev keys) 0 [] (mb :: rev (map (fun b => b ++ [z2b 1]) bodies) ++ [] :: l)
    (set_stack (rev keys ++ mb :: rev (map (fun b => b ++ [z2b 1]) bodies) ++ [] :: l) s) st eq_refl eq_refl) as Hp.
  specialize (Hp ltac:(by apply Forall_rev)). rewrite length_rev in Hp. cbn [app keymap] in Hp.
  replace (length keys) with (Z.to_nat (zlen keys)) in Hp by (unfold zlen; lia).
  erewrite script_bind_ok by exact Hp.
  erewrite pop_int_ok; [|reflexivity|exact Hm]. zsimp.
  unfold modify_eval. rewrite modify_bind, get_bind. cbn [fst snd].
  erewrite script_bind_ok.
  2:{ apply (pop_sigs_run bodies _ [] l); [done|reflexivity| |done].
      cbn [stack_ set_evalState set_stack]. rewrite length_app, length_rev, length_map. simpl. lia. }
  rewrite need_sigHashObject_ok, app_nil_r.
  erewrite script_bind_ok.
  2:{ apply (check_sigs_run _ data bodies rss keys); [done|done|lia|lia|exact Ha|exact Hdata]. }
  unfold after_multisig. destruct (m <=? zlen (matched (verifies data) rss keys)); done.
Qed.

Lemma after_multisig_valid m keys ks l s : NoDup keys -> zlen keys <= 20 -> ks `sublist_of` keys ->
  pubKeyState_ (txInEvalState_ s) = [] ->
  txin_isValid (set_validStack true (txInEvalState_ (after_multisig m keys ks l s))) = (m <=? zlen ks).
Proof.
  intros Hnd Hmax Hs Hp. unfold txin_isValid. cbn [validStack_ set_validStack negb m_].
  rewrite getSigCount_filter; cbn; rewrite Hp;
    destruct (add_keys_spec (rev keys) [] I ltac:(done)) as (H1' & H2' & H3' & H4');
    rewrite zlen_rev, zlen_nil in H4';
    (destruct (mark_keys_count ks (add_keys (rev keys) [])) as [E1 E2];
      [done|by eapply sublist_NoDup|intros k Hk; apply H3'; left; apply list_elem_of_In; rewrite <- in_rev; apply list_elem_of_In; by eapply elem_of_sublist|]).
  - rewrite E1, all_unsigned by done. done.
  - rewrite E2. lia.
Qed.

(** ** Scripts that check several signatures *)

Definition multisig_items (m : Z) (keys : list (list byte)) : list item :=
  IOp (80 + m) :: map IPush keys ++ [IOp (80 + zlen keys); IOp 174].

Lemma push_keys_items keys : Forall key_size_ok keys -> concat (map push_key keys) = enc_items (map IPush keys).
Proof.
  induction 1 as [|k keys Hk _ IH]; [done|]. unfold enc_items in *. cbn [map concat]. rewrite IH. f_equal.
  unfold push_key, enc_item, push_header. destruct Hk as [Hk|Hk]; by rewrite Hk.
Qed.

Lemma multisig_script_items m keys : Forall key_size_ok keys -> multisig_script m keys = enc_items (multisig_items m keys).
Proof.
  intros Hk. unfold multisig_script, multisig_items. rewrite push_keys_items by done. unfold enc_items.
  cbn [map concat enc_item]. rewrite map_app, concat_app. done.
Qed.

Definition data_items : list item -> list (list byte) -> Prop := Forall2 (fun it d => item_ok it /\ data_of it = Some d).

Lemma data_items_pushes ds : Forall item_ok (map IPush ds) -> data_items (map IPush ds) ds.
Proof. induction ds as [|d ds IH]; intros Hok; inversion Hok; subst; constructor; [done|by apply IH]. Qed.

Lemma data_items_ok its ds : data_items its ds -> Forall item_ok its.
Proof. induction 1 as [|it d its ds [Hi _] _ IH]; by constructor. Qed.

Lemma number_item v : 1 <= v <= 16 -> item_ok (IOp (80 + v)) /\ data_of (IOp (80 + v)) = Some [z2b v].
Proof.
  intros Hv. split; [cbn; lia|]. cbn [data_of]. zsimp. by replace (80 + v - 80) with v by lia.
Qed.

Lemma keys_items_ok keys : Forall key_size_ok keys -> Forall item_ok (map IPush keys).
Proof. induction 1 as [|k keys Hk _ IH]; constructor; [|done]. destruct Hk as [Hk|Hk]; simpl; lia. Qed.

Lemma number_read v : 1 <= v <= 16 -> rawBinaryToInt [z2b v] = Ok v.
Proof.
  intros Hv. assert (forallb (fun n => bool_decide (rawBinaryToInt [z2b (Z.of_nat n)] = Ok (Z.of_nat n))) (seq 1 16) = true)
    as Hall by (vm_compute; reflexivity).
  rewrite forallb_forall in Hall. specialize (Hall (Z.to_nat v)). rewrite Z2Nat.id in Hall by lia.
  apply bool_decide_eq_true in Hall; [done|]. apply in_seq. lia.
Qed.

(** A script with [m] of the keys, and the signatures that are given. *)
Record multisig_spend (m : Z) (keys bodies rss : list (list byte)) : Prop := {
  ms_m : 1 <= m <= zlen keys;
  ms_n : zlen keys <= 16;
  ms_sizes : Forall key_size_ok keys;
  ms_distinct : NoDup keys;
  ms_valid : Forall (fun k => Validate (DecodePoint k) = true) keys;
  ms_der : der_sigs bodies rss;
  ms_body : Forall (fun b => zlen b < 2 ^ 15) bodies;
  ms_count : zlen bodies < 2 ^ 16;
}.

Lemma multisig_items_ok m keys bodies rss : multisig_spend m keys bodies rss -> Forall item_ok (multisig_items m keys).
Proof.
  intros Hm. destruct Hm. unfold multisig_items. constructor; [cbn; lia|]. apply Forall_app.
  split; [by apply keys_items_ok|]. repeat constructor; cbn; lia.
Qed.

Lemma run_redeem rec buf m keys bodies rss l data p s st st' : multisig_spend m keys bodies rss ->
  stack_ s = rev (map (fun b => b ++ [z2b 1]) bodies) ++ [] :: l -> is_BCH s = false ->
  0 < zlen (outputScriptRef_ s) -> alive (outputBuf_ s) s = true ->
  getDataForSigHash (signing_object s) SIGHASH_ALL (outputScriptRef_ s) (inputIndex_ s) st = Ok (data, st') -> 0 < zlen data ->
  exists c, run_ops rec buf (ops_of p (multisig_items m keys)) (s, st) =
    ((after_multisig m keys (matched (verifies data) rss keys) l (set_opcount c s), if bodies then st else st'), Ok tt).
Proof.
  intros [Hm Hn Hsz Hnd Hv Hder Hbody Hcnt] Es Hb Ho Ha Hdata Hd.
  assert (data_items (IOp (80 + m) :: map IPush keys ++ [IOp (80 + zlen keys)]) ([z2b m] :: keys ++ [[z2b (zlen keys)]])) as Hits.
  { constructor; [apply number_item; lia|]. apply Forall2_app; [by apply data_items_pushes, keys_items_ok|].
    constructor; [apply number_item; lia|constructor]. }
  unfold multisig_items. change ([IOp (80 + zlen keys); IOp 174]) with ([IOp (80 + zlen keys)] ++ [IOp 174]).
  rewrite (app_assoc (map IPush keys)), app_comm_cons, run_ops_app.
  destruct (run_data rec buf _ _ Hits p s st) as [c Ec]. rewrite (script_bind_ok _ _ _ _ _ Ec).
  cbn [ops_of run_ops]. unfold op_of. unfold mbind, script_bind. rewrite (process_op rec buf _ 174 OP_CHECKMULTISIG) by done.
  rewrite enter_op_output by done. unfold process_switch. cbn [oc_opcode]. change (opcode_at 174) with (Some OP_CHECKMULTISIG).
  cbv iota.
  set (s1 := count _). exists (opcount_ s1).
  assert (op_checkmultisig (s1, st) =
    ((after_multisig m keys (matched (verifies data) rss keys) l s1, if bodies then st else st'), Ok tt)) as ->; [|done].
  assert (multisig_ok m [z2b (zlen keys)] [z2b m] keys bodies rss) as Hok.
  { constructor; try done; try lia; try (apply number_read; lia). eapply Forall_impl; [exact Hbody|]. simpl. lia. }
  rewrite (op_checkmultisig_run m _ _ keys bodies rss l data s1 st st' Hok); [done| |done|exact Ha|exact Hdata|done].
  unfold s1, multisig_stack. cbn [count set_opcount set_stack stack_]. rewrite Es. cbn [rev].
  rewrite rev_app_distr. cbn [rev app]. by rewrite <- !app_assoc.
Qed.

(** The outcome: enough signatures, or the top of the stack fails the check. *)
Definition multisig_verdict (data : list byte) (m : Z) (keys rss : list (list byte)) : result bool :=
  if m <=? zlen (matched (verifies data) rss keys) then Ok true else Err ScriptError.

Lemma multisig_check m keys ks l s st0 st : isValid_ s = false -> NoDup keys -> zlen keys <= 20 -> ks `sublist_of` keys ->
  pubKeyState_ (txInEvalState_ s) = [] -> stub_evolves st0 st ->
  yields (checkState (after_multisig m keys ks l s, st)) st0 (if m <=? zlen ks then Ok true else Err ScriptError).
Proof.
  intros Hv Hnd Hmax Hs Hp Hst. pose proof (after_multisig_valid m keys ks l s Hnd Hmax Hs Hp) as Ht.
  unfold checkState. rewrite get_bind. cbn [fst]. change (isValid_ (after_multisig m keys ks l s)) with (isValid_ s).
  rewrite Hv. cbn [negb]. unfold mbind, script_bind. erewrite op_verify_run by done.
  destruct (m <=? zlen ks) eqn:E.
  - change (notZero [z2b 1]) with true. cbv iota. by apply yields_ok.
  - change (notZero []) with false. cbv iota. by apply yields_err.
Qed.

(** The script of an input: an empty item, the signatures, the redeem script. *)
Definition p2sh_input (bodies : list (list byte)) (redeem : list byte) : list item :=
  IOp 0 :: map IPush (map (fun b => b ++ [z2b 1]) bodies) ++ [IPush redeem].

Lemma zlen_multisig_script m keys : Forall key_size_ok keys -> zlen keys <= 16 ->
  34 * zlen keys + 3 <= zlen (multisig_script m keys) <= 66 * zlen keys + 3.
Proof.
  intros Hk Hn. unfold multisig_script. rewrite !zlen_app.
  change (zlen [z2b (80 + m)]) with 1. change (zlen [z2b (80 + zlen keys); z2b 174]) with 2.
  assert (34 * zlen keys <= zlen (concat (map push_key keys)) <= 66 * zlen keys); [|lia].
  clear Hn. induction Hk as [|k keys Hk _ IH]; [done|]. cbn [map concat]. rewrite zlen_app, (zlen_cons k keys).
  assert (zlen (push_key k) = 1 + zlen k) as -> by apply zlen_cons. destruct Hk; lia.
Qed.

Lemma sigs_ok bodies : Forall (fun b => zlen b < 2 ^ 15) bodies ->
  data_items (map IPush (map (fun b => b ++ [z2b 1]) bodies)) (map (fun b => b ++ [z2b 1]) bodies).
Proof.
  intros Hb. apply data_items_pushes. apply Forall_fmap, Forall_fmap. eapply Forall_impl; [exact Hb|].
  intros b Hl. cbv beta in Hl. change (0 < zlen (b ++ [z2b 1]) < 2 ^ 16 - 1). pose proof (zlen_nonneg b).
  rewrite zlen_app. change (zlen [z2b 1]) with 1. lia.
Qed.

Lemma p2sh_input_ok m keys bodies rss : multisig_spend m keys bodies rss ->
  data_items (p2sh_input bodies (multisig_script m keys)) ([] :: map (fun b => b ++ [z2b 1]) bodies ++ [multisig_script m keys]).
Proof.
  intros [Hm Hn Hsz Hnd Hv Hder Hbody Hcnt]. pose proof (zlen_multisig_script m keys Hsz Hn).
  constructor; [split; [cbn; lia|done]|]. apply Forall2_app; [by apply sigs_ok|].
  constructor; [split; [|done]|constructor]. change (0 < zlen (multisig_script m keys) < 2 ^ 16 - 1). lia.
Qed.

Lemma zlen_p2sh_input bodies redeem : zlen (p2sh_input bodies redeem) = zlen bodies + 2.
Proof. unfold p2sh_input, zlen. cbn [length]. rewrite length_app, !length_map. cbn [length]. lia. Qed.

Lemma is_program_multisig f m keys : Forall key_size_ok keys -> 1 <= zlen keys <= 16 -> is_program f (multisig_script m keys) = false.
Proof.
  intros Hk Hn. pose proof (zlen_multisig_script m keys Hk ltac:(lia)). unfold is_program. zsimp. by rewrite andb_false_r.
Qed.

(** Nothing in the script of several keys saves a script. *)
Lemma quiet_number v : 1 <= v <= 16 -> quiet_item (IOp (80 + v)).
Proof.
  intros Hv. unfold quiet_item, quiet_code, opcode_at. destruct (znth opcodes (80 + v - 97)) eqn:E; [|done].
  apply znth_Some_range in E. lia.
Qed.

Lemma multisig_items_readable buf m keys s : 1 <= m <= 16 -> 1 <= zlen keys <= 16 -> alive buf s = true -> readable buf (multisig_items m keys) s.
Proof.
  intros Hm Hn Ha. right. right. split; [done|]. unfold multisig_items. rewrite app_comm_cons.
  change [IOp (80 + zlen keys); IOp 174] with ([IOp (80 + zlen keys)] ++ [IOp 174]). rewrite app_assoc, removelast_last.
  constructor; [by apply quiet_number|]. apply Forall_app. split; [by apply Forall_fmap, Forall_true|].
  constructor; [|done]. by apply quiet_number.
Qed.

(** The script of several keys, on a stack with the signatures. *)
Lemma multisig_script_verdict d buf m keys bodies rss data s st st' : multisig_spend m keys bodies rss -> alive buf s = true ->
  stack_ s = rev (map (fun b => b ++ [z2b 1]) bodies) ++ [[]] -> is_BCH s = false -> txInEvalState_ s = TxInEvalState_new ->
  getDataForSigHash (signing_object s) SIGHASH_ALL (multisig_script m keys) (inputIndex_ s) st = Ok (data, st') -> 0 < zlen data ->
  yields ((_ ← processScript (S d) buf (brr_setNewData (multisig_script m keys)) true; checkState) (s, st)) st
    (multisig_verdict data m keys rss).
Proof.
  intros Hms Ha Es Eb Ee Hdata Hd. pose proof (multisig_items_ok m keys bodies rss Hms) as Hitems.
  pose proof Hms as [Hm Hn Hsz Hnd Hv Hder Hbody Hcnt]. pose proof (zlen_multisig_script m keys Hsz Hn) as Hz.
  assert (multisig_script m keys = enc_items (multisig_items m keys)) as Er by (by apply multisig_script_items).
  rewrite Er in Hz, Hdata |- *.
  pose proof (processScript_items d buf (multisig_items m keys) true s st Hitems ltac:(unfold two64; lia)
    ltac:(apply multisig_items_readable; [lia|lia|done])) as E2.
  destruct (run_redeem (processScript d) buf m keys bodies rss [] data 0 (start_script buf true (enc_items (multisig_items m keys)) s) st st')
    as [c E4]; try done.
  rewrite E4 in E2. erewrite script_bind_ok by exact E2. unfold multisig_verdict.
  apply multisig_check; try done; [lia|apply matched_sublist| |].
  - cbn. by rewrite Ee.
  - destruct bodies; [done|]. by eapply getDataForSigHash_evolves.
Qed.

Lemma p2sh_script_items h : zlen h = 20 -> p2sh_script h = enc_items (sh_items false h).
Proof. apply p2sh_items. Qed.

(** An input with signatures and the redeem script, for a script hash. *)
Lemma run_p2sh_multisig d m keys bodies rss data h s st st' : multisig_spend m keys bodies rss -> zlen h = 20 ->
  stack_ s = [] -> is_BCH s = false -> txInEvalState_ s = TxInEvalState_new -> onlyPushDataInInput_ s = true ->
  has_flag (flags_ s) SCRIPT_VERIFY_P2SH = true ->
  getDataForSigHash (signing_object s) SIGHASH_ALL (multisig_script m keys) (inputIndex_ s) st = Ok (data, st') -> 0 < zlen data ->
  yields (run_both (S (S d)) (enc_items (p2sh_input bodies (multisig_script m keys))) (p2sh_script h) (s, st)) st
    (if equal h (getHash160 (multisig_script m keys)) then multisig_verdict data m keys rss else Err ScriptError).
Proof.
  intros Hms Hh Es Eb Ee Hp Hf Hdata Hd. pose proof (p2sh_input_ok m keys bodies rss Hms) as Hin.
  pose proof Hms as [Hm Hn Hsz _ _ _ _ Hcnt]. pose proof (zlen_multisig_script m keys Hsz Hn) as Hz.
  set (redeem := multisig_script m keys) in *. set (input := p2sh_input bodies redeem) in *.
  assert (zlen (enc_items input) < two64) as Hzin.
  { pose proof (zlen_items_le input (data_items_ok _ _ Hin)) as Hle. unfold input in Hle at 2.
    rewrite zlen_p2sh_input in Hle. unfold two64. lia. }
  destruct (run_data (processScript (S d)) Lasting _ _ Hin 0 (start_script Lasting false (enc_items input) s) st) as [c E1].
  rewrite <- processScript_items in E1 by (done || (by eapply data_items_ok) || by apply readable_lasting).
  rewrite (run_both_after _ _ _ _ _ E1), p2sh_script_items by done. set (s1 := set_opcount c _).
  apply (script_hash_verdict (S d) Lasting false h redeem (rev (map (fun b => b ++ [z2b 1]) bodies) ++ [[]])); try done; [lia| |].
  { cbn [start_script set_isValid set_opcount set_outputScript set_stack stack_ s1]. rewrite Es.
    cbn [rev]. rewrite rev_app_distr. cbn [rev app]. by rewrite app_nil_r. }
  unfold run_redeem_script, redeem. rewrite is_program_multisig by (done || lia).
  rewrite get_bind_bind.
  apply multisig_script_verdict with (bodies := bodies) (st' := st'); try done. apply Nat.eqb_refl.
Qed.
End multisig.

(** *** Witness: two of three keys, signed by the first and the third *)

Definition w_key (n : Z) : list byte := z2b 2 :: replicate 32 (z2b n).
Definition w_keys : list (list byte) := [w_key 1; w_key 2; w_key 3].
Definition w_stub : TransactionStub :=
  {| getSerializedOutputScripts := Ok [z2b 5]; getTxInsData := Ok [mkTxInData (replicate 32 (z2b 9)) 1 0];
     getWitnessData _ := Err RuntimeError; getVersion := 1; getTxOutCount := 1; getLockTime := 0;
     serializeAllOutpoints := Err RuntimeError; serializeAllSequences := Err RuntimeError;
     getOutpoint _ := Err RuntimeError; getOutpointValue _ := Err RuntimeError; getTxInSequence _ := Err RuntimeError |}.
Definition w_script : list byte := multisig_script 2 w_keys.
Definition w_sigdata : list byte :=
  match @getDataForSigHash toy_hashes w_stub SigHashDataLegacy 1 w_script 0 StubState_new with Ok (d, _) => d | Err _ => [] end.
Definition w_bodies : list (list byte) := [toy_sign (w_key 1) w_sigdata; toy_sign (w_key 3) w_sigdata].
Definition w_rss : list (list byte) :=
  map (fun k => toy_rs k (@sha256 toy_hashes w_sigdata)) [w_key 1; w_key 3].
Definition w_state : StackInterpreter :=
  set_outputScript w_script (set_stack (multisig_stack [z2b 3] [z2b 2] w_keys w_bodies []) (StackInterpreter_new 0 0)).

