(* ===== verification/WitnessProps.v ===== *)
(** * WitnessProps: witness programs

    What [processSW] does with the witness of an input that spends a key's hash
    or a script's hash. *)

From S2P Require Import Prelude BinaryData BinaryIO Hashing StdMap TxLength ScriptParser ScriptParserProps SigHash TxEvalState.
From S2P Require Import Interpreter InterpreterProps MultisigProps ScriptUtils.

Section witness.
Context `{HashFns} `{CryptoECDSA} `{TransactionStub}.

(** ** The items of a witness *)

Lemma push_items_run items : forall pre s st, Forall (fun x => zlen x < 2 ^ 32) items ->
  zlen (pre ++ concat (map var_bytes items)) < two64 ->
  push_items (length items) (brr_at pre (concat (map var_bytes items))) (s, st) =
  ((set_stack (rev items ++ stack_ s) s, st), Ok (brr_at (pre ++ concat (map var_bytes items)) [])).
Proof.
  induction items as [|x items IH]; intros pre s st Hx Hl; cbn [length push_items map concat].
  { rewrite app_nil_r. cbn [rev app]. by destruct s. }
  apply Forall_cons in Hx as [Hx Hxs]. cbn [map concat] in Hl. unfold var_bytes at 1 in Hl. rewrite <- !app_assoc in Hl.
  pose proof (zlen_nonneg x). unfold var_bytes at 1. rewrite <- !app_assoc.
  rewrite (lift_bind_ok _ _ _ _ (brr_get_var_int_parses (zlen x) ltac:(unfold is_uint; lia) pre _ Hl)). cbv beta iota.
  rewrite wrap_small by (unfold is_uint; lia).
  rewrite (app_assoc pre) in Hl.
  rewrite (lift_bind_ok _ _ _ _ (brr_get_BinaryData_parses (zlen x) x eq_refl _ _ Hl)). cbv beta iota.
  unfold push_back. rewrite modify_bind. cbn [fst snd]. rewrite (app_assoc _ x) in Hl.
  rewrite IH by done. cbn [rev]. unfold var_bytes at 2. rewrite <- !app_assoc. done.
Qed.

Lemma enc_stack_read w : zlen w < 253 -> zlen (enc_stack w) < two64 ->
  brr_get_uint8_t (brr_setNewData (enc_stack w)) = Ok (zlen w, brr_at [z2b (zlen w)] (concat (map var_bytes w))).
Proof.
  intros Hw Hl. pose proof (zlen_nonneg w). unfold enc_stack in *.
  assert (var_int_bytes (zlen w) = [z2b (zlen w)]) as E by (unfold var_int_bytes; by zsimp). rewrite E in *.
  rewrite brr_setNewData_at. apply (brr_get_uint8_t_parses (zlen w) ltac:(unfold is_uint; lia) []). exact Hl.
Qed.

(** The interpreter when the items are on its stack. *)
Definition with_witness (w : list (list byte)) (s : StackInterpreter) : StackInterpreter :=
  set_stack (rev w ++ stack_ s) (set_sigHashObject (SHD_SW_ s) s).

Record witness_ok (w : list (list byte)) : Prop := {
  wo_count : zlen w < 253;
  wo_items : Forall (fun x => zlen x < 2 ^ 32) w;
  wo_size : zlen (enc_stack w) < 2 ^ 32;
}.

Lemma witness_pushed w s st : witness_ok w ->
  push_items (Z.to_nat (zlen w)) (brr_at [z2b (zlen w)] (concat (map var_bytes w))) (s, st) =
  ((set_stack (rev w ++ stack_ s) s, st), Ok (brr_at (enc_stack w) [])).
Proof.
  intros [Hc Hi Hs]. pose proof (zlen_nonneg w). unfold enc_stack in *.
  assert (var_int_bytes (zlen w) = [z2b (zlen w)]) as E by (unfold var_int_bytes; by zsimp). rewrite E in *.
  replace (Z.to_nat (zlen w)) with (length w) by (unfold zlen; lia). apply push_items_run; [done|unfold two64; lia].
Qed.

Lemma read_program rec h sz s st : zlen h = sz -> 0 <= sz < 253 -> has_flag (flags_ s) SCRIPT_VERIFY_SEGWIT = true ->
  processSW rec ([z2b 0; z2b sz] ++ h) (s, st) =
  (if sz =? 20 then process_p2wpkh rec h else if sz =? 32 then process_p2wsh rec h else throw ScriptError)
    (set_sigHashObject (SHD_SW_ s) s, st).
Proof.
  intros Hh Hsz Hf. unfold processSW. rewrite get_bind. cbn [fst]. rewrite Hf, modify_bind. cbn [fst snd].
  assert (zlen ([z2b 0] ++ [z2b sz] ++ h ++ []) < two64) as Hl.
  { autorewrite with zlen. rewrite Hh. unfold two64. lia. }
  rewrite brr_setNewData_at. change ([z2b 0; z2b sz] ++ h) with ([z2b 0] ++ [z2b sz] ++ h).
  rewrite <- (app_nil_r h) at 1.
  rewrite (lift_bind_ok _ _ _ _ (brr_get_uint8_t_parses 0 ltac:(done) [] _ Hl)). cbv beta iota. cbn [Z.eqb].
  rewrite (lift_bind_ok _ _ _ _ (brr_get_uint8_t_parses sz ltac:(unfold is_uint; lia) _ _ Hl)). cbv beta iota.
  rewrite (lift_bind_ok _ _ _ _ (brr_get_BinaryData_parses sz h Hh (([] ++ [z2b 0]) ++ [z2b sz]) [] Hl)). cbv beta iota.
  rewrite brr_remaining_at by exact Hl. change (0 <? zlen []) with false. cbv iota.
  by destruct (sz =? 20), (sz =? 32).
Qed.

(** ** A key's hash *)

Lemma getP2WPKHScript_ok h : zlen h = 20 -> getP2WPKHScript h = Ok (p2pkh_script h).
Proof. intros Hh. unfold getP2WPKHScript. rewrite Hh. cbn [negb Z.eqb Pos.eqb]. cbv iota zeta. f_equal. autorewrite with bw. by rewrite <- !app_assoc. Qed.

Lemma checkState_outputBuf b s st :
  let run := checkState (s, st) in checkState (set_outputBuf b s, st) = ((set_outputBuf b run.1.1, run.1.2), run.2).
Proof.
  unfold checkState, op_verify, pop_back, throw. unfold mbind, script_bind, get. cbn [fst snd isValid_ set_outputBuf].
  destruct s as [[|x l] alt op idx [] cnt fl out p2sh sw ev so bch ob pc]; try done.
  cbn. by destruct (notZero x).
Qed.

(** What a run tells does not depend on whether its own script is still there. *)
Lemma yields_local (m : Script ()) vm st v : yields ((_ ← m; checkState) vm) st v ->
  yields ((_ ← with_local m; checkState) vm) st v.
Proof.
  unfold yields, mbind, script_bind, with_local. destruct (m vm) as [[s1 st1] [[]|e]]; cbn [fst snd].
  - unfold free_local. case_bool_decide; [|done]. intros (s' & st' & r & E & Hst & Hv).
    pose proof (checkState_outputBuf Freed s1 st1) as Eb. rewrite E in Eb. cbn [fst snd] in Eb.
    eexists _, _, _. split; [exact Eb|]. split; [exact Hst|]. destruct r; exact Hv.
  - intros (s' & st' & r & E & Hst & Hv). injection E as <- <- <-. eexists _, st1, (Err e). split; [done|]. split; [done|exact Hv].
Qed.

Lemma run_p2wpkh d sig pk h data s st st' : stack_ s = [] -> is_BCH s = false -> txInEvalState_ s = TxInEvalState_new ->
  zlen h = 20 -> witness_ok [sig; pk] -> has_flag (flags_ s) SCRIPT_VERIFY_SEGWIT = true ->
  getWitnessData (inputIndex_ s) = Ok (enc_stack [sig; pk]) ->
  getDataForSigHash (default SigHashDataLegacy (SHD_SW_ s)) SIGHASH_ALL (p2pkh_script h) (inputIndex_ s) st = Ok (data, st') ->
  yields ((_ ← processSW (processScript (S d)) (p2wpkh_script h); checkState) (s, st)) st (p2pkh_verdict data h sig pk).
Proof.
  intros Es Eb Ee Hh Hw Hf Hwit Hdata. pose proof Hw as [Hc Hi Hsz].
  assert (processSW (processScript (S d)) (p2wpkh_script h) (s, st) =
    with_local (processScript (S d) Local (brr_setNewData (p2pkh_script h)) true) (with_witness [sig; pk] s, st)) as E.
  { unfold p2wpkh_script. rewrite (read_program _ h 20) by (done || lia). cbn [Z.eqb Pos.eqb].
    unfold process_p2wpkh. rewrite get_bind. cbn [fst]. erewrite lift_bind_ok by exact Hwit.
    erewrite lift_bind_ok by (apply enc_stack_read; [done|unfold two64; lia]). cbv beta iota.
    change (negb (zlen [sig; pk] =? 2)) with false. cbv iota.
    erewrite script_bind_ok by by apply witness_pushed. rewrite brr_remaining_at by (rewrite app_nil_r; unfold two64; lia).
    change (negb (zlen [] =? 0)) with false. cbv iota. by erewrite lift_bind_ok by by apply getP2WPKHScript_ok. }
  assert (yields ((_ ← with_local (processScript (S d) Local (brr_setNewData (p2pkh_script h)) true); checkState) (with_witness [sig; pk] s, st)) st
    (p2pkh_verdict data h sig pk)) as Hv.
  { apply yields_local, hash_script_verdict with (st' := st'); try done.
    - cbn. by rewrite Es.
    - apply Forall_cons in Hi as [Hi _]. done. }
  unfold mbind, script_bind in *. by rewrite E.
Qed.

(** ** A script's hash *)

Lemma getP2WSHScript_ok h : zlen h = 32 -> getP2WSHScript h = Ok (enc_items (sh_items true h)).
Proof.
  intros Hh. unfold getP2WSHScript. rewrite Hh. cbn [negb Z.eqb Pos.eqb]. cbv iota zeta. f_equal. autorewrite with bw.
  unfold enc_items, sh_items. cbn [map concat enc_item sh_code app]. unfold push_header. rewrite Hh. cbn [Z.leb Z.compare Pos.compare Pos.compare_cont].
  by rewrite <- app_assoc.
Qed.

Lemma has_flag_lor a b f : has_flag (Z.lor a b) f = has_flag a f || has_flag b f.
Proof.
  unfold has_flag. rewrite Z.land_lor_distr_l. destruct (Z.eqb_spec (Z.lor (Z.land a f) (Z.land b f)) 0) as [E|E].
  - apply Z.lor_eq_0_iff in E as [-> ->]. done.
  - destruct (Z.eqb_spec (Z.land a f) 0) as [E1|]; [|done]. destruct (Z.eqb_spec (Z.land b f) 0) as [E2|]; [|done].
    by rewrite E1, E2 in E.
Qed.

(** An input with signatures and the witness script, for a script hash. *)
Lemma run_p2wsh_multisig d m keys bodies rss data h s st st' : multisig_spend m keys bodies rss ->
  let w := [] :: map (fun b => b ++ [z2b 1]) bodies ++ [multisig_script m keys] in
  stack_ s = [] -> is_BCH s = false -> txInEvalState_ s = TxInEvalState_new -> onlyPushDataInInput_ s = true ->
  zlen h = 32 -> witness_ok w -> has_flag (flags_ s) SCRIPT_VERIFY_SEGWIT = true ->
  getWitnessData (inputIndex_ s) = Ok (enc_stack w) ->
  getDataForSigHash (default SigHashDataLegacy (SHD_SW_ s)) SIGHASH_ALL (multisig_script m keys) (inputIndex_ s) st = Ok (data, st') ->
  0 < zlen data ->
  yields ((_ ← processSW (processScript (S (S d))) (p2wsh_script h); checkState) (s, st)) st
    (if equal h (getSha256 (multisig_script m keys)) then multisig_verdict data m keys rss else Err ScriptError).
Proof.
  intros Hms w Es Eb Ee Hp Hh Hw Hf Hwit Hdata Hd. pose proof Hw as [Hc Hi Hsz].
  pose proof Hms as [Hm Hn Hks _ _ _ _ _]. pose proof (zlen_multisig_script m keys Hks Hn) as Hz.
  set (s1 := setFlags (Z.lor (flags_ s) SCRIPT_VERIFY_P2SH_SHA256) (with_witness w s)).
  assert (processSW (processScript (S (S d))) (p2wsh_script h) (s, st) =
    with_local (processScript (S (S d)) Local (brr_setNewData (enc_items (sh_items true h))) true) (s1, st)) as E.
  { unfold p2wsh_script. rewrite (read_program _ h 32) by (done || lia). cbn [Z.eqb Pos.eqb].
    unfold process_p2wsh. rewrite get_bind. cbn [fst]. erewrite lift_bind_ok by exact Hwit.
    erewrite lift_bind_ok by (apply enc_stack_read; [done|unfold two64; lia]). cbv beta iota.
    erewrite script_bind_ok by by apply witness_pushed. rewrite brr_remaining_at by (rewrite app_nil_r; unfold two64; lia).
    change (negb (zlen [] =? 0)) with false. cbv iota. rewrite modify_bind. cbn [fst snd].
    by erewrite lift_bind_ok by by apply getP2WSHScript_ok. }
  assert (yields ((_ ← with_local (processScript (S (S d)) Local (brr_setNewData (enc_items (sh_items true h))) true); checkState) (s1, st)) st
    (if equal h (sh_hash true (multisig_script m keys)) then multisig_verdict data m keys rss else Err ScriptError)) as Hv.
  { apply yields_local, (script_hash_verdict (S d) Local true h (multisig_script m keys) (rev (map (fun b => b ++ [z2b 1]) bodies) ++ [[]]));
      try done; [lia| | |].
    - cbn [s1 setFlags with_witness set_stack stack_]. rewrite Es. unfold w. cbn [rev]. rewrite rev_app_distr. cbn [rev app].
      by rewrite app_nil_r.
    - cbn [s1 setFlags flags_ sh_flag]. rewrite has_flag_lor. change (has_flag SCRIPT_VERIFY_P2SH_SHA256 SCRIPT_VERIFY_P2SH_SHA256) with true.
      apply orb_true_r.
    - unfold run_redeem_script. rewrite is_program_multisig by (done || lia).
      rewrite get_bind_bind.
      apply multisig_script_verdict with (bodies := bodies) (st' := st'); try done. apply Nat.eqb_refl. }
  unfold mbind, script_bind in *. by rewrite E.
Qed.

(** ** Witness programs behind a script hash *)

Lemma has_program f redeem : has_flag f SCRIPT_VERIFY_SEGWIT = true -> zlen redeem = 22 \/ zlen redeem = 34 ->
  (exists tl, redeem = z2b 0 :: tl) -> is_program f redeem = true.
Proof.
  intros Hf Hz [tl ->]. unfold is_program. rewrite Hf. change (b2z (z2b 0) <=? 16) with true.
  destruct Hz as [-> | ->]; done.
Qed.

Lemma run_nested d redeem ho s st v : stack_ s = [] -> onlyPushDataInInput_ s = true -> zlen ho = 20 ->
  zlen redeem = 22 \/ zlen redeem = 34 -> (exists tl, redeem = z2b 0 :: tl) ->
  has_flag (flags_ s) SCRIPT_VERIFY_SEGWIT = true -> has_flag (flags_ s) SCRIPT_VERIFY_P2SH = true ->
  (forall s', stack_ s' = [] -> onlyPushDataInInput_ s' = true -> flags_ s' = flags_ s -> SHD_SW_ s' = SHD_SW_ s ->
    inputIndex_ s' = inputIndex_ s -> is_BCH s' = is_BCH s -> txInEvalState_ s' = txInEvalState_ s ->
    yields ((_ ← processSW (processScript (S d)) redeem; checkState) (s', st)) st v) ->
  yields (run_both (S (S d)) (enc_items [IPush redeem]) (p2sh_script ho) (s, st)) st
    (if equal ho (getHash160 redeem) then v else Err ScriptError).
Proof.
  intros Es Hp Hh Hz Hb Hsw Hf Hv.
  assert (item_ok (IPush redeem)) as Hit by (simpl; lia).
  destruct (run_data (processScript (S d)) Lasting [IPush redeem] [redeem] ltac:(constructor; [done|constructor]) 0
    (start_script Lasting false (enc_items [IPush redeem]) s) st) as [c E1].
  rewrite <- processScript_items in E1.
  2:{ by constructor. }
  2:{ pose proof (zlen_item_le _ Hit). unfold enc_items. cbn [map concat]. rewrite app_nil_r. unfold two64. lia. }
  2:{ by apply readable_lasting. }
  rewrite (run_both_after _ _ _ _ _ E1), p2sh_script_items by done. set (s1 := set_opcount c _).
  apply (script_hash_verdict (S d) Lasting false ho redeem []); try done; [lia|by cbn; rewrite Es|lia|].
  unfold run_redeem_script. rewrite has_program by done. by apply Hv.
Qed.
End witness.
