(* ===== verification/ResolverProps.v ===== *)
(** * ResolverProps: what the resolver finds for standard outputs

    Lemmas that run the resolver on the scripts of standard outputs: the items
    an input must bring, from what the feed knows and the proxy signs. *)

From S2P Require Import Prelude BinaryData BinaryIO StdMap TxLength ScriptParser ScriptParserProps StackItem Interpreter Resolver.
From S2P Require Import ScriptUtils SigHashProps InterpreterProps MultisigProps WitnessProps.

Section monad.
Context {P : Type}.

Lemma resolve_bind_ok {A B} (m : Resolve P A) (f : A -> Resolve P B) st st' a : m st = (st', Ok a) -> (m ≫= f) st = f a st'.
Proof. intros E. unfold mbind, resolve_bind. by rewrite E. Qed.

Lemma res_get_bind {A B} (g : StackResolver -> A) (f : A -> Resolve P B) st : (res_get g ≫= f) st = f (g st.1) st.
Proof. done. Qed.

Lemma res_modify_bind {B} g (f : () -> Resolve P B) st : (res_modify g ≫= f) st = f tt (g st.1, st.2).
Proof. done. Qed.

Lemma res_lift_bind {A B} (r : result A) (f : A -> Resolve P B) st a : r = Ok a -> (res_lift r ≫= f) st = f a st.
Proof. by intros ->. Qed.

Lemma res_deref_ok p s (x : P) e : sr_heap s !! p = Some e -> res_deref p (s, x) = ((s, x), Ok e).
Proof. intros E. unfold res_deref. rewrite res_get_bind. cbn [fst]. by rewrite E. Qed.

Lemma res_update_ok p f s (x : P) e : sr_heap s !! p = Some e ->
  res_update p f (s, x) = ((set_heap (<[p := f e]> (sr_heap s)) s, x), Ok tt).
Proof.
  intros E. unfold res_update. erewrite resolve_bind_ok by by apply res_deref_ok. done.
Qed.

(** ** Running a script *)

Fixpoint res_ops (ocs : list OpCode) : Resolve P () :=
  match ocs with
  | [] => mret tt
  | oc :: ocs => _ ← res_processOpCode oc; res_ops ocs
  end.

Lemma res_loop_items its : forall pre fuel st, Forall item_ok its -> zlen (pre ++ enc_items its) < two64 ->
  (length its < fuel)%nat ->
  res_script_loop fuel (brr_at pre (enc_items its)) st = res_ops (ops_of (zlen pre) its) st.
Proof.
  induction its as [|it its IH]; intros pre fuel st Hok Hl Hf; (destruct fuel as [|fuel]; [simpl in Hf; lia|]).
  - cbn [res_script_loop]. by rewrite brr_remaining_at.
  - inversion Hok as [|? ? Hit Hits]; subst. cbn [res_script_loop]. rewrite enc_items_cons in *.
    pose proof (script_item_pos it Hit). rewrite brr_remaining_at by done.
    replace (zlen (enc_item it ++ enc_items its) =? 0) with false by (rewrite zlen_app; zlen_lia).
    cbn [negb]. erewrite res_lift_bind by (by apply (getNextOpcode_item (zlen pre) it Hit pre _ eq_refl)).
    cbv beta iota. cbn [ops_of res_ops].
    unfold mbind, resolve_bind. destruct (res_processOpCode (op_of (zlen pre) it) st) as [st' [[]|e]]; [|done].
    rewrite <- zlen_app. apply IH; [done|by rewrite <- app_assoc|simpl in Hf; lia].
Qed.

Lemma res_processScript_items its st : Forall item_ok its -> zlen (enc_items its) < two64 ->
  res_processScript (brr_setNewData (enc_items its)) st = res_ops (ops_of 0 its) st.
Proof.
  intros Hok Hl. unfold res_processScript. rewrite brr_setNewData_at. apply res_loop_items; try done.
  pose proof (items_length its Hok). unfold parse_fuel. simpl. lia.
Qed.
End monad.

Section resolver.
Context {P : Type} `{SignerProxy P} `{ResolverFeed}.
Section steps.
Variable rec : StackResolver -> P -> P * result ResolvedStack.

(** ** Fulfilling *)

Lemma fulfill_feed p s (x : P) e request v value : sr_heap s !! p = Some e ->
  resolvedValue_ e = Some (StackValue_FromFeed request v) -> getByVal request = Ok value -> isP2SH_ s = false ->
  fulfill rec p (s, x) =
  ((set_heap (<[p := set_resolved (StackValue_FromFeed request value) e]> (sr_heap s)) s, x), Ok tt).
Proof.
  intros He Hv Hg Hp. unfold fulfill. erewrite resolve_bind_ok by by apply res_deref_ok. rewrite Hv.
  erewrite res_lift_bind by done. erewrite resolve_bind_ok by by apply res_update_ok.
  rewrite res_get_bind. cbn [fst]. change (isP2SH_ (set_heap ?h s)) with (isP2SH_ s). by rewrite Hp.
Qed.

Lemma fulfill_script p s (x x' : P) e request v value rs : sr_heap s !! p = Some e ->
  resolvedValue_ e = Some (StackValue_FromFeed request v) -> getByVal request = Ok value -> isP2SH_ s = true ->
  rec (StackResolver_new value (sr_flags s) (isSW_ s)) x = (x', Ok rs) ->
  fulfill rec p (s, x) =
  ((set_resolvedStack (Some rs)
      (set_heap (<[p := set_resolved (StackValue_FromFeed request value) e]> (sr_heap s)) s), x'), Ok tt).
Proof.
  intros He Hv Hg Hp Hr. unfold fulfill. erewrite resolve_bind_ok by by apply res_deref_ok. rewrite Hv.
  erewrite res_lift_bind by done. erewrite resolve_bind_ok by by apply res_update_ok.
  rewrite res_get_bind. cbn [fst]. change (isP2SH_ (set_heap ?h s)) with (isP2SH_ s). rewrite Hp.
  rewrite !res_get_bind. cbn [fst]. unfold mbind, resolve_bind, res_nested. cbn [snd fst].
  change (sr_flags (set_heap ?h s)) with (sr_flags s). change (isSW_ (set_heap ?h s)) with (isSW_ s). by rewrite Hr.
Qed.

Lemma fulfill_sig p s (x x' : P) e r v pubkey sig : sr_heap s !! p = Some e ->
  resolvedValue_ e = Some (StackValue_Sig r v) -> resolveReferenceValue r (s, x) = ((s, x), Ok pubkey) ->
  proxy_sign (sr_script s) pubkey (isSW_ s) x = (x', Ok sig) ->
  fulfill rec p (s, x) = ((set_heap (<[p := set_resolved (StackValue_Sig r sig) e]> (sr_heap s)) s, x'), Ok tt).
Proof.
  intros He Hv Hr Hs. unfold fulfill. erewrite resolve_bind_ok by by apply res_deref_ok. rewrite Hv.
  erewrite resolve_bind_ok by done. erewrite resolve_bind_ok; [by apply res_update_ok|].
  unfold res_sign. cbn [fst snd]. by rewrite Hs.
Qed.

(** ** The loop over the stack *)

Lemma loop_static fuel p iter c s (x : P) e : sr_heap s !! p = Some e -> static_ e = true ->
  resolve_loop rec (S fuel) (p :: iter) c (s, x) = resolve_loop rec fuel iter (c + 1) (s, x).
Proof. intros He Hs. cbn [resolve_loop]. erewrite resolve_bind_ok by by apply res_deref_ok. by rewrite Hs. Qed.

Lemma loop_item fuel p iter iter' c s s1 s2 (x x' : P) e : sr_heap s !! p = Some e -> static_ e = false ->
  resolve_opcodes p (opcodes_ e) iter (s, x) = ((s1, x), Ok iter') -> fulfill rec p (s1, x) = ((s2, x'), Ok tt) ->
  resolve_loop rec (S fuel) (p :: iter) c (s, x) = resolve_loop rec fuel iter' c (s2, x').
Proof.
  intros He Hs Ho Hf. cbn [resolve_loop]. erewrite resolve_bind_ok by by apply res_deref_ok. rewrite Hs.
  erewrite resolve_bind_ok by exact Ho. by erewrite resolve_bind_ok by exact Hf.
Qed.

End steps.

(** ** The whole *)

Lemma getResolvedStack_run d its flags sw (x x' : P) s1 s2 items valid : Forall item_ok its -> zlen (enc_items its) < two64 ->
  res_ops (ops_of 0 its) (StackResolver_new (enc_items its) flags sw, x) = ((s1, x), Ok tt) ->
  resolveStack (getResolvedStack d) (s1, x) = ((s2, x'), Ok tt) ->
  collect (rev (sr_stack s2)) (match resolvedStack_ s2 with None => 0 | Some rs => stackSize rs end) true (s2, x')
    = ((s2, x'), Ok (items, valid)) ->
  getResolvedStack (S d) (StackResolver_new (enc_items its) flags sw) x =
  (x', Ok (let rs := default ResolvedStackLegacy_new (resolvedStack_ s2) in
           mkResolvedStack valid (isP2SH_ s2) (rs_stack rs ++ items) (rs_witnessStack rs))).
Proof.
  intros Hits Hl E1 E2 E3. cbn [getResolvedStack]. change (resolvedStack_ (StackResolver_new _ _ _)) with (@None ResolvedStack).
  cbv iota. unfold build_stack. erewrite resolve_bind_ok.
  2:{ rewrite res_get_bind. cbn [fst]. change (sr_script (StackResolver_new ?s _ _)) with s.
      rewrite res_processScript_items by done. exact E1. }
  erewrite resolve_bind_ok by exact E2. cbv beta. rewrite !res_get_bind. cbn [fst]. erewrite resolve_bind_ok by exact E3.
  cbv beta iota. rewrite res_get_bind. done.
Qed.

(** ** A key's hash *)

Definition p2pkh_heap (p2 p4 p5 : Z) (h : list byte) : list ReversedStackEntry :=
  [mkEntry false [] None [mkResOpCode (mkOpCode p2 169 []) None; mkResOpCode (mkOpCode p4 136 []) (Some (1, [3%nat]));
                          mkResOpCode (mkOpCode p5 172 []) (Some (2, [5%nat]))] None;
   RSE_dup 0; RSE_data [z2b 1]; RSE_data h; RSE_data [z2b 1];
   mkEntry false [] None [mkResOpCode (mkOpCode p5 172 []) (Some (1, [0%nat]))] None; RSE_data [z2b 1]].

Lemma push_value_short h : zlen h <= 75 -> push_value h = zlen h.
Proof. intros Hh. unfold push_value. by rewrite (proj2 (Z.leb_le _ _)). Qed.

Lemma ops_p2pkh p1 p2 p3 p4 p5 h script flags sw (x : P) :
  res_ops [mkOpCode p1 118 []; mkOpCode p2 169 []; mkOpCode p3 20 h; mkOpCode p4 136 []; mkOpCode p5 172 []]
    (StackResolver_new script flags sw, x) =
  ((mkResolver (p2pkh_heap p2 p4 p5 h) [6; 0; 5]%nat flags None 4 true false sw script, x), Ok tt).
Proof. vm_compute. reflexivity. Qed.

(** The heap after the resolution. *)
Definition p2pkh_resolved (p2 p4 p5 : Z) (h pk sig : list byte) : list ReversedStackEntry :=
  match p2pkh_heap p2 p4 p5 h with
  | [a; b; c; d; e; f; g] =>
      [set_resolved (StackValue_FromFeed h pk) a; b; c; d; e; set_resolved (StackValue_Sig 0 sig) f; g]
  | l => l
  end.

Lemma loop_p2pkh rec p2 p4 p5 h pk sig flags n sw script (x x' : P) : getByVal h = Ok pk ->
  proxy_sign script pk sw x = (x', Ok sig) ->
  resolve_loop rec 4 [6; 0; 5]%nat 0 (mkResolver (p2pkh_heap p2 p4 p5 h) [6; 0; 5]%nat flags None n true false sw script, x) =
  ((mkResolver (p2pkh_resolved p2 p4 p5 h pk sig) [6; 0; 5]%nat flags None n true false sw script, x'), Ok 1).
Proof.
  intros Hg Hs. erewrite loop_static by reflexivity.
  erewrite loop_item; [|reflexivity|reflexivity|vm_compute; reflexivity|by eapply (fulfill_feed rec 0 _ x _ h [] pk)].
  erewrite loop_item; [|reflexivity|reflexivity|vm_compute; reflexivity|by eapply (fulfill_sig rec 5 _ x x' _ 0 [] pk sig)].
  reflexivity.
Qed.

Lemma collect_p2pkh p2 p4 p5 h pk sig flags n sw script (x : P) :
  let s := mkResolver (p2pkh_resolved p2 p4 p5 h pk sig) [6; 0; 5]%nat flags None n true false sw script in
  collect [5; 0; 6]%nat 0 true (s, x) = ((s, x), Ok ([StackItem_Sig 0 sig; StackItem_PushData 1 pk], true)).
Proof. vm_compute. reflexivity. Qed.

Lemma resolve_p2pkh d h pk sig flags sw (x x' : P) : zlen h = 20 -> getByVal h = Ok pk ->
  proxy_sign (p2pkh_script h) pk sw x = (x', Ok sig) ->
  getResolvedStack (S d) (StackResolver_new (p2pkh_script h) flags sw) x =
  (x', Ok (mkResolvedStack true false [StackItem_Sig 0 sig; StackItem_PushData 1 pk] None)).
Proof.
  intros Hh Hg Hs. set (its := [IOp 118; IOp 169; IPush h; IOp 136; IOp 172]).
  assert (p2pkh_script h = enc_items its) as Es by by apply p2pkh_items.
  assert (zlen (enc_items its) < two64) as Hz by (rewrite <- Es; unfold p2pkh_script; by rewrite !zlen_app, Hh).
  rewrite Es in *. erewrite getResolvedStack_run; [|by apply p2pkh_ok|done| | |].
  2:{ cbn [its ops_of op_of]. rewrite push_value_short, Hh by lia. apply ops_p2pkh. }
  2:{ unfold resolveStack. rewrite res_get_bind. cbn [fst sr_stack length].
      etrans; [eapply resolve_bind_ok, loop_p2pkh; [exact Hg|exact Hs]|]. rewrite res_get_bind, andb_false_r. reflexivity. }
  2:{ apply collect_p2pkh. }
  reflexivity.
Qed.

(** ** A script's hash *)

Definition sh_heap (p1 p3 : Z) (sha : bool) (h : list byte) : list ReversedStackEntry :=
  [mkEntry false [] None [mkResOpCode (mkOpCode p1 (sh_code sha) []) None; mkResOpCode (mkOpCode p3 135 []) (Some (1, [2%nat]))] None;
   RSE_data [z2b 1]; RSE_data h; RSE_data [z2b 1]].

Definition sh_resolved (p1 p3 : Z) (sha : bool) (h value : list byte) : list ReversedStackEntry :=
  match sh_heap p1 p3 sha h with a :: l => set_resolved (StackValue_FromFeed h value) a :: l | l => l end.

Lemma ops_sh p1 p2 p3 v sha h script flags sw (x : P) : 1 <= v <= 75 ->
  res_ops [mkOpCode p1 (sh_code sha) []; mkOpCode p2 v h; mkOpCode p3 135 []] (StackResolver_new script flags sw, x) =
  ((mkResolver (sh_heap p1 p3 sha h) [3; 0]%nat flags None 2 true true sw script, x), Ok tt).
Proof.
  intros Hv. cbn [res_ops]. destruct sha; (erewrite resolve_bind_ok by (vm_compute; reflexivity)); cbv beta;
    (erewrite resolve_bind_ok;
       [|unfold res_processOpCode; cbn [oc_opcode]; rewrite (proj2 (Z.leb_le 1 v)), (proj2 (Z.leb_le v 75)) by lia; reflexivity]);
    vm_compute; reflexivity.
Qed.

Lemma loop_sh rec p1 p3 sha h value rs flags n sw script (x x' : P) : getByVal h = Ok value ->
  rec (StackResolver_new value flags sw) x = (x', Ok rs) ->
  resolve_loop rec 3 [3; 0]%nat 0 (mkResolver (sh_heap p1 p3 sha h) [3; 0]%nat flags None n true true sw script, x) =
  ((mkResolver (sh_resolved p1 p3 sha h value) [3; 0]%nat flags (Some rs) n true true sw script, x'), Ok 1).
Proof.
  intros Hg Hr. erewrite loop_static by reflexivity.
  destruct sha; (erewrite loop_item; [|reflexivity|reflexivity|vm_compute; reflexivity|
    by eapply (fulfill_script rec 0 _ x x' _ h [] value rs)]); done.
Qed.

Lemma collect_sh p1 p3 sha h value flags rs n sw script count (x : P) :
  let s := mkResolver (sh_resolved p1 p3 sha h value) [3; 0]%nat flags rs n true true sw script in
  collect [0; 3]%nat count true (s, x) = ((s, x), Ok ([StackItem_PushData count value], true)).
Proof. by destruct sha. Qed.

Lemma resolve_sh d sha h value rs flags sw (x x' : P) : 1 <= zlen h <= 75 -> getByVal h = Ok value ->
  getResolvedStack d (StackResolver_new value flags sw) x = (x', Ok rs) ->
  getResolvedStack (S d) (StackResolver_new (enc_items (sh_items sha h)) flags sw) x =
  (x', Ok (mkResolvedStack true true (rs_stack rs ++ [StackItem_PushData (stackSize rs) value]) (rs_witnessStack rs))).
Proof.
  intros Hh Hg Hr.
  erewrite getResolvedStack_run; [|apply sh_items_ok; lia| | | |].
  2:{ pose proof (zlen_items_le (sh_items sha h) ltac:(apply sh_items_ok; lia)) as Hz.
      change (zlen (sh_items sha h)) with 3 in Hz. unfold two64. lia. }
  2:{ cbn [sh_items ops_of op_of]. rewrite push_value_short by lia. apply ops_sh. lia. }
  2:{ unfold resolveStack. rewrite res_get_bind. cbn [fst sr_stack length].
      etrans; [eapply resolve_bind_ok, loop_sh; [exact Hg|exact Hr]|]. rewrite res_get_bind, andb_false_r. reflexivity. }
  2:{ apply collect_sh. }
  reflexivity.
Qed.

(** ** Witness programs *)

Definition program_items (h : list byte) : list item := [IOp 0; IPush h].

Lemma ops_program p1 p2 v h script flags sw (x : P) : 1 <= v <= 75 ->
  res_ops [mkOpCode p1 0 []; mkOpCode p2 v h] (StackResolver_new script flags sw, x) =
  ((mkResolver [RSE_data []; RSE_data h] [1; 0]%nat flags None 1 false false sw script, x), Ok tt).
Proof.
  intros Hv. cbn [res_ops]. erewrite resolve_bind_ok by (vm_compute; reflexivity). cbv beta.
  erewrite resolve_bind_ok.
  2:{ unfold res_processOpCode. cbn [oc_opcode]. rewrite (proj2 (Z.leb_le 1 v)), (proj2 (Z.leb_le v 75)) by lia. reflexivity. }
  reflexivity.
Qed.

(** The script that a witness program stands for. *)
Definition program_script (h : list byte) : list byte := if zlen h =? 20 then p2pkh_script h else enc_items (sh_items true h).

Lemma resolve_program_ok d h rs flags sw (x x' : P) : zlen h = 20 \/ zlen h = 32 -> has_flag flags SCRIPT_VERIFY_SEGWIT = true ->
  getResolvedStack d (StackResolver_new (program_script h) flags true) x = (x', Ok rs) ->
  getResolvedStack (S d) (StackResolver_new (enc_items (program_items h)) flags sw) x =
  (x', Ok (mkResolvedStack true (zlen h =? 32) [] (Some (rs_stack rs)))).
Proof.
  intros Hh Hf Hr. assert (Forall item_ok (program_items h)) as Hok by (repeat constructor; cbn; lia).
  erewrite getResolvedStack_run; [|done| | | |].
  2:{ pose proof (zlen_items_le (program_items h) Hok) as Hz.
      change (zlen (program_items h)) with 2 in Hz. unfold two64. lia. }
  2:{ cbn [program_items ops_of op_of]. rewrite push_value_short by lia. apply ops_program. lia. }
  2:{ unfold resolveStack. rewrite res_get_bind. cbn [fst sr_stack length].
      etrans; [eapply resolve_bind_ok; reflexivity|]. rewrite res_get_bind. cbn [fst sr_flags]. rewrite Hf.
      change (true && (0 + 1 + 1 =? 2)) with true. cbv iota. unfold resolve_program.
      erewrite resolve_bind_ok by (apply res_deref_ok; reflexivity). cbv beta.
      erewrite resolve_bind_ok by reflexivity. change (0 =? 0) with true. cbv iota.
      erewrite resolve_bind_ok by (apply res_deref_ok; reflexivity). cbv beta. cbn [staticData_ RSE_data].
      erewrite (resolve_bind_ok _ _ _
        (mkResolver [RSE_data []; RSE_data h] [1; 0]%nat flags None 1 false (zlen h =? 32) sw (enc_items (program_items h)), x)
        (program_script h)).
      2:{ unfold program_script. destruct Hh as [Hh|Hh]; rewrite Hh; cbn [Z.eqb Pos.eqb]; cbv iota.
          - by rewrite getP2WPKHScript_ok.
          - erewrite res_lift_bind by by apply getP2WSHScript_ok. reflexivity. }
      rewrite !res_get_bind. cbn [fst sr_flags resolvedStack_]. unfold res_catch, res_nested, mbind, resolve_bind. cbn [res_modify fst snd].
      rewrite Hr. reflexivity. }
  2:{ reflexivity. }
  reflexivity.
Qed.

(** ** Several keys *)

(** [s] after pushes of data. *)
Definition pushed (ds : list (list byte)) (s : StackResolver) : StackResolver :=
  set_entries (rev (seq (length (sr_heap s)) (length ds)) ++ sr_stack s) (set_heap (sr_heap s ++ map RSE_data ds) s).

Lemma pushed_app a b s : pushed b (pushed a s) = pushed (a ++ b) s.
Proof.
  destruct s as [heap stack flags rs n oh p2 sw script]. unfold pushed. cbn [sr_heap sr_stack set_heap set_entries].
  unfold set_heap, set_entries. cbn. rewrite length_app, length_map, (length_app a b), seq_app, rev_app_distr, map_app.
  by rewrite !app_assoc.
Qed.

Lemma pushdata_run d s (x : P) : pushdata d (s, x) = ((pushed [d] s, x), Ok tt).
Proof. done. Qed.

Lemma push_keys_run keys : forall p s (x : P), Forall key_size_ok keys ->
  res_ops (ops_of p (map IPush keys)) (s, x) = ((pushed keys s, x), Ok tt).
Proof.
  induction keys as [|k keys IH]; intros p s x Hk.
  - cbn. unfold pushed. cbn. rewrite app_nil_r. by destruct s.
  - apply Forall_cons in Hk as [Hs Hk]. assert (1 <= zlen k <= 75) as Hz by (unfold key_size_ok in Hs; lia).
    cbn [map ops_of res_ops op_of]. rewrite push_value_short by lia. erewrite resolve_bind_ok.
    2:{ unfold res_processOpCode. cbn [oc_opcode oc_dataRef].
        rewrite (proj2 (Z.leb_le 1 _)), (proj2 (Z.leb_le _ 75)) by lia. apply pushdata_run. }
    rewrite IH by done. by rewrite pushed_app.
Qed.

Lemma push_int_run v p s (x : P) : 1 <= v <= 16 ->
  res_processOpCode (op_of p (IOp (80 + v))) (s, x) = ((pushed [[z2b v]] s, x), Ok tt).
Proof.
  intros Hv. unfold res_processOpCode. cbn [op_of oc_opcode]. rewrite (proj2 (Z.leb_gt (80 + v) 75)), andb_false_r by lia.
  rewrite (proj2 (Z.leb_le 81 _)), (proj2 (Z.leb_le _ 96)) by lia. cbn [andb]. unfold res_push_int.
  replace (80 + v - 80) with v by lia. erewrite res_lift_bind by (apply int_bytes_small; lia). apply pushdata_run.
Qed.

Lemma res_ops_app a b st st' : res_ops a st = (st', Ok tt) -> res_ops (a ++ b) st = res_ops (P:=P) b st'.
Proof.
  revert st. induction a as [|oc a IH]; intros st E; [by injection E as <-|]. cbn [app res_ops] in *.
  unfold mbind, resolve_bind in *. destruct (res_processOpCode oc st) as [st1 [[]|e]]; [by apply IH|done].
Qed.

Lemma ops_of_app a : forall p b, ops_of p (a ++ b) = ops_of p a ++ ops_of (p + zlen (enc_items a)) b.
Proof.
  induction a as [|it a IH]; intros p b; cbn [app ops_of]; [change (zlen (enc_items [])) with 0; by rewrite Z.add_0_r|].
  rewrite IH, enc_items_cons, zlen_app. do 2 f_equal. f_equal. lia.
Qed.

Definition multisig_entry (p : Z) (v : option StackValue) : ReversedStackEntry :=
  mkEntry false [] None [mkResOpCode (mkOpCode p 174 []) None] v.

Lemma push_cms_run p s (x : P) : opCodeCount_ s = 0 ->
  res_processOpCode (mkOpCode p 174 []) (s, x) =
  ((set_entries (length (sr_heap s) :: sr_stack s) (set_heap (sr_heap s ++ [multisig_entry p None]) (set_opCodeCount 1 s)), x), Ok tt).
Proof.
  destruct s as [heap stack flags rs n oh p2 sw script]. cbn [opCodeCount_ sr_heap sr_stack]. intros ->.
  unfold res_processOpCode. cbn [oc_opcode]. change ((1 <=? 174) && (174 <=? 75)) with false.
  change ((81 <=? 174) && (174 <=? 96)) with false. cbv iota. rewrite res_get_bind. cbn [fst opCodeCount_]. rewrite res_modify_bind.
  cbn [fst snd]. change (wrap 32 (0 + 1)) with 1. unfold res_switch. cbn [oc_opcode].
  change (opcode_at 174) with (Some OP_CHECKMULTISIG). cbv iota zeta. change (174 =? 0) with false.
  change ((174 =? 76) || (174 =? 77) || (174 =? 78)) with false. cbv iota. unfold push_op_code.
  erewrite resolve_bind_ok by reflexivity. cbv beta. 
  rewrite (resolve_bind_ok _ _ _ (mkResolver (heap ++ [multisig_entry p None]) stack flags rs 1 oh p2 sw script, x) true); [done|].
  unfold res_push_opcode. rewrite res_get_bind. cbn [fst push_opcode]. erewrite resolve_bind_ok.
  2:{ apply res_deref_ok. cbn [sr_heap set_heap fst]. rewrite lookup_app_r, Nat.sub_diag by done. reflexivity. }
  cbn [static_ parent_ RSE_new andb]. erewrite resolve_bind_ok.
  2:{ apply res_update_ok. cbn [sr_heap set_heap fst]. rewrite lookup_app_r, Nat.sub_diag by done. reflexivity. }
  cbn [sr_heap set_heap fst]. unfold set_heap. cbn.
  rewrite <- (Nat.add_0_r (length heap)) at 1. by rewrite insert_app_r.
Qed.

(** The stack after a script of several keys. *)
Definition multisig_heap (p m : Z) (keys : list (list byte)) (v : option StackValue) : list ReversedStackEntry :=
  map RSE_data ([z2b m] :: keys ++ [[z2b (zlen keys)]]) ++ [multisig_entry p v].
Definition multisig_stack (keys : list (list byte)) : list nat := rev (seq 0 (length keys + 3)).

Lemma ops_multisig m keys script flags sw (x : P) : 1 <= m <= 16 -> 1 <= zlen keys <= 16 -> Forall key_size_ok keys ->
  exists p, res_ops (ops_of 0 (multisig_items m keys)) (StackResolver_new script flags sw, x) =
  ((mkResolver (multisig_heap p m keys None) (multisig_stack keys) flags None 1 false false sw script, x), Ok tt).
Proof.
  intros Hm Hn Hk. unfold multisig_items. cbn [ops_of res_ops]. erewrite resolve_bind_ok by by apply push_int_run.
  cbv beta. rewrite ops_of_app. erewrite res_ops_app by by apply push_keys_run. cbn [ops_of res_ops].
  erewrite resolve_bind_ok by by apply push_int_run. cbv beta. rewrite !pushed_app.
  match goal with |- context [op_of ?p (IOp 174)] => exists p end.
  change ([[z2b m]] ++ keys ++ [[z2b (zlen keys)]]) with ([z2b m] :: keys ++ [[z2b (zlen keys)]]).
  set (ds := [z2b m] :: keys ++ _). assert (length ds = length keys + 2)%nat as Hds.
  { unfold ds. cbn [length]. rewrite length_app. cbn. lia. }
  replace (([[z2b m]] ++ keys) ++ [[z2b (zlen keys)]]) with ds by (unfold ds; by rewrite <- app_assoc).
  erewrite resolve_bind_ok by by apply push_cms_run. cbv beta. unfold pushed. cbn [set_opCodeCount set_heap set_entries sr_heap sr_stack app].
  unfold multisig_heap, multisig_stack. rewrite Hds.
  replace (length keys + 3)%nat with (S (length keys + 2)) by lia. rewrite seq_S, rev_app_distr. cbn [rev app].
  unfold StackResolver_new, set_heap, set_entries, set_opCodeCount. cbn [sr_heap sr_stack app length sr_flags].
  rewrite app_nil_r, length_map, Hds. reflexivity.
Qed.

(** ** Keys from the stack *)

Definition statics (s : StackResolver) : list nat -> list (list byte) -> Prop :=
  Forall2 (fun p d => sr_heap s !! p = Some (RSE_data d)).

Lemma next_static_run s (x : P) p d iter : sr_heap s !! p = Some (RSE_data d) ->
  next_static (p :: iter) (s, x) = ((s, x), Ok (d, iter)).
Proof. intros Hp. cbn [next_static]. by erewrite resolve_bind_ok by by apply res_deref_ok. Qed.

Lemma static_keys_run s (x : P) iter ps ds : statics s ps ds ->
  static_keys (length ps) (ps ++ iter) (s, x) = ((s, x), Ok (ds, iter)).
Proof.
  induction 1 as [|p d ps ds Hp _ IH]; [done|]. cbn [length app static_keys].
  erewrite resolve_bind_ok by by apply next_static_run. cbv beta iota. by erewrite resolve_bind_ok by exact IH.
Qed.

Lemma collect_statics s (x : P) rest ps ds : statics s ps ds -> forall c v,
  collect (ps ++ rest) c v (s, x) = collect rest c v (s, x).
Proof.
  induction 1 as [|p d ps ds Hp _ IH]; intros c v; [done|]. cbn [app collect].
  erewrite resolve_bind_ok by by apply res_deref_ok. cbn [static_ RSE_data]. apply IH.
Qed.

Lemma statics_rev s ps ds : statics s ps ds -> statics s (rev ps) (rev ds).
Proof. induction 1 as [|p d ps ds Hp _ IH]; [constructor|]. cbn [rev]. apply Forall2_app; [done|]. by repeat constructor. Qed.

Lemma statics_seq s ds : forall a pre post, sr_heap s = pre ++ map RSE_data ds ++ post -> a = length pre ->
  statics s (seq a (length ds)) ds.
Proof.
  induction ds as [|d ds IH]; intros a pre post E Ha; [constructor|]. cbn [length seq]. constructor.
  - rewrite E, Ha. by rewrite lookup_app_r, Nat.sub_diag by done.
  - apply (IH _ (pre ++ [RSE_data d]) post); [by rewrite E, <- app_assoc|rewrite Ha, length_app; cbn; lia].
Qed.

(** The signatures that the proxy makes with the keys, numbered from 1. *)
Fixpoint key_sigs (script : list byte) (sw : bool) (keys : list (list byte)) (m keyCount sigCount : Z)
    (sigs : stdmap Z (list byte)) (x : P) : P * result (stdmap Z (list byte)) :=
  match keys with
  | [] => (x, Ok sigs)
  | pubkey :: keys =>
      let keyCount := wrap 32 (keyCount + 1) in
      match proxy_sign script pubkey sw x with
      | (x, Ok sig) =>
          let sigs := (map_insert keyCount sig sigs).1 in
          let sigCount := wrap 32 (sigCount + 1) in
          if m <=? sigCount then (x, Ok sigs) else key_sigs script sw keys m keyCount sigCount sigs x
      | (x, Err e) => if is_exception e then key_sigs script sw keys m keyCount sigCount sigs x else (x, Err e)
      end
  end.

Lemma sign_keys_run s keys m : forall kc sc sigs x,
  sign_keys keys m kc sc sigs (s, x) =
  let '(x', r) := key_sigs (sr_script s) (isSW_ s) keys m kc sc sigs x in ((s, x'), r).
Proof.
  induction keys as [|k keys IH]; intros kc sc sigs x; [done|]. cbn [sign_keys key_sigs]. unfold res_sign. cbn [fst snd].
  destruct (proxy_sign (sr_script s) k (isSW_ s) x) as [x1 [sig|e]].
  - destruct (m <=? wrap 32 (sc + 1)); [done|]. apply IH.
  - destruct (is_exception e); [apply IH|done].
Qed.

Lemma fulfill_multisig rec p s (x x' : P) e keys m v sigs : sr_heap s !! p = Some e ->
  resolvedValue_ e = Some (StackValue_Multisig keys m v) -> key_sigs (sr_script s) (isSW_ s) (rev keys) m 0 0 [] x = (x', Ok sigs) ->
  fulfill rec p (s, x) = ((set_heap (<[p := set_resolved (StackValue_Multisig keys m sigs) e]> (sr_heap s)) s, x'), Ok tt).
Proof.
  intros He Hv Hs. unfold fulfill. erewrite resolve_bind_ok by by apply res_deref_ok. rewrite Hv.
  erewrite resolve_bind_ok by (rewrite sign_keys_run, Hs; reflexivity). by apply res_update_ok.
Qed.

Section multisig.
Variables (p m : Z) (keys : list (list byte)) (flags : Z) (sw : bool) (script : list byte).
Hypotheses (Hm : 1 <= m <= zlen keys) (Hn : zlen keys <= 16) (Hk : Forall key_size_ok keys).

Let n := length keys.
Let st (v : option StackValue) : StackResolver :=
  mkResolver (multisig_heap p m keys v) (multisig_stack keys) flags None 1 false false sw script.

Lemma multisig_stack_items : multisig_stack keys = (n + 2)%nat :: (n + 1)%nat :: rev (seq 1 n) ++ [0%nat].
Proof.
  unfold multisig_stack. fold n. replace (n + 3)%nat with (S (S (S n))) by lia.
  rewrite (seq_S (S (S n))), (seq_S (S n)), !rev_app_distr. cbn [rev app]. replace (n + 2)%nat with (0 + S (S n))%nat by lia. replace (n + 1)%nat with (0 + S n)%nat by lia.
  done.
Qed.

Lemma multisig_statics v : statics (st v) (0%nat :: seq 1 n ++ [(n + 1)%nat]) ([z2b m] :: keys ++ [[z2b (zlen keys)]]).
Proof.
  replace (0%nat :: seq 1 n ++ [(n + 1)%nat]) with (seq 0 (length ([z2b m] :: keys ++ [[z2b (zlen keys)]]))).
  - by apply (statics_seq _ _ 0 [] [multisig_entry p v]).
  - cbn [length]. rewrite length_app. cbn [length]. fold n. replace (n + 1)%nat with (S n) by lia. rewrite <- cons_seq, seq_S.
    cbn [seq]. by replace (n + 1)%nat with (1 + n)%nat by lia.
Qed.

Lemma multisig_last v : sr_heap (st v) !! (n + 2)%nat = Some (multisig_entry p v).
Proof.
  unfold st, multisig_heap. cbn [sr_heap]. rewrite lookup_app_r.
  - rewrite length_map. cbn [length]. rewrite length_app. cbn [length]. fold n. by replace (n + 2 - _)%nat with 0%nat by lia.
  - rewrite length_map. cbn [length]. rewrite length_app. cbn. fold n. lia.
Qed.

Lemma multisig_set v v' : <[(n + 2)%nat := set_resolved v' (multisig_entry p v)]> (multisig_heap p m keys v) = multisig_heap p m keys (Some v').
Proof.
  unfold multisig_heap. replace (n + 2)%nat with (length (map RSE_data ([z2b m] :: keys ++ [[z2b (zlen keys)]])) + 0)%nat.
  - by rewrite insert_app_r.
  - rewrite length_map. cbn [length]. rewrite length_app. cbn. fold n. lia.
Qed.

Lemma opcodes_multisig (x : P) :
  resolve_opcodes (n + 2)%nat (opcodes_ (multisig_entry p None)) ((n + 1)%nat :: rev (seq 1 n) ++ [0%nat]) (st None, x) =
  ((st (Some (StackValue_Multisig (rev keys) m [])), x), Ok []).
Proof using Hm Hn.
  pose proof (multisig_statics None) as Hst. apply Forall2_cons in Hst as [Hst0 Hst].
  apply Forall2_app_inv in Hst as [Hks Hnn]; [|by rewrite length_seq]. apply Forall2_cons in Hnn as [Hnn _].
  cbn [multisig_entry opcodes_ resolve_opcodes roc_op oc_opcode]. change (opcode_at 174) with (Some OP_CHECKMULTISIG). cbv iota.
  rewrite (resolve_bind_ok _ _ _ (st (Some (StackValue_Multisig (rev keys) m [])), x) []); [done|]. unfold resolve_multisig.
  erewrite resolve_bind_ok by by apply next_static_run. cbv beta iota.
  erewrite res_lift_bind by (apply number_read; lia).
  replace (Z.to_nat (zlen keys)) with (length (rev (seq 1 n))) by (rewrite length_rev, length_seq; unfold zlen; lia).
  erewrite resolve_bind_ok by by apply static_keys_run, statics_rev. cbv beta iota.
  erewrite resolve_bind_ok by by apply next_static_run. cbv beta iota.
  erewrite res_lift_bind by (apply number_read; lia). rewrite (proj2 (Z.ltb_ge _ _)) by lia. rewrite wrap_small by (unfold is_uint; lia).
  erewrite resolve_bind_ok by (apply res_update_ok, multisig_last). cbn [fst]. unfold st, set_heap at 1.
  cbn [sr_heap sr_stack sr_flags resolvedStack_ opCodeCount_ opHash_ isP2SH_ isSW_ sr_script]. by rewrite multisig_set.
Qed.

Lemma loop_multisig rec sigs (x x' : P) : key_sigs script sw keys m 0 0 [] x = (x', Ok sigs) ->
  resolve_loop rec (S (length (multisig_stack keys))) (multisig_stack keys) 0 (st None, x) =
  ((st (Some (StackValue_Multisig (rev keys) m sigs)), x'), Ok 0).
Proof using Hm Hn.
  intros Hs. rewrite multisig_stack_items at 2. cbn [length].
  erewrite loop_item; [|apply multisig_last|done|apply opcodes_multisig|].
  2:{ eapply fulfill_multisig; [apply multisig_last|done|]. cbn [sr_script isSW_ st]. rewrite rev_involutive. exact Hs. }
  replace (length (multisig_stack keys)) with (S (length keys + 2)) by (unfold multisig_stack; rewrite length_rev, length_seq; lia).
  cbn [resolve_loop]. unfold mret, resolve_ret, set_heap.
  cbn [sr_heap sr_stack sr_flags resolvedStack_ opCodeCount_ opHash_ isP2SH_ isSW_ sr_script st]. by rewrite multisig_set.
Qed.

Lemma collect_multisig sigs (x : P) : let s := st (Some (StackValue_Multisig (rev keys) m sigs)) in
  collect (rev (multisig_stack keys)) 0 true (s, x) =
  ((s, x), Ok ([StackItem_OpCode 0 0; StackItem_MultiSig 1 m sigs], negb (zlen sigs <? m))).
Proof.
  intros s. rewrite multisig_stack_items. cbn [rev]. rewrite rev_app_distr, rev_involutive. cbn [rev app]. rewrite <- app_assoc.
  rewrite app_comm_cons, app_assoc, <- app_comm_cons. erewrite collect_statics by apply multisig_statics. cbn [collect].
  erewrite resolve_bind_ok by (apply res_deref_ok, multisig_last). cbn [static_ multisig_entry resolvedValue_].
  by destruct (zlen sigs <? m).
Qed.
End multisig.

Lemma resolve_multisig_ok d m keys sigs flags sw (x x' : P) : 1 <= m <= zlen keys -> zlen keys <= 16 -> Forall key_size_ok keys ->
  key_sigs (multisig_script m keys) sw keys m 0 0 [] x = (x', Ok sigs) ->
  getResolvedStack (S d) (StackResolver_new (multisig_script m keys) flags sw) x =
  (x', Ok (mkResolvedStack (negb (zlen sigs <? m)) false [StackItem_OpCode 0 0; StackItem_MultiSig 1 m sigs] None)).
Proof.
  intros Hm Hn Hk Hs. pose proof (zlen_multisig_script m keys Hk Hn) as Hz.
  rewrite (multisig_script_items m keys Hk) in *.
  destruct (ops_multisig m keys (enc_items (multisig_items m keys)) flags sw x ltac:(lia) ltac:(lia) Hk) as [p Eo].
  erewrite getResolvedStack_run; [| | |exact Eo| |].
  2:{ constructor; [cbn; lia|]. apply Forall_app. split; [by apply keys_items_ok|]. repeat constructor; cbn; lia. }
  2:{ unfold two64. lia. }
  2:{ unfold resolveStack. rewrite res_get_bind. cbn [fst sr_stack].
      etrans; [eapply resolve_bind_ok, loop_multisig; [done..|exact Hs]|]. rewrite res_get_bind, andb_false_r. reflexivity. }
  2:{ cbn [sr_stack resolvedStack_]. by apply collect_multisig. }
  reflexivity.
Qed.
End resolver.
