(* ===== verification/VerifierProps.v ===== *)
(** * VerifierProps: the theorems about verifying a transaction

    An input whose verification throws is not valid, so both modes of
    [TransactionVerifier::verify] accept the same transactions; and what the
    verification of an input that spends a script for a key's hash decides. *)

From S2P Require Import Prelude BinaryData BinaryIO Hashing StdMap DBUtils BlockHeader TxLength TxFilter BlockData BlockDataProps.
From S2P Require Import ScriptParser ScriptParserProps SigHash TxEvalState Interpreter InterpreterFrame Verifier ScriptUtils.
From S2P Require Import SigHashProps InterpreterProps.

(** ** Exceptions *)

(** The opcodes do not declare a stack valid and do not change the input. *)
Definition same_input (vm vm' : Vm) : Prop :=
  validStack_ (txInEvalState_ vm.1) = validStack_ (txInEvalState_ vm'.1) /\
  inputIndex_ vm.1 = inputIndex_ vm'.1 /\ is_BCH vm.1 = is_BCH vm'.1.

#[export] Instance same_input_frame : Frame same_input.
Proof.
  split; [split|]; try done. split.
  - done.
  - intros a b c (? & ? & ?) (? & ? & ?). unfold same_input. repeat split; congruence.
Qed.

(** ** The outcomes recorded so far *)

(** The inputs before [i] are the ones with an outcome. *)
Definition evals_below (i : Z) (v : VerifierState) : Prop :=
  map_ordered (evalMap_ (txEvalState_ v)) /\ forall j, i <= j -> map_find j (evalMap_ (txEvalState_ v)) = None.

Lemma record_state_below i state v : evals_below i v -> evals_below (i + 1) (record_state i state v) /\
  evalMap_ (txEvalState_ (record_state i state v)) = map_put i state (evalMap_ (txEvalState_ v)).
Proof.
  intros [Ho Hn]. unfold record_state, updateState, evals_below. cbn [txEvalState_ evalMap_].
  unfold map_insert. rewrite (Hn i) by lia. cbn [fst]. split; [|done]. split; [by apply map_put_ordered|].
  intros j Hj. rewrite map_find_put_ne by (done || lia). apply Hn. lia.
Qed.

Lemma evals_below_eq i v w : txEvalState_ v = txEvalState_ w -> evals_below i v -> evals_below i w.
Proof. unfold evals_below. by intros ->. Qed.

Section verifier.
Context `{HashFns} `{CryptoECDSA}.
Variables (tv : TransactionVerifier) (garbage : Z -> Z) (depth : nat).
#[local] Instance tv_stub : TransactionStub := verifier_stub tv.

Lemma run_scripts_frame R `{!Frame R} i o vm vm' e :
  run_scripts tv depth i o vm = (vm', Err e) -> R vm vm'.
Proof.
  unfold run_scripts. unfold mbind at 1, script_bind at 1.
  match goal with |- context [match ?m vm with _ => _ end] => set (scripts := m); assert (keeps R scripts) as Hk end.
  { unfold scripts. case_match.
    - apply keeps_processSW; [done|]. intros. by apply keeps_processScript.
    - apply (keeps_bind _); [by apply keeps_processScript|]. intros. by apply keeps_processScript. }
  specialize (Hk vm). destruct (scripts vm) as [vm1 [[]|e1]]; cbn [fst] in Hk; [|by intros [=<- _]].
  intros E. unfold checkState in E. rewrite get_bind in E. etrans; [exact Hk|].
  unfold mbind, script_bind in E. destruct (isValid_ vm1.1); cbn [negb] in E; [done|].
  pose proof (keeps_verify R vm1) as Hv. destruct (op_verify vm1) as [vm2 [[]|e2]]; [done|].
  injection E as <- _. exact Hv.
Qed.

(** The state that is recorded for an input: what [checkSig] returns, or the
    state of the interpreter, which is not valid, if it throws. *)
Lemma checkSig_state inputId stub v s1 v' r :
  checkSig tv depth inputId (getStackInterpreter tv garbage inputId stub).1 v = (s1, v', r) ->
  match r with Ok state => txInEvalState_ s1 = state | Err _ => txin_isValid (txInEvalState_ s1) = false end.
Proof.
  set (s := (getStackInterpreter tv garbage inputId stub).1). intros E.
  assert (txInEvalState_ s = TxInEvalState_new) as Es.
  { unfold s, getStackInterpreter. by destruct (tv_BCH tv). }
  unfold checkSig in E. destruct (_ ≫= _) as [[[txHashRef outputId] inputScript]|e].
  2:{ injection E as <- _ <-. by rewrite Es. }
  destruct (find_utxo _ _ _) as [utxo|]; [|by injection E as <- _ <-].
  destruct (share_sigHash tv s v) as [s2 v2] eqn:E2.
  assert (txInEvalState_ s2 = TxInEvalState_new) as Es2.
  { unfold share_sigHash in E2. destruct (usesWitness_ _); [|by injection E2 as <- _].
    destruct (vs_sigHashDataObject v); injection E2 as <- _; done. }
  destruct (run_scripts tv depth inputScript (script_ utxo) (s2, vs_stub v2)) as [[s3 stub3] r3] eqn:E3.
  injection E as <- _ <-. destruct r3 as [[]|e]; cbn [mbind result_bind]; [done|].
  apply (run_scripts_frame same_input) in E3 as (E3 & _). cbn [fst] in E3. rewrite Es2 in E3.
  unfold txin_isValid. by rewrite <- E3.
Qed.
Lemma checkSig_evals inputId s v s1 v1 r : checkSig tv depth inputId s v = (s1, v1, r) -> txEvalState_ v1 = txEvalState_ v.
Proof.
  unfold checkSig. destruct (_ ≫= _) as [[[txHashRef outputId] inputScript]|e]; [|by intros [=<- <- _]].
  destruct (find_utxo _ _ _) as [utxo|]; [|by intros [=<- <- _]].
  destruct (share_sigHash tv s v) as [s2 v2] eqn:E2.
  assert (txEvalState_ v2 = txEvalState_ v).
  { unfold share_sigHash in E2. destruct (usesWitness_ _); [|by injection E2 as _ <-].
    destruct (vs_sigHashDataObject v); by injection E2 as _ <-. }
  destruct (run_scripts _ _ _ _ _) as [[s3 stub3] r3]. by intros [=<- <- _].
Qed.

(** An invalid outcome stays. *)
Lemma checkSigs_loop_invalid n : forall i v v' k state, evals_below i v ->
  map_find k (evalMap_ (txEvalState_ v)) = Some state -> txin_isValid state = false ->
  checkSigs_loop tv garbage depth n i v = Ok v' -> tx_isValid (txEvalState_ v') = false.
Proof.
  induction n as [|n IH]; intros i v v' k state Hb Hk Hs.
  - intros [=<-]. unfold tx_isValid. apply not_true_iff_false. rewrite forallb_forall. intros Hall.
    destruct Hb as [Ho _]. apply map_find_In in Hk; [|done]. specialize (Hall _ (proj1 (list_elem_of_In _ _) Hk)).
    cbn in Hall. congruence.
  - cbn [checkSigs_loop]. destruct (getStackInterpreter tv garbage i (vs_stub v)) as [s stub].
    destruct (checkSig tv depth i s (with_stub v stub)) as [[s1 v1] r] eqn:E. apply checkSig_evals in E.
    assert (evals_below i v1) as Hb1 by (by eapply evals_below_eq).
    pose proof (record_state_below i (txInEvalState_ s1) v1 Hb1) as [Hb' Em].
    assert (map_find k (evalMap_ (txEvalState_ (record_state i (txInEvalState_ s1) v1))) = Some state) as Hk'.
    { rewrite Em, E. destruct Hb as [Ho Hn]. rewrite map_find_put_ne; [done|done|].
      intros ->. cbn [with_stub txEvalState_] in *. rewrite Hn in Hk by lia. done. }
    assert (checkSigs_loop tv garbage depth n (i + 1) (record_state i (txInEvalState_ s1) v1) = Ok v' ->
      tx_isValid (txEvalState_ v') = false) as Hrec by (by eapply IH).
    destruct r as [st|e]; [done|]. destruct (is_exception e); done.
Qed.

Lemma checkSigs_loops n : forall i v v', evals_below i v -> tx_isValid (txEvalState_ v') = true ->
  checkSigs_loop tv garbage depth n i v = Ok v' <-> checkSigs_NoCatch_loop tv garbage depth n i v = Ok v'.
Proof.
  induction n as [|n IH]; intros i v v' Hb Hv; [done|]. cbn [checkSigs_loop checkSigs_NoCatch_loop].
  pose proof (checkSig_state i (vs_stub v)) as Hst.
  destruct (getStackInterpreter tv garbage i (vs_stub v)) as [s stub]. cbn [fst] in Hst.
  destruct (checkSig tv depth i s (with_stub v stub)) as [[s1 v1] r] eqn:E. specialize (Hst _ _ _ _ E).
  apply checkSig_evals in E. assert (evals_below i v1) as Hb1 by (by eapply evals_below_eq).
  pose proof (record_state_below i (txInEvalState_ s1) v1 Hb1) as [Hb' Em].
  destruct r as [state|e]; cbn [mbind result_bind].
  - subst state. by apply IH.
  - split; [|done]. destruct (is_exception e); [|done]. intros Hl. exfalso.
    assert (map_find i (evalMap_ (txEvalState_ (record_state i (txInEvalState_ s1) v1))) = Some (txInEvalState_ s1)) as Hk
      by (rewrite Em; apply map_find_put_eq).
    rewrite (checkSigs_loop_invalid n (i + 1) _ v' i _ Hb' Hk Hst Hl) in Hv. done.
Qed.

(** Catching the exceptions of an input, or not, accepts the same
    transactions: an input that throws is recorded as invalid. *)
Theorem verify_modes v v' :
  verify tv garbage depth false v = Ok (true, v') <-> verify tv garbage depth true v = Ok (true, v').
Proof.
  unfold verify. change (checkOutputs =? UINT64_MAX) with false. cbv iota. unfold checkSigs, checkSigs_NoCatch.
  assert (evals_below 0 (reset_state v)) as Hb by done.
  pose proof (fun w => checkSigs_loops (length (txins_ (theTx_ tv))) 0 (reset_state v) w Hb) as Hw.
  split; intros E.
  - destruct (checkSigs_loop _ _ _ _ _ _) as [w|e] eqn:El in E; [|done]. cbn [mbind result_bind] in E.
    injection E as Ev Ew. subst w. apply Hw in El; [|done]. rewrite El. cbn. by rewrite Ev.
  - destruct (checkSigs_NoCatch_loop _ _ _ _ _ _) as [w|e] eqn:El in E; [|done]. cbn [mbind result_bind] in E.
    injection E as Ev Ew. subst w. apply Hw in El; [|done]. rewrite El. cbn. by rewrite Ev.
Qed.
End verifier.

Lemma forallb_map_put {V} (f : Z * V -> bool) k (x : V) m : map_find k m = None ->
  forallb f (map_put k x m) = forallb f m && f (k, x).
Proof.
  induction m as [|[k' x'] m IH]; intros Hn; cbn [map_put forallb map_find] in *; [by rewrite andb_comm|].
  destruct (std_less k k'); [cbn [forallb]; by rewrite andb_comm|]. destruct (std_less k' k); [|done].
  cbn [forallb]. rewrite IH by done. by rewrite andb_assoc.
Qed.

(** ** Spending a script for a key's hash *)

(** What the reads of a signature throw. *)
Lemma brr_take_err n r e : brr_wf r -> 0 <= n -> brr_take n r = Err e -> e = RuntimeError.
Proof.
  intros Hr Hn E. pose proof (brr_take_safe n Hn r Hr) as Hs. rewrite E in Hs. unfold brr_take in E.
  destruct (_ <? _); [congruence|]. unfold raw_read in E. destruct (_ && _); [done|]. cbn in E. congruence.
Qed.

Lemma get_uint8_t_cases r : brr_wf r ->
  (exists v r', brr_get_uint8_t r = Ok (v, r') /\ 0 <= v /\ brr_wf r') \/ brr_get_uint8_t r = Err RuntimeError.
Proof.
  intros Hr. unfold brr_get_uint8_t, mbind, reader_bind. pose proof (brr_take_safe 1 ltac:(lia) r Hr) as Hs.
  destruct (brr_take 1 r) as [[bs r']|e] eqn:E; [|right; by rewrite (brr_take_err 1 r e)].
  left. exists (le_val bs), r'. pose proof (le_val_range bs). split; [done|]. split; [lia|apply Hs].
Qed.

Lemma get_BinaryData_cases n r : brr_wf r -> 0 <= n ->
  (exists d r', brr_get_BinaryData n r = Ok (d, r') /\ brr_wf r') \/ brr_get_BinaryData n r = Err RuntimeError.
Proof.
  intros Hr Hn. unfold brr_get_BinaryData. pose proof (brr_take_safe n Hn r Hr) as Hs.
  destruct (brr_take n r) as [[d r']|e] eqn:E; [|right; by rewrite (brr_take_err n r e)].
  left. exists d, r'. split; [done|apply Hs].
Qed.

Ltac read_case lem :=
  let v := fresh "v" in let r := fresh "r" in
  destruct lem as [(v & r & -> & ?) | -> ];
    [cbn [mbind result_bind]; destruct_and?|right; cbn [mbind result_bind]; eauto].

Lemma extractRS_cases l : zlen l < two64 ->
  (exists rs, extractRSFromDERSig l = Ok rs) \/ extractRSFromDERSig l = Err DERError \/
  extractRSFromDERSig l = Err RuntimeError.
Proof.
  intros Hl. unfold extractRSFromDERSig. pose proof (brr_wf_at [] l Hl) as Hr. rewrite brr_setNewData_at.
  read_case (get_uint8_t_cases _ Hr). case_match; [by right; left|].
  read_case (get_uint8_t_cases r ltac:(done)). read_case (get_uint8_t_cases r0 ltac:(done)).
  read_case (get_uint8_t_cases r1 ltac:(done)). case_match; [by right; left|].
  read_case (get_BinaryData_cases v2 r2 ltac:(done) ltac:(done)).
  read_case (get_uint8_t_cases r3 ltac:(done)). read_case (get_uint8_t_cases r4 ltac:(done)). case_match; [by right; left|].
  read_case (get_BinaryData_cases v5 r5 ltac:(done) ltac:(done)). left. by eexists.
Qed.

Lemma input_parts_bytes h d script sequence : zlen h = 32 -> zlen d = 4 -> zlen script < 2 ^ 31 ->
  zlen (h ++ d ++ var_bytes script ++ sequence) < two64 ->
  input_parts (h ++ d ++ var_bytes script ++ sequence) = Ok (h, le_val d, script).
Proof.
  intros Hh Hd Hs Hl. unfold input_parts. rewrite brr_setNewData_at.
  rewrite (brr_get_BinaryData_parses 32 h Hh [] _ Hl). cbn [mbind result_bind app].
  assert (is_uint 32 (le_val d)) as Hu.
  { pose proof (le_val_range d). unfold zlen in Hd. replace (length d) with 4%nat in * by lia. unfold is_uint.
    change (2 ^ 32) with (256 ^ Z.of_nat 4). done. }
  rewrite <- (int_to_le_val d 4 Hd) at 1. rewrite (brr_get_uint32_t_parses LE _ Hu h) by (rewrite int_to_le_val; done).
  cbn [mbind result_bind]. rewrite int_to_le_val by done. unfold var_bytes in *. rewrite <- !app_assoc in *.
  pose proof (zlen_nonneg script).
  rewrite (brr_get_var_int_parses (zlen script)) by (unfold is_uint; lia || by rewrite <- !app_assoc). cbn [mbind result_bind].
  rewrite wrap_small by (unfold is_uint; lia).
  rewrite (brr_get_BinaryData_parses (zlen script) script eq_refl) by (by rewrite <- !app_assoc). done.
Qed.

Lemma input_parts_ok i : txin_ok i -> zlen (enc_txin i) < 2 ^ 32 ->
  input_parts (enc_txin i) = Ok (outpoint_hash i, outpoint_index i, txin_script i).
Proof.
  intros Hi Hsz. destruct (outpoint_split i Hi) as (E & Hh & Hd). destruct Hi as (Ho & Hq & Hs).
  assert (enc_txin i = outpoint_hash i ++ drop 32 (txin_outpoint i) ++ var_bytes (txin_script i) ++ txin_sequence i) as Ee
    by (unfold enc_txin; rewrite E at 1; by rewrite <- app_assoc).
  rewrite Ee in *. apply input_parts_bytes; try done. unfold two64. lia.
Qed.

(** [checkSig] of an input whose output is known: what its scripts do. *)
Lemma checkSig_scripts `{HashFns} `{CryptoECDSA} tx tl utxos flags bch depth n i u s v :
  tx_ok tx -> zlen (enc_tx tx ++ tl) < two64 -> tx_ins tx !! n = Some i ->
  find_utxo utxos (outpoint_hash i) (outpoint_index i) = Some u ->
  let tv := mkVerifier (bctx_of tx tl) utxos flags bch in
  checkSig tv depth (Z.of_nat n) s v =
  let '(s1, v1) := share_sigHash tv s v in
  let '((s', stub), r) := run_scripts tv depth (txin_script i) (script_ u) (s1, vs_stub v1) in
  (s', mkVerifierState stub (vs_sigHashDataObject v1) (txEvalState_ v1), _ ← r; Ok (txInEvalState_ s')).
Proof.
  intros Hok Hl Hi Hu tv.
  pose proof (ins_ok tx Hok n i Hi) as Hin. pose proof (enc_txin_size tx Hok n i Hi) as Hsz.
  assert (41 <= zlen (enc_txin i)) as H41.
  { rewrite zlen_enc_txin by done. unfold var_bytes. rewrite zlen_app, zlen_var_int_bytes.
    pose proof (calcVarIntSize_range (zlen (txin_script i))). pose proof (zlen_nonneg (txin_script i)). lia. }
  pose proof (txin_bytes_ok tx tl utxos flags bch Hok Hl n i Hi) as Eb. fold tv in Eb.
  unfold checkSig. rewrite Eb. cbn [mbind result_bind].
  rewrite (proj2 (Z.ltb_ge _ _)) by lia. rewrite input_parts_ok by done. cbn [utxos_ tv]. by rewrite Hu.
Qed.
