(* ===== verification/VerifierCorrect.v ===== *)
(** * VerifierCorrect: transactions with standard inputs

    [TransactionVerifier::verify] on a transaction that was parsed from its
    bytes and whose inputs spend standard outputs: those that pay to the hash
    of a key or of a script of several keys, in the original form, as a witness
    program, or as a witness program behind a script hash. *)

From S2P Require Import Prelude BinaryData BinaryIO Hashing StdMap DBUtils BlockHeader TxLength TxFilter BlockData BlockDataProps.
From S2P Require Import ScriptParser ScriptParserProps SigHash TxEvalState Interpreter InterpreterFrame Verifier ScriptUtils.
From S2P Require Import SigHashProps InterpreterProps MultisigProps WitnessProps VerifierProps.

(** ** Inputs *)

(** What unlocks an output, and the hash the output has: a signature and a key,
    or signatures (without their hash type, 1) for a script of [m] of the keys;
    [us_rss] are the two numbers of each signature. *)
Inductive Unlock :=
  | ByKey (sig pk h : list byte)
  | BySigs (m : Z) (keys bodies rss : list (list byte)) (h : list byte).

(** Where it stands; [Nested] has the hash of the witness program. *)
Inductive Place := InScript | InWitness | Nested (ho : list byte).

Record Spend := mkSpend { sp_place : Place; sp_unlock : Unlock }.

(** The script that the signatures cover. *)
Definition code_of (u : Unlock) : list byte :=
  match u with ByKey _ _ h => p2pkh_script h | BySigs m keys _ _ _ => multisig_script m keys end.

Definition witness_of (u : Unlock) : list (list byte) :=
  match u with
  | ByKey sig pk _ => [sig; pk]
  | BySigs m keys bodies _ _ => [] :: map (fun b => b ++ [z2b 1]) bodies ++ [multisig_script m keys]
  end.

Definition program_of (u : Unlock) : list byte :=
  match u with ByKey _ _ h => p2wpkh_script h | BySigs _ _ _ _ h => p2wsh_script h end.

Definition output_of (sp : Spend) : list byte :=
  match sp_place sp, sp_unlock sp with
  | InScript, ByKey _ _ h => p2pkh_script h
  | InScript, BySigs _ _ _ _ h => p2sh_script h
  | InWitness, u => program_of u
  | Nested ho, _ => p2sh_script ho
  end.

Definition input_of (sp : Spend) : list byte :=
  match sp_place sp, sp_unlock sp with
  | InScript, ByKey sig pk _ => enc_items [IPush sig; IPush pk]
  | InScript, BySigs m keys bodies _ _ => enc_items (p2sh_input bodies (multisig_script m keys))
  | InWitness, _ => []
  | Nested _, u => enc_items [IPush (program_of u)]
  end.

Definition hash_size (sp : Spend) : Z :=
  match sp_place sp, sp_unlock sp with InScript, _ | _, ByKey _ _ _ => 20 | _, _ => 32 end.

Section inputs.
Context `{HashFns} `{CryptoECDSA}.

Definition unlock_ok (sp : Spend) : Prop :=
  match sp_unlock sp with
  | ByKey sig pk h => zlen h = hash_size sp /\ Forall item_ok [IPush sig; IPush pk]
  | BySigs m keys bodies rss h => zlen h = hash_size sp /\ multisig_spend m keys bodies rss
  end.

(** What the flags must ask for. *)
Definition place_ok (flags : Z) (sp : Spend) : Prop :=
  match sp_place sp with
  | InScript => match sp_unlock sp with ByKey _ _ _ => True | _ => has_flag flags SCRIPT_VERIFY_P2SH = true end
  | InWitness => has_flag flags SCRIPT_VERIFY_SEGWIT = true
  | Nested ho => zlen ho = 20 /\ has_flag flags SCRIPT_VERIFY_SEGWIT = true /\ has_flag flags SCRIPT_VERIFY_P2SH = true
  end.

(** Input [n] of the transaction is this spend, of the output [u]. *)
Record spends (tx : Tx) (utxos : utxoMap) (flags : Z) (n : nat) (i : TxIn) (u : UTXO) (sp : Spend) : Prop := {
  sd_unlock : unlock_ok sp;
  sd_place : place_ok flags sp;
  sd_script : txin_script i = input_of sp;
  sd_utxo : find_utxo utxos (outpoint_hash i) (outpoint_index i) = Some u;
  sd_output : script_ u = output_of sp;
  sd_witness : sp_place sp ≠ InScript ->
    default [] (tx_witnesses tx) !! n = Some (witness_of (sp_unlock sp)) /\ witness_ok (witness_of (sp_unlock sp));
}.

(** ** What is signed, and what decides *)

Definition signed_data (tx : Tx) (n : nat) (i : TxIn) (u : UTXO) (sp : Spend) : list byte :=
  match sp_place sp with
  | InScript => enc_tx (signing_tx tx n (code_of (sp_unlock sp))) ++ int_to LE 4 1
  | _ => bip143 tx i (code_of (sp_unlock sp)) (value_ u) 1
  end.

Definition unlock_verdict (data : list byte) (sha : bool) (u : Unlock) : result bool :=
  match u with
  | ByKey sig pk h => p2pkh_verdict data h sig pk
  | BySigs m keys _ rss h =>
      if equal h (sh_hash sha (multisig_script m keys)) then multisig_verdict data m keys rss else Err ScriptError
  end.

Definition verdict (tx : Tx) (n : nat) (i : TxIn) (u : UTXO) (sp : Spend) : result bool :=
  let data := signed_data tx n i u sp in
  match sp_place sp with
  | InScript => unlock_verdict data false (sp_unlock sp)
  | InWitness => unlock_verdict data true (sp_unlock sp)
  | Nested ho => if equal ho (getHash160 (program_of (sp_unlock sp))) then unlock_verdict data true (sp_unlock sp)
                 else Err ScriptError
  end.

Lemma unlock_exception data sha sp e : unlock_ok sp -> unlock_verdict data sha (sp_unlock sp) = Err e -> is_exception e = true.
Proof.
  intros Hu E. unfold unlock_ok in Hu. destruct (sp_unlock sp) as [sig pk h|m keys bodies rss h]; cbn [unlock_verdict] in E.
  - destruct Hu as [_ Hp]. apply Forall_cons in Hp as [Hp _]. simpl in Hp. unfold p2pkh_verdict, p2pkh_sig in E.
    destruct (equal _ _); cbn [negb] in E; [|by injection E as <-]. destruct (_ <? 65); [done|].
    destruct (last sig); [|by injection E as <-]. destruct (_ =? _); cbn [negb] in E; [|by injection E as <-].
    destruct (extractRS_cases (take (length sig - 1) sig)) as [[rs Er]|[Er|Er]];
      [|rewrite Er in E; cbn in E; by try injection E as <-..].
    unfold zlen in *. rewrite length_take. unfold two64. lia.
  - unfold multisig_verdict in E. destruct (equal _ _); [|by injection E as <-]. destruct (_ <=? _); [done|by injection E as <-].
Qed.

Lemma verdict_exception tx n i u sp e : unlock_ok sp -> verdict tx n i u sp = Err e -> is_exception e = true.
Proof.
  intros Hu E. unfold verdict in E. destruct (sp_place sp) as [| |ho]; try by eapply unlock_exception.
  destruct (equal _ _); [by eapply unlock_exception|by injection E as <-].
Qed.
End inputs.

(** ** Running an input *)

Section run.
Context `{HashFns} `{CryptoECDSA}.
Variables (tx : Tx) (tl : list byte) (utxos : utxoMap) (flags : Z).
Hypotheses (Hok : tx_ok tx) (Hl : zlen (enc_tx tx ++ tl) < two64) (Houts : tx_outs tx ≠ []).

Let tv : TransactionVerifier := mkVerifier (bctx_of tx tl) utxos flags false.
#[local] Instance run_stub : TransactionStub := tx_stub tx tl utxos flags false.

Definition object_ready (o : SigHashDataSegWit) : Prop := o = SegWit_new 1 \/ o = pre_state tx 1.

(** The interpreter of an input before its scripts run. *)
Record fresh (n : nat) (shd : option SigHashData) (s : StackInterpreter) : Prop := {
  fr_stack : stack_ s = [];
  fr_push : onlyPushDataInInput_ s = true;
  fr_index : inputIndex_ s = Z.of_nat n;
  fr_eval : txInEvalState_ s = TxInEvalState_new;
  fr_object : sigHashDataObject_ s = None;
  fr_segwit : SHD_SW_ s = shd;
  fr_bch : is_BCH s = false;
  fr_flags f : has_flag flags f = true -> has_flag (flags_ s) f = true;
}.

Lemma code_items u sp : sp_unlock sp = u -> unlock_ok sp ->
  exists its, code_of u = enc_items its /\ Forall item_ok its /\ existsb is_sep its = false /\ zlen (enc_items its) < 2 ^ 32.
Proof.
  intros <- Hu. unfold unlock_ok, hash_size in Hu. destruct (sp_unlock sp) as [sig pk h|m keys bodies rss h]; cbn [code_of].
  - destruct Hu as [Hh _]. assert (zlen h = 20) as Hh' by by destruct (sp_place sp).
    exists [IOp 118; IOp 169; IPush h; IOp 136; IOp 172]. rewrite <- p2pkh_items by done.
    split; [done|]. split; [by apply p2pkh_ok|]. split; [done|]. unfold p2pkh_script. by rewrite !zlen_app, Hh'.
  - destruct Hu as [_ Hm]. pose proof Hm as [Hm1 Hn Hsz _ _ _ _ _]. exists (multisig_items m keys).
    rewrite <- multisig_script_items by done. split; [done|]. split; [by eapply multisig_items_ok|]. split.
    + unfold multisig_items. cbn [existsb is_sep]. unfold OP_CODESEPARATOR_value. zsimp. rewrite existsb_app.
      cbn [existsb is_sep]. unfold OP_CODESEPARATOR_value. zsimp. rewrite orb_false_r.
      clear. induction keys as [|k keys IH]; [done|exact IH].
    + pose proof (zlen_multisig_script m keys Hsz Hn). lia.
Qed.

Lemma legacy_signed n u sp st : sp_unlock sp = u -> unlock_ok sp -> getLastCodeSeparatorOffset (Z.of_nat n) st = 0 ->
  getDataForSigHash SigHashDataLegacy SIGHASH_ALL (code_of u) (Z.of_nat n) st =
  Ok (enc_tx (signing_tx tx n (code_of u)) ++ int_to LE 4 1, st).
Proof using Hok Hl Houts.
  intros Hu Huok Hs. destruct (code_items u sp Hu Huok) as (its & -> & Hits & Hsep & Hz).
  pose proof (legacy_data tx tl utxos flags false Hok Hl [] its n st Houts Hits ltac:(cbn [app]; lia) Hs) as E.
  destruct (pieces_no_sep its Hsep) as [_ Esc]. rewrite Esc in E. cbn [app] in E. unfold getDataForSigHash.
  change (negb (SIGHASH_ALL =? SIGHASH_ALL)) with false. cbv iota.
  change (@legacy_getDataForSigHashAll (tx_stub tx tl utxos flags false)) with (@legacy_getDataForSigHashAll run_stub) in E.
  by rewrite E.
Qed.

Lemma segwit_signed n i uo u sp st id o : sp_unlock sp = u -> unlock_ok sp -> tx_ins tx !! n = Some i ->
  find_utxo utxos (outpoint_hash i) (outpoint_index i) = Some uo ->
  getLastCodeSeparatorOffset (Z.of_nat n) st = 0 -> segwit_objs st !! id = Some o -> object_ready o ->
  exists st', getDataForSigHash (SegWitAt id) SIGHASH_ALL (code_of u) (Z.of_nat n) st =
    Ok (bip143 tx i (code_of u) (value_ uo) 1, st').
Proof using Hok Hl Houts.
  intros Hu Huok Hi Huo Hs Hid Ho. destruct (code_items u sp Hu Huok) as (its & Ec & _ & _ & Hz). rewrite <- Ec in Hz.
  unfold getDataForSigHash. change (negb (SIGHASH_ALL =? SIGHASH_ALL)) with false. cbv iota. rewrite Hid.
  pose proof (segwit_data tx tl utxos flags false Hok Hl [] (code_of u) n i uo st 1 o Houts Hi Huo
    ltac:(cbn [app]; unfold two64; lia) Hs Ho) as E. cbn [app] in E.
  change (@segwit_getDataForSigHashAll _ (tx_stub tx tl utxos flags false)) with (@segwit_getDataForSigHashAll _ run_stub) in E.
  rewrite E. by eexists.
Qed.

Lemma zlen_bip143 i code v four : 0 < zlen (bip143 tx i code v four).
Proof using Hok.
  unfold bip143. rewrite zlen_app, (ok_version tx Hok).
  match goal with |- _ < _ + zlen ?l => pose proof (zlen_nonneg l) end. lia.
Qed.

Lemma zlen_signing n code : 0 < zlen (enc_tx (signing_tx tx n code) ++ int_to LE 4 1).
Proof using Hok.
  rewrite enc_tx_parts, !zlen_app. change (tx_version (signing_tx tx n code)) with (tx_version tx). rewrite (ok_version tx Hok).
  repeat match goal with |- context [zlen ?l] => pose proof (zlen_nonneg l); generalize dependent (zlen l); intros end. lia.
Qed.

(** A witness program, native or nested. *)
Lemma run_program d n i uo sp s st id o : spends tx utxos flags n i uo sp -> tx_ins tx !! n = Some i -> sp_place sp ≠ InScript ->
  stack_ s = [] -> onlyPushDataInInput_ s = true -> inputIndex_ s = Z.of_nat n -> txInEvalState_ s = TxInEvalState_new ->
  is_BCH s = false -> has_flag (flags_ s) SCRIPT_VERIFY_SEGWIT = true -> SHD_SW_ s = Some (SegWitAt id) ->
  segwit_objs st !! id = Some o -> object_ready o -> getLastCodeSeparatorOffset (Z.of_nat n) st = 0 ->
  yields ((_ ← processSW (processScript (S (S d))) (program_of (sp_unlock sp)); checkState) (s, st)) st
    (unlock_verdict (signed_data tx n i uo sp) true (sp_unlock sp)).
Proof using Hok Hl Houts.
  intros Hsp Hi Hpl Es Hp Hidx Ee Hb Hf Hsw Hid Ho Hsep. pose proof Hsp as [Huok _ _ Hutxo _ Hwit].
  destruct (Hwit Hpl) as [Hw Hwok].
  destruct (segwit_signed n i uo _ sp st id o eq_refl Huok Hi Hutxo Hsep Hid Ho) as [st' Hdata].
  assert (signed_data tx n i uo sp = bip143 tx i (code_of (sp_unlock sp)) (value_ uo) 1) as ->
    by (unfold signed_data; by destruct (sp_place sp)).
  pose proof (getWitnessData_ok tx tl utxos flags false Hok Hl n _ Hw) as Hget.
  unfold unlock_ok, hash_size in Huok. destruct (sp_unlock sp) as [sig pk h|m keys bodies rss h];
    cbn [program_of unlock_verdict code_of witness_of] in *.
  - apply (run_p2wpkh (S d) sig pk h _ s st st'); try done.
    + destruct Huok as [Hh _]. by destruct (sp_place sp).
    + rewrite Hidx. exact Hget.
    + rewrite Hidx, Hsw. exact Hdata.
  - destruct Huok as [Hh Hms]. apply (run_p2wsh_multisig d m keys bodies rss _ h s st st'); try done.
    + by destruct (sp_place sp).
    + rewrite Hidx. exact Hget.
    + rewrite Hidx, Hsw. exact Hdata.
    + apply zlen_bip143.
Qed.
Lemma run_scripts_both d i o s st : zlen i ≠ 0 -> run_scripts tv d i o (s, st) = run_both d i o (s, st).
Proof. intros Hi. unfold run_scripts, run_both. by rewrite (proj2 (Z.eqb_neq _ _) Hi), andb_false_r. Qed.

Lemma enc_items_nonempty it its : item_ok it -> zlen (enc_items (it :: its)) ≠ 0.
Proof.
  intros Hit. rewrite enc_items_cons, zlen_app. pose proof (script_item_pos it Hit). pose proof (zlen_nonneg (enc_items its)). lia.
Qed.

(** The object that the witness programs of the transaction share. *)
Definition object_at (sp : Spend) (shd : option SigHashData) (st : StubState) : Prop :=
  sp_place sp ≠ InScript -> exists id o, shd = Some (SegWitAt id) /\ segwit_objs st !! id = Some o /\ object_ready o.

Lemma zlen_program sp : unlock_ok sp -> sp_place sp ≠ InScript ->
  (zlen (program_of (sp_unlock sp)) = 22 \/ zlen (program_of (sp_unlock sp)) = 34) /\
  exists l, program_of (sp_unlock sp) = z2b 0 :: l.
Proof.
  unfold unlock_ok, hash_size. intros Hu Hpl. destruct (sp_unlock sp) as [sig pk h|m keys bodies rss h]; cbn [program_of].
  - destruct Hu as [Hh _]. split; [left|by eexists]. unfold p2wpkh_script. rewrite zlen_app. by destruct (sp_place sp); rewrite ?Hh.
  - destruct Hu as [Hh _]. split; [right|by eexists]. unfold p2wsh_script. rewrite zlen_app. by destruct (sp_place sp); rewrite ?Hh.
Qed.

Lemma run_spend d n i uo sp shd s st : spends tx utxos flags n i uo sp -> tx_ins tx !! n = Some i -> fresh n shd s ->
  object_at sp shd st -> getLastCodeSeparatorOffset (Z.of_nat n) st = 0 ->
  yields (run_scripts tv (S (S (S d))) (input_of sp) (output_of sp) (s, st)) st (verdict tx n i uo sp).
Proof using Hok Hl Houts.
  intros Hsp Hi [Es Hp Hidx Ee Hob Hsw Hb Hf] Hobj Hsep. pose proof Hsp as [Huok Hplace _ _ _ _].
  unfold place_ok in Hplace. unfold verdict, object_at in *. unfold input_of, output_of.
  destruct (sp_place sp) as [| |ho] eqn:Epl.
  - pose proof (legacy_signed n _ sp st eq_refl Huok Hsep) as Hdata. rewrite <- Hidx in Hdata.
    assert (signed_data tx n i uo sp = enc_tx (signing_tx tx n (code_of (sp_unlock sp))) ++ int_to LE 4 1) as ->
      by (unfold signed_data; by rewrite Epl).
    assert (signing_object s = SigHashDataLegacy) as Eso by (unfold signing_object; by rewrite Hob).
    unfold unlock_ok, hash_size in Huok. rewrite Epl in Huok.
    destruct (sp_unlock sp) as [sig pk h|m keys bodies rss h]; cbn [unlock_verdict code_of] in *; destruct Huok as [Hh Hu].
    + rewrite run_scripts_both by (apply enc_items_nonempty; by apply Forall_cons in Hu as [? _]).
      apply (run_p2pkh (S (S d)) sig pk h _ s st st); try done. by rewrite Eso.
    + rewrite run_scripts_both by (apply enc_items_nonempty; cbn; lia).
      apply (run_p2sh_multisig (S d) m keys bodies rss _ h s st st); try done; [by apply Hf|by rewrite Eso|apply zlen_signing].
  - destruct (Hobj ltac:(done)) as (id & o & -> & Hid & Ho). unfold run_scripts. cbn [tv_flags tv]. rewrite Hplace.
    change (zlen [] =? 0) with true. cbn [andb].
    apply (run_program (S d) n i uo sp s st id o); try done; [by rewrite Epl|by apply Hf].
  - destruct (Hobj ltac:(done)) as (id & o & -> & Hid & Ho). destruct Hplace as (Hho & Hfs & Hfp).
    assert (sp_place sp ≠ InScript) as Hne by by rewrite Epl.
    destruct (zlen_program sp Huok Hne) as [Hz Hfirst].
    rewrite run_scripts_both by (apply enc_items_nonempty; simpl; lia).
    apply (run_nested (S d)); try done; [by apply Hf|by apply Hf|].
    intros s' E1 E2 E3 E4 E5 E6 E7. apply (run_program d n i uo sp s' st id o); try congruence.
    rewrite E3. by apply Hf.
Qed.
(** ** The members of the verifier between inputs *)

(** No separator is noted, and the shared object has digested nothing yet or
    this transaction. *)
Definition ready (v : VerifierState) : Prop :=
  lastCodeSeparatorMap_ (vs_stub v) = [] /\
  forall id, vs_sigHashDataObject v = Some id -> exists o, segwit_objs (vs_stub v) !! id = Some o /\ object_ready o.

Lemma share_ready s v : ready v -> exists shd v', share_sigHash tv s v = (setSegWitSigHashDataObject shd s, v') /\
  ready v' /\ (segwit tx = true -> exists id o, shd = Some (SegWitAt id) /\ segwit_objs (vs_stub v') !! id = Some o /\ object_ready o).
Proof.
  intros [Hsep Hob]. unfold share_sigHash. cbn [theTx_ tv bctx_of usesWitness_]. destruct (segwit tx).
  2:{ exists (SHD_SW_ s), v. split; [by destruct s|]. by split. }
  destruct (vs_sigHashDataObject v) as [id|] eqn:Eid.
  - destruct (Hob id eq_refl) as (o & Ho & Hr). eexists _, _. split; [reflexivity|]. split; [|intros _; by exists id, o].
    split; [done|]. rewrite Eid. exact Hob.
  - cbn [new_segwit]. set (objs := segwit_objs (vs_stub v)).
    assert ((objs ++ [SegWit_new 1]) !! length objs = Some (SegWit_new 1)) as Hlast.
    { rewrite lookup_app_r, Nat.sub_diag by lia. done. }
    eexists _, _. split; [reflexivity|]. cbn [vs_stub vs_sigHashDataObject segwit_objs lastCodeSeparatorMap_].
    split; [|intros _; exists (length objs), (SegWit_new 1); split; [done|split; [exact Hlast|by left]]].
    split; [done|]. cbn. intros id [=<-]. exists (SegWit_new 1). split; [exact Hlast|by left].
Qed.

Lemma evolves_ready st st' id o : stub_evolves st st' -> segwit_objs st !! id = Some o -> object_ready o ->
  exists o', segwit_objs st' !! id = Some o' /\ object_ready o'.
Proof using Hok Hl Houts.
  intros [_ Hf] Hid Ho. destruct (Forall2_lookup_l _ _ _ _ _ Hf Hid) as (o' & Hid' & [->|Hc]); [by exists o|].
  exists o'. split; [done|]. right.
  pose proof (computePreState_ok tx tl utxos flags false Hok Hl 1 o Houts Ho) as E.
  change (@computePreState _ (tx_stub tx tl utxos flags false)) with (@computePreState _ run_stub) in E. congruence.
Qed.

Variables (garbage : Z -> Z) (d : nat).

Lemma fresh_input n stub shd :
  fresh n shd (setSegWitSigHashDataObject shd (getStackInterpreter tv garbage (Z.of_nat n) stub).1).
Proof. split; try done. intros f Hf. cbn [flags_ getStackInterpreter fst setFlags setSegWitSigHashDataObject tv_BCH tv].
  change (has_flag (Z.lor (garbage (Z.of_nat n)) flags) f = true). rewrite has_flag_lor, Hf. apply orb_true_r.
Qed.

Lemma checkSig_spend n i uo sp stub v : spends tx utxos flags n i uo sp -> tx_ins tx !! n = Some i -> ready v ->
  exists s1 v1 r, checkSig tv (S (S (S d))) (Z.of_nat n) (getStackInterpreter tv garbage (Z.of_nat n) stub).1 v = (s1, v1, r) /\
    (state ← r; Ok (txin_isValid state)) = verdict tx n i uo sp /\ ready v1.
Proof using Hok Hl Houts.
  intros Hsp Hi Hr. pose proof Hsp as [Huok _ Hscr Hu Hus Hwit].
  pose proof (checkSig_scripts tx tl utxos flags false (S (S (S d))) n i uo
    (getStackInterpreter tv garbage (Z.of_nat n) stub).1 v Hok Hl Hi Hu) as Ec.
  cbv zeta in Ec. fold tv in Ec. rewrite Ec.
  set (s := (getStackInterpreter _ _ _ _).1).
  destruct (share_ready s v Hr) as (shd & v1 & -> & [Hsep Hob] & Hobj).
  assert (object_at sp shd (vs_stub v1)) as Hat.
  { intros Hpl. apply Hobj. destruct (Hwit Hpl) as [Hw _]. unfold segwit. by destruct (tx_witnesses tx). }
  assert (getLastCodeSeparatorOffset (Z.of_nat n) (vs_stub v1) = 0) as Hoff by (unfold getLastCodeSeparatorOffset; by rewrite Hsep).
  pose proof (run_spend d n i uo sp shd (setSegWitSigHashDataObject shd s) (vs_stub v1) Hsp Hi (fresh_input n stub shd) Hat Hoff)
    as (s' & st' & r & Er & Hev & Ev).
  rewrite Hscr, Hus. rewrite Er. eexists _, _, _. split; [reflexivity|]. split.
  - rewrite <- Ev. by destruct r.
  - destruct Hev as [Hev1 Hev2]. split; [by rewrite <- Hsep|]. cbn [vs_sigHashDataObject vs_stub].
    intros id Hid. destruct (Hob id Hid) as (o & Ho & Hro). by apply (evolves_ready (vs_stub v1) st' id o).
Qed.

(** ** All inputs *)

Definition accepted (n : nat) (i : TxIn) (usp : UTXO * Spend) : bool := bool_decide (verdict tx n i usp.1 usp.2 = Ok true).

Fixpoint all_accepted (n : nat) (ins : list TxIn) (sps : list (UTXO * Spend)) : bool :=
  match ins, sps with
  | i :: ins, usp :: sps => accepted n i usp && all_accepted (S n) ins sps
  | _, _ => true
  end.

Fixpoint all_spend (n : nat) (ins : list TxIn) (sps : list (UTXO * Spend)) : Prop :=
  match ins, sps with
  | [], [] => True
  | i :: ins, usp :: sps => spends tx utxos flags n i usp.1 usp.2 /\ all_spend (S n) ins sps
  | _, _ => False
  end.

Lemma checkSigs_spends ins : forall sps n v, drop n (tx_ins tx) = ins -> all_spend n ins sps ->
  evals_below (Z.of_nat n) v -> ready v ->
  exists v', checkSigs_loop tv garbage (S (S (S d))) (length ins) (Z.of_nat n) v = Ok v' /\
    tx_isValid (txEvalState_ v') = tx_isValid (txEvalState_ v) && all_accepted n ins sps.
Proof using Hok Hl Houts.
  induction ins as [|i ins IH]; intros [|usp sps] n v Hd Hsp Hb Hr; try done.
  { exists v. cbn. by rewrite andb_true_r. }
  destruct Hsp as [Hi Hsps]. cbn [length checkSigs_loop all_accepted].
  assert (tx_ins tx !! n = Some i) as Hn by (rewrite <- (Nat.add_0_r n), <- lookup_drop, Hd; done).
  pose proof (checkSig_state tv garbage (S (S (S d))) (Z.of_nat n) (vs_stub v)) as Hst.
  assert ((getStackInterpreter tv garbage (Z.of_nat n) (vs_stub v)).2 = vs_stub v) as Hsame by done.
  pose proof (fun w => checkSig_spend n i usp.1 usp.2 (vs_stub v) w Hi Hn) as Hsig.
  destruct (getStackInterpreter tv garbage (Z.of_nat n) (vs_stub v)) as [s0 stub0]. cbn [fst snd] in *. subst stub0.
  destruct (Hsig (with_stub v (vs_stub v))) as (s1 & v1 & r & E & Ev & Hr1); [exact Hr|].
  rewrite E. specialize (Hst _ _ _ _ E). apply checkSig_evals in E. cbn [with_stub txEvalState_] in *.
  assert (evals_below (Z.of_nat n) v1) as Hb1 by (by eapply evals_below_eq).
  pose proof (record_state_below (Z.of_nat n) (txInEvalState_ s1) v1 Hb1) as [Hb' Em].
  assert (txin_isValid (txInEvalState_ s1) = accepted n i usp) as Hacc.
  { unfold accepted. rewrite <- Ev. destruct r as [state|e]; cbn [mbind result_bind].
    - rewrite Hst. destruct (txin_isValid state); [by rewrite bool_decide_true|by rewrite bool_decide_false].
    - by rewrite bool_decide_false. }
  destruct (IH sps (S n) (record_state (Z.of_nat n) (txInEvalState_ s1) v1)) as (v' & El & Evv).
  { rewrite (drop_S _ i) in Hd by done. by injection Hd. }
  { done. } { by replace (Z.of_nat (S n)) with (Z.of_nat n + 1) by lia. } { exact Hr1. }
  exists v'. replace (Z.of_nat n + 1) with (Z.of_nat (S n)) by lia. split.
  - destruct r as [state|e]; [done|]. pose proof Hi as [Huok _ _ _ _ _].
    by rewrite (verdict_exception tx n i usp.1 usp.2 e Huok (eq_sym Ev)).
  - rewrite Evv. rewrite andb_assoc. f_equal. unfold tx_isValid at 1. rewrite Em. destruct Hb1 as [_ Hn1].
    rewrite forallb_map_put by (by apply Hn1). rewrite <- E. cbn [snd]. by rewrite Hacc.
Qed.

(** C1: a transaction whose inputs spend standard outputs is verified without
    an exception, whatever the memory of the interpreters held before, and
    accepted exactly if every input is: the hashes of its key, its script and
    its witness program are those in the output it spends; its signature, or
    the first [m] of its signatures in the order of the keys, verify over the
    data of the right kind: the stripped transaction for inputs with scripts,
    the preimage of BIP143 for witness programs.  The exception, a fault of the
    program: a key's signature of less than 65 bytes is not verified, and the
    input is accepted if the hashes match. *)
Theorem verify_standard sps : all_spend 0 (tx_ins tx) sps ->
  exists v', verify tv garbage (S (S (S d))) false VerifierState_new = Ok (all_accepted 0 (tx_ins tx) sps, v').
Proof using Hok Hl Houts.
  intros Hsp. destruct (checkSigs_spends (tx_ins tx) sps 0 (reset_state VerifierState_new) eq_refl Hsp) as (v' & El & Ev);
    [done|done|]. exists v'. unfold verify, checkSigs. change (checkOutputs =? UINT64_MAX) with false. cbv iota.
  cbn [theTx_ tv bctx_of txins_]. rewrite off_sizes_length, length_map.
  change (Z.of_nat 0) with 0 in El. rewrite El. cbn [mbind result_bind]. by rewrite Ev.
Qed.
End run.

(** C28: anyone who knows the key may spend an output that pays to its hash: a
    transaction whose one input brings that key and from one to 64 bytes, whatever
    they are, for a signature is accepted. *)
Theorem short_signature_accepted `{HashFns} `{CryptoECDSA} tx tl utxos flags garbage d i u sig pk :
  tx_ok tx -> zlen (enc_tx tx ++ tl) < two64 -> tx_outs tx ≠ [] -> tx_ins tx = [i] ->
  Forall item_ok [IPush sig; IPush pk] -> zlen sig < 65 -> txin_script i = enc_items [IPush sig; IPush pk] ->
  find_utxo utxos (outpoint_hash i) (outpoint_index i) = Some u -> script_ u = p2pkh_script (getHash160 pk) ->
  exists v', verify (mkVerifier (bctx_of tx tl) utxos flags false) garbage (S (S (S d))) false VerifierState_new = Ok (true, v').
Proof.
  intros Hok Hl Ho Ei Hp Hs Hscr Hu Hus.
  set (sp := mkSpend InScript (ByKey sig pk (getHash160 pk))).
  assert (spends tx utxos flags 0 i u sp) as Hsp.
  { split; try done. split; [apply zlen_ripemd160|exact Hp]. }
  pose proof (checkSigs_spends tx tl utxos flags Hok Hl Ho garbage d (tx_ins tx) [(u, sp)] 0 (reset_state VerifierState_new)
    eq_refl ltac:(rewrite Ei; split; [exact Hsp|exact I]) ltac:(done) ltac:(done)) as (v' & El & Ev).
  exists v'. unfold verify, checkSigs. change (checkOutputs =? UINT64_MAX) with false. cbv iota.
  cbn [theTx_ bctx_of txins_]. rewrite off_sizes_length, length_map. change (Z.of_nat 0) with 0 in El.
  assert (verdict tx 0 i u sp = Ok true) as Hv.
  { unfold verdict. cbn [sp_place sp_unlock sp unlock_verdict]. unfold p2pkh_verdict.
    assert (equal (getHash160 pk) (getHash160 pk) = true) as -> by (rewrite equal_spec; by apply bool_decide_eq_true).
    cbn [negb]. by rewrite (proj2 (Z.ltb_lt _ _)) by lia. }
  rewrite El. cbn [mbind result_bind]. rewrite Ev, Ei. cbn [all_accepted]. unfold accepted.
  cbn [fst snd]. by rewrite Hv, bool_decide_true.
Qed.

(** *** Witness: a key's hash, a key's hash in a nested witness program, and two
    of three keys in a witness program *)

Definition w_pk : list byte := z2b 2 :: replicate 32 (z2b 7).
Definition w_hash160 : list byte := @getHash160 toy_hashes w_pk.
Definition w_outpoint (k : Z) : list byte := replicate 32 (z2b 9) ++ int_to LE 4 k.
Definition w_unsigned : Tx :=
  mkTx (int_to LE 4 1) (map (fun k => mkTxIn (w_outpoint k) [] (replicate 4 (z2b 255))) [0; 1; 2])
    [some_txout] None (int_to LE 4 0).
Definition w_unsigned_in (k : Z) : TxIn := mkTxIn (w_outpoint k) [] (replicate 4 (z2b 255)).

Definition w_unlock0 : Unlock :=
  let data := enc_tx (signing_tx w_unsigned 0 (p2pkh_script w_hash160)) ++ int_to LE 4 1 in
  ByKey (toy_sign w_pk data ++ [z2b 1]) w_pk w_hash160.
Definition w_unlock1 : Unlock :=
  let data := @bip143 toy_hashes w_unsigned (w_unsigned_in 1) (p2pkh_script w_hash160) 5001 1 in
  ByKey (toy_sign w_pk data ++ [z2b 1]) w_pk w_hash160.
Definition w_script2 : list byte := multisig_script 2 w_keys.
Definition w_unlock2 : Unlock :=
  let data := @bip143 toy_hashes w_unsigned (w_unsigned_in 2) w_script2 5002 1 in
  BySigs 2 w_keys (map (fun k => toy_sign k data) [w_key 1; w_key 3])
    (map (fun k => toy_rs k (@sha256 toy_hashes data)) [w_key 1; w_key 3]) (@getSha256 toy_hashes w_script2).

Definition w_spends : list Spend :=
  [mkSpend InScript w_unlock0; mkSpend (Nested (@getHash160 toy_hashes (program_of w_unlock1))) w_unlock1;
   mkSpend InWitness w_unlock2].
Definition w_signed : Tx :=
  mkTx (tx_version w_unsigned)
    (zip_with (fun i sp => mkTxIn (txin_outpoint i) (input_of sp) (txin_sequence i)) (tx_ins w_unsigned) w_spends)
    (tx_outs w_unsigned) (Some [[]; witness_of w_unlock1; witness_of w_unlock2]) (tx_locktime w_unsigned).
Definition w_utxo (k : Z) (sp : Spend) : UTXO := mkUTXO (replicate 32 (z2b 9)) k 0 0 (5000 + k) (output_of sp) false 0 false 0 0.
Definition w_usps : list (UTXO * Spend) := zip_with (fun k sp => (w_utxo k sp, sp)) [0; 1; 2] w_spends.
Definition w_utxos : utxoMap := [(replicate 32 (z2b 9), zip_with (fun k u => (k, u.1)) [0; 1; 2] w_usps)].

Lemma w_signed_ok : tx_ok w_signed.
Proof.
  split.
  - vm_compute. reflexivity.
  - vm_compute. reflexivity.
  - vm_compute. discriminate.
  - repeat (constructor; [split; [|split]; vm_compute; reflexivity|]). constructor.
  - repeat (constructor; [split; vm_compute; reflexivity|]). constructor.
  - vm_compute. reflexivity.
  - vm_compute. reflexivity.
Qed.

Lemma w_all_spend : @all_spend toy_crypto w_signed w_utxos (4 + 16) 0 (tx_ins w_signed) w_usps.
Proof.
  split; [|split; [|split; [|exact I]]].
  - split; try (vm_compute; reflexivity).
    + split; [vm_compute; reflexivity|]. repeat (constructor; [split; vm_compute; reflexivity|]). constructor.
    + intros Hn. exfalso. apply Hn. reflexivity.
  - split; try (vm_compute; reflexivity).
    + split; [vm_compute; reflexivity|]. repeat (constructor; [split; vm_compute; reflexivity|]). constructor.
    + split; [vm_compute; reflexivity|]. split; vm_compute; reflexivity.
    + intros _. split; [vm_compute; reflexivity|]. split; [vm_compute; reflexivity| |vm_compute; reflexivity].
      repeat (constructor; [vm_compute; reflexivity|]). constructor.
  - split; try (vm_compute; reflexivity).
    + split; [vm_compute; reflexivity|]. split.
      * split; vm_compute; discriminate.
      * vm_compute. discriminate.
      * repeat (constructor; [left; vm_compute; reflexivity|]). constructor.
      * apply (bool_decide_unpack _). vm_compute. exact I.
      * repeat (constructor; [vm_compute; reflexivity|]). constructor.
      * repeat (constructor; [vm_compute; reflexivity|]). constructor.
      * repeat (constructor; [vm_compute; reflexivity|]). constructor.
      * vm_compute. reflexivity.
    + intros _. split; [vm_compute; reflexivity|]. split; [vm_compute; reflexivity| |vm_compute; reflexivity].
      repeat (constructor; [vm_compute; reflexivity|]). constructor.
Qed.

Lemma verify_standard_witness : exists v',
  @verify toy_hashes toy_crypto (mkVerifier (bctx_of w_signed []) w_utxos 20 false) (fun k => k + 12) 3 false VerifierState_new
  = Ok (true, v').
Proof.
  destruct (@verify_standard toy_hashes toy_crypto w_signed [] w_utxos 20 w_signed_ok ltac:(vm_compute; reflexivity)
    ltac:(vm_compute; discriminate) (fun k => k + 12) 0 w_usps w_all_spend) as [v' E].
  exists v'. rewrite E. vm_compute. reflexivity.
Defined.

Definition w_short : Tx :=
  mkTx (int_to LE 4 1) [mkTxIn (w_outpoint 0) (enc_items [IPush [z2b 1]; IPush w_pk]) (replicate 4 (z2b 255))]
    [some_txout] None (int_to LE 4 0).

Lemma short_signature_accepted_witness : exists v',
  @verify toy_hashes toy_crypto (mkVerifier (bctx_of w_short []) w_utxos 0 false) (fun _ => 0) 3 false VerifierState_new
  = Ok (true, v').
Proof.
  refine (@short_signature_accepted toy_hashes toy_crypto w_short [] w_utxos 0 (fun _ => 0) 0 _
    (w_utxo 0 (mkSpend InScript w_unlock0)) [z2b 1] w_pk _ _ _ eq_refl _ _ eq_refl _ _).
  - split.
    + vm_compute. reflexivity.
    + vm_compute. reflexivity.
    + vm_compute. discriminate.
    + constructor; [split; [|split]; vm_compute; reflexivity|constructor].
    + constructor; [split; vm_compute; reflexivity|constructor].
    + exact I.
    + vm_compute. reflexivity.
  - vm_compute. reflexivity.
  - vm_compute. discriminate.
  - repeat (constructor; [split; vm_compute; reflexivity|]). constructor.
  - vm_compute. reflexivity.
  - vm_compute. reflexivity.
  - vm_compute. reflexivity.
Defined.
