(* ===== verification/VerifierOutcomes.v ===== *)
(** * VerifierOutcomes: the type of what a verification records

    Whatever the transaction, its outputs and its scripts are, the outcomes
    that [TransactionVerifier::verify] leaves are well formed: one for each
    input, in order, its keys an ordered map and its counts what
    OP_CHECKMULTISIG admits; and they are the same at every depth that is
    enough. *)

From S2P Require Import Prelude BinaryData BinaryIO Hashing StdMap DBUtils BlockHeader TxLength TxFilter BlockData BlockDataProps.
From S2P Require Import ScriptParser SigHash TxEvalState Interpreter InterpreterFrame InterpreterDepth Verifier InterpreterProps.
From S2P Require Import VerifierProps VerifierCorrect.

(** ** Well-formed outcomes *)

Definition outcome_wf (e : TxInEvalState) : Prop := map_ordered (pubKeyState_ e) /\ 0 <= m_ e <= n_ e /\ n_ e <= 20.

Definition keeps_outcome (vm vm' : Vm) : Prop := outcome_wf (txInEvalState_ vm.1) -> outcome_wf (txInEvalState_ vm'.1).

#[export] Instance keeps_outcome_frame : Frame keeps_outcome.
Proof.
  split; [split|]; unfold keeps_outcome, outcome_wf; try done.
  - split; [intros ? ?; done|]. intros a b c Hab Hbc Ha. by apply Hbc, Hab.
  - intros n m s st Hm Hn (Ho & _). by split.
  - intros key b s st (Ho & Hm). split; [by apply map_put_ordered|done].
Qed.

Section outcomes.
Context `{HashFns} `{CryptoECDSA}.
Variables (tv : TransactionVerifier) (garbage : Z -> Z) (depth : nat).
#[local] Instance outcomes_stub : TransactionStub := verifier_stub tv.

Lemma keeps_run_scripts i o : keeps keeps_outcome (run_scripts tv depth i o).
Proof.
  unfold run_scripts. apply (keeps_bind _).
  - case_match.
    + apply keeps_processSW; [apply _|]. intros. apply keeps_processScript, _.
    + apply (keeps_bind _); [apply keeps_processScript, _|]. intros. apply keeps_processScript, _.
  - intros _. unfold checkState. apply (keeps_bind _); [apply (keeps_get _)|]. intros b. apply (keeps_bind _).
    + destruct b; [apply (keeps_ret _)|apply keeps_verify, _].
    + intros _. apply (keeps_modify _ (fun s => set_evalState (set_validStack true (txInEvalState_ s)) s)). intros s st. exact id.
Qed.

Lemma checkSig_wf inputId stub v : outcome_wf (txInEvalState_
  (checkSig tv depth inputId (getStackInterpreter tv garbage inputId stub).1 v).1.1).
Proof.
  set (s := (getStackInterpreter tv garbage inputId stub).1).
  assert (outcome_wf (txInEvalState_ s)) as Hs by (unfold s, getStackInterpreter; by destruct (tv_BCH tv)).
  unfold checkSig. destruct (_ ≫= _) as [[[txHashRef outputId] inputScript]|e]; [|exact Hs].
  destruct (find_utxo _ _ _) as [utxo|]; [|exact Hs].
  destruct (share_sigHash tv s v) as [s2 v2] eqn:E2.
  assert (outcome_wf (txInEvalState_ s2)) as Hs2.
  { unfold share_sigHash in E2. destruct (usesWitness_ _); [|by injection E2 as <- _].
    destruct (vs_sigHashDataObject v); injection E2 as <- _; done. }
  pose proof (keeps_run_scripts inputScript (script_ utxo) (s2, vs_stub v2) Hs2) as Hk.
  by destruct (run_scripts tv depth inputScript (script_ utxo) (s2, vs_stub v2)) as [[s3 stub3] r3].
Qed.

(** The first [n] inputs, and no others, have a well-formed outcome each. *)
Definition recorded (n : nat) (v : VerifierState) : Prop :=
  evals_below (Z.of_nat n) v /\ map_keys (evalMap_ (txEvalState_ v)) = seqZ 0 (Z.of_nat n) /\
  Forall outcome_wf (map_values (evalMap_ (txEvalState_ v))).

Lemma recorded_next n state v : recorded n v -> outcome_wf state -> recorded (S n) (record_state (Z.of_nat n) state v).
Proof.
  intros (Hb & Hk & Hw) Hs. destruct (record_state_below (Z.of_nat n) state v Hb) as [Hb' _].
  split; [by replace (Z.of_nat (S n)) with (Z.of_nat n + 1) by lia|].
  unfold record_state, updateState. cbn [txEvalState_ evalMap_]. rewrite map_insert_last.
  2:{ apply Forall_forall. intros e He. assert (e.1 ∈ map_keys (evalMap_ (txEvalState_ v))) as Hin by by apply list_elem_of_fmap_2.
      rewrite Hk, elem_of_seqZ in Hin. lia. }
  unfold map_keys, map_values in *. cbn [fst]. rewrite !map_app, Hk.
  split; [|apply Forall_app; split; [done|by constructor]].
  replace (Z.of_nat (S n)) with (Z.of_nat n + 1) by lia. rewrite seqZ_app by lia. by rewrite Z.add_0_l.
Qed.

Lemma checkSigs_recorded k : forall n v v', recorded n v -> checkSigs_loop tv garbage depth k (Z.of_nat n) v = Ok v' -> recorded (n + k) v'.
Proof.
  induction k as [|k IH]; intros n v v' Hr E; [injection E as <-; by rewrite Nat.add_0_r|].
  cbn [checkSigs_loop] in E. pose proof (checkSig_wf (Z.of_nat n) (vs_stub v)) as Hwf.
  destruct (getStackInterpreter tv garbage (Z.of_nat n) (vs_stub v)) as [s stub]. specialize (Hwf (with_stub v stub)). cbn [fst] in Hwf.
  destruct (checkSig tv depth (Z.of_nat n) s (with_stub v stub)) as [[s1 v1] r] eqn:Es. cbn [fst] in Hwf. apply checkSig_evals in Es.
  assert (recorded n v1) as Hr1 by (unfold recorded, evals_below in *; by rewrite Es).
  apply recorded_next with (state := txInEvalState_ s1) in Hr1; [|done].
  rewrite <- Nat.add_succ_comm. apply (IH (S n) (record_state (Z.of_nat n) (txInEvalState_ s1) v1)); [done|].
  replace (Z.of_nat (S n)) with (Z.of_nat n + 1) by lia. destruct r as [state|e]; [done|]. by destruct (is_exception e).
Qed.

(** Without the handler the loop does the same, as long as it returns. *)
Lemma checkSigs_NoCatch_catch k : forall i v v',
  checkSigs_NoCatch_loop tv garbage depth k i v = Ok v' -> checkSigs_loop tv garbage depth k i v = Ok v'.
Proof.
  induction k as [|k IH]; intros i v v' E; [done|]. cbn [checkSigs_loop checkSigs_NoCatch_loop] in *.
  pose proof (checkSig_state tv garbage depth i (vs_stub v)) as Hst.
  destruct (getStackInterpreter tv garbage i (vs_stub v)) as [s stub]. cbn [fst] in Hst.
  destruct (checkSig tv depth i s (with_stub v stub)) as [[s1 v1] r] eqn:Es. specialize (Hst _ _ _ _ Es).
  destruct r as [state|e]; [|done]. subst state. by apply IH.
Qed.

(** ** The depth of the recursion *)

(** What a bound on the depth leaves of an outcome: it is that of every greater
    bound, or the bound was reached. *)
Definition settled {A} (r r' : result A) : Prop := r = Err NoFuel \/ r' = r.

Variable depth' : nat.
Hypothesis Hdepth : (depth <= depth')%nat.

Lemma deeper_run_scripts i o : deeper (run_scripts tv depth i o) (run_scripts tv depth' i o).
Proof.
  unfold run_scripts. apply deeper_bind; [|intros; apply deeper_refl].
  pose proof (deeper_processScript depth depth' Hdepth) as Hp.
  case_match; [by apply deeper_processSW|]. apply deeper_bind; [apply Hp|]. intros _. apply Hp.
Qed.

Lemma checkSig_deeper inputId s v : (checkSig tv depth inputId s v).2 = Err NoFuel \/
  checkSig tv depth' inputId s v = checkSig tv depth inputId s v.
Proof.
  unfold checkSig. destruct (_ ≫= _) as [[[txHashRef outputId] inputScript]|e]; [|by right].
  destruct (find_utxo _ _ _) as [utxo|]; [|by right]. destruct (share_sigHash tv s v) as [s2 v2].
  destruct (deeper_run_scripts inputScript (script_ utxo) (s2, vs_stub v2)) as [E|E]; [left|right; by rewrite E].
  destruct (run_scripts tv depth _ _ _) as [[s3 stub3] r3]. cbn in *. by subst r3.
Qed.

Lemma checkSigs_settled k : forall i v,
  settled (checkSigs_loop tv garbage depth k i v) (checkSigs_loop tv garbage depth' k i v).
Proof.
  induction k as [|k IH]; intros i v; [by right|]. cbn [checkSigs_loop].
  destruct (getStackInterpreter tv garbage i (vs_stub v)) as [s stub].
  destruct (checkSig_deeper i s (with_stub v stub)) as [E|E].
  - left. destruct (checkSig tv depth i s (with_stub v stub)) as [[s1 v1] r]. cbn in E. by subst r.
  - rewrite E. destruct (checkSig tv depth i s (with_stub v stub)) as [[s1 v1] [state|e]]; [apply IH|].
    destruct (is_exception e); [apply IH|by right].
Qed.

Lemma checkSigs_NoCatch_settled k : forall i v,
  settled (checkSigs_NoCatch_loop tv garbage depth k i v) (checkSigs_NoCatch_loop tv garbage depth' k i v).
Proof.
  induction k as [|k IH]; intros i v; [by right|]. cbn [checkSigs_NoCatch_loop].
  destruct (getStackInterpreter tv garbage i (vs_stub v)) as [s stub].
  destruct (checkSig_deeper i s (with_stub v stub)) as [E|E].
  - left. destruct (checkSig tv depth i s (with_stub v stub)) as [[s1 v1] r]. cbn in E. by subst r.
  - rewrite E. destruct (checkSig tv depth i s (with_stub v stub)) as [[s1 v1] [state|e]]; [apply IH|by right].
Qed.

Lemma verify_settled noCatch v : settled (verify tv garbage depth noCatch v) (verify tv garbage depth' noCatch v).
Proof.
  unfold verify. change (checkOutputs =? UINT64_MAX) with false. cbv iota. unfold checkSigs, checkSigs_NoCatch.
  destruct noCatch.
  - destruct (checkSigs_NoCatch_settled (length (txins_ (theTx_ tv))) 0 (reset_state v)) as [E|E]; rewrite E; [by left|by right].
  - destruct (checkSigs_settled (length (txins_ (theTx_ tv))) 0 (reset_state v)) as [E|E]; rewrite E; [by left|by right].
Qed.
End outcomes.

Section verified.
Context `{HashFns} `{CryptoECDSA}.
Variables (tv : TransactionVerifier) (garbage : Z -> Z).

(** The handler catches every exception. *)
Lemma checkSigs_catches depth k : forall i v e, checkSigs_loop tv garbage depth k i v = Err e -> is_exception e = false.
Proof.
  induction k as [|k IH]; intros i v e E; [done|]. cbn [checkSigs_loop] in E.
  destruct (getStackInterpreter tv garbage i (vs_stub v)) as [s stub].
  destruct (checkSig tv depth i s (with_stub v stub)) as [[s1 v1] [state|e1]]; [by eapply IH|].
  destruct (is_exception e1) eqn:Ee; [by eapply IH|]. injection E as <-. exact Ee.
Qed.

(** What a verification that returns has recorded. *)
Definition outcomes_ok (accept : bool) (v : VerifierState) : Prop :=
  map_keys (evalMap_ (txEvalState_ v)) = seqZ 0 (zlen (txins_ (theTx_ tv))) /\
  Forall outcome_wf (map_values (evalMap_ (txEvalState_ v))) /\
  accept = forallb txin_isValid (map_values (evalMap_ (txEvalState_ v))).

Lemma verify_recorded depth noCatch v accept v' : verify tv garbage depth noCatch v = Ok (accept, v') -> outcomes_ok accept v'.
Proof.
  unfold verify. change (checkOutputs =? UINT64_MAX) with false. cbv iota. intros E.
  assert (exists w, checkSigs tv garbage depth v = Ok w /\ Ok (tx_isValid (txEvalState_ w), w) = Ok (accept, v')) as (w & Ew & E').
  { destruct noCatch; [unfold checkSigs_NoCatch in E|].
    - destruct (checkSigs_NoCatch_loop _ _ _ _ _ _) as [w|e] eqn:El in E; [|done]. exists w. by apply checkSigs_NoCatch_catch in El.
    - destruct (checkSigs _ _ _ _) as [w|e] in *; [|done]. by exists w. }
  injection E' as <- <-. unfold checkSigs in Ew.
  apply (checkSigs_recorded tv garbage depth _ 0 (reset_state v)) in Ew as (_ & Hk & Hw); [|done].
  split; [exact Hk|]. split; [done|]. unfold tx_isValid, map_values. clear.
  induction (evalMap_ (txEvalState_ w)) as [|[k e] m IH]; cbn; [done|by rewrite IH].
Qed.

(** C24: whatever a transaction, its outputs and its scripts are, a verification
    at any bound on the nesting of scripts either runs out of fuel, or has the
    result it has at every greater bound.  If it returns it has recorded an
    outcome for every input and nothing else, in the order of the inputs, and
    each is well formed: its keys are an ordered map, and the number of
    signatures it asks for is between zero and the number of keys, which is at
    most 20; the transaction is accepted exactly if every outcome is valid.  If
    it does not return, then with the handler no exception leaves it: what a
    script did is undefined in C++, or the fuel was not enough. *)
Theorem verify_outcomes depth noCatch v :
  (verify tv garbage depth noCatch v = Err NoFuel \/
   forall depth', (depth <= depth')%nat -> verify tv garbage depth' noCatch v = verify tv garbage depth noCatch v) /\
  match verify tv garbage depth noCatch v with
  | Ok (accept, v') => outcomes_ok accept v'
  | Err e => noCatch = false -> e = UB \/ e = NoFuel
  end.
Proof.
  split.
  - pose proof (fun d Hle => verify_settled tv garbage depth d Hle noCatch v) as Hs. unfold settled in Hs.
    destruct (verify tv garbage depth noCatch v) as [x|e].
    + right. intros d Hle. by destruct (Hs d Hle).
    + destruct (decide (e = NoFuel)) as [->|Hne]; [by left|right]. intros d Hle. by destruct (Hs d Hle) as [[=]|].
  - destruct (verify tv garbage depth noCatch v) as [[accept v']|e] eqn:E; [by eapply verify_recorded|]. intros ->.
    unfold verify in E. change (checkOutputs =? UINT64_MAX) with false in E. cbv iota in E. unfold checkSigs in E.
    destruct (checkSigs_loop _ _ _ _ _ _) as [w|e'] eqn:El; [done|]. injection E as ->.
    apply checkSigs_catches in El. unfold is_exception in El. destruct e; by auto.
Qed.
End verified.

(** *** Witness: the transaction of [verify_standard_witness] *)

Lemma verify_outcomes_witness : exists accept v',
  @verify toy_hashes toy_crypto (mkVerifier (bctx_of w_signed []) w_utxos 20 false) (fun k => k + 12) 3 true VerifierState_new
  = Ok (accept, v') /\ map_keys (evalMap_ (txEvalState_ v')) = [0; 1; 2].
Proof.
  destruct (@verify toy_hashes toy_crypto (mkVerifier (bctx_of w_signed []) w_utxos 20 false) (fun k => k + 12) 3 true
    VerifierState_new) as [[accept v']|e] eqn:E.
  - exists accept, v'. split; [reflexivity|].
    pose proof (@verify_outcomes toy_hashes toy_crypto (mkVerifier (bctx_of w_signed []) w_utxos 20 false) (fun k => k + 12) 3 true
      VerifierState_new) as [_ Hv]. rewrite E in Hv. exact (proj1 Hv).
  - exfalso. revert E. vm_compute. discriminate.
Defined.
