(* ===== verification/Spender.v ===== *)
(** * Spender: the inputs of a transaction that is being signed

    The class [ScriptSpender] (with [ScriptSpender_BCH]) of cppForSwig/Signer.h
    and Signer.cpp, and the binary form of [UTXO] (TxClasses.cpp).  A spender
    has what the resolver found for its input so far, in the legacy script and
    in the witness, and exchanges it with other signers as bytes.

    The items of its stacks are behind [shared_ptr]s.  Only [updateStack]
    changes one, an item that the spender holds; the items of the other
    spender of a [merge] are taken as they are at that time. *)

From S2P Require Import Prelude BinaryData BinaryIO StdMap BlockHeader TxLength ScriptParser StackItem SigHash Interpreter Resolver Verifier ScriptUtils.

(** ** UTXO *)

Definition UTXO_new : UTXO := mkUTXO [] UINT32_MAX UINT32_MAX UINT32_MAX 0 [] false UINT32_MAX false UINT32_MAX UINT32_MAX.

Definition utxo_isInitialized (u : UTXO) : bool := 0 <? zlen (script_ u).

Definition utxo_serialize (u : UTXO) : list byte :=
  let w := bw_put_uint64_t (value_ u) LE bw_new in
  let w := bw_put_uint32_t (txHeight_ u) LE w in
  let w := bw_put_uint16_t (wrap 16 (txIndex_ u)) LE w in
  let w := bw_put_uint16_t (wrap 16 (txOutIndex_ u)) LE w in
  let w := put_data (script_ u) (put_data (utxo_txHash u) w) in
  theString_ (bw_put_uint32_t (preferredSequence_ u) LE w).

Definition utxo_read : Reader UTXO :=
  value ← brr_get_uint64_t LE;
  txHeight ← brr_get_uint32_t LE;
  txIndex ← brr_get_uint16_t LE;
  txOutIndex ← brr_get_uint16_t LE;
  txHash ← get_data;
  scriptSize ← brr_get_var_int;
  if scriptSize =? 0 then rthrow RuntimeError
  else
    script ← brr_get_BinaryData (wrap 32 scriptSize);
    preferredSequence ← brr_get_uint32_t LE;
    mret (mkUTXO txHash txOutIndex txHeight txIndex value script false preferredSequence false UINT32_MAX UINT32_MAX).

(** [unserialize] on a new object; what it had read when it throws is lost
    with the object. *)
Definition utxo_unserialize (data : list byte) : result UTXO :=
  if zlen data <? 18 then Err RuntimeError else '(utxo, _) ← utxo_read (brr_setNewData data); Ok utxo.

Definition utxo_unserializeRaw (data : list byte) : result UTXO :=
  '(value, brr) ← brr_get_uint64_t LE (brr_setNewData data);
  '(script, _) ← get_data brr;
  Ok (mkUTXO [] UINT32_MAX UINT32_MAX UINT32_MAX value script false UINT32_MAX false UINT32_MAX UINT32_MAX).

(** [operator==] *)
Definition utxo_same (u u' : UTXO) : bool := equal (utxo_txHash u) (utxo_txHash u') && (txOutIndex_ u =? txOutIndex_ u').

(** ** State *)

(** Of [SpenderStatus]; a state that was read may have the value 3 as well. *)
Definition SpenderStatus_Unkonwn : Z := 0.
Definition SpenderStatus_Partial : Z := 1.
Definition SpenderStatus_Resolved : Z := 2.

Definition SERIALIZED_SCRIPT_PREFIX : Z := 0x01.
Definition WITNESS_SCRIPT_PREFIX : Z := 0x02.
Definition LEGACY_STACK_PARTIAL : Z := 0x03.
Definition WITNESS_STACK_PARTIAL : Z := 0x04.
Definition PREFIX_UTXO : Z := 0x05.
Definition PREFIX_OUTPOINT : Z := 0x06.

(** [sp_value] is [value_]; [sp_BCH] tells the class of the object. *)
Record ScriptSpender := mkSpender {
  legacyStatus_ : Z;
  segwitStatus_ : Z;
  sp_isP2SH : bool;
  isCSV_ : bool;
  isCLTV_ : bool;
  utxo_ : UTXO;
  sp_value : Z;
  sp_sequence : Z;
  outpoint_ : list byte;
  resolverFeed_ : option ResolverFeed;
  sigVec_ : list (list byte);
  serializedScript_ : list byte;
  serializedInput_ : list byte;
  witnessData_ : list byte;
  partialStack_ : stdmap Z StackItem;
  partialWitnessStack_ : stdmap Z StackItem;
  sigHashType_ : Z;
  sp_BCH : bool;
}.

Definition set_legacyStatus v (s : ScriptSpender) : ScriptSpender := mkSpender v (segwitStatus_ s) (sp_isP2SH s)
  (isCSV_ s) (isCLTV_ s) (utxo_ s) (sp_value s) (sp_sequence s) (outpoint_ s) (resolverFeed_ s) (sigVec_ s)
  (serializedScript_ s) (serializedInput_ s) (witnessData_ s) (partialStack_ s) (partialWitnessStack_ s) (sigHashType_
  s) (sp_BCH s).
Definition set_segwitStatus v (s : ScriptSpender) : ScriptSpender := mkSpender (legacyStatus_ s) v (sp_isP2SH s)
  (isCSV_ s) (isCLTV_ s) (utxo_ s) (sp_value s) (sp_sequence s) (outpoint_ s) (resolverFeed_ s) (sigVec_ s)
  (serializedScript_ s) (serializedInput_ s) (witnessData_ s) (partialStack_ s) (partialWitnessStack_ s) (sigHashType_
  s) (sp_BCH s).
Definition sp_flagP2SH v (s : ScriptSpender) : ScriptSpender := mkSpender (legacyStatus_ s) (segwitStatus_ s) v
  (isCSV_ s) (isCLTV_ s) (utxo_ s) (sp_value s) (sp_sequence s) (outpoint_ s) (resolverFeed_ s) (sigVec_ s)
  (serializedScript_ s) (serializedInput_ s) (witnessData_ s) (partialStack_ s) (partialWitnessStack_ s) (sigHashType_
  s) (sp_BCH s).
Definition set_isCSV v (s : ScriptSpender) : ScriptSpender := mkSpender (legacyStatus_ s) (segwitStatus_ s) (sp_isP2SH
  s) v (isCLTV_ s) (utxo_ s) (sp_value s) (sp_sequence s) (outpoint_ s) (resolverFeed_ s) (sigVec_ s)
  (serializedScript_ s) (serializedInput_ s) (witnessData_ s) (partialStack_ s) (partialWitnessStack_ s) (sigHashType_
  s) (sp_BCH s).
Definition set_isCLTV v (s : ScriptSpender) : ScriptSpender := mkSpender (legacyStatus_ s) (segwitStatus_ s)
  (sp_isP2SH s) (isCSV_ s) v (utxo_ s) (sp_value s) (sp_sequence s) (outpoint_ s) (resolverFeed_ s) (sigVec_ s)
  (serializedScript_ s) (serializedInput_ s) (witnessData_ s) (partialStack_ s) (partialWitnessStack_ s) (sigHashType_
  s) (sp_BCH s).
Definition setUtxo v (s : ScriptSpender) : ScriptSpender := mkSpender (legacyStatus_ s) (segwitStatus_ s) (sp_isP2SH
  s) (isCSV_ s) (isCLTV_ s) v (sp_value s) (sp_sequence s) (outpoint_ s) (resolverFeed_ s) (sigVec_ s)
  (serializedScript_ s) (serializedInput_ s) (witnessData_ s) (partialStack_ s) (partialWitnessStack_ s) (sigHashType_
  s) (sp_BCH s).
Definition setSequence v (s : ScriptSpender) : ScriptSpender := mkSpender (legacyStatus_ s) (segwitStatus_ s)
  (sp_isP2SH s) (isCSV_ s) (isCLTV_ s) (utxo_ s) (sp_value s) v (outpoint_ s) (resolverFeed_ s) (sigVec_ s)
  (serializedScript_ s) (serializedInput_ s) (witnessData_ s) (partialStack_ s) (partialWitnessStack_ s) (sigHashType_
  s) (sp_BCH s).
Definition set_outpoint v (s : ScriptSpender) : ScriptSpender := mkSpender (legacyStatus_ s) (segwitStatus_ s)
  (sp_isP2SH s) (isCSV_ s) (isCLTV_ s) (utxo_ s) (sp_value s) (sp_sequence s) v (resolverFeed_ s) (sigVec_ s)
  (serializedScript_ s) (serializedInput_ s) (witnessData_ s) (partialStack_ s) (partialWitnessStack_ s) (sigHashType_
  s) (sp_BCH s).
Definition sp_setFeed v (s : ScriptSpender) : ScriptSpender := mkSpender (legacyStatus_ s) (segwitStatus_ s)
  (sp_isP2SH s) (isCSV_ s) (isCLTV_ s) (utxo_ s) (sp_value s) (sp_sequence s) (outpoint_ s) v (sigVec_ s)
  (serializedScript_ s) (serializedInput_ s) (witnessData_ s) (partialStack_ s) (partialWitnessStack_ s) (sigHashType_
  s) (sp_BCH s).
Definition set_sigVec v (s : ScriptSpender) : ScriptSpender := mkSpender (legacyStatus_ s) (segwitStatus_ s)
  (sp_isP2SH s) (isCSV_ s) (isCLTV_ s) (utxo_ s) (sp_value s) (sp_sequence s) (outpoint_ s) (resolverFeed_ s) v
  (serializedScript_ s) (serializedInput_ s) (witnessData_ s) (partialStack_ s) (partialWitnessStack_ s) (sigHashType_
  s) (sp_BCH s).
Definition set_serializedScript v (s : ScriptSpender) : ScriptSpender := mkSpender (legacyStatus_ s) (segwitStatus_ s)
  (sp_isP2SH s) (isCSV_ s) (isCLTV_ s) (utxo_ s) (sp_value s) (sp_sequence s) (outpoint_ s) (resolverFeed_ s) (sigVec_
  s) v (serializedInput_ s) (witnessData_ s) (partialStack_ s) (partialWitnessStack_ s) (sigHashType_ s) (sp_BCH s).
Definition set_serializedInput v (s : ScriptSpender) : ScriptSpender := mkSpender (legacyStatus_ s) (segwitStatus_ s)
  (sp_isP2SH s) (isCSV_ s) (isCLTV_ s) (utxo_ s) (sp_value s) (sp_sequence s) (outpoint_ s) (resolverFeed_ s) (sigVec_
  s) (serializedScript_ s) v (witnessData_ s) (partialStack_ s) (partialWitnessStack_ s) (sigHashType_ s) (sp_BCH s).
Definition set_witnessData v (s : ScriptSpender) : ScriptSpender := mkSpender (legacyStatus_ s) (segwitStatus_ s)
  (sp_isP2SH s) (isCSV_ s) (isCLTV_ s) (utxo_ s) (sp_value s) (sp_sequence s) (outpoint_ s) (resolverFeed_ s) (sigVec_
  s) (serializedScript_ s) (serializedInput_ s) v (partialStack_ s) (partialWitnessStack_ s) (sigHashType_ s) (sp_BCH
  s).
Definition set_partialStack v (s : ScriptSpender) : ScriptSpender := mkSpender (legacyStatus_ s) (segwitStatus_ s)
  (sp_isP2SH s) (isCSV_ s) (isCLTV_ s) (utxo_ s) (sp_value s) (sp_sequence s) (outpoint_ s) (resolverFeed_ s) (sigVec_
  s) (serializedScript_ s) (serializedInput_ s) (witnessData_ s) v (partialWitnessStack_ s) (sigHashType_ s) (sp_BCH
  s).
Definition set_partialWitnessStack v (s : ScriptSpender) : ScriptSpender := mkSpender (legacyStatus_ s) (segwitStatus_
  s) (sp_isP2SH s) (isCSV_ s) (isCLTV_ s) (utxo_ s) (sp_value s) (sp_sequence s) (outpoint_ s) (resolverFeed_ s)
  (sigVec_ s) (serializedScript_ s) (serializedInput_ s) (witnessData_ s) (partialStack_ s) v (sigHashType_ s) (sp_BCH
  s).
Definition setSigHashType v (s : ScriptSpender) : ScriptSpender := mkSpender (legacyStatus_ s) (segwitStatus_ s)
  (sp_isP2SH s) (isCSV_ s) (isCLTV_ s) (utxo_ s) (sp_value s) (sp_sequence s) (outpoint_ s) (resolverFeed_ s) (sigVec_
  s) (serializedScript_ s) (serializedInput_ s) (witnessData_ s) (partialStack_ s) (partialWitnessStack_ s) v (sp_BCH
  s).

(** The constructors. *)
Definition ScriptSpender_new (txHash : list byte) (index value : Z) : ScriptSpender :=
  mkSpender SpenderStatus_Unkonwn SpenderStatus_Unkonwn false false false UTXO_new value UINT32_MAX
    (theString_ (bw_put_uint32_t index LE (bw_put_BinaryData txHash bw_new))) None [] [] [] [] [] [] SIGHASH_ALL false.
Definition ScriptSpender_utxo (utxo : UTXO) (feed : option ResolverFeed) : ScriptSpender :=
  mkSpender SpenderStatus_Unkonwn SpenderStatus_Unkonwn false false false utxo (value_ utxo) UINT32_MAX
    [] feed [] [] [] [] [] [] SIGHASH_ALL false.
Definition ScriptSpender_BCH_copy (s : ScriptSpender) : ScriptSpender :=
  mkSpender (legacyStatus_ s) (segwitStatus_ s) (sp_isP2SH s) (isCSV_ s) (isCLTV_ s) (utxo_ s) (sp_value s) (sp_sequence s)
    (outpoint_ s) (resolverFeed_ s) (sigVec_ s) (serializedScript_ s) (serializedInput_ s) (witnessData_ s)
    (partialStack_ s) (partialWitnessStack_ s) (sigHashType_ s) true.

Definition sp_isSegWit (s : ScriptSpender) : bool := negb (segwitStatus_ s =? SpenderStatus_Unkonwn).
Definition sp_hasUTXO (s : ScriptSpender) : bool := utxo_isInitialized (utxo_ s).

Definition sp_getFlags (s : ScriptSpender) : Z :=
  let flags := 0 in
  let flags := if sp_isP2SH s then Z.lor flags SCRIPT_VERIFY_P2SH else flags in
  let flags := if sp_isSegWit s then Z.lor flags (Z.lor SCRIPT_VERIFY_SEGWIT SCRIPT_VERIFY_P2SH_SHA256) else flags in
  let flags := if isCSV_ s then Z.lor flags SCRIPT_VERIFY_CHECKSEQUENCEVERIFY else flags in
  if isCLTV_ s then Z.lor flags SCRIPT_VERIFY_CHECKLOCKTIMEVERIFY else flags.

Definition getSigHashByte (s : ScriptSpender) : result Z :=
  if sigHashType_ s =? SIGHASH_ALL then Ok (if sp_BCH s then Z.lor 0x40 1 else 1) else Err ScriptError.

(** ** The outpoint *)

Definition getOutputScript (s : ScriptSpender) : result (list byte) :=
  if negb (utxo_isInitialized (utxo_ s)) then Err RuntimeError else Ok (script_ (utxo_ s)).

Definition getOutputHash (s : ScriptSpender) : result (list byte) :=
  if utxo_isInitialized (utxo_ s) then Ok (utxo_txHash (utxo_ s))
  else if negb (zlen (outpoint_ s) =? 36) then Err RuntimeError
  else '(hash, _) ← brr_get_BinaryData 32 (brr_setNewData (outpoint_ s)); Ok hash.

Definition getOutputIndex (s : ScriptSpender) : result Z :=
  if utxo_isInitialized (utxo_ s) then Ok (txOutIndex_ (utxo_ s))
  else if negb (zlen (outpoint_ s) =? 36) then Err RuntimeError
  else
    '(index, _) ← brr_get_uint32_t LE (brr_advance 32 (brr_setNewData (outpoint_ s)));
    Ok index.

(** [outpoint_] is a mutable member that keeps the result. *)
Definition sp_getOutpoint (s : ScriptSpender) : result (list byte * ScriptSpender) :=
  if zlen (outpoint_ s) =? 0 then
    hash ← getOutputHash s;
    index ← getOutputIndex s;
    let outpoint := theString_ (bw_put_uint32_t index LE (bw_put_BinaryData hash bw_new)) in
    Ok (outpoint, set_outpoint outpoint s)
  else Ok (outpoint_ s, s).

Definition getSingleSig (s : ScriptSpender) : result (list byte) :=
  match sigVec_ s with
  | [] => Err ScriptError
  | [sig] => Ok sig
  | _ => Err ScriptError
  end.

(** ** Serialising the stacks *)

Definition put_push (data : list byte) (w : BinaryWriter) : result BinaryWriter :=
  header ← getPushDataHeader data; Ok (bw_put_BinaryData data (bw_put_BinaryData header w)).

(** [for (auto& sigpair : sigs_)] *)
Fixpoint put_sig_pushes (sigs : stdmap Z (list byte)) (w : BinaryWriter) : result BinaryWriter :=
  match sigs with
  | [] => Ok w
  | (_, sig) :: sigs => w ← put_push sig w; put_sig_pushes sigs w
  end.

(** The tag of an item is that of its class, so that the casts succeed. *)
Fixpoint serializeScript_loop (stack : list StackItem) (no_throw : bool) (w : BinaryWriter) : result BinaryWriter :=
  match stack with
  | [] => Ok w
  | item :: stack =>
      w ← match item with
          | StackItem_PushData _ data | StackItem_Sig _ data => put_push data w
          | StackItem_SerializedScript _ data => Ok (bw_put_BinaryData data w)
          | StackItem_MultiSig _ m sigs =>
              if (zlen sigs <? m) && negb no_throw then Err ScriptError else put_sig_pushes sigs w
          | StackItem_OpCode _ opcode => Ok (bw_put_uint8_t opcode w)
          end;
      serializeScript_loop stack no_throw w
  end.

Definition serializeScript (stack : list StackItem) (no_throw : bool) : result (list byte) :=
  w ← serializeScript_loop stack no_throw bw_new; Ok (theString_ w).

(** The signatures of several keys have the headers of a script here as well. *)
Fixpoint serializeWitnessData_loop (stack : list StackItem) (itemCount : Z) (no_throw : bool) (w : BinaryWriter)
    : result (BinaryWriter * Z) :=
  match stack with
  | [] => Ok (w, itemCount)
  | item :: stack =>
      '(w, itemCount) ←
        match item with
        | StackItem_PushData _ data | StackItem_Sig _ data => Ok (put_data data w, wrap 32 (itemCount + 1))
        | StackItem_SerializedScript _ data => Ok (bw_put_BinaryData data w, wrap 32 (itemCount + 1))
        | StackItem_MultiSig _ m sigs =>
            if (zlen sigs <? m) && negb no_throw then Err ScriptError
            else w ← put_sig_pushes sigs w; Ok (w, wrap 32 (itemCount + zlen sigs))
        | StackItem_OpCode _ opcode => Ok (bw_put_uint8_t opcode w, wrap 32 (itemCount + 1))
        end;
      serializeWitnessData_loop stack itemCount no_throw w
  end.

Definition serializeWitnessData (stack : list StackItem) (no_throw : bool) : result (list byte * Z) :=
  '(w, itemCount) ← serializeWitnessData_loop stack 0 no_throw bw_new; Ok (theString_ w, itemCount).

(** The number of items before the items. *)
Definition witness_data (data : list byte) (itemCount : Z) : list byte :=
  theString_ (bw_put_BinaryData data (bw_put_var_int itemCount bw_new).1).

Definition sp_resolved (s : ScriptSpender) : bool :=
  if negb (legacyStatus_ s =? SpenderStatus_Resolved) then false
  else if segwitStatus_ s =? SpenderStatus_Partial then false
  else true.

Definition getSerializedOutpoint (s : ScriptSpender) : result (list byte) :=
  if utxo_isInitialized (utxo_ s) then
    Ok (theString_ (bw_put_uint32_t (txOutIndex_ (utxo_ s)) LE (bw_put_BinaryData (utxo_txHash (utxo_ s)) bw_new)))
  else if negb (zlen (outpoint_ s) =? 36) then Err ScriptError
  else Ok (outpoint_ s).

(** An input of a transaction with this script. *)
Definition input_bytes (script : list byte) (s : ScriptSpender) : result (list byte) :=
  outpoint ← getSerializedOutpoint s;
  Ok (theString_ (bw_put_uint32_t (sp_sequence s) LE (put_data script (bw_put_BinaryData outpoint bw_new)))).

Definition getSerializedInput (s : ScriptSpender) : result (list byte * ScriptSpender) :=
  if negb (legacyStatus_ s =? SpenderStatus_Resolved) then Err ScriptError
  else input ← input_bytes (serializedScript_ s) s; Ok (input, set_serializedInput input s).

Definition serializeAvailableStack (s : ScriptSpender) : result (list byte * ScriptSpender) :=
  match getSerializedInput s with
  | Ok r => Ok r
  | Err e =>
      if is_exception e then
        script ← serializeScript (map snd (partialStack_ s)) true;
        input ← input_bytes script s;
        Ok (input, s)
      else Err e
  end.

Definition sp_getWitnessData (s : ScriptSpender) : result (list byte) :=
  if segwitStatus_ s =? SpenderStatus_Partial then Err RuntimeError else Ok (witnessData_ s).

Definition serializeAvailableWitnessData (s : ScriptSpender) : result (list byte) :=
  match sp_getWitnessData s with
  | Ok data => Ok data
  | Err e =>
      if is_exception e then
        '(data, itemCount) ← serializeWitnessData (map snd (partialWitnessStack_ s)) true;
        Ok (witness_data data itemCount)
      else Err e
  end.

(** ** Setting and updating the stacks *)

Definition sigs_of (stack : list StackItem) : list (list byte) :=
  omap (fun item => match item with StackItem_Sig _ data => Some data | _ => None end) stack.

Definition setStack (stack : list StackItem) (s : ScriptSpender) : result ScriptSpender :=
  script ← serializeScript stack false;
  let s := set_serializedScript script s in
  let s := set_sigVec (sigVec_ s ++ sigs_of stack) s in
  Ok (set_legacyStatus SpenderStatus_Resolved s).

Definition setWitnessData (stack : list StackItem) (s : ScriptSpender) : result ScriptSpender :=
  '(data, itemCount) ← serializeWitnessData stack false;
  Ok (set_segwitStatus SpenderStatus_Resolved (set_witnessData (witness_data data itemCount) s)).

(** The map as it is when the loop ends or throws. *)
Fixpoint updateStack (stackMap : stdmap Z StackItem) (stackVec : list StackItem) : stdmap Z StackItem * result () :=
  match stackVec with
  | [] => (stackMap, Ok tt)
  | stack_item :: stackVec =>
      match map_find (getId stack_item) stackMap with
      | None => updateStack (map_insert (getId stack_item) stack_item stackMap).1 stackVec
      | Some item =>
          if isSame item stack_item then updateStack stackMap stackVec
          else
            match item with
            | StackItem_MultiSig _ _ _ =>
                match si_merge item stack_item with
                | Ok item => updateStack (map_put (getId stack_item) item stackMap) stackVec
                | Err e => (stackMap, Err e)
                end
            | _ => (stackMap, Err ScriptError)
            end
      end
  end.

Definition updatePartialStack (stack : list StackItem) (s : ScriptSpender) : ScriptSpender * result () :=
  if legacyStatus_ s =? SpenderStatus_Resolved then (s, Ok tt)
  else
    let '(partial, r) := updateStack (partialStack_ s) stack in
    let s := set_partialStack partial s in
    match r with
    | Ok _ => (set_legacyStatus SpenderStatus_Partial s, Ok tt)
    | Err e => (s, Err e)
    end.

Definition updatePartialWitnessStack (stack : list StackItem) (s : ScriptSpender) : ScriptSpender * result () :=
  if segwitStatus_ s =? SpenderStatus_Resolved then (s, Ok tt)
  else
    let '(partial, r) := updateStack (partialWitnessStack_ s) stack in
    let s := set_partialWitnessStack partial s in
    match r with
    | Ok _ => (set_segwitStatus SpenderStatus_Partial s, Ok tt)
    | Err e => (s, Err e)
    end.

Definition all_valid (stack : stdmap Z StackItem) : bool := forallb (fun item_pair => si_isValid item_pair.2) stack.

Definition evaluateLegacy (s : ScriptSpender) : result ScriptSpender :=
  if (0 <? zlen (partialStack_ s)) && all_valid (partialStack_ s) then
    s ← setStack (map snd (partialStack_ s)) s; Ok (set_partialStack [] s)
  else Ok s.

Definition evaluateWitness (s : ScriptSpender) : result ScriptSpender :=
  if (0 <? zlen (partialWitnessStack_ s)) && all_valid (partialWitnessStack_ s) then
    s ← setWitnessData (map snd (partialWitnessStack_ s)) s; Ok (set_partialWitnessStack [] s)
  else Ok s.

(** Serialising comes before any change, so that an exception leaves the part
    it comes from unchanged. *)
Definition evaluatePartialStacks (s : ScriptSpender) : ScriptSpender * result () :=
  match evaluateLegacy s with
  | Err e => (s, Err e)
  | Ok s =>
      match evaluateWitness s with
      | Err e => (s, Err e)
      | Ok s => (s, Ok tt)
      end
  end.

(** ** Merging *)

(** [partialStack_.insert]: of the items with one id, the first stays. *)
Definition mergeLegacy (obj s : ScriptSpender) : ScriptSpender * result () :=
  if legacyStatus_ s =? SpenderStatus_Resolved then (s, Ok tt)
  else if legacyStatus_ obj =? SpenderStatus_Resolved then
    (set_legacyStatus SpenderStatus_Resolved (set_serializedScript (serializedScript_ obj) s), Ok tt)
  else if legacyStatus_ obj =? SpenderStatus_Partial then
    evaluatePartialStacks (set_partialStack (map_insert_all (partialStack_ s) (partialStack_ obj)) s)
  else (s, Ok tt).

Definition mergeWitness (obj s : ScriptSpender) : ScriptSpender * result () :=
  if segwitStatus_ s =? SpenderStatus_Resolved then (s, Ok tt)
  else if segwitStatus_ obj =? SpenderStatus_Resolved then
    (set_segwitStatus SpenderStatus_Resolved (set_witnessData (witnessData_ obj) s), Ok tt)
  else if segwitStatus_ obj =? SpenderStatus_Partial then
    evaluatePartialStacks (set_partialWitnessStack (map_insert_all (partialWitnessStack_ s) (partialWitnessStack_ obj)) s)
  else (s, Ok tt).

Definition sp_merge (obj s : ScriptSpender) : ScriptSpender * result () :=
  if sp_resolved s then (s, Ok tt)
  else
    let s := if negb (utxo_isInitialized (utxo_ s)) && utxo_isInitialized (utxo_ obj) then setUtxo (utxo_ obj) s else s in
    match mergeLegacy obj s with
    | (s, Ok _) => mergeWitness obj s
    | r => r
    end.

(** [operator==]: the outpoints, which both sides compute. *)
Definition sp_same (s rhs : ScriptSpender) : result (bool * ScriptSpender * ScriptSpender) :=
  '(o, s) ← sp_getOutpoint s;
  '(o', rhs) ← sp_getOutpoint rhs;
  Ok (equal o o', s, rhs).

(** ** The state as bytes *)

Fixpoint put_stack (stack : stdmap Z StackItem) (w : BinaryWriter) : BinaryWriter :=
  match stack with
  | [] => w
  | (_, item) :: stack => put_stack stack (put_data (si_serialize item) w)
  end.

Definition put_partial (prefix : Z) (stack : stdmap Z StackItem) (w : BinaryWriter) : BinaryWriter :=
  put_stack stack (bw_put_var_int (zlen stack) (bw_put_uint8_t prefix w)).1.

Definition status_bits (s : ScriptSpender) : BitPacker :=
  let bp := bp_putBits 8 (legacyStatus_ s) 2 bp_new in
  let bp := bp_putBits 8 (segwitStatus_ s) 2 bp in
  let bp := bp_putBit 8 (sp_isP2SH s) bp in
  let bp := bp_putBit 8 (isCSV_ s) bp in
  bp_putBit 8 (isCLTV_ s) bp.

Definition sp_serializeState (s : ScriptSpender) : result (list byte) :=
  let w := bw_put_BitPacker 8 (status_bits s) bw_new in
  let w := bw_put_uint8_t (wrap 8 (sigHashType_ s)) w in
  let w := bw_put_uint32_t (sp_sequence s) LE w in
  w ← (if sp_hasUTXO s then Ok (put_data (utxo_serialize (utxo_ s)) (bw_put_uint8_t PREFIX_UTXO w))
       else
         '(outpoint, _) ← sp_getOutpoint s;
         Ok (bw_put_uint64_t (sp_value s) LE (put_data outpoint (bw_put_uint8_t PREFIX_OUTPOINT w))));
  let w :=
    if legacyStatus_ s =? SpenderStatus_Resolved then
      put_data (serializedScript_ s) (bw_put_uint8_t SERIALIZED_SCRIPT_PREFIX w)
    else if legacyStatus_ s =? SpenderStatus_Partial then put_partial LEGACY_STACK_PARTIAL (partialStack_ s) w
    else w in
  let w :=
    if segwitStatus_ s =? SpenderStatus_Resolved then
      put_data (witnessData_ s) (bw_put_uint8_t WITNESS_SCRIPT_PREFIX w)
    else if segwitStatus_ s =? SpenderStatus_Partial then put_partial WITNESS_STACK_PARTIAL (partialWitnessStack_ s) w
    else w in
  Ok (theString_ w).

(** [for (i = 0; i < count; i++)]: a round reads at least a byte or throws. *)
Fixpoint read_stack (fuel : nat) (count : Z) (stack : stdmap Z StackItem) : Reader (stdmap Z StackItem) :=
  match fuel with
  | O => rthrow NoFuel
  | S fuel =>
      if 0 <? count then
        data ← get_data;
        item ← reader_of (si_deserialize data);
        read_stack fuel (count - 1) (map_insert (getId item) item stack).1
      else mret stack
  end.

Definition get_items (count : Z) (stack : stdmap Z StackItem) : Reader (stdmap Z StackItem) :=
  fun brr => read_stack (parse_fuel brr) count stack brr.

Definition get_stack (stack : stdmap Z StackItem) : Reader (stdmap Z StackItem) :=
  count ← brr_get_var_int; get_items count stack.

(** The input that is spent. *)
Definition read_spent : Reader ScriptSpender :=
  prefix ← brr_get_uint8_t;
  if prefix =? PREFIX_UTXO then
    data ← get_data; utxo ← reader_of (utxo_unserialize data); mret (ScriptSpender_utxo utxo None)
  else if prefix =? PREFIX_OUTPOINT then
    outpoint ← get_data;
    '(hash, index) ← reader_of
      ('(hash, brr) ← brr_get_BinaryData 32 (brr_setNewData outpoint);
       '(index, _) ← brr_get_uint32_t LE brr;
       Ok (hash, index));
    value ← brr_get_uint64_t LE;
    mret (ScriptSpender_new hash index value)
  else rthrow RuntimeError.

Definition read_part (s : ScriptSpender) : Reader ScriptSpender :=
  prefix ← brr_get_uint8_t;
  if prefix =? SERIALIZED_SCRIPT_PREFIX then data ← get_data; mret (set_serializedScript data s)
  else if prefix =? WITNESS_SCRIPT_PREFIX then data ← get_data; mret (set_witnessData data s)
  else if prefix =? LEGACY_STACK_PARTIAL then stack ← get_stack (partialStack_ s); mret (set_partialStack stack s)
  else if prefix =? WITNESS_STACK_PARTIAL then
    stack ← get_stack (partialWitnessStack_ s); mret (set_partialWitnessStack stack s)
  else rthrow ScriptError.

(** [while (brr.getSizeRemaining() > 0)]: a round reads a byte at least. *)
Fixpoint read_parts (fuel : nat) (s : ScriptSpender) (brr : BinaryRefReader) : result ScriptSpender :=
  match fuel with
  | O => Err NoFuel
  | S fuel => if 0 <? brr_getSizeRemaining brr then '(s, brr) ← read_part s brr; read_parts fuel s brr else Ok s
  end.

(** The flags of the first byte. *)
Definition set_bits (v : Z) (s : ScriptSpender) : ScriptSpender :=
  let bup := bu_setValue v in
  let '(legacy, bup) := bu_getBits 8 2 bup in
  let '(segwit, bup) := bu_getBits 8 2 bup in
  let '(p2sh, bup) := bu_getBit 8 bup in
  let '(csv, bup) := bu_getBit 8 bup in
  let '(cltv, _) := bu_getBit 8 bup in
  set_isCLTV cltv (set_isCSV csv (sp_flagP2SH p2sh (set_segwitStatus segwit (set_legacyStatus legacy s)))).

Definition read_spender : Reader ScriptSpender :=
  bits ← brr_get_uint8_t;
  sighash_type ← brr_get_uint8_t;
  sequence ← brr_get_uint32_t LE;
  s ← read_spent;
  mret (setSigHashType sighash_type (setSequence sequence (set_bits bits s))).

Definition sp_deserializeState (dataRef : list byte) : result ScriptSpender :=
  '(s, brr) ← read_spender (brr_setNewData dataRef);
  read_parts (parse_fuel brr) s brr.
