(* ===== verification/SpenderProps.v ===== *)
(** * SpenderProps: the state that signers exchange, and merging it

    What the bytes of [ScriptSpender::serializeState] say, so that
    [deserializeState] gives the spender back, and what [merge] does with the
    signatures of two spenders of one input. *)

From S2P Require Import Prelude BinaryData BinaryIO StdMap BlockHeader TxLength ScriptParser StackItem SigHash Interpreter Resolver Verifier ScriptUtils Spender.

(** ** Outputs *)

(** An output that the bytes can hold. *)
Record utxo_ok (u : UTXO) : Prop := {
  uo_value : is_uint 64 (value_ u);
  uo_height : is_uint 32 (txHeight_ u);
  uo_txIndex : is_uint 16 (txIndex_ u);
  uo_index : is_uint 16 (txOutIndex_ u);
  uo_hash : data_ok (utxo_txHash u);
  uo_script : data_ok (script_ u) /\ 0 < zlen (script_ u);
  uo_sequence : is_uint 32 (preferredSequence_ u);
  uo_rest : isMultisigRef_ u = false /\ isInputSW_ u = false /\ txinRedeemSizeBytes_ u = UINT32_MAX /\ witnessDataSizeBytes_ u = UINT32_MAX;
}.

Definition utxo_bytes (u : UTXO) : list byte :=
  int_to LE 8 (value_ u) ++ int_to LE 4 (txHeight_ u) ++ int_to LE 2 (txIndex_ u) ++ int_to LE 2 (txOutIndex_ u) ++
  var_bytes (utxo_txHash u) ++ var_bytes (script_ u) ++ int_to LE 4 (preferredSequence_ u).

Lemma utxo_serialize_bytes u : utxo_ok u -> utxo_serialize u = utxo_bytes u.
Proof.
  intros [Hv Hh Hi Ho Hd [Hs _] Hq _]. unfold utxo_serialize, utxo_bytes.
  rewrite bw_put_uint32_t_str, !put_data_str by done. autorewrite with bw. rewrite !(wrap_small 16) by done. by rewrite <- !app_assoc.
Qed.

Lemma utxo_read_parses u : utxo_ok u -> parses utxo_read (utxo_bytes u) u.
Proof.
  intros [Hv Hh Hi Ho Hd [Hs Hs0] Hq (Hr1 & Hr2 & Hr3 & Hr4)]. unfold utxo_read, utxo_bytes.
  repeat (eapply parses_bind; [solve [eauto with armory|by apply get_data_parses]|]).
  unfold var_bytes, data_ok in *. rewrite <- app_assoc. eapply parses_bind; [apply brr_get_var_int_parses; unfold is_uint; lia|].
  rewrite (proj2 (Z.eqb_neq _ _)) by lia. rewrite wrap_small by (unfold is_uint; lia).
  eapply parses_bind; [by apply brr_get_BinaryData_parses|]. eapply parses_bind_ret; [by apply brr_get_uint32_t_parses|].
  destruct u as [? ? ? ? ? ? ? ? ? ? ?]. cbn in *. subst. apply parses_ret.
Qed.

Lemma utxo_unserialize_bytes u : utxo_ok u -> zlen (utxo_bytes u) < two64 -> utxo_unserialize (utxo_bytes u) = Ok u.
Proof.
  intros Hu Hl. unfold utxo_unserialize.
  assert (18 <= zlen (utxo_bytes u)) as Hz.
  { unfold utxo_bytes, var_bytes. rewrite !zlen_app, !zlen_int_to.
    repeat match goal with |- context [zlen ?l] => pose proof (zlen_nonneg l); generalize dependent (zlen l); intros end. lia. }
  rewrite (proj2 (Z.ltb_ge _ _)) by done. by rewrite (parses_whole utxo_read _ u (utxo_read_parses u Hu) Hl).
Qed.

(** ** Stacks *)

Definition item_bytes (e : Z * StackItem) : list byte := var_bytes (si_bytes e.2).

(** The items stand under their ids. *)
Record stack_ok (stack : stdmap Z StackItem) : Prop := {
  so_count : is_uint 64 (zlen stack);
  so_ordered : map_ordered stack;
  so_items : Forall (fun e => e.1 = getId e.2 /\ si_ok e.2 /\ data_ok (si_bytes e.2)) stack;
}.

Definition stack_bytes (stack : stdmap Z StackItem) : list byte := var_int_bytes (zlen stack) ++ concat (map item_bytes stack).

Lemma put_stack_str stack : forall w, Forall (fun e => e.1 = getId e.2 /\ si_ok e.2 /\ data_ok (si_bytes e.2)) stack ->
  theString_ (put_stack stack w) = theString_ w ++ concat (map item_bytes stack).
Proof.
  induction stack as [|[k item] stack IH]; intros w Hs; [by rewrite app_nil_r|]. apply Forall_cons in Hs as [(Hk & Hi & Hd) Hs].
  cbn [put_stack fst snd] in *. rewrite IH by done. rewrite (si_serialize_bytes item Hi), put_data_str by done.
  cbn [map concat]. by rewrite <- app_assoc.
Qed.

Lemma put_partial_str prefix stack w : stack_ok stack ->
  theString_ (put_partial prefix stack w) = theString_ w ++ z2b prefix :: stack_bytes stack.
Proof.
  intros [Hc Ho Hi]. unfold put_partial. rewrite put_stack_str by done. rewrite bw_put_var_int_str by done.
  rewrite bw_put_uint8_t_str. unfold stack_bytes. by rewrite <- !app_assoc.
Qed.

Lemma si_deserialize_bytes item : si_ok item -> data_ok (si_bytes item) -> si_deserialize (si_bytes item) = Ok item.
Proof.
  intros Hi Hd. unfold si_deserialize.
  rewrite (parses_whole si_read _ item (si_read_parses item Hi)); [done|]. unfold data_ok in Hd. unfold two64. lia.
Qed.

Lemma ordered_below (m : stdmap Z StackItem) k v l : map_ordered (m ++ (k, v) :: l) -> Forall (fun e => e.1 < k) m.
Proof.
  induction m as [|[j x] m IH]; [constructor|]. intros [Hj Ho]. constructor; [|by apply IH].
  rewrite Forall_forall in Hj. specialize (Hj (k, v) ltac:(apply elem_of_app; right; left)).
  unfold std_less, uint_less in Hj. cbn in *. lia.
Qed.

Lemma read_stack_parses stack : forall fuel m, Forall (fun e => e.1 = getId e.2 /\ si_ok e.2 /\ data_ok (si_bytes e.2)) stack ->
  map_ordered (m ++ stack) -> (length stack < fuel)%nat ->
  parses (read_stack fuel (zlen stack) m) (concat (map item_bytes stack)) (m ++ stack).
Proof.
  induction stack as [|[k item] stack IH]; intros fuel m Hs Ho Hf; (destruct fuel as [|fuel]; [simpl in Hf; lia|]); cbn [read_stack].
  - rewrite app_nil_r. apply parses_ret.
  - apply Forall_cons in Hs as [(Hk & Hi & Hd) Hs]. cbn [fst snd] in *. rewrite zlen_cons. pose proof (zlen_nonneg stack).
    replace (0 <? 1 + zlen stack) with true by lia. cbn [map concat]. unfold item_bytes at 1. cbn [snd].
    eapply parses_bind; [by apply get_data_parses|]. eapply (parses_bind _ _ []); [apply reader_of_parses; by apply si_deserialize_bytes|].
    rewrite <- Hk, map_insert_last by by eapply ordered_below. cbn [fst].
    replace (1 + zlen stack - 1) with (zlen stack) by lia. rewrite (cons_middle (k, item) m stack), app_assoc in Ho |- *.
    apply IH; [done|done|simpl in Hf; lia].
Qed.

Lemma var_int_bytes_pos v : (1 <= length (var_int_bytes v))%nat.
Proof.
  pose proof (zlen_var_int_bytes v) as Hz. unfold zlen, calcVarIntSize in Hz.
  destruct (_ <? _); [lia|]. destruct (_ <=? _); [lia|]. destruct (_ <=? _); lia.
Qed.

Lemma get_stack_parses stack : stack_ok stack -> parses (get_stack []) (stack_bytes stack) stack.
Proof.
  intros [Hc Ho Hi]. unfold get_stack, stack_bytes. eapply parses_bind; [by apply brr_get_var_int_parses|].
  intros pre post Hl. unfold get_items. apply (read_stack_parses stack _ []); try done.
  unfold parse_fuel, brr_at. cbn [bdRef_]. rewrite !length_app.
  assert (length stack <= length (concat (map item_bytes stack)))%nat; [|lia]. clear.
  induction stack as [|e stack IH]; [done|]. cbn [map concat length]. rewrite length_app. unfold item_bytes at 1. unfold var_bytes at 1.
  rewrite length_app. pose proof (var_int_bytes_pos (zlen (si_bytes e.2))). lia.
Qed.

(** ** The state of a spender *)

(** What a spender has found of one of its scripts: nothing, a part, or the
    whole. *)
Definition part_ok (status : Z) (stack : stdmap Z StackItem) (script : list byte) : Prop :=
  (status = SpenderStatus_Unkonwn /\ stack = [] /\ script = []) \/
  (status = SpenderStatus_Partial /\ stack_ok stack /\ script = []) \/
  (status = SpenderStatus_Resolved /\ stack = [] /\ data_ok script).

Definition part_bytes (p_script p_stack status : Z) (stack : stdmap Z StackItem) (script : list byte) : list byte :=
  if status =? SpenderStatus_Resolved then z2b p_script :: var_bytes script
  else if status =? SpenderStatus_Partial then z2b p_stack :: stack_bytes stack
  else [].

(** A spender that [merge] and [setStack] have not left in between: its input is
    known by its output or by its outpoint. *)
Record spender_ok (s : ScriptSpender) : Prop := {
  sk_legacy : part_ok (legacyStatus_ s) (partialStack_ s) (serializedScript_ s);
  sk_segwit : part_ok (segwitStatus_ s) (partialWitnessStack_ s) (witnessData_ s);
  sk_type : is_uint 8 (sigHashType_ s);
  sk_sequence : is_uint 32 (sp_sequence s);
  sk_spent : (utxo_ok (utxo_ s) /\ data_ok (utxo_bytes (utxo_ s)) /\ sp_value s = value_ (utxo_ s)) \/
    (utxo_ s = UTXO_new /\ zlen (outpoint_ s) = 36 /\ is_uint 64 (sp_value s));
}.

Definition spent_bytes (s : ScriptSpender) : list byte :=
  if sp_hasUTXO s then z2b PREFIX_UTXO :: var_bytes (utxo_bytes (utxo_ s))
  else z2b PREFIX_OUTPOINT :: var_bytes (outpoint_ s) ++ int_to LE 8 (sp_value s).

Definition state_bytes (s : ScriptSpender) : list byte :=
  bp_getBinaryData 8 (status_bits s) ++ z2b (sigHashType_ s) :: int_to LE 4 (sp_sequence s) ++ spent_bytes s ++
  part_bytes SERIALIZED_SCRIPT_PREFIX LEGACY_STACK_PARTIAL (legacyStatus_ s) (partialStack_ s) (serializedScript_ s) ++
  part_bytes WITNESS_SCRIPT_PREFIX WITNESS_STACK_PARTIAL (segwitStatus_ s) (partialWitnessStack_ s) (witnessData_ s).

Lemma hasUTXO_ok s : spender_ok s -> (sp_hasUTXO s = true /\ utxo_ok (utxo_ s) /\ data_ok (utxo_bytes (utxo_ s)) /\ sp_value s = value_ (utxo_ s)) \/
  (sp_hasUTXO s = false /\ utxo_ s = UTXO_new /\ zlen (outpoint_ s) = 36 /\ is_uint 64 (sp_value s)).
Proof.
  intros [_ _ _ _ [(Hu & Hd & Hv)|(Hu & Ho & Hv)]]; [left|right]; unfold sp_hasUTXO, utxo_isInitialized.
  - split; [|done]. apply Z.ltb_lt. by destruct (uo_script _ Hu).
  - by rewrite Hu.
Qed.

Lemma put_part_str p_script p_stack status stack script w : part_ok status stack script ->
  theString_ (if status =? SpenderStatus_Resolved then put_data script (bw_put_uint8_t p_script w)
    else if status =? SpenderStatus_Partial then put_partial p_stack stack w else w) =
  theString_ w ++ part_bytes p_script p_stack status stack script.
Proof.
  unfold part_bytes. intros [(-> & -> & ->)|[(-> & Hs & ->)|(-> & -> & Hs)]]; zsimp.
  - by rewrite app_nil_r.
  - by apply put_partial_str.
  - rewrite put_data_str, bw_put_uint8_t_str by done. by rewrite <- app_assoc.
Qed.

Lemma sp_serializeState_bytes s : spender_ok s -> sp_serializeState s = Ok (state_bytes s).
Proof.
  intros Hok. pose proof Hok as [Hl Hs Ht Hq _]. unfold sp_serializeState, state_bytes, spent_bytes.
  rewrite (wrap_small 8) by done.
  destruct (hasUTXO_ok s Hok) as [(-> & Hu & Hd & Hv)|(-> & Hu & Ho & Hv)].
  - cbn [mbind result_bind]. f_equal. rewrite !put_part_str, put_data_str, utxo_serialize_bytes by (rewrite ?utxo_serialize_bytes; done).
    unfold bw_put_BitPacker. autorewrite with bw. by rewrite <- !app_assoc.
  - unfold sp_getOutpoint. rewrite Ho. change (36 =? 0) with false. cbv iota. cbn [mbind result_bind]. f_equal.
    rewrite !put_part_str, bw_put_uint64_t_str, put_data_str by (done || (unfold data_ok; lia)).
    unfold bw_put_BitPacker. autorewrite with bw. cbn [app]. rewrite <- !app_assoc. cbn [app]. by rewrite <- ?app_assoc.
Qed.

(** *** Reading it back *)

Definition with_bits (l g : Z) (p v t : bool) (sp : ScriptSpender) : ScriptSpender :=
  set_isCLTV t (set_isCSV v (sp_flagP2SH p (set_segwitStatus g (set_legacyStatus l sp)))).

Lemma status_bits_read s : (exists stack script, part_ok (legacyStatus_ s) stack script) -> (exists stack script, part_ok (segwitStatus_ s) stack script) ->
  exists v, is_uint 8 v /\ bp_getBinaryData 8 (status_bits s) = [z2b v] /\
    forall sp, set_bits v sp = with_bits (legacyStatus_ s) (segwitStatus_ s) (sp_isP2SH s) (isCSV_ s) (isCLTV_ s) sp.
Proof.
  intros (k1 & c1 & H1) (k2 & c2 & H2).
  assert (legacyStatus_ s = 0 \/ legacyStatus_ s = 1 \/ legacyStatus_ s = 2) as Hl by (destruct H1 as [(-> & _)|[(-> & _)|(-> & _)]]; auto).
  assert (segwitStatus_ s = 0 \/ segwitStatus_ s = 1 \/ segwitStatus_ s = 2) as Hg by (destruct H2 as [(-> & _)|[(-> & _)|(-> & _)]]; auto).
  clear H1 H2. unfold status_bits. generalize dependent (legacyStatus_ s). generalize dependent (segwitStatus_ s). intros g Hg l Hl.
  generalize (sp_isP2SH s) (isCSV_ s) (isCLTV_ s). intros p v t.
  destruct Hl as [->|[->| ->]], Hg as [->|[->| ->]], p, v, t; (eexists; split; [|split; [reflexivity|intros sp; reflexivity]]; done).
Qed.

(** The object that is read: without a feed and caches, and of the class
    without the derived one's fork id. *)
Definition sp_exchanged (s : ScriptSpender) : ScriptSpender :=
  mkSpender (legacyStatus_ s) (segwitStatus_ s) (sp_isP2SH s) (isCSV_ s) (isCLTV_ s) (utxo_ s) (sp_value s) (sp_sequence s)
    (if sp_hasUTXO s then [] else outpoint_ s) None [] (serializedScript_ s) [] (witnessData_ s)
    (partialStack_ s) (partialWitnessStack_ s) (sigHashType_ s) false.

Definition spent_object (s : ScriptSpender) : ScriptSpender :=
  if sp_hasUTXO s then ScriptSpender_utxo (utxo_ s) None
  else mkSpender SpenderStatus_Unkonwn SpenderStatus_Unkonwn false false false UTXO_new (sp_value s) UINT32_MAX (outpoint_ s) None [] [] [] [] [] []
    SIGHASH_ALL false.

Lemma read_spent_parses s : spender_ok s -> parses read_spent (spent_bytes s) (spent_object s).
Proof.
  intros Hok. unfold read_spent, spent_bytes, spent_object.
  destruct (hasUTXO_ok s Hok) as [(-> & Hu & Hd & Hv)|(-> & Hu & Ho & Hv)].
  - eapply (parses_bind _ _ [_]); [by apply brr_get_uint8_t_parses|]. zsimp.
    eapply parses_bind_ret; [by apply get_data_parses|]. eapply (parses_bind _ _ [] []); [|apply parses_ret].
    apply reader_of_parses, utxo_unserialize_bytes; [done|]. unfold data_ok in Hd. unfold two64. lia.
  - eapply (parses_bind _ _ [_]); [by apply brr_get_uint8_t_parses|]. zsimp.
    eapply parses_bind; [apply get_data_parses; unfold data_ok; lia|].
    assert (exists h i, outpoint_ s = h ++ int_to LE 4 i /\ zlen h = 32 /\ is_uint 32 i) as (h & i & E & Hh & Hi).
    { exists (take 32 (outpoint_ s)), (le_val (drop 32 (outpoint_ s))). unfold zlen in *.
      assert (length (drop 32 (outpoint_ s)) = 4%nat) as Hd by (rewrite length_drop; lia). split; [|split].
      - rewrite <- (take_drop 32 (outpoint_ s)) at 1. f_equal. symmetry. unfold int_to. rewrite <- Hd at 1. apply le_bytes_le_val.
      - rewrite length_take. lia.
      - pose proof (le_val_range (drop 32 (outpoint_ s))) as Hr. rewrite Hd in Hr. exact Hr. }
    rewrite E. eapply (parses_bind _ _ [] (int_to LE 8 (sp_value s))).
    { apply reader_of_parses. rewrite brr_setNewData_at.
      rewrite (brr_get_BinaryData_parses 32 h Hh [] (int_to LE 4 i)) by (cbn [app]; rewrite zlen_app, Hh, zlen_int_to; done).
      cbn [mbind result_bind]. pose proof (brr_get_uint32_t_parses LE i Hi h []) as Er. rewrite app_nil_r in Er. cbn [app] in *.
      rewrite Er by (rewrite zlen_app, Hh, zlen_int_to; done). reflexivity. }
    cbv beta iota. eapply parses_bind_ret; [by apply brr_get_uint64_t_parses|].
    unfold ScriptSpender_new. autorewrite with bw. apply parses_ret.
Qed.

Lemma read_part_step fuel s s' pre bs rest : parses (read_part s) bs s' -> bs ≠ [] -> zlen (pre ++ bs ++ rest) < two64 ->
  read_parts (S fuel) s (brr_at pre (bs ++ rest)) = read_parts fuel s' (brr_at (pre ++ bs) rest).
Proof.
  intros P Hn Hl. cbn [read_parts]. rewrite brr_remaining_at by done.
  replace (0 <? zlen (bs ++ rest)) with true.
  2:{ symmetry. apply Z.ltb_lt. destruct bs; [done|]. cbn [app]. rewrite zlen_cons. pose proof (zlen_nonneg (bs ++ rest)). lia. }
  by rewrite (P pre rest Hl).
Qed.

Lemma read_parts_end fuel s pre : zlen pre < two64 -> read_parts (S fuel) s (brr_at pre []) = Ok s.
Proof. intros Hl. cbn [read_parts]. by rewrite brr_remaining_at by (by rewrite app_nil_r). Qed.

Lemma read_parts_legacy fuel s status stack script pre rest : part_ok status stack script -> partialStack_ s = [] -> serializedScript_ s = [] ->
  let bs := part_bytes SERIALIZED_SCRIPT_PREFIX LEGACY_STACK_PARTIAL status stack script in zlen (pre ++ bs ++ rest) < two64 ->
  exists fuel', (fuel <= fuel')%nat /\ read_parts (S fuel) s (brr_at pre (bs ++ rest)) =
    read_parts fuel' (set_partialStack stack (set_serializedScript script s)) (brr_at (pre ++ bs) rest).
Proof.
  intros Hp E1 E2 bs Hl. unfold part_bytes in bs. destruct Hp as [(-> & -> & ->)|[(-> & Hs & ->)|(-> & -> & Hs)]]; subst bs; revert Hl; zsimp; intros Hl.
  - exists (S fuel). split; [lia|]. rewrite app_nil_r. by destruct s; cbn in *; subst.
  - exists fuel. split; [lia|]. apply read_part_step; [|done|done]. unfold read_part.
    eapply (parses_bind _ _ [_]); [by apply brr_get_uint8_t_parses|]. zsimp. rewrite E1.
    eapply parses_bind_ret; [by apply get_stack_parses|]. assert (set_serializedScript [] s = s) as -> by (by destruct s; cbn in *; subst). apply parses_ret.
  - exists fuel. split; [lia|]. apply read_part_step; [|done|done]. unfold read_part.
    eapply (parses_bind _ _ [_]); [by apply brr_get_uint8_t_parses|]. zsimp.
    eapply parses_bind_ret; [by apply get_data_parses|].
    assert (set_partialStack [] (set_serializedScript script s) = set_serializedScript script s) as -> by (by destruct s; cbn in *; subst). apply parses_ret.
Qed.

Lemma read_parts_witness fuel s status stack script pre rest : part_ok status stack script -> partialWitnessStack_ s = [] -> witnessData_ s = [] ->
  let bs := part_bytes WITNESS_SCRIPT_PREFIX WITNESS_STACK_PARTIAL status stack script in zlen (pre ++ bs ++ rest) < two64 ->
  exists fuel', (fuel <= fuel')%nat /\ read_parts (S fuel) s (brr_at pre (bs ++ rest)) =
    read_parts fuel' (set_partialWitnessStack stack (set_witnessData script s)) (brr_at (pre ++ bs) rest).
Proof.
  intros Hp E1 E2 bs Hl. unfold part_bytes in bs. destruct Hp as [(-> & -> & ->)|[(-> & Hs & ->)|(-> & -> & Hs)]]; subst bs; revert Hl; zsimp; intros Hl.
  - exists (S fuel). split; [lia|]. rewrite app_nil_r. by destruct s; cbn in *; subst.
  - exists fuel. split; [lia|]. apply read_part_step; [|done|done]. unfold read_part.
    eapply (parses_bind _ _ [_]); [by apply brr_get_uint8_t_parses|]. zsimp. rewrite E1.
    eapply parses_bind_ret; [by apply get_stack_parses|]. assert (set_witnessData [] s = s) as -> by (by destruct s; cbn in *; subst). apply parses_ret.
  - exists fuel. split; [lia|]. apply read_part_step; [|done|done]. unfold read_part.
    eapply (parses_bind _ _ [_]); [by apply brr_get_uint8_t_parses|]. zsimp.
    eapply parses_bind_ret; [by apply get_data_parses|].
    assert (set_partialWitnessStack [] (set_witnessData script s) = set_witnessData script s) as -> by (by destruct s; cbn in *; subst). apply parses_ret.
Qed.

Lemma sp_state_read s : spender_ok s -> zlen (state_bytes s) < two64 -> sp_deserializeState (state_bytes s) = Ok (sp_exchanged s).
Proof.
  intros Hok Hl. pose proof Hok as [Hlg Hsw Ht Hq _]. unfold sp_deserializeState.
  destruct (status_bits_read s ltac:(by eexists _, _) ltac:(by eexists _, _)) as (v & Hv & Ev & Hset).
  set (legacy := part_bytes SERIALIZED_SCRIPT_PREFIX LEGACY_STACK_PARTIAL (legacyStatus_ s) (partialStack_ s) (serializedScript_ s)) in *.
  set (witness := part_bytes WITNESS_SCRIPT_PREFIX WITNESS_STACK_PARTIAL (segwitStatus_ s) (partialWitnessStack_ s) (witnessData_ s)) in *.
  set (head := [z2b v] ++ [z2b (sigHashType_ s)] ++ int_to LE 4 (sp_sequence s) ++ spent_bytes s).
  set (s1 := setSigHashType (sigHashType_ s) (setSequence (sp_sequence s) (set_bits v (spent_object s)))).
  assert (parses read_spender head s1) as P.
  { unfold read_spender, head. eapply parses_bind; [by apply brr_get_uint8_t_parses|].
    eapply parses_bind; [by apply brr_get_uint8_t_parses|]. eapply parses_bind; [by apply brr_get_uint32_t_parses|].
    eapply parses_bind_ret; [by apply read_spent_parses|]. apply parses_ret. }
  assert (state_bytes s = head ++ legacy ++ witness) as E.
  { unfold state_bytes, head. rewrite Ev. unfold legacy, witness. by rewrite <- !app_assoc. }
  rewrite E in *. rewrite brr_setNewData_at, (P [] (legacy ++ witness) Hl). cbn [app mbind result_bind].
  assert (exists fuel, parse_fuel (brr_at head (legacy ++ witness)) = S (S (S fuel))) as [fuel ->].
  { unfold parse_fuel, brr_at. cbn [bdRef_]. rewrite length_app. unfold head at 1. cbn [app length]. by eexists. }
  assert (s1 = with_bits (legacyStatus_ s) (segwitStatus_ s) (sp_isP2SH s) (isCSV_ s) (isCLTV_ s)
    (setSigHashType (sigHashType_ s) (setSequence (sp_sequence s) (spent_object s)))) as Es1 by (unfold s1; by rewrite Hset).
  assert (partialStack_ s1 = [] /\ serializedScript_ s1 = [] /\ partialWitnessStack_ s1 = [] /\ witnessData_ s1 = []) as (F1 & F2 & F3 & F4)
    by (rewrite Es1; unfold spent_object; by destruct (sp_hasUTXO s)).
  destruct (read_parts_legacy (S (S fuel)) s1 _ _ _ head witness Hlg F1 F2 Hl) as (f1 & Hf1 & El).
  fold legacy in El. rewrite El. destruct f1 as [|[|f1]]; [lia|lia|].
  pose proof (read_parts_witness (S f1) (set_partialStack (partialStack_ s) (set_serializedScript (serializedScript_ s) s1)) _ _ _
    (head ++ legacy) [] Hsw F3 F4) as Hw. cbv zeta in Hw. fold witness in Hw. rewrite app_nil_r, <- app_assoc in Hw.
  destruct (Hw Hl) as (f2 & Hf2 & ->). destruct f2 as [|f2]; [lia|]. rewrite read_parts_end by (revert Hl; by rewrite <- ?app_assoc).
  rewrite Es1. unfold sp_exchanged, spent_object.
  destruct (hasUTXO_ok s Hok) as [(-> & Hu & Hd & Hvv)|(-> & Hu & Ho & Hvv)]; cbn; by rewrite ?Hvv, ?Hu.
Qed.

(** ** Merging *)

Lemma map_insert_find {V} k (v : V) (m : stdmap Z V) j : map_ordered m ->
  map_find j (map_insert k v m).1 = match map_find j m with Some x => Some x | None => if decide (k = j) then Some v else None end.
Proof.
  intros Ho. unfold map_insert. destruct (map_find k m) eqn:E; cbn [fst].
  - destruct (map_find j m) eqn:Ej; [done|]. rewrite decide_False; [done|]. intros ->. congruence.
  - destruct (decide (k = j)) as [->|Hne]; [by rewrite map_find_put_eq, E|]. rewrite map_find_put_ne by done. by destruct (map_find j m).
Qed.

Lemma map_insert_ordered {V} k (v : V) (m : stdmap Z V) : map_ordered m -> map_ordered (map_insert k v m).1.
Proof. intros Ho. unfold map_insert. destruct (map_find k m); [done|by apply map_put_ordered]. Qed.

Lemma insert_all_find {V} (m' : stdmap Z V) : forall m, map_ordered m -> map_ordered m' -> forall j,
  map_find j (map_insert_all m m') = match map_find j m with Some x => Some x | None => map_find j m' end.
Proof.
  induction m' as [|[k v] m' IH]; intros m Ho Ho' j.
  { unfold map_insert_all. cbn. by destruct (map_find j m). }
  change (map_insert_all m ((k, v) :: m')) with (map_insert_all (map_insert k v m).1 m'). pose proof Ho' as [Hk Hm'].
  rewrite (IH _ (map_insert_ordered k v m Ho) Hm' j), map_insert_find by done. destruct (map_find j m); [done|].
  cbn [map_find]. unfold std_less, uint_less. destruct (decide (k = j)) as [->|Hne].
  - by rewrite Z.ltb_irrefl.
  - destruct (Z.ltb_spec j k) as [Hlt|Hge].
    + apply map_find_below. eapply Forall_impl; [exact Hk|]. intros e He. unfold std_less, uint_less in *. lia.
    + by rewrite (proj2 (Z.ltb_lt k j)) by lia.
Qed.

(** C26: merging a part of a legacy script that another signer has found: of the
    items with the same id the own one stays, so that of two signatures over one
    script that two signers made on their own, the other's is lost; the
    status stays what it was, so that a spender that had found nothing gets the
    items, but neither counts as partly resolved nor passes them on. *)
Theorem merge_partial obj s : spender_ok s -> spender_ok obj -> legacyStatus_ obj = SpenderStatus_Partial ->
  legacyStatus_ s ≠ SpenderStatus_Resolved -> segwitStatus_ s = SpenderStatus_Unkonwn -> segwitStatus_ obj = SpenderStatus_Unkonwn ->
  all_valid (map_insert_all (partialStack_ s) (partialStack_ obj)) = false ->
  exists s', sp_merge obj s = (s', Ok tt) /\ legacyStatus_ s' = legacyStatus_ s /\
    forall id, map_find id (partialStack_ s') =
      match map_find id (partialStack_ s) with Some item => Some item | None => map_find id (partialStack_ obj) end.
Proof.
  intros Hs Ho Eo Es Ew Ewo Hv. pose proof Hs as [Hl Hw _ _ _]. pose proof Ho as [Hlo _ _ _ _].
  assert (map_ordered (partialStack_ s)) as Hos by (destruct Hl as [(_ & -> & _)|[(_ & [_ ? _] & _)|(? & _)]]; done).
  assert (map_ordered (partialStack_ obj)) as Hoo by (destruct Hlo as [(_ & -> & _)|[(_ & [_ ? _] & _)|(_ & -> & _)]]; done).
  assert (partialWitnessStack_ s = []) as Ews by (destruct Hw as [(_ & -> & _)|[(E & _)|(E & _)]]; [done|by rewrite Ew in E..]).
  unfold sp_merge, sp_resolved. rewrite (proj2 (Z.eqb_neq _ _) Es). cbn [negb].
  set (s1 := if _ && _ then _ else s).
  assert (legacyStatus_ s1 = legacyStatus_ s /\ segwitStatus_ s1 = segwitStatus_ s /\ partialStack_ s1 = partialStack_ s /\
    partialWitnessStack_ s1 = partialWitnessStack_ s) as (F1 & F2 & F3 & F4) by (unfold s1; by destruct (_ && _)).
  unfold mergeLegacy. rewrite F1, Eo, F3, (proj2 (Z.eqb_neq _ _) Es).
  change (SpenderStatus_Partial =? SpenderStatus_Resolved) with false. change (SpenderStatus_Partial =? SpenderStatus_Partial) with true. cbv iota. unfold evaluatePartialStacks, evaluateLegacy.
  cbn [partialStack_ set_partialStack]. rewrite Hv, andb_false_r. unfold evaluateWitness.
  cbn [partialWitnessStack_ set_partialStack]. rewrite F4, Ews. change (0 <? zlen []) with false. cbn [andb].
  unfold mergeWitness. cbv beta iota.
  cbn [segwitStatus_ set_partialStack]. rewrite F2, Ew, Ewo.
  change (SpenderStatus_Unkonwn =? _) with false. change (SpenderStatus_Unkonwn =? SpenderStatus_Partial) with false. cbv iota. eexists. split; [reflexivity|].
  split; [exact F1|]. intros id. by apply insert_all_find.
Qed.

(** *** Witness: two signers of a script of two of three keys *)

Definition toy_partial (key : Z) : ScriptSpender :=
  set_legacyStatus SpenderStatus_Partial (set_partialStack
    [(0, StackItem_OpCode 0 0); (1, StackItem_MultiSig 1 2 [(key, replicate 71 (z2b key))]); (2, StackItem_PushData 2 (replicate 105 (z2b 5)))]
    (ScriptSpender_utxo (mkUTXO (replicate 32 (z2b 9)) 0 0 0 5000 (replicate 23 (z2b 1)) false 0 false UINT32_MAX UINT32_MAX) None)).

Lemma toy_partial_ok key : key = 0 \/ key = 1 -> spender_ok (toy_partial key).
Proof.
  intros Hk. split; cbn.
  - right. left. split; [done|]. split; [|done]. destruct Hk as [->| ->];
      (split; [done|by repeat constructor|repeat constructor; try done; repeat constructor; done]).
  - left. done.
  - done.
  - done.
  - left. split; [by split|]. done.
Qed.

Lemma merge_partial_witness : exists s', sp_merge (toy_partial 1) (toy_partial 0) = (s', Ok tt) /\
  map_find 1 (partialStack_ s') = Some (StackItem_MultiSig 1 2 [(0, replicate 71 (z2b 0))]).
Proof.
  destruct (merge_partial (toy_partial 1) (toy_partial 0) (toy_partial_ok 0 ltac:(by left)) (toy_partial_ok 1 ltac:(by right))
    eq_refl ltac:(done) eq_refl eq_refl eq_refl) as (s' & E & _ & Hf).
  exists s'. split; [exact E|]. rewrite Hf. reflexivity.
Defined.
