(* ===== verification/Signer.v ===== *)
(** * Signer: signing a transaction

    The class [Signer] (with [Signer_BCH] and [SignerProxyFromSigner]) of
    cppForSwig/Signer.h and Signer.cpp: the inputs and outputs of a transaction,
    signing, serialising and verifying it, and the exchange of its state with
    other signers; [ResolverFeedPublic] of Script.h, and what [getTxId] uses of
    the class [Tx] (TxClasses.cpp).

    Spenders and recipients are behind [shared_ptr]s that the signer alone
    holds.  Several members are caches ([mutable]) that a change of the
    transaction does not clear, so they are part of the state.  Crypto++ signs:
    the class [BTC_SIGNER]. *)

From S2P Require Import Prelude BinaryData BinaryIO Hashing StdMap BlockHeader TxLength BlockData ScriptParser StackItem Recipient.
From S2P Require Import TxClasses SigHash TxEvalState Interpreter DerSig Resolver Verifier Spender.

(** The signature of the digest of a digest, with a key as [ParsePrivateKey]
    takes it; the signature depends on what the random generator yields. *)
Class BTC_SIGNER := signer_sign : list byte -> list byte -> nat -> result (list byte).

(** ** State *)

(** [sg_stub] and [sg_sigHash] are the members of [TransactionStub]; [sg_BCH]
    tells the class of the object; [sg_draws] counts the uses of the random
    generator. *)
Record Signer := mkSigner {
  sg_version : Z;
  sg_lockTime : Z;
  sg_flags : Z;
  serializedTx_ : list byte;
  serializedOutputs_ : list byte;
  spenders_ : list ScriptSpender;
  recipients_ : list ScriptRecipient;
  resolverPtr_ : option ResolverFeed;
  isSegWit_ : bool;
  sg_stub : StubState;
  sg_sigHash : option nat;
  sg_BCH : bool;
  sg_draws : nat;
}.

Definition sg_setVersion v (s : Signer) : Signer := mkSigner v (sg_lockTime s) (sg_flags s) (serializedTx_ s)
  (serializedOutputs_ s) (spenders_ s) (recipients_ s) (resolverPtr_ s) (isSegWit_ s) (sg_stub s) (sg_sigHash s)
  (sg_BCH s) (sg_draws s).
Definition sg_setLockTime v (s : Signer) : Signer := mkSigner (sg_version s) v (sg_flags s) (serializedTx_ s)
  (serializedOutputs_ s) (spenders_ s) (recipients_ s) (resolverPtr_ s) (isSegWit_ s) (sg_stub s) (sg_sigHash s)
  (sg_BCH s) (sg_draws s).
Definition sg_setFlags v (s : Signer) : Signer := mkSigner (sg_version s) (sg_lockTime s) v (serializedTx_ s)
  (serializedOutputs_ s) (spenders_ s) (recipients_ s) (resolverPtr_ s) (isSegWit_ s) (sg_stub s) (sg_sigHash s)
  (sg_BCH s) (sg_draws s).
Definition set_serializedTx v (s : Signer) : Signer := mkSigner (sg_version s) (sg_lockTime s) (sg_flags s) v
  (serializedOutputs_ s) (spenders_ s) (recipients_ s) (resolverPtr_ s) (isSegWit_ s) (sg_stub s) (sg_sigHash s)
  (sg_BCH s) (sg_draws s).
Definition set_serializedOutputs v (s : Signer) : Signer := mkSigner (sg_version s) (sg_lockTime s) (sg_flags s)
  (serializedTx_ s) v (spenders_ s) (recipients_ s) (resolverPtr_ s) (isSegWit_ s) (sg_stub s) (sg_sigHash s) (sg_BCH
  s) (sg_draws s).
Definition set_spenders v (s : Signer) : Signer := mkSigner (sg_version s) (sg_lockTime s) (sg_flags s) (serializedTx_
  s) (serializedOutputs_ s) v (recipients_ s) (resolverPtr_ s) (isSegWit_ s) (sg_stub s) (sg_sigHash s) (sg_BCH s)
  (sg_draws s).
Definition set_recipients v (s : Signer) : Signer := mkSigner (sg_version s) (sg_lockTime s) (sg_flags s)
  (serializedTx_ s) (serializedOutputs_ s) (spenders_ s) v (resolverPtr_ s) (isSegWit_ s) (sg_stub s) (sg_sigHash s)
  (sg_BCH s) (sg_draws s).
Definition sg_setFeed v (s : Signer) : Signer := mkSigner (sg_version s) (sg_lockTime s) (sg_flags s) (serializedTx_
  s) (serializedOutputs_ s) (spenders_ s) (recipients_ s) v (isSegWit_ s) (sg_stub s) (sg_sigHash s) (sg_BCH s)
  (sg_draws s).
Definition set_isSegWit v (s : Signer) : Signer := mkSigner (sg_version s) (sg_lockTime s) (sg_flags s) (serializedTx_
  s) (serializedOutputs_ s) (spenders_ s) (recipients_ s) (resolverPtr_ s) v (sg_stub s) (sg_sigHash s) (sg_BCH s)
  (sg_draws s).
Definition set_stub v (s : Signer) : Signer := mkSigner (sg_version s) (sg_lockTime s) (sg_flags s) (serializedTx_ s)
  (serializedOutputs_ s) (spenders_ s) (recipients_ s) (resolverPtr_ s) (isSegWit_ s) v (sg_sigHash s) (sg_BCH s)
  (sg_draws s).
Definition set_sigHash v (s : Signer) : Signer := mkSigner (sg_version s) (sg_lockTime s) (sg_flags s) (serializedTx_
  s) (serializedOutputs_ s) (spenders_ s) (recipients_ s) (resolverPtr_ s) (isSegWit_ s) (sg_stub s) v (sg_BCH s)
  (sg_draws s).
Definition set_draws v (s : Signer) : Signer := mkSigner (sg_version s) (sg_lockTime s) (sg_flags s) (serializedTx_ s)
  (serializedOutputs_ s) (spenders_ s) (recipients_ s) (resolverPtr_ s) (isSegWit_ s) (sg_stub s) (sg_sigHash s)
  (sg_BCH s) v.

Definition Signer_new (BCH : bool) : Signer := mkSigner 1 0 0 [] [] [] [] None false StubState_new None BCH 0.

Definition addSpender (spender : ScriptSpender) (s : Signer) : Signer := set_spenders (spenders_ s ++ [spender]) s.
Definition addRecipient (recipient : ScriptRecipient) (s : Signer) : Signer :=
  set_recipients (recipients_ s ++ [recipient]) s.

(** [convertSpender], and the spenders that are made by outpoint. *)
Definition convertSpender (spender : ScriptSpender) (s : Signer) : ScriptSpender :=
  if sg_BCH s then ScriptSpender_BCH_copy spender else spender.
Definition addSpender_ByOutpoint (hash : list byte) (index sequence value : Z) (s : Signer) : Signer :=
  addSpender (convertSpender (setSequence sequence (ScriptSpender_new hash index value)) s) s.

(** ** The monad *)

Definition Sign (A : Type) : Type := Signer -> Signer * result A.

#[export] Instance sign_ret : MRet Sign := fun A a s => (s, Ok a).
#[export] Instance sign_bind : MBind Sign := fun A B f m s =>
  match m s with
  | (s, Ok a) => f a s
  | (s, Err e) => (s, Err e)
  end.

Definition sg_throw {A} (e : exn) : Sign A := fun s => (s, Err e).
Definition sg_lift {A} (r : result A) : Sign A := fun s => (s, r).
Definition sg_get {A} (f : Signer -> A) : Sign A := fun s => (s, Ok (f s)).
Definition sg_modify (f : Signer -> Signer) : Sign () := fun s => (f s, Ok tt).

(** [catch (exception&)], [catch (...)] *)
Definition sg_catch {A} (m : Sign A) (h : Sign A) : Sign A := fun s =>
  match m s with
  | (s, Err e) => if is_exception e then h s else (s, Err e)
  | r => r
  end.

(** ** The stub *)

Definition getSpender (index : Z) (s : Signer) : result ScriptSpender :=
  if zlen (spenders_ s) <? index then Err ScriptError
  else match znth (spenders_ s) index with None => Err UB | Some spender => Ok spender end.

(** [spenders_[index]] *)
Definition spender_at (index : Z) (s : Signer) : result ScriptSpender :=
  match znth (spenders_ s) index with None => Err UB | Some spender => Ok spender end.

(** The recipients keep their bytes. *)
Fixpoint recipients_bytes (recipients : list ScriptRecipient) : list byte * list ScriptRecipient :=
  match recipients with
  | [] => ([], [])
  | r :: recipients =>
      let '(script, r) := recipient_getSerializedScript r in
      let '(scripts, recipients) := recipients_bytes recipients in
      (script ++ scripts, r :: recipients)
  end.

Definition put_outputs : Sign (list byte) := fun s =>
  let '(scripts, recipients) := recipients_bytes (recipients_ s) in (set_recipients recipients s, Ok scripts).

Definition sg_getSerializedOutputScripts : Sign (list byte) :=
  cached ← sg_get serializedOutputs_;
  if zlen cached =? 0 then
    scripts ← put_outputs; _ ← sg_modify (set_serializedOutputs scripts); mret scripts
  else mret cached.

Fixpoint spenders_data (spenders : list ScriptSpender) : result (list TxInData) :=
  match spenders with
  | [] => Ok []
  | spender :: spenders =>
      hash ← getOutputHash spender;
      index ← getOutputIndex spender;
      rest ← spenders_data spenders;
      Ok (mkTxInData hash index (sp_sequence spender) :: rest)
  end.

(** A loop over the spenders whose results are put one after the other; one
    that throws stays as it is, and the loop ends. *)
Fixpoint each_spender (f : ScriptSpender -> result (list byte * ScriptSpender)) (spenders : list ScriptSpender)
    : list ScriptSpender * result (list byte) :=
  match spenders with
  | [] => ([], Ok [])
  | spender :: spenders =>
      match f spender with
      | Err e => (spender :: spenders, Err e)
      | Ok (data, spender) =>
          let '(spenders, r) := each_spender f spenders in
          (spender :: spenders, rest ← r; Ok (data ++ rest))
      end
  end.

Definition put_spenders (f : ScriptSpender -> result (list byte * ScriptSpender)) : Sign (list byte) := fun s =>
  let '(spenders, r) := each_spender f (spenders_ s) in (set_spenders spenders s, r).

Definition sg_serializeAllOutpoints : Sign (list byte) := put_spenders sp_getOutpoint.

Definition sg_serializeAllSequences (s : Signer) : list byte :=
  theString_ (foldl (fun w spender => bw_put_uint32_t (sp_sequence spender) LE w) bw_new (spenders_ s)).

Definition sg_getOutpoint (index : Z) : Sign (list byte) := fun s =>
  match
    spender ← spender_at index s; sp_getOutpoint spender
  with
  | Err e => (s, Err e)
  | Ok (outpoint, spender) => (set_spenders (<[Z.to_nat index := spender]> (spenders_ s)) s, Ok outpoint)
  end.

(** What the methods return. *)
Definition signer_stub (s : Signer) : TransactionStub := {|
  getSerializedOutputScripts := (sg_getSerializedOutputScripts s).2;
  getTxInsData := spenders_data (spenders_ s);
  getWitnessData := fun index => spender ← getSpender index s; sp_getWitnessData spender;
  getVersion := sg_version s;
  getTxOutCount := zlen (recipients_ s);
  getLockTime := sg_lockTime s;
  serializeAllOutpoints := (sg_serializeAllOutpoints s).2;
  serializeAllSequences := Ok (sg_serializeAllSequences s);
  getOutpoint := fun index => (sg_getOutpoint index s).2;
  getOutpointValue := fun index => spender ← spender_at index s; Ok (sp_value spender);
  getTxInSequence := fun index => spender ← spender_at index s; Ok (sp_sequence spender);
|}.

Definition getSigForInputIndex (id : Z) (s : Signer) : result (list byte) := spender ← getSpender id s; getSingleSig spender.
Definition isInputSW (id : Z) (s : Signer) : result bool := spender ← getSpender id s; Ok (sp_isSegWit spender).
Definition getSubScript (id : Z) (s : Signer) : result (list byte) := spender ← getSpender id s; getOutputScript spender.

(** ** Signing *)

Section signing.
Context `{HashFns} `{BTC_SIGNER}.

(** The object that the segregated-witness inputs share, or all inputs in the
    derived class. *)
Definition shared_sigHash (fourBytes : Z) : Sign SigHashData :=
  object ← sg_get sg_sigHash;
  match object with
  | Some id => mret (SegWitAt id)
  | None =>
      stub ← sg_get sg_stub;
      let '(id, stub) := new_segwit fourBytes stub in
      _ ← sg_modify (set_stub stub);
      _ ← sg_modify (set_sigHash (Some id));
      mret (SegWitAt id)
  end.

Definition getSigHashDataForSpender (sw : bool) : Sign SigHashData :=
  BCH ← sg_get sg_BCH;
  if (BCH : bool) then shared_sigHash 0x41
  else if sw then SHD ← shared_sigHash 1; _ ← sg_modify (set_isSegWit true); mret SHD
  else mret SigHashDataLegacy.

(** The methods that [getDataForSigHash] calls, for the caches they fill. *)
Definition sigHash_calls (shd : SigHashData) (script : list byte) (index : Z) : Sign () :=
  stub ← sg_get sg_stub;
  subscript ← sg_lift (script_code script index stub);
  match shd with
  | SigHashDataLegacy =>
      _ ← sg_lift (tokenize subscript OP_CODESEPARATOR_value); _ ← sg_getSerializedOutputScripts; mret tt
  | SegWitAt id =>
      match segwit_objs stub !! id with
      | None => mret tt
      | Some o =>
          _ ← (if initialized_ o then mret []
               else _ ← sg_serializeAllOutpoints; sg_getSerializedOutputScripts);
          _ ← sg_getOutpoint index;
          mret tt
      end
  end.

Definition data_to_sign (shd : SigHashData) (hashType : Z) (script : list byte) (index : Z) : Sign (list byte) := fun s =>
  let r := @getDataForSigHash _ (signer_stub s) shd hashType script index (sg_stub s) in
  let s := if hashType =? SIGHASH_ALL then (sigHash_calls shd script index s).1 else s in
  match r with
  | Ok (data, stub) => (set_stub stub s, Ok data)
  | Err e => (s, Err e)
  end.

(** [SignData]: the library hashes the digest it is given once more. *)
Definition SignData (binToSign binPrivKey : list byte) : Sign (list byte) :=
  draws ← sg_get sg_draws;
  _ ← sg_modify (set_draws (S draws));
  sg_lift (signer_sign binPrivKey (getSha256 binToSign) draws).

Definition sg_sign (script privKey : list byte) (SHD : SigHashData) (index : Z) : Sign (list byte) :=
  spender ← (fun s => (s, spender_at index s));
  dataToHash ← data_to_sign SHD (sigHashType_ spender) script index;
  SignData dataToHash privKey.

(** The function that [setLambda] makes. *)
Definition signerLambda (feed : ResolverFeed) (index : Z) (script pubkey : list byte) (sw : bool) : Sign (list byte) :=
  SHD ← getSigHashDataForSpender sw;
  privKey ← sg_lift (@getPrivKeyForPubkey feed pubkey);
  sig ← sg_sign script privKey SHD index;
  derSig ← sg_lift (rsToDerSig sig);
  spender ← (fun s => (s, spender_at index s));
  byte ← sg_lift (getSigHashByte spender);
  mret (derSig ++ [z2b byte]).

Definition SignerProxyFromSigner (feed : ResolverFeed) (index : Z) : SignerProxy Signer := signerLambda feed index.

(** [ResolverFeedPublic], of a pointer that may be null. *)
Definition ResolverFeedPublic (feedPtr : option ResolverFeed) : ResolverFeed := {|
  getByVal := fun key => match feedPtr with None => Err RuntimeError | Some feed => @getByVal feed key end;
  getPrivKeyForPubkey := fun _ => Err RuntimeError;
|}.

(** A change of a spender. *)
Definition on_spender (i : nat) (f : ScriptSpender -> ScriptSpender * result ()) : Sign () := fun s =>
  match spenders_ s !! i with
  | None => (s, Err UB)
  | Some spender => let '(spender, r) := f spender in (set_spenders (<[i := spender]> (spenders_ s)) s, r)
  end.

(** What the resolver found goes to the spender. *)
Definition take_stacks (i : nat) (resolvedStack : ResolvedStack) : Sign () :=
  _ ← on_spender i (fun spender => (sp_flagP2SH (rs_isP2SH resolvedStack) spender, Ok tt));
  _ ← on_spender i (updatePartialStack (rs_stack resolvedStack));
  _ ← on_spender i evaluatePartialStacks;
  match rs_witnessStack resolvedStack with
  | None => mret tt
  | Some witnessStack =>
      _ ← sg_modify (set_isSegWit true);
      _ ← on_spender i (updatePartialWitnessStack witnessStack);
      on_spender i evaluatePartialStacks
  end.

(** How often the resolver may call itself. *)
Variable depth : nat.

Definition resolve_spender (i : nat) (feed : ResolverFeed) (script : list byte) : Sign () :=
  flags ← sg_get sg_flags;
  resolvedStack ← @getResolvedStack Signer (SignerProxyFromSigner feed (Z.of_nat i)) feed depth
    (StackResolver_new script flags false);
  take_stacks i resolvedStack.

(** The loop of [sign]. *)
Definition sign_spender (i : nat) : Sign () := fun s =>
  match spenders_ s !! i with
  | None => (s, Err UB)
  | Some spender =>
      if sp_resolved spender then (s, Ok tt)
      else if negb (sp_hasUTXO spender) then (s, Ok tt)
      else
        match (match resolverFeed_ spender with Some feed => Some feed | None => resolverPtr_ s end) with
        | None => (s, Ok tt)
        | Some feed =>
            let s := set_spenders (<[i := sp_setFeed (Some feed) spender]> (spenders_ s)) s in
            match getOutputScript spender with
            | Err e => (s, Err e)
            | Ok script => sg_catch (resolve_spender i feed script) (mret tt) s
            end
        end
  end.

Fixpoint for_spenders (body : nat -> Sign ()) (n i : nat) : Sign () :=
  match n with
  | O => mret tt
  | S n => _ ← body i; for_spenders body n (S i)
  end.

Definition sign : Sign () := fun s => for_spenders sign_spender (length (spenders_ s)) 0 s.

(** The loop of [evaluateSpenderStatus]: what can be found without keys. *)
Definition evaluate_spender (i : nat) : Sign () := fun s =>
  match spenders_ s !! i with
  | None => (s, Err UB)
  | Some spender =>
      if sp_resolved spender then (s, Ok tt)
      else if negb (sp_hasUTXO spender) then (s, Ok tt)
      else
        let publicResolver :=
          ResolverFeedPublic (match resolverFeed_ spender with Some feed => Some feed | None => resolverPtr_ s end) in
        match getOutputScript spender with
        | Err e => (s, Err e)
        | Ok script => sg_catch (resolve_spender i publicResolver script) (mret tt) s
        end
  end.

Definition evaluateSpenderStatus : Sign () := fun s => for_spenders evaluate_spender (length (spenders_ s)) 0 s.

(** ** Serialising *)

(** Empty witness data is an empty list of items. *)
Definition witness_or_none (data : list byte) : list byte := if zlen data =? 0 then [z2b 0] else data.

Definition put_witnesses (f : ScriptSpender -> result (list byte)) : Sign (list byte) :=
  put_spenders (fun spender => data ← f spender; Ok (witness_or_none data, spender)).

(** The transaction with these inputs and witnesses. *)
Definition put_tx (input : ScriptSpender -> result (list byte * ScriptSpender)) (witness : ScriptSpender -> result (list byte))
    : Sign (list byte) :=
  version ← sg_get sg_version;
  let w := bw_put_uint32_t version LE bw_new in
  isSegWit ← sg_get isSegWit_;
  let w := if (isSegWit : bool) then bw_put_uint8_t 1 (bw_put_uint8_t 0 w) else w in
  spenders ← sg_get spenders_;
  let w := (bw_put_var_int (zlen spenders) w).1 in
  inputs ← put_spenders input;
  let w := bw_put_BinaryData inputs w in
  recipients ← sg_get recipients_;
  let w := (bw_put_var_int (zlen recipients) w).1 in
  outputs ← put_outputs;
  let w := bw_put_BinaryData outputs w in
  witnesses ← (if (isSegWit : bool) then put_witnesses witness else mret []);
  let w := bw_put_BinaryData witnesses w in
  lockTime ← sg_get sg_lockTime;
  mret (theString_ (bw_put_uint32_t lockTime LE w)).

Definition sg_serialize : Sign (list byte) :=
  cached ← sg_get serializedTx_;
  if negb (zlen cached =? 0) then mret cached
  else tx ← put_tx getSerializedInput sp_getWitnessData; _ ← sg_modify (set_serializedTx tx); mret tx.

Definition serializeAvailableResolvedData : Sign (list byte) :=
  sg_catch sg_serialize (put_tx serializeAvailableStack serializeAvailableWitnessData).

(** ** Verifying *)

Context `{CryptoECDSA}.

(** What the memory of the interpreters holds, and how deep they may recurse. *)
Variables (garbage : Z -> Z) (vdepth : nat).

(** A new verifier has no flags yet. *)
Definition verify_tx (BCH : bool) (rawTx : list byte) (utxos : utxoMap) (flags : Z) : result TxEvalState :=
  bctx ← bctx_parse rawTx (zlen rawTx) UINT32_MAX;
  evaluateState (mkVerifier bctx utxos (Z.lor 0 flags) BCH) garbage vdepth VerifierState_new.

(** [utxoMap[hash][index] = utxo] and the flags, for every spender. *)
Fixpoint spent_utxos (spenders : list ScriptSpender) (utxos : utxoMap) (flags : Z) : result (utxoMap * Z) :=
  match spenders with
  | [] => Ok (utxos, flags)
  | spender :: spenders =>
      hash ← getOutputHash spender;
      index ← getOutputIndex spender;
      let indexMap := match map_find hash utxos with None => [] | Some m => m end in
      spent_utxos spenders (map_put hash (map_put index (utxo_ spender) indexMap) utxos) (Z.lor flags (sp_getFlags spender))
  end.

Definition sg_verify : Sign bool :=
  txdata ← sg_serialize;
  spenders ← sg_get spenders_;
  '(utxos, flags) ← sg_lift (spent_utxos spenders [] 0);
  BCH ← sg_get sg_BCH;
  evalState ← sg_lift (verify_tx BCH txdata utxos flags);
  mret (tx_isValid evalState).

Definition evaluateSignedState : Sign TxEvalState :=
  _ ← evaluateSpenderStatus;
  txdata ← serializeAvailableResolvedData;
  spenders ← sg_get spenders_;
  '(utxos, flags) ← sg_lift (spent_utxos spenders [] 0);
  BCH ← sg_get sg_BCH;
  sg_lift (verify_tx BCH txdata utxos flags).

(** Outputs by hash and index, from their bytes. *)
Fixpoint read_idMap (raw : stdmap Z (list byte)) (idMap : stdmap Z UTXO) : result (stdmap Z UTXO) :=
  match raw with
  | [] => Ok idMap
  | (index, data) :: raw => utxo ← utxo_unserializeRaw data; read_idMap raw (map_insert index utxo idMap).1
  end.

Fixpoint read_utxos (raw : stdmap (list byte) (stdmap Z (list byte))) (utxos : utxoMap) : result utxoMap :=
  match raw with
  | [] => Ok utxos
  | (hash, raw_idMap) :: raw => idMap ← read_idMap raw_idMap []; read_utxos raw (map_insert hash idMap utxos).1
  end.

Definition verifyRawTx (rawTx : list byte) (rawUTXOs : stdmap (list byte) (stdmap Z (list byte))) (s : Signer) : result bool :=
  utxos ← read_utxos rawUTXOs [];
  evalState ← verify_tx (sg_BCH s) rawTx utxos (Z.lor SCRIPT_VERIFY_P2SH SCRIPT_VERIFY_SEGWIT);
  Ok (tx_isValid evalState).
End signing.

(** ** Exchanging the state *)

Definition sg_isValid (s : Signer) : bool := forallb sp_resolved (spenders_ s).

Fixpoint put_states (spenders : list ScriptSpender) (w : BinaryWriter) : result BinaryWriter :=
  match spenders with
  | [] => Ok w
  | spender :: spenders => state ← sp_serializeState spender; put_states spenders (put_data state w)
  end.

(** The outputs one by one, each with its size. *)
Fixpoint put_recipients (recipients : list ScriptRecipient) (w : BinaryWriter) : BinaryWriter * list ScriptRecipient :=
  match recipients with
  | [] => (w, [])
  | r :: recipients =>
      let '(state, r) := recipient_getSerializedScript r in
      let '(w, recipients) := put_recipients recipients (put_data state w) in
      (w, r :: recipients)
  end.

Definition sg_serializeState : Sign (list byte) := fun s =>
  let w := bw_put_uint32_t (sg_version s) LE bw_new in
  let w := bw_put_uint32_t (sg_lockTime s) LE w in
  let w := bw_put_uint32_t (sg_flags s) LE w in
  let w := bw_put_uint8_t (if isSegWit_ s then 1 else 0) w in
  match put_states (spenders_ s) (bw_put_var_int (zlen (spenders_ s)) w).1 with
  | Err e => (s, Err e)
  | Ok w =>
      let '(w, recipients) := put_recipients (recipients_ s) (bw_put_var_int (zlen (recipients_ s)) w).1 in
      (set_recipients recipients s, Ok (theString_ w))
  end.

(** [for (i = 0; i < count; i++)]: a round reads a byte at least, or throws; a
    spender that cannot be read is left out. *)
Fixpoint read_spenders (fuel : nat) (count : Z) : Reader (list ScriptSpender) :=
  match fuel with
  | O => rthrow NoFuel
  | S fuel =>
      if 0 <? count then
        data ← get_data;
        match sp_deserializeState data with
        | Ok spender => rest ← read_spenders fuel (count - 1); mret (spender :: rest)
        | Err e => if is_exception e then read_spenders fuel (count - 1) else rthrow e
        end
      else mret []
  end.

Fixpoint read_recipients (fuel : nat) (count : Z) : Reader (list ScriptRecipient) :=
  match fuel with
  | O => rthrow NoFuel
  | S fuel =>
      if 0 <? count then
        data ← get_data;
        recipient ← reader_of (recipient_deserialize data);
        rest ← read_recipients fuel (count - 1);
        mret (recipient :: rest)
      else mret []
  end.

Definition get_spenders (count : Z) : Reader (list ScriptSpender) := fun brr => read_spenders (parse_fuel brr) count brr.
Definition get_recipients (count : Z) : Reader (list ScriptRecipient) := fun brr => read_recipients (parse_fuel brr) count brr.

Definition read_signer : Reader Signer :=
  version ← brr_get_uint32_t LE;
  lockTime ← brr_get_uint32_t LE;
  flags ← brr_get_uint32_t LE;
  isSegWit ← brr_get_uint8_t;
  spender_count ← brr_get_var_int;
  spenders ← get_spenders spender_count;
  recipient_count ← brr_get_var_int;
  recipients ← get_recipients recipient_count;
  mret (mkSigner version lockTime flags [] [] spenders recipients None (negb (isSegWit =? 0)) StubState_new None false 0).

Definition createFromState (state : list byte) : result Signer :=
  '(s, _) ← read_signer (brr_setNewData state); Ok s.

(** [find_spender]: the spenders up to the one that is found know their
    outpoints then, and so does [obj]. *)
Fixpoint find_spender (obj : ScriptSpender) (spenders : list ScriptSpender)
    : list ScriptSpender * result (option nat * ScriptSpender) :=
  match spenders with
  | [] => ([], Ok (None, obj))
  | spd :: spenders =>
      match sp_same spd obj with
      | Err e => (spd :: spenders, Err e)
      | Ok (true, spd, obj) => (spd :: spenders, Ok (Some 0%nat, obj))
      | Ok (false, spd, obj) =>
          let '(spenders, r) := find_spender obj spenders in
          (spd :: spenders, '(found, obj) ← r; Ok (option_map S found, obj))
      end
  end.

Definition merge_spender (spender : ScriptSpender) : Sign () :=
  spender ← sg_get (convertSpender spender);
  '(found, spender) ← (fun s =>
    let '(spenders, r) := find_spender spender (spenders_ s) in (set_spenders spenders s, r));
  match found with
  | Some i => on_spender i (sp_merge spender)
  | None => sg_modify (addSpender spender)
  end.

Fixpoint merge_spenders (spenders : list ScriptSpender) : Sign () :=
  match spenders with
  | [] => mret tt
  | spender :: spenders => _ ← merge_spender spender; merge_spenders spenders
  end.

(** [find_recipient] by the bytes of the output, value included. *)
Fixpoint find_recipient (scriptHash : list byte) (recipients : list ScriptRecipient) : option nat * list ScriptRecipient :=
  match recipients with
  | [] => (None, [])
  | rec :: recipients =>
      let '(script, rec) := recipient_getSerializedScript rec in
      if equal scriptHash script then (Some 0%nat, rec :: recipients)
      else let '(found, recipients) := find_recipient scriptHash recipients in (option_map S found, rec :: recipients)
  end.

(** The value of an output that is found is added to, not its bytes. *)
Definition merge_recipient (recipient : ScriptRecipient) (s : Signer) : Signer :=
  let '(scriptHash, recipient) := recipient_getSerializedScript recipient in
  let '(found, recipients) := find_recipient scriptHash (recipients_ s) in
  match found ≫= (fun i => (i,.) <$> recipients !! i) with
  | None => addRecipient recipient (set_recipients recipients s)
  | Some (i, local) =>
      set_recipients (<[i := recipient_setValue (wrap 64 (rc_value local + rc_value recipient)) local]> recipients) s
  end.

Definition sg_deserializeState (data : list byte) : Sign () :=
  new_signer ← sg_lift (createFromState data);
  _ ← sg_modify (sg_setVersion (sg_version new_signer));
  _ ← sg_modify (sg_setLockTime (sg_lockTime new_signer));
  _ ← sg_modify (fun s => sg_setFlags (Z.lor (sg_flags s) (sg_flags new_signer)) s);
  _ ← sg_modify (fun s => set_isSegWit (isSegWit_ s || isSegWit_ new_signer) s);
  _ ← merge_spenders (spenders_ new_signer);
  sg_modify (fun s => foldl (fun s r => merge_recipient r s) s (recipients_ new_signer)).

(** The first spender of this output gets it, unless one has it. *)
Fixpoint populate_loop (utxo : UTXO) (spenders : list ScriptSpender) : list ScriptSpender * result () :=
  match spenders with
  | [] => ([], Err RuntimeError)
  | spender :: spenders =>
      let next spender := let '(spenders, r) := populate_loop utxo spenders in (spender :: spenders, r) in
      if sp_hasUTXO spender then
        if utxo_same (utxo_ spender) utxo then (spender :: spenders, Ok tt) else next spender
      else
        match sp_getOutpoint spender with
        | Err e => (spender :: spenders, Err e)
        | Ok (outpoint, spender) =>
            match
              '(hash, brr) ← brr_get_BinaryData 32 (brr_setNewData outpoint);
              if negb (equal hash (utxo_txHash utxo)) then Ok false
              else '(txoutid, _) ← brr_get_uint32_t LE brr; Ok (txoutid =? txOutIndex_ utxo)
            with
            | Err e => (spender :: spenders, Err e)
            | Ok true => (setUtxo utxo spender :: spenders, Ok tt)
            | Ok false => next spender
            end
        end
  end.

Definition populateUtxo (utxo : UTXO) : Sign () := fun s =>
  let '(spenders, r) := populate_loop utxo (spenders_ s) in (set_spenders spenders s, r).

(** ** The hash of the transaction *)

Section txid.
Context `{HashFns} `{BTC_SIGNER}.

(** [Tx tx(data); tx.getThisHash()] *)
Definition tx_hash (data : list byte) : result (list byte) :=
  tx ← t_unserialize data TxObj_new;
  '(hash, _) ← t_getThisHash tx;
  Ok hash.

(** A transaction that cannot be serialised is serialised without its
    witnesses. *)
Definition put_unsigned : Sign (list byte) :=
  version ← sg_get sg_version;
  let w := bw_put_uint32_t version LE bw_new in
  spenders ← sg_get spenders_;
  let w := (bw_put_var_int (zlen spenders) w).1 in
  inputs ← put_spenders getSerializedInput;
  let w := bw_put_BinaryData inputs w in
  recipients ← sg_get recipients_;
  let w := (bw_put_var_int (zlen recipients) w).1 in
  outputs ← put_outputs;
  let w := bw_put_BinaryData outputs w in
  lockTime ← sg_get sg_lockTime;
  mret (theString_ (bw_put_uint32_t lockTime LE w)).

Definition getTxId (depth : nat) : Sign (list byte) :=
  sg_catch (txdata ← sg_serialize; sg_lift (tx_hash txdata))
    (_ ← evaluateSpenderStatus depth; tx ← put_unsigned; mret (getHash256 tx)).
End txid.
