(* ===== verification/SignerState.v ===== *)
(** * SignerState: passing a transaction from signer to signer

    [Signer::serializeState] and [createFromState]: what a signer passes on is
    what the next one gets. *)

From S2P Require Import Prelude BinaryData BinaryIO Hashing StdMap BlockHeader TxLength BlockData ScriptParser StackItem Recipient.
From S2P Require Import SigHash TxEvalState Interpreter DerSig Resolver Verifier Spender SpenderProps Signer.

(** ** The bytes *)

(** A recipient that can be passed on: one with a known script that is not
    empty. *)
Definition recipient_passes (r : ScriptRecipient) : Prop :=
  recipient_ok r /\ (forall s, rc_kind r ≠ Recipient_Universal s) /\ rc_kind r ≠ Recipient_OPRETURN [].

Record signer_ok (s : Signer) : Prop := {
  sgo_version : is_uint 32 (sg_version s);
  sgo_lockTime : is_uint 32 (sg_lockTime s);
  sgo_flags : is_uint 32 (sg_flags s);
  sgo_spenders : Forall (fun sp => spender_ok sp /\ data_ok (state_bytes sp)) (spenders_ s);
  sgo_recipients : Forall recipient_passes (recipients_ s);
  sgo_counts : is_uint 64 (zlen (spenders_ s)) /\ is_uint 64 (zlen (recipients_ s));
}.

Definition output_bytes (r : ScriptRecipient) : list byte := int_to LE 8 (rc_value r) ++ var_bytes (recipient_script (rc_kind r)).

Definition sg_state_bytes (s : Signer) : list byte :=
  int_to LE 4 (sg_version s) ++ int_to LE 4 (sg_lockTime s) ++ int_to LE 4 (sg_flags s) ++ [z2b (if isSegWit_ s then 1 else 0)] ++
  var_int_bytes (zlen (spenders_ s)) ++ concat (map (fun sp => var_bytes (state_bytes sp)) (spenders_ s)) ++
  var_int_bytes (zlen (recipients_ s)) ++ concat (map (fun r => var_bytes (output_bytes r)) (recipients_ s)).

Lemma put_states_ok sps : forall w, Forall (fun sp => spender_ok sp /\ data_ok (state_bytes sp)) sps ->
  exists w', put_states sps w = Ok w' /\ theString_ w' = theString_ w ++ concat (map (fun sp => var_bytes (state_bytes sp)) sps).
Proof.
  induction sps as [|sp sps IH]; intros w Hs; [exists w; split; [done|by rewrite app_nil_r]|]. apply Forall_cons in Hs as [[Hsp Hd] Hs].
  cbn [put_states]. rewrite (sp_serializeState_bytes sp Hsp). cbn [mbind result_bind].
  destruct (IH (put_data (state_bytes sp) w) Hs) as (w' & -> & E). exists w'. split; [done|].
  rewrite E, put_data_str by done. cbn [map concat]. by rewrite <- app_assoc.
Qed.

Lemma recipient_first r : recipient_ok r -> exists r', recipient_getSerializedScript r = (output_bytes r, r').
Proof.
  intros Hr. pose proof (recipient_bytes r Hr) as E. unfold recipient_getSerializedScript. destruct Hr as (_ & -> & _).
  change (zlen [] =? 0) with true. cbv iota. rewrite E. by eexists.
Qed.

Lemma recipient_script_size r : recipient_passes r -> zlen (recipient_script (rc_kind r)) < 253.
Proof.
  intros (Hr & Hu & _). pose proof (recipient_kind_ok r Hr) as Hk. destruct (rc_kind r) as [h|h|h|h|m|s|s]; cbn [recipient_script];
    rewrite ?zlen_app, ?Hk; try done.
  - destruct Hk as [Hm _]. rewrite opreturn_message_bytes, zlen_app by done. pose proof (zlen_nonneg m).
    change (zlen (map z2b [106])) with 1.
    destruct (75 <? zlen m); [change (zlen (map z2b [76; zlen m])) with 2|destruct (0 <? zlen m);
      [change (zlen (map z2b [zlen m])) with 1|change (zlen (@nil byte)) with 0]]; lia.
  - by destruct (Hu s).
  - change (zlen (map z2b [0; zlen s])) with 2. lia.
Qed.

Lemma output_bytes_ok r : recipient_passes r -> data_ok (output_bytes r).
Proof.
  intros Hr. pose proof (recipient_script_size r Hr). pose proof (zlen_nonneg (recipient_script (rc_kind r))).
  unfold data_ok, output_bytes, var_bytes. rewrite !zlen_app, zlen_int_to, var_int_small by lia. change (zlen [_]) with 1. lia.
Qed.

Lemma put_recipients_ok rs : forall w, Forall recipient_passes rs -> exists w' rs', put_recipients rs w = (w', rs') /\
  theString_ w' = theString_ w ++ concat (map (fun r => var_bytes (output_bytes r)) rs).
Proof.
  induction rs as [|r rs IH]; intros w Hs; [exists w, []; split; [done|by rewrite app_nil_r]|]. apply Forall_cons in Hs as [Hr Hs].
  cbn [put_recipients]. destruct (recipient_first r (proj1 Hr)) as [r' ->].
  destruct (IH (put_data (output_bytes r) w) Hs) as (w' & rs' & -> & E). exists w', (r' :: rs'). split; [done|].
  rewrite E, put_data_str by by apply output_bytes_ok. cbn [map concat]. by rewrite <- app_assoc.
Qed.

Lemma sg_serializeState_bytes s : signer_ok s -> (sg_serializeState s).2 = Ok (sg_state_bytes s).
Proof.
  intros [Hv Hl Hf Hsp Hr [Hc1 Hc2]]. unfold sg_serializeState.
  match goal with |- context [put_states _ ?w] => destruct (put_states_ok (spenders_ s) w Hsp) as (w1 & -> & E1) end.
  destruct (put_recipients_ok (recipients_ s) (bw_put_var_int (zlen (recipients_ s)) w1).1 Hr) as (w2 & rs & -> & E2).
  cbn [snd]. rewrite E2, bw_put_var_int_str, E1, bw_put_var_int_str by done. autorewrite with bw. unfold sg_state_bytes.
  by rewrite <- !app_assoc.
Qed.

(** ** Reading it *)

Lemma concat_length {A} (f : A -> list byte) l : (forall x, (1 <= length (f x))%nat) -> (length l <= length (concat (map f l)))%nat.
Proof. intros Hf. induction l as [|x l IH]; [done|]. cbn [map concat length]. rewrite length_app. specialize (Hf x). lia. Qed.

Lemma var_bytes_pos d : (1 <= length (var_bytes d))%nat.
Proof. unfold var_bytes. rewrite length_app. pose proof (var_int_bytes_pos (zlen d)). lia. Qed.

Lemma read_spenders_parses sps : forall fuel, Forall (fun sp => spender_ok sp /\ data_ok (state_bytes sp)) sps -> (length sps < fuel)%nat ->
  parses (read_spenders fuel (zlen sps)) (concat (map (fun sp => var_bytes (state_bytes sp)) sps)) (map sp_exchanged sps).
Proof.
  induction sps as [|sp sps IH]; intros fuel Hs Hf; (destruct fuel as [|fuel]; [simpl in Hf; lia|]); cbn [read_spenders].
  - apply parses_ret.
  - apply Forall_cons in Hs as [[Hsp Hd] Hs]. rewrite zlen_cons. pose proof (zlen_nonneg sps).
    replace (0 <? 1 + zlen sps) with true by lia. cbn [map concat].
    eapply parses_bind; [by apply get_data_parses|]. rewrite sp_state_read by (done || (unfold data_ok, two64 in *; lia)).
    replace (1 + zlen sps - 1) with (zlen sps) by lia. eapply parses_bind_ret; [apply IH; [done|simpl in Hf; lia]|apply parses_ret].
Qed.

(** What the next signer reads: a bech32 output as the one of its program. *)
Definition recipient_exchanged (r : ScriptRecipient) : ScriptRecipient := mkRecipient (recipient_read (rc_kind r)) (rc_value r) [].

Lemma recipient_bytes_read r : recipient_passes r -> recipient_deserialize (output_bytes r) = Ok (recipient_exchanged r).
Proof.
  intros (Hr & Hu & Ho). pose proof (recipient_read_back r Hr Hu) as E. rewrite bool_decide_false in E by done.
  destruct (recipient_first r Hr) as [r' Er]. by rewrite Er in E.
Qed.

Lemma read_recipients_parses rs : forall fuel, Forall recipient_passes rs -> (length rs < fuel)%nat ->
  parses (read_recipients fuel (zlen rs)) (concat (map (fun r => var_bytes (output_bytes r)) rs)) (map recipient_exchanged rs).
Proof.
  induction rs as [|r rs IH]; intros fuel Hs Hf; (destruct fuel as [|fuel]; [simpl in Hf; lia|]); cbn [read_recipients].
  - apply parses_ret.
  - apply Forall_cons in Hs as [Hr Hs]. rewrite zlen_cons. pose proof (zlen_nonneg rs).
    replace (0 <? 1 + zlen rs) with true by lia. cbn [map concat].
    eapply parses_bind; [by apply get_data_parses, output_bytes_ok|]. eapply (parses_bind _ _ []); [by apply reader_of_parses, recipient_bytes_read|].
    replace (1 + zlen rs - 1) with (zlen rs) by lia. eapply parses_bind_ret; [apply IH; [done|simpl in Hf; lia]|apply parses_ret].
Qed.

Lemma records_fuel {A} (f : A -> list byte) l pre post : (forall x, (1 <= length (f x))%nat) ->
  (length l < parse_fuel (brr_at pre (concat (map f l) ++ post)))%nat.
Proof.
  intros Hf. unfold parse_fuel, brr_at. cbn [bdRef_]. rewrite !length_app. pose proof (concat_length f l Hf). lia.
Qed.

(** C23: the state that a signer passes on is the state the next one starts
    from: version, lock time, flags, every spender with what it has found of
    its scripts, and every output, but for feeds and caches. *)
Theorem signer_state_roundtrip s : signer_ok s -> zlen (sg_state_bytes s) < two64 ->
  exists data, (sg_serializeState s).2 = Ok data /\ createFromState data =
    Ok (mkSigner (sg_version s) (sg_lockTime s) (sg_flags s) [] [] (map sp_exchanged (spenders_ s)) (map recipient_exchanged (recipients_ s))
      None (isSegWit_ s) StubState_new None false 0).
Proof.
  intros Hok Hl. exists (sg_state_bytes s). split; [by apply sg_serializeState_bytes|].
  pose proof Hok as [Hv Hlt Hf Hsp Hr [Hc1 Hc2]].
  unfold createFromState. rewrite (parses_whole read_signer _ (mkSigner (sg_version s) (sg_lockTime s) (sg_flags s) [] []
    (map sp_exchanged (spenders_ s)) (map recipient_exchanged (recipients_ s)) None (isSegWit_ s) StubState_new None false 0)); [done| |done].
  unfold read_signer, sg_state_bytes. do 3 (eapply parses_bind; [by apply brr_get_uint32_t_parses|]).
  eapply parses_bind; [apply brr_get_uint8_t_parses; by destruct (isSegWit_ s)|].
  eapply parses_bind; [by apply brr_get_var_int_parses|]. eapply parses_bind.
  { intros pre post Hl'. unfold get_spenders. apply read_spenders_parses; [done|apply records_fuel; intros; apply var_bytes_pos|done]. }
  eapply parses_bind; [by apply brr_get_var_int_parses|]. eapply parses_bind_ret.
  { intros pre post Hl'. unfold get_recipients. apply read_recipients_parses; [done|apply records_fuel; intros; apply var_bytes_pos|done]. }
  assert (negb ((if isSegWit_ s then 1 else 0) =? 0) = isSegWit_ s) as -> by by destruct (isSegWit_ s). apply parses_ret.
Qed.

(** *** Witness: one spender that has signed in part and one that has not *)

Definition toy_passed : Signer :=
  addRecipient (mkRecipient (Recipient_Bech32 (replicate 20 (z2b 3))) 9000 [])
    (addSpender (ScriptSpender_new (replicate 32 (z2b 8)) 7 6000) (addSpender (toy_partial 1) (Signer_new false))).

Lemma toy_passed_ok : signer_ok toy_passed.
Proof.
  split; try done; cbn [toy_passed spenders_ recipients_ addRecipient addSpender set_recipients set_spenders app Signer_new].
  - constructor; [|constructor; [|constructor]].
    + split; [apply toy_partial_ok; by right|vm_compute; reflexivity].
    + split; [|vm_compute; reflexivity]. split; cbn; try done; [by left|by left|right; by vm_compute].
  - constructor; [|constructor]. split; [by repeat split|]. split; [done|done].
Qed.

Lemma signer_state_roundtrip_witness : exists data, (sg_serializeState toy_passed).2 = Ok data /\
  exists s', createFromState data = Ok s' /\ length (spenders_ s') = 2%nat.
Proof.
  destruct (signer_state_roundtrip toy_passed toy_passed_ok ltac:(vm_compute; reflexivity)) as (data & E1 & E2).
  exists data. split; [exact E1|]. eexists. split; [exact E2|reflexivity].
Defined.
