(* ===== verification/SignerProps.v ===== *)
(** * SignerProps: signing a transaction and verifying it

    [Signer::sign] on inputs that spend outputs for the hash of a key, or for
    the hash of a witness program for one: the transaction that it serialises
    is the one that was asked for, and [Signer::verify] accepts it. *)

From S2P Require Import Prelude BinaryData BinaryIO Hashing StdMap DBUtils BlockHeader TxLength TxFilter BlockData BlockDataProps.
From S2P Require Import ScriptParser ScriptParserProps StackItem Recipient SigHash TxEvalState Interpreter InterpreterFrame DerSig.
From S2P Require Import Resolver Verifier ScriptUtils SigHashProps InterpreterProps MultisigProps WitnessProps ResolverProps.
From S2P Require Import VerifierProps VerifierCorrect Spender Signer.

(** ** The transaction that is asked for *)

Definition outpoint_of (sp : ScriptSpender) : list byte := utxo_txHash (utxo_ sp) ++ int_to LE 4 (txOutIndex_ (utxo_ sp)).
Definition unsigned_in (sp : ScriptSpender) : TxIn := mkTxIn (outpoint_of sp) [] (int_to LE 4 (sp_sequence sp)).
Definition recipient_out (r : ScriptRecipient) : TxOut := mkTxOut (int_to LE 8 (rc_value r)) (recipient_script (rc_kind r)).

(** The transaction without scripts and witnesses. *)
Definition sg_tx (s : Signer) : Tx :=
  mkTx (int_to LE 4 (sg_version s)) (map unsigned_in (spenders_ s)) (map recipient_out (recipients_ s)) None
    (int_to LE 4 (sg_lockTime s)).

Definition spender_value (s : Signer) (n : nat) : option Z := (fun sp => value_ (utxo_ sp)) <$> (spenders_ s !! n).

Lemma le_val_u32 v : is_uint 32 v -> le_val (int_to LE 4 v) = v.
Proof. apply (int_of_to_small LE 4 v 32); done. Qed.

(** ** What does not change while inputs are signed *)

(** A spender of the same input as [sp0], whose outpoint may have been asked
    for. *)
Record same_input (sp0 sp : ScriptSpender) : Prop := {
  si_utxo : utxo_ sp = utxo_ sp0;
  si_value : sp_value sp = sp_value sp0;
  si_sequence : sp_sequence sp = sp_sequence sp0;
  si_outpoint : outpoint_ sp = [] \/ outpoint_ sp = outpoint_of sp0;
  si_type : sigHashType_ sp = sigHashType_ sp0;
  si_BCH : sp_BCH sp = sp_BCH sp0;
}.

Record same_recipient (r0 r : ScriptRecipient) : Prop := {
  sr_kind : rc_kind r = rc_kind r0;
  sr_value : rc_value r = rc_value r0;
  sr_script' : rc_script r = [] \/ rc_script r = recipient_serialize (rc_kind r0) (rc_value r0);
}.

(** An input that can be signed. *)
Record input_ready (sp : ScriptSpender) : Prop := {
  ir_init : 0 < zlen (script_ (utxo_ sp));
  ir_hash : zlen (utxo_txHash (utxo_ sp)) = 32;
  ir_index : is_uint 32 (txOutIndex_ (utxo_ sp));
  ir_value : sp_value sp = value_ (utxo_ sp);
  ir_sequence : is_uint 32 (sp_sequence sp);
  ir_type : sigHashType_ sp = SIGHASH_ALL;
  ir_BCH : sp_BCH sp = false;
}.

Section base.
Context `{HashFns}.
Variable s0 : Signer.
Let tx : Tx := sg_tx s0.
Hypothesis (Hready : Forall input_ready (spenders_ s0)).
Hypothesis (Hrec : Forall recipient_ok (recipients_ s0)).
Hypothesis (Hver : is_uint 32 (sg_version s0)).
Hypothesis (Hlock : is_uint 32 (sg_lockTime s0)).

Record base (s : Signer) : Prop := {
  bs_version : sg_version s = sg_version s0;
  bs_lockTime : sg_lockTime s = sg_lockTime s0;
  bs_flags : sg_flags s = sg_flags s0;
  bs_tx : serializedTx_ s = [];
  bs_outputs : serializedOutputs_ s = [] \/ serializedOutputs_ s = all_outputs tx;
  bs_spenders : Forall2 same_input (spenders_ s0) (spenders_ s);
  bs_recipients : Forall2 same_recipient (recipients_ s0) (recipients_ s);
  bs_resolver : resolverPtr_ s = resolverPtr_ s0;
  bs_BCH : sg_BCH s = false;
  bs_separators : lastCodeSeparatorMap_ (sg_stub s) = [];
  bs_object id : sg_sigHash s = Some id ->
    exists o, segwit_objs (sg_stub s) !! id = Some o /\ (o = SegWit_new 1 \/ o = pre_state tx 1);
}.

Lemma same_out r0 r : recipient_ok r0 -> same_recipient r0 r ->
  exists r', recipient_getSerializedScript r = (enc_txout (recipient_out r0), r') /\ same_recipient r0 r'.
Proof.
  intros Hok [Hk Hv Hs]. pose proof (recipient_bytes r0 Hok) as E.
  assert (zlen (enc_txout (recipient_out r0)) ≠ 0) as Hz.
  { unfold enc_txout. cbn [recipient_out txout_value]. rewrite zlen_app, zlen_int_to.
    match goal with |- context [zlen ?l] => pose proof (zlen_nonneg l) end. lia. }
  assert (recipient_serialize (rc_kind r0) (rc_value r0) = enc_txout (recipient_out r0)) as E' by exact E.
  unfold recipient_getSerializedScript. destruct Hs as [Hs|Hs]; rewrite Hs, ?E'.
  - change (zlen [] =? 0) with true. cbv iota. rewrite Hk, Hv, E'. eexists. split; [reflexivity|]. split; try done. right. by rewrite E'.
  - rewrite (proj2 (Z.eqb_neq _ _) Hz). eexists. split; [reflexivity|]. split; try done. right. by rewrite E'.
Qed.

Lemma recipients_bytes_run rs0 rs : Forall recipient_ok rs0 -> Forall2 same_recipient rs0 rs ->
  exists rs', recipients_bytes rs = (concat (map enc_txout (map recipient_out rs0)), rs') /\ Forall2 same_recipient rs0 rs'.
Proof.
  intros Hok Hs. induction Hs as [|r0 r rs0 rs Hr _ IH]; [by exists []|]. apply Forall_cons in Hok as [Hok0 Hok].
  destruct (IH Hok) as (rs' & E & Hs'). destruct (same_out r0 r Hok0 Hr) as (r' & Er & Hr').
  exists (r' :: rs'). cbn [recipients_bytes]. rewrite Er, E. split; [done|]. by constructor.
Qed.
(** *** The stub *)

Definition touch (sp0 sp : ScriptSpender) : ScriptSpender := set_outpoint (outpoint_of sp0) sp.

Lemma zlen_outpoint_of sp0 : input_ready sp0 -> zlen (outpoint_of sp0) = 36.
Proof. intros Hr. unfold outpoint_of. rewrite zlen_app, zlen_int_to, (ir_hash _ Hr). done. Qed.

Lemma same_touch sp0 sp : same_input sp0 sp -> same_input sp0 (touch sp0 sp).
Proof. intros [? ? ? ? ? ?]. split; try done. by right. Qed.

Lemma touch_cached sp0 sp : outpoint_ sp = outpoint_of sp0 -> touch sp0 sp = sp.
Proof. destruct sp. cbn. intros ->. done. Qed.

Section input.
Variables (sp0 sp : ScriptSpender).
Hypotheses (Hr : input_ready sp0) (Hs : same_input sp0 sp).

Lemma utxo_init : utxo_isInitialized (utxo_ sp) = true.
Proof using Hr Hs. unfold utxo_isInitialized. rewrite (si_utxo _ _ Hs). apply Z.ltb_lt, (ir_init _ Hr). Qed.

Lemma getOutputHash_ok : getOutputHash sp = Ok (utxo_txHash (utxo_ sp0)).
Proof using Hr Hs. unfold getOutputHash. by rewrite utxo_init, (si_utxo _ _ Hs). Qed.

Lemma getOutputIndex_ok : getOutputIndex sp = Ok (txOutIndex_ (utxo_ sp0)).
Proof using Hr Hs. unfold getOutputIndex. by rewrite utxo_init, (si_utxo _ _ Hs). Qed.

Lemma sp_getOutpoint_ok : sp_getOutpoint sp = Ok (outpoint_of sp0, touch sp0 sp).
Proof using Hr Hs.
  unfold sp_getOutpoint. destruct (si_outpoint _ _ Hs) as [E|E]; rewrite E.
  - change (zlen [] =? 0) with true. cbv iota. rewrite getOutputHash_ok, getOutputIndex_ok. cbn [mbind result_bind].
    autorewrite with bw. done.
  - rewrite (zlen_outpoint_of _ Hr). change (36 =? 0) with false. cbv iota. by rewrite touch_cached.
Qed.

Lemma txin_data_unsigned : txin_data (unsigned_in sp0) = mkTxInData (utxo_txHash (utxo_ sp0)) (txOutIndex_ (utxo_ sp0)) (sp_sequence sp0).
Proof using Hr.
  destruct Hr as [_ Hh Hi _ Hq _ _]. unfold txin_data, outpoint_hash, outpoint_index. cbn [unsigned_in txin_outpoint txin_sequence].
  unfold outpoint_of. rewrite take_app_length', drop_app_length' by (unfold zlen in Hh; lia).
  by rewrite !le_val_u32.
Qed.

Lemma unsigned_in_ok : txin_ok (unsigned_in sp0).
Proof using Hr. split; [by apply zlen_outpoint_of|]. split; [apply zlen_int_to|done]. Qed.
End input.

Lemma each_outpoint sps0 sps : Forall input_ready sps0 -> Forall2 same_input sps0 sps ->
  each_spender sp_getOutpoint sps = (zip_with touch sps0 sps, Ok (concat (map txin_outpoint (map unsigned_in sps0)))).
Proof.
  intros Hr Hs. induction Hs as [|sp0 sp sps0 sps Hsp _ IH]; [done|]. apply Forall_cons in Hr as [Hr0 Hr].
  cbn [each_spender]. rewrite (sp_getOutpoint_ok sp0 sp Hr0 Hsp), (IH Hr). done.
Qed.

Lemma spenders_data_ok sps0 sps : Forall input_ready sps0 -> Forall2 same_input sps0 sps ->
  spenders_data sps = Ok (map txin_data (map unsigned_in sps0)).
Proof.
  intros Hr Hs. induction Hs as [|sp0 sp sps0 sps Hsp _ IH]; [done|]. apply Forall_cons in Hr as [Hr0 Hr].
  cbn [spenders_data map]. rewrite (getOutputHash_ok sp0 sp Hr0 Hsp), (getOutputIndex_ok sp0 sp Hr0 Hsp), (IH Hr).
  cbn [mbind result_bind]. by rewrite (txin_data_unsigned sp0 Hr0), (si_sequence _ _ Hsp).
Qed.

Lemma sequences_ok sps0 sps : Forall2 same_input sps0 sps -> forall w,
  theString_ (foldl (fun w spender => bw_put_uint32_t (sp_sequence spender) LE w) w sps) =
  theString_ w ++ concat (map txin_sequence (map unsigned_in sps0)).
Proof.
  induction 1 as [|sp0 sp sps0 sps Hsp _ IH]; intros w; cbn [foldl map concat]; [by rewrite app_nil_r|].
  rewrite IH. autorewrite with bw. cbn [unsigned_in txin_sequence]. by rewrite (si_sequence _ _ Hsp), <- app_assoc.
Qed.

(** What the caches may change. *)
Record touched (s s' : Signer) : Prop := {
  th_segwit : isSegWit_ s' = isSegWit_ s;
  th_draws : sg_draws s' = sg_draws s;
  th_sigHash : sg_sigHash s' = sg_sigHash s;
  th_spenders i sp0 sp : spenders_ s0 !! i = Some sp0 -> spenders_ s !! i = Some sp ->
    spenders_ s' !! i = Some sp \/ spenders_ s' !! i = Some (touch sp0 sp);
}.

Lemma touched_refl s : touched s s.
Proof. split; try done. intros i sp0 sp _ Hs. by left. Qed.

Lemma touched_trans s1 s2 s3 : touched s1 s2 -> touched s2 s3 -> touched s1 s3.
Proof.
  intros [H1 H2 H3 H4] [K1 K2 K3 K4]. split; try congruence. intros i sp0 sp Hi0 Hi.
  destruct (H4 i sp0 sp Hi0 Hi) as [E|E].
  - by apply K4.
  - destruct (K4 i sp0 _ Hi0 E) as [E'|E']; right; by rewrite E'.
Qed.

Lemma sg_outputs_run s : base s -> exists s', sg_getSerializedOutputScripts s = (s', Ok (all_outputs tx)) /\
  base s' /\ touched s s' /\ sg_stub s' = sg_stub s.
Proof using Hrec.
  intros Hb. destruct (recipients_bytes_run _ _ Hrec (bs_recipients s Hb)) as (rs & E & Hrs).
  assert (exists s', (scripts ← put_outputs; _ ← sg_modify (set_serializedOutputs scripts); mret scripts) s =
    (s', Ok (all_outputs tx)) /\ base s' /\ touched s s' /\ sg_stub s' = sg_stub s) as Hput.
  { unfold put_outputs, mbind, sign_bind. rewrite E. eexists. split; [reflexivity|]. split; [|split; [|done]].
    - destruct Hb. split; try done. by right.
    - split; try done. intros i sp0 sp _ Hs. by left. }
  unfold sg_getSerializedOutputScripts, mbind at 1, sign_bind at 1. cbn [sg_get].
  destruct (bs_outputs s Hb) as [Eo|Eo]; rewrite Eo; [exact Hput|].
  destruct (zlen (all_outputs tx) =? 0); [exact Hput|]. exists s. split; [done|]. split; [done|]. split; [apply touched_refl|done].
Qed.

Lemma base_spender s n sp0 : base s -> spenders_ s0 !! n = Some sp0 -> exists sp, spenders_ s !! n = Some sp /\ same_input sp0 sp.
Proof. intros Hb H0. by apply (Forall2_lookup_l _ _ _ _ _ (bs_spenders s Hb)). Qed.

Lemma spender_at_ok s n sp : spenders_ s !! n = Some sp -> spender_at (Z.of_nat n) s = Ok sp.
Proof. intros E. unfold spender_at, znth. rewrite decide_True by lia. by rewrite Nat2Z.id, E. Qed.

Lemma signer_StubOf s : base s -> @StubOf (signer_stub s) tx (spender_value s0).
Proof using Hready Hrec Hver Hlock.
  intros Hb. split.
  - intros _. cbn [getSerializedOutputScripts signer_stub]. destruct (sg_outputs_run s Hb) as (s' & -> & _). done.
  - cbn [getTxInsData signer_stub]. by apply spenders_data_ok, bs_spenders.
  - cbn [getTxOutCount signer_stub tx sg_tx tx_outs]. unfold zlen. rewrite length_map.
    by rewrite (Forall2_length _ _ _ (bs_recipients s Hb)).
  - cbn [getVersion signer_stub tx sg_tx tx_version]. by rewrite le_val_u32, (bs_version s Hb).
  - cbn [getLockTime signer_stub tx sg_tx tx_locktime]. by rewrite le_val_u32, (bs_lockTime s Hb).
  - cbn [serializeAllOutpoints signer_stub]. unfold sg_serializeAllOutpoints, put_spenders.
    by rewrite (each_outpoint (spenders_ s0) (spenders_ s) Hready (bs_spenders s Hb)).
  - cbn [serializeAllSequences signer_stub]. unfold sg_serializeAllSequences. by rewrite (sequences_ok _ _ (bs_spenders s Hb)).
  - intros n i Hi. cbn [getOutpoint signer_stub]. cbn [tx sg_tx tx_ins] in Hi. rewrite list_lookup_fmap in Hi.
    destruct (spenders_ s0 !! n) as [sp0|] eqn:H0; [|done]. injection Hi as <-.
    destruct (base_spender s n sp0 Hb H0) as (sp & Hsp & Hsame). unfold sg_getOutpoint. rewrite (spender_at_ok s n sp Hsp).
    cbn [mbind result_bind]. by rewrite (sp_getOutpoint_ok sp0 sp (Forall_lookup_1 _ _ _ _ Hready H0) Hsame).
  - intros n v Hv. cbn [getOutpointValue signer_stub]. unfold spender_value in Hv.
    destruct (spenders_ s0 !! n) as [sp0|] eqn:H0; [|done]. injection Hv as <-.
    destruct (base_spender s n sp0 Hb H0) as (sp & Hsp & Hsame). rewrite (spender_at_ok s n sp Hsp). cbn [mbind result_bind].
    by rewrite (si_value _ _ Hsame), (ir_value _ (Forall_lookup_1 _ _ _ _ Hready H0)).
  - intros n i Hi. cbn [getTxInSequence signer_stub]. cbn [tx sg_tx tx_ins] in Hi. rewrite list_lookup_fmap in Hi.
    destruct (spenders_ s0 !! n) as [sp0|] eqn:H0; [|done]. injection Hi as <-.
    destruct (base_spender s n sp0 Hb H0) as (sp & Hsp & Hsame). rewrite (spender_at_ok s n sp Hsp). cbn [mbind result_bind].
    rewrite (si_sequence _ _ Hsame). cbn [unsigned_in txin_sequence].
    by rewrite le_val_u32 by apply (ir_sequence _ (Forall_lookup_1 _ _ _ _ Hready H0)).
Qed.
(** *** The data of a signature *)

Lemma base_set_spenders s sps : base s -> Forall2 same_input (spenders_ s0) sps -> base (set_spenders sps s).
Proof. intros [? ? ? ? ? ? ? ? ? ? ?] Hs. by split. Qed.

Lemma base_set_stub s stub : base s -> lastCodeSeparatorMap_ stub = [] ->
  (forall id, sg_sigHash s = Some id -> exists o, segwit_objs stub !! id = Some o /\ (o = SegWit_new 1 \/ o = pre_state tx 1)) ->
  base (set_stub stub s).
Proof. intros [? ? ? ? ? ? ? ? ? ? ?] Hm Ho. by split. Qed.

Lemma touched_set_stub s s' stub : touched s s' -> touched s (set_stub stub s').
Proof. intros [? ? ? ?]. by split. Qed.

Lemma outpoints_run s : base s -> exists s', sg_serializeAllOutpoints s = (s', Ok (all_outpoints tx)) /\
  base s' /\ touched s s' /\ sg_stub s' = sg_stub s.
Proof using Hready.
  intros Hb. unfold sg_serializeAllOutpoints, put_spenders.
  rewrite (each_outpoint (spenders_ s0) (spenders_ s) Hready (bs_spenders s Hb)). eexists. split; [reflexivity|]. split; [|split; [|done]].
  - apply base_set_spenders; [done|]. apply Forall2_same_length_lookup_2.
    + rewrite length_zip_with, <- (Forall2_length _ _ _ (bs_spenders s Hb)). lia.
    + intros i sp0 sp' H0 H1. apply lookup_zip_with_Some in H1 as (sp1 & sp & -> & H1 & H2). rewrite H0 in H1. injection H1 as <-.
      apply same_touch. by apply (Forall2_lookup_lr _ _ _ _ _ _ (bs_spenders s Hb) H0 H2).
  - split; try done. intros i sp0 sp H0 Hi. right. cbn [spenders_ set_spenders]. by rewrite lookup_zip_with, H0, Hi.
Qed.

Lemma outpoint_run s n sp0 : base s -> spenders_ s0 !! n = Some sp0 ->
  exists s', sg_getOutpoint (Z.of_nat n) s = (s', Ok (outpoint_of sp0)) /\ base s' /\ touched s s' /\ sg_stub s' = sg_stub s.
Proof using Hready.
  intros Hb H0. destruct (base_spender s n sp0 Hb H0) as (sp & Hsp & Hsame). unfold sg_getOutpoint. rewrite (spender_at_ok s n sp Hsp).
  cbn [mbind result_bind]. rewrite (sp_getOutpoint_ok sp0 sp (Forall_lookup_1 _ _ _ _ Hready H0) Hsame). rewrite Nat2Z.id.
  eexists. split; [reflexivity|]. split; [|split; [|done]].
  - apply base_set_spenders; [done|]. rewrite <- (list_insert_id (spenders_ s0) n sp0 H0). apply Forall2_insert; [apply Hb|by apply same_touch].
  - split; try done. intros i sp1 sp' H1 Hi. cbn [spenders_ set_spenders]. destruct (decide (i = n)) as [->|Hne].
    + rewrite list_lookup_insert_eq by by eapply lookup_lt_Some. rewrite H0 in H1. injection H1 as <-.
      rewrite Hsp in Hi. injection Hi as <-. by right.
    + rewrite list_lookup_insert_ne by done. by left.
Qed.

(** A script without code separators. *)
Record plain_code (code : list byte) (its : list item) : Prop := {
  pc_bytes : code = enc_items its;
  pc_items : Forall item_ok its;
  pc_separators : existsb is_sep its = false;
  pc_size : zlen code < 2 ^ 32;
}.

Hypothesis (Htx : tx_ok tx).
Hypothesis (Houts : tx_outs tx ≠ []).

Lemma no_offset s n : base s -> getLastCodeSeparatorOffset (Z.of_nat n) (sg_stub s) = 0.
Proof. intros Hb. unfold getLastCodeSeparatorOffset. by rewrite (bs_separators s Hb). Qed.

Lemma data_legacy s n code its : base s -> plain_code code its ->
  exists s', data_to_sign SigHashDataLegacy SIGHASH_ALL code (Z.of_nat n) s =
    (s', Ok (enc_tx (signing_tx tx n code) ++ int_to LE 4 1)) /\ base s' /\ touched s s'.
Proof using All.
  intros Hb [-> Hits Hsep Hsz]. destruct (sg_outputs_run s Hb) as (s' & Eo & Hb' & Ht & Hst).
  pose proof (signer_StubOf s Hb) as Hstub. pose proof (no_offset s n Hb) as Hoff.
  pose proof (@legacy_data_of tx (spender_value s0) Htx (signer_stub s) Hstub [] its n (sg_stub s) Houts Hits
    ltac:(cbn [app]; lia) Hoff) as E.
  destruct (pieces_no_sep its Hsep) as [_ Esc]. rewrite Esc in E. cbn [app] in E.
  destruct (script_code_ok [] (enc_items its) (Z.of_nat n) (sg_stub s)) as [Ec _]; [exact Hoff|cbn [app]; unfold two64; lia|]. cbn [app] in Ec.
  unfold data_to_sign, getDataForSigHash. change (negb (SIGHASH_ALL =? SIGHASH_ALL)) with false. change (SIGHASH_ALL =? SIGHASH_ALL) with true.
  cbv iota. rewrite E. cbn [mbind result_bind].
  assert ((sigHash_calls SigHashDataLegacy (enc_items its) (Z.of_nat n) s).1 = s') as ->.
  { unfold sigHash_calls, mbind, sign_bind, sg_get, sg_lift. rewrite Ec.
    pose proof (signed_script its Hits ltac:(unfold two64; lia)) as Hsig.
    destruct (tokenize (enc_items its) OP_CODESEPARATOR_value); [|done]. by rewrite Eo. }
  exists (set_stub (sg_stub s) s'). split; [done|]. split; [|by apply touched_set_stub].
  apply base_set_stub; [done|by apply bs_separators|]. intros id Hid. rewrite (th_sigHash _ _ Ht) in Hid. by apply (bs_object s Hb).
Qed.

Lemma data_segwit s n sp0 code id : base s -> spenders_ s0 !! n = Some sp0 -> zlen code < 2 ^ 32 -> sg_sigHash s = Some id ->
  exists s', data_to_sign (SegWitAt id) SIGHASH_ALL code (Z.of_nat n) s =
    (s', Ok (bip143 tx (unsigned_in sp0) code (value_ (utxo_ sp0)) 1)) /\ base s' /\ touched s s'.
Proof using All.
  intros Hb H0 Hsz Hid. destruct (bs_object s Hb id Hid) as (o & Ho & Hro).
  pose proof (signer_StubOf s Hb) as Hstub. pose proof (no_offset s n Hb) as Hoff.
  assert (tx_ins tx !! n = Some (unsigned_in sp0)) as Hi by (cbn [tx sg_tx tx_ins]; by rewrite list_lookup_fmap, H0).
  assert (spender_value s0 n = Some (value_ (utxo_ sp0))) as Hv by (unfold spender_value; by rewrite H0).
  pose proof (@segwit_data_of _ tx (spender_value s0) Htx (signer_stub s) Hstub [] code n _ _ (sg_stub s) 1 o Houts Hi Hv
    ltac:(cbn [app]; unfold two64; lia) Hoff Hro) as E. cbn [app] in E.
  destruct (script_code_ok [] code (Z.of_nat n) (sg_stub s)) as [Ec _]; [exact Hoff|cbn [app]; unfold two64; lia|]. cbn [app] in Ec.
  unfold data_to_sign, getDataForSigHash. change (negb (SIGHASH_ALL =? SIGHASH_ALL)) with false. change (SIGHASH_ALL =? SIGHASH_ALL) with true.
  cbv iota. rewrite Ho, E. cbn [mbind result_bind].
  assert (exists s', (sigHash_calls (SegWitAt id) code (Z.of_nat n) s).1 = s' /\ base s' /\ touched s s') as (s' & -> & Hb' & Ht).
  { unfold sigHash_calls, mbind, sign_bind, sg_get, sg_lift. rewrite Ec, Ho. destruct (initialized_ o).
    - destruct (outpoint_run s n sp0 Hb H0) as (s1 & E1 & Hb1 & Ht1 & _). cbn [mret sign_ret]. rewrite E1. by exists s1.
    - destruct (outpoints_run s Hb) as (s1 & E1 & Hb1 & Ht1 & _). rewrite E1.
      destruct (sg_outputs_run s1 Hb1) as (s2 & E2 & Hb2 & Ht2 & _). rewrite E2.
      destruct (outpoint_run s2 n sp0 Hb2 H0) as (s3 & E3 & Hb3 & Ht3 & _). rewrite E3. exists s3. split; [done|]. split; [done|].
      eapply touched_trans; [exact Ht1|]. by eapply touched_trans. }
  eexists. split; [reflexivity|]. split; [|by apply touched_set_stub].
  apply base_set_stub; [done|by apply (bs_separators s Hb)|]. intros id' Hid'. rewrite (th_sigHash _ _ Ht), Hid in Hid'. injection Hid' as <-.
  exists (pre_state tx 1). split; [|by right]. cbn [segwit_objs]. apply list_lookup_insert_eq. by eapply lookup_lt_Some.
Qed.
End base.

(** ** Keys *)

(** The key of an input, whether the output is for the hash of the key's
    witness program, and the feed that knows the key. *)
Record InputKey := mkInputKey { ik_nested : bool; ik_pub : list byte; ik_priv : list byte; ik_feed : ResolverFeed }.

Section keys.
Context `{HashFns} `{CryptoECDSA} `{BTC_SIGNER}.

Definition ik_hash (k : InputKey) : list byte := getHash160 (ik_pub k).
Definition ik_program (k : InputKey) : list byte := p2wpkh_script (ik_hash k).
Definition ik_output (k : InputKey) : list byte :=
  if ik_nested k then p2sh_script (getHash160 (ik_program k)) else p2pkh_script (ik_hash k).

(** What the library makes with the private key verifies with the public one. *)
Record key_signs (k : InputKey) : Prop := {
  ks_size : 1 <= zlen (ik_pub k) <= 75;
  ks_valid : Validate (DecodePoint (ik_pub k)) = true;
  ks_sign digest n : exists rs, signer_sign (ik_priv k) digest n = Ok rs /\ zlen rs = 64 /\ low_s (be_val (drop 32 rs)) ≠ 0 /\
    VerifyMessage (DecodePoint (ik_pub k)) digest (low_rs rs) = true;
  ks_pub : @getByVal (ik_feed k) (ik_hash k) = Ok (ik_pub k);
  ks_program : ik_nested k = true -> @getByVal (ik_feed k) (getHash160 (ik_program k)) = Ok (ik_program k);
  ks_priv : @getPrivKeyForPubkey (ik_feed k) (ik_pub k) = Ok (ik_priv k);
}.

Definition make_sig (k : InputKey) (data : list byte) (n : nat) : list byte :=
  match signer_sign (ik_priv k) (getSha256 data) n with
  | Ok rs => match rsToDerSig rs with Ok der => der ++ [z2b 1] | Err _ => [] end
  | Err _ => []
  end.

Lemma make_sig_ok k data n : key_signs k -> exists rs der, signer_sign (ik_priv k) (getSha256 data) n = Ok rs /\
  rsToDerSig rs = Ok der /\ make_sig k data n = der ++ [z2b 1] /\ 8 <= zlen (make_sig k data n) <= 73 /\
  p2pkh_verdict data (ik_hash k) (make_sig k data n) (ik_pub k) = Ok true.
Proof.
  intros Hk. destruct (ks_sign k Hk (getSha256 data) n) as (rs & Es & Hz & Hlow & Hv).
  pose proof (der_form rs Hz) as Hd. rewrite (proj2 (Z.eqb_neq _ _) Hlow) in Hd. destruct Hd as (der & Ed & Ex & Hdz).
  exists rs, der. split; [done|]. split; [done|].
  assert (make_sig k data n = der ++ [z2b 1]) as -> by (unfold make_sig; by rewrite Es, Ed).
  split; [done|]. split; [rewrite zlen_app; change (zlen [z2b 1]) with 1; lia|].
  unfold p2pkh_verdict. assert (equal (ik_hash k) (getHash160 (ik_pub k)) = true) as -> by (rewrite equal_spec; by apply bool_decide_eq_true).
  cbn [negb]. destruct (_ <? 65); [done|]. unfold p2pkh_sig. rewrite last_snoc.
  change (negb (b2z (z2b 1) =? SIGHASH_ALL)) with false. cbv iota. rewrite length_app, Nat.add_sub, take_app_length, Ex.
  cbn [mbind result_bind]. unfold VerifyData. by rewrite Hv.
Qed.

(** ** Signing an input *)

Variable s0 : Signer.
Let tx : Tx := sg_tx s0.
Hypothesis (Hready : Forall input_ready (spenders_ s0)).
Hypothesis (Hrec : Forall recipient_ok (recipients_ s0)).
Hypothesis (Hver : is_uint 32 (sg_version s0)).
Hypothesis (Hlock : is_uint 32 (sg_lockTime s0)).
Hypothesis (Htx : tx_ok tx).
Hypothesis (Houts : tx_outs tx ≠ []).

(** What the signature of input [n] covers. *)
Definition data_of_input (n : nat) (sp0 : ScriptSpender) (k : InputKey) : list byte :=
  if ik_nested k then bip143 tx (unsigned_in sp0) (p2pkh_script (ik_hash k)) (value_ (utxo_ sp0)) 1
  else enc_tx (signing_tx tx n (p2pkh_script (ik_hash k))) ++ int_to LE 4 1.

Definition sig_of_input (n : nat) (sp0 : ScriptSpender) (k : InputKey) : list byte :=
  make_sig k (data_of_input n sp0 k) (sg_draws s0 + n).

Definition spenders_touched (s s' : Signer) : Prop := forall i sp0 sp,
  spenders_ s0 !! i = Some sp0 -> spenders_ s !! i = Some sp -> spenders_ s' !! i = Some sp \/ spenders_ s' !! i = Some (touch sp0 sp).

Lemma key_code k : plain_code (p2pkh_script (ik_hash k)) [IOp 118; IOp 169; IPush (ik_hash k); IOp 136; IOp 172].
Proof.
  assert (zlen (ik_hash k) = 20) as Hh by apply zlen_getHash160. split.
  - by apply p2pkh_items.
  - by apply p2pkh_ok.
  - done.
  - unfold p2pkh_script. by rewrite !zlen_app, Hh.
Qed.

(** The object of the segregated-witness inputs. *)
Lemma shared_run s : base s0 s -> exists s' id, shared_sigHash 1 s = (s', Ok (SegWitAt id)) /\ base s0 s' /\ sg_sigHash s' = Some id /\
  isSegWit_ s' = isSegWit_ s /\ sg_draws s' = sg_draws s /\ spenders_ s' = spenders_ s.
Proof.
  intros Hb. unfold shared_sigHash, mbind, sign_bind, sg_get. destruct (sg_sigHash s) as [id|] eqn:E.
  - exists s, id. done.
  - cbn [new_segwit sg_modify mret sign_ret]. eexists _, _. split; [reflexivity|]. split; [|done].
    destruct Hb as [? ? ? ? ? ? ? ? ? ? ?]. split; try done. cbn. intros id [=<-]. exists (SegWit_new 1). split; [|by left].
    by rewrite lookup_app_r, Nat.sub_diag by done.
Qed.

Lemma lambda_ok s n sp0 k : base s0 s -> spenders_ s0 !! n = Some sp0 -> key_signs k -> sg_draws s = (sg_draws s0 + n)%nat ->
  exists s', signerLambda (ik_feed k) (Z.of_nat n) (p2pkh_script (ik_hash k)) (ik_pub k) (ik_nested k) s =
    (s', Ok (sig_of_input n sp0 k)) /\ base s0 s' /\ spenders_touched s s' /\
    isSegWit_ s' = isSegWit_ s || ik_nested k /\ sg_draws s' = S (sg_draws s).
Proof using All.
  intros Hb Hi0 Hk Hd. set (code := p2pkh_script (ik_hash k)). pose proof (key_code k) as Hcode. fold code in Hcode.
  assert (exists s1 shd, getSigHashDataForSpender (ik_nested k) s = (s1, Ok shd) /\ base s0 s1 /\ spenders_ s1 = spenders_ s /\
    isSegWit_ s1 = isSegWit_ s || ik_nested k /\ sg_draws s1 = sg_draws s /\
    exists s2, data_to_sign shd SIGHASH_ALL code (Z.of_nat n) s1 = (s2, Ok (data_of_input n sp0 k)) /\ base s0 s2 /\ touched s0 s1 s2)
    as (s1 & shd & E1 & Hb1 & Hsp1 & Hsw1 & Hd1 & s2 & E2 & Hb2 & Ht2).
  { unfold getSigHashDataForSpender, data_of_input. unfold mbind at 1, sign_bind at 1. cbn [sg_get]. rewrite (bs_BCH s0 s Hb).
    destruct (ik_nested k).
    - destruct (shared_run s Hb) as (s1 & id & E1 & Hb1 & Hid & Hsw & Hd1 & Hsp). unfold mbind, sign_bind. rewrite E1.
      cbn [sg_modify mret sign_ret]. set (s1' := set_isSegWit true s1). assert (base s0 s1') as Hb1' by (destruct Hb1; by split).
      exists s1', (SegWitAt id). split; [done|]. split; [done|]. split; [done|]. split; [by rewrite orb_true_r|]. split; [done|].
      destruct (data_segwit s0 Hready Hrec Hver Hlock Htx Houts s1' n sp0 code id Hb1' Hi0 ltac:(apply Hcode) Hid) as (s2 & E2 & Hb2 & Ht2).
      by exists s2.
    - exists s, SigHashDataLegacy. split; [done|]. split; [done|]. split; [done|]. split; [by rewrite orb_false_r|]. split; [done|].
      destruct (data_legacy s0 Hready Hrec Hver Hlock Htx Houts s n code _ Hb Hcode) as (s2 & E2 & Hb2 & Ht2). by exists s2. }
  destruct (base_spender s0 s1 n sp0 Hb1 Hi0) as (sp1 & Hsp1' & Hsame1).
  pose proof (Forall_lookup_1 _ _ _ _ Hready Hi0) as Hr0.
  destruct (make_sig_ok k (data_of_input n sp0 k) (sg_draws s0 + n) Hk) as (rs & der & Es & Ed & Em & _).
  set (s3 := set_draws (S (sg_draws s2)) s2). assert (base s0 s3) as Hb3 by (destruct Hb2; by split).
  destruct (base_spender s0 s3 n sp0 Hb3 Hi0) as (sp3 & Hsp3 & Hsame3).
  exists s3. split; [|split; [done|split; [|split]]].
  - unfold signerLambda. unfold mbind at 1, sign_bind at 1. rewrite E1. cbv beta iota. unfold mbind at 1, sign_bind at 1. cbn [sg_lift].
    rewrite (ks_priv k Hk). cbv beta iota. unfold mbind at 1, sign_bind at 1. unfold sg_sign. unfold mbind at 1, sign_bind at 1.
    rewrite (spender_at_ok s1 n sp1 Hsp1'). cbv beta iota. unfold mbind at 1, sign_bind at 1.
    rewrite (si_type _ _ Hsame1), (ir_type _ Hr0), E2. cbv beta iota. unfold SignData, mbind, sign_bind. cbn [sg_get sg_modify sg_lift].
    rewrite (th_draws s0 _ _ Ht2), Hd1, Hd, Es. cbv beta iota. rewrite Ed. cbv beta iota.
    assert (set_draws (S (sg_draws s0 + n)) s2 = s3) as -> by (unfold s3; by rewrite (th_draws s0 _ _ Ht2), Hd1, Hd).
    rewrite (spender_at_ok s3 n sp3 Hsp3). unfold getSigHashByte. rewrite (si_type _ _ Hsame3), (ir_type _ Hr0).
    change (SIGHASH_ALL =? SIGHASH_ALL) with true. cbv iota. rewrite (si_BCH _ _ Hsame3), (ir_BCH _ Hr0). unfold sig_of_input. by rewrite Em.
  - intros i spi sp Hi Hs. rewrite <- Hsp1 in Hs. exact (th_spenders s0 _ _ Ht2 i spi sp Hi Hs).
  - change (isSegWit_ s3) with (isSegWit_ s2). by rewrite (th_segwit s0 _ _ Ht2).
  - change (sg_draws s3) with (S (sg_draws s2)). by rewrite (th_draws s0 _ _ Ht2), Hd1.
Qed.
(** *** What the resolver finds *)

Definition ik_stacks (k : InputKey) (sig : list byte) : ResolvedStack :=
  if ik_nested k then
    mkResolvedStack true true [StackItem_PushData 2 (ik_program k)] (Some [StackItem_Sig 0 sig; StackItem_PushData 1 (ik_pub k)])
  else mkResolvedStack true false [StackItem_Sig 0 sig; StackItem_PushData 1 (ik_pub k)] None.

Hypothesis (Hsegwit : has_flag (sg_flags s0) SCRIPT_VERIFY_SEGWIT = true).
Variable d : nat.

Lemma ik_program_items k : ik_program k = enc_items (program_items (ik_hash k)).
Proof.
  assert (zlen (ik_hash k) = 20) as Hh by apply zlen_getHash160.
  unfold ik_program, p2wpkh_script, program_items, enc_items. cbn [map concat enc_item app]. unfold push_header. rewrite Hh.
  cbn [Z.leb Z.compare Pos.compare Pos.compare_cont]. by rewrite app_nil_r.
Qed.

Lemma resolver_finds s n sp0 k : base s0 s -> spenders_ s0 !! n = Some sp0 -> key_signs k -> sg_draws s = (sg_draws s0 + n)%nat ->
  exists s', @getResolvedStack Signer (SignerProxyFromSigner (ik_feed k) (Z.of_nat n)) (ik_feed k) (S (S (S d)))
      (StackResolver_new (ik_output k) (sg_flags s) false) s = (s', Ok (ik_stacks k (sig_of_input n sp0 k))) /\
    base s0 s' /\ spenders_touched s s' /\ isSegWit_ s' = isSegWit_ s || ik_nested k /\ sg_draws s' = S (sg_draws s).
Proof using All.
  intros Hb Hi0 Hk Hd. destruct (lambda_ok s n sp0 k Hb Hi0 Hk Hd) as (s' & E & Hrest). exists s'. split; [|exact Hrest].
  assert (zlen (ik_hash k) = 20) as Hh by apply zlen_getHash160. unfold ik_output, ik_stacks. rewrite (bs_flags s0 s Hb).
  destruct (ik_nested k) eqn:En.
  - rewrite p2sh_script_items by apply zlen_getHash160.
    rewrite (resolve_sh _ false _ (ik_program k) (mkResolvedStack true false [] (Some [StackItem_Sig 0 (sig_of_input n sp0 k); StackItem_PushData 1 (ik_pub k)])) _ _ s s').
    + done.
    + unfold getHash160. rewrite zlen_ripemd160. lia.
    + by apply (ks_program k Hk).
    + rewrite ik_program_items. rewrite (resolve_program_ok _ _ (mkResolvedStack true false [StackItem_Sig 0 (sig_of_input n sp0 k); StackItem_PushData 1 (ik_pub k)] None) _ _ s s').
      * by rewrite Hh.
      * by left.
      * done.
      * unfold program_script. rewrite Hh. change (20 =? 20) with true. cbv iota.
        apply (resolve_p2pkh d (ik_hash k) (ik_pub k) (sig_of_input n sp0 k)); [done|by apply (ks_pub k Hk)|exact E].
  - apply (resolve_p2pkh (S (S d)) (ik_hash k) (ik_pub k) (sig_of_input n sp0 k)); [done|by apply (ks_pub k Hk)|exact E].
Qed.

(** *** What the spender does with it *)

Record waiting (k : InputKey) (sp : ScriptSpender) : Prop := {
  wt_output : script_ (utxo_ sp) = ik_output k;
  wt_legacy : legacyStatus_ sp = SpenderStatus_Unkonwn;
  wt_segwit : segwitStatus_ sp = SpenderStatus_Unkonwn;
  wt_partial : partialStack_ sp = [];
  wt_partialWitness : partialWitnessStack_ sp = [];
  wt_witness : witnessData_ sp = [];
  wt_feed : (match resolverFeed_ sp with Some feed => Some feed | None => resolverPtr_ s0 end) = Some (ik_feed k);
}.

(** The spend of an input with this signature. *)
Definition spend_of (k : InputKey) (sig : list byte) : Spend :=
  mkSpend (if ik_nested k then Nested (getHash160 (ik_program k)) else InScript) (ByKey sig (ik_pub k) (ik_hash k)).

Definition witness_bytes (k : InputKey) (sig : list byte) : list byte :=
  if ik_nested k then enc_stack [sig; ik_pub k] else [].

Record finished (k : InputKey) (sig : list byte) (sp : ScriptSpender) : Prop := {
  fn_legacy : legacyStatus_ sp = SpenderStatus_Resolved;
  fn_segwit : segwitStatus_ sp = (if ik_nested k then SpenderStatus_Resolved else SpenderStatus_Unkonwn);
  fn_p2sh : sp_isP2SH sp = ik_nested k;
  fn_script : serializedScript_ sp = input_of (spend_of k sig);
  fn_witness : witnessData_ sp = witness_bytes k sig;
}.

Lemma waiting_touch k sp0 sp : waiting k sp -> waiting k (touch sp0 sp).
Proof. intros [? ? ? ? ? ? ?]. by split. Qed.
Lemma finished_touch k sig sp0 sp : finished k sig sp -> finished k sig (touch sp0 sp).
Proof. intros [? ? ? ? ?]. by split. Qed.

Lemma put_push_ok data w : 0 < zlen data < 2 ^ 16 - 1 ->
  exists w', put_push data w = Ok w' /\ theString_ w' = theString_ w ++ enc_item (IPush data).
Proof.
  intros Hz. unfold put_push. rewrite getPushDataHeader_bytes by lia. cbn [mbind result_bind]. eexists. split; [reflexivity|].
  rewrite !bw_put_BinaryData_str, <- app_assoc. f_equal. cbn [enc_item]. f_equal. unfold push_header.
  destruct (zlen data <=? 75); [done|]. destruct (zlen data <? 2 ^ 8 - 1); [done|]. by rewrite (proj2 (Z.ltb_lt _ _)) by lia.
Qed.

Lemma serialize_push id data : 0 < zlen data < 2 ^ 16 - 1 ->
  serializeScript [StackItem_PushData id data] false = Ok (enc_items [IPush data]).
Proof.
  intros Hz. unfold serializeScript. cbn [serializeScript_loop]. destruct (put_push_ok data bw_new Hz) as (w & -> & E).
  cbn [mbind result_bind]. rewrite E. unfold enc_items. cbn. by rewrite app_nil_r.
Qed.

Lemma serialize_sig_push id id' sig data : 0 < zlen sig < 2 ^ 16 - 1 -> 0 < zlen data < 2 ^ 16 - 1 ->
  serializeScript [StackItem_Sig id sig; StackItem_PushData id' data] false = Ok (enc_items [IPush sig; IPush data]).
Proof.
  intros Hs Hz. unfold serializeScript. cbn [serializeScript_loop]. destruct (put_push_ok sig bw_new Hs) as (w & -> & E).
  cbn [mbind result_bind]. destruct (put_push_ok data w Hz) as (w' & -> & E'). cbn [mbind result_bind].
  rewrite E', E. unfold enc_items. cbn [map concat theString_ bw_new app]. by rewrite app_nil_r.
Qed.

Lemma serialize_witness id id' sig data : zlen sig < 2 ^ 32 -> zlen data < 2 ^ 32 ->
  exists bs, serializeWitnessData [StackItem_Sig id sig; StackItem_PushData id' data] false = Ok (bs, 2) /\
    witness_data bs 2 = enc_stack [sig; data].
Proof.
  intros Hs Hz. unfold serializeWitnessData. cbn [serializeWitnessData_loop mbind result_bind].
  eexists. split; [reflexivity|]. unfold witness_data. rewrite !put_data_str by done.
  rewrite bw_put_BinaryData_str, bw_put_var_int_str by (unfold is_uint; lia). unfold enc_stack. cbn [map concat theString_ bw_new app].
  by rewrite app_nil_r.
Qed.

Lemma on_spender_ok i f s sp sp' : spenders_ s !! i = Some sp -> f sp = (sp', Ok tt) ->
  on_spender i f s = (set_spenders (<[i := sp']> (spenders_ s)) s, Ok tt).
Proof. intros Hs Hf. unfold on_spender. by rewrite Hs, Hf. Qed.

Lemma sign_bind_ok {A B} (m : Sign A) (f : A -> Sign B) s s' a : m s = (s', Ok a) -> (m ≫= f) s = f a s'.
Proof. intros E. unfold mbind, sign_bind. by rewrite E. Qed.

(** The fields that the stacks are not. *)
Record kept (sp sp' : ScriptSpender) : Prop := {
  kp_utxo : utxo_ sp' = utxo_ sp;
  kp_value : sp_value sp' = sp_value sp;
  kp_sequence : sp_sequence sp' = sp_sequence sp;
  kp_outpoint : outpoint_ sp' = outpoint_ sp;
  kp_type : sigHashType_ sp' = sigHashType_ sp;
  kp_BCH : sp_BCH sp' = sp_BCH sp;
}.

Lemma kept_same sp0 sp sp' : same_input sp0 sp -> kept sp sp' -> same_input sp0 sp'.
Proof. intros [? ? ? Ho ? ?] [? ? ? Ho' ? ?]. split; congruence. Qed.

Lemma update_pair a b : updateStack [] [StackItem_Sig 0 a; StackItem_PushData 1 b] =
  ([(0, StackItem_Sig 0 a); (1, StackItem_PushData 1 b)], Ok tt).
Proof. reflexivity. Qed.

Lemma update_partial stack part sp : legacyStatus_ sp ≠ SpenderStatus_Resolved -> updateStack (partialStack_ sp) stack = (part, Ok tt) ->
  updatePartialStack stack sp = (set_legacyStatus SpenderStatus_Partial (set_partialStack part sp), Ok tt).
Proof. intros Hn E. unfold updatePartialStack. rewrite (proj2 (Z.eqb_neq _ _) Hn), E. done. Qed.

Lemma update_witness stack part sp : segwitStatus_ sp ≠ SpenderStatus_Resolved -> updateStack (partialWitnessStack_ sp) stack = (part, Ok tt) ->
  updatePartialWitnessStack stack sp = (set_segwitStatus SpenderStatus_Partial (set_partialWitnessStack part sp), Ok tt).
Proof. intros Hn E. unfold updatePartialWitnessStack. rewrite (proj2 (Z.eqb_neq _ _) Hn), E. done. Qed.

(** A stack without missing signatures becomes the script. *)
Definition with_script (script : list byte) (sp : ScriptSpender) : ScriptSpender :=
  set_partialStack [] (set_legacyStatus SpenderStatus_Resolved
    (set_sigVec (sigVec_ sp ++ sigs_of (map snd (partialStack_ sp))) (set_serializedScript script sp))).

Definition with_witness (data : list byte) (sp : ScriptSpender) : ScriptSpender :=
  set_partialWitnessStack [] (set_segwitStatus SpenderStatus_Resolved (set_witnessData data sp)).

Lemma evaluate_script part script sp : partialStack_ sp = part -> part ≠ [] -> all_valid part = true ->
  serializeScript (map snd part) false = Ok script -> partialWitnessStack_ sp = [] ->
  evaluatePartialStacks sp = (with_script script sp, Ok tt).
Proof.
  intros E Hn Hv Es Hw. unfold evaluatePartialStacks, evaluateLegacy, setStack. rewrite E, Hv, Es.
  assert (0 <? zlen part = true) as -> by (destruct part; [done|apply Z.ltb_lt; unfold zlen; cbn [length]; lia]). cbn [andb mbind result_bind].
  unfold evaluateWitness. cbn [partialWitnessStack_ set_partialStack set_legacyStatus set_sigVec set_serializedScript]. rewrite Hw.
  unfold with_script. by rewrite E.
Qed.

Lemma evaluate_witness part bs count sp : partialStack_ sp = [] -> partialWitnessStack_ sp = part -> part ≠ [] -> all_valid part = true ->
  serializeWitnessData (map snd part) false = Ok (bs, count) ->
  evaluatePartialStacks sp = (with_witness (witness_data bs count) sp, Ok tt).
Proof.
  intros Ep E Hn Hv Es. unfold evaluatePartialStacks, evaluateLegacy. rewrite Ep. change (0 <? zlen []) with false. cbn [andb].
  unfold evaluateWitness, setWitnessData. rewrite E, Hv, Es.
  assert (0 <? zlen part = true) as -> by (destruct part; [done|apply Z.ltb_lt; unfold zlen; cbn [length]; lia]). done.
Qed.

Lemma takes_legacy k sig sp : ik_nested k = false -> waiting k sp -> 8 <= zlen sig <= 73 -> 1 <= zlen (ik_pub k) <= 75 ->
  exists sp1 sp2, updatePartialStack (rs_stack (ik_stacks k sig)) (sp_flagP2SH false sp) = (sp1, Ok tt) /\
    evaluatePartialStacks sp1 = (sp2, Ok tt) /\ finished k sig sp2 /\ kept sp sp2.
Proof.
  intros En [Ho Hl Hs Hp Hpw Hw Hf] Hsig Hpub. unfold ik_stacks. rewrite En. cbn [rs_stack]. eexists. eexists. split; [|split; [|split]].
  - apply update_partial; [|cbn [partialStack_ sp_flagP2SH]; rewrite Hp; apply update_pair]. cbn [legacyStatus_ sp_flagP2SH]. by rewrite Hl.
  - apply (evaluate_script [(0, StackItem_Sig 0 sig); (1, StackItem_PushData 1 (ik_pub k))]); try done.
    by apply serialize_sig_push; lia.
  - split; cbn; unfold spend_of, input_of, witness_bytes; rewrite ?En; done.
  - by split.
Qed.

Lemma takes_nested k sig sp : ik_nested k = true -> waiting k sp -> 8 <= zlen sig <= 73 -> 1 <= zlen (ik_pub k) <= 75 ->
  exists sp1 sp2 sp3 sp4, updatePartialStack (rs_stack (ik_stacks k sig)) (sp_flagP2SH true sp) = (sp1, Ok tt) /\
    evaluatePartialStacks sp1 = (sp2, Ok tt) /\
    updatePartialWitnessStack [StackItem_Sig 0 sig; StackItem_PushData 1 (ik_pub k)] sp2 = (sp3, Ok tt) /\
    evaluatePartialStacks sp3 = (sp4, Ok tt) /\ finished k sig sp4 /\ kept sp sp4.
Proof.
  intros En [Ho Hl Hs Hp Hpw Hw Hf] Hsig Hpub. unfold ik_stacks. rewrite En. cbn [rs_stack].
  assert (zlen (ik_program k) = 22) as Hz.
  { unfold ik_program, p2wpkh_script. rewrite zlen_app. unfold ik_hash. by rewrite zlen_getHash160. }
  destruct (serialize_witness 0 1 sig (ik_pub k)) as (bs & Ew & Ebs); [lia|lia|].
  eexists. eexists. eexists. eexists. split; [|split; [|split; [|split; [|split]]]].
  - apply (update_partial _ [(2, StackItem_PushData 2 (ik_program k))]); [|cbn [partialStack_ sp_flagP2SH]; by rewrite Hp].
    cbn [legacyStatus_ sp_flagP2SH]. by rewrite Hl.
  - apply (evaluate_script [(2, StackItem_PushData 2 (ik_program k))]); try done. by apply serialize_push; lia.
  - apply update_witness; [cbn; by rewrite Hs|]. cbn [with_script partialWitnessStack_ set_partialStack set_legacyStatus set_sigVec set_serializedScript sp_flagP2SH].
    rewrite Hpw. apply update_pair.
  - by apply (evaluate_witness [(0, StackItem_Sig 0 sig); (1, StackItem_PushData 1 (ik_pub k))] bs 2).
  - rewrite Ebs. split; cbn; unfold spend_of, input_of, witness_bytes; rewrite ?En; done.
  - by split.
Qed.
End keys.
