(* ===== verification/SignerCorrect.v ===== *)
(** * SignerCorrect: the transaction that is signed is valid

    [Signer::sign] on all inputs, the bytes that [serialize] makes, and what
    [verify] says of them, from what SignerProps shows of one input. *)

From S2P Require Import Prelude BinaryData BinaryIO Hashing StdMap DBUtils BlockHeader TxLength TxFilter BlockData BlockDataProps.
From S2P Require Import ScriptParser ScriptParserProps StackItem Recipient SigHash TxEvalState Interpreter InterpreterFrame DerSig.
From S2P Require Import Resolver Verifier ScriptUtils SigHashProps InterpreterProps MultisigProps WitnessProps ResolverProps.
From S2P Require Import VerifierProps VerifierCorrect Spender Signer SignerProps.

(** ** What is asked for *)

Section spec.
Context `{HashFns} `{CryptoECDSA} `{BTC_SIGNER}.

Definition numbered (s0 : Signer) (ks : list InputKey) : list (ScriptSpender * InputKey) := zip (spenders_ s0) ks.

Definition signed_in (s0 : Signer) (n : nat) (spk : ScriptSpender * InputKey) : TxIn :=
  mkTxIn (outpoint_of spk.1) (input_of (spend_of spk.2 (sig_of_input s0 n spk.1 spk.2))) (int_to LE 4 (sp_sequence spk.1)).

Definition signed_witness (s0 : Signer) (n : nat) (spk : ScriptSpender * InputKey) : list (list byte) :=
  if ik_nested spk.2 then [sig_of_input s0 n spk.1 spk.2; ik_pub spk.2] else [].

(** The transaction with the signatures. *)
Definition signed_tx (s0 : Signer) (ks : list InputKey) : Tx :=
  mkTx (int_to LE 4 (sg_version s0)) (imap (signed_in s0) (numbered s0 ks)) (map recipient_out (recipients_ s0))
    (if existsb ik_nested ks then Some (imap (signed_witness s0) (numbered s0 ks)) else None) (int_to LE 4 (sg_lockTime s0)).

(** An input that waits for a signature of this key. *)
Record signable (s0 : Signer) (sp : ScriptSpender) (k : InputKey) : Prop := {
  sb_ready : input_ready sp;
  sb_waiting : waiting s0 k sp;
  sb_key : key_signs k;
  sb_outpoint : outpoint_ sp = [] \/ outpoint_ sp = outpoint_of sp;
}.

(** A transaction whose inputs are to be signed, and that stays small enough
    for the verifier to parse. *)
Record prepared (s0 : Signer) : Prop := {
  pr_some : spenders_ s0 ≠ [];
  pr_recipients : Forall recipient_ok (recipients_ s0);
  pr_outs : Forall txout_ok (map recipient_out (recipients_ s0));
  pr_outputs : recipients_ s0 ≠ [];
  pr_version : is_uint 32 (sg_version s0);
  pr_lockTime : is_uint 32 (sg_lockTime s0);
  pr_flags : has_flag (sg_flags s0) SCRIPT_VERIFY_SEGWIT = true;
  pr_BCH : sg_BCH s0 = false;
  pr_new : serializedTx_ s0 = [] /\ serializedOutputs_ s0 = [] /\ isSegWit_ s0 = false /\ sg_stub s0 = StubState_new /\ sg_sigHash s0 = None;
  pr_size : zlen (enc_tx (sg_tx s0)) + 320 * zlen (spenders_ s0) + 2 < 2 ^ 32 - 1;
}.

(** A transaction that can be signed with these keys. *)
Record can_sign (s0 : Signer) (ks : list InputKey) : Prop := {
  cs_prepared : prepared s0;
  cs_inputs : Forall2 (signable s0) (spenders_ s0) ks;
  cs_distinct : NoDup (map (fun sp => (utxo_txHash (utxo_ sp), txOutIndex_ (utxo_ sp))) (spenders_ s0));
}.
End spec.

Lemma prepared_outs s0 : prepared s0 -> tx_outs (sg_tx s0) ≠ [].
Proof. intros Hp. pose proof (pr_outputs _ Hp) as Ho. cbn. by destruct (recipients_ s0). Qed.

Lemma prepared_ok s0 : prepared s0 -> Forall input_ready (spenders_ s0) -> tx_ok (sg_tx s0).
Proof.
  intros Hp Hready. pose proof (pr_size _ Hp) as Hs. pose proof (pr_some _ Hp) as Hn. split; try done; try apply zlen_int_to.
  - cbn [sg_tx tx_ins]. unfold zlen. rewrite length_map. destruct (spenders_ s0); [done|]. cbn [length]. lia.
  - cbn [sg_tx tx_ins]. apply Forall_map. eapply Forall_impl; [exact Hready|]. intros sp Hr. by apply unsigned_in_ok.
  - apply (pr_outs _ Hp).
  - pose proof (zlen_nonneg (spenders_ s0)). lia.
Qed.

Lemma prepared_base `{HashFns} s0 : prepared s0 -> Forall (fun sp => outpoint_ sp = [] \/ outpoint_ sp = outpoint_of sp) (spenders_ s0) -> base s0 s0.
Proof.
  intros Hp Hout. pose proof (pr_new _ Hp) as (E1 & E2 & E3 & E4 & E5). pose proof (pr_BCH _ Hp). split; try done.
  - by left.
  - apply Forall2_same_length_lookup_2; [done|]. intros i sp sp' Hi Hi'. rewrite Hi in Hi'. injection Hi' as <-.
    pose proof (Forall_lookup_1 _ _ _ _ Hout Hi). by split.
  - apply Forall2_same_length_lookup_2; [done|]. intros i r r' Hi Hi'. rewrite Hi in Hi'. injection Hi' as <-.
    pose proof (Forall_lookup_1 _ _ _ _ (pr_recipients _ Hp) Hi) as (_ & Hn & _). split; try done. by left.
  - by rewrite E4.
  - intros id Hid. by rewrite E5 in Hid.
Qed.

(** ** Signing the inputs one by one *)

Section signing.
Context `{HashFns} `{CryptoECDSA} `{BTC_SIGNER}.
Variables (s0 : Signer) (ks : list InputKey).
Hypothesis (Hcs : can_sign s0 ks).

Lemma ready_all : Forall input_ready (spenders_ s0).
Proof using Hcs. apply (Forall2_Forall_l _ _ _ _ (cs_inputs _ _ Hcs)), Forall_true. by intros k sp [? _ _ _]. Qed.

Lemma length_keys : length (spenders_ s0) = length ks.
Proof using Hcs. apply (Forall2_length _ _ _ (cs_inputs _ _ Hcs)). Qed.

Lemma signable_at i sp0 : spenders_ s0 !! i = Some sp0 -> exists k, ks !! i = Some k /\ signable s0 sp0 k.
Proof using Hcs. intros Hi. by apply (Forall2_lookup_l _ _ _ _ _ (cs_inputs _ _ Hcs)). Qed.

Lemma signable_both i sp0 k : spenders_ s0 !! i = Some sp0 -> ks !! i = Some k -> signable s0 sp0 k.
Proof using Hcs. apply (Forall2_lookup_lr _ _ _ _ _ _ (cs_inputs _ _ Hcs)). Qed.

Lemma numbered_at i : numbered s0 ks !! i = (sp ← spenders_ s0 !! i; k ← ks !! i; Some (sp, k)).
Proof.
  unfold numbered. rewrite lookup_zip_with. destruct (spenders_ s0 !! i); [|done]. cbn. by destruct (ks !! i).
Qed.

Lemma length_numbered : length (numbered s0 ks) = length (spenders_ s0).
Proof using Hcs. unfold numbered. rewrite length_zip_with, <- length_keys. lia. Qed.

Lemma tx_outs_some : tx_outs (sg_tx s0) ≠ [].
Proof using Hcs. apply prepared_outs, Hcs. Qed.

Lemma sg_tx_ok : tx_ok (sg_tx s0).
Proof using Hcs. apply prepared_ok; [apply Hcs|apply ready_all]. Qed.

(** The first [n] inputs are signed. *)
Record progress (n : nat) (s : Signer) : Prop := {
  pg_base : base s0 s;
  pg_segwit : isSegWit_ s = existsb ik_nested (take n ks);
  pg_draws : sg_draws s = (sg_draws s0 + n)%nat;
  pg_done i sp0 k sp : (i < n)%nat -> spenders_ s0 !! i = Some sp0 -> ks !! i = Some k -> spenders_ s !! i = Some sp ->
    finished k (sig_of_input s0 i sp0 k) sp;
  pg_waiting i k sp : (n <= i)%nat -> ks !! i = Some k -> spenders_ s !! i = Some sp -> waiting s0 k sp;
}.

Lemma progress_start : progress 0 s0.
Proof using Hcs.
  pose proof (pr_new _ (cs_prepared _ _ Hcs)) as (_ & _ & E3 & _). split; try done.
  - apply prepared_base; [apply Hcs|]. apply Forall_lookup_2. intros i sp Hi.
    by destruct (signable_at i sp Hi) as (k & _ & [_ _ _ Ho]).
  - lia.
  - intros i k sp _ Hk Hi. by apply (signable_both i sp k).
Qed.

Lemma insert_twice {A} (l : list A) i x y : <[i := x]> (<[i := y]> l) = <[i := x]> l.
Proof. apply list_insert_insert_eq. Qed.

Lemma take_stacks_ok s n k sig sp : spenders_ s !! n = Some sp -> waiting s0 k sp -> 8 <= zlen sig <= 73 -> 1 <= zlen (ik_pub k) <= 75 ->
  exists sp', take_stacks n (ik_stacks k sig) s =
    (set_isSegWit (isSegWit_ s || ik_nested k) (set_spenders (<[n := sp']> (spenders_ s)) s), Ok tt) /\
    finished k sig sp' /\ kept sp sp'.
Proof.
  intros Hn Hw Hsig Hpub. pose proof (lookup_lt_Some _ _ _ Hn) as Hlt. unfold take_stacks.
  assert (forall s sp sp' f (K : Sign ()), spenders_ s = <[n := sp]> (spenders_ s) -> (n < length (spenders_ s))%nat ->
    f sp = (sp', Ok tt) -> (_ ← on_spender n f; K) s = K (set_spenders (<[n := sp']> (spenders_ s)) s)) as Hstep.
  { intros s1 sp1 sp1' f K E Hl Hf. rewrite (sign_bind_ok _ _ s1 (set_spenders (<[n:=sp1']> (spenders_ s1)) s1) tt); [done|].
    apply (on_spender_ok n f s1 sp1); [|done]. rewrite E. by apply list_lookup_insert_eq. }
  rewrite (Hstep s sp (sp_flagP2SH (ik_nested k) sp)); [|by rewrite list_insert_id|done|unfold ik_stacks; by destruct (ik_nested k)].
  destruct (ik_nested k) eqn:En.
  - destruct (takes_nested s0 k sig sp En Hw Hsig Hpub) as (sp1 & sp2 & sp3 & sp4 & E1 & E2 & E3 & E4 & Hf & Hk).
    exists sp4. split; [|done].
    rewrite (Hstep _ (sp_flagP2SH true sp) sp1); [|cbn; by rewrite insert_twice|cbn; by rewrite length_insert|done]. cbn [spenders_ set_spenders]. rewrite insert_twice.
    rewrite (Hstep _ sp1 sp2); [|cbn; by rewrite insert_twice|cbn; by rewrite length_insert|done]. cbn [spenders_ set_spenders]. rewrite insert_twice.
    unfold ik_stacks. rewrite En. cbn [rs_witnessStack]. rewrite (sign_bind_ok _ _ _ _ tt eq_refl).
    rewrite (Hstep _ sp2 sp3); [|cbn; by rewrite insert_twice|cbn; by rewrite length_insert|done]. cbn [spenders_ set_spenders set_isSegWit]. rewrite insert_twice.
    rewrite (on_spender_ok n _ _ sp3 sp4); [|cbn; by rewrite list_lookup_insert_eq|done]. cbn [spenders_ set_spenders set_isSegWit]. rewrite insert_twice.
    by rewrite orb_true_r.
  - destruct (takes_legacy s0 k sig sp En Hw Hsig Hpub) as (sp1 & sp2 & E1 & E2 & Hf & Hk).
    exists sp2. split; [|done].
    rewrite (Hstep _ (sp_flagP2SH false sp) sp1); [|cbn; by rewrite insert_twice|cbn; by rewrite length_insert|done]. cbn [spenders_ set_spenders]. rewrite insert_twice.
    rewrite (Hstep _ sp1 sp2); [|cbn; by rewrite insert_twice|cbn; by rewrite length_insert|done]. cbn [spenders_ set_spenders]. rewrite insert_twice.
    unfold ik_stacks. rewrite En. cbn [rs_witnessStack]. by rewrite orb_false_r.
Qed.

Variable d : nat.

Lemma sign_spender_ok n s : progress n s -> (n < length ks)%nat ->
  exists s', sign_spender (S (S (S d))) n s = (s', Ok tt) /\ progress (S n) s'.
Proof using Hcs.
  intros [Hb Hsw Hd Hdone Hwait] Hn. pose proof Hn as Hn'. rewrite <- length_keys in Hn'.
  destruct (lookup_lt_is_Some_2 _ _ Hn') as [sp0 Hi0]. destruct (signable_at n sp0 Hi0) as (k & Hk & [Hr Hw0 Hkey _]).
  destruct (base_spender s0 s n sp0 Hb Hi0) as (sp & Hsp & Hsame).
  pose proof (Hwait n k sp ltac:(lia) Hk Hsp) as Hw. pose proof Hw as [Hout Hleg _ _ _ _ Hfeed].
  unfold sign_spender. rewrite Hsp. unfold sp_resolved. rewrite Hleg. change (negb (SpenderStatus_Unkonwn =? _)) with true. cbv iota.
  unfold sp_hasUTXO. rewrite (utxo_init sp0 sp Hr Hsame). cbn [negb]. rewrite (bs_resolver s0 s Hb), Hfeed.
  unfold getOutputScript. rewrite (utxo_init sp0 sp Hr Hsame), Hout. cbn [negb].
  set (sp1 := sp_setFeed (Some (ik_feed k)) sp). set (s1 := set_spenders _ s).
  assert (kept sp sp1) as Hk1 by by split.
  assert (waiting s0 k sp1) as Hw1 by (destruct Hw; by split).
  assert (base s0 s1) as Hb1.
  { apply base_set_spenders; [done|]. rewrite <- (list_insert_id _ _ _ Hi0). apply Forall2_insert; [apply Hb|]. by apply (kept_same sp0 sp sp1). }
  assert (spenders_ s1 !! n = Some sp1) as Hsp1 by (apply list_lookup_insert_eq; by eapply lookup_lt_Some).
  destruct (resolver_finds s0 ready_all (pr_recipients _ (cs_prepared _ _ Hcs)) (pr_version _ (cs_prepared _ _ Hcs)) (pr_lockTime _ (cs_prepared _ _ Hcs))
    sg_tx_ok tx_outs_some (pr_flags _ (cs_prepared _ _ Hcs)) d s1 n sp0 k Hb1 Hi0 Hkey Hd) as (s2 & E2 & Hb2 & Ht2 & Hsw2 & Hd2).
  assert (exists sp2, spenders_ s2 !! n = Some sp2 /\ waiting s0 k sp2 /\ same_input sp0 sp2) as (sp2 & Hsp2 & Hw2 & Hs2).
  { destruct (base_spender s0 s2 n sp0 Hb2 Hi0) as (sp2 & Hsp2 & Hs2). exists sp2. split; [done|]. split; [|done].
    destruct (Ht2 n sp0 sp1 Hi0 Hsp1) as [E|E]; rewrite Hsp2 in E; injection E as ->; [done|by apply waiting_touch]. }
  destruct (make_sig_ok k (data_of_input s0 n sp0 k) (sg_draws s0 + n) Hkey) as (_ & _ & _ & _ & _ & Hsz & _).
  fold (sig_of_input s0 n sp0 k) in Hsz.
  destruct (take_stacks_ok s2 n k (sig_of_input s0 n sp0 k) sp2 Hsp2 Hw2 Hsz (ks_size k Hkey)) as (sp3 & E3 & Hf3 & Hk3).
  unfold sg_catch, resolve_spender. rewrite (sign_bind_ok _ _ s1 s1 (sg_flags s1) eq_refl), (sign_bind_ok _ _ _ _ _ E2), E3.
  eexists. split; [reflexivity|]. split.
  - set (s3 := set_spenders _ s2). assert (base s0 s3) as Hb3.
    { apply base_set_spenders; [done|]. rewrite <- (list_insert_id _ _ _ Hi0). apply Forall2_insert; [apply Hb2|]. by apply (kept_same sp0 sp2 sp3). }
    destruct Hb3. by split.
  - cbn [isSegWit_ set_isSegWit]. rewrite Hsw2. change (isSegWit_ s1) with (isSegWit_ s). rewrite Hsw, (take_S_r _ _ _ Hk), existsb_app.
    cbn [existsb]. by destruct (existsb _ _), (ik_nested k).
  - cbn [sg_draws set_isSegWit set_spenders]. rewrite Hd2. change (sg_draws s1) with (sg_draws s). lia.
  - intros i spi ki sp' Hi Hi0' Hki. cbn [spenders_ set_isSegWit set_spenders]. destruct (decide (i = n)) as [->|Hne].
    + rewrite list_lookup_insert_eq by by eapply lookup_lt_Some. intros [=<-]. by simplify_eq.
    + rewrite list_lookup_insert_ne by done. intros Hsp'. destruct (base_spender s0 s i spi Hb Hi0') as (spo & Ho & _).
      pose proof (Hdone i spi ki spo ltac:(lia) Hi0' Hki Ho) as Hfin.
      assert (spenders_ s1 !! i = Some spo) as Ho1 by (cbn; by rewrite list_lookup_insert_ne).
      destruct (Ht2 i spi spo Hi0' Ho1) as [E|E]; rewrite Hsp' in E; injection E as ->; [done|by apply finished_touch].
  - intros i ki sp' Hi Hki. cbn [spenders_ set_isSegWit set_spenders]. rewrite list_lookup_insert_ne by lia. intros Hsp'.
    pose proof (lookup_lt_Some _ _ _ Hki) as Hlt. rewrite <- length_keys in Hlt. destruct (lookup_lt_is_Some_2 _ _ Hlt) as [spi Hi0'].
    destruct (base_spender s0 s i spi Hb Hi0') as (spo & Ho & _). pose proof (Hwait i ki spo ltac:(lia) Hki Ho) as Hwo.
    assert (spenders_ s1 !! i = Some spo) as Ho1 by (cbn; by rewrite list_lookup_insert_ne by lia).
    destruct (Ht2 i spi spo Hi0' Ho1) as [E|E]; rewrite Hsp' in E; injection E as ->; [done|by apply waiting_touch].
Qed.

Lemma for_spenders_ok m : forall n s, (n + m = length ks)%nat -> progress n s ->
  exists s', for_spenders (sign_spender (S (S (S d)))) m n s = (s', Ok tt) /\ progress (length ks) s'.
Proof using Hcs.
  induction m as [|m IH]; intros n s Hn Hp; cbn [for_spenders].
  { exists s. split; [done|]. by replace (length ks) with n by lia. }
  destruct (sign_spender_ok n s Hp ltac:(lia)) as (s1 & E1 & Hp1). rewrite (sign_bind_ok _ _ _ _ _ E1). apply IH; [lia|done].
Qed.

Lemma sign_ok : exists s', sign (S (S (S d))) s0 = (s', Ok tt) /\ progress (length ks) s'.
Proof using Hcs.
  unfold sign. rewrite length_keys. apply for_spenders_ok; [lia|apply progress_start].
Qed.

(** ** Serialising *)

(** All inputs are signed. *)
Record signed (s : Signer) : Prop := {
  sn_base : base s0 s;
  sn_segwit : isSegWit_ s = existsb ik_nested ks;
  sn_done i sp0 k sp : spenders_ s0 !! i = Some sp0 -> ks !! i = Some k -> spenders_ s !! i = Some sp ->
    finished k (sig_of_input s0 i sp0 k) sp;
}.

Lemma progress_signed s : progress (length ks) s -> signed s.
Proof using Hcs.
  intros [Hb Hsw _ Hdone _]. split; [done|by rewrite firstn_all in Hsw|]. intros i sp0 k sp Hi Hk Hs.
  apply Hdone; try done. by eapply lookup_lt_Some.
Qed.

(** A spender that keeps what it has found. *)
Definition stays (sp sp' : ScriptSpender) : Prop := kept sp sp' /\ forall k sig, finished k sig sp -> finished k sig sp'.

Lemma signed_stays s sps : signed s -> Forall2 stays (spenders_ s) sps -> signed (set_spenders sps s).
Proof.
  intros [Hb Hsw Hdone] Hs. split; [|done|].
  - apply base_set_spenders; [done|]. apply Forall2_same_length_lookup_2.
    { by rewrite (Forall2_length _ _ _ (bs_spenders s0 s Hb)), (Forall2_length _ _ _ Hs). }
    intros i sp0 sp' Hi Hi'. destruct (base_spender s0 s i sp0 Hb Hi) as (sp & Hsp & Hsame).
    destruct (Forall2_lookup_lr _ _ _ _ _ _ Hs Hsp Hi') as [Hk _]. by eapply kept_same.
  - intros i sp0 k sp' Hi Hk Hsp'. destruct (Forall2_lookup_r _ _ _ _ _ Hs Hsp') as (sp & Hsp & _ & Hf). by apply Hf, Hdone.
Qed.

Lemma each_spender_ok f sps ds : Forall2 (fun sp d => exists sp', f sp = Ok (d, sp') /\ stays sp sp') sps ds ->
  exists sps', each_spender f sps = (sps', Ok (concat ds)) /\ Forall2 stays sps sps'.
Proof.
  induction 1 as [|sp d' sps ds (sp' & E & Hs) _ (sps' & E' & Hs')]; [by exists []|].
  exists (sp' :: sps'). cbn [each_spender]. rewrite E, E'. split; [done|]. by constructor.
Qed.

Lemma put_spenders_ok f s ds : signed s -> Forall2 (fun sp d => exists sp', f sp = Ok (d, sp') /\ stays sp sp') (spenders_ s) ds ->
  exists s', put_spenders f s = (s', Ok (concat ds)) /\ signed s'.
Proof.
  intros Hs Hf. destruct (each_spender_ok f _ ds Hf) as (sps' & E & Hst). exists (set_spenders sps' s).
  unfold put_spenders. rewrite E. split; [done|]. by apply signed_stays.
Qed.

Lemma map_imap {A B C} (f : B -> C) (g : nat -> A -> B) l : map f (imap g l) = imap (fun i x => f (g i x)) l.
Proof. exact (fmap_imap g f l). Qed.

(** What the loops over the inputs put, input by input. *)
Lemma numbered_Forall2 {B} s (P : ScriptSpender -> B -> Prop) (g : nat -> ScriptSpender * InputKey -> B) : signed s ->
  (forall i sp0 k sp, signable s0 sp0 k -> same_input sp0 sp -> finished k (sig_of_input s0 i sp0 k) sp -> P sp (g i (sp0, k))) ->
  Forall2 P (spenders_ s) (imap g (numbered s0 ks)).
Proof using Hcs.
  intros [Hb _ Hdone] Hg. pose proof (Forall2_length _ _ _ (bs_spenders s0 s Hb)) as Hl. pose proof length_keys as Hlk.
  apply Forall2_same_length_lookup_2.
  { rewrite length_imap. unfold numbered. rewrite length_zip_with. lia. }
  intros i sp y Hsp Hy. rewrite list_lookup_imap, numbered_at in Hy.
  destruct (spenders_ s0 !! i) as [sp0|] eqn:Hi; [|done]. destruct (ks !! i) as [k|] eqn:Hk; [|done]. injection Hy as <-.
  apply Hg; [by apply (signable_both i)| |by apply (Hdone i)].
  by apply (Forall2_lookup_lr _ _ _ _ _ _ (bs_spenders s0 s Hb) Hi Hsp).
Qed.

Lemma zlen_input k sig : 8 <= zlen sig <= 73 -> 1 <= zlen (ik_pub k) <= 75 -> 0 < zlen (input_of (spend_of k sig)) <= 150.
Proof.
  intros Hs Hp. unfold spend_of, input_of. destruct (ik_nested k); cbn [sp_place sp_unlock].
  - assert (zlen (program_of (ByKey sig (ik_pub k) (ik_hash k))) = 22) as Hz.
    { cbn [program_of]. unfold p2wpkh_script. rewrite zlen_app. unfold ik_hash. by rewrite zlen_getHash160. }
    unfold enc_items. cbn [map concat enc_item]. rewrite !zlen_app, Hz. unfold push_header. rewrite Hz.
    change (22 <=? 75) with true. cbv iota.
    change (zlen [z2b 22]) with 1. change (@zlen byte []) with 0. lia.
  - unfold enc_items. cbn [map concat enc_item]. rewrite !zlen_app. unfold push_header.
    rewrite !(proj2 (Z.leb_le _ _)) by lia. rewrite !zlen_cons. change (@zlen byte []) with 0. lia.
Qed.

Lemma input_bytes_ok i sp0 k sp : signable s0 sp0 k -> same_input sp0 sp -> finished k (sig_of_input s0 i sp0 k) sp ->
  exists sp', getSerializedInput sp = Ok (enc_txin (signed_in s0 i (sp0, k)), sp') /\ stays sp sp'.
Proof.
  intros [Hr _ Hk _] Hs Hf. unfold getSerializedInput. rewrite (fn_legacy _ _ _ Hf). change (negb (SpenderStatus_Resolved =? _)) with false. cbv iota.
  unfold input_bytes, getSerializedOutpoint. rewrite (utxo_init sp0 sp Hr Hs). cbn [mbind result_bind]. eexists. split.
  - f_equal. f_equal. destruct (make_sig_ok k (data_of_input s0 i sp0 k) (sg_draws s0 + i) Hk) as (_ & _ & _ & _ & _ & Hsz & _).
    pose proof (zlen_input k _ Hsz (ks_size k Hk)) as Hz. fold (sig_of_input s0 i sp0 k) in Hz.
    rewrite bw_put_uint32_t_str, put_data_str, bw_put_BinaryData_str by (rewrite (fn_script _ _ _ Hf); unfold data_ok; lia).
    cbn [theString_ bw_new app]. rewrite bw_put_uint32_t_str, bw_put_BinaryData_str. cbn [theString_ bw_new app].
    unfold enc_txin. cbn [signed_in txin_outpoint txin_script txin_sequence fst snd]. unfold outpoint_of.
    by rewrite (si_utxo _ _ Hs), (si_sequence _ _ Hs), (fn_script _ _ _ Hf), <- !app_assoc.
  - split; [by split|]. intros k' sig' []. by split.
Qed.

Lemma witness_bytes_ok i sp0 k sp : signable s0 sp0 k -> same_input sp0 sp -> finished k (sig_of_input s0 i sp0 k) sp ->
  exists sp', (data ← sp_getWitnessData sp; Ok (witness_or_none data, sp)) = Ok (enc_stack (signed_witness s0 i (sp0, k)), sp') /\ stays sp sp'.
Proof.
  intros _ _ Hf. exists sp. unfold sp_getWitnessData, signed_witness. rewrite (fn_segwit _ _ _ Hf), (fn_witness _ _ _ Hf). unfold witness_bytes.
  cbn [fst snd]. destruct (ik_nested k).
  - change (SpenderStatus_Resolved =? SpenderStatus_Partial) with false. cbv iota. cbn [mbind result_bind]. unfold witness_or_none.
    rewrite (proj2 (Z.eqb_neq _ _)); [done|]. unfold enc_stack. change (zlen [_; _]) with 2. rewrite zlen_app. pose proof (zlen_nonneg (concat (map var_bytes [sig_of_input s0 i sp0 k; ik_pub k]))). change (zlen (var_int_bytes 2)) with 1. lia.
  - done.
Qed.

Lemma sg_serialize_ok s : signed s -> exists s', sg_serialize s = (set_serializedTx (enc_tx (signed_tx s0 ks)) s', Ok (enc_tx (signed_tx s0 ks))) /\ signed s'.
Proof using Hcs.
  intros Hs. unfold sg_serialize. rewrite (sign_bind_ok _ _ s s _ eq_refl), (bs_tx s0 s (sn_base s Hs)).
  change (negb (zlen [] =? 0)) with false. cbv iota.
  assert (exists s', put_tx getSerializedInput sp_getWitnessData s = (s', Ok (enc_tx (signed_tx s0 ks))) /\ signed s') as (s' & E & Hs').
  2:{ rewrite (sign_bind_ok _ _ _ _ _ E). by exists s'. }
  destruct (put_spenders_ok getSerializedInput s _ Hs (numbered_Forall2 s _ (fun i spk => enc_txin (signed_in s0 i spk)) Hs input_bytes_ok)) as (s1 & E1 & Hs1).
  destruct (recipients_bytes_run _ _ (pr_recipients _ (cs_prepared _ _ Hcs)) (bs_recipients s0 s1 (sn_base s1 Hs1))) as (rs & E2 & Hrs).
  set (s2 := set_recipients rs s1). assert (signed s2) as Hs2 by (destruct Hs1 as [[] ? ?]; split; [by split|done|done]).
  destruct (put_spenders_ok _ s2 _ Hs2 (numbered_Forall2 s2 _ (fun i spk => enc_stack (signed_witness s0 i spk)) Hs2 witness_bytes_ok)) as (s3 & E3 & Hs3).
  assert (put_outputs s1 = (s2, Ok (concat (map enc_txout (map recipient_out (recipients_ s0)))))) as Eo by (unfold put_outputs; by rewrite E2).
  exists (if existsb ik_nested ks then s3 else s2). split; [|by destruct (existsb _ _)]. unfold put_tx.
  rewrite (sign_bind_ok _ _ s s _ eq_refl). cbv zeta. rewrite (sign_bind_ok _ _ s s _ eq_refl), (sn_segwit s Hs). cbv zeta.
  rewrite (sign_bind_ok _ _ s s _ eq_refl). cbv zeta. rewrite (sign_bind_ok _ _ _ _ _ E1). cbv zeta.
  rewrite (sign_bind_ok _ _ s1 s1 _ eq_refl). cbv zeta. rewrite (sign_bind_ok _ _ _ _ _ Eo). cbv zeta.
  assert ((if existsb ik_nested ks then put_witnesses sp_getWitnessData else mret []) s2 = (if existsb ik_nested ks then s3 else s2,
    Ok (concat (map enc_stack (default [] (tx_witnesses (signed_tx s0 ks))))))) as Ew.
  { cbn [signed_tx tx_witnesses]. destruct (existsb ik_nested ks); [|done]. cbn [default from_option id].
    unfold put_witnesses. by rewrite E3, map_imap. }
  rewrite (sign_bind_ok _ _ _ _ _ Ew). cbv zeta. rewrite (sign_bind_ok _ _ _ _ _ eq_refl). unfold mret, sign_ret. f_equal. f_equal.
  destruct (tx_counts_64 (sg_tx s0) sg_tx_ok) as [Hn1 Hn2]. cbn [sg_tx tx_ins tx_outs] in Hn1, Hn2. unfold zlen in Hn1, Hn2. rewrite length_map in Hn1, Hn2.
  assert (zlen (spenders_ s) = Z.of_nat (length (spenders_ s0))) as -> by (unfold zlen; by rewrite (Forall2_length _ _ _ (bs_spenders s0 s (sn_base s Hs)))).
  assert (zlen (recipients_ s1) = Z.of_nat (length (recipients_ s0))) as -> by (unfold zlen; by rewrite (Forall2_length _ _ _ (bs_recipients s0 s1 (sn_base s1 Hs1)))).
  rewrite bw_put_uint32_t_str, !bw_put_BinaryData_str, bw_put_var_int_str, bw_put_BinaryData_str, bw_put_var_int_str by done.
  rewrite (bs_version s0 s (sn_base s Hs)).
  assert (sg_lockTime (if existsb ik_nested ks then s3 else s2) = sg_lockTime s0) as ->.
  { destruct (existsb _ _); [apply (bs_lockTime s0 s3), Hs3|apply (bs_lockTime s0 s2), Hs2]. }
  unfold enc_tx. cbn [signed_tx tx_version tx_ins tx_outs tx_locktime tx_witnesses]. rewrite map_imap.
  assert (zlen (imap (signed_in s0) (numbered s0 ks)) = Z.of_nat (length (spenders_ s0))) as -> by (unfold zlen; by rewrite length_imap, length_numbered).
  assert (zlen (map recipient_out (recipients_ s0)) = Z.of_nat (length (recipients_ s0))) as -> by (unfold zlen; by rewrite length_map).
  destruct (existsb ik_nested ks); rewrite ?bw_put_uint8_t_str, bw_put_uint32_t_str; cbn [theString_ bw_new app]; by rewrite <- !app_assoc.
Qed.
End signing.

(** ** Native witness programs *)

Section native.
Context `{HashFns} `{CryptoECDSA} `{BTC_SIGNER}.
Variables (s0 : Signer) (sp : ScriptSpender) (k : InputKey).

(** The only input spends an output that is the witness program of the key. *)
Record native_input : Prop := {
  ni_prepared : prepared s0;
  ni_spender : spenders_ s0 = [sp];
  ni_ready : input_ready sp;
  ni_outpoint : outpoint_ sp = [] \/ outpoint_ sp = outpoint_of sp;
  ni_output : script_ (utxo_ sp) = ik_program k;
  ni_legacy : legacyStatus_ sp = SpenderStatus_Unkonwn;
  ni_segwit : segwitStatus_ sp = SpenderStatus_Unkonwn;
  ni_partial : partialStack_ sp = [] /\ partialWitnessStack_ sp = [];
  ni_feed : resolverFeed_ sp = Some (ik_feed k);
  ni_key : key_signs k;
  ni_sw : ik_nested k = true;
}.
Hypothesis (Hni : native_input).

Lemma native_ready : Forall input_ready (spenders_ s0).
Proof using Hni. rewrite (ni_spender Hni). constructor; [apply Hni|constructor]. Qed.

Lemma native_resolved d s : base s0 s -> sg_draws s = sg_draws s0 ->
  exists s', @getResolvedStack Signer (SignerProxyFromSigner (ik_feed k) 0) (ik_feed k) (S (S d))
      (StackResolver_new (ik_program k) (sg_flags s) false) s =
    (s', Ok (mkResolvedStack true false [] (Some [StackItem_Sig 0 (sig_of_input s0 0 sp k); StackItem_PushData 1 (ik_pub k)]))) /\
    base s0 s' /\ spenders_touched s0 s s'.
Proof using Hni.
  intros Hb Hd. pose proof (ni_prepared Hni) as Hp. pose proof native_ready as Hr.
  destruct (lambda_ok s0 Hr (pr_recipients _ Hp) (pr_version _ Hp) (pr_lockTime _ Hp) (prepared_ok s0 Hp Hr) (prepared_outs s0 Hp) s 0 sp k Hb
    ltac:(by rewrite (ni_spender Hni)) (ni_key Hni) ltac:(by rewrite Hd, Nat.add_0_r)) as (s' & E & Hb' & Ht & _ & _).
  rewrite (ni_sw Hni) in E. exists s'. split; [|done]. rewrite (bs_flags s0 s Hb).
  assert (zlen (ik_hash k) = 20) as Hh by apply zlen_getHash160.
  rewrite ik_program_items.
  rewrite (resolve_program_ok _ _ (mkResolvedStack true false [StackItem_Sig 0 (sig_of_input s0 0 sp k); StackItem_PushData 1 (ik_pub k)] None) _ _ s s').
  - by rewrite Hh.
  - by left.
  - apply (pr_flags _ Hp).
  - unfold program_script. rewrite Hh. change (20 =? 20) with true. cbv iota.
    apply (resolve_p2pkh d (ik_hash k) (ik_pub k)); [done|by apply (ks_pub k (ni_key Hni))|exact E].
Qed.

(** The empty stack of the script is partly resolved for ever. *)
Lemma native_takes s sp1 sig pub : spenders_ s = [sp1] -> legacyStatus_ sp1 = SpenderStatus_Unkonwn ->
  segwitStatus_ sp1 = SpenderStatus_Unkonwn -> partialStack_ sp1 = [] -> partialWitnessStack_ sp1 = [] -> zlen sig < 2 ^ 32 -> zlen pub < 2 ^ 32 ->
  exists sp2, take_stacks 0 (mkResolvedStack true false [] (Some [StackItem_Sig 0 sig; StackItem_PushData 1 pub])) s =
      (set_isSegWit true (set_spenders [sp2] s), Ok tt) /\
    legacyStatus_ sp2 = SpenderStatus_Partial /\ segwitStatus_ sp2 = SpenderStatus_Resolved /\ witnessData_ sp2 = enc_stack [sig; pub].
Proof.
  intros Es El Eg Ep Epw Hsig Hpub. destruct (serialize_witness 0 1 sig pub Hsig Hpub) as (bs & Ew & Ebs). unfold take_stacks. cbn [rs_isP2SH rs_stack rs_witnessStack].
  assert (forall s (K : Sign ()) spa spb f, spenders_ s = [spa] -> f spa = (spb, Ok tt) ->
    (_ ← on_spender 0 f; K) s = K (set_spenders [spb] s)) as Hstep.
  { intros s1 K spa spb f E Hf. rewrite (sign_bind_ok _ _ s1 (set_spenders (<[0%nat:=spb]> (spenders_ s1)) s1) tt); [by rewrite E|].
    apply (on_spender_ok 0 f s1 spa); [by rewrite E|done]. }
  rewrite (Hstep s _ sp1 (sp_flagP2SH false sp1)) by done.
  set (spp := set_legacyStatus SpenderStatus_Partial (set_partialStack [] (sp_flagP2SH false sp1))).
  assert (evaluatePartialStacks spp = (spp, Ok tt)) as Ee.
  { unfold evaluatePartialStacks, evaluateLegacy. cbn [partialStack_ spp set_legacyStatus set_partialStack].
    change (0 <? zlen []) with false. cbn [andb]. unfold evaluateWitness. cbn [partialWitnessStack_ spp set_legacyStatus set_partialStack sp_flagP2SH].
    by rewrite Epw. }
  rewrite (Hstep _ _ (sp_flagP2SH false sp1) spp); [|done|apply (update_partial [] []); [cbn; by rewrite El|cbn [partialStack_ sp_flagP2SH]; by rewrite Ep]].
  rewrite (Hstep _ _ spp spp) by done. rewrite (sign_bind_ok _ _ _ _ tt eq_refl).
  set (spw := set_segwitStatus SpenderStatus_Partial
    (set_partialWitnessStack [(0, StackItem_Sig 0 sig); (1, StackItem_PushData 1 pub)] spp)).
  rewrite (Hstep _ _ spp spw); [|done|].
  2:{ apply update_witness; [cbn; by rewrite Eg|]. cbn [partialWitnessStack_ spp set_legacyStatus set_partialStack sp_flagP2SH].
      rewrite Epw. apply update_pair. }
  rewrite (on_spender_ok 0 _ _ spw (with_witness (witness_data bs 2) spw)); [|done|].
  - eexists. split; [reflexivity|]. by rewrite Ebs.
  - by apply (evaluate_witness [(0, StackItem_Sig 0 sig); (1, StackItem_PushData 1 pub)] bs 2).
Qed.

(** C29: a native witness program is never spent: for a signer whose one input
    spends one, [sign] makes the signature and the whole witness, but the empty stack of its script stays
    partly resolved, so that the signer is not valid and does not serialise. *)
Theorem native_program_stuck d : exists s1 sp1, sign (S (S d)) s0 = (s1, Ok tt) /\ spenders_ s1 = [sp1] /\
  segwitStatus_ sp1 = SpenderStatus_Resolved /\ witnessData_ sp1 = enc_stack [sig_of_input s0 0 sp k; ik_pub k] /\
  sg_isValid s1 = false /\ (sg_serialize s1).2 = Err ScriptError.
Proof using Hni.
  pose proof (ni_prepared Hni) as Hp. pose proof (ni_spender Hni) as Esp. pose proof (ni_ready Hni) as Hr.
  assert (base s0 s0) as Hb by (apply prepared_base; [done|]; rewrite Esp; constructor; [apply Hni|constructor]).
  set (s1 := set_spenders [sp_setFeed (Some (ik_feed k)) sp] s0).
  assert (base s0 s1) as Hb1.
  { apply base_set_spenders; [done|]. rewrite Esp. constructor; [|constructor].
    destruct Hb as [_ _ _ _ _ Hs _ _ _ _ _]. rewrite Esp in Hs. inversion Hs as [|? ? ? ? Hsame]; subst. destruct Hsame. by split. }
  destruct (native_resolved d s1 Hb1 eq_refl) as (s2 & E2 & Hb2 & Ht2).
  assert (exists sp2, spenders_ s2 = [sp2]) as [sp2 Esp2].
  { pose proof (Forall2_length _ _ _ (bs_spenders s0 s2 Hb2)) as Hlen. rewrite Esp in Hlen. destruct (spenders_ s2) as [|sp2 [|]]; [done|by exists sp2|done]. }
  assert (legacyStatus_ sp2 = SpenderStatus_Unkonwn /\ segwitStatus_ sp2 = SpenderStatus_Unkonwn /\ partialStack_ sp2 = [] /\
    partialWitnessStack_ sp2 = []) as (F1 & F2 & F3 & F4).
  { destruct Hni as [_ _ _ _ _ K1 K2 [K3 K4] _ _ _].
    destruct (Ht2 0%nat sp (sp_setFeed (Some (ik_feed k)) sp)) as [E|E]; [by rewrite Esp|done| |]; rewrite Esp2 in E; injection E as ->; done. }
  destruct (make_sig_ok k (data_of_input s0 0 sp k) (sg_draws s0 + 0) (ni_key Hni)) as (_ & _ & _ & _ & _ & Hsz & _).
  fold (sig_of_input s0 0 sp k) in Hsz. pose proof (ks_size k (ni_key Hni)) as Hpub.
  destruct (native_takes s2 sp2 (sig_of_input s0 0 sp k) (ik_pub k) Esp2 F1 F2 F3 F4) as (sp3 & E3 & L3 & G3 & W3); [lia|lia|].
  exists (set_isSegWit true (set_spenders [sp3] s2)), sp3.
  assert (utxo_isInitialized (utxo_ sp) = true) as Hu by (unfold utxo_isInitialized; apply Z.ltb_lt, Hr).
  split; [|split; [done|split; [done|split; [done|split]]]].
  - unfold sign. rewrite Esp. cbn [length for_spenders]. rewrite (sign_bind_ok _ _ s0 (set_isSegWit true (set_spenders [sp3] s2)) tt); [done|].
    unfold sign_spender. rewrite Esp. cbn [lookup list_lookup]. unfold sp_resolved, sp_hasUTXO. rewrite (ni_legacy Hni), Hu.
    change (negb (SpenderStatus_Unkonwn =? _)) with true. cbn [negb]. rewrite (ni_feed Hni). unfold getOutputScript. rewrite Hu, (ni_output Hni).
    cbn [negb]. change (set_spenders (<[0%nat:=_]> [sp]) s0) with s1. unfold sg_catch, resolve_spender.
    rewrite (sign_bind_ok _ _ s1 s1 (sg_flags s1) eq_refl), (sign_bind_ok _ _ _ _ _ E2), E3. done.
  - unfold sg_isValid, sp_resolved. cbn [spenders_ set_isSegWit set_spenders forallb]. by rewrite L3.
  - unfold sg_serialize. rewrite (sign_bind_ok _ _ _ _ _ eq_refl). cbn [serializedTx_ set_isSegWit set_spenders]. rewrite (bs_tx s0 s2 Hb2).
    change (negb (zlen [] =? 0)) with false. cbv iota. unfold put_tx, mbind, sign_bind, sg_get. cbn [spenders_ set_isSegWit set_spenders].
    unfold put_spenders. cbn [spenders_ set_isSegWit set_spenders each_spender]. unfold getSerializedInput. by rewrite L3.
Qed.
End native.
