(* ===== verification/SignerVerified.v ===== *)
(** * SignerVerified: a signed transaction passes verification

    [Signer::verify] on the bytes of a transaction that [sign] has signed: the
    outputs and flags that it collects from the spenders, the signatures as the
    verifier sees them, and the whole way from [sign] to [verify]. *)

From S2P Require Import Prelude BinaryData BinaryIO Hashing StdMap DBUtils BlockHeader TxLength TxFilter BlockData BlockDataProps.
From S2P Require Import ScriptParser ScriptParserProps StackItem Recipient SigHash TxEvalState Interpreter InterpreterFrame DerSig.
From S2P Require Import Resolver Verifier ScriptUtils SigHashProps InterpreterProps MultisigProps WitnessProps ResolverProps.
From S2P Require Import TxClasses TxClassesProps VerifierProps VerifierCorrect Spender Signer SignerProps SignerCorrect.

(** ** The outputs and the flags that the verifier gets *)

Definition spent_key (sp : ScriptSpender) : list byte * Z := (utxo_txHash (utxo_ sp), txOutIndex_ (utxo_ sp)).

Definition utxos_ordered (utxos : utxoMap) : Prop := map_ordered utxos /\ forall h m, map_find h utxos = Some m -> map_ordered m.

Definition put_utxo (h : list byte) (i : Z) (u : UTXO) (utxos : utxoMap) : utxoMap :=
  map_put h (map_put i u (match map_find h utxos with None => [] | Some m => m end)) utxos.

Lemma put_utxo_ordered h i u utxos : utxos_ordered utxos -> utxos_ordered (put_utxo h i u utxos).
Proof.
  intros [Ho Hm]. split; [by apply map_put_ordered|]. intros h' m. unfold put_utxo. destruct (decide (h = h')) as [->|Hne].
  - rewrite map_find_put_eq. intros [=<-]. apply map_put_ordered. destruct (map_find h' utxos) eqn:E; [by eapply Hm|done].
  - rewrite map_find_put_ne by done. apply Hm.
Qed.

Lemma find_put_utxo h i u utxos h' i' : utxos_ordered utxos ->
  find_utxo (put_utxo h i u utxos) h' i' = if decide ((h, i) = (h', i')) then Some u else find_utxo utxos h' i'.
Proof.
  intros [Ho Hm]. unfold find_utxo, put_utxo. destruct (decide (h = h')) as [->|Hne].
  - rewrite map_find_put_eq. destruct (decide (i = i')) as [->|Hne'].
    + by rewrite map_find_put_eq, decide_True.
    + rewrite map_find_put_ne; [|destruct (map_find h' utxos) eqn:E; [by eapply Hm|done]|done].
      rewrite decide_False by congruence. by destruct (map_find h' utxos).
  - rewrite map_find_put_ne, decide_False by (done || congruence). done.
Qed.

Lemma spent_utxos_ok sps0 sps : Forall input_ready sps0 -> Forall2 same_input sps0 sps -> NoDup (map spent_key sps0) ->
  forall utxos flags, utxos_ordered utxos ->
  exists utxos' flags', spent_utxos sps utxos flags = Ok (utxos', flags') /\
    (forall sp0, sp0 ∈ sps0 -> find_utxo utxos' (utxo_txHash (utxo_ sp0)) (txOutIndex_ (utxo_ sp0)) = Some (utxo_ sp0)) /\
    (forall h i, (h, i) ∉ map spent_key sps0 -> find_utxo utxos' h i = find_utxo utxos h i) /\
    (forall f, has_flag flags f = true -> has_flag flags' f = true) /\
    (forall sp f, sp ∈ sps -> has_flag (sp_getFlags sp) f = true -> has_flag flags' f = true).
Proof.
  intros Hr Hs. induction Hs as [|sp0 sp sps0 sps Hsp _ IH]; intros Hnd utxos flags Ho.
  { exists utxos, flags. split; [done|]. split; [by intros ? ?%elem_of_nil|]. split; [done|]. split; [done|]. by intros ? ? ?%elem_of_nil. }
  apply Forall_cons in Hr as [Hr0 Hr]. cbn [map] in Hnd. apply NoDup_cons in Hnd as [Hnin Hnd].
  cbn [spent_utxos]. rewrite (getOutputHash_ok sp0 sp Hr0 Hsp), (getOutputIndex_ok sp0 sp Hr0 Hsp). cbn [mbind result_bind].
  rewrite (si_utxo _ _ Hsp). fold (put_utxo (utxo_txHash (utxo_ sp0)) (txOutIndex_ (utxo_ sp0)) (utxo_ sp0) utxos).
  destruct (IH Hr Hnd (put_utxo (utxo_txHash (utxo_ sp0)) (txOutIndex_ (utxo_ sp0)) (utxo_ sp0) utxos) (Z.lor flags (sp_getFlags sp))
    (put_utxo_ordered _ _ _ _ Ho)) as (utxos' & flags' & E & Hfind & Hother & Hfl & Hfls).
  exists utxos', flags'. split; [done|]. split; [|split; [|split]].
  - intros sp1 [->|Hin]%elem_of_cons; [|by apply Hfind]. rewrite Hother by exact Hnin.
    rewrite find_put_utxo by done. by rewrite decide_True.
  - intros h i Hni. apply not_elem_of_cons in Hni as [Hne Hni]. rewrite Hother by done.
    rewrite find_put_utxo by done. rewrite decide_False; [done|]. unfold spent_key in Hne. congruence.
  - intros f Hf. apply Hfl. by rewrite has_flag_lor, Hf.
  - intros sp1 f [->|Hin]%elem_of_cons Hf; [|by eapply Hfls]. apply Hfl. rewrite has_flag_lor, Hf. apply orb_true_r.
Qed.

(** ** What a transaction's signatures cover does not depend on them *)

Lemma signing_ins_same n code ins ins' : map txin_outpoint ins = map txin_outpoint ins' -> map txin_sequence ins = map txin_sequence ins' ->
  forall k, signing_ins n k code ins = signing_ins n k code ins'.
Proof.
  revert ins'. induction ins as [|i ins IH]; intros [|i' ins'] Ho Hq k; try done. injection Ho as Ho1 Ho. injection Hq as Hq1 Hq.
  cbn [signing_ins]. rewrite (IH ins' Ho Hq). f_equal. unfold signing_in. by rewrite Ho1, Hq1.
Qed.

Section verified.
Context `{HashFns} `{CryptoECDSA} `{BTC_SIGNER}.
Variables (s0 : Signer) (ks : list InputKey).
Hypothesis (Hcs : can_sign s0 ks).

Lemma signed_at n i : tx_ins (signed_tx s0 ks) !! n = Some i ->
  exists sp0 k, spenders_ s0 !! n = Some sp0 /\ ks !! n = Some k /\ i = signed_in s0 n (sp0, k) /\ signable s0 sp0 k.
Proof using Hcs.
  cbn [signed_tx tx_ins]. rewrite list_lookup_imap, numbered_at. destruct (spenders_ s0 !! n) as [sp0|] eqn:Hi; [|done].
  destruct (ks !! n) as [k|] eqn:Hk; [|done]. intros [=<-]. exists sp0, k. repeat split_and; try done. by apply (signable_both s0 ks Hcs n).
Qed.

Lemma signed_map {B} (f : TxIn -> B) : (forall n sp0 k, f (signed_in s0 n (sp0, k)) = f (unsigned_in sp0)) ->
  map f (tx_ins (signed_tx s0 ks)) = map f (tx_ins (sg_tx s0)).
Proof using Hcs.
  intros Hf. cbn [signed_tx sg_tx tx_ins]. apply list_eq. intros n. rewrite map_imap, list_lookup_imap, numbered_at, !list_lookup_fmap.
  destruct (spenders_ s0 !! n) as [sp0|] eqn:Hi; [|done]. destruct (signable_at s0 ks Hcs n sp0 Hi) as (k & -> & _). cbn. by rewrite Hf.
Qed.

Lemma signing_tx_same n code : signing_tx (signed_tx s0 ks) n code = signing_tx (sg_tx s0) n code.
Proof using Hcs.
  unfold signing_tx. f_equal. apply signing_ins_same; by apply signed_map.
Qed.

Lemma bip143_same n sp0 k code v four :
  bip143 (signed_tx s0 ks) (signed_in s0 n (sp0, k)) code v four = bip143 (sg_tx s0) (unsigned_in sp0) code v four.
Proof using Hcs.
  unfold bip143, all_outpoints, all_sequences, all_outputs. by rewrite (signed_map txin_outpoint), (signed_map txin_sequence).
Qed.

(** *** Its size *)

Lemma zlen_concat_bound c (la lb : list (list byte)) : Forall2 (fun a b => zlen b <= zlen a + c) la lb ->
  zlen (concat lb) <= zlen (concat la) + c * zlen la.
Proof. induction 1 as [|a b la lb Hab _ IH]; [unfold zlen; cbn [length concat]; lia|]. cbn [concat]. rewrite !zlen_app, zlen_cons. lia. Qed.

Lemma sig_size n sp0 k : signable s0 sp0 k -> 8 <= zlen (sig_of_input s0 n sp0 k) <= 73.
Proof using Hcs. intros [_ _ Hk _]. by destruct (make_sig_ok k (data_of_input s0 n sp0 k) (sg_draws s0 + n) Hk) as (_ & _ & _ & _ & _ & Hsz & _). Qed.

Lemma zlen_signed_in n sp0 k : signable s0 sp0 k -> zlen (enc_txin (signed_in s0 n (sp0, k))) <= zlen (enc_txin (unsigned_in sp0)) + 151.
Proof using Hcs.
  intros Hs. pose proof (zlen_input k _ (sig_size n sp0 k Hs) (ks_size k (sb_key _ _ _ Hs))) as Hz.
  unfold enc_txin. cbn [signed_in unsigned_in txin_outpoint txin_script txin_sequence fst snd]. unfold var_bytes. rewrite !zlen_app.
  rewrite var_int_small by lia. change (zlen [_]) with 1. change (zlen (var_int_bytes (zlen []))) with 1. 
  change (@zlen byte []) with 0. lia.
Qed.

Lemma zlen_signed_witness n sp0 k : signable s0 sp0 k -> zlen (enc_stack (signed_witness s0 n (sp0, k))) <= 151.
Proof using Hcs.
  intros Hs. pose proof (sig_size n sp0 k Hs). pose proof (ks_size k (sb_key _ _ _ Hs)). unfold signed_witness. cbn [fst snd].
  destruct (ik_nested k); [|done]. unfold enc_stack. cbn [map concat]. unfold var_bytes. rewrite !zlen_app.
  rewrite !var_int_small by (change (zlen [_; _]) with 2; lia). change (zlen [z2b _]) with 1. change (@zlen byte []) with 0. lia.
Qed.

Lemma signed_tx_size : zlen (enc_tx (signed_tx s0 ks)) <= zlen (enc_tx (sg_tx s0)) + 320 * zlen (spenders_ s0) + 2.
Proof using Hcs.
  pose proof (length_numbered s0 ks Hcs) as Hln.
  assert (zlen (tx_ins (signed_tx s0 ks)) = zlen (spenders_ s0)) as E1 by (cbn [signed_tx tx_ins]; unfold zlen; by rewrite length_imap, Hln).
  assert (zlen (tx_ins (sg_tx s0)) = zlen (spenders_ s0)) as E2 by (cbn [sg_tx tx_ins]; unfold zlen; by rewrite length_map).
  assert (zlen (concat (map enc_txin (tx_ins (signed_tx s0 ks)))) <= zlen (concat (map enc_txin (tx_ins (sg_tx s0)))) + 151 * zlen (spenders_ s0)) as Hi.
  { assert (zlen (spenders_ s0) = zlen (map enc_txin (tx_ins (sg_tx s0)))) as -> by (rewrite <- E2; unfold zlen; by rewrite length_map).
    apply zlen_concat_bound, Forall2_same_length_lookup_2.
    - rewrite !length_map. unfold zlen in *. lia.
    - intros n a b Ha Hb. rewrite list_lookup_fmap in Hb. destruct (tx_ins (signed_tx s0 ks) !! n) as [i|] eqn:Hi; [|done].
      injection Hb as <-. destruct (signed_at n i Hi) as (sp0 & k & Hsp & _ & -> & Hs).
      cbn [sg_tx tx_ins] in Ha. rewrite !list_lookup_fmap, Hsp in Ha. injection Ha as <-. by apply zlen_signed_in. }
  assert (zlen (concat (map enc_stack (default [] (tx_witnesses (signed_tx s0 ks))))) <= 151 * zlen (spenders_ s0)) as Hw.
  { cbn [signed_tx tx_witnesses]. pose proof (zlen_nonneg (spenders_ s0)). destruct (existsb _ _); [|change (0 <= 151 * zlen (spenders_ s0)); lia]. cbn [default from_option id]. rewrite map_imap.
    pose proof (zlen_concat_bound 151 (replicate (length (spenders_ s0)) []) (imap (fun i x => enc_stack (signed_witness s0 i x)) (numbered s0 ks))) as Hb.
    assert (zlen (replicate (length (spenders_ s0)) (@nil byte)) = zlen (spenders_ s0)) as Er by (unfold zlen; by rewrite length_replicate).
    assert (forall m, concat (replicate m (@nil byte)) = []) as Ec by (intros m; by induction m). rewrite Er, Ec in Hb. apply Hb.
    apply Forall2_same_length_lookup_2; [by rewrite length_imap, length_replicate|].
    intros n a b [-> _]%lookup_replicate Hb'. rewrite list_lookup_imap, numbered_at in Hb'.
    destruct (spenders_ s0 !! n) as [sp0|] eqn:Hsp; [|done]. destruct (ks !! n) as [k|] eqn:Hk; [|done]. injection Hb' as <-.
    pose proof (zlen_signed_witness n sp0 k (signable_both s0 ks Hcs n sp0 k Hsp Hk)). change (@zlen byte []) with 0. lia. }
  unfold enc_tx. rewrite !zlen_app, E1, E2. cbn [sg_tx tx_witnesses tx_version tx_locktime tx_outs default map concat signed_tx] in *.
  change (@zlen byte []) with 0. rewrite !zlen_int_to. pose proof (zlen_nonneg (spenders_ s0)).
  assert (zlen (if (if existsb ik_nested ks then Some (imap (signed_witness s0) (numbered s0 ks)) else None) then [z2b 0; z2b 1] else []) <= 2)
    by by destruct (existsb _ _). lia.
Qed.

Lemma signed_tx_ok : tx_ok (signed_tx s0 ks).
Proof using Hcs.
  pose proof (sg_tx_ok s0 ks Hcs) as [_ _ Hnin _ Houts _ _]. pose proof (pr_size _ (cs_prepared _ _ Hcs)) as Hs. pose proof signed_tx_size as Hz.
  pose proof (length_numbered s0 ks Hcs) as Hln. split; try apply zlen_int_to; try done; try lia.
  - cbn [signed_tx sg_tx tx_ins] in *. unfold zlen in *. rewrite length_imap, Hln. by rewrite length_map in Hnin.
  - apply Forall_lookup_2. intros n i Hi. destruct (signed_at n i Hi) as (sp0 & k & _ & _ & -> & Hsb).
    pose proof (zlen_input k _ (sig_size n sp0 k Hsb) (ks_size k (sb_key _ _ _ Hsb))).
    split; [apply zlen_outpoint_of, Hsb|]. split; [apply zlen_int_to|]. cbn [signed_in txin_script fst snd]. lia.
  - cbn [signed_tx tx_witnesses tx_ins]. destruct (existsb _ _); [|done]. unfold zlen. by rewrite !length_imap.
Qed.

(** ** Verifying *)

Definition usp_of (n : nat) (spk : ScriptSpender * InputKey) : UTXO * Spend :=
  (utxo_ spk.1, spend_of spk.2 (sig_of_input s0 n spk.1 spk.2)).

Lemma zlen_ik_hash k : zlen (ik_hash k) = 20.
Proof. apply zlen_getHash160. Qed.

Lemma spend_ok utxos flags n sp0 k : signable s0 sp0 k -> spenders_ s0 !! n = Some sp0 -> ks !! n = Some k ->
  find_utxo utxos (utxo_txHash (utxo_ sp0)) (txOutIndex_ (utxo_ sp0)) = Some (utxo_ sp0) ->
  (ik_nested k = true -> has_flag flags SCRIPT_VERIFY_SEGWIT = true /\ has_flag flags SCRIPT_VERIFY_P2SH = true) ->
  spends (signed_tx s0 ks) utxos flags n (signed_in s0 n (sp0, k)) (usp_of n (sp0, k)).1 (usp_of n (sp0, k)).2.
Proof using Hcs.
  intros Hs Hi Hk Hu Hf. pose proof Hs as [Hr [Hout _ _ _ _ _ _] Hkey _].
  pose proof (sig_size n sp0 k Hs) as Hsz. pose proof (ks_size k Hkey) as Hp. cbn [usp_of fst snd].
  pose proof (txin_data_unsigned sp0 Hr) as Etd. unfold txin_data in Etd. injection Etd as Eh Ei _.
  split.
  - unfold unlock_ok, spend_of. cbn [sp_unlock]. split.
    + unfold hash_size. cbn [sp_place sp_unlock]. destruct (ik_nested k); apply zlen_ik_hash.
    + repeat constructor; cbn; lia.
  - unfold place_ok, spend_of. cbn [sp_place sp_unlock]. destruct (ik_nested k); [|done].
    split; [apply zlen_getHash160|by apply Hf].
  - done.
  - rewrite <- Hu. f_equal; [exact Eh|exact Ei].
  - rewrite Hout. unfold ik_output, output_of, spend_of. cbn [sp_place sp_unlock]. by destruct (ik_nested k).
  - intros Hpl. assert (ik_nested k = true) as Hn by (unfold spend_of in Hpl; cbn [sp_place] in Hpl; by destruct (ik_nested k)).
    assert (existsb ik_nested ks = true) as Hex.
    { apply existsb_exists. exists k. split; [apply list_elem_of_In; by eapply list_elem_of_lookup_2|done]. }
    unfold spend_of. cbn [signed_tx tx_witnesses sp_unlock witness_of]. rewrite Hex. cbn [default from_option id]. split.
    + rewrite list_lookup_imap, numbered_at, Hi, Hk. cbn. unfold signed_witness. cbn [fst snd]. by rewrite Hn.
    + pose proof (zlen_signed_witness n sp0 k Hs) as Hw. unfold signed_witness in Hw. cbn [fst snd] in Hw. rewrite Hn in Hw.
      split; [done| |lia]. repeat constructor; lia.
Qed.

Lemma verdict_ok n sp0 k : signable s0 sp0 k ->
  verdict (signed_tx s0 ks) n (signed_in s0 n (sp0, k)) (usp_of n (sp0, k)).1 (usp_of n (sp0, k)).2 = Ok true.
Proof using Hcs.
  intros [_ _ Hkey _]. destruct (make_sig_ok k (data_of_input s0 n sp0 k) (sg_draws s0 + n) Hkey) as (_ & _ & _ & _ & _ & _ & Hv).
  fold (sig_of_input s0 n sp0 k) in Hv. unfold verdict, signed_data, usp_of, spend_of. cbn [fst snd sp_place sp_unlock code_of program_of unlock_verdict].
  unfold data_of_input in Hv. destruct (ik_nested k).
  - fold (ik_program k). assert (equal (getHash160 (ik_program k)) (getHash160 (ik_program k)) = true) as ->
      by (rewrite equal_spec; by apply bool_decide_eq_true).
    by rewrite bip143_same.
  - by rewrite signing_tx_same.
Qed.

Lemma all_spend_lookup tx utxos flags ins : forall sps n, length ins = length sps ->
  (forall j i usp, ins !! j = Some i -> sps !! j = Some usp -> spends tx utxos flags (n + j) i usp.1 usp.2) ->
  all_spend tx utxos flags n ins sps.
Proof.
  induction ins as [|i ins IH]; intros [|usp sps] n Hl Hj; try done. split.
  - rewrite <- (Nat.add_0_r n). by apply (Hj 0%nat).
  - apply IH; [by injection Hl|]. intros j i' usp' Hi' Husp'. replace (S n + j)%nat with (n + S j)%nat by lia. by apply (Hj (S j)).
Qed.

Lemma all_accepted_lookup tx ins : forall sps n,
  (forall j i usp, ins !! j = Some i -> sps !! j = Some usp -> verdict tx (n + j) i usp.1 usp.2 = Ok true) ->
  all_accepted tx n ins sps = true.
Proof.
  induction ins as [|i ins IH]; intros [|usp sps] n Hj; try done. cbn [all_accepted]. unfold accepted.
  rewrite bool_decide_true.
  - apply IH. intros j i' usp' Hi' Husp'. replace (S n + j)%nat with (n + S j)%nat by lia. by apply (Hj (S j)).
  - rewrite <- (Nat.add_0_r n). by apply (Hj 0%nat).
Qed.

Variables (garbage : Z -> Z) (vd : nat).

Lemma verify_tx_ok utxos flags :
  (forall sp0, sp0 ∈ spenders_ s0 -> find_utxo utxos (utxo_txHash (utxo_ sp0)) (txOutIndex_ (utxo_ sp0)) = Some (utxo_ sp0)) ->
  (existsb ik_nested ks = true -> has_flag flags SCRIPT_VERIFY_SEGWIT = true /\ has_flag flags SCRIPT_VERIFY_P2SH = true) ->
  exists state, verify_tx garbage (S (S (S vd))) false (enc_tx (signed_tx s0 ks)) utxos flags = Ok state /\ tx_isValid state = true.
Proof using Hcs.
  intros Hu Hf. pose proof signed_tx_ok as Hok. pose proof (ok_size _ Hok) as Hz.
  unfold verify_tx. pose proof (bctx_parse_ok _ [] (zlen (enc_tx (signed_tx s0 ks))) Hok) as Ep. rewrite app_nil_r in Ep.
  rewrite Ep by (unfold two64; lia). cbn [mbind result_bind]. change (Z.lor 0 flags) with flags.
  set (sps := imap usp_of (numbered s0 ks)).
  assert (forall j i usp, tx_ins (signed_tx s0 ks) !! j = Some i -> sps !! j = Some usp ->
    exists sp0 k, spenders_ s0 !! j = Some sp0 /\ ks !! j = Some k /\ i = signed_in s0 j (sp0, k) /\ usp = usp_of j (sp0, k) /\ signable s0 sp0 k) as Hat.
  { intros j i usp Hi Husp. destruct (signed_at j i Hi) as (sp0 & k & Hsp & Hk & -> & Hs). exists sp0, k. repeat split_and; try done.
    unfold sps in Husp. rewrite list_lookup_imap, numbered_at, Hsp, Hk in Husp. by injection Husp. }
  assert (all_spend (signed_tx s0 ks) utxos flags 0 (tx_ins (signed_tx s0 ks)) sps) as Hall.
  { apply all_spend_lookup; [cbn [signed_tx tx_ins]; unfold sps; by rewrite !length_imap|].
    intros j i usp Hi Husp. destruct (Hat j i usp Hi Husp) as (sp0 & k & Hsp & Hk & -> & -> & Hs). apply spend_ok; try done.
    - apply Hu. by eapply list_elem_of_lookup_2.
    - intros Hn. apply Hf, existsb_exists. exists k. split; [apply list_elem_of_In; by eapply list_elem_of_lookup_2|done]. }
  pose proof (all_accepted_lookup (signed_tx s0 ks) (tx_ins (signed_tx s0 ks)) sps 0) as Hacc.
  assert (tx_outs (signed_tx s0 ks) ≠ []) as Ho by apply (tx_outs_some s0 ks Hcs).
  destruct (checkSigs_spends (signed_tx s0 ks) [] utxos flags Hok ltac:(rewrite app_nil_r; unfold two64; lia) Ho garbage vd
    (tx_ins (signed_tx s0 ks)) sps 0 (reset_state VerifierState_new) eq_refl Hall ltac:(done) ltac:(done)) as (v' & El & Ev).
  exists (txEvalState_ v'). split.
  - unfold evaluateState, verify, checkSigs. change (checkOutputs =? UINT64_MAX) with false. cbv iota.
    cbn [theTx_ bctx_of txins_]. rewrite off_sizes_length, length_map. change (Z.of_nat 0) with 0 in El. by rewrite El.
  - rewrite Ev, Hacc; [done|]. intros j i usp Hi Husp. destruct (Hat j i usp Hi Husp) as (sp0 & k & Hsp & Hk & -> & -> & Hs).
    by apply verdict_ok.
Qed.

Lemma finished_flags k sig sp : ik_nested k = true -> finished k sig sp ->
  has_flag (sp_getFlags sp) SCRIPT_VERIFY_SEGWIT = true /\ has_flag (sp_getFlags sp) SCRIPT_VERIFY_P2SH = true.
Proof.
  intros Hn [_ Hsw Hp _ _]. unfold sp_getFlags, sp_isSegWit. rewrite Hsw, Hp, Hn. change (negb (_ =? _)) with true. cbv iota.
  by destruct (isCSV_ sp), (isCLTV_ sp).
Qed.

Lemma sg_verify_ok s : signed s0 ks s -> exists s', sg_verify garbage (S (S (S vd))) s = (s', Ok true).
Proof using Hcs.
  intros Hs. destruct (sg_serialize_ok s0 ks Hcs s Hs) as (s1 & E1 & [Hb1 Hsw1 Hdone1]).
  unfold sg_verify. rewrite (sign_bind_ok _ _ _ _ _ E1), (sign_bind_ok _ _ _ _ _ eq_refl).
  cbn [spenders_ set_serializedTx].
  destruct (spent_utxos_ok (spenders_ s0) (spenders_ s1) (ready_all s0 ks Hcs) (bs_spenders s0 s1 Hb1) (cs_distinct _ _ Hcs) [] 0)
    as (utxos & flags & Eu & Hfind & _ & _ & Hflags); [split; [exact I|]; by intros ? ? [=]|].
  assert (existsb ik_nested ks = true -> has_flag flags SCRIPT_VERIFY_SEGWIT = true /\ has_flag flags SCRIPT_VERIFY_P2SH = true) as Hf.
  { intros (k & Hin & Hn)%existsb_exists. apply list_elem_of_In, list_elem_of_lookup_1 in Hin as [i Hk].
    pose proof (lookup_lt_Some _ _ _ Hk) as Hlt. rewrite <- (length_keys s0 ks Hcs) in Hlt. destruct (lookup_lt_is_Some_2 _ _ Hlt) as [sp0 Hi].
    destruct (base_spender s0 s1 i sp0 Hb1 Hi) as (sp & Hsp & _). apply list_elem_of_lookup_2 in Hsp as Hin.
    destruct (finished_flags k _ sp Hn (Hdone1 i sp0 k sp Hi Hk Hsp)) as [F1 F2]. split; by eapply Hflags. }
  destruct (verify_tx_ok utxos flags Hfind Hf) as (state & Ev & Hv).
  rewrite (sign_bind_ok _ _ _ _ (utxos, flags)) by (unfold sg_lift; by rewrite Eu). cbv beta iota.
  rewrite (sign_bind_ok _ _ _ _ _ eq_refl). cbn [sg_BCH set_serializedTx]. rewrite (bs_BCH s0 s1 Hb1).
  rewrite (sign_bind_ok _ _ _ _ state) by (unfold sg_lift; by rewrite Ev). eexists. unfold mret, sign_ret. by rewrite Hv.
Qed.

Lemma signed_valid s : signed s0 ks s -> sg_isValid s = true.
Proof using Hcs.
  intros [Hb _ Hdone]. unfold sg_isValid. apply forallb_forall. intros sp Hin.
  apply list_elem_of_In, list_elem_of_lookup_1 in Hin as [i Hsp].
  pose proof (lookup_lt_Some _ _ _ Hsp) as Hlt. rewrite <- (Forall2_length _ _ _ (bs_spenders s0 s Hb)) in Hlt.
  destruct (lookup_lt_is_Some_2 _ _ Hlt) as [sp0 Hi]. destruct (signable_at s0 ks Hcs i sp0 Hi) as (k & Hk & _).
  destruct (Hdone i sp0 k sp Hi Hk Hsp) as [Hl Hsw _ _ _]. unfold sp_resolved. rewrite Hl, Hsw. by destruct (ik_nested k).
Qed.

Lemma tx_hash_ok tx : tx_ok tx -> tx_hash (enc_tx tx) = Ok (txid tx).
Proof.
  intros Hok. unfold tx_hash. pose proof (ok_size tx Hok). pose proof (t_unserialize_ok tx [] TxObj_new Hok) as E. rewrite app_nil_r in E.
  rewrite E by (unfold two64; lia). cbn [mbind result_bind]. by rewrite t_getThisHash_ok.
Qed.

(** C6: a transaction all of whose inputs spend outputs that pay to the hash of
    a key, or to the hash of the witness program of one, where the inputs are
    distinct and not yet signed and the signer has the flag for witnesses, is
    signed with these keys, whatever the random generator and the memory of the interpreters
    hold: [sign] resolves every input, the transaction is serialised with the
    script and the witness of each, over the data of the right kind, [verify]
    accepts it, and its id is the hash of it without the witnesses. *)
Theorem sign_verifies depth : exists s1, sign (S (S (S depth))) s0 = (s1, Ok tt) /\ sg_isValid s1 = true /\
  (exists s2, sg_serialize s1 = (s2, Ok (enc_tx (signed_tx s0 ks)))) /\
  (exists s3, sg_verify garbage (S (S (S vd))) s1 = (s3, Ok true)) /\
  exists s4, getTxId depth s1 = (s4, Ok (txid (signed_tx s0 ks))).
Proof using Hcs.
  destruct (sign_ok s0 ks Hcs depth) as (s1 & E1 & Hp). apply (progress_signed s0 ks Hcs) in Hp.
  exists s1. split; [done|]. split; [by apply signed_valid|].
  destruct (sg_serialize_ok s0 ks Hcs s1 Hp) as (s2 & E2 & _).
  split; [by eexists|]. split; [by apply sg_verify_ok|]. eexists.
  unfold getTxId, sg_catch. rewrite (sign_bind_ok _ _ _ _ _ E2). unfold sg_lift. by rewrite (tx_hash_ok _ signed_tx_ok).
Qed.
End verified.

(** *** Witness: a key's hash, and the hash of a key's witness program *)

(** A signer whose number R is a polynomial of the key and the digest. *)
Definition toy_signer : BTC_SIGNER := fun privKey digest draw =>
  Ok (le_bytes 32 (toy_poly (privKey ++ digest)) ++ be_bytes 32 (1 + Z.of_nat draw mod 1000)).
Definition toy_curve : CryptoECDSA :=
  {| PubKey := list byte; default_PubKey := []; DecodePoint := id; Validate pk := zlen pk =? 33;
     VerifyMessage pk digest rs := equal (take 32 rs) (le_bytes 32 (toy_poly (rev pk ++ digest))) |}.

Definition toy_key (nested : bool) (n : Z) : InputKey :=
  let pk := z2b 2 :: replicate 32 (z2b n) in
  let h := @getHash160 toy_hashes pk in
  let program := p2wpkh_script h in
  mkInputKey nested pk (rev pk) {|
    getByVal key := if equal key h then Ok pk
                    else if equal key (@getHash160 toy_hashes program) then Ok program else Err RuntimeError;
    getPrivKeyForPubkey key := if equal key pk then Ok (rev pk) else Err RuntimeError;
  |}.

Lemma toy_key_signs nested n : zlen (z2b 2 :: replicate 32 (z2b n)) = 33 ->
  @getByVal (ik_feed (toy_key nested n)) (@ik_hash toy_hashes (toy_key nested n)) = Ok (ik_pub (toy_key nested n)) ->
  @getByVal (ik_feed (toy_key nested n)) (@getHash160 toy_hashes (@ik_program toy_hashes (toy_key nested n))) =
    Ok (@ik_program toy_hashes (toy_key nested n)) ->
  @getPrivKeyForPubkey (ik_feed (toy_key nested n)) (ik_pub (toy_key nested n)) = Ok (ik_priv (toy_key nested n)) ->
  @key_signs toy_hashes toy_curve toy_signer (toy_key nested n).
Proof.
  intros Hz E1 E2 E3. split; [cbn [toy_key ik_pub]; lia|exact (proj2 (Z.eqb_eq _ _) Hz)| |done|done|done].
  intros digest m. eexists. split; [reflexivity|]. cbn [toy_key ik_priv ik_pub].
  assert (be_val (be_bytes 32 (1 + Z.of_nat m mod 1000)) = 1 + Z.of_nat m mod 1000) as Eb.
  { rewrite be_val_be_bytes. pose proof (Z.mod_pos_bound (Z.of_nat m) 1000 ltac:(done)). apply Z.mod_small. lia. }
  assert (forall l, take 32 (le_bytes 32 (toy_poly l) ++ be_bytes 32 (1 + Z.of_nat m mod 1000)) = le_bytes 32 (toy_poly l)) as Et.
  { intros l. rewrite take_app_le by (by rewrite length_le_bytes). by rewrite take_ge by (by rewrite length_le_bytes). }
  assert (forall l, drop 32 (le_bytes 32 (toy_poly l) ++ be_bytes 32 (1 + Z.of_nat m mod 1000)) = be_bytes 32 (1 + Z.of_nat m mod 1000)) as Ed.
  { intros l. by rewrite drop_app_length' by (by rewrite length_le_bytes). }
  split; [|split].
  - rewrite zlen_app, zlen_le_bytes. unfold zlen. by rewrite length_be_bytes.
  - rewrite Ed, Eb. pose proof (Z.mod_pos_bound (Z.of_nat m) 1000 ltac:(done)). unfold low_s.
    rewrite (proj2 (Z.ltb_ge _ _)); [lia|]. assert (1001 <= Z.shiftr SECP256K1_ORDER 1) by (vm_compute; discriminate). lia.
  - cbn [VerifyMessage toy_curve DecodePoint]. unfold low_rs. rewrite take_app_le by (rewrite length_take, length_app, length_le_bytes, length_be_bytes; lia).
    rewrite take_take, Et. cbn [id Nat.min]. rewrite equal_spec. by apply bool_decide_eq_true.
Qed.

Definition toy_ks : list InputKey := [toy_key false 7; toy_key true 8].
Definition toy_spender (n : Z) (k : InputKey) : ScriptSpender :=
  ScriptSpender_utxo (mkUTXO (replicate 32 (z2b 9)) n 0 0 (5000 + n) (@ik_output toy_hashes k) false 0 false 0 0) (Some (ik_feed k)).
Definition toy_recipient : ScriptRecipient := mkRecipient (Recipient_P2WPKH (replicate 20 (z2b 3))) 9000 [].
Definition toy_signer_state : Signer :=
  addRecipient toy_recipient (addSpender (toy_spender 1 (toy_key true 8)) (addSpender (toy_spender 0 (toy_key false 7))
    (sg_setFlags SCRIPT_VERIFY_SEGWIT (Signer_new false)))).

Lemma toy_signable n i b : @key_signs toy_hashes toy_curve toy_signer (toy_key b n) -> is_uint 32 i ->
  zlen (@ik_output toy_hashes (toy_key b n)) = (if b then 23 else 25) ->
  @signable toy_hashes toy_curve toy_signer toy_signer_state (toy_spender i (toy_key b n)) (toy_key b n).
Proof.
  intros Hk Hi Hz. split; [| |exact Hk|by left]; split; try done; unfold toy_spender; cbn -[zlen ik_output].
  by rewrite Hz; destruct b.
Qed.

Lemma toy_prepared : prepared toy_signer_state.
Proof.
  split; try done.
  - repeat constructor; try done.
  - repeat constructor; vm_compute; done.
Qed.

Lemma toy_can_sign : @can_sign toy_hashes toy_curve toy_signer toy_signer_state toy_ks.
Proof.
  split; [exact toy_prepared| |].
  - cbn [toy_signer_state toy_ks spenders_ addRecipient set_recipients addSpender set_spenders app sg_setFlags Signer_new].
    constructor; [|constructor; [|constructor]]; (apply toy_signable; [apply toy_key_signs; vm_compute; reflexivity|done|vm_compute; reflexivity]).
  - apply (bool_decide_unpack _). vm_compute. exact I.
Qed.

Lemma sign_verifies_witness : exists s1, @sign toy_hashes toy_signer 3 toy_signer_state = (s1, Ok tt) /\ sg_isValid s1 = true /\
  (exists s2, sg_serialize s1 = (s2, Ok (enc_tx (@signed_tx toy_hashes toy_signer toy_signer_state toy_ks)))) /\
  (exists s3, @sg_verify toy_hashes toy_curve (fun k => k + 12) 3 s1 = (s3, Ok true)) /\
  exists s4, @getTxId toy_hashes toy_signer 0 s1 = (s4, Ok (@txid toy_hashes (@signed_tx toy_hashes toy_signer toy_signer_state toy_ks))).
Proof. exact (@sign_verifies toy_hashes toy_curve toy_signer toy_signer_state toy_ks toy_can_sign (fun k => k + 12) 0 0). Defined.

(** *** Witness: a native witness program *)

Definition toy_native_spender : ScriptSpender :=
  ScriptSpender_utxo (mkUTXO (replicate 32 (z2b 9)) 0 0 0 5000 (@ik_program toy_hashes (toy_key true 8)) false 0 false 0 0)
    (Some (ik_feed (toy_key true 8))).
Definition toy_native_state : Signer :=
  addRecipient toy_recipient (addSpender toy_native_spender (sg_setFlags SCRIPT_VERIFY_SEGWIT (Signer_new false))).

Lemma toy_native_input : @native_input toy_hashes toy_curve toy_signer toy_native_state toy_native_spender (toy_key true 8).
Proof.
  split; try done.
  - split; try done.
    + repeat constructor; try done.
    + repeat constructor; vm_compute; done.
  - by left.
  - apply toy_key_signs; vm_compute; reflexivity.
Qed.

Lemma native_program_stuck_witness : exists s1 sp1, @sign toy_hashes toy_signer 2 toy_native_state = (s1, Ok tt) /\ spenders_ s1 = [sp1] /\
  segwitStatus_ sp1 = SpenderStatus_Resolved /\
  witnessData_ sp1 = enc_stack [@sig_of_input toy_hashes toy_signer toy_native_state 0 toy_native_spender (toy_key true 8); ik_pub (toy_key true 8)] /\
  sg_isValid s1 = false /\ (sg_serialize s1).2 = Err ScriptError.
Proof. exact (@native_program_stuck toy_hashes toy_curve toy_signer toy_native_state toy_native_spender (toy_key true 8) toy_native_input 0). Defined.
