(* ===== verification/InterpreterControl.v ===== *)
(** * InterpreterControl: conditionals and recursion

    What an OP_IF runs and what it does not, and redeem scripts that the
    interpreter never finishes. *)

From S2P Require Import Prelude BinaryData BinaryIO Hashing StdMap DBUtils BlockHeader TxLength TxFilter BlockData BlockDataProps.
From S2P Require Import ScriptParser ScriptParserProps SigHash TxEvalState Interpreter InterpreterFrame Verifier ScriptUtils.
From S2P Require Import SigHashProps InterpreterProps MultisigProps WitnessProps VerifierProps VerifierCorrect.

(** ** Searching for the end of a block *)

(** Not a conditional, and not the end or the middle of one. *)
Definition plain (it : item) : Prop :=
  item_ok it /\ match it with IPush _ => True | IOp v => v ≠ 103 /\ v ≠ 104 end.

Lemma plain_op p it : plain it -> oc_opcode (op_of p it) ≠ 99 /\ oc_opcode (op_of p it) ≠ 100 /\
  oc_opcode (op_of p it) ≠ 103 /\ oc_opcode (op_of p it) ≠ 104.
Proof.
  destruct it as [d|v]; intros [Hok Hp]; simpl in *; [|lia]. unfold push_value. repeat zcase; lia.
Qed.

Lemma fork_at pre post : zlen (pre ++ post) < two64 -> brr_fork (brr_at pre post) = brr_at [] post.
Proof.
  intros Hl. unfold brr_fork. rewrite brr_remaining_at by done. unfold brr_at. cbn [bdRef_ pos_ app].
  by rewrite drop_pre.
Qed.

Lemma seek_plain a sw post : is_switch sw -> Forall plain a -> forall pre fuel,
  zlen (pre ++ enc_items a ++ [z2b sw] ++ post) < two64 -> (length a < fuel)%nat ->
  seekToNextIfSwitch_loop fuel 0 (brr_at pre (enc_items a ++ [z2b sw] ++ post)) =
  (brr_at (pre ++ enc_items a) ([z2b sw] ++ post), Ok tt).
Proof.
  intros Hsw. induction 1 as [|it a Hit Ha IH]; intros pre fuel Hl Hf; (destruct fuel as [|fuel]; [simpl in Hf; lia|]);
    cbn [seekToNextIfSwitch_loop].
  - change (enc_items []) with (@nil byte) in *. cbn [app] in Hl. rewrite app_nil_r. change ([] ++ ?l) with l.
    rewrite brr_remaining_at by done. rewrite (zlen_app [z2b sw]). change (zlen [z2b sw]) with 1. pose proof (zlen_nonneg post). zsimp.
    rewrite getNextOpcode_byte by done. cbn [oc_opcode oc_dataRef]. change (1 + zlen []) with 1. rewrite rewind_at by done.
    rewrite is_IF, is_NOTIF, is_ENDIF, is_ELSE. destruct Hsw as [->| ->]; done.
  - rewrite enc_items_cons in *. rewrite <- app_assoc in *. pose proof Hit as [Hok _]. pose proof (script_item_pos it Hok).
    rewrite brr_remaining_at by done. rewrite (zlen_app (enc_item it)).
    match goal with |- context [_ + zlen ?l] => pose proof (zlen_nonneg l) end. zsimp.
    rewrite (getNextOpcode_item (zlen pre) it Hok pre _ eq_refl) by done.
    destruct (plain_op (zlen pre) it Hit) as (H1 & H2 & H3 & H4).
    rewrite is_IF, is_NOTIF, is_ENDIF, is_ELSE. rewrite !(proj2 (Z.eqb_neq _ _)) by done. cbn [orb].
    rewrite (IH (pre ++ enc_item it) fuel) by (rewrite <- ?app_assoc; done || (simpl in Hf; lia)). by rewrite <- app_assoc.
Qed.

Lemma plain_length a : Forall plain a -> (length a <= length (enc_items a))%nat.
Proof. intros Ha. apply items_length. eapply Forall_impl; [exact Ha|]. by intros it [? _]. Qed.

Lemma seek_switch a sw post pre : is_switch sw -> Forall plain a -> zlen (pre ++ enc_items a ++ [z2b sw] ++ post) < two64 ->
  seekToNextIfSwitch (brr_at pre (enc_items a ++ [z2b sw] ++ post)) = (brr_at (pre ++ enc_items a) ([z2b sw] ++ post), Ok tt).
Proof.
  intros Hsw Ha Hl. apply seek_plain; try done. pose proof (plain_length a Ha). unfold parse_fuel. cbn [bdRef_ brr_at].
  rewrite !length_app. lia.
Qed.

(** The block before a switch. *)
Lemma if_block_at a sw post pre : is_switch sw -> Forall plain a -> zlen (enc_items a) < 2 ^ 32 ->
  zlen (pre ++ enc_items a ++ [z2b sw] ++ post) < two64 ->
  if_block (brr_at pre (enc_items a ++ [z2b sw] ++ post)) = Ok (enc_items a, brr_at (pre ++ enc_items a) ([z2b sw] ++ post)).
Proof.
  intros Hsw Ha H32 Hl. unfold if_block. rewrite fork_at by done. rewrite (seek_switch a sw post []) by
    (done || (rewrite zlen_app in Hl; pose proof (zlen_nonneg pre); rewrite (zlen_app []), zlen_nil; lia)).
  cbn [pos_ brr_at app]. pose proof (zlen_nonneg (enc_items a)). rewrite wrap_small by (unfold is_uint; lia).
  by apply (brr_get_BinaryData_parses _ (enc_items a) eq_refl).
Qed.

Lemma seek_ends fuel b post pre : Forall plain b -> zlen (pre ++ enc_items b ++ [z2b 104] ++ post) < two64 ->
  seekToEndIf_loop (S fuel) (brr_at pre (enc_items b ++ [z2b 104] ++ post)) = (brr_at (pre ++ enc_items b ++ [z2b 104]) post, Ok tt).
Proof.
  intros Hb Hl. cbn [seekToEndIf_loop].
  rewrite brr_remaining_at by done. rewrite !zlen_app. change (zlen [z2b 104]) with 1.
  pose proof (zlen_nonneg (enc_items b)). pose proof (zlen_nonneg post). zsimp.
  rewrite seek_switch by (done || by right). rewrite app_assoc in Hl.
  rewrite (brr_get_uint8_t_parses 104 ltac:(done) (pre ++ enc_items b) post Hl). rewrite is_ENDIF. cbn [Z.eqb Pos.eqb].
  by rewrite <- app_assoc.
Qed.

(** From an OP_ELSE: that opcode is a switch itself. *)
Lemma seekToEndIf_else b post pre : Forall plain b -> zlen (pre ++ [z2b 103] ++ enc_items b ++ [z2b 104] ++ post) < two64 ->
  (seekToEndIf (brr_at pre ([z2b 103] ++ enc_items b ++ [z2b 104] ++ post))).2 = Ok tt.
Proof.
  intros Hb Hl. unfold seekToEndIf, parse_fuel.
  assert (exists f, S (length (bdRef_ (brr_at pre ([z2b 103] ++ enc_items b ++ [z2b 104] ++ post)))) = S f /\ (0 < f)%nat) as (g & -> & Hg).
  { eexists. split; [reflexivity|]. cbn [bdRef_ brr_at]. rewrite !length_app. simpl. lia. }
  cbn [seekToEndIf_loop]. rewrite brr_remaining_at by done. rewrite (zlen_app [z2b 103]). change (zlen [z2b 103]) with 1.
  match goal with |- context [1 + zlen ?l] => pose proof (zlen_nonneg l) end. zsimp.
  pose proof (seek_switch [] 103 (enc_items b ++ [z2b 104] ++ post) pre ltac:(by left) ltac:(constructor) Hl) as E.
  change (enc_items []) with (@nil byte) in E. rewrite app_nil_r in E.
  change ([] ++ ?l) with l in E. rewrite E.
  rewrite (brr_get_uint8_t_parses 103 ltac:(done) pre _ Hl). rewrite is_ENDIF. cbn [Z.eqb Pos.eqb].
  rewrite app_assoc in Hl. destruct g as [|f]; [lia|].
  pose proof (seek_ends f b post (pre ++ [z2b 103]) Hb Hl) as E2. by rewrite E2.
Qed.

(** ** Conditionals *)

(** An OP_IF takes all that is left of the script as its data. *)
Lemma getNextOpcode_if data : zlen data < 2 ^ 32 - 1 ->
  getNextOpcode (brr_setNewData ([z2b 99] ++ data)) = Ok (mkOpCode 0 99 data, brr_at ([z2b 99] ++ data) []).
Proof.
  intros Hl. pose proof (zlen_nonneg data). unfold getNextOpcode. rewrite brr_setNewData_at.
  unfold mbind at 1, reader_bind at 1. unfold get_position. unfold mbind at 1, reader_bind at 1.
  assert (zlen ([] ++ [z2b 99] ++ data) < two64) as Hz by (rewrite (zlen_app []), zlen_nil, zlen_app; change (zlen [z2b 99]) with 1; unfold two64; lia).
  rewrite (brr_get_uint8_t_parses 99 ltac:(done) [] data Hz). cbv beta. rewrite is_IF. zsimp.
  change ([] ++ [z2b 99]) with [z2b 99]. rewrite brr_remaining_at by exact Hz. rewrite wrap_small by (unfold is_uint; lia).
  unfold mbind, reader_bind.
  pose proof (brr_get_BinaryData_parses (zlen data) data eq_refl [z2b 99] []) as E. rewrite app_nil_r in E. rewrite E by exact Hz. done.
Qed.

Section conditionals.
Context `{HashFns} `{CryptoECDSA} `{TransactionStub}.
Variable rec : Buffer -> BinaryRefReader -> bool -> Script ().
Variable buf : Buffer.
Hypothesis Hbuf : lasting buf = true.

Lemma lasting_alive s : alive buf s = true.
Proof. by destruct buf. Qed.

Lemma op_if_else_at b post pre out vm : Forall plain b -> zlen (enc_items b) < 2 ^ 32 ->
  zlen (pre ++ [z2b 103] ++ enc_items b ++ [z2b 104] ++ post) < two64 ->
  op_if_else rec buf (brr_at pre ([z2b 103] ++ enc_items b ++ [z2b 104] ++ post)) out vm =
  (_ ← rec buf (brr_setNewData (enc_items b)) out; mret tt) vm.
Proof.
  intros Hb H32 Hl. unfold op_if_else.
  erewrite read_bind_ok; [|apply lasting_alive|by apply (brr_get_uint8_t_parses 103 ltac:(done) pre _ Hl)]. cbv beta iota.
  rewrite is_ENDIF, is_ELSE. cbn [Z.eqb Pos.eqb negb]. rewrite app_assoc in Hl.
  rewrite (lift_bind_ok _ _ _ _ (if_block_at b 104 post (pre ++ [z2b 103]) ltac:(by right) Hb H32 Hl)). cbv beta iota.
  unfold mbind, script_bind. destruct (rec _ _ out vm) as [vm' [[]|e]]; [|done]. unfold read_from. rewrite lasting_alive, andb_false_r.
  rewrite app_assoc in Hl. pose proof (seek_ends (length (bdRef_ (brr_at ((pre ++ [z2b 103]) ++ enc_items b) ([z2b 104] ++ post)))) []
    post ((pre ++ [z2b 103]) ++ enc_items b) ltac:(constructor) Hl) as E.
  change (enc_items [] ++ ?l) with l in E. unfold seekToEndIf, parse_fuel. by rewrite E.
Qed.
Lemma bind_ret_unit (m : Script ()) vm : (_ ← m; mret tt) vm = m vm.
Proof. unfold mbind, script_bind. by destruct (m vm) as [vm' [[]|e]]. Qed.

Definition if_script (a b : list item) (rest : list byte) : list byte :=
  enc_items a ++ [z2b 103] ++ enc_items b ++ [z2b 104] ++ rest.

(** The branches: what is left when the first one throws goes to the second. *)
Definition branches (runA runB : Script ()) (cond : list byte) : Script () := fun vm =>
  if notZero cond then
    match runA vm with (vm', Err e) => if bool_decide (e = ScriptError) then runB vm' else (vm', Err e) | r => r end
  else runB vm.

Lemma op_if_at a b rest out s st d l : Forall plain a -> Forall plain b -> zlen (if_script a b rest) < 2 ^ 32 ->
  stack_ s = d :: l ->
  op_if rec buf (brr_setNewData (if_script a b rest)) out (s, st) =
  branches (rec buf (brr_setNewData (enc_items a)) out) (rec buf (brr_setNewData (enc_items b)) out) d (set_isValid false (set_stack l s), st).
Proof.
  intros Ha Hb Hl Es. unfold op_if, if_script in *.
  assert (zlen (enc_items a) < 2 ^ 32 /\ zlen (enc_items b) < 2 ^ 32) as [Hza Hzb].
  { rewrite !zlen_app in Hl. pose proof (zlen_nonneg (enc_items a)). pose proof (zlen_nonneg (enc_items b)).
    pose proof (zlen_nonneg rest). pose proof (zlen_nonneg [z2b 103]). pose proof (zlen_nonneg [z2b 104]). lia. }
  rewrite brr_setNewData_at.
  assert (zlen ([] ++ enc_items a ++ [z2b 103] ++ enc_items b ++ [z2b 104] ++ rest) < two64) as Hz
    by (rewrite (zlen_app []), zlen_nil; unfold two64; lia).
  rewrite (lift_bind_ok _ _ _ _ (if_block_at a 103 _ [] ltac:(by left) Ha Hza Hz)). cbv beta iota.
  rewrite app_assoc in Hz. unfold op_if_try, branches.
  pose proof (op_if_else_at b rest ([] ++ enc_items a) out) as Helse.
  assert (op_verify (s, st) = ((set_isValid (notZero d) (set_stack l s), st), if notZero d then Ok tt else Err ScriptError)) as Ev
    by by apply op_verify_run.
  destruct (notZero d).
  - rewrite (script_bind_ok _ _ _ _ _ Ev), modify_bind. cbn [fst snd].
    change (set_isValid false (set_isValid true ?s)) with (set_isValid false s).
    destruct (rec buf (brr_setNewData (enc_items a)) out _) as [vm' [[]|e]].
    + pose proof (seekToEndIf_else b rest ([] ++ enc_items a) Hb Hz) as Hend.
      unfold read_from. by rewrite lasting_alive, andb_false_r, Hend.
    + case_bool_decide; [|done]. rewrite Helse by done. apply bind_ret_unit.
  - rewrite (script_bind_err _ _ _ _ _ Ev). rewrite bool_decide_true by done. rewrite Helse by done. apply bind_ret_unit.
Qed.
End conditionals.

(** A conditional with both branches, at the start of a script: of the two
    branches the one that the top of the stack chooses runs, and nothing behind
    the OP_ENDIF does, whatever it is; if the first branch throws, the second
    one runs too, on the state the first has left. *)
Theorem conditional_runs `{HashFns} `{CryptoECDSA} `{TransactionStub} depth a b rest s st d l :
  Forall plain a -> Forall plain b -> zlen (if_script a b rest) < 2 ^ 32 - 1 -> stack_ s = d :: l ->
  let script := [z2b 99] ++ if_script a b rest in
  let s1 := enter_op (start_script Lasting true script s) in
  processScript (S depth) Lasting (brr_setNewData script) true (s, st) =
  branches (processScript depth Lasting (brr_setNewData (enc_items a)) false)
    (processScript depth Lasting (brr_setNewData (enc_items b)) false) d
    (set_isValid false (set_stack l s1), st).
Proof.
  intros Ha Hb Hl Es script s1. pose proof (zlen_nonneg (if_script a b rest)).
  assert (zlen script < two64) as Hz by (unfold script; rewrite zlen_app; change (zlen [z2b 99]) with 1; unfold two64; lia).
  cbn [processScript]. rewrite !modify_bind. cbn [fst snd]. change (bdRef_ (brr_setNewData script)) with script.
  fold (start_script Lasting true script s). unfold parseScript, parse_fuel.
  assert (exists f, S (length (bdRef_ (brr_setNewData script))) = S (S f)) as [f ->] by (by eexists).
  cbn [parseScript_loop]. rewrite brr_setNewData_at, brr_remaining_at by exact Hz. rewrite <- brr_setNewData_at.
  replace (zlen script =? 0) with false by (symmetry; apply Z.eqb_neq; unfold script; rewrite zlen_app; change (zlen [z2b 99]) with 1; lia).
  cbn [negb]. erewrite read_bind_ok; [|done|apply getNextOpcode_if; lia]. cbv beta iota.
  assert (forall vm, parseScript_loop (processScript depth) Lasting (S f) (brr_at script []) vm = (vm, Ok tt)) as Hend.
  { intros vm. cbn [parseScript_loop]. by rewrite brr_remaining_at by by rewrite app_nil_r. }
  unfold mbind at 1, script_bind at 1. rewrite (process_op _ _ 0 99 OP_IF) by done. unfold process_switch. cbn [oc_opcode oc_dataRef].
  change (opcode_at 99) with (Some OP_IF). cbv iota. fold s1.
  rewrite (op_if_at _ Lasting eq_refl a b rest false s1 st d l Ha Hb ltac:(lia)).
  2:{ unfold s1. by rewrite stack_enter_op. }
  unfold branches. fold script. destruct (notZero d).
  - destruct (processScript depth _ (brr_setNewData (enc_items a)) false _) as [vm [[]|e]]; [apply Hend|].
    case_bool_decide; [|done]. destruct (processScript depth _ _ false vm) as [vm' [[]|e']]; [apply Hend|done].
  - destruct (processScript depth _ _ false _) as [vm' [[]|e']]; [apply Hend|done].
Qed.

(** *** Witness: the first branch fails, the second one runs, the byte behind
    does not *)

Lemma conditional_runs_witness :
  (@processScript toy_hashes toy_crypto (tx_stub (mkTx [] [] [] None []) [] [] 0 false) 2
     Lasting (brr_setNewData ([z2b 99] ++ if_script [IOp 0; IOp 105] [IOp 82] [z2b 255])) true
     (set_stack [[z2b 1]] (StackInterpreter_new 0 0), StubState_new)).2 = Ok tt.
Proof.
  rewrite (@conditional_runs toy_hashes toy_crypto (tx_stub (mkTx [] [] [] None []) [] [] 0 false) 1 [IOp 0; IOp 105] [IOp 82]
    [z2b 255] _ _ [z2b 1] []).
  - vm_compute. reflexivity.
  - repeat (constructor; [repeat split; cbn; lia|]). constructor.
  - repeat (constructor; [repeat split; cbn; lia|]). constructor.
  - vm_compute. reflexivity.
  - reflexivity.
Defined.

(** ** A redeem script that never ends *)

(** OP_1 OP_1 OP_EQUAL: the interpreter takes its OP_EQUAL for the one of the
    output and runs the redeem script again. *)
Definition looping : list item := [IOp 81; IOp 81; IOp 135].

Section loop.
Context `{HashFns} `{CryptoECDSA} `{TransactionStub}.

Lemma looping_ok : Forall item_ok looping.
Proof. repeat constructor; cbn; lia. Qed.

(** None of its opcodes saves a script. *)
Lemma looping_readable s : readable (P2sh (p2shCount_ s)) looping s.
Proof. right. right. split; [apply Nat.eqb_refl|]. by repeat constructor. Qed.

Lemma redeem_loops d : forall s st, onlyPushDataInInput_ s = true -> p2shScript_ s = enc_items looping ->
  (processScript d (P2sh (p2shCount_ s)) (brr_setNewData (enc_items looping)) true (s, st)).2 = Err NoFuel.
Proof.
  induction d as [|d IH]; intros s st Hp Hr; [done|].
  rewrite processScript_items by (apply looping_ok || done || by apply looping_readable).
  destruct s as [stk alt op idx v cnt fl out p2sh sw ev so bch ob pc]. cbn [onlyPushDataInInput_ p2shScript_] in Hp, Hr. subst op p2sh.
  change (ops_of 0 looping) with (ops_of 0 [IOp 81; IOp 81; IOp 135]). cbn [ops_of run_ops p2shCount_].
  erewrite script_bind_ok by (apply (process_num _ _ _ 1 []); lia).
  erewrite script_bind_ok by (apply (process_num _ _ _ 1 []); lia).
  unfold mbind at 1, script_bind at 1. unfold op_of. rewrite (process_op _ _ _ 135 OP_EQUAL) by done. rewrite enter_op_output by done.
  unfold process_switch. cbn [oc_opcode]. change (opcode_at 135) with (Some OP_EQUAL). cbv iota. unfold op_equal_p2sh.
  erewrite script_bind_ok by by eapply op_equal_run. rewrite !get_bind. cbn [fst].
  cbn [onlyPushDataInInput_ p2shScript_ set_stack count set_opcount start_script set_isValid set_outputBuf set_outputScript andb].
  change (negb (zlen (enc_items looping) =? 0)) with true. cbv iota.
  change (equal [z2b 1] [z2b 1]) with true.
  unfold mbind at 1, script_bind at 1. erewrite op_verify_run by done. change (notZero _) with true. cbv iota. rewrite get_bind.
  cbn [fst isValid_ set_isValid negb]. rewrite get_bind. erewrite lift_bind_ok by reflexivity.
  change ((zlen (enc_items looping) =? 22) || (zlen (enc_items looping) =? 34)) with false. rewrite andb_false_r. cbn [andb].
  rewrite get_bind. cbn [fst p2shCount_ set_isValid set_stack].
  match goal with |- context [processScript d _ _ true (?s', st)] => specialize (IH s' st eq_refl eq_refl);
    destruct (processScript d _ (brr_setNewData (enc_items looping)) true (s', st)) as [vm r] end.
  cbn [snd] in IH. by subst r.
Qed.
End loop.

Lemma looping_not_program f : is_program f (enc_items looping) = false.
Proof. unfold is_program. change ((zlen (enc_items looping) =? 22) || (zlen (enc_items looping) =? 34)) with false. by rewrite andb_false_r. Qed.

Lemma run_looping `{HashFns} `{CryptoECDSA} `{TransactionStub} d h s st : zlen h = 20 -> h = getHash160 (enc_items looping) ->
  stack_ s = [] -> onlyPushDataInInput_ s = true -> has_flag (flags_ s) SCRIPT_VERIFY_P2SH = true ->
  (run_both d (enc_items [IPush (enc_items looping)]) (p2sh_script h) (s, st)).2 = Err NoFuel.
Proof.
  intros Hh Eh Es Hp Hf. destruct d as [|d]; [done|].
  assert (Forall item_ok [IPush (enc_items looping)]) as Hit by (repeat constructor; vm_compute; reflexivity).
  destruct (run_data (processScript d) Lasting [IPush (enc_items looping)] [enc_items looping]
    ltac:(constructor; [split; [by inversion Hit|done]|constructor]) 0 (start_script Lasting false (enc_items [IPush (enc_items looping)]) s) st) as [c E1].
  rewrite <- processScript_items in E1 by (done || by apply readable_lasting).
  rewrite (run_both_after _ _ _ _ _ E1), p2sh_script_items by done. set (s1 := set_opcount c _).
  pose proof (processScript_items d Lasting (sh_items false h) true s1 st (sh_items_ok false h ltac:(lia))) as E2.
  assert (zlen (enc_items (sh_items false h)) < two64) as Hz.
  { pose proof (zlen_items_le _ (sh_items_ok false h ltac:(lia))) as Hle. change (zlen (sh_items false h)) with 3 in Hle.
    unfold two64. lia. }
  specialize (E2 Hz ltac:(by apply readable_lasting)).
  destruct (run_p2sh (processScript d) Lasting false h (enc_items looping) [] (start_script Lasting true (enc_items (sh_items false h)) s1) st)
    as [s' E3]; try done; [lia|by cbn; rewrite Es|].
  rewrite E3 in E2. replace (equal h (sh_hash false (enc_items looping))) with true in E2.
  2:{ symmetry. rewrite equal_spec. by apply bool_decide_eq_true. }
  unfold run_redeem_script in E2. rewrite looping_not_program in E2. rewrite get_bind in E2. cbn [fst] in E2.
  pose proof (redeem_loops d (at_redeem (enc_items looping) [] (start_script Lasting true (enc_items (sh_items false h)) s1)) st Hp eq_refl) as Hloop.
  unfold mbind, script_bind. rewrite E2.
  destruct (processScript d _ (brr_setNewData (enc_items looping)) true _) as [vm r]. cbn [snd] in Hloop. by subst r.
Qed.

(** ** A redeem script that overwrites itself *)

(** An OP_HASH160 in front is taken for that of the output: it saves the top of
    the stack in the place of the script that is being read, whose other bytes
    are then gone. *)
Theorem redeem_overwritten `{HashFns} `{CryptoECDSA} `{TransactionStub} d rest top l s st :
  0 < zlen rest < 2 ^ 32 -> stack_ s = top :: l -> onlyPushDataInInput_ s = true ->
  has_flag (flags_ s) SCRIPT_VERIFY_P2SH = true ->
  (processScript (S d) (P2sh (p2shCount_ s)) (brr_setNewData ([z2b 169] ++ rest)) true (s, st)).2 = Err UB.
Proof.
  intros Hr Es Ho Hf. cbn [processScript]. rewrite !modify_bind. cbn [fst snd]. unfold parseScript.
  assert (zlen ([] ++ [z2b 169] ++ rest) < two64) as Hz by (rewrite !zlen_app; change (zlen [z2b 169]) with 1; change (zlen []) with 0; unfold two64; lia).
  assert (exists f, parse_fuel (brr_setNewData ([z2b 169] ++ rest)) = S (S f)) as [f ->] by by eexists.
  rewrite brr_setNewData_at. set (s1 := set_isValid false _). cbn [parseScript_loop].
  rewrite brr_remaining_at by exact Hz. rewrite zlen_app. change (zlen [z2b 169]) with 1. zsimp.
  erewrite read_bind_ok; [|by apply Nat.eqb_refl|by apply (getNextOpcode_item 0 (IOp 169) ltac:(cbn; lia) [] rest eq_refl)].
  cbv beta iota. erewrite script_bind_ok by (by apply (process_save_hash _ _ false 0 s1 st top l)).
  rewrite brr_remaining_at by exact Hz. zsimp. unfold mbind, script_bind, read_from.
  rewrite brr_remaining_at by exact Hz. zsimp. cbn [fst]. unfold alive.
  replace (p2shCount_ s =? p2shCount_ _)%nat with false by (symmetry; apply Nat.eqb_neq; cbn; lia). done.
Qed.

(** C30: a transaction whose first input spends, with P2SH enabled, an output
    that pays to the hash of the script OP_1 OP_1 OP_EQUAL is never verified:
    however deep the interpreter may recurse, it recurses deeper. *)
Theorem verify_diverges `{HashFns} `{CryptoECDSA} tx tl utxos flags garbage i ins u :
  tx_ok tx -> zlen (enc_tx tx ++ tl) < two64 -> tx_ins tx = i :: ins ->
  has_flag flags SCRIPT_VERIFY_P2SH = true -> txin_script i = enc_items [IPush (enc_items looping)] ->
  find_utxo utxos (outpoint_hash i) (outpoint_index i) = Some u -> script_ u = p2sh_script (getHash160 (enc_items looping)) ->
  forall depth noCatch v, verify (mkVerifier (bctx_of tx tl) utxos flags false) garbage depth noCatch v = Err NoFuel.
Proof.
  intros Hok Hl Ei Hf Hscr Hu Hus depth noCatch v. set (tv := mkVerifier _ _ _ _).
  assert (tx_ins tx !! 0%nat = Some i) as Hi by by rewrite Ei.
  assert (forall w, (checkSig tv depth 0 (getStackInterpreter tv garbage 0 (vs_stub v)).1 w).2 = Err NoFuel) as Hsig.
  { intros w. set (s := (getStackInterpreter _ _ _ _).1).
    pose proof (checkSig_scripts tx tl utxos flags false depth 0 i u s w Hok Hl Hi Hu) as Ec.
    cbv zeta in Ec. fold tv in Ec. change (Z.of_nat 0) with 0 in Ec. rewrite Ec.
    assert (exists shd w1, share_sigHash tv s w = (setSegWitSigHashDataObject shd s, w1)) as (shd & w1 & ->).
    { unfold share_sigHash. destruct (usesWitness_ _); [|by exists None, w].
      destruct (vs_sigHashDataObject w); [by eexists _, _|]. cbn [new_segwit]. by eexists _, _. }
    rewrite Hscr, Hus. unfold tv. rewrite run_scripts_both by (apply enc_items_nonempty; split; vm_compute; reflexivity).
    pose proof (run_looping (H1 := tx_stub tx tl utxos flags false) depth (getHash160 (enc_items looping)) (setSegWitSigHashDataObject shd s) (vs_stub w1)
      (zlen_ripemd160 _) eq_refl eq_refl eq_refl) as Hr.
    cbn [flags_ setSegWitSigHashDataObject s getStackInterpreter fst setFlags tv_flags tv_BCH tv] in Hr.
    rewrite has_flag_lor, Hf, orb_true_r in Hr. specialize (Hr eq_refl).
    destruct (run_both _ _ _ _) as [[s' st'] r]. cbn [snd] in *. by subst r. }
  unfold verify. change (checkOutputs =? UINT64_MAX) with false. cbv iota.
  unfold checkSigs, checkSigs_NoCatch. cbn [theTx_ tv bctx_of txins_]. rewrite off_sizes_length, length_map, Ei.
  cbn [length checkSigs_loop checkSigs_NoCatch_loop].
  assert ((getStackInterpreter tv garbage 0 (vs_stub v)).2 = vs_stub v) as Hsame by done.
  change (vs_stub (reset_state v)) with (vs_stub v).
  destruct (getStackInterpreter tv garbage 0 (vs_stub v)) as [s0 stub0]. cbn [fst snd] in *.
  specialize (Hsig (with_stub (reset_state v) stub0)).
  destruct (checkSig tv depth 0 s0 _) as [[s1 v1] r]. cbn [snd] in Hsig. subst r. by destruct noCatch.
Qed.

(** *** Witness *)

Definition w_looping : Tx :=
  mkTx (int_to LE 4 1) [mkTxIn (w_outpoint 0) (enc_items [IPush (enc_items looping)]) (replicate 4 (z2b 255))]
    [some_txout] None (int_to LE 4 0).
Definition w_loop_utxo : UTXO :=
  mkUTXO (replicate 32 (z2b 9)) 0 0 0 5000 (p2sh_script (@getHash160 toy_hashes (enc_items looping))) false 0 false 0 0.

Lemma w_looping_ok : tx_ok w_looping.
Proof.
  split.
  - vm_compute. reflexivity.
  - vm_compute. reflexivity.
  - vm_compute. discriminate.
  - repeat (constructor; [split; [|split]; vm_compute; reflexivity|]). constructor.
  - repeat (constructor; [split; vm_compute; reflexivity|]). constructor.
  - vm_compute. reflexivity.
  - vm_compute. reflexivity.
Qed.

Lemma verify_diverges_witness :
  @verify toy_hashes toy_crypto (mkVerifier (bctx_of w_looping []) [(replicate 32 (z2b 9), [(0, w_loop_utxo)])] 4 false)
    (fun _ => 0) 50 false VerifierState_new = Err NoFuel.
Proof.
  apply (@verify_diverges toy_hashes toy_crypto w_looping [] [(replicate 32 (z2b 9), [(0, w_loop_utxo)])] 4 (fun _ => 0)
    (mkTxIn (w_outpoint 0) (enc_items [IPush (enc_items looping)]) (replicate 4 (z2b 255))) [] w_loop_utxo).
  - exact w_looping_ok.
  - vm_compute. reflexivity.
  - reflexivity.
  - reflexivity.
  - reflexivity.
  - vm_compute. reflexivity.
  - vm_compute. reflexivity.
Defined.

Lemma redeem_overwritten_witness :
  (@processScript toy_hashes toy_crypto (tx_stub (mkTx [] [] [] None []) [] [] 0 false) 1 (P2sh 0)
     (brr_setNewData ([z2b 169] ++ [z2b 81])) true (set_stack [[z2b 7]] (StackInterpreter_new 4 0), StubState_new)).2 = Err UB.
Proof.
  apply (@redeem_overwritten toy_hashes toy_crypto (tx_stub (mkTx [] [] [] None []) [] [] 0 false) 0 [z2b 81] [z2b 7] []
    (set_stack [[z2b 7]] (StackInterpreter_new 4 0))); [split; vm_compute; reflexivity|reflexivity|reflexivity|reflexivity].
Defined.
