(* ===== verification/BlockFile.v ===== *)
(** * BlockFile: reading block files into the chain

    [parseBlockFile] and [addBlocksToDB] of cppForSwig/DatabaseBuilder.cpp: the
    blocks of a file, each behind the magic bytes of the network and its size,
    are parsed, their headers go to the [Blockchain] and their filters to the
    database.  The transaction hints of a supernode (the argument [fullHints])
    are not modelled. *)

From S2P Require Import Prelude BinaryData BinaryIO Hashing StdMap Merkle DBUtils BlockHeader HeadersDB.
From S2P Require Import TxLength TxFilter Blockchain BlockData.

(** ** [BlockOffset] (BlockDataMap.h) *)

Record BlockOffset := mkBlockOffset { bo_fileID : Z; bo_offset : Z }.

Definition offset_after (a b : BlockOffset) : bool :=
  if bo_fileID a =? bo_fileID b then bo_offset b <? bo_offset a else bo_fileID b <? bo_fileID a.

(** ** [parseBlockFile]

    [callback data size offset] is told where a block is; its answer says
    whether to go on behind the block.  [fileMap] always points to byte
    [progress] of the file. *)
Section parse.
Context (magicBytes_ : list byte) {S : Type} (callback : list byte -> Z -> Z -> S -> result (bool * S)).

(** The magic bytes at [progress], or the next ones found behind: how far to
    the size of the block; [None] when there are no more. *)
Definition seek_magic (file : list byte) (progress : Z) : result (option Z) :=
  let fileSize := zlen file in
  let magicBytesSize := zlen magicBytes_ in
  magic ← raw_read file progress magicBytesSize;
  if equal magic magicBytes_ then Ok (Some magicBytesSize)
  else
    let localProgress := magicBytesSize in
    let theFile := take (Z.to_nat (fileSize - progress - localProgress))
                     (drop (Z.to_nat (progress + localProgress)) file) in
    foundOffset ← find theFile magicBytes_ 0;
    if foundOffset =? -1 then Ok None
    else
      let localProgress := localProgress + foundOffset in
      magic ← raw_read file (progress + localProgress) magicBytesSize;
      if negb (equal magic magicBytes_) then Err RuntimeError else Ok (Some (localProgress + 4)).

(** One round of the loop: [None] at its end, or where to go on. *)
Definition parse_round (file : list byte) (progress : Z) (s : S) : result (option (Z * S)) :=
  let fileSize := zlen file in
  if negb (progress + zlen magicBytes_ <? fileSize) then Ok None
  else
    sought ← seek_magic file progress;
    match sought with
    | None => Ok None
    | Some localProgress =>
        if fileSize <=? progress + localProgress + 4 then Ok None
        else
          thisBlkSize ← u32_at file (progress + localProgress);
          let localProgress := localProgress + 4 in
          if fileSize <? progress + localProgress + thisBlkSize then Ok None
          else
            let progress := progress + localProgress in
            '(answer, s) ← callback (drop (Z.to_nat progress) file) thisBlkSize progress s;
            Ok (Some (if (answer : bool) then progress + thisBlkSize else progress, s))
    end.

(** Every round advances by at least four bytes: [fuel] is above the size of
    the file. *)
Fixpoint parse_loop (fuel : nat) (file : list byte) (progress : Z) (s : S) : result S :=
  match fuel with
  | O => Err UB
  | Datatypes.S fuel =>
      round ← parse_round file progress s;
      match round with
      | None => Ok s
      | Some (progress, s) => parse_loop fuel file progress s
      end
  end.

Definition check_magic (file : list byte) : result () :=
  if zlen file <? zlen magicBytes_ then Err RuntimeError
  else
    magic ← raw_read file 0 (zlen magicBytes_);
    if negb (equal magic magicBytes_) then Err RuntimeError else Ok tt.

Definition parseBlockFile (file : list byte) (startOffset : Z) (s : S) : result S :=
  _ ← check_magic file;
  parse_loop (Datatypes.S (length file)) file startOffset s.
End parse.

(** ** [addBlocksToDB] *)

Section builder.
Context {DB : Type} `{Store DB} `{HashFns}.

(** What the parsing of a file keeps: the chain, the blocks by id, and the end
    of the last block. *)
Record Tally := mkTally {
  t_chain : Blockchain;
  bdMap : stdmap Z BlockData;
  t_bo : BlockOffset;
}.

(** The callback [tallyBlocks]; every exception is caught, and the chain is the
    one before the call, for [deserialize] throws before it takes an id. *)
Definition tallyBlocks (fileID : Z) (fullHints : bool) (data : list byte) (size offset : Z) (t : Tally)
    : result (bool * Tally) :=
  match deserialize data size None (fun _ => getNewUniqueID) true fullHints BlockData_new (t_chain t) with
  | Err UB => Err UB
  | Err _ => Ok (false, t)
  | Ok (bd, bc) =>
      let bd := setOffset offset (setFileID fileID bd) in
      let blockoffset := mkBlockOffset fileID (offset + bd_size bd) in
      Ok (true, mkTally bc (map_insert (bd_uniqueID bd) bd (bdMap t)).1
                  (if offset_after blockoffset (t_bo t) then blockoffset else t_bo t))
  end.

(** The headers of the parsed blocks, by hash. *)
Fixpoint make_headers (bds : list BlockData) (bhmap : stdmap HashString Ptr) : Chain (stdmap HashString Ptr) :=
  match bds with
  | [] => mret bhmap
  | bd :: bds =>
      h ← chain_of (bd_createBlockHeader bd);
      p ← make_shared h;
      make_headers bds (map_insert (thisHash_ h) p bhmap).1
  end.

(** [bdMap[bdId]] of an inserted block. *)
Fixpoint tally_filters (m : stdmap Z BlockData) (insertedBlocks : list Z) (allFilters : list TxFilter)
    : list TxFilter :=
  match insertedBlocks with
  | [] => allFilters
  | bdId :: ids =>
      let bd := default BlockData_new (map_find bdId m) in
      tally_filters (map_insert bdId BlockData_new m).1 ids (filter_insert (txFilter_ bd) allFilters)
  end.

(** The filters of the file's pool, for a full node's database. *)
Definition update_filters (fileID : Z) (m : stdmap Z BlockData) (insertedBlocks : list Z) (db : DB) : result DB :=
  pool ← getFilterPoolForFileNum fileID db;
  if bool_decide (insertedBlocks = []) && pool_isValid pool then Ok db
  else putFilterPoolForFileNum fileID (pool_update (tally_filters m insertedBlocks []) pool) db.

(** [addBlocksToDB] without [fullHints]; [fileMap] is [None] when there is no
    such file.  Returns the chain and the filters' table, and the offset. *)
Definition addBlocksToDB (magicBytes : list byte) (dbType : ARMORY_DB_TYPE) (fileMap : option (list byte))
    (fileID startOffset : Z) (bo : BlockOffset) (bc : Blockchain) (db : DB)
    : result (bool * BlockOffset * Blockchain * DB) :=
  match fileMap with
  | None => Ok (false, bo, bc, db)
  | Some file =>
      t ← parseBlockFile magicBytes (tallyBlocks fileID false) file startOffset (mkTally bc [] bo);
      '(insertedBlocks, bc) ← (bhmap ← make_headers (map_values (bdMap t)) []; addBlocksInBulk bhmap) (t_chain t);
      db ← (match dbType with
            | ARMORY_DB_FULL => update_filters fileID (bdMap t) insertedBlocks db
            | _ => Ok db
            end);
      Ok (true, t_bo t, bc, db)
  end.
End builder.
