(* ===== verification/BlockFileParse.v ===== *)
(** * BlockFileParse: the theorems about finding the blocks of a file

    [parseBlockFile] ends on every file, never reads outside it, whatever the
    callback answers, and calls the callback once for each block of a
    well-formed file, in order, from any block boundary on. *)

From S2P Require Import Prelude BinaryData BinaryIO Hashing StdMap Merkle DBUtils BlockHeader HeadersDB.
From S2P Require Import TxLength TxFilter TxFilterProps Blockchain BlockData BlockFile.

(** ** Reads of a file *)

Lemma raw_read_split l p n : 0 <= p -> 0 <= n -> p + n <= zlen l -> exists pre mid post,
  l = pre ++ mid ++ post /\ zlen pre = p /\ zlen mid = n /\ raw_read l p n = Ok mid.
Proof.
  intros Hp Hn Hl. set (pre := take (Z.to_nat p) l). set (rest := drop (Z.to_nat p) l).
  set (mid := take (Z.to_nat n) rest). set (post := drop (Z.to_nat n) rest).
  assert (l = pre ++ mid ++ post) as E by (unfold mid, post; rewrite take_drop; unfold pre, rest; by rewrite take_drop).
  assert (zlen pre = p) as E1 by (unfold pre, zlen in *; rewrite length_take; lia).
  assert (zlen mid = n) as E2.
  { unfold mid, rest, zlen in *. rewrite length_take, length_drop. lia. }
  exists pre, mid, post. split; [done|]. split; [done|]. split; [done|]. by eapply raw_read_mid.
Qed.

Lemma the_file (file : list byte) p : 0 <= p -> p <= zlen file ->
  take (Z.to_nat (zlen file - p)) (drop (Z.to_nat p) file) = drop (Z.to_nat p) file.
Proof. intros. apply take_ge. rewrite length_drop. unfold zlen in *. lia. Qed.

Lemma u32_at_ok l p : 0 <= p -> p + 4 <= zlen l -> exists v, u32_at l p = Ok v /\ 0 <= v.
Proof.
  intros Hp Hl. destruct (raw_read_split l p 4) as (? & mid & ? & _ & _ & _ & E); [lia..|].
  unfold u32_at. rewrite E. eexists. split; [done|]. apply le_val_range.
Qed.

Section magic.
Context (magic : list byte) (Hmagic : zlen magic = 4).

(** ** The search for the magic bytes *)

Lemma magic_ne : magic ≠ [].
Proof. intros E. by rewrite E in Hmagic. Qed.

(** The part of the file that is searched. *)
Lemma seek_magic_ok file progress : zlen file < 2 ^ 31 -> 0 <= progress -> progress + 4 < zlen file ->
  exists r, seek_magic magic file progress = Ok r /\
    match r with
    | Some lp => 4 <= lp /\ progress + lp <= zlen file
    | None => forall k, 4 <= k -> ~ occurs_at magic (drop (Z.to_nat progress) file) k
    end.
Proof.
  intros Hf Hp Hl. unfold seek_magic. rewrite Hmagic.
  destruct (raw_read_split file progress 4) as (pre & mid & post & E & E1 & E2 & ->); [lia..|].
  cbn [mbind result_bind]. rewrite equal_spec. case_bool_decide; [exists (Some 4); split; [done|lia]|].
  rewrite <- Z.sub_add_distr, the_file by lia.
  destruct (find_spec (drop (Z.to_nat (progress + 4)) file) magic 0 magic_ne) as (r & Hr & Hcase);
    [|lia|lia|].
  { unfold zlen in *. rewrite length_drop. lia. }
  rewrite Hr. cbn [mbind result_bind].
  assert (forall k, 0 <= k -> drop (Z.to_nat k) (drop (Z.to_nat (progress + 4)) file) =
    drop (Z.to_nat (progress + (4 + k))) file) as Hd.
  { intros k Hk. rewrite drop_drop. f_equal. lia. }
  destruct Hcase as [[-> Hno]|(Hr0 & Hocc & _)].
  - exists None. split; [done|]. intros k Hk [_ [tl Ht]]. apply (Hno (k - 4)); [lia|]. split; [lia|].
    exists tl. rewrite Hd by lia. replace (4 + (k - 4)) with k by lia. rewrite <- Ht, drop_drop. f_equal. lia.
  - replace (r =? -1) with false by lia. destruct Hocc as [_ [tl Ht]]. rewrite Hd in Ht by lia.
    pose proof (f_equal zlen Ht) as Hz. unfold zlen at 1 in Hz. rewrite length_drop, zlen_app, Hmagic in Hz.
    pose proof (zlen_nonneg tl). unfold zlen in Hl, Hz at 1.
    assert (raw_read file (progress + (4 + r)) 4 = Ok magic) as ->.
    { apply (raw_read_mid (take (Z.to_nat (progress + (4 + r))) file) _ tl); [by rewrite <- Ht, take_drop| |done].
      unfold zlen. rewrite length_take. lia. }
    cbn [mbind result_bind]. rewrite equal_spec, bool_decide_true by done. cbn [negb].
    exists (Some (4 + r + 4)). split; [done|]. unfold zlen. lia.
Qed.

Lemma seek_magic_here pre post : seek_magic magic (pre ++ magic ++ post) (zlen pre) = Ok (Some 4).
Proof.
  unfold seek_magic. rewrite raw_read_app. cbn [mbind result_bind].
  by rewrite equal_spec, bool_decide_true, Hmagic.
Qed.

Lemma seek_magic_none pre tail : zlen (pre ++ tail) < 2 ^ 31 -> 4 < zlen tail -> take 4 tail ≠ magic ->
  (forall k, 4 <= k -> ~ occurs_at magic tail k) -> seek_magic magic (pre ++ tail) (zlen pre) = Ok None.
Proof.
  intros Hl H4 Hne Hno. pose proof (zlen_nonneg pre) as Hp0.
  assert (zlen (pre ++ tail) = zlen pre + zlen tail) as Ez by apply zlen_app.
  destruct (seek_magic_ok (pre ++ tail) (zlen pre) Hl Hp0) as (r & Hr & Hcase); [lia|].
  rewrite Hr. destruct r as [lp|]; [|done]. exfalso.
  revert Hr. unfold seek_magic. rewrite Hmagic.
  rewrite (raw_read_mid pre (take 4 tail) (drop 4 tail)); [|by rewrite take_drop|done|
    unfold zlen in *; rewrite length_take; lia].
  cbn [mbind result_bind]. rewrite equal_spec, bool_decide_false by done.
  rewrite <- Z.sub_add_distr, the_file by lia.
  assert (drop (Z.to_nat (zlen pre + 4)) (pre ++ tail) = drop 4 tail) as ->.
  { replace (Z.to_nat (zlen pre + 4)) with (length pre + 4)%nat by (unfold zlen; lia). apply drop_app_add. }
  destruct (find_spec (drop 4 tail) magic 0 magic_ne) as (r & Hr & Hc); [|lia|lia|].
  { unfold zlen in *. rewrite length_drop. lia. }
  rewrite Hr. cbn [mbind result_bind]. destruct Hc as [[-> _]|(Hr0 & [_ [tl Hocc]] & _)]; [done|].
  exfalso. apply (Hno (4 + r)); [lia|]. split; [lia|]. exists tl. rewrite <- Hocc, drop_drop. f_equal. lia.
Qed.

(** ** A file of blocks *)

Definition entry (blk : list byte) : list byte := magic ++ le_bytes 4 (zlen blk) ++ blk.
Definition entries (blks : list (list byte)) : list byte := concat (map entry blks).

(** What may follow the last block: too few bytes for another one, bytes
    without the magic ones (such as the zeros a node reserves), or a block that
    is not all there yet. *)
Definition tail_ok (tail : list byte) : Prop :=
  zlen tail <= 4 \/
  (take 4 tail ≠ magic /\ forall k, 4 <= k -> ~ occurs_at magic tail k) \/
  (exists part, tail = magic ++ part /\ zlen part <= 4) \/
  (exists n part, tail = magic ++ le_bytes 4 n ++ part /\ is_uint 32 n /\ zlen part < n).

Lemma zlen_entry blk : zlen (entry blk) = 8 + zlen blk.
Proof. unfold entry. autorewrite with zlen. rewrite Hmagic. lia. Qed.

Lemma check_magic_spec file : check_magic magic file =
  if decide (take 4 file = magic) then Ok tt else Err RuntimeError.
Proof.
  unfold check_magic. rewrite Hmagic. destruct (Z.ltb_spec (zlen file) 4) as [H4|H4].
  { rewrite decide_False; [done|]. intros E. rewrite <- E in Hmagic. unfold zlen in *. rewrite length_take in Hmagic. lia. }
  assert (raw_read file 0 4 = Ok (take 4 file)) as ->.
  { apply (raw_read_mid [] _ (drop 4 file)); [by rewrite app_nil_l, take_drop|done|].
    unfold zlen in *. rewrite length_take. lia. }
  cbn [mbind result_bind]. rewrite equal_spec. by case_bool_decide; case_decide.
Qed.

Lemma check_magic_entries before blks tail : before ++ blks ≠ [] ->
  check_magic magic (entries before ++ entries blks ++ tail) = Ok tt.
Proof.
  intros Hne. rewrite check_magic_spec, decide_True; [done|].
  assert (exists rest, entries before ++ entries blks ++ tail = magic ++ rest) as (rest & ->).
  { destruct before as [|b before]; [destruct blks as [|b blks]; [done|]|];
      unfold entries; cbn [map concat]; unfold entry; rewrite <- ?app_assoc; by eexists. }
  apply take_app_length'. unfold zlen in Hmagic. lia.
Qed.

End magic.

Section parse.
Context (magic : list byte) {S : Type} (callback : list byte -> Z -> Z -> S -> result (bool * S)).
Context (Hmagic : zlen magic = 4).

(** ** Any file: an invariant of the callback is kept *)

Section invariant.
Context (Inv : S -> Prop) (file : list byte).
Context (Hcb : forall off sz s, 0 <= off -> 0 <= sz -> off + sz <= zlen file -> Inv s ->
  exists answer s', callback (drop (Z.to_nat off) file) sz off s = Ok (answer, s') /\ Inv s').

Lemma parse_round_inv progress s : zlen file < 2 ^ 31 -> 0 <= progress -> Inv s ->
  exists r, parse_round magic callback file progress s = Ok r /\
    match r with None => True | Some (p, s') => progress < p <= zlen file /\ Inv s' end.
Proof.
  intros Hf Hp Hs. unfold parse_round. rewrite Hmagic.
  destruct (Z.ltb_spec (progress + 4) (zlen file)); cbn [negb]; [|by exists None].
  destruct (seek_magic_ok magic Hmagic file progress Hf Hp) as (r & -> & Hr); [lia|]. cbn [mbind result_bind].
  destruct r as [lp|]; [|by exists None].
  destruct (Z.leb_spec (zlen file) (progress + lp + 4)); [by exists None|].
  destruct (u32_at_ok file (progress + lp)) as (sz & -> & Hsz); [lia..|]. cbn [mbind result_bind].
  destruct (Z.ltb_spec (zlen file) (progress + (lp + 4) + sz)); [by exists None|].
  destruct (Hcb (progress + (lp + 4)) sz s) as (answer & s1 & -> & Hs1); [lia..|done|].
  cbn [mbind result_bind]. eexists. split; [reflexivity|]. split; [destruct answer; lia|done].
Qed.

Lemma parse_loop_inv fuel progress s : zlen file < 2 ^ 31 -> 0 <= progress ->
  zlen file - progress < Z.of_nat fuel -> progress <= zlen file \/ (0 < fuel)%nat -> Inv s ->
  exists s', parse_loop magic callback fuel file progress s = Ok s' /\ Inv s'.
Proof.
  intros Hf. revert progress s. induction fuel as [|fuel IH]; intros progress s Hp Hfuel Hpos Hs; [lia|].
  destruct (parse_round_inv progress s Hf Hp Hs) as (r & Hr & Hcase). cbn [parse_loop].
  rewrite Hr. cbn [mbind result_bind]. destruct r as [[p s1]|]; [|by exists s].
  destruct Hcase as [Hp1 Hs1]. apply IH; [lia|lia|lia|done].
Qed.
End invariant.

(** The callback accepts each block at its place, the rest of the file behind it. *)
Fixpoint accepts (blks : list (list byte)) (tail : list byte) (off : Z) (s s' : S) : Prop :=
  match blks with
  | [] => s' = s
  | blk :: blks => exists s1,
      callback (blk ++ entries magic blks ++ tail) (zlen blk) (off + 8) s = Ok (true, s1) /\
      accepts blks tail (off + 8 + zlen blk) s1 s'
  end.

Lemma parse_round_tail pre tail s : zlen (pre ++ tail) < 2 ^ 31 -> tail_ok magic tail ->
  parse_round magic callback (pre ++ tail) (zlen pre) s = Ok None.
Proof.
  intros Hl Ht. pose proof (zlen_nonneg pre) as Hp0. pose proof (zlen_nonneg tail) as Ht0.
  assert (zlen (pre ++ tail) = zlen pre + zlen tail) as Ez by apply zlen_app.
  unfold parse_round. rewrite Hmagic. destruct (Z.leb_spec (zlen tail) 4) as [H4|H4].
  { by replace (zlen pre + 4 <? zlen (pre ++ tail)) with false by lia. }
  replace (zlen pre + 4 <? zlen (pre ++ tail)) with true by lia. cbn [negb].
  destruct Ht as [?|[[Hne Hno]|[(part & -> & Hpart)|(n & part & -> & Hn & Hpart)]]]; [lia| | |].
  - by rewrite (seek_magic_none magic Hmagic pre tail).
  - rewrite (seek_magic_here magic Hmagic). cbn [mbind result_bind]. rewrite (zlen_app magic), Hmagic in Ez.
    by replace (zlen (pre ++ magic ++ part) <=? zlen pre + 4 + 4) with true by lia.
  - rewrite (seek_magic_here magic Hmagic). cbn [mbind result_bind]. rewrite (zlen_app magic), (zlen_app (le_bytes 4 n)), Hmagic, zlen_le_bytes in Ez.
    destruct (Z.leb_spec (zlen (pre ++ magic ++ le_bytes 4 n ++ part)) (zlen pre + 4 + 4)); [done|].
    rewrite (u32_at_mid _ _ n (pre ++ magic) part);
      [|by rewrite <- app_assoc|rewrite zlen_app; lia|done].
    cbn [mbind result_bind].
    by replace (zlen (pre ++ magic ++ le_bytes 4 n ++ part) <? zlen pre + (4 + 4) + n) with true by lia.
Qed.

Lemma parse_round_entry pre blk rest s s1 : 0 < zlen blk -> zlen (pre ++ entry magic blk ++ rest) < 2 ^ 31 ->
  callback (blk ++ rest) (zlen blk) (zlen pre + 8) s = Ok (true, s1) ->
  parse_round magic callback (pre ++ entry magic blk ++ rest) (zlen pre) s =
  Ok (Some (zlen (pre ++ entry magic blk), s1)).
Proof.
  intros Hpos Hl Hcall. pose proof (zlen_entry magic Hmagic blk) as He.
  pose proof (zlen_nonneg pre). pose proof (zlen_nonneg rest).
  assert (zlen (pre ++ entry magic blk ++ rest) = zlen pre + (8 + zlen blk + zlen rest)) as Ez
    by (rewrite (zlen_app pre), (zlen_app (entry magic blk)); lia).
  unfold parse_round. rewrite Hmagic.
  replace (zlen pre + 4 <? zlen (pre ++ entry magic blk ++ rest)) with true by lia. cbn [negb].
  assert (pre ++ entry magic blk ++ rest = pre ++ magic ++ le_bytes 4 (zlen blk) ++ blk ++ rest)
    as Efile by (unfold entry; by rewrite <- !app_assoc).
  rewrite Efile at 1. rewrite (seek_magic_here magic Hmagic). cbn [mbind result_bind].
  replace (zlen (pre ++ entry magic blk ++ rest) <=? zlen pre + 4 + 4) with false by lia.
  rewrite (u32_at_mid _ _ (zlen blk) (pre ++ magic) (blk ++ rest));
    [|by rewrite Efile, <- app_assoc|rewrite zlen_app; lia|unfold is_uint; lia].
  cbn [mbind result_bind].
  replace (zlen (pre ++ entry magic blk ++ rest) <? zlen pre + (4 + 4) + zlen blk) with false by lia.
  assert (drop (Z.to_nat (zlen pre + (4 + 4))) (pre ++ entry magic blk ++ rest) = blk ++ rest) as ->.
  { assert (pre ++ entry magic blk ++ rest = (pre ++ magic ++ le_bytes 4 (zlen blk)) ++ blk ++ rest) as ->
      by (rewrite Efile; by rewrite <- !app_assoc).
    apply drop_app_length'. rewrite !length_app, length_le_bytes. unfold zlen in *. lia. }
  replace (zlen pre + (4 + 4)) with (zlen pre + 8) by lia. rewrite Hcall. cbn [mbind result_bind].
  assert (zlen pre + 8 + zlen blk = zlen (pre ++ entry magic blk)) as -> by (rewrite zlen_app; lia). done.
Qed.

Lemma parse_entries fuel blks pre tail s s' : zlen (pre ++ entries magic blks ++ tail) < 2 ^ 31 -> tail_ok magic tail ->
  Forall (fun blk => 0 < zlen blk) blks ->
  zlen (entries magic blks ++ tail) < Z.of_nat fuel -> accepts blks tail (zlen pre) s s' ->
  parse_loop magic callback fuel (pre ++ entries magic blks ++ tail) (zlen pre) s = Ok s'.
Proof.
  revert fuel pre s. induction blks as [|blk blks IH]; intros fuel pre s Hl Ht Hpos Hfuel Hacc;
    (destruct fuel as [|fuel]; [pose proof (zlen_nonneg (entries magic []++ tail)); 
      match type of Hfuel with zlen ?l < _ => pose proof (zlen_nonneg l) end; lia|]).
  { cbn [accepts] in Hacc. subst s'. cbn [parse_loop]. by rewrite (parse_round_tail pre tail). }
  destruct Hacc as (s1 & Hcall & Hacc). inversion Hpos as [|?? Hb Hpos']; subst.
  unfold entries in Hl, Hfuel |- *. cbn [map concat] in Hl, Hfuel |- *. fold (entries magic blks) in Hl, Hfuel |- *.
  rewrite <- !app_assoc in Hl, Hfuel |- *. cbn [parse_loop].
  rewrite (parse_round_entry _ _ _ _ _ Hb Hl Hcall). cbn [mbind result_bind].
  pose proof (zlen_entry magic Hmagic blk) as He.
  assert (zlen pre + 8 + zlen blk = zlen (pre ++ entry magic blk)) as Enext by (rewrite zlen_app; lia).
  rewrite Enext in Hacc. rewrite (app_assoc pre).
  rewrite (zlen_app (entry magic blk)) in Hfuel. pose proof (zlen_nonneg blk).
  apply IH; [by rewrite <- app_assoc|done|done|lia|done].
Qed.

Lemma parse_file before blks tail s s' : before ++ blks ≠ [] ->
  let file := entries magic before ++ entries magic blks ++ tail in
  zlen file < 2 ^ 31 -> tail_ok magic tail -> Forall (fun blk => 0 < zlen blk) blks ->
  accepts blks tail (zlen (entries magic before)) s s' ->
  parseBlockFile magic callback file (zlen (entries magic before)) s = Ok s'.
Proof.
  intros Hne file Hf Ht Hpos Hacc. unfold parseBlockFile, file. rewrite (check_magic_entries magic Hmagic) by done.
  cbn [mbind result_bind]. apply parse_entries; try done. rewrite length_app. unfold zlen. lia.
Qed.
End parse.

(** ** Properties *)

Section properties.
Context (magic : list byte) {S : Type} (callback : list byte -> Z -> Z -> S -> result (bool * S)).

(** C15: [parseBlockFile] ends on every file of less than 2 GB, whatever the
    callback answers, and never reads outside the file: the callback is only
    told of places inside it, so what it keeps on those holds at the end; a
    file that does not begin with the magic bytes is refused. *)
Theorem parseBlockFile_safe (Inv : S -> Prop) file startOffset s : zlen magic = 4 ->
  (forall off sz s, 0 <= off -> 0 <= sz -> off + sz <= zlen file -> Inv s ->
    exists answer s', callback (drop (Z.to_nat off) file) sz off s = Ok (answer, s') /\ Inv s') ->
  zlen file < 2 ^ 31 -> 0 <= startOffset -> Inv s ->
  (take 4 file = magic -> exists s', parseBlockFile magic callback file startOffset s = Ok s' /\ Inv s') /\
  (take 4 file ≠ magic -> parseBlockFile magic callback file startOffset s = Err RuntimeError).
Proof.
  intros Hm Hcb Hf Hp Hs. unfold parseBlockFile. rewrite check_magic_spec by done. split; intros E.
  - rewrite decide_True by done. cbn [mbind result_bind].
    apply (parse_loop_inv magic callback Hm Inv file Hcb); [done|done|unfold zlen; lia|lia|done].
  - by rewrite decide_False.
Qed.

(** On a file of blocks, each behind the magic bytes and its size, with an
    unfinished or reserved end, started at the boundary of any block,
    [parseBlockFile] calls the callback once for each block from there on, in
    order, with its bytes, its size and its offset. *)
Theorem parseBlockFile_blocks before blks tail s s' : zlen magic = 4 -> before ++ blks ≠ [] ->
  let file := entries magic before ++ entries magic blks ++ tail in
  zlen file < 2 ^ 31 -> tail_ok magic tail -> Forall (fun blk => 0 < zlen blk) blks ->
  accepts magic callback blks tail (zlen (entries magic before)) s s' ->
  parseBlockFile magic callback file (zlen (entries magic before)) s = Ok s'.
Proof.
  intros Hm. by apply parse_file.
Qed.
End properties.

(** *** Witnesses: a callback that notes where it is called *)

Definition note (data : list byte) (size offset : Z) (s : list (Z * Z)) : result (bool * list (Z * Z)) :=
  Ok (true, s ++ [(offset, size)]).

Definition w_magic : list byte := map z2b [249; 190; 180; 217].
Definition w_blk (n : nat) : list byte := replicate n (z2b 7).
Definition w_file : list byte := entries w_magic [w_blk 3] ++ entries w_magic [w_blk 2; w_blk 4] ++ replicate 9 (z2b 0).

Lemma parseBlockFile_safe_witness :
  (exists s', parseBlockFile w_magic note (w_magic ++ replicate 20 (z2b 1)) 2 [] = Ok s' /\
    Forall (fun e => e.1 + e.2 <= 24) s') /\
  parseBlockFile w_magic note (replicate 24 (z2b 1)) 0 [] = Err RuntimeError.
Proof.
  assert (forall file, zlen file = 24 -> forall off sz s, 0 <= off -> 0 <= sz -> off + sz <= zlen file ->
    Forall (fun e : Z * Z => e.1 + e.2 <= 24) s -> exists answer s',
    note (drop (Z.to_nat off) file) sz off s = Ok (answer, s') /\ Forall (fun e => e.1 + e.2 <= 24) s') as Hcb.
  { intros file Hf off sz s _ _ Hl Hs. exists true, (s ++ [(off, sz)]). split; [reflexivity|].
    apply Forall_app. split; [exact Hs|]. constructor; [simpl; lia|constructor]. }
  split.
  - apply (parseBlockFile_safe w_magic note (Forall (fun e => e.1 + e.2 <= 24)) _ 2 []);
      [reflexivity|apply Hcb; reflexivity|reflexivity|lia|constructor|reflexivity].
  - apply (parseBlockFile_safe w_magic note (Forall (fun e => e.1 + e.2 <= 24)) _ 0 []);
      [reflexivity|apply Hcb; reflexivity|reflexivity|lia|constructor|discriminate].
Defined.

Lemma w_tail : tail_ok w_magic (replicate 9 (z2b 0)).
Proof.
  right. left. split; [discriminate|]. intros k Hk [_ [tl Ht]].
  assert (z2b 249 ∈ replicate 9 (z2b 0)) as Hin.
  { rewrite <- (take_drop (Z.to_nat k) (replicate 9 (z2b 0))), Ht. apply elem_of_app. right. left. }
  apply elem_of_replicate in Hin as [E _]. discriminate.
Qed.

Lemma parseBlockFile_blocks_witness :
  parseBlockFile w_magic note w_file 11 [] = Ok [(19, 2); (29, 4)].
Proof.
  apply (parseBlockFile_blocks w_magic note [w_blk 3] [w_blk 2; w_blk 4] (replicate 9 (z2b 0)) []);
    [reflexivity|discriminate|reflexivity|exact w_tail|repeat constructor|].
  eexists. split; [reflexivity|]. eexists. split; reflexivity.
Defined.

(** One to three stray bytes in front of a block hide it: the search starts
    four bytes behind the place where the magic bytes were expected. *)
Example w_stray_bytes : parseBlockFile w_magic note
  (entry w_magic (w_blk 3) ++ [z2b 0] ++ entry w_magic (w_blk 2) ++ entry w_magic (w_blk 5)) 0 [] =
  Ok [(8, 3); (30, 5)].
Proof. reflexivity. Qed.
