(* ===== verification/BlockFileChain.v ===== *)
(** * BlockFileChain: the blocks of a file go into the chain

    The lemmas on the middle part of [addBlocksToDB]: headers are made for
    parsed blocks and added in bulk.  They hold whatever else took ids in the
    meantime, so they serve one thread as well as several. *)

From S2P Require Import Prelude BinaryData BinaryIO Hashing StdMap Merkle DBUtils BlockHeader HeadersDB.
From S2P Require Import Blockchain BlockchainSpec BlockchainOrganize BlockchainProps.
From S2P Require Import TxLength TxFilter TxFilterProps BlockData BlockDataProps BlockFile BlockFileParse.

(** ** Headers that no table leads to yet

    [extends]: the tables are the same, the store has more headers. *)

Record extends (bc bc' : Blockchain) : Prop := {
  ex_map : headerMap_ bc' = headerMap_ bc;
  ex_gen : genesisHash_ bc' = genesisHash_ bc;
  ex_ids : headersById_ bc' = headersById_ bc;
  ex_heights : headersByHeight_ bc' = headersByHeight_ bc;
  ex_topId : topBlockId_ bc' = topBlockId_ bc;
  ex_heap a h : heap_ bc !! a = Some h -> heap_ bc' !! a = Some h;
}.

#[export] Instance extends_preorder : PreOrder extends.
Proof.
  split; [by split|]. intros x y z [] []. split; [congruence..|]. auto.
Qed.

Section extends.
Context (rank : HashString -> nat) (bc bc' : Blockchain).
Context (Hwf : wf rank bc) (Hex : extends bc bc').

Lemma ext_gen : gen_of bc' = gen_of bc.
Proof using Hex. unfold gen_of. by rewrite (ex_map _ _ Hex), (ex_gen _ _ Hex). Qed.

Lemma ext_known a : known bc' a <-> known bc a.
Proof using Hex. unfold known. by rewrite (ex_map _ _ Hex). Qed.

Lemma ext_heap a : known bc a -> heap_ bc' !! a = heap_ bc !! a.
Proof using Hwf Hex.
  intros (h & Hh & _)%(known_header rank bc Hwf). rewrite Hh. by apply (ex_heap _ _ Hex).
Qed.

Lemma ext_prev a b : prev_of bc a = Some b -> prev_of bc' a = Some b.
Proof using Hex.
  unfold prev_of. rewrite (ex_map _ _ Hex). destruct (heap_ bc !! a) as [h|] eqn:E; [|done].
  by rewrite (ex_heap _ _ Hex _ _ E).
Qed.

Lemma ext_chain a l : chain bc a l -> chain bc' a l.
Proof using Hex.
  unfold chain. intros H. remember true as e. induction H as [a Hg| |a b l e Hg Hp Ht IH]; [|done|].
  - apply trail_gen. by rewrite ext_gen.
  - eapply trail_step; [by rewrite ext_gen|by apply ext_prev|auto].
Qed.

Lemma ext_diff a : known bc a -> diff_of bc' a = diff_of bc a.
Proof using Hwf Hex. intros Ha. unfold diff_of. by rewrite ext_gen, ext_heap. Qed.

Lemma ext_sum l : Forall (known bc) l -> chain_sum bc' l = chain_sum bc l.
Proof using Hwf Hex.
  induction 1 as [|a [|b l] Ha Hl IH]; [done..|].
  change (dadd (chain_sum bc' (b :: l)) (diff_of bc' a) = dadd (chain_sum bc (b :: l)) (diff_of bc a)).
  by rewrite IH, ext_diff.
Qed.

Lemma ext_solved a h : known bc a -> solved bc a h -> solved bc' a h.
Proof using Hwf Hex.
  intros Ha (l & Hl & Hs & Hrest). exists l. split; [by apply ext_chain|].
  rewrite ext_sum by (by eapply trail_known). done.
Qed.

Lemma ext_unsolved a h : unsolved bc a h -> unsolved bc' a h.
Proof using Hex.
  intros [Hs [Ho|[l Hl]]]; (split; [done|]); [by left|right; exists l; by apply ext_chain].
Qed.

Lemma ext_wf : wf rank bc'.
Proof using Hwf Hex.
  destruct Hex as [E1 E2 E3 E4 E5 E6]. split; rewrite ?E1, ?E2, ?E3; try apply Hwf.
  - intros k p Hk. destruct (wf_header _ _ Hwf _ _ Hk) as (a & h & -> & Hh & Ht & Hp).
    exists a, h. split; [done|]. split; [by apply E6|done].
  - intros a h Ha%ext_known Hh. rewrite ext_heap in Hh by done. by apply (wf_id _ _ Hwf).
  - intros id p (a & -> & Ha)%(wf_byId _ _ Hwf). exists a. split; [done|]. by apply ext_known.
Qed.

Lemma ext_ready l0 : ready bc l0 -> ready bc' l0.
Proof using Hwf Hex.
  intros [Hr (t0 & Hc0 & Hmain)].
  assert (known bc t0) as Hk0.
  { destruct Hmain as [Hg0|(_ & [Hti|[_ Hg0]] & _)].
    1,3: destruct (gen_known _ _ Hwf) as (g' & ? & ?); by simplify_eq.
    destruct (wf_byId _ _ Hwf _ _ Hti) as (? & ? & ?). by simplify_eq. }
  pose proof (trail_known _ _ Hwf _ _ _ Hk0 Hc0) as Hkn. rewrite Forall_forall in Hkn.
  split.
  - intros a h Ha%ext_known Hh Hg. rewrite ext_heap in Hh by done. rewrite ext_gen in Hg.
    destruct (Hr a h Ha Hh Hg) as [[Hs|Hs] Hfm]; (split; [|done]);
      [left; by apply ext_solved|right; by apply ext_unsolved].
  - exists t0. split; [by apply ext_chain|]. rewrite ext_gen.
    destruct Hmain as [Hg0|(Hl & Hti & Hhs)]; [by left|right]. split; [|split].
    + intros i c a hc h Hc Ha Hhc Hh. rewrite ext_heap in Hhc, Hh by (apply Hkn; by eapply list_elem_of_lookup_2).
      exact (Hl i c a hc h Hc Ha Hhc Hh).
    + unfold top_is. by rewrite (ex_topId _ _ Hex), (ex_ids _ _ Hex), ext_gen.
    + by rewrite (ex_heights _ _ Hex).
Qed.
End extends.

(** ** Headers of parsed blocks *)

Section headers.
Context `{HashFns} (fid : Z).

(** A header as [createBlockHeader] makes it from a block of the file. *)
Record new_header (b : Block) (id : Z) (h : BlockHeader) : Prop := {
  nh_read : hb_read (blk_header b) h;
  nh_data : zlen (dataCopy_ h) = HEADER_SIZE;
  nh_hash : thisHash_ h = block_hash b;
  nh_id : uniqueID_ h = id;
  nh_diff : dbl_nonneg (difficultyDbl_ h);
  nh_sum : dltb (difficultySum_ h) dbl_0 = true;
  nh_flags : isOrphan_ h = true /\ isFinishedCalc_ h = false /\ isMainBranch_ h = false;
  nh_numTx : numTx_ h = zlen (blk_txs b);
  nh_file : blkFileNum_ h = fid;
}.

Definition header_of (b : Block) (bd : BlockData) : Prop :=
  (exists h, bd_createBlockHeader bd = Ok h /\ new_header b (bd_uniqueID bd) h) /\
  txFilter_ bd = filter_of (bd_uniqueID bd) (txids b).

(** What is known of an entry of the map of headers. *)
Definition made (bc bc' : Blockchain) (bs : list Block) (bds : list BlockData) (k : HashString) (p : Ptr) : Prop :=
  exists a h i b bd, p = Some a /\ heap_ bc !! a = None /\ heap_ bc' !! a = Some h /\
    bs !! i = Some b /\ bds !! i = Some bd /\ block_hash b = k /\ new_header b (bd_uniqueID bd) h /\
    txFilter_ bd = filter_of (bd_uniqueID bd) (txids b).

Lemma make_headers_ok bs bds : Forall2 header_of bs bds -> forall bc m, map_ordered m -> exists m' bc',
  make_headers bds m bc = Ok (m', bc') /\ extends bc bc' /\ bc' = set_heap (heap_ bc') bc /\ map_ordered m' /\
  (forall k p, map_find k m' = Some p -> map_find k m = Some p \/ made bc bc' bs bds k p) /\
  (forall k p, map_find k m = Some p -> map_find k m' = Some p) /\
  (forall b, b ∈ bs -> is_Some (map_find (block_hash b) m')) /\ (length m' <= length m + length bs)%nat.
Proof.
  induction 1 as [|b bd bs bds [(h & Hh & Hnew) Hfil] Hbs IH]; intros bc m Ho.
  { exists m, bc. split; [done|]. split; [done|]. split; [by destruct bc|]. split; [done|].
    split; [by left|]. split; [done|]. split; [by intros b ?%elem_of_nil|simpl; lia]. }
  cbn [make_headers]. rewrite (chain_bind_ok _ _ _ _ _ (chain_of_ok _ _ _ Hh)).
  set (a := fresh (dom (heap_ bc))). set (bc1 := set_heap (<[a := h]> (heap_ bc)) bc).
  assert (heap_ bc !! a = None) as Ha by (apply not_elem_of_dom, is_fresh).
  assert (make_shared h bc = Ok (Some a, bc1)) as Hsh by done.
  rewrite (chain_bind_ok _ _ _ _ _ Hsh).
  assert (map_ordered (map_insert (thisHash_ h) (Some a) m).1) as Ho1.
  { unfold map_insert. case_match; [done|]. by apply map_put_ordered. }
  destruct (IH bc1 _ Ho1) as (m' & bc' & Hrun & Hex & Ebc & Ho' & Hfrom & Hkeep & Hall & Hlen).
  assert (extends bc bc1) as Hex1.
  { split; try done. intros x hx Hx. unfold bc1. cbn. rewrite lookup_insert_ne; [done|congruence]. }
  assert (forall k, map_find k (map_insert (thisHash_ h) (Some a) m).1 =
    if decide (k = thisHash_ h) then Some (default (Some a) (map_find k m)) else map_find k m) as Hfind.
  { intros k. unfold map_insert. destruct (map_find (thisHash_ h) m) as [q|] eqn:Eq; cbn [fst].
    - case_decide; [subst; by rewrite Eq|done].
    - rewrite map_find_put by done. case_decide; [subst; by rewrite Eq|done]. }
  exists m', bc'. split; [exact Hrun|]. split; [by etrans|]. split; [by rewrite Ebc|]. split; [done|].
  split; [|split; [|split]].
  - intros k p Hk. destruct (Hfrom k p Hk) as [Hk1|Hmade].
    + rewrite Hfind in Hk1. case_decide as E; [|by left]. destruct (map_find k m) as [q|]; [by left|].
      right. injection Hk1 as <-. exists a, h, 0%nat, b, bd. repeat (split; [done|]). split.
      { apply (ex_heap _ _ Hex). unfold bc1. cbn. by rewrite lookup_insert_eq. }
      repeat (split; [done|]). split; [|done]. by rewrite E, (nh_hash _ _ _ Hnew).
    + right. destruct Hmade as (x & hx & i & bx & bdx & -> & Hx & Hrest). exists x, hx, (S i), bx, bdx.
      split; [done|]. split; [|done]. unfold bc1 in Hx. cbn in Hx. by apply lookup_insert_None in Hx as [? _].
  - intros k p Hk. apply Hkeep. rewrite Hfind. case_decide; [by rewrite Hk|done].
  - intros b' [->|Hb']%elem_of_cons; [|by apply Hall].
    eexists. apply Hkeep. rewrite Hfind, (nh_hash _ _ _ Hnew). by rewrite decide_True.
  - etrans; [exact Hlen|]. unfold map_insert. pose proof (map_put_length (thisHash_ h) (Some a) m).
    case_match; simpl; lia.
Qed.
End headers.

(** ** The batch that goes into the chain *)

Section batch.
Context `{HashFns} (rank : HashString -> nat) (fid : Z).

Lemma batch_ok_intro bc (m : stdmap HashString Ptr) : map_ordered m ->
  (forall k p, (k, p) ∈ m -> entry_ok rank bc (k, p)) ->
  (forall k p k' p', (k, p) ∈ m -> (k', p') ∈ m -> k ≠ k' -> entries_differ bc (k, p) (k', p')) ->
  batch_ok rank bc m.
Proof.
  induction m as [|[k p] m IH]; intros Ho He Hd; [done|]. destruct Ho as [Hf Ho]. cbn [batch_ok].
  split; [apply He; by left|]. split.
  - apply Forall_forall. intros [k' p'] Hin. apply Hd; [by left|by right|].
    rewrite Forall_forall in Hf. specialize (Hf _ Hin). simpl in Hf. intros ->.
    by rewrite std_less_irrefl in Hf.
  - apply IH; [done|intros; apply He; by right|intros; apply Hd; by try right].
Qed.

(** What a file's blocks need for the chain: a hash above the parent's. *)
Definition chain_block (b : Block) : Prop :=
  block_ok b /\ root_matches b = true /\ (rank (hb_prev (blk_header b)) < rank (block_hash b))%nat.

Lemma made_batch bc bc' bs bds m : wf rank bc -> extends bc bc' -> Forall chain_block bs ->
  (forall a h, known bc a -> heap_ bc !! a = Some h -> zlen (dataCopy_ h) = HEADER_SIZE) ->
  NoDup (map bd_uniqueID bds) ->
  (forall bd, bd ∈ bds -> map_find (bd_uniqueID bd) (headersById_ bc) = None) ->
  map_ordered m -> (forall k p, map_find k m = Some p -> made fid bc bc' bs bds k p) -> batch_ok rank bc' m.
Proof.
  intros Hwf Hex Hbs Hdata Hnd Hids Ho Hmade.
  assert (forall k p, (k, p) ∈ m -> made fid bc bc' bs bds k p) as Hm by (intros; by apply Hmade, map_find_In).
  apply batch_ok_intro; [done| |].
  - intros k p Hin. destruct (Hm k p Hin) as (a & h & i & b & bd & -> & Ha & Hh & Hb & Hbd & Ek & Hnew & _).
    destruct (map_find k (headerMap_ bc')) as [q|] eqn:Hq.
    + right. pose proof (ext_wf rank bc bc' Hwf Hex) as Hwf'.
      destruct (wf_header _ _ Hwf' _ _ Hq) as (c & hc & -> & Hhc & _). exists c, hc. split; [done|]. split; [done|].
      assert (known bc c) as Hc.
      { apply (ext_known bc bc' Hex). eapply map_find_value; [apply Hwf'|exact Hq]. }
      apply (Hdata c); [done|]. by rewrite (ext_heap rank bc bc' Hwf Hex) in Hhc.
    + left. exists a. split; [done|]. split; [done| |].
      * intros Hk%(ext_known bc bc' Hex). destruct (known_header rank bc Hwf a Hk) as (? & ? & _). congruence.
      * rewrite Forall_forall in Hbs. destruct (Hbs b) as (_ & _ & Hrank); [by eapply list_elem_of_lookup_2|].
        destruct Hnew as [(_ & Hprev & _) Hd Eh Eid Hdf Hs (Ho1 & Ho2 & Ho3) _ _].
        exists h. cbn [fst]. split; [done|]. split; [congruence|]. split; [done|]. split.
        { exists (hb_prev (blk_header b)). split; [done|]. by rewrite <- Ek. }
        do 4 (split; [done|]). rewrite Eid, (ex_ids _ _ Hex). apply Hids. by eapply list_elem_of_lookup_2.
  - intros k p k' p' Hin Hin' Hne.
    destruct (Hm k p Hin) as (a & h & i & b & bd & -> & Ha & Hh & Hb & Hbd & Ek & Hnew & _).
    destruct (Hm k' p' Hin') as (a' & h' & i' & b' & bd' & -> & Ha' & Hh' & Hb' & Hbd' & Ek' & Hnew' & _).
    assert (h ≠ h') as Hhne.
    { intros ->. apply Hne. by rewrite <- Ek, <- Ek', <- (nh_hash _ _ _ _ Hnew), <- (nh_hash _ _ _ _ Hnew'). }
    split; [done|]. split; [intros [= ->]; cbn in *; congruence|]. cbn [snd].
    intros x y hx hy [= <-] [= <-] Hx Hy. simplify_eq.
    rewrite (nh_id _ _ _ _ Hnew), (nh_id _ _ _ _ Hnew'). intros E. apply Hne.
    assert (i = i') as <-; [|by simplify_eq]. eapply NoDup_lookup; [exact Hnd| |];
      rewrite list_lookup_fmap; [by rewrite Hbd|by rewrite Hbd', E].
Qed.
End batch.

(** ** The chain after a batch *)

Section chain.
Context `{HashFns} (rank : HashString -> nat) (fid : Z).

(** What a chain needs to take new blocks: it can be organised, every header
    has its bytes, the ids in [flight] were given to blocks that are not added
    yet, and neither they nor any from [topID_] on are in use.  There is room
    for [n] blocks more. *)
Record accepting (bc : Blockchain) (l0 : list nat) (flight : list Z) (n : Z) : Prop := {
  ac_wf : wf rank bc;
  ac_ready : ready bc l0;
  ac_data a h : known bc a -> heap_ bc !! a = Some h -> zlen (dataCopy_ h) = HEADER_SIZE;
  ac_ids id : topID_ bc <= id \/ id ∈ flight -> map_find id (headersById_ bc) = None;
  ac_flight : Forall (fun id => id < topID_ bc) flight;
  ac_nodup : NoDup flight;
  ac_topID : 0 <= topID_ bc;
  ac_room : topID_ bc + n < UINT32_MAX;
  ac_size : zlen (headerMap_ bc) + zlen flight + n < 2 ^ 32;
}.

(** A block takes an id. *)
Lemma accepting_id bc l0 flight n : 0 <= n -> accepting bc l0 flight (1 + n) ->
  accepting (set_topID (topID_ bc + 1) bc) l0 (topID_ bc :: flight) n.
Proof.
  intros Hn [Hwf Hr Hdata Hids Hfl Hnd H0 Hroom Hsize].
  assert (extends bc (set_topID (topID_ bc + 1) bc)) as Hex by by split.
  split; try done.
  - by apply (ext_wf rank bc _ Hwf Hex).
  - by apply (ext_ready rank bc _ Hwf Hex).
  - intros id Hid. apply Hids. cbn in Hid. rewrite elem_of_cons in Hid. destruct Hid as [?|[->|?]]; [left; lia|left; lia|by right].
  - constructor; [cbn; lia|]. eapply Forall_impl; [exact Hfl|]. cbn. lia.
  - constructor; [|done]. intros Hin. rewrite Forall_forall in Hfl. specialize (Hfl _ Hin). simpl in Hfl. lia.
  - cbn. lia.
  - cbn. lia.
  - rewrite zlen_cons. cbn. lia.
Qed.

Lemma accepting_perm bc l0 flight flight' n : flight ≡ₚ flight' -> accepting bc l0 flight n -> accepting bc l0 flight' n.
Proof.
  intros Hp [Hwf Hr Hdata Hids Hfl Hnd H0 Hroom Hsize]. split; try done.
  - intros id Hid. apply Hids. by rewrite Hp.
  - by rewrite <- Hp.
  - by rewrite <- Hp.
  - unfold zlen in *. by rewrite <- Hp.
Qed.

(** [k] blocks take their ids. *)
Lemma accepting_ids bc l0 flight k n : 0 <= k -> 0 <= n -> accepting bc l0 flight (k + n) ->
  accepting (set_topID (topID_ bc + k) bc) l0 (seqZ (topID_ bc) k ++ flight) n.
Proof.
  intros Hk. revert n. pattern k. apply natlike_ind; [| |done].
  - intros n _ Ha. rewrite Z.add_0_r. by destruct bc.
  - clear k Hk. intros k Hk IH n Hn Ha.
    assert (accepting (set_topID (topID_ bc + k) bc) l0 (seqZ (topID_ bc) k ++ flight) (1 + n)) as Hk1.
    { apply IH; [lia|]. by replace (k + (1 + n)) with (Z.succ k + n) by lia. }
    apply accepting_id in Hk1; [|done].
    assert (set_topID (topID_ (set_topID (topID_ bc + k) bc) + 1) (set_topID (topID_ bc + k) bc) =
      set_topID (topID_ bc + Z.succ k) bc) as E by (unfold set_topID; cbn; f_equal; lia).
    rewrite E in Hk1. eapply accepting_perm; [|exact Hk1]. unfold Z.succ. rewrite seqZ_app by lia.
    rewrite <- app_assoc. apply Permutation_middle.
Qed.

(** The chains before and after the blocks [bs] of a file, parsed to [bds],
    were added, and the ids that were reported as new. *)
Record absorbed (bc bc' : Blockchain) (bs : list Block) (bds : list BlockData) (ids : list Z) : Prop := {
  ab_topID : topID_ bc' = topID_ bc;
  ab_old k p : map_find k (headerMap_ bc) = Some p -> map_find k (headerMap_ bc') = Some p;
  ab_heap a : known bc a -> heap_ bc' !! a = heap_ bc !! a;
  ab_new k p : map_find k (headerMap_ bc) = None -> map_find k (headerMap_ bc') = Some p ->
    exists a h i b bd, p = Some a /\ heap_ bc' !! a = Some h /\ bs !! i = Some b /\ bds !! i = Some bd /\
      block_hash b = k /\ new_header fid b (uniqueID_ h) h /\ uniqueID_ h = bd_uniqueID bd /\
      uniqueID_ h ∈ ids /\ txFilter_ bd = filter_of (uniqueID_ h) (txids b);
  ab_all b : b ∈ bs -> is_Some (map_find (block_hash b) (headerMap_ bc'));
  ab_sorted : StronglySorted Z.lt ids;
  ab_ids id : id ∈ ids -> id ∈ map bd_uniqueID bds;
}.

Lemma absorbed_intro bc bc2 bc3 bs bds m (s : stdmap Z ()) : wf rank bc -> extends bc bc2 -> bc2 = set_heap (heap_ bc2) bc ->
  map_ordered m -> (forall k p, map_find k m = Some p -> made fid bc bc2 bs bds k p) ->
  (forall b, b ∈ bs -> is_Some (map_find (block_hash b) m)) -> bulk_rel bc2 bc3 m -> map_ordered s ->
  (forall id, is_Some (map_find id s) <-> is_Some (map_find id ([] : stdmap Z ())) \/ new_id bc2 m id) ->
  absorbed bc bc3 bs bds (map_keys s).
Proof.
  intros Hwf Hex Ebc2 Ho Hmade Hall Hrel Hos Hsid.
  pose proof (ex_map _ _ Hex) as Emap.
  assert (forall id, id ∈ map_keys s <-> new_id bc2 m id) as Hkeys.
  { intros id. rewrite map_keys_find, Hsid by done. split; [intros [[? ?]|?]; done|by right]. }
  split.
  - rewrite (br_topID _ _ _ Hrel), Ebc2. done.
  - intros k p Hk. apply (br_find _ _ _ Hrel). left. by rewrite Emap.
  - intros a Ha. by rewrite (br_heap _ _ _ Hrel), (ext_heap rank bc bc2 Hwf Hex).
  - intros k p Hk Hp. apply (br_find _ _ _ Hrel) in Hp. rewrite Emap in Hp.
    destruct Hp as [?|[_ Hin]]; [congruence|].
    destruct (Hmade k p) as (a & h & i & b & bd & -> & _ & Hh & Hb & Hbd & Ek & Hnh & Ef); [by apply map_find_In|].
    pose proof (nh_id _ _ _ _ Hnh) as Eid. exists a, h, i, b, bd. split; [done|].
    split; [by rewrite (br_heap _ _ _ Hrel)|]. do 3 (split; [done|]). rewrite Eid. do 2 (split; [done|]). split; [|done].
    apply Hkeys. exists k, a, h. split; [|done]. apply list_elem_of_filter. split; [by rewrite Emap|done].
  - intros b Hb. destruct (Hall b Hb) as [p Hp]. destruct (map_find (block_hash b) (headerMap_ bc)) as [q|] eqn:Eq.
    + exists q. apply (br_find _ _ _ Hrel). left. by rewrite Emap.
    + exists p. apply (br_find _ _ _ Hrel). right. rewrite Emap. split; [done|]. by apply map_find_In.
  - by apply map_keys_sorted.
  - intros id (k & a & h & Hin & Hh & ->)%Hkeys. apply list_elem_of_filter in Hin as [_ Hin].
    apply map_find_In in Hin; [|done]. destruct (Hmade _ _ Hin) as (a' & h' & i & b & bd & [= <-] & _ & Hh' & _ & Hbd & _ & Hnh & _).
    simplify_eq. rewrite (nh_id _ _ _ _ Hnh). apply list_elem_of_fmap_2. by eapply list_elem_of_lookup_2.
Qed.

Lemma build_chain bs bds rest n bc l0 : 0 <= n -> accepting bc l0 (map bd_uniqueID bds ++ rest) n ->
  Forall (chain_block rank) bs -> Forall2 (header_of fid) bs bds ->
  exists ids bc', (bhmap ← make_headers bds []; addBlocksInBulk bhmap) bc = Ok (ids, bc') /\
    accepting bc' l0 rest n /\ absorbed bc bc' bs bds ids.
Proof.
  intros Hn [Hwf Hr Hdata Hids Hfl Hnd H0 Hroom Hsize] Hbs Hbds.
  apply NoDup_app in Hnd as (Hnd & Hdis & Hndr). apply Forall_app in Hfl as [Hflb Hflr].
  pose proof (Forall2_length _ _ _ Hbds) as Hlb.
  destruct (make_headers_ok fid bs bds Hbds bc [] I)
    as (m & bc2 & Hrun & Hex2 & Ebc2 & Ho & Hfrom & _ & Hall & Hlen).
  assert (forall k p, map_find k m = Some p -> made fid bc bc2 bs bds k p) as Hmade
    by (intros k p Hk; by destruct (Hfrom k p Hk)).
  assert (batch_ok rank bc2 m) as Hbatch.
  { apply (made_batch rank fid bc bc2 bs bds); try done.
    intros bd Hbd. apply Hids. right. apply elem_of_app. left. by apply list_elem_of_fmap_2. }
  pose proof (ext_wf rank bc bc2 Hwf Hex2) as Hwf2. pose proof (ext_ready rank bc bc2 Hwf Hex2 l0 Hr) as Hr2.
  pose proof (ex_map _ _ Hex2) as Emap. pose proof (ex_ids _ _ Hex2) as Ebyid.
  rewrite zlen_app in Hsize. assert (zlen m <= zlen (map bd_uniqueID bds)) as Hlm
    by (unfold zlen; rewrite length_map; simpl in Hlen; lia).
  destruct (addBulk_loop_spec rank l0 m bc2 [] Hwf2 Hr2 Hbatch) as (s & bc3 & Hadd & Hwf3 & Hr3 & Hrel & Hids3).
  { rewrite Emap. pose proof (zlen_nonneg rest). lia. }
  destruct Hids3 as [Hos Hsid]; [done|].
  assert (absorbed bc bc3 bs bds (map_keys s)) as Hab
    by by apply (absorbed_intro bc bc2 bc3 bs bds m s).
  exists (map_keys s), bc3. split; [|split; [|done]].
  { rewrite (chain_bind_ok _ _ _ _ _ Hrun). unfold addBlocksInBulk. by rewrite (chain_bind_ok _ _ _ _ _ Hadd). }
  destruct Hab as [Etop Hold Hheap Hnew _ _ Hkeys]. split; rewrite ?Etop; try done.
  - intros a h Ha Hh. apply (known_find rank bc3 Hwf3) in Ha as (k & Hk).
    destruct (map_find k (headerMap_ bc)) as [q|] eqn:Eq.
    + pose proof (Hold k q Eq) as Eq3.
      assert (known bc a) as Hka by (apply (known_find rank bc Hwf); exists k; congruence).
      rewrite Hheap in Hh by done. by apply (Hdata a).
    + destruct (Hnew k _ Eq Hk) as (a' & h' & i & b & bd & [= <-] & Hh' & _ & _ & _ & Hnh & _).
      simplify_eq. apply Hnh.
  - intros id Hid. destruct (map_find id (headersById_ bc3)) as [q|] eqn:Eq; [|done]. exfalso.
    destruct (br_ids _ _ _ Hrel id) as [[q' Hq']|Hni]; [by rewrite Eq|..].
    + rewrite Ebyid, Hids in Hq'; [done|]. destruct Hid; [by left|right; apply elem_of_app; by right].
    + assert (id ∈ map bd_uniqueID bds) as Hb by (apply Hkeys, map_keys_find; [done|apply Hsid; by right]).
      destruct Hid as [Hid|Hid]; [|by apply (Hdis id)].
      rewrite Forall_forall in Hflb. specialize (Hflb id Hb). simpl in Hflb. lia.
  - assert (zlen (headerMap_ bc3) <= zlen (map_keys (headerMap_ bc) ++ map_keys m)) as Hle.
    { apply map_length_le; [apply Hwf3|]. intros k (p & Hp)%map_keys_find; [|apply Hwf3].
      apply (br_find _ _ _ Hrel) in Hp. rewrite Emap in Hp. apply elem_of_app. destruct Hp as [Hp|[_ Hp]]; [left|right].
      - apply map_keys_find; [apply Hwf|]. by exists p.
      - apply (list_elem_of_fmap_2 fst m _ Hp). }
    rewrite zlen_app in Hle. unfold zlen, map_keys in *. rewrite !length_map in *. lia.
Qed.
End chain.
