(* ===== verification/BlockFileProps.v ===== *)
(** * BlockFileProps: the theorems about reading block files into the chain

    [addBlocksToDB] on a file of valid blocks: every block gets a header in the
    chain, the chain stays well-formed and ready to be organised, and the
    transactions of every new block are found through the filters that are put
    in the database. *)

From S2P Require Import Prelude BinaryData BinaryIO Hashing StdMap Merkle DBUtils BlockHeader HeadersDB.
From S2P Require Import Blockchain BlockchainSpec BlockchainOrganize BlockchainProps.
From S2P Require Import TxLength TxFilter TxFilterProps BlockData BlockDataProps BlockFile BlockFileParse.
From S2P Require Import BlockFileChain BlockchainExamples HeadersDBProps.

(** ** The blocks of a file, parsed *)

Section blocks.
Context `{HashFns} (magic : list byte) (fid : Z) (tail : list byte).

Definition enc_blocks (bs : list Block) : list (list byte) := map enc_block bs.

(** The block whose bytes are at [off], whose id is [id]; behind it [rest]. *)
Definition parsed_block (b : Block) (rest : list byte) (off id : Z) : BlockData :=
  setOffset off (setFileID fid (bd_of b None [] rest false id)).

Definition by_id (bd : BlockData) : Z * BlockData := (bd_uniqueID bd, bd).

(** The offset after a block that ends at [next]. *)
Definition next_offset (next : Z) (bo : BlockOffset) : BlockOffset :=
  if offset_after (mkBlockOffset fid next) bo then mkBlockOffset fid next else bo.

Lemma tally_one b rest off bc m bo : block_ok b -> root_matches b = true ->
  0 <= topID_ bc -> topID_ bc + 1 < 2 ^ 32 -> Forall (fun e => e.1 < topID_ bc) m ->
  zlen (enc_block b ++ rest) < two64 ->
  tallyBlocks fid false (enc_block b ++ rest) (zlen (enc_block b)) off (mkTally bc m bo) =
  Ok (true, mkTally (set_topID (topID_ bc + 1) bc) (m ++ [by_id (parsed_block b rest off (topID_ bc))])
              (next_offset (off + zlen (enc_block b)) bo)).
Proof.
  intros Hb Hroot H0 Hmax Hm Hl. unfold tallyBlocks. cbn [t_chain t_bo bdMap].
  pose proof (deserialize_run b None [] rest (fun _ => getNewUniqueID) false bc Hb Hl) as Hrun.
  cbn [header_matches andb] in Hrun. rewrite Hroot, app_nil_r in Hrun. cbn [app] in Hrun. rewrite Hrun.
  unfold getNewUniqueID. cbn [mbind result_bind]. rewrite (wrap_small 32 (topID_ bc + 1)) by (unfold is_uint; lia).
  change (setOffset off _) with (parsed_block b rest off (topID_ bc)).
  change (bd_uniqueID (parsed_block b rest off (topID_ bc))) with (topID_ bc).
  assert (bd_size (parsed_block b rest off (topID_ bc)) = zlen (enc_block b)) as -> by (cbn; by rewrite app_nil_r).
  by rewrite map_insert_last.
Qed.

Lemma parsed_header b rest off id : block_ok b -> header_of fid b (parsed_block b rest off id).
Proof.
  intros Hb. split; [|done]. pose proof (bo_header _ Hb) as Hh. pose proof (block_count b Hb) as Hn.
  unfold bd_createBlockHeader, parsed_block, setOffset, setFileID, bd_of.
  cbn [headerPtr_ bd_data bd_size txns_ fileID_ offset_ blockHash_ txFilter_ bd_uniqueID].
  set (rest' := var_int_bytes (zlen (blk_txs b)) ++ enc_txs (blk_txs b) ++ rest).
  assert (enc_block b ++ [] ++ rest = hb_bytes (blk_header b) ++ rest') as ->
    by (unfold rest', enc_block; cbn [app]; by rewrite <- !app_assoc).
  edestruct (createBlockHeader_ok (blk_header b) rest') as (d & Hd & _ & ->); [done|].
  eexists. split; [reflexivity|]. split; try done.
  - by apply hb_read_bytes.
  - by apply zlen_hb_bytes.
  - cbn [numTx_]. assert (zlen (zip_with (hashed false) (blk_txs b) (bctxs (blk_txs b) ([] ++ rest)))
      = zlen (blk_txs b)) as ->.
    { unfold zlen. f_equal. generalize ([] ++ rest). clear.
      induction (blk_txs b) as [|tx txs IH]; intros tl; [done|]. cbn. by rewrite IH. }
    apply wrap_small. unfold is_uint. lia.
Qed.

(** All blocks of a file, the first one's entry at [off], when no other thread
    takes ids. *)
Fixpoint parsed (bs : list Block) (off id : Z) : list BlockData :=
  match bs with
  | [] => []
  | b :: bs => parsed_block b (entries magic (enc_blocks bs) ++ tail) (off + 8) id ::
      parsed bs (off + 8 + zlen (enc_block b)) (id + 1)
  end.

Fixpoint end_offset (bs : list Block) (off : Z) (bo : BlockOffset) : BlockOffset :=
  match bs with
  | [] => bo
  | b :: bs => let next := off + 8 + zlen (enc_block b) in end_offset bs next (next_offset next bo)
  end.

Lemma next_offset_after off next bo : off < next -> offset_after bo (mkBlockOffset fid off) = false ->
  next_offset next bo = mkBlockOffset fid next.
Proof.
  intros Hlt. unfold next_offset, offset_after. cbn [bo_fileID bo_offset]. rewrite (Z.eqb_sym fid).
  destruct (Z.eqb_spec (bo_fileID bo) fid); intros Hb; case_match; (done || lia).
Qed.

Lemma end_offset_spec bs off bo : zlen magic = 4 -> offset_after bo (mkBlockOffset fid off) = false ->
  end_offset bs off bo = match bs with [] => bo | _ => mkBlockOffset fid (off + zlen (entries magic (enc_blocks bs))) end.
Proof.
  intros Hm. revert off bo. induction bs as [|b bs IH]; intros off bo Hbo; [done|]. cbn [end_offset].
  pose proof (zlen_nonneg (enc_block b)). rewrite (next_offset_after off) by (done || lia).
  rewrite IH by (unfold offset_after; cbn; rewrite Z.eqb_refl; lia).
  unfold entries, enc_blocks. cbn [map concat]. rewrite zlen_app, zlen_entry by done.
  destruct bs; [cbn [map concat]; rewrite zlen_nil|]; f_equal; lia.
Qed.

Lemma parsed_ids bs off id : map bd_uniqueID (parsed bs off id) = seqZ id (zlen bs).
Proof.
  revert off id. induction bs as [|b bs IH]; intros off id; [done|]. cbn [parsed map]. rewrite IH, zlen_cons.
  rewrite (seqZ_cons id) by (pose proof (zlen_nonneg bs); lia). f_equal. f_equal; lia.
Qed.

Lemma parsed_headers bs off id : Forall block_ok bs -> Forall2 (header_of fid) bs (parsed bs off id).
Proof.
  intros Hbs. revert off id. induction Hbs as [|b bs Hb Hbs IH]; intros off id; [constructor|].
  cbn [parsed]. constructor; [by apply parsed_header|apply IH].
Qed.

Lemma tally_accepts bs off id bc m bo : zlen magic = 4 ->
  Forall (fun b => block_ok b /\ root_matches b = true) bs -> topID_ bc = id -> 0 <= id -> id + zlen bs < 2 ^ 32 ->
  Forall (fun e => e.1 < id) m -> zlen (entries magic (enc_blocks bs) ++ tail) < two64 ->
  accepts magic (tallyBlocks fid false) (enc_blocks bs) tail off (mkTally bc m bo)
    (mkTally (set_topID (id + zlen bs) bc) (m ++ map by_id (parsed bs off id)) (end_offset bs off bo)).
Proof.
  intros Hmagic Hbs. revert off id bc m bo. induction Hbs as [|b bs [Hb Hroot] Hbs IH];
    intros off id bc m bo Hid H0 Hmax Hm Hl.
  { cbn [accepts enc_blocks map parsed end_offset]. rewrite app_nil_r, zlen_nil, Z.add_0_r. subst id. by destruct bc. }
  rewrite zlen_cons in Hmax |- *. pose proof (zlen_nonneg bs). subst id.
  cbn [enc_blocks map accepts parsed end_offset]. fold (enc_blocks bs).
  unfold entries, enc_blocks in Hl. cbn [map concat] in Hl. fold (enc_blocks bs) in Hl.
  fold (entries magic (enc_blocks bs)) in Hl. rewrite <- app_assoc, zlen_app, zlen_entry in Hl by done.
  pose proof (zlen_nonneg (enc_block b)).
  eexists. split; [apply tally_one; try done; [lia|rewrite zlen_app; lia]|].
  specialize (IH (off + 8 + zlen (enc_block b)) (topID_ bc + 1) (set_topID (topID_ bc + 1) bc)
    (m ++ [by_id (parsed_block b (entries magic (enc_blocks bs) ++ tail) (off + 8) (topID_ bc))])
    (next_offset (off + 8 + zlen (enc_block b)) bo) eq_refl ltac:(lia) ltac:(lia)).
  rewrite <- app_assoc in IH. replace (topID_ bc + 1 + zlen bs) with (topID_ bc + (1 + zlen bs)) in IH by lia.
  apply IH; [|lia]. apply Forall_app. split; [eapply Forall_impl; [exact Hm|]; simpl; lia|].
  constructor; [cbn; lia|constructor].
Qed.
End blocks.

(** ** The filters of the new blocks *)

Section filters.
Context {DB : Type} `{StoreLaws DB} `{HashFns}.

Lemma filter_insert_mid f pre post : Forall (fun g => blockKey_ f < blockKey_ g) pre ->
  Forall (fun g => blockKey_ g < blockKey_ f) post -> filter_insert f (pre ++ post) = pre ++ f :: post.
Proof.
  induction 1 as [|g pre Hg Hpre IH]; intros Hpost; cbn [app filter_insert].
  - destruct Hpost as [|g post Hg Hpost]; [done|]. cbn [filter_insert]. unfold tf_less.
    by replace (blockKey_ g <? blockKey_ f) with true by lia.
  - unfold tf_less. replace (blockKey_ g <? blockKey_ f) with false by lia.
    replace (blockKey_ f <? blockKey_ g) with true by lia. by rewrite IH.
Qed.

Lemma filters_ordered_app s t : filters_ordered s -> filters_ordered t ->
  Forall (fun f => Forall (fun g => blockKey_ g < blockKey_ f) t) s -> filters_ordered (s ++ t).
Proof.
  induction s as [|f s IH]; [done|]. intros [Hf Hs] Ht Hst. inversion Hst; subst. split; [|by apply IH].
  by apply Forall_app.
Qed.

(** The higher blocks of a set are inserted before all those that were there. *)
Lemma pool_insert_all new old pre : filters_ordered (pre ++ new) ->
  Forall (fun f => Forall (fun g => blockKey_ g < blockKey_ f) old) (pre ++ new) ->
  foldl (fun s f => filter_insert f s) (pre ++ old) new = pre ++ new ++ old.
Proof.
  revert pre. induction new as [|f new IH]; intros pre Ho Hlow; [done|]. cbn [foldl].
  assert (Forall (fun g => blockKey_ f < blockKey_ g) pre) as Hpre.
  { clear -Ho. induction pre as [|g pre IH]; [constructor|]. destruct Ho as [Hg Ho].
    constructor; [|by apply IH]. apply Forall_app in Hg as [_ Hg]. by inversion Hg. }
  apply Forall_app in Hlow as [Hlow1 Hlow2]. inversion Hlow2 as [|?? Hf Hnew]; subst.
  rewrite filter_insert_mid by done. specialize (IH (pre ++ [f])). rewrite <- !app_assoc in IH. cbn [app] in IH.
  rewrite IH; [done|done|]. by apply Forall_app.
Qed.

(** The filters of the inserted blocks, the last one first. *)
Definition filters_at (m : stdmap Z BlockData) (ids : list Z) : list TxFilter :=
  map (fun id => txFilter_ (default BlockData_new (map_find id m))) (rev ids).

Definition keys_match (m : stdmap Z BlockData) (ids : list Z) : Prop :=
  Forall (fun id => exists bd, map_find id m = Some bd /\ filter_ok (txFilter_ bd) /\ blockKey_ (txFilter_ bd) = id) ids.

Lemma filters_at_cons m id ids : filters_at m (id :: ids) =
  filters_at m ids ++ [txFilter_ (default BlockData_new (map_find id m))].
Proof. unfold filters_at. cbn [rev]. by rewrite map_app. Qed.

Lemma filters_at_ok m ids : keys_match m ids -> StronglySorted Z.lt ids ->
  Forall filter_ok (filters_at m ids) /\ filters_ordered (filters_at m ids) /\
  Forall (fun f => blockKey_ f ∈ ids) (filters_at m ids).
Proof.
  intros Hm. induction 1 as [|id ids Hs IH Hlt]; [done|]. inversion Hm as [|?? (bd & Hbd & Hf & Hk) Hm']; subst.
  destruct (IH Hm') as (Hok & Hord & Hkeys). rewrite filters_at_cons, Hbd. cbn [default from_option id].
  split; [|split].
  - apply Forall_app. split; [done|]. by constructor.
  - apply filters_ordered_app; [done|done|]. rewrite (Forall_forall _ ids) in Hlt. eapply Forall_impl; [exact Hkeys|].
    intros f Hin. constructor; [by apply Hlt|constructor].
  - apply Forall_app. split; [|constructor; [left|constructor]].
    eapply Forall_impl; [exact Hkeys|]. intros f Hin. by right.
Qed.

Lemma tally_filters_ok m ids acc : keys_match m ids -> StronglySorted Z.lt ids ->
  Forall (fun f => Forall (fun id => blockKey_ f < id) ids) acc ->
  tally_filters m ids acc = filters_at m ids ++ acc.
Proof.
  intros Hm Hs. revert acc. induction Hs as [|id ids Hs IH Hlt]; intros acc Hacc; [done|].
  inversion Hm as [|?? (bd & Hbd & Hf & Hk) Hm']; subst. rewrite filters_at_cons, Hbd. cbn [default from_option id].
  cbn [tally_filters]. unfold map_insert. rewrite Hbd. cbn [fst default from_option id].
  rewrite (filter_insert_mid _ [] acc); [|constructor|].
  2:{ eapply Forall_impl; [exact Hacc|]. intros f Hin. by inversion Hin. }
  cbn [app]. rewrite IH; [by rewrite <- app_assoc|done|].
  constructor; [done|]. eapply Forall_impl; [exact Hacc|]. intros f Hin. by inversion Hin.
Qed.

(** The pool of a file: its filters, which are there unless there are none. *)
Definition pool_at (fid : Z) (db : DB) (s : list TxFilter) : Prop :=
  Forall filter_ok s /\ filters_ordered s /\
  (db_get db (getFilterPoolKey fid) = Some (pool_bytes s) \/
   (s = [] /\ db_get db (getFilterPoolKey fid) = None)).

(** Few enough filters that a pool can be searched. *)
Definition pool_fits (s : list TxFilter) : Prop := zlen s < 2 ^ 32.

Lemma pool_bytes_bound s : Forall filter_ok s -> zlen (pool_bytes s) <= 4 + (2 ^ 31 + 12) * zlen s.
Proof.
  intros Hs. unfold pool_bytes. rewrite zlen_app, zlen_le_bytes. apply Zplus_le_compat_l.
  induction Hs as [|f s Hf Hs IH]; [done|]. cbn [map concat]. rewrite zlen_app, zlen_cons, zlen_tf_bytes.
  pose proof (fo_size _ Hf). lia.
Qed.

Lemma pool_at_ok fid db s : pool_at fid db s -> pool_fits s -> s ≠ [] -> pool_ok s.
Proof.
  intros (Hf & Ho & _) Hfit Hne. split; try done. pose proof (pool_bytes_bound s Hf).
  unfold pool_fits, SIZE_MAX, two64 in *. lia.
Qed.

(** What [getFilterPoolForFileNum] makes of it. *)
Lemma pool_at_get fid db s : pool_at fid db s -> pool_fits s -> exists len,
  getFilterPoolForFileNum fid db = Ok (mkPool s None len) /\
  (len = SIZE_MAX -> s = [] /\ db_get db (getFilterPoolKey fid) = None).
Proof.
  intros Hp Hfit. destruct (decide (s = [])) as [->|Hne].
  - destruct Hp as (_ & _ & [E|[_ E]]).
    + exists 0. split; [|done]. unfold getFilterPoolForFileNum. by rewrite E.
    + exists SIZE_MAX. split; [|done]. unfold getFilterPoolForFileNum. by rewrite E.
  - exists (zlen s). pose proof (pool_at_ok _ _ _ Hp Hfit Hne) as Hok. split.
    + destruct Hp as (_ & _ & [E|[? _]]); [|done]. by apply get_pool.
    + unfold pool_fits, SIZE_MAX, two64 in *. lia.
Qed.

Lemma update_filters_ok fid m ids db old : pool_at fid db old -> keys_match m ids -> StronglySorted Z.lt ids ->
  Forall (fun f => Forall (fun id => blockKey_ f < id) ids) old -> pool_fits (filters_at m ids ++ old) ->
  exists db', update_filters fid m ids db = Ok db' /\ pool_at fid db' (filters_at m ids ++ old) /\
    forall k, k ≠ getFilterPoolKey fid -> db_get db' k = db_get db k.
Proof.
  intros Hp Hm Hs Hlow Hfit. destruct (filters_at_ok m ids Hm Hs) as (Hf & Ho & Hk).
  assert (pool_fits old) as Hfit0.
  { unfold pool_fits in *. rewrite zlen_app in Hfit. pose proof (zlen_nonneg (filters_at m ids)). lia. }
  destruct (pool_at_get fid db old Hp Hfit0) as (len & Hget & Hlen).
  unfold update_filters. rewrite Hget. cbn [mbind result_bind].
  destruct (bool_decide (ids = []) && pool_isValid (mkPool old None len)) eqn:E.
  { apply andb_true_iff in E as [->%bool_decide_eq_true _]. by exists db. }
  unfold pool_update. cbn [pool_ poolPtr_]. rewrite (tally_filters_ok m ids []) by done. rewrite app_nil_r.
  assert (Forall (fun f => Forall (fun g => blockKey_ g < blockKey_ f) old) (filters_at m ids)) as Hlow'.
  { rewrite Forall_forall in *. intros f Hin. apply Forall_forall. intros g Hg.
    specialize (Hlow g Hg). rewrite Forall_forall in Hlow. by apply Hlow, Hk. }
  rewrite (pool_insert_all _ old []) by done. cbn [app].
  destruct Hp as (Hfo & Hoo & _).
  assert (Forall filter_ok (filters_at m ids ++ old)) as Hall by by apply Forall_app.
  rewrite (put_pool fid (filters_at m ids ++ old)) by done. eexists. split; [reflexivity|]. split.
  - split; [done|]. split; [by apply filters_ordered_app|]. left. by rewrite db_get_insert, decide_True.
  - intros k Hk'. by rewrite db_get_insert, decide_False.
Qed.

(** A filter of the pool is found through the database. *)
Lemma pool_at_found fid db s f i hash : pool_at fid db s -> pool_fits s -> f ∈ s -> zlen hash = 32 ->
  znth (filterVector_ f) i = Some (hash_head hash) ->
  exists pool m r, getFilterPoolRefForFileNum fid db = Ok pool /\ pool_compare hash pool = Ok m /\
    map_find (blockKey_ f) m = Some r /\ i ∈ map_keys r.
Proof.
  intros Hp Hfit Hin Hh Hi. assert (s ≠ []) as Hne by (intros ->; by apply elem_of_nil in Hin).
  pose proof (pool_at_ok _ _ _ Hp Hfit Hne) as Hok. destruct Hp as (_ & Ho & [E|[? _]]); [|done].
  destruct (proj2 (search_found (hash_head hash) s (blockKey_ f) i Ho)) as (r & Hr & Hri); [by exists f|].
  eexists _, _, r. split; [by apply get_pool_ref|]. by split; [apply pool_compare_in_place|].
Qed.
(** *** The filters of parsed blocks *)

Lemma header_filter fid b bd : block_ok b -> zlen (enc_block b) < 2 ^ 31 -> header_of fid b bd ->
  0 <= bd_uniqueID bd < UINT32_MAX -> filter_ok (txFilter_ bd) /\ blockKey_ (txFilter_ bd) = bd_uniqueID bd.
Proof.
  intros Hb Hsize [_ ->] Hid. split; [|done]. pose proof (block_count b Hb) as Hn. pose proof (block_txs_size b Hb).
  assert (zlen (map hash_head (txids b)) = zlen (blk_txs b)) as El by (unfold txids, zlen; by rewrite !length_map).
  split; cbn [filter_of filterVector_ blockKey_ filterPtr_ tf_len isValid_]; try done.
  - apply Forall_fmap, Forall_true. intros h. apply hash_head_range.
  - intros E. rewrite E, zlen_nil in El. lia.
  - lia.
  - unfold zlen. by rewrite length_map.
Qed.

Lemma sorted_ordered bds : StronglySorted Z.lt (map bd_uniqueID bds) -> map_ordered (map by_id bds).
Proof.
  induction bds as [|bd bds IH]; [done|]. cbn [map]. intros Hs.
  inversion Hs as [|?? Hs' Hf]; subst. split; [|by apply IH].
  apply Forall_fmap. rewrite Forall_fmap in Hf. eapply Forall_impl; [exact Hf|]. intros bd' Hlt. by apply Z.ltb_lt.
Qed.

Lemma sorted_NoDup l : StronglySorted Z.lt l -> NoDup l.
Proof.
  induction 1 as [|x l Hs IH Hf]; constructor; [|done]. intros Hin. rewrite Forall_forall in Hf.
  specialize (Hf x Hin). lia.
Qed.

Lemma seqZ_sorted a n : StronglySorted Z.lt (seqZ a n).
Proof.
  destruct (decide (0 <= n)) as [Hn|]; [|rewrite seqZ_nil by lia; constructor]. revert a. pattern n.
  apply natlike_ind; [|clear n Hn|done].
  { intros a. constructor. }
  intros n Hn IH a. rewrite seqZ_cons by lia. rewrite Z.pred_succ. constructor; [apply IH|].
  apply Forall_forall. intros x Hx%elem_of_seqZ. lia.
Qed.

Lemma find_by_id bds bd : map_ordered (map by_id bds) -> bd ∈ bds ->
  map_find (bd_uniqueID bd) (map by_id bds) = Some bd.
Proof. intros Ho Hin. apply map_find_In; [done|]. by apply (list_elem_of_fmap_2 by_id). Qed.

Lemma keys_match_intro bds ids : map_ordered (map by_id bds) -> (forall id, id ∈ ids -> id ∈ map bd_uniqueID bds) ->
  Forall (fun bd => filter_ok (txFilter_ bd) /\ blockKey_ (txFilter_ bd) = bd_uniqueID bd) bds ->
  keys_match (map by_id bds) ids.
Proof.
  intros Ho Hids Hbds. apply Forall_forall. intros id (bd & -> & Hin)%Hids%list_elem_of_fmap.
  exists bd. split; [by apply find_by_id|]. rewrite Forall_forall in Hbds. by apply Hbds.
Qed.

Lemma filters_at_count bds ids : StronglySorted Z.lt ids -> (forall id, id ∈ ids -> id ∈ map bd_uniqueID bds) ->
  zlen (filters_at (map by_id bds) ids) <= zlen bds.
Proof.
  intros Hs Hids. pose proof (submseteq_length _ _ (NoDup_submseteq _ _ (sorted_NoDup ids Hs) Hids)) as Hle.
  unfold filters_at, zlen. rewrite length_map in *. rewrite length_rev. lia.
Qed.

(** Every transaction of the block is found at its place, under the id, by
    searching the pool in the database for its hash. *)
Definition found_in (fid : Z) (db : DB) (b : Block) (id : Z) : Prop :=
  forall i tx, blk_txs b !! i = Some tx -> exists pool m r, getFilterPoolRefForFileNum fid db = Ok pool /\
    pool_compare (txid tx) pool = Ok m /\ map_find id m = Some r /\ Z.of_nat i ∈ map_keys r.

Lemma filter_found fid bds ids db old b bd : map_ordered (map by_id bds) ->
  pool_at fid db (filters_at (map by_id bds) ids ++ old) -> pool_fits (filters_at (map by_id bds) ids ++ old) ->
  bd ∈ bds -> bd_uniqueID bd ∈ ids -> txFilter_ bd = filter_of (bd_uniqueID bd) (txids b) ->
  found_in fid db b (bd_uniqueID bd).
Proof.
  intros Ho Hat Hfit Hbd Hid Ef j tx Hj.
  apply (pool_at_found fid db _ (filter_of (bd_uniqueID bd) (txids b)) _ _ Hat Hfit).
  - apply elem_of_app. left. rewrite <- Ef. unfold filters_at. apply list_elem_of_fmap.
    exists (bd_uniqueID bd). split; [|by apply elem_of_rev]. by rewrite find_by_id.
  - apply zlen_txid.
  - rewrite znth_nat. cbn. unfold txids. by rewrite !list_lookup_fmap, Hj.
Qed.
End filters.

(** ** The whole of [addBlocksToDB] *)

Section file.
Context `{HashFns} (magic tail : list byte) (before : list (list byte)) (bs : list Block).

Definition start_of : Z := zlen (entries magic before).
Definition file_of : list byte := entries magic before ++ entries magic (enc_blocks bs) ++ tail.

Lemma block_in_file b : b ∈ bs -> zlen (enc_block b) <= zlen file_of.
Proof.
  intros (l1 & l2 & E)%list_elem_of_split. unfold file_of, entries, enc_blocks. rewrite E.
  rewrite (map_app _ l1), map_app, concat_app, !zlen_app. cbn [map concat]. unfold entry at 3.
  rewrite !zlen_app. repeat match goal with |- context [zlen ?l] => lazymatch goal with
    | _ : 0 <= zlen l |- _ => fail | _ => pose proof (zlen_nonneg l) end end. lia.
Qed.
End file.

Section run.
Context `{HashFns} (rank : HashString -> nat) (magic : list byte) (fid : Z) (tail : list byte).
Context (before : list (list byte)) (bs : list Block).
Local Notation start := (start_of magic before).
Local Notation file := (file_of magic tail before bs).

(** A file of valid blocks, of which the first ones are in the chain already. *)
Record file_ok : Prop := {
  fo_nonempty : before ++ enc_blocks bs ≠ [];
  fo_size : zlen file < 2 ^ 31;
  fo_tail : tail_ok magic tail;
  fo_blocks : Forall (chain_block rank) bs;
}.

Lemma blocks_ok : file_ok -> Forall block_ok bs.
Proof using . intros Hf. eapply Forall_impl; [apply (fo_blocks Hf)|]. by intros b [? _]. Qed.

Lemma file_filters bds : file_ok -> Forall2 (header_of fid) bs bds ->
  Forall (fun bd => 0 <= bd_uniqueID bd < UINT32_MAX) bds ->
  Forall (fun bd => filter_ok (txFilter_ bd) /\ blockKey_ (txFilter_ bd) = bd_uniqueID bd) bds.
Proof using .
  intros Hf Hbds Hids. apply Forall_lookup. intros i bd Hbd.
  destruct (Forall2_lookup_r _ _ _ _ _ Hbds Hbd) as (b & Hb & Hhd). apply (header_filter fid b); [| |done|].
  - eapply Forall_lookup_1; [by apply blocks_ok|done].
  - pose proof (block_in_file magic tail before bs b (list_elem_of_lookup_2 _ _ _ Hb)). pose proof (fo_size Hf). lia.
  - by eapply Forall_lookup_1 in Hids.
Qed.

Context (bc : Blockchain) (l0 : list nat) (bo : BlockOffset).

(** The file and the chain its blocks are added to; the offset is not behind
    the first new block. *)
Record file_ready : Prop := {
  fr_magic : zlen magic = 4;
  fr_file : file_ok;
  fr_chain : accepting rank bc l0 [] (zlen bs);
  fr_offset : offset_after bo (mkBlockOffset fid start) = false;
}.

Definition new_blocks : list BlockData := parsed magic fid tail bs start (topID_ bc).

(** The end of the last block of the file. *)
Definition end_of : BlockOffset :=
  match bs with
  | [] => bo
  | _ => mkBlockOffset fid (start + zlen (entries magic (enc_blocks bs)))
  end.

Context (Hr : file_ready).

Lemma parse_run : parseBlockFile magic (tallyBlocks fid false) file start (mkTally bc [] bo) =
  Ok (mkTally (set_topID (topID_ bc + zlen bs) bc) (map by_id new_blocks) end_of).
Proof using Hr.
  destruct Hr as [Hm [Hne Hs Ht Hbs] [] Ho]. unfold end_of.
  rewrite <- (end_offset_spec magic fid bs start bo) by done.
  apply parse_file; [done..| |].
  - apply Forall_fmap. eapply Forall_impl; [exact Hbs|]. intros b [Hb _]. by apply enc_block_pos.
  - apply (tally_accepts magic fid tail bs start (topID_ bc) bc [] bo); try done.
    + eapply Forall_impl; [exact Hbs|]. intros b (? & ? & _). done.
    + unfold UINT32_MAX in *. lia.
    + unfold file_of in Hs. rewrite zlen_app in Hs. pose proof (zlen_nonneg (entries magic before)).
      unfold two64. lia.
Qed.

Lemma values_by_id bds : map_values (map by_id bds) = bds.
Proof. unfold map_values. rewrite map_map. by apply map_id. Qed.

(** The chains before and after the blocks of the file were added, and the ids
    that were reported as new. *)
Record ingested (bc' : Blockchain) (ids : list Z) : Prop := {
  in_topID : topID_ bc' = topID_ bc + zlen bs;
  in_old k p : map_find k (headerMap_ bc) = Some p -> map_find k (headerMap_ bc') = Some p;
  in_heap a : known bc a -> heap_ bc' !! a = heap_ bc !! a;
  in_new k p : map_find k (headerMap_ bc) = None -> map_find k (headerMap_ bc') = Some p ->
    exists a h b, p = Some a /\ heap_ bc' !! a = Some h /\ b ∈ bs /\ block_hash b = k /\
      new_header fid b (uniqueID_ h) h /\ topID_ bc <= uniqueID_ h < topID_ bc' /\ uniqueID_ h ∈ ids;
  in_all b : b ∈ bs -> is_Some (map_find (block_hash b) (headerMap_ bc'));
}.

Lemma build_run : exists ids bc',
  (bhmap ← make_headers new_blocks []; addBlocksInBulk bhmap) (set_topID (topID_ bc + zlen bs) bc) = Ok (ids, bc') /\
  accepting rank bc' l0 [] 0 /\ absorbed fid (set_topID (topID_ bc + zlen bs) bc) bc' bs new_blocks ids /\
  ingested bc' ids.
Proof using Hr.
  destruct Hr as [Hm Hf Hc Ho]. pose proof (zlen_nonneg bs) as Hn.
  assert (accepting rank (set_topID (topID_ bc + zlen bs) bc) l0 (map bd_uniqueID new_blocks ++ []) 0) as Hc1.
  { unfold new_blocks. rewrite parsed_ids. apply accepting_ids; [done|done|]. by rewrite Z.add_0_r. }
  assert (Forall2 (header_of fid) bs new_blocks) as Hbds by by apply parsed_headers, blocks_ok.
  destruct (build_chain rank fid bs new_blocks [] 0 _ l0 ltac:(done) Hc1 (fo_blocks Hf) Hbds) as (ids & bc' & Hrun & Hacc & Hab).
  exists ids, bc'. do 3 (split; [done|]). destruct Hab as [Et Hold Hheap Hnew Hall Hs Hids]. cbn in Et, Hold, Hheap, Hnew.
  split; [done|done|done| |done].
  intros k p Hk Hp. destruct (Hnew k p Hk Hp) as (a & h & i & b & bd & -> & Hh & Hb & Hbd & Ek & Hnh & Eid & Hid & _).
  exists a, h, b. do 2 (split; [done|]). split; [by eapply list_elem_of_lookup_2|]. do 2 (split; [done|]). split; [|done].
  rewrite Et, Eid. assert (bd_uniqueID bd ∈ seqZ (topID_ bc) (zlen bs)) as Hs'%elem_of_seqZ; [|lia].
  rewrite <- (parsed_ids magic fid tail bs start). apply list_elem_of_fmap_2. by eapply list_elem_of_lookup_2.
Qed.
End run.

(** ** Properties *)

Section properties.
Context {DB : Type} `{StoreLaws DB} `{HashFns} (rank : HashString -> nat).

(** [addBlocksToDB] on a file of valid blocks, for a database without
    filters: every block of the file is in the chain afterwards, with a header
    that has its bytes, its hash and an id of its own that was reported as new;
    what was in the chain is as it was, the chain is well-formed, ready to be
    organised and ready for the next file, and the offset is the end of the
    last block. *)
Theorem addBlocksToDB_correct magic dbType fid tail before bs bc l0 bo (db : DB) :
  file_ready rank magic fid tail before bs bc l0 bo -> dbType ≠ ARMORY_DB_FULL ->
  exists ids bc', addBlocksToDB magic dbType (Some (file_of magic tail before bs)) fid (start_of magic before) bo bc db =
      Ok (true, end_of magic fid before bs bo, bc', db) /\
    accepting rank bc' l0 [] 0 /\ ingested fid bs bc bc' ids.
Proof.
  intros Hr Hdb. destruct (build_run rank magic fid tail before bs bc l0 bo Hr) as (ids & bc' & Hrun & Hacc & _ & Hin).
  exists ids, bc'. split; [|done]. unfold addBlocksToDB.
  rewrite (parse_run rank magic fid tail before bs bc l0 bo Hr). cbn [mbind result_bind bdMap t_chain t_bo].
  rewrite values_by_id, Hrun. cbn [mbind result_bind]. by destruct dbType.
Qed.

(** C10: for a full node's database [addBlocksToDB] also keeps the filters of
    the file: whatever was in the file's pool stays there, other keys are not
    touched, and every transaction of every block that is new in the chain is
    found at its place, under the id of the block's header, by searching the
    pool in the database for its hash. *)
Theorem addBlocksToDB_filters magic fid tail before bs bc l0 bo (db : DB) old :
  file_ready rank magic fid tail before bs bc l0 bo -> pool_at fid db old ->
  Forall (fun f => blockKey_ f < topID_ bc) old -> zlen old + zlen bs < 2 ^ 32 ->
  exists ids bc' db' new,
    addBlocksToDB magic ARMORY_DB_FULL (Some (file_of magic tail before bs)) fid (start_of magic before) bo bc db =
      Ok (true, end_of magic fid before bs bo, bc', db') /\
    accepting rank bc' l0 [] 0 /\ ingested fid bs bc bc' ids /\ pool_at fid db' (new ++ old) /\
    (forall k, k ≠ getFilterPoolKey fid -> db_get db' k = db_get db k) /\
    forall k a h, map_find k (headerMap_ bc) = None -> map_find k (headerMap_ bc') = Some (Some a) ->
      heap_ bc' !! a = Some h -> exists b, b ∈ bs /\ block_hash b = k /\ found_in fid db' b (uniqueID_ h).
Proof.
  intros Hr Hold Hlow Hfit.
  destruct (build_run rank magic fid tail before bs bc l0 bo Hr) as (ids & bc' & Hrun & Hacc & Hab & Hin).
  set (bds := new_blocks magic fid tail before bs bc) in *.
  pose proof (parsed_ids magic fid tail bs (start_of magic before) (topID_ bc)) as Eids.
  change (parsed magic fid tail bs (start_of magic before) (topID_ bc)) with bds in Eids.
  pose proof Hr as [Hm Hf Hc _]. pose proof (ab_ids _ _ _ _ _ _ Hab) as Hids. pose proof (ab_sorted _ _ _ _ _ _ Hab) as Hsort.
  assert (map_ordered (map by_id bds)) as Ho by (apply sorted_ordered; rewrite Eids; apply seqZ_sorted).
  assert (forall id, id ∈ map bd_uniqueID bds -> topID_ bc <= id < topID_ bc + zlen bs) as Hrange
    by (intros id; rewrite Eids, elem_of_seqZ; lia).
  assert (keys_match (map by_id bds) ids) as Hkm.
  { apply keys_match_intro; [done|done|]. apply (file_filters rank magic fid tail before bs); [done|by apply parsed_headers, (blocks_ok rank magic tail before)|].
    apply Forall_forall. intros bd Hbd. pose proof (Hrange _ (list_elem_of_fmap_2 bd_uniqueID _ _ Hbd)).
    pose proof (ac_topID _ _ _ _ _ Hc). pose proof (ac_room _ _ _ _ _ Hc). lia. }
  assert (pool_fits (filters_at (map by_id bds) ids ++ old)) as Hfits.
  { unfold pool_fits. rewrite zlen_app. pose proof (filters_at_count bds ids Hsort Hids) as Hcount.
    assert (zlen bds = zlen bs); [|lia]. unfold zlen. f_equal. symmetry. eapply Forall2_length, parsed_headers.
    by apply (blocks_ok rank magic tail before). }
  destruct (update_filters_ok fid (map by_id bds) ids db old Hold Hkm Hsort) as (db' & Hup & Hat & Hother); [|done|].
  { eapply Forall_impl; [exact Hlow|]. intros f Hf'. apply Forall_forall. intros id Hid%Hids%Hrange. simpl in Hf'. lia. }
  exists ids, bc', db', (filters_at (map by_id bds) ids). split; [|do 3 (split; [done|]); split; [done|]].
  { unfold addBlocksToDB. rewrite (parse_run rank magic fid tail before bs bc l0 bo Hr).
    cbn [mbind result_bind bdMap t_chain t_bo]. fold bds. rewrite values_by_id, Hrun. cbn [mbind result_bind].
    by rewrite Hup. }
  intros k a h Hk Hk' Hh.
  destruct (ab_new _ _ _ _ _ _ Hab k _ Hk Hk') as (a' & h' & i & b & bd & [= <-] & Hh' & Hb & Hbd & Ek & _ & Eid & Hid & Ef).
  simplify_eq. exists b. split; [by eapply list_elem_of_lookup_2|]. split; [done|]. rewrite Eid in *.
  apply (filter_found fid bds ids db' old b bd); try done. by eapply list_elem_of_lookup_2.
Qed.
End properties.

(** *** Witnesses: a file of one block on the genesis block *)

Definition w_genesis : HashString := replicate 32 (z2b 1).
Definition w_file_rank (k : HashString) : nat := if decide (k = w_genesis) then 0 else 1.

Definition w_genesis_header (id : Z) : BlockHeader :=
  match createBlockHeader (replicate 80 (z2b 1)) 80 1 0 0 w_genesis id with Ok h => h | Err _ => BlockHeader_default end.

Definition w_base : Chain () :=
  _ ← clear;
  id ← getNewUniqueID;
  g ← make_shared (w_genesis_header id);
  _ ← addNewBlock w_genesis g;
  mret tt.

Definition w_base_chain : Blockchain :=
  match w_base (Blockchain_new w_genesis) with Ok (_, bc) => bc | Err _ => Blockchain_new [] end.

Lemma w_base_accepting n : n < 1000 -> accepting w_file_rank w_base_chain [1%nat] [] n.
Proof.
  intros Hlt.
  assert (wf w_file_rank w_base_chain) as Hwf by (apply wf_b_sound; vm_compute; reflexivity).
  assert (headersById_ w_base_chain = [(0, Some 1%nat)]) as Eids by (vm_compute; reflexivity).
  assert (topID_ w_base_chain = 1) as Etop by (vm_compute; reflexivity).
  split.
  - exact Hwf.
  - apply (new_b_ready w_file_rank); [exact Hwf|vm_compute; reflexivity..].
  - intros a h Ha Hh. assert (Some a ∈ [Some 1%nat]) as [= ->]%list_elem_of_singleton.
    { assert (map_values (headerMap_ w_base_chain) = [Some 1%nat]) as <- by (vm_compute; reflexivity). exact Ha. }
    vm_compute in Hh. injection Hh as <-. vm_compute. reflexivity.
  - intros id. rewrite Etop, Eids. intros [Hid|?%elem_of_nil]; [|done]. cbn. change (std_less id 0) with (id <? 0).
    change (std_less 0 id) with (0 <? id). replace (id <? 0) with false by lia. by replace (0 <? id) with true by lia.
  - constructor.
  - constructor.
  - rewrite Etop. lia.
  - rewrite Etop. unfold UINT32_MAX. lia.
  - assert (zlen (headerMap_ w_base_chain) = 1) as -> by (vm_compute; reflexivity). rewrite zlen_nil. lia.
Qed.

Lemma w_file_ok : @file_ok toy_hashes w_file_rank w_magic (replicate 9 (z2b 0)) [] [some_block].
Proof.
  split; [discriminate|vm_compute; reflexivity|exact w_tail|].
  constructor; [|constructor]. split; [exact some_block_ok|].
  split; [vm_compute; reflexivity|apply (bool_decide_eq_true_1 _); vm_compute; reflexivity].
Qed.

Lemma w_file_ready : @file_ready toy_hashes w_file_rank w_magic 3 (replicate 9 (z2b 0)) [] [some_block]
  w_base_chain [1%nat] (mkBlockOffset 0 0).
Proof. split; [reflexivity|exact w_file_ok|by apply w_base_accepting|reflexivity]. Qed.

Definition w_block_file : list byte := @file_of w_magic (replicate 9 (z2b 0)) [] [some_block].

(** A database that takes what is put and holds nothing for the file. *)
Lemma addBlocksToDB_correct_witness : exists bc',
  @addBlocksToDB AssocDB _ toy_hashes w_magic ARMORY_DB_BARE (Some w_block_file) 3 0 (mkBlockOffset 0 0) w_base_chain [] =
    Ok (true, end_of w_magic 3 [] [some_block] (mkBlockOffset 0 0), bc', []) /\
  is_Some (map_find (@block_hash toy_hashes some_block) (headerMap_ bc')).
Proof.
  destruct (@addBlocksToDB_correct AssocDB _ toy_hashes w_file_rank w_magic ARMORY_DB_BARE 3 _ [] [some_block]
    w_base_chain [1%nat] (mkBlockOffset 0 0) [] w_file_ready ltac:(discriminate)) as (ids & bc' & Hrun & _ & Hin).
  exists bc'. split; [exact Hrun|]. apply (in_all _ _ _ _ _ Hin). left.
Defined.

Lemma addBlocksToDB_filters_witness : exists bc' db' h,
  @addBlocksToDB AssocDB _ toy_hashes w_magic ARMORY_DB_FULL (Some w_block_file) 3 0 (mkBlockOffset 0 0) w_base_chain [] =
    Ok (true, end_of w_magic 3 [] [some_block] (mkBlockOffset 0 0), bc', db') /\
  exists pool m r, getFilterPoolRefForFileNum 3 db' = Ok pool /\
    pool_compare (@txid toy_hashes some_tx2) pool = Ok m /\ map_find (uniqueID_ h) m = Some r /\ 1 ∈ map_keys r.
Proof.
  assert (pool_at (DB := AssocDB) 3 [] []) as Hp by (split; [constructor|split; [exact I|right; done]]).
  destruct (@addBlocksToDB_filters AssocDB _ _ toy_hashes w_file_rank w_magic 3 _ [] [some_block]
    w_base_chain [1%nat] (mkBlockOffset 0 0) [] [] w_file_ready Hp ltac:(constructor) ltac:(reflexivity))
    as (ids & bc' & db' & new & Hrun & _ & Hin & _ & _ & Hfound).
  assert (map_find (@block_hash toy_hashes some_block) (headerMap_ w_base_chain) = None) as Hnone
    by (vm_compute; reflexivity).
  destruct (in_all _ _ _ _ _ Hin some_block ltac:(left)) as (p & Hk).
  destruct (in_new _ _ _ _ _ Hin _ _ Hnone Hk) as (a & h & _ & -> & Hh & _).
  destruct (Hfound _ a h Hnone Hk Hh) as (b & ->%list_elem_of_singleton & _ & Hf).
  exists bc', db', h. split; [exact Hrun|]. exact (Hf 1%nat some_tx2 eq_refl).
Defined.
