(* ===== verification/BlockWorkers.v ===== *)
(** * BlockWorkers: the threads of [updateBlocksInDB]

    [DatabaseBuilder::updateBlocksInDB] of cppForSwig/DatabaseBuilder.cpp gives
    the block files to several threads that run [addBlocksToDB] at the same
    time on one [Blockchain] and one database, then organises the chain.

    The threads meet in three places: the atomic counter behind
    [getNewUniqueID], [addBlocksInBulk], which holds the mutex of the chain,
    and the filter pool of a file, which no other thread uses.  So a step of a
    thread is what it does up to and with one of these: opening a file, one
    round of [parseBlockFile], making the headers and adding them in bulk,
    updating the filters.  Any thread may take the next step. *)

From S2P Require Import Prelude BinaryData BinaryIO Hashing StdMap Merkle DBUtils BlockHeader HeadersDB.
From S2P Require Import TxLength TxFilter Blockchain BlockData BlockFile.

(** Where a thread is: about to call [addBlocksToDB]; at [progress] in
    [parseBlockFile], with the blocks found so far; behind it; behind
    [addBlocksInBulk]; or past the loop. *)
Inductive Phase :=
  | Opening (startOffset : Z)
  | Parsing (file : list byte) (progress : Z) (bds : stdmap Z BlockData)
  | Adding (bds : stdmap Z BlockData)
  | Filtering (bds : stdmap Z BlockData) (insertedBlocks : list Z)
  | Returned.

(** A thread of [addblocks]: its file and its own [BlockOffset]. *)
Record Worker := mkWorker { w_fileID : Z; w_bo : BlockOffset; w_phase : Phase }.

Section workers.
Context {DB : Type} `{Store DB} `{HashFns}.
Context (magicBytes : list byte) (dbType : ARMORY_DB_TYPE).

(** The block files, by number, and how many threads there are. *)
Context (files : Z -> option (list byte)) (threadcount : Z).

(** One step of a thread; an exception, which nothing catches, ends the program. *)
Definition worker_step (w : Worker) (bc : Blockchain) (db : DB) : result (Worker * Blockchain * DB) :=
  let fileID := w_fileID w in
  let at_phase bo phase := mkWorker fileID bo phase in
  match w_phase w with
  | Opening startOffset =>
      match files fileID with
      | None => Ok (at_phase (w_bo w) Returned, bc, db)
      | Some file =>
          _ ← check_magic magicBytes file;
          Ok (at_phase (w_bo w) (Parsing file startOffset []), bc, db)
      end
  | Parsing file progress bds =>
      round ← parse_round magicBytes (tallyBlocks fileID false) file progress (mkTally bc bds (w_bo w));
      match round with
      | None => Ok (at_phase (w_bo w) (Adding bds), bc, db)
      | Some (progress, t) => Ok (at_phase (t_bo t) (Parsing file progress (bdMap t)), t_chain t, db)
      end
  | Adding bds =>
      '(insertedBlocks, bc) ← (bhmap ← make_headers (map_values bds) []; addBlocksInBulk bhmap) bc;
      Ok (at_phase (w_bo w) (Filtering bds insertedBlocks), bc, db)
  | Filtering bds insertedBlocks =>
      db ← (match dbType with
            | ARMORY_DB_FULL => update_filters fileID bds insertedBlocks db
            | _ => Ok db
            end);
      Ok (mkWorker (wrap 16 (fileID + threadcount)) (w_bo w) (Opening 0), bc, db)
  | Returned => Ok (w, bc, db)
  end.

(** ** All threads *)

Record System := mkSystem { sys_chain : Blockchain; sys_db : DB; sys_workers : list Worker }.

Inductive step : System -> System -> Prop :=
  | step_worker bc db ws i w w' bc' db' :
      ws !! i = Some w -> w_phase w ≠ Returned ->
      worker_step w bc db = Ok (w', bc', db') ->
      step (mkSystem bc db ws) (mkSystem bc' db' (<[i := w']> ws)).

Definition joined (s : System) : Prop := Forall (fun w => w_phase w = Returned) (sys_workers s).

(** The threads behind the files after the top one, and the main one. *)
Definition start_workers (topBlockOffset : BlockOffset) : list Worker :=
  let fileID := bo_fileID topBlockOffset in
  map (fun i => mkWorker (wrap 16 (fileID + i)) topBlockOffset (Opening 0)) (seqZ 1 (threadcount - 1)) ++
  [mkWorker fileID topBlockOffset (Opening (bo_offset topBlockOffset))].

(** The largest offset of all threads. *)
Definition top_offset (ws : list Worker) (topBlockOffset : BlockOffset) : BlockOffset :=
  foldl (fun top w => if offset_after (w_bo w) top then w_bo w else top) topBlockOffset ws.

(** [updateBlocksInDB] up to and with [organize], without [fullHints]: what it
    returns and leaves.  What follows is [putNewBareHeaders]. *)
Inductive updateBlocksInDB (topBlockOffset : BlockOffset) (bc : Blockchain) (db : DB)
    : ReorganizationState -> BlockOffset -> Blockchain -> DB -> Prop :=
  | update_joined s reorgState bc' :
      rtc step (mkSystem bc db (start_workers topBlockOffset)) s -> joined s ->
      organize (sys_chain s) = Ok (reorgState, bc') ->
      updateBlocksInDB topBlockOffset bc db reorgState (top_offset (sys_workers s) topBlockOffset) bc' (sys_db s).
End workers.
