(* ===== verification/BlockWorkersInv.v ===== *)
(** * BlockWorkersInv: what holds while several threads read block files

    The invariant of the threads of [updateBlocksInDB], and that a step of any
    of them keeps it.  Each thread has a ghost state: the files it still has,
    the ids it holds for blocks that are not in the chain yet, and how many
    blocks and steps are left. *)

From S2P Require Import Prelude BinaryData BinaryIO Hashing StdMap Merkle DBUtils BlockHeader HeadersDB.
From S2P Require Import Blockchain BlockchainSpec BlockchainOrganize BlockchainProps.
From S2P Require Import TxLength TxFilter TxFilterProps BlockData BlockDataProps BlockFile BlockFileParse.
From S2P Require Import BlockFileChain BlockFileProps BlockWorkers.

(** ** The files *)

(** A block file: blocks that were read before, new ones, an unfinished end. *)
Record BlkFile := mkBlkFile { bf_before : list (list byte); bf_blocks : list Block; bf_tail : list byte }.

Record Ghost := mkGhost { g_files : list Z; g_flight : list Z; g_blocks : Z; g_steps : Z }.

Lemma getFilterPoolKey_inj f f' : 0 <= f < 2 ^ 16 -> 0 <= f' < 2 ^ 16 ->
  getFilterPoolKey f = getFilterPoolKey f' -> f = f'.
Proof.
  assert (forall g, 0 <= g < 2 ^ 16 -> g = be_val (getFilterPoolKey g) mod 2 ^ 24) as Hinv; [|intros Hf Hf' E;
    by rewrite (Hinv f Hf), (Hinv f' Hf'), E].
  intros g Hg. unfold getFilterPoolKey. rewrite be_val_be_bytes. change (256 ^ Z.of_nat 4) with (2 ^ 32).
  rewrite <- Znumtheory.Zmod_div_mod; [|done|done|by exists (2 ^ 8)]. rewrite <- Z.land_ones, Z.land_lor_distr_l, !Z.land_ones by lia.
  rewrite Z.shiftl_mul_pow2, Z.mod_mul by lia. cbn [Z.lor]. symmetry. apply Z.mod_small. lia.
Qed.

Section files.
Context `{HashFns} (magic : list byte) (first : Z) (bfs : list BlkFile) (tc : Z).

Definition bf_bytes (f : BlkFile) : list byte := file_of magic (bf_tail f) (bf_before f) (bf_blocks f).

(** The files have the numbers from [first] on. *)
Definition bf_at (fid : Z) : option BlkFile := znth bfs (fid - first).
Definition files_of (fid : Z) : option (list byte) := bf_bytes <$> bf_at fid.
Definition blocks_of (fid : Z) : list Block := default [] (bf_blocks <$> bf_at fid).

(** The numbers of the files, and how many blocks and steps some of them are:
    opening, a round for each block and one more, adding, filtering. *)
Definition all_files : list Z := seqZ first (zlen bfs).
Definition count_blocks (l : list Z) : Z := foldr (fun f n => zlen (blocks_of f) + n) 0 l.
Definition count_steps (l : list Z) : Z := foldr (fun f n => 4 + zlen (blocks_of f) + n) 1 l.

(** The files of a thread that is at [fid]. *)
Inductive route : Z -> list Z -> Prop :=
  | route_end fid : bf_at fid = None -> route fid []
  | route_next fid f l : bf_at fid = Some f -> fid + tc < 2 ^ 16 -> route (fid + tc) l -> route fid (fid :: l).

Lemma count_blocks_nonneg l : 0 <= count_blocks l.
Proof. induction l as [|f l IH]; [done|]. simpl. pose proof (zlen_nonneg (blocks_of f)). lia. Qed.

Lemma blocks_at fid f : bf_at fid = Some f -> blocks_of fid = bf_blocks f.
Proof. unfold blocks_of. by intros ->. Qed.

Lemma count_blocks_cons fid f l : bf_at fid = Some f -> count_blocks (fid :: l) = zlen (bf_blocks f) + count_blocks l.
Proof. intros Hf. unfold count_blocks. cbn [foldr]. by rewrite (blocks_at _ _ Hf). Qed.

Lemma count_steps_cons fid f l : bf_at fid = Some f -> count_steps (fid :: l) = 4 + zlen (bf_blocks f) + count_steps l.
Proof. intros Hf. unfold count_steps. cbn [foldr]. by rewrite (blocks_at _ _ Hf). Qed.
End files.

(** ** The chain while threads add to it *)

Section chain.
Context `{HashFns} (rank : HashString -> nat) (first : Z) (bfs : list BlkFile).
Local Notation blocks_of := (blocks_of first bfs).

(** From [bc] to [bc'] only blocks of the files [P] were added, with ids from
    [low] on. *)
Record grows (low : Z) (P : Z -> Prop) (bc bc' : Blockchain) : Prop := {
  gr_old k p : map_find k (headerMap_ bc) = Some p -> map_find k (headerMap_ bc') = Some p;
  gr_heap a : known bc a -> heap_ bc' !! a = heap_ bc !! a;
  gr_new k p : map_find k (headerMap_ bc) = None -> map_find k (headerMap_ bc') = Some p ->
    exists a h fid b, p = Some a /\ heap_ bc' !! a = Some h /\ P fid /\ b ∈ blocks_of fid /\ block_hash b = k /\
      new_header fid b (uniqueID_ h) h /\ low <= uniqueID_ h;
}.

Lemma find_known bc k a : wf rank bc -> map_find k (headerMap_ bc) = Some (Some a) -> known bc a.
Proof. intros Hwf Hk. apply (known_find rank bc Hwf). by exists k. Qed.

Lemma grows_refl low P bc bc' : headerMap_ bc' = headerMap_ bc -> heap_ bc' = heap_ bc -> grows low P bc bc'.
Proof. intros E1 E2. split; rewrite ?E1, ?E2; [done|done|congruence]. Qed.

Lemma grows_trans low (P Q : Z -> Prop) bc bc1 bc2 : wf rank bc -> wf rank bc1 -> (forall fid, Q fid -> P fid) ->
  grows low P bc bc1 -> grows low Q bc1 bc2 -> grows low P bc bc2.
Proof.
  intros Hwf Hwf1 HQ [Ho1 Hh1 Hn1] [Ho2 Hh2 Hn2]. split.
  - auto.
  - intros a Ha. pose proof Ha as (k & Hk)%(known_find rank bc Hwf).
    rewrite Hh2; [by apply Hh1|]. by apply (find_known bc1 k); [|apply Ho1].
  - intros k p Hk Hp. destruct (map_find k (headerMap_ bc1)) as [q|] eqn:Eq.
    + pose proof (Ho2 _ _ Eq). destruct (Hn1 k q Hk Eq) as (a & h & fid & b & -> & Hh & Hrest).
      assert (p = Some a) as -> by congruence. exists a, h, fid, b. split; [done|]. split; [|done].
      rewrite Hh2; [done|]. by eapply find_known.
    + destruct (Hn2 k p Eq Hp) as (a & h & fid & b & -> & Hh & HP & Hrest). exists a, h, fid, b. eauto 10.
Qed.

Context (bc0 : Blockchain).

(** A header that was not in the chain at the beginning, and its file. *)
Definition newcomer (bc : Blockchain) (fid : Z) (k : HashString) (h : BlockHeader) : Prop :=
  exists a, map_find k (headerMap_ bc0) = None /\ map_find k (headerMap_ bc) = Some (Some a) /\
    heap_ bc !! a = Some h /\ blkFileNum_ h = fid.

Definition in_chain (bc : Blockchain) (fid : Z) : Prop :=
  forall b, b ∈ blocks_of fid -> is_Some (map_find (block_hash b) (headerMap_ bc)).

(** No block of the file is in the chain because of it. *)
Definition untouched (bc : Blockchain) (fid : Z) : Prop := forall k h, ~ newcomer bc fid k h.

(** The filters of the new blocks of the file are among the parsed ones. *)
Definition to_filter (bc : Blockchain) (fid : Z) (bds : list BlockData) (ids : list Z) : Prop :=
  forall k h, newcomer bc fid k h -> exists i b bd, blocks_of fid !! i = Some b /\ bds !! i = Some bd /\
    block_hash b = k /\ uniqueID_ h = bd_uniqueID bd /\ uniqueID_ h ∈ ids /\
    txFilter_ bd = filter_of (uniqueID_ h) (txids b).

Section stable.
Context (low : Z) (P : Z -> Prop) (bc bc' : Blockchain) (Hwf : wf rank bc) (Hg : grows low P bc bc').

Lemma newcomer_back fid k h : ~ P fid -> newcomer bc' fid k h -> newcomer bc fid k h.
Proof using Hwf Hg.
  intros HP (a & Hk & Hk' & Hh & Ef). exists a. split; [done|].
  destruct (map_find k (headerMap_ bc)) as [q|] eqn:Eq.
  - pose proof (gr_old _ _ _ _ Hg _ _ Eq). assert (q = Some a) as -> by congruence. split; [done|]. split; [|done].
    rewrite <- (gr_heap _ _ _ _ Hg); [done|]. by eapply find_known.
  - destruct (gr_new _ _ _ _ Hg k _ Eq Hk') as (a' & h' & fid' & b & [= <-] & Hh' & HP' & _ & _ & Hnh & _).
    assert (h' = h) as -> by congruence. rewrite (nh_file _ _ _ _ Hnh) in Ef. by subst.
Qed.

Lemma in_chain_stable fid : in_chain bc fid -> in_chain bc' fid.
Proof using Hg. intros Hin b Hb. destruct (Hin b Hb) as [p Hp]. exists p. by apply (gr_old _ _ _ _ Hg). Qed.

Lemma untouched_stable fid : ~ P fid -> untouched bc fid -> untouched bc' fid.
Proof using Hwf Hg. intros HP Hu k h Hn. by eapply Hu, newcomer_back. Qed.

Lemma to_filter_stable fid bds ids : ~ P fid -> to_filter bc fid bds ids -> to_filter bc' fid bds ids.
Proof using Hwf Hg. intros HP Ht k h Hn. by apply Ht, newcomer_back. Qed.
End stable.
End chain.

(** ** One thread *)

Section worker.
Context {DB : Type} `{StoreLaws DB} `{HashFns} (rank : HashString -> nat) (magic : list byte) (dbType : ARMORY_DB_TYPE).
Context (first : Z) (bfs : list BlkFile) (tc : Z) (bc0 : Blockchain) (l0 : list nat) (old : Z -> list TxFilter).
Local Notation bf_at := (bf_at first bfs).
Local Notation blocks_of := (blocks_of first bfs).
Local Notation route := (route first bfs tc).
Local Notation count_blocks := (count_blocks first bfs).
Local Notation count_steps := (count_steps first bfs).
Local Notation untouched := (untouched bc0).
Local Notation low := (topID_ bc0).

(** The pool of a file before the threads start, for a full node. *)
Definition pools_ready (db : DB) (l : list Z) : Prop := dbType = ARMORY_DB_FULL -> forall fid, fid ∈ l ->
  pool_at fid db (old fid) /\ Forall (fun f => blockKey_ f < low) (old fid) /\
  zlen (old fid) + zlen (blocks_of fid) < 2 ^ 32.

(** What the threads need of the files. *)
Record files_ready : Prop := {
  fl_magic : zlen magic = 4;
  fl_first : 0 <= first;
  fl_threads : 1 <= tc;
  fl_last : first + zlen bfs + tc <= 2 ^ 16;
  fl_files fid f : bf_at fid = Some f -> file_ok rank magic (bf_tail f) (bf_before f) (bf_blocks f);
  fl_before fid f : bf_at fid = Some f -> fid ≠ first -> bf_before f = [];
}.

(** Where a thread starts in its file. *)
Definition start_at (fid : Z) : Z := match bf_at fid with Some f => start_of magic (bf_before f) | None => 0 end.

(** The blocks [bs] of a file are parsed to [bds]. *)
Record tallied (fid : Z) (bs : list Block) (bds : list BlockData) : Prop := {
  ta_headers : Forall2 (header_of fid) bs bds;
  ta_sorted : StronglySorted Z.lt (map bd_uniqueID bds);
  ta_low : Forall (fun bd => low <= bd_uniqueID bd) bds;
}.

Definition ids_of (bds : list BlockData) : list Z := map bd_uniqueID bds.

(** A thread and its ghost state. *)
Inductive worker_ok (bc : Blockchain) : Worker -> Ghost -> Prop :=
  | ok_opening fid bo start l : route fid l -> (bf_at fid ≠ None -> start = start_at fid) -> Forall (untouched bc) l ->
      worker_ok bc (mkWorker fid bo (Opening start)) (mkGhost l [] (count_blocks l) (count_steps l))
  | ok_parsing fid bo f don todo bds l : bf_at fid = Some f -> route fid (fid :: l) -> bf_blocks f = don ++ todo ->
      tallied fid don bds -> Forall (untouched bc) (fid :: l) ->
      worker_ok bc (mkWorker fid bo (Parsing (bf_bytes magic f) (start_of magic (bf_before f ++ enc_blocks don)) (map by_id bds)))
        (mkGhost (fid :: l) (ids_of bds) (zlen todo + count_blocks l) (3 + zlen todo + count_steps l))
  | ok_adding fid bo f bds l : bf_at fid = Some f -> route fid (fid :: l) -> tallied fid (bf_blocks f) bds ->
      Forall (untouched bc) (fid :: l) ->
      worker_ok bc (mkWorker fid bo (Adding (map by_id bds)))
        (mkGhost (fid :: l) (ids_of bds) (count_blocks l) (2 + count_steps l))
  | ok_filtering fid bo f bds ids l : bf_at fid = Some f -> route fid (fid :: l) -> tallied fid (bf_blocks f) bds ->
      Forall (fun bd => bd_uniqueID bd < UINT32_MAX) bds ->
      StronglySorted Z.lt ids -> (forall id, id ∈ ids -> id ∈ ids_of bds) ->
      in_chain first bfs bc fid -> to_filter first bfs bc0 bc fid bds ids -> Forall (untouched bc) l ->
      worker_ok bc (mkWorker fid bo (Filtering (map by_id bds) ids))
        (mkGhost (fid :: l) [] (count_blocks l) (1 + count_steps l))
  | ok_returned fid bo : worker_ok bc (mkWorker fid bo Returned) (mkGhost [] [] 0 0).

(** Another thread's step does not disturb it. *)
Lemma worker_ok_stable bc bc' P w g : wf rank bc -> grows first bfs low P bc bc' ->
  (forall fid, fid ∈ g_files g -> ~ P fid) -> worker_ok bc w g -> worker_ok bc' w g.
Proof.
  intros Hwf Hg HP Hw.
  assert (forall l, (forall fid, fid ∈ l -> fid ∈ g_files g) -> Forall (untouched bc) l -> Forall (untouched bc') l) as Hun.
  { intros l Hl Hu. rewrite Forall_forall in *. intros fid Hfid.
    by eapply untouched_stable; [done|done|apply HP, Hl|apply Hu]. }
  destruct Hw; cbn [g_files] in *; econstructor; eauto.
  - by eapply in_chain_stable.
  - eapply to_filter_stable; try done. apply HP. left.
  - apply Hun; [|done]. intros fid' Hin. by right.
Qed.

(** The new blocks of a file are found through the filters, for a full node. *)
Definition file_done (bc : Blockchain) (db : DB) (fid : Z) : Prop :=
  in_chain first bfs bc fid /\
  (dbType = ARMORY_DB_FULL -> forall k h, newcomer bc0 bc fid k h ->
    exists b, b ∈ blocks_of fid /\ block_hash b = k /\ found_in fid db b (uniqueID_ h)).

Lemma file_done_stable bc bc' db db' P fid : wf rank bc -> grows first bfs low P bc bc' -> ~ P fid ->
  db_get db' (getFilterPoolKey fid) = db_get db (getFilterPoolKey fid) ->
  file_done bc db fid -> file_done bc' db' fid.
Proof.
  intros Hwf Hg HP Hdb [Hin Hf]. split; [by eapply in_chain_stable|]. intros Hfull k h Hn.
  destruct (Hf Hfull k h) as (b & Hb & Ek & Hfound); [by eapply newcomer_back|].
  exists b. do 2 (split; [done|]). intros i tx Hi. destruct (Hfound i tx Hi) as (pool & m & r & Hpool & Hrest).
  exists pool, m, r. split; [|done]. unfold getFilterPoolRefForFileNum in *. by rewrite Hdb.
Qed.

(** What a step of the thread at [fid] does, next to threads that hold the ids
    [fl] and have [n] blocks left. *)
Record steps_to (w : Worker) (g : Ghost) (fl : list Z) (n : Z) bc db (w' : Worker) (g' : Ghost) bc' (db' : DB) : Prop := {
  st_step : worker_step magic dbType (files_of magic first bfs) tc w bc db = Ok (w', bc', db');
  st_ok : worker_ok bc' w' g';
  st_chain : accepting rank bc' l0 (g_flight g' ++ fl) (g_blocks g' + n);
  st_grows : grows first bfs low (fun fid => fid = w_fileID w /\ fid ∈ g_files g) bc bc';
  st_topID : topID_ bc <= topID_ bc';
  st_files : exists don, g_files g = don ++ g_files g' /\ Forall (file_done bc' db') don /\
    (forall k, don = [] \/ k ≠ getFilterPoolKey (w_fileID w) -> db_get db' k = db_get db k) /\
    (don = [] \/ don = [w_fileID w]);
  st_count : g_steps g' + 1 = g_steps g;
}.
End worker.

(** ** The steps *)

Section steps.
Context {DB : Type} `{StoreLaws DB} `{HashFns} (rank : HashString -> nat) (magic : list byte) (dbType : ARMORY_DB_TYPE).
Context (first : Z) (bfs : list BlkFile) (tc : Z) (bc0 : Blockchain) (l0 : list nat).
Context (Hfl : files_ready rank magic first bfs tc).
Context (fl : list Z) (n : Z) (bc : Blockchain) (db : DB) (Hn : 0 <= n) (Hlow : topID_ bc0 <= topID_ bc).
Local Notation steps_to := (steps_to rank magic dbType first bfs tc bc0 l0).
Local Notation worker_ok := (worker_ok magic first bfs tc bc0).
Local Notation bf_at := (bf_at first bfs).

Lemma entries_app l l' : entries magic (l ++ l') = entries magic l ++ entries magic l'.
Proof. unfold entries. by rewrite map_app, concat_app. Qed.

Lemma bf_at_range fid f : bf_at fid = Some f -> first <= fid < first + zlen bfs.
Proof. intros Hf%znth_Some_range. lia. Qed.

(** A file, split where a thread is. *)
Lemma bf_split f don todo : bf_blocks f = don ++ todo ->
  bf_bytes magic f = entries magic (bf_before f ++ enc_blocks don) ++ entries magic (enc_blocks todo) ++ bf_tail f.
Proof.
  intros E. unfold bf_bytes, file_of. rewrite E. unfold enc_blocks. by rewrite map_app, !entries_app, <- !app_assoc.
Qed.

Lemma check_bf fid f : bf_at fid = Some f -> check_magic magic (bf_bytes magic f) = Ok tt.
Proof using Hfl.
  intros Hf. unfold bf_bytes, file_of. apply check_magic_entries; [apply Hfl|by eapply fl_files].
Qed.

Lemma opening_step fid bo start l : worker_ok bc (mkWorker fid bo (Opening start)) (mkGhost l [] (count_blocks first bfs l) (count_steps first bfs l)) ->
  accepting rank bc l0 fl (count_blocks first bfs l + n) ->
  exists w' g', steps_to (mkWorker fid bo (Opening start)) (mkGhost l [] (count_blocks first bfs l) (count_steps first bfs l)) fl n bc db w' g' bc db.
Proof using Hfl Hn.
  intros Hw Hc. inversion Hw as [? ? ? ? Hroute Hstart Hun| | | |]; subst.
  destruct Hroute as [fid Hnone|fid f l Hf Hlt Hroute].
  - exists (mkWorker fid bo Returned), (mkGhost [] [] 0 0). split; cbn [g_files g_flight g_blocks g_steps w_fileID].
    + unfold worker_step. cbn [w_phase w_fileID w_bo]. unfold files_of. by rewrite Hnone.
    + constructor.
    + done.
    + by apply grows_refl.
    + done.
    + exists []. split; [done|]. split; [constructor|]. split; [done|by left].
    + done.
  - exists (mkWorker fid bo (Parsing (bf_bytes magic f) (start_of magic (bf_before f ++ enc_blocks [])) (map by_id []))),
      (mkGhost (fid :: l) (ids_of []) (zlen (bf_blocks f) + count_blocks first bfs l) (3 + zlen (bf_blocks f) + count_steps first bfs l)).
    rewrite (count_blocks_cons _ _ _ _ _ Hf) in Hc |- *. rewrite (count_steps_cons _ _ _ _ _ Hf).
    split; cbn [g_files g_flight g_blocks g_steps w_fileID ids_of map app].
    + unfold worker_step. cbn [w_phase w_fileID w_bo]. unfold files_of. rewrite Hf. cbn [fmap option_fmap option_map].
      rewrite (check_bf fid f Hf). cbn [mbind result_bind]. rewrite Hstart by (by rewrite Hf). unfold start_at. rewrite Hf.
      unfold enc_blocks at 1. cbn [map]. by rewrite app_nil_r.
    + apply (ok_parsing magic first bfs tc bc0 bc fid bo f [] (bf_blocks f) [] l);
        [done|by eapply route_next|done| |done]. split; constructor.
    + done.
    + by apply grows_refl.
    + done.
    + exists []. split; [done|]. split; [constructor|]. split; [done|by left].
    + lia.
Qed.

Lemma sorted_snoc l x : StronglySorted Z.lt l -> Forall (fun y => y < x) l -> StronglySorted Z.lt (l ++ [x]).
Proof.
  induction 1 as [|y l Hs IH Hf]; intros Hx; [repeat constructor|]. inversion Hx; subst.
  cbn [app]. constructor; [by apply IH|]. apply Forall_app. split; [done|by constructor].
Qed.

(** The end of a file. *)
Lemma parsing_end fid bo f bds l : bf_at fid = Some f -> route first bfs tc fid (fid :: l) ->
  tallied bc0 fid (bf_blocks f) bds -> Forall (untouched bc0 bc) (fid :: l) ->
  let w := mkWorker fid bo (Parsing (bf_bytes magic f) (start_of magic (bf_before f ++ enc_blocks (bf_blocks f))) (map by_id bds)) in
  let g := mkGhost (fid :: l) (ids_of bds) (count_blocks first bfs l) (3 + count_steps first bfs l) in
  accepting rank bc l0 (g_flight g ++ fl) (g_blocks g + n) ->
  exists w' g', steps_to w g fl n bc db w' g' bc db.
Proof using Hfl Hn.
  intros Hf Hroute Hta Hun w g Hc. subst w g. pose proof (fl_files _ _ _ _ _ Hfl fid f Hf) as [_ Hsize Htail _].
  exists (mkWorker fid bo (Adding (map by_id bds))), (mkGhost (fid :: l) (ids_of bds) (count_blocks first bfs l) (2 + count_steps first bfs l)).
  split; cbn [g_files g_flight g_blocks g_steps w_fileID] in *.
  - unfold worker_step. cbn [w_phase w_fileID w_bo]. pose proof (bf_split f (bf_blocks f) [] ltac:(by rewrite app_nil_r)) as E.
    cbn in E. unfold bf_bytes in *. rewrite E in *. unfold start_of.
    rewrite (parse_round_tail magic _ (fl_magic _ _ _ _ _ Hfl)) by done. done.
  - by apply (ok_adding magic first bfs tc bc0 bc fid bo f).
  - done.
  - by apply grows_refl.
  - done.
  - exists []. split; [done|]. split; [constructor|]. split; [done|by left].
  - lia.
Qed.

(** One block. *)
Lemma parsing_block fid bo f don b todo bds l : bf_at fid = Some f -> route first bfs tc fid (fid :: l) ->
  bf_blocks f = don ++ b :: todo -> tallied bc0 fid don bds -> Forall (untouched bc0 bc) (fid :: l) ->
  let w := mkWorker fid bo (Parsing (bf_bytes magic f) (start_of magic (bf_before f ++ enc_blocks don)) (map by_id bds)) in
  let g := mkGhost (fid :: l) (ids_of bds) (zlen (b :: todo) + count_blocks first bfs l) (3 + zlen (b :: todo) + count_steps first bfs l) in
  accepting rank bc l0 (g_flight g ++ fl) (g_blocks g + n) ->
  exists w' g', steps_to w g fl n bc db w' g' (set_topID (topID_ bc + 1) bc) db.
Proof using Hfl Hn Hlow.
  intros Hf Hroute E Hta Hun w g Hc. subst w g. cbn [g_files g_flight g_blocks g_steps] in Hc.
  pose proof (fl_files _ _ _ _ _ Hfl fid f Hf) as [_ Hsize _ Hbs]. pose proof (fl_magic _ _ _ _ _ Hfl) as Hm.
  rewrite E in Hbs. apply Forall_app in Hbs as [_ Hbs]. inversion Hbs as [|?? (Hb & Hroot & _) _]; subst.
  set (pre := entries magic (bf_before f ++ enc_blocks don)). set (rest := entries magic (enc_blocks todo) ++ bf_tail f).
  assert (bf_bytes magic f = pre ++ entry magic (enc_block b) ++ rest) as Efile.
  { rewrite (bf_split f don (b :: todo) E). unfold rest, entries, enc_blocks. cbn [map concat]. by rewrite <- !app_assoc. }
  change (zlen (bf_bytes magic f) < 2 ^ 31) in Hsize. rewrite Efile in Hsize.
  set (bd := parsed_block fid b rest (zlen pre + 8) (topID_ bc)).
  set (bo' := next_offset fid (zlen pre + 8 + zlen (enc_block b)) bo).
  pose proof (count_blocks_nonneg first bfs l) as Hcnt. pose proof (zlen_nonneg todo) as Htodo.
  rewrite zlen_cons in Hc. pose proof (ac_flight _ _ _ _ _ Hc) as Hflight. apply Forall_app in Hflight as [Hflight _].
  assert (start_of magic (bf_before f ++ enc_blocks (don ++ [b])) = zlen (pre ++ entry magic (enc_block b))) as Enext.
  { unfold start_of, enc_blocks, pre. rewrite map_app, app_assoc, (entries_app _ (map enc_block [b])). f_equal.
    unfold entries at 2. cbn [map concat]. by rewrite app_nil_r. }
  exists (mkWorker fid bo' (Parsing (bf_bytes magic f) (start_of magic (bf_before f ++ enc_blocks (don ++ [b]))) (map by_id (bds ++ [bd])))),
    (mkGhost (fid :: l) (ids_of (bds ++ [bd])) (zlen todo + count_blocks first bfs l) (3 + zlen todo + count_steps first bfs l)).
  split; cbn [g_files g_flight g_blocks g_steps w_fileID].
  - unfold worker_step. cbn [w_phase w_fileID w_bo]. unfold start_of at 1. fold pre. rewrite Enext, Efile.
    erewrite (parse_round_entry magic _ Hm pre (enc_block b) rest); [|by apply enc_block_pos|done|].
    2:{ apply tally_one; try done.
        - apply Hc.
        - pose proof (ac_room _ _ _ _ _ Hc). unfold UINT32_MAX in *. lia.
        - apply Forall_fmap. unfold ids_of in Hflight. rewrite Forall_fmap in Hflight. exact Hflight.
        - rewrite !zlen_app in Hsize. rewrite zlen_app. pose proof (zlen_entry magic Hm (enc_block b)).
          pose proof (zlen_nonneg pre). unfold two64. lia. }
    cbn [mbind result_bind]. by rewrite map_app.
  - apply ok_parsing; [done|done|by rewrite <- app_assoc| |done]. destruct Hta as [Hh Hs Hl]. split.
    + apply Forall2_app; [done|]. constructor; [by apply parsed_header|constructor].
    + rewrite map_app. apply sorted_snoc; [done|exact Hflight].
    + apply Forall_app. split; [done|]. constructor; [done|constructor].
  - replace (1 + zlen todo + count_blocks first bfs l + n) with (1 + (zlen todo + count_blocks first bfs l + n)) in Hc by lia.
    apply accepting_id in Hc; [|lia]. eapply accepting_perm; [|exact Hc]. unfold ids_of. rewrite map_app, <- app_assoc.
    apply Permutation_middle.
  - by apply grows_refl.
  - cbn. lia.
  - exists []. split; [done|]. split; [constructor|]. split; [done|by left].
  - rewrite zlen_cons. lia.
Qed.

Lemma absorbed_grows fid f bds ids bc' P : wf rank bc -> bf_at fid = Some f -> P fid ->
  Forall (fun bd => topID_ bc0 <= bd_uniqueID bd) bds ->
  absorbed fid bc bc' (bf_blocks f) bds ids -> grows first bfs (topID_ bc0) P bc bc'.
Proof using .
  intros Hwf Hf HP Hlo Hab. split.
  - apply Hab.
  - apply Hab.
  - intros k p Hk Hp. destruct (ab_new _ _ _ _ _ _ Hab k p Hk Hp) as (a & h & i & b & bd & -> & Hh & Hb & Hbd & Ek & Hnh & Eid & _).
    exists a, h, fid, b. do 3 (split; [done|]). rewrite (blocks_at first bfs fid f Hf).
    split; [by eapply list_elem_of_lookup_2|]. do 2 (split; [done|]). rewrite Eid.
    by eapply Forall_lookup_1 in Hlo.
Qed.

Lemma adding_step fid bo f bds l : bf_at fid = Some f -> route first bfs tc fid (fid :: l) ->
  tallied bc0 fid (bf_blocks f) bds -> Forall (untouched bc0 bc) (fid :: l) ->
  let w := mkWorker fid bo (Adding (map by_id bds)) in
  let g := mkGhost (fid :: l) (ids_of bds) (count_blocks first bfs l) (2 + count_steps first bfs l) in
  accepting rank bc l0 (g_flight g ++ fl) (g_blocks g + n) -> (forall fid', fid' ∈ l -> fid' ≠ fid) ->
  exists w' g' bc', steps_to w g fl n bc db w' g' bc' db.
Proof using Hfl Hn.
  intros Hf Hroute Hta Hun w g Hc Hdis. subst w g. cbn [g_files g_flight g_blocks g_steps] in Hc.
  pose proof (fl_files _ _ _ _ _ Hfl fid f Hf) as [_ _ _ Hbs]. pose proof (count_blocks_nonneg first bfs l) as Hcnt.
  destruct (build_chain rank fid (bf_blocks f) bds fl (count_blocks first bfs l + n) bc l0 ltac:(lia) Hc Hbs (ta_headers _ _ _ _ Hta))
    as (ids & bc' & Hrun & Hacc & Hab).
  pose proof (ac_wf _ _ _ _ _ Hc) as Hwf.
  assert (forall P, P fid -> grows first bfs (topID_ bc0) P bc bc') as Hgr
    by (intros P HP; by apply (absorbed_grows fid f bds ids bc' P Hwf Hf HP (ta_low _ _ _ _ Hta))).
  inversion Hun as [|?? Hunf Hunl]; subst.
  exists (mkWorker fid bo (Filtering (map by_id bds) ids)), (mkGhost (fid :: l) [] (count_blocks first bfs l) (1 + count_steps first bfs l)), bc'.
  split; cbn [g_files g_flight g_blocks g_steps w_fileID app].
  - unfold worker_step. cbn [w_phase w_fileID w_bo]. rewrite values_by_id, Hrun. done.
  - apply (ok_filtering magic first bfs tc bc0 bc' fid bo f); try done.
    + pose proof (ac_flight _ _ _ _ _ Hc) as Hfli. apply Forall_app in Hfli as [Hfli _].
      unfold ids_of in Hfli. rewrite Forall_fmap in Hfli. eapply Forall_impl; [exact Hfli|].
      pose proof (ac_room _ _ _ _ _ Hc). cbn. lia.
    + apply Hab.
    + apply Hab.
    + intros b. rewrite (blocks_at first bfs fid f Hf). apply Hab.
    + intros k h (a & Hk & Hk' & Hh & Efile). destruct (map_find k (headerMap_ bc)) as [q|] eqn:Eq.
      * exfalso. apply (Hunf k h). exists a. split; [done|]. pose proof (ab_old _ _ _ _ _ _ Hab _ _ Eq).
        assert (q = Some a) as -> by congruence. split; [done|]. split; [|done].
        rewrite <- (ab_heap _ _ _ _ _ _ Hab); [done|]. by eapply find_known.
      * destruct (ab_new _ _ _ _ _ _ Hab k _ Eq Hk') as (a' & h' & i & b & bd & [= <-] & Hh' & Hb & Hbd & Ek & Hnh & Eid & Hid & Et).
        assert (h' = h) as -> by congruence. exists i, b, bd. by rewrite (blocks_at first bfs fid f Hf).
    + rewrite Forall_forall in *. intros fid' Hin. apply (untouched_stable rank first bfs bc0 (topID_ bc0) (fun x => x = fid) bc bc').
      * done.
      * by apply Hgr.
      * by apply Hdis.
      * by apply Hunl.
  - done.
  - apply Hgr. split; [done|left].
  - rewrite (ab_topID _ _ _ _ _ _ Hab). done.
  - exists []. split; [done|]. split; [constructor|]. split; [done|by left].
  - lia.
Qed.

Lemma route_tail fid l : route first bfs tc fid (fid :: l) -> route first bfs tc (wrap 16 (fid + tc)) l.
Proof using Hfl.
  intros Hr. inversion Hr as [|? f ? Hf Hlt Hl]; subst. apply bf_at_range in Hf.
  pose proof (fl_first _ _ _ _ _ Hfl). pose proof (fl_threads _ _ _ _ _ Hfl).
  by rewrite wrap_small by (unfold is_uint; lia).
Qed.

Lemma start_next fid l : route first bfs tc fid (fid :: l) -> start_at magic first bfs (wrap 16 (fid + tc)) = 0.
Proof using Hfl.
  intros Hr. inversion Hr as [|? f ? Hf Hlt Hl]; subst. apply bf_at_range in Hf.
  pose proof (fl_first _ _ _ _ _ Hfl). pose proof (fl_threads _ _ _ _ _ Hfl).
  rewrite wrap_small by (unfold is_uint; lia). unfold start_at.
  destruct (bf_at (fid + tc)) as [f'|] eqn:Ef; [|done]. rewrite (fl_before _ _ _ _ _ Hfl _ _ Ef) by lia. done.
Qed.

Lemma filter_update fid f bds ids old : bf_at fid = Some f -> tallied bc0 fid (bf_blocks f) bds ->
  Forall (fun bd => bd_uniqueID bd < UINT32_MAX) bds -> 0 <= topID_ bc0 ->
  StronglySorted Z.lt ids -> (forall id, id ∈ ids -> id ∈ ids_of bds) -> to_filter first bfs bc0 bc fid bds ids ->
  pool_at fid db old -> Forall (fun f => blockKey_ f < topID_ bc0) old -> zlen old + zlen (bf_blocks f) < 2 ^ 32 ->
  exists db', update_filters fid (map by_id bds) ids db = Ok db' /\
    (forall k, k ≠ getFilterPoolKey fid -> db_get db' k = db_get db k) /\
    forall k h, newcomer bc0 bc fid k h -> exists b, b ∈ blocks_of first bfs fid /\ block_hash b = k /\
      found_in fid db' b (uniqueID_ h).
Proof using Hfl H0.
  intros Hf [Hh Hs Hlo] Hhi Hpos Hsort Hids Hto Hold Hlow' Hfit.
  assert (map_ordered (map by_id bds)) as Ho by by apply sorted_ordered.
  pose proof (fl_files _ _ _ _ _ Hfl fid f Hf) as Hok.
  assert (keys_match (map by_id bds) ids) as Hkm.
  { apply keys_match_intro; [done|done|]. apply (file_filters rank magic fid (bf_tail f) (bf_before f) (bf_blocks f)); [done|done|].
    rewrite Forall_forall in *. intros bd Hbd. specialize (Hlo bd Hbd). specialize (Hhi bd Hbd). simpl in *. lia. }
  assert (pool_fits (filters_at (map by_id bds) ids ++ old)) as Hfits.
  { unfold pool_fits. rewrite zlen_app. pose proof (filters_at_count bds ids Hsort Hids) as Hcount.
    assert (zlen bds = zlen (bf_blocks f)) as E; [|lia]. unfold zlen. f_equal. symmetry. by eapply Forall2_length. }
  destruct (update_filters_ok fid (map by_id bds) ids db old Hold Hkm Hsort) as (db' & Hup & Hat & Hother); [|done|].
  { eapply Forall_impl; [exact Hlow'|]. intros g Hg. apply Forall_forall. intros id Hid%Hids.
    apply list_elem_of_fmap in Hid as (bd & -> & Hbd). rewrite Forall_forall in Hlo. specialize (Hlo bd Hbd). simpl in *. lia. }
  exists db'. split; [done|]. split; [done|]. intros k h Hn'.
  destruct (Hto k h Hn') as (i & b & bd & Hb & Hbd & Ek & Eid & Hid & Ef). exists b.
  split; [by eapply list_elem_of_lookup_2|]. split; [done|]. rewrite Eid in *.
  apply (filter_found fid bds ids db' old b bd); try done. by eapply list_elem_of_lookup_2.
Qed.

Lemma filtering_step fid bo bds ids l old : 
  let w := mkWorker fid bo (Filtering (map by_id bds) ids) in
  let g := mkGhost (fid :: l) [] (count_blocks first bfs l) (1 + count_steps first bfs l) in
  worker_ok bc w g -> accepting rank bc l0 fl (count_blocks first bfs l + n) -> 0 <= topID_ bc0 ->
  pools_ready dbType first bfs bc0 old db (fid :: l) ->
  exists w' g' db', steps_to w g fl n bc db w' g' bc db'.
Proof using Hfl Hn H0.
  intros w g Hw Hc Hpos Hpools. subst w g.
  inversion Hw as [| | |? ? f bds' ids' ? Hf Hroute Hta Hhi Hsort Hids Hin Hto Hun|]; subst.
  assert (bds' = bds) as -> by (by rewrite <- (values_by_id bds'), <- (values_by_id bds); f_equal).
  assert (exists db', (match dbType with ARMORY_DB_FULL => update_filters fid (map by_id bds) ids db | _ => Ok db end) = Ok db' /\
    (forall k, k ≠ getFilterPoolKey fid -> db_get db' k = db_get db k) /\ file_done dbType first bfs bc0 bc db' fid)
    as (db' & Hup & Hother & Hdone).
  { destruct (decide (dbType = ARMORY_DB_FULL)) as [E|Hne].
    - destruct (Hpools E fid) as (Hp & Hlo & Hfit); [left|]. rewrite (blocks_at first bfs fid f Hf) in Hfit.
      destruct (filter_update fid f bds ids (old fid)) as (db' & Hup & Hother & Hfound); try done.
      exists db'. split; [by rewrite E|]. split; [done|]. by split.
    - exists db. split; [by destruct dbType|]. split; [done|]. by split. }
  exists (mkWorker (wrap 16 (fid + tc)) bo (Opening 0)), (mkGhost l [] (count_blocks first bfs l) (count_steps first bfs l)), db'.
  split; cbn [g_files g_flight g_blocks g_steps w_fileID app].
  - unfold worker_step. cbn [w_phase w_fileID w_bo]. rewrite Hup. done.
  - apply ok_opening; [by apply route_tail|intros _; symmetry; by eapply start_next|done].
  - done.
  - by apply grows_refl.
  - done.
  - exists [fid]. split; [done|]. split; [by constructor|]. split; [|by right].
    intros k [?|Hk]; [done|]. by apply Hother.
  - lia.
Qed.

(** Every thread that has not returned can take its next step. *)
Lemma worker_progress w g old : worker_ok bc w g -> w_phase w ≠ Returned ->
  accepting rank bc l0 (g_flight g ++ fl) (g_blocks g + n) -> NoDup (g_files g) -> 0 <= topID_ bc0 ->
  pools_ready dbType first bfs bc0 old db (g_files g) ->
  exists w' g' bc' db', steps_to w g fl n bc db w' g' bc' db'.
Proof using Hfl Hn Hlow H0.
  intros Hw Hret Hc Hnd Hpos Hpools. inversion Hw as [fid bo start l Hroute Hstart Hun|fid bo f don todo bds l Hf Hroute E Hta Hun
    |fid bo f bds l Hf Hroute Hta Hun|fid bo f bds ids l|fid bo]; subst.
  - destruct (opening_step fid bo start l Hw Hc) as (w' & g' & Hs). by exists w', g', bc, db.
  - destruct todo as [|b todo].
    + rewrite app_nil_r in E. subst don.
      destruct (parsing_end fid bo f bds l Hf Hroute Hta Hun Hc) as (w' & g' & Hs). by exists w', g', bc, db.
    + destruct (parsing_block fid bo f don b todo bds l Hf Hroute E Hta Hun Hc) as (w' & g' & Hs). by eexists w', g', _, db.
  - destruct (adding_step fid bo f bds l Hf Hroute Hta Hun Hc) as (w' & g' & bc' & Hs); [|by exists w', g', bc', db].
    cbn [g_files] in Hnd. apply NoDup_cons in Hnd as [Hnin _]. intros fid' Hin ->. done.
  - destruct (filtering_step fid bo bds ids l old Hw Hc Hpos Hpools) as (w' & g' & db' & Hs). by exists w', g', bc, db'.
  - done.
Qed.
End steps.
