(* ===== verification/BlockWorkersProps.v ===== *)
(** * BlockWorkersProps: the theorems about the threads of [updateBlocksInDB]

    A thread alone does what [addBlocksToDB] does.  However the steps of the
    threads are ordered, none of them fails, they all return after a fixed
    number of steps, and then the blocks of all files are in the chain, which
    [organize] brings in order, and in the filters. *)

From S2P Require Import Prelude BinaryData BinaryIO Hashing StdMap Merkle DBUtils BlockHeader HeadersDB.
From S2P Require Import Blockchain BlockchainSpec BlockchainOrganize BlockchainProps.
From S2P Require Import TxLength TxFilter TxFilterProps BlockData BlockDataProps BlockFile BlockFileParse.
From S2P Require Import BlockFileChain BlockFileProps BlockWorkers BlockWorkersInv.
From S2P Require Import BlockchainExamples HeadersDBProps.

(** ** Sums over the threads *)

Definition total {A} (f : A -> Z) (l : list A) : Z := foldr (fun x n => f x + n) 0 l.

Lemma total_app {A} (f : A -> Z) l l' : total f (l ++ l') = total f l + total f l'.
Proof. induction l as [|x l IH]; [done|]. cbn [app]. unfold total in *. cbn [foldr]. lia. Qed.

Lemma total_middle {A} (f : A -> Z) l x l' : total f (l ++ x :: l') = f x + total f (l ++ l').
Proof. rewrite !total_app. unfold total. cbn [foldr]. lia. Qed.

Lemma total_nonneg {A} (f : A -> Z) l : Forall (fun x => 0 <= f x) l -> 0 <= total f l.
Proof. induction 1 as [|x l Hx Hl IH]; [done|]. unfold total in *. cbn [foldr]. lia. Qed.

Lemma concat_middle {A B} (f : A -> list B) l x l' :
  concat (map f (l ++ x :: l')) ≡ₚ f x ++ concat (map f (l ++ l')).
Proof.
  rewrite !map_app, !concat_app. cbn [map concat]. rewrite !app_assoc. f_equiv. apply Permutation_app_comm.
Qed.

(** A pair of related lists, split where the first one is updated. *)
Lemma Forall2_middle {A B} (P : A -> B -> Prop) ws gs i w : Forall2 P ws gs -> ws !! i = Some w ->
  exists g ws1 ws2 gs1 gs2, gs = gs1 ++ g :: gs2 /\ P w g /\ Forall2 P ws1 gs1 /\ Forall2 P ws2 gs2 /\
    forall y, <[i := y]> ws = ws1 ++ y :: ws2.
Proof.
  intros Hws Hi. destruct (Forall2_lookup_l _ _ _ _ _ Hws Hi) as (g & Hgi & Hw).
  exists g, (take i ws), (drop (S i) ws), (take i gs), (drop (S i) gs).
  split; [by rewrite take_drop_middle|]. split; [done|]. split; [by apply Forall2_take|]. split; [by apply Forall2_drop|].
  intros y. apply insert_take_drop. by eapply lookup_lt_Some.
Qed.

Lemma Forall2_impl_r {A B} (P Q : A -> B -> Prop) l k : Forall2 P l k -> (forall x y, y ∈ k -> P x y -> Q x y) -> Forall2 Q l k.
Proof.
  induction 1 as [|x y l k Hxy Hlk IH]; intros HPQ; constructor; [apply HPQ; [left|done]|].
  apply IH. intros x' y' Hy'. apply HPQ. by right.
Qed.

(** ** All threads *)

Section system.
Context {DB : Type} `{StoreLaws DB} `{HashFns} (rank : HashString -> nat) (magic : list byte) (dbType : ARMORY_DB_TYPE).
Context (first : Z) (bfs : list BlkFile) (tc : Z) (bc0 : Blockchain) (l0 : list nat).
Context (Hfl : files_ready rank magic first bfs tc) (Hwf0 : wf rank bc0) (Hpos : 0 <= topID_ bc0).
Local Notation worker_ok := (worker_ok magic first bfs tc bc0).
Local Notation step := (step magic dbType (files_of magic first bfs) tc).
Local Notation worker_step := (worker_step magic dbType (files_of magic first bfs) tc).
Local Notation all_files := (all_files first bfs).

Lemma ghost_nonneg bc w g : worker_ok bc w g -> 0 <= g_blocks g /\ 0 <= g_steps g /\ (w_phase w ≠ Returned -> 0 < g_steps g).
Proof using .
  assert (forall l, 0 < count_steps first bfs l) as Hs.
  { induction l as [|f l IH]; [done|]. cbn. fold (count_steps first bfs l). pose proof (zlen_nonneg (blocks_of first bfs f)). lia. }
  destruct 1 as [fid bo start l|fid bo f don todo bds l|fid bo f bds l|fid bo f bds ids l|]; cbn [g_blocks g_steps w_phase]; try done;
    pose proof (count_blocks_nonneg first bfs l); pose proof (Hs l); try (pose proof (zlen_nonneg todo)); lia.
Qed.

Lemma all_files_range fid : fid ∈ all_files -> 0 <= fid < 2 ^ 16.
Proof using Hfl.
  intros Hf%elem_of_seqZ. pose proof (fl_first _ _ _ _ _ Hfl). pose proof (fl_threads _ _ _ _ _ Hfl).
  pose proof (fl_last _ _ _ _ _ Hfl). lia.
Qed.

Context (db0 : DB) (old : Z -> list TxFilter).

Record Inv (s : System (DB := DB)) (gs : list Ghost) (don : list Z) (left : Z) : Prop := {
  iv_workers : Forall2 (worker_ok (sys_chain s)) (sys_workers s) gs;
  iv_files : concat (map g_files gs) ++ don ≡ₚ all_files;
  iv_chain : accepting rank (sys_chain s) l0 (concat (map g_flight gs)) (total g_blocks gs);
  iv_grows : grows first bfs (topID_ bc0) (fun _ => True) bc0 (sys_chain s);
  iv_topID : topID_ bc0 <= topID_ (sys_chain s);
  iv_done : Forall (file_done dbType first bfs bc0 (sys_chain s) (sys_db s)) don;
  iv_pools : pools_ready dbType first bfs bc0 old (sys_db s) (concat (map g_files gs));
  iv_db k : (forall fid, fid ∈ all_files -> k ≠ getFilterPoolKey fid) -> db_get (sys_db s) k = db_get db0 k;
  iv_steps : total g_steps gs = left;
}.

(** A step of thread [i] is possible, and the invariant holds after it. *)
Lemma inv_step s gs don left i w : Inv s gs don left -> sys_workers s !! i = Some w -> w_phase w ≠ Returned ->
  exists w' bc' db' gs' don', worker_step w (sys_chain s) (sys_db s) = Ok (w', bc', db') /\
    Inv (mkSystem bc' db' (<[i := w']> (sys_workers s))) gs' don' (left - 1).
Proof using Hfl Hwf0 Hpos H0.
  intros [Hws Hfiles Hc Hg Htop Hdone Hpools Hdb Hleft] Hi Hret.
  destruct (Forall2_middle _ _ _ _ _ Hws Hi) as (g & ws1 & ws2 & gs1 & gs2 & -> & Hw & Hws1 & Hws2 & Ews').
  assert (0 <= total g_blocks (gs1 ++ gs2)) as Hnn.
  { apply total_nonneg, Forall_app. split; (eapply Forall2_Forall_r; [done|]); apply Forall_forall;
      intros v _ gv Hv; apply (ghost_nonneg _ _ _ Hv). }
  pose proof (concat_middle g_files gs1 g gs2) as Ef. rewrite Ef, <- app_assoc in Hfiles.
  assert (accepting rank (sys_chain s) l0 (g_flight g ++ concat (map g_flight (gs1 ++ gs2))) (g_blocks g + total g_blocks (gs1 ++ gs2))) as Hc1.
  { rewrite <- total_middle. eapply accepting_perm; [|exact Hc]. apply concat_middle. }
  assert (NoDup (g_files g ++ concat (map g_files (gs1 ++ gs2)) ++ don)) as Hnd
    by (rewrite Hfiles; apply NoDup_seqZ).
  apply NoDup_app in Hnd as (Hndg & Hdis & _).
  assert (pools_ready dbType first bfs bc0 old (sys_db s) (g_files g)) as Hpg.
  { intros E fid Hfid. apply (Hpools E). rewrite Ef. apply elem_of_app. by left. }
  destruct (worker_progress rank magic dbType first bfs tc bc0 l0 Hfl _ _ _ (sys_db s) Hnn Htop w g old Hw Hret Hc1 Hndg Hpos Hpg)
    as (w' & g' & bc' & db' & [Hstep Hok Hc' Hgr Htop' (dn & Edn & Hdn & Hdb' & Hone) Hcount]).
  assert (forall fid, fid ∈ g_files g ++ concat (map g_files (gs1 ++ gs2)) ++ don -> fid ∈ all_files) as Hall
    by (intros fid; by rewrite Hfiles).
  assert (forall fid, fid ∈ all_files -> fid ∉ dn -> db_get db' (getFilterPoolKey fid) = db_get (sys_db s) (getFilterPoolKey fid)) as Hkey.
  { intros fid Hfid Hndn. apply Hdb'. destruct Hone as [->| ->]; [by left|right]. intros E.
    apply getFilterPoolKey_inj in E; [subst; apply Hndn; left|by apply all_files_range|].
    apply all_files_range, Hall, elem_of_app. left. rewrite Edn. left. }
  pose proof (ac_wf _ _ _ _ _ Hc) as Hwf.
  assert (forall v gv, gv ∈ gs1 ++ gs2 -> worker_ok (sys_chain s) v gv -> worker_ok bc' v gv) as Hothers.
  { intros v gv Hin Hv. apply (worker_ok_stable rank magic first bfs tc bc0 _ bc' _ v gv Hwf Hgr); [|done].
    intros fid Hfid [_ Hg']. apply (Hdis fid Hg'), elem_of_app. left. apply list_elem_of_In, in_concat.
    exists (g_files gv). split; apply list_elem_of_In; [by apply (list_elem_of_fmap_2 g_files)|done]. }
  exists w', bc', db', (gs1 ++ g' :: gs2), (dn ++ don). split; [done|].
  split; cbn [sys_chain sys_db sys_workers].
  - rewrite Ews'. apply Forall2_app; [|constructor; [done|]].
    + eapply Forall2_impl_r; [exact Hws1|]. intros v gv Hv. apply Hothers. apply elem_of_app. by left.
    + eapply Forall2_impl_r; [exact Hws2|]. intros v gv Hv. apply Hothers. apply elem_of_app. by right.
  - rewrite concat_middle. rewrite <- Hfiles, Edn. solve_Permutation.
  - rewrite total_middle. eapply accepting_perm; [|exact Hc']. by rewrite concat_middle.
  - eapply (grows_trans rank first bfs); [done|exact Hwf|done|exact Hg|exact Hgr].
  - lia.
  - apply Forall_app. split; [done|]. rewrite Forall_forall in Hdone. apply Forall_forall. intros fid Hfid.
    eapply (file_done_stable rank); [exact Hwf|exact Hgr| | |by apply Hdone].
    + intros [_ Hg']. apply (Hdis fid Hg'), elem_of_app. by right.
    + apply Hkey; [apply Hall; rewrite !elem_of_app; by right; right|]. intros Hdn'.
      apply (Hdis fid); [rewrite Edn|]; apply elem_of_app; [by left|by right].
  - intros E fid Hfid. rewrite concat_middle in Hfid.
    assert (fid ∈ concat (map g_files (gs1 ++ g :: gs2)) /\ fid ∉ dn) as [Hin Hndn].
    { rewrite Ef, Edn. apply elem_of_app in Hfid as [Hfid|Hfid]; rewrite !elem_of_app.
      - split; [by left; right|]. rewrite Edn in Hndg. apply NoDup_app in Hndg as (_ & Hd & _). intros Hdn'. by apply (Hd fid).
      - split; [by right|]. intros Hdn'. apply (Hdis fid); [rewrite Edn|]; apply elem_of_app; by left. }
    destruct (Hpools E fid Hin) as ((Hp1 & Hp2 & Hp3) & Hlo & Hfit). split; [|done]. split; [done|]. split; [done|].
    rewrite Hkey; [done|apply Hall|done]. rewrite Ef in Hin. rewrite app_assoc. apply elem_of_app. by left.
  - intros k Hk. rewrite Hdb'; [by apply Hdb|]. destruct Hone as [->| ->]; [by left|right].
    apply Hk, Hall, elem_of_app. left. rewrite Edn. left.
  - rewrite total_middle in Hleft |- *. lia.
Qed.

(** *** Executions *)

Lemma inv_nonneg s gs don left : Inv s gs don left -> 0 <= left.
Proof using .
  intros Hinv. rewrite <- (iv_steps _ _ _ _ Hinv). apply total_nonneg.
  eapply Forall2_Forall_r; [apply (iv_workers _ _ _ _ Hinv)|]. apply Forall_forall. intros w _ g Hw.
  apply (ghost_nonneg _ _ _ Hw).
Qed.

Lemma inv_nsteps k s s' gs don left : Inv s gs don left -> nsteps step k s s' ->
  exists gs' don', Inv s' gs' don' (left - Z.of_nat k).
Proof using Hfl Hwf0 Hpos H0.
  intros Hinv Hk. revert gs don left Hinv. induction Hk as [s|k s s1 s' Hstep Hk IH]; intros gs don left Hinv.
  { exists gs, don. by rewrite Z.sub_0_r. }
  destruct Hstep as [bc db ws i w w' bc' db' Hi Hret Hrun].
  destruct (inv_step _ _ _ _ i w Hinv Hi Hret) as (w1 & bc1 & db1 & gs1 & don1 & Hrun1 & Hinv1).
  cbn [sys_chain sys_db sys_workers] in *. rewrite Hrun in Hrun1. injection Hrun1 as <- <- <-.
  destruct (IH _ _ _ Hinv1) as (gs' & don' & Hinv'). exists gs', don'.
  by replace (left - Z.of_nat (S k)) with (left - 1 - Z.of_nat k) by lia.
Qed.

(** Every thread can go on until all have returned. *)
Lemma inv_live s gs don left : Inv s gs don left ->
  (forall w, w ∈ sys_workers s -> exists r, worker_step w (sys_chain s) (sys_db s) = Ok r) /\
  ((joined s /\ left = 0) \/ exists s', step s s').
Proof using Hfl Hwf0 Hpos H0.
  intros Hinv. assert (forall i w, sys_workers s !! i = Some w -> w_phase w ≠ Returned -> exists w' bc' db',
    worker_step w (sys_chain s) (sys_db s) = Ok (w', bc', db')) as Hgo.
  { intros i w Hi Hret. destruct (inv_step _ _ _ _ i w Hinv Hi Hret) as (w' & bc' & db' & _ & _ & Hrun & _). eauto. }
  assert (forall w : Worker, w_phase w = Returned \/ w_phase w ≠ Returned) as Hdec by (intros w; destruct (w_phase w); auto).
  split.
  - intros w (i & Hi)%list_elem_of_lookup. destruct (Hdec w) as [E|E].
    + exists (w, sys_chain s, sys_db s). unfold worker_step. by rewrite E.
    + destruct (Hgo i w Hi E) as (w' & bc' & db' & Hrun). eauto.
  - assert (joined s \/ exists i w, sys_workers s !! i = Some w /\ w_phase w ≠ Returned) as [Hj|(i & w & Hi & E)].
    { unfold joined. clear -Hdec. induction (sys_workers s) as [|w ws IH]; [left; constructor|].
      destruct (Hdec w) as [E|E]; [|right; by exists 0%nat, w].
      destruct IH as [Hj|(i & w' & Hi & E')]; [left; by constructor|right; by exists (S i), w']. }
    + left. split; [done|]. rewrite <- (iv_steps _ _ _ _ Hinv). pose proof (iv_workers _ _ _ _ Hinv) as Hws.
      unfold joined in Hj. clear -Hws Hj. induction Hws as [|w g ws gs Hw Hws IH]; [done|]. inversion Hj as [|?? E Hj']; subst.
      unfold total in *. cbn [foldr]. rewrite IH by done. destruct Hw; cbn [w_phase] in E; done.
    + right. destruct (Hgo i w Hi E) as (w' & bc' & db' & Hrun). destruct s. by eexists (mkSystem bc' db' _); econstructor.
Qed.

Lemma inv_run s gs don left : Inv s gs don left -> exists s', rtc step s s' /\ joined s'.
Proof using Hfl Hwf0 Hpos H0.
  intros Hinv. pose proof (inv_nonneg _ _ _ _ Hinv) as Hnn. remember (Z.to_nat left) as m eqn:Em.
  revert s gs don left Hinv Hnn Em. induction m as [|m IH]; intros s gs don left Hinv Hnn Em.
  all: destruct (inv_live _ _ _ _ Hinv) as [_ [[Hj _]|[s' Hs]]]; [by exists s|].
  all: destruct (inv_nsteps 1 s s' _ _ _ Hinv (nsteps_once _ _ Hs)) as (gs' & don' & Hinv').
  all: pose proof (inv_nonneg _ _ _ _ Hinv') as Hnn'.
  { lia. }
  destruct (IH s' gs' don' (left - Z.of_nat 1) Hinv' Hnn' ltac:(lia)) as (s2 & Hrun & Hj). exists s2.
  split; [by eapply rtc_l|done].
Qed.

(** When all threads have returned, all files are done. *)
Lemma inv_joined s gs don left fid : Inv s gs don left -> joined s -> fid ∈ all_files ->
  file_done dbType first bfs bc0 (sys_chain s) (sys_db s) fid.
Proof using .
  intros [Hws Hfiles _ _ _ Hdone _ _ _] Hj Hfid. rewrite <- Hfiles in Hfid.
  assert (concat (map g_files gs) = []) as E.
  { unfold joined in Hj. clear -Hws Hj. induction Hws as [|w g ws gs Hw Hws IH]; [done|]. inversion Hj as [|?? E Hj']; subst.
    cbn [map concat]. rewrite IH by done. destruct Hw; cbn [w_phase] in E; done. }
  rewrite E in Hfid. rewrite Forall_forall in Hdone. by apply Hdone.
Qed.
End system.

(** ** Who reads which file *)

Section routes.
Context `{HashFns} (rank : HashString -> nat) (magic : list byte) (first : Z) (bfs : list BlkFile) (tc : Z).
Context (Hfl : files_ready rank magic first bfs tc).
Local Notation route := (route first bfs tc).
Local Notation all_files := (all_files first bfs).

Lemma bf_at_some fid : first <= fid -> is_Some (bf_at first bfs fid) <-> fid < first + zlen bfs.
Proof using .
  intros Hle. unfold bf_at. split; [intros [f Hf%znth_Some_range]; lia|]. intros Hlt. apply znth_is_Some. lia.
Qed.

Lemma route_exists fid : first <= fid -> exists l, route fid l.
Proof using Hfl.
  remember (Z.to_nat (first + zlen bfs - fid)) as m eqn:Em. revert fid Em.
  induction (lt_wf m) as [m _ IH]. intros fid Em Hle. pose proof (fl_threads _ _ _ _ _ Hfl). pose proof (fl_last _ _ _ _ _ Hfl).
  destruct (bf_at first bfs fid) as [f|] eqn:Ef; [|exists []; by apply route_end].
  assert (fid < first + zlen bfs) as Hlt by (by apply bf_at_some).
  destruct (IH (Z.to_nat (first + zlen bfs - (fid + tc))) ltac:(lia) (fid + tc) eq_refl ltac:(lia)) as (l & Hl).
  exists (fid :: l). apply (route_next _ _ _ _ f); [done|lia|done].
Qed.

Lemma route_elem fid l j : route fid l -> first <= fid ->
  j ∈ l <-> exists m, 0 <= m /\ j = fid + m * tc /\ j < first + zlen bfs.
Proof using Hfl.
  pose proof (fl_threads _ _ _ _ _ Hfl). induction 1 as [fid Hnone|fid f l Hf Hlt Hl IH]; intros Hle.
  - split; [by intros ?%elem_of_nil|]. intros (m & Hm & -> & Hj).
    assert (is_Some (bf_at first bfs fid)) as [? ?]; [apply bf_at_some; [done|nia]|congruence].
  - rewrite elem_of_cons, IH by lia. assert (fid < first + zlen bfs) as Hin by (by apply bf_at_some). split.
    + intros [->|(m & Hm & -> & Hj)]; [exists 0; lia|exists (m + 1); lia].
    + intros (m & Hm & -> & Hj). destruct (decide (m = 0)) as [->|]; [left; lia|right]. exists (m - 1). lia.
Qed.

Lemma route_NoDup fid l : route fid l -> first <= fid -> NoDup l.
Proof using Hfl.
  pose proof (fl_threads _ _ _ _ _ Hfl). induction 1 as [fid Hnone|fid f l Hf Hlt Hl IH]; intros Hle; [constructor|].
  constructor; [|apply IH; lia]. rewrite (route_elem (fid + tc) l) by (done || lia). intros (m & Hm & E & _). nia.
Qed.

(** The routes of neighbouring threads have the files whose number leaves one
    of their remainders. *)
Lemma routes_elem a k ls : Forall2 route (seqZ a k) ls -> first <= a -> a + k <= first + tc ->
  NoDup (concat ls) /\ forall j, j ∈ concat ls <->
    (first <= j < first + zlen bfs /\ a - first <= (j - first) mod tc < a - first + k).
Proof using Hfl.
  pose proof (fl_threads _ _ _ _ _ Hfl) as Htc. remember (seqZ a k) as fids eqn:Ef. intros Hls. revert a k Ef.
  induction Hls as [|fid l fids ls Hl Hls IH]; intros a k Ef Ha Hk.
  { assert (k <= 0) by (destruct (decide (0 < k)); [rewrite seqZ_cons in Ef; done|lia]).
    split; [constructor|]. intros j. rewrite elem_of_nil. lia. }
  destruct (decide (0 < k)) as [Hpos|]; [|by rewrite seqZ_nil in Ef by lia].
  rewrite seqZ_cons in Ef by done. injection Ef as -> Ef.
  destruct (IH (Z.succ a) (Z.pred k) Ef ltac:(lia) ltac:(lia)) as [Hnd Helem].
  assert (forall j, j ∈ l <-> first <= j < first + zlen bfs /\ (j - first) mod tc = a - first) as Hown.
  { intros j. rewrite (route_elem a l j Hl Ha). split.
    - intros (m & Hm & -> & Hj). split; [nia|]. replace (a + m * tc - first) with (a - first + m * tc) by lia.
      rewrite Z.mod_add by lia. apply Z.mod_small. lia.
    - intros [Hj Hmod]. exists ((j - first) / tc). pose proof (Z.div_mod (j - first) tc ltac:(lia)) as Hdm.
      pose proof (Z.div_pos (j - first) tc ltac:(lia) ltac:(lia)). split; [done|]. split; [lia|lia]. }
  cbn [concat]. split.
  - apply NoDup_app. split; [by eapply route_NoDup|]. split; [|done]. intros j Hj%Hown Hj'%Helem. lia.
  - intros j. rewrite elem_of_app, Hown, Helem. lia.
Qed.

Lemma routes_all ls l : Forall2 route (seqZ (first + 1) (tc - 1)) ls -> route first l ->
  concat (ls ++ [l]) ≡ₚ all_files.
Proof using Hfl.
  intros Hls Hl. pose proof (fl_threads _ _ _ _ _ Hfl) as Htc.
  destruct (routes_elem (first + 1) (tc - 1) ls Hls ltac:(lia) ltac:(lia)) as [Hnd Helem].
  assert (Forall2 route (seqZ first 1) [l]) as Hl1 by (rewrite seqZ_cons by lia; repeat constructor; done).
  destruct (routes_elem first 1 [l] Hl1 ltac:(lia) ltac:(lia)) as [Hndl Heleml].
  rewrite concat_app. apply NoDup_Permutation; [|apply NoDup_seqZ|].
  - apply NoDup_app. split; [done|]. split; [|done]. intros j Hj%Helem Hj'%Heleml. lia.
  - intros j. unfold all_files. rewrite elem_of_app, Helem, Heleml, elem_of_seqZ.
    pose proof (Z.mod_pos_bound (j - first) tc). lia.
Qed.

Lemma count_blocks_app l l' : count_blocks first bfs (l ++ l') = count_blocks first bfs l + count_blocks first bfs l'.
Proof using . apply (total_app (fun f => zlen (blocks_of first bfs f))). Qed.

Lemma count_blocks_perm l l' : l ≡ₚ l' -> count_blocks first bfs l = count_blocks first bfs l'.
Proof using . unfold count_blocks. induction 1; cbn [foldr]; lia. Qed.

Lemma count_steps_eq l : count_steps first bfs l = 1 + 4 * zlen l + count_blocks first bfs l.
Proof using . unfold count_steps, count_blocks. induction l as [|f l IH]; [done|]. cbn [foldr]. rewrite IH, zlen_cons. lia. Qed.
End routes.

(** ** The start *)

Section start.
Context {DB : Type} `{StoreLaws DB} `{HashFns} (rank : HashString -> nat) (magic : list byte) (dbType : ARMORY_DB_TYPE).
Context (bfs : list BlkFile) (tc : Z) (topBO : BlockOffset) (bc0 : Blockchain) (db0 : DB) (l0 : list nat) (old : Z -> list TxFilter).
Local Notation first := (bo_fileID topBO).

(** What [updateBlocksInDB] needs: files of valid blocks from the one of the
    top offset on, the offset behind the blocks that were read before, and a
    chain that accepts as many blocks as there are. *)
Record threads_ready : Prop := {
  tr_files : files_ready rank magic first bfs tc;
  tr_offset : bo_offset topBO = start_at magic first bfs first;
  tr_chain : accepting rank bc0 l0 [] (count_blocks first bfs (all_files first bfs));
  tr_pools : pools_ready dbType first bfs bc0 old db0 (all_files first bfs);
}.

(** The steps of all threads together. *)
Definition all_steps : Z := tc + 4 * zlen bfs + count_blocks first bfs (all_files first bfs).

Definition start_system : System := mkSystem bc0 db0 (start_workers tc topBO).

Context (Hr : threads_ready).

Definition start_ghost (l : list Z) : Ghost := mkGhost l [] (count_blocks first bfs l) (count_steps first bfs l).

Lemma start_worker_ok fid bo start l : route first bfs tc fid l -> start = start_at magic first bfs fid ->
  worker_ok magic first bfs tc bc0 bc0 (mkWorker fid bo (Opening start)) (start_ghost l).
Proof using .
  intros Hl Hs. apply ok_opening; [done|done|]. apply Forall_forall. intros j _ k h (a & E & E' & _). congruence.
Qed.

Lemma start_ghosts ls : concat (map g_files (map start_ghost ls)) = concat ls /\
  concat (map g_flight (map start_ghost ls)) = [] /\
  total g_blocks (map start_ghost ls) = count_blocks first bfs (concat ls) /\
  total g_steps (map start_ghost ls) = zlen ls + 4 * zlen (concat ls) + count_blocks first bfs (concat ls).
Proof using .
  induction ls as [|l ls (IH1 & IH2 & IH3 & IH4)]; [done|]. cbn [map concat]. unfold total in *. cbn [foldr start_ghost g_files g_flight g_blocks g_steps app].
  rewrite IH1, IH2, IH3, IH4, count_blocks_app, zlen_app, zlen_cons, count_steps_eq. repeat split; lia.
Qed.

Lemma start_workers_others : 0 <= first -> first + tc <= 2 ^ 16 ->
  map (fun i => mkWorker (wrap 16 (first + i)) topBO (Opening 0)) (seqZ 1 (tc - 1)) =
  map (fun fid => mkWorker fid topBO (Opening 0)) (seqZ (first + 1) (tc - 1)).
Proof using .
  intros H0' Hmax. rewrite <- (fmap_add_seqZ first 1).
  change (Z.add first <$> seqZ 1 (tc - 1)) with (map (Z.add first) (seqZ 1 (tc - 1))). rewrite map_map. apply map_ext_in.
  intros i Hi%list_elem_of_In%elem_of_seqZ. by rewrite wrap_small by (unfold is_uint; lia).
Qed.

Lemma zlen_seqZ a n : 0 <= n -> zlen (seqZ a n) = n.
Proof using . intros Hn. unfold zlen. rewrite length_seqZ. lia. Qed.

Lemma Forall2_zlen {A B} (P : A -> B -> Prop) l k : Forall2 P l k -> zlen k = zlen l.
Proof using . intros Hlk. unfold zlen. f_equal. symmetry. by eapply Forall2_length. Qed.

Lemma inv_start : exists gs, Inv rank magic dbType first bfs tc bc0 l0 db0 old start_system gs [] all_steps.
Proof using Hr.
  destruct Hr as [Hfl Hoff Hc Hp]. pose proof (fl_threads _ _ _ _ _ Hfl) as Htc. pose proof (fl_first _ _ _ _ _ Hfl) as H0'.
  pose proof (fl_last _ _ _ _ _ Hfl) as Hlast. pose proof (zlen_nonneg bfs) as Hz.
  assert (exists ls, Forall2 (fun fid l => route first bfs tc fid l /\ fid ≠ first) (seqZ (first + 1) (tc - 1)) ls) as [ls Hls'].
  { assert (Forall (fun x => first < x) (seqZ (first + 1) (tc - 1))) as Hge
      by (apply Forall_forall; intros x Hx%elem_of_seqZ; lia).
    induction Hge as [|x fids Hx Hfids [ls Hls]]; [by exists []|].
    destruct (route_exists rank magic first bfs tc Hfl x ltac:(lia)) as [l Hl]. exists (l :: ls). constructor; [|done].
    split; [done|lia]. }
  assert (Forall2 (route first bfs tc) (seqZ (first + 1) (tc - 1)) ls) as Hls
    by (eapply Forall2_impl; [exact Hls'|]; by intros ? ? [? _]).
  destruct (route_exists rank magic first bfs tc Hfl first ltac:(lia)) as [l Hl].
  pose proof (routes_all rank magic first bfs tc Hfl ls l Hls Hl) as Hall.
  destruct (start_ghosts (ls ++ [l])) as (E1 & E2 & E3 & E4).
  rewrite (count_blocks_perm first bfs _ _ Hall) in E3, E4.
  exists (map start_ghost (ls ++ [l])). split; cbn [sys_chain sys_db sys_workers start_system]; rewrite ?E1, ?E2, ?E3.
  - rewrite map_app. unfold start_workers. apply Forall2_app; [|constructor; [by apply start_worker_ok|constructor]].
    rewrite start_workers_others by lia. apply Forall2_fmap. eapply Forall2_impl; [exact Hls'|].
    intros fid li [Hli Hne]. apply start_worker_ok; [done|]. unfold start_at.
    destruct (bf_at first bfs fid) as [f|] eqn:Ef; [|done]. by rewrite (fl_before _ _ _ _ _ Hfl fid f Ef Hne).
  - by rewrite app_nil_r.
  - done.
  - by apply grows_refl.
  - done.
  - constructor.
  - intros E fid Hfid. rewrite Hall in Hfid. by apply Hp.
  - done.
  - rewrite E4, zlen_app, (Forall2_zlen _ _ _ Hls), zlen_seqZ by lia. unfold all_steps.
    assert (zlen (concat (ls ++ [l])) = zlen bfs) as ->; [|change (zlen [l]) with 1; lia].
    unfold zlen at 1. rewrite Hall. unfold all_files. fold (zlen (seqZ first (zlen bfs))). by apply zlen_seqZ.
Qed.
End start.

Lemma hb_read_copy b h h' : dataCopy_ h' = dataCopy_ h -> hb_read b h -> hb_read b h'.
Proof.
  intros E. unfold hb_read, getVersion, getPrevHash, bh_getMerkleRoot, getTimestamp, getDiffBits, getNonce. by rewrite E.
Qed.

(** ** A thread alone *)

Section solo.
Context {DB : Type} `{Store DB} `{HashFns} (magic : list byte) (dbType : ARMORY_DB_TYPE).
Context (files : Z -> option (list byte)) (tc : Z).

(** A step of a thread while all others wait. *)
Definition solo (s s' : Worker * Blockchain * DB) : Prop :=
  w_phase s.1.1 ≠ Returned /\ worker_step magic dbType files tc s.1.1 s.1.2 s.2 = Ok s'.

Lemma solo_rounds fuel fid file progress t t' db :
  parse_loop magic (tallyBlocks fid false) fuel file progress t = Ok t' ->
  rtc solo (mkWorker fid (t_bo t) (Parsing file progress (bdMap t)), t_chain t, db)
    (mkWorker fid (t_bo t') (Adding (bdMap t')), t_chain t', db).
Proof.
  revert progress t. induction fuel as [|fuel IH]; intros progress t; [done|]. cbn [parse_loop].
  destruct t as [bc m bo]. cbn [t_bo bdMap t_chain].
  destruct (parse_round _ _ file progress _) as [[[p t1]|]|e] eqn:E; cbn [mbind result_bind]; [|intros [= <-]|done].
  - intros Hrun. eapply rtc_l; [|by apply IH]. split; [done|]. unfold worker_step. cbn [fst snd w_phase w_fileID w_bo].
    rewrite E. done.
  - cbn [t_bo bdMap t_chain]. apply rtc_once. split; [done|]. unfold worker_step. cbn [fst snd w_phase w_fileID w_bo].
    by rewrite E.
Qed.
End solo.

(** ** Properties *)

Section properties.
Context {DB : Type} `{StoreLaws DB} `{HashFns} (rank : HashString -> nat) (magic : list byte) (dbType : ARMORY_DB_TYPE).

(** C21: a thread that runs alone does with its file what [addBlocksToDB] does,
    and goes on with the file after the next [threadcount], or returns when
    there is no file. *)
Theorem worker_is_addBlocksToDB (files : Z -> option (list byte)) tc fid start bo bc (db : DB) more bo' bc' db' :
  addBlocksToDB magic dbType (files fid) fid start bo bc db = Ok (more, bo', bc', db') ->
  rtc (solo magic dbType files tc) (mkWorker fid bo (Opening start), bc, db)
    (if more then mkWorker (wrap 16 (fid + tc)) bo' (Opening 0) else mkWorker fid bo' Returned, bc', db').
Proof.
  unfold addBlocksToDB. destruct (files fid) as [file|] eqn:Ef.
  2:{ intros [= <- <- <- <-]. apply rtc_once. split; [done|]. unfold worker_step. cbn [fst snd w_phase w_fileID w_bo]. by rewrite Ef. }
  unfold parseBlockFile. destruct (check_magic magic file) as [[]|e] eqn:Ec; [|done]. cbn [mbind result_bind].
  destruct (parse_loop _ _ _ file start _) as [t|e] eqn:El; [|done]. cbn [mbind result_bind].
  destruct ((bhmap ← make_headers (map_values (bdMap t)) []; addBlocksInBulk bhmap) (t_chain t)) as [[ids bc1]|e] eqn:Ea; [|done].
  cbn [mbind result_bind]. intros Hdb. eapply rtc_l.
  { split; [done|]. unfold worker_step. cbn [fst snd w_phase w_fileID w_bo]. rewrite Ef, Ec. reflexivity. }
  etrans; [exact (solo_rounds magic dbType files tc _ fid file start _ t db El)|].
  eapply rtc_l. { split; [done|]. unfold worker_step. cbn [fst snd w_phase w_fileID w_bo]. rewrite Ea. reflexivity. }
  apply rtc_once. split; [done|]. unfold worker_step. cbn [fst snd w_phase w_fileID w_bo].
  destruct (match dbType with ARMORY_DB_FULL => _ | _ => _ end) as [db1|e]; [|done].
  cbn [mbind result_bind] in Hdb |- *. by injection Hdb as <- <- <- <-.
Qed.

Context (bfs : list BlkFile) (tc : Z) (topBO : BlockOffset) (bc0 : Blockchain) (db0 : DB) (l0 : list nat) (old : Z -> list TxFilter).
Local Notation first := (bo_fileID topBO).
Local Notation step := (step magic dbType (files_of magic first bfs) tc).

(** C9: however the steps of the threads are ordered, no thread ever fails, the
    threads can always go on until all have returned, and that takes a fixed
    number of steps: four for each file, one for each block and one for each
    thread. *)
Theorem threads_return : threads_ready rank magic dbType bfs tc topBO bc0 db0 l0 old ->
  forall k s, nsteps step k (start_system tc topBO bc0 db0) s ->
  Z.of_nat k <= all_steps bfs tc topBO /\
  (forall w, w ∈ sys_workers s ->
    exists r, worker_step magic dbType (files_of magic first bfs) tc w (sys_chain s) (sys_db s) = Ok r) /\
  ((joined s /\ Z.of_nat k = all_steps bfs tc topBO) \/ exists s', step s s').
Proof.
  intros Hr k s Hk. pose proof Hr as [Hfl _ [Hwf _ _ _ _ _ Hpos _ _] _].
  destruct (inv_start rank magic dbType bfs tc topBO bc0 db0 l0 old Hr) as (gs & Hinv).
  destruct (inv_nsteps rank magic dbType first bfs tc bc0 l0 Hfl Hwf Hpos db0 old k _ s _ _ _ Hinv Hk) as (gs' & don & Hinv').
  pose proof (inv_nonneg _ _ _ _ _ _ _ _ _ _ _ _ _ _ Hinv'). split; [lia|].
  destruct (inv_live _ _ _ _ _ _ _ _ Hfl Hwf Hpos _ _ _ _ _ _ Hinv') as [Hgo Hend]. split; [done|].
  destruct Hend as [[Hj E]|Hs]; [left; split; [done|lia]|by right].
Qed.

(** C3: [updateBlocksInDB] has an outcome, and in each one, whatever the order of
    the steps was, the chain is organised: it is well-formed, its top has the
    largest sum of difficulties and [organize] reports it; the blocks of all
    files are in it, what was in it still is, and nothing else came in; and for
    a full node every transaction of every new block is found through the
    filters in the database, under the id of the block's header. *)
Theorem updateBlocksInDB_correct : threads_ready rank magic dbType bfs tc topBO bc0 db0 l0 old ->
  (exists st bo bc db, updateBlocksInDB magic dbType (files_of magic first bfs) tc topBO bc0 db0 st bo bc db) /\
  forall st bo bc db, updateBlocksInDB magic dbType (files_of magic first bfs) tc topBO bc0 db0 st bo bc db ->
  exists t l, organized_on bc t l /\ wf rank bc /\ ready bc l /\ newTop_ st = Some t /\
  (forall fid b, b ∈ blocks_of first bfs fid -> is_Some (map_find (block_hash b) (headerMap_ bc))) /\
  (forall k p, map_find k (headerMap_ bc0) = Some p -> map_find k (headerMap_ bc) = Some p) /\
  (forall k p, map_find k (headerMap_ bc0) = None -> map_find k (headerMap_ bc) = Some p ->
    exists a h fid b, p = Some a /\ heap_ bc !! a = Some h /\ b ∈ blocks_of first bfs fid /\ block_hash b = k /\
      hb_read (blk_header b) h /\
      (dbType = ARMORY_DB_FULL -> exists b', b' ∈ blocks_of first bfs fid /\ block_hash b' = k /\ found_in fid db b' (uniqueID_ h))).
Proof.
  intros Hr. pose proof Hr as [Hfl _ [Hwf0 _ _ _ _ _ Hpos _ _] _].
  destruct (inv_start rank magic dbType bfs tc topBO bc0 db0 l0 old Hr) as (gs & Hinv).
  assert (forall s, rtc step (start_system tc topBO bc0 db0) s -> exists gs don left,
    Inv rank magic dbType first bfs tc bc0 l0 db0 old s gs don left) as Hreach.
  { intros s (k & Hk)%rtc_nsteps.
    destruct (inv_nsteps rank magic dbType first bfs tc bc0 l0 Hfl Hwf0 Hpos db0 old k _ s _ _ _ Hinv Hk) as (gs' & don & Hinv'). eauto. }
  split.
  - destruct (inv_run _ _ _ _ _ _ _ _ Hfl Hwf0 Hpos _ _ _ _ _ _ Hinv) as (s & Hrun & Hj).
    destruct (Hreach s Hrun) as (gs' & don & left & Hinv'). destruct (iv_chain _ _ _ _ _ _ _ _ _ _ _ _ _ _ Hinv') as [Hwf Hrd _ _ _ _ _ _ _].
    destruct (organizeChain_run rank 0 _ l0 Hwf Hrd) as (r & bc' & t & l & p0 & Ho & _).
    eexists _, _, bc', (sys_db s). econstructor; [exact Hrun|exact Hj|exact (organize_unfold false _ r bc' Ho)].
  - intros st bo bc db Hup. destruct Hup as [s st bc' Hrun Hj Horg].
    destruct (Hreach s Hrun) as (gs' & don & left & Hinv'). pose proof (iv_chain _ _ _ _ _ _ _ _ _ _ _ _ _ _ Hinv') as [Hwf Hrd _ _ _ _ _ _ _].
    destruct (organizeChain_run rank 0 _ l0 Hwf Hrd) as (r & bc2 & t & l & p0 & Ho & Hon & Hsame & _).
    pose proof (organize_unfold false _ r bc2 Ho) as E. unfold organize in Horg. rewrite E in Horg. injection Horg as <- <-.
    exists t, l. split; [done|]. split; [by apply (same_wf Hsame)|]. split; [by eapply organized_ready|].
    split; [cbn; by apply Hon|]. rewrite (sc_map _ _ Hsame).
    assert (forall fid, fid ∈ all_files first bfs -> file_done dbType first bfs bc0 (sys_chain s) (sys_db s) fid) as Hdone
      by (intros fid; by eapply inv_joined).
    assert (forall fid b, b ∈ blocks_of first bfs fid -> fid ∈ all_files first bfs) as Hin.
    { intros fid b Hb. unfold blocks_of in Hb. destruct (bf_at first bfs fid) as [f|] eqn:Ef; [|by apply elem_of_nil in Hb].
      apply bf_at_range in Ef. apply elem_of_seqZ. lia. }
    destruct (iv_grows _ _ _ _ _ _ _ _ _ _ _ _ _ _ Hinv') as [Hold Hheap Hnew].
    split; [|split; [done|]].
    + intros fid b Hb. by apply (Hdone fid (Hin fid b Hb)).
    + intros k p Hk Hp. destruct (Hnew k p Hk Hp) as (a & h & fid & b & -> & Hh & _ & Hb & Ek & Hnh & _).
      destruct (same_lookup Hsame a h Hh) as (h' & Hh' & Ed & Et & Ei & _). exists a, h', fid, b.
      do 4 (split; [done|]). split; [by apply (hb_read_copy _ h); [|apply Hnh]|]. intros Hfull. rewrite Ei.
      apply (Hdone fid (Hin fid b Hb)); [done|]. exists a. do 3 (split; [done|]). apply Hnh.
Qed.
End properties.

(** *** Witnesses: two threads, two files of one block *)

(** The block with another nonce. *)
Definition w_block2 : Block :=
  mkBlock (mkHeaderBytes (replicate 4 (z2b 0)) (replicate 32 (z2b 1)) some_root (replicate 4 (z2b 3))
             (map z2b [255; 255; 0; 29]) (replicate 4 (z2b 5))) [some_tx; some_tx2].

Definition w_end : list byte := replicate 9 (z2b 0).
Definition w_files : list BlkFile := [mkBlkFile [] [some_block] w_end; mkBlkFile [] [w_block2] w_end].
Definition w_top : BlockOffset := mkBlockOffset 0 0.

Lemma w_block2_ok : block_ok w_block2.
Proof.
  destruct (block_with_ok some_root ltac:(vm_compute; reflexivity)) as [(? & ? & ? & ? & ? & ?) Ht Hne _].
  split; [repeat split; done|exact Ht|exact Hne|]. vm_compute. reflexivity.
Qed.

Lemma w_file2_ok : @file_ok toy_hashes w_file_rank w_magic w_end [] [w_block2].
Proof.
  split; [discriminate|vm_compute; reflexivity|exact w_tail|].
  constructor; [|constructor]. split; [exact w_block2_ok|].
  split; [vm_compute; reflexivity|apply (bool_decide_eq_true_1 _); vm_compute; reflexivity].
Qed.

Lemma w_threads_ready dbType : threads_ready (H1 := toy_hashes) w_file_rank w_magic dbType w_files 2 w_top w_base_chain ([] : AssocDB)
  [1%nat] (fun _ => []).
Proof.
  assert (forall fid f, bf_at 0 w_files fid = Some f -> f ∈ w_files) as Hin.
  { intros fid f Hf. unfold bf_at, znth in Hf. case_decide; [|done]. by eapply list_elem_of_lookup_2. }
  split.
  - split; [reflexivity|done|done|done| |].
    + intros fid f [->|[->|?%elem_of_nil]%elem_of_cons]%Hin%elem_of_cons; [exact w_file_ok|exact w_file2_ok|done].
    + intros fid f [->|[->|?%elem_of_nil]%elem_of_cons]%Hin%elem_of_cons _; done.
  - reflexivity.
  - by apply w_base_accepting.
  - intros _ fid Hfid. split; [|split; [constructor|]].
    + split; [constructor|]. split; [exact I|right; done].
    + unfold blocks_of. change (bo_fileID w_top) with 0. destruct (bf_at 0 w_files fid) as [f|] eqn:Ef; [|done].
      apply Hin in Ef as [->|[->|?%elem_of_nil]%elem_of_cons]%elem_of_cons; done.
Qed.

(** [addBlocksToDB] succeeds on every good file. *)
Lemma addBlocks_run `{StoreLaws DB} `{HashFns} rank magic fid tail before bs bc l0 bo (db : DB) :
  file_ready rank magic fid tail before bs bc l0 bo -> exists bc',
  addBlocksToDB magic ARMORY_DB_BARE (Some (file_of magic tail before bs)) fid (start_of magic before) bo bc db =
  Ok (true, end_of magic fid before bs bo, bc', db).
Proof.
  intros Hr. destruct (build_run rank magic fid tail before bs bc l0 bo Hr) as (ids & bc' & Hrun & _).
  exists bc'. unfold addBlocksToDB. rewrite (parse_run rank magic fid tail before bs bc l0 bo Hr).
  cbn [mbind result_bind bdMap t_chain t_bo]. by rewrite values_by_id, Hrun.
Qed.

Lemma worker_is_addBlocksToDB_witness : exists bc',
  rtc (solo (DB := AssocDB) (H0 := toy_hashes) w_magic ARMORY_DB_BARE (fun _ => Some (@file_of w_magic w_end [] [some_block])) 2)
    (mkWorker 3 w_top (Opening (start_of w_magic [])), w_base_chain, [])
    (mkWorker (wrap 16 (3 + 2)) (end_of w_magic 3 [] [some_block] w_top) (Opening 0), bc', []).
Proof.
  destruct (@addBlocks_run AssocDB _ _ toy_hashes w_file_rank w_magic 3 w_end [] [some_block] w_base_chain [1%nat] w_top []
    w_file_ready) as (bc' & Hrun).
  exists bc'.
  exact (worker_is_addBlocksToDB (H1 := toy_hashes) w_magic ARMORY_DB_BARE (fun _ => Some (@file_of w_magic w_end [] [some_block])) 2 3
    (start_of w_magic []) w_top w_base_chain ([] : AssocDB) true _ bc' [] Hrun).
Defined.

Lemma threads_return_witness : exists s, step (DB := AssocDB) (H0 := toy_hashes) w_magic ARMORY_DB_FULL
    (files_of w_magic 0 w_files) 2 (start_system 2 w_top w_base_chain []) s /\
  (joined s \/ exists s', step (DB := AssocDB) (H0 := toy_hashes) w_magic ARMORY_DB_FULL (files_of w_magic 0 w_files) 2 s s').
Proof.
  pose proof (threads_return (H1 := toy_hashes) w_file_rank w_magic ARMORY_DB_FULL w_files 2 w_top w_base_chain ([] : AssocDB) [1%nat]
    (fun _ => []) (w_threads_ready ARMORY_DB_FULL)) as Hall.
  destruct (Hall 0%nat _ (nsteps_O _ _)) as (_ & _ & [[_ E]|[s Hs]]); [vm_compute in E; discriminate E|].
  exists s. split; [exact Hs|].
  destruct (Hall 1%nat _ (nsteps_once _ _ Hs)) as (_ & _ & [[Hj _]|Hs']); [left; exact Hj|right; exact Hs'].
Defined.

Lemma updateBlocksInDB_correct_witness : exists st bo bc db,
  updateBlocksInDB (DB := AssocDB) (H0 := toy_hashes) w_magic ARMORY_DB_FULL (files_of w_magic 0 w_files) 2 w_top w_base_chain [] st bo bc db /\
  is_Some (map_find (@block_hash toy_hashes some_block) (headerMap_ bc)) /\
  is_Some (map_find (@block_hash toy_hashes w_block2) (headerMap_ bc)) /\ exists t, newTop_ st = Some t.
Proof.
  destruct (updateBlocksInDB_correct (H1 := toy_hashes) w_file_rank w_magic ARMORY_DB_FULL w_files 2 w_top w_base_chain ([] : AssocDB) [1%nat]
    (fun _ => []) (w_threads_ready ARMORY_DB_FULL)) as [(st & bo & bc & db & Hup) Hall].
  exists st, bo, bc, db. split; [exact Hup|].
  destruct (Hall st bo bc db Hup) as (t & l & _ & _ & _ & Ht & Hin & _).
  split; [apply (Hin 0); left|]. split; [apply (Hin 1); left|]. exists t. exact Ht.
Defined.
