(* ===== verification/Bech32.v ===== *)
(** * Bech32: addresses of segregated witness

    The modules of cppForSwig/bech32/ref/javascript: [Bech32] is bech32.js and
    [SegwitAddr] is segwit_addr.js.  Strings are lists of UTF-16 code units;
    numbers are integers, with the 32-bit conversions of the bitwise operators
    written out. *)

From Stdlib Require Import String Ascii.
From S2P Require Import Prelude.

(** ** JavaScript numbers and strings *)

(** [ToInt32], and the operators that apply it to their operands. *)
Definition to_int32 (z : Z) : Z := signed 32 z.
Definition js_and (a b : Z) : Z := Z.land (to_int32 a) (to_int32 b).
Definition js_or (a b : Z) : Z := Z.lor (to_int32 a) (to_int32 b).
Definition js_xor (a b : Z) : Z := Z.lxor (to_int32 a) (to_int32 b).
Definition js_shl (a n : Z) : Z := to_int32 (Z.shiftl (to_int32 a) (n mod 32)).
Definition js_shr (a n : Z) : Z := Z.shiftr (to_int32 a) (n mod 32).

Fixpoint js_str (s : String.string) : list Z :=
  match s with
  | EmptyString => []
  | String c s => Z.of_N (N_of_ascii c) :: js_str s
  end.

(** [s.charAt(i)]: the empty string out of range. *)
Definition charAt (s : list Z) (i : Z) : list Z :=
  match znth s i with Some c => [c] | None => [] end.

(** [s.indexOf(c)] and [s.lastIndexOf(c)] for a string of one character. *)
Fixpoint indexOf (s : list Z) (c : Z) : Z :=
  match s with
  | [] => -1
  | x :: s => if x =? c then 0 else let i := indexOf s c in if i =? -1 then -1 else 1 + i
  end.

Fixpoint lastIndexOf (s : list Z) (c : Z) : Z :=
  match s with
  | [] => -1
  | x :: s => let i := lastIndexOf s c in
              if i =? -1 then (if x =? c then 0 else -1) else 1 + i
  end.

(** [s.toLowerCase()]; the callers have checked that the characters are ASCII. *)
Definition toLowerCase (s : list Z) : list Z :=
  map (fun c => if (65 <=? c) && (c <=? 90) then c + 32 else c) s.

Definition CHARSET : list Z := js_str "qpzry9x8gf2tvdw0s3jn54khce6mua7l".
Definition GENERATOR : list Z := [0x3b6a57b2; 0x26508e6d; 0x1ea119fa; 0x3d4233dd; 0x2a1462b3].

(** ** bech32.js *)
Module Bech32.

(** [if ((top >> i) & 1) chk ^= GENERATOR[i]], for [i] from 0 to 4. *)
Definition polymod_gen (top chk : Z) : Z :=
  foldl (fun chk '(i, g) => if js_and (js_shr top i) 1 =? 0 then chk else js_xor chk g)
    chk (zip [0; 1; 2; 3; 4] GENERATOR).

Definition polymod_step (chk value : Z) : Z :=
  let top := js_shr chk 25 in
  polymod_gen top (js_xor (js_shl (js_and chk 0x1ffffff) 5) value).

Definition polymod (values : list Z) : Z := foldl polymod_step 1 values.

Definition hrpExpand (hrp : list Z) : list Z :=
  map (fun c => js_shr c 5) hrp ++ [0] ++ map (fun c => js_and c 31) hrp.

Definition verifyChecksum (hrp data : list Z) : bool :=
  polymod (hrpExpand hrp ++ data) =? 1.

Definition createChecksum (hrp data : list Z) : list Z :=
  let values := (hrpExpand hrp ++ data) ++ [0; 0; 0; 0; 0; 0] in
  let mod_ := js_xor (polymod values) 1 in
  map (fun p => js_and (js_shr mod_ (5 * (5 - p))) 31) [0; 1; 2; 3; 4; 5].

Definition encode (hrp data : list Z) : list Z :=
  let combined := data ++ createChecksum hrp data in
  foldl (fun ret d => ret ++ charAt CHARSET d) (hrp ++ js_str "1") combined.

(** The first loop of [decode]: [None] is [return null]. *)
Fixpoint scan_case (s : list Z) (has_lower has_upper : bool) : option (bool * bool) :=
  match s with
  | [] => Some (has_lower, has_upper)
  | c :: s =>
      if (c <? 33) || (126 <? c) then None
      else scan_case s (has_lower || ((97 <=? c) && (c <=? 122)))
                       (has_upper || ((65 <=? c) && (c <=? 90)))
  end.

(** The second loop: the values of the characters after the separator. *)
Fixpoint decode_data (s : list Z) : option (list Z) :=
  match s with
  | [] => Some []
  | c :: s =>
      let d := indexOf CHARSET c in
      if d =? -1 then None else ds ← decode_data s; Some (d :: ds)
  end.

Definition decode (bechString : list Z) : option (list Z * list Z) :=
  '(has_lower, has_upper) ← scan_case bechString false false;
  if has_lower && has_upper then None
  else
    let bechString := toLowerCase bechString in
    let pos := lastIndexOf bechString 49 in
    if (pos <? 1) || (zlen bechString <? pos + 7) || (90 <? zlen bechString) then None
    else
      let hrp := zslice bechString 0 pos in
      data ← decode_data (drop (Z.to_nat (pos + 1)) bechString);
      if negb (verifyChecksum hrp data) then None
      else Some (hrp, zslice data 0 (zlen data - 6)).
End Bech32.

(** ** segwit_addr.js *)
Module SegwitAddr.

(** [while (bits >= tobits)]: the digits it pushes, and [bits] after it. *)
Fixpoint emit (fuel : nat) (tobits maxv acc bits : Z) : list Z * Z :=
  match fuel with
  | O => ([], bits)
  | S fuel =>
      if tobits <=? bits then
        let bits := bits - tobits in
        let '(ret, bits') := emit fuel tobits maxv acc bits in
        (js_and (js_shr acc bits) maxv :: ret, bits')
      else ([], bits)
  end.

(** The outer loop; [bits] digits at most leave the inner one. *)
Fixpoint convert_loop (frombits tobits maxv : Z) (data : list Z) (acc bits : Z)
    : option (list Z * Z * Z) :=
  match data with
  | [] => Some ([], acc, bits)
  | value :: data =>
      if (value <? 0) || negb (js_shr value frombits =? 0) then None
      else
        let acc := js_or (js_shl acc frombits) value in
        let bits := bits + frombits in
        let '(ret, bits) := emit (Z.to_nat bits) tobits maxv acc bits in
        '(ret', acc, bits) ← convert_loop frombits tobits maxv data acc bits;
        Some (ret ++ ret', acc, bits)
  end.

Definition convertbits (data : list Z) (frombits tobits : Z) (pad : bool) : option (list Z) :=
  let maxv := js_shl 1 tobits - 1 in
  '(ret, acc, bits) ← convert_loop frombits tobits maxv data 0 0;
  if pad then
    if 0 <? bits then Some (ret ++ [js_and (js_shl acc (tobits - bits)) maxv]) else Some ret
  else if (frombits <=? bits) || negb (js_and (js_shl acc (tobits - bits)) maxv =? 0) then None
  else Some ret.

Definition decode (hrp addr : list Z) : option (Z * list Z) :=
  '(dec_hrp, dec_data) ← Bech32.decode addr;
  if negb (bool_decide (dec_hrp = hrp)) then None
  else match dec_data with
  | [] => None
  | version :: rest =>
      if 16 <? version then None
      else
        res ← convertbits rest 5 8 false;
        if (zlen res <? 2) || (40 <? zlen res) then None
        else if (version =? 0) && negb (zlen res =? 20) && negb (zlen res =? 32) then None
        else Some (version, res)
  end.

(** A [null] from [convertbits] is concatenated as one element, and counts as
    0 in the checksum and in [charAt]. *)
Definition encode (hrp : list Z) (version : Z) (program : list Z) : option (list Z) :=
  let data := match convertbits program 8 5 true with Some l => l | None => [0] end in
  let ret := Bech32.encode hrp (version :: data) in
  match decode hrp ret with None => None | Some _ => Some ret end.
End SegwitAddr.

Example encode_bip173 :
  SegwitAddr.encode (js_str "bc") 0
    [0x75; 0x1e; 0x76; 0xe8; 0x19; 0x91; 0x96; 0xd4; 0x54; 0x94;
     0x1c; 0x45; 0xd1; 0xb3; 0xa3; 0x23; 0xf1; 0x43; 0x3b; 0xd6] =
  Some (js_str "bc1qw508d6qejxtdg4y5r3zarvary0c5xw7kv8f3t4").
Proof. vm_compute. reflexivity. Qed.

(** ** Facts about the bitwise operators *)

Lemma to_int32_small z : - 2 ^ 31 <= z < 2 ^ 31 -> to_int32 z = z.
Proof.
  intros Hz. unfold to_int32, signed, wrap. change (2 ^ (32 - 1)) with (2 ^ 31).
  destruct (Z_lt_le_dec z 0) as [Hn|Hn].
  - assert (z mod 2 ^ 32 = z + 2 ^ 32) as ->.
    { symmetry. apply (Z.mod_unique _ _ (-1)); lia. }
    rewrite decide_False by lia. lia.
  - rewrite Z.mod_small by lia. rewrite decide_True by lia. done.
Qed.

Lemma to_int32_bits z i : 0 <= i < 32 -> Z.testbit (to_int32 z) i = Z.testbit z i.
Proof.
  intros Hi. unfold to_int32, signed, wrap. case_decide.
  - apply Z.mod_pow2_bits_low. lia.
  - rewrite <- (Z.mod_pow2_bits_low (z mod 2 ^ 32 - 2 ^ 32) 32 i) by lia.
    replace (z mod 2 ^ 32 - 2 ^ 32) with (z mod 2 ^ 32 + (-1) * 2 ^ 32) by lia.
    rewrite Z.mod_add, Z.mod_mod by lia. apply Z.mod_pow2_bits_low. lia.
Qed.

Lemma lt_pow2_bits n z : 0 <= n -> 0 <= z -> (forall i, n <= i -> Z.testbit z i = false) -> z < 2 ^ n.
Proof.
  intros Hn Hz Hb. assert (z = z mod 2 ^ n) as ->; [|by apply Z.mod_pos_bound, Z.pow_pos_nonneg].
  apply Z.bits_inj'. intros i Hi. destruct (Z_lt_le_dec i n).
  - by rewrite Z.mod_pow2_bits_low.
  - rewrite Z.mod_pow2_bits_high by lia. by apply Hb.
Qed.

Lemma bits_high n z i : 0 <= z < 2 ^ n -> n <= i -> Z.testbit z i = false.
Proof.
  intros Hz Hi. destruct (Z_lt_le_dec n 0); [rewrite Z.pow_neg_r in Hz by lia; lia|].
  rewrite <- (Z.mod_small z (2 ^ n)) by lia. by apply Z.mod_pow2_bits_high.
Qed.

(** [z] is an [n]-bit number. *)
Definition ubits (n z : Z) : Prop := 0 <= z < 2 ^ n.

Lemma ubits_lxor n a b : 0 <= n -> ubits n a -> ubits n b -> ubits n (Z.lxor a b).
Proof.
  intros Hn Ha Hb. unfold ubits in *. assert (0 <= Z.lxor a b) by (apply Z.lxor_nonneg; lia).
  split; [done|]. apply lt_pow2_bits; [done..|]. intros i Hi.
  by rewrite Z.lxor_spec, (bits_high n a), (bits_high n b).
Qed.

Lemma ubits_land_r n a b : 0 <= n -> ubits n b -> ubits n (Z.land a b).
Proof.
  intros Hn Hb. unfold ubits in *. assert (0 <= Z.land a b) by (apply Z.land_nonneg; lia).
  split; [done|]. apply lt_pow2_bits; [done..|]. intros i Hi.
  by rewrite Z.land_spec, (bits_high n b), andb_false_r.
Qed.

Lemma ubits_weaken m n z : m <= n -> ubits m z -> ubits n z.
Proof. intros Hm [? ?]. pose proof (Z.pow_le_mono_r 2 m n). unfold ubits. lia. Qed.

Lemma ubits_shiftr n z k : 0 <= k -> ubits n z -> ubits n (Z.shiftr z k).
Proof.
  intros Hk [Hz1 Hz2]. unfold ubits. rewrite Z.shiftr_div_pow2 by lia.
  pose proof (Z.pow_pos_nonneg 2 k). split; [apply Z.div_pos; lia|].
  apply Z.div_lt_upper_bound; nia.
Qed.

Lemma ubits_int32 n z : n <= 31 -> ubits n z -> to_int32 z = z.
Proof. intros Hn Hz. apply (ubits_weaken n 31) in Hz; [|done]. apply to_int32_small. unfold ubits in Hz. lia. Qed.

Lemma js_xor_small n a b : n <= 31 -> ubits n a -> ubits n b -> js_xor a b = Z.lxor a b.
Proof. intros. unfold js_xor. by rewrite !(ubits_int32 n) by done. Qed.
Lemma js_and_small n a b : n <= 31 -> ubits n a -> ubits n b -> js_and a b = Z.land a b.
Proof. intros. unfold js_and. by rewrite !(ubits_int32 n) by done. Qed.
Lemma js_shr_small n a k : n <= 31 -> ubits n a -> 0 <= k < 32 -> js_shr a k = Z.shiftr a k.
Proof. intros. unfold js_shr. rewrite (ubits_int32 n) by done. by rewrite Z.mod_small by lia. Qed.

(** ** The checksum is linear *)

Lemma land_1_bit t i : 0 <= i -> Z.land (Z.shiftr t i) 1 = Z.b2z (Z.testbit t i).
Proof.
  intros Hi. change 1 with (Z.ones 1). rewrite Z.land_ones, Z.testbit_spec' by lia.
  by rewrite Z.shiftr_div_pow2 by lia.
Qed.

(** The generator terms of the five bits shifted out. *)
Definition gen_of (t : Z) : Z :=
  foldl (fun acc '(i, g) => if Z.testbit t i then Z.lxor acc g else acc) 0
    (zip [0; 1; 2; 3; 4] GENERATOR).

(** One step of the checksum over a zero value: multiplication by [x]. *)
Definition mulx (c : Z) : Z :=
  Z.lxor (Z.shiftl (Z.land c 0x1ffffff) 5) (gen_of (Z.shiftr c 25)).

Lemma GENERATOR_ubits : Forall (ubits 30) GENERATOR.
Proof. repeat constructor; vm_compute; congruence. Qed.

Lemma polymod_gen_fold l t c :
  ubits 5 t -> ubits 30 c -> Forall (fun ig => 0 <= ig.1 < 32 /\ ubits 30 ig.2) l ->
  foldl (fun chk '(i, g) => if js_and (js_shr t i) 1 =? 0 then chk else js_xor chk g) c l =
  Z.lxor c (foldl (fun acc '(i, g) => if Z.testbit t i then Z.lxor acc g else acc) 0 l) /\
  forall a, foldl (fun acc '(i, g) => if Z.testbit t i then Z.lxor acc g else acc) a l =
    Z.lxor a (foldl (fun acc '(i, g) => if Z.testbit t i then Z.lxor acc g else acc) 0 l).
Proof.
  intros Ht Hc Hl. revert c Hc. induction Hl as [|[i g] l [Hi Hg] _ IH]; intros c Hc; simpl in *.
  { split; intros; by rewrite Z.lxor_0_r. }
  assert (js_and (js_shr t i) 1 = Z.b2z (Z.testbit t i)) as ->.
  { rewrite (js_shr_small 5) by (done || lia).
    rewrite (js_and_small 5); [apply land_1_bit; lia|lia|by apply ubits_shiftr; [lia|]|done]. }
  destruct (IH c Hc) as [_ IHa].
  destruct (Z.testbit t i); cbn [Z.b2z Z.eqb].
  - rewrite (js_xor_small 30) by done.
    destruct (IH (Z.lxor c g)) as [-> _]; [by apply ubits_lxor|].
    rewrite Z.lxor_0_l, (IHa g). split; [by rewrite Z.lxor_assoc|].
    intros a. rewrite (IHa (Z.lxor a g)). by rewrite Z.lxor_assoc.
  - destruct (IH c Hc) as [-> _]. done.
Qed.

Lemma gen_zip_ok : Forall (fun ig => 0 <= ig.1 < 32 /\ ubits 30 ig.2) (zip [0; 1; 2; 3; 4] GENERATOR).
Proof. repeat constructor; simpl; unfold ubits; lia. Qed.

Lemma ubits_gen_of t : ubits 30 (gen_of t).
Proof.
  unfold gen_of. assert (forall l a, Forall (fun ig => 0 <= ig.1 < 32 /\ ubits 30 ig.2) l -> ubits 30 a ->
    ubits 30 (foldl (fun acc '(i, g) => if Z.testbit t i then Z.lxor acc g else acc) a l)) as Hf.
  { intros l a Hl. revert a. induction Hl as [|[i g] l [_ Hg] _ IH]; intros a Ha; simpl in *; [done|].
    apply IH. destruct (Z.testbit t i); [by apply ubits_lxor|done]. }
  apply Hf; [apply gen_zip_ok|unfold ubits; lia].
Qed.

Lemma shiftl_land_ubits c : ubits 30 (Z.shiftl (Z.land c 0x1ffffff) 5).
Proof.
  assert (ubits 25 (Z.land c 0x1ffffff)) as Hc by (apply ubits_land_r; [lia|unfold ubits; lia]).
  unfold ubits in *. rewrite Z.shiftl_mul_pow2 by lia. lia.
Qed.

Lemma ubits_mulx c : ubits 30 (mulx c).
Proof. apply ubits_lxor; [lia|apply shiftl_land_ubits|apply ubits_gen_of]. Qed.

Lemma polymod_step_pure c v :
  ubits 30 c -> ubits 5 v -> Bech32.polymod_step c v = Z.lxor (mulx c) v.
Proof.
  intros Hc Hv. unfold Bech32.polymod_step, Bech32.polymod_gen.
  rewrite (js_shr_small 30) by (done || lia).
  assert (ubits 25 0x1ffffff) by (unfold ubits; lia).
  assert (js_and c 0x1ffffff = Z.land c 0x1ffffff) as ->
    by (apply (js_and_small 30); [lia|done|by apply (ubits_weaken 25)]).
  pose proof (shiftl_land_ubits c).
  assert (js_shl (Z.land c 0x1ffffff) 5 = Z.shiftl (Z.land c 0x1ffffff) 5) as ->.
  { unfold js_shl. rewrite (ubits_int32 25 (Z.land c 0x1ffffff)) by (lia || (by apply ubits_land_r)).
    change (5 mod 32) with 5. by apply (ubits_int32 30). }
  rewrite (js_xor_small 30) by (lia || done || by apply (ubits_weaken 5)).
  destruct (polymod_gen_fold (zip [0; 1; 2; 3; 4] GENERATOR) (Z.shiftr c 25)
    (Z.lxor (Z.shiftl (Z.land c 0x1ffffff) 5) v)) as [-> _].
  - unfold ubits in *. rewrite Z.shiftr_div_pow2 by lia. split; [apply Z.div_pos; lia|].
    apply Z.div_lt_upper_bound; lia.
  - apply ubits_lxor; [lia|done|by apply (ubits_weaken 5)].
  - apply gen_zip_ok.
  - unfold mulx. fold (gen_of (Z.shiftr c 25)). rewrite !Z.lxor_assoc. f_equal. apply Z.lxor_comm.
Qed.

Lemma gen_fold_lxor l a b x y :
  let f t := foldl (fun acc '(i, g) => if Z.testbit t i then Z.lxor acc g else acc) in
  f (Z.lxor a b) (Z.lxor x y) l = Z.lxor (f a x l) (f b y l).
Proof.
  intros f. unfold f. revert x y. induction l as [|[i g] l IH]; intros x y; simpl; [done|].
  rewrite <- IH. f_equal. rewrite Z.lxor_spec.
  destruct (Z.testbit a i), (Z.testbit b i); simpl; try done.
  - rewrite (Z.lxor_comm y g), <- Z.lxor_assoc, (Z.lxor_assoc x g g), Z.lxor_nilpotent.
    by rewrite Z.lxor_0_r.
  - rewrite !Z.lxor_assoc. f_equal. apply Z.lxor_comm.
  - by rewrite Z.lxor_assoc.
Qed.

Lemma gen_of_lxor a b : gen_of (Z.lxor a b) = Z.lxor (gen_of a) (gen_of b).
Proof. exact (gen_fold_lxor _ a b 0 0). Qed.

Lemma mulx_lxor a b : mulx (Z.lxor a b) = Z.lxor (mulx a) (mulx b).
Proof.
  unfold mulx. rewrite Z.shiftr_lxor, gen_of_lxor.
  assert (Z.shiftl (Z.land (Z.lxor a b) 0x1ffffff) 5 =
    Z.lxor (Z.shiftl (Z.land a 0x1ffffff) 5) (Z.shiftl (Z.land b 0x1ffffff) 5)) as ->.
  { rewrite <- Z.shiftl_lxor. f_equal. apply Z.bits_inj'. intros i Hi.
    rewrite !Z.land_spec, !Z.lxor_spec, !Z.land_spec.
    by destruct (Z.testbit a i), (Z.testbit b i), (Z.testbit 0x1ffffff i). }
  rewrite !Z.lxor_assoc. f_equal. rewrite <- !Z.lxor_assoc. f_equal. apply Z.lxor_comm.
Qed.

(** The checksum register after the values [vs], from [c]. *)
Definition chk_run (c : Z) (vs : list Z) : Z := foldl (fun c v => Z.lxor (mulx c) v) c vs.

Lemma ubits_chk_run c vs : ubits 30 c -> Forall (ubits 5) vs -> ubits 30 (chk_run c vs).
Proof.
  intros Hc Hvs. unfold chk_run. revert c Hc. induction Hvs as [|v vs Hv _ IH]; intros c Hc; simpl; [done|].
  apply IH, ubits_lxor; [lia|apply ubits_mulx|by apply (ubits_weaken 5)].
Qed.

Lemma polymod_run c vs :
  ubits 30 c -> Forall (ubits 5) vs -> foldl Bech32.polymod_step c vs = chk_run c vs.
Proof.
  intros Hc Hvs. unfold chk_run. revert c Hc. induction Hvs as [|v vs Hv _ IH]; intros c Hc; simpl; [done|].
  rewrite polymod_step_pure by done.
  apply IH, ubits_lxor; [lia|apply ubits_mulx|by apply (ubits_weaken 5)].
Qed.

Lemma chk_run_app c v1 v2 : chk_run c (v1 ++ v2) = chk_run (chk_run c v1) v2.
Proof. apply foldl_app. Qed.

(** The error pattern [es] changes the register by its own run. *)
Lemma chk_run_lxor c d vs es :
  length vs = length es ->
  chk_run (Z.lxor c d) (zip_with Z.lxor vs es) = Z.lxor (chk_run c vs) (chk_run d es).
Proof.
  revert c d es. induction vs as [|v vs IH]; intros c d [|e es] Hl; try done.
  cbn [zip_with chk_run foldl]. fold (chk_run). unfold chk_run in *. rewrite <- IH by (simpl in Hl; lia).
  f_equal. rewrite mulx_lxor, !Z.lxor_assoc. f_equal. rewrite <- !Z.lxor_assoc. f_equal. apply Z.lxor_comm.
Qed.

(** Six symbols, most significant first, and the register they load. *)
Definition syms6 (m : Z) : list Z := map (fun p => Z.land (Z.shiftr m (5 * (5 - p))) 31) [0; 1; 2; 3; 4; 5].

Lemma mulx_small c : ubits 25 c -> mulx c = Z.shiftl c 5.
Proof.
  intros Hc. unfold mulx. change 0x1ffffff with (Z.ones 25). rewrite Z.land_ones by lia.
  unfold ubits in Hc. rewrite Z.mod_small by lia.
  assert (Z.shiftr c 25 = 0) as -> by (rewrite Z.shiftr_div_pow2 by lia; apply Z.div_small; lia).
  by rewrite Z.lxor_0_r.
Qed.

Lemma lxor_shiftl5_add c v : 0 <= c -> ubits 5 v -> Z.lxor (Z.shiftl c 5) v = 32 * c + v.
Proof.
  intros Hc [Hv1 Hv2]. rewrite Z.shiftl_mul_pow2 by lia. change (2 ^ 5) with 32 in *.
  symmetry. rewrite Z.mul_comm. apply Z.add_nocarry_lxor. apply Z.bits_inj'. intros i Hi.
  rewrite Z.land_spec, Z.bits_0. change 32 with (2 ^ 5). destruct (Z_lt_le_dec i 5).
  - by rewrite Z.mul_pow2_bits_low.
  - rewrite (bits_high 5 v) by (unfold ubits; lia). apply andb_false_r.
Qed.

Lemma chk_run_step6 c v vs k :
  ubits (5 * k) c -> 0 <= k <= 5 -> ubits 5 v ->
  chk_run c (v :: vs) = chk_run (32 * c + v) vs /\ ubits (5 * (k + 1)) (32 * c + v).
Proof.
  intros Hc Hk Hv. unfold chk_run. simpl.
  rewrite mulx_small by (apply (ubits_weaken (5 * k)); [lia|done]).
  rewrite lxor_shiftl5_add by (done || (unfold ubits in Hc; lia)). split; [done|].
  unfold ubits in *. replace (5 * (k + 1)) with (5 * k + 5) by lia.
  rewrite Z.pow_add_r by lia. change (2 ^ 5) with 32 in *. lia.
Qed.

Definition val6 (vs : list Z) : Z := foldl (fun c v => 32 * c + v) 0 vs.

Lemma chk_run_val6 vs : length vs = 6%nat -> Forall (ubits 5) vs -> chk_run 0 vs = val6 vs /\ ubits 30 (val6 vs).
Proof.
  intros Hl Hvs. do 6 (destruct vs as [|? vs]; [done|]). destruct vs; [|done].
  repeat match goal with H : Forall _ (_ :: _) |- _ => inversion H; clear H; subst end.
  split; [|unfold val6, ubits in *; simpl; lia].
  assert (ubits (5 * 0) 0) as U0 by done.
  unfold val6. cbn [foldl].
  edestruct (chk_run_step6 0) as [-> U1]; [exact U0|lia|done|].
  edestruct (chk_run_step6 (32 * 0 + z)) as [-> U2]; [exact U1|lia|done|].
  edestruct (chk_run_step6 (32 * (32 * 0 + z) + z0)) as [-> U3]; [exact U2|lia|done|].
  edestruct chk_run_step6 as [-> U4]; [exact U3|lia|done|].
  edestruct chk_run_step6 as [-> U5]; [exact U4|lia|done|].
  edestruct chk_run_step6 as [-> U6]; [exact U5|lia|done|]. done.
Qed.

Lemma length_syms6 m : length (syms6 m) = 6%nat.
Proof. done. Qed.

Lemma syms6_digit m k : 0 <= k -> Z.land (Z.shiftr m k) 31 = (m / 2 ^ k) mod 32.
Proof. intros. change 31 with (Z.ones 5). by rewrite Z.land_ones, Z.shiftr_div_pow2 by lia. Qed.

Lemma syms6_ubits m : Forall (ubits 5) (syms6 m).
Proof.
  unfold syms6. apply Forall_forall. intros d Hd. apply list_elem_of_fmap in Hd as (p & -> & _).
  apply ubits_land_r; [lia|unfold ubits; lia].
Qed.

Lemma val6_syms6 m : ubits 30 m -> val6 (syms6 m) = m.
Proof.
  intros [Hm1 Hm2]. unfold val6, syms6. cbn [map foldl]. rewrite !syms6_digit by lia.
  simpl (2 ^ _). change (2 ^ 30) with 1073741824 in *. dlia.
Qed.

Lemma syms6_val6 vs : length vs = 6%nat -> Forall (ubits 5) vs -> syms6 (val6 vs) = vs.
Proof.
  intros Hl Hvs. do 6 (destruct vs as [|? vs]; [done|]). destruct vs; [|done].
  repeat match goal with H : Forall _ (_ :: _) |- _ => inversion H; clear H; subst end.
  unfold val6, syms6, ubits in *. cbn [map foldl]. rewrite !syms6_digit by lia.
  simpl (2 ^ _). change (2 ^ 5) with 32 in *. repeat (f_equal; [dlia|]). f_equal. dlia.
Qed.

(** ** The checksum of a string *)

Definition hrp_char (c : Z) : Prop := 33 <= c <= 126.

Lemma hrpExpand_ubits hrp : Forall hrp_char hrp -> Forall (ubits 5) (Bech32.hrpExpand hrp).
Proof.
  intros Hh. unfold Bech32.hrpExpand. repeat apply Forall_app_2; [| by repeat constructor |];
    apply Forall_forall; intros x Hx; apply list_elem_of_fmap in Hx as (c & -> & Hc);
    (eapply Forall_forall in Hh; [|exact Hc]); unfold hrp_char in Hh.
  - rewrite (js_shr_small 7) by (unfold ubits; lia). unfold ubits.
    rewrite Z.shiftr_div_pow2 by lia. change (2 ^ 5) with 32. dlia.
  - rewrite (js_and_small 7) by (unfold ubits; lia). apply ubits_land_r; unfold ubits; lia.
Qed.

Lemma polymod_app_xor hrp data es c :
  Forall hrp_char hrp -> Forall (ubits 5) data -> Forall (ubits 5) c -> Forall (ubits 5) es ->
  length c = length es ->
  Bech32.polymod ((Bech32.hrpExpand hrp ++ data) ++ zip_with Z.lxor c es) =
    Z.lxor (Bech32.polymod ((Bech32.hrpExpand hrp ++ data) ++ c)) (chk_run 0 es).
Proof.
  intros Hh Hd Hc He Hl. unfold Bech32.polymod.
  assert (ubits 30 1) by (unfold ubits; lia). pose proof (hrpExpand_ubits hrp Hh).
  assert (Forall (ubits 5) (zip_with Z.lxor c es)) as Hz.
  { clear Hl. revert es He. induction Hc as [|x c Hx _ IH]; intros [|e es] He; simpl; constructor;
      inversion He; subst; [apply ubits_lxor; done|by apply IH]. }
  rewrite !polymod_run by (rewrite ?Forall_app; auto).
  rewrite !(chk_run_app _ (Bech32.hrpExpand hrp ++ data)).
  rewrite <- (Z.lxor_0_r (chk_run 1 (Bech32.hrpExpand hrp ++ data))) at 1.
  by apply chk_run_lxor.
Qed.

Lemma zip_lxor_zeros es : zip_with Z.lxor (replicate (length es) 0) es = es.
Proof. induction es as [|e es IH]; simpl; [done|]. by rewrite IH. Qed.

(** The checksum of [data ++ c]: that of zeros, with [c] added. *)
Lemma polymod_checksum hrp data c :
  Forall hrp_char hrp -> Forall (ubits 5) data -> Forall (ubits 5) c -> length c = 6%nat ->
  Bech32.polymod (Bech32.hrpExpand hrp ++ data ++ c) =
    Z.lxor (Bech32.polymod ((Bech32.hrpExpand hrp ++ data) ++ [0; 0; 0; 0; 0; 0])) (val6 c).
Proof.
  intros Hh Hd Hc Hl. destruct (chk_run_val6 c Hl Hc) as [<- _].
  rewrite <- polymod_app_xor; [|done|done| |done|done].
  - rewrite <- app_assoc. f_equal. f_equal. f_equal.
    pose proof (zip_lxor_zeros c) as Hz. rewrite Hl in Hz. by rewrite <- Hz at 1.
  - by repeat constructor.
Qed.

Lemma polymod_ubits hrp data :
  Forall hrp_char hrp -> Forall (ubits 5) data ->
  ubits 30 (Bech32.polymod ((Bech32.hrpExpand hrp ++ data) ++ [0; 0; 0; 0; 0; 0])).
Proof.
  intros Hh Hd. unfold Bech32.polymod. pose proof (hrpExpand_ubits hrp Hh).
  assert (ubits 30 1) by (unfold ubits; lia).
  assert (Forall (ubits 5) [0; 0; 0; 0; 0; 0]) by (by repeat constructor).
  rewrite polymod_run; [apply ubits_chk_run| |]; rewrite ?Forall_app; auto.
Qed.

Lemma createChecksum_syms hrp data :
  Forall hrp_char hrp -> Forall (ubits 5) data ->
  let m := Z.lxor (Bech32.polymod ((Bech32.hrpExpand hrp ++ data) ++ [0; 0; 0; 0; 0; 0])) 1 in
  ubits 30 m /\ Bech32.createChecksum hrp data = syms6 m.
Proof.
  intros Hh Hd m. pose proof (polymod_ubits hrp data Hh Hd) as Hu.
  assert (ubits 30 m) as Hm by (apply ubits_lxor; [lia|done|unfold ubits; lia]).
  split; [done|]. unfold Bech32.createChecksum, syms6. cbv zeta.
  rewrite (js_xor_small 30) by (done || (unfold ubits; lia)). fold m.
  apply map_ext_in. intros p Hp. simpl in Hp.
  rewrite (js_shr_small 30) by (done || lia).
  apply (js_and_small 30); [lia| |unfold ubits; lia]. apply ubits_shiftr; [lia|done].
Qed.

(** A six-symbol suffix is accepted exactly when it is the checksum. *)
Lemma verifyChecksum_iff hrp data c :
  Forall hrp_char hrp -> Forall (ubits 5) data -> Forall (ubits 5) c -> length c = 6%nat ->
  Bech32.verifyChecksum hrp (data ++ c) = true <-> c = Bech32.createChecksum hrp data.
Proof.
  intros Hh Hd Hc Hl. destruct (createChecksum_syms hrp data Hh Hd) as [Hm ->].
  set (P := Bech32.polymod ((Bech32.hrpExpand hrp ++ data) ++ [0; 0; 0; 0; 0; 0])) in *.
  unfold Bech32.verifyChecksum. rewrite polymod_checksum, Z.eqb_eq by done. fold P. split.
  - intros Hx. rewrite <- (syms6_val6 c) by done. f_equal.
    rewrite <- Hx. by rewrite <- Z.lxor_assoc, Z.lxor_nilpotent, Z.lxor_0_l.
  - intros ->. rewrite val6_syms6 by done.
    by rewrite <- Z.lxor_assoc, Z.lxor_nilpotent, Z.lxor_0_l.
Qed.

Lemma createChecksum_ubits hrp data :
  Forall hrp_char hrp -> Forall (ubits 5) data ->
  Forall (ubits 5) (Bech32.createChecksum hrp data) /\ length (Bech32.createChecksum hrp data) = 6%nat.
Proof.
  intros Hh Hd. destruct (createChecksum_syms hrp data Hh Hd) as [_ ->].
  split; [apply syms6_ubits|done].
Qed.

(** ** Characters *)

Definition sym_char (d : Z) : Z := default 0 (znth CHARSET d).

Lemma ubits5_cases (P : Z -> Prop) : (forall d, In d (map Z.of_nat (seq 0 32)) -> P d) -> forall d, ubits 5 d -> P d.
Proof.
  intros HP d [H1 H2]. apply HP. change (2 ^ 5) with 32 in H2.
  rewrite <- (Z2Nat.id d) by lia. apply in_map, in_seq. lia.
Qed.

Definition sym_ok (d : Z) : bool :=
  bool_decide (charAt CHARSET d = [sym_char d]) && (indexOf CHARSET (sym_char d) =? d) &&
  negb (sym_char d =? 49) && (33 <=? sym_char d) && (sym_char d <=? 126) &&
  negb ((65 <=? sym_char d) && (sym_char d <=? 90)).

Lemma sym_ok_all d : ubits 5 d -> sym_ok d = true.
Proof.
  revert d. apply ubits5_cases. intros d Hd.
  assert (forallb sym_ok (map Z.of_nat (seq 0 32)) = true) as Hall by (vm_compute; reflexivity).
  rewrite forallb_forall in Hall. by apply Hall.
Qed.

Lemma sym_char_facts d : ubits 5 d ->
  charAt CHARSET d = [sym_char d] /\ indexOf CHARSET (sym_char d) = d /\ sym_char d <> 49 /\
  hrp_char (sym_char d) /\ ~ (65 <= sym_char d <= 90).
Proof.
  intros Hd%sym_ok_all. unfold sym_ok in Hd. breflect.
  split; [done|]. split; [done|]. split; [done|]. unfold hrp_char. split; [lia|].
  match goal with H : _ && _ = false |- _ => apply andb_false_iff in H as [H|H] end; breflect; lia.
Qed.

Lemma indexOf_range s c : -1 <= indexOf s c < zlen s.
Proof.
  induction s as [|x s IH]; simpl; [unfold zlen; simpl; lia|]. rewrite zlen_cons. pose proof (zlen_nonneg s).
  zcase; [lia|]. zcase; lia.
Qed.

Lemma indexOf_Some s c i : indexOf s c = i -> i <> -1 -> znth s i = Some c.
Proof.
  revert i. induction s as [|x s IH]; intros i Hi Hne; simpl in Hi; [lia|].
  destruct (Z.eqb_spec x c) as [->|_]; [by subst|].
  destruct (Z.eqb_spec (indexOf s c) (-1)) as [E|E]; [lia|].
  pose proof (indexOf_range s c). rewrite <- Hi, znth_cons_pos by lia.
  replace (1 + indexOf s c - 1) with (indexOf s c) by lia. by apply IH.
Qed.

Lemma indexOf_CHARSET c : indexOf CHARSET c <> -1 ->
  ubits 5 (indexOf CHARSET c) /\ sym_char (indexOf CHARSET c) = c.
Proof.
  intros Hne. pose proof (indexOf_range CHARSET c) as Hr.
  split; [unfold ubits; change (zlen CHARSET) with 32 in Hr; lia|].
  unfold sym_char. by rewrite (indexOf_Some CHARSET c _ eq_refl Hne).
Qed.

Lemma lastIndexOf_range s c : -1 <= lastIndexOf s c < zlen s.
Proof.
  induction s as [|x s IH]; simpl; [unfold zlen; simpl; lia|]. rewrite zlen_cons. pose proof (zlen_nonneg s).
  zcase; [zcase; lia|lia].
Qed.

Lemma lastIndexOf_absent s c : Forall (fun x => x <> c) s -> lastIndexOf s c = -1.
Proof. induction 1 as [|x s Hx _ IH]; simpl; [done|]. rewrite IH. simpl. by zcase. Qed.

Lemma lastIndexOf_sep s1 s2 c :
  Forall (fun x => x <> c) s2 -> lastIndexOf (s1 ++ c :: s2) c = zlen s1.
Proof.
  intros Hs. induction s1 as [|x s1 IH]; simpl.
  - rewrite lastIndexOf_absent by done. simpl. by rewrite Z.eqb_refl.
  - rewrite IH, zlen_cons. pose proof (zlen_nonneg s1). zcase; [lia|done].
Qed.

Lemma lastIndexOf_split s c p : lastIndexOf s c = p -> p <> -1 ->
  exists s1 s2, s = s1 ++ c :: s2 /\ zlen s1 = p /\ Forall (fun x => x <> c) s2.
Proof.
  revert p. induction s as [|x s IH]; intros p Hp Hne; simpl in Hp; [lia|].
  destruct (Z.eqb_spec (lastIndexOf s c) (-1)) as [E|E].
  - destruct (Z.eqb_spec x c) as [->|]; [|lia]. exists [], s. repeat split; [by rewrite zlen_nil|].
    clear -E. induction s as [|y s IH]; [constructor|]. simpl in E.
    pose proof (lastIndexOf_range s c).
    destruct (Z.eqb_spec (lastIndexOf s c) (-1)) as [E'|E']; [|lia].
    destruct (Z.eqb_spec y c); [lia|]. constructor; auto.
  - destruct (IH _ eq_refl E) as (s1 & s2 & -> & Hl & Hf). exists (x :: s1), s2.
    repeat split; [|done]. rewrite zlen_cons. lia.
Qed.

(** ** Strings *)

#[local] Opaque CHARSET.

(** A character of a lower-case bech32 string. *)
Definition low_char (c : Z) : Prop := hrp_char c /\ ~ (65 <= c <= 90).

Definition valid_hrp (hrp : list Z) : Prop := hrp <> [] /\ Forall low_char hrp.

Lemma encode_chars hrp data :
  Forall hrp_char hrp -> Forall (ubits 5) data ->
  Bech32.encode hrp data = hrp ++ 49 :: map sym_char (data ++ Bech32.createChecksum hrp data).
Proof.
  intros Hh Hd. destruct (createChecksum_ubits hrp data Hh Hd) as [Hc _].
  unfold Bech32.encode. change (js_str "1") with [49].
  assert (forall ds acc, Forall (ubits 5) ds ->
    foldl (fun ret d => ret ++ charAt CHARSET d) acc ds = acc ++ map sym_char ds) as Hf.
  { intros ds acc Hds. revert acc. induction Hds as [|d ds Hx _ IH]; intros acc; simpl; [by rewrite app_nil_r|].
    rewrite IH. destruct (sym_char_facts d Hx) as [-> _]. by rewrite <- app_assoc. }
  rewrite Hf by (by apply Forall_app_2). by rewrite <- app_assoc.
Qed.

Lemma scan_case_low s lo up : Forall low_char s ->
  exists lo', Bech32.scan_case s lo up = Some (lo', up).
Proof.
  intros Hs. revert lo. induction Hs as [|c s [Hc Hn] _ IH]; intros lo; simpl; [by eexists|].
  unfold hrp_char in Hc. replace ((c <? 33) || (126 <? c)) with false
    by (symmetry; apply orb_false_iff; lia).
  replace ((65 <=? c) && (c <=? 90)) with false by (symmetry; apply andb_false_iff; lia).
  rewrite orb_false_r. apply IH.
Qed.

Lemma toLowerCase_low s : Forall low_char s -> toLowerCase s = s.
Proof.
  induction 1 as [|c s [_ Hn] _ IH]; simpl; [done|]. rewrite IH.
  replace ((65 <=? c) && (c <=? 90)) with false by (symmetry; apply andb_false_iff; lia). done.
Qed.

Lemma decode_data_syms ds : Forall (ubits 5) ds -> Bech32.decode_data (map sym_char ds) = Some ds.
Proof.
  induction 1 as [|d ds Hd _ IH]; [done|]. cbn [map Bech32.decode_data].
  destruct (sym_char_facts d Hd) as (_ & -> & _). unfold ubits in Hd. zcase; [lia|].
  by rewrite IH.
Qed.

Lemma decode_data_Some s ds : Bech32.decode_data s = Some ds ->
  Forall (ubits 5) ds /\ s = map sym_char ds.
Proof.
  revert ds. induction s as [|c s IH]; intros ds; cbn [Bech32.decode_data].
  { intros [= <-]. by split. }
  cbv zeta. zcase; [done|]. destruct (Bech32.decode_data s) as [ds'|]; [|done].
  intros [= <-]. destruct (IH ds' eq_refl) as [Hds ->].
  destruct (indexOf_CHARSET c) as [Hu Hs]; [done|]. split; [by constructor|]. simpl. by rewrite Hs.
Qed.

(** [decode] of a lower-case string that splits at its last separator. *)
Lemma decode_split hrp ds :
  valid_hrp hrp -> Forall (ubits 5) ds ->
  Bech32.decode (hrp ++ 49 :: map sym_char ds) =
    if (zlen ds <? 6) || (90 <? zlen hrp + 1 + zlen ds) then None
    else if Bech32.verifyChecksum hrp ds then Some (hrp, zslice ds 0 (zlen ds - 6)) else None.
Proof.
  intros [Hne Hh] Hd. unfold Bech32.decode.
  assert (Forall low_char (hrp ++ 49 :: map sym_char ds)) as Hlow.
  { apply Forall_app_2; [done|]. constructor; [unfold low_char, hrp_char; lia|].
    apply Forall_fmap. eapply Forall_impl; [exact Hd|]. intros d Hx.
    destruct (sym_char_facts d Hx) as (_ & _ & _ & ? & ?). by split. }
  destruct (scan_case_low (hrp ++ 49 :: map sym_char ds) false false Hlow) as [lo ->].
  cbn [mbind option_bind]. rewrite andb_false_r. cbv iota zeta.
  rewrite toLowerCase_low by done. rewrite lastIndexOf_sep.
  2: { apply Forall_fmap. eapply Forall_impl; [exact Hd|]. intros d Hx.
       by destruct (sym_char_facts d Hx) as (_ & _ & ? & _). }
  assert (0 < zlen hrp) by (destruct hrp; [done|]; rewrite zlen_cons; pose proof (zlen_nonneg hrp); lia).
  rewrite zlen_app, zlen_cons. assert (zlen (map sym_char ds) = zlen ds) as ->
    by (unfold zlen; by rewrite length_map).
  replace (zlen hrp <? 1) with false by (symmetry; apply Z.ltb_ge; lia). cbn [orb].
  replace (zlen hrp + (1 + zlen ds) <? zlen hrp + 7) with (zlen ds <? 6) by (do 2 zcase; lia).
  rewrite Z.add_assoc. destruct ((zlen ds <? 6) || (90 <? zlen hrp + 1 + zlen ds)); [done|].
  replace (drop (Z.to_nat (zlen hrp + 1)) (hrp ++ 49 :: map sym_char ds)) with (map sym_char ds).
  2: { rewrite cons_middle, app_assoc. unfold zlen.
       replace (Z.to_nat (Z.of_nat (length hrp) + 1)) with (length (hrp ++ [49])) by (rewrite length_app; simpl; lia).
       by rewrite drop_app_length. }
  rewrite decode_data_syms by done. cbn [mbind option_bind].
  pose proof (zslice_app [] hrp (49 :: map sym_char ds)) as Hz. rewrite zlen_nil in Hz. cbn [app] in Hz.
  rewrite Hz. by destruct (Bech32.verifyChecksum hrp ds).
Qed.

Lemma zslice_prefix (l1 l2 : list Z) n : n = zlen l1 -> zslice (l1 ++ l2) 0 n = l1.
Proof. intros ->. exact (zslice_app [] l1 l2). Qed.

Lemma low_hrp hrp : Forall low_char hrp -> Forall hrp_char hrp.
Proof. intros H. eapply Forall_impl; [exact H|]. by intros c [? _]. Qed.

Lemma decode_encode hrp data :
  valid_hrp hrp -> Forall (ubits 5) data -> zlen hrp + zlen data + 7 <= 90 ->
  Bech32.decode (Bech32.encode hrp data) = Some (hrp, data).
Proof.
  intros Hh Hd Hl. destruct Hh as [Hne Hlow]. pose proof (low_hrp hrp Hlow) as Hc.
  destruct (createChecksum_ubits hrp data Hc Hd) as [Hcs Hcl].
  assert (zlen (Bech32.createChecksum hrp data) = 6) as Hcz by (unfold zlen; by rewrite Hcl).
  rewrite encode_chars, decode_split by (done || by apply Forall_app_2).
  rewrite zlen_app, Hcz. pose proof (zlen_nonneg data). zsimp.
  rewrite (proj2 (verifyChecksum_iff hrp data _ Hc Hd Hcs Hcl) eq_refl).
  by rewrite zslice_prefix by lia.
Qed.

Lemma scan_case_Some s lo up lo' up' :
  Bech32.scan_case s lo up = Some (lo', up') -> Forall low_char (toLowerCase s).
Proof.
  revert lo up. induction s as [|c s IH]; intros lo up; simpl; [constructor|].
  destruct ((c <? 33) || (126 <? c)) eqn:E; [done|]. intros Hs. breflect.
  constructor; [|by eapply IH]. unfold low_char, hrp_char.
  destruct ((65 <=? c) && (c <=? 90)) eqn:E2; breflect; [lia|]. split; [lia|].
  apply andb_false_iff in E2 as [?|?]; breflect; lia.
Qed.

Lemma decode_Some s hrp data :
  Bech32.decode s = Some (hrp, data) ->
  toLowerCase s = Bech32.encode hrp data /\ valid_hrp hrp /\ Forall (ubits 5) data /\
  zlen hrp + zlen data + 7 <= 90.
Proof.
  unfold Bech32.decode. destruct (Bech32.scan_case s false false) as [[lo up]|] eqn:Es; [|done].
  cbn [mbind option_bind]. destruct (lo && up); [done|]. cbv zeta.
  apply scan_case_Some in Es. set (t := toLowerCase s) in *.
  destruct ((_ || _) || _) eqn:Eg; [done|]. breflect.
  destruct (lastIndexOf_split t 49 _ eq_refl) as (h & cs & Ht & Hp & Hcs); [lia|].
  rewrite <- Hp in *. clear Hp. rewrite Ht in *.
  assert (drop (Z.to_nat (zlen h + 1)) (h ++ 49 :: cs) = cs) as ->.
  { rewrite cons_middle, app_assoc. unfold zlen.
    replace (Z.to_nat (Z.of_nat (length h) + 1)) with (length (h ++ [49])) by (rewrite length_app; simpl; lia).
    by rewrite drop_app_length. }
  destruct (Bech32.decode_data cs) as [ds|] eqn:Ed; [|done]. cbn [mbind option_bind].
  apply decode_data_Some in Ed as [Hds ->].
  rewrite zslice_prefix by done. destruct (Bech32.verifyChecksum h ds) eqn:Ev; [|done].
  intros [= <- <-]. apply Forall_app in Es as [Hh _].
  assert (zlen (map sym_char ds) = zlen ds) as Hm by (unfold zlen; by rewrite length_map).
  autorewrite with zlen in *. rewrite Hm in *.
  assert (exists d c, ds = d ++ c /\ length c = 6%nat) as (d & c & -> & Hc).
  { exists (take (length ds - 6) ds), (drop (length ds - 6) ds). rewrite take_drop, length_drop.
    unfold zlen in *. split; [done|lia]. }
  assert (zlen c = 6) as Hcz by (unfold zlen; by rewrite Hc).
  rewrite zlen_app, Hcz in *. rewrite zslice_prefix by lia.
  apply Forall_app in Hds as [Hd Hcu]. pose proof (low_hrp h Hh) as Hhc.
  apply verifyChecksum_iff in Ev; [|done..]. subst c.
  rewrite encode_chars by done. split; [done|]. split; [|split; [done|lia]].
  split; [|done]. intros ->. rewrite zlen_nil in *. lia.
Qed.

(** ** Regrouping of bits *)

(** The low [n] bits of [z], most significant first. *)
Fixpoint bits_of (n : nat) (z : Z) : list bool :=
  match n with
  | O => []
  | S n => Z.testbit z (Z.of_nat n) :: bits_of n z
  end.

(** The bits of a list of [n]-bit digits. *)
Definition stream (n : nat) (ds : list Z) : list bool := concat (map (bits_of n) ds).

Lemma length_bits_of n z : length (bits_of n z) = n.
Proof. induction n; simpl; congruence. Qed.

Lemma length_stream n ds : length (stream n ds) = (n * length ds)%nat.
Proof.
  unfold stream. induction ds as [|d ds IH]; simpl; [lia|]. rewrite length_app, length_bits_of, IH. lia.
Qed.

Lemma stream_app n d1 d2 : stream n (d1 ++ d2) = stream n d1 ++ stream n d2.
Proof. unfold stream. by rewrite map_app, concat_app. Qed.

Lemma bits_of_app a b z : bits_of (a + b) z = bits_of a (Z.shiftr z (Z.of_nat b)) ++ bits_of b z.
Proof.
  induction a as [|a IH]; simpl; [done|]. rewrite IH, Z.shiftr_spec by lia. do 2 f_equal. lia.
Qed.

Lemma bits_of_ext n a b :
  (forall i, 0 <= i < Z.of_nat n -> Z.testbit a i = Z.testbit b i) -> bits_of n a = bits_of n b.
Proof.
  induction n as [|n IH]; intros Hab; simpl; [done|]. rewrite Hab by lia. f_equal. apply IH. intros. apply Hab. lia.
Qed.

Lemma bits_of_inj n a b : ubits (Z.of_nat n) a -> ubits (Z.of_nat n) b -> bits_of n a = bits_of n b -> a = b.
Proof.
  intros Ha Hb He. apply Z.bits_inj'. intros i Hi.
  destruct (Z_lt_le_dec i (Z.of_nat n)) as [Hlt|]; [|by rewrite (bits_high (Z.of_nat n) a), (bits_high (Z.of_nat n) b)].
  clear Ha Hb. induction n as [|n IH]; [lia|]. simpl in He. injection He as H1 H2.
  destruct (decide (i = Z.of_nat n)) as [->|]; [done|]. apply IH; [done|lia].
Qed.

Lemma stream_inj n d1 d2 :
  (0 < n)%nat -> Forall (ubits (Z.of_nat n)) d1 -> Forall (ubits (Z.of_nat n)) d2 ->
  stream n d1 = stream n d2 -> d1 = d2.
Proof.
  intros Hn H1. revert d2. induction H1 as [|a d1 Ha _ IH]; intros d2 H2 He;
    inversion H2 as [|b d2' Hb H2' E]; subst; try done.
  - apply (f_equal length) in He. rewrite !length_stream in He. simpl in He. lia.
  - apply (f_equal length) in He. rewrite !length_stream in He. simpl in He. lia.
  - unfold stream in He. simpl in He. apply app_inj_1 in He as [He1 He2]; [|by rewrite !length_bits_of].
    f_equal; [by eapply bits_of_inj|by apply IH].
Qed.

Lemma bits_of_zero_iff n z : bits_of n z = replicate n false <-> forall i, 0 <= i < Z.of_nat n -> Z.testbit z i = false.
Proof.
  induction n as [|n IH]; simpl; [split; [lia|done]|]. split.
  - intros [= H1 H2] i Hi. destruct (decide (i = Z.of_nat n)) as [->|]; [done|]. apply IH; [done|lia].
  - intros H. rewrite H by lia. f_equal. apply IH. intros. apply H. lia.
Qed.

Section convert.
Context (f t : nat).
Context (Hf : (1 ≤ f ≤ 8)%nat) (Ht : (1 ≤ t ≤ 8)%nat).

Definition maxv_of : Z := js_shl 1 (Z.of_nat t) - 1.

Lemma maxv_ones : maxv_of = Z.ones (Z.of_nat t).
Proof.
  unfold maxv_of, js_shl. rewrite (to_int32_small 1) by lia. rewrite Z.mod_small by lia.
  rewrite Z.shiftl_1_l. pose proof (Z.pow_le_mono_r 2 (Z.of_nat t) 8).
  rewrite to_int32_small by lia. by rewrite Z.ones_equiv, Z.sub_1_r.
Qed.

(** A digit the loop pushes: [tobits] bits of the accumulator, whatever the
    32-bit shifts lost above them. *)
Lemma js_digit acc b :
  0 <= b -> b + Z.of_nat t <= 32 ->
  ubits (Z.of_nat t) (js_and (js_shr acc b) maxv_of) /\
  bits_of t (js_and (js_shr acc b) maxv_of) = bits_of t (Z.shiftr acc b).
Proof.
  intros Hb Hbt. rewrite maxv_ones. unfold js_and, js_shr. rewrite Z.mod_small by lia.
  assert (to_int32 (Z.ones (Z.of_nat t)) = Z.ones (Z.of_nat t)) as ->.
  { rewrite Z.ones_equiv. pose proof (Z.pow_le_mono_r 2 (Z.of_nat t) 8).
    pose proof (Z.pow_pos_nonneg 2 (Z.of_nat t)). apply to_int32_small. lia. }
  split.
  - unfold ubits. rewrite Z.land_ones by lia. apply Z.mod_pos_bound, Z.pow_pos_nonneg; lia.
  - apply bits_of_ext. intros i Hi. rewrite Z.land_ones, Z.mod_pow2_bits_low by lia.
    rewrite to_int32_bits, !Z.shiftr_spec, to_int32_bits by lia. done.
Qed.

Lemma emit_spec fuel acc b :
  0 <= b <= Z.of_nat fuel -> b <= 32 ->
  let '(ret, b') := SegwitAddr.emit fuel (Z.of_nat t) maxv_of acc b in
  0 <= b' < Z.of_nat t /\ b' <= b /\ Forall (ubits (Z.of_nat t)) ret /\
  bits_of (Z.to_nat b) acc = stream t ret ++ bits_of (Z.to_nat b') acc.
Proof.
  revert b. induction fuel as [|fuel IH]; intros b Hb H32; cbn [SegwitAddr.emit].
  { split; [lia|]. split; [lia|]. split; [constructor|done]. }
  zcase; [|split; [lia|]; split; [lia|]; split; [constructor|done]].
  specialize (IH (b - Z.of_nat t)).
  destruct (SegwitAddr.emit fuel (Z.of_nat t) maxv_of acc (b - Z.of_nat t)) as [ret b'].
  destruct IH as (H1 & H2 & H3 & H4); [lia|lia|].
  destruct (js_digit acc (b - Z.of_nat t)) as [Hu Hbits]; [lia|lia|].
  split; [done|]. split; [lia|]. split; [by constructor|].
  unfold stream in *. cbn [map concat]. rewrite Hbits, <- app_assoc, <- H4.
  replace (Z.to_nat b) with (t + Z.to_nat (b - Z.of_nat t))%nat by lia.
  rewrite bits_of_app. do 3 f_equal. lia.
Qed.

(** Shifting a digit in keeps the pending bits below bit 32. *)
Lemma js_acc_bits acc v b :
  ubits (Z.of_nat f) v -> 0 <= b < Z.of_nat t ->
  bits_of (Z.to_nat (b + Z.of_nat f)) (js_or (js_shl acc (Z.of_nat f)) v) =
  bits_of (Z.to_nat b) acc ++ bits_of f v.
Proof.
  intros Hv Hb. replace (Z.to_nat (b + Z.of_nat f)) with (Z.to_nat b + f)%nat by lia.
  rewrite bits_of_app. unfold js_or, js_shl. rewrite (Z.mod_small (Z.of_nat f) 32) by lia.
  rewrite (ubits_int32 (Z.of_nat f) v) by (lia || done).
  f_equal; apply bits_of_ext; intros i Hi.
  - rewrite Z.shiftr_spec, Z.lor_spec, (bits_high (Z.of_nat f) v), orb_false_r by (done || lia).
    rewrite !to_int32_bits, Z.shiftl_spec, to_int32_bits by lia. f_equal. lia.
  - rewrite Z.lor_spec, !to_int32_bits, Z.shiftl_spec_low by lia. done.
Qed.

Lemma convert_loop_spec data acc b :
  Forall (ubits (Z.of_nat f)) data -> 0 <= b < Z.of_nat t ->
  exists ret acc' b', SegwitAddr.convert_loop (Z.of_nat f) (Z.of_nat t) maxv_of data acc b = Some (ret, acc', b') /\
    0 <= b' < Z.of_nat t /\ Forall (ubits (Z.of_nat t)) ret /\
    bits_of (Z.to_nat b) acc ++ stream f data = stream t ret ++ bits_of (Z.to_nat b') acc'.
Proof.
  intros Hd. revert acc b. induction Hd as [|v data Hv _ IH]; intros acc b Hb; cbn [SegwitAddr.convert_loop].
  { exists [], acc, b. split; [done|]. split; [done|]. split; [constructor|]. by rewrite app_nil_r. }
  assert (js_shr v (Z.of_nat f) = 0) as ->.
  { rewrite (js_shr_small (Z.of_nat f)) by (lia || done). unfold ubits in Hv.
    rewrite Z.shiftr_div_pow2 by lia. apply Z.div_small. lia. }
  replace (v <? 0) with false by (symmetry; apply Z.ltb_ge; unfold ubits in Hv; lia). cbn [orb negb Z.eqb].
  cbv zeta. pose proof (js_acc_bits acc v b Hv Hb) as Ha.
  pose proof (emit_spec (Z.to_nat (b + Z.of_nat f)) (js_or (js_shl acc (Z.of_nat f)) v) (b + Z.of_nat f)) as He.
  destruct (SegwitAddr.emit _ _ _ _ _) as [ret b1]. destruct He as (H1 & H2 & H3 & H4); [lia|lia|].
  destruct (IH (js_or (js_shl acc (Z.of_nat f)) v) b1 H1) as (ret' & acc' & b' & -> & Hb' & Hu & Hs).
  cbn [mbind option_bind]. exists (ret ++ ret'), acc', b'. split; [done|]. split; [done|].
  split; [by apply Forall_app_2|]. unfold stream at 1. cbn [map concat]. fold (stream f data).
  rewrite app_assoc, <- Ha, H4, stream_app, <- !app_assoc. by f_equal.
Qed.

(** The digit pushed for the pending bits, padded with zeros. *)
Lemma pad_digit acc b :
  0 <= b < Z.of_nat t ->
  let d := js_and (js_shl acc (Z.of_nat t - b)) (maxv_of) in
  ubits (Z.of_nat t) d /\
  bits_of t d = bits_of (Z.to_nat b) acc ++ replicate (Z.to_nat (Z.of_nat t - b)) false.
Proof.
  intros Hb d. unfold d. rewrite maxv_ones. unfold js_and, js_shl. rewrite Z.mod_small by lia.
  assert (to_int32 (Z.ones (Z.of_nat t)) = Z.ones (Z.of_nat t)) as ->.
  { rewrite Z.ones_equiv. pose proof (Z.pow_le_mono_r 2 (Z.of_nat t) 8).
    pose proof (Z.pow_pos_nonneg 2 (Z.of_nat t)). apply to_int32_small. lia. }
  split.
  { unfold ubits. rewrite Z.land_ones by lia. apply Z.mod_pos_bound, Z.pow_pos_nonneg; lia. }
  replace t with (Z.to_nat b + Z.to_nat (Z.of_nat t - b))%nat at 1 by lia.
  rewrite bits_of_app. f_equal.
  - apply bits_of_ext. intros i Hi. rewrite Z.shiftr_spec, Z.land_ones, Z.mod_pow2_bits_low by lia.
    rewrite !to_int32_bits, Z.shiftl_spec, to_int32_bits by lia. f_equal. lia.
  - apply bits_of_zero_iff. intros i Hi. rewrite Z.land_ones, Z.mod_pow2_bits_low by lia.
    rewrite !to_int32_bits, Z.shiftl_spec_low by lia. done.
Qed.

Lemma convertbits_pad data :
  Forall (ubits (Z.of_nat f)) data ->
  exists ret k, SegwitAddr.convertbits data (Z.of_nat f) (Z.of_nat t) true = Some ret /\
    Forall (ubits (Z.of_nat t)) ret /\ (k < t)%nat /\ stream t ret = stream f data ++ replicate k false.
Proof.
  intros Hd. unfold SegwitAddr.convertbits. fold maxv_of. cbv zeta.
  destruct (convert_loop_spec data 0 0 Hd) as (ret & acc & b & -> & Hb & Hu & Hs); [lia|].
  cbn [mbind option_bind]. change (bits_of (Z.to_nat 0) 0) with (@nil bool) in Hs. cbn [app] in Hs.
  zcase.
  - destruct (pad_digit acc b Hb) as [Hdu Hdb].
    eexists _, (Z.to_nat (Z.of_nat t - b)). split; [done|]. split; [by apply Forall_app_2; [|constructor]|].
    split; [lia|]. rewrite stream_app, Hs, <- app_assoc. f_equal.
    unfold stream. cbn [map concat]. by rewrite app_nil_r.
  - exists ret, 0%nat. assert (b = 0) as -> by lia. split; [done|]. split; [done|].
    split; [lia|]. rewrite Hs. simpl. by rewrite !app_nil_r.
Qed.

Lemma convertbits_nopad data ret :
  Forall (ubits (Z.of_nat f)) data ->
  SegwitAddr.convertbits data (Z.of_nat f) (Z.of_nat t) false = Some ret <->
  Forall (ubits (Z.of_nat t)) ret /\
  exists k, (k < f)%nat /\ (k < t)%nat /\ stream f data = stream t ret ++ replicate k false.
Proof.
  intros Hd. unfold SegwitAddr.convertbits. fold maxv_of. cbv zeta.
  destruct (convert_loop_spec data 0 0 Hd) as (r & acc & b & -> & Hb & Hu & Hs); [lia|].
  cbn [mbind option_bind]. change (bits_of (Z.to_nat 0) 0) with (@nil bool) in Hs. cbn [app] in Hs.
  destruct (pad_digit acc b Hb) as [Hdu Hdb]. set (d := js_and _ _) in *.
  assert (d = 0 <-> bits_of (Z.to_nat b) acc = replicate (Z.to_nat b) false) as Hd0.
  { assert (bits_of t 0 = replicate t false) as Hz by (apply bits_of_zero_iff; intros; apply Z.bits_0).
    assert (replicate t false = replicate (Z.to_nat b) false ++ replicate (Z.to_nat (Z.of_nat t - b)) false) as Hr
      by (rewrite <- replicate_add; f_equal; lia).
    split.
    - intros E. rewrite E, Hz, Hr in Hdb. by apply app_inv_tail in Hdb.
    - intros E. apply (bits_of_inj t); [done|unfold ubits; split; [lia|apply Z.pow_pos_nonneg; lia]|].
      by rewrite Hdb, E, <- Hr, Hz. }
  split.
  - destruct ((Z.of_nat f <=? b) || negb (d =? 0)) eqn:Eg; [done|]. intros [= <-]. breflect.
    split; [done|]. exists (Z.to_nat b). split; [lia|]. split; [lia|]. by rewrite Hs, (proj1 Hd0).
  - intros (Hr & k & Hkf & Hkt & Hst). rewrite Hs in Hst.
    pose proof (f_equal length Hst) as Hlen.
    rewrite !length_app, !length_stream, length_bits_of, length_replicate in Hlen.
    assert (length r = length ret /\ Z.to_nat b = k) as [Hlr Hk] by nia.
    apply app_inj_1 in Hst as [Hst1 Hst2]; [|rewrite !length_stream; lia].
    apply stream_inj in Hst1; [|lia|done..]. subst r k.
    rewrite (proj2 Hd0) by done. cbn [Z.eqb negb]. zcase; [lia|]. done.
Qed.
End convert.

(** Bytes to 5-bit symbols and back. *)
Lemma convertbits_8_5 data :
  Forall (ubits 8) data ->
  exists ret, SegwitAddr.convertbits data 8 5 true = Some ret /\ Forall (ubits 5) ret /\
    SegwitAddr.convertbits ret 5 8 false = Some data /\
    zlen ret = (8 * zlen data + 4) / 5.
Proof.
  intros Hd. destruct (convertbits_pad 8 5 ltac:(lia) ltac:(lia) data Hd) as (ret & k & Hc & Hu & Hk & Hs).
  exists ret. split; [exact Hc|]. split; [exact Hu|]. split.
  - apply (convertbits_nopad 5 8 ltac:(lia) ltac:(lia) ret data Hu).
    split; [done|]. exists k. split; [done|]. split; [lia|done].
  - apply (f_equal length) in Hs. rewrite length_app, !length_stream, length_replicate in Hs.
    unfold zlen. dlia.
Qed.

Lemma convertbits_5_8 ret data :
  Forall (ubits 5) ret -> SegwitAddr.convertbits ret 5 8 false = Some data ->
  Forall (ubits 8) data /\ SegwitAddr.convertbits data 8 5 true = Some ret.
Proof.
  intros Hr Hc. apply (convertbits_nopad 5 8 ltac:(lia) ltac:(lia) ret data Hr) in Hc as (Hd & k & Hk & _ & Hs).
  split; [done|].
  destruct (convertbits_pad 8 5 ltac:(lia) ltac:(lia) data Hd) as (ret' & k' & Hc' & Hu' & Hk' & Hs').
  change (Z.of_nat 8) with 8 in *. change (Z.of_nat 5) with 5 in *. rewrite Hc'. f_equal.
  apply (stream_inj 5); [lia|done..|]. rewrite Hs', Hs. do 2 f_equal.
  apply (f_equal length) in Hs. apply (f_equal length) in Hs'.
  rewrite length_app, !length_stream, length_replicate in Hs, Hs'. lia.
Qed.

(** ** Witness programs *)

(** The programs BIP 173 admits. *)
Definition program_ok (version : Z) (program : list Z) : bool :=
  (version <=? 16) && (2 <=? zlen program) && (zlen program <=? 40) &&
  (negb (version =? 0) || (zlen program =? 20) || (zlen program =? 32)).

Lemma segwit_decode_of hrp v syms program :
  Forall (ubits 5) (v :: syms) -> valid_hrp hrp ->
  SegwitAddr.convertbits syms 5 8 false = Some program ->
  SegwitAddr.decode hrp (Bech32.encode hrp (v :: syms)) =
  if (zlen hrp + zlen syms + 8 <=? 90) && program_ok v program then Some (v, program) else None.
Proof.
  intros Hs Hh Hc. unfold SegwitAddr.decode.
  assert (zlen (v :: syms) = 1 + zlen syms) as Hl by apply zlen_cons.
  destruct (Z.leb_spec (zlen hrp + zlen syms + 8) 90) as [H90|H90]; cbn [andb].
  - rewrite decode_encode by (done || lia). cbn [mbind option_bind].
    rewrite bool_decide_eq_true_2 by done. cbn [negb]. rewrite Hc. cbn [mbind option_bind].
    unfold program_ok. destruct (Z.ltb_spec 16 v), (Z.leb_spec v 16); try lia; [done|].
    destruct (Z.ltb_spec (zlen program) 2), (Z.leb_spec 2 (zlen program)); try lia; [done|].
    destruct (Z.ltb_spec 40 (zlen program)), (Z.leb_spec (zlen program) 40); try lia; [done|]. cbn [andb orb].
    by destruct (v =? 0), (zlen program =? 20), (zlen program =? 32).
  - assert (Bech32.decode (Bech32.encode hrp (v :: syms)) = None) as ->; [|done].
    destruct (Bech32.decode _) as [[h d]|] eqn:Ed; [|done]. exfalso.
    apply decode_Some in Ed as (Heq & [_ Hlow] & Hd & Hle).
    pose proof (low_hrp h Hlow) as Hch. pose proof (low_hrp hrp (proj2 Hh)) as Hch'.
    apply (f_equal zlen) in Heq. rewrite !encode_chars in Heq by done.
    destruct (createChecksum_ubits h d Hch Hd) as [_ E1].
    destruct (createChecksum_ubits hrp (v :: syms) Hch' Hs) as [_ E2].
    unfold zlen, toLowerCase in *. rewrite !length_map in Heq.
    rewrite !length_app in Heq. cbn [length] in Heq. rewrite !length_map, !length_app, E1, E2 in Heq.
    cbn [length] in *. lia.
Qed.

(** ** Properties *)

(** [Bech32.decode] gives back the parts of every string [Bech32.encode] makes of a
    lower-case human-readable part and 5-bit data, within the limit of 90
    characters. *)
Theorem Bech32_decode_encode (hrp data : list Z) :
  valid_hrp hrp -> Forall (ubits 5) data -> zlen hrp + zlen data + 7 <= 90 ->
  Bech32.decode (Bech32.encode hrp data) = Some (hrp, data).
Proof. apply decode_encode. Qed.

(** C38: what [Bech32.decode] accepts is, up to case, exactly what
    [Bech32.encode] makes of the parts it returns: the encoding is unique and
    no other checksum is accepted. *)
Theorem Bech32_decode_canonical (s hrp data : list Z) :
  Bech32.decode s = Some (hrp, data) ->
  toLowerCase s = Bech32.encode hrp data /\ valid_hrp hrp /\ Forall (ubits 5) data /\
  zlen hrp + zlen data + 7 <= 90.
Proof. apply decode_Some. Qed.

(** [convertbits] from bytes to padded 5-bit symbols and back is the
    identity, although the accumulator overflows its 32 bits. *)
Theorem convertbits_roundtrip (program : list Z) :
  Forall (ubits 8) program ->
  exists syms, SegwitAddr.convertbits program 8 5 true = Some syms /\
    Forall (ubits 5) syms /\ zlen syms = (8 * zlen program + 4) / 5 /\
    SegwitAddr.convertbits syms 5 8 false = Some program /\
    forall p, SegwitAddr.convertbits syms 5 8 false = Some p -> p = program.
Proof.
  intros Hp. destruct (convertbits_8_5 program Hp) as (syms & Hc & Hu & Hb & Hl).
  exists syms. repeat split; [done..|]. intros p E. congruence.
Qed.

(** C39: [SegwitAddr.encode] returns an address exactly for the witness programs
    of BIP 173, and [SegwitAddr.decode] gives the program back. *)
Theorem SegwitAddr_encode_decode (hrp : list Z) (version : Z) (program : list Z) :
  valid_hrp hrp -> zlen hrp <= 18 -> ubits 5 version -> Forall (ubits 8) program ->
  match SegwitAddr.encode hrp version program with
  | Some addr => program_ok version program = true /\
      SegwitAddr.decode hrp addr = Some (version, program)
  | None => program_ok version program = false
  end.
Proof.
  intros Hh Hl Hv Hp. destruct (convertbits_8_5 program Hp) as (syms & Hc & Hu & Hb & Hs).
  unfold SegwitAddr.encode. rewrite Hc. cbv zeta.
  pose proof (segwit_decode_of hrp version syms program (Forall_cons_2 _ _ _ Hv Hu) Hh Hb) as Hd.
  rewrite Hd. destruct (program_ok version program) eqn:Eok.
  - unfold program_ok in Eok. breflect.
    replace (zlen hrp + zlen syms + 8 <=? 90) with true in * by (symmetry; apply Z.leb_le; dlia).
    cbn [andb] in *. split; [done|]. by rewrite Hd, ?Eok.
  - by rewrite andb_false_r.
Qed.

(** An address that [SegwitAddr.decode] accepts is, up to case, the one
    [SegwitAddr.encode] makes of the decoded program. *)
Theorem SegwitAddr_decode_canonical (hrp addr : list Z) (version : Z) (program : list Z) :
  SegwitAddr.decode hrp addr = Some (version, program) ->
  SegwitAddr.encode hrp version program = Some (toLowerCase addr) /\
  program_ok version program = true /\ Forall (ubits 8) program.
Proof.
  unfold SegwitAddr.decode at 1. destruct (Bech32.decode addr) as [[h d]|] eqn:Ed; [|done].
  apply decode_Some in Ed as (Hlow & Hh & Hu & Hle). cbn [mbind option_bind].
  case_bool_decide; [subst h; cbn [negb]|done].
  destruct d as [|v syms]; [done|]. intros Hdec. inversion Hu as [|? ? Hv Hu']; subst.
  assert (exists p, SegwitAddr.convertbits syms 5 8 false = Some p) as [p Hp].
  { destruct (16 <? v); [done|]. destruct (SegwitAddr.convertbits syms 5 8 false); [by eexists|done]. }
  pose proof (segwit_decode_of hrp v syms p Hu Hh Hp) as Hd.
  assert (SegwitAddr.decode hrp (Bech32.encode hrp (v :: syms)) = Some (version, program)) as Hd2.
  { unfold SegwitAddr.decode. rewrite decode_encode by done. cbn [mbind option_bind].
    by rewrite bool_decide_eq_true_2. }
  rewrite Hd in Hd2. destruct (_ && program_ok v p) eqn:Eok; [|done]. injection Hd2 as -> ->.
  apply andb_true_iff in Eok as [_ Eok].
  destruct (convertbits_5_8 syms program Hu' Hp) as [Hp8 Hback].
  split; [|by split]. unfold SegwitAddr.encode. rewrite Hback. cbv zeta. by rewrite Hd, Hlow.
Qed.

(** *** Witnesses *)

Definition bc : list Z := js_str "bc".
Definition short_program : list Z := [0x75; 0x1e].

Lemma bc_valid : valid_hrp bc.
Proof. split; [discriminate|]. repeat constructor; unfold low_char, hrp_char; simpl; lia. Qed.

Lemma Bech32_decode_encode_witness :
  valid_hrp bc /\ Bech32.decode (Bech32.encode bc [0; 14; 20; 15]) = Some (bc, [0; 14; 20; 15]).
Proof.
  split; [exact bc_valid|]. apply (Bech32_decode_encode bc [0; 14; 20; 15]);
    [exact bc_valid|repeat constructor; vm_compute; congruence|vm_compute; discriminate].
Defined.

Lemma Bech32_decode_canonical_witness :
  toLowerCase (js_str "BC1SW50QA3JX3S") = Bech32.encode bc [16; 14; 20; 15; 0].
Proof.
  apply (Bech32_decode_canonical (js_str "BC1SW50QA3JX3S") bc [16; 14; 20; 15; 0]). vm_compute. reflexivity.
Defined.

Lemma convertbits_roundtrip_witness :
  exists syms, SegwitAddr.convertbits short_program 8 5 true = Some syms /\
    SegwitAddr.convertbits syms 5 8 false = Some short_program.
Proof.
  destruct (convertbits_roundtrip short_program) as (syms & E1 & _ & _ & E2 & _).
  - repeat constructor; vm_compute; congruence.
  - exists syms. split; [exact E1|exact E2].
Defined.

Lemma SegwitAddr_encode_decode_witness :
  match SegwitAddr.encode bc 16 short_program with
  | Some addr => program_ok 16 short_program = true /\ SegwitAddr.decode bc addr = Some (16, short_program)
  | None => program_ok 16 short_program = false
  end.
Proof.
  apply (SegwitAddr_encode_decode bc 16 short_program);
    [exact bc_valid|vm_compute; discriminate|vm_compute; split; congruence|].
  repeat constructor; vm_compute; congruence.
Defined.

Lemma SegwitAddr_decode_canonical_witness :
  SegwitAddr.encode bc 16 short_program = Some (toLowerCase (js_str "BC1SW50QA3JX3S")).
Proof.
  apply (SegwitAddr_decode_canonical bc (js_str "BC1SW50QA3JX3S") 16 short_program).
  vm_compute. reflexivity.
Defined.
