(* ===== verification/Bech32Ecc.v ===== *)
(** * Bech32Ecc: locating errors in an address

    The modules of cppForSwig/bech32/ecc/javascript: [Bech32Ecc] is
    bech32_ecc.js and [SegwitAddrEcc] is segwit_addr_ecc.js, which repeat
    [CHARSET], [GENERATOR], [polymod], [hrpExpand] and [convertbits] of the
    reference modules word for word; these are taken from Bech32.v. *)

From Stdlib Require Import String Ascii.
From S2P Require Import Prelude Bech32.

Module Bech32Ecc.

Definition GF1024_EXP : list Z :=
  [1; 303; 635; 446; 997; 640; 121; 142; 959; 420; 350; 438; 166; 39; 543;
   335; 831; 691; 117; 632; 719; 97; 107; 374; 558; 797; 54; 150; 858; 877;
   724; 1013; 294; 23; 354; 61; 164; 633; 992; 538; 469; 659; 174; 868; 184;
   809; 766; 563; 866; 851; 257; 520; 45; 770; 535; 524; 408; 213; 436; 760;
   472; 330; 933; 799; 616; 361; 15; 391; 756; 814; 58; 608; 554; 680; 993;
   821; 942; 813; 843; 484; 193; 935; 321; 919; 572; 741; 423; 559; 562;
   589; 296; 191; 493; 685; 891; 665; 435; 60; 395; 2; 606; 511; 853; 746;
   32; 219; 284; 631; 840; 661; 837; 332; 78; 311; 670; 887; 111; 195; 505;
   190; 194; 214; 709; 380; 819; 69; 261; 957; 1018; 161; 739; 588; 7; 708;
   83; 328; 507; 736; 317; 899; 47; 348; 1000; 345; 882; 245; 367; 996; 943;
   514; 304; 90; 804; 295; 312; 793; 387; 833; 249; 921; 660; 618; 823; 496;
   722; 30; 782; 225; 892; 93; 480; 372; 112; 738; 867; 636; 890; 950; 968;
   386; 622; 642; 551; 369; 234; 846; 382; 365; 442; 592; 343; 986; 122;
   1023; 59; 847; 81; 790; 4; 437; 983; 931; 244; 64; 415; 529; 487; 944;
   35; 938; 664; 156; 583; 53; 999; 222; 390; 987; 341; 388; 389; 170; 721;
   879; 138; 522; 627; 765; 322; 230; 440; 14; 168; 143; 656; 991; 224; 595;
   550; 94; 657; 752; 667; 1005; 451; 734; 744; 638; 292; 585; 157; 872;
   590; 601; 827; 774; 930; 475; 571; 33; 500; 871; 969; 173; 21; 828; 450;
   1009; 147; 960; 705; 201; 228; 998; 497; 1021; 613; 688; 772; 508; 36;
   366; 715; 468; 956; 725; 730; 861; 425; 647; 701; 221; 759; 95; 958; 139;
   805; 8; 835; 679; 614; 449; 128; 791; 299; 974; 617; 70; 628; 57; 273;
   430; 67; 750; 405; 780; 703; 643; 776; 778; 340; 171; 1022; 276; 308;
   495; 243; 644; 460; 857; 28; 336; 286; 41; 695; 448; 431; 364; 149; 43;
   233; 63; 762; 902; 181; 240; 501; 584; 434; 275; 1008; 444; 443; 895;
   812; 612; 927; 383; 66; 961; 1006; 690; 346; 3; 881; 900; 747; 271; 672;
   162; 402; 456; 748; 971; 755; 490; 105; 808; 977; 72; 732; 182; 897; 625;
   163; 189; 947; 850; 46; 115; 403; 231; 151; 629; 278; 874; 16; 934; 110;
   492; 898; 256; 807; 598; 700; 498; 140; 481; 91; 523; 860; 134; 252; 771;
   824; 119; 38; 816; 820; 641; 342; 757; 513; 577; 990; 463; 40; 920; 955;
   17; 649; 533; 82; 103; 896; 862; 728; 259; 86; 466; 87; 253; 556; 323;
   457; 963; 432; 845; 527; 745; 849; 863; 1015; 888; 488; 567; 727; 132;
   674; 764; 109; 669; 6; 1003; 552; 246; 542; 96; 324; 781; 912; 248; 694;
   239; 980; 210; 880; 683; 144; 177; 325; 546; 491; 326; 339; 623; 941; 92;
   207; 783; 462; 263; 483; 517; 1012; 9; 620; 220; 984; 548; 512; 878; 421;
   113; 973; 280; 962; 159; 310; 945; 268; 465; 806; 889; 199; 76; 873; 865;
   34; 645; 227; 290; 418; 693; 926; 80; 569; 639; 11; 50; 291; 141; 206;
   544; 949; 185; 518; 133; 909; 135; 467; 376; 646; 914; 678; 841; 954;
   318; 242; 939; 951; 743; 1017; 976; 359; 167; 264; 100; 241; 218; 51; 12;
   758; 368; 453; 309; 192; 648; 826; 553; 473; 101; 478; 673; 397; 1001;
   118; 265; 331; 650; 356; 982; 652; 655; 510; 634; 145; 414; 830; 924;
   526; 966; 298; 737; 18; 504; 401; 697; 360; 288; 1020; 842; 203; 698;
   537; 676; 279; 581; 619; 536; 907; 876; 1019; 398; 152; 1010; 994; 68;
   42; 454; 580; 836; 99; 565; 137; 379; 503; 22; 77; 582; 282; 412; 352;
   611; 347; 300; 266; 570; 270; 911; 729; 44; 557; 108; 946; 637; 597; 461;
   630; 615; 238; 763; 681; 718; 334; 528; 200; 459; 413; 79; 24; 229; 713;
   906; 579; 384; 48; 893; 370; 923; 202; 917; 98; 794; 754; 197; 530; 662;
   52; 712; 677; 56; 62; 981; 509; 267; 789; 885; 561; 316; 684; 596; 226;
   13; 985; 779; 123; 720; 576; 753; 948; 406; 125; 315; 104; 519; 426; 502;
   313; 566; 1016; 767; 796; 281; 749; 740; 136; 84; 908; 424; 936; 198;
   355; 274; 735; 967; 5; 154; 428; 541; 785; 704; 486; 671; 600; 532; 381;
   540; 574; 187; 88; 378; 216; 621; 499; 419; 922; 485; 494; 476; 255; 114;
   188; 668; 297; 400; 918; 787; 158; 25; 458; 178; 564; 422; 768; 73; 1011;
   717; 575; 404; 547; 196; 829; 237; 394; 301; 37; 65; 176; 106; 89; 85;
   675; 979; 534; 803; 995; 363; 593; 120; 417; 452; 26; 699; 822; 223; 169;
   416; 235; 609; 773; 211; 607; 208; 302; 852; 965; 603; 357; 761; 247;
   817; 539; 250; 232; 272; 129; 568; 848; 624; 396; 710; 525; 183; 686; 10;
   285; 856; 307; 811; 160; 972; 55; 441; 289; 723; 305; 373; 351; 153; 733;
   409; 506; 975; 838; 573; 970; 988; 913; 471; 205; 337; 49; 594; 777; 549;
   815; 277; 27; 916; 333; 353; 844; 800; 146; 751; 186; 375; 769; 358; 392;
   883; 474; 788; 602; 74; 130; 329; 212; 155; 131; 102; 687; 293; 870; 742;
   726; 427; 217; 834; 904; 29; 127; 869; 407; 338; 832; 470; 482; 810; 399;
   439; 393; 604; 929; 682; 447; 714; 251; 455; 875; 319; 477; 464; 521;
   258; 377; 937; 489; 792; 172; 314; 327; 124; 20; 531; 953; 591; 886; 320;
   696; 71; 859; 578; 175; 587; 707; 663; 283; 179; 795; 989; 702; 940; 371;
   692; 689; 555; 903; 410; 651; 75; 429; 818; 362; 894; 515; 31; 545; 666;
   706; 952; 864; 269; 254; 349; 711; 802; 716; 784; 1007; 925; 801; 445;
   148; 260; 658; 385; 287; 262; 204; 126; 586; 1004; 236; 165; 854; 411;
   932; 560; 19; 215; 1002; 775; 653; 928; 901; 964; 884; 798; 839; 786;
   433; 610; 116; 855; 180; 479; 910; 1014; 599; 915; 905; 306; 516; 731;
   626; 978; 825; 344; 605; 654; 209].

Definition GF1024_LOG : list Z :=
  [-1; 0; 99; 363; 198; 726; 462; 132; 297; 495; 825; 528; 561; 693; 231;
   66; 396; 429; 594; 990; 924; 264; 627; 33; 660; 759; 792; 858; 330; 891;
   165; 957; 104; 259; 518; 208; 280; 776; 416; 13; 426; 333; 618; 339; 641;
   52; 388; 140; 666; 852; 529; 560; 678; 213; 26; 832; 681; 309; 70; 194;
   97; 35; 682; 341; 203; 777; 358; 312; 617; 125; 307; 931; 379; 765; 875;
   951; 515; 628; 112; 659; 525; 196; 432; 134; 717; 781; 438; 440; 740;
   780; 151; 408; 487; 169; 239; 293; 467; 21; 672; 622; 557; 571; 881; 433;
   704; 376; 779; 22; 643; 460; 398; 116; 172; 503; 751; 389; 1004; 18; 576;
   415; 789; 6; 192; 696; 923; 702; 981; 892; 302; 816; 876; 880; 457; 537;
   411; 539; 716; 624; 224; 295; 406; 531; 7; 233; 478; 586; 864; 268; 974;
   338; 27; 392; 614; 839; 727; 879; 211; 250; 758; 507; 830; 129; 369; 384;
   36; 985; 12; 555; 232; 796; 221; 321; 920; 263; 42; 934; 778; 479; 761;
   939; 1006; 344; 381; 823; 44; 535; 866; 739; 752; 385; 119; 91; 566; 80;
   120; 117; 771; 675; 721; 514; 656; 271; 670; 602; 980; 850; 532; 488;
   803; 1022; 475; 801; 878; 57; 121; 991; 742; 888; 559; 105; 497; 291;
   215; 795; 236; 167; 692; 520; 272; 661; 229; 391; 814; 340; 184; 798;
   984; 773; 650; 473; 345; 558; 548; 326; 202; 145; 465; 810; 471; 158;
   813; 908; 412; 441; 964; 750; 401; 50; 915; 437; 975; 126; 979; 491; 556;
   577; 636; 685; 510; 963; 638; 367; 815; 310; 723; 349; 323; 857; 394;
   606; 505; 713; 630; 938; 106; 826; 332; 978; 599; 834; 521; 530; 248;
   883; 32; 153; 90; 754; 592; 304; 635; 775; 804; 1; 150; 836; 1013; 828;
   324; 565; 508; 113; 154; 708; 921; 703; 689; 138; 547; 911; 929; 82; 228;
   443; 468; 480; 483; 922; 135; 877; 61; 578; 111; 860; 654; 15; 331; 851;
   895; 484; 320; 218; 420; 190; 1019; 143; 362; 634; 141; 965; 10; 838;
   632; 861; 34; 722; 580; 808; 869; 554; 598; 65; 954; 787; 337; 187; 281;
   146; 563; 183; 668; 944; 171; 837; 23; 867; 541; 916; 741; 625; 123; 736;
   186; 357; 665; 977; 179; 156; 219; 220; 216; 67; 870; 902; 774; 98; 820;
   574; 613; 900; 755; 596; 370; 390; 769; 314; 701; 894; 56; 841; 949; 987;
   631; 658; 587; 204; 797; 790; 522; 745; 9; 502; 763; 86; 719; 288; 706;
   887; 728; 952; 311; 336; 446; 1002; 348; 96; 58; 199; 11; 901; 230; 833;
   188; 352; 351; 973; 3; 906; 335; 301; 266; 244; 791; 564; 619; 909; 371;
   444; 760; 657; 328; 647; 490; 425; 913; 511; 439; 540; 283; 40; 897; 849;
   60; 570; 872; 257; 749; 912; 572; 1007; 170; 407; 898; 492; 79; 747; 732;
   206; 454; 918; 375; 482; 399; 92; 748; 325; 163; 274; 405; 744; 260; 346;
   707; 626; 595; 118; 842; 136; 279; 684; 584; 101; 500; 422; 149; 956;
   1014; 493; 536; 705; 51; 914; 225; 409; 55; 822; 590; 448; 655; 205; 676;
   925; 735; 431; 784; 54; 609; 604; 39; 812; 737; 729; 466; 14; 533; 958;
   481; 770; 499; 855; 238; 182; 464; 569; 72; 947; 442; 642; 24; 87; 989;
   688; 88; 47; 762; 623; 709; 455; 817; 526; 637; 258; 84; 845; 738; 768;
   698; 423; 933; 664; 620; 607; 629; 212; 347; 249; 982; 935; 131; 89; 252;
   927; 189; 788; 853; 237; 691; 646; 403; 1010; 734; 253; 874; 807; 903;
   1020; 100; 802; 71; 799; 1003; 633; 355; 276; 300; 649; 64; 306; 161;
   608; 496; 743; 180; 485; 819; 383; 1016; 226; 308; 393; 648; 107; 19; 37;
   585; 2; 175; 645; 247; 527; 5; 419; 181; 317; 327; 519; 542; 289; 567;
   430; 579; 950; 582; 994; 1021; 583; 234; 240; 976; 41; 160; 109; 677;
   937; 210; 95; 959; 242; 753; 461; 114; 733; 368; 573; 458; 782; 605; 680;
   544; 299; 73; 652; 905; 477; 690; 93; 824; 882; 277; 946; 361; 17; 945;
   523; 472; 334; 930; 597; 603; 793; 404; 290; 942; 316; 731; 270; 960;
   936; 133; 122; 821; 966; 679; 662; 907; 282; 968; 767; 653; 20; 697; 222;
   164; 835; 30; 285; 886; 456; 436; 640; 286; 1015; 380; 840; 245; 724;
   137; 593; 173; 130; 715; 85; 885; 551; 246; 449; 103; 366; 372; 714; 313;
   865; 241; 699; 674; 374; 68; 421; 562; 292; 59; 809; 342; 651; 459; 227;
   46; 711; 764; 868; 53; 413; 278; 800; 255; 993; 318; 854; 319; 695; 315;
   469; 166; 489; 969; 730; 1001; 757; 873; 686; 197; 303; 919; 155; 673;
   940; 712; 25; 999; 63; 863; 972; 967; 785; 152; 296; 512; 402; 377; 45;
   899; 829; 354; 77; 69; 856; 417; 811; 953; 124; 418; 75; 794; 162; 414;
   1018; 568; 254; 265; 772; 588; 16; 896; 157; 889; 298; 621; 110; 844;
   1000; 108; 545; 601; 78; 862; 447; 185; 195; 818; 450; 387; 49; 805; 102;
   986; 1005; 827; 329; 28; 932; 410; 287; 435; 451; 962; 517; 48; 174; 43;
   893; 884; 261; 251; 516; 395; 910; 611; 29; 501; 223; 476; 364; 144; 871;
   998; 687; 928; 115; 453; 513; 176; 94; 168; 667; 955; 353; 434; 382; 400;
   139; 365; 996; 343; 948; 890; 1012; 663; 610; 718; 538; 1008; 639; 470;
   848; 543; 1011; 859; 671; 756; 83; 427; 159; 746; 669; 589; 971; 524;
   356; 995; 904; 256; 201; 988; 62; 397; 81; 720; 917; 209; 549; 943; 486;
   76; 148; 207; 509; 644; 386; 700; 534; 177; 550; 961; 926; 546; 428; 284;
   127; 294; 8; 269; 359; 506; 445; 997; 806; 591; 725; 178; 262; 846; 373;
   831; 504; 305; 843; 553; 378; 1017; 783; 474; 683; 581; 200; 498; 694;
   191; 217; 847; 941; 424; 235; 38; 74; 616; 786; 147; 4; 273; 214; 142;
   575; 992; 463; 983; 243; 360; 970; 350; 267; 615; 766; 494; 31; 1009;
   452; 710; 552; 128; 612; 600; 275; 322; 193].

Definition syndrome_terms : list (Z * Z) :=
  [(5, 0x31edd3c4); (6, 0x335f86a8); (7, 0x363b8870); (8, 0x3e6390c9); (9, 0x2ec72192);
   (10, 0x1046f79d); (11, 0x208d4e33); (12, 0x130ebd6f); (13, 0x2499fade); (14,
   0x1b27d4b5); (15, 0x04be1eb4); (16, 0x0968b861); (17, 0x1055f0c2); (18, 0x20ab4584);
   (19, 0x1342af08); (20, 0x24f1f318); (21, 0x1be34739); (22, 0x35562f7b); (23,
   0x3a3c5bff); (24, 0x266c96f7); (25, 0x25c78b65); (26, 0x1b1f13ea); (27, 0x34baa2f4);
   (28, 0x3b61c0e1); (29, 0x265325c2)].

Definition syndrome (residue : Z) : Z :=
  let low := js_and residue 0x1f in
  foldl (fun acc '(i, c) => js_xor acc (if js_and (js_shr residue i) 1 =? 0 then 0 else c))
    (js_xor (js_xor low (js_shl low 10)) (js_shl low 20)) syndrome_terms.

(** [if (l_e % 33) continue;] and the other tests of the loop body for one
    [p1]: [Some None] is [continue], [None] an access outside a table. *)
Definition locate_pair (s0 s1 s2 l_s0 l_s1 length p1 : Z) : option (option (list Z)) :=
  e ← (if s1 =? 0 then Some 0 else znth GF1024_EXP (Z.rem (l_s1 + p1) 1023));
  let s2_s1p1 := js_xor s2 e in
  if s2_s1p1 =? 0 then Some None else
  e ← (if s0 =? 0 then Some 0 else znth GF1024_EXP (Z.rem (l_s0 + p1) 1023));
  let s1_s0p1 := js_xor s1 e in
  if s1_s0p1 =? 0 then Some None else
  l_s1_s0p1 ← znth GF1024_LOG s1_s0p1;
  l ← znth GF1024_LOG s2_s1p1;
  let p2 := Z.rem (l - l_s1_s0p1 + 1023) 1023 in
  if (length <=? p2) || (p1 =? p2) then Some None else
  e ← (if s0 =? 0 then Some 0 else znth GF1024_EXP (Z.rem (l_s0 + p2) 1023));
  let s1_s0p2 := js_xor s1 e in
  if s1_s0p2 =? 0 then Some None else
  e1 ← znth GF1024_EXP p1;
  e2 ← znth GF1024_EXP p2;
  l ← znth GF1024_LOG (js_xor e1 e2);
  let inv_p1_p2 := 1023 - l in
  let l_e2 := l_s1_s0p1 + inv_p1_p2 + (1023 - 997) * p2 in
  if negb (Z.rem l_e2 33 =? 0) then Some None else
  l ← znth GF1024_LOG s1_s0p2;
  let l_e1 := l + inv_p1_p2 + (1023 - 997) * p1 in
  if negb (Z.rem l_e1 33 =? 0) then Some None
  else if p1 <? p2 then Some (Some [p1; p2]) else Some (Some [p2; p1]).

Fixpoint locate_loop (s0 s1 s2 l_s0 l_s1 length : Z) (n : nat) (p1 : Z) : option (list Z) :=
  match n with
  | O => Some []
  | S n =>
      r ← locate_pair s0 s1 s2 l_s0 l_s1 length p1;
      match r with
      | Some pos => Some pos
      | None => locate_loop s0 s1 s2 l_s0 l_s1 length n (p1 + 1)
      end
  end.

Definition locate_errors (residue length : Z) : option (list Z) :=
  if residue =? 0 then Some []
  else
    let syn := syndrome residue in
    let s0 := js_and syn 0x3FF in
    let s1 := js_and (js_shr syn 10) 0x3FF in
    let s2 := js_shr syn 20 in
    l_s0 ← znth GF1024_LOG s0;
    l_s1 ← znth GF1024_LOG s1;
    l_s2 ← znth GF1024_LOG s2;
    if negb (l_s0 =? -1) && negb (l_s1 =? -1) && negb (l_s2 =? -1) &&
       (Z.rem (2 * l_s1 - l_s2 - l_s0 + 2046) 1023 =? 0)
    then
      let p1 := Z.rem (l_s1 - l_s0 + 1023) 1023 in
      if length <=? p1 then Some []
      else
        let l_e1 := l_s0 + (1023 - 997) * p1 in
        if negb (Z.rem l_e1 33 =? 0) then Some [] else Some [p1]
    else locate_loop s0 s1 s2 l_s0 l_s1 length (Z.to_nat length) 0.

(** [range(from, to)]. *)
Definition range (from to : Z) : list Z := map (fun i => from + Z.of_nat i) (seq 0 (Z.to_nat (to - from))).

(** The results of [check]; [pos] is [None] for a null position. *)
Inductive check_error : Set :=
  | TooLong | InvalidCharacter | MixedCase | MissingSeparator | SeparatorPosition
  | UnknownHrp | Invalid.

Inductive check_result : Set :=
  | CheckError (error : check_error) (pos : option (list Z))
  | CheckOk (hrp data : list Z).

(** The first loop of [check], from position [p]; [inr] is an early return. *)
Fixpoint scan_case (s : list Z) (p : Z) (has_lower has_upper : bool)
    : bool * bool + check_result :=
  match s with
  | [] => inl (has_lower, has_upper)
  | c :: s =>
      if (c <? 33) || (126 <? c) then inr (CheckError InvalidCharacter (Some [p]))
      else
        let islow := (97 <=? c) && (c <=? 122) in
        let isup := (65 <=? c) && (c <=? 90) in
        if islow && has_upper then inr (CheckError MixedCase (Some [p]))
        else
          let has_lower := has_lower || islow in
          if isup && has_lower then inr (CheckError MixedCase (Some [p]))
          else scan_case s (p + 1) has_lower (has_upper || isup)
  end.

(** The second loop, from position [p]. *)
Fixpoint check_data (s : list Z) (p : Z) : list Z + check_result :=
  match s with
  | [] => inl []
  | c :: s =>
      let d := indexOf CHARSET c in
      if d =? -1 then inr (CheckError InvalidCharacter (Some [p]))
      else match check_data s (p + 1) with
           | inl ds => inl (d :: ds)
           | inr r => inr r
           end
  end.

(** [check(bechString, validHrp)] with an array of prefixes; [None] stands for
    an access outside a table in [locate_errors]. *)
Definition check (bechString : list Z) (validHrp : list (list Z)) : option check_result :=
  if 90 <? zlen bechString then
    Some (CheckError TooLong (Some (range 90 (zlen bechString))))
  else
  match scan_case bechString 0 false false with
  | inr r => Some r
  | inl _ =>
      let bechString := toLowerCase bechString in
      let pos := lastIndexOf bechString 49 in
      if pos =? -1 then Some (CheckError MissingSeparator None)
      else if (pos <? 1) || (zlen bechString <? pos + 7) then
        Some (CheckError SeparatorPosition (Some [pos]))
      else
        let hrp := zslice bechString 0 pos in
        match check_data (drop (Z.to_nat (pos + 1)) bechString) (pos + 1) with
        | inr r => Some r
        | inl data =>
            if bool_decide (hrp ∉ validHrp) then
              Some (CheckError UnknownHrp (Some (range 0 (zlen hrp))))
            else
              let residue := js_xor (Bech32.polymod (Bech32.hrpExpand hrp ++ data)) 1 in
              if negb (residue =? 0) then
                epos ← locate_errors residue (zlen bechString - 1);
                if bool_decide (epos = []) then Some (CheckError Invalid None)
                else
                  Some (CheckError Invalid (Some (map (fun e =>
                    zlen bechString - e - (if zlen data <=? e then 2 else 1)) epos)))
              else Some (CheckOk hrp (zslice data 0 (zlen data - 6)))
        end
  end.
End Bech32Ecc.

Module SegwitAddrEcc.
Import Bech32Ecc.

Inductive addr_error : Set :=
  | TooShort | AddrTooLong | InvalidLength | Bech32Error (e : check_error)
  | PaddingError | ProgramLength | WitnessVersion | ProgramLengthV0.

Inductive addr_result : Set :=
  | AddrError (error : addr_error) (pos : option (list Z))
  | AddrOk (version : Z) (program : list Z).

Definition check (addr : list Z) (validHrp : list (list Z)) : option addr_result :=
  let len := zlen addr in
  if len <? 14 then Some (AddrError TooShort None)
  else if 74 <? len then Some (AddrError AddrTooLong None)
  else if (Z.rem len 8 =? 0) || (Z.rem len 8 =? 3) || (Z.rem len 8 =? 5) then
    Some (AddrError InvalidLength None)
  else
    dec ← Bech32Ecc.check addr validHrp;
    match dec with
    | CheckError e pos => Some (AddrError (Bech32Error e) pos)
    | CheckOk dec_hrp dec_data =>
        match SegwitAddr.convertbits (drop 1 dec_data) 5 8 false with
        | None => Some (AddrError PaddingError (Some [len - 6]))
        | Some res =>
            if (zlen res <? 2) || (40 <? zlen res) then Some (AddrError ProgramLength None)
            else
              (* [dec.data[0]]: a result of two bytes has a first symbol before it *)
              version ← znth dec_data 0;
              if 16 <? version then Some (AddrError WitnessVersion (Some [zlen dec_hrp + 1]))
              else if (version =? 0) && negb (zlen res =? 20) && negb (zlen res =? 32) then
                Some (AddrError ProgramLengthV0 None)
              else Some (AddrOk version res)
        end
    end.
End SegwitAddrEcc.

(** ** The logarithm tables *)

Lemma znth_Forall {A} (P : A -> Prop) (l : list A) i :
  Forall P l -> 0 <= i < zlen l -> exists x, znth l i = Some x /\ P x.
Proof.
  intros HP Hi. destruct (znth_is_Some l i Hi) as [x Hx]. exists x. split; [done|].
  unfold znth in Hx. case_decide; [|done]. by eapply Forall_lookup_1.
Qed.

Lemma GF1024_EXP_range : zlen Bech32Ecc.GF1024_EXP = 1023 /\
  Forall (fun x => ubits 10 x /\ x <> 0) Bech32Ecc.GF1024_EXP.
Proof.
  split; [vm_compute; reflexivity|].
  assert (forallb (fun x => (1 <=? x) && (x <? 1024)) Bech32Ecc.GF1024_EXP = true) as Hb by (vm_compute; reflexivity).
  rewrite forallb_forall in Hb. apply Forall_forall. intros x Hx. apply list_elem_of_In, Hb in Hx.
  breflect. unfold ubits. change (2 ^ 10) with 1024. lia.
Qed.

Lemma GF1024_LOG_range i : ubits 10 i ->
  exists l, znth Bech32Ecc.GF1024_LOG i = Some l /\ -1 <= l < 1023 /\ (l = -1 <-> i = 0).
Proof.
  intros Hi. unfold ubits in Hi. change (2 ^ 10) with 1024 in Hi.
  assert (exists tl, Bech32Ecc.GF1024_LOG = -1 :: tl /\ zlen tl = 1023 /\
    Forall (fun l => 0 <= l < 1023) tl) as (tl & -> & Hlen & Htl).
  { eexists. split; [reflexivity|]. split; [vm_compute; reflexivity|].
    apply Forall_forall. intros x Hx%list_elem_of_In.
    match type of Hx with In x ?tl => assert (forallb (fun x => (0 <=? x) && (x <? 1023)) tl = true) as Hb
      by (vm_compute; reflexivity) end.
    rewrite forallb_forall in Hb. apply Hb in Hx. breflect. lia. }
  destruct (decide (i = 0)) as [->|Hne]; [by exists (-1)|].
  rewrite znth_cons_pos by lia.
  destruct (znth_Forall _ tl (i - 1) Htl) as (l & -> & Hl); [lia|]. exists l. split; [done|]. lia.
Qed.

Lemma Z_rem_range a b : 0 <= a -> 0 < b -> 0 <= Z.rem a b < b.
Proof. intros. apply Z.rem_bound_pos; lia. Qed.

#[local] Opaque Bech32Ecc.GF1024_EXP Bech32Ecc.GF1024_LOG CHARSET.

Lemma EXP_at a : 0 <= a ->
  exists x, znth Bech32Ecc.GF1024_EXP (Z.rem a 1023) = Some x /\ ubits 10 x /\ x <> 0.
Proof.
  intros Ha. destruct GF1024_EXP_range as [Hl Hx]. apply (znth_Forall _ _ _ Hx).
  rewrite Hl. by apply Z_rem_range.
Qed.

(** The term [s == 0 ? 0 : GF1024_EXP[(l_s + p) % 1023]]. *)
Lemma EXP_term s l p : ubits 10 s -> znth Bech32Ecc.GF1024_LOG s = Some l -> 0 <= p ->
  exists e, (if s =? 0 then Some 0 else znth Bech32Ecc.GF1024_EXP (Z.rem (l + p) 1023)) = Some e /\ ubits 10 e.
Proof.
  intros Hs Hl Hp. destruct (GF1024_LOG_range s Hs) as (l' & Hl' & Hr & Hz).
  rewrite Hl in Hl'. injection Hl' as <-. zcase; [exists 0; split; [done|unfold ubits; lia]|].
  destruct (EXP_at (l + p)) as (e & -> & He & _); [lia|]. by exists e.
Qed.

Lemma ubits_js_xor10 a b : ubits 10 a -> ubits 10 b -> ubits 10 (js_xor a b).
Proof. intros. rewrite (js_xor_small 10) by (done || lia). by apply ubits_lxor. Qed.

Lemma locate_pair_total s0 s1 s2 l0 l1 len p1 :
  ubits 10 s0 -> ubits 10 s1 -> ubits 10 s2 ->
  znth Bech32Ecc.GF1024_LOG s0 = Some l0 -> znth Bech32Ecc.GF1024_LOG s1 = Some l1 ->
  0 <= p1 < len -> len <= 1023 ->
  is_Some (Bech32Ecc.locate_pair s0 s1 s2 l0 l1 len p1).
Proof.
  intros H0 H1 H2 Hl0 Hl1 Hp Hlen. unfold Bech32Ecc.locate_pair.
  destruct (EXP_term s1 l1 p1) as (e1 & -> & He1); [done..|lia|]. cbn [mbind option_bind]. cbv zeta.
  pose proof (ubits_js_xor10 s2 e1 H2 He1) as Hx1.
  destruct (js_xor s2 e1 =? 0) eqn:Ez1; [by eexists|]. breflect.
  destruct (EXP_term s0 l0 p1) as (e2 & -> & He2); [done..|lia|]. cbn [mbind option_bind].
  pose proof (ubits_js_xor10 s1 e2 H1 He2) as Hx2.
  destruct (js_xor s1 e2 =? 0) eqn:Ez2; [by eexists|]. breflect.
  destruct (GF1024_LOG_range _ Hx2) as (la & -> & Hla & Hza). cbn [mbind option_bind].
  destruct (GF1024_LOG_range _ Hx1) as (lb & -> & Hlb & Hzb). cbn [mbind option_bind].
  set (p2 := Z.rem (lb - la + 1023) 1023). assert (0 <= p2 < 1023) by (apply Z_rem_range; lia).
  destruct ((len <=? p2) || (p1 =? p2)); [by eexists|].
  destruct (EXP_term s0 l0 p2) as (e3 & -> & He3); [done..|lia|]. cbn [mbind option_bind].
  pose proof (ubits_js_xor10 s1 e3 H1 He3) as Hx3.
  destruct (js_xor s1 e3 =? 0) eqn:Ez3; [by eexists|]. breflect.
  destruct (EXP_at p1) as (f1 & Hf1 & Hu1 & _); [lia|]. rewrite Z.rem_small in Hf1 by lia.
  destruct (EXP_at p2) as (f2 & Hf2 & Hu2 & _); [lia|]. rewrite Z.rem_small in Hf2 by lia.
  rewrite Hf1, Hf2. cbn [mbind option_bind].
  destruct (GF1024_LOG_range _ (ubits_js_xor10 f1 f2 Hu1 Hu2)) as (lc & -> & _ & _). cbn [mbind option_bind].
  destruct (negb _); [by eexists|].
  destruct (GF1024_LOG_range _ Hx3) as (ld & -> & _ & _). cbn [mbind option_bind].
  destruct (negb _); [by eexists|]. destruct (p1 <? p2); by eexists.
Qed.

Lemma ubits_syndrome r : ubits 30 r -> ubits 30 (Bech32Ecc.syndrome r).
Proof.
  intros Hr. unfold Bech32Ecc.syndrome. cbv zeta.
  assert (ubits 5 0x1f) as H1f by (unfold ubits; lia).
  rewrite (js_and_small 30) by (done || (unfold ubits; lia)).
  assert (ubits 5 (Z.land r 0x1f)) as Hlow by (by apply ubits_land_r; [lia|]).
  set (low := Z.land r 0x1f) in *.
  assert (forall k, 0 <= k <= 20 -> ubits 30 (js_shl low k)) as Hshl.
  { intros k Hk. unfold js_shl. rewrite (ubits_int32 5 low) by (done || lia). rewrite Z.mod_small by lia.
    assert (ubits 30 (Z.shiftl low k)) as Hs.
    { unfold ubits in *. rewrite Z.shiftl_mul_pow2 by lia. assert (2 ^ k <= 2 ^ 20) by (apply Z.pow_le_mono_r; lia).
      assert (0 < 2 ^ k) by (apply Z.pow_pos_nonneg; lia).
      change (2 ^ 5) with 32 in *. change (2 ^ 20) with 1048576 in *. change (2 ^ 30) with 1073741824. nia. }
    by rewrite (ubits_int32 30). }
  assert (Forall (fun ic => ubits 30 ic.2) Bech32Ecc.syndrome_terms) as Hterms
    by (repeat constructor; vm_compute; congruence).
  assert (ubits 30 (js_xor (js_xor low (js_shl low 10)) (js_shl low 20))) as Hx.
  { pose proof (Hshl 10 ltac:(lia)). pose proof (Hshl 20 ltac:(lia)).
    assert (ubits 30 low) by (by apply (ubits_weaken 5)).
    assert (ubits 30 (js_xor low (js_shl low 10))) by (rewrite (js_xor_small 30) by (done || lia); by apply ubits_lxor).
    rewrite (js_xor_small 30) by (done || lia). by apply ubits_lxor. }
  revert Hx. generalize (js_xor (js_xor low (js_shl low 10)) (js_shl low 20)).
  induction Hterms as [|[i c] l Hc _ IH]; intros a Ha; cbn [foldl]; [done|]. apply IH.
  assert (ubits 30 (if js_and (js_shr r i) 1 =? 0 then 0 else c)) by (destruct (_ =? _); [unfold ubits; lia|done]).
  rewrite (js_xor_small 30) by (done || lia). by apply ubits_lxor.
Qed.

(** The three 10-bit syndromes. *)
Lemma syndrome_parts r : ubits 30 r ->
  let syn := Bech32Ecc.syndrome r in
  ubits 10 (js_and syn 0x3FF) /\ ubits 10 (js_and (js_shr syn 10) 0x3FF) /\ ubits 10 (js_shr syn 20).
Proof.
  intros Hr syn. pose proof (ubits_syndrome r Hr : ubits 30 syn) as Hs.
  assert (ubits 10 0x3FF) as H3 by (unfold ubits; lia).
  rewrite !(js_shr_small 30) by (done || lia).
  rewrite !(js_and_small 30) by (lia || done || (by apply ubits_shiftr; [lia|]) || (by apply (ubits_weaken 10))).
  split; [by apply ubits_land_r; [lia|]|]. split; [by apply ubits_land_r; [lia|]|].
  unfold ubits in *. rewrite Z.shiftr_div_pow2 by lia. change (2 ^ 30) with (2 ^ 10 * 2 ^ 20) in Hs.
  split; [apply Z.div_pos; lia|]. apply Z.div_lt_upper_bound; lia.
Qed.

Lemma locate_errors_total r len : ubits 30 r -> len <= 1023 -> is_Some (Bech32Ecc.locate_errors r len).
Proof.
  intros Hr Hlen. unfold Bech32Ecc.locate_errors.
  destruct (r =? 0); [by eexists|].
  destruct (syndrome_parts r Hr) as (H0 & H1 & H2).
  set (s0 := js_and _ _) in *. set (s1 := js_and (js_shr _ 10) _) in *. set (s2 := js_shr _ 20) in *.
  destruct (GF1024_LOG_range s0 H0) as (l0 & El0 & _). destruct (GF1024_LOG_range s1 H1) as (l1 & El1 & _).
  destruct (GF1024_LOG_range s2 H2) as (l2 & El2 & _). rewrite El0, El1, El2. cbn [mbind option_bind].
  destruct (_ && (Z.rem _ _ =? 0)).
  { destruct (len <=? _); [by eexists|]. destruct (negb _); by eexists. }
  assert (forall n p, 0 <= p -> p + Z.of_nat n <= len \/ n = 0%nat ->
    is_Some (Bech32Ecc.locate_loop s0 s1 s2 l0 l1 len n p)) as Hloop.
  { induction n as [|n IH]; intros p Hp Hn; cbn [Bech32Ecc.locate_loop]; [by eexists|].
    destruct Hn as [Hn|Hn]; [|done].
    destruct (locate_pair_total s0 s1 s2 l0 l1 len p) as [[pos|] ->]; [done..|lia|done| |];
      cbn [mbind option_bind]; [by eexists|]. apply IH; lia. }
  apply Hloop; lia.
Qed.

(** ** [check] against the reference decoder *)

Lemma scan_case_mixed s l u l' u' :
  Bech32.scan_case s l u = Some (l', u') -> l && u = true -> l' && u' = true.
Proof.
  revert l u. induction s as [|c s IH]; intros l u; cbn [Bech32.scan_case]; [by intros [= <- <-]|].
  destruct (_ || _); [done|]. intros Hs Hlu. apply (IH _ _ Hs).
  apply andb_true_iff in Hlu as [-> ->]. done.
Qed.

Lemma ecc_scan_case s p l u :
  l && u = false ->
  match Bech32Ecc.scan_case s p l u with
  | inl (l', u') => Bech32.scan_case s l u = Some (l', u') /\ l' && u' = false
  | inr r => (exists e pos, r = Bech32Ecc.CheckError e pos) /\
      match Bech32.scan_case s l u with Some (l', u') => l' && u' = true | None => True end
  end.
Proof.
  revert p l u. induction s as [|c s IH]; intros p l u Hlu; cbn [Bech32Ecc.scan_case Bech32.scan_case]; [done|].
  destruct ((c <? 33) || (126 <? c)); [by eauto|]. cbv zeta.
  set (lo := (97 <=? c) && (c <=? 122)). set (up := (65 <=? c) && (c <=? 90)).
  assert (forall l u, l && u = true -> match Bech32.scan_case s l u with
    | Some (l', u') => l' && u' = true | None => True end) as Hmix.
  { intros l1 u1 Hm. destruct (Bech32.scan_case s l1 u1) as [[l' u']|] eqn:E; [|done].
    by eapply scan_case_mixed. }
  destruct (lo && u) eqn:E1.
  { split; [by eauto|]. apply Hmix. apply andb_true_iff in E1 as [-> ->]. by rewrite orb_true_r. }
  destruct (up && (l || lo)) eqn:E2.
  { split; [by eauto|]. apply Hmix. apply andb_true_iff in E2 as [-> ->]. by rewrite orb_true_r. }
  apply IH. by destruct l, u, lo, up.
Qed.

Lemma ecc_check_data s p :
  match Bech32Ecc.check_data s p with
  | inl ds => Bech32.decode_data s = Some ds
  | inr r => (exists e pos, r = Bech32Ecc.CheckError e pos) /\ Bech32.decode_data s = None
  end.
Proof.
  revert p. induction s as [|c s IH]; intros p; cbn [Bech32Ecc.check_data Bech32.decode_data]; [done|].
  cbv zeta. destruct (indexOf CHARSET c =? -1); [by eauto|]. specialize (IH (p + 1)).
  destruct (Bech32Ecc.check_data s (p + 1)) as [ds|r]; [by rewrite IH|].
  destruct IH as [? ->]. done.
Qed.

(** The residue of a string whose characters have passed the tests. *)
Lemma residue_facts hrp data :
  Forall hrp_char hrp -> Forall (ubits 5) data ->
  let r := js_xor (Bech32.polymod (Bech32.hrpExpand hrp ++ data)) 1 in
  ubits 30 r /\ r = Z.lxor (Bech32.polymod (Bech32.hrpExpand hrp ++ data)) 1 /\
  (r =? 0) = Bech32.verifyChecksum hrp data.
Proof.
  intros Hh Hd r. assert (ubits 30 1) as H1 by (unfold ubits; lia).
  pose proof (hrpExpand_ubits hrp Hh) as He.
  assert (ubits 30 (Bech32.polymod (Bech32.hrpExpand hrp ++ data))) as HP.
  { unfold Bech32.polymod. assert (Forall (ubits 5) (Bech32.hrpExpand hrp ++ data)) by (by apply Forall_app_2).
    rewrite polymod_run by done. by apply ubits_chk_run. }
  assert (r = Z.lxor (Bech32.polymod (Bech32.hrpExpand hrp ++ data)) 1) as Hr
    by (unfold r; by rewrite (js_xor_small 30) by (done || lia)).
  rewrite Hr. split; [by apply ubits_lxor|]. split; [done|]. unfold Bech32.verifyChecksum.
  apply Bool.eq_iff_eq_true. rewrite !Z.eqb_eq. split; [apply Z.lxor_eq|].
  intros ->. apply Z.lxor_nilpotent.
Qed.

Lemma check_spec s validHrp :
  exists res, Bech32Ecc.check s validHrp = Some res /\
    match Bech32.decode s with
    | Some (h, d) =>
        if bool_decide (h ∈ validHrp) then res = Bech32Ecc.CheckOk h d
        else exists pos, res = Bech32Ecc.CheckError Bech32Ecc.UnknownHrp pos
    | None => exists e pos, res = Bech32Ecc.CheckError e pos
    end.
Proof.
  unfold Bech32Ecc.check, Bech32.decode.
  pose proof (ecc_scan_case s 0 false false eq_refl) as Hscan.
  assert (zlen (toLowerCase s) = zlen s) as Hlen by (unfold zlen, toLowerCase; by rewrite length_map).
  rewrite Hlen.
  destruct (Z.ltb_spec 90 (zlen s)).
  { eexists. split; [done|]. destruct (Bech32.scan_case s false false) as [[l u]|]; [|by cbn [mbind option_bind]; eauto].
    cbn [mbind option_bind]. destruct (l && u); [by cbn [mbind option_bind]; eauto|]. cbv zeta.
    replace (_ || true) with true by (symmetry; apply orb_true_r). by cbn [mbind option_bind]; eauto. }
  destruct (Bech32Ecc.scan_case s 0 false false) as [[l u]|r].
  2: { destruct Hscan as [Hr Hs]. exists r. split; [done|]. revert Hs.
       destruct (Bech32.scan_case s false false) as [[l u]|]; intros Hs; [|done]. cbn [mbind option_bind]. by rewrite Hs. }
  destruct Hscan as [Hs Hlu]. rewrite Hs. cbn [mbind option_bind]. rewrite Hlu. cbv iota zeta.
  apply scan_case_Some in Hs. set (t := toLowerCase s) in *. rewrite orb_false_r.
  destruct (Z.eqb_spec (lastIndexOf t 49) (-1)) as [Epos|Epos].
  { eexists. split; [done|]. rewrite Epos. simpl. by cbn [mbind option_bind]; eauto. }
  destruct ((lastIndexOf t 49 <? 1) || (zlen s <? lastIndexOf t 49 + 7)) eqn:Eg; [by cbn [mbind option_bind]; eauto|].
  breflect. pose proof (ecc_check_data (drop (Z.to_nat (lastIndexOf t 49 + 1)) t) (lastIndexOf t 49 + 1)) as Hdata.
  destruct (Bech32Ecc.check_data _ _) as [ds|r].
  2: { destruct Hdata as [Hr ->]. by cbn [mbind option_bind]; eauto. }
  rewrite Hdata. cbn [mbind option_bind]. apply decode_data_Some in Hdata as [Hds _].
  set (h := zslice t 0 (lastIndexOf t 49)).
  assert (Forall hrp_char h) as Hh.
  { apply low_hrp. unfold h, zslice. by apply Forall_take, Forall_drop. }
  destruct (residue_facts h ds Hh Hds) as (Hru & _ & Hv). rewrite Hv.
  destruct (bool_decide_reflect (h ∉ validHrp)) as [Hn|Hin].
  { eexists. split; [done|]. destruct (Bech32.verifyChecksum h ds); cbn [negb]; [|by cbn [mbind option_bind]; eauto].
    rewrite bool_decide_eq_false_2 by done. by cbn [mbind option_bind]; eauto. }
  destruct (Bech32.verifyChecksum h ds); cbn [negb].
  { eexists. split; [done|]. rewrite bool_decide_eq_true_2; [done|].
    destruct (decide (h ∈ validHrp)); done. }
  destruct (locate_errors_total _ (zlen s - 1) Hru) as [epos ->]; [lia|]. cbn [mbind option_bind].
  destruct (bool_decide (epos = [])); by cbn [mbind option_bind]; eauto.
Qed.

(** ** One wrong symbol is always found *)

(** The position of the first branch of [locate_errors], if it is taken. *)
Definition locate_single (residue : Z) : option Z :=
  let syn := Bech32Ecc.syndrome residue in
  l_s0 ← znth Bech32Ecc.GF1024_LOG (js_and syn 0x3FF);
  l_s1 ← znth Bech32Ecc.GF1024_LOG (js_and (js_shr syn 10) 0x3FF);
  l_s2 ← znth Bech32Ecc.GF1024_LOG (js_shr syn 20);
  if negb (residue =? 0) && (negb (l_s0 =? -1) && negb (l_s1 =? -1) && negb (l_s2 =? -1) &&
     (Z.rem (2 * l_s1 - l_s2 - l_s0 + 2046) 1023 =? 0))
  then
    let p1 := Z.rem (l_s1 - l_s0 + 1023) 1023 in
    if Z.rem (l_s0 + (1023 - 997) * p1) 33 =? 0 then Some p1 else None
  else None.

Lemma locate_single_sound r p len :
  locate_single r = Some p -> p < len -> Bech32Ecc.locate_errors r len = Some [p].
Proof.
  unfold locate_single, Bech32Ecc.locate_errors. cbv zeta. intros Hs Hlen.
  destruct (znth Bech32Ecc.GF1024_LOG (js_and (Bech32Ecc.syndrome r) 0x3FF)) as [l0|]; [|done].
  destruct (znth Bech32Ecc.GF1024_LOG (js_and (js_shr (Bech32Ecc.syndrome r) 10) 0x3FF)) as [l1|]; [|done].
  destruct (znth Bech32Ecc.GF1024_LOG (js_shr (Bech32Ecc.syndrome r) 20)) as [l2|]; [|done].
  cbn [mbind option_bind] in *.
  destruct (r =? 0); [done|]. cbn [negb andb] in Hs. destruct (_ && (Z.rem _ _ =? 0)); [|done].
  destruct (Z.rem (l0 + _) 33 =? 0) eqn:E33; [|done]. injection Hs as Hp. rewrite Hp in *.
  destruct (Z.leb_spec len p); [lia|done].
Qed.

(** The register after [p] zero values. *)
Fixpoint mulx_pow (p : nat) (e : Z) : Z := match p with O => e | S p => mulx_pow p (mulx e) end.

(** *** Running the search on all errors: the tables as tries, the operators
    without their 32-bit conversions *)

Inductive trie : Set :=
  | TLeaf
  | TNode (v : Z) (l r : trie).

Fixpoint tget (t : trie) (p : positive) : Z :=
  match t with
  | TLeaf => 0
  | TNode v l r => match p with xH => v | xO p => tget l p | xI p => tget r p end
  end.

Fixpoint tset (t : trie) (p : positive) (x : Z) : trie :=
  match p with
  | xH => match t with TLeaf => TNode x TLeaf TLeaf | TNode _ l r => TNode x l r end
  | xO p => match t with TLeaf => TNode 0 (tset TLeaf p x) TLeaf | TNode v l r => TNode v (tset l p x) r end
  | xI p => match t with TLeaf => TNode 0 TLeaf (tset TLeaf p x) | TNode v l r => TNode v l (tset r p x) end
  end.

Fixpoint tbuild (l : list Z) (p : positive) (t : trie) : trie :=
  match l with
  | [] => t
  | x :: l => tbuild l (Pos.succ p) (tset t p x)
  end.

Definition log_trie : trie := Eval vm_compute in tbuild Bech32Ecc.GF1024_LOG 1 TLeaf.

Fixpoint agrees (t : trie) (l : list Z) (p : positive) : bool :=
  match l with
  | [] => true
  | x :: l => (tget t p =? x) && agrees t l (Pos.succ p)
  end.

Definition zget (t : trie) (i : Z) : Z := match i + 1 with Zpos p => tget t p | _ => 0 end.

Lemma agrees_znth t l p i x :
  agrees t l p = true -> znth l i = Some x -> tget t (Z.to_pos (Zpos p + i)) = x.
Proof.
  revert p i. induction l as [|y l IH]; intros p i Ha Hx.
  { apply znth_Some_range in Hx. unfold zlen in Hx. simpl in Hx. lia. }
  pose proof (znth_Some_range _ _ _ Hx) as Hi. cbn [agrees] in Ha. apply andb_true_iff in Ha as [Hy Ha].
  destruct (decide (i = 0)) as [->|Hne].
  - rewrite Z.add_0_r. injection Hx as <-. by breflect.
  - assert (znth l (i - 1) = Some x) as Hx' by (rewrite <- Hx; symmetry; apply znth_cons_pos; lia).
    specialize (IH (Pos.succ p) (i - 1) Ha Hx').
    by replace (Zpos p + i) with (Zpos (Pos.succ p) + (i - 1)) by lia.
Qed.

Lemma zget_log i : ubits 10 i -> znth Bech32Ecc.GF1024_LOG i = Some (zget log_trie i).
Proof.
  intros Hi. destruct (GF1024_LOG_range i Hi) as (l & Hl & _). rewrite Hl. f_equal.
  assert (agrees log_trie Bech32Ecc.GF1024_LOG 1 = true) as Ha by (vm_cast_no_check (eq_refl true)).
  pose proof (agrees_znth _ _ _ _ _ Ha Hl) as Ht. unfold zget.
  unfold ubits in Hi. rewrite Z.add_comm in Ht. by destruct (i + 1) eqn:E; [lia| |lia].
Qed.

Definition syn_fast (r : Z) : Z :=
  let low := Z.land r 31 in
  foldl (fun acc '(i, c) => if Z.testbit r i then Z.lxor acc c else acc)
    (Z.lxor (Z.lxor low (Z.shiftl low 10)) (Z.shiftl low 20)) Bech32Ecc.syndrome_terms.

Lemma ubits_shiftl k n z : 0 <= n -> 0 <= k -> ubits k z -> ubits (k + n) (Z.shiftl z n).
Proof.
  intros Hn Hk [Hz1 Hz2]. unfold ubits. rewrite Z.shiftl_mul_pow2, Z.pow_add_r by lia.
  assert (0 < 2 ^ n) by (apply Z.pow_pos_nonneg; lia). nia.
Qed.

Lemma syndrome_fast r : ubits 30 r -> Bech32Ecc.syndrome r = syn_fast r.
Proof.
  intros Hr. unfold Bech32Ecc.syndrome, syn_fast. cbv zeta.
  rewrite (js_and_small 30) by (done || (unfold ubits; lia)).
  assert (ubits 5 (Z.land r 0x1f)) as Hlow by (by apply ubits_land_r; [lia|unfold ubits; lia]).
  change 31 with 0x1f. set (low := Z.land r 0x1f) in *.
  pose proof (ubits_shiftl 5 10 low ltac:(lia) ltac:(lia) Hlow) as Hs1.
  pose proof (ubits_shiftl 5 20 low ltac:(lia) ltac:(lia) Hlow) as Hs2. simpl (5 + _) in Hs1, Hs2.
  assert (js_shl low 10 = Z.shiftl low 10) as ->
    by (unfold js_shl; rewrite (ubits_int32 5 low) by (done || lia); by apply (ubits_int32 15)).
  assert (js_shl low 20 = Z.shiftl low 20) as ->
    by (unfold js_shl; rewrite (ubits_int32 5 low) by (done || lia); by apply (ubits_int32 25)).
  assert (ubits 30 low /\ ubits 30 (Z.shiftl low 10) /\ ubits 30 (Z.shiftl low 20)) as (U0 & U1 & U2)
    by (split; [by apply (ubits_weaken 5)|split; [by apply (ubits_weaken 15)|by apply (ubits_weaken 25)]]).
  rewrite (js_xor_small 30 low) by (done || lia).
  rewrite (js_xor_small 30) by (done || lia || by apply ubits_lxor).
  assert (Forall (fun ic => 0 <= ic.1 < 32 /\ ubits 30 ic.2) Bech32Ecc.syndrome_terms) as Hterms
    by (repeat constructor; vm_compute; congruence).
  assert (ubits 30 (Z.lxor (Z.lxor low (Z.shiftl low 10)) (Z.shiftl low 20))) as Ha
    by (repeat apply ubits_lxor; done || lia).
  revert Ha. generalize (Z.lxor (Z.lxor low (Z.shiftl low 10)) (Z.shiftl low 20)).
  induction Hterms as [|[i c] l [Hi Hc] _ IH]; intros a Ha; cbn [foldl]; [done|].
  assert (js_and (js_shr r i) 1 = Z.b2z (Z.testbit r i)) as ->.
  { rewrite (js_shr_small 30) by (done || lia).
    rewrite (js_and_small 30); [apply land_1_bit; simpl in Hi; lia|lia| |unfold ubits; lia].
    apply ubits_shiftr; [simpl in Hi; lia|done]. }
  simpl in Hc. destruct (Z.testbit r i); cbn [Z.b2z Z.eqb].
  - rewrite (js_xor_small 30) by (done || lia). apply IH. by apply ubits_lxor.
  - rewrite (js_xor_small 30) by (done || lia || (unfold ubits; lia)). rewrite Z.lxor_0_r. by apply IH.
Qed.

Definition single_fast (r p : Z) : bool :=
  let syn := syn_fast r in
  let l_s0 := zget log_trie (Z.land syn 0x3FF) in
  let l_s1 := zget log_trie (Z.land (Z.shiftr syn 10) 0x3FF) in
  let l_s2 := zget log_trie (Z.shiftr syn 20) in
  negb (r =? 0) && (negb (l_s0 =? -1) && negb (l_s1 =? -1) && negb (l_s2 =? -1) &&
    (Z.rem (2 * l_s1 - l_s2 - l_s0 + 2046) 1023 =? 0)) &&
  (Z.rem (l_s1 - l_s0 + 1023) 1023 =? p) && (Z.rem (l_s0 + 26 * p) 33 =? 0).

Lemma single_fast_sound r p : ubits 30 r -> single_fast r p = true -> locate_single r = Some p.
Proof.
  intros Hr Hf. unfold locate_single. destruct (syndrome_parts r Hr) as (H0 & H1 & H2). cbv zeta in *.
  rewrite !zget_log by done. cbn [mbind option_bind].
  pose proof (ubits_syndrome r Hr) as Hs. rewrite syndrome_fast in * by done.
  assert (ubits 30 0x3FF) by (unfold ubits; lia).
  rewrite !(js_shr_small 30), !(js_and_small 30) by (done || lia || (by apply ubits_shiftr; [lia|])).
  unfold single_fast in Hf. cbv zeta in Hf.
  apply andb_true_iff in Hf as [Hf H33]. apply andb_true_iff in Hf as [Hf Hp]. rewrite Hf. cbv iota.
  breflect. rewrite Hp. change (1023 - 997) with 26. by rewrite H33.
Qed.

Fixpoint singles_fast (n : nat) (p : Z) (rs : list Z) : bool :=
  match n with
  | O => true
  | S n => forallb (fun r => single_fast r p) rs && singles_fast n (p + 1) (map mulx rs)
  end.

Lemma singles_fast_sound n p rs :
  singles_fast n p rs = true -> Forall (ubits 30) rs ->
  forall k r, (k < n)%nat -> r ∈ rs -> locate_single (mulx_pow k r) = Some (p + Z.of_nat k).
Proof.
  revert p rs. induction n as [|n IH]; intros p rs Hb Hrs k r Hk Hr; [lia|].
  cbn [singles_fast] in Hb. apply andb_true_iff in Hb as [Hb Hrec].
  destruct k as [|k].
  - rewrite Z.add_0_r. apply single_fast_sound; [by eapply Forall_forall in Hrs|].
    rewrite forallb_forall in Hb. by apply Hb, list_elem_of_In.
  - cbn [mulx_pow]. replace (p + Z.of_nat (S k)) with (p + 1 + Z.of_nat k) by lia.
    apply (IH _ _ Hrec); [|lia|by apply list_elem_of_fmap_2].
    apply Forall_fmap, Forall_true. intros. apply ubits_mulx.
Qed.

(** Every error value at each of the 89 positions a string can have. *)
Lemma locate_single_all e p :
  ubits 5 e -> e <> 0 -> (p < 89)%nat -> locate_single (mulx_pow p e) = Some (Z.of_nat p).
Proof.
  intros He Hne Hp.
  assert (singles_fast 89 0 (map Z.of_nat (seq 1 31)) = true) as Hall by (vm_cast_no_check (eq_refl true)).
  apply (singles_fast_sound _ _ _ Hall); [|done|].
  - repeat constructor; vm_compute; congruence.
  - unfold ubits in He. change (2 ^ 5) with 32 in He. rewrite <- (Z2Nat.id e) by lia.
    apply list_elem_of_fmap_2, elem_of_seq. lia.
Qed.

Lemma chk_run_zeros n : chk_run 0 (replicate n 0) = 0.
Proof. unfold chk_run. induction n as [|n IH]; [done|]. exact IH. Qed.

Lemma chk_run_pow c p : chk_run c (replicate p 0) = mulx_pow p c.
Proof.
  unfold chk_run. revert c. induction p as [|p IH]; intros c; [done|].
  cbn [replicate foldl mulx_pow]. by rewrite Z.lxor_0_r, IH.
Qed.

Lemma zip_lxor_zero_r ds : zip_with Z.lxor ds (replicate (length ds) 0) = ds.
Proof. induction ds as [|d ds IH]; simpl; [done|]. by rewrite Z.lxor_0_r, IH. Qed.

(** The residue of a valid string with one symbol replaced. *)
Lemma polymod_replace hrp d1 d d2 d' :
  Forall hrp_char hrp -> Forall (ubits 5) (d1 ++ d :: d2) -> ubits 5 d' ->
  Bech32.polymod (Bech32.hrpExpand hrp ++ d1 ++ d' :: d2) =
  Z.lxor (Bech32.polymod (Bech32.hrpExpand hrp ++ d1 ++ d :: d2)) (mulx_pow (length d2) (Z.lxor d d')).
Proof.
  intros Hh Hd Hd'. pose proof Hd as [H1 H2]%Forall_app. inversion H2 as [|? ? Hx H2']; subst.
  set (es := replicate (length d1) 0 ++ Z.lxor d d' :: replicate (length d2) 0).
  assert (ubits 5 0) by (unfold ubits; lia).
  assert (Forall (ubits 5) es) as He.
  { apply Forall_app_2; [by apply Forall_replicate|]. constructor; [by apply ubits_lxor|by apply Forall_replicate]. }
  assert (length (d1 ++ d :: d2) = length es) as Hl by (unfold es; rewrite !length_app; simpl; by rewrite !length_replicate).
  pose proof (polymod_app_xor hrp [] es (d1 ++ d :: d2) Hh (Forall_nil_2 _) Hd He Hl) as Hp.
  rewrite !app_nil_r in Hp.
  assert (zip_with Z.lxor (d1 ++ d :: d2) es = d1 ++ d' :: d2) as Hz.
  { unfold es. rewrite zip_with_app by (by rewrite length_replicate). cbn [zip_with].
    rewrite !zip_lxor_zero_r, <- Z.lxor_assoc, Z.lxor_nilpotent, Z.lxor_0_l. done. }
  rewrite Hz in Hp. rewrite Hp. f_equal. unfold es.
  rewrite chk_run_app, chk_run_zeros. unfold chk_run. cbn [foldl]. fold (chk_run (Z.lxor (mulx 0) (Z.lxor d d')) (replicate (length d2) 0)).
  rewrite chk_run_pow. change (mulx 0) with 0. by rewrite Z.lxor_0_l.
Qed.

Lemma check_of_split hrp ds validHrp :
  valid_hrp hrp -> hrp ∈ validHrp -> Forall (ubits 5) ds -> 6 <= zlen ds -> zlen hrp + 1 + zlen ds <= 90 ->
  Bech32Ecc.check (hrp ++ 49 :: map sym_char ds) validHrp =
  let residue := js_xor (Bech32.polymod (Bech32.hrpExpand hrp ++ ds)) 1 in
  if negb (residue =? 0) then
    epos ← Bech32Ecc.locate_errors residue (zlen hrp + zlen ds);
    if bool_decide (epos = []) then Some (Bech32Ecc.CheckError Bech32Ecc.Invalid None)
    else Some (Bech32Ecc.CheckError Bech32Ecc.Invalid (Some (map (fun e =>
           zlen hrp + 1 + zlen ds - e - (if zlen ds <=? e then 2 else 1)) epos)))
  else Some (Bech32Ecc.CheckOk hrp (zslice ds 0 (zlen ds - 6))).
Proof.
  intros [Hne Hh] Hin Hd H6 H90. unfold Bech32Ecc.check.
  assert (zlen (hrp ++ 49 :: map sym_char ds) = zlen hrp + 1 + zlen ds) as Hlen
    by (autorewrite with zlen; unfold zlen; rewrite length_map; lia).
  assert (Forall low_char (hrp ++ 49 :: map sym_char ds)) as Hlow.
  { apply Forall_app_2; [done|]. constructor; [unfold low_char, hrp_char; lia|].
    apply Forall_fmap. eapply Forall_impl; [exact Hd|]. intros d Hx.
    destruct (sym_char_facts d Hx) as (_ & _ & _ & ? & ?). by split. }
  rewrite Hlen. destruct (Z.ltb_spec 90 (zlen hrp + 1 + zlen ds)); [lia|].
  pose proof (ecc_scan_case (hrp ++ 49 :: map sym_char ds) 0 false false eq_refl) as Hs.
  destruct (scan_case_low _ false false Hlow) as [lo Elo]. rewrite Elo in Hs.
  destruct (Bech32Ecc.scan_case _ _ _ _) as [[l u]|r].
  2: { destruct Hs as [_ Hs]. by rewrite andb_false_r in Hs. }
  rewrite toLowerCase_low by done. rewrite lastIndexOf_sep.
  2: { apply Forall_fmap. eapply Forall_impl; [exact Hd|]. intros d Hx.
       by destruct (sym_char_facts d Hx) as (_ & _ & ? & _). }
  assert (0 < zlen hrp) by (destruct hrp; [done|]; rewrite zlen_cons; pose proof (zlen_nonneg hrp); lia).
  cbv zeta. rewrite Hlen. zsimp.
  replace (drop (Z.to_nat (zlen hrp + 1)) (hrp ++ 49 :: map sym_char ds)) with (map sym_char ds).
  2: { rewrite cons_middle, app_assoc. unfold zlen.
       replace (Z.to_nat (Z.of_nat (length hrp) + 1)) with (length (hrp ++ [49])) by (rewrite length_app; simpl; lia).
       by rewrite drop_app_length. }
  pose proof (ecc_check_data (map sym_char ds) (zlen hrp + 1)) as Hdata. rewrite decode_data_syms in Hdata by done.
  destruct (Bech32Ecc.check_data _ _) as [ds'|r]; [injection Hdata as <-|by destruct Hdata].
  rewrite zslice_prefix by done. rewrite bool_decide_eq_false_2 by naive_solver.
  by replace (zlen hrp + 1 + zlen ds - 1) with (zlen hrp + zlen ds) by lia.
Qed.

Lemma locate_single_0 : locate_single 0 = None.
Proof. vm_compute. reflexivity. Qed.

Lemma check_one_error hrp d1 d2 d d' validHrp :
  valid_hrp hrp -> hrp ∈ validHrp -> Forall (ubits 5) (d1 ++ d :: d2) -> ubits 5 d' -> d <> d' ->
  Bech32.verifyChecksum hrp (d1 ++ d :: d2) = true ->
  6 <= zlen (d1 ++ d :: d2) -> zlen hrp + 1 + zlen (d1 ++ d :: d2) <= 90 ->
  Bech32Ecc.check (hrp ++ 49 :: map sym_char (d1 ++ d' :: d2)) validHrp =
    Some (Bech32Ecc.CheckError Bech32Ecc.Invalid (Some [zlen hrp + 1 + zlen d1])).
Proof.
  intros Hh Hin Hd Hd' Hne Hok H6 H90. pose proof (low_hrp hrp (proj2 Hh)) as Hc.
  assert (zlen (d1 ++ d' :: d2) = zlen (d1 ++ d :: d2)) as Hl by (by autorewrite with zlen).
  assert (Forall (ubits 5) (d1 ++ d' :: d2)) as Hd2.
  { apply Forall_app in Hd as [? Hd]. inversion Hd; subst. apply Forall_app_2; [done|by constructor]. }
  rewrite check_of_split by (done || lia). destruct (residue_facts hrp _ Hc Hd2) as (_ & Hr2 & _).
  cbv zeta. rewrite Hr2, (polymod_replace hrp d1 d) by done. rewrite Hl.
  unfold Bech32.verifyChecksum in Hok. breflect. rewrite Hok.
  rewrite (Z.lxor_comm 1), Z.lxor_assoc, Z.lxor_nilpotent, Z.lxor_0_r.
  assert (Z.lxor d d' <> 0) as Hx by (intros ?%Z.lxor_eq; done).
  assert (ubits 5 (Z.lxor d d')) as Hu.
  { apply Forall_app in Hd as [_ Hd]. inversion Hd; subst. by apply ubits_lxor. }
  assert (0 < zlen hrp) by (destruct Hh as [? _]; destruct hrp; [done|]; rewrite zlen_cons; pose proof (zlen_nonneg hrp); lia).
  pose proof (zlen_nonneg d1). pose proof (zlen_nonneg d2).
  rewrite zlen_app, zlen_cons in *.
  pose proof (locate_single_all _ (length d2) Hu Hx ltac:(unfold zlen in *; lia)) as Hs.
  rewrite (locate_single_sound _ _ _ Hs) by (unfold zlen in *; lia).
  destruct (Z.eqb_spec (mulx_pow (length d2) (Z.lxor d d')) 0) as [E|_]; [by rewrite E, locate_single_0 in Hs|].
  cbn [negb mbind option_bind]. rewrite bool_decide_eq_false_2 by done. cbn [map].
  change (Z.of_nat (length d2)) with (zlen d2). destruct (Z.leb_spec (zlen d1 + (1 + zlen d2)) (zlen d2)); [lia|].
  do 4 f_equal. lia.
Qed.

(** ** Properties *)

(** C40: [check] always answers (no table is read outside its bounds) and accepts
    exactly the strings the reference decoder accepts whose human-readable
    part is listed, with the same parts. *)
Theorem Bech32Ecc_check_decode (s : list Z) (validHrp : list (list Z)) :
  exists res, Bech32Ecc.check s validHrp = Some res /\
    forall hrp data, res = Bech32Ecc.CheckOk hrp data <->
      Bech32.decode s = Some (hrp, data) /\ hrp ∈ validHrp.
Proof.
  destruct (check_spec s validHrp) as (res & Hc & Hres). exists res. split; [done|].
  intros hrp data. destruct (Bech32.decode s) as [[h d]|].
  - case_bool_decide; [subst res|destruct Hres as [pos ->]]; naive_solver.
  - destruct Hres as (e & pos & ->). naive_solver.
Qed.

(** C37: when one symbol after the separator of an encoded string is replaced by
    another character of the alphabet, [check] rejects the string and reports
    exactly the position of that character. *)
Theorem Bech32Ecc_locates_one_error (hrp data : list Z) (i : nat) (d d' : Z) (validHrp : list (list Z)) :
  valid_hrp hrp -> hrp ∈ validHrp -> Forall (ubits 5) data -> zlen hrp + zlen data + 7 <= 90 ->
  let syms := data ++ Bech32.createChecksum hrp data in
  syms !! i = Some d -> ubits 5 d' -> d <> d' ->
  Bech32Ecc.check (Bech32.encode hrp data) validHrp = Some (Bech32Ecc.CheckOk hrp data) /\
  Bech32Ecc.check (hrp ++ js_str "1" ++ map sym_char (<[i := d']> syms)) validHrp =
    Some (Bech32Ecc.CheckError Bech32Ecc.Invalid (Some [zlen hrp + 1 + Z.of_nat i])).
Proof.
  intros Hh Hin Hd H90 syms Hi Hd' Hne. pose proof (low_hrp hrp (proj2 Hh)) as Hc.
  destruct (createChecksum_ubits hrp data Hc Hd) as [Hcu Hcl].
  assert (Forall (ubits 5) syms) as Hs by (by apply Forall_app_2).
  assert (zlen syms = zlen data + 6) as Hsl by (unfold syms; rewrite zlen_app; unfold zlen; lia).
  pose proof (zlen_nonneg data). split.
  - destruct (check_spec (Bech32.encode hrp data) validHrp) as (res & -> & Hres).
    rewrite decode_encode in Hres by done. rewrite bool_decide_eq_true_2 in Hres by done. by subst.
  - rewrite <- (take_drop_middle syms i d Hi) in Hs.
    rewrite insert_take_drop by (by eapply lookup_lt_Some).
    assert (Z.of_nat i = zlen (take i syms)) as ->.
    { apply lookup_lt_Some in Hi. unfold zlen. rewrite length_take. lia. }
    apply (check_one_error hrp _ _ d d'); try done.
    + rewrite (take_drop_middle syms i d Hi). by apply verifyChecksum_iff.
    + rewrite (take_drop_middle syms i d Hi). lia.
    + rewrite (take_drop_middle syms i d Hi). lia.
Qed.

(** Both sides reject, whatever test they reject by. *)
Ltac reject_cases := cbn [mbind option_bind]; repeat case_match; split; intros ?; try discriminate; congruence.

(** For a two-character human-readable part (["bc"], ["tb"]) the checker
    accepts exactly the addresses the reference decoder accepts: its tests on
    the length of the address reject nothing more. *)
Theorem SegwitAddrEcc_check_decode (addr hrp : list Z) (version : Z) (program : list Z) :
  zlen hrp = 2 ->
  SegwitAddrEcc.check addr [hrp] = Some (SegwitAddrEcc.AddrOk version program) <->
  SegwitAddr.decode hrp addr = Some (version, program).
Proof.
  intros H2. unfold SegwitAddrEcc.check, SegwitAddr.decode.
  destruct (check_spec addr [hrp]) as (res & -> & Hres). cbn [mbind option_bind].
  destruct (Bech32.decode addr) as [[h ds]|] eqn:Ed.
  2: { destruct Hres as (e & pos & ->). cbn [mbind option_bind].
       reject_cases. }
  cbn [mbind option_bind]. destruct (bool_decide_reflect (h ∈ [hrp])) as [Hin|Hn].
  2: { destruct Hres as (pos & ->). rewrite bool_decide_eq_false_2 by set_solver. cbn [negb mbind option_bind].
       reject_cases. }
  apply list_elem_of_singleton in Hin as ->. subst res. rewrite bool_decide_eq_true_2 by done. cbn [negb].
  apply decode_Some in Ed as (Hlow & Hh & Hu & _). pose proof (low_hrp hrp (proj2 Hh)) as Hc.
  destruct (createChecksum_ubits hrp ds Hc Hu) as [_ Hcl].
  assert (zlen addr = zlen ds + 9) as Hlen.
  { apply (f_equal zlen) in Hlow. rewrite encode_chars in Hlow by done. unfold zlen, toLowerCase in *.
    rewrite length_map, length_app in Hlow. cbn [length] in Hlow. rewrite length_map, length_app in Hlow. lia. }
  destruct ds as [|v rest]; cbn [drop].
  { cbn. reject_cases. }
  rewrite zlen_cons in Hlen. inversion Hu as [|? ? _ Hu']; subst. rewrite drop_0.
  destruct (SegwitAddr.convertbits rest 5 8 false) as [res|] eqn:Ec.
  2: { cbn [mbind option_bind]. destruct (16 <? v); reject_cases. }
  destruct (convertbits_5_8 rest res Hu' Ec) as [H8 Hback].
  destruct (convertbits_8_5 res H8) as (rest' & Hc' & _ & _ & Hl). rewrite Hback in Hc'. injection Hc' as <-.
  cbn [mbind option_bind]. change (znth (v :: rest) 0) with (Some v). cbn [mbind option_bind].
  destruct ((zlen res <? 2) || (40 <? zlen res)) eqn:Erange.
  { destruct (16 <? v); reject_cases. }
  breflect.
  assert (14 <= zlen addr <= 74 /\ (Z.rem (zlen addr) 8 =? 0) || (Z.rem (zlen addr) 8 =? 3) || (Z.rem (zlen addr) 8 =? 5) = false)
    as [Ha Hb].
  { rewrite Hlen, Hl. split; [dlia|]. rewrite Z.rem_mod_nonneg by dlia.
    rewrite !orb_false_iff, !Z.eqb_neq. dlia. }
  rewrite Hb. zsimp. destruct (16 <? v); [done|].
  destruct ((v =? 0) && _ && _); [done|]. naive_solver.
Qed.

(** *** Witnesses *)

Lemma Bech32Ecc_locates_one_error_witness :
  Bech32Ecc.check (Bech32.encode bc [16; 14; 20; 15; 0]) [bc] = Some (Bech32Ecc.CheckOk bc [16; 14; 20; 15; 0]) /\
  Bech32Ecc.check (bc ++ js_str "1" ++
      map sym_char (<[2%nat := 21]> ([16; 14; 20; 15; 0] ++ Bech32.createChecksum bc [16; 14; 20; 15; 0]))) [bc] =
    Some (Bech32Ecc.CheckError Bech32Ecc.Invalid (Some [5])).
Proof.
  apply (Bech32Ecc_locates_one_error bc [16; 14; 20; 15; 0] 2 20 21 [bc]);
    [exact bc_valid|left|repeat constructor; vm_compute; congruence|vm_compute; discriminate
    |vm_compute; reflexivity|vm_compute; split; congruence|discriminate].
Defined.

Lemma SegwitAddrEcc_check_decode_witness :
  SegwitAddrEcc.check (js_str "BC1SW50QA3JX3S") [bc] = Some (SegwitAddrEcc.AddrOk 16 [117; 30]).
Proof.
  apply (SegwitAddrEcc_check_decode (js_str "BC1SW50QA3JX3S") bc 16 [117; 30]).
  - reflexivity.
  - vm_compute. reflexivity.
Defined.
